(* ===== verification/_CoqProject ===== *)
-Q . S2P
Prelude.v
Memory.v
Slice.v
MemComparable.v
RowCodec.v
RowBuild.v
RowView.v
RowThms.v
RowProject.v
CrcTables.v
Coding.v
LogFile.v
LogWriter.v
LogLayout.v
LogReader.v
LogRoundtrip.v
LogThms.v
LogLive.v
Random.v
Skiplist.v
SkiplistInv.v
SkiplistInsert.v
SkiplistSplit.v
SkiplistSpec.v
SkiplistNodes.v
SkiplistThms.v
Segment.v
SegmentGc.v
SegmentRelease.v
SegmentInv.v
SegmentGcInv.v
SegmentOps.v
SegmentRefine.v
SegmentClaims.v
StdMap.v
Strings.v
LogRoll.v
LogGrow.v
Hash.v
TableIndex.v
TableParse.v
Table.v
MemTable.v
MemTableGc.v
MemTableIter.v
Binlog.v
BinlogWrite.v
BinlogRecover.v
TableLaws.v
SampleLog.v
ReplicateNode.v
Replicator.v
Tablet.v
LogNames.v
ReplicaLog.v
ReplicaSend.v
Snapshot.v
SnapshotTable.v
SnapshotMake.v
SnapshotStore.v
ReplicaFollow.v
Replication.v
ReplicaOpen.v
Durable.v
Serve.v
ReplicationClaims.v
MemTableInv.v
TableParseThms.v
MemTableOps.v
MemTablePut.v
MemTableSched.v
MemTableVisible.v
MemTableIterThms.v
MemTableTraverse.v
MemTableOpen.v
MemTableClaims.v
MemTableLaws.v
ServeClaims.v
SnapshotLoad.v
SnapshotServe.v
