(* ===== verification/Prelude.v ===== *)
(** * FEDB: the storage, log, replication and tablet layers

    A development beside the C++ sources of FEDB, an in-memory time-series
    database.  Paths below are relative to [src/src/].

    ** The program and its parts

    A tablet server holds partitions of tables.  A partition is a memory table
    ([storage/mem_table.cc]), a log replicator ([replica/log_replicator.cc]) that
    writes every change to a binlog before it is sent to followers, and a snapshot
    ([storage/mem_table_snapshot.cc]) that replaces the beginning of the binlog.
    A put or delete request ([tablet/tablet_impl.cc]) changes the table and appends
    an entry to the binlog.  The leader's nodes ([replica/replicate_node.cc]) read
    the binlog and send its entries to followers, which append them to their own
    binlogs and apply them to their tables.  After a restart a partition loads its
    snapshot and replays the binlog behind it ([storage/binlog.cc]).  A memory table
    spreads the keys of each index over segments ([storage/segment.cc]) by a hash
    ([base/hash.h]); a segment is a skiplist ([base/skiplist.h]) from keys to
    skiplists from times to data blocks; rows inside the blocks have the format of
    [codec/codec.cc].  The binlog and the snapshots are log files in the format of
    [log/log_writer.cc], with checksums of [log/crc32c.cc].

    ** Conventions

    An integer is a [Z]; where an operation can leave its width the wrap-around is
    written out ([uwrap], [swrap], [u32], [u64]).  Byte strings are [list Z].
    Objects reached through pointers live in heaps ([gmap]).  A function returns
    [None] on undefined behaviour, a failing assertion or exhausted fuel, so that a
    theorem with [Some] on the right shows that none of them happens.  A call of an
    operation is one step: in the sources it holds the mutex of its object, or its
    caller does.  Times and the outcome of system calls are arguments.  What lies
    outside the sources is a class with its laws, and an instance of each is given
    for the examples ([SampleLog], [SnapshotServe]): the encoding of log entries and
    of manifests by protobuf ([EntryCodecLaws], [ManifestCodecLaws]), the compression
    libraries ([Compressors]), sizes of C++ objects ([Layout]), configuration flags
    ([TableFlags], [BinlogFlags], [SnapshotFlags]), and the network.  The file system
    is a map from names to contents with sets of denied files and of failing writes
    ([FileSystem] in [LogRoll]).

    ** Files

    - [Prelude], [Memory], [StdMap], [Strings]: integers, buffers with bounds,
      [std::map], and the string helpers of [base/strings.h].
    - [Slice]: [base/slice.h] and the comparators; [MemComparable]:
      [codec/memcomparable_format.h]; [Hash]: [base/hash.h].
    - [RowCodec], [RowBuild], [RowView], [RowThms], [RowProject]: [RowBuilder],
      [RowView] and [RowProject] of [codec/codec.cc].
    - [CrcTables], [Coding]: [log/coding.h], [log/crc32c.cc].
    - [LogFile], [LogWriter], [LogLayout], [LogReader], [LogRoundtrip], [LogThms],
      [LogLive], [LogGrow], [LogRoll]: the log writer and the class [Reader], one
      file at rest, cut short and growing; and the class [LogReader] over the files
      of a binlog.
    - [Random], [Skiplist], [SkiplistInv], [SkiplistInsert], [SkiplistSplit],
      [SkiplistSpec], [SkiplistNodes], [SkiplistThms]: [base/skiplist.h].
    - [Segment], [SegmentGc], [SegmentRelease] are [storage/segment.cc],
      [storage/ticket.cc] and [storage/record.h]; [SegmentInv], [SegmentGcInv],
      [SegmentOps], [SegmentRefine], [SegmentClaims] prove them.
    - [TableIndex], [TableParse], [Table]: [storage/schema.cc], [storage/table.cc].
    - [MemTable], [MemTableGc], [MemTableIter] are [storage/mem_table.cc];
      [MemTableInv], [TableParseThms], [MemTableOps], [MemTablePut],
      [MemTableSched], [MemTableVisible], [MemTableIterThms], [MemTableTraverse],
      [MemTableOpen], [MemTableClaims] prove them.
    - [Binlog], [BinlogWrite], [BinlogRecover]: [storage/binlog.cc] and the write
      handle of [log/log_writer.h].
    - [ReplicateNode], [Replicator], [LogNames], [ReplicaLog], [ReplicaSend],
      [ReplicaFollow], [ReplicaOpen], [Replication], [ReplicationClaims]:
      [replica/replicate_node.cc] and [replica/log_replicator.cc].
    - [Snapshot], [SnapshotTable], [SnapshotMake], [SnapshotStore], [SnapshotLoad],
      [SnapshotServe]: [storage/snapshot.cc], [storage/mem_table_snapshot.cc].
    - [Tablet], [Durable], [Serve], [ServeClaims]: the handlers [Put], [Delete] and
      [AppendEntries] and the loading of a table of [tablet/tablet_impl.cc], and a
      server as a sequence of requests, restarts and crashes.
    - [TableLaws]: the interface between tables and the layers above; [MemTableLaws]
      proves it, and that of snapshots ([SnapshotLaws]), for the memory table.

    The state of a component is the record with the name of its class, and an
    operation the definition with the name of the method; a loop of a method is a
    [Fixpoint] with the suffix [_loop] or a name of its own beside it.

    ** What the theorems show

    - Durability.  [SnapshotServe.snapshot_durable] and [ServeClaims.tablet_durable]:
      a partition with puts, deletes, snapshots, deletion of old log files, restarts,
      crashes that lose the end of the last file, and kills in the middle of making
      a snapshot refines a store that consists of an abstract table and the list of
      accepted entries.  [Durable.binlog_durable] is the statement on the binlog
      alone.
    - Replication.  [ReplicationClaims.replication_safe]: the follower's log is at
      all times a beginning of the leader's; [replication_catches_up]: it reaches the
      end in a bounded number of rounds whose requests come through.
    - Memory tables and segments ([MemTableClaims], [SegmentClaims]): refinement of
      maps from keys to rows, exact counters and reference counts, no leak and no
      access to freed memory, complete traversals, readers that are not disturbed by
      collections, collections that remove only rows no reader would be shown.
    - Skiplists ([SkiplistThms]): refinement of a sorted sequence by the pointer code.
    - Logs ([LogThms]): what is written is read back, and of a file cut anywhere
      exactly the complete records.
    - Formats ([RowThms], [RowProject], [MemComparable], [Coding]): round trips,
      order of packed keys, the checksum against its bitwise definition.
    - Errors.  Some theorems state where the code does not do what it means to:
      a second snapshot in one minute
      ([SnapshotServe.snapshot_same_minute]) repeats or loses entries, a row with
      one timestamp for indexes on several columns
      ([MemTableClaims.memtable_block_miscounted]) makes [Release] use a freed
      block, a view that refused one row stays unusable
      ([RowThms.Reset_failure_sticks]), rows labelled 1 are projected with the
      layout of another version ([RowProject.project_version_gap]), and a cut that
      empties a skiplist leaves [SeekToLast] valid ([skiplist_emptied_tail]).

    ** Bounds and fuel

    Loops that are not structural take fuel; each theorem about them shows that the
    fuel its callers give is enough, or asks for a bound in terms of the number of
    entries.  [K] bounds the number of actions of a run, [M] the size of a serialised
    entry: a run needs at most one log file and one entry per action, so twice [K]
    steps read the log, and the sizes are kept below [2^62] so that offsets in files
    do not overflow.  The number of log files stays below the number of names.  The
    refinement of segments covers segments with one timestamp column and that of
    memory tables covers descriptions that give each index an inner index of its own
    ([plain_meta]) and calls that give every index they name its timestamp
    ([mem_op_ok]); the operations themselves are defined for all of them.  A
    traversal stops after [FLAGS_max_traverse_cnt] steps, so the theorems on it ask
    for an index that is smaller.  The theorems on log files cover files without
    compression.  Replication asks that the follower's table accepts the entries
    ([all_apply]).

    Assumptions of [snapshot_durable] on its runs: a new snapshot does not have the
    name of the snapshot of the manifest or of a temporary file left behind, and a
    crash does not lose log entries that are already in the snapshot;
    [snapshot_same_minute] shows what happens without the first.  A partition is
    started with the format version 0, and has a table and a replicator or neither.

    ** Not modelled

    The name server, ZooKeeper, the clients, the SDK and the command line: remote
    procedure calls and services outside the sources.  The other handlers of the
    tablet server.  The codecs built on the row codec ([codec/sdk_codec.cc] and
    others) and the text conversions of [codec/codec.cc].  The rewriting of snapshots
    for a new index.  Interleavings inside an operation, and memory orders. *)

From stdpp Require Export base numbers list option gmap.
From stdpp Require Export sorting.

Declare Scope fedb_scope.
Delimit Scope fedb_scope with fedb.
Open Scope Z_scope.

(** ** Machine integers

    A [w]-bit C++ integer is a [Z]; every operation that can leave the range
    writes its wrap-around out with one of the functions below. *)
Definition uwrap (w x : Z) : Z := x `mod` 2 ^ w.
Definition swrap (w x : Z) : Z := (x + 2 ^ (w - 1)) `mod` 2 ^ w - 2 ^ (w - 1).

Abbreviation u8 := (uwrap 8).
Abbreviation u16 := (uwrap 16).
Abbreviation u32 := (uwrap 32).
Abbreviation u64 := (uwrap 64).
Abbreviation s8 := (swrap 8).
Abbreviation s16 := (swrap 16).
Abbreviation s32 := (swrap 32).
Abbreviation s64 := (swrap 64).

Definition in_uint (w x : Z) : Prop := 0 <= x < 2 ^ w.
Definition in_sint (w x : Z) : Prop := - 2 ^ (w - 1) <= x < 2 ^ (w - 1).

Lemma uwrap_id w x : in_uint w x -> uwrap w x = x.
Proof. intros [??]. apply Z.mod_small. lia. Qed.

Lemma uwrap_range w x : 0 <= w -> in_uint w (uwrap w x).
Proof.
  intros Hw. unfold in_uint, uwrap. apply Z.mod_pos_bound.
  apply Z.pow_pos_nonneg; lia.
Qed.

Lemma uwrap_add_l w x y : uwrap w (uwrap w x + y) = uwrap w (x + y).
Proof. apply Zplus_mod_idemp_l. Qed.

Lemma uwrap_sub_l w x y : uwrap w (uwrap w x - y) = uwrap w (x - y).
Proof. apply Zminus_mod_idemp_l. Qed.

Lemma uwrap_sub_r w x y : uwrap w (x - uwrap w y) = uwrap w (x - y).
Proof. apply Zminus_mod_idemp_r. Qed.

Lemma pow2_split w : 1 <= w -> 2 ^ w = 2 * 2 ^ (w - 1).
Proof. intros Hw. rewrite <- Z.pow_succ_r by lia. f_equal. lia. Qed.

Lemma swrap_id w x : 1 <= w -> in_sint w x -> swrap w x = x.
Proof.
  intros Hw [??]. unfold swrap. pose proof (pow2_split w Hw) as Hp.
  rewrite Z.mod_small by lia. lia.
Qed.

Lemma swrap_uwrap w x : 1 <= w -> in_sint w x -> swrap w (uwrap w x) = x.
Proof.
  intros Hw Hx. rewrite <- (swrap_id w x) at 2 by done. unfold swrap, uwrap.
  f_equal. apply Zplus_mod_idemp_l.
Qed.

(** Wrap-around of sums and differences is taken once: [autorewrite with wrap]
    removes the inner ones. *)
Create Rewrite HintDb wrap.
#[export] Hint Rewrite uwrap_add_l uwrap_sub_l uwrap_sub_r : wrap.

(** Ranges of machine integers and of bytes, closed by [auto with fedb]. *)
Create HintDb fedb discriminated.
#[export] Hint Resolve uwrap_range : fedb.
#[export] Hint Extern 1 (_ <= _) => lia : fedb.
#[export] Hint Extern 1 (_ < _) => lia : fedb.
#[export] Hint Extern 2 (in_uint _ _) => unfold in_uint; lia : fedb.
#[export] Hint Extern 2 (in_sint _ _) => unfold in_sint; lia : fedb.

(** ** Bytes *)
Abbreviation bytes := (list Z).
Definition is_byte (b : Z) : Prop := 0 <= b < 256.
Abbreviation all_bytes := (Forall is_byte).

#[global] Instance is_byte_dec b : Decision (is_byte b).
Proof. unfold is_byte. apply _. Defined.

(** Little-endian storage of the low [n] bytes of an integer, as the
    [reinterpret_cast] stores of the sources produce it on the supported
    (little-endian) platforms. *)
Fixpoint le_bytes (n : nat) (x : Z) : bytes :=
  match n with
  | O => []
  | S n' => x `mod` 256 :: le_bytes n' (x `div` 256)
  end.

Fixpoint le_val (bs : bytes) : Z :=
  match bs with
  | [] => 0
  | b :: bs' => b + 256 * le_val bs'
  end.

Lemma length_le_bytes n x : length (le_bytes n x) = n.
Proof. revert x; induction n as [|n IH]; intros x; simpl; [done|by rewrite IH]. Qed.

Lemma le_bytes_all n x : all_bytes (le_bytes n x).
Proof.
  revert x; induction n as [|n IH]; intros x; simpl; constructor; [|done].
  unfold is_byte. apply Z.mod_pos_bound. lia.
Qed.

#[export] Hint Resolve le_bytes_all : fedb.

Lemma le_val_bytes n x : le_val (le_bytes n x) = x `mod` 2 ^ (8 * Z.of_nat n).
Proof.
  revert x; induction n as [|n IH]; intros x.
  - simpl. by rewrite Z.mod_1_r.
  - cbn [le_bytes le_val]. rewrite IH.
    replace (8 * Z.of_nat (S n)) with (8 + 8 * Z.of_nat n) by lia.
    rewrite Z.pow_add_r by lia. change (2 ^ 8) with 256.
    rewrite Z.rem_mul_r by lia. done.
Qed.

Lemma le_bytes_val bs : all_bytes bs -> le_bytes (length bs) (le_val bs) = bs.
Proof.
  induction 1 as [|b bs Hb Hbs IH]; cbn [length le_bytes le_val]; [done|].
  unfold is_byte in Hb. rewrite (Z.mul_comm 256), Z.mod_add by lia.
  rewrite Z.div_add by lia. rewrite (Z.div_small b), (Z.mod_small b) by lia.
  by rewrite Z.add_0_l, IH.
Qed.

Lemma le_val_app a b : le_val (a ++ b) = le_val a + 2 ^ (8 * Z.of_nat (length a)) * le_val b.
Proof.
  induction a as [|x a IH]; [simpl; lia|]. cbn [app le_val length]. rewrite IH.
  replace (8 * Z.of_nat (S (length a))) with (8 + 8 * Z.of_nat (length a)) by lia. rewrite Z.pow_add_r by lia. lia.
Qed.

Lemma le_val_range bs : all_bytes bs -> 0 <= le_val bs < 2 ^ (8 * Z.of_nat (length bs)).
Proof.
  intros H. rewrite <- (le_bytes_val bs H) at 1 2. rewrite le_val_bytes.
  apply Z.mod_pos_bound. apply Z.pow_pos_nonneg; lia.
Qed.

(** ** The failure monad

    [None] stands for undefined behaviour: a dereferenced NULL or dangling
    pointer, an index outside an array, a failed [assert], or (for loops) fuel
    that ran out.  A theorem that an operation returns [Some _] therefore says
    that it is free of all of these. *)
Definition require (b : bool) : option unit := if b then Some tt else None.

Lemma require_Some b u : require b = Some u <-> b = true.
Proof. unfold require. destruct b, u; split; congruence. Qed.

(** The monad laws as rewrite rules: cheaper to check than reductions when the
    continuation is large. *)
Lemma require_true {A} (b : bool) (k : unit -> option A) : b = true -> (require b ≫= k) = k tt.
Proof. by intros ->. Qed.
Lemma require_P {A} (P : Prop) `{Decision P} (k : unit -> option A) : P -> (require (bool_decide P) ≫= k) = k tt.
Proof. intros HP. by rewrite bool_decide_eq_true_2. Qed.
Lemma bind_some {A B} (x : A) (k : A -> option B) : (Some x ≫= k) = k x.
Proof. done. Qed.

(** Decides the equalities between constants in the goal. *)
Ltac decide_const :=
  repeat match goal with
  | |- context [decide (?a = ?b)] =>
      first [rewrite (decide_False (P := a = b)) by done | rewrite (decide_True (P := a = b)) by done]
  end.

(** ** Value initialisation ([T()] in C++) *)
Class ValueInit (A : Type) := value_init : A.
#[global] Instance value_init_Z : ValueInit Z := 0.
#[global] Instance value_init_list {A} : ValueInit (list A) := [].
#[global] Instance value_init_ptr {A} : ValueInit (option A) := None.

(** ** List lemmas *)
Lemma last_cons_app {A} (x : A) l y l' : last (x :: l ++ y :: l') = last (y :: l').
Proof. rewrite app_comm_cons. by rewrite last_app_cons. Qed.

Lemma elem_of_app_cons {A} (x : A) l1 l2 : x ∈ l1 ++ x :: l2.
Proof. apply elem_of_app; right; constructor. Qed.

Lemma sublist_filter {A} (P : A -> Prop) `{!forall x, Decision (P x)} (l k : list A) :
  l `sublist_of` k -> filter P l `sublist_of` filter P k.
Proof.
  intros Hlk. induction Hlk as [|x l k Hlk IH|x l k Hlk IH]; rewrite ?filter_cons; [done| |];
    case_decide; try done; by constructor.
Qed.

(** Splitting a list sorted for a downward-closed test. *)
Lemma sorted_filter_split {A} (R : A -> A -> Prop) (P : A -> Prop)
    `{!forall x, Decision (P x)} (l : list A) :
  (forall x y, R x y -> P y -> P x) -> StronglySorted R l ->
  l = filter P l ++ filter (fun x => ~ P x) l.
Proof.
  intros HR Hs. induction Hs as [|x l Hs IH Hx]; [done|].
  rewrite !filter_cons. destruct (decide (P x)) as [Hp|Hp].
  - rewrite decide_False by tauto. simpl. by f_equal.
  - rewrite decide_True by done.
    assert (filter P l = []) as Hf.
    { clear IH Hs. induction Hx as [|y l Hy Hl IH]; [done|].
      rewrite filter_cons. rewrite decide_False by eauto. done. }
    rewrite Hf in *. simpl in *. by f_equal.
Qed.

Lemma filter_fmap {A B} (f : A -> B) (P : B -> Prop) `{!forall x, Decision (P x)} (l : list A) :
  filter P (f <$> l) = f <$> filter (fun x => P (f x)) l.
Proof.
  induction l as [|x l IH]; [done|]. rewrite fmap_cons, !filter_cons, IH.
  destruct (decide (P (f x))); done.
Qed.

Lemma filter_none {A} (P : A -> Prop) `{!forall x, Decision (P x)} (l : list A) :
  (forall x, x ∈ l -> ~ P x) -> filter P l = [].
Proof.
  induction l as [|x l IH]; intros Hl; [done|].
  rewrite filter_cons_False by (apply Hl; left). apply IH. intros y Hy. apply Hl. by right.
Qed.

Lemma filter_all {A} (P : A -> Prop) `{!forall x, Decision (P x)} (l : list A) :
  (forall x, x ∈ l -> P x) -> filter P l = l.
Proof.
  induction l as [|x l IH]; intros Hl; [done|].
  rewrite filter_cons_True by (apply Hl; left). f_equal. apply IH. intros y Hy. apply Hl. by right.
Qed.

Lemma bind_fmap {A B C} (f : A -> B) (g : B -> list C) (l : list A) : (f <$> l) ≫= g = l ≫= (g ∘ f).
Proof. induction l as [|x l IH]; [done|]. by rewrite fmap_cons, !bind_cons, IH. Qed.

Lemma bind_ext_elem {A B} (f g : A -> list B) (l : list A) : (forall x, x ∈ l -> f x = g x) -> l ≫= f = l ≫= g.
Proof.
  induction l as [|x l IH]; intros Hl; [done|]. rewrite !bind_cons, (Hl x) by left. f_equal. apply IH. intros y Hy. apply Hl. by right.
Qed.

(** ** Bit operations *)
Lemma land_shiftl_low a b n : 0 <= n -> 0 <= b < 2 ^ n -> Z.land (Z.shiftl a n) b = 0.
Proof.
  intros Hn Hb. apply Z.bits_inj'. intros i Hi. rewrite Z.land_spec, Z.bits_0, Z.shiftl_spec by lia.
  destruct (decide (i < n)).
  - by rewrite (Z.testbit_neg_r a) by lia.
  - rewrite <- (Z.mod_small b (2 ^ n)), Z.mod_pow2_bits_high by lia. apply andb_false_r.
Qed.

Lemma lor_shiftl a b n : 0 <= n -> 0 <= b < 2 ^ n -> Z.lor (Z.shiftl a n) b = a * 2 ^ n + b.
Proof.
  intros Hn Hb. rewrite <- Z.add_nocarry_lor by by apply land_shiftl_low. by rewrite Z.shiftl_mul_pow2.
Qed.

(** Closes [all_bytes] goals on literal byte lists. *)
Ltac solve_bytes :=
  repeat (apply Forall_cons; split; [unfold is_byte; lia|]); constructor.

Lemma testbit_high n a i : 0 <= a < 2 ^ n -> 0 <= n <= i -> Z.testbit a i = false.
Proof. intros Ha Hi. rewrite <- (Z.mod_small a (2 ^ n)) by lia. apply Z.mod_pow2_bits_high. lia. Qed.

Lemma lxor_range n a b : 0 <= n -> 0 <= a < 2 ^ n -> 0 <= b < 2 ^ n -> 0 <= Z.lxor a b < 2 ^ n.
Proof.
  intros Hn Ha Hb. assert (Z.lxor a b = (Z.lxor a b) `mod` 2 ^ n) as ->; [|apply Z.mod_pos_bound; lia].
  apply Z.bits_inj'. intros i Hi. destruct (decide (i < n)).
  - by rewrite Z.mod_pow2_bits_low by lia.
  - rewrite Z.mod_pow2_bits_high, Z.lxor_spec by lia. by rewrite !(testbit_high n) by (done || lia).
Qed.

Lemma shiftr_range n k x : 0 <= k <= n -> 0 <= x < 2 ^ n -> 0 <= Z.shiftr x k < 2 ^ (n - k).
Proof.
  intros Hk Hx. rewrite Z.shiftr_div_pow2 by lia. split; [apply Z.div_pos; lia|].
  apply Z.div_lt_upper_bound; [lia|]. rewrite <- Z.pow_add_r by lia. replace (k + (n - k)) with n by lia. lia.
Qed.
