(* ===== verification/Memory.v ===== *)
(** Byte buffers with bounds: the memory a [char*] of known extent points to.
    A load or store outside the buffer is undefined behaviour ([None]). *)
From S2P Require Import Prelude.

(** [memcpy(buf + off, d, n)] and the typed stores *)
Definition store (buf : bytes) (off : Z) (d : bytes) : option bytes :=
  _ ← require (bool_decide (0 <= off /\ off + Z.of_nat (length d) <= Z.of_nat (length buf)));
  Some (take (Z.to_nat off) buf ++ d ++ drop (Z.to_nat off + length d) buf).

(** [n] bytes at [buf + off] *)
Definition load (buf : bytes) (off : Z) (n : nat) : option bytes :=
  _ ← require (bool_decide (0 <= off /\ off + Z.of_nat n <= Z.of_nat (length buf)));
  Some (take n (drop (Z.to_nat off) buf)).

Definition load_uint (n : nat) (buf : bytes) (off : Z) : option Z := d ← load buf off n; Some (le_val d).
Definition load_sint (n : nat) (buf : bytes) (off : Z) : option Z :=
  d ← load buf off n; Some (swrap (8 * Z.of_nat n) (le_val d)).

(** [buf] has the bytes [d] at [off]. *)
Definition holds (buf : bytes) (off : Z) (d : bytes) : Prop := load buf off (length d) = Some d.

Lemma load_Some buf off n : 0 <= off -> off + Z.of_nat n <= Z.of_nat (length buf) ->
  load buf off n = Some (take n (drop (Z.to_nat off) buf)).
Proof. intros ??. unfold load. by rewrite require_P. Qed.

Lemma store_Some buf off d : 0 <= off -> off + Z.of_nat (length d) <= Z.of_nat (length buf) ->
  store buf off d = Some (take (Z.to_nat off) buf ++ d ++ drop (Z.to_nat off + length d) buf).
Proof. intros ??. unfold store. by rewrite require_P. Qed.

Lemma store_inv buf off d buf' : store buf off d = Some buf' ->
  0 <= off /\ off + Z.of_nat (length d) <= Z.of_nat (length buf) /\
  buf' = take (Z.to_nat off) buf ++ d ++ drop (Z.to_nat off + length d) buf.
Proof.
  unfold store, require. case_bool_decide as Hb; [|done]. intros [= <-]. tauto.
Qed.

Lemma store_length buf off d buf' : store buf off d = Some buf' -> length buf' = length buf.
Proof.
  intros (H1 & H2 & ->)%store_inv. rewrite !length_app, length_take, length_drop. lia.
Qed.

Lemma store_ok buf off d : 0 <= off -> off + Z.of_nat (length d) <= Z.of_nat (length buf) ->
  exists buf', store buf off d = Some buf' /\ length buf' = length buf.
Proof.
  intros H1 H2. eexists. split; [by apply store_Some|]. by apply (store_length buf off d), store_Some.
Qed.

Lemma load_store_same buf off d buf' : store buf off d = Some buf' -> load buf' off (length d) = Some d.
Proof.
  intros Hs. pose proof (store_length _ _ _ _ Hs) as Hl. apply store_inv in Hs as (H1 & H2 & ->).
  rewrite load_Some by lia. f_equal. rewrite drop_app_length' by (rewrite length_take; lia). apply take_app_length.
Qed.

Lemma load_store_other buf off d buf' o n : store buf off d = Some buf' ->
  o + Z.of_nat n <= off \/ off + Z.of_nat (length d) <= o -> load buf' o n = load buf o n.
Proof.
  intros Hs Ho. pose proof (store_length _ _ _ _ Hs) as Hl. unfold load. rewrite Hl.
  unfold require. case_bool_decide as Hb; [|done]. rewrite !bind_some. f_equal. apply store_inv in Hs as (H1 & H2 & ->).
  apply list_eq. intros j. destruct (decide (j < n)%nat) as [Hj|Hj];
    [|by rewrite !lookup_take_ge by lia].
  rewrite !lookup_take_lt, !lookup_drop by lia. destruct Ho as [Ho|Ho].
  - rewrite lookup_app_l, lookup_take_lt by (rewrite ?length_take; lia). done.
  - rewrite lookup_app_r, lookup_app_r by (rewrite ?length_take; lia).
    rewrite length_take, lookup_drop. f_equal. lia.
Qed.

Lemma holds_store_same buf off d buf' : store buf off d = Some buf' -> holds buf' off d.
Proof. apply load_store_same. Qed.

Lemma holds_store_other buf off d buf' o e : store buf off d = Some buf' -> holds buf o e ->
  o + Z.of_nat (length e) <= off \/ off + Z.of_nat (length d) <= o -> holds buf' o e.
Proof. intros Hs He Ho. unfold holds. by rewrite (load_store_other _ _ _ _ _ _ Hs). Qed.

Lemma holds_uint n buf off x : holds buf off (le_bytes n x) -> load_uint n buf off = Some (x `mod` 2 ^ (8 * Z.of_nat n)).
Proof. unfold holds, load_uint. rewrite length_le_bytes. intros ->. rewrite bind_some. by rewrite le_val_bytes. Qed.

Lemma holds_sint n buf off x : (0 < n)%nat -> in_sint (8 * Z.of_nat n) x -> holds buf off (le_bytes n x) ->
  load_sint n buf off = Some x.
Proof.
  intros Hn Hx. unfold holds, load_sint. rewrite length_le_bytes. intros ->. rewrite bind_some, le_val_bytes.
  f_equal. apply swrap_uwrap; [lia|done].
Qed.

(** A single byte *)
Definition load1 (buf : bytes) (off : Z) : option Z := load_uint 1 buf off.

Lemma load1_lookup buf off b : load1 buf off = Some b <-> 0 <= off /\ buf !! Z.to_nat off = Some b.
Proof.
  unfold load1, load_uint, load, require. case_bool_decide as Hb.
  - rewrite !bind_some. destruct (buf !! Z.to_nat off) as [c|] eqn:E.
    + erewrite (take_S_r _ 0) by (rewrite lookup_drop, Nat.add_0_r; exact E). rewrite take_0. cbn [app le_val]. split; [|intros [_ [= ->]]; f_equal; lia].
      intros [= <-]. split; [lia|f_equal; lia].
    + apply lookup_ge_None in E. lia.
  - split; [done|]. intros [H1 H2%lookup_lt_Some]. lia.
Qed.

(** Two adjacent stores are one. *)
Lemma store_app buf off d1 d2 : 0 <= off -> off + Z.of_nat (length d1 + length d2) <= Z.of_nat (length buf) ->
  (b ← store buf off d1; store b (off + Z.of_nat (length d1)) d2) = store buf off (d1 ++ d2).
Proof.
  intros H1 H2. destruct (store_ok buf off d1) as (b & Hb & Hl); [lia..|]. rewrite Hb, bind_some.
  rewrite !store_Some by (rewrite ?length_app; lia). apply store_inv in Hb as (_ & _ & ->). f_equal.
  rewrite !app_assoc. set (A := take (Z.to_nat off) buf ++ d1).
  assert (HA : Z.to_nat (off + Z.of_nat (length d1)) = length A) by (unfold A; rewrite length_app, length_take; lia).
  rewrite HA, take_app_length, <- drop_drop, drop_app_length, drop_drop. do 2 f_equal. rewrite length_app. lia.
Qed.

Lemma store_nil buf off : 0 <= off <= Z.of_nat (length buf) -> store buf off [] = Some buf.
Proof. intros H. rewrite store_Some by (simpl; lia). f_equal. simpl. rewrite Nat.add_0_r. apply take_drop. Qed.
