(* ===== verification/Slice.v ===== *)
(** Byte strings and comparators.

    Models [Slice] of [src/base/slice.h] (a [Slice] is the byte string it
    refers to) and the comparator objects handed to the skiplists:
    [SliceComparator] and [TimeComparator] of [src/storage/segment.h] and
    [DefaultComparator] of [src/base/skiplist.h].  [Comparator] is the
    interface a skiplist relies on; its laws are proved for each of them. *)
From S2P Require Import Prelude.

(** ** The comparator interface *)

Class Comparator (K : Type) := compare_ : K -> K -> Z.
#[global] Hint Mode Comparator ! : typeclass_instances.

(** What a skiplist needs of its comparator: a total order whose equivalence
    is equality of keys. *)
Class ComparatorLaws (K : Type) `{Comparator K} : Prop := {
  cmp_eq : forall a b : K, compare_ a b = 0 <-> a = b;
  cmp_flip : forall a b : K, compare_ a b < 0 <-> 0 < compare_ b a;
  cmp_lt_trans : forall a b c : K, compare_ a b < 0 -> compare_ b c < 0 -> compare_ a c < 0
}.

Section comparator.
Context {K : Type} `{ComparatorLaws K}.

Lemma cmp_refl (a : K) : compare_ a a = 0.
Proof. by apply cmp_eq. Qed.

Lemma cmp_flip_ge (a b : K) : compare_ a b <= 0 <-> 0 <= compare_ b a.
Proof. pose proof (cmp_flip b a). pose proof (cmp_eq a b). pose proof (cmp_eq b a).
  destruct (Z.lt_total (compare_ a b) 0) as [Hl|[Hl|Hl]].
  - apply cmp_flip in Hl. lia.
  - assert (a = b) as -> by by apply cmp_eq. lia.
  - lia.
Qed.

Lemma cmp_le_lt_trans (a b c : K) : compare_ a b <= 0 -> compare_ b c < 0 -> compare_ a c < 0.
Proof.
  intros Hab Hbc. destruct (decide (compare_ a b = 0)) as [E|E].
  - apply cmp_eq in E as ->. done.
  - apply (cmp_lt_trans a b c); [lia|done].
Qed.

Lemma cmp_lt_le_trans (a b c : K) : compare_ a b < 0 -> compare_ b c <= 0 -> compare_ a c < 0.
Proof.
  intros Hab Hbc. destruct (decide (compare_ b c = 0)) as [E|E].
  - apply cmp_eq in E as ->. done.
  - apply (cmp_lt_trans a b c); [done|lia].
Qed.

Lemma cmp_le_trans (a b c : K) : compare_ a b <= 0 -> compare_ b c <= 0 -> compare_ a c <= 0.
Proof.
  intros Hab Hbc. destruct (decide (compare_ b c = 0)) as [E|E].
  - apply cmp_eq in E as ->. done.
  - pose proof (cmp_le_lt_trans a b c). lia.
Qed.
End comparator.

(** ** Slices *)

(** [Slice(const char* d, size_t n)]: the size is stored in a [uint32_t]. *)
Definition Slice_make (d : bytes) (n : Z) : bytes := take (Z.to_nat (u32 n)) d.

(** [memcmp] over the first [n] bytes; only the sign of the result is
    specified, the model returns -1, 0 or 1. *)
Fixpoint memcmp (a b : bytes) (n : nat) {struct n} : Z :=
  match n, a, b with
  | S n', x :: a', y :: b' =>
      if decide (x < y) then -1 else if decide (y < x) then 1 else memcmp a' b' n'
  | _, _, _ => 0
  end.

(** [Slice::compare] *)
Definition Slice_compare (a b : bytes) : Z :=
  let min_len := if decide (length a < length b)%nat then length a else length b in
  let r := memcmp a b min_len in
  if decide (r = 0) then
    if decide (length a < length b)%nat then -1
    else if decide (length b < length a)%nat then 1
    else r
  else r.

(** [operator==] *)
Definition Slice_eqb (x y : bytes) : bool :=
  bool_decide (length x = length y) && bool_decide (memcmp x y (length x) = 0).

(** [Slice::starts_with] *)
Definition starts_with (s x : bytes) : bool :=
  bool_decide (length x <= length s)%nat && bool_decide (memcmp s x (length x) = 0).

(** [Slice::remove_prefix]; its [assert] makes it fail on a larger [n]. *)
Definition remove_prefix (s : bytes) (n : nat) : option bytes :=
  _ ← require (bool_decide (n <= length s)%nat); Some (drop n s).

(** The order [Slice::compare] is documented to implement: lexicographic on
    unsigned bytes, a proper prefix first. *)
Fixpoint lex_compare (a b : bytes) : Z :=
  match a, b with
  | [], [] => 0
  | [], _ :: _ => -1
  | _ :: _, [] => 1
  | x :: a', y :: b' =>
      if decide (x < y) then -1 else if decide (y < x) then 1 else lex_compare a' b'
  end.

Lemma memcmp_zero_prefix a b n :
  (n <= length a)%nat -> (n <= length b)%nat -> memcmp a b n = 0 <-> take n a = take n b.
Proof.
  revert a b; induction n as [|n IH]; intros a b Ha Hb; [by destruct a, b|].
  destruct a as [|x a], b as [|y b]; simpl in *; try lia.
  repeat case_decide; simpl; try (split; [lia|intros [=]; lia]).
  rewrite IH by lia. split; [intros ->; f_equal; lia|congruence].
Qed.

Lemma Slice_compare_lex a b : Slice_compare a b = lex_compare a b.
Proof.
  unfold Slice_compare. revert b; induction a as [|x a IH]; intros [|y b]; try done.
  specialize (IH b). simpl length in *.
  destruct (decide (length a < length b)%nat) as [Hl|Hl].
  - rewrite (decide_True (P := (S (length a) < S (length b))%nat)) by lia.
    simpl. repeat case_decide; try done; lia.
  - rewrite (decide_False (P := (S (length a) < S (length b))%nat)) by lia.
    simpl. repeat case_decide; try done; lia.
Qed.

Lemma lex_compare_eq a b : lex_compare a b = 0 <-> a = b.
Proof.
  revert b; induction a as [|x a IH]; intros [|y b]; simpl; try (split; [lia|done]); [done|].
  repeat case_decide; try (split; [lia|intros [=]; lia]).
  rewrite IH. split; [intros ->; f_equal; lia|by intros [=]].
Qed.

Lemma lex_compare_flip a b : lex_compare a b < 0 <-> 0 < lex_compare b a.
Proof.
  revert b; induction a as [|x a IH]; intros [|y b]; simpl; try lia.
  repeat case_decide; try lia. apply IH.
Qed.

Lemma lex_compare_trans a b c :
  lex_compare a b < 0 -> lex_compare b c < 0 -> lex_compare a c < 0.
Proof.
  revert b c; induction a as [|x a IH]; intros [|y b] [|z c]; simpl; try lia.
  repeat case_decide; try lia. apply IH.
Qed.

Lemma Slice_eqb_eq x y : Slice_eqb x y = true <-> x = y.
Proof.
  unfold Slice_eqb. rewrite andb_true_iff, !bool_decide_eq_true. split.
  - intros [Hl Hm]. rewrite memcmp_zero_prefix in Hm by lia.
    rewrite firstn_all in Hm. rewrite Hl, firstn_all in Hm. done.
  - intros ->. split; [done|]. by rewrite memcmp_zero_prefix by lia.
Qed.

(** [Slice::starts_with] decides the prefix relation. *)
Lemma starts_with_spec s x : starts_with s x = true <-> exists t, s = x ++ t.
Proof.
  unfold starts_with. rewrite andb_true_iff, !bool_decide_eq_true. split.
  - intros [Hl Hm]. rewrite memcmp_zero_prefix in Hm by lia. rewrite firstn_all in Hm.
    exists (drop (length x) s). rewrite <- Hm at 1. by rewrite take_drop.
  - intros [t ->]. rewrite length_app. split; [lia|].
    rewrite memcmp_zero_prefix by (rewrite ?length_app; lia).
    by rewrite take_app_length, firstn_all.
Qed.

(** ** The comparators of the program *)

(** [SliceComparator::operator()] *)
Definition SliceComparator (a b : bytes) : Z := Slice_compare a b.
#[global] Instance slice_comparator : Comparator bytes := SliceComparator.

(** [TimeComparator::operator()] and [DefaultComparator::operator()]: the
    newest (largest) time first. *)
Definition TimeComparator (a b : Z) : Z :=
  if decide (b < a) then -1 else if decide (a = b) then 0 else 1.
Definition DefaultComparator (a b : Z) : Z :=
  if decide (b < a) then -1 else if decide (a = b) then 0 else 1.
#[global] Instance time_comparator : Comparator Z := TimeComparator.

#[global] Instance slice_comparator_laws : ComparatorLaws bytes.
Proof.
  split; unfold compare_, slice_comparator, SliceComparator; intros;
    rewrite !Slice_compare_lex in *;
    eauto using lex_compare_trans; [apply lex_compare_eq|apply lex_compare_flip].
Qed.

#[global] Instance time_comparator_laws : ComparatorLaws Z.
Proof.
  split; unfold compare_, time_comparator, TimeComparator; intros;
    repeat case_decide; lia.
Qed.

Lemma time_lt a b : compare_ (K := Z) a b < 0 <-> b < a.
Proof. unfold compare_, time_comparator, TimeComparator. repeat case_decide; lia. Qed.

Lemma time_le a b : compare_ (K := Z) a b <= 0 <-> b <= a.
Proof. unfold compare_, time_comparator, TimeComparator. repeat case_decide; lia. Qed.

(** [Slice::compare] implements the lexicographic order its comment
    documents, and that order satisfies the laws the skiplist relies on: zero
    exactly on equal strings, sign-antisymmetric and transitive. *)
Theorem Slice_compare_correct (a b c : bytes) :
  Slice_compare a b = lex_compare a b /\
  (Slice_compare a b = 0 <-> a = b) /\
  (Slice_compare a b < 0 <-> 0 < Slice_compare b a) /\
  (Slice_compare a b < 0 -> Slice_compare b c < 0 -> Slice_compare a c < 0) /\
  (Slice_eqb a b = true <-> a = b).
Proof.
  rewrite !Slice_compare_lex. split_and!; [done|..].
  - apply lex_compare_eq.
  - apply lex_compare_flip.
  - apply lex_compare_trans.
  - apply Slice_eqb_eq.
Qed.
