(* ===== verification/MemComparable.v ===== *)
(** The memory-comparable key format (codec/memcomparable_format.h): integers,
    floating-point numbers and strings packed so that [memcmp] on the packed
    bytes orders them as the values.  The theorems show that unpacking inverts
    packing and that the packing preserves and reflects the order, also in
    front of further key parts. *)
From S2P Require Import Prelude Slice.

(** ** Definitions *)

Definition RDB_ESCAPE_LENGTH : Z := 9.
Definition FLT_EXP_DIG : Z := 32 - 24.
Definition DBL_EXP_DIG : Z := 64 - 53.

(** [GetDstStrSize] (an [int32_t]) *)
Definition GetDstStrSize (size : Z) : Z :=
  if decide (size = 0) then RDB_ESCAPE_LENGTH
  else
    let byte_num := s32 (Z.shiftr size 3 + (if decide (Z.land size 7 = 0) then 0 else 1)) in
    s32 (byte_num * RDB_ESCAPE_LENGTH).

Definition SwapFloatBytes (src : bytes) : option bytes :=
  match src with
  | [s0; s1; s2; s3] => Some [s3; s2; s1; s0]
  | _ => None
  end.
Definition SwapDoubleBytes (src : bytes) : option bytes :=
  match src with
  | [s0; s1; s2; s3; s4; s5; s6; s7] => Some [s7; s6; s5; s4; s3; s2; s1; s0]
  | _ => None
  end.

(** The [length] bytes [CopyInteger] stores at [to] *)
Definition CopyInteger (from : bytes) (length : nat) (is_unsigned : bool) : option bytes :=
  sign_byte ← from !! (length - 1)%nat;
  rest ← mapM (fun i => from !! (length - 1 - i)%nat) (seq 1 (length - 1));
  Some ((if is_unsigned then sign_byte else u8 (Z.lxor sign_byte 128)) :: rest).

(** The functions below return their status and the bytes stored; a NULL
    source is [None]. *)
Definition PackInteger (from : option bytes) (length : nat) (unsigned_flag : bool) : option (Z * bytes) :=
  match from with
  | None => Some (-1, [])
  | Some ptr =>
      if decide (length < 1)%nat then Some (-1, [])
      else uto ← CopyInteger ptr length unsigned_flag; Some (0, uto)
  end.

Definition UnpackInteger (from : option bytes) (length : nat) (unsigned_flag : bool) : option (Z * bytes) :=
  match from with
  | None => Some (-1, [])
  | Some ufrom =>
      if decide (length < 2)%nat then Some (-1, [])
      else
        sign_byte ← ufrom !! 0%nat;
        low ← mapM (fun i => ufrom !! (length - 1 - i)%nat) (seq 0 (length - 1));
        Some (0, low ++ [if unsigned_flag then sign_byte else u8 (Z.lxor sign_byte 128)])
  end.

(** [nr == 0.0] on the stored bytes: both zeros of IEEE 754 *)
Definition is_zero_fp (bs : bytes) : bool :=
  bool_decide (le_val bs `mod` 2 ^ (8 * Z.of_nat (length bs) - 1) = 0).

(** The non-zero branch shared by [PackFloat] and [PackDouble] *)
Definition pack_fp (exp_digit : Z) (tmp : bytes) : option bytes :=
  tmp0 ← tmp !! 0%nat;
  tmp1 ← tmp !! 1%nat;
  if decide (Z.land tmp0 128 <> 0) then Some ((fun b => u8 (Z.lxor b 255)) <$> tmp)
  else
    let exp_part := u16 (Z.lor (Z.lor (Z.shiftl tmp0 8) tmp1) 32768) in
    let exp_part := u16 (exp_part + Z.shiftl 1 (16 - 1 - exp_digit)) in
    Some (u8 (Z.shiftr exp_part 8) :: u8 exp_part :: drop 2 tmp).

Definition PackFloat (from : option bytes) : option (Z * bytes) :=
  match from with
  | None => Some (-1, [])
  | Some ptr =>
      _ ← require (bool_decide (4 <= length ptr)%nat);
      let nr := take 4 ptr in
      if is_zero_fp nr then Some (0, 128 :: replicate 3 0)
      else tmp ← SwapFloatBytes nr; out ← pack_fp FLT_EXP_DIG tmp; Some (0, out)
  end.

Definition PackDouble (from : option bytes) : option (Z * bytes) :=
  match from with
  | None => Some (-1, [])
  | Some ptr =>
      _ ← require (bool_decide (8 <= length ptr)%nat);
      let nr := take 8 ptr in
      if is_zero_fp nr then Some (0, 128 :: replicate 7 0)
      else tmp ← SwapDoubleBytes nr; out ← pack_fp DBL_EXP_DIG tmp; Some (0, out)
  end.

(** The non-zero branch of [UnpackFloatingPoint] up to the byte swap *)
Definition unpack_fp (exp_digit : Z) (tmp : bytes) : option bytes :=
  tmp0 ← tmp !! 0%nat;
  tmp1 ← tmp !! 1%nat;
  if decide (Z.land tmp0 128 <> 0) then
    let exp_part := u16 (Z.lor (Z.shiftl tmp0 8) tmp1) in
    let exp_part := Z.land exp_part 32767 in
    let exp_part := u16 (exp_part - Z.shiftl 1 (16 - 1 - exp_digit)) in
    Some (u8 (Z.shiftr exp_part 8) :: u8 exp_part :: drop 2 tmp)
  else Some ((fun b => Z.lxor b 255) <$> tmp).

Definition UnpackFloatingPoint (src : option bytes) (size : nat) (exp_digit : Z) (zero_pattern zero_val : bytes)
    (swap_func : bytes -> option bytes) : option (Z * bytes) :=
  match src with
  | None => Some (-1, [])
  | Some from =>
      _ ← require (bool_decide (size <= length from)%nat);
      if decide (memcmp from zero_pattern size = 0) then Some (0, take size zero_val)
      else
        tmp ← unpack_fp exp_digit (take size from);
        dst ← swap_func tmp;
        Some (0, dst)
  end.

Definition UnpackFloat (src : option bytes) : option (Z * bytes) :=
  UnpackFloatingPoint src 4 FLT_EXP_DIG [128; 0; 0; 0] (replicate 4 0) SwapFloatBytes.
Definition UnpackDouble (src : option bytes) : option (Z * bytes) :=
  UnpackFloatingPoint src 8 DBL_EXP_DIG [128; 0; 0; 0; 0; 0; 0; 0] (replicate 8 0) SwapDoubleBytes.

(** [PackString]: the loop appends chunks of eight bytes and a flag byte. *)
Fixpoint PackString_loop (fuel : nat) (usrc : bytes) : option bytes :=
  match fuel with
  | O => None
  | S fuel' =>
      let copy_len := Nat.min 8 (length usrc) in
      let copied := take copy_len usrc in
      let usrc := drop copy_len usrc in
      if decide (length usrc = 0%nat) then
        let padding_bytes := (8 - copy_len)%nat in
        Some (copied ++ replicate padding_bytes 0 ++ [Z.of_nat copy_len])
      else rest ← PackString_loop fuel' usrc; Some (copied ++ [RDB_ESCAPE_LENGTH] ++ rest)
  end.
Definition PackString (src : option bytes) : option (Z * bytes) :=
  match src with
  | None => Some (-1, [])
  | Some s => out ← PackString_loop (S (length s)) s; Some (0, out)
  end.

(** [CalcUnpackVariableFormat]: used bytes and [done]; [None] is the error
    value [(uint32_t)-1]. *)
Definition CalcUnpackVariableFormat (flag : Z) : option (nat * bool) :=
  if decide (RDB_ESCAPE_LENGTH < flag) then None
  else if decide (flag < RDB_ESCAPE_LENGTH) then Some (Z.to_nat flag, true)
  else Some (8%nat, false).

(** [UnpackString]: the status, the bytes stored at [dst] and the size. *)
Fixpoint UnpackString_loop (fuel : nat) (usrc dst : bytes) : option (Z * bytes) :=
  match fuel with
  | O => None
  | S fuel' =>
      let ptr := take 9 usrc in
      let usrc := drop 9 usrc in
      flag ← ptr !! 8%nat;
      match CalcUnpackVariableFormat flag with
      | None => Some (-2, dst)
      | Some (used_bytes, finished) =>
          let dst := dst ++ take used_bytes ptr in
          if (finished : bool) then Some (0, dst) else UnpackString_loop fuel' usrc dst
      end
  end.
Definition UnpackString (src : option bytes) : option (Z * bytes * Z) :=
  match src with
  | None => Some (-1, [], 0)
  | Some usrc =>
      '(st, dst) ← UnpackString_loop (S (length usrc)) usrc [];
      Some (st, dst, if decide (st = 0) then s32 (Z.of_nat (length dst)) else 0)
  end.

(** ** Big-endian values and [memcmp] *)

Fixpoint be_val (bs : bytes) : Z :=
  match bs with
  | [] => 0
  | b :: bs' => b * 2 ^ (8 * Z.of_nat (length bs')) + be_val bs'
  end.

Lemma be_val_app a b : be_val (a ++ b) = be_val a * 2 ^ (8 * Z.of_nat (length b)) + be_val b.
Proof.
  induction a as [|x a IH]; simpl; [done|]. rewrite IH, length_app, Nat2Z.inj_add, Z.mul_add_distr_l, Z.pow_add_r by lia. lia.
Qed.

Lemma be_val_reverse bs : be_val (reverse bs) = le_val bs.
Proof.
  induction bs as [|b bs IH]; [done|]. cbn [le_val]. rewrite reverse_cons, be_val_app, IH. cbn [be_val length]. lia.
Qed.

Lemma be_val_range bs : all_bytes bs -> 0 <= be_val bs < 2 ^ (8 * Z.of_nat (length bs)).
Proof.
  intros H. rewrite <- (reverse_involutive bs), be_val_reverse, (length_reverse (reverse bs)). apply le_val_range.
  by apply Forall_reverse.
Qed.

(** On strings of one length, [memcmp] order is the order of the big-endian
    values. *)
Lemma lex_compare_be a b : length a = length b -> all_bytes a -> all_bytes b ->
  (lex_compare a b < 0 <-> be_val a < be_val b) /\ (lex_compare a b = 0 <-> be_val a = be_val b).
Proof.
  revert b; induction a as [|x a IH]; intros [|y b] Hl Ha Hb; try done.
  injection Hl as Hl. apply Forall_cons in Ha as [Hx Ha], Hb as [Hy Hb].
  destruct (IH b Hl Ha Hb) as [H1 H2]. pose proof (be_val_range a Ha) as Ra. pose proof (be_val_range b Hb) as Rb.
  cbn [lex_compare be_val]. rewrite Hl in *. set (m := 2 ^ (8 * Z.of_nat (length b))) in *.
  repeat case_decide; try (assert (x = y) as -> by lia); nia.
Qed.

Lemma lex_compare_app a b c d : length a = length b ->
  lex_compare (a ++ c) (b ++ d) = if decide (lex_compare a b = 0) then lex_compare c d else lex_compare a b.
Proof.
  revert b; induction a as [|x a IH]; intros [|y b] Hl; try done. injection Hl as Hl. simpl.
  repeat case_decide; try done; try lia; rewrite IH by done; by repeat case_decide.
Qed.

(** A property of one byte is checked on the 256 of them. *)
Lemma byte_forall (P : Z -> bool) : forallb P (Z.of_nat <$> seq 0 256) = true -> forall b, is_byte b -> P b = true.
Proof.
  intros H b Hb. rewrite forallb_forall in H. apply H. apply list_elem_of_In, list_elem_of_fmap.
  exists (Z.to_nat b). unfold is_byte in Hb. split; [lia|]. apply elem_of_seq. lia.
Qed.

Lemma flip_sign b : is_byte b -> u8 (Z.lxor b 128) = if decide (b < 128) then b + 128 else b - 128.
Proof.
  intros Hb. pose proof (byte_forall (fun b => bool_decide (u8 (Z.lxor b 128) = if decide (b < 128) then b + 128 else b - 128))
    ltac:(by vm_compute) b Hb) as E. by apply bool_decide_eq_true in E.
Qed.

Lemma flip_byte b : is_byte b -> u8 (Z.lxor b 255) = 255 - b /\ Z.lxor b 255 = 255 - b.
Proof.
  intros Hb. pose proof (byte_forall (fun b => bool_decide (u8 (Z.lxor b 255) = 255 - b /\ Z.lxor b 255 = 255 - b))
    ltac:(by vm_compute) b Hb) as E. by apply bool_decide_eq_true in E.
Qed.

(** ** Integers *)

Lemma mapM_seq_reverse (f : nat -> option Z) (start : nat) (c : bytes) :
  (forall i, (i < length c)%nat -> f (start + i)%nat = c !! (length c - 1 - i)%nat) ->
  mapM f (seq start (length c)) = Some (reverse c).
Proof.
  intros Hf. apply mapM_Some_2, Forall2_same_length_lookup_2; [by rewrite length_seq, length_reverse|].
  intros i x y Hx Hy. apply lookup_seq in Hx as [-> Hi]. rewrite Hf, <- Hy by done.
  rewrite reverse_lookup by done. f_equal. lia.
Qed.

Lemma CopyInteger_spec (low : bytes) top (uf : bool) :
  CopyInteger (low ++ [top]) (S (length low)) uf = Some ((if uf then top else u8 (Z.lxor top 128)) :: reverse low).
Proof.
  unfold CopyInteger. replace (S (length low) - 1)%nat with (length low) by lia.
  rewrite list_lookup_middle by done. cbn [mbind option_bind].
  rewrite mapM_seq_reverse; [done|]. intros i Hi. rewrite lookup_app_l by lia. f_equal. lia.
Qed.

Lemma lxor_128_twice b : is_byte b -> u8 (Z.lxor (u8 (Z.lxor b 128)) 128) = b.
Proof.
  intros Hb. unfold is_byte in Hb. rewrite (flip_sign b) by done. case_decide; rewrite flip_sign by (unfold is_byte; lia);
    case_decide; lia.
Qed.

Lemma UnpackInteger_spec (low : bytes) top (uf : bool) : is_byte top -> low <> [] ->
  UnpackInteger (Some ((if uf then top else u8 (Z.lxor top 128)) :: reverse low)) (S (length low)) uf =
    Some (0, low ++ [top]).
Proof.
  intros Ht Hl. unfold UnpackInteger. rewrite decide_False by (destruct low; [done|simpl; lia]). cbn [lookup list_lookup mbind option_bind].
  replace (S (length low) - 1)%nat with (length (reverse low)) by (rewrite length_reverse; lia).
  rewrite mapM_seq_reverse.
  - rewrite reverse_involutive. cbn [mbind option_bind]. destruct uf; [done|]. by rewrite lxor_128_twice.
  - intros i Hi. rewrite Nat.add_0_l. by replace (length (reverse low) - i)%nat with (S (length (reverse low) - 1 - i)) by lia.
Qed.

Lemma split_last {A} (bs : list A) n : length bs = S n -> exists low top, bs = low ++ [top] /\ length low = n.
Proof.
  intros Hl. destruct (last bs) as [top|] eqn:E; [|by apply last_None in E as ->].
  apply last_Some in E as [low ->]. rewrite length_app in Hl. simpl in Hl. exists low, top. split; [done|lia].
Qed.

(** The value packed from the [n] bytes of an integer *)
Lemma pack_signed_val low top x : all_bytes (low ++ [top]) ->
  low ++ [top] = le_bytes (S (length low)) x -> in_sint (8 * Z.of_nat (S (length low))) x ->
  be_val (u8 (Z.lxor top 128) :: reverse low) = x + 2 ^ (8 * Z.of_nat (S (length low)) - 1).
Proof.
  intros Hb E Hx. apply Forall_app in Hb as [Hlow Htop]. apply Forall_cons in Htop as [Htop _].
  assert (Hv : le_val (low ++ [top]) = x `mod` 2 ^ (8 * Z.of_nat (S (length low)))) by (rewrite E; apply le_val_bytes).
  rewrite <- be_val_reverse, reverse_app in Hv. cbn [be_val] in *. rewrite be_val_reverse in *.
  change (reverse [top] ++ reverse low) with (top :: reverse low) in Hv. cbn [be_val] in Hv. rewrite be_val_reverse in Hv.
  rewrite flip_sign, length_reverse in * by done. pose proof (le_val_range low Hlow) as Hr.
  unfold in_sint in Hx. set (n := 8 * Z.of_nat (length low)) in *. 
  replace (8 * Z.of_nat (S (length low))) with (n + 8) in * by lia.
  replace (n + 8 - 1) with (n + 7) in * by lia. unfold is_byte in Htop.
  rewrite !Z.pow_add_r in * by lia. change (2 ^ 7) with 128 in *. change (2 ^ 8) with 256 in *.
  set (m := 2 ^ n) in *. clearbody m n. clear E.
  destruct (decide (0 <= x)).
  - rewrite Z.mod_small in Hv by lia. case_decide; nia.
  - rewrite <- (Z.mod_add x 1), Z.mod_small in Hv by lia. case_decide; nia.
Qed.

Definition int_range (uf : bool) (n : nat) (x : Z) : Prop :=
  if uf then in_uint (8 * Z.of_nat n) x else in_sint (8 * Z.of_nat n) x.

Lemma pack_integer_val n x uf : (1 <= n)%nat -> int_range uf n x ->
  exists out, PackInteger (Some (le_bytes n x)) n uf = Some (0, out) /\ length out = n /\ all_bytes out /\
    be_val out = if uf then x else x + 2 ^ (8 * Z.of_nat n - 1).
Proof.
  intros Hn Hx. pose proof (le_bytes_all n x) as Hb. pose proof (length_le_bytes n x) as Hl.
  destruct n as [|n]; [lia|]. destruct (split_last _ _ Hl) as (low & top & E & <-).
  unfold PackInteger. rewrite decide_False by lia. rewrite E in *. rewrite CopyInteger_spec. cbn [mbind option_bind].
  eexists. split; [done|]. split; [simpl; by rewrite length_reverse|].
  pose proof Hb as [Hlow Htop]%Forall_app. apply Forall_cons in Htop as [Htop _]. split.
  - constructor; [|by apply Forall_reverse]. destruct uf; [done|]. apply uwrap_range. lia.
  - destruct uf; [|by apply pack_signed_val].
    assert (be_val (reverse (low ++ [top])) = x) as Hv.
    { rewrite be_val_reverse, <- E, le_val_bytes. by apply Z.mod_small. }
    by rewrite reverse_app in Hv.
Qed.

(** C27: unpacking inverts packing for every integer of at least two bytes,
    signed or unsigned, and the packed form has the size of the value. *)
Theorem PackInteger_roundtrip (bs : bytes) (uf : bool) : (2 <= length bs)%nat -> all_bytes bs ->
  exists out, PackInteger (Some bs) (length bs) uf = Some (0, out) /\ length out = length bs /\
    UnpackInteger (Some out) (length bs) uf = Some (0, bs).
Proof.
  intros Hl Hb. destruct (length bs) as [|n] eqn:E; [lia|].
  destruct (split_last bs n E) as (low & top & -> & <-). apply Forall_app in Hb as [_ Ht].
  apply Forall_cons in Ht as [Ht _]. unfold PackInteger. rewrite decide_False by lia. rewrite CopyInteger_spec.
  eexists. split; [done|]. split; [simpl; by rewrite length_reverse|].
  apply UnpackInteger_spec; [done|]. intros ->. simpl in Hl. lia.
Qed.

(** C26: the packed bytes of two integers of one width compare (as [memcmp]
    compares them) exactly as the integers, signed and unsigned, whatever key
    parts follow them. *)
Theorem PackInteger_order (n : nat) (uf : bool) (x y : Z) (restx resty : bytes) :
  (1 <= n)%nat -> int_range uf n x -> int_range uf n y ->
  exists px py, PackInteger (Some (le_bytes n x)) n uf = Some (0, px) /\
    PackInteger (Some (le_bytes n y)) n uf = Some (0, py) /\
    (x < y -> lex_compare (px ++ restx) (py ++ resty) < 0) /\
    (x = y -> lex_compare (px ++ restx) (py ++ resty) = lex_compare restx resty).
Proof.
  intros Hn Hx Hy. destruct (pack_integer_val n x uf Hn Hx) as (px & Hpx & Hlx & Hbx & Hvx).
  destruct (pack_integer_val n y uf Hn Hy) as (py & Hpy & Hly & Hby & Hvy).
  exists px, py. split; [done|]. split; [done|].
  destruct (lex_compare_be px py ltac:(congruence) Hbx Hby) as [H1 H2]. rewrite lex_compare_app by congruence.
  split; intros Hxy.
  - assert (lex_compare px py < 0) by (apply H1; destruct uf; lia). rewrite decide_False by lia. done.
  - assert (lex_compare px py = 0) as E by (apply H2; destruct uf; lia). by rewrite decide_True.
Qed.

(** ** Strings *)

(** The packed form as a total function *)
Definition pack (s : bytes) : bytes := default [] (PackString_loop (S (length s)) s).

Lemma PackString_loop_step fuel s : (length s < S fuel)%nat ->
  PackString_loop (S fuel) s =
    if decide (length s <= 8)%nat then Some (s ++ replicate (8 - length s) 0 ++ [Z.of_nat (length s)])
    else rest ← PackString_loop fuel (drop 8 s); Some (take 8 s ++ 9 :: rest).
Proof.
  intros Hf. cbn [PackString_loop]. destruct (decide (length s <= 8)%nat).
  - rewrite Nat.min_r, firstn_all, drop_all, decide_True by (done || lia). done.
  - rewrite Nat.min_l, length_drop, decide_False by lia. done.
Qed.

Lemma PackString_loop_fuel fuel : forall s, (length s < fuel)%nat -> PackString_loop fuel s = Some (pack s).
Proof.
  assert (Hstep : forall f s, (length s < f)%nat -> exists out, PackString_loop f s = Some out /\
    forall f', (length s < f')%nat -> PackString_loop f' s = Some out).
  { induction f as [|f IH]; intros s Hs; [lia|]. rewrite PackString_loop_step by lia.
    destruct (decide (length s <= 8)%nat) as [Hl|Hl].
    - eexists. split; [done|]. intros [|f'] Hf'; [lia|]. by rewrite PackString_loop_step, decide_True by lia.
    - destruct (IH (drop 8 s)) as (out & Ho & Hall); [rewrite length_drop; lia|]. rewrite Ho. eexists. split; [done|].
      intros [|f'] Hf'; [lia|]. rewrite PackString_loop_step, decide_False by lia.
      by rewrite Hall by (rewrite length_drop; lia). }
  intros s Hs. destruct (Hstep fuel s Hs) as (out & -> & Hall). unfold pack. by rewrite Hall by lia.
Qed.

Lemma pack_unfold s : pack s =
  if decide (length s <= 8)%nat then s ++ replicate (8 - length s) 0 ++ [Z.of_nat (length s)]
  else take 8 s ++ 9 :: pack (drop 8 s).
Proof.
  pose proof (PackString_loop_fuel (S (length s)) s ltac:(lia)) as E. rewrite PackString_loop_step in E by lia.
  case_decide; [by injection E|]. rewrite PackString_loop_fuel in E by (rewrite length_drop; lia). by injection E.
Qed.

(** One chunk, byte by byte: [n] bytes of the chunk are left, [u] hold data,
    [k] packs what does not fit. *)
Fixpoint chunk (n : nat) (u : Z) (a : bytes) (k : bytes -> bytes) : bytes :=
  match n, a with
  | O, [] => [u]
  | O, _ :: _ => 9 :: k a
  | S n', [] => 0 :: chunk n' u [] k
  | S n', x :: a' => x :: chunk n' (u + 1) a' k
  end.

Lemma chunk_eq n u a k : chunk n u a k =
  if decide (length a <= n)%nat then a ++ replicate (n - length a) 0 ++ [u + Z.of_nat (length a)]
  else take n a ++ 9 :: k (drop n a).
Proof.
  revert u a; induction n as [|n IH]; intros u [|x a]; cbn [chunk]; rewrite ?IH; cbn [length].
  - rewrite decide_True by lia. by rewrite Z.add_0_r.
  - by rewrite decide_False by lia.
  - rewrite !decide_True by lia. by rewrite !Nat.sub_0_r.
  - destruct (decide (length a <= n)%nat).
    + rewrite decide_True by lia. cbn [app Nat.sub]. do 4 f_equal. lia.
    + by rewrite decide_False by lia.
Qed.

Lemma pack_chunk s : pack s = chunk 8 0 s pack.
Proof. by rewrite pack_unfold, chunk_eq. Qed.

(** A string that ends inside a chunk sorts before one that goes on. *)
Lemma chunk_lt n : forall u u' b k ra rb, u < u' -> u <= 8 -> all_bytes b ->
  lex_compare (chunk n u [] k ++ ra) (chunk n u' b k ++ rb) = -1.
Proof.
  induction n as [|n IH]; intros u u' [|y b] k ra rb Hu H8 Hb; simpl.
  - by rewrite decide_True by lia.
  - by rewrite decide_True by lia.
  - by apply IH.
  - apply Forall_cons in Hb as [Hy Hb]. unfold is_byte in Hy. case_decide; [done|]. rewrite decide_False by lia.
    apply IH; [lia|lia|done].
Qed.

Lemma lex_compare_anti a b : lex_compare a b = - lex_compare b a.
Proof. revert b; induction a as [|x a IH]; intros [|y b]; simpl; try lia. repeat case_decide; try lia. apply IH. Qed.

Lemma chunk_cmp n : forall u a b k ra rb, u + Z.of_nat n = 8 -> all_bytes a -> all_bytes b -> a <> b ->
  (forall a' b', (length a' + n <= length a)%nat -> all_bytes a' -> all_bytes b' -> a' <> b' ->
     lex_compare (k a' ++ ra) (k b' ++ rb) = lex_compare a' b') ->
  lex_compare (chunk n u a k ++ ra) (chunk n u b k ++ rb) = lex_compare a b.
Proof.
  induction n as [|n IH]; intros u a b k ra rb Hu Ha Hb Hne Hk.
  - destruct a as [|x a], b as [|y b]; [done|..]; cbn [chunk].
    + cbn. by rewrite decide_True by lia.
    + cbn. rewrite decide_False, decide_True by lia. done.
    + change ((9 :: k (x :: a)) ++ ra) with (9 :: (k (x :: a) ++ ra)).
      change ((9 :: k (y :: b)) ++ rb) with (9 :: (k (y :: b) ++ rb)).
      cbn [lex_compare]. rewrite !(decide_False (P := 9 < 9)) by lia. apply Hk; try done. lia.
  - destruct a as [|x a], b as [|y b]; [done|..]; cbn [chunk app].
    + apply Forall_cons in Hb as [Hy Hb]. unfold is_byte in Hy. simpl. case_decide; [done|].
      rewrite decide_False by lia. apply chunk_lt; [lia|lia|done].
    + apply Forall_cons in Ha as [Hx Ha]. unfold is_byte in Hx. simpl. rewrite decide_False by lia. case_decide; [done|].
      rewrite lex_compare_anti, chunk_lt; [done|lia|lia|done].
    + apply Forall_cons in Ha as [Hx Ha], Hb as [Hy Hb]. simpl. repeat case_decide; try done.
      assert (x = y) as -> by lia. apply IH; [lia|done|done|congruence|].
      intros a' b' Hl. apply Hk. simpl. lia.
Qed.

Lemma pack_cmp m : forall a b ra rb, (length a < m)%nat -> all_bytes a -> all_bytes b -> a <> b ->
  lex_compare (pack a ++ ra) (pack b ++ rb) = lex_compare a b.
Proof.
  induction m as [|m IH]; intros a b ra rb Hm Ha Hb Hne; [lia|]. rewrite !pack_chunk.
  apply chunk_cmp; try done. intros a' b' Hl. apply IH. lia.
Qed.

Lemma UnpackString_loop_pack fuel : forall s junk dst, (length s < fuel)%nat ->
  UnpackString_loop fuel (pack s ++ junk) dst = Some (0, dst ++ s).
Proof.
  induction fuel as [|fuel IH]; intros s junk dst Hf; [lia|]. rewrite pack_unfold. cbn [UnpackString_loop].
  destruct (decide (length s <= 8)%nat) as [Hl|Hl].
  - rewrite take_app_length' by (rewrite !length_app, length_replicate; simpl; lia).
    rewrite app_assoc, list_lookup_middle by (rewrite length_app, length_replicate; lia). cbn [mbind option_bind].
    unfold CalcUnpackVariableFormat, RDB_ESCAPE_LENGTH. rewrite decide_False, decide_True by lia.
    by rewrite Nat2Z.id, <- app_assoc, take_app_length.
  - replace ((take 8 s ++ 9 :: pack (drop 8 s)) ++ junk) with ((take 8 s ++ [9]) ++ (pack (drop 8 s) ++ junk))
      by (by rewrite <- !app_assoc).
    assert (length (take 8 s ++ [9]) = 9%nat) as L by (rewrite length_app, length_take; cbn [length]; lia).
    rewrite take_app_length', drop_app_length' by done.
    rewrite list_lookup_middle by (rewrite length_take; lia). cbn [mbind option_bind].
    change (CalcUnpackVariableFormat 9) with (Some (8%nat, false)). cbv beta iota zeta.
    rewrite take_app_length' by (rewrite length_take; lia). rewrite IH by (rewrite length_drop; lia).
    by rewrite <- app_assoc, take_drop.
Qed.

Lemma length_pack m : forall s, (length s < m)%nat ->
  Z.of_nat (length (pack s)) = if decide (length s = 0)%nat then 9 else 9 * ((Z.of_nat (length s) + 7) `div` 8).
Proof.
  induction m as [|m IH]; intros s Hm; [lia|]. rewrite pack_unfold. destruct (decide (length s <= 8)%nat) as [Hl|Hl].
  - rewrite !length_app, length_replicate. simpl. case_decide; [lia|].
    replace ((Z.of_nat (length s) + 7) `div` 8) with 1; [lia|]. apply Z.div_unique with (Z.of_nat (length s) - 1); lia.
  - rewrite length_app, length_take. cbn [length]. rewrite Nat2Z.inj_add, Nat2Z.inj_succ, IH by (rewrite length_drop; lia).
    rewrite length_drop, !decide_False by lia.
    replace (Z.of_nat (length s) + 7) with ((Z.of_nat (length s - 8) + 7) + 1 * 8) by lia. rewrite Z.div_add by lia. lia.
Qed.

Lemma GetDstStrSize_val size : 0 <= size -> 9 * ((size + 7) `div` 8) < 2 ^ 31 ->
  GetDstStrSize size = if decide (size = 0) then 9 else 9 * ((size + 7) `div` 8).
Proof.
  intros H0 Hb. unfold GetDstStrSize, RDB_ESCAPE_LENGTH. case_decide; [done|].
  change (Z.land size 7) with (Z.land size (Z.ones 3)). rewrite Z.shiftr_div_pow2, (Z.land_ones size 3) by lia. change (2 ^ 3) with 8.
  assert (size `div` 8 + (if decide (size `mod` 8 = 0) then 0 else 1) = (size + 7) `div` 8) as ->.
  { pose proof (Z.div_mod size 8 ltac:(lia)). pose proof (Z.mod_pos_bound size 8 ltac:(lia)). case_decide.
    - apply Z.div_unique with 7; lia.
    - apply Z.div_unique with (size `mod` 8 - 1); lia. }
  pose proof (Z.div_pos (size + 7) 8 ltac:(lia) ltac:(lia)). rewrite (swrap_id 32 ((size + 7) `div` 8)), swrap_id by (unfold in_sint; lia). lia.
Qed.

(** C23: packing a string succeeds, fills exactly [GetDstStrSize] bytes, and
    unpacking returns the string and its length whatever bytes follow. *)
Theorem PackString_roundtrip (s junk : bytes) : 9 * ((Z.of_nat (length s) + 7) `div` 8) < 2 ^ 31 ->
  exists out, PackString (Some s) = Some (0, out) /\ Z.of_nat (length out) = GetDstStrSize (Z.of_nat (length s)) /\
    UnpackString (Some (out ++ junk)) = Some (0, s, Z.of_nat (length s)).
Proof.
  intros Hb. exists (pack s). unfold PackString, UnpackString. rewrite PackString_loop_fuel by lia. split; [done|].
  assert (Hlen : Z.of_nat (length (pack s)) = GetDstStrSize (Z.of_nat (length s))).
  { rewrite (length_pack (S (length s))), GetDstStrSize_val by lia. by apply decide_ext; lia. }
  split; [done|].
  assert (length s <= length (pack s))%nat.
  { pose proof (length_pack (S (length s)) s ltac:(lia)) as L. case_decide; [lia|].
    pose proof (Z.div_mod (Z.of_nat (length s) + 7) 8 ltac:(lia)). pose proof (Z.mod_pos_bound (Z.of_nat (length s) + 7) 8 ltac:(lia)). lia. }
  rewrite UnpackString_loop_pack by (rewrite length_app; lia). cbn [mbind option_bind app].
  rewrite decide_True by done. do 3 f_equal. apply swrap_id; [lia|]. unfold in_sint.
  pose proof (Z.div_mod (Z.of_nat (length s) + 7) 8 ltac:(lia)). pose proof (Z.mod_pos_bound (Z.of_nat (length s) + 7) 8 ltac:(lia)). lia.
Qed.

(** C22: the packed forms of two strings compare exactly as the strings compare
    lexicographically, whatever key parts follow them: no packed string is a
    proper prefix of another. *)
Theorem PackString_order (a b resta restb : bytes) : all_bytes a -> all_bytes b ->
  exists pa pb, PackString (Some a) = Some (0, pa) /\ PackString (Some b) = Some (0, pb) /\
    (a <> b -> lex_compare (pa ++ resta) (pb ++ restb) = lex_compare a b) /\
    (a = b -> lex_compare (pa ++ resta) (pb ++ restb) = lex_compare resta restb).
Proof.
  intros Ha Hb. exists (pack a), (pack b). unfold PackString. rewrite !PackString_loop_fuel by lia.
  split; [done|]. split; [done|]. split; intros Hab.
  - by apply (pack_cmp (S (length a))); try done; lia.
  - subst b. rewrite lex_compare_app by done. by rewrite decide_True by (by apply lex_compare_eq).
Qed.

(** ** Floating-point numbers

    A number is its [n] stored bytes; on numbers other than NaN the IEEE 754
    order is the order of the sign-magnitude integer [fp_key]. *)
Definition fp_key (bs : bytes) : Z :=
  let h := 2 ^ (8 * Z.of_nat (length bs) - 1) in
  if decide (le_val bs < h) then le_val bs else h - le_val bs.
(** Neither NaN nor an infinity: the exponent field is not all ones. *)
Definition fp_finite (exp_digit : Z) (bs : bytes) : Prop :=
  Z.abs (fp_key bs) < 2 ^ (8 * Z.of_nat (length bs) - 1) - 2 ^ (8 * Z.of_nat (length bs) - 1 - exp_digit).

Lemma land_128 b : is_byte b -> Z.land b 128 <> 0 <-> 128 <= b.
Proof.
  intros Hb. pose proof (byte_forall (fun b => bool_decide (Z.land b 128 <> 0 <-> 128 <= b)) ltac:(by vm_compute) b Hb) as E.
  by apply bool_decide_eq_true in E.
Qed.

Lemma be_val_flip bs : all_bytes bs ->
  be_val ((fun b => u8 (Z.lxor b 255)) <$> bs) = 2 ^ (8 * Z.of_nat (length bs)) - 1 - be_val bs.
Proof.
  induction 1 as [|b bs Hb Hbs IH]; [done|]. cbn [fmap list_fmap be_val length].
  rewrite IH, length_fmap. destruct (flip_byte b Hb) as [-> _].
  replace (8 * Z.of_nat (S (length bs))) with (8 + 8 * Z.of_nat (length bs)) by lia. rewrite Z.pow_add_r by lia. lia.
Qed.

Lemma all_bytes_flip bs : all_bytes bs -> all_bytes ((fun b => u8 (Z.lxor b 255)) <$> bs).
Proof. intros. apply Forall_fmap. apply Forall_true. intros b. apply uwrap_range. lia. Qed.

Lemma exp_word b0 b1 : is_byte b0 -> is_byte b1 -> b0 < 128 ->
  u16 (Z.lor (Z.lor (Z.shiftl b0 8) b1) 32768) = b0 * 256 + b1 + 32768.
Proof.
  unfold is_byte. intros H0 H1 Hb. rewrite (lor_shiftl b0 b1 8) by lia. change (2 ^ 8) with 256.
  rewrite Z.lor_comm. change 32768 with (Z.shiftl 1 15). rewrite (lor_shiftl 1 _ 15) by lia. change (2 ^ 15) with 32768.
  rewrite uwrap_id by (unfold in_uint; lia). change (Z.shiftl 1 15) with 32768. lia.
Qed.

(** What the packing of a non-zero number does to the big-endian value *)
Lemma pack_fp_val e b0 b1 rest : 1 <= e <= 15 -> all_bytes (b0 :: b1 :: rest) ->
  (b0 < 128 -> b0 * 256 + b1 + 2 ^ (15 - e) < 32768) ->
  exists out, pack_fp e (b0 :: b1 :: rest) = Some out /\ length out = S (S (length rest)) /\ all_bytes out /\
    let n := 8 * Z.of_nat (S (S (length rest))) in
    let v := be_val (b0 :: b1 :: rest) in
    be_val out = if decide (b0 < 128) then v + 2 ^ (n - 1) + 2 ^ (n - 1 - e) else 2 ^ n - 1 - v.
Proof.
  intros He Hb Hfin. pose proof Hb as [Hb0 Hb']%Forall_cons. pose proof Hb' as [Hb1 Hrest]%Forall_cons.
  pose proof (land_128 b0 Hb0) as Hl. unfold pack_fp. cbn [lookup list_lookup mbind option_bind drop]. cbv zeta.
  destruct (decide (b0 < 128)) as [Hneg|Hpos].
  - rewrite decide_False by (rewrite Hl; lia). rewrite exp_word by done. rewrite Z.shiftl_1_l.
    replace (16 - 1 - e) with (15 - e) by lia. specialize (Hfin Hneg). unfold is_byte in *.
    assert (0 < 2 ^ (15 - e)) by (apply Z.pow_pos_nonneg; lia).
    set (E := b0 * 256 + b1 + 32768 + 2 ^ (15 - e)).
    rewrite (uwrap_id 16 E) by (unfold in_uint; lia). rewrite Z.shiftr_div_pow2 by lia. change (2 ^ 8) with 256.
    assert (0 <= E `div` 256 < 256) by (split; [apply Z.div_pos; lia|apply Z.div_lt_upper_bound; lia]).
    rewrite drop_0. eexists. split; [done|]. split; [done|]. split.
    { constructor; [apply uwrap_range; lia|]. constructor; [apply uwrap_range; lia|done]. }
    cbn [be_val length]. rewrite (uwrap_id 8 (E `div` 256)) by done. unfold uwrap. change (2 ^ 8) with 256.
    replace (8 * Z.of_nat (S (S (length rest)))) with (16 + 8 * Z.of_nat (length rest)) by lia.
    replace (8 * Z.of_nat (S (length rest))) with (8 + 8 * Z.of_nat (length rest)) by lia.
    replace (16 + 8 * Z.of_nat (length rest) - 1 - e) with (15 - e + 8 * Z.of_nat (length rest)) by lia.
    replace (16 + 8 * Z.of_nat (length rest) - 1) with (15 + 8 * Z.of_nat (length rest)) by lia.
    rewrite !Z.pow_add_r by lia. change (2 ^ 8) with 256. change (2 ^ 15) with 32768.
    pose proof (Z.div_mod E 256 ltac:(lia)) as HE. set (m := 2 ^ (8 * Z.of_nat (length rest))).
    transitivity ((256 * (E `div` 256) + E `mod` 256) * m + be_val rest); [ring|]. rewrite <- HE. unfold E. ring.
  - rewrite decide_True by (apply Hl; lia). eexists. split; [done|]. split; [by rewrite length_fmap|].
    split; [by apply all_bytes_flip|]. by rewrite be_val_flip.
Qed.

(** The order-preserving value a finite number is packed to *)
Definition fp_code (e : Z) (n : nat) (k : Z) : Z :=
  let h := 2 ^ (8 * Z.of_nat n - 1) in
  if decide (k = 0) then h
  else if decide (0 < k) then k + h + 2 ^ (8 * Z.of_nat n - 1 - e) else h - 1 + k.

Lemma fp_code_mono e n j k : j < k -> fp_code e n j < fp_code e n k.
Proof. unfold fp_code. pose proof (Z.pow_nonneg 2 (8 * Z.of_nat n - 1 - e)). repeat case_decide; lia. Qed.

Lemma pow_half (n : nat) : (1 <= n)%nat -> 2 ^ (8 * Z.of_nat n) = 2 * 2 ^ (8 * Z.of_nat n - 1).
Proof. intros. rewrite <- pow2_split by lia. done. Qed.

Lemma is_zero_fp_key bs : all_bytes bs -> (1 <= length bs)%nat -> is_zero_fp bs = bool_decide (fp_key bs = 0).
Proof.
  intros Hb Hl. pose proof (le_val_range bs Hb) as Hr. rewrite pow_half in Hr by done. unfold is_zero_fp, fp_key.
  set (h := 2 ^ (8 * Z.of_nat (length bs) - 1)) in *. apply bool_decide_ext. case_decide.
  - by rewrite Z.mod_small by lia.
  - rewrite <- (Z.mod_add _ (-1)), Z.mod_small by lia. lia.
Qed.

(** The two leading bytes of a number in big-endian order *)
Lemma fp_head b0 b1 rest e : 1 <= e <= 15 -> all_bytes (b0 :: b1 :: rest) ->
  let bs := reverse (b0 :: b1 :: rest) in
  (b0 < 128 <-> le_val bs < 2 ^ (8 * Z.of_nat (length bs) - 1)) /\
  (fp_finite e bs -> b0 < 128 -> b0 * 256 + b1 + 2 ^ (15 - e) < 32768).
Proof.
  intros He Hb bs. unfold fp_finite, fp_key. assert (le_val bs = be_val (b0 :: b1 :: rest)) as ->.
  { unfold bs. by rewrite <- be_val_reverse, reverse_involutive. }
  assert (length bs = S (S (length rest))) as -> by (unfold bs; by rewrite length_reverse).
  apply Forall_cons in Hb as [H0 Hb]. apply Forall_cons in Hb as [H1 Hb].
  pose proof (be_val_range rest Hb) as Hr. unfold is_byte in *. cbn [be_val length].
  replace (8 * Z.of_nat (S (S (length rest))) - 1 - e) with (15 - e + 8 * Z.of_nat (length rest)) by lia.
  replace (8 * Z.of_nat (S (S (length rest))) - 1) with (15 + 8 * Z.of_nat (length rest)) by lia.
  replace (8 * Z.of_nat (S (length rest))) with (8 + 8 * Z.of_nat (length rest)) by lia.
  rewrite !Z.pow_add_r by lia. change (2 ^ 8) with 256. change (2 ^ 15) with 32768.
  set (m := 2 ^ (8 * Z.of_nat (length rest))) in *. set (t := 2 ^ (15 - e)).
  split; [nia|]. case_decide; intros Hf Hlt; [|nia]. rewrite Z.abs_eq in Hf by nia. nia.
Qed.

(** [PackFloat] and [PackDouble] on a finite number: both are this function
    with the widths filled in. *)
Definition pack_num (n : nat) (e : Z) (swap : bytes -> option bytes) (bs : bytes) : option (Z * bytes) :=
  if is_zero_fp bs then Some (0, 128 :: replicate (n - 1) 0)
  else tmp ← swap bs; out ← pack_fp e tmp; Some (0, out).

Lemma be_val_zeros n : be_val (replicate n 0) = 0.
Proof. induction n as [|n IH]; [done|]. cbn [replicate be_val]. rewrite IH. lia. Qed.

Lemma pack_num_val n e swap bs : 1 <= e <= 15 -> length bs = n -> (2 <= n)%nat -> all_bytes bs -> fp_finite e bs ->
  swap bs = Some (reverse bs) ->
  exists out, pack_num n e swap bs = Some (0, out) /\ length out = n /\ all_bytes out /\
    be_val out = fp_code e n (fp_key bs) /\
    (fp_key bs <> 0 -> pack_fp e (reverse bs) = Some out).
Proof.
  intros He Hl Hn Hb Hf Hs. unfold pack_num. rewrite is_zero_fp_key by (done || lia).
  destruct (bool_decide (fp_key bs = 0)) eqn:Ez.
  - apply bool_decide_eq_true in Ez. eexists. split; [done|].
    split; [simpl; rewrite length_replicate; lia|]. split.
    { constructor; [unfold is_byte; lia|]. apply Forall_replicate. unfold is_byte; lia. }
    split; [|done]. cbn [be_val]. rewrite be_val_zeros, length_replicate. unfold fp_code. rewrite decide_True by done.
    change 128 with (2 ^ 7). rewrite <- Z.pow_add_r by lia. rewrite Z.add_0_r. f_equal. lia.
  - apply bool_decide_eq_false in Ez. rewrite Hs. cbn [mbind option_bind].
    assert (length (reverse bs) = n) as Hlr by by rewrite length_reverse.
    assert (all_bytes (reverse bs)) as Hbr by by apply Forall_reverse.
    assert (le_val bs = be_val (reverse bs)) as Hv by by rewrite be_val_reverse.
    destruct (reverse bs) as [|b0 [|b1 rest]] eqn:E; [simpl in Hlr; lia..|].
    destruct (fp_head b0 b1 rest e He Hbr) as [H1 H2]. cbv zeta in H1, H2.
    rewrite <- E, reverse_involutive in H1, H2.
    destruct (pack_fp_val e b0 b1 rest He Hbr (H2 Hf)) as (out & Ho & Hlo & Hbo & Hvo). rewrite Ho.
    exists out. split; [done|]. split; [simpl in Hlr; congruence|]. split; [done|]. split; [|done].
    cbv zeta in Hvo. rewrite Hvo, <- Hv. unfold fp_code, fp_key in *. simpl in Hlr. rewrite Hlr.
    rewrite pow_half by lia. rewrite Hl in *. pose proof (le_val_range bs Hb) as Hr. rewrite Hl in Hr.
    repeat case_decide; try lia; tauto.
Qed.

Lemma SwapFloatBytes_reverse bs : length bs = 4%nat -> SwapFloatBytes bs = Some (reverse bs).
Proof. by destruct bs as [|? [|? [|? [|? []]]]]. Qed.
Lemma SwapDoubleBytes_reverse bs : length bs = 8%nat -> SwapDoubleBytes bs = Some (reverse bs).
Proof. by destruct bs as [|? [|? [|? [|? [|? [|? [|? [|? []]]]]]]]]. Qed.

Lemma PackFloat_num bs : length bs = 4%nat -> PackFloat (Some bs) = pack_num 4 FLT_EXP_DIG SwapFloatBytes bs.
Proof. intros Hl. unfold PackFloat, pack_num. rewrite Hl. simpl require. cbn [mbind option_bind]. by rewrite take_ge by lia. Qed.
Lemma PackDouble_num bs : length bs = 8%nat -> PackDouble (Some bs) = pack_num 8 DBL_EXP_DIG SwapDoubleBytes bs.
Proof. intros Hl. unfold PackDouble, pack_num. rewrite Hl. simpl require. cbn [mbind option_bind]. by rewrite take_ge by lia. Qed.

Lemma unpack_pack_fp e b0 b1 rest out : 1 <= e <= 15 -> all_bytes (b0 :: b1 :: rest) ->
  (b0 < 128 -> b0 * 256 + b1 + 2 ^ (15 - e) < 32768) ->
  pack_fp e (b0 :: b1 :: rest) = Some out -> unpack_fp e out = Some (b0 :: b1 :: rest).
Proof.
  intros He Hb Hfin. pose proof Hb as [Hb0 Hb']%Forall_cons. pose proof Hb' as [Hb1 Hrest]%Forall_cons.
  unfold pack_fp. cbn [lookup list_lookup mbind option_bind drop]. cbv zeta.
  pose proof (land_128 b0 Hb0) as Hl. destruct (decide (b0 < 128)) as [Hneg|Hpos].
  - rewrite decide_False by (rewrite Hl; lia). rewrite exp_word, Z.shiftl_1_l, drop_0 by done.
    replace (16 - 1 - e) with (15 - e) by lia. specialize (Hfin Hneg). unfold is_byte in *.
    assert (0 < 2 ^ (15 - e)) by (apply Z.pow_pos_nonneg; lia). set (t := 2 ^ (15 - e)) in *.
    set (E := b0 * 256 + b1 + 32768 + t). rewrite (uwrap_id 16 E) by (unfold in_uint; lia).
    rewrite Z.shiftr_div_pow2 by lia. change (2 ^ 8) with 256. intros [= <-].
    assert (128 <= E `div` 256 < 256) by (split; [apply Z.div_le_lower_bound; lia|apply Z.div_lt_upper_bound; lia]).
    pose proof (Z.mod_pos_bound E 256 ltac:(lia)). pose proof (Z.div_mod E 256 ltac:(lia)) as HE.
    rewrite (uwrap_id 8 (E `div` 256)) by (unfold in_uint; lia). change (u8 E) with (E `mod` 256).
    unfold unpack_fp. cbn [lookup list_lookup mbind option_bind drop]. cbv zeta.
    rewrite decide_True by (apply land_128; unfold is_byte; lia). rewrite (lor_shiftl _ _ 8) by lia. change (2 ^ 8) with 256.
    replace (E `div` 256 * 256 + E `mod` 256) with E by lia. rewrite (uwrap_id 16 E) by (unfold in_uint; lia).
    change 32767 with (Z.ones 15). rewrite Z.land_ones by lia. change (2 ^ 15) with 32768.
    rewrite <- (Z.mod_add E (-1)), Z.mod_small by lia. rewrite Z.shiftl_1_l.
    replace (16 - 1 - e) with (15 - e) by lia. fold t. replace (E + -1 * 32768 - t) with (b1 + b0 * 256) by lia.
    rewrite (uwrap_id 16) by (unfold in_uint; lia). rewrite Z.shiftr_div_pow2 by lia. unfold uwrap. change (2 ^ 8) with 256.
    rewrite Z.div_add, (Z.div_small b1), Z.mod_add, (Z.mod_small b1) by lia. rewrite Z.mod_small, drop_0 by lia. done.
  - rewrite decide_True by (apply Hl; lia). intros [= <-]. unfold unpack_fp.
    cbn [fmap list_fmap lookup list_lookup mbind option_bind].
    destruct (flip_byte b0 Hb0) as [-> _], (flip_byte b1 Hb1) as [-> _]. unfold is_byte in *.
    rewrite decide_False by (rewrite land_128; unfold is_byte; lia). do 2 f_equal; [|f_equal].
    + destruct (flip_byte (255 - b0)) as [_ ->]; unfold is_byte; lia.
    + destruct (flip_byte (255 - b1)) as [_ ->]; unfold is_byte; lia.
    + rewrite <- list_fmap_compose. transitivity (id <$> rest); [|by rewrite list_fmap_id].
      apply list_fmap_ext. intros i b Hi. simpl. eapply Forall_lookup_1 in Hi; [|exact Hrest].
      destruct (flip_byte b Hi) as [-> _]. destruct (flip_byte (255 - b)) as [_ ->]; unfold is_byte in *; lia.
Qed.

(** The two widths *)
Definition fp_size (dbl : bool) : nat := if dbl then 8 else 4.
Definition fp_exp (dbl : bool) : Z := if dbl then DBL_EXP_DIG else FLT_EXP_DIG.
Definition PackFP (dbl : bool) : option bytes -> option (Z * bytes) := if dbl then PackDouble else PackFloat.
Definition UnpackFP (dbl : bool) : option bytes -> option (Z * bytes) := if dbl then UnpackDouble else UnpackFloat.

Lemma PackFP_val dbl bs : length bs = fp_size dbl -> all_bytes bs -> fp_finite (fp_exp dbl) bs ->
  exists out, PackFP dbl (Some bs) = Some (0, out) /\ length out = fp_size dbl /\ all_bytes out /\
    be_val out = fp_code (fp_exp dbl) (fp_size dbl) (fp_key bs) /\
    (fp_key bs <> 0 -> pack_fp (fp_exp dbl) (reverse bs) = Some out).
Proof.
  intros Hl Hb Hf. destruct dbl; unfold PackFP, fp_size, fp_exp in *.
  - rewrite PackDouble_num by done. apply pack_num_val; try done; [lia|by apply SwapDoubleBytes_reverse].
  - rewrite PackFloat_num by done. apply pack_num_val; try done; [lia|by apply SwapFloatBytes_reverse].
Qed.

Definition zero_pattern (dbl : bool) : bytes := 128 :: replicate (fp_size dbl - 1) 0.

Lemma UnpackFP_eq dbl out : length out = fp_size dbl -> UnpackFP dbl (Some out) =
  if decide (out = zero_pattern dbl) then Some (0, replicate (fp_size dbl) 0)
  else tmp ← unpack_fp (fp_exp dbl) out; if decide (length tmp = fp_size dbl) then Some (0, reverse tmp) else None.
Proof.
  intros Hl.
  assert (Hz : forall size zp, length out = size -> length zp = size ->
    memcmp out zp size = 0 <-> out = zp).
  { intros size zp H1 H2. rewrite memcmp_zero_prefix by lia. by rewrite !take_ge by lia. }
  destruct dbl; simpl in Hl; unfold UnpackFP, UnpackDouble, UnpackFloat, UnpackFloatingPoint; rewrite Hl;
    simpl require; cbn [mbind option_bind]; rewrite !take_ge by (rewrite ?length_replicate; lia).
  - rewrite (decide_ext _ (out = zero_pattern true)) by (by apply Hz). case_decide; [done|].
    unfold fp_exp. destruct (unpack_fp DBL_EXP_DIG out) as [tmp|]; [|done]. cbn [mbind option_bind]. case_decide as E.
    + by rewrite SwapDoubleBytes_reverse.
    + by destruct tmp as [|? [|? [|? [|? [|? [|? [|? [|? []]]]]]]]].
  - rewrite (decide_ext _ (out = zero_pattern false)) by (by apply Hz). case_decide; [done|].
    unfold fp_exp. destruct (unpack_fp FLT_EXP_DIG out) as [tmp|]; [|done]. cbn [mbind option_bind]. case_decide as E.
    + by rewrite SwapFloatBytes_reverse.
    + by destruct tmp as [|? [|? [|? [|? []]]]].
Qed.

(** C29: unpacking inverts packing on every finite float and double; the
    negative zero, which compares equal to zero, comes back as zero. *)
Theorem PackFP_roundtrip (dbl : bool) (bs : bytes) :
  length bs = fp_size dbl -> all_bytes bs -> fp_finite (fp_exp dbl) bs ->
  exists out, PackFP dbl (Some bs) = Some (0, out) /\ length out = length bs /\
    UnpackFP dbl (Some out) = Some (0, if decide (fp_key bs = 0) then replicate (length bs) 0 else bs).
Proof.
  intros Hl Hb Hf. destruct (PackFP_val dbl bs Hl Hb Hf) as (out & Ho & Hlo & Hbo & Hv & Hp).
  exists out. split; [done|]. split; [congruence|]. rewrite UnpackFP_eq by done.
  assert (Hz : be_val (zero_pattern dbl) = fp_code (fp_exp dbl) (fp_size dbl) 0) by by destruct dbl.
  assert (Hzl : length (zero_pattern dbl) = fp_size dbl) by by destruct dbl.
  assert (Hzb : all_bytes (zero_pattern dbl)) by (destruct dbl; cbn; solve_bytes).
  assert (Hiff : out = zero_pattern dbl <-> fp_key bs = 0).
  { rewrite <- lex_compare_eq. destruct (lex_compare_be out (zero_pattern dbl)) as [_ ->]; [congruence|done..|].
    rewrite Hz, Hv. split; [|congruence]. intros E. destruct (Z.lt_trichotomy (fp_key bs) 0) as [H|[H|H]]; [|done|];
      apply (fp_code_mono (fp_exp dbl) (fp_size dbl)) in H; lia. }
  rewrite (decide_ext _ _ _ _ Hiff). rewrite Hl. case_decide as E; [done|]. specialize (Hp E).
  assert (length (reverse bs) = fp_size dbl) as Hlr by by rewrite length_reverse.
  assert (all_bytes (reverse bs)) as Hbr by by apply Forall_reverse.
  assert (He : 1 <= fp_exp dbl <= 15) by (destruct dbl; done).
  destruct (reverse bs) as [|b0 [|b1 rest]] eqn:Er; [destruct dbl; done..|].
  destruct (fp_head b0 b1 rest (fp_exp dbl) He Hbr) as [_ H2]. cbv zeta in H2. rewrite <- Er, reverse_involutive in H2.
  rewrite (unpack_pack_fp _ _ _ _ _ He Hbr (H2 Hf) Hp). cbn [mbind option_bind]. rewrite decide_True by done.
  by rewrite <- Er, reverse_involutive.
Qed.

(** C28: the packed bytes of two finite floats or doubles compare exactly as
    the numbers (both zeros being equal), whatever key parts follow them. *)
Theorem PackFP_order (dbl : bool) (a b resta restb : bytes) :
  length a = fp_size dbl -> length b = fp_size dbl -> all_bytes a -> all_bytes b ->
  fp_finite (fp_exp dbl) a -> fp_finite (fp_exp dbl) b ->
  exists pa pb, PackFP dbl (Some a) = Some (0, pa) /\ PackFP dbl (Some b) = Some (0, pb) /\
    (fp_key a < fp_key b -> lex_compare (pa ++ resta) (pb ++ restb) < 0) /\
    (fp_key a = fp_key b -> lex_compare (pa ++ resta) (pb ++ restb) = lex_compare resta restb).
Proof.
  intros Hla Hlb Ha Hb Hfa Hfb.
  destruct (PackFP_val dbl a Hla Ha Hfa) as (pa & Hpa & Hla' & Hba & Hva & _).
  destruct (PackFP_val dbl b Hlb Hb Hfb) as (pb & Hpb & Hlb' & Hbb & Hvb & _).
  exists pa, pb. split; [done|]. split; [done|].
  destruct (lex_compare_be pa pb ltac:(congruence) Hba Hbb) as [H1 H2]. rewrite lex_compare_app by congruence.
  split; intros Hk.
  - assert (lex_compare pa pb < 0) by (apply H1; rewrite Hva, Hvb; by apply fp_code_mono). by rewrite decide_False by lia.
  - by rewrite decide_True by (apply H2; congruence).
Qed.

(** ** The hypotheses hold on concrete values *)
Lemma PackInteger_roundtrip_witness :
  exists out, PackInteger (Some (le_bytes 4 (-7))) (length (le_bytes 4 (-7))) false = Some (0, out) /\
    length out = length (le_bytes 4 (-7)) /\
    UnpackInteger (Some out) (length (le_bytes 4 (-7))) false = Some (0, le_bytes 4 (-7)).
Proof. apply (PackInteger_roundtrip (le_bytes 4 (-7)) false); [simpl; lia|apply le_bytes_all]. Defined.

Lemma PackInteger_order_witness :
  exists px py, PackInteger (Some (le_bytes 8 (-3))) 8 false = Some (0, px) /\
    PackInteger (Some (le_bytes 8 5)) 8 false = Some (0, py) /\
    (-3 < 5 -> lex_compare (px ++ [1]) (py ++ [0]) < 0) /\
    (-3 = 5 -> lex_compare (px ++ [1]) (py ++ [0]) = lex_compare [1] [0]).
Proof. apply (PackInteger_order 8 false (-3) 5 [1] [0]); [lia|by vm_compute|by vm_compute]. Defined.

Lemma PackString_roundtrip_witness :
  exists out, PackString (Some [104; 101; 108; 108; 111; 32; 119; 111; 114]) = Some (0, out) /\
    Z.of_nat (length out) = GetDstStrSize 9 /\
    UnpackString (Some (out ++ [1; 2])) = Some (0, [104; 101; 108; 108; 111; 32; 119; 111; 114], 9).
Proof. apply (PackString_roundtrip [104; 101; 108; 108; 111; 32; 119; 111; 114] [1; 2]). done. Defined.

Lemma PackString_order_witness :
  exists pa pb, PackString (Some [97; 0]) = Some (0, pa) /\ PackString (Some [97]) = Some (0, pb) /\
    ([97; 0] <> [97] -> lex_compare (pa ++ [0]) (pb ++ [9]) = lex_compare [97; 0] [97]) /\
    ([97; 0] = [97] -> lex_compare (pa ++ [0]) (pb ++ [9]) = lex_compare [0] [9]).
Proof. apply (PackString_order [97; 0] [97] [0] [9]); solve_bytes. Defined.

Lemma PackFP_roundtrip_witness :
  exists out, PackFP true (Some [0; 0; 0; 0; 0; 0; 240; 191]) = Some (0, out) /\ length out = 8%nat /\
    UnpackFP true (Some out) = Some (0, if decide (fp_key [0; 0; 0; 0; 0; 0; 240; 191] = 0)
      then replicate 8 0 else [0; 0; 0; 0; 0; 0; 240; 191]).
Proof. apply (PackFP_roundtrip true [0; 0; 0; 0; 0; 0; 240; 191]); [done|solve_bytes|by vm_compute]. Defined.

Lemma PackFP_order_witness :
  exists pa pb, PackFP false (Some [0; 0; 128; 191]) = Some (0, pa) /\ PackFP false (Some [0; 0; 0; 64]) = Some (0, pb) /\
    (fp_key [0; 0; 128; 191] < fp_key [0; 0; 0; 64] -> lex_compare (pa ++ []) (pb ++ []) < 0) /\
    (fp_key [0; 0; 128; 191] = fp_key [0; 0; 0; 64] -> lex_compare (pa ++ []) (pb ++ []) = lex_compare [] []).
Proof.
  apply (PackFP_order false [0; 0; 128; 191] [0; 0; 0; 64] [] []); [done|done|solve_bytes|solve_bytes|by vm_compute|by vm_compute].
Defined.
