(* ===== verification/RowCodec.v ===== *)
(** The row format: [RowBuilder] and [RowView] of codec/codec.{h,cc}.

    A row is a buffer: format and schema version (1 byte each), total size
    (4 bytes), a NULL bitmap, the fixed-width columns, a table of string
    offsets (1 to 4 bytes each, by total size) and the string bodies.  Buffers
    are [bytes] accessed through [load] and [store], so an access outside the
    row is [None].  Floating-point values are their bit patterns. *)
From S2P Require Import Prelude Memory.

(** [fedb::type::DataType] with the values of proto/type.proto *)
Inductive DataType : Type :=
  | kBool | kSmallInt | kInt | kBigInt | kFloat | kDouble | kDate | kTimestamp | kVarchar | kString.
#[global] Instance DataType_eq_dec : EqDecision DataType.
Proof. solve_decision. Defined.
Definition type_code (t : DataType) : Z :=
  match t with
  | kBool => 1 | kSmallInt => 2 | kInt => 3 | kBigInt => 4 | kFloat => 5 | kDouble => 6 | kDate => 7
  | kTimestamp => 8 | kVarchar => 13 | kString => 14
  end.

(** The parts of [ColumnDesc] the codec reads *)
Record ColumnDesc : Type := MkColumnDesc { data_type : DataType; not_null : bool }.
Abbreviation Schema := (list ColumnDesc).

Definition VERSION_LENGTH : Z := 2.
Definition SIZE_LENGTH : Z := 4.
Definition HEADER_LENGTH : Z := VERSION_LENGTH + SIZE_LENGTH.
Definition UINT8_MAX : Z := 255.
Definition UINT16_MAX : Z := 65535.
Definition UINT24_MAX : Z := 2 ^ 24 - 1.
Definition UINT32_MAX : Z := 2 ^ 32 - 1.

(** [BitMapSize] *)
Definition BitMapSize (size : Z) : Z := Z.shiftr size 3 + (if decide (Z.land size 7 = 0) then 0 else 1).

Definition TYPE_SET : list DataType :=
  [kBool; kSmallInt; kInt; kBigInt; kFloat; kDouble; kDate; kTimestamp; kVarchar; kString].
Definition TYPE_SIZE_ARRAY : list Z := [0; 1; 2; 4; 8; 4; 8; 4; 8].

Definition is_string (t : DataType) : bool := bool_decide (t = kVarchar) || bool_decide (t = kString).

Definition GetAddrLength (size : Z) : Z :=
  if decide (size <= UINT8_MAX) then 1
  else if decide (size <= UINT16_MAX) then 2
  else if decide (size <= UINT24_MAX) then 3
  else 4.

Definition schema_size (s : Schema) : Z := Z.of_nat (length s).

(** ** RowBuilder *)
Record RowBuilder : Type := MkRowBuilder {
  rb_schema : Schema;
  rb_buf : option bytes;
  rb_cnt : Z;
  rb_size : Z;
  rb_str_field_cnt : Z;
  rb_str_addr_length : Z;
  rb_str_field_start_offset : Z;
  rb_str_offset : Z;
  rb_schema_version : Z;
  rb_offset_vec : list Z
}.

Definition set_rb_buf b r := MkRowBuilder (rb_schema r) b (rb_cnt r) (rb_size r) (rb_str_field_cnt r)
  (rb_str_addr_length r) (rb_str_field_start_offset r) (rb_str_offset r) (rb_schema_version r) (rb_offset_vec r).
Definition set_rb_cnt c r := MkRowBuilder (rb_schema r) (rb_buf r) c (rb_size r) (rb_str_field_cnt r)
  (rb_str_addr_length r) (rb_str_field_start_offset r) (rb_str_offset r) (rb_schema_version r) (rb_offset_vec r).
Definition set_rb_str_offset o r := MkRowBuilder (rb_schema r) (rb_buf r) (rb_cnt r) (rb_size r) (rb_str_field_cnt r)
  (rb_str_addr_length r) (rb_str_field_start_offset r) o (rb_schema_version r) (rb_offset_vec r).

(** The column loop of the two constructors: the offset vector, the number of
    string columns and the end of the fixed-width area.  [RowBuilder] skips a
    column of an unknown type, [RowView::Init] stops. *)
Fixpoint builder_offsets (cols : Schema) (str_cnt offset : Z) : list Z * Z * Z :=
  match cols with
  | [] => ([], str_cnt, offset)
  | column :: cols' =>
      let cur_type := data_type column in
      if is_string cur_type then
        let '(vec, c, o) := builder_offsets cols' (u32 (str_cnt + 1)) offset in (str_cnt :: vec, c, o)
      else
        if decide (type_code cur_type < Z.of_nat (length TYPE_SIZE_ARRAY) /\ 0 < type_code cur_type) then
          let '(vec, c, o) := builder_offsets cols' str_cnt
            (u32 (offset + nth (Z.to_nat (type_code cur_type)) TYPE_SIZE_ARRAY 0)) in (offset :: vec, c, o)
        else builder_offsets cols' str_cnt offset
  end.

Definition RowBuilder_new (schema : Schema) : RowBuilder :=
  let start := u32 (HEADER_LENGTH + BitMapSize (schema_size schema)) in
  let '(vec, cnt, start) := builder_offsets schema 0 start in
  MkRowBuilder schema None 0 0 cnt 0 start 0 1 vec.

Definition SetSchemaVersion (r : RowBuilder) (version : Z) : RowBuilder :=
  MkRowBuilder (rb_schema r) (rb_buf r) (rb_cnt r) (rb_size r) (rb_str_field_cnt r)
    (rb_str_addr_length r) (rb_str_field_start_offset r) (rb_str_offset r) version (rb_offset_vec r).

(** A store relative to [buf_] *)
Definition put (r : RowBuilder) (off : Z) (d : bytes) : option RowBuilder :=
  buf ← rb_buf r; buf ← store buf off d; Some (set_rb_buf (Some buf) r).

Definition SetBuffer (r : RowBuilder) (buf : option bytes) (size : Z) (need_clear : bool) : option (bool * RowBuilder) :=
  match buf with
  | None => Some (false, r)
  | Some b =>
      if decide (size = 0 \/ size < u32 (rb_str_field_start_offset r + rb_str_field_cnt r)) then Some (false, r)
      else
        let r := MkRowBuilder (rb_schema r) (Some b) (rb_cnt r) size (rb_str_field_cnt r)
          (rb_str_addr_length r) (rb_str_field_start_offset r) (rb_str_offset r) (rb_schema_version r) (rb_offset_vec r) in
        r ← put r 0 [1];
        r ← put r 1 [rb_schema_version r];
        r ← put r VERSION_LENGTH (le_bytes 4 size);
        r ← (if need_clear then
               put r HEADER_LENGTH (replicate (Z.to_nat (BitMapSize (schema_size (rb_schema r)))) 255)
             else Some r);
        let a := GetAddrLength size in
        Some (true, MkRowBuilder (rb_schema r) (rb_buf r) 0 (rb_size r) (rb_str_field_cnt r) a
          (rb_str_field_start_offset r) (u32 (rb_str_field_start_offset r + u32 (a * rb_str_field_cnt r)))
          (rb_schema_version r) (rb_offset_vec r))
  end.

Definition CalTotalLength (r : RowBuilder) (string_length : Z) : Z :=
  if decide (schema_size (rb_schema r) = 0) then 0
  else
    let total_length := u32 (rb_str_field_start_offset r + string_length) in
    let cnt := rb_str_field_cnt r in
    if decide (u32 (total_length + cnt) <= UINT8_MAX) then u32 (total_length + cnt)
    else if decide (u32 (total_length + u32 (cnt * 2)) <= UINT16_MAX) then u32 (total_length + u32 (cnt * 2))
    else if decide (u32 (total_length + u32 (cnt * 3)) <= UINT24_MAX) then u32 (total_length + u32 (cnt * 3))
    else if decide (u32 (total_length + u32 (cnt * 4)) <= UINT32_MAX) then u32 (total_length + u32 (cnt * 4))
    else 0.

Definition Check_ (r : RowBuilder) (index : Z) (type : DataType) : option bool :=
  if decide (schema_size (rb_schema r) <= s32 index) then Some false
  else
    column ← rb_schema r !! Z.to_nat index;
    if decide (data_type column <> type) then Some false
    else Some (bool_decide (data_type column ∈ TYPE_SET)).

Definition SetField (r : RowBuilder) (index : Z) : option RowBuilder :=
  buf ← rb_buf r;
  let ptr := HEADER_LENGTH + Z.shiftr index 3 in
  b ← load1 buf ptr;
  put r ptr [u8 (Z.land b (Z.lnot (Z.shiftl 1 (Z.land index 7))))].

Definition SetStrOffset (r : RowBuilder) (str_pos : Z) : option RowBuilder :=
  if decide (rb_str_field_cnt r <= str_pos) then Some r
  else
    let ptr := rb_str_field_start_offset r + u32 (rb_str_addr_length r * str_pos) in
    let o := rb_str_offset r in
    if decide (rb_str_addr_length r = 1) then put r ptr [u8 o]
    else if decide (rb_str_addr_length r = 2) then put r ptr (le_bytes 2 (u16 o))
    else if decide (rb_str_addr_length r = 3) then
      r ← put r ptr [u8 (Z.shiftr o 16)];
      r ← put r (ptr + 1) [Z.shiftr (Z.land o 0xFF00) 8];
      put r (ptr + 2) [Z.land o 0xFF]
    else put r ptr (le_bytes 4 o).

(** The body shared by the setters of fixed-width columns *)
Definition set_fixed (r : RowBuilder) (index : Z) (type : DataType) (d : bytes) : option (bool * RowBuilder) :=
  c ← Check_ r index type;
  if negb c then Some (false, r)
  else
    r ← SetField r index;
    off ← rb_offset_vec r !! Z.to_nat index;
    r ← put r off d;
    Some (true, r).
Definition SetBool r index (val : bool) := set_fixed r index kBool [if val then 1 else 0].
Definition SetInt16 r index val := set_fixed r index kSmallInt (le_bytes 2 val).
Definition SetInt32 r index val := set_fixed r index kInt (le_bytes 4 val).
Definition SetInt64 r index val := set_fixed r index kBigInt (le_bytes 8 val).
Definition SetTimestamp r index val := set_fixed r index kTimestamp (le_bytes 8 val).
Definition SetFloat r index bits := set_fixed r index kFloat (le_bytes 4 bits).
Definition SetDouble r index bits := set_fixed r index kDouble (le_bytes 8 bits).
Definition SetDate r index date := set_fixed r index kDate (le_bytes 4 date).

Definition SetDate_ymd (r : RowBuilder) (index year month day : Z) : option (bool * RowBuilder) :=
  if decide (year < 1900 \/ 9999 < year) then Some (false, r)
  else if decide (month < 1 \/ 12 < month) then Some (false, r)
  else if decide (day < 1 \/ 31 < day) then Some (false, r)
  else
    c ← Check_ r index kDate;
    if negb c then Some (false, r)
    else
      off ← rb_offset_vec r !! Z.to_nat index;
      let data := s32 (u32 (Z.shiftl (u32 (year - 1900)) 16)) in
      let data := s32 (Z.lor data (u32 (Z.shiftl (u32 (month - 1)) 8))) in
      let data := s32 (Z.lor data day) in
      r ← put r off (le_bytes 4 data);
      r ← SetField r index;
      Some (true, r).

Definition SetNULL (r : RowBuilder) (index : Z) : option (bool * RowBuilder) :=
  column ← rb_schema r !! Z.to_nat index;
  if not_null column then Some (false, r)
  else
    buf ← rb_buf r;
    let ptr := HEADER_LENGTH + Z.shiftr index 3 in
    b ← load1 buf ptr;
    r ← put r ptr [u8 (Z.lor b (Z.shiftl 1 (Z.land index 7)))];
    if is_string (data_type column) then
      str_pos ← rb_offset_vec r !! Z.to_nat index;
      r ← SetStrOffset r (u32 (str_pos + 1));
      Some (true, r)
    else Some (true, r).

(** [val] is [None] for a NULL pointer, and has [length] bytes otherwise. *)
Definition SetString (r : RowBuilder) (index : Z) (val : option bytes) : option (bool * RowBuilder) :=
  match val with
  | None => Some (false, r)
  | Some d =>
      c1 ← Check_ r index kVarchar;
      c2 ← match c1 with true => Some true | false => Check_ r index kString end;
      let length_ := u32 (Z.of_nat (length d)) in
      if negb c2 then Some (false, r)
      else if decide (rb_size r < u32 (rb_str_offset r + length_)) then Some (false, r)
      else
        str_pos ← rb_offset_vec r !! Z.to_nat index;
        r ← (if decide (str_pos = 0) then SetStrOffset r str_pos else Some r);
        r ← (if decide (length_ <> 0) then put r (rb_str_offset r) (take (Z.to_nat length_) d) else Some r);
        let r := set_rb_str_offset (u32 (rb_str_offset r + length_)) r in
        r ← SetStrOffset r (u32 (str_pos + 1));
        r ← SetField r index;
        Some (true, r)
  end.

(** Each [AppendX(v)] is [SetX(cnt_, v)], then [cnt_++] on success. *)
Definition append (r : RowBuilder) (set : RowBuilder -> Z -> option (bool * RowBuilder)) : option (bool * RowBuilder) :=
  '(ok, r) ← set r (rb_cnt r);
  if negb ok then Some (false, r) else Some (true, set_rb_cnt (u32 (rb_cnt r + 1)) r).
Definition AppendBool r val := append r (fun r i => SetBool r i val).
Definition AppendInt16 r val := append r (fun r i => SetInt16 r i val).
Definition AppendInt32 r val := append r (fun r i => SetInt32 r i val).
Definition AppendInt64 r val := append r (fun r i => SetInt64 r i val).
Definition AppendTimestamp r val := append r (fun r i => SetTimestamp r i val).
Definition AppendFloat r val := append r (fun r i => SetFloat r i val).
Definition AppendDouble r val := append r (fun r i => SetDouble r i val).
Definition AppendDate r val := append r (fun r i => SetDate r i val).
Definition AppendDate_ymd r y m d := append r (fun r i => SetDate_ymd r i y m d).
Definition AppendNULL r := append r SetNULL.
Definition AppendString r val := append r (fun r i => SetString r i val).
Definition IsComplete (r : RowBuilder) : bool := bool_decide (rb_cnt r = u32 (schema_size (rb_schema r))).

(** ** Field access of namespace v1 *)
Definition GetBoolField (row : bytes) (offset : Z) : option Z := load_sint 1 row offset.
Definition GetInt16Field (row : bytes) (offset : Z) : option Z := load_sint 2 row offset.
Definition GetInt32Field (row : bytes) (offset : Z) : option Z := load_sint 4 row offset.
Definition GetInt64Field (row : bytes) (offset : Z) : option Z := load_sint 8 row offset.
Definition GetFloatField (row : bytes) (offset : Z) : option Z := load_uint 4 row offset.
Definition GetDoubleField (row : bytes) (offset : Z) : option Z := load_uint 8 row offset.

(** A getter returns its code, and what it stored through its output
    pointers. *)
Abbreviation Ret A := (option (Z * option A)).

(** One entry of the string offset table *)
Definition str_addr (row : bytes) (str_start_offset addr_space field_offset : Z) : option Z :=
  let p := str_start_offset + u32 (field_offset * addr_space) in
  if decide (addr_space = 1) then load_uint 1 row p
  else if decide (addr_space = 2) then load_uint 2 row p
  else if decide (addr_space = 3) then
    a ← load_uint 1 row p;
    b ← load_uint 1 row (p + 1);
    c ← load_uint 1 row (p + 2);
    Some (u32 (u32 (Z.shiftl (u32 (u32 (Z.shiftl a 8) + b)) 8) + c))
  else load_uint 4 row p.

(** [GetStrField]: the start of the string in the row, and its size *)
Definition GetStrField (row : bytes) (field_offset next_str_field_offset str_start_offset addr_space : Z) : Ret (Z * Z) :=
  if decide (addr_space = 1 \/ addr_space = 2 \/ addr_space = 3 \/ addr_space = 4) then
    str_offset ← str_addr row str_start_offset addr_space field_offset;
    next_str_offset ← (if decide (0 < next_str_field_offset) then str_addr row str_start_offset addr_space next_str_field_offset
                       else Some 0);
    if decide (next_str_field_offset <= 0) then
      total_length ← load_uint 4 row VERSION_LENGTH;
      Some (0, Some (str_offset, u32 (total_length - str_offset)))
    else Some (0, Some (str_offset, u32 (next_str_offset - str_offset)))
  else Some (-2, None).

(** ** RowView *)
Record RowView : Type := MkRowView {
  rv_str_addr_length : Z;
  rv_is_valid : bool;
  rv_string_field_cnt : Z;
  rv_str_field_start_offset : Z;
  rv_size : Z;
  rv_row : option bytes;
  rv_schema : Schema;
  rv_offset_vec : list Z
}.

(** The column loop of [RowView::Init]; [false] when it met an unknown type *)
Fixpoint view_offsets (cols : Schema) (str_cnt offset : Z) : list Z * Z * Z * bool :=
  match cols with
  | [] => ([], str_cnt, offset, true)
  | column :: cols' =>
      let cur_type := data_type column in
      if is_string cur_type then
        let '(vec, c, o, ok) := view_offsets cols' (u32 (str_cnt + 1)) offset in (str_cnt :: vec, c, o, ok)
      else
        if decide (type_code cur_type < Z.of_nat (length TYPE_SIZE_ARRAY) /\ 0 < type_code cur_type) then
          let '(vec, c, o, ok) := view_offsets cols' str_cnt
            (u32 (offset + nth (Z.to_nat (type_code cur_type)) TYPE_SIZE_ARRAY 0)) in (offset :: vec, c, o, ok)
        else ([], str_cnt, offset, false)
  end.

Definition RowView_Init (v : RowView) : bool * RowView :=
  let offset := u32 (HEADER_LENGTH + BitMapSize (schema_size (rv_schema v))) in
  let '(vec, cnt, offset, ok) := view_offsets (rv_schema v) (rv_string_field_cnt v) offset in
  let vec := rv_offset_vec v ++ vec in
  if negb ok then
    (false, MkRowView (rv_str_addr_length v) false cnt (rv_str_field_start_offset v) (rv_size v) (rv_row v) (rv_schema v) vec)
  else
    (true, MkRowView (rv_str_addr_length v) (rv_is_valid v) cnt offset (rv_size v) (rv_row v) (rv_schema v) vec).

Definition invalidate (v : RowView) : RowView :=
  MkRowView (rv_str_addr_length v) false (rv_string_field_cnt v) (rv_str_field_start_offset v) (rv_size v)
    (rv_row v) (rv_schema v) (rv_offset_vec v).
Definition attach (v : RowView) (row : bytes) (size : Z) : RowView :=
  MkRowView (GetAddrLength size) (rv_is_valid v) (rv_string_field_cnt v) (rv_str_field_start_offset v) size
    (Some row) (rv_schema v) (rv_offset_vec v).

(** [Reset(row, size)] and [Reset(row)] *)
Definition Reset (v : RowView) (row : option bytes) (size : Z) : option (bool * RowView) :=
  match row with
  | None => Some (false, invalidate v)
  | Some d =>
      if decide (schema_size (rv_schema v) = 0 \/ size <= HEADER_LENGTH) then Some (false, invalidate v)
      else
        sz ← load_uint 4 d VERSION_LENGTH;
        if decide (sz <> size) then Some (false, invalidate v) else Some (true, attach v d size)
  end.
Definition Reset_row (v : RowView) (row : option bytes) : option (bool * RowView) :=
  match row with
  | None => Some (false, invalidate v)
  | Some d =>
      if decide (schema_size (rv_schema v) = 0) then Some (false, invalidate v)
      else
        sz ← load_uint 4 d VERSION_LENGTH;
        if decide (sz <= HEADER_LENGTH) then
          Some (false, MkRowView (rv_str_addr_length v) false (rv_string_field_cnt v) (rv_str_field_start_offset v) sz
            (Some d) (rv_schema v) (rv_offset_vec v))
        else Some (true, attach v d sz)
  end.

Definition RowView_new (schema : Schema) : RowView := (RowView_Init (MkRowView 0 true 0 0 0 None schema [])).2.
Definition RowView_of (schema : Schema) (row : option bytes) (size : Z) : option RowView :=
  let v := MkRowView 0 true 0 0 size row schema [] in
  if decide (schema_size schema = 0) then Some (invalidate v)
  else
    let '(ok, v) := RowView_Init v in
    if ok then '(_, v) ← Reset v row size; Some v else Some v.

Definition GetSchemaVersion (row : bytes) : option Z := load1 row 1.
Definition GetSize (row : bytes) : option Z := load_uint 4 row VERSION_LENGTH.
Definition IsNULL (row : bytes) (idx : Z) : option bool :=
  b ← load1 row (HEADER_LENGTH + Z.shiftr idx 3);
  Some (bool_decide (Z.land b (Z.shiftl 1 (Z.land idx 7)) <> 0)).

Definition CheckValid (v : RowView) (idx : Z) (type : DataType) : option bool :=
  match rv_row v with
  | None => Some false
  | Some _ =>
      if negb (rv_is_valid v) then Some false
      else if decide (schema_size (rv_schema v) <= s32 idx) then Some false
      else
        column ← rv_schema v !! Z.to_nat idx;
        Some (bool_decide (data_type column = type))
  end.

(** The body shared by the getters of fixed-width columns *)
Definition get_fixed {A} (v : RowView) (idx : Z) (type : DataType) (get : bytes -> Z -> option A) : Ret A :=
  c ← CheckValid v idx type;
  if negb c then Some (-1, None)
  else
    row ← rv_row v;
    null ← IsNULL row idx;
    if (null : bool) then Some (1, None)
    else
      offset ← rv_offset_vec v !! Z.to_nat idx;
      x ← get row offset;
      Some (0, Some x).
Definition bool_field (row : bytes) (offset : Z) : option bool := b ← GetBoolField row offset; Some (bool_decide (b = 1)).
Definition GetBool v idx := get_fixed v idx kBool bool_field.
Definition GetInt16 v idx := get_fixed v idx kSmallInt GetInt16Field.
Definition GetInt32 v idx := get_fixed v idx kInt GetInt32Field.
Definition GetInt64 v idx := get_fixed v idx kBigInt GetInt64Field.
Definition GetTimestamp v idx := get_fixed v idx kTimestamp GetInt64Field.
Definition GetFloat v idx := get_fixed v idx kFloat GetFloatField.
Definition GetDouble v idx := get_fixed v idx kDouble GetDoubleField.
Definition GetDate v idx := get_fixed v idx kDate GetInt32Field.
Definition ymd_of (date : Z) : Z * Z * Z :=
  let day := u32 (Z.land date 0xFF) in
  let date := Z.shiftr date 8 in
  let month := u32 (1 + Z.land date 0xFF) in
  (u32 (1900 + Z.shiftr date 8), month, day).
Definition GetDate_ymd v idx := get_fixed v idx kDate (fun row off => d ← GetInt32Field row off; Some (ymd_of d)).

Definition GetString (v : RowView) (idx : Z) : Ret (Z * Z) :=
  c1 ← CheckValid v idx kVarchar;
  c2 ← match c1 with true => Some true | false => CheckValid v idx kString end;
  if negb c2 then Some (-1, None)
  else
    row ← rv_row v;
    null ← IsNULL row idx;
    if (null : bool) then Some (1, None)
    else
      field_offset ← rv_offset_vec v !! Z.to_nat idx;
      let next := if decide (field_offset < u32 (rv_string_field_cnt v - 1)) then u32 (field_offset + 1) else 0 in
      GetStrField row field_offset next (rv_str_field_start_offset v) (rv_str_addr_length v).

(** ** Values *)

(** A column value; the strings of [kVarchar] and [kString] are one case. *)
Inductive Value : Type :=
  | VBool (b : bool) | VSmallInt (x : Z) | VInt (x : Z) | VBigInt (x : Z) | VFloat (bits : Z) | VDouble (bits : Z)
  | VDate (x : Z) | VTimestamp (x : Z) | VString (d : bytes).

(** [GetValue(row, idx, type, val)] *)
Definition GetValue (v : RowView) (row : option bytes) (idx : Z) (type : DataType) : Ret Value :=
  match row with
  | None => Some (-1, None)
  | Some row =>
      if decide (schema_size (rv_schema v) = 0 \/ schema_size (rv_schema v) <= s32 idx) then Some (-1, None)
      else
        column ← rv_schema v !! Z.to_nat idx;
        if decide (data_type column <> type) then Some (-1, None)
        else
          sz ← GetSize row;
          if decide (sz <= HEADER_LENGTH) then Some (-1, None)
          else
            null ← IsNULL row idx;
            if (null : bool) then Some (1, None)
            else
              offset ← rv_offset_vec v !! Z.to_nat idx;
              match type with
              | kBool => b ← bool_field row offset; Some (0, Some (VBool b))
              | kSmallInt => x ← GetInt16Field row offset; Some (0, Some (VSmallInt x))
              | kInt => x ← GetInt32Field row offset; Some (0, Some (VInt x))
              | kTimestamp => x ← GetInt64Field row offset; Some (0, Some (VTimestamp x))
              | kBigInt => x ← GetInt64Field row offset; Some (0, Some (VBigInt x))
              | kFloat => x ← GetFloatField row offset; Some (0, Some (VFloat x))
              | kDouble => x ← GetDoubleField row offset; Some (0, Some (VDouble x))
              | kDate => x ← GetInt32Field row offset; Some (0, Some (VDate x))
              | _ => Some (-1, None)
              end
  end.

(** [GetInteger]: for [kInt], [kTimestamp] and [kBigInt] the code of
    [GetValue] is dropped. *)
Definition int_of (x : option Value) : Z :=
  match x with
  | Some (VSmallInt x) | Some (VInt x) | Some (VBigInt x) | Some (VTimestamp x) => x
  | _ => 0
  end.
Definition GetInteger (v : RowView) (row : option bytes) (idx : Z) (type : DataType) : Ret Z :=
  match type with
  | kSmallInt =>
      '(ret, x) ← GetValue v row idx type;
      if decide (ret = 0) then Some (ret, Some (int_of x)) else Some (ret, None)
  | kInt | kTimestamp | kBigInt =>
      '(_, x) ← GetValue v row idx type;
      Some (0, Some (int_of x))
  | _ => Some (-1, None)
  end.

(** [GetValue(row, idx, val, length)] for strings *)
Definition GetValue_str (v : RowView) (row : option bytes) (idx : Z) : Ret (Z * Z) :=
  match row with
  | None => Some (-1, None)
  | Some row =>
      if decide (schema_size (rv_schema v) = 0 \/ schema_size (rv_schema v) <= s32 idx) then Some (-1, None)
      else
        column ← rv_schema v !! Z.to_nat idx;
        if negb (is_string (data_type column)) then Some (-1, None)
        else
          sz ← GetSize row;
          if decide (sz <= HEADER_LENGTH) then Some (-1, None)
          else
            null ← IsNULL row idx;
            if (null : bool) then Some (1, None)
            else
              field_offset ← rv_offset_vec v !! Z.to_nat idx;
              let next := if decide (field_offset < u32 (rv_string_field_cnt v - 1)) then u32 (field_offset + 1) else 0 in
              GetStrField row field_offset next (rv_str_field_start_offset v) (GetAddrLength sz)
  end.

(** The column switches of [RowProject::Project]: read a column by the getter
    of its type, append a value by the appender of its type.  The getters are
    those that read the attached row and test [CheckValid]; [GetValue] and
    [GetInteger], which are handed a row, are not among them. *)
Definition value_of {A} (mk : A -> Value) (r : Ret A) : Ret Value :=
  match r with Some (ret, x) => Some (ret, option_map mk x) | None => None end.
Definition get_column (v : RowView) (idx : Z) (type : DataType) : Ret Value :=
  match type with
  | kBool => value_of VBool (GetBool v idx)
  | kSmallInt => value_of VSmallInt (GetInt16 v idx)
  | kInt => value_of VInt (GetInt32 v idx)
  | kBigInt => value_of VBigInt (GetInt64 v idx)
  | kFloat => value_of VFloat (GetFloat v idx)
  | kDouble => value_of VDouble (GetDouble v idx)
  | kDate => value_of VDate (GetDate v idx)
  | kTimestamp => value_of VTimestamp (GetTimestamp v idx)
  | kVarchar | kString =>
      '(ret, x) ← GetString v idx;
      match x with
      | None => Some (ret, None)
      | Some (off, size) => row ← rv_row v; d ← load row off (Z.to_nat size); Some (ret, Some (VString d))
      end
  end.
Definition append_column (r : RowBuilder) (x : option Value) : option (bool * RowBuilder) :=
  match x with
  | None => AppendNULL r
  | Some (VBool b) => AppendBool r b
  | Some (VSmallInt x) => AppendInt16 r x
  | Some (VInt x) => AppendInt32 r x
  | Some (VBigInt x) => AppendInt64 r x
  | Some (VFloat x) => AppendFloat r x
  | Some (VDouble x) => AppendDouble r x
  | Some (VDate x) => AppendDate r x
  | Some (VTimestamp x) => AppendTimestamp r x
  | Some (VString d) => AppendString r (Some d)
  end.
