(* ===== verification/RowBuild.v ===== *)
(** What a partly built row contains, and that each append extends it. *)
From S2P Require Import Prelude Memory RowCodec.

(** * RowLayout: The layout of a row: where [RowBuilder] puts each column and that
    [RowView] looks at the same places. *)
(** ** Column offsets *)
Definition width (t : DataType) : Z := if is_string t then 0 else nth (Z.to_nat (type_code t)) TYPE_SIZE_ARRAY 0.
Fixpoint fixed_total (cols : Schema) : Z :=
  match cols with [] => 0 | c :: cols' => width (data_type c) + fixed_total cols' end.
Fixpoint str_total (cols : Schema) : Z :=
  match cols with [] => 0 | c :: cols' => (if is_string (data_type c) then 1 else 0) + str_total cols' end.
Fixpoint offsets (cols : Schema) (str_cnt offset : Z) : list Z :=
  match cols with
  | [] => []
  | c :: cols' =>
      if is_string (data_type c) then str_cnt :: offsets cols' (str_cnt + 1) offset
      else offset :: offsets cols' str_cnt (offset + width (data_type c))
  end.

Lemma width_nonneg t : 0 <= width t <= 8.
Proof. destruct t; vm_compute; split; congruence. Qed.
Lemma fixed_total_nonneg cols : 0 <= fixed_total cols.
Proof. induction cols as [|c cols IH]; simpl; [lia|]. pose proof (width_nonneg (data_type c)). lia. Qed.
Lemma str_total_nonneg cols : 0 <= str_total cols.
Proof. induction cols as [|c cols IH]; simpl; [lia|]. destruct (is_string _); lia. Qed.
Lemma fixed_total_app a b : fixed_total (a ++ b) = fixed_total a + fixed_total b.
Proof. induction a as [|c a IH]; simpl; lia. Qed.
Lemma str_total_app a b : str_total (a ++ b) = str_total a + str_total b.
Proof. induction a as [|c a IH]; simpl; lia. Qed.

Lemma known_type t : is_string t = false -> type_code t < Z.of_nat (length TYPE_SIZE_ARRAY) /\ 0 < type_code t.
Proof. destruct t; try done; intros _; vm_compute; split; congruence. Qed.

Lemma builder_offsets_spec cols : forall c o, 0 <= c -> 0 <= o -> o + fixed_total cols < 2 ^ 32 -> c + str_total cols < 2 ^ 32 ->
  builder_offsets cols c o = (offsets cols c o, c + str_total cols, o + fixed_total cols) /\
  view_offsets cols c o = (offsets cols c o, c + str_total cols, o + fixed_total cols, true).
Proof.
  induction cols as [|col cols IH]; intros c o Hc Ho Hf Hs; cbn [builder_offsets view_offsets offsets fixed_total str_total] in *.
  { by rewrite !Z.add_0_r. }
  pose proof (fixed_total_nonneg cols). pose proof (str_total_nonneg cols). pose proof (width_nonneg (data_type col)).
  unfold width in *. destruct (is_string (data_type col)) eqn:E.
  - rewrite uwrap_id by (unfold in_uint; lia). destruct (IH (c + 1) o) as [-> ->]; [lia..|].
    by rewrite !Z.add_assoc, !Z.add_0_r.
  - rewrite !decide_True by by apply known_type. rewrite uwrap_id by (unfold in_uint; lia).
    destruct (IH c (o + nth (Z.to_nat (type_code (data_type col))) TYPE_SIZE_ARRAY 0)) as [-> ->]; [lia..|].
    by rewrite !Z.add_assoc, !Z.add_0_r.
Qed.

Lemma offsets_lookup cols : forall c o i col, cols !! i = Some col ->
  offsets cols c o !! i = Some (if is_string (data_type col) then c + str_total (take i cols) else o + fixed_total (take i cols)).
Proof.
  induction cols as [|col0 cols IH]; intros c o i col Hi; [done|].
  destruct i as [|i]; cbn [offsets take fixed_total str_total] in *.
  - injection Hi as ->. destruct (is_string _); simpl; f_equal; lia.
  - simpl in Hi. unfold width. destruct (is_string (data_type col0)) eqn:E; simpl; erewrite IH by done;
      destruct (is_string (data_type col)); f_equal; lia.
Qed.

(** ** The NULL bitmap *)
Lemma land_bit b k : 0 <= k -> Z.land b (Z.shiftl 1 k) <> 0 <-> Z.testbit b k = true.
Proof.
  intros Hk. rewrite Z.shiftl_1_l. split.
  - intros Hne. destruct (Z.testbit b k) eqn:E; [done|]. destruct Hne. apply Z.bits_inj'. intros i Hi.
    rewrite Z.land_spec, Z.bits_0. destruct (decide (i = k)) as [->|Hik]; [by rewrite E|].
    rewrite Z.pow2_bits_false by lia. apply andb_false_r.
  - intros E H0. apply (f_equal (fun z => Z.testbit z k)) in H0. rewrite Z.land_spec, Z.bits_0, E, Z.pow2_bits_true in H0; done.
Qed.

Lemma land_7 i : 0 <= i -> Z.land i 7 = i `mod` 8 /\ Z.shiftr i 3 = i `div` 8.
Proof.
  intros Hi. split; [change 7 with (Z.ones 3); by rewrite Z.land_ones by lia|by rewrite Z.shiftr_div_pow2 by lia].
Qed.

Lemma IsNULL_load buf i b : 0 <= i -> load1 buf (HEADER_LENGTH + Z.shiftr i 3) = Some b ->
  IsNULL buf i = Some (Z.testbit b (i `mod` 8)).
Proof.
  intros Hi Hl. unfold IsNULL. rewrite Hl, bind_some. destruct (land_7 i Hi) as [-> _]. f_equal.
  pose proof (land_bit b (i `mod` 8) ltac:(apply Z.mod_pos_bound; lia)) as Hlb.
  destruct (Z.testbit b (i `mod` 8)); [apply bool_decide_eq_true_2; by apply Hlb|].
  apply bool_decide_eq_false_2. intros Hne. by apply Hlb in Hne.
Qed.

(** Writing the byte of column [i] with its bit replaced *)
Lemma IsNULL_store buf buf' i b b' c : 0 <= i -> load1 buf (HEADER_LENGTH + Z.shiftr i 3) = Some b ->
  store buf (HEADER_LENGTH + Z.shiftr i 3) [b'] = Some buf' ->
  (forall k, 0 <= k < 8 -> Z.testbit b' k = if decide (k = i `mod` 8) then c else Z.testbit b k) ->
  IsNULL buf' i = Some c /\ forall j, 0 <= j -> j <> i -> IsNULL buf' j = IsNULL buf j.
Proof.
  intros Hi Hb Hs Hbits.
  assert (Hb' : load1 buf' (HEADER_LENGTH + Z.shiftr i 3) = Some b').
  { unfold load1, load_uint. change 1%nat with (length [b']). rewrite (load_store_same _ _ _ _ Hs), bind_some. simpl. f_equal. lia. }
  assert (Hm : 0 <= i `mod` 8 < 8) by (apply Z.mod_pos_bound; lia). split.
  - rewrite (IsNULL_load buf' i b') by done. by rewrite Hbits, decide_True by done.
  - intros j Hj Hij. assert (Hmj : 0 <= j `mod` 8 < 8) by (apply Z.mod_pos_bound; lia).
    destruct (decide (Z.shiftr j 3 = Z.shiftr i 3)) as [E|E].
    + rewrite (IsNULL_load buf' j b'), (IsNULL_load buf j b) by (done || by rewrite E).
      rewrite Hbits, decide_False; [done| |done]. destruct (land_7 i Hi) as [_ Hdi], (land_7 j Hj) as [_ Hdj].
      rewrite Hdi, Hdj in E. intros Em. apply Hij. rewrite (Z.div_mod j 8), (Z.div_mod i 8) by lia. by rewrite E, Em.
    + unfold IsNULL, load1, load_uint. rewrite (load_store_other _ _ _ _ _ _ Hs); [done|]. simpl. lia.
Qed.

Lemma clear_bit b i k : 0 <= i -> 0 <= k < 8 ->
  Z.testbit (u8 (Z.land b (Z.lnot (Z.shiftl 1 (Z.land i 7))))) k = if decide (k = i `mod` 8) then false else Z.testbit b k.
Proof.
  intros Hi Hk. unfold uwrap. rewrite Z.mod_pow2_bits_low by lia. destruct (land_7 i Hi) as [-> _].
  rewrite Z.land_spec, Z.lnot_spec, Z.shiftl_1_l by lia. case_decide as E.
  - rewrite E, Z.pow2_bits_true by (apply Z.mod_pos_bound; lia). apply andb_false_r.
  - rewrite Z.pow2_bits_false by done. apply andb_true_r.
Qed.

Lemma set_bit b i k : 0 <= i -> 0 <= k < 8 ->
  Z.testbit (u8 (Z.lor b (Z.shiftl 1 (Z.land i 7)))) k = if decide (k = i `mod` 8) then true else Z.testbit b k.
Proof.
  intros Hi Hk. unfold uwrap. rewrite Z.mod_pow2_bits_low by lia. destruct (land_7 i Hi) as [-> _].
  rewrite Z.lor_spec, Z.shiftl_1_l by lia. case_decide as E.
  - rewrite E, Z.pow2_bits_true by (apply Z.mod_pos_bound; lia). apply orb_true_r.
  - rewrite Z.pow2_bits_false by done. apply orb_false_r.
Qed.

(** * RowBuild *)
(** ** Values and their encodings *)
Definition typed (t : DataType) (v : Value) : Prop :=
  match t, v with
  | kBool, VBool _ => True
  | kSmallInt, VSmallInt x => in_sint 16 x
  | kInt, VInt x | kDate, VDate x => in_sint 32 x
  | kBigInt, VBigInt x | kTimestamp, VTimestamp x => in_sint 64 x
  | kFloat, VFloat b => in_uint 32 b
  | kDouble, VDouble b => in_uint 64 b
  | (kVarchar | kString), VString _ => True
  | _, _ => False
  end.
(** A value a column accepts; [None] is NULL. *)
Definition accepts (c : ColumnDesc) (x : option Value) : Prop :=
  match x with None => not_null c = false | Some v => typed (data_type c) v end.
Definition enc (v : Value) : bytes :=
  match v with
  | VBool b => [if b then 1 else 0]
  | VSmallInt x => le_bytes 2 x
  | VInt x | VDate x | VFloat x => le_bytes 4 x
  | VBigInt x | VTimestamp x | VDouble x => le_bytes 8 x
  | VString d => d
  end.
Definition vlen (x : option Value) : Z := match x with Some (VString d) => Z.of_nat (length d) | _ => 0 end.
Fixpoint strlen (xs : list (option Value)) : Z := match xs with [] => 0 | x :: xs' => vlen x + strlen xs' end.
Definition is_null (x : option Value) : bool := match x with None => true | Some _ => false end.

Lemma vlen_nonneg x : 0 <= vlen x.
Proof. destruct x as [[]|]; simpl; lia. Qed.
Lemma strlen_nonneg xs : 0 <= strlen xs.
Proof. induction xs as [|x xs IH]; simpl; [lia|]. pose proof (vlen_nonneg x). lia. Qed.
Lemma strlen_app a b : strlen (a ++ b) = strlen a + strlen b.
Proof. induction a as [|x a IH]; simpl; lia. Qed.
Lemma enc_width t v : typed t v -> is_string t = false -> Z.of_nat (length (enc v)) = width t.
Proof. destruct t, v; simpl; try done; intros _ _; by rewrite length_le_bytes. Qed.
Lemma enc_string t v : typed t v -> is_string t = true -> Z.of_nat (length (enc v)) = vlen (Some v).
Proof. by destruct t, v. Qed.
Lemma vlen_fixed t v : typed t v -> is_string t = false -> vlen (Some v) = 0.
Proof. by destruct t, v. Qed.

(** ** Entries of the string offset table *)
Definition enc_addr (a x : Z) : bytes :=
  if decide (a = 1) then le_bytes 1 x
  else if decide (a = 2) then le_bytes 2 x
  else if decide (a = 3) then [u8 (Z.shiftr x 16); Z.shiftr (Z.land x 0xFF00) 8; Z.land x 0xFF]
  else le_bytes 4 x.

Lemma GetAddrLength_cases n : GetAddrLength n = 1 /\ n <= UINT8_MAX \/ GetAddrLength n = 2 /\ n <= UINT16_MAX \/
  GetAddrLength n = 3 /\ n <= UINT24_MAX \/ GetAddrLength n = 4.
Proof. unfold GetAddrLength. repeat case_decide; tauto. Qed.

Lemma length_enc_addr n x : Z.of_nat (length (enc_addr (GetAddrLength n) x)) = GetAddrLength n.
Proof. destruct (GetAddrLength_cases n) as [[-> _]|[[-> _]|[[-> _]| ->]]]; reflexivity. Qed.

Lemma shift_mask x : Z.shiftr (Z.land x 0xFF00) 8 = (x `div` 256) `mod` 256.
Proof.
  rewrite Z.shiftr_land. change (Z.shiftr 65280 8) with (Z.ones 8). rewrite Z.land_ones, Z.shiftr_div_pow2 by lia. done.
Qed.

Lemma str_addr_holds buf start n p x : 0 <= p -> GetAddrLength n * p < 2 ^ 32 -> 0 <= x <= n -> n < 2 ^ 32 ->
  holds buf (start + GetAddrLength n * p) (enc_addr (GetAddrLength n) x) -> str_addr buf start (GetAddrLength n) p = Some x.
Proof.
  intros Hp Hap Hx Hn. unfold holds, str_addr. rewrite (Z.mul_comm p).
  pose proof (GetAddrLength_cases n) as Hc. unfold UINT8_MAX, UINT16_MAX, UINT24_MAX in Hc.
  rewrite uwrap_id by (unfold in_uint; split; [|done]; destruct Hc as [[-> _]|[[-> _]|[[-> _]| ->]]]; lia).
  set (q := start + GetAddrLength n * p). clearbody q.
  destruct Hc as [[-> Hb]|[[-> Hb]|[[-> Hb]| ->]]]; unfold enc_addr; decide_const.
  - intros Hl. rewrite length_le_bytes in Hl. unfold load_uint. rewrite Hl, bind_some, le_val_bytes. f_equal. apply Z.mod_small. simpl. lia.
  - intros Hl. rewrite length_le_bytes in Hl. unfold load_uint. rewrite Hl, bind_some, le_val_bytes. f_equal. apply Z.mod_small. simpl. lia.
  - cbn [length]. intros Hl.
    assert (H3 : forall k b, (k < 3)%nat -> [u8 (Z.shiftr x 16); Z.shiftr (Z.land x 0xFF00) 8; Z.land x 0xFF] !! k = Some b ->
      load_uint 1 buf (q + Z.of_nat k) = Some b).
    { intros k b Hk Hb'. apply load1_lookup. unfold load, require in Hl. case_bool_decide as Hq; [|done].
      injection Hl as Hl. split; [lia|]. rewrite <- Hl, lookup_take_lt, lookup_drop in Hb' by lia. rewrite <- Hb'. f_equal. lia. }
    rewrite <- (Z.add_0_r q) at 1. change (q + 0) with (q + Z.of_nat 0). change (q + 1) with (q + Z.of_nat 1). change (q + 2) with (q + Z.of_nat 2).
    erewrite !H3 by (reflexivity || lia). rewrite !bind_some. f_equal. rewrite !Z.shiftl_mul_pow2 by lia.
    rewrite shift_mask, Z.shiftr_div_pow2 by lia. change 0xFF with (Z.ones 8). rewrite Z.land_ones by lia.
    unfold uwrap. change (2 ^ 8) with 256. change (2 ^ 16) with 65536. Z.to_euclidean_division_equations. lia.
  - intros Hl. rewrite length_le_bytes in Hl. unfold load_uint. rewrite Hl, bind_some, le_val_bytes. f_equal. apply Z.mod_small. simpl. lia.
Qed.

(** ** The contents of a partly built row *)
Section row.
Context (sc : Schema) (ver N : Z).

Definition base : Z := HEADER_LENGTH + BitMapSize (schema_size sc).
Definition str_start : Z := base + fixed_total sc.
Definition addr_len : Z := GetAddrLength N.
Definition body : Z := str_start + addr_len * str_total sc.
Definition foff (i : nat) : Z := base + fixed_total (take i sc).
Definition spos (i : nat) : Z := str_total (take i sc).
Definition entry (buf : bytes) (p x : Z) : Prop := holds buf (str_start + addr_len * p) (enc_addr addr_len x).

(** The value of column [i], a string starting at offset [s] *)
Definition col_at (buf : bytes) (i : nat) (c : ColumnDesc) (v : Value) (s : Z) : Prop :=
  if is_string (data_type c) then
    holds buf s (enc v) /\ entry buf (spos i) s /\ (spos i + 1 < str_total sc -> entry buf (spos i + 1) (s + vlen (Some v)))
  else holds buf (foff i) (enc v).

Record content (buf : bytes) (xs : list (option Value)) : Prop := {
  ct_length : Z.of_nat (length buf) = N;
  ct_ver : holds buf 1 [ver];
  ct_size : holds buf 2 (le_bytes 4 N);
  ct_null : forall i x, xs !! i = Some x -> IsNULL buf (Z.of_nat i) = Some (is_null x);
  ct_typed : forall i c v, sc !! i = Some c -> xs !! i = Some (Some v) -> typed (data_type c) v;
  ct_col : forall i c v, sc !! i = Some c -> xs !! i = Some (Some v) -> col_at buf i c v (body + strlen (take i xs));
  ct_next : 0 < spos (length xs) < str_total sc -> entry buf (spos (length xs)) (body + strlen xs)
}.

(** The size of the row leaves room for the layout, and fits in 32 bits. *)
Class row_fits : Prop := {
  rf_cols : schema_size sc < 2 ^ 31;
  rf_body : body <= N;
  rf_size : N < 2 ^ 32
}.
Context `{Hfits : row_fits}.

Lemma bitmap_nonneg n : 0 <= n -> 0 <= BitMapSize n.
Proof. intros Hn. unfold BitMapSize. rewrite Z.shiftr_div_pow2 by lia. pose proof (Z.div_pos n (2 ^ 3)). case_decide; lia. Qed.

Lemma bitmap_covers i : (i < length sc)%nat -> Z.shiftr (Z.of_nat i) 3 < BitMapSize (schema_size sc).
Proof.
  intros Hi. unfold BitMapSize, schema_size. destruct (land_7 (Z.of_nat i)) as [_ ->]; [lia|].
  destruct (land_7 (Z.of_nat (length sc))) as [-> ->]; [lia|]. case_decide; Z.to_euclidean_division_equations; lia.
Qed.

Lemma addr_len_range : 1 <= addr_len <= 4.
Proof. unfold addr_len. destruct (GetAddrLength_cases N) as [[-> _]|[[-> _]|[[-> _]| ->]]]; lia. Qed.

Lemma base_ge : 6 <= base.
Proof. unfold base. pose proof (bitmap_nonneg (schema_size sc)). unfold schema_size, HEADER_LENGTH, VERSION_LENGTH, SIZE_LENGTH in *. lia. Qed.

Lemma take_split i c : sc !! i = Some c -> sc = take i sc ++ c :: drop (S i) sc.
Proof. intros Hi. symmetry. by apply take_drop_middle. Qed.

Lemma foff_S i c : sc !! i = Some c -> foff (S i) = foff i + width (data_type c).
Proof. intros Hi. unfold foff. erewrite take_S_r by done. rewrite fixed_total_app. simpl. lia. Qed.
Lemma spos_S i c : sc !! i = Some c -> spos (S i) = spos i + (if is_string (data_type c) then 1 else 0).
Proof. intros Hi. unfold spos. erewrite take_S_r by done. rewrite str_total_app. simpl. lia. Qed.
Lemma foff_bounds i : base <= foff i <= str_start.
Proof.
  unfold foff, str_start. rewrite <- (take_drop i sc) at 3. rewrite fixed_total_app.
  pose proof (fixed_total_nonneg (take i sc)). pose proof (fixed_total_nonneg (drop i sc)). lia.
Qed.
Lemma spos_bounds i : 0 <= spos i <= str_total sc.
Proof.
  unfold spos. rewrite <- (take_drop i sc) at 3. rewrite str_total_app.
  pose proof (str_total_nonneg (take i sc)). pose proof (str_total_nonneg (drop i sc)). lia.
Qed.
Lemma foff_mono i k : (i <= k)%nat -> foff i <= foff k.
Proof.
  intros Hik. unfold foff. replace (take k sc) with (take i sc ++ drop i (take k sc)).
  - rewrite fixed_total_app. pose proof (fixed_total_nonneg (drop i (take k sc))). lia.
  - rewrite <- (take_drop i (take k sc)) at 2. rewrite take_take. by rewrite Nat.min_l by lia.
Qed.
Lemma spos_mono i k : (i <= k)%nat -> spos i <= spos k.
Proof.
  intros Hik. unfold spos. replace (take k sc) with (take i sc ++ drop i (take k sc)).
  - rewrite str_total_app. pose proof (str_total_nonneg (drop i (take k sc))). lia.
  - rewrite <- (take_drop i (take k sc)) at 2. rewrite take_take. by rewrite Nat.min_l by lia.
Qed.

Lemma entry_in p : 0 <= p < str_total sc -> str_start <= str_start + addr_len * p /\ str_start + addr_len * p + addr_len <= body.
Proof. intros Hp. pose proof addr_len_range. unfold body. nia. Qed.
Lemma entry_lt p q : p < q -> addr_len * p + addr_len <= addr_len * q.
Proof. intros Hp. pose proof addr_len_range. nia. Qed.

(** What an append of column [k] to a row holding strings up to [s] leaves
    unchanged *)
Record frame (k : nat) (s : Z) (buf buf' : bytes) : Prop := {
  fr_length : length buf' = length buf;
  fr_header : forall o n, o + Z.of_nat n <= HEADER_LENGTH -> load buf' o n = load buf o n;
  fr_null : forall j, (j < k)%nat -> IsNULL buf' (Z.of_nat j) = IsNULL buf (Z.of_nat j);
  fr_fixed : forall o n, base <= o -> o + Z.of_nat n <= foff k -> load buf' o n = load buf o n;
  fr_table : forall p x, 0 < spos k -> 0 <= p <= spos k -> p < str_total sc -> entry buf p x -> entry buf' p x;
  fr_body : forall o n, body <= o -> o + Z.of_nat n <= s -> load buf' o n = load buf o n
}.

Lemma frame_refl k s buf : frame k s buf buf.
Proof. by split. Qed.
Lemma frame_trans k s b1 b2 b3 : frame k s b1 b2 -> frame k s b2 b3 -> frame k s b1 b3.
Proof.
  intros F G. split; intros.
  - by rewrite (fr_length _ _ _ _ G), (fr_length _ _ _ _ F).
  - by rewrite (fr_header _ _ _ _ G), (fr_header _ _ _ _ F).
  - by rewrite (fr_null _ _ _ _ G), (fr_null _ _ _ _ F).
  - by rewrite (fr_fixed _ _ _ _ G), (fr_fixed _ _ _ _ F).
  - by apply (fr_table _ _ _ _ G), (fr_table _ _ _ _ F).
  - by rewrite (fr_body _ _ _ _ G), (fr_body _ _ _ _ F).
Qed.

Lemma load1_above buf buf' off d j : base <= off -> (j < length sc)%nat -> store buf off d = Some buf' ->
  IsNULL buf' (Z.of_nat j) = IsNULL buf (Z.of_nat j).
Proof.
  intros Ho Hj Hs. unfold IsNULL, load1, load_uint. rewrite (load_store_other _ _ _ _ _ _ Hs); [done|].
  pose proof (bitmap_covers j Hj). unfold base in Ho. simpl. lia.
Qed.

Lemma frame_store k s buf off d buf' : (k <= length sc)%nat -> store buf off d = Some buf' ->
  base <= off -> foff k <= off ->
  (forall p, 0 < spos k -> 0 <= p <= spos k -> p < str_total sc ->
    str_start + addr_len * p + addr_len <= off \/ off + Z.of_nat (length d) <= str_start + addr_len * p) ->
  s <= off \/ off + Z.of_nat (length d) <= body -> frame k s buf buf'.
Proof.
  intros Hk Hs Hb Hf Ht Hbd. split; intros.
  - by apply (store_length _ _ _ _ Hs).
  - apply (load_store_other _ _ _ _ _ _ Hs). unfold base in Hb. pose proof (bitmap_nonneg (schema_size sc)). unfold schema_size in *. lia.
  - apply (load1_above _ _ off d); [done|lia|done].
  - apply (load_store_other _ _ _ _ _ _ Hs). lia.
  - eapply holds_store_other; [done..|]. pose proof (length_enc_addr N x) as Hl. fold addr_len in Hl.
    rewrite Hl. apply Ht; lia.
  - apply (load_store_other _ _ _ _ _ _ Hs). lia.
Qed.

Lemma frame_fixed k s c buf d buf' : sc !! k = Some c -> store buf (foff k) d = Some buf' ->
  Z.of_nat (length d) = width (data_type c) -> frame k s buf buf'.
Proof.
  intros Hc Hs Hd. pose proof (foff_bounds k). pose proof (foff_bounds (S k)). rewrite (foff_S k c Hc) in *.
  pose proof addr_len_range. pose proof (str_total_nonneg sc).
  eapply frame_store; [apply lookup_lt_Some in Hc; lia|done|lia|lia| |right; unfold body; nia].
  intros p Hp0 Hp1 Hp2. right. nia.
Qed.

Lemma frame_entry k s q buf x buf' : (k <= length sc)%nat -> q = spos k + 1 \/ q = 0 /\ spos k = 0 -> q < str_total sc ->
  store buf (str_start + addr_len * q) (enc_addr addr_len x) = Some buf' -> frame k s buf buf'.
Proof.
  intros Hk Hq Hqc Hs. pose proof (foff_bounds k). pose proof (spos_bounds k). pose proof addr_len_range.
  assert (Z.of_nat (length (enc_addr addr_len x)) = addr_len) as Hl by apply length_enc_addr.
  pose proof (entry_in q). eapply frame_store; [done|done|lia|lia| |rewrite Hl; lia].
  intros p Hp0 Hp1 Hp2. left. destruct Hq as [Hq|Hq]; [|lia]. pose proof (entry_lt p q). lia.
Qed.

Lemma frame_string k s buf d buf' : (k <= length sc)%nat -> body <= s -> store buf s d = Some buf' -> frame k s buf buf'.
Proof.
  intros Hk Hb Hs. pose proof (foff_bounds k). pose proof addr_len_range. pose proof (str_total_nonneg sc).
  assert (str_start <= body) by (unfold body; nia).
  eapply frame_store; [done|done|lia|lia| |lia]. intros p _ Hp1 Hp2. left. pose proof (entry_in p). lia.
Qed.

(** The NULL bit of column [k] *)
Lemma frame_bit k s c buf b b' buf' : (k < length sc)%nat -> load1 buf (HEADER_LENGTH + Z.shiftr (Z.of_nat k) 3) = Some b ->
  store buf (HEADER_LENGTH + Z.shiftr (Z.of_nat k) 3) [b'] = Some buf' ->
  (forall j, 0 <= j < 8 -> Z.testbit b' j = if decide (j = Z.of_nat k `mod` 8) then c else Z.testbit b j) ->
  frame k s buf buf' /\ IsNULL buf' (Z.of_nat k) = Some c /\
  (forall o n, base <= o -> load buf' o n = load buf o n).
Proof.
  intros Hk Hb Hs Hbits. destruct (IsNULL_store buf buf' (Z.of_nat k) b b' c) as [Hn Hn']; [lia|done..|].
  pose proof (bitmap_covers k Hk) as Hcov. pose proof (foff_bounds k). pose proof addr_len_range. pose proof (str_total_nonneg sc).
  assert (0 <= Z.shiftr (Z.of_nat k) 3) by (apply Z.shiftr_nonneg; lia).
  assert (Habove : forall o n, base <= o -> load buf' o n = load buf o n).
  { intros o n Ho. apply (load_store_other _ _ _ _ _ _ Hs). right. unfold base in Ho. cbn [length]. lia. }
  split; [|done]. split; intros.
  - by apply (store_length _ _ _ _ Hs).
  - apply (load_store_other _ _ _ _ _ _ Hs). lia.
  - apply Hn'; lia.
  - by apply Habove.
  - unfold entry, holds. rewrite Habove; [done|]. pose proof (entry_in p). lia.
  - apply Habove. unfold body in *. nia.
Qed.

Lemma frame_content k buf buf' xs x c : content buf xs -> length xs = k -> frame k (body + strlen xs) buf buf' ->
  sc !! k = Some c -> IsNULL buf' (Z.of_nat k) = Some (is_null x) ->
  match x with None => True | Some v => typed (data_type c) v /\ col_at buf' k c v (body + strlen xs) end ->
  (0 < spos (S k) < str_total sc -> entry buf' (spos (S k)) (body + strlen xs + vlen x)) ->
  content buf' (xs ++ [x]).
Proof.
  intros [H1 H2 H3 H4 Hty H5 H6] Hk F Hc Hn Hx Hnext. split.
  - by rewrite (fr_length _ _ _ _ F).
  - unfold holds. by rewrite (fr_header _ _ _ _ F).
  - unfold holds. by rewrite (fr_header _ _ _ _ F) by (rewrite length_le_bytes; done).
  - intros i y Hi. apply lookup_app_Some in Hi as [Hi|[Hi Hy]].
    + rewrite (fr_null _ _ _ _ F); [by apply H4|]. apply lookup_lt_Some in Hi. lia.
    + apply list_lookup_singleton_Some in Hy as [Hy <-]. by replace i with k by lia.
  - intros i ci v Hi Hv. apply lookup_app_Some in Hv as [Hv|[Hv Hy]]; [by apply (Hty i)|].
    apply list_lookup_singleton_Some in Hy as [Hy ->]. assert (i = k) as -> by lia. simplify_eq. apply Hx.
  - intros i ci v Hi Hv. apply lookup_app_Some in Hv as [Hv|[Hv Hy]].
    + pose proof (lookup_lt_Some _ _ _ Hv) as Hlt. rewrite take_app_le by lia. specialize (H5 i ci v Hi Hv).
      unfold col_at in *. destruct (is_string (data_type ci)) eqn:E.
      * destruct H5 as (Ha & Hb & Hd). pose proof (spos_mono (S i) k ltac:(lia)) as Hm. rewrite (spos_S i ci Hi), E in Hm.
        pose proof (spos_bounds i). pose proof (spos_bounds k). pose proof (strlen_nonneg (take i xs)).
        split; [|split].
        -- unfold holds. rewrite (fr_body _ _ _ _ F); [done|lia|].
           rewrite <- (take_drop_middle xs i _ Hv) at 2. rewrite strlen_app. cbn [strlen]. pose proof (strlen_nonneg (drop (S i) xs)).
           rewrite (enc_string _ _ (Hty i ci v Hi Hv) E). lia.
        -- apply (fr_table _ _ _ _ F); [lia|lia|lia|done].
        -- intros Hlt'. apply (fr_table _ _ _ _ F); [lia|lia|lia|auto].
      * unfold holds. pose proof (foff_bounds i). rewrite (fr_fixed _ _ _ _ F); [done|lia|].
        pose proof (foff_mono (S i) k ltac:(lia)) as Hm. rewrite (foff_S i ci Hi) in Hm.
        rewrite (enc_width _ _ (Hty i ci v Hi Hv) E). lia.
    + apply list_lookup_singleton_Some in Hy as [Hy ->]. assert (i = k) as -> by lia. simplify_eq.
      rewrite take_app_length' by lia. apply Hx.
  - rewrite length_app, strlen_app. cbn [length strlen]. replace (length xs + 1)%nat with (S k) by lia.
    rewrite Z.add_0_r, Z.add_assoc. done.
Qed.
End row.
