(* ===== verification/RowView.v ===== *)
(** Reading a complete row: [RowView] returns the values that were appended. *)
From S2P Require Import Prelude Memory RowCodec RowBuild.

(** * RowAppend: Every append of [RowBuilder] succeeds on a value its column accepts and
    extends the contents of the row by that value. *)
Section append.
Context (sc : Schema) (ver N : Z) `{Hfits : !row_fits sc N}.
Local Abbreviation base := (base sc).
Local Abbreviation body := (body sc N).
Local Abbreviation str_start := (str_start sc).
Local Abbreviation addr_len := (addr_len N).
Local Abbreviation spos := (spos sc).
Local Abbreviation foff := (foff sc).
Local Abbreviation entry := (entry sc N).
Local Abbreviation frame := (frame sc N).

(** The fields set by the constructor and [SetBuffer] *)
Record conf (r : RowBuilder) : Prop := {
  cf_schema : rb_schema r = sc;
  cf_size : rb_size r = N;
  cf_strcnt : rb_str_field_cnt r = str_total sc;
  cf_addr : rb_str_addr_length r = addr_len;
  cf_start : rb_str_field_start_offset r = str_start;
  cf_vec : rb_offset_vec r = offsets sc 0 base
}.
Record built (r : RowBuilder) (xs : list (option Value)) : Prop := {
  bt_conf : conf r;
  bt_cnt : rb_cnt r = Z.of_nat (length xs);
  bt_ver : rb_schema_version r = ver;
  bt_off : rb_str_offset r = body + strlen xs;
  bt_buf : exists buf, rb_buf r = Some buf /\ content sc ver N buf xs
}.

Lemma conf_buf r b : conf r -> conf (set_rb_buf b r).
Proof. by intros []. Qed.

Lemma put_ok r buf off d : rb_buf r = Some buf -> 0 <= off -> off + Z.of_nat (length d) <= Z.of_nat (length buf) ->
  exists buf', put r off d = Some (set_rb_buf (Some buf') r) /\ store buf off d = Some buf'.
Proof.
  intros Hb H1 H2. destruct (store_ok buf off d H1 H2) as (buf' & Hs & _). exists buf'. split; [|done].
  unfold put. by rewrite Hb, bind_some, Hs, bind_some.
Qed.

Lemma layout_bounds : 6 <= base /\ base <= str_start /\ str_start <= body /\ body <= N.
Proof.
  pose proof (foff_bounds sc 0). pose proof (base_ge sc). pose proof (addr_len_range N).
  pose proof (str_total_nonneg sc). pose proof (rf_body sc N).
  assert (str_start <= body) by (unfold RowBuild.body; nia). lia.
Qed.

Lemma index_id k : (k < length sc)%nat -> s32 (Z.of_nat k) = Z.of_nat k /\ Z.of_nat k < schema_size sc.
Proof.
  intros Hk. pose proof (rf_cols sc N). unfold schema_size in *. split; [|lia]. apply swrap_id; [lia|]. unfold in_sint. simpl. lia.
Qed.

Lemma Check_spec r k c t : conf r -> sc !! k = Some c -> Check_ r (Z.of_nat k) t = Some (bool_decide (data_type c = t)).
Proof.
  intros Hr Hc. destruct (index_id k) as [H1 H2]; [by apply lookup_lt_Some in Hc|].
  unfold Check_. rewrite (cf_schema _ Hr), H1, decide_False, Nat2Z.id, Hc, bind_some by lia.
  case_decide as E; [by rewrite bool_decide_eq_false_2|]. rewrite (bool_decide_eq_true_2 (data_type c = t)) by tauto.
  f_equal. apply bool_decide_eq_true_2. destruct (data_type c); set_solver.
Qed.

Lemma bit_load buf k : Z.of_nat (length buf) = N -> (k < length sc)%nat ->
  exists b, load1 buf (HEADER_LENGTH + Z.shiftr (Z.of_nat k) 3) = Some b /\
    0 <= HEADER_LENGTH + Z.shiftr (Z.of_nat k) 3 /\ HEADER_LENGTH + Z.shiftr (Z.of_nat k) 3 + 1 <= Z.of_nat (length buf).
Proof.
  intros Hl Hk. pose proof (bitmap_covers sc k Hk) as Hcov. pose proof layout_bounds. unfold RowBuild.base in *.
  assert (0 <= Z.shiftr (Z.of_nat k) 3) by (apply Z.shiftr_nonneg; lia). unfold HEADER_LENGTH, VERSION_LENGTH, SIZE_LENGTH in *.
  unfold load1, load_uint. rewrite load_Some by lia. eexists. split; [by rewrite bind_some|]. lia.
Qed.

Lemma SetField_spec r buf k s : rb_buf r = Some buf -> Z.of_nat (length buf) = N -> (k < length sc)%nat ->
  exists buf', SetField r (Z.of_nat k) = Some (set_rb_buf (Some buf') r) /\ frame k s buf buf' /\
    IsNULL buf' (Z.of_nat k) = Some false /\ (forall o n, base <= o -> load buf' o n = load buf o n).
Proof.
  intros Hb Hl Hk. destruct (bit_load buf k Hl Hk) as (b & Hload & H1 & H2). unfold SetField. rewrite Hb, bind_some, Hload, bind_some.
  set (b' := u8 (Z.land b (Z.lnot (Z.shiftl 1 (Z.land (Z.of_nat k) 7))))).
  destruct (put_ok r buf _ [b'] Hb H1 H2) as (buf' & -> & Hs). exists buf'. split; [done|].
  apply (frame_bit sc N k s false buf b b'); [done..|]. intros j Hj. apply clear_bit; lia.
Qed.

Lemma set_rb_buf_id r buf : rb_buf r = Some buf -> set_rb_buf (Some buf) r = r.
Proof. destruct r. simpl. by intros ->. Qed.

Lemma put_put r buf off d1 d2 : rb_buf r = Some buf -> 0 <= off -> off + Z.of_nat (length d1 + length d2) <= Z.of_nat (length buf) ->
  (r ← put r off d1; put r (off + Z.of_nat (length d1)) d2) = put r off (d1 ++ d2).
Proof.
  intros Hb H1 H2. destruct (put_ok r buf off d1 Hb) as (b & -> & Hs); [lia..|]. rewrite bind_some.
  unfold put. cbn [rb_buf set_rb_buf]. rewrite Hb, !bind_some. rewrite <- (store_app buf off d1 d2), Hs, bind_some by done. done.
Qed.

Lemma le_bytes_2 x : le_bytes 2 (u16 x) = le_bytes 2 x.
Proof. unfold uwrap. cbn [le_bytes]. change (2 ^ 16) with 65536. 
  assert ((x `mod` 65536) `mod` 256 = x `mod` 256) as -> by (Z.to_euclidean_division_equations; lia).
  by assert (((x `mod` 65536) `div` 256) `mod` 256 = (x `div` 256) `mod` 256) as -> by (Z.to_euclidean_division_equations; lia).
Qed.

(** The typed stores of [SetStrOffset] *)
Lemma put_addr r buf off x : rb_buf r = Some buf -> 0 <= off -> off + addr_len <= Z.of_nat (length buf) ->
  (if decide (addr_len = 1) then put r off [u8 x]
   else if decide (addr_len = 2) then put r off (le_bytes 2 (u16 x))
   else if decide (addr_len = 3) then
     r ← put r off [u8 (Z.shiftr x 16)];
     r ← put r (off + 1) [Z.shiftr (Z.land x 0xFF00) 8];
     put r (off + 2) [Z.land x 0xFF]
   else put r off (le_bytes 4 x)) = put r off (enc_addr addr_len x).
Proof.
  intros Hb H1 H2. unfold enc_addr. destruct (decide (addr_len = 1)); [done|].
  destruct (decide (addr_len = 2)); [by rewrite le_bytes_2|]. destruct (decide (addr_len = 3)) as [E|]; [|done].
  set (b1 := u8 _). set (b2 := Z.shiftr (Z.land x 65280) 8). set (b3 := Z.land x 255).
  change [b1; b2; b3] with ([b1] ++ [b2] ++ [b3]). rewrite <- (put_put r buf) by (done || (simpl; lia)).
  destruct (put_ok r buf off [b1] Hb) as (b & -> & Hs); [lia|simpl; lia|]. rewrite !bind_some.
  apply store_length in Hs. rewrite <- (put_put _ b) by (done || (simpl; lia)). cbn [length].
  replace (off + Z.of_nat 1 + Z.of_nat 1) with (off + 2) by lia. done.
Qed.

(** What [SetStrOffset] leaves alone and what it writes *)
Lemma SetStrOffset_spec r buf k s q : conf r -> rb_buf r = Some buf -> Z.of_nat (length buf) = N -> (k <= length sc)%nat ->
  q = spos k + 1 \/ q = 0 /\ spos k = 0 ->
  exists buf', SetStrOffset r q = Some (set_rb_buf (Some buf') r) /\ frame k s buf buf' /\
    (q < str_total sc -> entry buf' q (rb_str_offset r)) /\
    (forall p x, 0 <= p < str_total sc -> p <> q -> entry buf p x -> entry buf' p x) /\
    (forall j, (j < length sc)%nat -> IsNULL buf' (Z.of_nat j) = IsNULL buf (Z.of_nat j)) /\
    (forall o n, body <= o -> load buf' o n = load buf o n).
Proof.
  intros Hr Hb Hl Hk Hq. pose proof layout_bounds as (Hb1 & Hb2 & Hb3 & Hb4). pose proof (spos_bounds sc k).
  pose proof (addr_len_range N) as Har. unfold SetStrOffset. rewrite (cf_strcnt _ Hr), (cf_addr _ Hr), (cf_start _ Hr).
  destruct (decide (str_total sc <= q)) as [Hge|Hlt].
  { exists buf. rewrite (set_rb_buf_id r buf) by done. split; [done|]. split; [apply frame_refl|]. split; [lia|]. done. }
  assert (Hq0 : 0 <= q < str_total sc) by lia. pose proof (entry_in sc N q Hq0) as [He1 He2].
  pose proof (rf_size sc N). rewrite (uwrap_id _ (addr_len * q)) by (unfold in_uint; nia).
  set (x := rb_str_offset r). set (p0 := str_start + addr_len * q) in *.
  assert (Hlen : Z.of_nat (length (enc_addr addr_len x)) = addr_len) by apply length_enc_addr.
  destruct (put_ok r buf p0 (enc_addr addr_len x) Hb) as (buf' & Hput & Hs); [lia|lia|].
  exists buf'. split; [|split; [eapply frame_entry; [done|done|lia|done]|]].
  - rewrite <- Hput. apply (put_addr r buf); [done|lia|lia].
  - split; [intros _; by eapply holds_store_same|]. split; [|split].
    + intros p y Hp Hne He. eapply holds_store_other; [done..|].
      assert (Z.of_nat (length (enc_addr addr_len y)) = addr_len) as -> by apply length_enc_addr. rewrite Hlen. unfold p0.
      destruct (decide (p < q)); [pose proof (entry_lt N p q)|pose proof (entry_lt N q p)]; lia.
    + intros j Hj. eapply (load1_above sc); [|done|done]. lia.
    + intros o n Ho. apply (load_store_other _ _ _ _ _ _ Hs). lia.
Qed.

Lemma vec_lookup r k c : conf r -> sc !! k = Some c ->
  rb_offset_vec r !! k = Some (if is_string (data_type c) then spos k else foff k).
Proof. intros Hr Hc. rewrite (cf_vec _ Hr). by apply offsets_lookup. Qed.

(** The counter after a successful append *)
Lemma built_next r xs x buf o : built r xs -> (length xs < length sc)%nat -> content sc ver N buf (xs ++ [x]) ->
  o = body + strlen xs + vlen x ->
  built (set_rb_cnt (u32 (rb_cnt r + 1)) (set_rb_str_offset o (set_rb_buf (Some buf) r))) (xs ++ [x]).
Proof.
  intros [Hcf Hcnt Hver Hoff _] Hlt Hct ->. pose proof (rf_cols sc N). unfold schema_size in *. split.
  - by destruct Hcf.
  - simpl. rewrite Hcnt, length_app, uwrap_id by (unfold in_uint; lia). simpl. lia.
  - done.
  - simpl. rewrite strlen_app. simpl. lia.
  - by exists buf.
Qed.

Lemma append_fixed r xs c v : built r xs -> sc !! length xs = Some c -> typed (data_type c) v -> is_string (data_type c) = false ->
  exists r', append r (fun r i => set_fixed r i (data_type c) (enc v)) = Some (true, r') /\ built r' (xs ++ [Some v]).
Proof.
  intros Hr Hc Ht Hs. destruct (bt_buf _ _ Hr) as (buf & Hb & Hct). set (k := length xs) in *.
  pose proof (lookup_lt_Some _ _ _ Hc) as Hlt. pose proof (bt_conf _ _ Hr) as Hcf.
  unfold append, set_fixed. rewrite (bt_cnt _ _ Hr). fold k. rewrite (Check_spec r k c) by done.
  rewrite bool_decide_eq_true_2, bind_some by done. cbn [negb].
  destruct (SetField_spec r buf k (body + strlen xs) Hb (ct_length _ _ _ _ _ Hct) Hlt) as (b1 & -> & F1 & Hn1 & _).
  rewrite bind_some, Nat2Z.id, (vec_lookup _ k c), Hs, bind_some by (done || by apply conf_buf).
  pose proof (enc_width _ _ Ht Hs) as Hw. pose proof (foff_bounds sc k). pose proof (foff_bounds sc (S k)) as HS.
  rewrite (foff_S sc k c Hc) in HS. pose proof layout_bounds. pose proof (fr_length _ _ _ _ _ _ F1). pose proof (ct_length _ _ _ _ _ Hct).
  destruct (put_ok (set_rb_buf (Some b1) r) b1 (foff k) (enc v)) as (b2 & -> & Hst); [done|lia|lia|]. rewrite !bind_some. cbn [negb].
  eexists. split; [done|].
  pose proof (vlen_fixed _ _ Ht Hs) as Hv. apply (built_next r xs (Some v) b2 (rb_str_offset r)); [done..| |rewrite Hv, (bt_off _ _ Hr); lia].
  eapply (frame_content sc ver N k buf b2); [done|done| |done| | |].
  - eapply frame_trans; [done|]. by eapply frame_fixed.
  - cbn [is_null]. rewrite <- Hn1. eapply load1_above; [|done|done]. lia.
  - split; [done|]. unfold col_at. rewrite Hs. by eapply holds_store_same.
  - rewrite (spos_S sc k c Hc), Hs, Z.add_0_r, Hv, Z.add_0_r. intros Hp.
    eapply (fr_table _ _ k (body + strlen xs) b1 b2); [by eapply frame_fixed|lia|lia|lia|].
    apply (fr_table _ _ _ _ _ _ F1); [lia|lia|lia|]. by apply (ct_next _ _ _ _ _ Hct).
Qed.

Lemma string_pos k c : sc !! k = Some c -> is_string (data_type c) = true ->
  spos k + 1 <= str_total sc /\ u32 (spos k + 1) = spos k + 1.
Proof.
  intros Hc Hs. pose proof (spos_bounds sc (S k)) as HS. rewrite (spos_S sc k c Hc), Hs in HS. split; [lia|].
  pose proof (spos_bounds sc k). pose proof (rf_size sc N). pose proof layout_bounds. pose proof (addr_len_range N).
  apply uwrap_id. unfold in_uint, RowBuild.body in *. nia.
Qed.

Lemma append_null r xs c : built r xs -> sc !! length xs = Some c -> not_null c = false ->
  exists r', AppendNULL r = Some (true, r') /\ built r' (xs ++ [None]).
Proof.
  intros Hr Hc Hnn. destruct (bt_buf _ _ Hr) as (buf & Hb & Hct). set (k := length xs) in *.
  pose proof (lookup_lt_Some _ _ _ Hc) as Hlt. pose proof (bt_conf _ _ Hr) as Hcf. pose proof (ct_length _ _ _ _ _ Hct) as Hl.
  unfold AppendNULL, append, SetNULL. rewrite (bt_cnt _ _ Hr), Nat2Z.id. fold k.
  rewrite (cf_schema _ Hcf), Hc, bind_some, Hnn, Hb, bind_some.
  destruct (bit_load buf k Hl Hlt) as (b & Hload & H1 & H2). rewrite Hload, bind_some.
  set (b' := u8 _). destruct (put_ok r buf _ [b'] Hb H1 H2) as (b1 & -> & Hst). rewrite bind_some.
  destruct (frame_bit sc N k (body + strlen xs) true buf b b' b1) as (F1 & Hn1 & _); [done..|intros; apply set_bit; lia|].
  assert (Hl1 : Z.of_nat (length b1) = N) by by rewrite (fr_length _ _ _ _ _ _ F1).
  destruct (is_string (data_type c)) eqn:Hs.
  - rewrite (vec_lookup _ k c), Hs, bind_some by (done || by apply conf_buf). destruct (string_pos k c Hc Hs) as [Hp ->].
    destruct (SetStrOffset_spec (set_rb_buf (Some b1) r) b1 k (body + strlen xs) (spos k + 1)) as (b2 & -> & F2 & He & _ & Hn2 & _);
      [by apply conf_buf|done|done|lia|by left|]. rewrite !bind_some. eexists. split; [done|].
    apply (built_next r xs None b2 (rb_str_offset r)); [done..| |simpl; rewrite (bt_off _ _ Hr); lia].
    eapply (frame_content sc ver N k buf b2); [done|done|by eapply frame_trans|done| |done|].
    + rewrite Hn2 by done. done.
    + rewrite (spos_S sc k c Hc), Hs. simpl vlen. rewrite Z.add_0_r, <- (bt_off _ _ Hr). intros. apply He. lia.
  - rewrite bind_some. eexists. split; [done|].
    apply (built_next r xs None b1 (rb_str_offset r)); [done..| |simpl; rewrite (bt_off _ _ Hr); lia].
    eapply (frame_content sc ver N k buf b1); [done..|].
    rewrite (spos_S sc k c Hc), Hs. simpl vlen. rewrite !Z.add_0_r. intros Hp.
    apply (fr_table _ _ _ _ _ _ F1); [lia|lia|lia|]. by apply (ct_next _ _ _ _ _ Hct).
Qed.

Lemma put_string r buf off d len : rb_buf r = Some buf -> 0 <= off -> off + Z.of_nat (length d) <= Z.of_nat (length buf) ->
  len = Z.of_nat (length d) ->
  exists buf', (if decide (len <> 0) then put r off (take (Z.to_nat len) d) else Some r) = Some (set_rb_buf (Some buf') r) /\
    store buf off d = Some buf'.
Proof.
  intros Hb H1 H2 ->. rewrite Nat2Z.id, firstn_all. case_decide as E; [by apply put_ok|].
  exists buf. destruct d; [|simpl in E; lia]. rewrite store_nil by lia. by rewrite set_rb_buf_id.
Qed.

Lemma entry_store_body buf off d buf' p x : 0 <= p < str_total sc -> body <= off -> store buf off d = Some buf' ->
  entry buf p x -> entry buf' p x.
Proof.
  intros Hp Ho Hs He. eapply holds_store_other; [done..|]. pose proof (entry_in sc N p Hp).
  assert (Z.of_nat (length (enc_addr addr_len x)) = addr_len) as -> by apply length_enc_addr. lia.
Qed.

(** The entry of the string about to be appended: the first string's is
    written here, the others' when their predecessor was. *)
Lemma own_entry r xs c buf : built r xs -> rb_buf r = Some buf -> content sc ver N buf xs -> sc !! length xs = Some c ->
  is_string (data_type c) = true ->
  exists b1, (if decide (spos (length xs) = 0) then SetStrOffset r (spos (length xs)) else Some r) = Some (set_rb_buf (Some b1) r) /\
    frame (length xs) (body + strlen xs) buf b1 /\ entry b1 (spos (length xs)) (body + strlen xs).
Proof.
  intros Hr Hb Hct Hc Hs. pose proof (lookup_lt_Some _ _ _ Hc) as Hlt. destruct (string_pos _ _ Hc Hs) as [Hp _].
  pose proof (spos_bounds sc (length xs)). case_decide as E.
  - destruct (SetStrOffset_spec r buf (length xs) (body + strlen xs) (spos (length xs))) as (b1 & Hset & F & He & _);
      [apply (bt_conf _ _ Hr)|done|by apply (ct_length _ _ _ _ _ Hct)|lia|by right|].
    exists b1. split; [done|]. split; [done|]. rewrite <- (bt_off _ _ Hr). apply He. lia.
  - exists buf. rewrite set_rb_buf_id by done. split; [done|]. split; [apply frame_refl|]. apply (ct_next _ _ _ _ _ Hct). lia.
Qed.

Lemma append_string r xs c d : built r xs -> sc !! length xs = Some c -> is_string (data_type c) = true ->
  body + strlen xs + Z.of_nat (length d) <= N ->
  exists r', AppendString r (Some d) = Some (true, r') /\ built r' (xs ++ [Some (VString d)]).
Proof.
  intros Hr Hc Hs Hroom. destruct (bt_buf _ _ Hr) as (buf & Hb & Hct). pose proof (own_entry r xs c buf Hr Hb Hct Hc Hs) as (b1 & Hown & F1 & He1).
  set (k := length xs) in *. set (off := body + strlen xs) in *. pose proof (strlen_nonneg xs) as Hsl.
  pose proof (lookup_lt_Some _ _ _ Hc) as Hlt. pose proof (bt_conf _ _ Hr) as Hcf. pose proof (ct_length _ _ _ _ _ Hct) as Hl.
  pose proof layout_bounds as Hlb. pose proof (rf_size sc N) as HN. destruct (string_pos k c Hc Hs) as [Hp Hpu].
  unfold AppendString, append, SetString. rewrite (bt_cnt _ _ Hr). fold k. rewrite !(Check_spec r k c) by done. rewrite bind_some.
  assert (Hchk : (match bool_decide (data_type c = kVarchar) with true => Some true | false => Some (bool_decide (data_type c = kString)) end) = Some true).
  { destruct (data_type c); done. }
  rewrite Hchk, bind_some. cbn [negb]. rewrite (bt_off _ _ Hr), (cf_size _ Hcf). fold off.
  rewrite (uwrap_id 32 (Z.of_nat (length d))) by (unfold in_uint; lia).
  rewrite (uwrap_id 32 (off + _)), decide_False by (unfold in_uint; lia).
  rewrite (Nat2Z.id k), (vec_lookup _ k c), Hs, bind_some by done. rewrite Hown, bind_some.
  cbn [rb_str_offset set_rb_buf]. rewrite (bt_off _ _ Hr). fold off.
  pose proof (fr_length _ _ _ _ _ _ F1) as Hl1.
  destruct (put_string (set_rb_buf (Some b1) r) b1 off d (Z.of_nat (length d))) as (b2 & -> & Hst); [done|lia|lia|done|].
  rewrite bind_some. cbn [rb_str_offset set_rb_buf]. rewrite (bt_off _ _ Hr). fold off. rewrite (uwrap_id 32 (off + _)) by (unfold in_uint; lia). rewrite Hpu.
  assert (F2 : frame k off b1 b2) by (eapply frame_string; [lia|lia|done]). pose proof (fr_length _ _ _ _ _ _ F2) as Hl2.
  edestruct (SetStrOffset_spec (set_rb_str_offset (off + Z.of_nat (length d)) (set_rb_buf (Some b2) (set_rb_buf (Some b1) r))) b2 k off (spos k + 1))
    as (b3 & -> & F3 & He3 & Heo & Hn3 & Hbd); [by destruct Hcf|done|lia|lia|by left|]. rewrite bind_some.
  pose proof (fr_length _ _ _ _ _ _ F3) as Hl3.
  edestruct (SetField_spec (set_rb_buf (Some b3) (set_rb_str_offset (off + Z.of_nat (length d)) (set_rb_buf (Some b2) (set_rb_buf (Some b1) r)))) b3 k off)
    as (b4 & -> & F4 & Hn4 & Hab); [done|lia|done|]. rewrite !bind_some. cbn [negb]. eexists. split; [done|].
  apply (built_next r xs (Some (VString d)) b4 (off + Z.of_nat (length d))); [done..| |done].
  assert (Hent : forall p x, 0 <= p < str_total sc -> entry b3 p x -> entry b4 p x).
  { intros p x Hp' He. unfold RowBuild.entry, holds. rewrite Hab; [done|]. pose proof (entry_in sc N p Hp'). lia. }
  eapply (frame_content sc ver N k buf b4); [done|done| |done|done| |].
  - do 3 (eapply frame_trans; [|done]). done.
  - split; [by destruct (data_type c)|]. unfold col_at. rewrite Hs. pose proof (spos_bounds sc k). split; [|split].
    + unfold holds. rewrite Hab, Hbd by lia. by eapply load_store_same.
    + apply Hent; [lia|]. apply Heo; [lia|lia|]. eapply entry_store_body; [|..|done|done]; lia.
    + intros Hlt'. apply Hent; [lia|]. by apply He3.
  - rewrite (spos_S sc k c Hc), Hs. intros Hlt'. apply Hent; [lia|]. apply He3. lia.
Qed.
End append.

(** * RowView *)
Section view.
Context (sc : Schema) (ver N : Z) `{Hfits : !row_fits sc N}.

(** A view attached to the buffer of a complete row *)
Record viewing (v : RowView) (buf : bytes) : Prop := {
  vw_valid : rv_is_valid v = true;
  vw_row : rv_row v = Some buf;
  vw_schema : rv_schema v = sc;
  vw_cnt : rv_string_field_cnt v = str_total sc;
  vw_start : rv_str_field_start_offset v = str_start sc;
  vw_addr : rv_str_addr_length v = addr_len N;
  vw_vec : rv_offset_vec v = offsets sc 0 (base sc)
}.
(** The values of a complete row *)
Record full (xs : list (option Value)) : Prop := {
  fu_accepts : Forall2 accepts sc xs;
  fu_total : body sc N + strlen xs = N
}.

Lemma strlen_no_strings cols xs : Forall2 accepts cols xs -> str_total cols = 0 -> strlen xs = 0.
Proof.
  induction 1 as [|c x cols xs Ha Hf IH]; simpl; [done|]. pose proof (str_total_nonneg cols).
  destruct (is_string (data_type c)) eqn:E; intros Ht; [lia|]. rewrite IH by lia.
  destruct x as [v|]; [|done]. rewrite (vlen_fixed _ _ Ha E). done.
Qed.

Lemma string_end xs i c d : full xs -> sc !! i = Some c -> xs !! i = Some (Some (VString d)) -> is_string (data_type c) = true ->
  spos sc i + 1 = str_total sc -> body sc N + strlen (take i xs) + Z.of_nat (length d) = N.
Proof.
  intros [Hacc Htot] Hc Hx Hs Hlast. rewrite <- (take_drop_middle xs i _ Hx), strlen_app in Htot. cbn [strlen vlen] in Htot.
  rewrite (strlen_no_strings (drop (S i) sc) (drop (S i) xs)) in Htot; [lia|by apply Forall2_drop|].
  assert (str_total sc = spos sc (S i) + str_total (drop (S i) sc)) as E.
  { unfold spos. by rewrite <- str_total_app, take_drop. }
  rewrite (spos_S sc i c Hc), Hs in E. lia.
Qed.

Lemma CheckValid_spec v buf i c t : viewing v buf -> sc !! i = Some c ->
  CheckValid v (Z.of_nat i) t = Some (bool_decide (data_type c = t)).
Proof.
  intros Hv Hc. destruct (index_id sc N i) as [H1 H2]; [by apply lookup_lt_Some in Hc|].
  unfold CheckValid. rewrite (vw_row _ _ Hv), (vw_valid _ _ Hv), (vw_schema _ _ Hv). cbn [negb].
  by rewrite H1, decide_False, Nat2Z.id, Hc, bind_some by lia.
Qed.

Lemma view_vec v buf i c : viewing v buf -> sc !! i = Some c ->
  rv_offset_vec v !! i = Some (if is_string (data_type c) then spos sc i else foff sc i).
Proof. intros Hv Hc. rewrite (vw_vec _ _ Hv). by apply offsets_lookup. Qed.

(** The shared part of the fixed-width getters *)
Lemma get_fixed_spec {A} v buf xs i c x t (get : bytes -> Z -> option A) :
  viewing v buf -> content sc ver N buf xs -> sc !! i = Some c -> xs !! i = Some x -> data_type c = t -> is_string t = false ->
  get_fixed v (Z.of_nat i) t get =
    match x with None => Some (1, None) | Some _ => y ← get buf (foff sc i); Some (0, Some y) end.
Proof.
  intros Hv Hct Hc Hx <- Hs. unfold get_fixed. rewrite (CheckValid_spec v buf i c) by done.
  rewrite bool_decide_eq_true_2, bind_some by done. cbn [negb]. rewrite (vw_row _ _ Hv), bind_some, (ct_null _ _ _ _ _ Hct i x Hx), bind_some.
  destruct x as [w|]; cbn [is_null]; [|done]. rewrite Nat2Z.id, (view_vec v buf i c) by done. by rewrite Hs, bind_some.
Qed.

Lemma bool_field_holds buf off b : holds buf off [if b : bool then 1 else 0] -> bool_field buf off = Some b.
Proof.
  intros Hh. unfold bool_field, GetBoolField. rewrite (holds_sint 1 buf off (if b then 1 else 0)); [by destruct b|lia| |].
  - destruct b; unfold in_sint; simpl; lia.
  - by destruct b.
Qed.

Lemma get_column_fixed v buf xs i c x : viewing v buf -> content sc ver N buf xs -> sc !! i = Some c -> xs !! i = Some x ->
  is_string (data_type c) = false ->
  get_column v (Z.of_nat i) (data_type c) = Some (match x with None => (1, None) | Some w => (0, Some w) end).
Proof.
  intros Hv Hct Hc Hx Hs. pose proof (fun A => get_fixed_spec (A := A) v buf xs i c x) as Hget.
  destruct x as [w|].
  - pose proof (ct_typed _ _ _ _ _ Hct i c w Hc Hx) as Ht. pose proof (ct_col _ _ _ _ _ Hct i c w Hc Hx) as Hcol.
    unfold col_at in Hcol. rewrite Hs in Hcol.
    unfold get_column, GetBool, GetInt16, GetInt32, GetInt64, GetFloat, GetDouble, GetDate, GetTimestamp.
    destruct (data_type c) eqn:E; try done; destruct w; try done; rewrite Hget by done; cbn [enc typed] in *;
      unfold GetInt16Field, GetInt32Field, GetInt64Field, GetFloatField, GetDoubleField;
      first [by rewrite (bool_field_holds _ _ _ Hcol)
            |erewrite holds_sint; [done|lia|exact Ht|exact Hcol]
            |erewrite holds_uint by exact Hcol; rewrite Z.mod_small by exact Ht; done].
  - unfold get_column, GetBool, GetInt16, GetInt32, GetInt64, GetFloat, GetDouble, GetDate, GetTimestamp.
    destruct (data_type c) eqn:E; try done; rewrite Hget by done; done.
Qed.

Lemma GetStrField_spec buf xs i c d : content sc ver N buf xs -> full xs -> sc !! i = Some c -> is_string (data_type c) = true ->
  xs !! i = Some (Some (VString d)) ->
  let s := body sc N + strlen (take i xs) in
  let next := if decide (spos sc i < u32 (str_total sc - 1)) then u32 (spos sc i + 1) else 0 in
  GetStrField buf (spos sc i) next (str_start sc) (addr_len N) = Some (0, Some (s, Z.of_nat (length d))).
Proof.
  intros Hct Hfull Hc Hs Hx s next. pose proof (ct_col _ _ _ _ _ Hct i c _ Hc Hx) as Hcol. unfold col_at in Hcol. rewrite Hs in Hcol.
  destruct Hcol as (_ & He & Hnext). fold s in He, Hnext. cbn [vlen] in Hnext. destruct (string_pos sc N i c Hc Hs) as [Hp Hpu].
  pose proof (spos_bounds sc i) as Hsb. pose proof (addr_len_range N) as Har. pose proof (layout_bounds sc N) as Hlb. pose proof (rf_size sc N) as HN.
  assert (Hle : s + Z.of_nat (length d) <= N).
  { destruct Hfull as [_ Htot]. rewrite <- (take_drop_middle xs i _ Hx), strlen_app in Htot. cbn [strlen vlen] in Htot.
    pose proof (strlen_nonneg (drop (S i) xs)). unfold s. lia. }
  assert (Hs0 : 0 <= s) by (pose proof (strlen_nonneg (take i xs)); unfold s; lia).
  assert (Hsmall : addr_len N * str_total sc < 2 ^ 32) by (unfold body in *; lia).
  unfold GetStrField. rewrite decide_True by lia.
  unfold entry in *. change (addr_len N) with (GetAddrLength N) in *. rewrite (str_addr_holds buf (str_start sc) N (spos sc i) s) by (done || nia || lia).
  rewrite bind_some. unfold next. rewrite (uwrap_id 32 (str_total sc - 1)) by (unfold in_uint; nia).
  destruct (decide (spos sc i < str_total sc - 1)) as [Hlt|Hge].
  - rewrite Hpu. rewrite decide_True by lia. 
    rewrite (str_addr_holds buf (str_start sc) N (spos sc i + 1) (s + Z.of_nat (length d)));
      [|lia|nia|lia|done|apply Hnext; lia].
    rewrite bind_some, decide_False by lia. rewrite uwrap_id by (unfold in_uint; lia). repeat f_equal. lia.
  - rewrite decide_False, bind_some, (decide_True (P := _ <= 0)) by lia.
    rewrite (holds_uint 4 buf VERSION_LENGTH N) by apply (ct_size _ _ _ _ _ Hct). rewrite bind_some.
    pose proof (string_end xs i c d Hfull Hc Hx Hs ltac:(lia)) as Hend. fold s in Hend.
    rewrite Z.mod_small by (simpl; lia). rewrite uwrap_id by (unfold in_uint; lia). repeat f_equal. lia.
Qed.

Lemma GetString_spec v buf xs i c x : viewing v buf -> content sc ver N buf xs -> full xs -> sc !! i = Some c -> xs !! i = Some x ->
  is_string (data_type c) = true ->
  GetString v (Z.of_nat i) = match x with
    | None => Some (1, None)
    | Some w => Some (0, Some (body sc N + strlen (take i xs), vlen (Some w))) end.
Proof.
  intros Hv Hct Hfull Hc Hx Hs. unfold GetString. rewrite !(CheckValid_spec v buf i c), bind_some by done.
  assert ((match bool_decide (data_type c = kVarchar) with true => Some true | false => Some (bool_decide (data_type c = kString)) end) = Some true) as ->
    by (destruct (data_type c); done).
  rewrite bind_some. cbn [negb]. rewrite (vw_row _ _ Hv), bind_some, (ct_null _ _ _ _ _ Hct i x Hx), bind_some.
  destruct x as [w|]; cbn [is_null]; [|done]. rewrite Nat2Z.id, (view_vec v buf i c), Hs, bind_some by done.
  rewrite (vw_cnt _ _ Hv), (vw_start _ _ Hv), (vw_addr _ _ Hv).
  pose proof (ct_typed _ _ _ _ _ Hct i c w Hc Hx) as Ht. destruct (data_type c) eqn:E; try done; destruct w; try done;
    apply (GetStrField_spec buf xs i c d); rewrite ?E; done.
Qed.

Lemma get_column_string v buf xs i c x : viewing v buf -> content sc ver N buf xs -> full xs -> sc !! i = Some c -> xs !! i = Some x ->
  is_string (data_type c) = true ->
  get_column v (Z.of_nat i) (data_type c) = Some (match x with None => (1, None) | Some w => (0, Some w) end).
Proof.
  intros Hv Hct Hfull Hc Hx Hs. pose proof (GetString_spec v buf xs i c x Hv Hct Hfull Hc Hx Hs) as Hg.
  destruct x as [w|].
  - pose proof (ct_typed _ _ _ _ _ Hct i c w Hc Hx) as Ht. pose proof (ct_col _ _ _ _ _ Hct i c w Hc Hx) as Hcol.
    unfold col_at in Hcol. rewrite Hs in Hcol. destruct Hcol as (Hh & _).
    assert (Hd : exists d, w = VString d) by (destruct (data_type c), w; try done; by eexists). destruct Hd as [d ->].
    assert (get_column v (Z.of_nat i) (data_type c) = '(ret, x) ← GetString v (Z.of_nat i);
      match x with None => Some (ret, None) | Some (off, size) => row ← rv_row v; d ← load row off (Z.to_nat size); Some (ret, Some (VString d)) end)
      as -> by (destruct (data_type c); done).
    rewrite Hg, bind_some, (vw_row _ _ Hv), bind_some. cbn [vlen enc] in *. rewrite Nat2Z.id. unfold holds in Hh. by rewrite Hh, bind_some.
  - destruct (data_type c); try done; unfold get_column; by rewrite Hg.
Qed.

Lemma get_column_spec v buf xs i c x : viewing v buf -> content sc ver N buf xs -> full xs -> sc !! i = Some c -> xs !! i = Some x ->
  get_column v (Z.of_nat i) (data_type c) = Some (match x with None => (1, None) | Some w => (0, Some w) end).
Proof.
  intros. destruct (is_string (data_type c)) eqn:E; [by eapply get_column_string|by eapply get_column_fixed].
Qed.

(** Attaching a view *)
Lemma schema_sums : fixed_total sc + str_total sc * addr_len N + base sc <= N.
Proof. pose proof (rf_body sc N). unfold body, str_start in *. lia. Qed.

Lemma RowView_new_spec : sc <> [] ->
  RowView_new sc = MkRowView 0 true (str_total sc) (str_start sc) 0 None sc (offsets sc 0 (base sc)).
Proof.
  intros Hne. pose proof schema_sums. pose proof (rf_size sc N). pose proof (base_ge sc). pose proof (addr_len_range N).
  pose proof (str_total_nonneg sc). pose proof (fixed_total_nonneg sc).
  unfold RowView_new, RowView_Init. cbn [rv_schema rv_string_field_cnt]. fold (base sc). rewrite uwrap_id by (unfold in_uint; lia).
  destruct (builder_offsets_spec sc 0 (base sc)) as [_ ->]; [lia|lia|lia|nia|]. done.
Qed.

Lemma Reset_spec v0 buf xs : sc <> [] -> content sc ver N buf xs -> rv_is_valid v0 = true -> rv_schema v0 = sc ->
  rv_string_field_cnt v0 = str_total sc -> rv_str_field_start_offset v0 = str_start sc -> rv_offset_vec v0 = offsets sc 0 (base sc) ->
  Reset v0 (Some buf) N = Some (true, attach v0 buf N) /\ viewing (attach v0 buf N) buf.
Proof.
  intros Hne Hct H1 H2 H3 H4 H5. pose proof (layout_bounds sc N). pose proof (rf_size sc N).
  assert (HN : 6 < N).
  { assert (Hlen : (0 < length sc)%nat) by (destruct sc; [done|simpl; lia]). pose proof (bitmap_covers sc 0 Hlen) as Hc.
    change (Z.shiftr (Z.of_nat 0) 3) with 0 in Hc. unfold base, HEADER_LENGTH, VERSION_LENGTH, SIZE_LENGTH in *. lia. }
  split; [|by split]. unfold Reset. rewrite H2.
  rewrite decide_False by (unfold schema_size, HEADER_LENGTH, VERSION_LENGTH, SIZE_LENGTH; destruct sc; [done|simpl; lia]).
  rewrite (holds_uint 4 buf VERSION_LENGTH N) by apply (ct_size _ _ _ _ _ Hct). rewrite bind_some, Z.mod_small by (simpl; lia).
  by rewrite decide_False by lia.
Qed.

Lemma RowView_of_spec buf xs : sc <> [] -> content sc ver N buf xs ->
  exists v, RowView_of sc (Some buf) N = Some v /\ viewing v buf.
Proof.
  intros Hne Hct. unfold RowView_of. rewrite decide_False by (unfold schema_size; destruct sc; [done|simpl; lia]).
  pose proof schema_sums. pose proof (rf_size sc N). pose proof (base_ge sc). pose proof (addr_len_range N).
  pose proof (str_total_nonneg sc). pose proof (fixed_total_nonneg sc).
  unfold RowView_Init. cbn [rv_schema rv_string_field_cnt]. fold (base sc). rewrite uwrap_id by (unfold in_uint; lia).
  destruct (builder_offsets_spec sc 0 (base sc)) as [_ ->]; [lia|lia|lia|nia|]. cbn [negb].
  edestruct (Reset_spec (MkRowView 0 true (str_total sc) (str_start sc) N (Some buf) sc (offsets sc 0 (base sc))) buf xs) as [HR Hv]; [done..|].
  eexists. split; [|exact Hv]. cbn [rv_str_addr_length rv_is_valid rv_size rv_row rv_schema rv_offset_vec app].
  unfold str_start in HR. rewrite Z.add_0_l, HR. done.
Qed.
End view.
