(* ===== verification/RowThms.v ===== *)
(** Theorems on the row codec: a row built from any values its schema accepts
    is read back exactly. *)
From S2P Require Import Prelude Memory RowCodec RowBuild RowView.

(** * RowThms *)
(** Appending the values of a row in order, as the encoders of the SDK do *)
Fixpoint append_row (r : RowBuilder) (xs : list (option Value)) : option (bool * RowBuilder) :=
  match xs with
  | [] => Some (true, r)
  | x :: xs' =>
      '(ok, r) ← append_column r x;
      if negb ok then Some (false, r) else append_row r xs'
  end.

(** A builder for [sc], its buffer sized by [CalTotalLength] for the strings of
    [xs], and the values appended *)
Definition build_row (sc : Schema) (ver : Z) (buf : bytes) (xs : list (option Value)) : option (bool * RowBuilder) :=
  let r := SetSchemaVersion (RowBuilder_new sc) ver in
  '(ok, r) ← SetBuffer r (Some buf) (CalTotalLength r (strlen xs)) true;
  if negb ok then Some (false, r) else append_row r xs.

(** The sizes of 32-bit arithmetic suffice for the row. *)
Definition row_size_ok (sc : Schema) (l : Z) : Prop :=
  sc <> [] /\ schema_size sc < 2 ^ 31 /\ str_start sc + l + 4 * str_total sc < 2 ^ 32.

Section thms.
Context (sc : Schema) (ver : Z).

Lemma RowBuilder_new_spec l : 0 <= l -> row_size_ok sc l ->
  RowBuilder_new sc = MkRowBuilder sc None 0 0 (str_total sc) 0 (str_start sc) 0 1 (offsets sc 0 (base sc)).
Proof.
  intros Hl (_ & _ & Hsz). pose proof (base_ge sc). pose proof (str_total_nonneg sc). pose proof (fixed_total_nonneg sc).
  unfold str_start in Hsz. unfold RowBuilder_new. fold (base sc). rewrite uwrap_id by (unfold in_uint; lia).
  destruct (builder_offsets_spec sc 0 (base sc)) as [-> _]; [lia|lia|lia|lia|]. by rewrite Z.add_0_l.
Qed.

(** [CalTotalLength] is the size of the layout, with the width of the string
    offsets [SetBuffer] and [RowView::Reset] derive from that size. *)
Lemma CalTotalLength_spec r l : rb_schema r = sc -> rb_str_field_cnt r = str_total sc -> rb_str_field_start_offset r = str_start sc ->
  0 <= l -> row_size_ok sc l -> let n := CalTotalLength r l in
  body sc n + l = n /\ row_fits sc n /\ n <> 0 /\ str_start sc + str_total sc <= n.
Proof.
  intros H1 H2 H3 Hl (Hne & Hcols & Hsz). pose proof (foff_bounds sc 0) as Hfb. pose proof (base_ge sc). pose proof (str_total_nonneg sc).
  assert (Hkey : exists a, 1 <= a <= 4 /\ CalTotalLength r l = str_start sc + l + a * str_total sc /\
    GetAddrLength (str_start sc + l + a * str_total sc) = a).
  { unfold CalTotalLength. rewrite H1, H2, H3, decide_False by (unfold schema_size; destruct sc; [done|simpl; lia]).
    rewrite !(Z.mul_comm (str_total sc)). rewrite !(uwrap_id 32 (_ * str_total sc)), !(uwrap_id 32 (str_start sc + l)) by (unfold in_uint; lia).
    rewrite !uwrap_id by (unfold in_uint; lia). unfold GetAddrLength, UINT8_MAX, UINT16_MAX, UINT24_MAX, UINT32_MAX.
    destruct (decide (str_start sc + l + str_total sc <= 255)); [exists 1|
    destruct (decide (str_start sc + l + 2 * str_total sc <= 65535)); [exists 2|
    destruct (decide (str_start sc + l + 3 * str_total sc <= 2 ^ 24 - 1)); [exists 3|exists 4; rewrite decide_True by lia]]];
    (split; [lia|split; [lia|repeat case_decide; lia]]). }
  destruct Hkey as (a & Ha & Hn & Hg). cbv zeta. rewrite Hn. unfold body, addr_len. rewrite Hg.
  split; [lia|]. split; [|split; [lia|nia]]. split; [done|unfold body, addr_len; rewrite Hg; lia|nia].
Qed.

Lemma SetBuffer_spec N buf : row_fits sc N -> N <> 0 -> str_start sc + str_total sc <= N -> Z.of_nat (length buf) = N ->
  forall r, rb_schema r = sc -> rb_str_field_cnt r = str_total sc -> rb_str_field_start_offset r = str_start sc ->
  rb_offset_vec r = offsets sc 0 (base sc) -> rb_schema_version r = ver ->
  exists r', SetBuffer r (Some buf) N true = Some (true, r') /\ built sc ver N r' [].
Proof.
  intros Hfits Hnz Hge Hl r H1 H2 H3 H4 H5. pose proof (layout_bounds sc N) as Hlb. pose proof (rf_size sc N).
  pose proof (str_total_nonneg sc). pose proof (addr_len_range N). unfold SetBuffer. rewrite H3, H2, uwrap_id, decide_False by (unfold in_uint; lia).
  set (r0 := MkRowBuilder _ (Some buf) _ _ _ _ _ _ _ _).
  destruct (put_ok r0 buf 0 [1]) as (b1 & -> & Hs1); [done|lia|simpl; lia|]. rewrite bind_some. pose proof (store_length _ _ _ _ Hs1).
  change (rb_schema_version (set_rb_buf (Some b1) r0)) with (rb_schema_version r). rewrite H5.
  destruct (put_ok (set_rb_buf (Some b1) r0) b1 1 [ver]) as (b2 & -> & Hs2); [done|lia|simpl; lia|]. rewrite bind_some. pose proof (store_length _ _ _ _ Hs2).
  destruct (put_ok (set_rb_buf (Some b2) (set_rb_buf (Some b1) r0)) b2 VERSION_LENGTH (le_bytes 4 N)) as (b3 & -> & Hs3);
    [done|done|simpl length; unfold VERSION_LENGTH; lia|]. rewrite bind_some. pose proof (store_length _ _ _ _ Hs3).
  change (rb_schema (set_rb_buf _ _)) with (rb_schema r). rewrite H1.
  pose proof (bitmap_nonneg (schema_size sc) ltac:(unfold schema_size; lia)) as Hbm. unfold base, HEADER_LENGTH in *.
  set (ones := replicate _ 255). assert (Hones : Z.of_nat (length ones) = BitMapSize (schema_size sc)) by (unfold ones; rewrite length_replicate; lia).
  destruct (put_ok (set_rb_buf (Some b3) (set_rb_buf (Some b2) (set_rb_buf (Some b1) r0))) b3 (VERSION_LENGTH + SIZE_LENGTH) ones) as (b4 & -> & Hs4);
    [done|done|lia|]. rewrite bind_some. pose proof (store_length _ _ _ _ Hs4).
  eexists. split; [done|]. cbn [set_rb_buf rb_str_field_start_offset rb_str_field_cnt r0]. split; cbn; [by split|done|done| |].
  - fold (addr_len N). assert (str_start sc + addr_len N * str_total sc = body sc N) as Hbody by done.
    rewrite (uwrap_id 32 (addr_len N * _)), Hbody, uwrap_id by (unfold in_uint; nia). lia.
  - exists b4. split; [done|]. split; [lia| | |done|done|done|].
    + eapply holds_store_other; [done| |by left]. eapply holds_store_other; [done| |by left]. by eapply holds_store_same.
    + eapply holds_store_other; [done| |by left]. by eapply holds_store_same.
    + unfold spos. simpl. lia.
Qed.

Lemma append_column_spec N r xs c x : row_fits sc N -> built sc ver N r xs -> sc !! length xs = Some c -> accepts c x ->
  body sc N + strlen xs + vlen x <= N ->
  exists r', append_column r x = Some (true, r') /\ built sc ver N r' (xs ++ [x]).
Proof.
  intros Hfits Hr Hc Ha Hroom. destruct x as [v|]; [|by eapply append_null].
  destruct (is_string (data_type c)) eqn:Hs.
  - assert (exists d, v = VString d) as [d ->] by (cbn in Ha; destruct (data_type c), v; try done; by eexists).
    by eapply append_string.
  - destruct (append_fixed sc ver N r xs c v Hr Hc Ha Hs) as (r' & Hap & Hr'). exists r'. split; [|done].
    rewrite <- Hap. cbn in Ha. destruct (data_type c), v; done.
Qed.

Lemma append_row_spec N xs : row_fits sc N -> forall r ys, built sc ver N r ys -> Forall2 accepts (drop (length ys) sc) xs ->
  body sc N + strlen ys + strlen xs <= N ->
  exists r', append_row r xs = Some (true, r') /\ built sc ver N r' (ys ++ xs).
Proof.
  intros Hfits. induction xs as [|x xs IH]; intros r ys Hr Ha Hroom; cbn [append_row strlen] in *.
  { exists r. by rewrite app_nil_r. }
  destruct (drop (length ys) sc) as [|c cs] eqn:E; [by inversion Ha|]. apply Forall2_cons_1 in Ha as [Hx Hxs].
  assert (Hc : sc !! length ys = Some c) by (rewrite <- (Nat.add_0_r (length ys)), <- lookup_drop, E; done).
  pose proof (strlen_nonneg xs). destruct (append_column_spec N r ys c x Hfits Hr Hc Hx) as (r1 & -> & Hr1); [lia|].
  rewrite bind_some. cbn [negb]. destruct (IH r1 (ys ++ [x]) Hr1) as (r' & -> & Hr').
  - rewrite length_app. cbn [length]. by rewrite <- drop_drop, E.
  - rewrite strlen_app. simpl. lia.
  - exists r'. by rewrite <- app_assoc in Hr'.
Qed.

Lemma build_row_spec buf xs : Forall2 accepts sc xs -> row_size_ok sc (strlen xs) ->
  Z.of_nat (length buf) = CalTotalLength (RowBuilder_new sc) (strlen xs) ->
  exists N r row, build_row sc ver buf xs = Some (true, r) /\ built sc ver N r xs /\ row_fits sc N /\ full sc N xs /\
    rb_buf r = Some row /\ N = Z.of_nat (length row) /\ content sc ver N row xs /\ N = CalTotalLength (RowBuilder_new sc) (strlen xs).
Proof.
  intros Ha Hok Hl. pose proof (strlen_nonneg xs) as Hsl. unfold build_row.
  assert (Hcal : CalTotalLength (SetSchemaVersion (RowBuilder_new sc) ver) (strlen xs) = CalTotalLength (RowBuilder_new sc) (strlen xs)) by done.
  rewrite Hcal, (RowBuilder_new_spec _ Hsl Hok) in *.
  destruct (CalTotalLength_spec (MkRowBuilder sc None 0 0 (str_total sc) 0 (str_start sc) 0 1 (offsets sc 0 (base sc))) (strlen xs))
    as (Htot & Hfits & Hnz & Hge); [done..|].
  set (N := CalTotalLength _ _) in *.
  destruct (SetBuffer_spec N buf Hfits Hnz Hge Hl (SetSchemaVersion (MkRowBuilder sc None 0 0 (str_total sc) 0 (str_start sc) 0 1 (offsets sc 0 (base sc))) ver))
    as (r1 & -> & Hr1); [done..|]. rewrite bind_some. cbn [negb].
  destruct (append_row_spec N xs Hfits r1 [] Hr1) as (r & -> & Hr); [done|simpl; lia|]. cbn [app] in Hr.
  destruct (bt_buf _ _ _ _ _ Hr) as (row & Hrow & Hct). exists N, r, row.
  pose proof (ct_length _ _ _ _ _ Hct). split_and!; try done; try lia; by split.
Qed.
End thms.

(** C7: the row codec round-trips.  For every schema and every row of values its
    columns accept (NULL where allowed, integers in range, arbitrary byte
    strings), within 32-bit sizes and whatever the buffer held before, a
    builder sized by [CalTotalLength] accepts all values without touching
    memory outside the buffer, and a view of the result is valid, reports each
    NULL, and returns every value, strings included, and the schema version. *)
Theorem row_roundtrip (sc : Schema) (ver : Z) (buf : bytes) (xs : list (option Value)) :
  is_byte ver -> Forall2 accepts sc xs -> row_size_ok sc (strlen xs) ->
  Z.of_nat (length buf) = CalTotalLength (RowBuilder_new sc) (strlen xs) ->
  exists r row v, build_row sc ver buf xs = Some (true, r) /\ IsComplete r = true /\ rb_buf r = Some row /\
    length row = length buf /\ RowView_of sc (Some row) (Z.of_nat (length row)) = Some v /\ rv_is_valid v = true /\
    GetSchemaVersion row = Some ver /\
    forall i c x, sc !! i = Some c -> xs !! i = Some x ->
      IsNULL row (Z.of_nat i) = Some (is_null x) /\
      get_column v (Z.of_nat i) (data_type c) = Some (match x with None => (1, None) | Some w => (0, Some w) end).
Proof.
  intros Hver Ha Hok Hl. destruct (build_row_spec sc ver buf xs Ha Hok Hl) as (N & r & row & Hbuild & Hr & Hfits & Hfull & Hrow & HN & Hct & Hcal).
  destruct (RowView_of_spec sc ver N row xs) as (v & Hv & Hview); [apply Hok|done|].
  exists r, row, v. split; [done|]. split; [|split; [done|split; [lia|split; [by rewrite <- HN|split; [apply (vw_valid _ _ _ _ Hview)|split]]]]].
  - unfold IsComplete. apply bool_decide_eq_true_2. destruct (bt_conf _ _ _ _ _ Hr) as [-> _ _ _ _ _].
    destruct Hok as (_ & Hc & _). unfold schema_size in *. rewrite (Forall2_length _ _ _ Ha) in *.
    rewrite (bt_cnt _ _ _ _ _ Hr), uwrap_id by (unfold in_uint; lia). done.
  - unfold GetSchemaVersion, load1. pose proof (ct_ver _ _ _ _ _ Hct) as Hh. unfold holds in Hh. unfold load_uint.
    change (length [ver]) with 1%nat in Hh. rewrite Hh, bind_some. simpl. f_equal. lia.
  - intros i c x Hc Hx. split; [by apply (ct_null _ _ _ _ _ Hct)|by eapply get_column_spec].
Qed.

Definition sample_schema : Schema :=
  [MkColumnDesc kInt true; MkColumnDesc kString false; MkColumnDesc kBool false; MkColumnDesc kVarchar false; MkColumnDesc kDouble false].
Definition sample_row : list (option Value) :=
  [Some (VInt (-5)); Some (VString [104; 105]); None; Some (VString []); Some (VDouble 4607182418800017408)].

Lemma row_roundtrip_witness : exists r row v,
  build_row sample_schema 3 (replicate 24 0) sample_row = Some (true, r) /\ rb_buf r = Some row /\
  RowView_of sample_schema (Some row) 24 = Some v /\
  get_column v 1 kString = Some (0, Some (VString [104; 105])) /\ get_column v 2 kBool = Some (1, None).
Proof.
  destruct (row_roundtrip sample_schema 3 (replicate 24 0) sample_row) as (r & row & v & H1 & _ & H2 & Hl & H3 & _ & _ & Hget).
  - unfold is_byte; lia.
  - repeat constructor; unfold accepts, typed, in_sint, in_uint; simpl; lia.
  - split; [done|split; vm_compute; reflexivity].
  - reflexivity.
  - exists r, row, v. split; [exact H1|]. split; [exact H2|]. rewrite Hl in H3. split; [exact H3|].
    split; [apply (Hget 1%nat (MkColumnDesc kString false) (Some (VString [104; 105]))); reflexivity|].
    apply (Hget 2%nat (MkColumnDesc kBool false) None); reflexivity.
Defined.

(** * RowMore: More theorems on the row codec: dates, updates in place, the sticky
    validity flag of a view, and integers read from NULL columns. *)
(** ** Dates *)
Definition pack_date (year month day : Z) : Z := (year - 1900) * 65536 + (month - 1) * 256 + day.

Lemma pack_date_bits year month day : 1900 <= year <= 9999 -> 1 <= month <= 12 -> 1 <= day <= 31 ->
  s32 (Z.lor (s32 (Z.lor (s32 (u32 (Z.shiftl (u32 (year - 1900)) 16))) (u32 (Z.shiftl (u32 (month - 1)) 8)))) day)
    = pack_date year month day.
Proof.
  intros Hy Hm Hd. unfold pack_date.
  rewrite (uwrap_id 32 (year - 1900)), (uwrap_id 32 (month - 1)) by (unfold in_uint; lia).
  rewrite (uwrap_id 32 (Z.shiftl (year - 1900) 16)) by (unfold in_uint; rewrite Z.shiftl_mul_pow2; lia).
  rewrite (uwrap_id 32 (Z.shiftl (month - 1) 8)) by (unfold in_uint; rewrite Z.shiftl_mul_pow2; lia).
  rewrite (swrap_id 32 (Z.shiftl (year - 1900) 16)) by (unfold in_sint; rewrite ?Z.shiftl_mul_pow2; simpl; lia).
  rewrite (lor_shiftl (year - 1900) _ 16) by (rewrite ?Z.shiftl_mul_pow2; lia).
  rewrite (Z.shiftl_mul_pow2 (month - 1)) by lia.
  replace ((year - 1900) * 2 ^ 16 + (month - 1) * 2 ^ 8) with (Z.shiftl ((year - 1900) * 256 + (month - 1)) 8)
    by (rewrite Z.shiftl_mul_pow2; lia).
  rewrite (swrap_id 32 (Z.shiftl _ 8)) by (unfold in_sint; rewrite ?Z.shiftl_mul_pow2; simpl; lia).
  rewrite lor_shiftl by lia. rewrite swrap_id by (unfold in_sint; simpl; lia). lia.
Qed.

Lemma ymd_pack year month day : 1900 <= year <= 9999 -> 1 <= month <= 12 -> 1 <= day <= 31 ->
  ymd_of (pack_date year month day) = (year, month, day) /\ in_sint 32 (pack_date year month day).
Proof.
  intros Hy Hm Hd. unfold ymd_of, pack_date. change 0xFF with (Z.ones 8). rewrite !Z.land_ones, !Z.shiftr_div_pow2 by lia.
  split; [|unfold in_sint; simpl; lia]. rewrite Z.div_div by lia. change (2 ^ 8 * 2 ^ 8) with 65536. change (2 ^ 8) with 256.
  set (z := (year - 1900) * 65536 + (month - 1) * 256 + day).
  assert (z `mod` 256 = day) as -> by (unfold z; Z.to_euclidean_division_equations; lia).
  assert (z `div` 65536 = year - 1900) as -> by (unfold z; Z.to_euclidean_division_equations; lia).
  assert ((z `div` 256) `mod` 256 = month - 1) as -> by (unfold z; Z.to_euclidean_division_equations; lia).
  rewrite !uwrap_id by (unfold in_uint; lia). by replace (1900 + (year - 1900)) with year by lia; replace (1 + (month - 1)) with month by lia.
Qed.

Section more.
Context (sc : Schema) (ver N : Z) `{Hfits : !row_fits sc N}.

(** [SetDate(year, month, day)] stores the value before it clears the NULL
    bit; the contents are those of the other setters. *)
Lemma append_date_ymd r xs c y m d : built sc ver N r xs -> sc !! length xs = Some c -> data_type c = kDate ->
  1900 <= y <= 9999 -> 1 <= m <= 12 -> 1 <= d <= 31 ->
  exists r', AppendDate_ymd r y m d = Some (true, r') /\ built sc ver N r' (xs ++ [Some (VDate (pack_date y m d))]).
Proof.
  intros Hr Hc Ht Hy Hm Hd. destruct (bt_buf _ _ _ _ _ Hr) as (buf & Hb & Hct). set (k := length xs) in *.
  pose proof (lookup_lt_Some _ _ _ Hc) as Hlt. pose proof (bt_conf _ _ _ _ _ Hr) as Hcf. pose proof (ct_length _ _ _ _ _ Hct) as Hl.
  assert (Hs : is_string (data_type c) = false) by by rewrite Ht.
  unfold AppendDate_ymd, append, SetDate_ymd. rewrite (bt_cnt _ _ _ _ _ Hr). fold k.
  rewrite !decide_False by lia. rewrite (Check_spec sc N r k c), bool_decide_eq_true_2, bind_some by done. cbn [negb].
  rewrite Nat2Z.id, (vec_lookup sc N r k c), Hs, bind_some by done. rewrite pack_date_bits by done. set (z := pack_date y m d).
  pose proof (foff_bounds sc k). pose proof (foff_bounds sc (S k)) as HS. rewrite (foff_S sc k c Hc) in HS. pose proof (layout_bounds sc N).
  assert (Hw : width (data_type c) = 4) by by rewrite Ht. rewrite Hw in HS.
  destruct (put_ok r buf (foff sc k) (le_bytes 4 z)) as (b1 & -> & Hst); [done|lia|rewrite length_le_bytes; lia|]. rewrite bind_some.
  assert (F1 : frame sc N k (body sc N + strlen xs) buf b1) by (eapply frame_fixed; [done|done|by rewrite length_le_bytes, Hw]).
  destruct (SetField_spec sc N (set_rb_buf (Some b1) r) b1 k (body sc N + strlen xs)) as (b2 & -> & F2 & Hn & Hab);
    [done|by rewrite (fr_length _ _ _ _ _ _ F1)|done|]. rewrite !bind_some. cbn [negb]. eexists. split; [done|].
  apply (built_next sc ver N r xs (Some (VDate z)) b2 (rb_str_offset r)); [done..| |rewrite (bt_off _ _ _ _ _ Hr); simpl; lia].
  eapply (frame_content sc ver N k buf b2); [done|done|by eapply frame_trans|done|done| |].
  - split; [rewrite Ht; by apply ymd_pack|]. unfold col_at. rewrite Hs. cbn [enc]. unfold holds. rewrite Hab by lia. by eapply load_store_same.
  - rewrite (spos_S sc k c Hc), Hs. simpl vlen. rewrite !Z.add_0_r. intros Hp.
    apply (fr_table _ _ _ _ _ _ F2); [lia|lia|lia|]. apply (fr_table _ _ _ _ _ _ F1); [lia|lia|lia|]. by apply (ct_next _ _ _ _ _ Hct).
Qed.

Lemma GetDate_ymd_spec v buf xs i c z : viewing sc N v buf -> content sc ver N buf xs -> sc !! i = Some c -> data_type c = kDate ->
  xs !! i = Some (Some (VDate z)) -> in_sint 32 z -> GetDate_ymd v (Z.of_nat i) = Some (0, Some (ymd_of z)).
Proof.
  intros Hv Hct Hc Ht Hx Hz. unfold GetDate_ymd. rewrite (get_fixed_spec sc ver N v buf xs i c (Some (VDate z))) by done.
  pose proof (ct_col _ _ _ _ _ Hct i c _ Hc Hx) as Hcol. unfold col_at in Hcol. rewrite Ht in Hcol. cbn in Hcol.
  unfold GetInt32Field. erewrite holds_sint; [done|lia|exact Hz|exact Hcol].
Qed.

(** The setter of a value's type, at a given column *)
Definition set_column (r : RowBuilder) (i : Z) (v : Value) : option (bool * RowBuilder) :=
  match v with
  | VBool b => SetBool r i b
  | VSmallInt x => SetInt16 r i x
  | VInt x => SetInt32 r i x
  | VBigInt x => SetInt64 r i x
  | VFloat x => SetFloat r i x
  | VDouble x => SetDouble r i x
  | VDate x => SetDate r i x
  | VTimestamp x => SetTimestamp r i x
  | VString d => SetString r i (Some d)
  end.

Lemma strlen_update i x y xs : xs !! i = Some x -> vlen x = vlen y -> forall n, strlen (take n (<[i := y]> xs)) = strlen (take n xs).
Proof.
  revert xs; induction i as [|i IH]; intros [|z xs] Hx Hv n; try done; destruct n as [|n]; try done; simpl in *; [|by rewrite IH].
  injection Hx as ->. by rewrite Hv.
Qed.

(** Overwriting column [i], a fixed-width one, of a row *)
Lemma content_update buf b1 b2 xs i c v : content sc ver N buf xs -> (i < length xs)%nat -> sc !! i = Some c -> typed (data_type c) v ->
  is_string (data_type c) = false -> (forall w, xs !! i = Some (Some w) -> typed (data_type c) w) ->
  IsNULL b1 (Z.of_nat i) = Some false -> length b1 = length buf ->
  (forall j, (j < length sc)%nat -> j <> i -> IsNULL b1 (Z.of_nat j) = IsNULL buf (Z.of_nat j)) ->
  (forall o n, o + Z.of_nat n <= HEADER_LENGTH \/ base sc <= o -> load b1 o n = load buf o n) ->
  store b1 (foff sc i) (enc v) = Some b2 -> (length xs <= length sc)%nat -> content sc ver N b2 (<[i := Some v]> xs).
Proof.
  intros Hct Hi Hc Ht Hs Htw Hn Hlen Hnj Hload Hst Hle. pose proof (foff_bounds sc i) as Hfb. pose proof (foff_bounds sc (S i)) as HfS.
  rewrite (foff_S sc i c Hc) in HfS. pose proof (base_ge sc) as Hbase. pose proof (enc_width _ _ Ht Hs) as Hw.
  destruct (lookup_lt_is_Some_2 xs i Hi) as [x Hx].
  assert (Hvl : vlen x = vlen (Some v)) by (rewrite (vlen_fixed _ _ Ht Hs); destruct x as [w|]; [by rewrite (vlen_fixed _ _ (Htw w Hx) Hs)|done]).
  assert (Hsl : forall n, strlen (take n (<[i := Some v]> xs)) = strlen (take n xs)) by by eapply strlen_update.
  assert (Hfar : forall o n, o + Z.of_nat n <= foff sc i \/ foff sc i + width (data_type c) <= o ->
    o + Z.of_nat n <= HEADER_LENGTH \/ base sc <= o -> load b2 o n = load buf o n).
  { intros o n H1 H2. rewrite (load_store_other _ _ _ _ _ _ Hst) by lia. by apply Hload. }
  assert (Hentry : forall p y, 0 <= p < str_total sc -> entry sc N buf p y -> entry sc N b2 p y).
  { intros p y Hp He. unfold entry, holds in *. pose proof (entry_in sc N p Hp). rewrite Hfar; [done|lia|lia]. }
  split.
  - rewrite (store_length _ _ _ _ Hst), Hlen. apply (ct_length _ _ _ _ _ Hct).
  - unfold holds. rewrite Hfar; [apply (ct_ver _ _ _ _ _ Hct)|left; simpl; lia|left; simpl; done].
  - unfold holds. rewrite Hfar; [apply (ct_size _ _ _ _ _ Hct)|left; simpl; lia|left; rewrite length_le_bytes; done].
  - intros j y Hj. pose proof (lookup_lt_Some _ _ _ Hj) as Hjl. rewrite length_insert in Hjl.
    rewrite (load1_above sc b1 b2 (foff sc i) (enc v) j) by (done || lia). destruct (decide (j = i)) as [->|Hne].
    + rewrite list_lookup_insert_eq in Hj by done. by injection Hj as <-.
    + rewrite list_lookup_insert_ne in Hj by done. rewrite Hnj by lia. by apply (ct_null _ _ _ _ _ Hct).
  - intros j cj w Hcj Hj. destruct (decide (j = i)) as [->|Hne].
    + rewrite list_lookup_insert_eq in Hj by done. by simplify_eq.
    + rewrite list_lookup_insert_ne in Hj by done. by eapply (ct_typed _ _ _ _ _ Hct).
  - intros j cj w Hcj Hj. rewrite Hsl. destruct (decide (j = i)) as [->|Hne].
    + rewrite list_lookup_insert_eq in Hj by done. simplify_eq. unfold col_at. rewrite Hs. by eapply holds_store_same.
    + rewrite list_lookup_insert_ne in Hj by done. pose proof (ct_col _ _ _ _ _ Hct j cj w Hcj Hj) as Hcol.
      pose proof (ct_typed _ _ _ _ _ Hct j cj w Hcj Hj) as Htj. unfold col_at in *. destruct (is_string (data_type cj)) eqn:E.
      * destruct (string_pos sc N j cj Hcj E) as [Hp _]. pose proof (spos_bounds sc j). destruct Hcol as (Ha & Hb & Hd).
        pose proof (strlen_nonneg (take j xs)). pose proof (layout_bounds sc N).
        split; [unfold holds; rewrite Hfar; [done|lia|lia]|]. split; [apply Hentry; [lia|done]|]. intros. apply Hentry; [lia|auto].
      * unfold holds. rewrite Hfar; [done| |right; apply foff_bounds]. rewrite (enc_width _ _ Htj E).
        destruct (decide (j < i)%nat) as [Hlt|Hge].
        -- left. pose proof (foff_mono sc (S j) i ltac:(lia)) as Hm. by rewrite (foff_S sc j cj Hcj) in Hm.
        -- right. pose proof (foff_mono sc (S i) j ltac:(lia)) as Hm. by rewrite (foff_S sc i c Hc) in Hm.
  - rewrite length_insert. intros Hp. apply Hentry; [lia|]. pose proof (Hsl (length xs)) as H1.
    rewrite !firstn_all2 in H1 by (rewrite ?length_insert; lia). rewrite H1. by apply (ct_next _ _ _ _ _ Hct).
Qed.

Lemma SetField_all r buf k : rb_buf r = Some buf -> Z.of_nat (length buf) = N -> (k < length sc)%nat ->
  exists b1, SetField r (Z.of_nat k) = Some (set_rb_buf (Some b1) r) /\ length b1 = length buf /\
    IsNULL b1 (Z.of_nat k) = Some false /\
    (forall j, (j < length sc)%nat -> j <> k -> IsNULL b1 (Z.of_nat j) = IsNULL buf (Z.of_nat j)) /\
    (forall o n, o + Z.of_nat n <= HEADER_LENGTH \/ base sc <= o -> load b1 o n = load buf o n).
Proof.
  intros Hb Hl Hk. destruct (bit_load sc N buf k Hl Hk) as (b & Hload & H1 & H2). unfold SetField. rewrite Hb, bind_some, Hload, bind_some.
  set (b' := u8 (Z.land b (Z.lnot (Z.shiftl 1 (Z.land (Z.of_nat k) 7))))).
  destruct (put_ok r buf _ [b'] Hb H1 H2) as (b1 & -> & Hs). exists b1. split; [done|].
  destruct (IsNULL_store buf b1 (Z.of_nat k) b b' false) as [Hn Hn']; [lia|done|done|intros; apply clear_bit; lia|].
  split; [by eapply store_length|]. split; [done|]. split; [intros; apply Hn'; lia|].
  intros o n Ho. apply (load_store_other _ _ _ _ _ _ Hs). pose proof (bitmap_covers sc k Hk). unfold base in Ho.
  assert (0 <= Z.shiftr (Z.of_nat k) 3) by (apply Z.shiftr_nonneg; lia). simpl length. lia.
Qed.

Lemma set_column_spec r xs i c v : built sc ver N r xs -> (length xs <= length sc)%nat -> (i < length xs)%nat -> sc !! i = Some c ->
  typed (data_type c) v -> is_string (data_type c) = false ->
  exists r', set_column r (Z.of_nat i) v = Some (true, r') /\ built sc ver N r' (<[i := Some v]> xs).
Proof.
  intros Hr Hle Hi Hc Ht Hs. destruct (bt_buf _ _ _ _ _ Hr) as (buf & Hb & Hct). pose proof (bt_conf _ _ _ _ _ Hr) as Hcf.
  assert (set_column r (Z.of_nat i) v = set_fixed r (Z.of_nat i) (data_type c) (enc v)) as -> by (destruct (data_type c), v; done).
  pose proof (ct_length _ _ _ _ _ Hct) as Hl. destruct (SetField_all r buf i Hb Hl ltac:(lia)) as (b1 & Hset & Hl1 & Hn & Hnj & Hload).
  unfold set_fixed. rewrite (Check_spec sc N r i c), bool_decide_eq_true_2, bind_some by done. cbn [negb].
  rewrite Hset, bind_some, Nat2Z.id, (vec_lookup sc N _ i c), Hs, bind_some by (done || by apply conf_buf).
  pose proof (foff_bounds sc i). pose proof (foff_bounds sc (S i)) as HS. rewrite (foff_S sc i c Hc) in HS.
  pose proof (layout_bounds sc N). pose proof (enc_width _ _ Ht Hs).
  destruct (put_ok (set_rb_buf (Some b1) r) b1 (foff sc i) (enc v)) as (b2 & -> & Hst); [done|lia|lia|]. rewrite bind_some.
  eexists. split; [done|]. split.
  - by destruct Hcf.
  - simpl. rewrite length_insert. apply (bt_cnt _ _ _ _ _ Hr).
  - apply (bt_ver _ _ _ _ _ Hr).
  - simpl. rewrite (bt_off _ _ _ _ _ Hr). f_equal. destruct (lookup_lt_is_Some_2 xs i Hi) as [x Hx].
    assert (vlen x = vlen (Some v)) as Hvl.
    { rewrite (vlen_fixed _ _ Ht Hs). destruct x as [w|]; [|done]. by rewrite (vlen_fixed _ _ (ct_typed _ _ _ _ _ Hct i c w Hc Hx) Hs). }
    pose proof (strlen_update i x (Some v) xs Hx Hvl (length xs)) as E. rewrite !firstn_all2 in E by (rewrite ?length_insert; lia). done.
  - exists b2. split; [done|]. eapply content_update; try done. intros w Hw. by eapply (ct_typed _ _ _ _ _ Hct).
Qed.
End more.

(** C25: overwriting a fixed-width column of a complete row in place.  [SetX(i, v)]
    on a row built from [xs] succeeds, and the view then returns [v] for column
    [i] (even if it was NULL) and the old value for every other column. *)
Theorem row_update (sc : Schema) (ver : Z) (buf : bytes) (xs : list (option Value)) (i : nat) (c : ColumnDesc) (v : Value) :
  Forall2 accepts sc xs -> row_size_ok sc (strlen xs) ->
  Z.of_nat (length buf) = CalTotalLength (RowBuilder_new sc) (strlen xs) ->
  sc !! i = Some c -> is_string (data_type c) = false -> typed (data_type c) v ->
  exists r r' row view, build_row sc ver buf xs = Some (true, r) /\ set_column r (Z.of_nat i) v = Some (true, r') /\
    rb_buf r' = Some row /\ RowView_of sc (Some row) (Z.of_nat (length row)) = Some view /\
    forall j cj x, sc !! j = Some cj -> <[i := Some v]> xs !! j = Some x ->
      get_column view (Z.of_nat j) (data_type cj) = Some (match x with None => (1, None) | Some w => (0, Some w) end).
Proof.
  intros Ha Hok Hl Hc Hs Ht. destruct (build_row_spec sc ver buf xs Ha Hok Hl) as (N & r & row & Hbuild & Hr & Hfits & Hfull & Hrow & HN & Hct & Hcal).
  pose proof (Forall2_length _ _ _ Ha) as Hlen. pose proof (lookup_lt_Some _ _ _ Hc) as Hi.
  destruct (set_column_spec sc ver N r xs i c v Hr) as (r' & Hset & Hr'); [lia|lia|done..|].
  destruct (bt_buf _ _ _ _ _ Hr') as (row' & Hrow' & Hct').
  destruct (RowView_of_spec sc ver N row' (<[i := Some v]> xs)) as (view & Hv & Hview); [apply Hok|done|].
  exists r, r', row', view. split; [done|]. split; [done|]. split; [done|]. rewrite (ct_length _ _ _ _ _ Hct'). split; [done|].
  intros j cj x Hcj Hx. eapply (get_column_spec sc ver N); try done.
  split.
  - rewrite <- (list_insert_id sc i c Hc). by apply Forall2_insert.
  - destruct (lookup_lt_is_Some_2 xs i ltac:(lia)) as [y Hy].
    assert (vlen y = vlen (Some v)) as Hvl.
    { rewrite (vlen_fixed _ _ Ht Hs). destruct y as [w|]; [|done]. by rewrite (vlen_fixed _ _ (ct_typed _ _ _ _ _ Hct i c w Hc Hy) Hs). }
    pose proof (strlen_update i y (Some v) xs Hy Hvl (length xs)) as E. rewrite !firstn_all2 in E by (rewrite ?length_insert; lia).
    rewrite E. apply (fu_total _ _ _ Hfull).
Qed.

(** C39: dates.  [AppendDate(year, month, day)] accepts exactly years 1900 to
    9999, months 1 to 12 and days 1 to 31 (a refused date changes nothing),
    and [GetDate] of a view returns the three numbers. *)
Theorem row_date (sc : Schema) (ver N : Z) (r : RowBuilder) (xs : list (option Value)) (c : ColumnDesc) (y m d : Z) :
  row_fits sc N -> built sc ver N r xs -> sc !! length xs = Some c -> data_type c = kDate ->
  if decide (1900 <= y <= 9999 /\ 1 <= m <= 12 /\ 1 <= d <= 31) then
    exists r' row, AppendDate_ymd r y m d = Some (true, r') /\ rb_buf r' = Some row /\
      forall v, viewing sc N v row -> GetDate_ymd v (Z.of_nat (length xs)) = Some (0, Some (y, m, d))
  else AppendDate_ymd r y m d = Some (false, r).
Proof.
  intros Hfits Hr Hc Ht. destruct (decide (1900 <= y <= 9999 /\ 1 <= m <= 12 /\ 1 <= d <= 31)) as [(Hy & Hm & Hd)|Hbad].
  - destruct (append_date_ymd sc ver N r xs c y m d Hr Hc Ht Hy Hm Hd) as (r' & Hap & Hr').
    destruct (bt_buf _ _ _ _ _ Hr') as (row & Hrow & Hct). exists r', row. split; [done|]. split; [done|]. intros v Hv.
    destruct (ymd_pack y m d Hy Hm Hd) as [Hymd Hz]. rewrite <- Hymd.
    eapply (GetDate_ymd_spec sc ver N); try done. by rewrite list_lookup_middle.
  - unfold AppendDate_ymd, append, SetDate_ymd. rewrite (bt_cnt _ _ _ _ _ Hr).
    destruct (decide (y < 1900 \/ 9999 < y)); [done|]. destruct (decide (m < 1 \/ 12 < m)); [done|].
    rewrite decide_True by lia. done.
Qed.

Lemma CheckValid_invalid v idx t : rv_is_valid v = false -> CheckValid v idx t = Some false.
Proof. intros H. unfold CheckValid. rewrite H. by destruct (rv_row v). Qed.

(** A call of one of the two [Reset] overloads, and a sequence of them with
    what each returned *)
Inductive reset_call : Type := RReset (row : option bytes) (size : Z) | RResetRow (row : option bytes).
Definition run_reset (v : RowView) (c : reset_call) : option (bool * RowView) :=
  match c with RReset row size => Reset v row size | RResetRow row => Reset_row v row end.
Fixpoint run_resets (v : RowView) (cs : list reset_call) : option (list bool * RowView) :=
  match cs with
  | [] => Some ([], v)
  | c :: cs => '(ok, v1) ← run_reset v c; '(oks, v2) ← run_resets v1 cs; Some (ok :: oks, v2)
  end.

(** What no [Reset] changes *)
Definition same_layout (v v' : RowView) : Prop :=
  rv_schema v' = rv_schema v /\ rv_offset_vec v' = rv_offset_vec v /\
  rv_string_field_cnt v' = rv_string_field_cnt v /\ rv_str_field_start_offset v' = rv_str_field_start_offset v.
Lemma run_reset_spec v c ok v1 : run_reset v c = Some (ok, v1) -> same_layout v v1 /\ rv_is_valid v1 = rv_is_valid v && ok.
Proof.
  unfold same_layout. destruct c as [row size|row]; cbn [run_reset]; unfold Reset, Reset_row; (destruct row as [d|]; [|intros [= <- <-]; by rewrite andb_false_r]);
    (case_decide; [intros [= <- <-]; by rewrite andb_false_r|]); (destruct (load_uint 4 d VERSION_LENGTH); [|done]); rewrite bind_some;
    case_decide; intros [= <- <-]; rewrite ?andb_false_r, ?andb_true_r; done.
Qed.
Lemma run_resets_spec cs : forall v oks v', run_resets v cs = Some (oks, v') -> same_layout v v' /\ (rv_is_valid v = false -> rv_is_valid v' = false).
Proof.
  induction cs as [|c cs IH]; intros v oks v'; cbn [run_resets]; [by intros [= _ <-]|].
  destruct (run_reset v c) as [[ok v1]|] eqn:E; [|done]. cbn [mbind option_bind]. destruct (run_resets v1 cs) as [[oks' v2]|] eqn:E2; [|done].
  intros [= _ <-]. apply run_reset_spec in E as [(H1 & H2 & H3 & H4) Hv]. apply IH in E2 as [(H5 & H6 & H7 & H8) Hv2].
  split; [unfold same_layout; repeat split; congruence|]. intros Hf. apply Hv2. by rewrite Hv, Hf.
Qed.
(** The getters that are handed the row read the layout only. *)
Lemma same_layout_GetValue v v' d idx t : same_layout v v' -> GetValue v' d idx t = GetValue v d idx t.
Proof. intros (H1 & H2 & H3 & H4). unfold GetValue. by rewrite H1, H2. Qed.
Lemma same_layout_GetValue_str v v' d idx : same_layout v v' -> GetValue_str v' d idx = GetValue_str v d idx.
Proof. intros (H1 & H2 & H3 & H4). unfold GetValue_str. by rewrite H1, H2, H3, H4. Qed.

(** C34: a failed [Reset] is permanent for the getters that read the attached
    row.  Once either overload of [Reset] has refused a row, whatever rows later
    calls accept, the typed getters ([GetBool] to [GetTimestamp], [GetDate] in
    both forms, [GetString]) return -1 on every column: nothing sets the
    validity flag again.  [GetValue] in both forms and [GetInteger], which are
    handed the row and do not test the flag, answer as before the failure. *)
Theorem Reset_failure_sticks (v v1 v2 : RowView) (c : reset_call) (cs : list reset_call) (oks : list bool) :
  run_reset v c = Some (false, v1) -> run_resets v1 cs = Some (oks, v2) ->
  (forall idx t, get_column v2 idx t = Some (-1, None)) /\ (forall idx, GetDate_ymd v2 idx = Some (-1, None)) /\
  (forall row idx t, GetValue v2 row idx t = GetValue v row idx t) /\
  (forall row idx t, GetInteger v2 row idx t = GetInteger v row idx t) /\
  (forall row idx, GetValue_str v2 row idx = GetValue_str v row idx).
Proof.
  intros H1 H2. apply run_reset_spec in H1 as [Hl1 Hv1]. rewrite andb_false_r in Hv1. apply run_resets_spec in H2 as [Hl2 Hv2]. specialize (Hv2 Hv1).
  assert (Hl : same_layout v v2) by (destruct Hl1 as (? & ? & ? & ?), Hl2 as (? & ? & ? & ?); unfold same_layout; repeat split; congruence).
  repeat split; intros.
  - unfold get_column, GetBool, GetInt16, GetInt32, GetInt64, GetFloat, GetDouble, GetDate, GetTimestamp, GetString, get_fixed.
    rewrite !CheckValid_invalid by done. by destruct t.
  - unfold GetDate_ymd, get_fixed. by rewrite CheckValid_invalid.
  - by apply same_layout_GetValue.
  - unfold GetInteger. by rewrite (same_layout_GetValue v).
  - by apply same_layout_GetValue_str.
Qed.

(** C35: [GetInteger] hides NULLs.  On a NULL column [GetValue] returns 1, and so
    does [GetInteger] on a [kSmallInt] column, but for the other integer types
    it returns success and the value 0. *)
Theorem GetInteger_null (sc : Schema) (ver N : Z) (v : RowView) (row : bytes) (xs : list (option Value)) (i : nat) (c : ColumnDesc) :
  row_fits sc N -> viewing sc N v row -> content sc ver N row xs -> sc !! i = Some c -> xs !! i = Some None ->
  data_type c ∈ [kSmallInt; kInt; kBigInt; kTimestamp] ->
  GetValue v (Some row) (Z.of_nat i) (data_type c) = Some (1, None) /\
  GetInteger v (Some row) (Z.of_nat i) (data_type c) = Some (if decide (data_type c = kSmallInt) then (1, None) else (0, Some 0)).
Proof.
  intros Hfits Hv Hct Hc Hx Ht. pose proof (lookup_lt_Some _ _ _ Hc) as Hi. destruct (index_id sc N i Hi) as [H1 H2].
  assert (HG : GetValue v (Some row) (Z.of_nat i) (data_type c) = Some (1, None)).
  { unfold GetValue. rewrite (vw_schema _ _ _ _ Hv), H1, decide_False by lia. rewrite Nat2Z.id, Hc, bind_some, decide_False by tauto.
    pose proof (rf_size sc N). pose proof (layout_bounds sc N).
    unfold GetSize. rewrite (holds_uint 4 row VERSION_LENGTH N) by apply (ct_size _ _ _ _ _ Hct). rewrite bind_some, Z.mod_small by (simpl; lia).
    rewrite decide_False, (ct_null _ _ _ _ _ Hct i None Hx); [done|].
    pose proof (bitmap_covers sc i Hi). assert (0 <= Z.shiftr (Z.of_nat i) 3) by (apply Z.shiftr_nonneg; lia). unfold base in *. lia. }
  split; [done|]. unfold GetInteger. apply list_elem_of_In in Ht. simpl in Ht.
  destruct Ht as [E|[E|[E|[E|[]]]]]; rewrite <- E in *; rewrite HG; done.
Qed.

Definition date_schema : Schema := [MkColumnDesc kDate false; MkColumnDesc kInt false].

Lemma row_update_witness : exists r r' row view, build_row sample_schema 3 (replicate 24 0) sample_row = Some (true, r) /\
  set_column r 2 (VBool true) = Some (true, r') /\ rb_buf r' = Some row /\ RowView_of sample_schema (Some row) (Z.of_nat (length row)) = Some view /\
  get_column view 2 kBool = Some (0, Some (VBool true)) /\ get_column view 1 kString = Some (0, Some (VString [104; 105])).
Proof.
  destruct (row_update sample_schema 3 (replicate 24 0) sample_row 2 (MkColumnDesc kBool false) (VBool true))
    as (r & r' & row & view & H1 & H2 & H3 & H4 & Hget).
  - repeat constructor; unfold accepts, typed, in_sint, in_uint; simpl; lia.
  - split; [done|split; vm_compute; reflexivity].
  - reflexivity.
  - reflexivity.
  - reflexivity.
  - exact I.
  - exists r, r', row, view. split; [exact H1|]. split; [exact H2|]. split; [exact H3|]. split; [exact H4|].
    split; [apply (Hget 2%nat (MkColumnDesc kBool false) (Some (VBool true))); reflexivity|].
    apply (Hget 1%nat (MkColumnDesc kString false) (Some (VString [104; 105]))); reflexivity.
Defined.

Lemma date_fits : row_fits date_schema 15.
Proof. split; vm_compute; congruence. Qed.

Lemma row_date_witness : exists r r' row,
  SetBuffer (RowBuilder_new date_schema) (Some (replicate 15 0)) 15 true = Some (true, r) /\
  AppendDate_ymd r 2020 2 29 = Some (true, r') /\ rb_buf r' = Some row /\
  forall v, viewing date_schema 15 v row -> GetDate_ymd v 0 = Some (0, Some (2020, 2, 29)).
Proof.
  destruct (SetBuffer_spec date_schema 1 15 (replicate 15 0) date_fits) with (r := RowBuilder_new date_schema) as (r & Hset & Hr);
    [lia|vm_compute; congruence|reflexivity..|].
  pose proof (row_date date_schema 1 15 r [] (MkColumnDesc kDate false) 2020 2 29 date_fits Hr eq_refl eq_refl) as H.
  rewrite decide_True in H by lia. destruct H as (r' & row & H1 & H2 & H3).
  exists r, r', row. split; [exact Hset|]. split; [exact H1|]. split; [exact H2|exact H3].
Defined.

Definition good_dates : bytes := [1; 1; 15; 0; 0; 0; 0; 1; 0; 0; 0; 42; 0; 0; 0].

Lemma Reset_failure_sticks_witness : exists v1 v2,
  run_reset (RowView_new date_schema) (RReset None 0) = Some (false, v1) /\
  run_resets v1 [RReset (Some good_dates) 15; RResetRow (Some good_dates)] = Some ([true; true], v2) /\
  get_column v2 1 kInt = Some (-1, None) /\ GetValue v2 (Some good_dates) 1 kInt = Some (0, Some (VInt 42)).
Proof.
  eexists _, _. split; [reflexivity|]. split; [vm_compute; reflexivity|].
  destruct (Reset_failure_sticks (RowView_new date_schema) _ _ (RReset None 0) [RReset (Some good_dates) 15; RResetRow (Some good_dates)] [true; true] eq_refl eq_refl) as (H1 & _ & H3 & _).
  split; [apply H1|]. etransitivity; [apply H3|]. vm_compute. reflexivity.
Defined.

Lemma GetInteger_null_witness : exists r row v, build_row date_schema 1 (replicate 15 0) [None; None] = Some (true, r) /\
  rb_buf r = Some row /\ RowView_of date_schema (Some row) 15 = Some v /\ GetInteger v (Some row) 1 kInt = Some (0, Some 0).
Proof.
  destruct (build_row_spec date_schema 1 (replicate 15 0) [None; None]) as (N & r & row & Hbuild & Hr & Hfits & Hfull & Hrow & HN & Hct & Hcal);
    [repeat constructor|split; [done|split; vm_compute; reflexivity]|reflexivity|].
  assert (E : N = 15) by (rewrite Hcal; reflexivity). clear Hcal HN. subst N.
  destruct (RowView_of_spec date_schema 1 15 row [None; None]) as (v & Hv & Hview); [done|exact Hct|].
  exists r, row, v. split; [exact Hbuild|]. split; [exact Hrow|]. split; [exact Hv|].
  apply (GetInteger_null date_schema 1 15 v row [None; None] 1 (MkColumnDesc kInt false)); [exact Hfits|exact Hview|exact Hct|reflexivity|reflexivity|].
  right. left.
Defined.
