(* ===== verification/RowProject.v ===== *)
(** Projection of rows onto a list of columns: class [RowProject] of
    codec/codec.{h,cc}. *)
From S2P Require Import Prelude Memory RowCodec RowBuild RowView RowThms.

(** A [std::map<int32_t, A>] as its in-order traversal *)
Abbreviation smap A := (list (Z * A)).
Definition smap_find {A} (k : Z) (m : smap A) : option A := snd <$> List.find (fun p => bool_decide (p.1 = k)) m.
Definition smap_update {A} (k : Z) (x : A) (m : smap A) : smap A :=
  (fun p => if decide (p.1 = k) then (k, x) else p) <$> m.

(** The views are shared objects: [cur_rv_] points to one of [vers_views_] and
    is represented by its key. *)
Record RowProject : Type := MkRowProject {
  rp_plist : list Z;
  rp_output_schema : Schema;
  rp_row_builder : option RowBuilder;
  rp_cur_schema : option Schema;
  rp_cur_rv : option Z;
  rp_max_idx : Z;
  rp_vers_views : smap RowView;
  rp_vers_schema : smap Schema;
  rp_cur_ver : Z
}.

Definition RowProject_new (vers_schema : smap Schema) (plist : list Z) : RowProject :=
  MkRowProject plist [] None None None 0 [] vers_schema 1.

(** The columns of [schema] at the projected indices; [None] when one is out of
    range *)
Definition project_schema (schema : Schema) (plist : list Z) : option Schema :=
  mapM (fun idx => schema !! Z.to_nat idx) plist.

Definition RowProject_Init (p : RowProject) : option (bool * RowProject) :=
  match rp_plist p with
  | [] => Some (false, p)
  | _ =>
      let max_idx := foldl (fun m idx => if decide (m <= idx) then idx else m) (rp_max_idx p) (rp_plist p) in
      let usable := filter (fun e => max_idx < schema_size e.2) (rp_vers_schema p) in
      let views := (fun e => (e.1, RowView_new e.2)) <$> usable in
      let p := MkRowProject (rp_plist p) (rp_output_schema p) (rp_row_builder p) (rp_cur_schema p) (rp_cur_rv p)
        max_idx views (rp_vers_schema p) (rp_cur_ver p) in
      match views with
      | [] => Some (false, p)
      | (ver, _) :: _ =>
          schema ← smap_find ver (rp_vers_schema p);
          out ← project_schema schema (rp_plist p);
          Some (true, MkRowProject (rp_plist p) (rp_output_schema p ++ out) (Some (RowBuilder_new (rp_output_schema p ++ out)))
            (Some schema) (Some ver) max_idx views (rp_vers_schema p) (rp_cur_ver p))
      end
  end.

(** The first loop of [Project]: the total length of the projected strings;
    [inl] when a string cannot be read *)
Fixpoint strings_size (v : RowView) (row : bytes) (schema : Schema) (plist : list Z) (str_size : Z) : option (unit + Z) :=
  match plist with
  | [] => Some (inr str_size)
  | idx :: plist' =>
      column ← schema !! Z.to_nat idx;
      if is_string (data_type column) then
        null ← IsNULL row idx;
        if (null : bool) then strings_size v row schema plist' str_size
        else
          '(ret, x) ← GetString v idx;
          match x with
          | Some (_, length_) => if decide (ret <> 0) then Some (inl tt)
                                 else strings_size v row schema plist' (u32 (str_size + length_))
          | None => if decide (ret <> 0) then Some (inl tt) else strings_size v row schema plist' str_size
          end
      else strings_size v row schema plist' str_size
  end.

(** The second loop: copy each column; the results of the appends are not
    looked at. *)
Fixpoint copy_columns (v : RowView) (row : bytes) (schema : Schema) (plist : list Z) (r : RowBuilder) : option (bool * RowBuilder) :=
  match plist with
  | [] => Some (true, r)
  | idx :: plist' =>
      column ← schema !! Z.to_nat idx;
      null ← IsNULL row idx;
      if (null : bool) then
        '(_, r) ← AppendNULL r;
        copy_columns v row schema plist' r
      else
        '(ret, x) ← get_column v idx (data_type column);
        '(_, r) ← match x with Some w => append_column r (Some w) | None => Some (true, r) end;
        if decide (ret <> 0) then Some (false, r) else copy_columns v row schema plist' r
  end.

Definition set_view (ver : Z) (v : RowView) (p : RowProject) : RowProject :=
  MkRowProject (rp_plist p) (rp_output_schema p) (rp_row_builder p) (rp_cur_schema p) (rp_cur_rv p) (rp_max_idx p)
    (smap_update ver v (rp_vers_views p)) (rp_vers_schema p) (rp_cur_ver p).
Definition set_builder (r : RowBuilder) (p : RowProject) : RowProject :=
  MkRowProject (rp_plist p) (rp_output_schema p) (Some r) (rp_cur_schema p) (rp_cur_rv p) (rp_max_idx p)
    (rp_vers_views p) (rp_vers_schema p) (rp_cur_ver p).

(** The switch to the view of the row's schema version; [None] inside when
    there is none *)
Definition select_version (p : RowProject) (version : Z) : option (bool * RowProject) :=
  if decide (version <> rp_cur_ver p) then
    match smap_find version (rp_vers_views p) with
    | None => Some (false, p)
    | Some _ =>
        schema ← smap_find version (rp_vers_schema p);
        Some (true, MkRowProject (rp_plist p) (rp_output_schema p) (rp_row_builder p) (Some schema) (Some version) (rp_max_idx p)
          (rp_vers_views p) (rp_vers_schema p) version)
    end
  else Some (true, p).

(** [Project]: [fresh n] is the content of the [n] bytes just allocated.  The
    buffer handed out is [None] on failure. *)
Definition Project (fresh : nat -> bytes) (p : RowProject) (row_ptr : option bytes) (size : Z) : option (bool * option bytes * RowProject) :=
  match row_ptr with
  | None => Some (false, None, p)
  | Some row =>
      version ← GetSchemaVersion row;
      '(found, p) ← select_version p version;
      if negb found then Some (false, None, p)
      else
        key ← rp_cur_rv p;
        rv ← smap_find key (rp_vers_views p);
        '(ok, rv) ← Reset rv (Some row) size;
        let p := set_view key rv p in
        if negb ok then Some (false, None, p)
        else
          schema ← rp_cur_schema p;
          builder ← rp_row_builder p;
          s ← strings_size rv row schema (rp_plist p) 0;
          match s with
          | inl _ => Some (false, None, p)
          | inr str_size =>
              let total_size := CalTotalLength builder str_size in
              '(ready, builder) ← SetBuffer builder (Some (fresh (Z.to_nat total_size))) total_size true;
              _ ← require ready;
              '(ok, builder) ← copy_columns rv row schema (rp_plist p) builder;
              let p := set_builder builder p in
              if (ok : bool) then Some (true, rb_buf builder, p) else Some (false, None, p)
          end
  end.

(** ** Correctness *)

(** A view as its constructor leaves it, attached or not *)
Record shape (v : RowView) (sc : Schema) : Prop := {
  sh_valid : rv_is_valid v = true;
  sh_schema : rv_schema v = sc;
  sh_cnt : rv_string_field_cnt v = str_total sc;
  sh_start : rv_str_field_start_offset v = str_start sc;
  sh_vec : rv_offset_vec v = offsets sc 0 (base sc)
}.
(** A builder for [out] with any row or none *)
Record builder_for (r : RowBuilder) (out : Schema) : Prop := {
  bf_schema : rb_schema r = out;
  bf_cnt : rb_str_field_cnt r = str_total out;
  bf_start : rb_str_field_start_offset r = str_start out;
  bf_vec : rb_offset_vec r = offsets out 0 (base out);
  bf_ver : rb_schema_version r = 1
}.

Lemma row_fits_0 sc : row_size_ok sc 0 -> exists N, row_fits sc N.
Proof.
  intros Hok. destruct (CalTotalLength_spec sc (MkRowBuilder sc None 0 0 (str_total sc) 0 (str_start sc) 0 1 (offsets sc 0 (base sc))) 0)
    as (_ & Hf & _); [done..|]. by eexists.
Qed.

Lemma shape_new sc : row_size_ok sc 0 -> shape (RowView_new sc) sc.
Proof. intros Hok. destruct (row_fits_0 sc Hok) as [N Hf]. rewrite (RowView_new_spec sc N) by apply Hok. by split. Qed.

Lemma builder_for_new out : row_size_ok out 0 -> builder_for (RowBuilder_new out) out.
Proof. intros Hok. rewrite (RowBuilder_new_spec out 0) by done. by split. Qed.

Section loops.
Context (sc : Schema) (ver N : Z) `{Hfits : !row_fits sc N} (v : RowView) (row : bytes) (xs : list (option Value)).
Context (Hv : viewing sc N v row) (Hct : content sc ver N row xs) (Hfull : full sc N xs).

(** The projected columns and values *)
Definition picks (plist : list Z) (out : Schema) (ys : list (option Value)) : Prop :=
  Forall (Z.le 0) plist /\ project_schema sc plist = Some out /\ mapM (fun idx => xs !! Z.to_nat idx) plist = Some ys.

Lemma picks_cons idx plist out ys : picks (idx :: plist) out ys ->
  exists c x out' ys', out = c :: out' /\ ys = x :: ys' /\ 0 <= idx /\ sc !! Z.to_nat idx = Some c /\ xs !! Z.to_nat idx = Some x /\ picks plist out' ys'.
Proof.
  intros (Hp & Hs & Hx). apply Forall_cons in Hp as [Hi Hp]. unfold project_schema in *. cbn [mapM] in *.
  destruct (sc !! Z.to_nat idx) as [c|] eqn:Ec; [|done]. destruct (xs !! Z.to_nat idx) as [x|] eqn:Ex; [|done]. cbn [mbind option_bind] in *.
  destruct (mapM (fun idx => sc !! Z.to_nat idx) plist) as [out'|] eqn:Eo; [|done].
  destruct (mapM (fun idx => xs !! Z.to_nat idx) plist) as [ys'|] eqn:Ey; [|done]. injection Hs as <-. injection Hx as <-.
  exists c, x, out', ys'. done.
Qed.

Lemma picks_accepts plist : forall out ys, picks plist out ys -> Forall2 accepts out ys.
Proof.
  induction plist as [|idx plist IH]; intros out ys Hp.
  - destruct Hp as (_ & [= <-] & [= <-]). constructor.
  - apply picks_cons in Hp as (c & x & out' & ys' & -> & -> & Hi & Hc & Hx & Hp). constructor; [|by apply IH].
    by eapply (Forall2_lookup_lr _ _ _ _ _ _ (fu_accepts _ _ _ Hfull)).
Qed.

Lemma null_pick idx x : 0 <= idx -> xs !! Z.to_nat idx = Some x -> IsNULL row idx = Some (is_null x).
Proof. intros Hi Hx. rewrite <- (Z2Nat.id idx) by done. by apply (ct_null _ _ _ _ _ Hct). Qed.

Lemma strings_size_spec plist : forall out ys acc, picks plist out ys -> 0 <= acc -> acc + strlen ys < 2 ^ 32 ->
  strings_size v row sc plist acc = Some (inr (acc + strlen ys)).
Proof.
  induction plist as [|idx plist IH]; intros out ys acc Hp Ha Hb.
  - destruct Hp as (_ & _ & [= <-]). simpl. by rewrite Z.add_0_r.
  - apply picks_cons in Hp as (c & x & out' & ys' & -> & -> & Hi & Hc & Hx & Hp). cbn [strings_size strlen] in *.
    pose proof (vlen_nonneg x). pose proof (strlen_nonneg ys'). rewrite Hc, bind_some.
    destruct (is_string (data_type c)) eqn:Hs.
    + rewrite (null_pick idx x), bind_some by done. destruct x as [w|]; cbn [is_null].
      * pose proof (GetString_spec sc ver N v row xs (Z.to_nat idx) c (Some w) Hv Hct Hfull Hc Hx Hs) as Hg. rewrite Z2Nat.id in Hg by done.
        rewrite Hg, bind_some, decide_False by tauto. rewrite uwrap_id by (unfold in_uint; lia).
        rewrite (IH out' ys') by (done || lia). do 2 f_equal. lia.
      * rewrite (IH out' ys') by (done || (simpl in *; lia)). do 2 f_equal.
    + assert (vlen x = 0) as Hv0.
      { destruct x as [w|]; [|done]. eapply vlen_fixed; [|done]. by eapply (ct_typed _ _ _ _ _ Hct). }
      rewrite (IH out' ys') by (done || lia). do 2 f_equal. lia.
Qed.

Lemma copy_columns_spec full_out N' : row_fits full_out N' -> forall plist out ys r zs,
  picks plist out ys -> built full_out 1 N' r zs -> drop (length zs) full_out = out -> body full_out N' + strlen zs + strlen ys <= N' ->
  exists r', copy_columns v row sc plist r = Some (true, r') /\ built full_out 1 N' r' (zs ++ ys).
Proof.
  intros Hf'. induction plist as [|idx plist IH]; intros out ys r zs Hp Hr Hout Hroom.
  - destruct Hp as (_ & _ & [= <-]). exists r. by rewrite app_nil_r.
  - pose proof (picks_accepts _ _ _ Hp) as Hacc. apply picks_cons in Hp as (c & x & out' & ys' & -> & -> & Hi & Hc & Hx & Hp).
    apply Forall2_cons_1 in Hacc as [Hax _]. cbn [copy_columns strlen] in *. pose proof (strlen_nonneg ys').
    assert (Hc' : full_out !! length zs = Some c) by (rewrite <- (Nat.add_0_r (length zs)), <- lookup_drop, Hout; done).
    destruct (append_column_spec full_out 1 N' r zs c x Hf' Hr Hc' Hax) as (r1 & Hap & Hr1); [lia|].
    destruct (IH out' ys' r1 (zs ++ [x]) Hp Hr1) as (r' & Hrec & Hr').
    { rewrite length_app. cbn [length]. by rewrite <- drop_drop, Hout. }
    { rewrite strlen_app. simpl. lia. }
    exists r'. rewrite <- app_assoc in Hr'. split; [|done].
    rewrite Hc, bind_some, (null_pick idx x), bind_some by done. destruct x as [w|]; cbn [is_null].
    + pose proof (get_column_spec sc ver N v row xs (Z.to_nat idx) c (Some w) Hv Hct Hfull Hc Hx) as Hg. rewrite Z2Nat.id in Hg by done.
      rewrite Hg, bind_some, Hap, bind_some, decide_False by tauto. done.
    + cbn [append_column] in Hap. by rewrite Hap, bind_some.
Qed.
End loops.

(** ** Maps *)
Lemma smap_find_update {A} k k' (x : A) m :
  smap_find k (smap_update k' x m) = if decide (k = k') then (fun _ => x) <$> smap_find k m else smap_find k m.
Proof.
  unfold smap_find, smap_update. induction m as [|[j y] m IH]; simpl; [by case_decide|].
  destruct (decide (j = k')) as [->|Hj]; simpl; case_bool_decide as E; simpl in *.
  - subst. by rewrite decide_True.
  - apply IH.
  - subst. by rewrite decide_False.
  - apply IH.
Qed.

Lemma smap_find_filter {A} k (P : Z * A -> Prop) `{!forall x, Decision (P x)} m x : NoDup m.*1 ->
  smap_find k m = Some x -> smap_find k (filter P m) = if decide (P (k, x)) then Some x else None.
Proof.
  unfold smap_find. induction m as [|[j y] m IH]; cbn [fmap list_fmap List.find]; intros Hnd Hf; [done|].
  apply NoDup_cons in Hnd as [Hn Hnd]. rewrite filter_cons. cbn [fst] in *. destruct (bool_decide (j = k)) eqn:E.
  - apply bool_decide_eq_true in E as ->. injection Hf as ->. destruct (decide (P (k, x))) as [Hp|Hp]; cbn [List.find fst].
    + by rewrite bool_decide_eq_true_2.
    + assert (Hnone : List.find (fun p => bool_decide (p.1 = k)) (filter P m) = None); [|by rewrite Hnone].
      destruct (List.find _ (filter P m)) as [[j y]|] eqn:Ef; [|done]. apply find_some in Ef as [Hin Hk].
      apply bool_decide_eq_true in Hk. simpl in Hk. subst. apply list_elem_of_In in Hin. apply list_elem_of_filter in Hin as [_ Hin].
      destruct Hn. apply list_elem_of_fmap. by exists (k, y).
  - destruct (decide (P (j, y))); cbn [List.find fst]; rewrite ?E; by apply IH.
Qed.

Lemma smap_find_fmap {A B} k (f : A -> B) m : smap_find k ((fun e => (e.1, f e.2)) <$> m) = f <$> smap_find k m.
Proof. unfold smap_find. induction m as [|[j y] m IH]; simpl; [done|]. by case_bool_decide. Qed.

Lemma smap_find_elem {A} k (m : smap A) x : smap_find k m = Some x -> (k, x) ∈ m.
Proof.
  unfold smap_find. intros H. destruct (List.find _ m) as [[j y]|] eqn:E; [|done]. injection H as <-.
  apply find_some in E as [Hin Hk]. apply bool_decide_eq_true in Hk. simpl in Hk. subst. by apply list_elem_of_In.
Qed.

(** ** The state between projections *)
Definition usable (plist : list Z) (sc : Schema) : Prop := Forall (fun idx => 0 <= idx < schema_size sc) plist.

Record ready (vs : smap Schema) (plist : list Z) (out : Schema) (p : RowProject) : Prop := {
  rd_plist : rp_plist p = plist;
  rd_builder : exists b, rp_row_builder p = Some b /\ builder_for b out;
  rd_vs : rp_vers_schema p = vs;
  rd_views : forall k v, smap_find k (rp_vers_views p) = Some v -> exists sc, smap_find k vs = Some sc /\ usable plist sc /\ shape v sc;
  rd_all : forall k sc, smap_find k vs = Some sc -> usable plist sc -> is_Some (smap_find k (rp_vers_views p));
  rd_cur : exists k sc, rp_cur_rv p = Some k /\ rp_cur_schema p = Some sc /\ smap_find k vs = Some sc /\
    is_Some (smap_find k (rp_vers_views p)) /\ (rp_cur_ver p = k \/ smap_find (rp_cur_ver p) (rp_vers_views p) = None)
}.

Lemma max_idx_spec plist n : forall m, foldl (fun m idx => if decide (m <= idx) then idx else m) m plist < n <->
  m < n /\ Forall (fun idx => idx < n) plist.
Proof.
  induction plist as [|idx plist IH]; intros m; simpl; [split; [intros; by split|tauto]|]. rewrite IH, Forall_cons. case_decide; intuition lia.
Qed.

(** What the constructor and [Init] are given: a map whose keys are the
    schema versions, from 1 up, each with a schema of a representable size *)
Record versions_ok (vs : smap Schema) : Prop := {
  vo_sorted : StronglySorted Z.lt vs.*1;
  vo_from_1 : Forall (Z.le 1) vs.*1;
  vo_sizes : Forall (fun e => row_size_ok e.2 0) vs
}.

Lemma sorted_nodup (l : list Z) : StronglySorted Z.lt l -> NoDup l.
Proof.
  induction 1 as [|x l Hs IH Hx]; constructor; [|done]. intros Hin. rewrite Forall_forall in Hx. specialize (Hx x Hin). lia.
Qed.

Lemma usable_max plist sc : plist <> [] -> Forall (Z.le 0) plist ->
  foldl (fun m idx => if decide (m <= idx) then idx else m) 0 plist < schema_size sc <-> usable plist sc.
Proof.
  intros Hne Hp. rewrite max_idx_spec. unfold usable. rewrite !Forall_forall in *. split.
  - intros [_ H] idx Hin. split; [by apply Hp|by apply H].
  - intros H. destruct plist as [|i plist]; [done|]. split; [specialize (H i ltac:(left)); lia|].
    intros idx Hin. by apply H.
Qed.

Lemma smap_find_intro {A} k (m : smap A) x : NoDup m.*1 -> (k, x) ∈ m -> smap_find k m = Some x.
Proof.
  unfold smap_find. induction m as [|[j y] m IH]; intros Hnd Hin; [by apply elem_of_nil in Hin|]. cbn [fmap list_fmap List.find fst] in *.
  apply NoDup_cons in Hnd as [Hn Hnd]. apply elem_of_cons in Hin as [Hin|Hin].
  - injection Hin as <- <-. by rewrite bool_decide_eq_true_2.
  - rewrite bool_decide_eq_false_2; [by apply IH|]. intros ->. destruct Hn. apply list_elem_of_fmap. by exists (k, x).
Qed.

Lemma sorted_filter_keys {A} (P : Z * A -> Prop) `{!forall x, Decision (P x)} (m : smap A) :
  StronglySorted Z.lt m.*1 -> StronglySorted Z.lt (filter P m).*1.
Proof.
  induction m as [|[j y] m IH]; intros Hs; [constructor|]. apply StronglySorted_inv in Hs as [Hs Hj].
  rewrite filter_cons. destruct (decide (P (j, y))); [|by apply IH]. rewrite fmap_cons. constructor; [by apply IH|].
  rewrite Forall_forall in *. intros x Hx. apply Hj. apply list_elem_of_fmap in Hx as (e & -> & He).
  apply list_elem_of_filter in He as [_ He]. apply list_elem_of_fmap. by exists e.
Qed.

Lemma Init_ready vs plist p : versions_ok vs -> Forall (Z.le 0) plist ->
  RowProject_Init (RowProject_new vs plist) = Some (true, p) -> row_size_ok (rp_output_schema p) 0 ->
  ready vs plist (rp_output_schema p) p.
Proof.
  intros Hvs Hp HI Hok. pose proof (sorted_nodup _ (vo_sorted _ Hvs)) as Hnd. unfold RowProject_Init, RowProject_new in HI.
  cbn [rp_plist rp_max_idx rp_vers_schema rp_output_schema app] in HI. destruct plist as [|i0 plist0] eqn:Epl; [done|]. rewrite <- Epl in *.
  set (mx := foldl _ 0 plist) in HI. set (us := filter (fun e : Z * Schema => mx < schema_size e.2) vs) in HI.
  assert (Hus : forall sc, mx < schema_size sc <-> usable plist sc) by (intros; apply usable_max; [by subst|done]).
  destruct us as [|[k0 sc0] us'] eqn:Eus; [done|]. cbn [fmap list_fmap fst snd] in HI.
  destruct (smap_find k0 vs) as [sk|] eqn:Ek; [|done]. rewrite bind_some in HI.
  destruct (project_schema sk plist) as [out|] eqn:Eo; [|done]. rewrite bind_some in HI. injection HI as <-. cbn [rp_output_schema] in Hok |- *.
  assert (Hviews : forall k, smap_find k ((k0, RowView_new sc0) :: ((fun e : Z * Schema => (e.1, RowView_new e.2)) <$> us')) = RowView_new <$> smap_find k us).
  { intros k. rewrite Eus. change ((k0, RowView_new sc0) :: _) with ((fun e : Z * Schema => (e.1, RowView_new e.2)) <$> ((k0, sc0) :: us')).
    apply smap_find_fmap. }
  assert (Hfu : forall k sc, smap_find k us = Some sc -> smap_find k vs = Some sc /\ usable plist sc /\ row_size_ok sc 0).
  { intros k sc Hk. apply smap_find_elem in Hk. unfold us in Hk. apply list_elem_of_filter in Hk as [Hlt Hin]. cbn in Hlt. split; [|split].
    - by apply smap_find_intro.
    - by apply Hus.
    - pose proof (vo_sizes _ Hvs) as Hsz. rewrite Forall_forall in Hsz. by apply (Hsz (k, sc)). }
  assert (Hk0 : smap_find k0 us = Some sc0) by (rewrite Eus; unfold smap_find; simpl; by rewrite bool_decide_eq_true_2).
  split; cbn [rp_plist rp_output_schema rp_row_builder rp_cur_schema rp_cur_rv rp_vers_views rp_vers_schema rp_cur_ver].
  - done.
  - eexists. split; [done|]. by apply builder_for_new.
  - done.
  - intros k v. rewrite Hviews. destruct (smap_find k us) as [sc|] eqn:E; [|done]. intros [= <-].
    destruct (Hfu k sc E) as (H1 & H2 & H3). exists sc. split; [done|]. split; [done|by apply shape_new].
  - intros k sc Hk Hu. rewrite Hviews. unfold us. rewrite (smap_find_filter k _ vs sc) by done. rewrite decide_True by (cbn; by apply Hus). by eexists.
  - exists k0, sk. split; [done|]. split; [done|]. split; [done|]. split; [rewrite Hviews, Hk0; by eexists|].
    destruct (decide (k0 = 1)) as [->|Hne]; [by left|right]. rewrite Hviews. destruct (smap_find 1 us) as [sc1|] eqn:E1; [|done]. exfalso.
    apply smap_find_elem in E1, Hk0. pose proof (sorted_filter_keys (fun e : Z * Schema => mx < schema_size e.2) vs (vo_sorted _ Hvs)) as Hss.
    fold us in Hss. rewrite Eus, fmap_cons in Hss. apply StronglySorted_inv in Hss as [_ Hmin]. rewrite Forall_forall in Hmin.
    assert (Hk1 : 1 <= k0).
    { unfold us in Hk0. apply list_elem_of_filter in Hk0 as [_ Hk0]. pose proof (vo_from_1 _ Hvs) as H1. rewrite Forall_forall in H1.
      apply H1. apply list_elem_of_fmap. by exists (k0, sc0). }
    rewrite Eus in E1. apply elem_of_cons in E1 as [[= ? ?]|E1]; [lia|].
    specialize (Hmin 1). cbn [fst] in Hmin. assert (k0 < 1); [|lia]. apply Hmin. apply list_elem_of_fmap. by exists (1, sc1).
Qed.

Lemma select_spec vs plist out p ver sc : ready vs plist out p -> smap_find ver vs = Some sc -> usable plist sc ->
  exists p', select_version p ver = Some (true, p') /\ ready vs plist out p' /\ rp_cur_rv p' = Some ver /\ rp_cur_schema p' = Some sc /\ rp_cur_ver p' = ver.
Proof.
  intros Hr Hsc Hu. destruct (rd_all _ _ _ _ Hr ver sc Hsc Hu) as [v Hv]. unfold select_version. case_decide as E.
  - rewrite Hv, (rd_vs _ _ _ _ Hr), Hsc, bind_some. eexists. split; [done|]. split; [|done]. destruct Hr as [H1 H2 H3 H4 H5 H6].
    split; cbn [rp_plist rp_row_builder rp_cur_schema rp_cur_rv rp_vers_views rp_vers_schema rp_cur_ver]; try done.
    exists ver, sc. split; [done|]. split; [done|]. split; [done|]. split; [by eexists|by left].
  - exists p. split; [done|]. split; [done|]. destruct (rd_cur _ _ _ _ Hr) as (k & sk & Hk & Hsk & Hfk & _ & Hcur).
    assert (rp_cur_ver p = ver) as Hpv by (destruct (decide (rp_cur_ver p = ver)); [done|]; destruct E; congruence).
    destruct Hcur as [Hcur|Hcur]; [|rewrite Hpv, Hv in Hcur; done]. rewrite Hpv in Hcur. subst k. split; [done|]. split; [congruence|done].
Qed.

Lemma ready_next vs plist out p ver sc v row n b : ready vs plist out p -> smap_find ver vs = Some sc -> usable plist sc -> shape v sc -> builder_for b out ->
  ready vs plist out (set_builder b (set_view ver (attach v row n) p)).
Proof.
  intros [H1 H2 H3 H4 H5 H6] Hsc Hu Hv Hb.
  split; cbn [set_builder set_view rp_plist rp_row_builder rp_cur_schema rp_cur_rv rp_vers_views rp_vers_schema rp_cur_ver]; try done.
  - by exists b.
  - intros k w. rewrite smap_find_update. case_decide as E; [subst|by apply H4].
    destruct (smap_find ver (rp_vers_views p)); [|done]. intros [= <-]. exists sc. split; [done|]. split; [done|]. by destruct Hv; split.
  - intros k s Hk Hus. rewrite smap_find_update. destruct (H5 k s Hk Hus) as [w Hw]. rewrite Hw. case_decide; by eexists.
  - destruct H6 as (k & s & Hk & Hs & Hf & [w Hw] & Hcur). exists k, s. split; [done|]. split; [done|]. split; [done|].
    rewrite !smap_find_update, Hw. split; [case_decide; by eexists|]. destruct Hcur as [Hcur|Hcur]; [by left|right].
    rewrite Hcur. by case_decide.
Qed.

(** One call once the view has been chosen: the row's label [ver] plays no
    further part, the layout is that of the chosen version [k]. *)
Lemma Project_selected vs plist out p p1 fresh k ver sc N row xs ys :
  select_version p ver = Some (true, p1) -> ready vs plist out p1 -> rp_cur_rv p1 = Some k -> rp_cur_schema p1 = Some sc ->
  (forall n, length (fresh n) = n) -> smap_find k vs = Some sc -> usable plist sc -> sc <> [] -> row_fits sc N -> content sc ver N row xs -> full sc N xs -> is_byte ver ->
  picks sc xs plist out ys -> row_size_ok out (strlen ys) ->
  exists orow p' N', Project fresh p (Some row) N = Some (true, Some orow, p') /\ ready vs plist out p' /\ rp_cur_ver p' = rp_cur_ver p1 /\
    row_fits out N' /\ content out 1 N' orow ys /\ full out N' ys.
Proof.
  intros Hsel Hr1 Hrv Hcs Hfr Hsc Hu Hne Hfits Hct Hfull Hver Hp Hok. unfold Project, GetSchemaVersion.
  assert (load1 row 1 = Some ver) as ->.
  { pose proof (ct_ver _ _ _ _ _ Hct) as Hh. unfold holds in Hh. unfold load1, load_uint. change (length [ver]) with 1%nat in Hh.
    rewrite Hh, bind_some. simpl. f_equal. lia. }
  rewrite bind_some, Hsel, bind_some. cbn [negb].
  rewrite Hrv, bind_some. destruct (rd_all _ _ _ _ Hr1 k sc Hsc Hu) as [v0 Hv0]. rewrite Hv0, bind_some.
  destruct (rd_views _ _ _ _ Hr1 k v0 Hv0) as (sc' & Hsc' & _ & Hshape). assert (sc' = sc) as -> by congruence.
  destruct (Reset_spec sc ver N v0 row xs) as [-> Hview]; [done|done|apply Hshape..|]. rewrite bind_some. cbn [negb].
  destruct (rd_builder _ _ _ _ Hr1) as (b & Hb & Hbf). cbn [set_view rp_cur_schema rp_row_builder rp_plist]. rewrite Hcs, bind_some, Hb, bind_some.
  rewrite (rd_plist _ _ _ _ Hr1). pose proof (strlen_nonneg ys) as Hsl.
  destruct (CalTotalLength_spec out b (strlen ys)) as (Htot & Hfits' & Hnz & Hge); [apply Hbf..|done|done|].
  assert (Hlt32 : 0 + strlen ys < 2 ^ 32).
  { pose proof (rf_size out _ (row_fits := Hfits')). pose proof (layout_bounds out (CalTotalLength b (strlen ys))). lia. }
  rewrite (strings_size_spec sc ver N (attach v0 row N) row xs Hview Hct Hfull plist out ys 0 Hp) by (done || lia).
  rewrite bind_some, Z.add_0_l. set (N' := CalTotalLength b (strlen ys)) in *.
  pose proof (layout_bounds out N'). destruct (SetBuffer_spec out 1 N' (fresh (Z.to_nat N')) Hfits' Hnz Hge) with (r := b) as (b1 & -> & Hb1);
    [rewrite Hfr; lia|apply Hbf..|]. rewrite bind_some. cbn [require]. rewrite bind_some.
  destruct (copy_columns_spec sc ver N (attach v0 row N) row xs Hview Hct Hfull out N' Hfits' plist out ys b1 [] Hp Hb1) as (b2 & -> & Hb2);
    [done|simpl; lia|]. rewrite bind_some. cbn [app] in Hb2. destruct (bt_buf _ _ _ _ _ Hb2) as (orow & Hor & Hco). rewrite Hor.
  exists orow. eexists. exists N'. split; [done|]. split; [|split; [done|split; [done|split; [done|]]]].
  - eapply ready_next; [done..|]. destruct (bt_conf _ _ _ _ _ Hb2). by split; try done; apply (bt_ver _ _ _ _ _ Hb2).
  - split; [|done]. by eapply picks_accepts.
Qed.

(** A call on a row laid out and labelled as version [ver] *)
Lemma Project_spec vs plist out p fresh ver sc N row xs ys : ready vs plist out p -> (forall n, length (fresh n) = n) ->
  smap_find ver vs = Some sc -> usable plist sc -> sc <> [] -> row_fits sc N -> content sc ver N row xs -> full sc N xs -> is_byte ver ->
  picks sc xs plist out ys -> row_size_ok out (strlen ys) ->
  exists orow p' N', Project fresh p (Some row) N = Some (true, Some orow, p') /\ ready vs plist out p' /\ rp_cur_ver p' = ver /\
    row_fits out N' /\ content out 1 N' orow ys /\ full out N' ys.
Proof.
  intros Hr Hfr Hsc Hu Hne Hfits Hct Hfull Hver Hp Hok. destruct (select_spec vs plist out p ver sc Hr Hsc Hu) as (p1 & Hsel & Hr1 & Hrv & Hcs & Hcv).
  destruct (Project_selected vs plist out p p1 fresh ver ver sc N row xs ys) as (orow & p' & N' & HP & Hr' & Hv & Hrest); try done.
  exists orow, p', N'. split; [done|]. split; [done|]. split; [congruence|done].
Qed.

(** A call on a row whose label has no view and is not the current one *)
Lemma Project_refused fresh p row size ver : GetSchemaVersion row = Some ver -> ver <> rp_cur_ver p -> smap_find ver (rp_vers_views p) = None ->
  Project fresh p (Some row) size = Some (false, None, p).
Proof. intros Hv Hne Hnone. unfold Project. rewrite Hv, bind_some. unfold select_version. by rewrite decide_True, Hnone. Qed.

(** [Init] selects the first usable version and leaves [cur_ver_] at 1. *)
Lemma Init_first vs plist p : versions_ok vs -> Forall (Z.le 0) plist -> RowProject_Init (RowProject_new vs plist) = Some (true, p) ->
  rp_cur_ver p = 1 /\ exists k sc, rp_cur_rv p = Some k /\ rp_cur_schema p = Some sc /\ smap_find k vs = Some sc /\ usable plist sc /\
    forall j scj, smap_find j vs = Some scj -> usable plist scj -> k <= j.
Proof.
  intros Hvs Hp HI. unfold RowProject_Init, RowProject_new in HI. cbn [rp_plist rp_max_idx rp_vers_schema rp_output_schema app] in HI.
  destruct plist as [|i0 plist0] eqn:Epl; [done|]. rewrite <- Epl in *.
  set (mx := foldl _ 0 plist) in HI. set (us := filter (fun e : Z * Schema => mx < schema_size e.2) vs) in HI.
  assert (Hus : forall sc, mx < schema_size sc <-> usable plist sc) by (intros; apply usable_max; [by subst|done]).
  pose proof (sorted_filter_keys (fun e : Z * Schema => mx < schema_size e.2) vs (vo_sorted _ Hvs)) as Hss. fold us in Hss.
  assert (Hin : forall j scj, smap_find j vs = Some scj -> usable plist scj -> (j, scj) ∈ us).
  { intros j scj Hj Hu. apply list_elem_of_filter. split; [by apply Hus|by apply smap_find_elem]. }
  assert (Hout : forall e, e ∈ us -> usable plist e.2 /\ smap_find e.1 vs = Some e.2).
  { intros [j s] [Hu He]%list_elem_of_filter. split; [by apply Hus|]. apply smap_find_intro; [apply sorted_nodup, Hvs|done]. }
  destruct us as [|[k0 sc0] us']; [done|]. cbn [fmap list_fmap fst snd] in HI. destruct (Hout (k0, sc0)) as [Hu0 Hf0]; [left|]. cbn [fst snd] in *.
  rewrite Hf0, bind_some in HI. destruct (project_schema sc0 plist) as [out|]; [|done]. rewrite bind_some in HI. injection HI as <-.
  cbn [rp_cur_ver rp_cur_rv rp_cur_schema]. split; [done|]. exists k0, sc0. repeat (split; [done|]). intros j scj Hj Hu.
  apply (Hin j scj Hj) in Hu. rewrite fmap_cons in Hss. apply StronglySorted_inv in Hss as [_ Hmin]. rewrite Forall_forall in Hmin.
  apply elem_of_cons in Hu as [[= -> _]|Hu]; [done|]. apply Z.lt_le_incl, Hmin, list_elem_of_fmap. by exists (j, scj).
Qed.

(** Successive calls of [Project] on the same object *)
Fixpoint Project_all (fresh : nat -> bytes) (p : RowProject) (rows : list bytes) : option (list (bool * option bytes) * RowProject) :=
  match rows with
  | [] => Some ([], p)
  | row :: rows' =>
      '(ok, o, p) ← Project fresh p (Some row) (Z.of_nat (length row));
      '(outs, p) ← Project_all fresh p rows';
      Some ((ok, o) :: outs, p)
  end.

(** [row] was built from values [xs] under version [ver] of the schema, and [ys]
    are its projected values *)
Inductive source_row (vs : smap Schema) (plist : list Z) (out : Schema) (ys : list (option Value)) (row : bytes) : Prop :=
  | source_row_intro ver sc xs buf r :
      smap_find ver vs = Some sc -> is_byte ver -> usable plist sc -> Forall2 accepts sc xs -> row_size_ok sc (strlen xs) ->
      Z.of_nat (length buf) = CalTotalLength (RowBuilder_new sc) (strlen xs) ->
      build_row sc ver buf xs = Some (true, r) -> rb_buf r = Some row ->
      project_schema sc plist = Some out -> mapM (fun idx => xs !! Z.to_nat idx) plist = Some ys -> row_size_ok out (strlen ys) ->
      source_row vs plist out ys row.

(** [o] is the result of projecting a row onto values [ys]: success, and a row
    of schema [out] from which exactly these values are read *)
Definition projected (out : Schema) (ys : list (option Value)) (o : bool * option bytes) : Prop :=
  exists orow view, o = (true, Some orow) /\ RowView_of out (Some orow) (Z.of_nat (length orow)) = Some view /\
    forall j c x, out !! j = Some c -> ys !! j = Some x ->
      get_column view (Z.of_nat j) (data_type c) = Some (match x with None => (1, None) | Some w => (0, Some w) end).

Lemma content_projected out N ys orow : out <> [] -> row_fits out N -> content out 1 N orow ys -> full out N ys -> projected out ys (true, Some orow).
Proof.
  intros Hne Hf Hco Hfu. destruct (RowView_of_spec out 1 N orow ys) as (view & Hv & Hview); [done|done|].
  exists orow, view. split; [done|]. rewrite (ct_length _ _ _ _ _ Hco). split; [done|]. intros j c x Hc Hx. by eapply (get_column_spec out 1 N).
Qed.

Lemma Project_source fresh vs plist p out ys row : (forall n, length (fresh n) = n) -> Forall (Z.le 0) plist ->
  ready vs plist out p -> source_row vs plist out ys row ->
  exists o p', Project fresh p (Some row) (Z.of_nat (length row)) = Some (true, o, p') /\ ready vs plist out p' /\ projected out ys (true, o) /\
    exists sc, smap_find (rp_cur_ver p') vs = Some sc /\ usable plist sc.
Proof.
  intros Hfr Hp Hr [ver sc xs buf r Hsc Hver Hu Ha Hok Hl Hbuild Hrow Hout Hys Hok'].
  destruct (build_row_spec sc ver buf xs Ha Hok Hl) as (N & r' & row' & Hbuild' & _ & Hfits & Hfull & Hrow' & HN & Hct & _).
  assert (r' = r) as -> by congruence. assert (row' = row) as -> by congruence.
  destruct (Project_spec vs plist out p fresh ver sc N row xs ys) as (orow & p' & N' & HP & Hr' & Hcv & Hf' & Hco & Hfu'); try done; [apply Hok|].
  exists (Some orow), p'. rewrite <- HN. split; [done|]. split; [done|]. split; [|rewrite Hcv; by exists sc].
  eapply content_projected; [apply Hok'|done..].
Qed.

(** [row] is laid out by the schema [sc] but labelled with version [ver], and
    [ys] are its projected values *)
Inductive labelled_row (sc : Schema) (ver : Z) (plist : list Z) (out : Schema) (ys : list (option Value)) (row : bytes) : Prop :=
  | labelled_row_intro xs buf r :
      Forall2 accepts sc xs -> row_size_ok sc (strlen xs) -> Z.of_nat (length buf) = CalTotalLength (RowBuilder_new sc) (strlen xs) ->
      build_row sc ver buf xs = Some (true, r) -> rb_buf r = Some row ->
      project_schema sc plist = Some out -> mapM (fun idx => xs !! Z.to_nat idx) plist = Some ys -> row_size_ok out (strlen ys) ->
      labelled_row sc ver plist out ys row.

(** C21: projection.  After a successful [Init], any sequence of rows, each
    built under one of the schema versions that have all the projected columns
    (with the same definitions), is projected without failure or access outside
    a buffer; each output is a row of the output schema holding exactly the
    projected values, NULLs and strings included. *)
Theorem project_rows (fresh : nat -> bytes) (vs : smap Schema) (plist : list Z) (p : RowProject)
    (yss : list (list (option Value))) (rows : list bytes) :
  (forall n, length (fresh n) = n) -> versions_ok vs -> Forall (Z.le 0) plist ->
  RowProject_Init (RowProject_new vs plist) = Some (true, p) -> row_size_ok (rp_output_schema p) 0 ->
  Forall2 (source_row vs plist (rp_output_schema p)) yss rows ->
  exists outs p', Project_all fresh p rows = Some (outs, p') /\ Forall2 (projected (rp_output_schema p)) yss outs.
Proof.
  intros Hfr Hvs Hp HI Hok Hrows. pose proof (Init_ready vs plist p Hvs Hp HI Hok) as Hr. clear HI.
  revert Hr. generalize p at 2 3. induction Hrows as [|ys row yss rows Hrow Hrows IH]; intros q Hr.
  { exists [], q. by split; [|constructor]. }
  destruct (Project_source fresh vs plist q (rp_output_schema p) ys row Hfr Hp Hr Hrow) as (o & q1 & HP & Hq1 & Hproj & _).
  destruct (IH q1 Hq1) as (outs & q' & Hall & Houts). exists ((true, o) :: outs), q'. split; [|by constructor].
  cbn [Project_all]. by rewrite HP, bind_some, Hall, bind_some.
Qed.

(** C38: [cur_ver_] starts at 1 although [Init] selects the first usable
    version.  When version 1 lacks a projected column (or does not exist), let
    [k] be the smallest usable version.  Straight after [Init] a row labelled 1 is
    not refused, as a row of any other version without a view is, but read with
    the layout of version [k]: a row laid out by [k]'s schema and labelled 1 is
    projected onto its values.  Once a row of a usable version has been
    projected, every row labelled 1 is refused. *)
Theorem project_version_gap (fresh : nat -> bytes) (vs : smap Schema) (plist : list Z) (p : RowProject) :
  (forall n, length (fresh n) = n) -> versions_ok vs -> Forall (Z.le 0) plist ->
  RowProject_Init (RowProject_new vs plist) = Some (true, p) -> row_size_ok (rp_output_schema p) 0 ->
  (forall sc1, smap_find 1 vs = Some sc1 -> ~ usable plist sc1) ->
  exists k sc, 1 < k /\ smap_find k vs = Some sc /\ usable plist sc /\
    (forall j scj, smap_find j vs = Some scj -> usable plist scj -> k <= j) /\
    (forall ys row, labelled_row sc 1 plist (rp_output_schema p) ys row ->
       exists o p', Project fresh p (Some row) (Z.of_nat (length row)) = Some (true, o, p') /\ projected (rp_output_schema p) ys (true, o)) /\
    (forall row size ver, GetSchemaVersion row = Some ver -> ver <> 1 -> (forall scv, smap_find ver vs = Some scv -> ~ usable plist scv) ->
       Project fresh p (Some row) size = Some (false, None, p)) /\
    (forall ys row0 row size, source_row vs plist (rp_output_schema p) ys row0 -> GetSchemaVersion row = Some 1 ->
       exists o p', Project fresh p (Some row0) (Z.of_nat (length row0)) = Some (true, o, p') /\
         Project fresh p' (Some row) size = Some (false, None, p')).
Proof.
  intros Hfr Hvs Hp HI Hok Hno. pose proof (Init_ready vs plist p Hvs Hp HI Hok) as Hr.
  destruct (Init_first vs plist p Hvs Hp HI) as (Hcv & k & sc & Hrv & Hcs & Hsc & Hu & Hmin).
  assert (Hnone : forall q ver, ready vs plist (rp_output_schema p) q -> (forall scv, smap_find ver vs = Some scv -> ~ usable plist scv) -> smap_find ver (rp_vers_views q) = None).
  { intros q ver Hq Hv. destruct (smap_find ver (rp_vers_views q)) as [v|] eqn:E; [|done]. destruct (rd_views _ _ _ _ Hq ver v E) as (s & Hs & Hus & _). by destruct (Hv s). }
  exists k, sc. split.
  { pose proof (smap_find_elem _ _ _ Hsc) as Hin. pose proof (vo_from_1 _ Hvs) as H1. rewrite Forall_forall in H1.
    assert (1 <= k) by (apply H1, list_elem_of_fmap; by exists (k, sc)). destruct (decide (k = 1)) as [->|]; [by destruct (Hno sc)|lia]. }
  repeat (split; [done|]). split; [|split].
  - intros ys row [xs buf r Ha Hsz Hl Hbuild Hrow Hout Hys Hok'].
    destruct (build_row_spec sc 1 buf xs Ha Hsz Hl) as (N & r' & row' & Hbuild' & _ & Hfits & Hfull & Hrow' & HN & Hct & _).
    assert (r' = r) as -> by congruence. assert (row' = row) as -> by congruence.
    assert (Hsel : select_version p 1 = Some (true, p)) by (unfold select_version; by rewrite Hcv, decide_False by tauto).
    destruct (Project_selected vs plist (rp_output_schema p) p p fresh k 1 sc N row xs ys) as (orow & p' & N' & HP & _ & _ & Hf' & Hco & Hfu'); try done; [apply Hsz|].
    exists (Some orow), p'. rewrite <- HN. split; [done|]. eapply content_projected; [apply Hok'|done..].
  - intros row size ver Hver Hne Hv. apply (Project_refused _ _ _ _ ver); [done|by rewrite Hcv|by apply Hnone].
  - intros ys row0 row size Hsrc Hlab. destruct (Project_source fresh vs plist p _ ys row0 Hfr Hp Hr Hsrc) as (o & p' & HP & Hr' & _ & s & Hs & Hus).
    exists o, p'. split; [done|]. apply (Project_refused _ _ _ _ 1); [done| |by apply Hnone]. intros E. rewrite <- E in Hs. by destruct (Hno s).
Qed.

Definition v1_schema : Schema := [MkColumnDesc kInt false; MkColumnDesc kString false].
Definition v2_schema : Schema := [MkColumnDesc kInt false; MkColumnDesc kString false; MkColumnDesc kInt false].

Definition v1_row : list (option Value) := [Some (VInt 7); Some (VString [104; 105])].
Definition v2_row : list (option Value) := [None; Some (VString [33]); Some (VInt 9)].
Definition row_bytes (sc : Schema) (ver : Z) (n : nat) (xs : list (option Value)) : bytes :=
  match build_row sc ver (replicate n 0) xs with Some (true, r) => default [] (rb_buf r) | _ => [] end.

Lemma sample_versions_ok : versions_ok [(1, v1_schema); (2, v2_schema)].
Proof.
  split; simpl.
  - constructor; [|constructor; [lia|constructor]]. constructor; constructor.
  - constructor; [lia|]. constructor; [lia|constructor].
  - constructor; [|constructor; [|constructor]]; (split; [done|split; vm_compute; reflexivity]).
Qed.

Lemma project_rows_witness : exists p outs p',
  RowProject_Init (RowProject_new [(1, v1_schema); (2, v2_schema)] [1; 1]) = Some (true, p) /\
  Project_all (fun n => replicate n 0) p [row_bytes v1_schema 1 14 v1_row; row_bytes v2_schema 2 17 v2_row] = Some (outs, p') /\
  Forall2 (projected (rp_output_schema p))
    [[Some (VString [104; 105]); Some (VString [104; 105])]; [Some (VString [33]); Some (VString [33])]] outs.
Proof.
  assert (exists p, RowProject_Init (RowProject_new [(1, v1_schema); (2, v2_schema)] [1; 1]) = Some (true, p) /\
    rp_output_schema p = [MkColumnDesc kString false; MkColumnDesc kString false]) as (p & HI & Hout).
  { eexists. split; [vm_compute; reflexivity|reflexivity]. }
  destruct (project_rows (fun n => replicate n 0) [(1, v1_schema); (2, v2_schema)] [1; 1] p
    [[Some (VString [104; 105]); Some (VString [104; 105])]; [Some (VString [33]); Some (VString [33])]]
    [row_bytes v1_schema 1 14 v1_row; row_bytes v2_schema 2 17 v2_row]) as (outs & p' & H1 & H2).
  - intros n. apply length_replicate.
  - exact sample_versions_ok.
  - constructor; [lia|]. constructor; [lia|constructor].
  - exact HI.
  - rewrite Hout. split; [done|split; vm_compute; reflexivity].
  - rewrite Hout. constructor; [|constructor; [|constructor]].
    + eapply (source_row_intro _ _ _ _ _ 1 v1_schema v1_row (replicate 14 0)).
      * reflexivity.
      * unfold is_byte; lia.
      * constructor; [|constructor; [|constructor]]; unfold schema_size; simpl; lia.
      * repeat constructor; unfold accepts, typed, in_sint; simpl; lia.
      * split; [done|split; vm_compute; reflexivity].
      * reflexivity.
      * vm_compute; reflexivity.
      * vm_compute; reflexivity.
      * reflexivity.
      * reflexivity.
      * split; [done|split; vm_compute; reflexivity].
    + eapply (source_row_intro _ _ _ _ _ 2 v2_schema v2_row (replicate 17 0)).
      * reflexivity.
      * unfold is_byte; lia.
      * constructor; [|constructor; [|constructor]]; unfold schema_size; simpl; lia.
      * repeat constructor; unfold accepts, typed, in_sint; simpl; lia.
      * split; [done|split; vm_compute; reflexivity].
      * reflexivity.
      * vm_compute; reflexivity.
      * vm_compute; reflexivity.
      * reflexivity.
      * reflexivity.
      * split; [done|split; vm_compute; reflexivity].
  - exists p, outs, p'. split; [exact HI|]. split; [exact H1|exact H2].
Defined.

Lemma project_version_gap_witness : exists p o p',
  RowProject_Init (RowProject_new [(1, v1_schema); (2, v2_schema)] [1; 2]) = Some (true, p) /\
  Project (fun n => replicate n 0) p (Some (row_bytes v2_schema 1 17 v2_row)) 17 = Some (true, o, p') /\
  projected (rp_output_schema p) [Some (VString [33]); Some (VInt 9)] (true, o).
Proof.
  assert (exists p, RowProject_Init (RowProject_new [(1, v1_schema); (2, v2_schema)] [1; 2]) = Some (true, p) /\
    rp_output_schema p = [MkColumnDesc kString false; MkColumnDesc kInt false]) as (p & HI & Hout).
  { eexists. split; [vm_compute; reflexivity|reflexivity]. }
  destruct (project_version_gap (fun n => replicate n 0) [(1, v1_schema); (2, v2_schema)] [1; 2] p) as (k & sc & Hk & Hsc & Hu & Hmin & Hread & _).
  - intros n. apply length_replicate.
  - exact sample_versions_ok.
  - constructor; [lia|]. constructor; [lia|constructor].
  - exact HI.
  - rewrite Hout. split; [done|split; vm_compute; reflexivity].
  - intros sc1 Hs. injection Hs as <-. intros Hu. apply Forall_cons in Hu as [_ Hu]. apply Forall_cons in Hu as [Hu _]. revert Hu. unfold schema_size. simpl. lia.
  - assert (E : k = 2). { assert (k <= 2); [|lia]. apply (Hmin 2 v2_schema eq_refl). constructor; [|constructor; [|constructor]]; unfold schema_size; simpl; lia. }
    subst k. injection Hsc as <-. destruct (Hread [Some (VString [33]); Some (VInt 9)] (row_bytes v2_schema 1 17 v2_row)) as (o & p' & H1 & H2).
    + rewrite Hout. eapply (labelled_row_intro _ _ _ _ _ _ v2_row (replicate 17 0)).
      * repeat constructor; unfold accepts, typed, in_sint; simpl; lia.
      * split; [done|split; vm_compute; reflexivity].
      * reflexivity.
      * vm_compute; reflexivity.
      * vm_compute; reflexivity.
      * reflexivity.
      * reflexivity.
      * split; [done|split; vm_compute; reflexivity].
    + exists p, o, p'. split; [exact HI|]. split; [exact H1|exact H2].
Defined.
