(* ===== verification/Coding.v ===== *)
(** Fixed-width integer encoding (log/coding.h) and the CRC-32C checksum
    (log/crc32c.h, log/crc32c.cc).  The theorems show that the encodings are
    inverse to each other in both byte orders, that the sliced table-driven
    [Extend] computes the bitwise CRC-32C whatever the alignment of its input,
    that it can be computed piecewise, and that [Unmask] inverts [Mask]. *)
From S2P Require Import Prelude CrcTables.

(** ** log/coding.h

    [little] is [fedb::base::kLittleEndian]; on a little-endian host the
    [memcpy] stores the bytes least significant first. *)
Definition EncodeFixed32 (little : bool) (value : Z) : bytes :=
  if little then le_bytes 4 value
  else [Z.land value 255; Z.land (Z.shiftr value 8) 255; Z.land (Z.shiftr value 16) 255;
        Z.land (Z.shiftr value 24) 255].

Definition EncodeFixed64 (little : bool) (value : Z) : bytes :=
  if little then le_bytes 8 value
  else [Z.land value 255; Z.land (Z.shiftr value 8) 255; Z.land (Z.shiftr value 16) 255;
        Z.land (Z.shiftr value 24) 255; Z.land (Z.shiftr value 32) 255; Z.land (Z.shiftr value 40) 255;
        Z.land (Z.shiftr value 48) 255; Z.land (Z.shiftr value 56) 255].

Definition DecodeFixed32 (little : bool) (ptr : bytes) : option Z :=
  match ptr with
  | b0 :: b1 :: b2 :: b3 :: _ =>
      Some (if little then le_val [b0; b1; b2; b3]
            else Z.lor (Z.lor (Z.lor b0 (u32 (Z.shiftl b1 8))) (u32 (Z.shiftl b2 16))) (u32 (Z.shiftl b3 24)))
  | _ => None
  end.

Definition DecodeFixed64 (little : bool) (ptr : bytes) : option Z :=
  if little then
    _ ← require (bool_decide (8 <= length ptr)%nat);
    Some (le_val (take 8 ptr))
  else
    lo ← DecodeFixed32 little ptr;
    hi ← DecodeFixed32 little (drop 4 ptr);
    Some (Z.lor (u64 (Z.shiftl hi 32)) lo).

(** ** log/crc32c.cc *)

(** [LE_LOAD32] on a little-endian host *)
Definition LE_LOAD32 (p : bytes) : option Z := DecodeFixed32 true p.

(** The macros [STEP1] and [STEP4]: the state [l] and the rest of the input *)
Definition STEP1 (st : Z * bytes) : option (Z * bytes) :=
  let '(l, p) := st in
  match p with
  | [] => None
  | b :: p' =>
      let c := Z.lxor (Z.land l 255) b in
      t ← table0_ !! Z.to_nat c;
      Some (Z.lxor t (Z.shiftr l 8), p')
  end.

Definition STEP4 (st : Z * bytes) : option (Z * bytes) :=
  let '(l, p) := st in
  w ← LE_LOAD32 p;
  let c := Z.lxor l w in
  t3 ← table3_ !! Z.to_nat (Z.land c 255);
  t2 ← table2_ !! Z.to_nat (Z.land (Z.shiftr c 8) 255);
  t1 ← table1_ !! Z.to_nat (Z.land (Z.shiftr c 16) 255);
  t0 ← table0_ !! Z.to_nat (Z.shiftr c 24);
  Some (Z.lxor (Z.lxor (Z.lxor t3 t2) t1) t0, drop 4 p).

Fixpoint repeat_step (step : Z * bytes -> option (Z * bytes)) (n : nat) (st : Z * bytes) : option (Z * bytes) :=
  match n with
  | O => Some st
  | S n' => st' ← step st; repeat_step step n' st'
  end.

(** The two block loops: [while ((e - p) >= 16)] and [while ((e - p) >= 4)] *)
Fixpoint loop16 (fuel : nat) (st : Z * bytes) : option (Z * bytes) :=
  if decide (16 <= length st.2)%nat then
    match fuel with
    | O => None
    | S fuel' => st' ← repeat_step STEP4 4 st; loop16 fuel' st'
    end
  else Some st.
Fixpoint loop4 (fuel : nat) (st : Z * bytes) : option (Z * bytes) :=
  if decide (4 <= length st.2)%nat then
    match fuel with
    | O => None
    | S fuel' => st' ← STEP4 st; loop4 fuel' st'
    end
  else Some st.

(** [Extend]; [pval] is the address of the input. *)
Definition Extend (pval crc : Z) (buf : bytes) : option Z :=
  let size := length buf in
  let l := Z.lxor crc 0xffffffff in
  let x := Z.shiftl (Z.shiftr (pval + 3) 2) 2 in
  st ← (if decide (x <= pval + Z.of_nat size) then repeat_step STEP1 (Z.to_nat (x - pval)) (l, buf)
        else Some (l, buf));
  st ← loop16 size st;
  st ← loop4 size st;
  st ← repeat_step STEP1 (length st.2) st;
  Some (Z.lxor st.1 0xffffffff).

(** ** log/crc32c.h *)
Definition Value (pval : Z) (data : bytes) : option Z := Extend pval 0 data.
Definition kMaskDelta : Z := 0xa282ead8.
Definition Mask (crc : Z) : Z := u32 (Z.lor (Z.shiftr crc 15) (u32 (Z.shiftl crc 17)) + kMaskDelta).
Definition Unmask (masked_crc : Z) : Z :=
  let rot := u32 (masked_crc - kMaskDelta) in
  Z.lor (Z.shiftr rot 17) (u32 (Z.shiftl rot 15)).

(** ** The reference: CRC-32C one bit at a time, reflected polynomial
    0x82f63b78 *)
Definition crc_bit (x : Z) : Z := Z.lxor (Z.shiftr x 1) (if Z.testbit x 0 then 0x82f63b78 else 0).
Definition crc_bits (n : nat) (x : Z) : Z := Nat.iter n crc_bit x.
Definition crc_byte (l b : Z) : Z := crc_bits 8 (Z.lxor l b).
Definition crc32c (crc : Z) (data : bytes) : Z :=
  Z.lxor (foldl crc_byte (Z.lxor crc 0xffffffff) data) 0xffffffff.

(** ** The encodings *)

Lemma land_255 x : Z.land x 255 = x `mod` 256.
Proof. change 255 with (Z.ones 8). by rewrite Z.land_ones by lia. Qed.

Lemma shiftr_byte x k : 0 <= k -> Z.shiftr x (8 + k) = Z.shiftr (x `div` 256) k.
Proof. intros Hk. rewrite !Z.shiftr_div_pow2, Z.pow_add_r by lia. by rewrite Z.div_div by lia. Qed.

(** The byte-by-byte stores of the portable branches *)
Fixpoint shifted_bytes (n : nat) (k x : Z) : bytes :=
  match n with
  | O => []
  | S n' => Z.land (Z.shiftr x k) 255 :: shifted_bytes n' (k + 8) x
  end.

Lemma shifted_le_bytes n k x : 0 <= k -> shifted_bytes n k x = le_bytes n (Z.shiftr x k).
Proof.
  revert k; induction n as [|n IH]; intros k Hk; [done|]. cbn [shifted_bytes le_bytes].
  rewrite land_255, IH by lia. do 2 f_equal. rewrite !Z.shiftr_div_pow2, Z.pow_add_r by lia.
  rewrite Z.div_div by lia. done.
Qed.

Lemma EncodeFixed32_le little v : EncodeFixed32 little v = le_bytes 4 v.
Proof. destruct little; [done|]. apply (shifted_le_bytes 4 0 v). lia. Qed.
Lemma EncodeFixed64_le little v : EncodeFixed64 little v = le_bytes 8 v.
Proof. destruct little; [done|]. apply (shifted_le_bytes 8 0 v). lia. Qed.

Lemma shiftl_byte_id w b k : is_byte b -> 0 <= k -> k + 8 <= w -> uwrap w (Z.shiftl b k) = Z.shiftl b k.
Proof.
  intros Hb Hk Hw. apply uwrap_id. unfold in_uint, is_byte in *. rewrite Z.shiftl_mul_pow2 by lia.
  assert (0 < 2 ^ k) by (apply Z.pow_pos_nonneg; lia).
  pose proof (Z.pow_le_mono_r 2 (k + 8) w ltac:(lia) Hw) as Hp. rewrite Z.pow_add_r in Hp by lia. change (2 ^ 8) with 256 in Hp. nia.
Qed.

Lemma DecodeFixed32_le little bs rest : length bs = 4%nat -> all_bytes bs ->
  DecodeFixed32 little (bs ++ rest) = Some (le_val bs).
Proof.
  intros Hl Hb. destruct bs as [|b0 [|b1 [|b2 [|b3 []]]]]; try done. destruct little; [done|]. cbn [app DecodeFixed32]. f_equal.
  repeat (apply Forall_cons in Hb as [? Hb]). rewrite !shiftl_byte_id by (done || lia). unfold is_byte in *.
  rewrite (Z.lor_comm b0), (lor_shiftl b1 b0 8) by lia. rewrite Z.lor_comm, (Z.lor_comm (b1 * _ + b0)).
  rewrite (lor_shiftl b2 (b1 * 2 ^ 8 + b0) 16) by lia. rewrite (lor_shiftl b3 _ 24) by lia. cbn [le_val]. lia.
Qed.

Lemma DecodeFixed64_le little bs rest : length bs = 8%nat -> all_bytes bs ->
  DecodeFixed64 little (bs ++ rest) = Some (le_val bs).
Proof.
  intros Hl Hb. unfold DecodeFixed64. destruct little.
  - rewrite length_app, Hl. rewrite bool_decide_eq_true_2 by lia. cbn. by rewrite take_app_length' by done.
  - assert (exists lo hi, bs = lo ++ hi /\ length lo = 4%nat /\ length hi = 4%nat) as (lo & hi & -> & Hlo & Hhi).
    { exists (take 4 bs), (drop 4 bs). rewrite take_drop, length_take, length_drop. split; [done|lia]. }
    apply Forall_app in Hb as [Hblo Hbhi]. rewrite <- app_assoc, DecodeFixed32_le by done. cbn [mbind option_bind].
    rewrite drop_app_length' by done. rewrite DecodeFixed32_le by done. cbn [mbind option_bind]. f_equal.
    pose proof (le_val_range lo Hblo) as Rlo. pose proof (le_val_range hi Hbhi) as Rhi. rewrite Hlo in Rlo. rewrite Hhi in Rhi.
    rewrite uwrap_id by (unfold in_uint; rewrite Z.shiftl_mul_pow2 by lia; lia).
    rewrite lor_shiftl by lia. rewrite le_val_app, Hlo. simpl. lia.
Qed.

(** in either byte order the fixed-width encodings store the value least
    significant byte first, and decoding, at any position of a longer buffer,
    returns it. *)
Theorem fixed_roundtrip (little little' : bool) (v w : Z) (rest : bytes) :
  in_uint 32 v -> in_uint 64 w ->
  DecodeFixed32 little' (EncodeFixed32 little v ++ rest) = Some v /\
  DecodeFixed64 little' (EncodeFixed64 little w ++ rest) = Some w.
Proof.
  intros Hv Hw. rewrite EncodeFixed32_le, EncodeFixed64_le.
  rewrite DecodeFixed32_le, DecodeFixed64_le by (apply length_le_bytes || apply le_bytes_all).
  rewrite !le_val_bytes. split; f_equal; by apply Z.mod_small.
Qed.

(** ** CRC-32C *)

Lemma crc_bit_lxor x y : crc_bit (Z.lxor x y) = Z.lxor (crc_bit x) (crc_bit y).
Proof.
  unfold crc_bit. rewrite Z.shiftr_lxor, Z.lxor_spec. set (p := 0x82f63b78). apply Z.bits_inj'. intros i Hi.
  rewrite !Z.lxor_spec. destruct (Z.testbit x 0), (Z.testbit y 0); simpl; rewrite ?Z.bits_0;
    destruct (Z.testbit (Z.shiftr x 1) i), (Z.testbit (Z.shiftr y 1) i), (Z.testbit p i); done.
Qed.

Lemma crc_bits_S n x : crc_bits (S n) x = crc_bits n (crc_bit x).
Proof. unfold crc_bits. by rewrite Nat.iter_succ_r. Qed.

Lemma crc_bits_add n m x : crc_bits (n + m) x = crc_bits n (crc_bits m x).
Proof. unfold crc_bits. by rewrite Nat.iter_add. Qed.

Lemma crc_bits_lxor n x y : crc_bits n (Z.lxor x y) = Z.lxor (crc_bits n x) (crc_bits n y).
Proof. revert x y; induction n as [|n IH]; intros x y; [done|]. by rewrite !crc_bits_S, crc_bit_lxor, IH. Qed.

(** Bits that are not shifted out are only shifted. *)
Lemma crc_bits_shiftl n x : crc_bits n (Z.shiftl x (Z.of_nat n)) = x.
Proof.
  revert x; induction n as [|n IH]; intros x; [apply Z.shiftl_0_r|]. rewrite crc_bits_S.
  assert (crc_bit (Z.shiftl x (Z.of_nat (S n))) = Z.shiftl x (Z.of_nat n)) as ->; [|apply IH].
  unfold crc_bit. rewrite Z.shiftl_spec_low by lia. rewrite Z.lxor_0_r, Z.shiftr_shiftl_l by lia. f_equal. lia.
Qed.

Lemma crc_bit_range x : in_uint 32 x -> in_uint 32 (crc_bit x).
Proof.
  unfold in_uint, crc_bit. intros Hx. apply lxor_range; [lia| |destruct (Z.testbit x 0); lia].
  pose proof (shiftr_range 32 1 x ltac:(lia) Hx). pose proof (Z.pow_le_mono_r 2 (32 - 1) 32). lia.
Qed.

Lemma crc_bits_range n x : in_uint 32 x -> in_uint 32 (crc_bits n x).
Proof. revert x; induction n as [|n IH]; intros x Hx; [done|]. rewrite crc_bits_S. by apply IH, crc_bit_range. Qed.

(** A word is its low [8 * k] bits and the rest. *)
Lemma split_low x k : 0 <= k -> x = Z.lxor (Z.land x (Z.ones k)) (Z.shiftl (Z.shiftr x k) k).
Proof.
  intros Hk. apply Z.bits_inj'. intros i Hi. rewrite Z.lxor_spec, Z.land_spec, Z.shiftl_spec by lia.
  destruct (decide (i < k)).
  - rewrite Z.ones_spec_low, (Z.testbit_neg_r _ (i - k)) by lia. by rewrite andb_true_r, xorb_false_r.
  - rewrite Z.ones_spec_high, Z.shiftr_spec by lia. rewrite andb_false_r, xorb_false_l. f_equal. lia.
Qed.

(** The tables hold the effect of 8, 16, 24 and 32 bit steps on a byte. *)
Definition table_ok (t : list Z) (n : nat) : bool :=
  bool_decide (t = (fun b => crc_bits n (Z.of_nat b)) <$> seq 0 256).

Lemma table_lookup t n b : table_ok t n = true -> is_byte b -> t !! Z.to_nat b = Some (crc_bits n b).
Proof.
  intros Ht%bool_decide_eq_true Hb. unfold is_byte in Hb. rewrite Ht, list_lookup_fmap, lookup_seq_lt by lia.
  simpl. by rewrite Z2Nat.id by lia.
Qed.

Lemma table0_ok : table_ok table0_ 8 = true.
Proof. by vm_compute. Qed.
Lemma table1_ok : table_ok table1_ 16 = true.
Proof. by vm_compute. Qed.
Lemma table2_ok : table_ok table2_ 24 = true.
Proof. by vm_compute. Qed.
Lemma table3_ok : table_ok table3_ 32 = true.
Proof. by vm_compute. Qed.

Lemma byte_land x : is_byte (Z.land x 255).
Proof. rewrite land_255. unfold is_byte. apply Z.mod_pos_bound. lia. Qed.

Lemma land_255_lxor x b : is_byte b -> Z.land (Z.lxor x b) 255 = Z.lxor (Z.land x 255) b.
Proof.
  intros Hb. apply Z.bits_inj'. intros i Hi. change 255 with (Z.ones 8). rewrite Z.land_spec, !Z.lxor_spec, Z.land_spec.
  destruct (decide (i < 8)); [by rewrite Z.ones_spec_low, !andb_true_r by lia|].
  rewrite Z.ones_spec_high, !andb_false_r by lia. by rewrite (testbit_high 8 b) by (unfold is_byte in Hb; lia).
Qed.

Lemma shiftr_8_lxor x b : is_byte b -> Z.shiftr (Z.lxor x b) 8 = Z.shiftr x 8.
Proof.
  intros Hb. unfold is_byte in Hb. rewrite Z.shiftr_lxor, (Z.shiftr_div_pow2 b) by lia. rewrite Z.div_small by lia.
  apply Z.lxor_0_r.
Qed.

Lemma crc_bits_8 x : crc_bits 8 x = Z.lxor (crc_bits 8 (Z.land x 255)) (Z.shiftr x 8).
Proof.
  rewrite (split_low x 8) at 1 by lia. change (Z.ones 8) with 255. rewrite crc_bits_lxor.
  f_equal. apply (crc_bits_shiftl 8).
Qed.

Lemma STEP1_spec l b p : is_byte b -> STEP1 (l, b :: p) = Some (crc_byte l b, p).
Proof.
  intros Hb. unfold STEP1. rewrite <- land_255_lxor by done.
  rewrite (table_lookup table0_ 8) by (apply table0_ok || apply byte_land). cbn [mbind option_bind].
  unfold crc_byte. by rewrite (crc_bits_8 (Z.lxor l b)), shiftr_8_lxor by done.
Qed.

Lemma crc_byte_bits n x b : crc_byte (crc_bits n x) b = crc_bits (8 + n) (Z.lxor x (Z.shiftl b (Z.of_nat n))).
Proof. unfold crc_byte. rewrite crc_bits_add. by rewrite (crc_bits_lxor n), crc_bits_shiftl. Qed.

Lemma crc_bits_split n x :
  crc_bits (n + 8) x = Z.lxor (crc_bits (n + 8) (Z.land x 255)) (crc_bits n (Z.shiftr x 8)).
Proof. by rewrite !crc_bits_add, (crc_bits_8 x), crc_bits_lxor. Qed.

Lemma le_val_lxor b bs : is_byte b -> le_val (b :: bs) = Z.lxor b (Z.shiftl (le_val bs) 8).
Proof.
  intros Hb. unfold is_byte in Hb. rewrite Z.lxor_comm, <- Z.add_nocarry_lxor by (apply land_shiftl_low; lia).
  rewrite Z.shiftl_mul_pow2 by lia. cbn [le_val]. lia.
Qed.

Lemma STEP4_spec l b0 b1 b2 b3 p : in_uint 32 l -> all_bytes [b0; b1; b2; b3] ->
  STEP4 (l, b0 :: b1 :: b2 :: b3 :: p) = Some (foldl crc_byte l [b0; b1; b2; b3], p).
Proof.
  intros Hl Hb. pose proof (le_val_range _ Hb) as Hw. repeat (apply Forall_cons in Hb as [? Hb]).
  unfold STEP4, LE_LOAD32. cbn [DecodeFixed32 mbind option_bind]. set (c := Z.lxor l (le_val [b0; b1; b2; b3])).
  assert (Hc : in_uint 32 c) by (apply lxor_range; [lia|done|done]).
  assert (is_byte (Z.shiftr c 24)) as Hc3 by (apply (shiftr_range 32 24 c); [lia|done]).
  rewrite (table_lookup table3_ 32) by (apply table3_ok || apply byte_land). cbn [mbind option_bind].
  rewrite (table_lookup table2_ 24) by (apply table2_ok || apply byte_land). cbn [mbind option_bind].
  rewrite (table_lookup table1_ 16) by (apply table1_ok || apply byte_land). cbn [mbind option_bind].
  rewrite (table_lookup table0_ 8) by (apply table0_ok || done). cbn [mbind option_bind drop foldl]. do 2 f_equal.
  change (crc_byte l b0) with (crc_byte (crc_bits 0 l) b0). rewrite !crc_byte_bits. cbn [Init.Nat.add].
  transitivity (crc_bits 32 c).
  - pose proof (crc_bits_split 24 c) as E1. pose proof (crc_bits_split 16 (Z.shiftr c 8)) as E2.
    pose proof (crc_bits_split 8 (Z.shiftr c 16)) as E3. cbn [Init.Nat.add] in E1, E2, E3.
    rewrite E1, E2, !Z.shiftr_shiftr by lia. change (8 + 8) with 16. rewrite E3, !Z.shiftr_shiftr by lia.
    by rewrite !Z.lxor_assoc.
  - f_equal. unfold c. rewrite !le_val_lxor by done. rewrite !Z.shiftl_lxor, !Z.shiftl_shiftl by lia.
    cbn [le_val]. rewrite Z.shiftl_0_l, Z.lxor_0_r, Z.shiftl_0_r. by rewrite !Z.lxor_assoc.
Qed.

Lemma crc_byte_range l b : in_uint 32 l -> is_byte b -> in_uint 32 (crc_byte l b).
Proof.
  intros Hl Hb. apply crc_bits_range, lxor_range; [lia|done|]. unfold is_byte in Hb. lia.
Qed.

Lemma foldl_crc_range bs : forall l, in_uint 32 l -> all_bytes bs -> in_uint 32 (foldl crc_byte l bs).
Proof.
  induction bs as [|b bs IH]; intros l Hl Hb; [done|]. apply Forall_cons in Hb as [? ?]. apply IH; [|done].
  by apply crc_byte_range.
Qed.

(** [consumes st st']: [st'] is [st] after reading some of its input. *)
Definition consumes (st st' : Z * bytes) : Prop :=
  exists used, st.2 = used ++ st'.2 /\ st'.1 = foldl crc_byte st.1 used.

Lemma consumes_trans a b c : consumes a b -> consumes b c -> consumes a c.
Proof.
  intros (u & Hu & Hf) (v & Hv & Hg). exists (u ++ v). rewrite foldl_app, <- Hf, <- app_assoc, <- Hv. done.
Qed.

Lemma consumes_ok st st' : consumes st st' -> in_uint 32 st.1 -> all_bytes st.2 ->
  in_uint 32 st'.1 /\ all_bytes st'.2 /\ (length st'.2 <= length st.2)%nat.
Proof.
  intros (u & Hu & Hf) Hl Hb. rewrite Hu in Hb. apply Forall_app in Hb as [Hbu Hb]. rewrite Hf, Hu, length_app.
  split; [by apply foldl_crc_range|]. split; [done|lia].
Qed.

Lemma repeat_STEP1 n : forall st, (n <= length st.2)%nat -> all_bytes st.2 ->
  exists st', repeat_step STEP1 n st = Some st' /\ consumes st st' /\ length st'.2 = (length st.2 - n)%nat.
Proof.
  induction n as [|n IH]; intros [l p] Hn Hb; cbn [repeat_step].
  - exists (l, p). split; [done|]. split; [by exists []|simpl; lia].
  - destruct p as [|b p]; [simpl in Hn; lia|]. apply Forall_cons in Hb as [Hb0 Hb]. rewrite STEP1_spec by done.
    cbn [mbind option_bind]. destruct (IH (crc_byte l b, p)) as (st' & -> & Hc & Hl); [simpl in *; lia|done|].
    exists st'. split; [done|]. split; [|simpl in *; lia]. eapply consumes_trans; [|done]. exists [b]. cbn [fst snd foldl app]. done.
Qed.

Lemma STEP4_consumes st : in_uint 32 st.1 -> all_bytes st.2 -> (4 <= length st.2)%nat ->
  exists st', STEP4 st = Some st' /\ consumes st st' /\ length st.2 = (4 + length st'.2)%nat.
Proof.
  destruct st as [l [|b0 [|b1 [|b2 [|b3 p]]]]]; intros Hl Hb Hn; simpl in Hn; try lia.
  pose proof Hb as [Hb4 _]%(Forall_app _ [b0; b1; b2; b3] p). rewrite STEP4_spec by done.
  eexists. split; [done|]. split; [by exists [b0; b1; b2; b3]|done].
Qed.

Lemma loop4_spec fuel : forall st, in_uint 32 st.1 -> all_bytes st.2 -> (length st.2 <= fuel)%nat ->
  exists st', loop4 fuel st = Some st' /\ consumes st st'.
Proof.
  induction fuel as [|fuel IH]; intros st Hl Hb Hf; cbn [loop4]; case_decide as E; try lia;
    try (exists st; split; [done|by exists []]).
  destruct (STEP4_consumes st Hl Hb E) as (st1 & -> & Hc & Hlen). cbn [mbind option_bind].
  destruct (consumes_ok _ _ Hc Hl Hb) as (? & ? & ?). destruct (IH st1) as (st' & -> & Hc'); [done|done|lia|].
  exists st'. split; [done|]. by eapply consumes_trans.
Qed.

Lemma repeat_STEP4 n : forall st, in_uint 32 st.1 -> all_bytes st.2 -> (4 * n <= length st.2)%nat ->
  exists st', repeat_step STEP4 n st = Some st' /\ consumes st st' /\ length st.2 = (4 * n + length st'.2)%nat.
Proof.
  induction n as [|n IH]; intros st Hl Hb Hn; cbn [repeat_step].
  - exists st. split; [done|]. split; [by exists []|lia].
  - destruct (STEP4_consumes st Hl Hb ltac:(lia)) as (st1 & -> & Hc & Hlen). cbn [mbind option_bind].
    destruct (consumes_ok _ _ Hc Hl Hb) as (? & ? & ?). destruct (IH st1) as (st' & -> & Hc' & Hl'); [done|done|lia|].
    exists st'. split; [done|]. split; [by eapply consumes_trans|lia].
Qed.

Lemma loop16_spec fuel : forall st, in_uint 32 st.1 -> all_bytes st.2 -> (length st.2 <= fuel)%nat ->
  exists st', loop16 fuel st = Some st' /\ consumes st st'.
Proof.
  induction fuel as [|fuel IH]; intros st Hl Hb Hf; cbn [loop16]; case_decide as E; try lia;
    try (exists st; split; [done|by exists []]).
  destruct (repeat_STEP4 4 st Hl Hb ltac:(lia)) as (st1 & -> & Hc & Hlen). cbn [mbind option_bind].
  destruct (consumes_ok _ _ Hc Hl Hb) as (? & ? & ?). destruct (IH st1) as (st' & -> & Hc'); [done|done|lia|].
  exists st'. split; [done|]. by eapply consumes_trans.
Qed.

Lemma Extend_crc32c pval crc buf : 0 <= pval -> in_uint 32 crc -> all_bytes buf ->
  Extend pval crc buf = Some (crc32c crc buf).
Proof.
  intros Hp Hcrc Hb. unfold Extend. cbv zeta. set (l := Z.lxor crc 0xffffffff). set (x := Z.shiftl _ 2).
  assert (Hx : pval <= x).
  { unfold x. rewrite Z.shiftl_mul_pow2, Z.shiftr_div_pow2 by lia. change (2 ^ 2) with 4.
    pose proof (Z.div_mod (pval + 3) 4 ltac:(lia)). pose proof (Z.mod_pos_bound (pval + 3) 4 ltac:(lia)). lia. }
  assert (Hl : in_uint 32 l) by (apply lxor_range; [lia|done|lia]).
  assert (exists st, (if decide (x <= pval + Z.of_nat (length buf))
      then repeat_step STEP1 (Z.to_nat (x - pval)) (l, buf) else Some (l, buf)) = Some st /\ consumes (l, buf) st)
    as (st1 & -> & Hc1).
  { case_decide; [|exists (l, buf); split; [done|by exists []]].
    destruct (repeat_STEP1 (Z.to_nat (x - pval)) (l, buf)) as (st & ? & ? & _); [simpl; lia|done|]. by exists st. }
  cbn [mbind option_bind]. destruct (consumes_ok _ _ Hc1 Hl Hb) as (? & ? & ?).
  destruct (loop16_spec (length buf) st1) as (st2 & -> & Hc2); [done|done|done|]. cbn [mbind option_bind].
  destruct (consumes_ok _ _ Hc2) as (? & ? & ?); [done|done|].
  destruct (loop4_spec (length buf) st2) as (st3 & -> & Hc3); [done|done|simpl in *; lia|]. cbn [mbind option_bind].
  destruct (consumes_ok _ _ Hc3) as (? & ? & ?); [done|done|].
  destruct (repeat_STEP1 (length st3.2) st3) as (st4 & -> & Hc4 & Hl4); [done|done|]. cbn [mbind option_bind]. f_equal.
  destruct (consumes_trans _ _ _ (consumes_trans _ _ _ (consumes_trans _ _ _ Hc1 Hc2) Hc3) Hc4) as (u & Hu & Hf).
  unfold crc32c. f_equal. rewrite Hf. simpl. rewrite Nat.sub_diag in Hl4. apply length_zero_iff_nil in Hl4.
  rewrite Hl4, app_nil_r in Hu. simpl in Hu. by rewrite Hu.
Qed.

(** C24: [Extend], which works through four tables four bytes at a time after
    aligning its input, computes the bitwise CRC-32C for every buffer at every
    address, so the checksum of a stream does not depend on how it is laid out
    or cut: extending the checksum of [a] by [b] is the checksum of [a ++ b]. *)
Theorem Extend_correct (pval pval' pval'' crc : Z) (a b : bytes) :
  0 <= pval -> 0 <= pval' -> 0 <= pval'' -> in_uint 32 crc -> all_bytes a -> all_bytes b ->
  Extend pval crc a = Some (crc32c crc a) /\
  (ca ← Extend pval crc a; Extend pval' ca b) = Extend pval'' crc (a ++ b).
Proof.
  intros Hp Hp' Hp'' Hc Ha Hb. rewrite !Extend_crc32c by (done || by apply Forall_app). split; [done|].
  cbn [mbind option_bind]. assert (Hl : in_uint 32 (Z.lxor crc 0xffffffff)) by (apply lxor_range; [lia|done|lia]).
  rewrite Extend_crc32c; [|done| |done].
  - unfold crc32c. rewrite foldl_app, Z.lxor_assoc, Z.lxor_nilpotent, Z.lxor_0_r. done.
  - apply lxor_range; [lia|by apply foldl_crc_range|lia].
Qed.

Lemma Mask_range crc : in_uint 32 (Mask crc).
Proof. apply uwrap_range. lia. Qed.

Lemma Unmask_of_Mask (crc : Z) : in_uint 32 crc -> Unmask (Mask crc) = crc.
Proof.
  intros Hc. unfold Unmask, Mask.
  pose proof (Z.div_mod crc (2 ^ 15) ltac:(lia)) as E. pose proof (Z.mod_pos_bound crc (2 ^ 15) ltac:(lia)) as Hlo.
  set (hi := crc `div` 2 ^ 15) in *. set (lo := crc `mod` 2 ^ 15) in *. unfold in_uint in Hc.
  assert (Hhi : 0 <= hi < 2 ^ 17) by lia.
  assert (Hrot : Z.lor (Z.shiftr crc 15) (u32 (Z.shiftl crc 17)) = lo * 2 ^ 17 + hi).
  { rewrite Z.shiftr_div_pow2 by lia. fold hi. rewrite Z.lor_comm.
    assert (u32 (Z.shiftl crc 17) = Z.shiftl lo 17) as ->; [|by apply lor_shiftl].
    rewrite !Z.shiftl_mul_pow2 by lia. unfold uwrap. replace (crc * 2 ^ 17) with (lo * 2 ^ 17 + hi * 2 ^ 32) by lia.
    rewrite Z.mod_add by lia. apply Z.mod_small. lia. }
  rewrite Hrot, uwrap_sub_l. replace (lo * 2 ^ 17 + hi + kMaskDelta - kMaskDelta) with (lo * 2 ^ 17 + hi) by lia.
  rewrite (uwrap_id 32 (lo * 2 ^ 17 + hi)) by (unfold in_uint; lia).
  rewrite Z.shiftr_div_pow2 by lia. replace (lo * 2 ^ 17 + hi) with (hi + lo * 2 ^ 17) by lia.
  rewrite Z.div_add, Z.div_small by lia. rewrite Z.add_0_l, Z.lor_comm.
  assert (u32 (Z.shiftl (hi + lo * 2 ^ 17) 15) = Z.shiftl hi 15) as ->.
  { rewrite !Z.shiftl_mul_pow2 by lia. unfold uwrap.
    replace ((hi + lo * 2 ^ 17) * 2 ^ 15) with (hi * 2 ^ 15 + lo * 2 ^ 32) by lia. rewrite Z.mod_add by lia. apply Z.mod_small. lia. }
  rewrite lor_shiftl by lia. lia.
Qed.

(** C33: [Unmask] inverts [Mask] on every 32-bit checksum, and a masked checksum
    is a 32-bit word. *)
Theorem Unmask_Mask (crc : Z) : in_uint 32 crc -> in_uint 32 (Mask crc) /\ Unmask (Mask crc) = crc.
Proof. intros Hc. split; [apply Mask_range|by apply Unmask_of_Mask]. Qed.

(** ** The hypotheses hold on concrete values *)
Lemma fixed_roundtrip_witness :
  DecodeFixed32 true (EncodeFixed32 false 305419896 ++ [7]) = Some 305419896 /\
  DecodeFixed64 true (EncodeFixed64 false 81985529216486895 ++ [7]) = Some 81985529216486895.
Proof. apply (fixed_roundtrip false true 305419896 81985529216486895 [7]); by vm_compute. Defined.

Lemma Extend_correct_witness :
  Extend 3 0 [49; 50; 51; 52; 53] = Some (crc32c 0 [49; 50; 51; 52; 53]) /\
  (ca ← Extend 3 0 [49; 50; 51; 52; 53]; Extend 1 ca [54; 55; 56; 57]) = Extend 0 0 ([49; 50; 51; 52; 53] ++ [54; 55; 56; 57]).
Proof. apply (Extend_correct 3 1 0 0 [49; 50; 51; 52; 53] [54; 55; 56; 57]); [lia|lia|lia|done|solve_bytes|solve_bytes]. Defined.

Lemma Unmask_Mask_witness : in_uint 32 (Mask 3808858755) /\ Unmask (Mask 3808858755) = 3808858755.
Proof. apply (Unmask_Mask 3808858755). by vm_compute. Defined.
