(* ===== verification/LogFile.v ===== *)
(** What the log reader and writer see of the outside: the result codes of
    base/status.h, the format constants of log/log_format.h, and the file
    interfaces of log/writable_file.{h,cc} and log/sequential_file.{h,cc} with
    their stdio implementations. *)
From S2P Require Import Prelude.

(** [base::Status], without the message text *)
Inductive Status : Type :=
  | OK | NotFound | Corruption | NotSupported | InvalidArgument | IOError | WaitRecord | Eof | InvalidRecord.
#[global] Instance Status_eq_dec : EqDecision Status.
Proof. solve_decision. Defined.
Definition ok (s : Status) : bool := bool_decide (s = OK).

(** [RecordType], the reader's extra values, and [CompressType] *)
Definition kZeroType : Z := 0.
Definition kFullType : Z := 1.
Definition kFirstType : Z := 2.
Definition kMiddleType : Z := 3.
Definition kLastType : Z := 4.
Definition kEofType : Z := 5.
Definition kMaxRecordType : Z := kEofType.
Definition kEof : Z := kMaxRecordType + 1.
Definition kBadRecord : Z := kMaxRecordType + 2.
Definition kWaitRecord : Z := kMaxRecordType + 3.
Inductive CompressType : Type := kNoCompress | kZlib | kSnappy.
#[global] Instance CompressType_eq_dec : EqDecision CompressType.
Proof. solve_decision. Defined.
Definition compress_code (c : CompressType) : Z := match c with kNoCompress => 0 | kZlib => 1 | kSnappy => 2 end.

Definition kBlockSize : Z := 4 * 1024.
Definition kCompressBlockSize : Z := 1 * 1024 * 1024.
Definition kHeaderSize : Z := 4 + 2 + 1.
Definition kHeaderSizeForCompress : Z := 4 + 4 + 1.
Definition kHeaderSizeOfCompressBlock : Z := 64.

(** ** Writable files *)
Class WritableFile (F : Type) := {
  wf_Append : F -> bytes -> Status * F;
  wf_Flush : F -> Status * F
}.
(** What the writer relies on: an [Append] that succeeds adds the bytes at the
    end, a [Flush] adds nothing, and a file with no fault ahead succeeds. *)
Class WritableFileLaws (F : Type) `{WritableFile F} (contents : F -> bytes) (reliable : F -> Prop) := {
  append_reliable : forall f d, reliable f ->
    (wf_Append f d).1 = OK /\ contents (wf_Append f d).2 = contents f ++ d /\ reliable (wf_Append f d).2;
  flush_reliable : forall f, reliable f ->
    (wf_Flush f).1 = OK /\ contents (wf_Flush f).2 = contents f /\ reliable (wf_Flush f).2
}.

(** [PosixWritableFile].  [faults] says how the next stdio calls go: an absent
    entry or [None] is a success, [Some r] a call that fails after [r] bytes. *)
Record PosixWritableFile : Type := MkPosixWritableFile {
  pw_stream : bytes;
  pw_faults : list (option nat);
  wsize_ : Z
}.

Definition PosixWritableFile_Append (f : PosixWritableFile) (data : bytes) : Status * PosixWritableFile :=
  let r := match head (pw_faults f) with Some (Some r) => Nat.min r (length data) | _ => length data end in
  let stream := pw_stream f ++ take r data in
  if decide (r <> length data) then (IOError, MkPosixWritableFile stream (tail (pw_faults f)) (wsize_ f))
  else (OK, MkPosixWritableFile stream (tail (pw_faults f)) (u64 (wsize_ f + Z.of_nat r))).

Definition PosixWritableFile_Flush (f : PosixWritableFile) : Status * PosixWritableFile :=
  let f' := MkPosixWritableFile (pw_stream f) (tail (pw_faults f)) (wsize_ f) in
  match head (pw_faults f) with
  | Some (Some _) => (IOError, f')
  | _ => (OK, f')
  end.

#[global] Instance posix_writable : WritableFile PosixWritableFile := {
  wf_Append := PosixWritableFile_Append;
  wf_Flush := PosixWritableFile_Flush
}.

Definition no_faults (f : PosixWritableFile) : Prop := Forall (fun o => o = None) (pw_faults f).

#[global] Instance posix_writable_laws : WritableFileLaws PosixWritableFile pw_stream no_faults.
Proof.
  split.
  - intros [s fs w] d Hf. unfold no_faults in Hf. simpl in *. unfold PosixWritableFile_Append. simpl.
    destruct Hf as [|o fs -> Hf]; simpl; rewrite decide_False by tauto; simpl; rewrite firstn_all;
      (split; [done|split; [done|]]); unfold no_faults; simpl; [constructor|done].
  - intros [s fs w] Hf. unfold no_faults in Hf. simpl in *. unfold PosixWritableFile_Flush. simpl.
    destruct Hf as [|o fs -> Hf]; simpl; (split; [done|split; [done|]]); unfold no_faults; simpl; [constructor|done].
Qed.

(** ** Sequential files *)
Class SequentialFile (F : Type) := {
  sf_Read : F -> nat -> Status * bytes * F;
  sf_Skip : F -> Z -> Status * F;
  sf_Seek : F -> Z -> Status * F
}.

(** [PosixSequentialFile] on a file of given contents: the stream position and
    the end-of-file indicator, which [fread] sets on a short read and honours
    until a seek clears it. *)
Record PosixSequentialFile : Type := MkPosixSequentialFile {
  ps_data : bytes;
  ps_pos : nat;
  ps_eof : bool
}.

Definition PosixSequentialFile_Read (f : PosixSequentialFile) (n : nat) : Status * bytes * PosixSequentialFile :=
  let got := if ps_eof f then [] else take n (drop (ps_pos f) (ps_data f)) in
  let short := bool_decide (length got < n)%nat in
  (OK, got, MkPosixSequentialFile (ps_data f) (ps_pos f + length got) (ps_eof f || short)).

Definition PosixSequentialFile_Skip (f : PosixSequentialFile) (n : Z) : Status * PosixSequentialFile :=
  (OK, MkPosixSequentialFile (ps_data f) (ps_pos f + Z.to_nat n) false).

Definition PosixSequentialFile_Seek (f : PosixSequentialFile) (pos : Z) : Status * PosixSequentialFile :=
  (OK, MkPosixSequentialFile (ps_data f) (Z.to_nat pos) false).

#[global] Instance posix_sequential : SequentialFile PosixSequentialFile := {
  sf_Read := PosixSequentialFile_Read;
  sf_Skip := PosixSequentialFile_Skip;
  sf_Seek := PosixSequentialFile_Seek
}.
Definition open_seq (data : bytes) : PosixSequentialFile := MkPosixSequentialFile data 0 false.
