(* ===== verification/LogLayout.v ===== *)
(** The physical format of an uncompressed log file, as a function of the
    fragments it holds, and the proof that the writer produces it. *)
From S2P Require Import Prelude CrcTables Coding LogFile LogWriter.

(** ** The layout *)
Definition B : nat := Z.to_nat kBlockSize.
Lemma B_val : Z.of_nat B = 4096.
Proof. done. Qed.
#[global] Opaque B.
(** [lia] with the block size *)
Ltac blia := pose proof B_val; lia.

Local Abbreviation h := 7%nat.

(** Zero bytes put before a fragment emitted at file offset [P] *)
Definition pad (P : nat) : nat := if decide (B - P mod B < h)%nat then (B - P mod B)%nat else 0%nat.

(** A physical record: masked checksum of type and data, length, type, data *)
Definition phys (t : Z) (d : bytes) : bytes :=
  le_bytes 4 (Mask (crc32c 0 (t :: d))) ++ [Z.of_nat (length d) `mod` 256; Z.of_nat (length d) `div` 256; t] ++ d.

Fixpoint enc (P : nat) (ps : list (Z * bytes)) : bytes :=
  match ps with
  | [] => []
  | (t, d) :: ps' => replicate (pad P) 0 ++ phys t d ++ enc (P + pad P + (h + length d)) ps'
  end.

(** No fragment straddles a block. *)
Fixpoint fits (P : nat) (ps : list (Z * bytes)) : Prop :=
  match ps with
  | [] => True
  | (_, d) :: ps' => ((P + pad P) mod B + h + length d <= B)%nat /\ fits (P + pad P + (h + length d)) ps'
  end.

(** [ps] are the fragments of the record [d]; [first] if none came before. *)
Inductive pieces : bool -> bytes -> list (Z * bytes) -> Prop :=
  | pieces_end (first : bool) d :
      pieces first d [(if first then kFullType else kLastType, d)]
  | pieces_more (first : bool) d1 d2 ps :
      pieces false d2 ps -> pieces first (d1 ++ d2) ((if first then kFirstType else kMiddleType, d1) :: ps).

(** The fragments of a sequence of records written from offset [P], and the
    offsets at which the records end *)
Inductive laid : nat -> list bytes -> list (Z * bytes) -> list nat -> Prop :=
  | laid_nil P : laid P [] [] []
  | laid_cons P d ds ps qs ends : pieces true d ps -> fits P ps ->
      laid (P + length (enc P ps)) ds qs ends ->
      laid P (d :: ds) (ps ++ qs) ((P + length (enc P ps))%nat :: ends).

Lemma length_phys t d : length (phys t d) = (h + length d)%nat.
Proof. unfold phys. rewrite !length_app, length_le_bytes. simpl. lia. Qed.

Lemma enc_app P ps qs : enc P (ps ++ qs) = enc P ps ++ enc (P + length (enc P ps)) qs.
Proof.
  revert P; induction ps as [|[t d] ps IH]; intros P; cbn [enc app]; [by rewrite Nat.add_0_r|].
  rewrite IH, <- !app_assoc. do 3 f_equal. rewrite !length_app, length_replicate, length_phys. f_equal. lia.
Qed.

Lemma fits_app P ps qs : fits P (ps ++ qs) <-> fits P ps /\ fits (P + length (enc P ps)) qs.
Proof.
  revert P; induction ps as [|[t d] ps IH]; intros P; cbn [enc fits app]; [rewrite Nat.add_0_r; tauto|].
  rewrite IH, !length_app, length_replicate, length_phys.
  replace (P + pad P + (h + length d) + length (enc (P + pad P + (h + length d)) ps))%nat
    with (P + (pad P + (h + length d + length (enc (P + pad P + (h + length d)) ps))))%nat by lia. tauto.
Qed.

Lemma laid_fits P ds ps ends : laid P ds ps ends -> fits P ps.
Proof. induction 1; [done|]. by apply fits_app. Qed.

Lemma length_enc P ps : (length ps <= length (enc P ps))%nat.
Proof.
  revert P; induction ps as [|[t d] ps IH]; intros P; cbn [enc length]; [lia|].
  rewrite !length_app, length_phys. specialize (IH (P + pad P + (h + length d))%nat). lia.
Qed.

Lemma mod_B P : (P mod B < B)%nat.
Proof. apply Nat.mod_upper_bound. blia. Qed.

Lemma pad_le P : (pad P <= 6)%nat.
Proof. unfold pad. case_decide; lia. Qed.

Lemma pad_fits P : ((P + pad P) mod B + h <= B)%nat.
Proof.
  unfold pad. pose proof (mod_B P). case_decide.
  - replace ((P + (B - P mod B)) mod B)%nat with 0%nat; [blia|].
    pose proof (Nat.div_mod_eq P B). apply (Nat.mod_unique _ B (P / B + 1)); blia.
  - rewrite Nat.add_0_r. blia.
Qed.

(** ** The writer *)
Section layout.
Context {F : Type} `{WritableFileLaws F}.
Context (snappy : bytes -> bytes) (zlib : bytes -> Z * bytes).
Implicit Types w : Writer F.

(** The writer of an uncompressed log whose file holds [W] *)
Record wok w (W : bytes) : Prop := {
  wk_type : compress_type_ w = kNoCompress;
  wk_block : block_size_ w = 4096;
  wk_header : header_size_ w = 7;
  wk_crc : type_crc_ w = (fun i => crc32c 0 [Z.of_nat i]) <$> seq 0 6;
  wk_off : block_offset_ w = Z.of_nat (length W mod B) \/ (block_offset_ w = 4096 /\ (length W mod B = 0)%nat);
  wk_dest : contents (dest_ w) = W;
  wk_rel : reliable (dest_ w)
}.

Lemma Writer_new_wok (f : F) : reliable f ->
  exists w, Writer_new kNoCompress f (Z.of_nat (length (contents f))) = Some w /\ wok w (contents f).
Proof.
  intros Hf. unfold Writer_new.
  assert (InitTypeCrc = Some ((fun i => crc32c 0 [Z.of_nat i]) <$> seq 0 6)) as ->.
  { unfold InitTypeCrc. apply mapM_Some_2. apply Forall2_fmap_r, Forall_Forall2_diag.
    apply Forall_seq. intros i Hi. apply Extend_crc32c; [blia|done|]. constructor; [unfold is_byte; simpl in Hi; blia|done]. }
  cbn [mbind option_bind]. eexists. split; [done|]. split; try done. left. simpl.
  rewrite uwrap_id; [|pose proof (Z.mod_pos_bound (Z.of_nat (length (contents f))) kBlockSize); unfold in_uint, kBlockSize in *; blia].
  unfold kBlockSize. by rewrite Nat2Z.inj_mod.
Qed.

Lemma wok_range w W : wok w W -> 0 <= block_offset_ w <= 4096.
Proof. intros Hw. pose proof (mod_B (length W)). destruct (wk_off _ _ Hw) as [->|[-> _]]; blia. Qed.

Lemma switch_block_spec w W : wok w W ->
  exists w', switch_block snappy zlib w = Some (OK, w') /\ wok w' (W ++ replicate (pad (length W)) 0) /\
    block_offset_ w' = Z.of_nat ((length W + pad (length W)) mod B).
Proof.
  intros Hw. pose proof (wok_range w W Hw) as Hr. pose proof (mod_B (length W)) as Hm. unfold switch_block.
  rewrite (wk_block _ _ Hw), (wk_header _ _ Hw), (wk_type _ _ Hw). rewrite swrap_id by (unfold in_sint; blia).
  rewrite (bool_decide_eq_true_2 (0 <= 4096 - block_offset_ w)) by blia. cbn [require mbind option_bind].
  pose proof (pad_fits (length W)) as Hp. unfold pad in *.
  destruct (wk_off _ _ Hw) as [Ho|[Ho Hz]]; rewrite Ho in *.
  - destruct (decide (4096 - Z.of_nat (length W mod B) < 7)) as [Hs|Hs].
    + rewrite (decide_True (P := (B - length W mod B < h)%nat)) by blia.
      rewrite (decide_True (P := 0 < _)) by blia. cbn [require bool_decide mbind option_bind].
      set (n := (B - length W mod B)%nat).
      unfold AppendInternal. rewrite bool_decide_eq_true_2 by (simpl; blia). cbn [require mbind option_bind].
      rewrite (wk_type _ _ Hw). assert (take (Z.to_nat (4096 - Z.of_nat (length W mod B))) (replicate 7 0) = replicate n 0) as ->.
      { rewrite take_replicate. f_equal. blia. }
      destruct (append_reliable (dest_ w) (replicate n 0) (wk_rel _ _ Hw)) as (H1 & H2 & H3).
      destruct (wf_Append (dest_ w) (replicate n 0)) as [s f']. simpl in H1, H2, H3. cbn [mbind option_bind ok].
      assert (((length W + n) mod B)%nat = 0%nat) as Hz.
      { pose proof (Nat.div_mod_eq (length W) B). symmetry. apply (Nat.mod_unique _ B (length W / B + 1)); blia. }
      eexists. split; [done|]. split; [|simpl; by rewrite Hz].
      split; try apply Hw; simpl; [|by rewrite H2, (wk_dest _ _ Hw)|done].
      left. rewrite length_app, length_replicate. by rewrite Hz.
    + rewrite (decide_False (P := (B - length W mod B < h)%nat)) by blia. rewrite app_nil_r, Nat.add_0_r.
      exists w. split; [done|]. by split.
  - rewrite decide_True by blia. rewrite (decide_False (P := 0 < _)) by blia. cbn [require mbind option_bind].
    rewrite (decide_False (P := (B - length W mod B < h)%nat)) by blia. rewrite app_nil_r, Nat.add_0_r.
    eexists. split; [done|]. split; [|simpl; by rewrite Hz]. split; try apply Hw. left. simpl. by rewrite Hz.
Qed.

Lemma type_crc_lookup w W t : wok w W -> 0 <= t <= 5 -> type_crc_ w !! Z.to_nat t = Some (crc32c 0 [t]).
Proof.
  intros Hw Ht. rewrite (wk_crc _ _ Hw), list_lookup_fmap, lookup_seq_lt by lia. simpl. by rewrite Z2Nat.id by lia.
Qed.

Lemma crc32c_range crc d : in_uint 32 crc -> all_bytes d -> in_uint 32 (crc32c crc d).
Proof.
  intros Hc Hd. apply lxor_range; [lia| |lia]. apply foldl_crc_range; [|done]. apply lxor_range; [lia|done|lia].
Qed.

Lemma crc32c_cons t d : crc32c (crc32c 0 [t]) d = crc32c 0 (t :: d).
Proof. unfold crc32c. cbn [foldl]. by rewrite Z.lxor_assoc, Z.lxor_nilpotent, Z.lxor_0_r. Qed.

(** The header of a physical record *)
Definition phys_header (t : Z) (d : bytes) : bytes :=
  le_bytes 4 (Mask (crc32c 0 (t :: d))) ++ [Z.of_nat (length d) `mod` 256; Z.of_nat (length d) `div` 256; t].

Lemma header_bytes t n : 0 <= t <= 5 -> 0 <= n < 65536 ->
  [u8 (Z.land n 255); u8 (Z.shiftr n 8); u8 t] = [n `mod` 256; n `div` 256; t].
Proof.
  intros Ht Hn. rewrite land_255, Z.shiftr_div_pow2 by lia. change (2 ^ 8) with 256.
  rewrite !uwrap_id; [done|unfold in_uint; lia| |]; unfold in_uint.
  - split; [apply Z.div_pos; lia|]. apply Z.div_lt_upper_bound; lia.
  - apply Z.mod_pos_bound. lia.
Qed.

Lemma EmitPhysicalRecord_eq w W t d : wok w W -> 0 <= t <= 5 -> all_bytes d ->
  block_offset_ w = Z.of_nat (length W mod B) -> (length W mod B + h + length d <= B)%nat ->
  EmitPhysicalRecord snappy zlib w t d =
    (let '(s, f) := wf_Append (dest_ w) (phys_header t d) in
     let '(s, f) := if ok s then (let '(s, f) := wf_Append f d in if ok s then wf_Flush f else (s, f)) else (s, f) in
     Some (s, set_offset (u32 (block_offset_ w + (7 + Z.of_nat (length d)))) (set_dest f w))).
Proof.
  intros Hw Ht Hd Ho Hfit. pose proof (mod_B (length W)) as Hm. unfold EmitPhysicalRecord.
  rewrite (wk_type _ _ Hw), (wk_header _ _ Hw), (wk_block _ _ Hw), Ho.
  rewrite require_P by blia. rewrite (uwrap_id 32 (_ + 7)) by (unfold in_uint; blia).
  rewrite require_P by blia. rewrite (type_crc_lookup w W) by done. rewrite bind_some.
  assert (Ht1 : all_bytes [t]) by (constructor; [unfold is_byte; lia|constructor]).
  rewrite Extend_crc32c; [|lia|apply crc32c_range; [unfold in_uint; lia|done]|done].
  rewrite bind_some, crc32c_cons, EncodeFixed32_le, header_bytes by (done || blia). unfold phys_header. reflexivity.
Qed.

Lemma EmitPhysicalRecord_spec w W t d : wok w W -> 0 <= t <= 5 -> all_bytes d ->
  block_offset_ w = Z.of_nat (length W mod B) -> (length W mod B + h + length d <= B)%nat ->
  exists w', EmitPhysicalRecord snappy zlib w t d = Some (OK, w') /\ wok w' (W ++ phys t d).
Proof.
  intros Hw Ht Hd Ho Hfit. rewrite (EmitPhysicalRecord_eq w W) by done.
  assert (Hhd : phys_header t d ++ d = phys t d) by (unfold phys_header, phys; by rewrite <- app_assoc).
  revert Hhd. generalize (phys_header t d) (phys t d) (length_phys t d). intros hd ph Hph Hhd.
  destruct (append_reliable (dest_ w) hd (wk_rel _ _ Hw)) as (H1 & H2 & H3).
  destruct (wf_Append (dest_ w) hd) as [s1 f1]. simpl in H1, H2, H3. subst s1. change (ok OK) with true. cbv beta iota.
  destruct (append_reliable f1 d H3) as (H4 & H5 & H6). destruct (wf_Append f1 d) as [s2 f2]. simpl in H4, H5, H6. subst s2.
  destruct (flush_reliable f2 H6) as (H7 & H8 & H9). destruct (wf_Flush f2) as [s3 f3]. simpl in H7, H8, H9. subst s3.
  eexists. split; [done|]. pose proof (mod_B (length W)) as Hm. split; try apply Hw; cbn; [| |done].
  - rewrite length_app, Hph, Ho. rewrite uwrap_id by (unfold in_uint; blia).
    pose proof (Nat.div_mod_eq (length W) B) as E.
    destruct (decide (length W mod B + h + length d = B)%nat) as [Hfull|Hn].
    + right. split; [blia|]. symmetry. apply (Nat.mod_unique _ B (length W / B + 1)); blia.
    + left. replace ((length W + (h + length d)) mod B)%nat with (length W mod B + h + length d)%nat; [lia|].
      apply (Nat.mod_unique _ B (length W / B)); blia.
  - by rewrite H8, H5, H2, (wk_dest _ _ Hw), <- app_assoc, Hhd.
Qed.

(** Room for data in the block the next fragment goes to *)
Definition avail (P : nat) : nat := (B - (P + pad P) mod B - h)%nat.

Lemma AddRecord_loop_spec fuel : forall w W d first, wok w W -> all_bytes d ->
  (2 * length d + (if decide (avail (length W) = 0%nat) then 2 else 1) <= fuel)%nat ->
  exists w' ps, AddRecord_loop snappy zlib fuel w d first = Some (OK, w') /\ pieces first d ps /\
    fits (length W) ps /\ wok w' (W ++ enc (length W) ps) /\ (length (enc (length W) ps) <= 13 * fuel + length d)%nat.
Proof.
  induction fuel as [|fuel IH]; intros w W d first Hw Hd Hf; [case_decide; lia|]. cbn [AddRecord_loop].
  destruct (switch_block_spec w W Hw) as (w1 & -> & Hw1 & Ho1). cbn [mbind option_bind]. change (ok OK) with true. cbn [negb].
  pose proof (pad_fits (length W)) as Hp. pose proof (mod_B (length W + pad (length W))) as Hm.
  set (P := length W) in *. set (W1 := W ++ replicate (pad P) 0) in *.
  assert (HW1 : length W1 = (P + pad P)%nat) by (unfold W1; by rewrite length_app, length_replicate).
  rewrite (wk_block _ _ Hw1), (wk_header _ _ Hw1), Ho1. rewrite uwrap_id by (unfold in_uint; blia).
  assert (Hav : 4096 - Z.of_nat ((P + pad P) mod B) - 7 = Z.of_nat (avail P)) by (unfold avail; blia). rewrite Hav.
  set (fl := Nat.min (length d) (avail P)).
  assert ((if decide (Z.of_nat (length d) < Z.of_nat (avail P)) then Z.of_nat (length d) else Z.of_nat (avail P)) = Z.of_nat fl) as ->
    by (unfold fl; clear Hf; case_decide; lia). rewrite Nat2Z.id.
  set (t := if first && bool_decide (Z.of_nat (length d) = Z.of_nat fl) then kFullType else _).
  destruct (EmitPhysicalRecord_spec w1 W1 t (take fl d)) as (w2 & -> & Hw2); [done| |by apply Forall_take| | |].
  { unfold t. repeat case_match; unfold kFullType, kFirstType, kLastType, kMiddleType; lia. }
  { by rewrite HW1. }
  { rewrite HW1, length_take. unfold avail in *. blia. }
  cbn [mbind option_bind]. change (ok OK) with true. cbn [andb]. rewrite length_drop.
  destruct (decide (length d <= avail P)%nat) as [Hend|Hmore].
  - rewrite (bool_decide_eq_true_2 (length d - fl = 0)%nat) by lia. cbn [negb].
    exists w2, [(if first then kFullType else kLastType, d)].
    assert (t = if first then kFullType else kLastType) as Et by (unfold t; rewrite bool_decide_eq_true_2 by lia; by destruct first).
    rewrite Et, take_ge in Hw2 by lia. split; [done|]. split; [constructor|]. cbn [fits enc].
    split; [split; [unfold avail in *; blia|done]|]. rewrite app_nil_r, app_assoc. split; [done|].
    rewrite length_app, length_replicate, length_phys. pose proof (pad_le P). lia.
  - rewrite (bool_decide_eq_false_2 (length d - fl = 0)%nat) by lia. cbn [negb].
    assert (Et : t = if first then kFirstType else kMiddleType)
      by (unfold t; rewrite bool_decide_eq_false_2 by lia; by destruct first). rewrite Et in Hw2.
    assert (Hfl : length (take fl d) = avail P) by (rewrite length_take; lia).
    set (W2 := W1 ++ phys _ (take fl d)) in *.
    assert (HW2 : length W2 = (P + pad P + (h + length (take fl d)))%nat) by (unfold W2; rewrite length_app, length_phys; lia).
    assert (Hz : (length W2 mod B = 0)%nat).
    { rewrite HW2, Hfl. pose proof (Nat.div_mod_eq (P + pad P) B). symmetry. unfold avail.
      apply (Nat.mod_unique _ B ((P + pad P) / B + 1)); blia. }
    assert (Ha2 : avail (length W2) <> 0%nat).
    { unfold avail, pad. rewrite Hz. rewrite decide_False by blia. rewrite Nat.add_0_r, Hz. blia. }
    destruct (IH w2 W2 (drop fl d) false Hw2) as (w' & ps & -> & Hps & Hfits & Hw' & Hlen); [by apply Forall_drop| |].
    { rewrite length_drop. rewrite decide_False by done. revert Hf. case_decide; lia. }
    exists w', ((if first then kFirstType else kMiddleType, take fl d) :: ps). split; [done|]. split.
    { rewrite <- (take_drop fl d) at 1. by constructor. }
    cbn [fits enc]. rewrite <- HW2. split; [split; [rewrite Hfl; unfold avail; blia|done]|].
    split; [unfold W2 at 1, W1 in Hw'; rewrite <- !app_assoc in Hw'; exact Hw'|].
    rewrite !length_app, length_replicate, length_phys. rewrite length_drop in Hlen. pose proof (pad_le P). lia.
Qed.

Lemma AddRecord_spec w W d : wok w W -> all_bytes d ->
  exists w' ps, AddRecord snappy zlib w d = Some (OK, w') /\ pieces true d ps /\
    fits (length W) ps /\ wok w' (W ++ enc (length W) ps) /\ (length (enc (length W) ps) <= 27 * S (length d))%nat.
Proof.
  intros Hw Hd. destruct (AddRecord_loop_spec (2 * length d + 2) w W d true Hw Hd) as (w' & ps & ? & ? & ? & ? & ?); [case_decide; lia|].
  exists w', ps. split_and!; [done..|lia].
Qed.

Lemma EndLog_spec w W : wok w W ->
  exists w', EndLog snappy zlib w = Some (OK, w') /\ fits (length W) [(kEofType, [])] /\
    wok w' (W ++ enc (length W) [(kEofType, [])]).
Proof.
  intros Hw. unfold EndLog. destruct (switch_block_spec w W Hw) as (w1 & -> & Hw1 & Ho1). cbn [mbind option_bind]. change (ok OK) with true. cbn [negb].
  pose proof (pad_fits (length W)). set (W1 := W ++ replicate (pad (length W)) 0) in *.
  assert (HW1 : length W1 = (length W + pad (length W))%nat) by (unfold W1; by rewrite length_app, length_replicate).
  destruct (EmitPhysicalRecord_spec w1 W1 kEofType []) as (w2 & -> & Hw2); [done|done|constructor|by rewrite HW1|rewrite HW1; simpl; blia|].
  exists w2. split; [done|]. cbn [fits enc length]. rewrite app_nil_r, app_assoc. split; [split; [blia|done]|done].
Qed.

(** A writer run over a sequence of records *)
Fixpoint AddRecords (w : Writer F) (ds : list bytes) : option (Status * Writer F) :=
  match ds with
  | [] => Some (OK, w)
  | d :: ds' => '(s, w) ← AddRecord snappy zlib w d; if ok s then AddRecords w ds' else Some (s, w)
  end.

Lemma AddRecords_spec ds : forall w W, wok w W -> Forall all_bytes ds ->
  exists w' ps ends, AddRecords w ds = Some (OK, w') /\ laid (length W) ds ps ends /\ wok w' (W ++ enc (length W) ps) /\
    forall k e, (length W :: ends) !! k = Some e ->
      exists wk, AddRecords w (take k ds) = Some (OK, wk) /\ length (contents (dest_ wk)) = e.
Proof.
  induction ds as [|d ds IH]; intros w W Hw Hd; cbn [AddRecords].
  { exists w, [], []. split; [done|]. split; [constructor|]. cbn [enc]. rewrite app_nil_r. split; [done|].
    intros [|k] e; [|done]. intros [= <-]. exists w. split; [done|]. by rewrite (wk_dest _ _ Hw). }
  apply Forall_cons in Hd as [Hd Hds]. destruct (AddRecord_spec w W d Hw Hd) as (w1 & ps & E & Hps & Hfits & Hw1 & _).
  rewrite E, bind_some. change (ok OK) with true. cbv beta iota.
  destruct (IH w1 _ Hw1 Hds) as (w' & qs & ends & -> & Hl & Hw' & Hends). rewrite length_app in Hl, Hw', Hends.
  exists w', (ps ++ qs), ((length W + length (enc (length W) ps))%nat :: ends).
  split; [done|]. split; [by constructor|]. split; [by rewrite enc_app, app_assoc|].
  intros [|k] e He; [injection He as <-; exists w; split; [done|by rewrite (wk_dest _ _ Hw)]|].
  destruct (Hends k e He) as (wk & Hk & Hlk). exists wk. split; [|done]. cbn [take AddRecords].
  by rewrite E, bind_some.
Qed.
End layout.
