(* ===== verification/LogReader.v ===== *)
(** The log reader (log/log_reader.{h,cc}, class [Reader]): blocks are read
    whole, physical records are parsed and checked, and fragments are joined
    into the records that were added. *)
From S2P Require Import Prelude CrcTables Coding LogFile.

Section reader.
Context {F : Type} `{SequentialFile F}.

(** The decompression libraries: [snappy::GetUncompressedLength] and
    [RawUncompress], and zlib's [uncompress] with its result code. *)
Context (snappy_length : bytes -> Z) (snappy_uncompress : bytes -> option bytes).
Context (zlib_uncompress : bytes -> Z * bytes).

Record Reader : Type := MkReader {
  rd_file : F;
  rd_checksum : bool;
  rd_reporter : option (list (Z * Status));
  rd_backing_store : bytes;
  rd_buffer : bytes;
  rd_last_record_offset : Z;
  rd_last_record_end_offset : Z;
  rd_end_of_buffer_offset : Z;
  rd_last_end_of_buffer_offset : Z;
  rd_initial_offset : Z;
  rd_resyncing : bool;
  rd_compressed : bool;
  rd_block_size : Z;
  rd_header_size : Z
}.

Definition set_rd_file f r := MkReader f (rd_checksum r) (rd_reporter r) (rd_backing_store r) (rd_buffer r)
  (rd_last_record_offset r) (rd_last_record_end_offset r) (rd_end_of_buffer_offset r) (rd_last_end_of_buffer_offset r)
  (rd_initial_offset r) (rd_resyncing r) (rd_compressed r) (rd_block_size r) (rd_header_size r).
Definition set_rd_reporter p r := MkReader (rd_file r) (rd_checksum r) p (rd_backing_store r) (rd_buffer r)
  (rd_last_record_offset r) (rd_last_record_end_offset r) (rd_end_of_buffer_offset r) (rd_last_end_of_buffer_offset r)
  (rd_initial_offset r) (rd_resyncing r) (rd_compressed r) (rd_block_size r) (rd_header_size r).
Definition set_rd_backing b r := MkReader (rd_file r) (rd_checksum r) (rd_reporter r) b (rd_buffer r)
  (rd_last_record_offset r) (rd_last_record_end_offset r) (rd_end_of_buffer_offset r) (rd_last_end_of_buffer_offset r)
  (rd_initial_offset r) (rd_resyncing r) (rd_compressed r) (rd_block_size r) (rd_header_size r).
Definition set_rd_buffer b r := MkReader (rd_file r) (rd_checksum r) (rd_reporter r) (rd_backing_store r) b
  (rd_last_record_offset r) (rd_last_record_end_offset r) (rd_end_of_buffer_offset r) (rd_last_end_of_buffer_offset r)
  (rd_initial_offset r) (rd_resyncing r) (rd_compressed r) (rd_block_size r) (rd_header_size r).
Definition set_rd_end_of_buffer e r := MkReader (rd_file r) (rd_checksum r) (rd_reporter r) (rd_backing_store r) (rd_buffer r)
  (rd_last_record_offset r) (rd_last_record_end_offset r) e (rd_last_end_of_buffer_offset r)
  (rd_initial_offset r) (rd_resyncing r) (rd_compressed r) (rd_block_size r) (rd_header_size r).
Definition set_rd_last lro lreo leob r := MkReader (rd_file r) (rd_checksum r) (rd_reporter r) (rd_backing_store r) (rd_buffer r)
  lro lreo (rd_end_of_buffer_offset r) leob
  (rd_initial_offset r) (rd_resyncing r) (rd_compressed r) (rd_block_size r) (rd_header_size r).
Definition set_rd_resyncing b r := MkReader (rd_file r) (rd_checksum r) (rd_reporter r) (rd_backing_store r) (rd_buffer r)
  (rd_last_record_offset r) (rd_last_record_end_offset r) (rd_end_of_buffer_offset r) (rd_last_end_of_buffer_offset r)
  (rd_initial_offset r) b (rd_compressed r) (rd_block_size r) (rd_header_size r).

(** The constructor; [garbage] is the initial content of [backing_store_]. *)
Definition Reader_new (file : F) (reporter : option (list (Z * Status))) (checksum : bool) (initial_offset : Z)
    (compressed : bool) (garbage : bytes) : Reader :=
  let block_size := if compressed then kCompressBlockSize else kBlockSize in
  let header_size := if compressed then kHeaderSizeForCompress else kHeaderSize in
  MkReader file checksum reporter garbage [] 0 0 0 0 initial_offset (bool_decide (0 < initial_offset))
    compressed block_size header_size.

Definition size (b : bytes) : Z := Z.of_nat (length b).

(** [ReportDrop] *)
Definition ReportDrop (r : Reader) (n : Z) (reason : Status) : Reader :=
  match rd_reporter r with
  | None => r
  | Some reports =>
      if decide (rd_initial_offset r <= u64 (rd_end_of_buffer_offset r - size (rd_buffer r) - n))
      then set_rd_reporter (Some (reports ++ [(n, reason)])) r else r
  end.

(** [SkipToInitialBlock] *)
Definition SkipToInitialBlock (r : Reader) : bool * Reader :=
  let offset_in_block := rd_initial_offset r `mod` rd_block_size r in
  let block_start_location := u64 (rd_initial_offset r - offset_in_block) in
  let block_start_location :=
    if decide (rd_block_size r - 6 < offset_in_block) then u64 (block_start_location + rd_block_size r)
    else block_start_location in
  let r := set_rd_end_of_buffer block_start_location r in
  if decide (0 < block_start_location) then
    let '(skip_status, f) := sf_Skip (rd_file r) block_start_location in
    let r := set_rd_file f r in
    if ok skip_status then (true, r) else (false, ReportDrop r block_start_location skip_status)
  else (true, r).

(** [GoBackToLastBlock] and [GoBackToStart] *)
Definition GoBackToLastBlock (r : Reader) : Reader :=
  let offset_in_block := rd_last_end_of_buffer_offset r `mod` rd_block_size r in
  let block_start_location :=
    if decide (offset_in_block < rd_last_end_of_buffer_offset r)
    then rd_last_end_of_buffer_offset r - offset_in_block else 0 in
  let r := set_rd_buffer [] (set_rd_end_of_buffer block_start_location r) in
  set_rd_file (sf_Seek (rd_file r) block_start_location).2 r.
Definition GoBackToStart (r : Reader) : Reader :=
  let r := set_rd_buffer [] (set_rd_end_of_buffer 0 r) in
  set_rd_file (sf_Seek (rd_file r) 0).2 r.

(** [file_->Read(n, &result, backing_store_)]: the bytes land at the start of
    the store, which has [block_size_] bytes. *)
Definition read_file (r : Reader) (n : Z) : option (Status * bytes * Reader) :=
  _ ← require (bool_decide (n <= rd_block_size r));
  let '(st, got, f) := sf_Read (rd_file r) (Z.to_nat n) in
  Some (st, got, set_rd_backing (got ++ drop (length got) (rd_backing_store r)) (set_rd_file f r)).

(** The block read of [ReadPhysicalRecord]; [inl] is a value returned at once,
    [inr] the status and the new buffer. *)
Definition read_block (r : Reader) : option ((Z + Status) * Reader) :=
  if negb (rd_compressed r) then
    '(st, got, r) ← read_file r (rd_block_size r);
    Some (inr st, set_rd_buffer got r)
  else
    '(st, _, r) ← read_file r kHeaderSizeOfCompressBlock;
    if negb (ok st) then Some (inl kWaitRecord, r)
    else
      let data := rd_backing_store r in
      compress_len ← DecodeFixed32 true data;
      compress_type ← data !! 4%nat;
      '(st, _, r) ← read_file r compress_len;
      if negb (ok st) then Some (inl kWaitRecord, r)
      else
        let block_data := take (Z.to_nat compress_len) (rd_backing_store r) in
        let unc :=
          if decide (compress_type = compress_code kSnappy) then
            match snappy_uncompress block_data with
            | None => None
            | Some out => Some (snappy_length block_data, out)
            end
          else if decide (compress_type = compress_code kZlib) then
            let '(res, out) := zlib_uncompress block_data in
            if decide (res = 0) then Some (size out, out) else None
          else None in
        match unc with
        | None => Some (inl kBadRecord, r)
        | Some (uncompress_len, out) =>
            if decide (s32 uncompress_len <> rd_block_size r) then Some (inl kBadRecord, r)
            else
              _ ← require (bool_decide (size out = rd_block_size r));
              Some (inr st, set_rd_buffer out r)
        end.

(** The header fields: type and length *)
Definition parse_header (compressed : bool) (header : bytes) : option (Z * Z) :=
  if negb compressed then
    a ← header !! 4%nat;
    b ← header !! 5%nat;
    type ← header !! 6%nat;
    Some (u32 (s8 type), Z.lor (Z.land a 255) (u32 (Z.shiftl (Z.land b 255) 8)))
  else
    a ← header !! 4%nat;
    b ← header !! 5%nat;
    c ← header !! 6%nat;
    d ← header !! 7%nat;
    type ← header !! 8%nat;
    Some (u32 (s8 type), Z.lor (Z.lor (Z.lor (Z.land a 255) (u32 (Z.shiftl (Z.land b 255) 8)))
                                      (u32 (Z.shiftl (Z.land c 255) 16))) (u32 (Z.shiftl (Z.land d 255) 24))).

(** [ReadPhysicalRecord] from "Parse the header" on *)
Definition parse_record (r : Reader) (fragment : bytes) : option (Z * bytes * Reader) :=
  let header := rd_buffer r in
  '(type, length) ← parse_header (rd_compressed r) header;
  if decide (size (rd_buffer r) < u32 (rd_header_size r + length)) then Some (kWaitRecord, fragment, r)
  else
    crc_ok ← (if rd_checksum r then
                masked ← DecodeFixed32 true header;
                actual_crc ← Value 0 (take (Z.to_nat (u32 (1 + length))) (drop (if rd_compressed r then 8 else 6) header));
                Some (bool_decide (actual_crc = Unmask masked))
              else Some true);
    if negb crc_ok then
      let drop_size := size (rd_buffer r) in
      Some (kBadRecord, fragment, ReportDrop (set_rd_buffer [] r) drop_size Corruption)
    else if decide (type = kEofType /\ length = 0) then Some (kEof, fragment, set_rd_buffer [] r)
    else if decide (type = kZeroType /\ length = 0) then Some (kBadRecord, fragment, set_rd_buffer [] r)
    else
      let r := set_rd_buffer (drop (Z.to_nat (u32 (rd_header_size r + length))) header) r in
      if decide (u64 (rd_end_of_buffer_offset r - size (rd_buffer r) - rd_header_size r - length) < rd_initial_offset r)
      then Some (kBadRecord, [], r)
      else Some (type, take (Z.to_nat length) (drop (Z.to_nat (rd_header_size r)) header), r).

(** [ReadPhysicalRecord]: the type, the fragment, the offset of a block read by
    this call (0 if none) *)
Definition ReadPhysicalRecord (r : Reader) (fragment : bytes) : option (Z * bytes * Z * Reader) :=
  if decide (size (rd_buffer r) < rd_header_size r) then
    '(res, r) ← read_block (set_rd_buffer [] r);
    match res with
    | inl t => Some (t, fragment, 0, r)
    | inr st =>
        let offset := rd_end_of_buffer_offset r in
        let r := set_rd_end_of_buffer (u64 (offset + size (rd_buffer r))) r in
        if negb (ok st) then Some (kWaitRecord, fragment, offset, ReportDrop (set_rd_buffer [] r) (rd_block_size r) st)
        else if decide (size (rd_buffer r) < rd_header_size r) then Some (kWaitRecord, fragment, offset, r)
        else '(t, fragment, r) ← parse_record r fragment; Some (t, fragment, offset, r)
    end
  else '(t, fragment, r) ← parse_record r fragment; Some (t, fragment, 0, r).

(** The loop of [ReadRecord]; its locals are [in_fragmented_record],
    [prospective_record_offset], [fragment] and the string [scratch]. *)
Definition record_done (r : Reader) (lro offset : Z) : Reader :=
  set_rd_last lro (u64 (rd_end_of_buffer_offset r - size (rd_buffer r)))
    (if decide (offset <> 0) then offset else rd_last_end_of_buffer_offset r) r.

Fixpoint ReadRecord_loop (fuel : nat) (r : Reader) (in_frag : bool) (prospective : Z) (fragment scratch : bytes)
    : option (Status * bytes * Reader) :=
  match fuel with
  | O => None
  | S fuel' =>
      '(record_type, fragment, offset, r) ← ReadPhysicalRecord r fragment;
      let physical_record_offset :=
        u64 (rd_end_of_buffer_offset r - size (rd_buffer r) - rd_header_size r - size fragment) in
      if rd_resyncing r && bool_decide (record_type = kMiddleType)
      then ReadRecord_loop fuel' r in_frag prospective fragment scratch
      else if rd_resyncing r && bool_decide (record_type = kLastType)
      then ReadRecord_loop fuel' (set_rd_resyncing false r) in_frag prospective fragment scratch
      else
        let r := set_rd_resyncing false r in
        if decide (record_type = kFullType) then Some (OK, fragment, record_done r physical_record_offset offset)
        else if decide (record_type = kWaitRecord) then Some (WaitRecord, [], GoBackToLastBlock r)
        else if decide (record_type = kFirstType)
        then ReadRecord_loop fuel' r true physical_record_offset fragment fragment
        else if decide (record_type = kMiddleType)
        then ReadRecord_loop fuel' r in_frag prospective fragment (if in_frag then scratch ++ fragment else scratch)
        else if decide (record_type = kLastType) then
          if in_frag then Some (OK, scratch ++ fragment, record_done r prospective offset)
          else ReadRecord_loop fuel' r in_frag prospective fragment scratch
        else if decide (record_type = kEof) then Some (Eof, [], r)
        else if decide (record_type = kBadRecord) then Some (InvalidRecord, [], r)
        else Some (InvalidRecord, [],
               ReportDrop r (u32 (size fragment) + (if in_frag then size scratch else 0)) Corruption)
  end.

(** [ReadRecord]; every round of its loop that goes on consumes a header, so
    [fuel] is bounded by the size of the file. *)
Definition ReadRecord (fuel : nat) (r : Reader) : option (Status * bytes * Reader) :=
  if decide (rd_last_record_offset r < rd_initial_offset r) then
    let '(b, r) := SkipToInitialBlock r in
    if (b : bool) then ReadRecord_loop fuel r false 0 [] [] else Some (IOError, [], r)
  else ReadRecord_loop fuel r false 0 [] [].
End reader.
Arguments Reader : clear implicits.
