(* ===== verification/LogRoundtrip.v ===== *)
(** Reading back an uncompressed log: the reader returns exactly the records
    the writer added, and on a file cut at any byte exactly the records that
    lie completely before the cut. *)
From S2P Require Import Prelude CrcTables Coding LogFile LogWriter LogLayout LogReader.

Local Abbreviation h := 7%nat.

Section roundtrip.
Context (snl : bytes -> Z) (snu : bytes -> option bytes) (zu : bytes -> Z * bytes).
Local Abbreviation Rd := (Reader PosixSequentialFile).
Implicit Types (r : Rd) (D d : bytes).

(** The part of a reader's state that reading does not change *)
Record rconf r : Prop := {
  rc_comp : rd_compressed r = false;
  rc_block : rd_block_size r = 4096;
  rc_header : rd_header_size r = 7;
  rc_init : rd_initial_offset r = 0;
  rc_sync : rd_resyncing r = false;
  rc_last : 0 <= rd_last_record_offset r
}.

(** The reader stands at offset [P] of a file [D]; its buffer ends at [E]. *)
Record rok r D (P E : nat) : Prop := {
  rk_conf : rconf r;
  rk_file : exists eof, rd_file r = MkPosixSequentialFile D E eof /\ (eof = true -> E = length D);
  rk_end : rd_end_of_buffer_offset r = Z.of_nat E;
  rk_buf : rd_buffer r = take (E - P) (drop P D);
  rk_le : (P <= E <= length D)%nat;
  rk_blk : (E <= P - P mod B + B)%nat;
  rk_span : E = length D \/ (E = P /\ (P mod B = 0)%nat) \/ E = (P - P mod B + B)%nat
}.
(** Offsets fit in 64 bits. *)
Definition small D : Prop := Z.of_nat (length D) < 2 ^ 62.

Lemma rok_buffer_length r D P E : rok r D P E -> length (rd_buffer r) = (E - P)%nat.
Proof. intros Hr. rewrite (rk_buf _ _ _ _ Hr), length_take, length_drop. pose proof (rk_le _ _ _ _ Hr). lia. Qed.

(** ** Parsing *)

Lemma phys_bytes t d : is_byte t -> all_bytes d -> Z.of_nat (length d) < 65536 -> all_bytes (phys t d).
Proof.
  intros Ht Hd Hl. unfold phys. apply Forall_app. split; [apply le_bytes_all|]. apply Forall_app. split; [|done].
  constructor; [apply Z.mod_pos_bound; lia|]. constructor; [|constructor; [done|constructor]].
  split; [apply Z.div_pos; lia|apply Z.div_lt_upper_bound; lia].
Qed.

Lemma parse_header_phys t d rest : 0 <= t <= 5 -> Z.of_nat (length d) < 65536 ->
  parse_header false (take 7 (phys t d) ++ rest) = Some (t, Z.of_nat (length d)).
Proof.
  intros Ht Hl. unfold phys. set (c := le_bytes 4 _). assert (Hc : length c = 4%nat) by apply length_le_bytes. clearbody c.
  destruct c as [|c0 [|c1 [|c2 [|c3 []]]]]; try done. cbn -[Z.mul Z.add Z.modulo Z.div Z.of_nat uwrap swrap Z.land Z.lor Z.shiftl].
  set (n := Z.of_nat (length d)). assert (0 <= n < 65536) by lia.
  assert (0 <= n `div` 256 < 256) by (split; [apply Z.div_pos; lia|apply Z.div_lt_upper_bound; lia]).
  pose proof (Z.mod_pos_bound n 256 ltac:(lia)). rewrite !land_255, Z.mod_mod, (Z.mod_small (n `div` 256)) by lia.
  rewrite Z.lor_comm, (uwrap_id 32 (Z.shiftl _ 8)) by (unfold in_uint; rewrite Z.shiftl_mul_pow2 by lia; lia).
  rewrite lor_shiftl by lia. rewrite (swrap_id 8) by (unfold in_sint; lia). rewrite uwrap_id by (unfold in_uint; lia).
  do 2 f_equal. change (2 ^ 8) with 256. pose proof (Z.div_mod n 256 ltac:(lia)). lia.
Qed.

Lemma take_7_phys t d rest : phys t d ++ rest = take 7 (phys t d) ++ d ++ rest.
Proof.
  unfold phys. rewrite !app_assoc. rewrite take_app_length' by (rewrite length_app, length_le_bytes; done).
  by rewrite <- !app_assoc.
Qed.

Lemma crc_check t d rest : 0 <= t <= 5 -> all_bytes d -> Z.of_nat (length d) < 65536 ->
  DecodeFixed32 true (phys t d ++ rest) = Some (Mask (crc32c 0 (t :: d))) /\
  Value 0 (take (S (length d)) (drop 6 (phys t d ++ rest))) = Some (crc32c 0 (t :: d)) /\
  in_uint 32 (crc32c 0 (t :: d)).
Proof.
  intros Ht Hd Hl. assert (Htd : all_bytes (t :: d)) by (constructor; [unfold is_byte; lia|done]).
  assert (Hc : in_uint 32 (crc32c 0 (t :: d))) by (apply crc32c_range; [unfold in_uint; lia|done]).
  split; [|split; [|done]].
  - unfold phys. rewrite <- app_assoc, DecodeFixed32_le by (apply length_le_bytes || apply le_bytes_all).
    rewrite le_val_bytes. f_equal. apply Z.mod_small. apply Mask_range.
  - unfold Value. assert (take (S (length d)) (drop 6 (phys t d ++ rest)) = t :: d) as ->.
    { unfold phys. set (c := le_bytes 4 _). assert (Hlc : length c = 4%nat) by apply length_le_bytes. clearbody c.
      destruct c as [|c0 [|c1 [|c2 [|c3 []]]]]; try done. cbn [app drop take]. by rewrite take_app_length. }
    apply Extend_crc32c; [lia|unfold in_uint; lia|done].
Qed.

(** A complete physical record at the front of the buffer *)
Lemma parse_record_ok r t d rest fragment : rconf r -> 1 <= t <= 4 -> all_bytes d -> Z.of_nat (length d) < 65536 ->
  rd_buffer r = phys t d ++ rest -> size (rd_buffer r) <= rd_end_of_buffer_offset r < 2 ^ 63 ->
  parse_record r fragment = Some (t, d, set_rd_buffer rest r).
Proof.
  intros Hc Ht Hd Hl Hb He. unfold parse_record. rewrite (rc_comp _ Hc), (rc_header _ Hc).
  rewrite Hb, (take_7_phys t d rest), parse_header_phys by lia. rewrite <- take_7_phys. rewrite bind_some.
  assert (Hsz : size (phys t d ++ rest) = 7 + Z.of_nat (length d) + size rest)
    by (unfold size; rewrite length_app, length_phys; lia).
  assert (0 <= size rest) by (unfold size; lia). rewrite Hb, Hsz in He.
  rewrite !(uwrap_id 32) by (unfold in_uint; lia). rewrite Hsz, decide_False by lia.
  assert (Hcrc : (if rd_checksum r then masked ← DecodeFixed32 true (phys t d ++ rest);
    actual_crc ← Value 0 (take (Z.to_nat (1 + Z.of_nat (length d))) (drop 6 (phys t d ++ rest)));
    Some (bool_decide (actual_crc = Unmask masked)) else Some true) = Some true).
  { destruct (rd_checksum r); [|done]. destruct (crc_check t d rest ltac:(lia) Hd Hl) as (-> & Hv & Hr).
    rewrite bind_some. replace (Z.to_nat (1 + Z.of_nat (length d))) with (S (length d)) by lia. rewrite Hv, bind_some.
    f_equal. apply bool_decide_eq_true_2. by rewrite Unmask_of_Mask. }
  rewrite Hcrc, bind_some. cbn [negb].
  rewrite decide_False by (unfold kEofType; lia). rewrite decide_False by (unfold kZeroType; lia).
  replace (Z.to_nat (7 + Z.of_nat (length d))) with (length (phys t d)) by (rewrite length_phys; lia).
  rewrite drop_app_length.
  cbn [set_rd_buffer rd_end_of_buffer_offset rd_buffer rd_initial_offset rd_header_size].
  rewrite (rc_init _ Hc), (rc_header _ Hc). rewrite decide_False by (rewrite uwrap_id by (unfold in_uint; lia); lia).
  do 3 f_equal. change (Z.to_nat 7) with 7%nat. rewrite take_7_phys, drop_app_length' by (rewrite length_take, length_phys; lia).
  by rewrite Nat2Z.id, take_app_length.
Qed.

(** The end-of-log mark *)
Lemma parse_record_eof r rest fragment : rconf r -> rd_buffer r = phys kEofType [] ++ rest ->
  size (rd_buffer r) < 2 ^ 63 ->
  parse_record r fragment = Some (kEof, fragment, set_rd_buffer [] r).
Proof.
  intros Hc Hb He. unfold parse_record. rewrite (rc_comp _ Hc), (rc_header _ Hc).
  rewrite Hb, (take_7_phys _ [] rest), parse_header_phys by done. rewrite <- take_7_phys. rewrite bind_some.
  assert (Hsz : size (phys kEofType [] ++ rest) = 7 + size rest)
    by (unfold size; rewrite length_app, length_phys; simpl; lia).
  assert (0 <= size rest) by (unfold size; lia). cbn [length].
  rewrite !(uwrap_id 32) by (unfold in_uint; cbn; lia). rewrite Hsz, decide_False by lia.
  assert (Hcrc : (if rd_checksum r then masked ← DecodeFixed32 true (phys kEofType [] ++ rest);
    actual_crc ← Value 0 (take (Z.to_nat (1 + Z.of_nat 0)) (drop 6 (phys kEofType [] ++ rest)));
    Some (bool_decide (actual_crc = Unmask masked)) else Some true) = Some true).
  { destruct (rd_checksum r); [|done].
    destruct (crc_check kEofType [] rest ltac:(done) ltac:(constructor) ltac:(done)) as (-> & Hv & Hr).
    rewrite bind_some. change (Z.to_nat (1 + Z.of_nat 0)) with (S (length (@nil Z))). rewrite Hv, bind_some.
    by rewrite Unmask_of_Mask, bool_decide_eq_true_2 by done. }
  rewrite Hcrc, bind_some. cbn [negb]. by rewrite decide_True.
Qed.

(** A record whose data are not all there yet *)
Lemma parse_record_short r t d m fragment : rconf r -> 0 <= t <= 5 -> Z.of_nat (length d) < 65536 ->
  rd_buffer r = take m (phys t d) -> (7 <= m < 7 + length d)%nat ->
  parse_record r fragment = Some (kWaitRecord, fragment, r).
Proof.
  intros Hc Ht Hl Hb Hm. unfold parse_record. rewrite (rc_comp _ Hc), (rc_header _ Hc), Hb.
  assert (take m (phys t d) = take 7 (phys t d) ++ take (m - 7) d) as E.
  { rewrite <- (app_nil_r (phys t d)) at 1. rewrite take_7_phys, take_app.
    rewrite app_nil_r, take_ge, length_take, length_phys by (rewrite length_take, length_phys; lia). by do 2 f_equal. }
  rewrite E at 1. rewrite parse_header_phys, bind_some by done.
  rewrite decide_True; [done|]. unfold size. rewrite length_take, length_phys. rewrite uwrap_id by (unfold in_uint; lia). lia.
Qed.

(** ** Reading blocks *)

Lemma take_length_take {A} n (l : list A) : take (length (take n l)) l = take n l.
Proof. rewrite length_take. destruct (decide (n <= length l)%nat); [by rewrite Nat.min_l|]. by rewrite Nat.min_r, !take_ge by lia. Qed.

(** The state after a block was read at [E] *)
Definition after_read r D (E : nat) : Rd :=
  let got := take B (drop E D) in
  set_rd_end_of_buffer (Z.of_nat (E + length got))
    (set_rd_buffer got (set_rd_backing (got ++ drop (length got) (rd_backing_store r))
       (set_rd_file (MkPosixSequentialFile D (E + length got) (bool_decide (length got < B)%nat)) r))).

(** When the buffer holds no header: nothing more at the end of the file, a
    new block otherwise. *)
Lemma ReadPhysicalRecord_refill r D P E fragment : rok r D P E -> small D -> (E - P < 7)%nat ->
  (E = length D -> exists r' off, ReadPhysicalRecord snl snu zu r fragment = Some (kWaitRecord, fragment, off, r') /\ rconf r' /\
     rd_last_end_of_buffer_offset r' = rd_last_end_of_buffer_offset r) /\
  (E <> length D -> ReadPhysicalRecord snl snu zu r fragment =
     let r' := after_read r D E in
     if decide (size (rd_buffer r') < 7) then Some (kWaitRecord, fragment, Z.of_nat E, r')
     else '(t, fragment, r'') ← parse_record r' fragment; Some (t, fragment, Z.of_nat E, r'')).
Proof.
  intros Hr Hsm Hlt. pose proof (rk_conf _ _ _ _ Hr) as Hc. destruct (rk_file _ _ _ _ Hr) as (eof & Hf & Heof).
  pose proof (rk_le _ _ _ _ Hr) as Hle. unfold ReadPhysicalRecord, small in *.
  assert (Hsz : size (rd_buffer r) < rd_header_size r)
    by (unfold size; rewrite (rok_buffer_length _ _ _ _ Hr), (rc_header _ Hc); lia).
  rewrite decide_True by done. unfold read_block, read_file.
  change (rd_compressed (set_rd_buffer [] r)) with (rd_compressed r). rewrite (rc_comp _ Hc). cbn [negb].
  change (rd_block_size (set_rd_buffer [] r)) with (rd_block_size r). rewrite require_P by lia.
  change (rd_file (set_rd_buffer [] r)) with (rd_file r). rewrite Hf, (rc_block _ Hc).
  cbn [sf_Read posix_sequential]. unfold PosixSequentialFile_Read. cbn [ps_eof ps_pos ps_data].
  change (Z.to_nat 4096) with B. repeat (rewrite bind_some; cbv beta iota).
  split.
  - intros HE. assert ((if eof then [] else take B (drop E D)) = []) as ->.
    { destruct eof; [done|]. by rewrite drop_ge, take_nil by lia. }
    cbn [length]. change (ok OK) with true. cbn [negb].
    cbn [set_rd_end_of_buffer set_rd_buffer set_rd_backing set_rd_file rd_buffer rd_header_size rd_end_of_buffer_offset].
    rewrite decide_True by (rewrite (rc_header _ Hc); done). eexists _, _. split; [done|]. split; [|done].
    split; try apply Hc.
  - intros HE. assert (eof = false) as -> by (destruct eof; [by rewrite Heof in HE|done]).
    change (ok OK) with true. cbn [negb orb]. unfold after_read.
    cbn [set_rd_end_of_buffer set_rd_buffer set_rd_backing set_rd_file rd_buffer rd_header_size rd_end_of_buffer_offset].
    rewrite (rk_end _ _ _ _ Hr), (rc_header _ Hc). pose proof (length_take_le (drop E D) B).
    assert (length (take B (drop E D)) <= length D)%nat by (rewrite length_take, length_drop; lia).
    rewrite uwrap_id by (unfold in_uint, size; lia). rewrite Nat2Z.inj_add. reflexivity.
Qed.

Lemma after_read_rok r D P E : rok r D P E -> E <> length D -> (E mod B = 0)%nat ->
  rok (after_read r D E) D E (E + length (take B (drop E D))).
Proof.
  intros Hr HE Hmod. pose proof (rk_conf _ _ _ _ Hr) as Hc. pose proof (rk_le _ _ _ _ Hr) as Hle.
  pose proof (length_take (drop E D) B) as Hlt. rewrite length_drop in Hlt. split.
  - split; apply Hc.
  - eexists. split; [done|]. intros Hs%bool_decide_eq_true. lia.
  - done.
  - cbn [after_read set_rd_end_of_buffer set_rd_buffer rd_buffer].
    replace (E + length (take B (drop E D)) - E)%nat with (length (take B (drop E D))) by lia. by rewrite take_length_take.
  - lia.
  - rewrite Hmod. lia.
  - rewrite Hmod. lia.
Qed.

(** ** Physical records in a file *)

Lemma rok_step r D P E t d rest : rok r D P E -> drop P D = phys t d ++ rest -> rd_buffer r = phys t d ++ take (E - P - (7 + length d)) rest ->
  (P mod B + 7 + length d <= B)%nat -> (P + 7 + length d <= E)%nat ->
  rok (set_rd_buffer (take (E - P - (7 + length d)) rest) r) D (P + (7 + length d)) E.
Proof.
  intros Hr HD Hb Hfit HE. pose proof (rk_le _ _ _ _ Hr). pose proof (rk_blk _ _ _ _ Hr). pose proof (rk_span _ _ _ _ Hr) as Hsp.
  pose proof (mod_B P). pose proof (Nat.div_mod_eq P B) as Hdm.
  assert (Hnew : ((P mod B + 7 + length d < B)%nat /\ ((P + (7 + length d)) mod B = P mod B + 7 + length d)%nat) \/
    ((P mod B + 7 + length d = B)%nat /\ ((P + (7 + length d)) mod B = 0)%nat /\ E = (P + (7 + length d))%nat)).
  { destruct (decide (P mod B + 7 + length d = B)%nat) as [Hf|Hf].
    - right. split; [done|]. split; [|lia]. symmetry. apply (Nat.mod_unique _ B (P / B + 1)); blia.
    - left. split; [lia|]. symmetry. apply (Nat.mod_unique _ B (P / B)); blia. }
  split.
  - destruct (rk_conf _ _ _ _ Hr). by split.
  - apply Hr.
  - apply Hr.
  - cbn [set_rd_buffer rd_buffer]. replace (drop (P + (7 + length d)) D) with rest; [f_equal; lia|].
    rewrite <- drop_drop, HD, drop_app_length' by (by rewrite length_phys). done.
  - lia.
  - destruct Hnew as [(?&->)|(?&->&?)]; lia.
  - destruct Hnew as [(?&->)|(?&->&?)]; lia.
Qed.

(** A complete record whose header is in the buffer is in it entirely. *)
Lemma rok_holds r D P E t d rest : rok r D P E -> (7 <= E - P)%nat -> drop P D = phys t d ++ rest ->
  (P mod B + 7 + length d <= B)%nat ->
  (P + 7 + length d <= E)%nat /\ rd_buffer r = phys t d ++ take (E - P - (7 + length d)) rest.
Proof.
  intros Hr H7 HD Hfit. pose proof (rk_le _ _ _ _ Hr). pose proof (rk_span _ _ _ _ Hr) as Hsp.
  assert (Hlen : (length D - P = 7 + length d + length rest)%nat).
  { rewrite <- length_drop, HD, length_app, length_phys. done. }
  assert (HE : (P + 7 + length d <= E)%nat) by lia. split; [done|].
  rewrite (rk_buf _ _ _ _ Hr), HD, take_app, length_phys, take_ge by (rewrite length_phys; lia). done.
Qed.

Lemma parse_piece r D P E t d rest fragment : rok r D P E -> small D -> (7 <= E - P)%nat -> drop P D = phys t d ++ rest ->
  (P mod B + 7 + length d <= B)%nat -> 1 <= t <= 4 -> all_bytes d ->
  exists r', parse_record r fragment = Some (t, d, r') /\ rok r' D (P + (7 + length d)) E.
Proof.
  intros Hr Hsm H7 HD Hfit Ht Hd. destruct (rok_holds _ _ _ _ _ _ _ Hr H7 HD Hfit) as [HE Hb].
  eexists. split; [|by eapply rok_step]. unfold small in Hsm. pose proof (rk_le _ _ _ _ Hr).
  apply parse_record_ok; try done; [apply Hr|blia|]. unfold size. rewrite (rok_buffer_length _ _ _ _ Hr), (rk_end _ _ _ _ Hr). lia.
Qed.

(** Where the next block starts when the buffer holds no header *)
Lemma rok_refill r D P E : rok r D P E -> (E - P < 7)%nat -> E <> length D ->
  E = (P + pad P)%nat /\ (E mod B = 0)%nat /\ pad E = 0%nat.
Proof.
  intros Hr Hlt HE. pose proof (rk_le _ _ _ _ Hr). pose proof (mod_B P). pose proof (Nat.div_mod_eq P B) as Hdm.
  assert (HEmod : E = (P + pad P)%nat /\ (E mod B = 0)%nat).
  { unfold pad. destruct (rk_span _ _ _ _ Hr) as [?|[[-> Hz]|Hb]]; [done| |].
    - rewrite Hz, decide_False by blia. lia.
    - rewrite decide_True by lia. split; [lia|]. symmetry. apply (Nat.mod_unique _ B (P / B + 1)); blia. }
  destruct HEmod as [-> Hz]. split; [done|]. split; [done|]. unfold pad at 1. rewrite Hz, decide_False by blia. done.
Qed.

(** The buffer of a block whose trailer was reached holds no header. *)
Lemma rok_no_trailer r D P E : rok r D P E -> (7 <= E - P)%nat -> pad P = 0%nat.
Proof.
  intros Hr H7. pose proof (rk_blk _ _ _ _ Hr). pose proof (mod_B P). pose proof (Nat.Div0.mod_le P B). unfold pad.
  rewrite decide_False by lia. done.
Qed.

Lemma read_piece r D P E t d rest fragment : rok r D P E -> small D ->
  drop P D = replicate (pad P) 0 ++ phys t d ++ rest ->
  ((P + pad P) mod B + 7 + length d <= B)%nat -> 1 <= t <= 4 -> all_bytes d ->
  exists off r' E', ReadPhysicalRecord snl snu zu r fragment = Some (t, d, off, r') /\
    rok r' D (P + pad P + (7 + length d)) E'.
Proof.
  intros Hr Hsm HD Hfit Ht Hd. pose proof (rk_le _ _ _ _ Hr). pose proof (rk_conf _ _ _ _ Hr) as Hc.
  assert (Hlen : (length D - P = pad P + (7 + length d + length rest))%nat).
  { rewrite <- length_drop, HD, !length_app, length_replicate, length_phys. done. }
  destruct (decide (7 <= E - P)%nat) as [H7|H7].
  - pose proof (rok_no_trailer _ _ _ _ Hr H7) as Hp. rewrite Hp, Nat.add_0_r in *. cbn [replicate app] in HD.
    destruct (parse_piece r D P E t d rest fragment) as (r' & Hpr & Hr'); try done.
    exists 0, r', E. split; [|done]. unfold ReadPhysicalRecord.
    rewrite decide_False by (unfold size; rewrite (rok_buffer_length _ _ _ _ Hr), (rc_header _ Hc); lia).
    by rewrite Hpr, bind_some.
  - assert (HE : E <> length D).
    { intros HE. destruct (rk_span _ _ _ _ Hr) as [?|[[? Hz]|Hb]]; pose proof (rk_blk _ _ _ _ Hr);
        pose proof (mod_B P); pose proof (Nat.Div0.mod_le P B); unfold pad in *; case_decide; lia. }
    destruct (rok_refill r D P E Hr ltac:(lia) HE) as (HEq & Hz & Hp).
    destruct (ReadPhysicalRecord_refill r D P E fragment Hr Hsm ltac:(lia)) as [_ ->]; [|done]. cbv zeta.
    pose proof (after_read_rok r D P E Hr HE Hz) as Hr1. set (r1 := after_read r D E) in *.
    set (E1 := (E + length (take B (drop E D)))%nat) in *.
    assert (HD1 : drop E D = phys t d ++ rest).
    { rewrite HEq, <- drop_drop, HD, drop_app_length' by (by rewrite length_replicate). done. }
    rewrite <- HEq in Hfit. assert (H7' : (7 <= E1 - E)%nat).
    { unfold E1. rewrite length_take, length_drop. blia. }
    rewrite decide_False by (unfold size; rewrite (rok_buffer_length _ _ _ _ Hr1); lia).
    destruct (parse_piece r1 D E E1 t d rest fragment) as (r' & -> & Hr'); try done.
    rewrite bind_some. exists (Z.of_nat E), r', E1. split; [done|]. by rewrite <- HEq.
Qed.

(** What a physical record read from a header in the buffer, or after a block
    was read, comes down to: [pp] is the parsing of the state that holds it. *)
Lemma read_cases r D P E fragment : rok r D P E -> small D ->
  ((7 <= E - P)%nat /\ pad P = 0%nat /\
    ReadPhysicalRecord snl snu zu r fragment = '(t, fr, r') ← parse_record r fragment; Some (t, fr, 0, r')) \/
  (exists r1 E1, (E - P < 7)%nat /\ E <> length D /\ E = (P + pad P)%nat /\ rok r1 D E E1 /\ E1 = (E + length (take B (drop E D)))%nat /\
    ReadPhysicalRecord snl snu zu r fragment =
      if decide (E1 - E < 7)%nat then Some (kWaitRecord, fragment, Z.of_nat E, r1)
      else '(t, fr, r') ← parse_record r1 fragment; Some (t, fr, Z.of_nat E, r')) \/
  ((E - P < 7)%nat /\ E = length D /\
    exists r' off, ReadPhysicalRecord snl snu zu r fragment = Some (kWaitRecord, fragment, off, r') /\ rconf r').
Proof.
  intros Hr Hsm. pose proof (rk_conf _ _ _ _ Hr) as Hc. destruct (decide (7 <= E - P)%nat) as [H7|H7].
  - left. split; [done|]. split; [by eapply rok_no_trailer|]. unfold ReadPhysicalRecord.
    by rewrite decide_False by (unfold size; rewrite (rok_buffer_length _ _ _ _ Hr), (rc_header _ Hc); lia).
  - destruct (ReadPhysicalRecord_refill r D P E fragment Hr Hsm ltac:(lia)) as [Hend Hmore].
    destruct (decide (E = length D)) as [HE|HE].
    + right; right. destruct (Hend HE) as (r' & off & ? & ? & _). split; [lia|]. split; [done|]. by exists r', off.
    + right; left. destruct (rok_refill r D P E Hr ltac:(lia) HE) as (HEq & Hz & Hp).
      pose proof (after_read_rok r D P E Hr HE Hz) as Hr1. eexists _, _. split; [lia|]. do 2 (split; [done|]). split; [exact Hr1|].
      split; [done|]. rewrite (Hmore HE). cbv zeta. apply decide_ext. unfold size.
      rewrite (rok_buffer_length _ _ _ _ Hr1). lia.
Qed.

Lemma read_short r D P E t d m fragment : rok r D P E -> small D ->
  drop P D = take m (replicate (pad P) 0 ++ phys t d) -> (m < pad P + (7 + length d))%nat ->
  ((P + pad P) mod B + 7 + length d <= B)%nat -> 0 <= t <= 5 ->
  exists off r', ReadPhysicalRecord snl snu zu r fragment = Some (kWaitRecord, fragment, off, r') /\ rconf r'.
Proof.
  intros Hr Hsm HD Hm Hfit Ht. pose proof (rk_le _ _ _ _ Hr) as Hle. pose proof (rk_conf _ _ _ _ Hr) as Hc.
  assert (Hlen : (length D - P = m)%nat).
  { rewrite <- length_drop, HD, length_take, length_app, length_replicate, length_phys. lia. }
  destruct (read_cases r D P E fragment Hr Hsm) as [(H7 & Hp & ->)|[(r1 & E1 & H7 & HE & HEq & Hr1 & HE1 & ->)|(_ & _ & r' & off & -> & ?)]].
  - rewrite Hp in *. cbn [replicate app] in HD. rewrite (parse_record_short r t d (E - P)); try done.
    + rewrite bind_some. eauto.
    + blia.
    + rewrite (rk_buf _ _ _ _ Hr), HD, take_take. f_equal. lia.
    + lia.
  - assert (HD1 : drop E D = take (m - pad P) (phys t d)).
    { rewrite HEq, <- drop_drop, HD, skipn_firstn_comm. rewrite drop_app_length' by (by rewrite length_replicate). done. }
    assert (HB : take B (drop E D) = drop E D).
    { apply take_ge. rewrite HD1, length_take, length_phys. blia. }
    rewrite HB in HE1. assert (Hl1 : (E1 - E = m - pad P)%nat).
    { rewrite HE1, HD1, length_take, length_phys. lia. }
    case_decide as H7'; [eexists _, _; split; [done|apply Hr1]|].
    rewrite (parse_record_short r1 t d (m - pad P)); try done; [rewrite bind_some; eexists _, _; split; [done|apply Hr1]|apply Hr1|blia| |lia].
    rewrite (rk_buf _ _ _ _ Hr1), Hl1, HD1, take_take. f_equal. lia.
  - eauto.
Qed.

(** The rest of a block is dropped. *)
Lemma rok_clear r D P E : rok r D P E -> rok (set_rd_buffer [] r) D E E.
Proof.
  intros Hr. pose proof (rk_le _ _ _ _ Hr). pose proof (rk_span _ _ _ _ Hr) as Hsp. destruct Hr as [[] ? ? ? ? ? ?]. split; try done.
  - by rewrite Nat.sub_diag.
  - lia.
  - pose proof (mod_B E). pose proof (Nat.Div0.mod_le E B). lia.
  - destruct Hsp as [Hsp|[[Hsp Hz]|Hsp]]; [by left|right; left; by rewrite Hsp|]. right; left. split; [done|]. rewrite Hsp.
    pose proof (Nat.div_mod_eq P B). symmetry. apply (Nat.mod_unique _ B (P / B + 1)); blia.
Qed.

Lemma read_eof r D P E rest fragment : rok r D P E -> small D ->
  drop P D = replicate (pad P) 0 ++ phys kEofType [] ++ rest ->
  exists off r' E', ReadPhysicalRecord snl snu zu r fragment = Some (kEof, fragment, off, r') /\ rok r' D E' E' /\ rd_buffer r' = [] /\
    (P + pad P + 7 <= E')%nat.
Proof.
  intros Hr Hsm HD. pose proof (rk_le _ _ _ _ Hr) as Hle. pose proof (pad_fits P) as Hfit. unfold small in *.
  assert (Hlen : (length D - P = pad P + (7 + length rest))%nat).
  { rewrite <- length_drop, HD, !length_app, length_replicate, length_phys. done. }
  assert (Hpar : forall r0 P0 E0 rest0, rok r0 D P0 E0 -> (7 <= E0 - P0)%nat -> drop P0 D = phys kEofType [] ++ rest0 ->
    (P0 mod B + 7 <= B)%nat -> exists r', parse_record r0 fragment = Some (kEof, fragment, r') /\ rok r' D E0 E0 /\ rd_buffer r' = []).
  { intros r0 P0 E0 rest0 Hr0 H0 HD0 Hf0. destruct (rok_holds r0 D P0 E0 kEofType [] rest0 Hr0 H0 HD0 ltac:(simpl; lia)) as [_ Hb].
    eexists. split; [apply (parse_record_eof r0 _ fragment (rk_conf _ _ _ _ Hr0) Hb)|split; [by eapply rok_clear|done]].
    unfold size. rewrite (rok_buffer_length _ _ _ _ Hr0). pose proof (rk_le _ _ _ _ Hr0). lia. }
  destruct (read_cases r D P E fragment Hr Hsm) as [(H7 & Hp & ->)|[(r1 & E1 & H7 & HE & HEq & Hr1 & HE1 & ->)|(H7 & HE & _)]].
  - rewrite Hp, Nat.add_0_r in *. destruct (Hpar r P E rest Hr H7 HD Hfit) as (r' & -> & ? & ?). rewrite bind_some. eexists _, r', E. split_and!; [done..|lia].
  - assert (HD1 : drop E D = phys kEofType [] ++ rest).
    { rewrite HEq, <- drop_drop, HD, drop_app_length' by (by rewrite length_replicate). done. }
    rewrite <- HEq in Hfit. assert (7 <= E1 - E)%nat by (rewrite HE1, length_take, length_drop; blia).
    rewrite decide_False by lia. destruct (Hpar r1 E E1 rest Hr1) as (r' & -> & ? & ?); try done. rewrite bind_some. eexists _, r', E1. split_and!; [done..|lia].
  - exfalso. pose proof (rk_blk _ _ _ _ Hr). pose proof (mod_B P). pose proof (Nat.Div0.mod_le P B).
    unfold pad in *. case_decide; lia.
Qed.

(** ** Logical records *)

Lemma rok_sync r D P E : rok r D P E -> rok (set_rd_resyncing false r) D P E.
Proof. intros []. split; try done. by destruct rk_conf0; split. Qed.

Lemma rok_done r D P E lro off : rok r D P E -> 0 <= lro -> rok (record_done (set_rd_resyncing false r) lro off) D P E.
Proof. intros [] Hl. split; try done. by destruct rk_conf0; split. Qed.

Lemma u64_nonneg x : 0 <= u64 x.
Proof. by apply (uwrap_range 64 x). Qed.

Lemma types_distinct : kFullType <> kWaitRecord /\ kFirstType <> kFullType /\ kFirstType <> kWaitRecord /\
  kMiddleType <> kFullType /\ kMiddleType <> kWaitRecord /\ kMiddleType <> kFirstType /\
  kLastType <> kFullType /\ kLastType <> kWaitRecord /\ kLastType <> kFirstType /\ kLastType <> kMiddleType.
Proof. done. Qed.

Local Abbreviation loop := (ReadRecord_loop snl snu zu).

(** One round of the loop on each kind of fragment *)
Lemma loop_step fuel r D P E in_frag prosp fragment scratch t d off r' :
  ReadPhysicalRecord snl snu zu r fragment = Some (t, d, off, r') -> rok r' D P E -> 0 <= prosp ->
  exists r2, rok r2 D P E /\
  (t = kFullType -> loop (S fuel) r in_frag prosp fragment scratch = Some (OK, d, r2)) /\
  (t = kLastType -> in_frag = true -> loop (S fuel) r in_frag prosp fragment scratch = Some (OK, scratch ++ d, r2)) /\
  exists r3 prosp', rok r3 D P E /\ 0 <= prosp' /\
  (t = kFirstType -> loop (S fuel) r in_frag prosp fragment scratch = loop fuel r3 true prosp' d d) /\
  (t = kMiddleType -> in_frag = true ->
     loop (S fuel) r in_frag prosp fragment scratch = loop fuel r3 true prosp d (scratch ++ d)).
Proof.
  intros HR Hr' Hpr. cbn [ReadRecord_loop]. rewrite HR, bind_some. cbv beta iota zeta.
  rewrite (rc_sync _ (rk_conf _ _ _ _ Hr')). cbn [andb].
  set (po := u64 _). assert (0 <= po) by apply u64_nonneg. clearbody po.
  destruct (decide (t = kFullType)) as [->|]; [|destruct (decide (t = kLastType)) as [->|]].
  - eexists. split; [apply rok_done; [exact Hr'|exact H]|]. split; [done|]. split; [done|].
    exists r', 0. split; [done|]. split; [done|]. split; done.
  - eexists. split; [apply rok_done; [exact Hr'|exact Hpr]|]. split; [done|]. split; [intros _ ->; done|].
    exists r', 0. split; [done|]. split; [done|]. split; done.
  - exists r'. split; [done|]. split; [done|]. split; [done|].
    exists (set_rd_resyncing false r'), po. split; [by apply rok_sync|]. split; [done|]. split; [intros ->; done|intros -> ->; done].
Qed.

Lemma pieces_type first d ps t x qs : pieces first d ps -> ps = (t, x) :: qs -> 1 <= t <= 4.
Proof. destruct 1; intros [= <- _ _]; destruct first; unfold kFullType, kLastType, kFirstType, kMiddleType; lia. Qed.

Lemma loop_pieces first d ps : pieces first d ps -> forall r D P E fuel prosp fragment scratch rest,
  rok r D P E -> small D -> drop P D = enc P ps ++ rest -> fits P ps -> all_bytes d -> 0 <= prosp ->
  (length ps <= fuel)%nat ->
  exists r' E', loop fuel r (negb first) prosp fragment scratch = Some (OK, (if first then [] else scratch) ++ d, r') /\
    rok r' D (P + length (enc P ps)) E'.
Proof.
  induction 1 as [first d|first d1 d2 ps Hps IH]; intros r D P E fuel prosp fragment scratch rest Hr Hsm HD Hfit Hd Hpr Hf;
    (destruct fuel as [|fuel]; [simpl in Hf; lia|]); cbn [enc fits] in *.
  - destruct Hfit as [Hfit _]. rewrite app_nil_r, <- app_assoc in HD.
    edestruct (read_piece r D P E) as (off & r' & E' & HR & Hr'); [done|done|exact HD|done| |done|].
    { destruct first; unfold kFullType, kLastType; lia. }
    destruct (loop_step fuel r D _ _ (negb first) prosp fragment scratch _ _ _ _ HR Hr' Hpr) as (r2 & Hr2 & H1 & H2 & _).
    exists r2, E'. split; [destruct first; [by rewrite H1|by rewrite H2]|].
    rewrite app_nil_r, length_app, length_replicate, length_phys. by rewrite Nat.add_assoc.
  - destruct Hfit as [Hfit Hfits]. rewrite <- !app_assoc in HD. apply Forall_app in Hd as [Hd1 Hd2].
    edestruct (read_piece r D P E) as (off & r' & E' & HR & Hr'); [done|done|exact HD|done| |done|].
    { destruct first; unfold kFirstType, kMiddleType; lia. }
    destruct (loop_step fuel r D _ _ (negb first) prosp fragment scratch _ _ _ _ HR Hr' Hpr)
      as (r2 & Hr2 & _ & _ & r3 & prosp' & Hr3 & Hpr' & H3 & H4).
    assert (HD' : drop (P + pad P + (7 + length d1)) D = enc (P + pad P + (7 + length d1)) ps ++ rest).
    { replace (drop (P + pad P + (7 + length d1)) D) with (drop (pad P + (7 + length d1)) (drop P D))
        by (rewrite drop_drop; f_equal; lia).
      rewrite HD, (app_assoc (replicate _ _) (phys _ _)), drop_app_length'; [done|].
      rewrite length_app, length_replicate, length_phys. done. }
    assert (HP : (P + length (replicate (pad P) 0%Z ++ phys (if first then kFirstType else kMiddleType) d1 ++
        enc (P + pad P + (7 + length d1)) ps))%nat = (P + pad P + (7 + length d1) + length (enc (P + pad P + (7 + length d1)) ps))%nat).
    { rewrite !length_app, length_replicate, length_phys. lia. }
    rewrite HP. destruct first.
    + rewrite H3 by done. destruct (IH r3 D _ E' fuel prosp' d1 d1 rest Hr3 Hsm HD' Hfits Hd2 Hpr') as (r4 & E4 & Hl & Hr4); [simpl in Hf; lia|].
      exists r4, E4. split; [exact Hl|done].
    + rewrite H4 by done. destruct (IH r3 D _ E' fuel prosp d1 (scratch ++ d1) rest Hr3 Hsm HD' Hfits Hd2 Hpr) as (r4 & E4 & Hl & Hr4); [simpl in Hf; lia|].
      exists r4, E4. split; [|done]. etransitivity; [exact Hl|]. by rewrite <- app_assoc.
Qed.

Lemma loop_wait fuel r in_frag prosp fragment scratch off r' :
  ReadPhysicalRecord snl snu zu r fragment = Some (kWaitRecord, fragment, off, r') -> rconf r' ->
  exists r2, loop (S fuel) r in_frag prosp fragment scratch = Some (WaitRecord, [], r2).
Proof.
  intros HR Hc. cbn [ReadRecord_loop]. rewrite HR, bind_some. cbv beta iota zeta. rewrite (rc_sync _ Hc). cbn [andb]. by eexists.
Qed.

Lemma loop_eof fuel r in_frag prosp fragment scratch off r' :
  ReadPhysicalRecord snl snu zu r fragment = Some (kEof, fragment, off, r') -> rconf r' ->
  loop (S fuel) r in_frag prosp fragment scratch = Some (Eof, [], set_rd_resyncing false r').
Proof.
  intros HR Hc. cbn [ReadRecord_loop]. rewrite HR, bind_some. cbv beta iota zeta. by rewrite (rc_sync _ Hc).
Qed.

Lemma loop_short first d ps : pieces first d ps -> forall r D P E fuel prosp fragment scratch m,
  rok r D P E -> small D -> drop P D = take m (enc P ps) -> (m < length (enc P ps))%nat -> fits P ps -> all_bytes d ->
  0 <= prosp -> (m < fuel)%nat ->
  exists r', loop fuel r (negb first) prosp fragment scratch = Some (WaitRecord, [], r').
Proof.
  induction 1 as [first d|first d1 d2 ps Hps IH]; intros r D P E fuel prosp fragment scratch m Hr Hsm HD Hm Hfit Hd Hpr Hf;
    (destruct fuel as [|fuel]; [lia|]); cbn [enc fits] in *; destruct Hfit as [Hfit Hfits].
  - rewrite app_nil_r in HD, Hm. rewrite length_app, length_replicate, length_phys in Hm.
    edestruct (read_short r D P E) as (off & r' & HR & Hc); [done|done|exact HD|exact Hm|done| |by eapply loop_wait].
    destruct first; unfold kFullType, kLastType; lia.
  - apply Forall_app in Hd as [Hd1 Hd2]. set (t := if first then kFirstType else kMiddleType) in *.
    assert (Ht : 1 <= t <= 4) by (unfold t; destruct first; unfold kFirstType, kMiddleType; lia).
    rewrite (app_assoc (replicate _ _)) in HD. set (A := replicate (pad P) 0 ++ phys t d1) in *.
    assert (HA : length A = (pad P + (7 + length d1))%nat) by (unfold A; by rewrite length_app, length_replicate, length_phys).
    destruct (decide (m < length A)%nat) as [Hlt|Hge].
    + edestruct (read_short r D P E t d1 m) as (off & r' & HR & Hc); [done|done| |lia|done|lia|by eapply loop_wait].
      rewrite HD. fold A. by rewrite take_app_le by lia.
    + rewrite take_app_ge in HD by lia. unfold A in HD at 1. rewrite <- app_assoc in HD.
      edestruct (read_piece r D P E) as (off & r' & E' & HR & Hr'); [done|done|exact HD|done|done|done|].
      destruct (loop_step fuel r D _ _ (negb first) prosp fragment scratch _ _ _ _ HR Hr' Hpr)
        as (r2 & Hr2 & _ & _ & r3 & prosp' & Hr3 & Hpr' & H3 & H4).
      assert (HD' : drop (P + pad P + (7 + length d1)) D = take (m - length A) (enc (P + pad P + (7 + length d1)) ps)).
      { replace (drop (P + pad P + (7 + length d1)) D) with (drop (length A) (drop P D))
          by (rewrite drop_drop; f_equal; lia).
        rewrite HD, app_assoc. fold A. by rewrite drop_app_length. }
      assert (Hm' : (m - length A < length (enc (P + pad P + (7 + length d1)) ps))%nat).
      { rewrite !length_app, length_replicate, length_phys in Hm. lia. }
      unfold t in *. destruct first.
      * rewrite H3 by done. eapply (IH r3 D); try done. lia.
      * rewrite H4 by done. eapply (IH r3 D); try done. lia.
Qed.

(** [n] successive calls of [ReadRecord] *)
Fixpoint ReadRecords (fuel n : nat) r : option (list (Status * bytes) * Rd) :=
  match n with
  | O => Some ([], r)
  | S n' =>
      '(st, rec, r) ← ReadRecord snl snu zu fuel r;
      '(out, r) ← ReadRecords fuel n' r;
      Some ((st, rec) :: out, r)
  end.

Lemma ReadRecord_loop_eq r D P E fuel : rok r D P E -> ReadRecord snl snu zu fuel r = loop fuel r false 0 [] [].
Proof.
  intros Hr. unfold ReadRecord. pose proof (rk_conf _ _ _ _ Hr) as Hc. pose proof (rc_last _ Hc).
  by rewrite (rc_init _ Hc), decide_False by lia.
Qed.

(** The records before a cut, and then a wait *)
Lemma read_trunc P ds ps ends : laid P ds ps ends -> forall r D E fuel m,
  rok r D P E -> small D -> drop P D = take m (enc P ps) -> Forall all_bytes ds -> (length (enc P ps) < fuel)%nat ->
  exists k r' e, (P :: ends) !! k = Some e /\ (e <= P + m)%nat /\
    (forall e', (P :: ends) !! S k = Some e' -> (P + m < e')%nat) /\
    ReadRecords fuel (S k) r = Some (((fun d => (OK, d)) <$> take k ds) ++ [(WaitRecord, [])], r').
Proof.
  induction 1 as [P|P d ds ps qs ends Hps Hfit Hl IH]; intros r D E fuel m Hr Hsm HD Hd Hfuel.
  - destruct fuel as [|fuel]; [simpl in Hfuel; lia|]. cbn [enc] in HD. rewrite take_nil in HD.
    destruct (read_short r D P E kFullType [] 0 [] Hr Hsm) as (off & r' & HR & Hc); [by rewrite HD|simpl; lia| |done|].
    { pose proof (pad_fits P). simpl. lia. }
    destruct (loop_wait fuel r false 0 [] [] off r' HR Hc) as (r2 & Hw).
    exists 0%nat, r2, P. split; [done|]. split; [lia|]. split; [done|]. cbn [ReadRecords take fmap list_fmap app].
    by rewrite (ReadRecord_loop_eq r D P E), Hw by done.
  - apply Forall_cons in Hd as [Hd Hds]. rewrite enc_app in HD, Hfuel. rewrite length_app in Hfuel.
    set (L := length (enc P ps)) in *. pose proof (length_enc P ps) as Hlp.
    destruct (decide (m < L)%nat) as [Hlt|Hge].
    + rewrite take_app_le in HD by (unfold L in *; lia).
      destruct (loop_short true d ps Hps r D P E fuel 0 [] [] m) as (r' & Hw); try done; [lia|].
      exists 0%nat, r', P. split; [done|]. split; [lia|]. split; [intros e' [= <-]; lia|].
      cbn [ReadRecords take fmap list_fmap app]. cbn [negb] in Hw. by rewrite (ReadRecord_loop_eq r D P E), Hw by done.
    + rewrite take_app_ge in HD by (unfold L in *; lia). fold L in HD.
      destruct (loop_pieces true d ps Hps r D P E fuel 0 [] [] _ Hr Hsm HD Hfit Hd) as (r1 & E1 & HR & Hr1); [lia|lia|].
      fold L in Hr1. assert (HD1 : drop (P + L) D = take (m - L) (enc (P + L) qs)).
      { by rewrite <- drop_drop, HD, drop_app_length' by done. }
      destruct (IH r1 D E1 fuel (m - L)%nat Hr1 Hsm HD1 Hds) as (k & r' & e & He & Hle & Hnext & Hrd); [unfold L in *; lia|].
      exists (S k), r', e. split; [done|]. split; [lia|]. split; [intros e' He'; specialize (Hnext e' He'); lia|].
      change (ReadRecords fuel (S (S k)) r) with
        ('(st, rec, r) ← ReadRecord snl snu zu fuel r; '(out, r) ← ReadRecords fuel (S k) r; Some ((st, rec) :: out, r)).
      rewrite (ReadRecord_loop_eq r D P E) by done. cbn [negb] in HR. rewrite HR, bind_some, Hrd, bind_some. done.
Qed.
End roundtrip.
