(* ===== verification/LogThms.v ===== *)
(** Correctness of the log: what the writer of log/log_writer.cc puts into a
    file, over any number of sessions, is what the reader of log/log_reader.cc
    gives back, and a file cut at an arbitrary byte gives back exactly the
    records that are complete. *)
From S2P Require Import Prelude CrcTables Coding LogFile LogWriter LogLayout LogReader LogRoundtrip.

(** * LogResume: Resuming a log reader: what a call leaves of the reader's state whatever it
    returns, and reading on from the start of a block, where the rest of a
    record whose beginning lies in an earlier block is passed over. *)
Section resume.
Context (snl : bytes -> Z) (snu : bytes -> option bytes) (zu : bytes -> Z * bytes).
Local Abbreviation Rd := (Reader PosixSequentialFile).
Local Abbreviation loop := (ReadRecord_loop snl snu zu).
Local Abbreviation RPR := (ReadPhysicalRecord snl snu zu).
Implicit Types (r : Rd) (D d : bytes).

(** ** The invariant of a reader

    [E] is where its buffer ends in the file, [L] the start of the block it goes
    back to.  A stream that is not at its end stands at a block boundary, since
    blocks are read whole. *)
Record rinv r D (E L : nat) (eof : bool) : Prop := {
  ri_conf : rconf r;
  ri_file : rd_file r = MkPosixSequentialFile D E eof;
  ri_end : rd_end_of_buffer_offset r = Z.of_nat E;
  ri_le : (E <= length D)%nat;
  ri_eof : eof = false -> (E mod B = 0)%nat;
  ri_last : rd_last_end_of_buffer_offset r = Z.of_nat L;
  ri_block : (L mod B = 0)%nat;
  ri_back : (L + length (rd_buffer r) <= E)%nat
}.

Lemma rinv_buffer r D E L eof b : rinv r D E L eof -> (length b <= length (rd_buffer r))%nat -> rinv (set_rd_buffer b r) D E L eof.
Proof. intros [[] ? ? ? ? ? ? ?] Hb. split; try done. cbn [set_rd_buffer rd_buffer]. lia. Qed.
Lemma rinv_drop r D E L eof n st : rinv r D E L eof -> rinv (ReportDrop r n st) D E L eof.
Proof. intros Hr. unfold ReportDrop. destruct (rd_reporter r); [|done]. case_decide; [|done]. destruct Hr as [[] ? ? ? ? ? ? ?]. by split. Qed.
Lemma ReportDrop_last r n st : rd_last_record_end_offset (ReportDrop r n st) = rd_last_record_end_offset r.
Proof. unfold ReportDrop. destruct (rd_reporter r); [|done]. by case_decide. Qed.

(** ** Calls keep it *)

Lemma parse_record_inv r D E L eof fragment t fr r' : rinv r D E L eof -> parse_record r fragment = Some (t, fr, r') ->
  rinv r' D E L eof /\ rd_last_record_end_offset r' = rd_last_record_end_offset r.
Proof.
  intros Hr. unfold parse_record. destruct (parse_header _ _) as [[ty len]|]; [|done]. rewrite bind_some. cbv beta iota zeta.
  case_decide; [by intros [= _ _ <-]|].
  destruct (if rd_checksum r then _ else _) as [crc_ok|]; [|done]. rewrite bind_some. destruct crc_ok; cbn [negb].
  - case_decide; [intros [= _ _ <-]; split; [apply rinv_buffer; [done|simpl; lia]|done]|].
    case_decide; [intros [= _ _ <-]; split; [apply rinv_buffer; [done|simpl; lia]|done]|].
    assert (Hb : forall n, (length (drop n (rd_buffer r)) <= length (rd_buffer r))%nat) by (intros; rewrite length_drop; lia).
    case_decide; intros [= _ _ <-]; (split; [by apply rinv_buffer|done]).
  - intros [= _ _ <-]. split; [apply rinv_drop, rinv_buffer; [done|simpl; lia]|]. by rewrite ReportDrop_last.
Qed.

(** The state after a block was read *)
Lemma read_block_inv r D E L eof res r1 : rinv r D E L eof -> small D -> read_block snl snu zu (set_rd_buffer [] r) = Some (res, r1) ->
  res = inr OK /\ exists got, got = (if eof then [] else take B (drop E D)) /\ rd_buffer r1 = got /\ rd_header_size r1 = 7 /\
    rd_end_of_buffer_offset r1 = Z.of_nat E /\
    rinv (set_rd_end_of_buffer (u64 (Z.of_nat E + size got)) r1) D (E + length got) L (eof || bool_decide (length got < B)%nat) /\
    rd_last_record_end_offset r1 = rd_last_record_end_offset r.
Proof.
  intros Hr Hsm. pose proof (ri_conf _ _ _ _ _ Hr) as Hc. unfold read_block, read_file.
  change (rd_compressed (set_rd_buffer [] r)) with (rd_compressed r). rewrite (rc_comp _ Hc). cbn [negb].
  change (rd_block_size (set_rd_buffer [] r)) with (rd_block_size r). rewrite require_P by lia.
  change (rd_file (set_rd_buffer [] r)) with (rd_file r). rewrite (ri_file _ _ _ _ _ Hr), (rc_block _ Hc).
  cbn [sf_Read posix_sequential]. unfold PosixSequentialFile_Read. cbn [ps_eof ps_pos ps_data].
  change (Z.to_nat 4096) with B. repeat (rewrite bind_some; cbv beta iota). intros [= <- <-]. split; [done|].
  set (got := if eof then [] else take B (drop E D)). exists got. split; [done|]. split; [done|]. split; [apply Hc|]. split; [apply (ri_end _ _ _ _ _ Hr)|].
  assert (Hg : (E + length got <= length D)%nat) by (pose proof (ri_le _ _ _ _ _ Hr); unfold got; destruct eof; simpl; rewrite ?length_take, ?length_drop; lia).
  unfold small in Hsm. split; [|done]. destruct Hr as [[] ? ? ? Heof ? ? Hback]. split; try done.
  - cbn [set_rd_end_of_buffer rd_end_of_buffer_offset]. unfold size. rewrite uwrap_id by (unfold in_uint; lia). lia.
  - intros [-> Hn%bool_decide_eq_false]%orb_false_iff. specialize (Heof eq_refl).
    assert (length got = B) as -> by (unfold got in *; rewrite length_take in *; lia). by rewrite Nat.Div0.add_mod, Nat.Div0.mod_same, Nat.add_0_r, Nat.Div0.mod_mod.
  - cbn [set_rd_end_of_buffer set_rd_buffer set_rd_backing set_rd_file rd_buffer]. lia.
Qed.

Lemma RPR_inv r D E L eof fragment t fr off r' : rinv r D E L eof -> small D -> RPR r fragment = Some (t, fr, off, r') ->
  exists E' eof', rinv r' D E' L eof' /\ rd_last_record_end_offset r' = rd_last_record_end_offset r /\
    (t <> kWaitRecord -> off = 0 \/ exists O, off = Z.of_nat O /\ (O mod B = 0)%nat /\ (O + length (rd_buffer r') <= E')%nat).
Proof.
  intros Hr Hsm. unfold ReadPhysicalRecord. case_decide as Hsz.
  - destruct (read_block _ _ _ _) as [[res r1]|] eqn:Hrb; [|done]. rewrite bind_some. cbv beta iota.
    destruct (read_block_inv _ _ _ _ _ _ _ Hr Hsm Hrb) as (-> & got & Hgot & Hbuf & Hh & HE & Hi & Hl). rewrite HE, Hbuf. cbv zeta. change (ok OK) with true. cbn [negb].
    set (r2 := set_rd_end_of_buffer _ r1) in *. change (rd_buffer r2) with (rd_buffer r1). change (rd_header_size r2) with (rd_header_size r1). rewrite Hh, Hbuf.
    destruct (decide (size got < 7)) as [H7|H7].
    + intros [= <- _ _ <-]. eexists _, _. split; [exact Hi|]. split; [exact Hl|done].
    + destruct (parse_record r2 fragment) as [[[t' fr'] r3]|] eqn:Hp; [|done]. rewrite bind_some. intros [= <- <- <- <-].
      destruct (parse_record_inv _ _ _ _ _ _ _ _ _ Hi Hp) as [Hi3 Hl3]. eexists _, _. split; [exact Hi3|]. split; [by rewrite Hl3|].
      intros _. right. exists E. split; [done|]. destruct eof; [by rewrite Hgot in H7|]. split; [by apply (ri_eof _ _ _ _ _ Hr)|].
      assert (Hle : (length (rd_buffer r3) <= length (rd_buffer r2))%nat).
      { clear -Hp. unfold parse_record in Hp. destruct (parse_header _ _) as [[ty len]|]; [|done]. rewrite bind_some in Hp. cbv beta iota zeta in Hp.
        case_decide; [by simplify_eq|]. destruct (if rd_checksum r2 then _ else _) as [crc_ok|]; [|done]. rewrite bind_some in Hp.
        destruct crc_ok; cbn [negb] in Hp; repeat case_decide; simplify_eq; cbn [set_rd_buffer rd_buffer length]; rewrite ?length_drop; try lia.
        unfold ReportDrop. destruct (rd_reporter _); [case_decide|]; simpl; lia. }
      change (rd_buffer r2) with (rd_buffer r1) in Hle. rewrite Hbuf in Hle. lia.
  - destruct (parse_record r fragment) as [[[t' fr'] r3]|] eqn:Hp; [|done]. rewrite bind_some. intros [= <- <- <- <-].
    destruct (parse_record_inv _ _ _ _ _ _ _ _ _ Hr Hp) as [Hi3 Hl3]. eexists _, _. split; [exact Hi3|]. split; [done|]. by left.
Qed.

Lemma rinv_sync r D E L eof : rinv r D E L eof -> rinv (set_rd_resyncing false r) D E L eof.
Proof. intros [[] ? ? ? ? ? ? ?]. by split. Qed.

Lemma rinv_go_back r D E L eof : rinv r D E L eof -> rinv (GoBackToLastBlock r) D L L false /\ rd_buffer (GoBackToLastBlock r) = [].
Proof.
  intros Hr. unfold GoBackToLastBlock. rewrite (rc_block _ (ri_conf _ _ _ _ _ Hr)), (ri_last _ _ _ _ _ Hr).
  assert (Hm : Z.of_nat L `mod` 4096 = 0) by (rewrite <- B_val, <- Nat2Z.inj_mod, (ri_block _ _ _ _ _ Hr); done). rewrite Hm.
  assert (HL : (if decide (0 < Z.of_nat L) then Z.of_nat L - 0 else 0) = Z.of_nat L) by (case_decide; lia). rewrite HL.
  pose proof (ri_le _ _ _ _ _ Hr). destruct Hr as [[] Hf ? ? ? ? ? ?]. split; [|done]. split; try done.
  - cbn [set_rd_file set_rd_buffer set_rd_end_of_buffer rd_file]. rewrite Hf. cbn. unfold PosixSequentialFile_Seek. cbn. by rewrite Nat2Z.id.
  - lia.
  - cbn [set_rd_file set_rd_buffer set_rd_end_of_buffer rd_buffer length]. lia.
Qed.

(** What [ReadRecord] leaves, for each result *)
Definition outcome r D L (st : Status) r2 : Prop :=
  match st with
  | OK => exists E' L' eof', rinv r2 D E' L' eof' /\ rd_last_record_end_offset r2 = u64 (rd_end_of_buffer_offset r2 - size (rd_buffer r2))
  | WaitRecord => rinv r2 D L L false /\ rd_buffer r2 = [] /\ rd_last_record_end_offset r2 = rd_last_record_end_offset r
  | _ => exists E' eof', rinv r2 D E' L eof' /\ rd_last_record_end_offset r2 = rd_last_record_end_offset r
  end.

Lemma rinv_done r D E L eof lro off : rinv r D E L eof -> 0 <= lro ->
  (off = 0 \/ exists O, off = Z.of_nat O /\ (O mod B = 0)%nat /\ (O + length (rd_buffer r) <= E)%nat) ->
  exists L', rinv (record_done r lro off) D E L' eof.
Proof.
  intros [[] ? ? ? ? ? ? ?] Hl Hoff. unfold record_done. case_decide as H0.
  - destruct Hoff as [->|(O & -> & HO & Hle)]; [done|]. exists O. by split.
  - exists L. by split.
Qed.

Lemma loop_inv fuel : forall r D E L eof in_frag prosp fragment scratch st rec r2, rinv r D E L eof -> small D -> 0 <= prosp ->
  loop fuel r in_frag prosp fragment scratch = Some (st, rec, r2) -> outcome r D L st r2.
Proof.
  induction fuel as [|fuel IH]; intros r D E L eof in_frag prosp fragment scratch st rec r2 Hr Hsm Hpr; [done|]. cbn [ReadRecord_loop].
  destruct (RPR r fragment) as [[[[t fr] off] r1]|] eqn:HR; [|done]. rewrite bind_some. cbv beta iota zeta.
  destruct (RPR_inv _ _ _ _ _ _ _ _ _ _ Hr Hsm HR) as (E1 & eof1 & Hr1 & Hl1 & Hoff).
  rewrite (rc_sync _ (ri_conf _ _ _ _ _ Hr1)). cbn [andb]. apply rinv_sync in Hr1. set (r3 := set_rd_resyncing false r1) in *.
  change (rd_buffer r1) with (rd_buffer r3) in Hoff. change (rd_last_record_end_offset r1) with (rd_last_record_end_offset r3) in Hl1.
  set (po := u64 _). assert (Hpo : 0 <= po) by apply u64_nonneg. clearbody po r3.
  assert (Hstep : forall in_frag prosp fragment scratch, 0 <= prosp -> loop fuel r3 in_frag prosp fragment scratch = Some (st, rec, r2) -> outcome r D L st r2).
  { intros. pose proof (IH _ _ _ _ _ _ _ _ _ _ _ _ Hr1 Hsm ltac:(eassumption) ltac:(eassumption)) as Ho. unfold outcome in *. rewrite Hl1 in Ho. done. }
  assert (Hdone : forall lro, 0 <= lro -> t <> kWaitRecord -> outcome r D L OK (record_done r3 lro off)).
  { intros lro Hlro Hw. destruct (rinv_done _ _ _ _ _ lro off Hr1 Hlro (Hoff Hw)) as (L' & Hd). by exists E1, L', eof1. }
  case_decide; [intros [= <- _ <-]; apply Hdone; [done|by subst]|].
  case_decide.
  { intros [= <- _ <-]. destruct (rinv_go_back _ _ _ _ _ Hr1) as [? ?]. done. }
  case_decide; [by apply Hstep|]. case_decide; [by apply Hstep|].
  case_decide; [destruct in_frag; [intros [= <- _ <-]; apply Hdone; [done|by subst]|by apply Hstep]|].
  case_decide; [intros [= <- _ <-]; by exists E1, eof1|]. case_decide; [intros [= <- _ <-]; by exists E1, eof1|].
  intros [= <- _ <-]. exists E1, eof1. split; [by apply rinv_drop|]. by rewrite ReportDrop_last.
Qed.

(** ** Reading on from the middle of a record *)

(** What is left of a record whose first fragments are not read *)
Inductive rest_pieces : list (Z * bytes) -> Prop :=
  | rest_none : rest_pieces []
  | rest_some d qs : pieces false d qs -> all_bytes d -> rest_pieces qs.

(** A fragment that continues nothing is passed over. *)
Lemma loop_pass fuel r D P E prosp fragment scratch t d off r' :
  RPR r fragment = Some (t, d, off, r') -> rok r' D P E -> t = kMiddleType \/ t = kLastType ->
  loop (S fuel) r false prosp fragment scratch = loop fuel (set_rd_resyncing false r') false prosp d scratch.
Proof.
  intros HR Hr' Ht. cbn [ReadRecord_loop]. rewrite HR, bind_some. cbv beta iota zeta.
  rewrite (rc_sync _ (rk_conf _ _ _ _ Hr')). cbn [andb]. by destruct Ht as [-> | ->].
Qed.

(** [enc] of one more fragment, with what follows *)
Lemma enc_cons P t d ps D rest : drop P D = enc P ((t, d) :: ps) ++ rest ->
  drop P D = replicate (pad P) 0 ++ phys t d ++ (enc (P + pad P + (7 + length d)) ps ++ rest) /\
  drop (P + pad P + (7 + length d)) D = enc (P + pad P + (7 + length d)) ps ++ rest /\
  (P + length (enc P ((t, d) :: ps)))%nat = (P + pad P + (7 + length d) + length (enc (P + pad P + (7 + length d)) ps))%nat.
Proof.
  cbn [enc]. intros HD. rewrite <- !app_assoc in HD. split; [done|]. split.
  - replace (drop (P + pad P + (7 + length d)) D) with (drop (pad P + (7 + length d)) (drop P D)) by (rewrite drop_drop; f_equal; lia).
    rewrite HD, (app_assoc (replicate _ _) (phys _ _)), drop_app_length'; [done|]. by rewrite length_app, length_replicate, length_phys.
  - rewrite !length_app, length_replicate, length_phys. lia.
Qed.

Lemma loop_skip_aux first d qs : pieces first d qs -> first = false -> forall r D P E fuel prosp fragment scratch rest,
  rok r D P E -> small D -> drop P D = enc P qs ++ rest -> fits P qs -> all_bytes d -> (length qs <= fuel)%nat ->
  exists r' E' fragment', loop fuel r false prosp fragment scratch = loop (fuel - length qs) r' false prosp fragment' scratch /\
    rok r' D (P + length (enc P qs)) E'.
Proof.
  induction 1 as [first d|first d1 d2 qs Hqs IH]; intros -> r D P E fuel prosp fragment scratch rest Hr Hsm HD Hfit Hd Hf;
    (destruct fuel as [|fuel]; [simpl in Hf; lia|]); destruct (enc_cons _ _ _ _ _ _ HD) as (HD1 & HD2 & HP); rewrite HP; cbn [fits length] in *.
  - destruct Hfit as [Hfit _]. destruct (read_piece snl snu zu r D P E kLastType d _ fragment Hr Hsm HD1 Hfit ltac:(done) Hd) as (off & r' & E' & HR & Hr').
    exists (set_rd_resyncing false r'), E', d. rewrite (loop_pass fuel r D _ E' prosp fragment scratch _ _ _ _ HR Hr') by (by right). cbn [enc length Nat.sub].
    rewrite Nat.sub_0_r, Nat.add_0_r. split; [done|]. by apply rok_sync.
  - destruct Hfit as [Hfit Hfits]. apply Forall_app in Hd as [Hd1 Hd2].
    destruct (read_piece snl snu zu r D P E kMiddleType d1 _ fragment Hr Hsm HD1 Hfit ltac:(done) Hd1) as (off & r' & E' & HR & Hr').
    rewrite (loop_pass fuel r D _ E' prosp fragment scratch _ _ _ _ HR Hr') by (by left). apply rok_sync in Hr'.
    destruct (IH eq_refl _ D _ E' fuel prosp d1 scratch rest Hr' Hsm HD2 Hfits Hd2 ltac:(lia)) as (r2 & E2 & fr2 & -> & Hr2). by exists r2, E2, fr2.
Qed.

Lemma loop_skip qs : rest_pieces qs -> forall r D P E fuel prosp fragment scratch rest,
  rok r D P E -> small D -> drop P D = enc P qs ++ rest -> fits P qs -> (length qs <= fuel)%nat ->
  exists r' E' fragment', loop fuel r false prosp fragment scratch = loop (fuel - length qs) r' false prosp fragment' scratch /\
    rok r' D (P + length (enc P qs)) E'.
Proof.
  intros [|d qs' Hqs Hd] r D P E fuel prosp fragment scratch rest Hr Hsm HD Hfit Hf.
  - exists r, E, fragment. cbn [length enc Nat.sub]. by rewrite Nat.sub_0_r, Nat.add_0_r.
  - by eapply loop_skip_aux.
Qed.

(** A cut in what is left of a record *)
Lemma loop_skip_short first d qs : pieces first d qs -> first = false -> forall r D P E fuel prosp fragment scratch m,
  rok r D P E -> small D -> drop P D = take m (enc P qs) -> (m < length (enc P qs))%nat -> fits P qs -> all_bytes d ->
  (m < fuel)%nat ->
  exists r', loop fuel r false prosp fragment scratch = Some (WaitRecord, [], r').
Proof.
  induction 1 as [first d|first d1 d2 qs Hqs IH]; intros -> r D P E fuel prosp fragment scratch m Hr Hsm HD Hm Hfit Hd Hf;
    (destruct fuel as [|fuel]; [lia|]); cbn [enc fits length] in *; destruct Hfit as [Hfit Hfits].
  - rewrite app_nil_r in HD, Hm. rewrite length_app, length_replicate, length_phys in Hm.
    destruct (read_short snl snu zu r D P E kLastType d m fragment Hr Hsm HD Hm Hfit ltac:(done)) as (off & r' & HR & Hc). by eapply loop_wait.
  - apply Forall_app in Hd as [Hd1 Hd2]. rewrite (app_assoc (replicate _ _)) in HD. set (A := replicate (pad P) 0 ++ phys kMiddleType d1) in *.
    assert (HA : length A = (pad P + (7 + length d1))%nat) by (unfold A; by rewrite length_app, length_replicate, length_phys).
    destruct (decide (m < length A)%nat) as [Hlt|Hge].
    + destruct (read_short snl snu zu r D P E kMiddleType d1 m fragment Hr Hsm) as (off & r' & HR & Hc); [|lia|done|done|by eapply loop_wait].
      by rewrite HD, take_app_le by lia.
    + rewrite take_app_ge in HD by lia. pose proof HD as HD0. unfold A in HD at 1. rewrite <- app_assoc in HD.
      destruct (read_piece snl snu zu r D P E kMiddleType d1 _ fragment Hr Hsm HD Hfit ltac:(done) Hd1) as (off & r' & E' & HR & Hr').
      rewrite (loop_pass fuel r D _ E' prosp fragment scratch _ _ _ _ HR Hr') by (by left). apply rok_sync in Hr'.
      eapply (IH eq_refl _ D _ E' fuel prosp d1 scratch (m - length A)%nat Hr' Hsm); try done; [| |lia].
      * replace (drop (P + pad P + (7 + length d1)) D) with (drop (length A) (drop P D)) by (rewrite drop_drop; f_equal; lia).
        by rewrite HD0, drop_app_length.
      * rewrite !length_app, length_replicate, length_phys in Hm. lia.
Qed.

Lemma loop_nothing r D P E fuel prosp fragment scratch : rok r D P E -> small D -> drop P D = [] ->
  exists r', loop (S fuel) r false prosp fragment scratch = Some (WaitRecord, [], r').
Proof.
  intros Hr Hsm HD. destruct (read_short snl snu zu r D P E kFullType [] 0 fragment Hr Hsm) as (off & r' & HR & Hc); [by rewrite HD|simpl; lia| |done|by eapply loop_wait].
  pose proof (pad_fits P). simpl. lia.
Qed.

(** ** The next record

    [next_pieces ps] may follow complete records in a file. *)
Inductive next_pieces : list (Z * bytes) -> Prop :=
  | next_none : next_pieces []
  | next_eof : next_pieces [(kEofType, [])]
  | next_record d ps : pieces true d ps -> all_bytes d -> next_pieces ps.

Lemma loop_next_ok r D P E fuel fragment scratch qs ps d rest : rok r D P E -> small D -> rest_pieces qs -> pieces true d ps -> all_bytes d ->
  drop P D = enc P (qs ++ ps) ++ rest -> fits P (qs ++ ps) -> (length (qs ++ ps) <= fuel)%nat ->
  exists r' E', loop fuel r false 0 fragment scratch = Some (OK, d, r') /\ rok r' D (P + length (enc P (qs ++ ps))) E'.
Proof.
  intros Hr Hsm Hqs Hps Hd HD [Hf1 Hf2]%fits_app Hfuel. rewrite length_app in Hfuel. rewrite enc_app, <- app_assoc in HD.
  destruct (loop_skip qs Hqs r D P E fuel 0 fragment scratch _ Hr Hsm HD Hf1 ltac:(lia)) as (r1 & E1 & fr1 & -> & Hr1).
  destruct (loop_pieces snl snu zu true d ps Hps r1 D _ E1 (fuel - length qs) 0 fr1 scratch rest Hr1 Hsm) as (r' & E' & HR & Hr'); try done; [|lia|].
  { by rewrite <- drop_drop, HD, drop_app_length. }
  exists r', E'. split; [done|]. by rewrite enc_app, length_app, Nat.add_assoc.
Qed.

Lemma loop_next_eof r D P E fuel fragment scratch qs rest : rok r D P E -> small D -> rest_pieces qs ->
  drop P D = enc P (qs ++ [(kEofType, [])]) ++ rest -> fits P qs -> (length qs < fuel)%nat ->
  exists r' E', loop fuel r false 0 fragment scratch = Some (Eof, [], r') /\ rok r' D E' E' /\ (P + length (enc P (qs ++ [(kEofType, [])])) <= E')%nat.
Proof.
  intros Hr Hsm Hqs HD Hf1 Hfuel. rewrite enc_app, <- app_assoc in HD.
  destruct (loop_skip qs Hqs r D P E fuel 0 fragment scratch _ Hr Hsm HD Hf1 ltac:(lia)) as (r1 & E1 & fr1 & -> & Hr1).
  set (P1 := (P + length (enc P qs))%nat) in *.
  assert (HD1 : drop P1 D = replicate (pad P1) 0 ++ phys kEofType [] ++ rest).
  { unfold P1. rewrite <- drop_drop, HD, drop_app_length. cbn [enc]. by rewrite app_nil_r, <- !app_assoc. }
  destruct (read_eof snl snu zu r1 D P1 E1 rest fr1 Hr1 Hsm HD1) as (off & r' & E' & HR & Hr' & _ & HE').
  destruct (fuel - length qs)%nat as [|f] eqn:Hf; [lia|]. rewrite (loop_eof snl snu zu f r1 false 0 fr1 scratch off r' HR (rk_conf _ _ _ _ Hr')).
  exists (set_rd_resyncing false r'), E'. split; [done|]. split; [by apply rok_sync|].
  rewrite enc_app, length_app. cbn [enc]. rewrite app_nil_r, length_app, length_replicate, length_phys. fold P1. simpl. lia.
Qed.

Lemma loop_next_wait r D P E fuel fragment scratch qs ps m : rok r D P E -> small D -> rest_pieces qs -> next_pieces ps ->
  drop P D = take m (enc P (qs ++ ps)) -> (ps = [] \/ m < length (enc P (qs ++ ps)))%nat -> fits P (qs ++ ps) -> (m < fuel)%nat ->
  exists r', loop fuel r false 0 fragment scratch = Some (WaitRecord, [], r').
Proof.
  intros Hr Hsm Hqs Hps HD Hm [Hf1 Hf2]%fits_app Hfuel. pose proof (length_enc P qs). rewrite enc_app in HD, Hm. rewrite length_app in Hm.
  destruct (decide (m < length (enc P qs))%nat) as [Hlt|Hge].
  { rewrite take_app_le in HD by lia. destruct Hqs as [|d qs Hqs Hd]; [simpl in Hlt; lia|].
    eapply (loop_skip_short false d qs); try done. }
  rewrite take_app_ge in HD by lia.
  destruct (loop_skip qs Hqs r D P E fuel 0 fragment scratch _ Hr Hsm HD Hf1 ltac:(lia)) as (r1 & E1 & fr1 & -> & Hr1).
  set (P1 := (P + length (enc P qs))%nat) in *. set (m1 := (m - length (enc P qs))%nat) in *.
  assert (HD1 : drop P1 D = take m1 (enc P1 ps)) by (unfold P1; by rewrite <- drop_drop, HD, drop_app_length).
  destruct Hps as [| |d ps Hps Hd].
  - destruct (fuel - length qs)%nat as [|f] eqn:Hf; [lia|]. eapply loop_nothing; [done..|]. rewrite HD1. cbn [enc]. apply take_nil.
  - destruct (fuel - length qs)%nat as [|f] eqn:Hf; [lia|]. cbn [enc length] in HD1, Hm. rewrite app_nil_r in HD1, Hm. fold P1 in Hm.
    rewrite length_app, length_replicate, length_phys in Hm. destruct Hm as [|Hm]; [done|]. pose proof (pad_fits P1).
    destruct (read_short snl snu zu r1 D P1 E1 kEofType [] m1 fr1 Hr1 Hsm HD1) as (off & r' & HR & Hc); [simpl in *; lia|simpl; lia|done|by eapply loop_wait].
  - destruct Hm as [->|Hm]; [inversion Hps|].
    eapply (loop_short snl snu zu true d ps Hps r1 D P1 E1); try done; [fold P1 in Hm; lia|lia].
Qed.
End resume.

(** ** Blocks

    At the start of a block a new fragment begins. *)
Lemma pad_block L : (L mod B = 0)%nat -> pad L = 0%nat.
Proof. intros HL. unfold pad. rewrite HL, decide_False by blia. done. Qed.

Lemma block_in_pad P L : (L mod B = 0)%nat -> (P <= L <= P + pad P)%nat -> L = (P + pad P)%nat.
Proof.
  intros HL HP. pose proof (Nat.div_mod_eq L B) as HdL. pose proof (Nat.div_mod_eq P B) as HdP. pose proof (mod_B P). rewrite HL in HdL. unfold pad in *.
  destruct (decide (B - P mod B < 7)%nat) as [Hs|Hs]; [|lia].
  assert (L / B = P / B \/ L / B = S (P / B) \/ (L / B < P / B) \/ (S (P / B) < L / B))%nat as [Hq|[Hq|[Hq|Hq]]] by lia; [|lia|nia|nia].
  rewrite Hq in HdL. blia.
Qed.

Lemma block_after Q n L : (L mod B = 0)%nat -> (Q < L)%nat -> (Q mod B + n <= B)%nat -> (Q + n <= L)%nat.
Proof.
  intros HL HQ Hn. pose proof (Nat.div_mod_eq L B) as HdL. pose proof (Nat.div_mod_eq Q B) as HdQ. rewrite HL in HdL.
  assert (Q / B < L / B)%nat by (pose proof (mod_B Q); destruct (decide (Q / B < L / B)%nat); [done|nia]). nia.
Qed.

Lemma enc_split ps : forall P L, fits P ps -> (L mod B = 0)%nat -> (P <= L <= P + length (enc P ps))%nat ->
  exists ps1 ps2, ps = ps1 ++ ps2 /\ drop (L - P) (enc P ps) = enc L ps2 /\ fits L ps2 /\
    (P + length (enc P ps1) <= L <= P + length (enc P ps1) + pad (P + length (enc P ps1)))%nat /\
    (P + length (enc P ps) = L + length (enc L ps2))%nat.
Proof.
  induction ps as [|[t d] ps IH]; intros P L Hf HL HP; cbn [enc fits] in *.
  { exists [], []. simpl in *. assert (L = P) as -> by lia. rewrite Nat.sub_diag. split_and!; try done; lia. }
  destruct Hf as [Hf Hfs]. destruct (decide (L <= P + pad P)%nat) as [Hle|Hgt].
  - assert (L = P + pad P)%nat as -> by (by apply block_in_pad; [|lia]). exists [], ((t, d) :: ps). cbn [enc fits length].
    rewrite !(pad_block _ HL), !Nat.add_0_r. cbn [replicate app]. rewrite !length_app, length_replicate.
    split; [done|]. split; [apply drop_app_length'; rewrite length_replicate; lia|]. split; [done|]. lia.
  - assert (Hge : (P + pad P + (7 + length d) <= L)%nat) by (apply block_after; [done|lia|lia]).
    rewrite !length_app, length_replicate, length_phys in *.
    destruct (IH _ L Hfs HL ltac:(lia)) as (ps1 & ps2 & -> & Hd & Hf2 & Hb & Hlen).
    exists ((t, d) :: ps1), ps2. split; [done|]. split_and!; [|done|..]; cbn [enc]; rewrite ?length_app, ?length_replicate, ?length_phys.
    + rewrite app_assoc, drop_app_ge by (rewrite length_app, length_replicate, length_phys; lia). rewrite <- Hd. f_equal.
      rewrite length_app, length_replicate, length_phys. lia.
    + replace (P + (pad P + (7 + length d + length (enc (P + pad P + (7 + length d)) ps1))))%nat
        with (P + pad P + (7 + length d) + length (enc (P + pad P + (7 + length d)) ps1))%nat by lia. lia.
    + replace (P + (pad P + (7 + length d + length (enc (P + pad P + (7 + length d)) ps1))))%nat
        with (P + pad P + (7 + length d) + length (enc (P + pad P + (7 + length d)) ps1))%nat by lia. lia.
    + lia.
Qed.

Lemma pieces_suffix first d qs : pieces first d qs -> all_bytes d -> forall ps1 ps2, qs = ps1 ++ ps2 -> ps1 <> [] -> rest_pieces ps2.
Proof.
  induction 1 as [first d|first d1 d2 qs Hqs IH]; intros Hd ps1 ps2 Heq Hne; destruct ps1 as [|x ps1]; try done; simplify_eq/=.
  - destruct ps1, ps2; simplify_eq/=. constructor.
  - apply Forall_app in Hd as [_ Hd2]. destruct ps1 as [|y ps1]; [|by eapply (IH Hd2 (y :: ps1))].
    simpl in *. subst. by eapply rest_some.
Qed.

(** A sequence of records seen from the start of a block: the rest of one, and
    the records from number [i] on *)
Lemma laid_split P ds ps ends : laid P ds ps ends -> Forall all_bytes ds -> forall L, (L mod B = 0)%nat -> (P <= L <= P + length (enc P ps))%nat ->
  exists i qs ps', (i <= length ds)%nat /\ rest_pieces qs /\ fits L qs /\ drop (L - P) (enc P ps) = enc L (qs ++ ps') /\
    laid (L + length (enc L qs)) (drop i ds) ps' (drop i ends) /\
    (exists e, (P :: ends) !! i = Some e /\ L <= e + pad e)%nat /\
    (forall k e, (P :: ends) !! k = Some e -> (L <= e + pad e)%nat -> (i <= k)%nat).
Proof.
  induction 1 as [P|P d ds ps qs ends Hps Hfit Hl IH]; intros Hd L HL HP; cbn [enc] in HP.
  { simpl in HP. assert (L = P) as -> by lia. exists 0%nat, [], []. rewrite Nat.sub_diag. simpl. rewrite Nat.add_0_r.
    split_and!; try done; try constructor; [exists P; split; [done|lia]|]. intros; lia. }
  apply Forall_cons in Hd as [Hd Hds]. pose proof (laid_fits _ _ _ _ Hl) as Hfl. rewrite enc_app, length_app in HP.
  destruct (decide (L <= P + length (enc P ps))%nat) as [Hin|Hout].
  - destruct (enc_split ps P L Hfit HL ltac:(lia)) as (ps1 & ps2 & -> & Hdr & Hf2 & Hb & Hlen).
    assert (Hdrop : drop (L - P) (enc P ((ps1 ++ ps2) ++ qs)) = enc L (ps2 ++ qs)).
    { rewrite enc_app, drop_app_le by lia. by rewrite Hdr, (enc_app L), Hlen. }
    destruct (decide (ps1 = [])) as [->|Hne].
    + cbn [enc length app] in *. rewrite Nat.add_0_r in *. exists 0%nat, [], (ps2 ++ qs). cbn [app enc length drop]. rewrite Nat.add_0_r.
      split; [lia|]. split; [constructor|]. split; [done|]. split; [done|]. rewrite Hlen.
      split; [constructor; [done..|by rewrite <- Hlen]|]. split; [exists P; split; [done|lia]|]. intros; lia.
    + exists 1%nat, ps2, qs. cbn [drop length]. split; [lia|]. split; [by eapply pieces_suffix|]. split; [done|]. split; [done|]. rewrite <- Hlen.
      rewrite drop_0. split; [done|]. split; [eexists; split; [done|lia]|].
      intros [|k] e He Hle; [|lia]. injection He as <-. exfalso. destruct ps1 as [|[t1 d1] ps1]; [done|]. cbn [enc app fits] in Hb, Hfit.
      rewrite !length_app, length_replicate, length_phys in Hb. pose proof (block_in_pad P L HL ltac:(lia)). lia.
  - destruct (IH Hds L HL ltac:(lia)) as (i & qs' & ps' & Hi & Hq & Hfq & Hdr & Hl' & (e & He & Hle) & Hmin).
    exists (S i), qs', ps'. cbn [drop length]. split; [lia|]. split; [done|]. split; [done|].
    split; [rewrite enc_app, drop_app_ge by lia; rewrite <- Hdr; f_equal; lia|]. split; [done|]. split; [by exists e|].
    intros [|k] e' He' Hle'; [|by apply le_n_S, (Hmin k e')]. injection He' as <-.
    exfalso. destruct ps as [|[t1 d1] ps]; [inversion Hps|]. cbn [enc] in Hout. rewrite !length_app, length_replicate, length_phys in Hout. lia.
Qed.

(** * LogThms *)
Section log_theorems.
Context (snappy : bytes -> bytes) (zlib : bytes -> Z * bytes).
Context (snl : bytes -> Z) (snu : bytes -> option bytes) (zu : bytes -> Z * bytes).

Abbreviation Wr := (Writer PosixWritableFile).

(** A writer is created on the file (at its current length) and adds records. *)
Definition session (f : PosixWritableFile) (ds : list bytes) : option (Status * Wr) :=
  w ← Writer_new kNoCompress f (Z.of_nat (length (pw_stream f)));
  AddRecords snappy zlib w ds.

(** Several sessions on the same file, the last of which ends the log *)
Fixpoint sessions (f : PosixWritableFile) (dss : list (list bytes)) : option (Status * Wr) :=
  match dss with
  | [] => w ← Writer_new kNoCompress f (Z.of_nat (length (pw_stream f))); EndLog snappy zlib w
  | ds :: dss' =>
      '(st, w) ← session f ds;
      if ok st then sessions (dest_ w) dss' else Some (st, w)
  end.

Definition new_file : PosixWritableFile := MkPosixWritableFile [] [] 0.
Definition open_reader (W : bytes) rep chk garbage : Reader PosixSequentialFile :=
  Reader_new (open_seq W) rep chk 0 false garbage.

Lemma session_spec f ds : no_faults f -> Forall all_bytes ds ->
  exists w ps ends, session f ds = Some (OK, w) /\ laid (length (pw_stream f)) ds ps ends /\ no_faults (dest_ w) /\
    pw_stream (dest_ w) = pw_stream f ++ enc (length (pw_stream f)) ps /\
    forall k e, (length (pw_stream f) :: ends) !! k = Some e ->
      exists wk, session f (take k ds) = Some (OK, wk) /\ length (pw_stream (dest_ wk)) = e.
Proof.
  intros Hf Hd. unfold session. destruct (Writer_new_wok (contents := pw_stream) f Hf) as (w0 & Hnew & Hw0).
  rewrite Hnew. destruct (AddRecords_spec (contents := pw_stream) snappy zlib ds w0 _ Hw0 Hd) as (w & ps & ends & Hadd & Hl & Hw & Hends).
  exists w, ps, ends. rewrite bind_some. split; [done|]. split; [done|].
  split; [by apply (wk_rel _ _ Hw)|]. split; [by apply (wk_dest _ _ Hw)|]. intros k e He.
  rewrite bind_some. by apply Hends.
Qed.

Lemma laid_length P ds ps ends : laid P ds ps ends -> length ends = length ds.
Proof. induction 1; simpl; lia. Qed.

Lemma laid_app P ds ps ends ds' ps' ends' : laid P ds ps ends -> laid (P + length (enc P ps)) ds' ps' ends' ->
  laid P (ds ++ ds') (ps ++ ps') (ends ++ ends').
Proof.
  intros Hl; revert ds' ps' ends'; induction Hl as [P|P d ds ps qs ends Hps Hfit Hl IH]; intros ds' ps' ends' Hl'.
  - cbn [enc length] in Hl'. by rewrite Nat.add_0_r in Hl'.
  - simpl app. rewrite <- app_assoc. constructor; [done..|]. apply IH.
    rewrite enc_app, length_app in Hl'. by rewrite Nat.add_assoc in Hl'.
Qed.

Lemma sessions_spec dss : forall f, no_faults f -> Forall (Forall all_bytes) dss ->
  exists w ps ends, sessions f dss = Some (OK, w) /\ laid (length (pw_stream f)) (concat dss) ps ends /\
    pw_stream (dest_ w) = pw_stream f ++ enc (length (pw_stream f)) (ps ++ [(kEofType, [])]).
Proof.
  induction dss as [|ds dss IH]; intros f Hf Hd; cbn [sessions concat].
  - destruct (Writer_new_wok (contents := pw_stream) f Hf) as (w0 & -> & Hw0). rewrite bind_some.
    destruct (EndLog_spec snappy zlib w0 _ Hw0) as (w & -> & _ & Hw).
    exists w, [], []. split; [done|]. split; [constructor|]. apply (wk_dest _ _ Hw).
  - apply Forall_cons in Hd as [Hd Hds]. destruct (session_spec f ds Hf Hd) as (w1 & ps & ends & -> & Hl & Hf1 & HW1 & _).
    rewrite bind_some. change (ok OK) with true. cbv beta iota.
    destruct (IH (dest_ w1) Hf1 Hds) as (w & qs & ends' & -> & Hl' & HW). rewrite HW1, length_app in Hl', HW.
    exists w, (ps ++ qs), (ends ++ ends'). split; [done|]. split; [by apply laid_app|].
    by rewrite HW, <- app_assoc, <- app_assoc, (enc_app _ ps).
Qed.

Lemma open_rok W rep chk garbage : rok (open_reader W rep chk garbage) W 0 0.
Proof. split; try done; simpl; [by exists false|lia|lia|]. right; left. split; [done|]. apply Nat.Div0.mod_0_l. Qed.

(** A whole log, closed by an end-of-file record *)
Lemma read_closed P ds ps ends : laid P ds ps ends -> forall r D E fuel rest,
  rok r D P E -> small D -> drop P D = enc P (ps ++ [(kEofType, [])]) ++ rest -> Forall all_bytes ds -> (length (enc P ps) < fuel)%nat ->
  exists r', ReadRecords snl snu zu fuel (S (length ds)) r = Some (((fun d => (OK, d)) <$> ds) ++ [(Eof, [])], r').
Proof.
  induction 1 as [P|P d ds ps qs ends Hps Hfit Hl IH]; intros r D E fuel rest Hr Hsm HD Hd Hfuel;
    cbn [length ReadRecords]; rewrite (ReadRecord_loop_eq _ _ _ r D P E) by done.
  - destruct fuel as [|fuel]; [simpl in Hfuel; lia|]. cbn [enc app] in HD. rewrite app_nil_r, <- app_assoc in HD.
    destruct (read_eof snl snu zu r D P E rest [] Hr Hsm HD) as (off & r' & E' & HR & Hr' & _).
    rewrite (loop_eof snl snu zu fuel r false 0 [] [] off r' HR (rk_conf _ _ _ _ Hr')). by eexists.
  - apply Forall_cons in Hd as [Hd Hds]. rewrite <- app_assoc, enc_app, <- app_assoc in HD.
    rewrite enc_app, length_app in Hfuel. pose proof (length_enc P ps) as Hlp.
    destruct (loop_pieces snl snu zu true d ps Hps r D P E fuel 0 [] [] _ Hr Hsm HD Hfit Hd) as (r1 & E1 & HR & Hr1); [lia|lia|].
    cbn [negb] in HR. rewrite HR, bind_some.
    destruct (IH r1 D E1 fuel rest Hr1 Hsm) as (r' & Hrd); [|done|lia|].
    { by rewrite <- drop_drop, HD, drop_app_length. }
    cbn [ReadRecords] in Hrd. rewrite Hrd, bind_some. by exists r'.
Qed.

(** C8: any byte strings written to a new file, in any number of sessions that
    each reopen it at its current length, the last one ending the log, are all
    accepted, and a reader of the file returns exactly these records, in order
    and then [Eof], with or without checksum verification. *)
Theorem log_roundtrip (dss : list (list bytes)) : Forall (Forall all_bytes) dss ->
  exists w, sessions new_file dss = Some (OK, w) /\
    forall rep chk garbage fuel, small (pw_stream (dest_ w)) -> (length (pw_stream (dest_ w)) < fuel)%nat ->
    exists r, ReadRecords snl snu zu fuel (S (length (concat dss))) (open_reader (pw_stream (dest_ w)) rep chk garbage)
      = Some (((fun d => (OK, d)) <$> concat dss) ++ [(Eof, [])], r).
Proof.
  intros Hd. destruct (sessions_spec dss new_file) as (w & ps & ends & Hs & Hl & HW); [constructor|done|].
  exists w. split; [done|]. intros rep chk garbage fuel Hsm Hfuel. cbn [pw_stream new_file app length] in *.
  eapply (read_closed 0 _ ps ends Hl _ _ 0 fuel []); [apply open_rok|done| | |].
  - by rewrite drop_0, app_nil_r.
  - clear -Hd. induction Hd; simpl; [constructor|]. by apply Forall_app.
  - rewrite HW, enc_app, length_app in Hfuel. lia.
Qed.

(** C9: a log file cut after an arbitrary number [n] of bytes (the writer died,
    or the reader follows a file still being written) yields exactly the [k]
    records whose encoding lies within the cut, in order, and then
    [WaitRecord]: never a partial record, a corruption or an end of file. *)
Theorem log_truncation (ds : list bytes) (n : nat) : Forall all_bytes ds ->
  exists w, session new_file ds = Some (OK, w) /\
    forall rep chk garbage fuel, small (pw_stream (dest_ w)) -> (length (pw_stream (dest_ w)) < fuel)%nat ->
    exists k wk r, session new_file (take k ds) = Some (OK, wk) /\ (length (pw_stream (dest_ wk)) <= n)%nat /\
      ((k < length ds)%nat -> exists wk', session new_file (take (S k) ds) = Some (OK, wk') /\ (n < length (pw_stream (dest_ wk')))%nat) /\
      ReadRecords snl snu zu fuel (S k) (open_reader (take n (pw_stream (dest_ w))) rep chk garbage)
        = Some (((fun d => (OK, d)) <$> take k ds) ++ [(WaitRecord, [])], r).
Proof.
  intros Hd. destruct (session_spec new_file ds) as (w & ps & ends & Hs & Hl & _ & HW & Hends); [constructor|done|].
  exists w. split; [done|]. intros rep chk garbage fuel Hsm Hfuel. cbn [pw_stream new_file app length] in *.
  destruct (read_trunc snl snu zu 0 ds ps ends Hl (open_reader (take n (pw_stream (dest_ w))) rep chk garbage)
    (take n (pw_stream (dest_ w))) 0 fuel n) as (k & r & e & He & Hle & Hnext & Hrd).
  - apply open_rok.
  - unfold small in *. rewrite length_take. lia.
  - by rewrite drop_0, HW.
  - done.
  - by rewrite <- HW.
  - destruct (Hends k e He) as (wk & Hk & Hlk). exists k, wk, r. split; [done|]. split; [lia|]. split; [|done].
    intros Hlt. destruct (lookup_lt_is_Some_2 (0%nat :: ends) (S k)) as [e' He'].
    { simpl. rewrite (laid_length _ _ _ _ Hl). lia. }
    destruct (Hends (S k) e' He') as (wk' & Hk' & Hlk'). exists wk'. split; [done|].
    specialize (Hnext e' He'). lia.
Qed.

(** C30: the writer's fragmentation: from any reliable file, with the writer's
    block offset in step with it, [AddRecord] of any byte string succeeds
    (no assertion of the code fails), and what it appends is the record cut
    into fragments typed FULL or FIRST, MIDDLE*, LAST whose payloads
    concatenate to the record, each lying within one 4096-byte block. *)
Theorem AddRecord_layout (f : PosixWritableFile) (d : bytes) : no_faults f -> all_bytes d ->
  exists w w' ps, Writer_new kNoCompress f (Z.of_nat (length (pw_stream f))) = Some w /\
    AddRecord snappy zlib w d = Some (OK, w') /\
    pw_stream (dest_ w') = pw_stream f ++ enc (length (pw_stream f)) ps /\
    pieces true d ps /\ fits (length (pw_stream f)) ps /\ concat (snd <$> ps) = d.
Proof.
  intros Hf Hd. destruct (Writer_new_wok (contents := pw_stream) f Hf) as (w & Hnew & Hw).
  destruct (AddRecord_spec snappy zlib w _ d Hw Hd) as (w' & ps & Hadd & Hps & Hfit & Hw' & _).
  exists w, w', ps. split; [done|]. split; [done|]. split; [by apply (wk_dest _ _ Hw')|]. split; [done|]. split; [done|].
  clear -Hps. induction Hps as [first d|first d1 d2 ps Hps IH]; cbn; [by rewrite app_nil_r|by rewrite IH].
Qed.
End log_theorems.

(** The length of the file a run of the writer leaves *)
Definition out_length (o : option (Status * Writer PosixWritableFile)) : option nat :=
  '(_, w) ← o; Some (length (pw_stream (dest_ w))).

Lemma out_length_eq o st w n : o = Some (st, w) -> out_length o = Some n -> length (pw_stream (dest_ w)) = n.
Proof. intros ->. by intros [= <-]. Qed.

Lemma log_roundtrip_witness : exists w r,
  sessions (fun b => b) (fun b => (0, b)) new_file [[[1; 2]; []]; [[255]]] = Some (OK, w) /\
  ReadRecords (fun b => Z.of_nat (length b)) Some (fun b => (0, b)) 100 4 (open_reader (pw_stream (dest_ w)) None true [])
    = Some ([(OK, [1; 2]); (OK, []); (OK, [255]); (Eof, [])], r).
Proof.
  destruct (log_roundtrip (fun b => b) (fun b => (0, b)) (fun b => Z.of_nat (length b)) Some (fun b => (0, b))
    [[[1; 2]; []]; [[255]]]) as (w & Hw & H).
  { repeat constructor; unfold is_byte; lia. }
  assert (Hl : length (pw_stream (dest_ w)) = 31%nat).
  { apply (out_length_eq _ _ _ _ Hw). vm_compute. reflexivity. }
  destruct (H None true [] 100%nat) as (r & Hr); [unfold small; rewrite Hl; lia|rewrite Hl; lia|].
  exists w, r. split; [exact Hw|exact Hr].
Defined.

Lemma log_truncation_witness : exists w k r,
  session (fun b => b) (fun b => (0, b)) new_file [[1; 2]; [3]] = Some (OK, w) /\ (k <= 1)%nat /\
  ReadRecords (fun b => Z.of_nat (length b)) Some (fun b => (0, b)) 100 (S k) (open_reader (take 12 (pw_stream (dest_ w))) None true [])
    = Some (((fun d => (OK, d)) <$> take k [[1; 2]; [3]]) ++ [(WaitRecord, [])], r).
Proof.
  destruct (log_truncation (fun b => b) (fun b => (0, b)) (fun b => Z.of_nat (length b)) Some (fun b => (0, b))
    [[1; 2]; [3]] 12) as (w & Hw & H).
  { repeat constructor; unfold is_byte; lia. }
  assert (Hl : length (pw_stream (dest_ w)) = 17%nat).
  { apply (out_length_eq _ _ _ _ Hw). vm_compute. reflexivity. }
  destruct (H None true [] 100%nat) as (k & wk & r & Hk & Hle & _ & Hr); [unfold small; rewrite Hl; lia|rewrite Hl; lia|].
  exists w, k, r. split; [exact Hw|]. split; [|exact Hr].
  destruct k as [|[|k]]; [lia|lia|].
  assert (Hwk : session (fun b => b) (fun b => (0, b)) new_file (take (S (S k)) [[1; 2]; [3]]) = Some (OK, w)) by (destruct k; exact Hw).
  rewrite Hwk in Hk. injection Hk as <-. lia.
Defined.

Lemma AddRecord_layout_witness : exists w w' ps,
  Writer_new kNoCompress (MkPosixWritableFile [7; 7] [] 2) 2 = Some w /\
  AddRecord (fun b => b) (fun b => (0, b)) w [5; 6] = Some (OK, w') /\
  pw_stream (dest_ w') = [7; 7] ++ enc 2 ps /\ concat (snd <$> ps) = [5; 6].
Proof.
  destruct (AddRecord_layout (fun b => b) (fun b => (0, b)) (MkPosixWritableFile [7; 7] [] 2) [5; 6])
    as (w & w' & ps & H1 & H2 & H3 & _ & _ & H4); [constructor|repeat constructor; unfold is_byte; lia|].
  exists w, w', ps. split; [exact H1|]. split; [exact H2|]. split; [exact H3|exact H4].
Defined.
