(* ===== verification/LogLive.v ===== *)
(** Reading one log file record by record, also while it grows: at which record
    a reader stands, what the next call returns there, and where it stands
    afterwards.  The file may end in a torn record, and may have been ended
    over such a record by a recovery. *)
From S2P Require Import Prelude CrcTables Coding LogFile LogWriter LogLayout LogReader LogRoundtrip LogThms.

(** ** The contents of a log file *)

Local Abbreviation eof_piece := [(kEofType, @nil Z)].

(** What follows the records that end at [N]: nothing or the beginning of a
    record or end mark; or an end mark that was put over it *)
Inductive file_tail (N : nat) : bool -> bytes -> Prop :=
  | tail_open qs m : next_pieces qs -> fits N qs -> (qs = [] \/ m < length (enc N qs))%nat -> file_tail N false (take m (enc N qs))
  | tail_closed qs m : next_pieces qs -> fits N qs ->
      file_tail N true (enc N eof_piece ++ drop (length (enc N eof_piece)) (take m (enc N qs))).

Record holds (D : bytes) (ds : list bytes) (closed : bool) (ps : list (Z * bytes)) (ends : list nat) (tail : bytes) : Prop := {
  hd_laid : laid 0 ds ps ends;
  hd_bytes : Forall all_bytes ds;
  hd_data : D = enc 0 ps ++ tail;
  hd_tail : file_tail (length (enc 0 ps)) closed tail;
  hd_small : small D
}.

Section live.
Context (snl : bytes -> Z) (snu : bytes -> option bytes) (zu : bytes -> Z * bytes).
Local Abbreviation Rd := (Reader PosixSequentialFile).
Local Abbreviation read D r := (ReadRecord snl snu zu (S (S (length D))) r).
Implicit Types (r : Rd) (D d tail : bytes).

(** The next record is number [i]; the reader may have to pass over the rest of
    an earlier one. *)
Definition rat D ds ps ends tail r (i : nat) : Prop :=
  exists P E L eof qs ps' e, rok r D P E /\ rinv r D E L eof /\ rest_pieces qs /\ fits P qs /\
    laid (P + length (enc P qs)) (drop i ds) ps' (drop i ends) /\ drop P D = enc P (qs ++ ps') ++ tail /\
    (0%nat :: ends) !! i = Some e /\ (L <= e + pad e)%nat /\ (L <= length (enc 0 ps))%nat.
(** The reader has met the end mark and no file follows. *)
Definition rpast D ps r : Prop :=
  exists E L eof qs m, rok r D E E /\ rinv r D E L eof /\ rest_pieces qs /\ fits E qs /\ drop E D = take m (enc E qs) /\
    (L <= length (enc 0 ps))%nat.

Lemma laid_last P ds ps ends : laid P ds ps ends -> (P :: ends) !! length ds = Some (P + length (enc P ps))%nat.
Proof. induction 1 as [P|P d ds ps qs ends Hps Hfit Hl IH]; simpl; [f_equal; lia|]. rewrite IH, enc_app, length_app. f_equal. lia. Qed.

Lemma rok_fresh r D L : rinv r D L L false -> rd_buffer r = [] -> rok r D L L.
Proof.
  intros [] Hb. split; try done.
  - by exists false.
  - by rewrite Hb, Nat.sub_diag.
  - pose proof (mod_B L). lia.
  - right; left. auto.
Qed.

(** Going back to the start of a block *)
Lemma rat_rewind D ds closed ps ends tail r L : holds D ds closed ps ends tail -> rinv r D L L false -> rd_buffer r = [] ->
  (L <= length (enc 0 ps))%nat ->
  exists j, (j <= length ds)%nat /\ rat D ds ps ends tail r j /\ forall k e, (0%nat :: ends) !! k = Some e -> (L <= e + pad e)%nat -> (j <= k)%nat.
Proof.
  intros Hh Hr Hb HL. destruct (laid_split _ _ _ _ (hd_laid _ _ _ _ _ _ Hh) (hd_bytes _ _ _ _ _ _ Hh) L (ri_block _ _ _ _ _ Hr) ltac:(lia))
    as (j & qs & ps' & Hj & Hq & Hf & Hdr & Hl & (e & He & Hle) & Hmin). exists j. split; [done|]. split; [|done].
  exists L, L, L, false, qs, ps', e. split; [by apply rok_fresh|]. split; [done|]. split; [done|]. split; [done|]. split; [done|].
  split; [|done]. rewrite (hd_data _ _ _ _ _ _ Hh), drop_app_le by lia. rewrite Nat.sub_0_r in Hdr. by rewrite Hdr.
Qed.

Lemma rat_open D ds closed ps ends tail rep chk garbage : holds D ds closed ps ends tail -> rat D ds ps ends tail (open_reader D rep chk garbage) 0.
Proof.
  intros Hh. assert (Hm : (0 mod B = 0)%nat) by apply Nat.Div0.mod_0_l.
  exists 0%nat, 0%nat, 0%nat, false, [], ps, 0%nat. split; [apply open_rok|]. split; [split; try done; simpl; lia|]. split; [constructor|]. split; [done|].
  split; [apply (hd_laid _ _ _ _ _ _ Hh)|]. split; [apply (hd_data _ _ _ _ _ _ Hh)|]. split; [done|]. lia.
Qed.

(** ** The next call *)

Lemma rat_le D ds ps ends tail r i : laid 0 ds ps ends -> rat D ds ps ends tail r i -> (i <= length ds)%nat.
Proof. intros Hl (P & E & L & eof & qs & ps' & e & _ & _ & _ & _ & _ & _ & He & _). apply lookup_lt_Some in He. simpl in He. rewrite (laid_length _ _ _ _ Hl) in He. lia. Qed.

Lemma rat_end D ds closed ps ends tail r P E qs ps' : holds D ds closed ps ends tail -> rok r D P E -> drop P D = enc P (qs ++ ps') ++ tail ->
  (P + length (enc P (qs ++ ps')) = length (enc 0 ps))%nat.
Proof.
  intros Hh Hr HD. pose proof (rk_le _ _ _ _ Hr). apply (f_equal length) in HD. rewrite length_drop, length_app in HD.
  pose proof (f_equal length (hd_data _ _ _ _ _ _ Hh)) as Hlen. rewrite length_app in Hlen. lia.
Qed.

Lemma read_ok D ds closed ps ends tail r i d : holds D ds closed ps ends tail -> rat D ds ps ends tail r i -> ds !! i = Some d ->
  exists r' e, read D r = Some (OK, d, r') /\ rat D ds ps ends tail r' (S i) /\ (0%nat :: ends) !! S i = Some e /\ rd_last_record_end_offset r' = Z.of_nat e.
Proof.
  intros Hh (P & E & L & eof & qs & ps' & e & Hr & Hi & Hq & Hfq & Hl & HD & He & HLe & HL) Hd.
  pose proof (hd_small _ _ _ _ _ _ Hh) as Hsm. rewrite (drop_S _ _ _ Hd) in Hl.
  inversion Hl as [|P0 d0 ds0 ps1 ps2 ends0 Hps Hf1 Hl2 HP Hds Hps' Hends]; subst. set (e1 := (P + length (enc P qs) + length (enc (P + length (enc P qs)) ps1))%nat) in *.
  assert (He1 : ends !! i = Some e1) by (rewrite <- (Nat.add_0_r i), <- lookup_drop, <- Hends; done).
  assert (Hdd : drop (S i) ends = ends0) by (rewrite <- Nat.add_1_r, <- drop_drop, <- Hends; done).
  assert (HPe : (P + length (enc P (qs ++ ps1)))%nat = e1) by (rewrite enc_app, length_app; unfold e1; lia).
  rewrite app_assoc, enc_app, <- app_assoc in HD. pose proof (rk_le _ _ _ _ Hr) as Hle.
  assert (Hlen : (length (qs ++ ps1) <= length D)%nat).
  { etransitivity; [apply (length_enc P)|]. apply (f_equal length) in HD. rewrite length_drop, length_app in HD. lia. }
  destruct (loop_next_ok snl snu zu r D P E (S (S (length D))) [] [] qs ps1 d (enc e1 ps2 ++ tail) Hr Hsm Hq Hps) as (r' & E' & HR & Hr'); [|by rewrite HPe in HD|by apply fits_app|lia|].
  { by eapply Forall_lookup_1; [apply (hd_bytes _ _ _ _ _ _ Hh)|]. }
  rewrite (ReadRecord_loop_eq snl snu zu r D P E _ Hr). exists r', e1. split; [done|]. rewrite HPe in *.
  destruct (loop_inv snl snu zu _ _ _ _ _ _ _ _ _ _ _ _ _ Hi Hsm ltac:(done) HR) as (E2 & L2 & eof2 & Hi2 & Hlast).
  assert (E2 = E') as ->. { pose proof (ri_end _ _ _ _ _ Hi2) as H1. rewrite (rk_end _ _ _ _ Hr') in H1. lia. }
  pose proof (rk_le _ _ _ _ Hr') as Hle'. pose proof (ri_back _ _ _ _ _ Hi2) as Hback. rewrite (rok_buffer_length _ _ _ _ Hr') in Hback.
  split; [|split; [done|]].
  - exists e1, E', L2, eof2, [], ps2, e1. split; [done|]. split; [done|]. split; [constructor|]. split; [done|]. cbn [enc length app]. rewrite Nat.add_0_r, Hdd.
    split; [done|]. split; [by rewrite <- HPe at 1; rewrite <- drop_drop, HD, drop_app_length|]. split; [done|]. split; [lia|].
    assert (e1 + length (enc e1 ps2) = length (enc 0 ps))%nat; [|lia].
    eapply (rat_end _ _ _ _ _ _ r' e1 E' []); [done..|]. by rewrite <- HPe at 1; rewrite <- drop_drop, HD, drop_app_length.
  - rewrite Hlast, (rk_end _ _ _ _ Hr'). unfold size. rewrite (rok_buffer_length _ _ _ _ Hr'). unfold small in Hsm. rewrite uwrap_id by (unfold in_uint; lia). lia.
Qed.

Lemma laid_nil_inv P ps ends : laid P [] ps ends -> ps = [].
Proof. by inversion 1. Qed.

(** After a wait the reader stands at the start of a block before the end. *)
Lemma wait_rewind D ds closed ps ends tail r E L eof fuel r' : holds D ds closed ps ends tail -> rinv r D E L eof -> (L <= length (enc 0 ps))%nat ->
  ReadRecord_loop snl snu zu fuel r false 0 [] [] = Some (WaitRecord, [], r') ->
  exists j, (j <= length ds)%nat /\ rat D ds ps ends tail r' j /\ rinv r' D L L false /\ rd_buffer r' = [] /\
    rd_last_record_end_offset r' = rd_last_record_end_offset r /\
    forall k e, (0%nat :: ends) !! k = Some e -> (L <= e + pad e)%nat -> (j <= k)%nat.
Proof.
  intros Hh Hi HL HR. destruct (loop_inv snl snu zu _ _ _ _ _ _ _ _ _ _ _ _ _ Hi (hd_small _ _ _ _ _ _ Hh) ltac:(done) HR) as (Hi' & Hb & Hle).
  destruct (rat_rewind _ _ _ _ _ _ _ _ Hh Hi' Hb HL) as (j & ? & ? & ?). by exists j.
Qed.

Lemma read_wait D ds ps ends tail r : holds D ds false ps ends tail -> rat D ds ps ends tail r (length ds) ->
  exists r' j L, read D r = Some (WaitRecord, [], r') /\ (j <= length ds)%nat /\ rat D ds ps ends tail r' j /\
    rinv r' D L L false /\ rd_buffer r' = [] /\ rd_last_record_end_offset r' = rd_last_record_end_offset r.
Proof.
  intros Hh (P & E & L & eof & qs & ps' & e & Hr & Hi & Hq & Hfq & Hl & HD & He & HLe & HL). pose proof (hd_small _ _ _ _ _ _ Hh) as Hsm.
  rewrite drop_ge in Hl by done. apply laid_nil_inv in Hl as ->. pose proof (rat_end _ _ _ _ _ _ _ _ _ _ _ Hh Hr HD) as HN. rewrite app_nil_r in *.
  set (N := length (enc 0 ps)) in *. pose proof (hd_tail _ _ _ _ _ _ Hh) as Ht. fold N in Ht. pose proof (rk_le _ _ _ _ Hr) as Hle.
  inversion Ht as [qs2 m Hn Hf2 Hm H1 H2|]; subst. set (m2 := if decide (qs2 = []) then length (enc P qs) else (length (enc P qs) + m)%nat).
  assert (HD' : drop P D = take m2 (enc P (qs ++ qs2))).
  { rewrite HD, enc_app, HN. unfold m2. case_decide as Hq2.
    - subst qs2. cbn [enc]. rewrite take_nil, !app_nil_r. by rewrite take_ge by lia.
    - rewrite take_app_ge by lia. do 2 f_equal. lia. }
  assert (Hm2 : (m2 < S (S (length D)))%nat).
  { assert (m2 <= length (enc P (qs ++ qs2)))%nat; [|apply (f_equal length) in HD'; rewrite length_drop, length_take in HD'; lia].
    unfold m2. rewrite enc_app, length_app, HN. case_decide; [lia|]. destruct Hm; [done|]. lia. }
  destruct (loop_next_wait snl snu zu r D P E (S (S (length D))) [] [] qs qs2 m2 Hr Hsm Hq Hn HD') as (r' & HR); [|apply fits_app; by rewrite HN|done|].
  { unfold m2. rewrite enc_app, length_app, HN. case_decide; [by left|]. destruct Hm; [done|]. right. lia. }
  destruct (wait_rewind _ _ _ _ _ _ _ _ _ _ _ _ Hh Hi HL HR) as (j & ? & ? & ? & ? & ? & _). rewrite (ReadRecord_loop_eq snl snu zu r D P E _ Hr).
  by exists r', j, L.
Qed.

Lemma read_past D ds closed ps ends tail r : holds D ds closed ps ends tail -> rpast D ps r ->
  exists r' j L, read D r = Some (WaitRecord, [], r') /\ (j <= length ds)%nat /\ rat D ds ps ends tail r' j /\
    rinv r' D L L false /\ rd_buffer r' = [] /\ rd_last_record_end_offset r' = rd_last_record_end_offset r.
Proof.
  intros Hh (E & L & eof & qs & m & Hr & Hi & Hq & Hfq & HD & HL). pose proof (hd_small _ _ _ _ _ _ Hh) as Hsm.
  set (m2 := Nat.min m (length (enc E qs))). assert (HD' : drop E D = take m2 (enc E (qs ++ []))).
  { rewrite app_nil_r, HD. unfold m2. destruct (decide (m <= length (enc E qs))%nat); [f_equal; lia|]. by rewrite !take_ge by lia. }
  assert (Hm2 : (m2 < S (S (length D)))%nat).
  { apply (f_equal length) in HD'. rewrite length_drop, length_take, app_nil_r in HD'. lia. }
  destruct (loop_next_wait snl snu zu r D E E (S (S (length D))) [] [] qs [] m2 Hr Hsm Hq next_none HD') as (r' & HR); [by left|by rewrite app_nil_r|done|].
  destruct (wait_rewind _ _ _ _ _ _ _ _ _ _ _ _ Hh Hi HL HR) as (j & ? & ? & ? & ? & ? & _). rewrite (ReadRecord_loop_eq snl snu zu r D E E _ Hr).
  by exists r', j, L.
Qed.

(** What lies behind an end mark *)
Lemma tail_behind N qs m E : next_pieces qs -> fits N qs -> (E mod B = 0)%nat -> (N + length (enc N eof_piece) <= E)%nat ->
  exists qs' m', rest_pieces qs' /\ fits E qs' /\ drop (E - N) (take m (enc N qs)) = take m' (enc E qs').
Proof.
  intros Hn Hf HE HNE. cbn [enc] in HNE. rewrite app_nil_r, length_app, length_replicate, length_phys in HNE. simpl in HNE.
  destruct (decide (E <= N + length (enc N qs))%nat) as [Hle|Hgt].
  - destruct (enc_split qs N E Hf HE ltac:(lia)) as (ps1 & ps2 & -> & Hd & Hf2 & Hb & _).
    assert (Hne : ps1 <> []) by (intros ->; simpl in Hb; rewrite Nat.add_0_r in Hb; lia).
    exists ps2, (m - (E - N))%nat. split; [|split; [done|by rewrite skipn_firstn_comm, Hd]].
    inversion Hn as [H1|H1|d ps Hps Hd1 H1]; subst; [by destruct ps1|destruct ps1 as [|? []], ps2; simplify_eq/=; constructor|by eapply pieces_suffix].
  - exists [], 0%nat. split; [constructor|]. split; [done|]. rewrite drop_ge; [done|]. rewrite length_take. lia.
Qed.

Lemma read_end D ds ps ends tail r : holds D ds true ps ends tail -> rat D ds ps ends tail r (length ds) ->
  exists r', read D r = Some (Eof, [], r') /\ rpast D ps r' /\ rd_last_record_end_offset r' = rd_last_record_end_offset r.
Proof.
  intros Hh (P & E & L & eof & qs & ps' & e & Hr & Hi & Hq & Hfq & Hl & HD & He & HLe & HL). pose proof (hd_small _ _ _ _ _ _ Hh) as Hsm.
  rewrite drop_ge in Hl by done. apply laid_nil_inv in Hl as ->. pose proof (rat_end _ _ _ _ _ _ _ _ _ _ _ Hh Hr HD) as HN. rewrite app_nil_r in *.
  pose proof (hd_tail _ _ _ _ _ _ Hh) as Ht. pose proof (hd_data _ _ _ _ _ _ Hh) as HDD. set (N := length (enc 0 ps)) in *. pose proof (rk_le _ _ _ _ Hr) as Hle.
  inversion Ht as [|qs2 m Hn Hf2 H1 H2]; subst tail. rewrite app_assoc in HD.
  assert (Heq : enc P qs ++ enc N eof_piece = enc P (qs ++ eof_piece)) by (by rewrite enc_app, HN). rewrite Heq in HD.
  assert (Hlq : (length qs <= length D)%nat).
  { etransitivity; [apply (length_enc P)|]. apply (f_equal length) in HD. rewrite length_drop, !length_app, <- Heq, length_app in HD. lia. }
  destruct (loop_next_eof snl snu zu r D P E (S (S (length D))) [] [] qs _ Hr Hsm Hq HD Hfq ltac:(lia)) as (r' & E' & HR & Hr' & HE').
  rewrite <- Heq, length_app, Nat.add_assoc, HN in HE'. rewrite (ReadRecord_loop_eq snl snu zu r D P E _ Hr).
  destruct (loop_inv snl snu zu _ _ _ _ _ _ _ _ _ _ _ _ _ Hi Hsm ltac:(done) HR) as (E2 & eof2 & Hi2 & Hlast).
  assert (E2 = E') as ->. { pose proof (ri_end _ _ _ _ _ Hi2) as H3. rewrite (rk_end _ _ _ _ Hr') in H3. lia. }
  exists r'. split; [done|]. split; [|done]. exists E', L, eof2.
  assert (HB : exists qs' m', rest_pieces qs' /\ fits E' qs' /\ drop E' D = take m' (enc E' qs')).
  { destruct (rk_span _ _ _ _ Hr') as [HEq|HEq].
    - exists [], 0%nat. split; [constructor|]. split; [done|]. by rewrite drop_ge by lia.
    - assert (HEm : (E' mod B = 0)%nat) by (destruct HEq as [[_ ?]|?]; [done|pose proof (mod_B E'); pose proof (Nat.div_mod_eq E' B); lia]).
      destruct (tail_behind N qs2 m E' Hn Hf2 HEm HE') as (qs' & m' & ? & ? & Hd'). exists qs', m'. split; [done|]. split; [done|]. rewrite <- Hd'.
      rewrite HDD, drop_app_ge by (fold N; lia). fold N. rewrite drop_app_ge by lia. rewrite drop_drop. f_equal. lia. }
  destruct HB as (qs' & m' & ? & ? & ?). by exists qs', m'.
Qed.
End live.

Lemma ends_le P ds ps ends : laid P ds ps ends -> forall i e, ends !! i = Some e -> (e <= P + length (enc P ps))%nat.
Proof.
  induction 1 as [P|P d ds ps qs ends Hps Hfit Hl IH]; intros i e He; [done|]. rewrite enc_app, length_app. destruct i as [|i]; [injection He as <-; lia|].
  specialize (IH i e He). lia.
Qed.

(** ** A file cut at an arbitrary byte

    What is left are the records that end before the cut. *)
Lemma laid_cut P ds ps ends : laid P ds ps ends -> Forall all_bytes ds -> forall n, (n <= length (enc P ps))%nat ->
  exists j ps1 qs m, (j <= length ds)%nat /\ laid P (take j ds) ps1 (take j ends) /\ next_pieces qs /\ fits (P + length (enc P ps1)) qs /\
    (qs = [] \/ m < length (enc (P + length (enc P ps1)) qs))%nat /\
    take n (enc P ps) = enc P ps1 ++ take m (enc (P + length (enc P ps1)) qs) /\
    (length (enc P ps1) <= n)%nat /\ (forall e, ends !! j = Some e -> (P + n < e)%nat).
Proof.
  induction 1 as [P|P d ds ps qs ends Hps Hfit Hl IH]; intros Hd n Hn.
  { exists 0%nat, [], [], 0%nat. simpl in *. assert (n = 0%nat) as -> by lia.
    split; [lia|]. split; [apply laid_nil|]. split; [apply next_none|]. split; [done|]. split; [by left|]. split; [done|]. split; [lia|done]. }
  apply Forall_cons in Hd as [Hd Hds]. rewrite enc_app, length_app in Hn. destruct (decide (n < length (enc P ps))%nat) as [Hlt|Hge].
  - exists 0%nat, [], ps, n. cbn [take enc length app]. rewrite Nat.add_0_r. split; [lia|]. split; [constructor|]. split; [by eapply next_record|]. split; [done|]. split; [by right|].
    split; [rewrite enc_app, take_app_le by lia; done|]. split; [lia|]. intros e [= <-]. lia.
  - destruct (IH Hds (n - length (enc P ps))%nat ltac:(lia)) as (j & ps1 & rs & m & Hj & Hl1 & Hn1 & Hf1 & Hm & Ht & Hle & He).
    exists (S j), (ps ++ ps1), rs, m. cbn [take length]. rewrite enc_app, length_app, Nat.add_assoc. split; [lia|]. split; [by constructor|]. split; [done|]. split; [done|]. split; [done|].
    split; [rewrite enc_app, take_app_ge by lia; rewrite Ht; by rewrite app_assoc|]. split; [lia|]. intros e Hee. specialize (He e Hee). lia.
Qed.

Lemma holds_cut D ds lay ends n : holds D ds false lay ends [] -> exists j lay' tail', (j <= length ds)%nat /\
  holds (take n D) (take j ds) false lay' (take j ends) tail' /\ (length (enc 0 lay') <= length (enc 0 lay))%nat /\
  (length (enc 0 lay') <= n)%nat /\ (forall e, ends !! j = Some e -> (n < e)%nat).
Proof.
  intros [Hl Hby HD Ht Hsm]. rewrite app_nil_r in HD. subst D. set (n' := Nat.min n (length (enc 0 lay))).
  destruct (laid_cut _ _ _ _ Hl Hby n' ltac:(lia)) as (j & ps1 & qs & m & Hj & Hl1 & Hn1 & Hf1 & Hm & Htk & Hle & He).
  assert (Htn : take n (enc 0 lay) = take n' (enc 0 lay)).
  { unfold n'. destruct (decide (n <= length (enc 0 lay))%nat); [f_equal; lia|]. by rewrite !take_ge by lia. }
  exists j, ps1, (take m (enc (length (enc 0 ps1)) qs)). split; [done|]. rewrite Htn. split; [|split; [lia|split; [lia|]]].
  - split; [done|by apply Forall_take|by rewrite Htk| |]. + by apply tail_open. + unfold small in *. rewrite length_take. lia.
  - intros e Hee. specialize (He e Hee). destruct (decide (n <= length (enc 0 lay))%nat); [lia|]. exfalso.
    pose proof (ends_le _ _ _ _ Hl j e Hee). lia.
Qed.

Lemma ends_sorted P ds ps ends : laid P ds ps ends -> forall i j e e', (i <= j)%nat -> ends !! i = Some e -> ends !! j = Some e' -> (e <= e')%nat.
Proof.
  induction 1 as [P|P d ds ps qs ends Hps Hfit Hl IH]; intros i j e e' Hij He He'; [done|]. destruct i as [|i], j as [|j]; simplify_eq/=; [lia| |lia|eapply (IH i j); [lia|done..]].
  clear -Hl He'. revert j e' He'. induction Hl as [P'|P' d' ds' ps' qs' ends' _ _ Hl' IH']; intros j e' He'; [done|].
  destruct j as [|j]; simplify_eq/=; [lia|]. specialize (IH' _ _ He'). lia.
Qed.
