(* ===== verification/Random.v ===== *)
(** The pseudo-random generator of [src/base/random.h] and the height lottery
    [Skiplist::RandomHeight] of [src/base/skiplist.h]. *)
From S2P Require Import Prelude.

(** ** [Random] *)
Definition Random_M : Z := 2147483647.
Definition Random_A : Z := 16807.

(** [Random::Random] *)
Definition Random_init (s : Z) : Z :=
  let seed := Z.land s 0x7fffffff in
  if decide (seed = 0 \/ seed = 2147483647) then 1 else seed.

(** [Random::Next]; the new seed is also the returned value. *)
Definition Random_Next (seed : Z) : Z :=
  let product := u64 (seed * Random_A) in
  let seed' := u32 (Z.shiftr product 31 + Z.land product Random_M) in
  if decide (Random_M < seed') then seed' - Random_M else seed'.

#[global] Arguments Random_Next : simpl never.

Definition valid_seed (s : Z) : Prop := 1 <= s < Random_M.

(** [Skiplist::RandomHeight]: the height drawn and the generator's next
    state.  The guard [height < MaxHeight] bounds the loop, so [fuel =
    MaxHeight] never runs out.  The sources draw modulo [Branch], which is 4 for
    every list of the program; they are undefined for 0, where [mod] is total. *)
Fixpoint RandomHeight_loop (fuel MaxHeight : nat) (Branch : Z) (height : nat) (seed : Z) : nat * Z :=
  match fuel with
  | O => (height, seed)
  | S fuel' =>
      if decide (height < MaxHeight)%nat then
        let seed' := Random_Next seed in
        if decide (seed' `mod` Branch = 0)
        then RandomHeight_loop fuel' MaxHeight Branch (S height) seed'
        else (height, seed')
      else (height, seed)
  end.
Definition RandomHeight (MaxHeight : nat) (Branch seed : Z) : nat * Z :=
  RandomHeight_loop MaxHeight MaxHeight Branch 1 seed.

(** ** Properties *)
Lemma valid_seed_init s : valid_seed (Random_init s).
Proof.
  unfold valid_seed, Random_init, Random_M.
  replace (Z.land s 0x7fffffff) with (s `mod` 2 ^ 31) by by rewrite <- Z.land_ones.
  pose proof (Z.mod_pos_bound s (2 ^ 31)). case_decide; lia.
Qed.

Lemma Random_product_not_zero seed :
  valid_seed seed -> (seed * Random_A) `mod` Random_M <> 0.
Proof.
  unfold valid_seed. intros Hs Hz.
  assert (Random_M | Random_A * seed) as Hd.
  { apply Z.mod_divide; [discriminate|]. by rewrite Z.mul_comm. }
  apply Z.gauss in Hd; [|by vm_compute].
  apply Z.divide_pos_le in Hd; unfold Random_M in *; lia.
Qed.

Lemma Random_Next_mod seed :
  valid_seed seed -> Random_Next seed = (seed * Random_A) `mod` Random_M.
Proof.
  intros Hs. pose proof (Random_product_not_zero seed Hs) as Hnz.
  unfold Random_Next. unfold valid_seed, Random_M, Random_A in *.
  unfold uwrap. rewrite (Z.mod_small (seed * 16807)) by lia.
  set (p := seed * 16807) in *.
  replace (Z.land p 2147483647) with (p `mod` 2 ^ 31) by by rewrite <- Z.land_ones.
  rewrite Z.shiftr_div_pow2 by lia.
  pose proof (Z.div_mod p (2 ^ 31)). pose proof (Z.mod_pos_bound p (2 ^ 31)).
  set (q := p `div` 2 ^ 31) in *. set (r := p `mod` 2 ^ 31) in *.
  rewrite (Z.mod_small (q + r)) by lia.
  case_decide.
  - apply (Z.mod_unique_pos p 2147483647 (q + 1)); lia.
  - destruct (decide (q + r = 2147483647)) as [E|E].
    + exfalso. apply Hnz. symmetry.
      apply (Z.mod_unique_pos p 2147483647 (q + 1)); lia.
    + apply (Z.mod_unique_pos p 2147483647 q); lia.
Qed.

Lemma valid_seed_Next seed : valid_seed seed -> valid_seed (Random_Next seed).
Proof.
  intros Hs. rewrite Random_Next_mod by done.
  pose proof (Random_product_not_zero seed Hs).
  pose proof (Z.mod_pos_bound (seed * Random_A) Random_M).
  unfold valid_seed, Random_M in *. lia.
Qed.

Lemma RandomHeight_loop_bounds fuel MaxHeight Branch height seed :
  (height <= MaxHeight)%nat ->
  (height <= (RandomHeight_loop fuel MaxHeight Branch height seed).1 <= MaxHeight)%nat.
Proof.
  revert height seed; induction fuel as [|fuel IH]; intros height seed Hh;
    cbn [RandomHeight_loop fst]; [lia|].
  repeat case_decide; cbn [fst]; try lia.
  specialize (IH (S height) (Random_Next seed)). lia.
Qed.

Lemma RandomHeight_bounds MaxHeight Branch seed :
  (1 <= MaxHeight)%nat -> (1 <= (RandomHeight MaxHeight Branch seed).1 <= MaxHeight)%nat.
Proof. intros H. by apply RandomHeight_loop_bounds. Qed.

Lemma RandomHeight_loop_seed fuel MaxHeight Branch height seed :
  valid_seed seed -> valid_seed (RandomHeight_loop fuel MaxHeight Branch height seed).2.
Proof.
  revert height seed; induction fuel as [|fuel IH]; intros height seed Hh;
    cbn [RandomHeight_loop snd]; [done|].
  repeat case_decide; cbn [snd]; eauto using valid_seed_Next.
Qed.

(** The loop is left through its guards, not for want of fuel. *)
Lemma RandomHeight_loop_fuel f1 f2 MaxHeight Branch height seed :
  (MaxHeight - height <= f1)%nat -> (MaxHeight - height <= f2)%nat ->
  RandomHeight_loop f1 MaxHeight Branch height seed =
  RandomHeight_loop f2 MaxHeight Branch height seed.
Proof.
  revert f2 height seed; induction f1 as [|f1 IH]; intros [|f2] height seed H1 H2;
    cbn [RandomHeight_loop]; repeat case_decide; try lia; try done.
  apply IH; lia.
Qed.

(** [Random::Next] computes the Lehmer step [seed * 16807 mod (2^31 - 1)]
    by its shift-and-add reduction, stays inside [1, 2^31 - 2], and every
    constructor argument yields a seed in that range. *)
Theorem Random_correct (s seed : Z) :
  valid_seed (Random_init s) /\
  (valid_seed seed ->
   Random_Next seed = (seed * Random_A) `mod` Random_M /\ valid_seed (Random_Next seed)).
Proof.
  split; [apply valid_seed_init|].
  intros Hs. split; [by apply Random_Next_mod|by apply valid_seed_Next].
Qed.
