(* ===== verification/Skiplist.v ===== *)
(** The concurrent skiplist of [src/base/skiplist.h], at pointer level.

    Nodes live in a heap ([gmap ptr node]); a pointer is a number, NULL is
    [None].  Every operation of the class is a function on the skiplist state
    that fails ([None]) on undefined behaviour.  Writers are serialised by
    their callers' mutexes in the sources ("need external synchronized"), so an
    operation is one atomic step of the model; the memory orders of the atomics
    are not represented.  [SkiplistInv] proves the representation invariant
    and relates each operation to the sorted sequence it implements. *)
From S2P Require Import Prelude Slice Random.

Abbreviation ptr := nat (only parsing).

Section skiplist.
Context {K V : Type} `{Comparator K, !ValueInit K, !ValueInit V}.

(** [class Node] *)
Record node := Node {
  height_ : nat;
  key_ : K;
  value_ : V;
  nexts_ : list (option ptr)
}.

(** [class Skiplist], with the heap its nodes are allocated in and the
    allocator's next address. *)
Record skiplist := Skiplist {
  MaxHeight : nat;
  Branch : Z;
  max_height_ : nat;
  rand_ : Z;
  head_ : ptr;
  tail_ : option ptr;
  heap : gmap ptr node;
  next_ptr : ptr
}.

Definition set_heap (h : gmap ptr node) (l : skiplist) : skiplist :=
  Skiplist (MaxHeight l) (Branch l) (max_height_ l) (rand_ l) (head_ l) (tail_ l) h (next_ptr l).
Definition set_tail (t : option ptr) (l : skiplist) : skiplist :=
  Skiplist (MaxHeight l) (Branch l) (max_height_ l) (rand_ l) (head_ l) t (heap l) (next_ptr l).
Definition set_max_height (m : nat) (l : skiplist) : skiplist :=
  Skiplist (MaxHeight l) (Branch l) m (rand_ l) (head_ l) (tail_ l) (heap l) (next_ptr l).
Definition set_rand (r : Z) (l : skiplist) : skiplist :=
  Skiplist (MaxHeight l) (Branch l) (max_height_ l) r (head_ l) (tail_ l) (heap l) (next_ptr l).

(** ** Node accessors *)

(** [Node::Node(key, value, height)] and [Node::Node(height)] *)
Definition node_make (k : K) (v : V) (height : nat) : node :=
  Node height k v (replicate height None).
Definition node_head (height : nat) : node :=
  node_make value_init value_init height.

(** [Node::GetNext] / [GetNextNoBarrier], with their [assert(level < height_)] *)
Definition GetNext (l : skiplist) (p : ptr) (level : nat) : option (option ptr) :=
  nd ← heap l !! p;
  _ ← require (bool_decide (level < height_ nd)%nat);
  nexts_ nd !! level.

(** [Node::SetNext] / [SetNextNoBarrier] *)
Definition SetNext (l : skiplist) (p : ptr) (level : nat) (n : option ptr) : option skiplist :=
  nd ← heap l !! p;
  _ ← require (bool_decide (level < height_ nd)%nat);
  Some (set_heap
    (<[p := Node (height_ nd) (key_ nd) (value_ nd) (<[level := n]> (nexts_ nd))]> (heap l)) l).

(** [Node::Height], [Node::GetKey], [Node::GetValue] *)
Definition Height (l : skiplist) (p : ptr) : option nat := height_ <$> heap l !! p.
Definition GetKey (l : skiplist) (p : ptr) : option K := key_ <$> heap l !! p.
Definition GetValue (l : skiplist) (p : ptr) : option V := value_ <$> heap l !! p.

(** [delete node] *)
Definition DeleteNode (l : skiplist) (p : ptr) : option skiplist :=
  _ ← heap l !! p; Some (set_heap (delete p (heap l)) l).

(** [Skiplist::Skiplist] *)
Definition Skiplist_new (max_height : nat) (branch : Z) : skiplist :=
  Skiplist max_height branch 1 (Random_init 0xdeadbeef) 0 None {[0%nat := node_head max_height]} 1.

(** ** Searches *)

(** An upper bound on the steps of a search: it only moves forward along the
    bottom list or down a level. *)
Definition search_fuel (l : skiplist) : nat := S (size (heap l) + max_height_ l).

(** [Skiplist::IsAfterNode] *)
Definition IsAfterNode (l : skiplist) (k : K) (n : option ptr) : option bool :=
  match n with
  | None => Some false
  | Some p => k' ← GetKey l p; Some (bool_decide (compare_ k k' > 0))
  end.

(** [nodes[level] = node] on a caller's array *)
Definition array_store {A} (a : list A) (i : nat) (x : A) : option (list A) :=
  _ ← require (bool_decide (i < length a)%nat); Some (<[i := x]> a).

(** [Skiplist::FindLessOrEqual]: the predecessor at the bottom level, and the
    predecessors of every level below [max_height_] stored in [nodes]. *)
Fixpoint FindLessOrEqual_loop (fuel : nat) (l : skiplist) (k : K) (node : ptr) (level : nat)
    (nodes : list (option ptr)) : option (ptr * list (option ptr)) :=
  match fuel with
  | O => None
  | S fuel' =>
      next ← GetNext l node level;
      after ← IsAfterNode l k next;
      if (after : bool) then
        nx ← next; FindLessOrEqual_loop fuel' l k nx level nodes
      else
        nodes' ← array_store nodes level (Some node);
        if decide (level <= 0)%nat then Some (node, nodes')
        else FindLessOrEqual_loop fuel' l k node (level - 1) nodes'
  end.
Definition FindLessOrEqual (l : skiplist) (k : K) (nodes : list (option ptr))
    : option (ptr * list (option ptr)) :=
  FindLessOrEqual_loop (search_fuel l) l k (head_ l) (max_height_ l - 1) nodes.

(** [Skiplist::FindEqual]: the last node whose key is not after [k], or the
    head. *)
Fixpoint FindEqual_loop (fuel : nat) (l : skiplist) (k : K) (node : ptr) (level : nat) : option ptr :=
  match fuel with
  | O => None
  | S fuel' =>
      next ← GetNext l node level;
      stop ← match next with
             | None => Some true
             | Some p => k' ← GetKey l p; Some (bool_decide (compare_ k' k > 0))
             end;
      if (stop : bool) then
        if decide (level <= 0)%nat then Some node
        else FindEqual_loop fuel' l k node (level - 1)
      else nx ← next; FindEqual_loop fuel' l k nx level
  end.
Definition FindEqual (l : skiplist) (k : K) : option ptr :=
  FindEqual_loop (search_fuel l) l k (head_ l) (max_height_ l - 1).

(** [Skiplist::FindLessThan], with its [assert] *)
Fixpoint FindLessThan_loop (fuel : nat) (l : skiplist) (k : K) (node : ptr) (level : nat) : option ptr :=
  match fuel with
  | O => None
  | S fuel' =>
      nk ← GetKey l node;
      _ ← require (bool_decide (node = head_ l) || bool_decide (compare_ nk k < 0));
      next ← GetNext l node level;
      stop ← match next with
             | None => Some true
             | Some p => k' ← GetKey l p; Some (bool_decide (compare_ k' k >= 0))
             end;
      if (stop : bool) then
        if decide (level <= 0)%nat then Some node
        else FindLessThan_loop fuel' l k node (level - 1)
      else nx ← next; FindLessThan_loop fuel' l k nx level
  end.
Definition FindLessThan (l : skiplist) (k : K) : option ptr :=
  FindLessThan_loop (search_fuel l) l k (head_ l) (max_height_ l - 1).

(** ** Updates *)

(** [Skiplist::NewNode] *)
Definition NewNode (l : skiplist) (k : K) (v : V) (height : nat) : ptr * skiplist :=
  let p := next_ptr l in
  (p, Skiplist (MaxHeight l) (Branch l) (max_height_ l) (rand_ l) (head_ l) (tail_ l)
        (<[p := node_make k v height]> (heap l)) (S p)).

(** [pre[i] = head_] for [i] in [from, to) *)
Definition fill_head (l : skiplist) (from to : nat) (pre : list (option ptr)) : option (list (option ptr)) :=
  foldl (fun acc i => a ← acc; array_store a i (Some (head_ l))) (Some pre) (seq from (to - from)).

(** The linking loop of [Insert] and [AddToFirst] *)
Fixpoint link_loop (todo : nat) (i : nat) (l : skiplist) (nd : ptr) (pre : list (option ptr)) : option skiplist :=
  match todo with
  | O => Some l
  | S todo' =>
      p ← mjoin (pre !! i);
      nx ← GetNext l p i;
      l1 ← SetNext l nd i nx;
      l2 ← SetNext l1 p i (Some nd);
      link_loop todo' (S i) l2 nd pre
  end.

(** The common end of [Insert] and [AddToFirst]: allocate the node, move the
    tail when it goes last, link it at every level below its height *)
Definition link_new (l : skiplist) (k : K) (v : V) (height : nat) (pre : list (option ptr)) : option skiplist :=
  let '(nd, l) := NewNode l k v height in
  p0 ← mjoin (pre !! 0%nat);
  n0 ← GetNext l p0 0;
  let l := if decide (n0 = None) then set_tail (Some nd) l else l in
  link_loop height 0 l nd pre.

(** [Skiplist::Insert]: returns the height drawn for the new node *)
Definition Insert (l : skiplist) (k : K) (v : V) : option (nat * skiplist) :=
  let '(height, seed) := RandomHeight (MaxHeight l) (Branch l) (rand_ l) in
  let l := set_rand seed l in
  '(_, pre) ← FindLessOrEqual l k (replicate (MaxHeight l) None);
  '(pre, l) ← if decide (max_height_ l < height)%nat then
                 pre ← fill_head l (max_height_ l) height pre;
                 Some (pre, set_max_height height l)
               else Some (pre, l);
  l ← link_new l k v height pre;
  Some (height, l).

(** [Skiplist::AddToFirst] *)
Definition AddToFirst (l : skiplist) (k : K) (v : V) : option (bool * skiplist) :=
  first ← GetNext l (head_ l) 0;
  reject ← match first with
           | None => Some false
           | Some p => k' ← GetKey l p; Some (bool_decide (compare_ k k' > 0))
           end;
  if (reject : bool) then Some (false, l)
  else
    let '(height, seed) := RandomHeight (MaxHeight l) (Branch l) (rand_ l) in
    let l := set_rand seed l in
    pre ← fill_head l 0 height (replicate (MaxHeight l) None);
    let l := if decide (max_height_ l < height)%nat then set_max_height height l else l in
    l ← link_new l k v height pre;
    Some (true, l).

(** [Skiplist::IsEmpty] *)
Definition IsEmpty (l : skiplist) : option bool :=
  n ← GetNext l (head_ l) 0; Some (bool_decide (n = None)).

(** The unlinking loop of [Remove] *)
Fixpoint unlink_loop (todo : nat) (i : nat) (l : skiplist) (result : ptr) (pre : list (option ptr)) : option skiplist :=
  match todo with
  | O => Some l
  | S todo' =>
      p ← mjoin (pre !! i);
      nx ← GetNext l result i;
      l1 ← SetNext l p i nx;
      l2 ← SetNext l1 result i None;
      unlink_loop todo' (S i) l2 result pre
  end.

(** [Skiplist::Remove]: the unlinked node, still allocated, or NULL *)
Definition Remove (l : skiplist) (k : K) : option (option ptr * skiplist) :=
  '(target, pre) ← FindLessOrEqual l k (replicate (MaxHeight l) (Some (head_ l)));
  result ← GetNext l target 0;
  match result with
  | None => Some (None, l)
  | Some r =>
      rk ← GetKey l r;
      if decide (compare_ rk k <> 0) then Some (None, l)
      else
        h ← Height l r;
        l ← unlink_loop h 0 l r pre;
        p0 ← mjoin (pre !! 0%nat);
        let l := if decide (tail_ l = Some r)
                 then set_tail (if decide (p0 = head_ l) then None else Some p0) l
                 else l in
        Some (Some r, l)
  end.

(** [pre[i]->SetNext(i, NULL)] for the non-NULL entries of [pre] *)
Fixpoint cut_loop (pre : list (option ptr)) (i : nat) (l : skiplist) : option skiplist :=
  match pre with
  | [] => Some l
  | None :: pre' => cut_loop pre' (S i) l
  | Some p :: pre' => l1 ← SetNext l p i None; cut_loop pre' (S i) l1
  end.

(** [Skiplist::Split]: the first node of the part cut off, or NULL *)
Definition Split (l : skiplist) (k : K) : option (option ptr * skiplist) :=
  '(target, pre) ← FindLessOrEqual l k (replicate (MaxHeight l) None);
  let l := set_tail (Some target) l in
  result ← GetNext l target 0;
  l ← cut_loop pre 0 l;
  Some (result, l).

(** The inner loop of [SplitOnPosNode]: cut the upper links of [nd] that lead
    to a key not before [pk]. *)
Fixpoint cut_upper (todo i : nat) (pk : K) (nd : ptr) (l : skiplist) : option skiplist :=
  match todo with
  | O => Some l
  | S todo' =>
      next ← GetNext l nd i;
      cut ← match next with
            | None => Some false
            | Some p => k' ← GetKey l p; Some (bool_decide (compare_ pk k' <= 0))
            end;
      l' ← (if (cut : bool) then SetNext l nd i None else Some l);
      cut_upper todo' (S i) pk nd l'
  end.

(** [for (i = 0; i < pre->Height(); i++) pre->SetNext(i, NULL)] *)
Definition cut_all (nd : ptr) (l : skiplist) : option skiplist :=
  h ← Height l nd;
  foldl (fun acc i => l' ← acc; SetNext l' nd i None) (Some l) (seq 0 h).

(** [Skiplist::SplitOnPosNode] *)
Fixpoint SplitOnPosNode_loop (fuel : nat) (pos cnt : Z) (pk : K) (nd : option ptr) (pre : ptr)
    (l : skiplist) : option (option ptr * skiplist) :=
  match fuel with
  | O => None
  | S fuel' =>
      match nd with
      | None => Some (None, l)
      | Some p =>
          if decide (cnt = pos) then
            let l := set_tail (Some pre) l in
            l ← cut_all pre l;
            Some (Some p, l)
          else
            h ← Height l p;
            l ← cut_upper (h - 1) 1 pk p l;
            nx ← GetNext l p 0;
            SplitOnPosNode_loop fuel' pos (u64 (cnt + 1)) pk nx p l
      end
  end.
Definition SplitOnPosNode (l : skiplist) (pos : Z) (pos_node : ptr) : option (option ptr * skiplist) :=
  pk ← GetKey l pos_node;
  SplitOnPosNode_loop (S (size (heap l))) (u64 (pos + 1)) 0 pk (Some (head_ l)) (head_ l) l.

(** The walk of [SplitByPos]: the node at distance [pos - idx], or NULL *)
Fixpoint walk_pos (fuel : nat) (l : skiplist) (idx pos : Z) (nd : option ptr) : option (option ptr) :=
  if decide (idx < pos) then
    match nd with
    | None => Some None
    | Some p =>
        match fuel with
        | O => None
        | S fuel' => nx ← GetNext l p 0; walk_pos fuel' l (idx + 1) pos nx
        end
    end
  else Some nd.

(** [Skiplist::SplitByPos] *)
Definition SplitByPos (l : skiplist) (pos : Z) : option (option ptr * skiplist) :=
  first ← GetNext l (head_ l) 0;
  pos_node ← walk_pos (size (heap l)) l 0 pos first;
  match pos_node with
  | None => Some (None, l)
  | Some p => SplitOnPosNode l pos p
  end.

(** The walk of [SplitByKeyOrPos]: [inl k'] when a key not before [k] is met
    first (the code then calls [Split(k')]), [inr] the node reached. *)
Fixpoint walk_key_or_pos (fuel : nat) (l : skiplist) (k : K) (idx pos : Z) (nd : option ptr)
    : option (K + option ptr) :=
  if decide (idx < pos) then
    match nd with
    | None => Some (inr None)
    | Some p =>
        match fuel with
        | O => None
        | S fuel' =>
            k' ← GetKey l p;
            if decide (compare_ k' k >= 0) then Some (inl k')
            else nx ← GetNext l p 0; walk_key_or_pos fuel' l k (idx + 1) pos nx
        end
    end
  else Some (inr nd).

(** [Skiplist::SplitByKeyOrPos] *)
Definition SplitByKeyOrPos (l : skiplist) (k : K) (pos : Z) : option (option ptr * skiplist) :=
  first ← GetNext l (head_ l) 0;
  w ← walk_key_or_pos (size (heap l)) l k 0 pos first;
  match w with
  | inl k' => Split l k'
  | inr None => Some (None, l)
  | inr (Some p) => SplitOnPosNode l pos p
  end.

(** The walk of [SplitByKeyAndPos]: the node reached and whether a key not
    before [k] was met on the way *)
Fixpoint walk_key_and_pos (fuel : nat) (l : skiplist) (k : K) (idx pos : Z) (find_key : bool)
    (nd : option ptr) : option (bool * option ptr) :=
  if decide (idx < pos) then
    match nd with
    | None => Some (find_key, None)
    | Some p =>
        match fuel with
        | O => None
        | S fuel' =>
            k' ← GetKey l p;
            nx ← GetNext l p 0;
            walk_key_and_pos fuel' l k (idx + 1) pos
              (if decide (compare_ k' k >= 0) then true else find_key) nx
        end
    end
  else Some (find_key, nd).

(** [Skiplist::SplitByKeyAndPos] *)
Definition SplitByKeyAndPos (l : skiplist) (k : K) (pos : Z) : option (option ptr * skiplist) :=
  first ← GetNext l (head_ l) 0;
  '(find_key, pos_node) ← walk_key_and_pos (size (heap l)) l k 0 pos false first;
  match pos_node with
  | None => Some (None, l)
  | Some p => if (find_key : bool) then SplitOnPosNode l pos p else Split l k
  end.

(** [const V& Skiplist::Get(key)]: no check that the key found is [k] *)
Definition Get_ref (l : skiplist) (k : K) : option V :=
  p ← FindEqual l k; GetValue l p.

(** [int Skiplist::Get(key, v)]: [Some v] for status 0, [None] for -1 *)
Definition Get (l : skiplist) (k : K) : option (option V) :=
  p ← FindEqual l k;
  k' ← GetKey l p;
  if decide (compare_ k' k = 0) then v ← GetValue l p; Some (Some v)
  else Some None.

(** [Skiplist::GetLast] *)
Definition GetLast (l : skiplist) : option ptr := tail_ l.

(** [Skiplist::GetSize] (a [uint32_t]) *)
Fixpoint GetSize_loop (fuel : nat) (l : skiplist) (cnt : Z) (nd : option ptr) : option Z :=
  match nd with
  | None => Some cnt
  | Some p =>
      match fuel with
      | O => None
      | S fuel' =>
          let cnt := u32 (cnt + 1) in
          tmp ← GetNext l p 0;
          match tmp with
          | None => Some cnt
          | Some _ => GetSize_loop fuel' l cnt tmp
          end
      end
  end.
Definition GetSize (l : skiplist) : option Z :=
  first ← GetNext l (head_ l) 0; GetSize_loop (size (heap l)) l 0 first.

(** [Skiplist::Clear] *)
Fixpoint Clear_loop (fuel : nat) (l : skiplist) (cnt : Z) (nd : option ptr) : option (Z * skiplist) :=
  match nd with
  | None => Some (cnt, l)
  | Some p =>
      match fuel with
      | O => None
      | S fuel' =>
          nx ← GetNext l p 0;
          l ← cut_all p l;
          l ← DeleteNode l p;
          Clear_loop fuel' l (u64 (cnt + 1)) nx
      end
  end.
Definition Clear (l : skiplist) : option (Z * skiplist) :=
  first ← GetNext l (head_ l) 0;
  l ← cut_all (head_ l) l;
  Clear_loop (size (heap l)) (set_tail None l) 0 first.

(** ** [Skiplist::Iterator]: its state is the current node *)
Definition iterator : Type := option ptr.

Definition it_Valid (it : iterator) : bool := bool_decide (it <> None).
Definition it_Next (l : skiplist) (it : iterator) : option iterator :=
  p ← it; GetNext l p 0.
Definition it_GetKey (l : skiplist) (it : iterator) : option K := p ← it; GetKey l p.
Definition it_GetValue (l : skiplist) (it : iterator) : option V := p ← it; GetValue l p.
Definition it_Seek (l : skiplist) (k : K) : option iterator :=
  p ← FindLessThan l k; it_Next l (Some p).
Definition it_SeekToFirst (l : skiplist) : option iterator := it_Next l (Some (head_ l)).
Definition it_SeekToLast (l : skiplist) : iterator := GetLast l.

End skiplist.

#[global] Arguments node : clear implicits.
#[global] Arguments skiplist : clear implicits.
