(* ===== verification/SkiplistInv.v ===== *)
(** The representation invariant of the skiplist and the correctness of its
    three searches.

    At every level [i] the nodes reachable from the head form a list [cs i];
    [cs 0] is the whole content in key order, [cs (S i)] is a sublist of
    [cs i].  Splitting by position may leave nodes in [cs 0] that are no longer
    linked at their upper levels, so the upper lists are not determined by the
    heights alone. *)
From S2P Require Import Prelude Slice Random Skiplist.

(** ** Linked segments of a successor function *)

Definition last_or {A} (d : A) (l : list A) : A := default d (last l).

Lemma last_or_nil {A} (d : A) : last_or d [] = d.
Proof. done. Qed.

Lemma last_or_cons {A} (d x : A) l : last_or d (x :: l) = last_or x l.
Proof.
  unfold last_or. rewrite last_cons. by destruct (last l).
Qed.

Lemma last_or_app {A} (d : A) a b : last_or d (a ++ b) = last_or (last_or d a) b.
Proof.
  revert d; induction a as [|x a IH]; intros d; [done|].
  simpl app. by rewrite !last_or_cons.
Qed.

Lemma last_or_snoc {A} (d : A) a x : last_or d (a ++ [x]) = x.
Proof. by rewrite last_or_app, last_or_cons. Qed.

Lemma last_or_elem {A} (d : A) a : last_or d a ∈ d :: a.
Proof.
  revert d; induction a as [|x a IH]; intros d; [constructor|].
  rewrite last_or_cons. right. apply IH.
Qed.

(** [after x l]: what follows the first [x] in [l] *)
Fixpoint after {A} `{EqDecision A} (x : A) (l : list A) : list A :=
  match l with
  | [] => []
  | y :: l' => if decide (x = y) then l' else after x l'
  end.

Section after.
Context {A : Type} `{EqDecision A}.
Implicit Types (x : A) (l k : list A).

Lemma after_split x l : x ∈ l -> exists a, l = a ++ x :: after x l /\ x ∉ a.
Proof.
  induction l as [|y l IH]; intros Hx; [by apply not_elem_of_nil in Hx|].
  simpl. case_decide as E; subst.
  - exists []. split; [done|apply not_elem_of_nil].
  - apply elem_of_cons in Hx as [?|Hx]; [done|].
    destruct (IH Hx) as (a & Ha & Hn). exists (y :: a).
    split; [simpl; by f_equal|]. rewrite not_elem_of_cons. done.
Qed.

Lemma after_app x a b : x ∉ a -> after x (a ++ x :: b) = b.
Proof.
  induction a as [|y a IH]; intros Hx; simpl.
  - by rewrite decide_True.
  - apply not_elem_of_cons in Hx as [??]. rewrite decide_False by done. auto.
Qed.

Lemma after_sublist x l k : NoDup k -> l `sublist_of` k -> x ∈ l -> after x l `sublist_of` after x k.
Proof.
  intros Hnd Hs. induction Hs as [|y l k Hs IH|y l k Hs IH]; intros Hx.
  - by apply not_elem_of_nil in Hx.
  - apply NoDup_cons in Hnd as [Hy Hnd]. simpl. case_decide; [done|].
    apply elem_of_cons in Hx as [?|Hx]; [done|auto].
  - apply NoDup_cons in Hnd as [Hy Hnd]. simpl. case_decide; subst; [|auto].
    exfalso. apply Hy. by eapply elem_of_sublist.
Qed.

Lemma after_step x y l b : NoDup l -> x ∈ l -> after x l = y :: b -> y ∈ l /\ after y l = b.
Proof.
  intros Hnd Hx Ha. destruct (after_split x l Hx) as (a & Hl & Hn). rewrite Ha in Hl.
  split; [rewrite Hl; apply elem_of_app; right; right; left|].
  rewrite Hl in Hnd |- *. rewrite (cons_middle x), app_assoc in Hnd |- *.
  apply after_app. intros Hy.
  apply NoDup_app in Hnd as (_ & Hnd & _). apply (Hnd y Hy). left.
Qed.

Lemma shorter_after x y l : NoDup l -> x ∈ l -> y ∈ after x l ->
  (length (after y l) < length (after x l))%nat.
Proof.
  intros Hnd Hx Hy. destruct (after_split x l Hx) as (a & Hl & Hn).
  destruct (list_elem_of_split _ _ Hy) as (b & c & Hb).
  rewrite Hb in Hl |- *. rewrite Hl in Hnd |- *.
  rewrite (cons_middle x), app_assoc, app_assoc in Hnd |- *.
  rewrite after_app; [rewrite length_app; simpl; lia|].
  apply NoDup_app in Hnd as (_ & Hnd & _). intros Hin. apply (Hnd y Hin). left.
Qed.
End after.

(** [seg f p a]: following [f] from [p] visits [a] *)
Fixpoint seg (f : ptr -> option (option ptr)) (p : ptr) (a : list ptr) : Prop :=
  match a with
  | [] => True
  | q :: a' => f p = Some (Some q) /\ seg f q a'
  end.
Definition path (f : ptr -> option (option ptr)) (p : ptr) (c : list ptr) : Prop :=
  seg f p c /\ f (last_or p c) = Some None.

Lemma seg_app f p a b : seg f p (a ++ b) <-> seg f p a /\ seg f (last_or p a) b.
Proof.
  revert p; induction a as [|q a IH]; intros p; simpl; [tauto|].
  rewrite IH, last_or_cons. tauto.
Qed.

Lemma path_app f p a b : path f p (a ++ b) <-> seg f p a /\ path f (last_or p a) b.
Proof. unfold path. rewrite seg_app, last_or_app. tauto. Qed.

Lemma path_cons f p q c : path f p (q :: c) <-> f p = Some (Some q) /\ path f q c.
Proof. unfold path. simpl. rewrite last_or_cons. tauto. Qed.

Lemma path_nil f p : path f p [] <-> f p = Some None.
Proof. unfold path. simpl. rewrite last_or_nil. tauto. Qed.

Lemma path_head f p c : path f p c -> f p = Some (head c).
Proof. destruct c as [|q c]; [by rewrite path_nil|]. rewrite path_cons. by intros [-> _]. Qed.

Lemma path_det f p c1 c2 : path f p c1 -> path f p c2 -> c1 = c2.
Proof.
  revert p c2; induction c1 as [|q c1 IH]; intros p c2 H1 H2.
  - apply path_nil in H1. apply path_head in H2. destruct c2; simpl in *; congruence.
  - apply path_cons in H1 as [H1 Hq]. destruct c2 as [|q' c2].
    + apply path_nil in H2. congruence.
    + apply path_cons in H2 as [H2 Hq']. simplify_eq. f_equal. eauto.
Qed.

Lemma seg_frame f f' p a :
  NoDup (p :: a) -> (forall q, q ∈ p :: a -> q <> last_or p a -> f' q = f q) ->
  seg f p a -> seg f' p a.
Proof.
  revert p; induction a as [|q a IH]; intros p Hnd Hf; [done|]. simpl.
  apply NoDup_cons in Hnd as [Hp Hnd]. intros [H1 H2]. split.
  - rewrite Hf; [done|left|]. rewrite last_or_cons. intros Heq. apply Hp.
    rewrite Heq. apply last_or_elem.
  - apply IH; [done| |done]. intros r Hr Hl. apply Hf; [by right|by rewrite last_or_cons].
Qed.

Lemma path_frame f f' p c :
  (forall q, q ∈ p :: c -> f' q = f q) -> path f p c -> path f' p c.
Proof.
  revert p; induction c as [|q c IH]; intros p Hf; rewrite ?path_nil, ?path_cons.
  - intros <-. apply Hf. left.
  - intros [H1 H2]. split; [rewrite Hf; [done|left]|].
    apply IH; [|done]. intros r Hr. apply Hf. by right.
Qed.

(** The three list surgeries the skiplist performs on one level. *)
Lemma path_insert f f' p a b n :
  NoDup (p :: a ++ b) -> n ∉ p :: a ++ b ->
  f' (last_or p a) = Some (Some n) -> f' n = f (last_or p a) ->
  (forall q, q ∈ p :: a ++ b -> q <> last_or p a -> f' q = f q) ->
  path f p (a ++ b) -> path f' p (a ++ n :: b).
Proof.
  intros Hnd Hn Hl Hfn Hf Hp. apply path_app in Hp as [Ha Hb]. apply path_app.
  rewrite app_comm_cons in Hnd. apply NoDup_app in Hnd as (Hnda & Hd & Hndb).
  assert (Hlast : last_or p a ∈ p :: a) by apply last_or_elem.
  split.
  - apply (seg_frame f); [done| |done]. intros q Hq Hne. apply Hf; [|done].
    rewrite app_comm_cons. apply elem_of_app. by left.
  - apply path_cons. split; [done|].
    destruct b as [|y b].
    + apply path_nil. rewrite Hfn. by apply path_nil in Hb.
    + apply path_cons in Hb as [Hy Hb]. apply path_cons.
      split; [by rewrite Hfn|]. apply (path_frame f); [|done].
      intros q Hq. apply Hf.
      * rewrite app_comm_cons. apply elem_of_app. by right.
      * intros ->. by apply (Hd _ Hlast).
Qed.

Lemma path_remove f f' p a b n :
  NoDup (p :: a ++ n :: b) ->
  f' (last_or p a) = f n ->
  (forall q, q ∈ p :: a ++ b -> q <> last_or p a -> f' q = f q) ->
  path f p (a ++ n :: b) -> path f' p (a ++ b).
Proof.
  intros Hnd Hl Hf Hp. apply path_app in Hp as [Ha Hb]. apply path_app.
  rewrite app_comm_cons in Hnd. apply NoDup_app in Hnd as (Hnda & Hd & Hndb).
  assert (Hlast : last_or p a ∈ p :: a) by apply last_or_elem.
  apply path_cons in Hb as [Hn Hb].
  split.
  - apply (seg_frame f); [done| |done]. intros q Hq Hne. apply Hf; [|done].
    rewrite app_comm_cons. apply elem_of_app. by left.
  - destruct b as [|y b].
    + apply path_nil. rewrite Hl. by apply path_nil in Hb.
    + apply path_cons in Hb as [Hy Hb]. apply path_cons.
      split; [by rewrite Hl|]. apply (path_frame f); [|done].
      intros q Hq. apply Hf.
      * rewrite app_comm_cons. apply elem_of_app. by right.
      * intros ->. apply (Hd _ Hlast). by right.
Qed.

Lemma path_cut f f' p a b :
  NoDup (p :: a) -> f' (last_or p a) = Some None ->
  (forall q, q ∈ p :: a -> q <> last_or p a -> f' q = f q) ->
  path f p (a ++ b) -> path f' p a.
Proof.
  intros Hnd Hl Hf Hp. apply path_app in Hp as [Ha Hb]. split; [|done].
  by apply (seg_frame f).
Qed.

(** ** Reading and writing links *)

Section repr.
Context {K V : Type} `{ComparatorLaws K, !ValueInit K, !ValueInit V}.
Implicit Types (l : skiplist K V) (cs : nat -> list ptr).

(** What a node carries besides its links *)
Definition info l (p : ptr) : option (K * V * nat) :=
  (fun nd => (key_ nd, value_ nd, height_ nd)) <$> heap l !! p.
Definition nx l (i : nat) (p : ptr) : option (option ptr) := GetNext l p i.

(** The total version of [SetNext] *)
Definition upd_next l (p : ptr) (i : nat) (n : option ptr) : skiplist K V :=
  set_heap (alter (fun nd => Node (height_ nd) (key_ nd) (value_ nd) (<[i := n]> (nexts_ nd))) p (heap l)) l.

Lemma GetNext_Some l p i n :
  GetNext l p i = Some n <->
  exists nd, heap l !! p = Some nd /\ (i < height_ nd)%nat /\ nexts_ nd !! i = Some n.
Proof.
  unfold GetNext, require. destruct (heap l !! p) as [nd|]; simpl; [|naive_solver].
  case_bool_decide; simpl; naive_solver.
Qed.

Lemma SetNext_upd l p i n : is_Some (GetNext l p i) -> SetNext l p i n = Some (upd_next l p i n).
Proof.
  intros [m (nd & Hp & Hi & _)%GetNext_Some]. unfold SetNext, upd_next, require.
  rewrite Hp. simpl. rewrite bool_decide_eq_true_2 by done. simpl.
  do 2 f_equal. apply map_eq. intros q. rewrite lookup_insert, lookup_alter.
  case_decide; subst; [|done]. by rewrite Hp.
Qed.

Lemma GetNext_upd l p i n q j :
  is_Some (GetNext l p i) ->
  GetNext (upd_next l p i n) q j = if decide (q = p /\ j = i) then Some n else GetNext l q j.
Proof.
  intros [m (nd & Hp & Hi & Hm)%GetNext_Some]. unfold GetNext, upd_next; simpl.
  rewrite lookup_alter. apply lookup_lt_Some in Hm.
  destruct (decide (p = q)) as [<-|Hq].
  - rewrite Hp. simpl. unfold require. case_bool_decide as Hj; simpl.
    + destruct (decide (j = i)) as [->|Hj'].
      * rewrite decide_True by done. by rewrite list_lookup_insert_eq.
      * rewrite decide_False by tauto. by rewrite list_lookup_insert_ne by done.
    + rewrite decide_False; [done|]. intros [_ ->]. done.
  - rewrite decide_False; [done|]. naive_solver.
Qed.

Lemma is_Some_GetNext_upd l p i n q j :
  is_Some (GetNext l p i) -> is_Some (GetNext l q j) -> is_Some (GetNext (upd_next l p i n) q j).
Proof. intros Hp Hq. rewrite GetNext_upd by done. case_decide; [eauto|done]. Qed.

Lemma info_upd l p i n q : info (upd_next l p i n) q = info l q.
Proof.
  unfold info, upd_next; simpl. rewrite lookup_alter. case_decide; subst; [|done].
  by destruct (heap l !! q).
Qed.

Lemma size_heap_upd l p i n : size (heap (upd_next l p i n)) = size (heap l).
Proof.
  unfold upd_next; simpl. rewrite <- !size_dom. by rewrite dom_alter_L.
Qed.

Lemma GetKey_info l p : GetKey l p = (fun x => x.1.1) <$> info l p.
Proof. unfold GetKey, info. by destruct (heap l !! p). Qed.
Lemma GetValue_info l p : GetValue l p = (fun x => x.1.2) <$> info l p.
Proof. unfold GetValue, info. by destruct (heap l !! p). Qed.
Lemma Height_info l p : Height l p = snd <$> info l p.
Proof. unfold Height, info. by destruct (heap l !! p). Qed.

Lemma GetNext_info l p i : is_Some (GetNext l p i) -> is_Some (info l p).
Proof.
  intros [n (nd & Hp & _)%GetNext_Some]. unfold info. rewrite Hp. eauto.
Qed.

(** ** The invariant *)

Definition keyof l (p : ptr) : K := default value_init (GetKey l p).
Definition key_le l (p q : ptr) : Prop := compare_ (keyof l p) (keyof l q) <= 0.

Record repr l cs : Prop := {
  r_mh : (1 <= max_height_ l <= MaxHeight l)%nat;
  r_head : Height l (head_ l) = Some (MaxHeight l);
  r_nodes : forall p, p ∈ cs 0%nat ->
    exists h, Height l p = Some h /\ (1 <= h <= MaxHeight l)%nat;
  r_links : forall p h i, p ∈ head_ l :: cs 0%nat -> Height l p = Some h -> (i < h)%nat ->
    is_Some (GetNext l p i);
  r_nodup : NoDup (head_ l :: cs 0%nat);
  r_path : forall i, (i < MaxHeight l)%nat -> path (nx l i) (head_ l) (cs i);
  r_sub : forall i, cs (S i) `sublist_of` cs i;
  r_high : forall i, (max_height_ l <= i)%nat -> cs i = [];
  r_off : forall p h i, p ∈ cs 0%nat -> Height l p = Some h -> (i < h)%nat -> p ∉ cs i ->
    GetNext l p i = Some None;
  r_sorted : StronglySorted (key_le l) (cs 0%nat);
  r_tail : tail_ l = last (cs 0%nat) \/ (cs 0%nat = [] /\ tail_ l = Some (head_ l));
  r_fresh : forall p, is_Some (info l p) -> (p < next_ptr l)%nat
}.

Lemma StronglySorted_sublist {A} (R : A -> A -> Prop) (a b : list A) :
  a `sublist_of` b -> StronglySorted R b -> StronglySorted R a.
Proof.
  induction 1 as [|x a b Hs IH|x a b Hs IH]; intros Hb; [done| |];
    apply StronglySorted_inv in Hb as [Hb Hx]; [|auto].
  constructor; [auto|]. rewrite Forall_forall in Hx |- *.
  intros y Hy. apply Hx. by eapply elem_of_sublist.
Qed.

Section facts.
Context l cs (Hr : repr l cs).

Lemma repr_sub i : cs i `sublist_of` cs 0%nat.
Proof. induction i as [|i IH]; [done|]. etrans; [apply (r_sub _ _ Hr)|done]. Qed.

Lemma repr_nodup i : NoDup (head_ l :: cs i).
Proof.
  eapply sublist_NoDup; [apply (r_nodup _ _ Hr)|]. apply sublist_skip, repr_sub.
Qed.

Lemma repr_sorted i : StronglySorted (key_le l) (cs i).
Proof. eapply StronglySorted_sublist; [apply repr_sub|apply (r_sorted _ _ Hr)]. Qed.

Lemma repr_sub_C i j : (j <= i)%nat -> head_ l :: cs i `sublist_of` head_ l :: cs j.
Proof.
  intros Hij. apply sublist_skip. induction Hij as [|i Hij IH]; [done|].
  etrans; [apply (r_sub _ _ Hr)|done].
Qed.

Lemma repr_info p : p ∈ cs 0%nat -> exists k v h, info l p = Some (k, v, h) /\ (1 <= h <= MaxHeight l)%nat.
Proof.
  intros (h & Hh & ?)%(r_nodes _ _ Hr). rewrite Height_info in Hh.
  apply fmap_Some in Hh as ([[k v] h'] & Hi & ->). eauto.
Qed.

Lemma repr_key p : p ∈ cs 0%nat -> GetKey l p = Some (keyof l p).
Proof.
  intros (k & v & h & Hi & _)%repr_info. unfold keyof. rewrite GetKey_info, Hi. done.
Qed.

(** Every link read at a level a node participates in is defined. *)
Lemma repr_path_after i p :
  (i < MaxHeight l)%nat -> p ∈ head_ l :: cs i -> path (nx l i) p (after p (head_ l :: cs i)).
Proof.
  intros Hi Hp. destruct (after_split p _ Hp) as (a & Ha & Hn).
  pose proof (r_path _ _ Hr i Hi) as Hpath.
  destruct a as [|x a].
  - simpl in Ha. injection Ha as <- _. simpl. by rewrite decide_True.
  - rewrite <- app_comm_cons in Ha. injection Ha as _ Hc.
    rewrite Hc, cons_middle, app_assoc, path_app, last_or_snoc in Hpath. by apply Hpath.
Qed.

Lemma repr_size : (length (cs 0%nat) < size (heap l))%nat.
Proof.
  assert (list_to_set (C := gset ptr) (head_ l :: cs 0%nat) ⊆ dom (heap l)) as Hd.
  { intros p. rewrite elem_of_list_to_set, elem_of_dom. intros Hp.
    assert (is_Some (Height l p)) as [h Hh].
    { apply elem_of_cons in Hp as [->|Hp]; [rewrite (r_head _ _ Hr); eauto|].
      destruct (r_nodes _ _ Hr p Hp) as (h & -> & _). eauto. }
    unfold Height in Hh. destruct (heap l !! p); [eauto|done]. }
  apply subseteq_size in Hd. rewrite size_list_to_set in Hd by apply (r_nodup _ _ Hr).
  rewrite size_dom in Hd. simpl in Hd. lia.
Qed.
End facts.

(** ** Searches

    The three search loops of the class differ only in the test that makes
    them advance; [gsearch] is their common skeleton and returns the node each
    level was left at, top level first. *)
Fixpoint gsearch (fuel : nat) l (adv : K -> bool) (nd : ptr) (level : nat) : option (list ptr) :=
  match fuel with
  | O => None
  | S fuel' =>
      next ← GetNext l nd level;
      go ← match next with
           | None => Some false
           | Some p => k' ← GetKey l p; Some (adv k')
           end;
      if (go : bool) then n ← next; gsearch fuel' l adv n level
      else
        match level with
        | O => Some [nd]
        | S lv => ps ← gsearch fuel' l adv nd lv; Some (nd :: ps)
        end
  end.

(** The node before the first one of level [i] that fails the test *)
Definition pred_at l cs (adv : K -> bool) (i : nat) : ptr :=
  last_or (head_ l) (filter (fun p => adv (keyof l p) = true) (cs i)).
Fixpoint preds l cs (adv : K -> bool) (level : nat) : list ptr :=
  pred_at l cs adv level :: match level with O => [] | S lv => preds l cs adv lv end.

Lemma length_preds l cs adv level : length (preds l cs adv level) = S level.
Proof. induction level as [|n IH]; simpl in *; [done|by rewrite IH]. Qed.

Lemma last_preds l cs adv level d : last_or d (preds l cs adv level) = pred_at l cs adv 0.
Proof.
  revert d; induction level as [|n IH]; intros d; cbn [preds]; rewrite last_or_cons; [done|auto].
Qed.

Section search.
Context l cs (Hr : repr l cs) (adv : K -> bool).
Context (Hadv : forall a b, compare_ a b <= 0 -> adv b = true -> adv a = true).

Lemma adv_closed p q : key_le l p q -> adv (keyof l q) = true -> adv (keyof l p) = true.
Proof. unfold key_le. eauto. Qed.

Lemma filter_adv_none c : StronglySorted (key_le l) c ->
  (forall q, head c = Some q -> adv (keyof l q) = false) ->
  filter (fun p => adv (keyof l p) = true) c = [].
Proof.
  intros Hs Hh. destruct c as [|q c]; [done|]. specialize (Hh q eq_refl).
  apply StronglySorted_inv in Hs as [Hs Hq].
  assert (Forall (fun p => ~ adv (keyof l p) = true) (q :: c)) as Hall.
  { constructor; [congruence|]. eapply Forall_impl; [exact Hq|].
    intros x Hx Ha. simpl in *. rewrite (adv_closed _ _ Hx Ha) in Hh. done. }
  clear -Hall. induction Hall as [|x c' Hx Hall IH]; [done|].
  rewrite filter_cons, decide_False by done. done.
Qed.

Lemma filter_adv_all c q : StronglySorted (key_le l) (c ++ [q]) -> adv (keyof l q) = true ->
  filter (fun p => adv (keyof l p) = true) (c ++ [q]) = c ++ [q].
Proof.
  intros Hs Hq. induction c as [|x c IH]; simpl.
  - rewrite filter_cons, decide_True by done. done.
  - simpl in Hs. apply StronglySorted_inv in Hs as [Hs Hx].
    rewrite filter_cons, decide_True; [by rewrite IH|].
    apply (adv_closed x q); [|done]. rewrite Forall_forall in Hx. apply Hx.
    apply elem_of_app. right. left.
Qed.

Lemma pred_at_char i p :
  p ∈ head_ l :: cs i -> (p = head_ l \/ adv (keyof l p) = true) ->
  (forall q, head (after p (head_ l :: cs i)) = Some q -> adv (keyof l q) = false) ->
  pred_at l cs adv i = p.
Proof.
  intros Hp Hpa Hq. destruct (after_split p _ Hp) as (a & Ha & Hn). unfold pred_at.
  pose proof (repr_sorted l cs Hr i) as Hs.
  set (b := after p (head_ l :: cs i)) in *. destruct a as [|x a].
  - simpl in Ha. injection Ha as -> Hc. rewrite Hc in Hs |- *.
    by rewrite filter_adv_none.
  - simpl in Ha. injection Ha as Hx Hc. subst x.
    assert (adv (keyof l p) = true) as Hpa'.
    { destruct Hpa as [->|]; [|done]. apply not_elem_of_cons in Hn. naive_solver. }
    rewrite Hc, (cons_middle p a b), app_assoc in Hs |- *.
    pose proof (StronglySorted_app_1_l _ _ _ Hs) as Hs1.
    pose proof (StronglySorted_app_1_r _ _ _ Hs) as Hs2.
    rewrite filter_app, filter_adv_all, filter_adv_none, app_nil_r by done.
    apply last_or_snoc.
Qed.

Lemma gsearch_correct fuel nd level :
  (level < MaxHeight l)%nat -> nd ∈ head_ l :: cs level ->
  (nd = head_ l \/ adv (keyof l nd) = true) ->
  (length (after nd (head_ l :: cs 0%nat)) + level < fuel)%nat ->
  gsearch fuel l adv nd level = Some (preds l cs adv level).
Proof.
  revert nd level; induction fuel as [|fuel IH]; intros nd level Hlv Hnd Hna Hfuel; [lia|].
  cbn [gsearch].
  pose proof (repr_path_after l cs Hr level nd Hlv Hnd) as Hpath.
  pose proof (path_head _ _ _ Hpath) as Hnext. unfold nx in Hnext. rewrite Hnext. cbn [mbind option_bind].
  assert (Hstop : (forall q, head (after nd (head_ l :: cs level)) = Some q -> adv (keyof l q) = false) ->
    match level with
    | O => Some [nd]
    | S lv => ps ← gsearch fuel l adv nd lv; Some (nd :: ps)
    end = Some (preds l cs adv level)).
  { intros Hq. pose proof (pred_at_char level nd Hnd Hna Hq) as Hpred.
    destruct level as [|lv]; cbn [preds]; rewrite Hpred; [done|].
    rewrite IH; [done|lia| |done|lia].
    eapply elem_of_sublist; [done|]. apply (repr_sub_C l cs Hr). lia. }
  destruct (after nd (head_ l :: cs level)) as [|q b] eqn:Hb; cbn [head].
  - simpl. apply Hstop. intros q [=].
  - destruct (after_step nd q _ b (repr_nodup l cs Hr level) Hnd Hb) as [Hq Hqb].
    assert (q ∈ cs 0%nat) as Hq0.
    { apply elem_of_cons in Hq as [Hq|Hq]; [|by eapply elem_of_sublist, (repr_sub l cs Hr level)].
      exfalso. destruct (after_split nd _ Hnd) as (a & Ha & Hn). rewrite Hb in Ha.
      pose proof (repr_nodup l cs Hr level) as Hd. rewrite Ha in Hd.
      destruct a as [|x a]; simpl in Ha; injection Ha as Hx _.
      - simpl in Hd. apply NoDup_cons in Hd as [Hd _]. apply Hd. rewrite <- Hx, Hq. left.
      - simpl in Hd. apply NoDup_cons in Hd as [Hd _]. apply Hd. rewrite <- Hx, <- Hq.
        apply elem_of_app. right. right. left. }
    simpl. rewrite (repr_key l cs Hr q Hq0). simpl.
    destruct (adv (keyof l q)) eqn:Haq; simpl.
    + apply IH; [done|done|by right|].
      assert (length (after q (head_ l :: cs 0%nat)) < length (after nd (head_ l :: cs 0%nat)))%nat; [|lia].
      pose proof (after_sublist nd _ _ (r_nodup _ _ Hr) (repr_sub_C l cs Hr level 0 ltac:(lia)) Hnd) as Hsub.
      rewrite Hb in Hsub. apply (shorter_after nd q); [apply (r_nodup _ _ Hr)| |].
      * eapply elem_of_sublist; [exact Hnd|]. apply (repr_sub_C l cs Hr). lia.
      * eapply elem_of_sublist; [|exact Hsub]. left.
    + apply Hstop. by intros ? [= <-].
Qed.
End search.

End repr.
