(* ===== verification/SkiplistInsert.v ===== *)
(** Correctness of [Skiplist::Insert] and [Skiplist::AddToFirst]. *)
From S2P Require Import Prelude Slice Random Skiplist SkiplistInv.

(** * SkiplistOps: Functional correctness of the skiplist operations: every operation keeps
    the representation invariant and acts on the sorted content as specified,
    without undefined behaviour and within its fuel. *)
Section ops.
Context {K V : Type} `{ComparatorLaws K, !ValueInit K, !ValueInit V}.
Implicit Types (l : skiplist K V) (cs : nat -> list ptr) (k : K).

(** ** The tests the searches advance on *)
Definition adv_lt k (k' : K) : bool := bool_decide (compare_ k' k < 0).
Definition adv_le k (k' : K) : bool := bool_decide (compare_ k' k <= 0).

Lemma adv_lt_true k k' : adv_lt k k' = true <-> compare_ k' k < 0.
Proof. apply bool_decide_eq_true. Qed.
Lemma adv_le_true k k' : adv_le k k' = true <-> compare_ k' k <= 0.
Proof. apply bool_decide_eq_true. Qed.

Lemma adv_lt_closed k a b : compare_ a b <= 0 -> adv_lt k b = true -> adv_lt k a = true.
Proof. rewrite !adv_lt_true. apply cmp_le_lt_trans. Qed.
Lemma adv_le_closed k a b : compare_ a b <= 0 -> adv_le k b = true -> adv_le k a = true.
Proof. rewrite !adv_le_true. apply cmp_le_trans. Qed.

(** The part of level [i] before key [k], and the rest *)
Definition lt_part l cs k (i : nat) : list ptr := filter (fun p => adv_lt k (keyof l p) = true) (cs i).
Definition ge_part l cs k (i : nat) : list ptr := filter (fun p => ~ adv_lt k (keyof l p) = true) (cs i).

Lemma parts l cs k i : repr l cs -> cs i = lt_part l cs k i ++ ge_part l cs k i.
Proof.
  intros Hr. apply (sorted_filter_split (key_le l)); [|by apply repr_sorted].
  intros x y Hxy. apply (adv_closed l (adv_lt k)); [apply adv_lt_closed|done].
Qed.

(** ** The search loops against [gsearch] *)
Fixpoint store (level : nat) (ps : list ptr) (nodes : list (option ptr)) : list (option ptr) :=
  match ps with
  | [] => nodes
  | p :: ps' => store (level - 1) ps' (<[level := Some p]> nodes)
  end.

Lemma length_store level ps nodes : length (store level ps nodes) = length nodes.
Proof.
  revert level nodes; induction ps as [|p ps IH]; intros level nodes; simpl; [done|].
  by rewrite IH, length_insert.
Qed.

Lemma store_above level ps nodes i :
  (level < i)%nat -> store level ps nodes !! i = nodes !! i.
Proof.
  revert level nodes; induction ps as [|p ps IH]; intros level nodes Hi; simpl; [done|].
  rewrite IH by lia. by rewrite list_lookup_insert_ne by lia.
Qed.

Lemma store_preds l cs adv level nodes i :
  (i <= level)%nat -> (level < length nodes)%nat ->
  store level (preds l cs adv level) nodes !! i = Some (Some (pred_at l cs adv i)).
Proof.
  revert nodes; induction level as [|lv IH]; intros nodes Hi Hl.
  - replace i with 0%nat by lia. cbn [preds store]. by rewrite list_lookup_insert_eq by lia.
  - cbn [preds store]. replace (S lv - 1)%nat with lv by lia.
    destruct (decide (i = S lv)) as [->|Hne].
    + rewrite store_above by lia. by rewrite list_lookup_insert_eq by lia.
    + apply IH; [lia|]. rewrite length_insert. lia.
Qed.

Lemma gsearch_last fuel l adv nd level ps d d' :
  gsearch fuel l adv nd level = Some ps -> last_or d ps = last_or d' ps.
Proof.
  intros Hg. destruct ps as [|q ps]; [|by rewrite !last_or_cons]. exfalso.
  revert nd level Hg; induction fuel as [|fuel IH]; intros p level; [done|].
  cbn [gsearch]. destruct (GetNext l p level) as [next|]; [|done]. simpl.
  destruct (match next with None => _ | Some p => _ end) as [[]|]; simpl; [| |done].
  - destruct next; [|done]. simpl. apply IH.
  - destruct level; [done|]. by destruct (gsearch fuel l _ _ _).
Qed.

Lemma FLE_gsearch fuel l k nd level nodes ps :
  gsearch fuel l (adv_lt k) nd level = Some ps -> (level < length nodes)%nat ->
  FindLessOrEqual_loop fuel l k nd level nodes = Some (last_or nd ps, store level ps nodes).
Proof.
  revert nd level nodes ps; induction fuel as [|fuel IH]; intros nd level nodes ps Hg Hlen; [done|].
  cbn [gsearch] in Hg. cbn [FindLessOrEqual_loop].
  destruct (GetNext l nd level) as [next|]; [|done]. simpl in *.
  assert (IsAfterNode l k next =
    match next with None => Some false | Some p => k' ← GetKey l p; Some (adv_lt k k') end) as ->.
  { destruct next as [p|]; [|done]. unfold IsAfterNode, adv_lt. destruct (GetKey l p) as [k'|]; [|done].
    simpl. f_equal. apply bool_decide_ext. pose proof (cmp_flip k' k). lia. }
  destruct (match next with None => _ | Some p => _ end) as [[]|]; simpl in *; [| |done].
  - destruct next as [p|]; [|done]. simpl in *. rewrite (IH _ _ _ _ Hg Hlen).
    by rewrite (gsearch_last _ _ _ _ _ _ p nd Hg).
  - unfold array_store, require. rewrite bool_decide_eq_true_2 by done. simpl.
    destruct level as [|lv].
    + by injection Hg as <-.
    + rewrite decide_False by lia. replace (S lv - 1)%nat with lv by lia.
      destruct (gsearch fuel l (adv_lt k) nd lv) as [ps'|] eqn:Hg'; [|done]. simpl in Hg.
      injection Hg as <-. rewrite (IH _ _ _ _ Hg') by (rewrite length_insert; lia).
      rewrite last_or_cons. simpl. by replace (lv - 0)%nat with lv by lia.
Qed.

Lemma FE_gsearch fuel l k nd level ps :
  gsearch fuel l (adv_le k) nd level = Some ps ->
  FindEqual_loop fuel l k nd level = Some (last_or nd ps).
Proof.
  revert nd level ps; induction fuel as [|fuel IH]; intros nd level ps Hg; [done|].
  cbn [gsearch] in Hg. cbn [FindEqual_loop].
  destruct (GetNext l nd level) as [next|]; [|done]. simpl in *.
  assert (match next with None => Some true | Some p => k' ← GetKey l p; Some (bool_decide (compare_ k' k > 0)) end
    = negb <$> match next with None => Some false | Some p => k' ← GetKey l p; Some (adv_le k k') end) as ->.
  { destruct next as [p|]; [|done]. unfold adv_le. destruct (GetKey l p) as [k'|]; [|done].
    simpl. f_equal. rewrite <- bool_decide_not. apply bool_decide_ext. lia. }
  destruct (match next with None => _ | Some p => _ end) as [[]|]; simpl in *; [| |done].
  - destruct next as [p|]; [|done]. simpl in *. rewrite (IH _ _ _ Hg).
    by rewrite (gsearch_last _ _ _ _ _ _ p nd Hg).
  - destruct level as [|lv]; [by injection Hg as <-|].
    rewrite decide_False by lia. replace (S lv - 1)%nat with lv by lia.
    destruct (gsearch fuel l (adv_le k) nd lv) as [ps'|] eqn:Hg'; [|done]. simpl in Hg.
    injection Hg as <-. by rewrite (IH _ _ _ Hg'), last_or_cons.
Qed.

Lemma FLT_gsearch fuel l k nd level ps nk :
  gsearch fuel l (adv_lt k) nd level = Some ps ->
  GetKey l nd = Some nk -> (nd = head_ l \/ compare_ nk k < 0) ->
  FindLessThan_loop fuel l k nd level = Some (last_or nd ps).
Proof.
  revert nd level ps nk; induction fuel as [|fuel IH]; intros nd level ps nk Hg Hk Hnd; [done|].
  cbn [gsearch] in Hg. cbn [FindLessThan_loop]. rewrite Hk. simpl.
  assert (bool_decide (nd = head_ l) || bool_decide (compare_ nk k < 0) = true) as ->
    by (rewrite orb_true_iff, !bool_decide_eq_true; done).
  simpl. destruct (GetNext l nd level) as [next|]; [|done]. simpl in *.
  destruct next as [p|]; simpl in *.
  - destruct (GetKey l p) as [k'|] eqn:Hp; [|done]. simpl in *.
    unfold adv_lt in Hg at 1. destruct (decide (compare_ k' k < 0)) as [Hlt|Hlt].
    + rewrite bool_decide_eq_true_2 in Hg by done. rewrite bool_decide_eq_false_2 by lia. simpl.
      rewrite (IH _ _ _ _ Hg Hp) by auto. by rewrite (gsearch_last _ _ _ _ _ _ p nd Hg).
    + rewrite bool_decide_eq_false_2 in Hg by done. rewrite bool_decide_eq_true_2 by lia.
      destruct level as [|lv]; [by injection Hg as <-|].
      rewrite decide_False by lia. replace (S lv - 1)%nat with lv by lia.
      destruct (gsearch fuel l (adv_lt k) nd lv) as [ps'|] eqn:Hg'; [|done]. simpl in Hg.
      injection Hg as <-. by rewrite (IH _ _ _ _ Hg' Hk Hnd), last_or_cons.
  - destruct level as [|lv]; [by injection Hg as <-|].
    rewrite decide_False by lia. replace (S lv - 1)%nat with lv by lia.
    destruct (gsearch fuel l (adv_lt k) nd lv) as [ps'|] eqn:Hg'; [|done]. simpl in Hg.
    injection Hg as <-. by rewrite (IH _ _ _ _ Hg' Hk Hnd), last_or_cons.
Qed.

(** ** The searches under the invariant *)
Lemma gsearch_repr l cs adv :
  repr l cs -> (forall a b, compare_ a b <= 0 -> adv b = true -> adv a = true) ->
  gsearch (search_fuel l) l adv (head_ l) (max_height_ l - 1) = Some (preds l cs adv (max_height_ l - 1)).
Proof.
  intros Hr Hadv. pose proof (r_mh _ _ Hr). pose proof (repr_size _ _ Hr).
  apply gsearch_correct; [done|done|lia|left|by left|].
  unfold search_fuel. simpl. rewrite decide_True by done. lia.
Qed.

Lemma FindLessOrEqual_spec l cs k nodes :
  repr l cs -> length nodes = MaxHeight l ->
  exists nodes', FindLessOrEqual l k nodes = Some (pred_at l cs (adv_lt k) 0, nodes') /\
    length nodes' = MaxHeight l /\
    (forall i, (i < max_height_ l)%nat -> nodes' !! i = Some (Some (pred_at l cs (adv_lt k) i))) /\
    (forall i, (max_height_ l <= i)%nat -> nodes' !! i = nodes !! i).
Proof.
  intros Hr Hlen. pose proof (r_mh _ _ Hr).
  pose proof (gsearch_repr l cs (adv_lt k) Hr (adv_lt_closed k)) as Hg.
  eexists. split; [|split; [|split]].
  - unfold FindLessOrEqual. rewrite (FLE_gsearch _ _ _ _ _ _ _ Hg) by lia. by rewrite last_preds.
  - by rewrite length_store.
  - intros i Hi. apply store_preds; lia.
  - intros i Hi. apply store_above. lia.
Qed.

Lemma FindEqual_spec l cs k : repr l cs -> FindEqual l k = Some (pred_at l cs (adv_le k) 0).
Proof.
  intros Hr. pose proof (gsearch_repr l cs (adv_le k) Hr (adv_le_closed k)) as Hg.
  unfold FindEqual. rewrite (FE_gsearch _ _ _ _ _ _ Hg). by rewrite last_preds.
Qed.

Lemma repr_head_key l cs : repr l cs -> is_Some (GetKey l (head_ l)).
Proof.
  intros Hr. pose proof (r_head _ _ Hr) as Hh. rewrite Height_info in Hh. rewrite GetKey_info.
  destruct (info l (head_ l)); [eauto|done].
Qed.

Lemma FindLessThan_spec l cs k : repr l cs -> FindLessThan l k = Some (pred_at l cs (adv_lt k) 0).
Proof.
  intros Hr. pose proof (gsearch_repr l cs (adv_lt k) Hr (adv_lt_closed k)) as Hg.
  destruct (repr_head_key l cs Hr) as [nk Hnk].
  unfold FindLessThan. rewrite (FLT_gsearch _ _ _ _ _ _ nk Hg) by auto. by rewrite last_preds.
Qed.

(** ** Link surgery

    [same l l']: the two states differ in links only. *)
Definition same l l' : Prop :=
  l' = set_heap (heap l') l /\ forall q, info l' q = info l q.

Lemma same_refl l : same l l.
Proof. split; [by destruct l|done]. Qed.

Lemma same_upd l p i n : same l (upd_next l p i n).
Proof. split; [done|]. intros q. apply info_upd. Qed.

Lemma same_trans l1 l2 l3 : same l1 l2 -> same l2 l3 -> same l1 l3.
Proof.
  intros [E1 I1] [E2 I2]. split; [|intros q; by rewrite I2].
  rewrite E2, E1. done.
Qed.

Lemma same_Height l l' p : same l l' -> Height l' p = Height l p.
Proof. intros [_ Hi]. by rewrite !Height_info, Hi. Qed.
Lemma same_GetKey l l' p : same l l' -> GetKey l' p = GetKey l p.
Proof. intros [_ Hi]. by rewrite !GetKey_info, Hi. Qed.
Lemma same_keyof l l' p : same l l' -> keyof l' p = keyof l p.
Proof. intros Hs. unfold keyof. by rewrite (same_GetKey l l'). Qed.

Lemma link_loop_spec (pr : nat -> ptr) todo i l nd pre :
  (forall j, (i <= j < i + todo)%nat -> pre !! j = Some (Some (pr j)) /\ pr j <> nd /\
     is_Some (GetNext l (pr j) j) /\ is_Some (GetNext l nd j)) ->
  exists l', link_loop todo i l nd pre = Some l' /\ same l l' /\
    forall q j, GetNext l' q j =
      if decide (i <= j < i + todo)%nat then
        if decide (q = nd) then GetNext l (pr j) j
        else if decide (q = pr j) then Some (Some nd) else GetNext l q j
      else GetNext l q j.
Proof.
  revert i l; induction todo as [|todo IH]; intros i l Hpre.
  - exists l. split; [done|]. split; [apply same_refl|].
    intros q j. by rewrite decide_False by lia.
  - destruct (Hpre i) as (Hpi & Hne & Hs & Hn); [lia|]. cbn [link_loop]. rewrite Hpi. simpl.
    destruct Hs as [nx' Hnx]. rewrite Hnx. simpl. rewrite SetNext_upd by done. simpl.
    set (l1 := upd_next l nd i nx').
    rewrite SetNext_upd by (apply is_Some_GetNext_upd; eauto). simpl.
    set (l2 := upd_next l1 (pr i) i (Some nd)).
    assert (Hl2 : forall q j, GetNext l2 q j =
      if decide (q = pr i /\ j = i) then Some (Some nd)
      else if decide (q = nd /\ j = i) then Some nx' else GetNext l q j).
    { intros q j. unfold l2, l1. rewrite GetNext_upd by (apply is_Some_GetNext_upd; eauto).
      by rewrite GetNext_upd. }
    destruct (IH (S i) l2) as (l' & Hl' & Hsame & Hget).
    + intros j Hj. destruct (Hpre j) as (? & ? & ? & ?); [lia|].
      rewrite !Hl2. rewrite !decide_False by (intros [_ ?]; lia). done.
    + exists l'. split; [done|]. split.
      { eapply same_trans; [|done]. eapply same_trans; apply same_upd. }
      intros q j. rewrite Hget, !Hl2.
      destruct (decide (j = i)) as [->|Hj].
      * rewrite decide_False by lia. rewrite (decide_True (P := (i <= i < i + S todo)%nat)) by lia.
        repeat case_decide; try tauto; naive_solver.
      * repeat case_decide; try lia; naive_solver.
Qed.

Lemma unlink_loop_spec (pr : nat -> ptr) todo i l r pre :
  (forall j, (i <= j < i + todo)%nat -> pre !! j = Some (Some (pr j)) /\ pr j <> r /\
     is_Some (GetNext l (pr j) j) /\ is_Some (GetNext l r j)) ->
  exists l', unlink_loop todo i l r pre = Some l' /\ same l l' /\
    forall q j, GetNext l' q j =
      if decide (i <= j < i + todo)%nat then
        if decide (q = r) then Some None
        else if decide (q = pr j) then GetNext l r j else GetNext l q j
      else GetNext l q j.
Proof.
  revert i l; induction todo as [|todo IH]; intros i l Hpre.
  - exists l. split; [done|]. split; [apply same_refl|].
    intros q j. by rewrite decide_False by lia.
  - destruct (Hpre i) as (Hpi & Hne & Hs & Hn); [lia|]. cbn [unlink_loop]. rewrite Hpi. simpl.
    destruct Hn as [nx' Hnx]. rewrite Hnx. simpl. rewrite SetNext_upd by done. simpl.
    set (l1 := upd_next l (pr i) i nx').
    rewrite SetNext_upd by (apply is_Some_GetNext_upd; eauto). simpl.
    set (l2 := upd_next l1 r i None).
    assert (Hl2 : forall q j, GetNext l2 q j =
      if decide (q = r /\ j = i) then Some None
      else if decide (q = pr i /\ j = i) then Some nx' else GetNext l q j).
    { intros q j. unfold l2, l1. rewrite GetNext_upd by (apply is_Some_GetNext_upd; eauto).
      by rewrite GetNext_upd. }
    destruct (IH (S i) l2) as (l' & Hl' & Hsame & Hget).
    + intros j Hj. destruct (Hpre j) as (? & ? & ? & ?); [lia|].
      rewrite !Hl2. rewrite !decide_False by (intros [_ ?]; lia). done.
    + exists l'. split; [done|]. split.
      { eapply same_trans; [|done]. eapply same_trans; apply same_upd. }
      intros q j. rewrite Hget, !Hl2.
      destruct (decide (j = i)) as [->|Hj].
      * rewrite decide_False by lia. rewrite (decide_True (P := (i <= i < i + S todo)%nat)) by lia.
        repeat case_decide; try tauto; naive_solver.
      * repeat case_decide; try lia; naive_solver.
Qed.

Lemma cut_loop_spec pre i l :
  (forall j p, pre !! j = Some (Some p) -> is_Some (GetNext l p (i + j))) ->
  exists l', cut_loop pre i l = Some l' /\ same l l' /\
    forall q j, GetNext l' q j =
      if decide (i <= j /\ pre !! (j - i)%nat = Some (Some q))%nat then Some None else GetNext l q j.
Proof.
  revert i l; induction pre as [|[p|] pre IH]; intros i l Hpre; cbn [cut_loop].
  - exists l. split; [done|]. split; [apply same_refl|].
    intros q j. rewrite decide_False; [done|]. rewrite lookup_nil. naive_solver.
  - assert (is_Some (GetNext l p i)) as Hp.
    { specialize (Hpre 0%nat p eq_refl). by rewrite Nat.add_0_r in Hpre. }
    rewrite SetNext_upd by done. simpl.
    destruct (IH (S i) (upd_next l p i None)) as (l' & Hl' & Hsame & Hget).
    { intros j q Hq. apply is_Some_GetNext_upd; [done|].
      replace (S i + j)%nat with (i + S j)%nat by lia. by apply Hpre. }
    exists l'. split; [done|]. split; [eapply same_trans; [apply same_upd|done]|].
    intros q j. rewrite Hget, GetNext_upd by done.
    destruct (decide (j = i)) as [->|Hj].
    + rewrite decide_False by lia. rewrite Nat.sub_diag. simpl.
      repeat case_decide; try done; naive_solver.
    + rewrite (decide_False (P := q = p /\ j = i)) by tauto.
      destruct (decide (i < j)%nat) as [Hlt|Hlt].
      * replace (j - i)%nat with (S (j - S i)) by lia. simpl.
        apply decide_ext. split; intros [??]; (split; [lia|done]).
      * rewrite !decide_False by lia. done.
  - destruct (IH (S i) l) as (l' & Hl' & Hsame & Hget).
    { intros j q Hq. replace (S i + j)%nat with (i + S j)%nat by lia. by apply Hpre. }
    exists l'. split; [done|]. split; [done|]. intros q j. rewrite Hget.
    destruct (decide (i < j)%nat) as [Hlt|Hlt].
    + replace (j - i)%nat with (S (j - S i)) by lia. simpl.
      apply decide_ext. split; intros [??]; (split; [lia|done]).
    + rewrite decide_False by lia. destruct (decide (j = i)) as [->|?].
      * rewrite Nat.sub_diag. simpl. rewrite decide_False; [done|]. naive_solver.
      * by rewrite decide_False by lia.
Qed.
End ops.

(** * SkiplistInsert *)
Section insert.
Context {K V : Type} `{ComparatorLaws K, !ValueInit K, !ValueInit V}.
Implicit Types (l : skiplist K V) (cs : nat -> list ptr) (k : K) (v : V).

Abbreviation pred_lt l cs k := (pred_at l cs (adv_lt k)).

Lemma pred_at_mem l cs adv i : pred_at l cs adv i ∈ head_ l :: cs i.
Proof.
  unfold pred_at. pose proof (last_or_elem (head_ l) (filter (fun p => adv (keyof l p) = true) (cs i))) as Hm.
  apply elem_of_cons in Hm as [->|Hm]; [left|right].
  by apply list_elem_of_filter in Hm as [_ ?].
Qed.

Lemma pred_mem_0 l cs adv i : repr l cs -> pred_at l cs adv i ∈ head_ l :: cs 0%nat.
Proof.
  intros Hr. eapply elem_of_sublist; [apply pred_at_mem|]. apply (repr_sub_C l cs Hr). lia.
Qed.

Lemma pred_next l cs k i : repr l cs -> (i < MaxHeight l)%nat ->
  GetNext l (pred_lt l cs k i) i = Some (head (ge_part l cs k i)).
Proof.
  intros Hr Hi. pose proof (r_path _ _ Hr i Hi) as Hp.
  rewrite (parts l cs k i Hr) in Hp. apply path_app in Hp as [_ Hp].
  by apply path_head in Hp.
Qed.

Lemma repr_not_fresh l cs p : repr l cs -> p ∈ head_ l :: cs 0%nat -> p <> next_ptr l.
Proof.
  intros Hr Hp ->. assert (is_Some (info l (next_ptr l))) as Hi.
  { apply elem_of_cons in Hp as [Hp|Hp].
    - pose proof (r_head _ _ Hr) as Hh. rewrite Height_info in Hh. rewrite Hp.
      destruct (info l (head_ l)); [eauto|done].
    - destruct (repr_info l cs Hr _ Hp) as (? & ? & ? & -> & _). eauto. }
  apply (r_fresh _ _ Hr) in Hi. lia.
Qed.

Lemma repr_set_rand l cs s : repr l cs -> repr (set_rand s l) cs.
Proof. intros []. by split. Qed.

Lemma repr_set_max_height l cs m :
  repr l cs -> (max_height_ l <= m <= MaxHeight l)%nat -> repr (set_max_height m l) cs.
Proof.
  intros [] Hm. split; try done; simpl in *; [lia|]. intros i Hi. apply r_high. lia.
Qed.

(** The content after inserting node [n] of height [h] before the keys not
    smaller than [k] *)
Definition inserted l cs k (n : ptr) (h i : nat) : list ptr :=
  if decide (i < h)%nat then lt_part l cs k i ++ n :: ge_part l cs k i else cs i.

Lemma inserted_perm l cs k n h : repr l cs -> (1 <= h)%nat -> inserted l cs k n h 0 ≡ₚ n :: cs 0%nat.
Proof.
  intros Hr Hh. unfold inserted. rewrite decide_True by lia.
  rewrite <- Permutation_middle. by rewrite <- (parts l cs k 0 Hr).
Qed.

Lemma inserted_sub l cs k n h i : repr l cs ->
  inserted l cs k n h (S i) `sublist_of` inserted l cs k n h i.
Proof.
  intros Hr. unfold inserted. pose proof (r_sub _ _ Hr i) as Hs.
  destruct (decide (S i < h)%nat), (decide (i < h)%nat); try lia; [| |done].
  - apply sublist_app; [by apply sublist_filter|]. apply sublist_skip. by apply sublist_filter.
  - etrans; [done|]. rewrite (parts l cs k i Hr). apply sublist_app; [done|]. by apply sublist_cons.
Qed.

Lemma lt_part_key l cs k i p : p ∈ lt_part l cs k i -> compare_ (keyof l p) k < 0.
Proof. intros [Hp _]%list_elem_of_filter. by apply adv_lt_true. Qed.
Lemma ge_part_key l cs k i p : p ∈ ge_part l cs k i -> compare_ k (keyof l p) <= 0.
Proof.
  intros [Hp _]%list_elem_of_filter. rewrite adv_lt_true in Hp.
  pose proof (cmp_flip_ge k (keyof l p)). lia.
Qed.
Lemma lt_part_sub l cs k i p : p ∈ lt_part l cs k i -> p ∈ cs i.
Proof. by intros [_ ?]%list_elem_of_filter. Qed.
Lemma ge_part_sub l cs k i p : p ∈ ge_part l cs k i -> p ∈ cs i.
Proof. by intros [_ ?]%list_elem_of_filter. Qed.

Lemma StronglySorted_keys l l' (c : list ptr) :
  (forall p, p ∈ c -> keyof l' p = keyof l p) ->
  StronglySorted (key_le l) c -> StronglySorted (key_le l') c.
Proof.
  intros Hk. induction c as [|x c IH]; intros Hs; [constructor|].
  apply StronglySorted_inv in Hs as [Hs Hx]. constructor.
  - apply IH; [|done]. intros p Hp. apply Hk. by right.
  - rewrite Forall_forall in Hx |- *. intros y Hy. unfold key_le.
    rewrite (Hk x), (Hk y) by (try left; by right). by apply Hx.
Qed.

Lemma inserted_sorted l l' cs k n h : repr l cs -> (1 <= h)%nat ->
  keyof l' n = k -> (forall p, p ∈ cs 0%nat -> keyof l' p = keyof l p) ->
  StronglySorted (key_le l') (inserted l cs k n h 0).
Proof.
  intros Hr Hh Hn Hk. unfold inserted. rewrite decide_True by lia.
  pose proof (r_sorted _ _ Hr) as Hs. apply (StronglySorted_keys l l') in Hs; [|done].
  rewrite (parts l cs k 0 Hr) in Hs. apply StronglySorted_app in Hs as (Hx & Hlt & Hge).
  apply StronglySorted_app. split_and!; [|done|].
  - intros x y Hlx [->|Hy]%elem_of_cons; [|by apply Hx]. unfold key_le. rewrite Hn.
    rewrite Hk by by eapply lt_part_sub. apply lt_part_key in Hlx. lia.
  - constructor; [done|]. apply Forall_forall. intros y Hy. unfold key_le. rewrite Hn.
    rewrite Hk by by eapply ge_part_sub. by eapply ge_part_key.
Qed.

(** What inserting changes, observed through [info] and [GetNext] *)
Record insert_obs l cs k v (h : nat) l' : Prop := {
  io_MaxHeight : MaxHeight l' = MaxHeight l;
  io_Branch : Branch l' = Branch l;
  io_max_height : max_height_ l' = max_height_ l;
  io_rand : rand_ l' = rand_ l;
  io_head : head_ l' = head_ l;
  io_next_ptr : next_ptr l' = S (next_ptr l);
  io_tail : tail_ l' = if decide (head (ge_part l cs k 0) = None) then Some (next_ptr l) else tail_ l;
  io_info : forall q, info l' q = if decide (q = next_ptr l) then Some (k, v, h) else info l q;
  io_next : forall q j, (j < h)%nat -> GetNext l' q j =
    if decide (q = next_ptr l) then GetNext l (pred_lt l cs k j) j
    else if decide (q = pred_lt l cs k j) then Some (Some (next_ptr l)) else GetNext l q j;
  io_next_high : forall q j, (h <= j)%nat -> q <> next_ptr l -> GetNext l' q j = GetNext l q j
}.

Lemma GetNext_NewNode l k v h q j :
  GetNext (NewNode l k v h).2 q j =
  if decide (q = next_ptr l) then (if decide (j < h)%nat then Some None else None) else GetNext l q j.
Proof.
  unfold GetNext, NewNode; simpl. rewrite lookup_insert.
  destruct (decide (q = next_ptr l)) as [->|Hq].
  - rewrite decide_True by done. simpl. unfold require. case_decide.
    + rewrite bool_decide_eq_true_2 by done. simpl. by apply lookup_replicate_2.
    + by rewrite bool_decide_eq_false_2 by done.
  - by rewrite decide_False by done.
Qed.

Lemma info_NewNode l k v h q :
  info (NewNode l k v h).2 q = if decide (q = next_ptr l) then Some (k, v, h) else info l q.
Proof.
  unfold info, NewNode; simpl. rewrite lookup_insert.
  destruct (decide (q = next_ptr l)) as [->|Hq]; [by rewrite decide_True|by rewrite decide_False].
Qed.

Lemma link_new_obs l cs k v h pre :
  repr l cs -> (1 <= h <= MaxHeight l)%nat ->
  (forall i, (i < h)%nat -> pre !! i = Some (Some (pred_lt l cs k i))) ->
  exists l', link_new l k v h pre = Some l' /\ insert_obs l cs k v h l'.
Proof.
  intros Hr Hh Hpre. set (n := next_ptr l).
  assert (Hpn : forall i, pred_lt l cs k i <> n).
  { intros i. apply (repr_not_fresh l cs); [done|by apply pred_mem_0]. }
  unfold link_new. change (NewNode l k v h) with (n, (NewNode l k v h).2).
  remember (NewNode l k v h).2 as l1 eqn:Hl1. cbn beta iota.
  rewrite Hpre by lia. simpl.
  assert (Hg1 : forall q j, q <> n -> GetNext l1 q j = GetNext l q j).
  { intros q j Hq. by rewrite Hl1, GetNext_NewNode, decide_False. }
  rewrite Hg1, pred_next by (done || lia). simpl.
  set (l2 := if decide (head (ge_part l cs k 0) = None) then set_tail (Some n) l1 else l1).
  assert (Hg2 : forall q j, GetNext l2 q j = GetNext l1 q j) by (intros; unfold l2; by case_decide).
  destruct (link_loop_spec (pred_lt l cs k) h 0 l2 n pre) as (l' & Hl' & [Hs Hi] & Hget).
  { intros j Hj. rewrite !Hg2, Hg1, pred_next by (done || lia).
    split_and!; [by apply Hpre; lia|done|eauto|].
    rewrite Hl1, GetNext_NewNode, decide_True, decide_True by (done || lia). eauto. }
  assert (Hi2 : forall q, info l2 q = info l1 q) by (intros; unfold l2; by case_decide).
  exists l'. split; [done|]. split; try (rewrite Hs; unfold l2; rewrite Hl1; by case_decide).
  - intros q. by rewrite Hi, Hi2, Hl1, info_NewNode.
  - intros q j Hj. rewrite Hget, decide_True by lia. rewrite !Hg2.
    fold n. destruct (decide (q = n)); by rewrite Hg1.
  - intros q j Hj Hq. rewrite Hget, decide_False by lia. by rewrite Hg2, Hg1.
Qed.

Section insert_repr.
Context l cs k v h l' (Hr : repr l cs) (Hh : (1 <= h <= max_height_ l)%nat).
Context (Ho : insert_obs l cs k v h l').

Local Abbreviation n := (next_ptr l).

Lemma io_Height q : Height l' q = if decide (q = n) then Some h else Height l q.
Proof. rewrite !Height_info, (io_info _ _ _ _ _ _ Ho). by case_decide. Qed.

Lemma io_keyof q : keyof l' q = if decide (q = n) then k else keyof l q.
Proof. unfold keyof. rewrite !GetKey_info, (io_info _ _ _ _ _ _ Ho). by case_decide. Qed.

Lemma old_ne q : q ∈ head_ l :: cs 0%nat -> q <> n.
Proof. by apply repr_not_fresh. Qed.

Lemma io_in q : q ∈ inserted l cs k n h 0 <-> q = n \/ q ∈ cs 0%nat.
Proof. rewrite (inserted_perm l cs k n h Hr) by lia. apply elem_of_cons. Qed.

Lemma io_path i : (i < MaxHeight l)%nat -> path (nx l' i) (head_ l) (inserted l cs k n h i).
Proof.
  intros Hi. pose proof (r_path _ _ Hr i Hi) as Hp. unfold inserted.
  assert (Hne : forall q, q ∈ head_ l :: cs i -> q <> n).
  { intros q Hq. apply old_ne. eapply elem_of_sublist; [done|]. apply (repr_sub_C l cs Hr). lia. }
  destruct (decide (i < h)%nat) as [Hih|Hih].
  - pose proof (repr_nodup l cs Hr i) as Hnd. pose proof Hne as Hne'.
    rewrite (parts l cs k i Hr) in Hp, Hnd, Hne'.
    assert (last_or (head_ l) (lt_part l cs k i) = pred_lt l cs k i) as Hlast by done.
    apply (path_insert (nx l i)); rewrite ?Hlast; unfold nx; [done| | | | |done].
    + intros Hn. by apply (Hne' n).
    + rewrite (io_next _ _ _ _ _ _ Ho), decide_False, decide_True by
        (done || apply Hne; apply pred_at_mem). done.
    + by rewrite (io_next _ _ _ _ _ _ Ho), decide_True.
    + intros q Hq Hq'. by rewrite (io_next _ _ _ _ _ _ Ho), !decide_False by (done || by apply Hne').
  - apply (path_frame (nx l i)); [|done]. intros q Hq. unfold nx.
    apply (io_next_high _ _ _ _ _ _ Ho); [lia|by apply Hne].
Qed.

Lemma io_links p h' i : p ∈ head_ l :: inserted l cs k n h 0 -> Height l' p = Some h' -> (i < h')%nat ->
  is_Some (GetNext l' p i).
Proof.
  intros Hp. rewrite io_Height. intros Hh' Hi. pose proof (r_mh _ _ Hr).
  destruct (decide (p = n)) as [->|Hpn].
  - injection Hh' as <-. rewrite (io_next _ _ _ _ _ _ Ho), decide_True by done.
    rewrite pred_next by (done || lia). eauto.
  - assert (is_Some (GetNext l p i)) as Hs.
    { apply (r_links _ _ Hr p h'); [|done|done]. apply elem_of_cons in Hp as [->|Hp]; [left|right].
      by apply io_in in Hp as [?|?]. }
    destruct (decide (i < h)%nat) as [Hih|Hih].
    + rewrite (io_next _ _ _ _ _ _ Ho), decide_False by done. case_decide; eauto.
    + by rewrite (io_next_high _ _ _ _ _ _ Ho) by (done || lia).
Qed.

Lemma io_off p h' i : p ∈ inserted l cs k n h 0 -> Height l' p = Some h' -> (i < h')%nat ->
  p ∉ inserted l cs k n h i -> GetNext l' p i = Some None.
Proof.
  intros Hp. rewrite io_Height. intros Hh' Hi Hoff. apply io_in in Hp.
  destruct (decide (p = n)) as [->|Hpn].
  - exfalso. injection Hh' as <-. apply Hoff. unfold inserted. rewrite decide_True by done.
    apply elem_of_app_cons.
  - destruct Hp as [?|Hp]; [done|]. unfold inserted in Hoff.
    assert (p ∉ cs i -> GetNext l p i = Some None) as Hold by (intros; by apply (r_off _ _ Hr p h')).
    destruct (decide (i < h)%nat) as [Hih|Hih].
    + assert (p ∉ cs i) as Hpi.
      { rewrite (parts l cs k i Hr). rewrite elem_of_app, elem_of_cons in Hoff.
        rewrite elem_of_app. tauto. }
      rewrite (io_next _ _ _ _ _ _ Ho), !decide_False; [auto| |done|done].
      intros ->. pose proof (pred_at_mem l cs (adv_lt k) i) as Hm.
      apply elem_of_cons in Hm as [Hm|Hm]; [|done].
      pose proof (r_nodup _ _ Hr) as Hnd. apply NoDup_cons in Hnd as [Hnd _]. by rewrite Hm in Hp.
    + rewrite (io_next_high _ _ _ _ _ _ Ho) by (done || lia). auto.
Qed.

Lemma io_tail_ok : tail_ l' = last (inserted l cs k n h 0).
Proof.
  rewrite (io_tail _ _ _ _ _ _ Ho). unfold inserted. rewrite (decide_True (P := (0 < h)%nat)) by lia.
  pose proof (parts l cs k 0 Hr) as Hc. destruct (ge_part l cs k 0) as [|y b] eqn:Hge; simpl.
  - by rewrite last_snoc.
  - pose proof (r_tail _ _ Hr) as [->|[E _]].
    + rewrite Hc, !last_app_cons. by rewrite last_cons_cons.
    + rewrite E in Hc. symmetry in Hc. by apply app_eq_nil in Hc as [_ ?].
Qed.

Lemma insert_repr : repr l' (inserted l cs k n h).
Proof.
  pose proof (r_mh _ _ Hr).
  split; rewrite ?(io_MaxHeight _ _ _ _ _ _ Ho), ?(io_max_height _ _ _ _ _ _ Ho), ?(io_head _ _ _ _ _ _ Ho).
  - done.
  - rewrite io_Height, decide_False; [apply (r_head _ _ Hr)|]. apply old_ne. left.
  - intros p Hp. rewrite io_Height. apply io_in in Hp as [->|Hp].
    + rewrite decide_True by done. exists h. split; [done|lia].
    + rewrite decide_False by (apply old_ne; by right). by apply (r_nodes _ _ Hr).
  - apply io_links.
  - pose proof (r_nodup _ _ Hr) as Hnd. rewrite (inserted_perm l cs k n h Hr (proj1 Hh)).
    apply NoDup_cons in Hnd as [Hhd Hnd]. rewrite !NoDup_cons, not_elem_of_cons. split_and!; [|done| |done].
    + apply old_ne. left.
    + intros Hn. by apply (old_ne n); [right|].
  - apply io_path.
  - intros i. by apply inserted_sub.
  - intros i Hi. unfold inserted. rewrite decide_False by lia. by apply (r_high _ _ Hr).
  - apply io_off.
  - apply (inserted_sorted l l'); [done|lia| |].
    + by rewrite io_keyof, decide_True.
    + intros p Hp. rewrite io_keyof, decide_False; [done|]. apply old_ne. by right.
  - left. apply io_tail_ok.
  - rewrite (io_next_ptr _ _ _ _ _ _ Ho). intros p. rewrite (io_info _ _ _ _ _ _ Ho). case_decide.
    + subst. intros _. lia.
    + intros Hp%(r_fresh _ _ Hr). lia.
Qed.
End insert_repr.

Lemma fill_head_spec l (from to : nat) (pre : list (option ptr)) : (to <= length pre)%nat ->
  exists pre', fill_head l from to pre = Some pre' /\ length pre' = length pre /\
    forall i, pre' !! i = if decide (from <= i < to)%nat then Some (Some (head_ l)) else pre !! i.
Proof.
  unfold fill_head. intros Hto. remember (to - from)%nat as m eqn:Hm.
  revert from pre Hto Hm; induction m as [|m IH]; intros from pre Hto Hm; simpl.
  - exists pre. split_and!; [done..|]. intros i. by rewrite decide_False by lia.
  - unfold array_store at 2, require. rewrite bool_decide_eq_true_2 by lia. simpl.
    destruct (IH (S from) (<[from := Some (head_ l)]> pre)) as (pre' & Hp & Hlen & Hl);
      [rewrite length_insert; lia|lia|].
    exists pre'. split; [done|]. rewrite length_insert in Hlen. split; [done|].
    intros i. rewrite Hl. destruct (decide (i = from)) as [->|Hi].
    + rewrite decide_False, decide_True by lia. by apply list_lookup_insert_eq; lia.
    + rewrite list_lookup_insert_ne by done. apply decide_ext. lia.
Qed.

(** The outcome of inserting [k], [v] with the height [h] drawn *)
Record insert_post l cs k v (h : nat) l' : Prop := {
  ip_height : (1 <= h <= MaxHeight l)%nat;
  ip_repr : repr l' (inserted l cs k (next_ptr l) h);
  ip_info : forall q, info l' q = if decide (q = next_ptr l) then Some (k, v, h) else info l q;
  ip_frame : forall q j, q ∉ next_ptr l :: head_ l :: cs 0%nat -> GetNext l' q j = GetNext l q j;
  ip_MaxHeight : MaxHeight l' = MaxHeight l;
  ip_head : head_ l' = head_ l;
  ip_next_ptr : next_ptr l' = S (next_ptr l)
}.

Lemma link_new_post l cs k v h pre :
  repr l cs -> (1 <= h <= max_height_ l)%nat ->
  (forall i, (i < h)%nat -> pre !! i = Some (Some (pred_lt l cs k i))) ->
  exists l', link_new l k v h pre = Some l' /\ insert_post l cs k v h l'.
Proof.
  intros Hr Hh Hpre. pose proof (r_mh _ _ Hr).
  destruct (link_new_obs l cs k v h pre Hr) as (l' & Hl' & Ho); [lia|done|].
  exists l'. split; [done|]. split; try apply Ho; [lia|by apply (insert_repr l cs k v)|].
  intros q j Hq. rewrite !not_elem_of_cons in Hq. destruct Hq as (Hqn & Hqh & Hq0).
  destruct (decide (j < h)%nat) as [Hj|Hj].
  - rewrite (io_next _ _ _ _ _ _ Ho), !decide_False; [done| |done|done].
    intros ->. pose proof (pred_mem_0 l cs (adv_lt k) j Hr) as Hm.
    apply elem_of_cons in Hm as [Hm|Hm]; done.
  - apply (io_next_high _ _ _ _ _ _ Ho); [lia|done].
Qed.

Lemma pred_at_high l cs adv i : repr l cs -> (max_height_ l <= i)%nat -> pred_at l cs adv i = head_ l.
Proof. intros Hr Hi. unfold pred_at. by rewrite (r_high _ _ Hr). Qed.

Lemma Insert_spec l cs k v : repr l cs ->
  exists h l', Insert l k v = Some (h, l') /\ insert_post l cs k v h l'.
Proof.
  intros Hr. pose proof (r_mh _ _ Hr) as Hmh.
  pose proof (RandomHeight_bounds (MaxHeight l) (Branch l) (rand_ l)) as Hb.
  unfold Insert. destruct (RandomHeight _ _ _) as [h seed]. cbn [fst] in Hb.
  apply (repr_set_rand l cs seed) in Hr as Hr1. set (l1 := set_rand seed l) in *.
  destruct (FindLessOrEqual_spec l1 cs k (replicate (MaxHeight l1) None) Hr1)
    as (pre & -> & Hlen & Hlow & _); [apply length_replicate|]. cbn [mbind option_bind].
  destruct (decide (max_height_ l1 < h)%nat) as [Hlt|Hge].
  - destruct (fill_head_spec l1 (max_height_ l1) h pre) as (pre' & -> & Hlen' & Hpre').
    { rewrite Hlen. simpl. lia. }
    cbn [mbind option_bind].
    apply (repr_set_max_height l1 cs h) in Hr1 as Hr2; [|simpl in *; lia].
    destruct (link_new_post _ cs k v h pre' Hr2) as (l' & -> & Hp); [simpl; lia| |].
    { intros i Hi. rewrite Hpre'. case_decide.
      - do 2 f_equal. symmetry. apply (pred_at_high l1 cs (adv_lt k) i Hr1). lia.
      - apply Hlow. lia. }
    exists h, l'. split; [done|]. by destruct Hp; split.
  - cbn [mbind option_bind].
    destruct (link_new_post _ cs k v h pre Hr1) as (l' & -> & Hp); [simpl in *; lia| |].
    { intros i Hi. apply Hlow. lia. }
    exists h, l'. split; [done|]. by destruct Hp; split.
Qed.

(** [AddToFirst] inserts exactly when no key of the list is before [k]. *)
Lemma AddToFirst_spec l cs k v : repr l cs ->
  exists b l', AddToFirst l k v = Some (b, l') /\
    if b then lt_part l cs k 0 = [] /\ exists h, insert_post l cs k v h l'
    else lt_part l cs k 0 <> [] /\ l' = l.
Proof.
  intros Hr. pose proof (r_mh _ _ Hr) as Hmh. unfold AddToFirst.
  rewrite (path_head _ _ _ (r_path _ _ Hr 0 ltac:(lia)) : GetNext l (head_ l) 0 = _).
  cbn [mbind option_bind].
  assert (exists b, match head (cs 0%nat) with
    | None => Some false
    | Some p => k' ← GetKey l p; Some (bool_decide (compare_ k k' > 0)) end = Some b /\
    (b = true <-> lt_part l cs k 0 <> [])) as (b & -> & Hb).
  { unfold lt_part. destruct (cs 0%nat) as [|p c] eqn:Hc; simpl.
    - exists false. split; [done|]. rewrite filter_nil. done.
    - rewrite (repr_key l cs Hr p) by (rewrite Hc; left). simpl. eexists. split; [done|].
      rewrite bool_decide_eq_true. pose proof (cmp_flip (keyof l p) k) as Hf. split.
      + intros Hgt. rewrite filter_cons, decide_True by (apply adv_lt_true; lia). done.
      + intros Hne. destruct (decide (compare_ k (keyof l p) > 0)) as [|Hn]; [done|].
        exfalso. apply Hne. pose proof (r_sorted _ _ Hr) as Hs. rewrite Hc in Hs.
        apply (filter_adv_none l (adv_lt k) (adv_lt_closed k) _ Hs).
        intros q [= <-]. apply bool_decide_eq_false. lia. }
  cbn [mbind option_bind]. destruct b.
  { exists false, l. split; [done|]. split; [by apply Hb|done]. }
  assert (Hlt : lt_part l cs k 0 = []).
  { destruct (lt_part l cs k 0) eqn:E; [done|]. assert (false = true) by by apply Hb. done. }
  pose proof (RandomHeight_bounds (MaxHeight l) (Branch l) (rand_ l)) as Hbd.
  destruct (RandomHeight _ _ _) as [h seed]. cbn [fst] in Hbd.
  apply (repr_set_rand l cs seed) in Hr as Hr1. set (l1 := set_rand seed l) in *.
  destruct (fill_head_spec l1 0 h (replicate (MaxHeight l1) None)) as (pre & -> & Hlen & Hpre).
  { rewrite length_replicate. simpl. lia. }
  cbn [mbind option_bind].
  assert (Hpreds : forall i, (i < h)%nat -> pre !! i = Some (Some (pred_lt l cs k i))).
  { intros i Hi. rewrite Hpre, decide_True by lia. do 2 f_equal. unfold pred_at.
    assert (lt_part l cs k i = []) as E.
    { assert (lt_part l cs k i `sublist_of` lt_part l cs k 0) as Hs
        by (apply sublist_filter, (repr_sub l cs Hr)).
      rewrite Hlt in Hs. by apply sublist_nil_r in Hs. }
    unfold lt_part in E. by rewrite E. }
  destruct (decide (max_height_ l1 < h)%nat) as [Hh|Hh].
  - apply (repr_set_max_height l1 cs h) in Hr1 as Hr2; [|simpl in *; lia].
    destruct (link_new_post _ cs k v h pre Hr2) as (l' & -> & Hp); [simpl; lia|done|].
    exists true, l'. split; [done|]. split; [done|]. exists h. by destruct Hp; split.
  - destruct (link_new_post _ cs k v h pre Hr1) as (l' & -> & Hp); [simpl in *; lia|done|].
    exists true, l'. split; [done|]. split; [done|]. exists h. by destruct Hp; split.
Qed.
End insert.
