(* ===== verification/SkiplistSplit.v ===== *)
(** Correctness of the operations that take nodes out of a skiplist:
    [Split], [SplitByPos], [SplitByKeyOrPos], [SplitByKeyAndPos], [Remove] and
    [Clear]. *)
From S2P Require Import Prelude Slice Random Skiplist SkiplistInv SkiplistInsert.

(** * SkiplistSplit *)
Section split.
Context {K V : Type} `{ComparatorLaws K, !ValueInit K, !ValueInit V}.
Implicit Types (l : skiplist K V) (cs : nat -> list ptr) (k : K) (v : V).

Local Abbreviation pred_lt l cs k := (pred_at l cs (adv_lt k)).

(** A NULL-terminated bottom-level list *)
Definition chain l (c : list ptr) : Prop :=
  match c with [] => True | p :: c' => path (nx l 0) p c' end.

Lemma chain_cons l p c : chain l (p :: c) -> GetNext l p 0 = Some (head c) /\ chain l c.
Proof.
  simpl. intros Hp. split; [by apply path_head in Hp|].
  destruct c as [|q c]; [done|]. by apply path_cons in Hp as [_ ?].
Qed.

Lemma chain_frame l l' c :
  (forall q, q ∈ c -> GetNext l' q 0 = GetNext l q 0) -> chain l c -> chain l' c.
Proof. destruct c as [|p c]; [done|]. simpl. intros Hf. by apply path_frame. Qed.

Lemma repr_chain l cs : repr l cs -> GetNext l (head_ l) 0 = Some (head (cs 0%nat)) /\ chain l (cs 0%nat).
Proof.
  intros Hr. pose proof (r_mh _ _ Hr).
  apply (chain_cons l (head_ l)). simpl. apply (r_path _ _ Hr). lia.
Qed.

Lemma chain_drop l c n : chain l c -> chain l (drop n c).
Proof.
  revert n; induction c as [|p c IH]; intros [|n] Hc; simpl; try done.
  apply IH. by apply chain_cons in Hc as [_ ?].
Qed.

(** The outcome of cutting the list after its first [n] nodes: the rest is
    handed back as a NULL-terminated chain, its nodes still allocated. *)
Record split_post l cs (n : nat) (r : option ptr) l' cs' : Prop := {
  sp_repr : repr l' cs';
  sp_kept : cs' 0%nat = take n (cs 0%nat);
  sp_result : r = head (drop n (cs 0%nat));
  sp_chain : chain l' (drop n (cs 0%nat));
  sp_info : forall q, info l' q = info l q;
  sp_frame : forall q j, q ∉ head_ l :: cs 0%nat -> GetNext l' q j = GetNext l q j;
  sp_MaxHeight : MaxHeight l' = MaxHeight l;
  sp_head : head_ l' = head_ l;
  sp_next_ptr : next_ptr l' = next_ptr l
}.

(** A cut that changes nothing *)
Lemma split_post_none l cs n : repr l cs -> (length (cs 0%nat) <= n)%nat -> split_post l cs n None l cs.
Proof.
  intros Hr Hn. split; try done; rewrite ?take_ge, ?drop_ge by done; done.
Qed.

Lemma lt_part_take l cs k : repr l cs ->
  lt_part l cs k 0 = take (length (lt_part l cs k 0)) (cs 0%nat) /\
  ge_part l cs k 0 = drop (length (lt_part l cs k 0)) (cs 0%nat).
Proof.
  intros Hr. rewrite (parts l cs k 0 Hr). split; [by rewrite take_app_length|by rewrite drop_app_length].
Qed.

Lemma pred_not_ge l cs k i : repr l cs -> pred_lt l cs k i ∉ ge_part l cs k i.
Proof.
  intros Hr Hin. pose proof (repr_nodup l cs Hr i) as Hnd. rewrite (parts l cs k i Hr) in Hnd.
  rewrite app_comm_cons in Hnd. apply NoDup_app in Hnd as (_ & Hd & _).
  apply (Hd (pred_lt l cs k i)); [|done]. apply last_or_elem.
Qed.

(** ** [Split] *)
Section split_key.
Context l cs k l' (Hr : repr l cs).
Context (Hsame : same (set_tail (Some (pred_lt l cs k 0)) l) l').
Context (Hget : forall q j, GetNext l' q j =
  if decide (j < max_height_ l /\ q = pred_lt l cs k j)%nat then Some None else GetNext l q j).

Local Abbreviation cs' := (lt_part l cs k).

Lemma split_fields : MaxHeight l' = MaxHeight l /\ max_height_ l' = max_height_ l /\ head_ l' = head_ l /\
  next_ptr l' = next_ptr l /\ tail_ l' = Some (pred_lt l cs k 0).
Proof. destruct Hsame as [-> _]. done. Qed.

Lemma split_info q : info l' q = info l q.
Proof. destruct Hsame as [_ Hi]. apply Hi. Qed.

Lemma split_Height q : Height l' q = Height l q.
Proof. by rewrite !Height_info, split_info. Qed.

Lemma split_keyof q : keyof l' q = keyof l q.
Proof. unfold keyof. by rewrite !GetKey_info, split_info. Qed.

Lemma split_path i : (i < MaxHeight l)%nat -> path (nx l' i) (head_ l) (cs' i).
Proof.
  intros Hi. pose proof (r_path _ _ Hr i Hi) as Hp. pose proof (repr_nodup l cs Hr i) as Hnd.
  rewrite (parts l cs k i Hr) in Hp, Hnd. rewrite app_comm_cons in Hnd.
  apply NoDup_app in Hnd as (Hnd & Hd & _).
  assert (last_or (head_ l) (cs' i) = pred_lt l cs k i) as Hlast by done.
  destruct (decide (i < max_height_ l)%nat) as [Him|Him].
  - apply (path_cut (nx l i) _ _ _ (ge_part l cs k i)); rewrite ?Hlast; unfold nx; [done| | |done].
    + rewrite Hget, decide_True; done.
    + intros q Hq Hne. by rewrite Hget, decide_False by naive_solver.
  - assert (cs i = []) as Hc by (apply (r_high _ _ Hr); lia).
    unfold lt_part, ge_part in *. rewrite Hc, !filter_nil in *. apply path_nil.
    apply path_nil in Hp. unfold nx in *. by rewrite Hget, decide_False by lia.
Qed.

Lemma split_repr : repr l' cs'.
Proof.
  destruct split_fields as (E1 & E2 & E3 & E4 & E5).
  assert (Hsub : forall p, p ∈ cs' 0%nat -> p ∈ cs 0%nat) by (intros p; apply lt_part_sub).
  split; rewrite ?E1, ?E2, ?E3, ?E4, ?E5.
  - apply Hr.
  - rewrite split_Height. apply Hr.
  - intros p Hp. rewrite split_Height. by apply (r_nodes _ _ Hr), Hsub.
  - intros p h i Hp. rewrite split_Height. intros Hh Hi. rewrite Hget. case_decide; [eauto|].
    apply (r_links _ _ Hr p h); [|done|done]. apply elem_of_cons in Hp as [->|Hp]; [left|right; auto].
  - eapply sublist_NoDup; [apply (r_nodup _ _ Hr)|]. apply sublist_skip, list.sublist_filter.
  - apply split_path.
  - intros i. apply sublist_filter, (r_sub _ _ Hr).
  - intros i Hi. unfold lt_part. by rewrite (r_high _ _ Hr).
  - intros p h i Hp. rewrite split_Height. intros Hh Hi Hoff. rewrite Hget. case_decide; [done|].
    apply (r_off _ _ Hr p h); auto. intros Hpi. apply Hoff. apply list_elem_of_filter.
    split; [|done]. by apply list_elem_of_filter in Hp as [??].
  - apply (StronglySorted_keys l l'); [intros; apply split_keyof|].
    eapply StronglySorted_sublist; [apply list.sublist_filter|apply (r_sorted _ _ Hr)].
  - unfold pred_at. fold (lt_part l cs k 0). unfold last_or.
    destruct (cs' 0%nat) as [|x c]; [by right|left]. rewrite last_cons. by destruct (last c).
  - intros p. rewrite split_info. apply (r_fresh _ _ Hr).
Qed.
End split_key.

Lemma Split_spec l cs k : repr l cs ->
  exists r l' cs', Split l k = Some (r, l') /\ split_post l cs (length (lt_part l cs k 0)) r l' cs'.
Proof.
  intros Hr. pose proof (r_mh _ _ Hr) as Hmh. unfold Split.
  destruct (FindLessOrEqual_spec l cs k (replicate (MaxHeight l) None) Hr)
    as (pre & -> & Hlen & Hlow & Hhigh); [apply length_replicate|]. cbn [mbind option_bind].
  set (l1 := set_tail _ l).
  assert (Hg1 : forall q j, GetNext l1 q j = GetNext l q j) by done.
  rewrite Hg1, (pred_next l cs k 0 Hr) by lia. cbn [mbind option_bind].
  assert (Hpre : forall j p, pre !! j = Some (Some p) <-> (j < max_height_ l)%nat /\ p = pred_lt l cs k j).
  { intros j p. destruct (decide (j < max_height_ l)%nat).
    - rewrite Hlow by done. naive_solver.
    - rewrite Hhigh by lia. rewrite lookup_replicate. naive_solver. }
  destruct (cut_loop_spec pre 0 l1) as (l' & -> & Hsame & Hget).
  { intros j p [? ->]%Hpre. rewrite Hg1. simpl. rewrite (pred_next l cs k j Hr) by lia. eauto. }
  cbn [mbind option_bind]. eexists _, l', (lt_part l cs k). split; [done|].
  assert (Hget' : forall q j, GetNext l' q j =
    if decide (j < max_height_ l /\ q = pred_lt l cs k j)%nat then Some None else GetNext l q j).
  { intros q j. rewrite Hget, Hg1, Nat.sub_0_r. apply decide_ext. rewrite Hpre. naive_solver lia. }
  destruct (lt_part_take l cs k Hr) as [Ht Hd].
  destruct (split_fields l cs k l' Hsame) as (E1 & E2 & E3 & E4 & E5).
  split; rewrite <- ?Ht, <- ?Hd; try done.
  - by apply split_repr.
  - rewrite Hd. apply (chain_frame l); [|apply chain_drop, (repr_chain l cs Hr)].
    rewrite <- Hd. intros q Hq. rewrite Hget', decide_False; [done|]. intros [_ ->].
    eapply (pred_not_ge l cs k); eauto.
  - apply (split_info l cs k l' Hsame).
  - intros q j Hq. rewrite Hget', decide_False; [done|]. intros [_ ->]. apply Hq.
    by apply pred_mem_0.
Qed.

Lemma cut_loop_fields pre : forall i l l', cut_loop pre i l = Some l' -> l' = set_heap (heap l') l.
Proof.
  induction pre as [|[p|] pre IH]; intros i l l'; cbn [cut_loop]; [intros [= <-]; by destruct l| |apply IH].
  destruct (SetNext l p i None) as [l1|] eqn:E; [|done]. cbn [mbind option_bind]. intros Hl%IH.
  unfold SetNext in E. destruct (heap l !! p); [|done]. simpl in E. destruct (require _); [|done].
  simpl in E. injection E as <-. rewrite Hl. done.
Qed.

Lemma Split_tail l cs k : repr l cs ->
  exists r l', Split l k = Some (r, l') /\ tail_ l' = Some (pred_lt l cs k 0) /\ head_ l' = head_ l.
Proof.
  intros Hr. pose proof (r_mh _ _ Hr) as Hmh. destruct (Split_spec l cs k Hr) as (r & l' & cs' & Hs & Hp).
  exists r, l'. split; [done|]. split; [|apply Hp]. unfold Split in Hs.
  destruct (FindLessOrEqual_spec l cs k (replicate (MaxHeight l) None) Hr)
    as (pre & Hfle & _ & _ & _); [apply length_replicate|]. rewrite Hfle in Hs. cbn [mbind option_bind] in Hs.
  destruct (GetNext _ _ 0); [|done]. cbn [mbind option_bind] in Hs.
  destruct (cut_loop _ _ _) as [l2|] eqn:Hc; [|done]. simpl in Hs. injection Hs as _ <-.
  apply cut_loop_fields in Hc. rewrite Hc. done.
Qed.

End split.

(** * SkiplistPos: Correctness of the position-bounded cuts of a skiplist: [SplitByPos],
    [SplitByKeyOrPos] and [SplitByKeyAndPos]. *)
Section pos.
Context {K V : Type} `{ComparatorLaws K, !ValueInit K, !ValueInit V}.
Implicit Types (l : skiplist K V) (cs : nat -> list ptr) (k : K) (v : V).

Lemma seg_ext (f f' : ptr -> option (option ptr)) p a : (forall q, f' q = f q) -> seg f p a -> seg f' p a.
Proof. intros Hf. revert p; induction a as [|x a IH]; intros p; simpl; [done|]. rewrite Hf. naive_solver. Qed.

(** What [SplitOnPosNode] makes of an upper link *)
Definition cutv l k (o : option (option ptr)) : option (option ptr) :=
  match o with
  | Some (Some x) => if decide (compare_ k (keyof l x) <= 0) then Some None else o
  | _ => o
  end.

Lemma cutv_same l l' k o : same l l' -> cutv l' k o = cutv l k o.
Proof. intros Hs. destruct o as [[x|]|]; simpl; [|done..]. by rewrite (same_keyof l l'). Qed.

Lemma is_Some_cutv l k o : is_Some (cutv l k o) <-> is_Some o.
Proof. destruct o as [[x|]|]; simpl; try done. case_decide; split; eauto. Qed.

Lemma cutv_keeps l k o y : cutv l k o = Some (Some y) -> o = Some (Some y).
Proof. destruct o as [[x|]|]; simpl; try done. by case_decide. Qed.

Lemma GetNext_high l p h j : Height l p = Some h -> (h <= j)%nat -> GetNext l p j = None.
Proof.
  unfold Height, GetNext. destruct (heap l !! p) as [nd|]; [|done]. simpl. intros [= <-] Hj.
  by rewrite bool_decide_eq_false_2 by lia.
Qed.

(** A node whose links can all be followed *)
Definition node_ok l (q : ptr) : Prop :=
  exists h, Height l q = Some h /\ (1 <= h)%nat /\
    (forall j, (j < h)%nat -> is_Some (GetNext l q j)) /\
    (forall j y, GetNext l q j = Some (Some y) -> is_Some (GetKey l y)).

Lemma node_ok_mono l l' q : same l l' ->
  (forall j, is_Some (GetNext l' q j) <-> is_Some (GetNext l q j)) ->
  (forall j y, GetNext l' q j = Some (Some y) -> GetNext l q j = Some (Some y)) ->
  node_ok l q -> node_ok l' q.
Proof.
  intros Hs H1 H2 (h & Hh & Hpos & Hl & Hk). exists h. rewrite (same_Height l l') by done.
  split; [done|]. split; [done|]. split; [intros; by apply H1, Hl|].
  intros j y Hy. rewrite (same_GetKey l l') by done. by eapply Hk, H2.
Qed.

Lemma cut_upper_spec todo : forall i k q l,
  (forall j, (i <= j < i + todo)%nat -> is_Some (GetNext l q j)) ->
  (forall j y, GetNext l q j = Some (Some y) -> is_Some (GetKey l y)) ->
  exists l', cut_upper todo i k q l = Some l' /\ same l l' /\
    forall q' j, GetNext l' q' j =
      if decide (q' = q /\ i <= j < i + todo)%nat then cutv l k (GetNext l q' j) else GetNext l q' j.
Proof.
  induction todo as [|todo IH]; intros i k q l Hl Hk; cbn [cut_upper].
  { exists l. split; [done|]. split; [apply same_refl|]. intros q' j. by rewrite decide_False by lia. }
  destruct (Hl i) as [o Ho]; [lia|]. rewrite Ho. cbn [mbind option_bind].
  set (l1 := if decide (cutv l k (Some o) = Some o) then l else upd_next l q i None).
  assert (Hstep : (cut ← match o with None => Some false | Some p => k' ← GetKey l p;
            Some (bool_decide (compare_ k k' <= 0)) end;
          l' ← (if (cut : bool) then SetNext l q i None else Some l);
          cut_upper todo (S i) k q l') = cut_upper todo (S i) k q l1 /\ same l l1 /\
      forall q' j, GetNext l1 q' j = if decide (q' = q /\ j = i) then cutv l k (GetNext l q' j) else GetNext l q' j).
  { subst l1. destruct o as [y|]; simpl.
    - destruct (Hk _ _ Ho) as [k' Hk']. rewrite Hk'. cbn [mbind option_bind].
      unfold keyof. rewrite Hk'. simpl. case_bool_decide.
      + rewrite SetNext_upd by eauto. rewrite (decide_True (P := _ <= 0)) by done.
        rewrite decide_False by done.
        split; [done|]. split; [apply same_upd|]. intros q' j. rewrite GetNext_upd by eauto.
        case_decide as E; [|done]. destruct E as [-> ->]. rewrite Ho. simpl. unfold keyof.
        by rewrite Hk', decide_True.
      + rewrite (decide_False (P := _ <= 0)) by done. rewrite decide_True by done.
        split; [done|]. split; [apply same_refl|]. intros q' j.
        case_decide as E; [|done]. destruct E as [-> ->]. rewrite Ho. simpl. unfold keyof.
        by rewrite Hk', decide_False.
    - split; [done|]. split; [apply same_refl|]. intros q' j.
      case_decide as E; [|done]. destruct E as [-> ->]. by rewrite Ho. }
  destruct Hstep as (-> & Hs1 & Hg1).
  destruct (IH (S i) k q l1) as (l' & -> & Hs & Hg).
  { intros j Hj. rewrite Hg1, decide_False by lia. apply Hl. lia. }
  { intros j y. rewrite Hg1, (same_GetKey l l1) by done. case_decide; [|apply Hk].
    intros Hy%cutv_keeps. by eapply Hk. }
  exists l'. split; [done|]. split; [by eapply same_trans|]. intros q' j.
  rewrite Hg, Hg1, (cutv_same l l1) by done.
  destruct (decide (q' = q)) as [->|Hne]; [|by rewrite !decide_False by tauto].
  destruct (decide (j = i)) as [->|Hji].
  - rewrite decide_False, !decide_True by (split; [done|lia]) || lia. done.
  - rewrite (decide_False (P := q = q /\ j = i)) by tauto. apply decide_ext. lia.
Qed.

Lemma cut_all_spec l q h : Height l q = Some h ->
  (forall j, (j < h)%nat -> is_Some (GetNext l q j)) ->
  exists l', cut_all q l = Some l' /\ same l l' /\
    forall q' j, GetNext l' q' j = if decide (q' = q /\ j < h)%nat then Some None else GetNext l q' j.
Proof.
  intros Hh Hl. unfold cut_all. rewrite Hh. cbn [mbind option_bind]. clear Hh.
  induction h as [|h IH].
  { exists l. split; [done|]. split; [apply same_refl|]. intros q' j. by rewrite decide_False by lia. }
  destruct IH as (l1 & Hf & Hs & Hg); [intros; apply Hl; lia|].
  rewrite seq_S, foldl_app. setoid_rewrite Hf. cbn [foldl mbind option_bind plus].
  assert (is_Some (GetNext l1 q h)) as Hq by (rewrite Hg, decide_False by lia; apply Hl; lia).
  rewrite SetNext_upd by done. eexists. split; [done|]. split; [eapply same_trans; [done|apply same_upd]|].
  intros q' j. rewrite GetNext_upd by done. rewrite Hg.
  destruct (decide (q' = q)) as [->|]; [|by rewrite !decide_False by tauto].
  destruct (decide (j = h)) as [->|].
  - rewrite !decide_True by (split; [done|lia]). done.
  - rewrite (decide_False (P := q = q /\ j = h)) by tauto. apply decide_ext. lia.
Qed.

(** The loop of [SplitOnPosNode] over the nodes [xs] before the node [p] *)
Lemma pos_loop_spec k p pos xs : forall fuel cnt nd pre l,
  (length xs < fuel)%nat -> cnt + Z.of_nat (length xs) = pos -> 0 <= cnt -> pos < 2 ^ 64 ->
  head (xs ++ [p]) = Some nd -> seg (nx l 0) nd (tail (xs ++ [p])) -> NoDup xs ->
  (forall q, q ∈ xs -> node_ok l q) -> node_ok l pre ->
  exists l', SplitOnPosNode_loop fuel pos cnt k (Some nd) pre l = Some (Some p, l') /\
    same (set_tail (Some (last_or pre xs)) l) l' /\
    forall q j, GetNext l' q j =
      if decide (q = last_or pre xs /\ is_Some (GetNext l q j)) then Some None
      else if decide (q ∈ xs /\ 1 <= j)%nat then cutv l k (GetNext l q j) else GetNext l q j.
Proof.
  induction xs as [|x xs IH]; intros [|fuel] cnt nd pre l Hf Hcnt Hc0 Hb Hhd Hseg Hnd Hok Hpre;
    simpl in Hf, Hcnt; try lia; cbn [SplitOnPosNode_loop].
  - simpl in Hhd. injection Hhd as <-. rewrite decide_True by lia. rewrite last_or_nil.
    destruct Hpre as (h & Hh & _ & Hl & _).
    destruct (cut_all_spec (set_tail (Some pre) l) pre h Hh Hl) as (l' & -> & Hs & Hg).
    eexists. split; [done|]. split; [done|]. intros q j. rewrite Hg.
    rewrite (decide_False (P := q ∈ [] /\ _)) by (rewrite elem_of_nil; tauto).
    change (GetNext (set_tail (Some pre) l) q j) with (GetNext l q j). apply decide_ext.
    split; (intros [-> Hj]; split; [done|]); [by apply Hl|].
    destruct (decide (j < h)%nat); [done|]. rewrite (GetNext_high l pre h) in Hj by (done || lia).
    by destruct Hj.
  - simpl in Hhd. injection Hhd as <-. rewrite decide_False by lia.
    destruct (Hok x) as (h & Hh & Hh1 & Hl & Hk); [left|]. rewrite Hh. cbn [mbind option_bind].
    destruct (cut_upper_spec (h - 1) 1 k x l) as (l1 & -> & Hs1 & Hg1); [intros; apply Hl; lia|done|].
    cbn [mbind option_bind]. simpl in Hseg.
    assert (Hg1' : forall q j, GetNext l1 q j = if decide (q = x /\ 1 <= j)%nat
      then cutv l k (GetNext l q j) else GetNext l q j).
    { intros q j. rewrite Hg1. destruct (decide (q = x)) as [->|]; [|by rewrite !decide_False by tauto].
      destruct (decide (j < h)%nat); [apply decide_ext; lia|].
      rewrite (GetNext_high l x h) by (done || lia). simpl. by repeat case_decide. }
    apply NoDup_cons in Hnd as [Hx Hnd].
    assert (exists nd', head (xs ++ [p]) = Some nd' /\ GetNext l x 0 = Some (Some nd') /\
      seg (nx l 0) nd' (tail (xs ++ [p]))) as (nd' & Hhd' & Hn' & Hseg').
    { destruct (xs ++ [p]) as [|y ys] eqn:E; [by destruct xs|]. exists y. by destruct Hseg. }
    rewrite Hg1', decide_False by lia. rewrite Hn'. cbn [mbind option_bind].
    assert (Hmono : forall q, node_ok l q -> node_ok l1 q).
    { intros q. apply node_ok_mono; [done|..]; intros j; rewrite Hg1'; case_decide; try done.
      - apply is_Some_cutv.
      - intros y. apply cutv_keeps. }
    rewrite uwrap_id by (unfold in_uint; lia).
    destruct (IH fuel (cnt + 1) nd' x l1) as (l' & -> & Hs & Hg); try done; [lia..| | | |].
    { eapply seg_ext; [|done]. intros q. unfold nx. by rewrite Hg1', decide_False by lia. }
    { intros q Hq. apply Hmono, Hok. by right. }
    { apply Hmono, Hok. left. }
    rewrite last_or_cons. exists l'. split; [done|]. split.
    { eapply same_trans; [|done]. destruct Hs1 as [E I]. split; [by rewrite E|done]. }
    intros q j. rewrite Hg, Hg1'. rewrite (cutv_same l l1) by done.
    destruct (decide (q = x)) as [->|Hne].
    + rewrite (decide_False (P := x ∈ xs /\ _)) by tauto.
      rewrite (decide_ext (x ∈ x :: xs /\ (1 <= j)%nat) (x = x /\ (1 <= j)%nat)) by set_solver.
      destruct (decide (x = x /\ (1 <= j)%nat)); [|done]. apply decide_ext. by rewrite is_Some_cutv.
    + rewrite (decide_False (P := q = x /\ _)) by tauto. case_decide; [done|]. apply decide_ext. set_solver.
Qed.

Lemma seg_step f p (a : list ptr) q : seg f p a -> q ∈ p :: a -> q <> last_or p a ->
  exists x, x ∈ a /\ f q = Some (Some x).
Proof.
  revert p; induction a as [|y a IH]; intros p; simpl.
  { intros _ ->%list_elem_of_singleton. by rewrite last_or_nil. }
  rewrite last_or_cons. intros [Hp Hs] Hq Hne. apply elem_of_cons in Hq as [->|Hq].
  - exists y. split; [left|done].
  - destruct (IH y Hs Hq Hne) as (x & ? & ?). exists x. split; [by right|done].
Qed.

Lemma sublist_last {A} (c d : list A) (x q : A) :
  c `sublist_of` d -> NoDup (x :: d) -> q ∈ x :: c -> q = last_or x d -> q = last_or x c.
Proof.
  intros Hs Hnd Hq ->. destruct (last d) as [z|] eqn:Hz.
  2: { apply last_None in Hz as ->. apply sublist_nil_r in Hs as ->. done. }
  apply last_Some in Hz as [d' ->]. rewrite last_or_snoc in *.
  apply sublist_app_r in Hs as (c1 & c2 & -> & H1 & H2).
  destruct c2 as [|y c2].
  - exfalso. rewrite app_nil_r in Hq. apply NoDup_cons in Hnd as [Hx Hnd].
    apply NoDup_app in Hnd as (_ & Hd & _). apply elem_of_cons in Hq as [->|Hq].
    + apply Hx. set_solver.
    + apply (Hd z); [by eapply elem_of_sublist|left].
  - apply sublist_cons_l in H2 as (k1 & k2 & E & H2).
    destruct k1 as [|? k1]; [|by destruct k1]. injection E as -> <-.
    apply sublist_nil_r in H2 as ->. by rewrite last_or_snoc.
Qed.

(** Links of a represented list lead into its bottom level. *)
Lemma repr_target l cs q j y : repr l cs -> q ∈ head_ l :: cs 0%nat ->
  GetNext l q j = Some (Some y) -> y ∈ cs 0%nat.
Proof.
  intros Hr Hq Hy.
  assert (Hj : (j < MaxHeight l)%nat).
  { apply Nat.nle_gt. intros Hge. apply elem_of_cons in Hq as [->|Hq].
    - rewrite (GetNext_high l _ (MaxHeight l)) in Hy; [done|apply Hr|done].
    - destruct (r_nodes _ _ Hr q Hq) as (h & Hh & ?). rewrite (GetNext_high l q h) in Hy; [done|done|lia]. }
  destruct (decide (q ∈ head_ l :: cs j)) as [Hin|Hout].
  - pose proof (r_path _ _ Hr j Hj) as [Hs He]. apply (elem_of_sublist (cs j)); [|apply (repr_sub l cs Hr)].
    destruct (decide (q = last_or (head_ l) (cs j))) as [->|Hne].
    + unfold nx in He. congruence.
    + destruct (seg_step _ _ _ _ Hs Hin Hne) as (x & Hx & Hq'). unfold nx in Hq'. congruence.
  - apply elem_of_cons in Hq as [->|Hq]; [exfalso; apply Hout; left|].
    destruct (r_nodes _ _ Hr q Hq) as (h & Hh & ?). destruct (decide (j < h)%nat).
    + rewrite (r_off _ _ Hr q h j) in Hy; try done. intros ?. apply Hout. by right.
    + rewrite (GetNext_high l q h) in Hy; [done|done|lia].
Qed.

Lemma repr_node_ok l cs q : repr l cs -> q ∈ head_ l :: cs 0%nat -> node_ok l q.
Proof.
  intros Hr Hq. pose proof (r_mh _ _ Hr).
  assert (exists h, Height l q = Some h /\ (1 <= h)%nat) as (h & Hh & ?).
  { apply elem_of_cons in Hq as [->|Hq']; [exists (MaxHeight l); split; [apply Hr|lia]|].
    destruct (r_nodes _ _ Hr q Hq') as (h & Hh & ?). exists h. split; [done|lia]. }
  exists h. split; [done|]. split; [done|]. split.
  - intros j Hj. by apply (r_links _ _ Hr q h).
  - intros j y Hy. eapply repr_target in Hy; [|done|done]. rewrite (repr_key l cs Hr y Hy). eauto.
Qed.

(** ** The state [SplitOnPosNode] leaves behind *)
Section split_pos.
Context l cs (a b : list ptr) (p : ptr) l' (Hr : repr l cs) (Hcs : cs 0%nat = a ++ p :: b).
Local Abbreviation z := (last_or (head_ l) a).
Local Abbreviation pk := (keyof l p).
Context (Hsame : same (set_tail (Some z) l) l').
Context (Hget : forall q j, GetNext l' q j =
  if decide (q = z /\ is_Some (GetNext l q j)) then Some None
  else if decide (q ∈ head_ l :: a /\ 1 <= j)%nat then cutv l pk (GetNext l q j) else GetNext l q j).

Definition pos_levels (i : nat) : list ptr := match i with O => a | S _ => lt_part l cs pk i end.

Lemma pos_nodup : NoDup (head_ l :: a) /\ (forall q, q ∈ head_ l :: a -> q ∉ p :: b).
Proof.
  pose proof (r_nodup _ _ Hr) as Hnd. rewrite Hcs, app_comm_cons in Hnd. by apply NoDup_app in Hnd as (? & ? & _).
Qed.

Lemma pos_lt_sub i : lt_part l cs pk i `sublist_of` a.
Proof.
  trans (lt_part l cs pk 0); [apply sublist_filter, (repr_sub l cs Hr)|].
  unfold lt_part. rewrite Hcs, filter_app.
  assert (filter (fun q => adv_lt pk (keyof l q) = true) (p :: b) = []) as ->.
  { pose proof (r_sorted _ _ Hr) as Hs. rewrite Hcs in Hs. apply StronglySorted_app in Hs as (_ & _ & Hs).
    apply (filter_adv_none l (adv_lt pk) (adv_lt_closed pk) _ Hs). intros q [= <-].
    apply bool_decide_eq_false. rewrite cmp_refl. lia. }
  rewrite app_nil_r. apply list.sublist_filter.
Qed.

Lemma pos_path i : (i < MaxHeight l)%nat -> path (nx l' i) (head_ l) (pos_levels i).
Proof.
  intros Hi. pose proof (r_path _ _ Hr i Hi) as Hp. destruct pos_nodup as [Hnd _].
  destruct i as [|i].
  - rewrite Hcs in Hp. apply (path_cut (nx l 0) _ _ a (p :: b)); unfold nx; try done.
    + rewrite Hget, decide_True; [done|]. split; [done|].
      apply path_app in Hp as [_ Hp]. apply path_head in Hp. unfold nx in Hp. rewrite Hp. eauto.
    + intros q Hq Hne. by rewrite Hget, !decide_False by (tauto || lia).
  - simpl. pose proof (pos_lt_sub (S i)) as Hsub. rewrite (parts l cs pk (S i) Hr) in Hp.
    assert (Hin : forall q, q ∈ head_ l :: lt_part l cs pk (S i) -> q ∈ head_ l :: a).
    { intros q Hq. eapply elem_of_sublist; [done|by apply sublist_skip]. }
    apply (path_cut (nx l (S i)) _ _ _ (ge_part l cs pk (S i))); unfold nx; try done.
    + eapply sublist_NoDup; [done|by apply sublist_skip].
    + assert (GetNext l (last_or (head_ l) (lt_part l cs pk (S i))) (S i) =
        Some (head (ge_part l cs pk (S i)))) as Hn by (by apply (pred_next l cs pk (S i) Hr)).
      rewrite Hget, Hn. case_decide; [done|].
      rewrite decide_True by (split; [apply Hin, last_or_elem|lia]).
      destruct (ge_part l cs pk (S i)) as [|x c] eqn:E; simpl; [done|].
      rewrite decide_True; [done|]. apply (ge_part_key l cs pk (S i)). rewrite E. left.
    + intros q Hq Hne. apply path_app in Hp as [Hs _].
      destruct (seg_step _ _ _ _ Hs Hq Hne) as (x & Hx & Hqx). unfold nx in Hqx.
      rewrite Hget, decide_False by (intros [Hz _]; apply Hne; by eapply sublist_last).
      case_decide; [|done]. rewrite Hqx. simpl. rewrite decide_False; [done|].
      apply lt_part_key in Hx. pose proof (cmp_flip (keyof l x) pk). lia.
Qed.

Lemma pos_in q i : q ∈ pos_levels i -> q ∈ a.
Proof.
  destruct i; [done|]. intros Hq. eapply elem_of_sublist; [exact Hq|apply pos_lt_sub].
Qed.

Lemma pos_links q h i : q ∈ head_ l :: a -> Height l q = Some h -> (i < h)%nat -> is_Some (GetNext l' q i).
Proof.
  intros Hq Hh Hi.
  assert (is_Some (GetNext l q i)) as Hs.
  { apply (r_links _ _ Hr q h); [|done|done]. rewrite Hcs. set_solver. }
  rewrite Hget. repeat case_decide; [done| |done]. by apply is_Some_cutv.
Qed.

(** A node that leaves an upper level has a NULL link there. *)
Lemma pos_off q h i : q ∈ a -> Height l q = Some h -> (i < h)%nat -> q ∉ pos_levels i -> GetNext l' q i = Some None.
Proof.
  intros Hq Hh Hi Hoff. destruct i as [|i]; [done|]. rewrite Hget. case_decide; [done|].
  rewrite decide_True by (split; [by right|lia]).
  assert (q ∈ cs 0%nat) as Hq0 by (rewrite Hcs; set_solver).
  destruct (decide (q ∈ cs (S i))) as [Hin|Hout].
  2: { by rewrite (r_off _ _ Hr q h (S i)). }
  assert (compare_ pk (keyof l q) <= 0) as Hge.
  { apply (ge_part_key l cs pk (S i)). rewrite (parts l cs pk (S i) Hr) in Hin. set_solver. }
  apply list_elem_of_split in Hin as (c1 & c2 & E).
  assert (S i < MaxHeight l)%nat as HM by (destruct (r_nodes _ _ Hr q Hq0) as (? & ? & ?); naive_solver lia).
  pose proof (r_path _ _ Hr (S i) HM) as Hp. rewrite E in Hp. apply path_app in Hp as [_ Hp].
  apply path_cons in Hp as [_ Hp]. apply path_head in Hp. unfold nx in Hp. rewrite Hp.
  destruct c2 as [|x c2]; simpl; [done|]. rewrite decide_True; [done|].
  pose proof (repr_sorted l cs Hr (S i)) as Hs. rewrite E in Hs.
  apply StronglySorted_app in Hs as (_ & _ & Hs). apply StronglySorted_inv in Hs as [_ Hs].
  apply Forall_cons in Hs as [Hs _]. by eapply cmp_le_trans.
Qed.

Lemma pos_fields : MaxHeight l' = MaxHeight l /\ max_height_ l' = max_height_ l /\ head_ l' = head_ l /\
  next_ptr l' = next_ptr l /\ tail_ l' = Some z.
Proof. destruct Hsame as [-> _]. done. Qed.

Lemma pos_repr : repr l' pos_levels.
Proof.
  destruct pos_fields as (E1 & E2 & E3 & E4 & E5). destruct pos_nodup as [Hnd _].
  assert (Hinfo : forall q, info l' q = info l q) by (destruct Hsame as [_ Hi]; apply Hi).
  assert (HH : forall q, Height l' q = Height l q) by (intros q; by rewrite !Height_info, Hinfo).
  split; rewrite ?E1, ?E2, ?E3, ?E4, ?E5.
  - apply Hr.
  - rewrite HH. apply Hr.
  - intros q Hq. rewrite HH. apply (r_nodes _ _ Hr). rewrite Hcs. set_solver.
  - intros q h i Hq. rewrite HH. by apply pos_links.
  - done.
  - apply pos_path.
  - intros [|i]; simpl; [apply pos_lt_sub|]. apply sublist_filter, (r_sub _ _ Hr).
  - intros i Hi. pose proof (r_mh _ _ Hr). destruct i as [|i]; [lia|]. simpl. unfold lt_part.
    by rewrite (r_high _ _ Hr).
  - intros q h i Hq. rewrite HH. by apply pos_off.
  - apply (StronglySorted_keys l l').
    + intros q _. unfold keyof. by rewrite !GetKey_info, Hinfo.
    + pose proof (r_sorted _ _ Hr) as Hs. rewrite Hcs in Hs. by apply StronglySorted_app in Hs as (_ & ? & _).
  - change (pos_levels 0) with a. destruct (last a) as [y|] eqn:E; unfold last_or; rewrite E; [by left|].
    right. by apply last_None in E as ->.
  - intros q. rewrite Hinfo. apply (r_fresh _ _ Hr).
Qed.

Lemma pos_post : split_post l cs (length a) (Some p) l' pos_levels.
Proof.
  destruct pos_fields as (E1 & E2 & E3 & E4 & E5). destruct pos_nodup as [Hnd Hd].
  assert (Hframe : forall q j, q ∉ head_ l :: a -> GetNext l' q j = GetNext l q j).
  { intros q j Hq. rewrite Hget, decide_False.
    2: { intros [-> _]. apply Hq, last_or_elem. }
    by rewrite decide_False by tauto. }
  split; try done; rewrite ?Hcs, ?take_app_length, ?drop_app_length; try done.
  - apply pos_repr.
  - apply (chain_frame l).
    + intros q Hq. apply Hframe. intros Hq'. by eapply Hd.
    + replace (p :: b) with (drop (length a) (cs 0%nat)) by (by rewrite Hcs, drop_app_length).
      apply chain_drop, (repr_chain l cs Hr).
  - apply Hsame.
  - intros q j Hq. apply Hframe. set_solver.
Qed.
End split_pos.

Lemma SplitOnPosNode_spec l cs n p : repr l cs -> cs 0%nat !! n = Some p ->
  Z.of_nat (length (cs 0%nat)) < 2 ^ 64 ->
  exists l' cs', SplitOnPosNode l (Z.of_nat n) p = Some (Some p, l') /\ split_post l cs n (Some p) l' cs'.
Proof.
  intros Hr Hn Hlen. pose proof (r_mh _ _ Hr) as Hmh. pose proof (repr_size _ _ Hr) as Hsz.
  apply list_elem_of_split_length in Hn as (a & b & Hcs & ->).
  assert (length (cs 0%nat) = length a + S (length b))%nat as Hl by (rewrite Hcs, length_app; done).
  unfold SplitOnPosNode. rewrite (repr_key l cs Hr p) by (rewrite Hcs; set_solver). cbn [mbind option_bind].
  assert (Hmem : forall q, q ∈ head_ l :: a -> q ∈ head_ l :: cs 0%nat) by (intros q; rewrite Hcs; set_solver).
  pose proof (r_path _ _ Hr 0 ltac:(lia)) as [Hseg _]. rewrite Hcs in Hseg.
  replace (a ++ p :: b) with ((a ++ [p]) ++ b) in Hseg by (by rewrite <- app_assoc).
  apply seg_app in Hseg as [Hseg _]. destruct (pos_nodup l cs a b p Hr Hcs) as [Hnd _].
  rewrite uwrap_id by (unfold in_uint; lia).
  destruct (pos_loop_spec (keyof l p) p (Z.of_nat (length a) + 1) (head_ l :: a) (S (size (heap l))) 0
    (head_ l) (head_ l) l) as (l' & -> & Hsame & Hget); try done; [simpl; lia..| | |].
  { intros q Hq. apply (repr_node_ok l cs); auto. }
  { apply (repr_node_ok l cs); [done|left]. }
  rewrite last_or_cons in *. exists l', (pos_levels l cs a p). split; [done|]. eapply (pos_post l cs a b p); done.
Qed.

(** The walks: [c] is the list of nodes ahead. *)
Lemma walk_pos_spec l fuel : forall c idx pos, chain l c -> (length c <= fuel)%nat -> idx <= pos ->
  walk_pos fuel l idx pos (head c) = Some (c !! Z.to_nat (pos - idx)).
Proof.
  induction fuel as [|fuel IH]; intros c idx pos Hc Hf Hi; cbn [walk_pos].
  - destruct c; [|simpl in Hf; lia]. case_decide; [done|]. by replace (Z.to_nat _) with 0%nat by lia.
  - case_decide as E.
    + destruct c as [|p c]; [done|]. apply chain_cons in Hc as [Hn Hc]. simpl in Hf. cbn [head]. rewrite Hn.
      cbn [mbind option_bind]. rewrite IH by (done || lia).
      by replace (Z.to_nat (pos - idx)) with (S (Z.to_nat (pos - (idx + 1)))) by lia.
    + replace (Z.to_nat _) with 0%nat by lia. by destruct c.
Qed.

(** The number of leading nodes with a key before [k] *)
Fixpoint before l k (c : list ptr) : nat :=
  match c with
  | [] => 0
  | p :: c' => if adv_lt k (keyof l p) then S (before l k c') else 0
  end.

Lemma before_lt_part l cs k : repr l cs -> before l k (cs 0%nat) = length (lt_part l cs k 0).
Proof.
  intros Hr. unfold lt_part. pose proof (r_sorted _ _ Hr) as Hs. induction (cs 0%nat) as [|p c IH]; [done|].
  pose proof Hs as [Hs' _]%StronglySorted_inv. simpl. rewrite filter_cons.
  destruct (adv_lt k (keyof l p)) eqn:E; simpl; [by rewrite IH|].
  pose proof (filter_adv_none l (adv_lt k) (adv_lt_closed k) (p :: c) Hs) as Hf.
  rewrite filter_cons, E in Hf. simpl in Hf. rewrite Hf; [done|]. by intros q [= <-].
Qed.

Lemma before_le l k c : (before l k c <= length c)%nat.
Proof. induction c as [|p c IH]; simpl; [lia|]. case_match; lia. Qed.

Lemma adv_lt_false k k' : adv_lt k k' = false <-> compare_ k' k >= 0.
Proof. unfold adv_lt. rewrite bool_decide_eq_false. lia. Qed.

Lemma walk_key_or_pos_spec l k fuel : forall c idx pos, chain l c -> (length c <= fuel)%nat -> idx <= pos ->
  (forall q, q ∈ c -> GetKey l q = Some (keyof l q)) ->
  walk_key_or_pos fuel l k idx pos (head c) = Some
    (match c !! before l k c with
     | Some q => if decide (Z.of_nat (before l k c) < pos - idx) then inl (keyof l q) else inr (c !! Z.to_nat (pos - idx))
     | None => inr (c !! Z.to_nat (pos - idx))
     end).
Proof.
  induction fuel as [|fuel IH]; intros c idx pos Hc Hf Hi Hk; cbn [walk_key_or_pos].
  - destruct c; [|simpl in Hf; lia]. simpl. by case_decide.
  - case_decide as E.
    + destruct c as [|p c]; [done|]. apply chain_cons in Hc as [Hn Hc]. simpl in Hf. cbn [head].
      rewrite Hk by left. cbn [mbind option_bind before]. destruct (adv_lt k (keyof l p)) eqn:Ep.
      * apply adv_lt_true in Ep. rewrite decide_False, Hn by lia. cbn [mbind option_bind].
        rewrite IH by (done || lia || (intros; apply Hk; by right)).
        replace (Z.to_nat (pos - idx)) with (S (Z.to_nat (pos - (idx + 1)))) by lia. simpl.
        destruct (c !! before l k c); [|done]. f_equal. apply decide_ext. lia.
      * apply adv_lt_false in Ep. rewrite decide_True by lia. simpl. by rewrite decide_True by lia.
    + replace (Z.to_nat _) with 0%nat by lia. replace (head c) with (c !! 0%nat) by by destruct c.
      case_match; [|done]. by rewrite decide_False by lia.
Qed.

Lemma walk_key_and_pos_spec l k fuel : forall c idx pos fk, chain l c -> (length c <= fuel)%nat -> idx <= pos ->
  (forall q, q ∈ c -> GetKey l q = Some (keyof l q)) ->
  exists fk', walk_key_and_pos fuel l k idx pos fk (head c) = Some (fk', c !! Z.to_nat (pos - idx)) /\
    (pos - idx < Z.of_nat (length c) -> fk' = fk || bool_decide (Z.of_nat (before l k c) < pos - idx)).
Proof.
  induction fuel as [|fuel IH]; intros c idx pos fk Hc Hf Hi Hk; cbn [walk_key_and_pos].
  - destruct c; [|simpl in Hf; lia]. simpl. exists fk. split; [by case_decide|]. lia.
  - case_decide as E.
    + destruct c as [|p c]; [exists fk; split; [done|simpl; lia]|].
      apply chain_cons in Hc as [Hn Hc]. simpl in Hf. cbn [head].
      rewrite Hk, Hn by left. cbn [mbind option_bind before].
      replace (Z.to_nat (pos - idx)) with (S (Z.to_nat (pos - (idx + 1)))) by lia. simpl.
      edestruct (IH c (idx + 1) pos) as (fk' & -> & Hfk'); [done|lia|lia|intros; apply Hk; by right|].
      exists fk'. split; [done|]. intros Hlt. rewrite Hfk' by lia. destruct (adv_lt k (keyof l p)) eqn:Ep.
      * apply adv_lt_true in Ep. rewrite decide_False by lia. f_equal. apply bool_decide_ext. lia.
      * apply adv_lt_false in Ep. rewrite decide_True by lia.
        rewrite (bool_decide_eq_true_2 (Z.of_nat 0 < _)) by lia. by rewrite orb_true_r.
    + replace (Z.to_nat _) with 0%nat by lia. exists fk.
      split; [by destruct c|]. intros _. rewrite bool_decide_eq_false_2 by lia. by rewrite orb_false_r.
Qed.

Lemma repr_keys l cs q : repr l cs -> q ∈ cs 0%nat -> GetKey l q = Some (keyof l q).
Proof. intros Hr. apply (repr_key l cs Hr). Qed.

(** A cut found to lie beyond the list, or at a node of it *)
Lemma SplitOnPos_spec l cs pos : repr l cs -> 0 <= pos -> Z.of_nat (length (cs 0%nat)) < 2 ^ 64 ->
  exists r l' cs', match cs 0%nat !! Z.to_nat pos with
                   | None => Some (None, l) | Some p => SplitOnPosNode l pos p end = Some (r, l') /\
    split_post l cs (Z.to_nat pos) r l' cs'.
Proof.
  intros Hr Hpos Hlen. destruct (cs 0%nat !! Z.to_nat pos) as [p|] eqn:E.
  - destruct (SplitOnPosNode_spec l cs _ p Hr E Hlen) as (l' & cs' & Hs & Hp).
    rewrite Z2Nat.id in Hs by done. eauto.
  - exists None, l, cs. split; [done|]. apply split_post_none; [done|]. by apply lookup_ge_None.
Qed.

Lemma SplitByPos_spec l cs pos : repr l cs -> 0 <= pos -> Z.of_nat (length (cs 0%nat)) < 2 ^ 64 ->
  exists r l' cs', SplitByPos l pos = Some (r, l') /\ split_post l cs (Z.to_nat pos) r l' cs'.
Proof.
  intros Hr Hpos Hlen. unfold SplitByPos. destruct (repr_chain l cs Hr) as [-> Hc]. cbn [mbind option_bind].
  pose proof (repr_size _ _ Hr). rewrite walk_pos_spec by (done || lia). cbn [mbind option_bind].
  rewrite Z.sub_0_r. by apply SplitOnPos_spec.
Qed.

Lemma split_post_n l cs n m r l' cs' :
  take n (cs 0%nat) = take m (cs 0%nat) -> drop n (cs 0%nat) = drop m (cs 0%nat) ->
  split_post l cs n r l' cs' -> split_post l cs m r l' cs'.
Proof. intros Et Ed []. split; rewrite <- ?Et, <- ?Ed; done. Qed.

(** The key of the first node not before [k] cuts the list where [k] does. *)
Lemma before_key l cs k q : repr l cs -> cs 0%nat !! before l k (cs 0%nat) = Some q ->
  before l (keyof l q) (cs 0%nat) = before l k (cs 0%nat).
Proof.
  intros Hr. pose proof (r_sorted _ _ Hr) as Hs. induction (cs 0%nat) as [|p c IH]; [done|].
  apply StronglySorted_inv in Hs as [Hs Hp]. simpl. destruct (adv_lt k (keyof l p)) eqn:E; simpl.
  - intros Hq.
    assert (adv_lt (keyof l q) (keyof l p) = true) as ->; [|by rewrite IH by done].
    apply adv_lt_true. apply adv_lt_true in E. eapply cmp_lt_le_trans; [exact E|].
    assert (adv_lt k (keyof l q) = false) as Hf.
    { clear -Hq. induction c as [|x c IH]; [done|]. simpl in Hq. destruct (adv_lt k (keyof l x)) eqn:E; [auto|].
      by injection Hq as <-. }
    apply adv_lt_false in Hf. apply cmp_flip_ge. lia.
  - intros [= <-]. assert (adv_lt (keyof l p) (keyof l p) = false) as ->; [|done].
    apply adv_lt_false. rewrite cmp_refl. lia.
Qed.

Lemma SplitByKeyOrPos_spec l cs k pos : repr l cs -> 0 <= pos -> Z.of_nat (length (cs 0%nat)) < 2 ^ 64 ->
  exists r l' cs', SplitByKeyOrPos l k pos = Some (r, l') /\
    split_post l cs (before l k (cs 0%nat) `min` Z.to_nat pos) r l' cs'.
Proof.
  intros Hr Hpos Hlen. unfold SplitByKeyOrPos. destruct (repr_chain l cs Hr) as [-> Hc]. cbn [mbind option_bind].
  pose proof (repr_size _ _ Hr). pose proof (before_le l k (cs 0%nat)) as Hb.
  rewrite walk_key_or_pos_spec by (done || lia || (intros; by eapply repr_keys)).
  cbn [mbind option_bind]. rewrite Z.sub_0_r.
  destruct (cs 0%nat !! before l k (cs 0%nat)) as [q|] eqn:E.
  - destruct (decide (Z.of_nat (before l k (cs 0%nat)) < pos)) as [Hlt|Hge].
    + destruct (Split_spec l cs (keyof l q) Hr) as (r & l' & cs' & -> & Hp).
      exists r, l', cs'. split; [done|]. rewrite <- before_lt_part, (before_key l cs k q) in Hp by done.
      by rewrite Nat.min_l by lia.
    + rewrite Nat.min_r by lia. by apply SplitOnPos_spec.
  - apply lookup_ge_None in E. destruct (SplitOnPos_spec l cs pos Hr Hpos Hlen) as (r & l' & cs' & Hs & Hp).
    exists r, l', cs'. split; [done|]. eapply split_post_n; [..|exact Hp].
    + destruct (decide (before l k (cs 0%nat) <= Z.to_nat pos)%nat).
      * rewrite Nat.min_l by done. by rewrite !take_ge by lia.
      * by rewrite Nat.min_r by lia.
    + destruct (decide (before l k (cs 0%nat) <= Z.to_nat pos)%nat).
      * rewrite Nat.min_l by done. by rewrite !drop_ge by lia.
      * by rewrite Nat.min_r by lia.
Qed.

Lemma SplitByKeyAndPos_spec l cs k pos : repr l cs -> 0 <= pos -> Z.of_nat (length (cs 0%nat)) < 2 ^ 64 ->
  exists r l' cs', SplitByKeyAndPos l k pos = Some (r, l') /\
    split_post l cs (before l k (cs 0%nat) `max` Z.to_nat pos) r l' cs'.
Proof.
  intros Hr Hpos Hlen. unfold SplitByKeyAndPos. destruct (repr_chain l cs Hr) as [-> Hc]. cbn [mbind option_bind].
  pose proof (repr_size _ _ Hr). pose proof (before_le l k (cs 0%nat)) as Hb.
  edestruct (walk_key_and_pos_spec l k (size (heap l)) (cs 0%nat) 0 pos false) as (fk & -> & Hfk);
    [done|lia|done|intros; by eapply repr_keys|].
  cbn [mbind option_bind]. rewrite Z.sub_0_r in *.
  destruct (cs 0%nat !! Z.to_nat pos) as [p|] eqn:E.
  - pose proof (lookup_lt_Some _ _ _ E) as Hlt. rewrite Hfk by lia. simpl. case_bool_decide.
    + rewrite Nat.max_r by lia. pose proof (SplitOnPos_spec l cs pos Hr Hpos Hlen) as Hs. by rewrite E in Hs.
    + destruct (Split_spec l cs k Hr) as (r & l' & cs' & -> & Hp). rewrite Nat.max_l by lia.
      rewrite before_lt_part by done. eauto.
  - exists None, l, cs. split; [done|]. apply split_post_none; [done|]. apply lookup_ge_None in E. lia.
Qed.
End pos.
