(* ===== verification/SkiplistSpec.v ===== *)
(** The skiplist as a sorted sequence: an abstract specification of every
    operation on the list of entries, and the refinement lemmas that the
    pointer code implements it. *)
From S2P Require Import Prelude Slice Random Skiplist SkiplistInv SkiplistInsert SkiplistSplit.

(** * SkiplistRemove: Correctness of [Remove] and [Clear], and of the read-only operations
    [Get], [GetSize], [IsEmpty] and the iterator. *)
Section remove.
Context {K V : Type} `{ComparatorLaws K, !ValueInit K, !ValueInit V}.
Implicit Types (l : skiplist K V) (cs : nat -> list ptr) (k : K) (v : V).

Local Abbreviation pred_lt l cs k := (pred_at l cs (adv_lt k)).

(** Every node is linked at every level below its height.  [Insert], [Remove]
    and [Split] keep this; a position cut through equal keys does not. *)
Definition full l cs : Prop :=
  forall p h i, p ∈ cs 0%nat -> Height l p = Some h -> (i < h)%nat -> p ∈ cs i.

Lemma insert_full l cs k v h l' : repr l cs -> full l cs -> insert_post l cs k v h l' ->
  full l' (inserted l cs k (next_ptr l) h).
Proof.
  intros Hr Hf Hp p h' i Hin Hh Hi. rewrite Height_info, (ip_info _ _ _ _ _ _ Hp) in Hh.
  pose proof (ip_height _ _ _ _ _ _ Hp) as Hhp.
  apply (elem_of_Permutation_proper _ _ _ (inserted_perm l cs k (next_ptr l) h Hr ltac:(lia))) in Hin.
  unfold inserted. destruct (decide (p = next_ptr l)) as [->|Hne].
  - simpl in Hh. injection Hh as <-. rewrite decide_True by done. set_solver.
  - apply elem_of_cons in Hin as [?|Hin]; [done|].
    assert (p ∈ cs i) as Hpi by (eapply Hf; [done|by rewrite Height_info|done]).
    case_decide; [|done]. rewrite (parts l cs k i Hr), elem_of_app in Hpi. rewrite elem_of_app, elem_of_cons. tauto.
Qed.

Lemma repr_mem_height l cs p h i : repr l cs -> (i < MaxHeight l)%nat -> p ∈ cs i -> Height l p = Some h -> (i < h)%nat.
Proof.
  intros Hr Hi Hp Hh. apply Nat.nle_gt. intros Hge.
  pose proof (GetNext_high l p h i Hh Hge) as Hn.
  pose proof (repr_path_after l cs Hr i p Hi ltac:(by right)) as Hpath.
  apply path_head in Hpath. unfold nx in Hpath. congruence.
Qed.

(** The node [Remove] takes out: the first one whose key equals [k] *)
Definition found l cs k : option ptr :=
  match head (ge_part l cs k 0) with
  | Some r => if decide (compare_ (keyof l r) k = 0) then Some r else None
  | None => None
  end.

Lemma sublist_head {A} (c d : list A) (r : A) :
  c `sublist_of` r :: d -> NoDup (r :: d) -> r ∈ c -> exists c', c = r :: c'.
Proof.
  intros Hs Hnd Hin. apply NoDup_cons in Hnd as [Hr _]. apply sublist_cons_r in Hs as [Hs|(c' & -> & _)]; [|eauto].
  exfalso. apply Hr. by eapply elem_of_sublist.
Qed.

Definition removed cs (r : ptr) (i : nat) : list ptr := filter (fun p => p <> r) (cs i).

Lemma filter_ne_notin (r : ptr) (c : list ptr) : r ∉ c -> filter (fun p => p <> r) c = c.
Proof.
  induction c as [|x c IH]; [done|]. rewrite not_elem_of_cons. intros [Hx Hc].
  rewrite filter_cons, decide_True by done. by rewrite IH.
Qed.

Record remove_post l cs (r : ptr) l' : Prop := {
  rp_repr : repr l' (removed cs r);
  rp_full : full l' (removed cs r);
  rp_unlinked : forall h j, Height l r = Some h -> (j < h)%nat -> GetNext l' r j = Some None;
  rp_info : forall q, info l' q = info l q;
  rp_frame : forall q j, q ∉ head_ l :: cs 0%nat -> GetNext l' q j = GetNext l q j;
  rp_MaxHeight : MaxHeight l' = MaxHeight l;
  rp_head : head_ l' = head_ l;
  rp_next_ptr : next_ptr l' = next_ptr l
}.

Section remove_node.
Context l cs k (r : ptr) (h : nat) (c0 : list ptr) l' (Hr : repr l cs) (Hf : full l cs).
Context (Hge : ge_part l cs k 0 = r :: c0) (Hh : Height l r = Some h).
Context (Hheap : forall q, info l' q = info l q).
Context (Hget : forall q j, GetNext l' q j =
  if decide (j < h)%nat then
    if decide (q = r) then Some None else if decide (q = pred_lt l cs k j) then GetNext l r j else GetNext l q j
  else GetNext l q j).

Lemma rm_in : r ∈ cs 0%nat.
Proof. apply (ge_part_sub l cs k). rewrite Hge. left. Qed.

Lemma rm_level i : (i < h)%nat -> exists c, ge_part l cs k i = r :: c /\
  cs i = lt_part l cs k i ++ r :: c /\ removed cs r i = lt_part l cs k i ++ c /\ NoDup (head_ l :: cs i).
Proof.
  intros Hi. pose proof (repr_nodup l cs Hr) as Hnd.
  assert (r ∈ ge_part l cs k i) as Hin.
  { apply list_elem_of_filter. split; [|by eapply Hf, Hi; [apply rm_in|]].
    assert (r ∈ ge_part l cs k 0) as Hx by (rewrite Hge; left). by apply list_elem_of_filter in Hx as [? _]. }
  destruct (sublist_head (ge_part l cs k i) c0 r) as [c Hc]; [| |done|].
  { rewrite <- Hge. apply sublist_filter, (repr_sub l cs Hr). }
  { rewrite <- Hge. eapply sublist_NoDup; [apply (Hnd 0%nat)|]. apply sublist_cons. apply list.sublist_filter. }
  exists c. split; [done|]. pose proof (parts l cs k i Hr) as Hp. rewrite Hc in Hp.
  split; [done|]. split; [|done]. specialize (Hnd i). rewrite Hp in Hnd.
  apply NoDup_cons in Hnd as [_ Hnd]. apply NoDup_app in Hnd as (_ & Hd & Hnd).
  apply NoDup_cons in Hnd as [Hrc _]. unfold removed. rewrite Hp, filter_app, filter_cons, decide_False by tauto.
  rewrite !filter_ne_notin; [done|done|]. intros Hin'. apply (Hd r Hin'). left.
Qed.

Lemma rm_high i : (i < MaxHeight l)%nat -> (h <= i)%nat -> r ∉ cs i.
Proof. intros Hi Hhi Hin. pose proof (repr_mem_height l cs r h i Hr Hi Hin Hh). lia. Qed.

Lemma rm_path i : (i < MaxHeight l)%nat -> path (nx l' i) (head_ l) (removed cs r i).
Proof.
  intros Hi. pose proof (r_path _ _ Hr i Hi) as Hp. destruct (decide (i < h)%nat) as [Hlt|Hge'].
  - destruct (rm_level i Hlt) as (c & Hc & Hcs & -> & Hnd). rewrite Hcs in Hp, Hnd.
    assert (Hrn : r ∉ head_ l :: lt_part l cs k i ++ c).
    { rewrite app_comm_cons in Hnd. apply NoDup_app in Hnd as (_ & Hd & Hnd). apply NoDup_cons in Hnd as [? _].
      rewrite app_comm_cons, elem_of_app. intros [Hin|]; [|done]. apply (Hd r Hin). left. }
    assert (Hpred : pred_lt l cs k i ∈ head_ l :: lt_part l cs k i ++ c).
    { rewrite app_comm_cons, elem_of_app. left. apply last_or_elem. }
    apply (path_remove (nx l i) _ _ _ _ r); unfold nx; try done.
    + change (last_or (head_ l) (lt_part l cs k i)) with (pred_lt l cs k i).
      rewrite Hget, decide_True by done. rewrite decide_False by congruence. by rewrite decide_True.
    + intros q Hq Hne. rewrite Hget, decide_True by done. rewrite decide_False by congruence.
      by rewrite decide_False.
  - unfold removed. rewrite filter_ne_notin by (apply rm_high; lia).
    apply (path_frame (nx l i)); [|done]. intros q _. unfold nx. by rewrite Hget, decide_False.
Qed.

Context (E1 : MaxHeight l' = MaxHeight l) (E2 : max_height_ l' = max_height_ l) (E3 : head_ l' = head_ l).
Context (E4 : next_ptr l' = next_ptr l) (Hh1 : (1 <= h)%nat).
Context (E5 : tail_ l' = if decide (tail_ l = Some r)
  then (if decide (pred_lt l cs k 0 = head_ l) then None else Some (pred_lt l cs k 0)) else tail_ l).

Lemma rm_tail : tail_ l' = last (removed cs r 0).
Proof.
  destruct (rm_level 0 ltac:(lia)) as (c & Hc & Hcs & -> & Hnd). rewrite E5.
  assert (Hpred : pred_lt l cs k 0 = last_or (head_ l) (lt_part l cs k 0)) by done.
  destruct (r_tail _ _ Hr) as [Ht|[Ht _]]; [|rewrite Hcs in Ht; by destruct (lt_part l cs k 0)].
  rewrite Ht, Hcs. rewrite last_app, last_cons, Hpred. rewrite Hcs in Hnd.
  rewrite last_app. destruct (last c) as [y|] eqn:E.
  - rewrite decide_False; [done|]. intros [= ->].
    apply NoDup_cons in Hnd as [_ Hnd]. apply NoDup_app in Hnd as (_ & _ & Hnd). apply NoDup_cons in Hnd as [Hrc _].
    apply Hrc. apply last_Some in E as [c' ->]. set_solver.
  - rewrite decide_True by done. unfold last_or. destruct (last (lt_part l cs k 0)) as [y|] eqn:Ey; simpl.
    + rewrite decide_False; [done|]. intros Ey'. rewrite Ey' in Ey. apply NoDup_cons in Hnd as [Hnd _]. apply Hnd.
      apply last_Some in Ey as [c' ->]. set_solver.
    + by rewrite decide_True.
Qed.

Lemma rm_mem q i : q ∈ removed cs r i <-> q <> r /\ q ∈ cs i.
Proof. unfold removed. by rewrite list_elem_of_filter. Qed.

Lemma rm_Height q : Height l' q = Height l q.
Proof. by rewrite !Height_info, Hheap. Qed.

Lemma rm_repr : repr l' (removed cs r).
Proof.
  split; rewrite ?E1, ?E2, ?E3, ?E4.
  - apply Hr.
  - rewrite rm_Height. apply Hr.
  - intros p [_ Hp]%rm_mem. rewrite rm_Height. by apply (r_nodes _ _ Hr).
  - intros p h' i Hp. rewrite rm_Height. intros Hh' Hi. rewrite Hget.
    assert (is_Some (GetNext l p i)) as Hl.
    { apply (r_links _ _ Hr p h'); [|done|done]. apply elem_of_cons in Hp as [->|[_ Hp]%rm_mem]; [left|by right]. }
    clear E5. repeat case_decide; try done. apply (r_links _ _ Hr r h); [right; apply rm_in|done|done].
  - eapply sublist_NoDup; [apply (r_nodup _ _ Hr)|]. apply sublist_skip, list.sublist_filter.
  - apply rm_path.
  - intros i. apply sublist_filter, (r_sub _ _ Hr).
  - intros i Hi. unfold removed. by rewrite (r_high _ _ Hr).
  - intros p h' i [Hne Hp]%rm_mem. rewrite rm_Height. intros Hh' Hi Hoff. exfalso. apply Hoff, rm_mem.
    split; [done|]. by eapply Hf.
  - apply (StronglySorted_keys l l').
    + intros q _. unfold keyof. by rewrite !GetKey_info, Hheap.
    + eapply StronglySorted_sublist; [apply list.sublist_filter|apply (r_sorted _ _ Hr)].
  - left. apply rm_tail.
  - intros p. rewrite Hheap. apply (r_fresh _ _ Hr).
Qed.

Lemma rm_post : remove_post l cs r l'.
Proof.
  split; try done.
  - apply rm_repr.
  - intros p h' i [Hne Hp]%rm_mem. rewrite rm_Height. intros Hh' Hi. apply rm_mem. split; [done|]. by eapply Hf.
  - intros h' j Hh' Hj. rewrite Hh in Hh'. injection Hh' as <-. by rewrite Hget, !decide_True.
  - intros q j Hq. rewrite Hget. destruct (decide (j < h)%nat); [|done].
    rewrite decide_False by (intros ->; apply Hq; right; apply rm_in).
    rewrite decide_False; [done|]. intros ->. apply Hq. by apply pred_mem_0.
Qed.
End remove_node.

Lemma Remove_spec l cs k : repr l cs -> full l cs ->
  exists l', Remove l k = Some (found l cs k, l') /\
    match found l cs k with Some r => remove_post l cs r l' | None => l' = l end.
Proof.
  intros Hr Hf. pose proof (r_mh _ _ Hr) as Hmh. unfold Remove, found.
  destruct (FindLessOrEqual_spec l cs k (replicate (MaxHeight l) (Some (head_ l))) Hr)
    as (pre & -> & Hlen & Hlow & _); [apply length_replicate|]. cbn [mbind option_bind].
  rewrite (pred_next l cs k 0 Hr) by lia. cbn [mbind option_bind].
  destruct (ge_part l cs k 0) as [|r c0] eqn:Hge; simpl; [by exists l|].
  assert (Hin : r ∈ cs 0%nat) by (apply (ge_part_sub l cs k 0); rewrite Hge; left).
  rewrite (repr_key l cs Hr r) by done. cbn [mbind option_bind].
  destruct (decide (compare_ (keyof l r) k = 0)) as [Hk|Hk].
  2: { rewrite (decide_True (P := _ <> 0)) by done. by exists l. }
  rewrite (decide_False (P := _ <> 0)) by tauto.
  destruct (r_nodes _ _ Hr r Hin) as (h & Hh & Hhb). rewrite Hh. cbn [mbind option_bind].
  assert (Hhm : (h <= max_height_ l)%nat).
  { destruct (decide (h <= max_height_ l)%nat); [done|]. exfalso.
    assert (r ∈ cs (max_height_ l)) as Hx by (eapply Hf; [done|done|lia]).
    rewrite (r_high _ _ Hr) in Hx by lia. by apply elem_of_nil in Hx. }
  destruct (unlink_loop_spec (pred_lt l cs k) h 0 l r pre) as (l1 & -> & Hs & Hg).
  { intros j Hj. split; [apply Hlow; lia|]. split.
    { intros Heq. destruct (rm_level l cs k r h c0 Hr Hf Hge Hh j) as (c & Hc & _); [lia|].
      apply (pred_not_ge l cs k j Hr). rewrite Heq, Hc. left. }
    split; [rewrite (pred_next l cs k j Hr) by lia; eauto|].
    apply (r_links _ _ Hr r h); [by right|done|lia]. }
  cbn [mbind option_bind]. rewrite Hlow by lia. cbn [mjoin option_join mbind option_bind].
  destruct Hs as [Hl1 Hi1]. eexists. split; [done|].
  assert (Hgs : forall q j, GetNext l1 q j = if decide (j < h)%nat then
    if decide (q = r) then Some None else if decide (q = pred_lt l cs k j) then GetNext l r j else GetNext l q j
    else GetNext l q j).
  { intros q j. rewrite Hg. apply decide_ext. lia. }
  assert (Hfld : MaxHeight l1 = MaxHeight l /\ max_height_ l1 = max_height_ l /\ head_ l1 = head_ l /\
    next_ptr l1 = next_ptr l /\ tail_ l1 = tail_ l) by (rewrite Hl1; done).
  destruct Hfld as (F1 & F2 & F3 & F4 & F5). rewrite F3, F5.
  destruct (decide (tail_ l = Some r)) as [Ht|Ht];
    (apply (rm_post l cs k r h c0); try done; [lia|]).
  - by rewrite (decide_True (P := tail_ l = Some r)).
  - by rewrite F5, (decide_False (P := tail_ l = Some r)).
Qed.
End remove.

(** * SkiplistSpec *)
Section spec.
Context {K V : Type} `{ComparatorLaws K, !ValueInit K, !ValueInit V}.
Implicit Types (l : skiplist K V) (cs : nat -> list ptr) (k : K) (v : V) (xs : list (K * V)).

(** ** Abstract operations *)

Fixpoint seq_insert k v xs : list (K * V) :=
  match xs with
  | [] => [(k, v)]
  | x :: xs' => if adv_lt k x.1 then x :: seq_insert k v xs' else (k, v) :: xs
  end.

(** The entries with a key before [k], counted from the front *)
Fixpoint seq_before k xs : nat :=
  match xs with
  | [] => 0
  | x :: xs' => if adv_lt k x.1 then S (seq_before k xs') else 0
  end.

(** [Remove] takes out the first entry with key [k]. *)
Definition seq_found k xs : bool :=
  match xs !! seq_before k xs with Some x => bool_decide (compare_ x.1 k = 0) | None => false end.
Definition seq_remove k xs : list (K * V) :=
  if seq_found k xs then take (seq_before k xs) xs ++ drop (S (seq_before k xs)) xs else xs.

(** [Get] reads the last entry with key [k]; on none it compares with the
    sentinel's default-constructed key. *)
Definition seq_get k xs : option V :=
  let x := default (value_init, value_init) (last (filter (fun x => adv_le k x.1 = true) xs)) in
  if decide (compare_ x.1 k = 0) then Some x.2 else None.

(** ** Representation *)

Definition valof l (p : ptr) : V := default value_init (GetValue l p).
Definition ent l (p : ptr) : K * V := (keyof l p, valof l p).
Definition entries_of l (c : list ptr) : list (K * V) := ent l <$> c.

(** The sentinel holds default-constructed key and value. *)
Definition head_init l : Prop := info l (head_ l) = Some (value_init, value_init, MaxHeight l).
Definition rep l xs : Prop := exists cs, repr l cs /\ head_init l /\ xs = entries_of l (cs 0%nat).
Definition rep_full l xs : Prop := exists cs, repr l cs /\ head_init l /\ full l cs /\ xs = entries_of l (cs 0%nat).
(** A chain of nodes cut off the list, first node [r] *)
Definition detached l (r : option ptr) xs : Prop :=
  exists c, r = head c /\ chain l c /\ (forall q, q ∈ c -> is_Some (info l q)) /\ xs = entries_of l c.

Lemma rep_full_rep l xs : rep_full l xs -> rep l xs.
Proof. intros (cs & ? & ? & _ & ?). by exists cs. Qed.

Lemma ent_info l p : ent l p = match info l p with Some (k, v, _) => (k, v) | None => (value_init, value_init) end.
Proof. unfold ent, keyof, valof. rewrite GetKey_info, GetValue_info. by destruct (info l p) as [[[??]?]|]. Qed.

Lemma entries_of_ext l l' c : (forall q, q ∈ c -> info l' q = info l q) -> entries_of l' c = entries_of l c.
Proof.
  intros Hi. apply list_fmap_ext. intros i q Hq. rewrite !ent_info, Hi; [done|]. by eapply list_elem_of_lookup_2.
Qed.

Lemma seq_before_entries l k c : seq_before k (entries_of l c) = before l k c.
Proof. induction c as [|p c IH]; [done|]. simpl. by rewrite IH. Qed.

Lemma seq_insert_split k v xs :
  seq_insert k v xs = take (seq_before k xs) xs ++ (k, v) :: drop (seq_before k xs) xs.
Proof. induction xs as [|x xs IH]; [done|]. simpl. destruct (adv_lt k x.1); simpl; by rewrite ?IH. Qed.

Lemma length_seq_insert k v xs : length (seq_insert k v xs) = S (length xs).
Proof. induction xs as [|x xs IH]; [done|]. simpl. destruct (adv_lt k x.1); simpl; by rewrite ?IH. Qed.

Lemma entries_parts l cs k : repr l cs ->
  entries_of l (lt_part l cs k 0) = take (seq_before k (entries_of l (cs 0%nat))) (entries_of l (cs 0%nat)) /\
  entries_of l (ge_part l cs k 0) = drop (seq_before k (entries_of l (cs 0%nat))) (entries_of l (cs 0%nat)).
Proof.
  intros Hr. destruct (lt_part_take l cs k Hr) as [Ht Hd].
  rewrite seq_before_entries, (before_lt_part l cs k Hr). unfold entries_of.
  by rewrite <- fmap_take, <- fmap_drop, <- Ht, <- Hd.
Qed.

(** The keys of a represented list are in order. *)
Lemma rep_sorted l xs : rep l xs -> StronglySorted (fun x y => compare_ x.1 y.1 <= 0) xs.
Proof.
  intros (cs & Hr & Hi & ->). pose proof (r_sorted _ _ Hr) as Hs. induction Hs as [|p c Hs IH Hf]; simpl; constructor.
  - done.
  - apply Forall_fmap. eapply Forall_impl; [done|]. done.
Qed.

(** ** Refinement *)

Lemma insert_entries l cs k v h l' : repr l cs -> insert_post l cs k v h l' ->
  entries_of l' (inserted l cs k (next_ptr l) h 0) = seq_insert k v (entries_of l (cs 0%nat)).
Proof.
  intros Hr Hp. pose proof (ip_height _ _ _ _ _ _ Hp). unfold inserted. rewrite decide_True by lia.
  assert (Hx : forall c, (forall q, q ∈ c -> q ∈ cs 0%nat) -> entries_of l' c = entries_of l c).
  { intros c Hc. apply entries_of_ext. intros q Hq. rewrite (ip_info _ _ _ _ _ _ Hp), decide_False; [done|].
    apply (repr_not_fresh l cs); [done|]. right. by apply Hc. }
  unfold entries_of. rewrite fmap_app, fmap_cons. fold (entries_of l' (lt_part l cs k 0)) (entries_of l' (ge_part l cs k 0)).
  rewrite !Hx by (intros q; apply lt_part_sub || apply ge_part_sub).
  rewrite seq_insert_split. destruct (entries_parts l cs k Hr) as [-> ->]. do 2 f_equal.
  by rewrite ent_info, (ip_info _ _ _ _ _ _ Hp), decide_True.
Qed.

Lemma insert_head l cs k v h l' : repr l cs -> head_init l -> insert_post l cs k v h l' -> head_init l'.
Proof.
  intros Hr Hi Hp. unfold head_init. rewrite (ip_head _ _ _ _ _ _ Hp), (ip_MaxHeight _ _ _ _ _ _ Hp).
  rewrite (ip_info _ _ _ _ _ _ Hp), decide_False; [done|]. apply (repr_not_fresh l cs); [done|left].
Qed.

Lemma Insert_rep l xs k v : rep l xs ->
  exists h l', Insert l k v = Some (h, l') /\ rep l' (seq_insert k v xs).
Proof.
  intros (cs & Hr & Hi & ->). destruct (Insert_spec l cs k v Hr) as (h & l' & He & Hp). exists h, l'. split; [done|].
  eexists. split; [apply (ip_repr _ _ _ _ _ _ Hp)|]. split; [by eapply insert_head|]. by rewrite (insert_entries l cs k v h l').
Qed.

Lemma Insert_rep_full l xs k v : rep_full l xs ->
  exists h l', Insert l k v = Some (h, l') /\ rep_full l' (seq_insert k v xs).
Proof.
  intros (cs & Hr & Hi & Hf & ->). destruct (Insert_spec l cs k v Hr) as (h & l' & He & Hp). exists h, l'. split; [done|].
  eexists. split; [apply (ip_repr _ _ _ _ _ _ Hp)|]. split; [by eapply insert_head|]. split; [by eapply insert_full|].
  by rewrite (insert_entries l cs k v h l').
Qed.

Lemma AddToFirst_rep l xs k v : rep l xs ->
  exists b l', AddToFirst l k v = Some (b, l') /\ b = bool_decide (seq_before k xs = 0%nat) /\
    rep l' (if b then seq_insert k v xs else xs).
Proof.
  intros (cs & Hr & Hi & ->). destruct (AddToFirst_spec l cs k v Hr) as (b & l' & He & Hp). exists b, l'. split; [done|].
  rewrite seq_before_entries, (before_lt_part l cs k Hr). destruct b.
  - destruct Hp as (-> & h & Hp). split; [done|]. eexists. split; [apply (ip_repr _ _ _ _ _ _ Hp)|]. split; [by eapply insert_head|].
    by rewrite (insert_entries l cs k v h l').
  - destruct Hp as (Hne & ->). split; [|by exists cs]. symmetry. apply bool_decide_eq_false. by destruct (lt_part _ _ _ _).
Qed.

Lemma repr_drop_info l cs n q : repr l cs -> q ∈ drop n (cs 0%nat) -> is_Some (info l q).
Proof.
  intros Hr Hq. eapply elem_of_sublist in Hq; [|apply sublist_drop].
  destruct (repr_info l cs Hr q Hq) as (?&?&?&->&_). eauto.
Qed.

(** Every cut keeps a prefix and detaches the rest. *)
Lemma split_post_rep l cs n r l' cs' : repr l cs -> head_init l -> split_post l cs n r l' cs' ->
  rep l' (take n (entries_of l (cs 0%nat))) /\ detached l' r (drop n (entries_of l (cs 0%nat))).
Proof.
  intros Hr Hh Hp. pose proof (sp_info _ _ _ _ _ _ Hp) as Hi. unfold entries_of. rewrite <- fmap_take, <- fmap_drop. split.
  - exists cs'. split; [apply Hp|].
    split; [unfold head_init; by rewrite (sp_head _ _ _ _ _ _ Hp), (sp_MaxHeight _ _ _ _ _ _ Hp), Hi|]. rewrite (sp_kept _ _ _ _ _ _ Hp). symmetry. by apply entries_of_ext.
  - exists (drop n (cs 0%nat)). split; [apply Hp|]. split; [apply Hp|].
    split; [intros q Hq; rewrite Hi; by eapply repr_drop_info|]. symmetry. by apply entries_of_ext.
Qed.

Lemma Split_rep l xs k : rep l xs -> exists r l', Split l k = Some (r, l') /\
  rep l' (take (seq_before k xs) xs) /\ detached l' r (drop (seq_before k xs) xs).
Proof.
  intros (cs & Hr & Hi & ->). destruct (Split_spec l cs k Hr) as (r & l' & cs' & Hs & Hp). exists r, l'. split; [done|].
  rewrite seq_before_entries, (before_lt_part l cs k Hr). by eapply split_post_rep.
Qed.

Lemma SplitByPos_rep l xs pos : rep l xs -> 0 <= pos -> Z.of_nat (length xs) < 2 ^ 64 ->
  exists r l', SplitByPos l pos = Some (r, l') /\
    rep l' (take (Z.to_nat pos) xs) /\ detached l' r (drop (Z.to_nat pos) xs).
Proof.
  intros (cs & Hr & Hi & ->) Hpos Hlen. unfold entries_of in Hlen. rewrite length_fmap in Hlen.
  destruct (SplitByPos_spec l cs pos Hr Hpos Hlen) as (r & l' & cs' & Hs & Hp).
  exists r, l'. split; [done|]. by eapply split_post_rep.
Qed.

Lemma SplitByKeyOrPos_rep l xs k pos : rep l xs -> 0 <= pos -> Z.of_nat (length xs) < 2 ^ 64 ->
  exists r l', SplitByKeyOrPos l k pos = Some (r, l') /\
    rep l' (take (seq_before k xs `min` Z.to_nat pos) xs) /\ detached l' r (drop (seq_before k xs `min` Z.to_nat pos) xs).
Proof.
  intros (cs & Hr & Hi & ->) Hpos Hlen. rewrite seq_before_entries. unfold entries_of in Hlen. rewrite length_fmap in Hlen.
  destruct (SplitByKeyOrPos_spec l cs k pos Hr Hpos Hlen) as (r & l' & cs' & Hs & Hp).
  exists r, l'. split; [done|]. by eapply split_post_rep.
Qed.

Lemma SplitByKeyAndPos_rep l xs k pos : rep l xs -> 0 <= pos -> Z.of_nat (length xs) < 2 ^ 64 ->
  exists r l', SplitByKeyAndPos l k pos = Some (r, l') /\
    rep l' (take (seq_before k xs `max` Z.to_nat pos) xs) /\ detached l' r (drop (seq_before k xs `max` Z.to_nat pos) xs).
Proof.
  intros (cs & Hr & Hi & ->) Hpos Hlen. rewrite seq_before_entries. unfold entries_of in Hlen. rewrite length_fmap in Hlen.
  destruct (SplitByKeyAndPos_spec l cs k pos Hr Hpos Hlen) as (r & l' & cs' & Hs & Hp).
  exists r, l'. split; [done|]. by eapply split_post_rep.
Qed.

(** A list whose sentinel has no successor is empty. *)
Lemma cleared_rep l : (1 <= max_height_ l <= MaxHeight l)%nat ->
  info l (head_ l) = Some (value_init, value_init, MaxHeight l) ->
  (forall j, (j < MaxHeight l)%nat -> GetNext l (head_ l) j = Some None) -> tail_ l = None ->
  (forall p, is_Some (info l p) -> (p < next_ptr l)%nat) -> rep_full l [].
Proof.
  intros Hm Hi Hg Ht Hfr. exists (fun _ => []). split; [split|]; try done.
  - by rewrite Height_info, Hi.
  - intros p Hp. by apply elem_of_nil in Hp.
  - intros p h i Hp. apply list_elem_of_singleton in Hp as ->. rewrite Height_info, Hi. intros [= <-] Hlt.
    rewrite Hg by done. eauto.
  - apply NoDup_singleton.
  - intros i Hlt. apply path_nil. by apply Hg.
  - constructor.
  - by left.
  - split; [done|]. split; [|done]. intros p h i Hp. by apply elem_of_nil in Hp.
Qed.

Lemma Skiplist_new_rep (max_height : nat) (branch : Z) : (1 <= max_height)%nat ->
  rep_full (Skiplist_new max_height branch) ([] : list (K * V)).
Proof.
  intros Hm. apply cleared_rep; simpl; try done.
  - intros j Hj. unfold GetNext. simpl. rewrite lookup_singleton_eq. simpl.
    rewrite bool_decide_eq_true_2 by done. simpl. by apply lookup_replicate_2.
  - intros p [x Hp]. unfold info in Hp. simpl in Hp. destruct (decide (p = 0%nat)) as [->|]; [lia|].
    rewrite lookup_singleton_ne in Hp; done.
Qed.

Lemma remove_entries l cs k r l' : repr l cs -> full l cs -> found l cs k = Some r -> remove_post l cs r l' ->
  seq_found k (entries_of l (cs 0%nat)) = true /\
  entries_of l (cs 0%nat) !! seq_before k (entries_of l (cs 0%nat)) = Some (ent l r) /\
  entries_of l' (removed cs r 0) = seq_remove k (entries_of l (cs 0%nat)).
Proof.
  intros Hr Hf Hfd Hp. unfold found in Hfd. destruct (ge_part l cs k 0) as [|r' c] eqn:Hge; [done|]. simpl in Hfd.
  case_decide as Hk; [|done]. injection Hfd as ->.
  assert (exists h, Height l r = Some h /\ (1 <= h)%nat) as (h & Hh & Hh1).
  { destruct (r_nodes _ _ Hr r) as (h & ? & ?); [apply (ge_part_sub l cs k 0); rewrite Hge; left|].
    exists h. split; [done|lia]. }
  destruct (rm_level l cs k r h c Hr Hf Hge Hh 0 ltac:(lia)) as (c' & Hc' & Hcs & Hrm & _).
  rewrite Hge in Hc'. injection Hc' as <-.
  destruct (entries_parts l cs k Hr) as [Ht Hd]. rewrite Hge in Hd.
  assert (Hl : entries_of l (cs 0%nat) !! seq_before k (entries_of l (cs 0%nat)) = Some (ent l r)).
  { rewrite <- (Nat.add_0_r (seq_before _ _)), <- lookup_drop, <- Hd. done. }
  unfold seq_remove. assert (seq_found k (entries_of l (cs 0%nat)) = true) as Hs.
  { unfold seq_found. rewrite Hl. by apply bool_decide_eq_true. }
  rewrite Hs. split; [done|]. split; [done|]. rewrite Hrm, (entries_of_ext l) by (intros; apply Hp).
  unfold entries_of at 1. rewrite fmap_app. fold (entries_of l (lt_part l cs k 0)) (entries_of l c).
  rewrite Ht. f_equal. rewrite <- Nat.add_1_r, <- drop_drop, <- Hd. done.
Qed.

Lemma found_in l cs k r : found l cs k = Some r -> r ∈ cs 0%nat.
Proof.
  unfold found. destruct (ge_part l cs k 0) as [|r' c] eqn:Hge; [done|]. simpl. case_decide; [|done].
  intros [= ->]. apply (ge_part_sub l cs k 0). rewrite Hge. left.
Qed.

Lemma Remove_rep l xs k : rep_full l xs -> exists r l', Remove l k = Some (r, l') /\
  rep_full l' (seq_remove k xs) /\
  if seq_found k xs then exists p, r = Some p /\ Some (ent l' p) = xs !! seq_before k xs /\ is_Some (info l' p) else r = None.
Proof.
  intros (cs & Hr & Hi & Hf & ->). destruct (Remove_spec l cs k Hr Hf) as (l' & Hl & Hp).
  exists (found l cs k), l'. split; [done|]. destruct (found l cs k) as [r|] eqn:E.
  - destruct (remove_entries l cs k r l' Hr Hf E Hp) as (Hs & Hx & He). split.
    + exists (removed cs r). split; [apply Hp|]. split; [|split; [apply Hp|done]]. unfold head_init.
      by rewrite (rp_head _ _ _ _ Hp), (rp_MaxHeight _ _ _ _ Hp), (rp_info _ _ _ _ Hp).
    + rewrite Hs. exists r. split; [done|]. rewrite Hx. split.
      * f_equal. by rewrite !ent_info, (rp_info _ _ _ _ Hp).
      * rewrite (rp_info _ _ _ _ Hp). apply (repr_drop_info l cs 0); [done|]. by eapply found_in.
  - subst l'. assert (Hs : seq_found k (entries_of l (cs 0%nat)) = false).
    { unfold seq_found. rewrite <- (Nat.add_0_r (seq_before _ _)), <- lookup_drop.
      destruct (entries_parts l cs k Hr) as [_ <-]. unfold found in E. destruct (ge_part l cs k 0); [done|].
      simpl in *. apply bool_decide_eq_false. by case_decide. }
    unfold seq_remove. rewrite Hs. split; [|done]. by exists cs.
Qed.

Lemma Get_rep l xs k : rep l xs -> Get l k = Some (seq_get k xs).
Proof.
  intros (cs & Hr & Hi & ->). unfold Get. rewrite (FindEqual_spec l cs k Hr). cbn [mbind option_bind].
  unfold seq_get, entries_of. rewrite filter_fmap.
  set (p := pred_at l cs (adv_le k) 0).
  assert (Hent : default (value_init, value_init) (last (ent l <$> filter (fun x => adv_le k (ent l x).1 = true) (cs 0%nat))) = ent l p).
  { unfold p, pred_at, last_or. rewrite fmap_last.
    cbn [ent fst].
    destruct (last _); [done|]. simpl. by rewrite ent_info, Hi. }
  rewrite Hent. assert (is_Some (info l p)) as [[[k' v'] h'] Hp].
  { pose proof (pred_mem_0 l cs (adv_le k) 0 Hr) as Hin. fold p in Hin.
    apply elem_of_cons in Hin as [E|Hin]; [rewrite E, Hi; eauto|].
    destruct (repr_info l cs Hr p Hin) as (?&?&?&->&_). eauto. }
  rewrite GetKey_info, ent_info, Hp. cbn. rewrite GetValue_info, Hp. by case_decide.
Qed.

(** ** [Clear] *)

Lemma DeleteNode_spec l p : is_Some (info l p) ->
  exists l', DeleteNode l p = Some l' /\ l' = set_heap (heap l') l /\
    (forall q, info l' q = if decide (q = p) then None else info l q) /\
    (forall q j, q <> p -> GetNext l' q j = GetNext l q j).
Proof.
  intros Hp. unfold DeleteNode. unfold info in Hp. destruct (heap l !! p) as [nd|] eqn:E; [|by destruct Hp].
  cbn [mbind option_bind]. eexists. split; [done|]. split; [done|]. split.
  - intros q. unfold info. simpl. case_decide as Hq; [subst; by rewrite lookup_delete_eq|].
    by rewrite lookup_delete_ne by congruence.
  - intros q j Hq. unfold GetNext. simpl. by rewrite lookup_delete_ne by congruence.
Qed.

Lemma set_heap_trans l1 l2 l3 : l2 = set_heap (heap l2) l1 -> l3 = set_heap (heap l3) l2 -> l3 = set_heap (heap l3) l1.
Proof. intros E1 E2. rewrite E2, E1. done. Qed.

Lemma Clear_loop_spec c : forall fuel l cnt, chain l c -> NoDup c -> (length c <= fuel)%nat ->
  (forall q, q ∈ c -> exists h, Height l q = Some h /\ forall j, (j < h)%nat -> is_Some (GetNext l q j)) ->
  in_uint 64 cnt ->
  exists l', Clear_loop fuel l cnt (head c) = Some (u64 (cnt + Z.of_nat (length c)), l') /\
    l' = set_heap (heap l') l /\
    (forall q, info l' q = if decide (q ∈ c) then None else info l q) /\
    (forall q j, q ∉ c -> GetNext l' q j = GetNext l q j).
Proof.
  induction c as [|p c IH]; intros fuel l cnt Hc Hnd Hf Hok Hcnt.
  { exists l. rewrite Z.add_0_r, uwrap_id by done. split; [by destruct fuel|]. split; [by destruct l|].
    split; [|done]. intros q. rewrite decide_False; [done|]. apply not_elem_of_nil. }
  destruct fuel as [|fuel]; [simpl in Hf; lia|]. cbn [Clear_loop head].
  pose proof (chain_cons l p c Hc) as [Hn Hc']. rewrite Hn. cbn [mbind option_bind].
  apply NoDup_cons in Hnd as [Hp Hnd]. destruct (Hok p) as (h & Hh & Hl); [left|].
  destruct (cut_all_spec l p h Hh Hl) as (l1 & -> & [Hs1 Hi1] & Hg1). cbn [mbind option_bind].
  destruct (DeleteNode_spec l1 p) as (l2 & -> & Hs2 & Hi2 & Hg2).
  { rewrite Hi1. rewrite Height_info in Hh. destruct (info l p); eauto. done. }
  cbn [mbind option_bind].
  assert (Hg12 : forall q j, q <> p -> GetNext l2 q j = GetNext l q j).
  { intros q j Hq. rewrite Hg2, Hg1, decide_False by tauto. done. }
  assert (Hi12 : forall q, info l2 q = if decide (q = p) then None else info l q).
  { intros q. by rewrite Hi2, Hi1. }
  destruct (IH fuel l2 (u64 (cnt + 1))) as (l' & -> & Hs' & Hi' & Hg'); [|done|simpl in Hf; lia| | |].
  { apply (chain_frame l); [|done]. intros q Hq. apply Hg12. congruence. }
  { intros q Hq. destruct (Hok q) as (h' & Hh' & Hl'); [by right|]. exists h'.
    assert (q <> p) by congruence. rewrite Height_info, Hi12, decide_False, <- Height_info by done.
    split; [done|]. intros j Hj. rewrite Hg12 by done. by apply Hl'. }
  { apply uwrap_range. lia. }
  exists l'. split; [|split; [|split]].
  - rewrite uwrap_add_l by lia. do 3 f_equal. simpl. lia.
  - eapply set_heap_trans; [|exact Hs']. by eapply set_heap_trans.
  - intros q. rewrite Hi', Hi12. destruct (decide (q = p)) as [->|].
    + rewrite (decide_True (P := p ∈ p :: c)) by left. by case_decide.
    + apply decide_ext. rewrite elem_of_cons. tauto.
  - intros q j [Hq Hqc]%not_elem_of_cons. by rewrite Hg', Hg12.
Qed.

Lemma repr_Height l cs q : repr l cs -> q ∈ head_ l :: cs 0%nat ->
  exists h, Height l q = Some h /\ forall j, (j < h)%nat -> is_Some (GetNext l q j).
Proof. intros Hr (h & Hh & _ & Hl & _)%(repr_node_ok l cs q Hr). eauto. Qed.

(** [Clear] frees exactly the nodes of the list and leaves it as new. *)
Lemma Clear_spec l cs : repr l cs -> head_init l ->
  exists l', Clear l = Some (u64 (Z.of_nat (length (cs 0%nat))), l') /\ rep_full l' [] /\ tail_ l' = None /\
    (forall q, info l' q = if decide (q ∈ cs 0%nat) then None else info l q).
Proof.
  intros Hr Hi. unfold Clear. destruct (repr_chain l cs Hr) as [-> Hc]. cbn [mbind option_bind].
  pose proof (r_nodup _ _ Hr) as Hnd. apply NoDup_cons in Hnd as [Hnh Hnd].
  destruct (cut_all_spec l (head_ l) (MaxHeight l)) as (l1 & -> & [Hs1 Hi1] & Hg1); [apply Hr| |].
  { intros j Hj. apply (r_links _ _ Hr _ (MaxHeight l)); [left|apply Hr|done]. }
  cbn [mbind option_bind].
  assert (Hne : forall q, q ∈ cs 0%nat -> q <> head_ l) by congruence.
  assert (Hsz : size (heap l1) = size (heap l)).
  { rewrite <- !size_dom. f_equal. apply set_eq. intros q. rewrite !elem_of_dom.
    specialize (Hi1 q). unfold info in Hi1. destruct (heap l1 !! q), (heap l !! q); naive_solver. }
  destruct (Clear_loop_spec (cs 0%nat) (size (heap l1)) (set_tail None l1) 0) as (l' & -> & Hs' & Hi' & Hg').
  { eapply chain_frame; [|exact Hc]. intros q Hq. change (GetNext l1 q 0 = GetNext l q 0).
    rewrite Hg1, decide_False; [done|]. intros [-> _]. done. }
  { done. }
  { pose proof (repr_size _ _ Hr). lia. }
  { intros q Hq. destruct (repr_Height l cs q Hr ltac:(by right)) as (h & Hh & Hl). exists h.
    change (Height (set_tail None l1) q) with (Height l1 q). rewrite Height_info, Hi1, <- Height_info. split; [done|].
    intros j Hj. change (is_Some (GetNext l1 q j)). rewrite Hg1. case_decide; eauto. }
  { unfold in_uint. lia. }
  exists l'. split; [by rewrite Z.add_0_l|].
  assert (Hinfo : forall q, info l' q = if decide (q ∈ cs 0%nat) then None else info l q).
  { intros q. rewrite Hi'. change (info (set_tail None l1) q) with (info l1 q). by rewrite Hi1. }
  assert (MaxHeight l' = MaxHeight l /\ max_height_ l' = max_height_ l /\ head_ l' = head_ l /\
    next_ptr l' = next_ptr l /\ tail_ l' = None) as (E1 & E2 & E3 & E4 & E5).
  { rewrite Hs'. simpl. rewrite Hs1. done. }
  split; [|done]. apply cleared_rep; rewrite ?E1, ?E2, ?E3, ?E4; try done.
  - apply Hr.
  - rewrite Hinfo, decide_False; done.
  - intros j Hj. rewrite Hg' by done. change (GetNext l1 (head_ l) j = Some None). by rewrite Hg1, decide_True.
  - intros p. rewrite Hinfo. case_decide; [by intros []|]. apply (r_fresh _ _ Hr).
Qed.

(** ** Reading *)

Lemma IsEmpty_rep l xs : rep l xs -> IsEmpty l = Some (bool_decide (xs = [])).
Proof.
  intros (cs & Hr & _ & ->). unfold IsEmpty. destruct (repr_chain l cs Hr) as [-> _]. cbn [mbind option_bind].
  by destruct (cs 0%nat).
Qed.

Lemma GetSize_loop_spec l c : forall fuel cnt, chain l c -> (length c <= fuel)%nat -> in_uint 32 cnt ->
  GetSize_loop fuel l cnt (head c) = Some (u32 (cnt + Z.of_nat (length c))).
Proof.
  induction c as [|p c IH]; intros fuel cnt Hc Hf Hcnt.
  { rewrite Z.add_0_r, uwrap_id by done. by destruct fuel. }
  destruct fuel as [|fuel]; [simpl in Hf; lia|]. cbn [GetSize_loop head].
  pose proof (chain_cons l p c Hc) as [Hn Hc']. rewrite Hn. cbn [mbind option_bind].
  destruct c as [|q c]; [done|]. cbn [head]. rewrite (IH fuel) by (done || (simpl in *; lia) || (apply uwrap_range; lia)).
  rewrite uwrap_add_l by lia. do 2 f_equal. simpl. lia.
Qed.

Lemma GetSize_rep l xs : rep l xs -> GetSize l = Some (u32 (Z.of_nat (length xs))).
Proof.
  intros (cs & Hr & _ & ->). unfold GetSize. destruct (repr_chain l cs Hr) as [-> Hc]. cbn [mbind option_bind].
  pose proof (repr_size _ _ Hr). rewrite GetSize_loop_spec; [|done|lia|by unfold in_uint].
  rewrite Z.add_0_l. unfold entries_of. by rewrite length_fmap.
Qed.

(** The loop [while (it->Valid()) { ...GetKey(), GetValue()...; it->Next(); }] *)
Fixpoint it_collect (fuel : nat) l (it : iterator) : option (list (K * V)) :=
  if it_Valid it then
    match fuel with
    | O => None
    | S fuel' =>
        k ← it_GetKey l it;
        v ← it_GetValue l it;
        it' ← it_Next l it;
        rest ← it_collect fuel' l it';
        Some ((k, v) :: rest)
    end
  else Some [].

Lemma it_collect_spec l c : forall fuel, chain l c -> (length c <= fuel)%nat -> (forall q, q ∈ c -> is_Some (info l q)) ->
  it_collect fuel l (head c) = Some (entries_of l c).
Proof.
  induction c as [|p c IH]; intros fuel Hc Hf Hi; [by destruct fuel|].
  destruct fuel as [|fuel]; [simpl in Hf; lia|]. cbn [it_collect head it_Valid].
  destruct (Hi p) as [[[k v] h] Hp]; [left|]. pose proof (chain_cons l p c Hc) as [Hn Hc'].
  unfold it_GetKey, it_GetValue, it_Next. cbn. rewrite GetKey_info, GetValue_info, Hp, Hn. cbn.
  rewrite IH by (done || (simpl in *; lia) || (intros; apply Hi; by right)). cbn. by rewrite ent_info, Hp.
Qed.

Lemma repr_collect l cs n : repr l cs ->
  it_collect (size (heap l)) l (head (drop n (cs 0%nat))) = Some (drop n (entries_of l (cs 0%nat))).
Proof.
  intros Hr. pose proof (repr_size _ _ Hr). destruct (repr_chain l cs Hr) as [_ Hc].
  rewrite it_collect_spec; [by unfold entries_of; rewrite fmap_drop|by apply chain_drop|rewrite length_drop; lia|].
  intros q. by apply repr_drop_info.
Qed.

Lemma rep_size l xs : rep l xs -> (length xs < size (heap l))%nat.
Proof. intros (cs & Hr & _ & ->). unfold entries_of. rewrite length_fmap. by apply repr_size. Qed.

Lemma detached_collect l r xs fuel : detached l r xs -> (length xs <= fuel)%nat -> it_collect fuel l r = Some xs.
Proof.
  intros (c & -> & Hc & Hi & ->). unfold entries_of at 1. rewrite length_fmap. intros Hf. by apply it_collect_spec.
Qed.

Lemma Clear_rep l xs : rep l xs -> exists l', Clear l = Some (u64 (Z.of_nat (length xs)), l') /\ rep_full l' [].
Proof.
  intros (cs & Hr & Hi & ->). destruct (Clear_spec l cs Hr Hi) as (l' & -> & Hrep & _).
  exists l'. unfold entries_of. by rewrite length_fmap.
Qed.

Lemma it_SeekToFirst_rep l xs : rep l xs ->
  exists it, it_SeekToFirst l = Some it /\ it_collect (size (heap l)) l it = Some xs.
Proof.
  intros (cs & Hr & _ & ->). exists (head (cs 0%nat)). split; [apply (repr_chain l cs Hr)|].
  apply (repr_collect l cs 0 Hr).
Qed.

Lemma it_Seek_rep l xs k : rep l xs ->
  exists it, it_Seek l k = Some it /\ it_collect (size (heap l)) l it = Some (drop (seq_before k xs) xs).
Proof.
  intros (cs & Hr & _ & ->). pose proof (r_mh _ _ Hr). exists (head (ge_part l cs k 0)). split.
  - unfold it_Seek. rewrite (FindLessThan_spec l cs k Hr). cbn. apply (pred_next l cs k 0 Hr). lia.
  - destruct (lt_part_take l cs k Hr) as [_ ->]. rewrite seq_before_entries, (before_lt_part l cs k Hr).
    by apply repr_collect.
Qed.

(** [SeekToLast] on a non-empty list stands on the last entry. *)
Lemma it_SeekToLast_rep l xs : rep l xs -> xs <> [] ->
  exists p, it_SeekToLast l = Some p /\ last xs = Some (ent l p) /\ is_Some (info l p).
Proof.
  intros (cs & Hr & _ & ->) Hne. destruct (r_tail _ _ Hr) as [Ht|[E _]]; [|by rewrite E in Hne].
  unfold it_SeekToLast, GetLast. rewrite Ht. destruct (last (cs 0%nat)) as [p|] eqn:E.
  - exists p. split; [done|]. unfold entries_of. rewrite fmap_last, E. split; [done|].
    apply last_Some in E as [c E]. destruct (repr_info l cs Hr p) as (?&?&?&->&_); [|eauto].
    rewrite E. set_solver.
  - apply last_None in E. by rewrite E in Hne.
Qed.
End spec.
