(* ===== verification/SkiplistNodes.v ===== *)
(** The skiplist with its node addresses in view, for clients that keep
    pointers to nodes: an owner of a node removed or cut off the list reads
    it, walks it and deletes it later ([Segment]).

    [nrep l c xs]: the bottom list of [l] is the nodes [c], which carry the
    keys, values and heights [xs]. *)
From S2P Require Import Prelude Slice Random Skiplist SkiplistInv SkiplistInsert SkiplistSplit SkiplistSpec.

(** [x] at position [n] *)
Definition ins_at {A} (n : nat) (x : A) (l : list A) : list A := take n l ++ x :: drop n l.

Lemma ins_at_perm {A} n (x : A) l : ins_at n x l ≡ₚ x :: l.
Proof. unfold ins_at. rewrite <- Permutation_middle. by rewrite take_drop. Qed.
Lemma fmap_ins_at {A B} (f : A -> B) n x l : f <$> ins_at n x l = ins_at n (f x) (f <$> l).
Proof. unfold ins_at. by rewrite fmap_app, fmap_cons, fmap_take, fmap_drop. Qed.
Lemma elem_of_ins_at {A} n (x y : A) l : y ∈ ins_at n x l <-> y = x \/ y ∈ l.
Proof. by rewrite ins_at_perm, elem_of_cons. Qed.

Lemma Forall2_elem {A B} (P Q : A -> B -> Prop) l k :
  Forall2 P l k -> (forall x y, x ∈ l -> P x y -> Q x y) -> Forall2 Q l k.
Proof.
  induction 1 as [|x y l k Hxy Hl IH]; intros HPQ; constructor.
  - apply HPQ; [left|done].
  - apply IH. intros x' y' Hx. apply HPQ. by right.
Qed.

Lemma StronglySorted_elem {A} (R S : A -> A -> Prop) l :
  (forall x y, x ∈ l -> y ∈ l -> R x y -> S x y) -> StronglySorted R l -> StronglySorted S l.
Proof.
  intros HRS Hs. induction Hs as [|x l Hs IH Hx]; [constructor|]. constructor.
  - apply IH. intros y z Hy Hz. apply HRS; by right.
  - rewrite Forall_forall in Hx |- *. intros y Hy. apply HRS; [left|by right|by apply Hx].
Qed.

Section nodes.
Context {K V : Type} `{ComparatorLaws K, !ValueInit K, !ValueInit V}.
Implicit Types (l : skiplist K V) (c : list ptr) (k : K) (v : V) (xs : list (K * V * nat)).

Definition nodes l c xs : Prop := Forall2 (fun q x => info l q = Some x) c xs.
Definition nrep l c xs : Prop := exists cs, repr l cs /\ head_init l /\ cs 0%nat = c /\ nodes l c xs.
Definition nrep_full l c xs : Prop :=
  exists cs, repr l cs /\ head_init l /\ full l cs /\ cs 0%nat = c /\ nodes l c xs.

(** What an update leaves in place *)
Record kept l l' : Prop := {
  kp_head : head_ l' = head_ l;
  kp_MaxHeight : MaxHeight l' = MaxHeight l
}.

Lemma nrep_full_nrep l c xs : nrep_full l c xs -> nrep l c xs.
Proof. intros (cs & ? & ? & ? & ? & ?). by exists cs. Qed.

Lemma nodes_entries l c xs : nodes l c xs -> entries_of l c = fst <$> xs.
Proof.
  induction 1 as [|q [[k v] h] c xs Hq _ IH]; [done|]. unfold entries_of in *. rewrite !fmap_cons, <- IH, ent_info, Hq. done.
Qed.

Lemma nrep_rep l c xs : nrep l c xs -> rep l (fst <$> xs).
Proof. intros (cs & Hr & Hi & <- & Hn). exists cs. by rewrite (nodes_entries l (cs 0%nat) xs). Qed.

Lemma nodes_ext l l' c xs : (forall q, q ∈ c -> info l' q = info l q) -> nodes l c xs -> nodes l' c xs.
Proof.
  intros Hi Hn. induction Hn as [|q x c xs Hq Hn IH]; constructor.
  - rewrite Hi by left. done.
  - apply IH. intros. apply Hi. by right.
Qed.

Lemma nodes_ins l l' c xs k v h n p : nodes l c xs -> p ∉ c -> info l' p = Some (k, v, h) ->
  (forall q, q <> p -> info l' q = info l q) -> nodes l' (ins_at n p c) (ins_at n (k, v, h) xs).
Proof.
  intros Hn Hp Hx Hi. assert (Hn' : nodes l' c xs) by (eapply nodes_ext; [|done]; intros; apply Hi; congruence).
  apply Forall2_app; [by apply Forall2_take|]. constructor; [done|]. by apply Forall2_drop.
Qed.

(** ** Facts of a represented list *)

Lemma nrep_length l c xs : nrep l c xs -> length c = length xs.
Proof. intros (cs & _ & _ & _ & Hn). by eapply Forall2_length. Qed.
Lemma nrep_chain l c xs : nrep l c xs -> it_SeekToFirst l = Some (head c) /\ chain l c.
Proof. intros (cs & Hr & _ & <- & _). apply (repr_chain l cs Hr). Qed.
Lemma nrep_size l c xs : nrep l c xs -> (length c < size (heap l))%nat.
Proof. intros (cs & Hr & _ & <- & _). by apply repr_size. Qed.
Lemma nrep_NoDup l c xs : nrep l c xs -> NoDup (head_ l :: c).
Proof. intros (cs & Hr & _ & <- & _). apply Hr. Qed.
Lemma nrep_nodes l c xs : nrep l c xs -> nodes l c xs.
Proof. by intros (cs & _ & _ & _ & ?). Qed.
Lemma rep_nrep l ys : rep l ys -> exists c xs, nrep l c xs /\ fst <$> xs = ys.
Proof.
  intros (cs & Hr & Hi & ->). assert (Hx : exists xs, nodes l (cs 0%nat) xs).
  { assert (Hall : Forall (fun q => exists x, info l q = Some x) (cs 0%nat)); [|by apply Forall_exists_Forall2_l in Hall as (xs & ?); exists xs].
    apply Forall_forall. intros q Hq. destruct (repr_info l cs Hr q Hq) as (? & ? & ? & -> & _). eauto. }
  destruct Hx as (xs & Hx). exists (cs 0%nat), xs. split; [by exists cs|]. symmetry. by apply nodes_entries.
Qed.
(** The nodes of a heap tell its size. *)
Lemma info_size l l' : (forall q, info l' q = info l q) -> size (heap l') = size (heap l).
Proof.
  intros Hi. rewrite <- !size_dom. f_equal. apply set_eq. intros q. rewrite !elem_of_dom.
  specialize (Hi q). unfold info in Hi. destruct (heap l' !! q), (heap l !! q); naive_solver.
Qed.
Lemma nrep_fresh l c xs p : nrep l c xs -> is_Some (info l p) -> (p < next_ptr l)%nat.
Proof. intros (cs & Hr & _). apply Hr. Qed.
Lemma nrep_head l c xs : nrep l c xs -> info l (head_ l) = Some (value_init, value_init, MaxHeight l).
Proof. by intros (cs & _ & ? & _). Qed.
Lemma nrep_sorted l c xs : nrep l c xs -> StronglySorted (fun x y => compare_ x.1.1 y.1.1 <= 0) xs.
Proof.
  intros Hn%nrep_rep%rep_sorted. revert Hn. induction xs as [|x xs IH]; intros Hs; [constructor|].
  apply StronglySorted_inv in Hs as [Hs Hx]. constructor; [by apply IH|]. by apply (Forall_fmap fst) in Hx.
Qed.
Lemma nrep_MaxHeight l c xs : nrep l c xs -> (1 <= MaxHeight l)%nat.
Proof. intros (cs & Hr & _). pose proof (r_mh _ _ Hr). lia. Qed.

(** [GetLast] of a non-empty list *)
Lemma nrep_last l c xs : nrep l c xs -> xs <> [] ->
  exists p x, GetLast l = Some p /\ last xs = Some x /\ info l p = Some x.
Proof.
  intros (cs & Hr & _ & <- & Hn) Hne. destruct (r_tail _ _ Hr) as [Ht|[E _]].
  2:{ rewrite E in Hn. by apply Forall2_nil_inv_l in Hn as ->. }
  destruct (last xs) as [x|] eqn:E; [|by apply last_None in E].
  apply last_Some in E as [xs' ->]. unfold nodes in Hn. apply Forall2_app_inv_r in Hn as (c1 & c2 & _ & Hc & Hcs).
  inversion Hc as [|q y c2' ys' Hq Hnil]; subst. inversion Hnil; subst. exists q, x. split; [|done].
  unfold GetLast. by rewrite Ht, Hcs, last_snoc.
Qed.

(** ** Construction and insertion *)

Lemma Skiplist_new_nrep (max_height : nat) (branch : Z) : (1 <= max_height)%nat ->
  nrep_full (Skiplist_new max_height branch : skiplist K V) [] [].
Proof.
  intros Hm. destruct (Skiplist_new_rep (K := K) (V := V) max_height branch Hm) as (cs & Hr & Hi & Hf & E).
  assert (cs 0%nat = []) as Hc by (by destruct (cs 0%nat)). exists cs. split; [done|]. split; [done|]. split; [done|]. split; [done|]. constructor.
Qed.

Section insert.
Context l c xs k v (n := seq_before k (fst <$> xs)).

(** What an insertion does to the nodes *)
Record inserted_node (h : nat) l' : Prop := {
  in_height : (1 <= h <= MaxHeight l)%nat;
  in_info : forall q, info l' q = if decide (q = next_ptr l) then Some (k, v, h) else info l q;
  in_kept : kept l l';
  in_next : next_ptr l' = S (next_ptr l)
}.

Lemma insert_nodes cs h l' : repr l cs -> cs 0%nat = c -> nodes l c xs -> insert_post l cs k v h l' ->
  inserted l cs k (next_ptr l) h 0 = ins_at n (next_ptr l) c /\ nodes l' (ins_at n (next_ptr l) c) (ins_at n (k, v, h) xs) /\
  inserted_node h l'.
Proof.
  intros Hr Hc Hn Hp. pose proof (ip_height _ _ _ _ _ _ Hp). split; [|split].
  - unfold inserted, ins_at. rewrite decide_True by lia. destruct (lt_part_take l cs k Hr) as [Ht Hd].
    assert (E : length (lt_part l cs k 0) = n).
    { unfold n. by rewrite <- (nodes_entries _ _ _ Hn), <- Hc, seq_before_entries, (before_lt_part l cs k Hr). }
    rewrite E, Hc in Ht, Hd. by rewrite Ht, Hd.
  - eapply nodes_ins; [done| | |].
    + intros Hin. apply (repr_not_fresh l cs (next_ptr l) Hr); [right; by rewrite Hc|done].
    + by rewrite (ip_info _ _ _ _ _ _ Hp), decide_True.
    + intros q Hq. by rewrite (ip_info _ _ _ _ _ _ Hp), decide_False.
  - split; [apply Hp|apply Hp|split; apply Hp|apply Hp].
Qed.

Lemma Insert_nrep : nrep l c xs ->
  exists h l', Insert l k v = Some (h, l') /\ nrep l' (ins_at n (next_ptr l) c) (ins_at n (k, v, h) xs) /\ inserted_node h l'.
Proof.
  intros (cs & Hr & Hi & Hc & Hn). destruct (Insert_spec l cs k v Hr) as (h & l' & He & Hp). exists h, l'. split; [done|].
  destruct (insert_nodes cs h l' Hr Hc Hn Hp) as (E & Hn' & Hin). split; [|done].
  eexists. split; [apply (ip_repr _ _ _ _ _ _ Hp)|]. split; [by eapply insert_head|]. by rewrite E.
Qed.

Lemma Insert_nrep_full : nrep_full l c xs ->
  exists h l', Insert l k v = Some (h, l') /\ nrep_full l' (ins_at n (next_ptr l) c) (ins_at n (k, v, h) xs) /\ inserted_node h l'.
Proof.
  intros (cs & Hr & Hi & Hf & Hc & Hn). destruct (Insert_spec l cs k v Hr) as (h & l' & He & Hp). exists h, l'. split; [done|].
  destruct (insert_nodes cs h l' Hr Hc Hn Hp) as (E & Hn' & Hin). split; [|done].
  eexists. split; [apply (ip_repr _ _ _ _ _ _ Hp)|]. split; [by eapply insert_head|]. split; [by eapply insert_full|]. by rewrite E.
Qed.
End insert.

(** ** Cuts *)

(** The call kept the first [n] nodes and handed back the rest as a chain. *)
Definition cut_at l c xs (n : nat) (res : option (option ptr * skiplist K V)) : Prop :=
  exists r l', res = Some (r, l') /\ nrep l' (take n c) (take n xs) /\ r = head (drop n c) /\ chain l' (drop n c) /\
    (forall q, info l' q = info l q) /\ kept l l' /\ next_ptr l' = next_ptr l.

Lemma split_post_cut l cs c xs n r l' cs' : head_init l -> cs 0%nat = c -> nodes l c xs ->
  split_post l cs n r l' cs' -> cut_at l c xs n (Some (r, l')).
Proof.
  intros Hh <- Hn Hp. pose proof (sp_info _ _ _ _ _ _ Hp) as Hi. exists r, l'. split; [done|]. split; [|split; [apply Hp|split; [apply Hp|]]].
  - exists cs'. split; [apply Hp|].
    split; [unfold head_init; by rewrite (sp_head _ _ _ _ _ _ Hp), (sp_MaxHeight _ _ _ _ _ _ Hp), Hi|].
    split; [apply Hp|]. eapply nodes_ext; [intros q _; apply Hi|]. by apply Forall2_take.
  - split; [done|]. split; [split; apply Hp|apply Hp].
Qed.

Lemma Split_cut l c xs k : nrep l c xs -> cut_at l c xs (seq_before k (fst <$> xs)) (Split l k).
Proof.
  intros (cs & Hr & Hi & Hc & Hn). destruct (Split_spec l cs k Hr) as (r & l' & cs' & -> & Hp).
  rewrite <- (nodes_entries _ _ _ Hn), <- Hc, seq_before_entries, (before_lt_part l cs k Hr), Hc. by eapply split_post_cut.
Qed.

Lemma SplitByPos_cut l c xs pos : nrep l c xs -> 0 <= pos -> Z.of_nat (length xs) < 2 ^ 64 ->
  cut_at l c xs (Z.to_nat pos) (SplitByPos l pos).
Proof.
  intros (cs & Hr & Hi & Hc & Hn) Hpos Hlen. pose proof (Forall2_length _ _ _ Hn).
  destruct (SplitByPos_spec l cs pos Hr Hpos) as (r & l' & cs' & -> & Hp); [rewrite Hc; lia|]. by eapply split_post_cut.
Qed.

Lemma SplitByKeyOrPos_cut l c xs k pos : nrep l c xs -> 0 <= pos -> Z.of_nat (length xs) < 2 ^ 64 ->
  cut_at l c xs (seq_before k (fst <$> xs) `min` Z.to_nat pos) (SplitByKeyOrPos l k pos).
Proof.
  intros (cs & Hr & Hi & Hc & Hn) Hpos Hlen. pose proof (Forall2_length _ _ _ Hn).
  destruct (SplitByKeyOrPos_spec l cs k pos Hr Hpos) as (r & l' & cs' & -> & Hp); [rewrite Hc; lia|].
  rewrite <- (nodes_entries _ _ _ Hn), <- Hc, seq_before_entries, Hc. rewrite Hc in Hp. by eapply split_post_cut.
Qed.

Lemma SplitByKeyAndPos_cut l c xs k pos : nrep l c xs -> 0 <= pos -> Z.of_nat (length xs) < 2 ^ 64 ->
  cut_at l c xs (seq_before k (fst <$> xs) `max` Z.to_nat pos) (SplitByKeyAndPos l k pos).
Proof.
  intros (cs & Hr & Hi & Hc & Hn) Hpos Hlen. pose proof (Forall2_length _ _ _ Hn).
  destruct (SplitByKeyAndPos_spec l cs k pos Hr Hpos) as (r & l' & cs' & -> & Hp); [rewrite Hc; lia|].
  rewrite <- (nodes_entries _ _ _ Hn), <- Hc, seq_before_entries, Hc. rewrite Hc in Hp. by eapply split_post_cut.
Qed.

(** ** Removal *)

Lemma filter_ne_middle (a b : list ptr) q : q ∉ a -> q ∉ b -> filter (fun p => p <> q) (a ++ q :: b) = a ++ b.
Proof.
  intros Ha Hb. rewrite filter_app, filter_cons_False by tauto. by rewrite !filter_ne_notin.
Qed.

Lemma found_middle l cs k a q b xs x : repr l cs -> cs 0%nat = a ++ q :: b -> nodes l (a ++ q :: b) xs ->
  seq_before k (fst <$> xs) = length a -> info l q = Some x -> compare_ x.1.1 k = 0 -> found l cs k = Some q.
Proof.
  intros Hr Hc Hn Hb Hq Hk. unfold found. destruct (lt_part_take l cs k Hr) as [_ ->].
  rewrite <- (before_lt_part l cs k Hr), <- seq_before_entries, Hc, (nodes_entries _ _ _ Hn), Hb, drop_app_length.
  cbn [head]. unfold keyof. rewrite GetKey_info, Hq. cbn. by rewrite decide_True.
Qed.

(** The node [q] is the first with key [k]. *)
Lemma Remove_found l a q b xs k x : nrep_full l (a ++ q :: b) xs ->
  seq_before k (fst <$> xs) = length a -> info l q = Some x -> compare_ x.1.1 k = 0 ->
  exists l', Remove l k = Some (Some q, l') /\
    nrep_full l' (a ++ b) (take (length a) xs ++ drop (S (length a)) xs) /\
    (forall p, info l' p = info l p) /\ kept l l' /\ next_ptr l' = next_ptr l /\ GetNext l' q 0 = Some None.
Proof.
  intros (cs & Hr & Hi & Hf & Hc & Hn) Hb Hq Hk. pose proof (found_middle l cs k a q b xs x Hr Hc Hn Hb Hq Hk) as Hfd.
  destruct (Remove_spec l cs k Hr Hf) as (l' & Hl & Hp). rewrite Hfd in Hl, Hp. exists l'. split; [done|].
  pose proof (r_nodup _ _ Hr) as Hnd. rewrite Hc in Hnd. apply NoDup_cons in Hnd as [_ Hnd].
  apply NoDup_app in Hnd as (Ha & Hab & [Hqb Hnb]%NoDup_cons).
  assert (Hrm : removed cs q 0 = a ++ b).
  { unfold removed. rewrite Hc. apply filter_ne_middle; [|done]. intros Hin. apply (Hab q Hin). left. }
  split; [|split; [apply Hp|split; [split; apply Hp|split; [apply Hp|]]]].
  - exists (removed cs q). split; [apply Hp|]. split; [unfold head_init; by rewrite (rp_head _ _ _ _ Hp), (rp_MaxHeight _ _ _ _ Hp), (rp_info _ _ _ _ Hp)|].
    split; [apply Hp|]. split; [done|]. eapply nodes_ext; [intros; apply Hp|]. apply Forall2_app.
    + rewrite <- (take_app_length a (q :: b)) at 1. by apply Forall2_take.
    + apply (Forall2_drop _ _ _ (S (length a))) in Hn. by rewrite cons_middle, app_assoc, drop_app_length' in Hn
        by (rewrite length_app; simpl; lia).
  - destruct (r_nodes _ _ Hr q) as (h & Hh & ?); [rewrite Hc; set_solver|]. apply (rp_unlinked _ _ _ _ Hp h); [done|lia].
Qed.

Lemma Remove_absent l c xs k : nrep_full l c xs -> seq_found k (fst <$> xs) = false -> Remove l k = Some (None, l).
Proof.
  intros (cs & Hr & Hi & Hf & Hc & Hn) Hs. destruct (Remove_spec l cs k Hr Hf) as (l' & Hl & Hp).
  destruct (found l cs k) as [r|] eqn:E; [|by subst].
  destruct (remove_entries l cs k r l' Hr Hf E Hp) as (Hs' & _). rewrite Hc, (nodes_entries _ _ _ Hn) in Hs'. congruence.
Qed.

(** ** Deleting a node that is no longer linked *)

Lemma repr_frame l l' cs : repr l cs -> kept l l' -> max_height_ l' = max_height_ l -> tail_ l' = tail_ l -> next_ptr l' = next_ptr l ->
  (forall q, q ∈ head_ l :: cs 0%nat -> info l' q = info l q /\ forall j, GetNext l' q j = GetNext l q j) ->
  (forall q, is_Some (info l' q) -> is_Some (info l q)) -> repr l' cs.
Proof.
  intros Hr [E1 E2] E3 E4 E5 Hq Hs.
  assert (HH : forall q, q ∈ head_ l :: cs 0%nat -> Height l' q = Height l q).
  { intros q Hin. rewrite !Height_info. by rewrite (proj1 (Hq q Hin)). }
  split; rewrite ?E1, ?E2, ?E3, ?E4, ?E5; try apply Hr.
  - rewrite HH by left. apply Hr.
  - intros p Hp. rewrite HH by (by right). by apply Hr.
  - intros p h i Hp. rewrite HH by done. intros Hh Hi. rewrite (proj2 (Hq p Hp)). by eapply Hr.
  - intros i Hi. eapply path_frame; [|by apply Hr]. intros q Hin. unfold nx. apply Hq.
    apply elem_of_cons in Hin as [->|Hin]; [left|right]. eapply elem_of_sublist; [done|]. by eapply repr_sub.
  - intros p h i Hp. rewrite HH by (by right). intros Hh Hi Hn. rewrite (proj2 (Hq p ltac:(by right))). by eapply Hr.
  - eapply StronglySorted_elem; [|apply Hr]. intros x y Hx Hy. unfold key_le, keyof. rewrite !GetKey_info.
    by rewrite (proj1 (Hq x ltac:(by right))), (proj1 (Hq y ltac:(by right))).
  - intros p Hp. apply Hr. by apply Hs.
Qed.

(** What deleting the node [p] leaves *)
Record deleted_node l (p : ptr) l' : Prop := {
  dn_kept : kept l l';
  dn_next : next_ptr l' = next_ptr l;
  dn_info : forall q, info l' q = if decide (q = p) then None else info l q;
  dn_links : forall q j, q <> p -> GetNext l' q j = GetNext l q j
}.

Lemma DeleteNode_repr l cs xs p : repr l cs -> head_init l -> nodes l (cs 0%nat) xs ->
  p ∉ head_ l :: cs 0%nat -> is_Some (info l p) ->
  exists l', DeleteNode l p = Some l' /\ repr l' cs /\ head_init l' /\ nodes l' (cs 0%nat) xs /\ deleted_node l p l'.
Proof.
  intros Hr Hi Hn Hp Hs. destruct (DeleteNode_spec l p Hs) as (l' & Hd & Hl & Hin & Hg).
  exists l'. split; [done|]. assert (Hk : kept l l') by (rewrite Hl; by split).
  split; [|split; [|split; [|split; [done|by rewrite Hl|done|done]]]].
  - apply (repr_frame l); try done; try (by rewrite Hl).
    + intros q Hq. assert (q <> p) by congruence. rewrite Hin, decide_False by done. split; [done|].
      intros j. by apply Hg.
    + intros q. rewrite Hin. by case_decide; [intros []|].
  - unfold head_init. rewrite (kp_head _ _ Hk), (kp_MaxHeight _ _ Hk), Hin, decide_False; [done|]. intros E. apply Hp. rewrite E. left.
  - eapply nodes_ext; [|done]. intros q Hq. rewrite Hin, decide_False; [done|]. intros ->. apply Hp. by right.
Qed.

Lemma DeleteNode_nrep l c xs p : nrep l c xs -> p ∉ head_ l :: c -> is_Some (info l p) ->
  exists l', DeleteNode l p = Some l' /\ nrep l' c xs /\ deleted_node l p l'.
Proof.
  intros (cs & Hr & Hi & <- & Hn) Hp Hs. destruct (DeleteNode_repr l cs xs p) as (l' & ? & ? & ? & ? & ?); try done.
  exists l'. split; [done|]. split; [|done]. by exists cs.
Qed.

Lemma DeleteNode_nrep_full l c xs p : nrep_full l c xs -> p ∉ head_ l :: c -> is_Some (info l p) ->
  exists l', DeleteNode l p = Some l' /\ nrep_full l' c xs /\ deleted_node l p l'.
Proof.
  intros (cs & Hr & Hi & Hf & <- & Hn) Hp Hs. destruct (DeleteNode_repr l cs xs p) as (l' & ? & ? & ? & ? & Hd); try done.
  exists l'. split; [done|]. split; [|done]. exists cs. split; [done|]. split; [done|]. split; [|done].
  intros q h i Hq. rewrite Height_info, (dn_info _ _ _ Hd), decide_False, <- Height_info; [by apply Hf|].
  intros ->. apply Hp. by right.
Qed.

(** ** Walking *)

Lemma nrep_step l c xs a p b : nrep l c xs -> c = a ++ p :: b -> it_Next l (Some p) = Some (head b).
Proof.
  intros [_ Hc]%nrep_chain ->. cbn. apply (chain_drop _ _ (length a)) in Hc. rewrite drop_app_length in Hc.
  by apply chain_cons in Hc as [? _].
Qed.

Lemma nodes_lookup l c xs i p : nodes l c xs -> c !! i = Some p -> exists x, xs !! i = Some x /\ info l p = Some x.
Proof. intros Hn Hp. destruct (Forall2_lookup_l _ _ _ _ _ Hn Hp) as (x & ? & ?). eauto. Qed.
End nodes.

(** ** Lists with one node per key *)
Section distinct.
Context {K V : Type} `{ComparatorLaws K, !ValueInit K, !ValueInit V}.
Context (a b : list (K * V)) (k : K) (v : V).
Context (Hs : StronglySorted (fun x y => compare_ x.1 y.1 <= 0) (a ++ (k, v) :: b)) (Hnd : NoDup ((a ++ (k, v) :: b).*1)).

Lemma distinct_before : Forall (fun x => compare_ x.1 k < 0) a.
Proof.
  apply Forall_forall. intros x Hx.
  assert (compare_ x.1 k <= 0) as Hle by (apply (StronglySorted_app_1_elem_of _ a ((k, v) :: b) x (k, v) Hs); [done|left]).
  destruct (decide (compare_ x.1 k = 0)) as [E%(proj1 (cmp_eq x.1 k))|]; [|lia].
  rewrite fmap_app in Hnd. apply NoDup_app in Hnd as (_ & Hd & _). exfalso. apply (Hd k); [|left].
  rewrite <- E. by apply list_elem_of_fmap_2.
Qed.

Lemma distinct_after : Forall (fun x => 0 < compare_ x.1 k) b.
Proof.
  apply Forall_forall. intros x Hx. apply StronglySorted_app in Hs as (_ & _ & Hs2). apply StronglySorted_inv in Hs2 as [_ Hk].
  rewrite Forall_forall in Hk. specialize (Hk x Hx). cbn in Hk. rewrite cmp_flip_ge in Hk.
  destruct (decide (compare_ x.1 k = 0)) as [E%(proj1 (cmp_eq x.1 k))|]; [|lia].
  rewrite fmap_app in Hnd. apply NoDup_app in Hnd as (_ & _ & Hn). apply NoDup_cons in Hn as [Hn _]. exfalso. apply Hn.
  cbn. rewrite <- E. by apply list_elem_of_fmap_2.
Qed.

Lemma seq_before_at : seq_before k (a ++ (k, v) :: b) = length a.
Proof.
  pose proof distinct_before as Ha. clear Hs Hnd. induction Ha as [|x a Hx Ha IH]; cbn [seq_before app length fst].
  - unfold adv_lt. by rewrite cmp_refl.
  - apply adv_lt_true in Hx. rewrite Hx. cbn. by rewrite IH.
Qed.

Lemma seq_get_at : seq_get k (a ++ (k, v) :: b) = Some v.
Proof.
  unfold seq_get. rewrite filter_app, filter_cons_True; [|apply adv_le_true; cbn; rewrite cmp_refl; lia].
  rewrite (filter_none _ b).
  - rewrite last_snoc. cbn. by rewrite decide_True by apply cmp_refl.
  - pose proof distinct_after as Hb. rewrite Forall_forall in Hb. intros x Hx. rewrite adv_le_true. specialize (Hb x Hx). lia.
Qed.
End distinct.

Section absent.
Context {K V : Type} `{ComparatorLaws K, !ValueInit K, !ValueInit V}.
Implicit Types (xs : list (K * V)).

Lemma seq_get_absent k xs : k ∉ xs.*1 -> seq_get k xs = None \/ seq_get k xs = Some value_init.
Proof.
  intros Hk. unfold seq_get. destruct (last (filter _ xs)) as [x|] eqn:E; cbn; [|case_decide; eauto].
  left. rewrite decide_False; [done|]. intros Ex%(proj1 (cmp_eq x.1 k)). apply Hk. rewrite <- Ex. apply list_elem_of_fmap_2.
  apply last_Some_elem_of in E. by apply list_elem_of_filter in E as [_ ?].
Qed.

Lemma seq_found_absent k xs : k ∉ xs.*1 -> seq_found k xs = false.
Proof.
  intros Hk. unfold seq_found. destruct (xs !! _) as [x|] eqn:E; [|done]. apply bool_decide_eq_false. intros Ex%(proj1 (cmp_eq x.1 k)).
  apply Hk. rewrite <- Ex. apply list_elem_of_fmap_2. by eapply list_elem_of_lookup_2.
Qed.
End absent.
