(* ===== verification/SkiplistThms.v ===== *)
(** The properties of the skiplist: any sequence of updates on a new list
    behaves as the same sequence on a sorted sequence of entries; lookups and
    iteration read that sequence. *)
From S2P Require Import Prelude Slice Random Skiplist SkiplistInv SkiplistInsert SkiplistSplit SkiplistSpec.

Section ops.
Context {K V : Type} `{ComparatorLaws K, !ValueInit K, !ValueInit V}.
Implicit Types (l : skiplist K V) (k : K) (v : V) (xs : list (K * V)).

(** The updates a time-ordered list sees *)
Inductive op : Type :=
  | OInsert (k : K) (v : V)
  | OAddToFirst (k : K) (v : V)
  | OSplit (k : K)
  | OSplitByPos (pos : Z)
  | OSplitByKeyOrPos (k : K) (pos : Z)
  | OSplitByKeyAndPos (k : K) (pos : Z)
  | OClear.

(** One call; the output is the list of entries of the chain handed back, read
    by following its links. *)
Definition read_chain l (res : option (option ptr * skiplist K V)) : option (list (K * V) * skiplist K V) :=
  '(r, l') ← res; out ← it_collect (size (heap l)) l' r; Some (out, l').

Definition run_op (o : op) l : option (list (K * V) * skiplist K V) :=
  match o with
  | OInsert k v => '(_, l') ← Insert l k v; Some ([], l')
  | OAddToFirst k v => '(_, l') ← AddToFirst l k v; Some ([], l')
  | OSplit k => read_chain l (Split l k)
  | OSplitByPos pos => read_chain l (SplitByPos l pos)
  | OSplitByKeyOrPos k pos => read_chain l (SplitByKeyOrPos l k pos)
  | OSplitByKeyAndPos k pos => read_chain l (SplitByKeyAndPos l k pos)
  | OClear => '(_, l') ← Clear l; Some ([], l')
  end.

Fixpoint run_ops (os : list op) l : option (list (list (K * V)) * skiplist K V) :=
  match os with
  | [] => Some ([], l)
  | o :: os' => '(out, l') ← run_op o l; '(outs, l'') ← run_ops os' l'; Some (out :: outs, l'')
  end.

(** The same call on a sequence of entries *)
Definition cut (n : nat) xs : list (K * V) * list (K * V) := (drop n xs, take n xs).
Definition seq_op (o : op) xs : list (K * V) * list (K * V) :=
  match o with
  | OInsert k v => ([], seq_insert k v xs)
  | OAddToFirst k v => ([], if decide (seq_before k xs = 0%nat) then seq_insert k v xs else xs)
  | OSplit k => cut (seq_before k xs) xs
  | OSplitByPos pos => cut (Z.to_nat pos) xs
  | OSplitByKeyOrPos k pos => cut (seq_before k xs `min` Z.to_nat pos) xs
  | OSplitByKeyAndPos k pos => cut (seq_before k xs `max` Z.to_nat pos) xs
  | OClear => ([], [])
  end.
Fixpoint seq_ops (os : list op) xs : list (list (K * V)) * list (K * V) :=
  match os with
  | [] => ([], xs)
  | o :: os' => let '(out, xs') := seq_op o xs in let '(outs, xs'') := seq_ops os' xs' in (out :: outs, xs'')
  end.

(** Positions are unsigned. *)
Definition op_ok (o : op) : Prop :=
  match o with
  | OSplitByPos pos | OSplitByKeyOrPos _ pos | OSplitByKeyAndPos _ pos => 0 <= pos
  | _ => True
  end.

Lemma read_chain_rep l xs n r l' : rep l xs ->
  rep l' (take n xs) /\ detached l' r (drop n xs) ->
  exists l'', read_chain l (Some (r, l')) = Some ((cut n xs).1, l'') /\ rep l'' (cut n xs).2.
Proof.
  intros Hl [Hr Hd]. apply rep_size in Hl. exists l'. split; [|done]. cbn.
  rewrite (detached_collect l' r (drop n xs)); [done|done|]. rewrite length_drop. lia.
Qed.

Lemma run_op_rep o l xs : rep l xs -> op_ok o -> Z.of_nat (length xs) < 2 ^ 64 ->
  exists l', run_op o l = Some ((seq_op o xs).1, l') /\ rep l' (seq_op o xs).2.
Proof.
  intros Hr Ho Hlen. destruct o as [k v|k v|k|pos|k pos|k pos|]; simpl in Ho; cbn [run_op seq_op].
  - destruct (Insert_rep l xs k v Hr) as (h & l' & -> & ?). by exists l'.
  - destruct (AddToFirst_rep l xs k v Hr) as (b & l' & -> & -> & Hrep). exists l'. split; [done|].
    case_bool_decide; by case_decide.
  - destruct (Split_rep l xs k Hr) as (r & l' & -> & ?). by apply read_chain_rep.
  - destruct (SplitByPos_rep l xs pos Hr Ho Hlen) as (r & l' & -> & ?). by apply read_chain_rep.
  - destruct (SplitByKeyOrPos_rep l xs k pos Hr Ho Hlen) as (r & l' & -> & ?). by apply read_chain_rep.
  - destruct (SplitByKeyAndPos_rep l xs k pos Hr Ho Hlen) as (r & l' & -> & ?). by apply read_chain_rep.
  - destruct (Clear_rep l xs Hr) as (l' & -> & ?). exists l'. split; [done|]. by apply rep_full_rep.
Qed.

Lemma length_seq_op o xs : (length (seq_op o xs).2 <= S (length xs))%nat.
Proof.
  destruct o; simpl; rewrite ?length_seq_insert, ?length_take; try lia.
  case_decide; rewrite ?length_seq_insert; lia.
Qed.

(** The state reached from the constructor *)
Lemma run_ops_rep os l xs : Forall op_ok os -> rep l xs -> Z.of_nat (length xs + length os) < 2 ^ 64 ->
  exists l', run_ops os l = Some ((seq_ops os xs).1, l') /\ rep l' (seq_ops os xs).2.
Proof.
  intros Hok. revert l xs. induction Hok as [|o os Ho Hok IH]; intros l xs Hr Hlen; cbn [run_ops seq_ops].
  - by exists l.
  - simpl in Hlen. destruct (run_op_rep o l xs Hr Ho ltac:(lia)) as (l1 & -> & Hr1). cbn [mbind option_bind].
    pose proof (length_seq_op o xs). destruct (seq_op o xs) as [out xs1]; simpl in *.
    destruct (IH l1 xs1 Hr1 ltac:(lia)) as (l2 & -> & Hr2). cbn [mbind option_bind].
    destruct (seq_ops os xs1) as [outs xs2]. by exists l2.
Qed.

Lemma run_new_rep (max_height : nat) (branch : Z) os :
  (1 <= max_height)%nat -> Forall op_ok os -> Z.of_nat (length os) < 2 ^ 64 ->
  exists l', run_ops os (Skiplist_new max_height branch) = Some ((seq_ops os []).1, l') /\
    rep l' (seq_ops os []).2.
Proof.
  intros Hm Hok Hlen. apply run_ops_rep; [done| |simpl; lia]. by apply rep_full_rep, Skiplist_new_rep.
Qed.

(** ** A list of keys: insertions and removals *)
Inductive kop : Type :=
  | KInsert (k : K) (v : V)
  | KRemove (k : K).
Definition run_kop (o : kop) l : option (option (K * V) * skiplist K V) :=
  match o with
  | KInsert k v => '(_, l') ← Insert l k v; Some (None, l')
  | KRemove k =>
      '(r, l') ← Remove l k;
      match r with
      | None => Some (None, l')
      | Some p => k' ← GetKey l' p; v' ← GetValue l' p; Some (Some (k', v'), l')
      end
  end.
Fixpoint run_kops (os : list kop) l : option (list (option (K * V)) * skiplist K V) :=
  match os with
  | [] => Some ([], l)
  | o :: os' => '(out, l') ← run_kop o l; '(outs, l'') ← run_kops os' l'; Some (out :: outs, l'')
  end.
Definition seq_kop (o : kop) xs : option (K * V) * list (K * V) :=
  match o with
  | KInsert k v => (None, seq_insert k v xs)
  | KRemove k => (if seq_found k xs then xs !! seq_before k xs else None, seq_remove k xs)
  end.
Fixpoint seq_kops (os : list kop) xs : list (option (K * V)) * list (K * V) :=
  match os with
  | [] => ([], xs)
  | o :: os' => let '(out, xs') := seq_kop o xs in let '(outs, xs'') := seq_kops os' xs' in (out :: outs, xs'')
  end.

Lemma run_kop_rep o l xs : rep_full l xs ->
  exists l', run_kop o l = Some ((seq_kop o xs).1, l') /\ rep_full l' (seq_kop o xs).2.
Proof.
  intros Hr. destruct o as [k v|k]; cbn [run_kop seq_kop].
  - destruct (Insert_rep_full l xs k v Hr) as (h & l' & -> & ?). by exists l'.
  - destruct (Remove_rep l xs k Hr) as (r & l' & -> & Hrep & Hout). exists l'. cbn [mbind option_bind fst snd].
    split; [|done]. destruct (seq_found k xs); [|by subst]. destruct Hout as (p & -> & Hent & Hi).
    destruct Hi as [[[k' v'] h'] Hi]. rewrite GetKey_info, GetValue_info, Hi. cbn. rewrite <- Hent, ent_info, Hi. done.
Qed.

Lemma run_kops_rep os : forall l xs, rep_full l xs ->
  exists l', run_kops os l = Some ((seq_kops os xs).1, l') /\ rep_full l' (seq_kops os xs).2.
Proof.
  induction os as [|o os IH]; intros l xs Hr; cbn [run_kops seq_kops]; [by exists l|].
  destruct (run_kop_rep o l xs Hr) as (l1 & -> & Hr1). cbn [mbind option_bind].
  destruct (seq_kop o xs) as [out xs1]; simpl in *. destruct (IH l1 xs1 Hr1) as (l2 & -> & Hr2).
  cbn [mbind option_bind]. destruct (seq_kops os xs1) as [outs xs2]. by exists l2.
Qed.

(** [Get] on a sorted sequence: the entry with key [k] that was inserted
    first. *)
Definition seq_lookup k xs : option V :=
  match last (filter (fun x => compare_ x.1 k = 0) xs) with
  | Some x => Some x.2
  | None =>
      if decide (filter (fun x => adv_le k x.1 = true) xs = [] /\ compare_ value_init k = 0)
      then Some value_init else None
  end.

Lemma seq_get_lookup k xs : StronglySorted (fun x y => compare_ x.1 y.1 <= 0) xs -> seq_get k xs = seq_lookup k xs.
Proof.
  unfold seq_get, seq_lookup. induction xs as [|x xs IH] using rev_ind; intros Hs.
  - simpl. case_decide as E; [by rewrite decide_True|]. rewrite decide_False; [done|]. tauto.
  - apply StronglySorted_app in Hs as (Hall & Hs & _). rewrite !filter_app.
    destruct (decide (compare_ x.1 k = 0)) as [E|E].
    + rewrite (filter_cons_True (fun x => compare_ x.1 k = 0)), (filter_cons_True (fun x => adv_le k x.1 = true));
        [|apply adv_le_true; lia|done].
      rewrite !filter_nil, !last_snoc. simpl. by rewrite decide_True.
    + rewrite (filter_cons_False (fun x => compare_ x.1 k = 0)) by done. rewrite filter_nil, app_nil_r.
      destruct (decide (adv_le k x.1 = true)) as [El|El].
      * rewrite (filter_cons_True (fun x => adv_le k x.1 = true)) by done. rewrite filter_nil, last_snoc. simpl.
        rewrite decide_False by done.
        assert (filter (fun y => compare_ y.1 k = 0) xs = []) as ->.
        { apply filter_none. intros y Hy Hk. apply adv_le_true in El.
          specialize (Hall y x Hy ltac:(left)). simpl in Hall.
          pose proof (cmp_flip y.1 x.1). pose proof (cmp_le_lt_trans y.1 x.1 k Hall ltac:(lia)). lia. }
        simpl. rewrite decide_False; [done|]. intros [Hn _]. by destruct (filter _ xs).
      * rewrite (filter_cons_False (fun x => adv_le k x.1 = true)) by done. rewrite filter_nil, app_nil_r. auto.
Qed.

Lemma drop_before_filter k xs : StronglySorted (fun x y => compare_ x.1 y.1 <= 0) xs ->
  drop (seq_before k xs) xs = filter (fun x => ~ compare_ x.1 k < 0) xs.
Proof.
  induction 1 as [|x xs Hs IH Hx]; [done|]. simpl. destruct (adv_lt k x.1) eqn:E; simpl.
  - apply adv_lt_true in E. by rewrite IH, filter_cons_False by tauto.
  - apply adv_lt_false in E. rewrite filter_cons_True by lia. f_equal. symmetry. apply filter_all.
    intros y Hy. rewrite Forall_forall in Hx. specialize (Hx y Hy). simpl in Hx.
    apply Z.ge_le, cmp_flip_ge in E. pose proof (cmp_le_trans k x.1 y.1 E Hx) as Hk.
    apply cmp_flip_ge in Hk. lia.
Qed.

(** C6: a skiplist built by the constructor and updated by any sequence of
    [Insert], [AddToFirst], [Split], [SplitByPos], [SplitByKeyOrPos],
    [SplitByKeyAndPos] and [Clear] calls never fails and behaves as the same
    sequence on a sorted list of entries: an insertion goes in front of the
    entries with the same key, a cut keeps the entries before the key, the
    first [pos] entries, or the shorter respectively longer of the two
    prefixes, and hands back exactly the rest, in order, as a chain of nodes. *)
Theorem skiplist_refines_sequence (max_height : nat) (branch : Z) (os : list op) :
  (1 <= max_height)%nat -> Forall op_ok os -> Z.of_nat (length os) < 2 ^ 64 ->
  exists l', run_ops os (Skiplist_new max_height branch) = Some ((seq_ops os []).1, l') /\
    rep l' (seq_ops os []).2.
Proof. apply run_new_rep. Qed.

(** C20: a skiplist used as an index of keys, updated by any sequence of [Insert]
    and [Remove] calls, never fails and behaves as the same sequence on a sorted
    list: [Remove] unlinks exactly the first entry whose key equals the
    argument, hands that node back, and returns NULL leaving the list alone when
    there is none. *)
Theorem skiplist_keyed_refines_sequence (max_height : nat) (branch : Z) (os : list kop) :
  (1 <= max_height)%nat ->
  exists l', run_kops os (Skiplist_new max_height branch) = Some ((seq_kops os []).1, l') /\
    rep l' (seq_kops os []).2.
Proof.
  intros Hm. destruct (run_kops_rep os _ [] (Skiplist_new_rep max_height branch Hm)) as (l' & ? & ?).
  exists l'. split; [done|]. by apply rep_full_rep.
Qed.

(** C31: lookups on a list reached by any sequence of updates: [Get] returns the
    value of the entry with the requested key that was inserted first (the last
    one in list order), and nothing when no entry has the key, except that a
    default-constructed key that is before every entry is found in the
    sentinel; [GetSize] and [IsEmpty] agree with the number of entries. *)
Theorem skiplist_lookup_correct (max_height : nat) (branch : Z) (os : list op) (k : K) :
  (1 <= max_height)%nat -> Forall op_ok os -> Z.of_nat (length os) < 2 ^ 64 ->
  exists outs l', run_ops os (Skiplist_new max_height branch) = Some (outs, l') /\
    let xs := (seq_ops os []).2 in
    Get l' k = Some (seq_lookup k xs) /\
    GetSize l' = Some (u32 (Z.of_nat (length xs))) /\ IsEmpty l' = Some (bool_decide (xs = [])).
Proof.
  intros Hm Hok Hlen. destruct (run_new_rep max_height branch os Hm Hok Hlen) as (l' & Hrun & Hr).
  eexists _, l'. split; [done|]. cbv zeta. rewrite <- seq_get_lookup by by eapply rep_sorted.
  split; [by apply Get_rep|]. split; [by apply GetSize_rep|by apply IsEmpty_rep].
Qed.

(** C32: iteration over a list reached by any sequence of updates: from
    [SeekToFirst] the loop over [Valid], [GetKey], [GetValue] and [Next] visits
    every entry once, in key order; from [Seek(k)] it visits exactly the entries
    whose key is not before [k]; [SeekToLast] on a non-empty list stands on the
    last entry. *)
Theorem skiplist_iteration_correct (max_height : nat) (branch : Z) (os : list op) (k : K) :
  (1 <= max_height)%nat -> Forall op_ok os -> Z.of_nat (length os) < 2 ^ 64 ->
  exists outs l' it itk, run_ops os (Skiplist_new max_height branch) = Some (outs, l') /\
    let xs := (seq_ops os []).2 in
    StronglySorted (fun x y => compare_ x.1 y.1 <= 0) xs /\
    it_SeekToFirst l' = Some it /\ it_collect (size (heap l')) l' it = Some xs /\
    it_Seek l' k = Some itk /\
    it_collect (size (heap l')) l' itk = Some (filter (fun x => ~ compare_ x.1 k < 0) xs) /\
    (xs <> [] -> exists k' v', it_GetKey l' (it_SeekToLast l') = Some k' /\
       it_GetValue l' (it_SeekToLast l') = Some v' /\ last xs = Some (k', v')).
Proof.
  intros Hm Hok Hlen. destruct (run_new_rep max_height branch os Hm Hok Hlen) as (l' & Hrun & Hr).
  pose proof (rep_sorted _ _ Hr) as Hs. set (xs := (seq_ops os []).2) in *.
  destruct (it_SeekToFirst_rep l' xs Hr) as (it & Hit & Hc).
  destruct (it_Seek_rep l' xs k Hr) as (itk & Hitk & Hck).
  eexists _, l', it, itk. split; [done|]. repeat (split; [done|]). split.
  - rewrite Hck. f_equal. by apply drop_before_filter.
  - intros Hne. destruct (it_SeekToLast_rep l' xs Hr Hne) as (p & Hp & Hl & [[[k' v'] h'] Hi]).
    exists k', v'. rewrite Hp. unfold it_GetKey, it_GetValue. cbn. rewrite GetKey_info, GetValue_info, Hi.
    rewrite Hl, ent_info, Hi. done.
Qed.

(** ** The tail after a cut *)
Definition is_cut (o : op) : bool := match o with OSplit _ | OSplitByPos _ | OSplitByKeyOrPos _ _ | OSplitByKeyAndPos _ _ => true | _ => false end.

Lemma SetNext_tail l p i n l' : SetNext l p i n = Some l' -> tail_ l' = tail_ l.
Proof. unfold SetNext. intros Hs. destruct (heap l !! p); [|done]. cbn in Hs. destruct (require _); [|done]. by injection Hs as <-. Qed.
Lemma cut_loop_tail pre : forall i l l', cut_loop pre i l = Some l' -> tail_ l' = tail_ l.
Proof.
  induction pre as [|[p|] pre IH]; intros i l l'; cbn [cut_loop]; [by intros [= <-]| |apply IH].
  destruct (SetNext l p i None) as [l1|] eqn:E; [|done]. cbn. intros ->%IH. by eapply SetNext_tail.
Qed.
Lemma Split_tail_some l k r l' : Split l k = Some (r, l') -> is_Some (tail_ l').
Proof.
  unfold Split. destruct (FindLessOrEqual _ _ _) as [[target pre]|]; [|done]. cbn. destruct (GetNext _ _ 0); [|done]. cbn.
  destruct (cut_loop _ _ _) as [l1|] eqn:E; [|done]. cbn. intros [= _ <-]. apply cut_loop_tail in E as ->. by eexists.
Qed.
Lemma cut_upper_tail todo : forall i pk nd l l', cut_upper todo i pk nd l = Some l' -> tail_ l' = tail_ l.
Proof.
  induction todo as [|todo IH]; intros i pk nd l l'; cbn [cut_upper]; [by intros [= <-]|]. destruct (GetNext l nd i) as [nx|]; [|done]. cbn [mbind option_bind].
  destruct (match nx with None => _ | Some p => _ end) as [c|]; [|done]. cbn [mbind option_bind]. destruct (if c then _ else _) as [l1|] eqn:E; [|done]. cbn [mbind option_bind].
  intros ->%IH. destruct c; [by eapply SetNext_tail|by injection E as <-].
Qed.
Lemma cut_all_tail nd l l' : cut_all nd l = Some l' -> tail_ l' = tail_ l.
Proof.
  unfold cut_all. destruct (Height l nd) as [h|]; [|done]. cbn [mbind option_bind]. generalize (seq 0 h). intros ns. revert l. induction ns as [|i ns IH]; intros l; cbn [foldl]; [by intros [= <-]|].
  cbn [mbind option_bind]. destruct (SetNext l nd i None) as [l1|] eqn:E; [intros ->%IH; by eapply SetNext_tail|]. intros Hf. exfalso. clear IH E. induction ns as [|x ns IH]; [done|by apply IH].
Qed.
Lemma SplitOnPosNode_loop_tail pos pk r l' : forall fuel cnt nd pre l,
  SplitOnPosNode_loop fuel pos cnt pk nd pre l = Some (r, l') -> is_Some (tail_ l) -> is_Some (tail_ l').
Proof.
  induction fuel as [|fuel IH]; intros cnt nd pre l; cbn [SplitOnPosNode_loop]; [done|]. destruct nd as [q|]; [|intros Hs; by injection Hs as _ <-]. case_decide.
  - destruct (cut_all _ _) as [l1|] eqn:E; [|done]. cbn [mbind option_bind]. intros Hs _. injection Hs as _ <-. apply cut_all_tail in E as ->. by eexists.
  - destruct (Height l q) as [h|]; [|done]. cbn [mbind option_bind]. destruct (cut_upper _ _ _ _ _) as [l1|] eqn:E; [|done]. cbn [mbind option_bind].
    destruct (GetNext l1 q 0); [|done]. cbn [mbind option_bind]. intros Hl Ht. eapply IH; [exact Hl|]. by apply cut_upper_tail in E as ->.
Qed.
Lemma SplitOnPosNode_tail l pos p r l' : SplitOnPosNode l pos p = Some (r, l') -> is_Some (tail_ l) -> is_Some (tail_ l').
Proof. unfold SplitOnPosNode. destruct (GetKey l p) as [pk|]; [|done]. cbn [mbind option_bind]. apply SplitOnPosNode_loop_tail. Qed.
Lemma cut_all_out o xs : is_cut o = true -> (seq_op o xs).2 = [] -> (seq_op o xs).1 = xs.
Proof.
  assert (Hc : forall n, (cut n xs).2 = [] -> (cut n xs).1 = xs) by (intros n Hn; cbn in *; pose proof (take_drop n xs) as Hd; by rewrite Hn in Hd).
  destruct o; try done; intros _; apply Hc.
Qed.
Lemma length_seq_ops os : forall xs, (length (seq_ops os xs).2 <= length xs + length os)%nat.
Proof.
  induction os as [|o os IH]; intros xs; cbn [seq_ops length]; [cbn [snd]; lia|]. pose proof (length_seq_op o xs). destruct (seq_op o xs) as [out xs1]. specialize (IH xs1).
  destruct (seq_ops os xs1). cbn [snd] in *. lia.
Qed.
(** No cut clears the tail. *)
Lemma cut_tail o l out l' : is_cut o = true -> run_op o l = Some (out, l') -> is_Some (tail_ l) -> is_Some (tail_ l').
Proof.
  intros Ho Hrun Ht. assert (Hc : exists r, match o with OSplit k => Split l k | OSplitByPos pos => SplitByPos l pos | OSplitByKeyOrPos k pos => SplitByKeyOrPos l k pos
      | OSplitByKeyAndPos k pos => SplitByKeyAndPos l k pos | _ => None end = Some (r, l')).
  { destruct o; try done; cbn [run_op] in Hrun; unfold read_chain in Hrun; destruct (_ : option (option ptr * skiplist K V)) as [[r l1]|]; try done; cbn [mbind option_bind] in Hrun;
      (destruct (it_collect _ _ _); [|done]); cbn in Hrun; injection Hrun as _ <-; by exists r. }
  destruct Hc as [r Hc]. destruct o as [| |k|pos|k pos|k pos|]; try done; unfold SplitByPos, SplitByKeyOrPos, SplitByKeyAndPos in Hc.
  - by eapply Split_tail_some.
  - destruct (GetNext _ _ 0); [|done]. cbn [mbind option_bind] in Hc. destruct (walk_pos _ _ _ _ _) as [[p|]|]; [|by injection Hc as _ <-|done]. by eapply SplitOnPosNode_tail.
  - destruct (GetNext _ _ 0); [|done]. cbn [mbind option_bind] in Hc. destruct (walk_key_or_pos _ _ _ _ _ _) as [[k'|[p|]]|]; [by eapply Split_tail_some|by eapply SplitOnPosNode_tail|by injection Hc as _ <-|done].
  - destruct (GetNext _ _ 0); [|done]. cbn [mbind option_bind] in Hc. destruct (walk_key_and_pos _ _ _ _ _ _ _) as [[f [p|]]|]; [|by injection Hc as _ <-|done].
    cbn [mbind option_bind] in Hc. destruct f; [by eapply SplitOnPosNode_tail|by eapply Split_tail_some].
Qed.

(** C40: a cut that takes every entry leaves the tail on the sentinel.  After any
    sequence of updates that leaves some entries, let any of the four cuts take
    all of them: the list is empty, and yet an iterator placed by [SeekToLast] is
    [Valid], stands on the sentinel, and reads its default-constructed key. *)
Theorem skiplist_emptied_tail (max_height : nat) (branch : Z) (os : list op) (o : op) :
  (1 <= max_height)%nat -> Forall op_ok os -> op_ok o -> Z.of_nat (length os) < 2 ^ 64 -> is_cut o = true ->
  let xs := (seq_ops os []).2 in
  xs <> [] -> (seq_op o xs).2 = [] ->
  exists outs l out l', run_ops os (Skiplist_new max_height branch) = Some (outs, l) /\ run_op o l = Some (out, l') /\ out = xs /\
    IsEmpty l' = Some true /\ it_SeekToLast l' = Some (head_ l') /\ it_Valid (it_SeekToLast l') = true /\
    it_GetKey l' (it_SeekToLast l') = Some value_init.
Proof.
  intros Hm Hok Ho Hlen Hcut xs Hne Hall. destruct (run_new_rep max_height branch os Hm Hok Hlen) as (l & Hrun & Hr). fold xs in Hr.
  assert (Hlx : Z.of_nat (length xs) < 2 ^ 64) by (pose proof (length_seq_ops os []) as Hn; fold xs in Hn; cbn [length] in Hn; lia).
  destruct (run_op_rep o l xs Hr Ho Hlx) as (l' & Hop & Hr'). rewrite Hall in Hr'.
  eexists _, l, _, l'. split; [exact Hrun|]. split; [exact Hop|]. split; [by apply cut_all_out|]. split; [by rewrite (IsEmpty_rep _ _ Hr')|].
  assert (Ht : is_Some (tail_ l)). { destruct (it_SeekToLast_rep l xs Hr Hne) as (p & Hp & _). unfold it_SeekToLast, GetLast in Hp. rewrite Hp. by eexists. }
  apply (cut_tail o l _ l' Hcut Hop) in Ht as [p Hp]. destruct Hr' as (cs & Hrep & Hi & Hcs). symmetry in Hcs.
  assert (Hsl : it_SeekToLast l' = Some (head_ l')).
  { unfold it_SeekToLast, GetLast. destruct (r_tail _ _ Hrep) as [Hl|[_ Hl]]; [|done]. rewrite Hp in Hl. destruct (cs 0%nat) as [|q c] eqn:E; [done|]. done. }
  rewrite Hsl. split; [done|]. split; [done|]. unfold it_GetKey. cbn. by rewrite GetKey_info, Hi.
Qed.
End ops.
Arguments op : clear implicits.
Arguments kop : clear implicits.

(** ** The hypotheses hold on a concrete history of timestamps *)
Definition history : list (op Z Z) :=
  [OInsert 30 1; OInsert 50 2; OInsert 40 3; OInsert 40 4; OAddToFirst 60 5; OSplitByKeyAndPos 40 1;
   OInsert 20 6; OSplitByPos 3; OSplitByKeyOrPos 45 9].

Lemma skiplist_refines_sequence_witness :
  exists l', run_ops history (Skiplist_new 12 4) = Some ((seq_ops history []).1, l') /\ rep l' (seq_ops history []).2.
Proof. apply (skiplist_refines_sequence 12 4 history); [lia|by repeat constructor|done]. Defined.

Definition key_history : list (kop Z Z) := [KInsert 3 1; KInsert 7 2; KInsert 3 5; KRemove 3; KRemove 9].

Lemma skiplist_keyed_refines_sequence_witness :
  exists l', run_kops key_history (Skiplist_new 4 4) = Some ((seq_kops key_history []).1, l') /\
    rep l' (seq_kops key_history []).2.
Proof. apply (skiplist_keyed_refines_sequence 4 4 key_history). lia. Defined.

Lemma skiplist_lookup_correct_witness :
  exists outs l', run_ops history (Skiplist_new 12 4) = Some (outs, l') /\
    let xs := (seq_ops history []).2 in
    Get l' 50 = Some (seq_lookup 50 xs) /\
    GetSize l' = Some (u32 (Z.of_nat (length xs))) /\ IsEmpty l' = Some (bool_decide (xs = [])).
Proof. apply (skiplist_lookup_correct 12 4 history 50); [lia|by repeat constructor|done]. Defined.

Lemma skiplist_iteration_correct_witness :
  exists outs l' it itk, run_ops history (Skiplist_new 12 4) = Some (outs, l') /\
    let xs := (seq_ops history []).2 in
    StronglySorted (fun x y => compare_ x.1 y.1 <= 0) xs /\
    it_SeekToFirst l' = Some it /\ it_collect (size (heap l')) l' it = Some xs /\
    it_Seek l' 55 = Some itk /\
    it_collect (size (heap l')) l' itk = Some (filter (fun x => ~ compare_ x.1 55 < 0) xs) /\
    (xs <> [] -> exists k' v', it_GetKey l' (it_SeekToLast l') = Some k' /\
       it_GetValue l' (it_SeekToLast l') = Some v' /\ last xs = Some (k', v')).
Proof. apply (skiplist_iteration_correct 12 4 history 55); [lia|by repeat constructor|done]. Defined.

Lemma skiplist_emptied_tail_witness :
  exists outs l out l', run_ops [OInsert 5 1; OInsert 3 2; OInsert 5 7] (Skiplist_new 4 4) = Some (outs, l) /\ run_op (OSplitByKeyOrPos 5 0) l = Some (out, l') /\ length out = 3%nat /\
    IsEmpty l' = Some true /\ it_Valid (it_SeekToLast l') = true /\ it_GetKey l' (it_SeekToLast l') = Some (0 : Z).
Proof.
  destruct (skiplist_emptied_tail 4 4 [OInsert 5 1; OInsert 3 2; OInsert 5 7] (OSplitByKeyOrPos 5 0)) as (outs & l & out & l' & H1 & H2 & H3 & H4 & _ & H6 & H7);
    [lia|by repeat constructor|done|done|reflexivity|vm_compute; congruence|reflexivity|].
  exists outs, l, out, l'. split; [exact H1|]. split; [exact H2|]. split; [rewrite H3; reflexivity|]. split; [exact H4|]. split; [exact H6|exact H7].
Defined.
