(* ===== verification/Segment.v ===== *)
(** The segment of a memory table: storage/segment.{h,cc}, storage/record.h and
    storage/ticket.{h,cc}, with the TTL descriptor of storage/schema.h.

    A segment maps keys to time-ordered entries: [entries_] is a skiplist from
    keys to [KeyEntry] objects (one per key, or an array of one per timestamp
    column), each holding a skiplist from timestamps to [DataBlock] pointers.
    [KeyEntry] objects live in a heap of the segment; data blocks are shared
    between the segments of a table and live in a heap of their own.  A call
    is one step; the mutexes and atomics of the sources are not represented. *)
From S2P Require Import Prelude Slice Random Skiplist.

(** ** What the environment fixes: object sizes and command line flags *)
Class Layout := {
  DATA_BLOCK_BYTE_SIZE : Z;
  KEY_ENTRY_BYTE_SIZE : Z;
  ENTRY_NODE_SIZE : Z;
  DATA_NODE_SIZE : Z;
  KEY_ENTRY_PTR_SIZE : Z;
  FLAGS_gc_safe_offset : Z;
  FLAGS_skiplist_max_height : Z;
  FLAGS_gc_deleted_pk_version_delta : Z
}.

(** ** TTL descriptors ([TTLSt]) *)
Inductive TTLType : Type := kAbsoluteTime | kRelativeTime | kLatestTime | kAbsAndLat | kAbsOrLat.
#[global] Instance TTLType_eq_dec : EqDecision TTLType.
Proof. solve_decision. Defined.
Record TTLSt : Type := MkTTLSt { abs_ttl : Z; lat_ttl : Z; ttl_type : TTLType }.

Definition NeedGc (t : TTLSt) : bool :=
  match ttl_type t with
  | kAbsoluteTime => bool_decide (abs_ttl t <> 0)
  | kLatestTime => bool_decide (lat_ttl t <> 0)
  | kAbsAndLat => negb (bool_decide (abs_ttl t = 0) || bool_decide (lat_ttl t = 0))
  | kAbsOrLat => negb (bool_decide (abs_ttl t = 0) && bool_decide (lat_ttl t = 0))
  | _ => true
  end.

Definition IsExpired (t : TTLSt) (abs record_idx : Z) : bool :=
  match ttl_type t with
  | kAbsoluteTime => if decide (abs_ttl t = 0) then false else bool_decide (abs <= abs_ttl t)
  | kLatestTime => if decide (lat_ttl t = 0) then false else bool_decide (lat_ttl t < record_idx)
  | kAbsAndLat =>
      if decide (abs_ttl t = 0 \/ lat_ttl t = 0) then false
      else bool_decide (abs <= abs_ttl t) && bool_decide (lat_ttl t < record_idx)
  | kAbsOrLat =>
      if decide (abs_ttl t = 0) then
        if decide (lat_ttl t = 0) then false else bool_decide (lat_ttl t < record_idx)
      else if decide (lat_ttl t = 0) then bool_decide (abs <= abs_ttl t)
      else bool_decide (abs <= abs_ttl t) || bool_decide (lat_ttl t < record_idx)
  | _ => true
  end.

(** ** Objects *)

(** [DataBlock]: the number of index entries that still refer to it, and the
    row *)
Record DataBlock : Type := MkDataBlock { dim_cnt_down : Z; data : bytes }.
Definition block_size (b : DataBlock) : Z := u32 (Z.of_nat (length (data b))).
Abbreviation blocks := (gmap nat DataBlock).

(** [TimeEntries] and [KeyEntry] *)
Abbreviation TimeEntries := (skiplist Z (option nat)).
Record KeyEntry : Type := MkKeyEntry { entries : TimeEntries; refs_ : Z; count_ : Z }.
Definition KeyEntry_new (height : Z) : KeyEntry := MkKeyEntry (Skiplist_new (Z.to_nat height) 4) 0 0.
Definition Ref (e : KeyEntry) : KeyEntry := MkKeyEntry (entries e) (u64 (refs_ e + 1)) (count_ e).
Definition UnRef (e : KeyEntry) : KeyEntry := MkKeyEntry (entries e) (u64 (refs_ e - 1)) (count_ e).
Definition set_entries (l : TimeEntries) (e : KeyEntry) : KeyEntry := MkKeyEntry l (refs_ e) (count_ e).
Definition set_count (c : Z) (e : KeyEntry) : KeyEntry := MkKeyEntry (entries e) (refs_ e) c.

(** What a [void*] of [entries_] points to: a [KeyEntry], or an array of
    [KeyEntry] pointers, one per timestamp column.  The casts fail on the
    other kind and on NULL. *)
Inductive keyval : Type := OneEntry (p : nat) | EntryArr (ps : list nat).
#[global] Instance keyval_eq_dec : EqDecision keyval.
Proof. solve_decision. Defined.
Definition as_entry (v : option keyval) : option nat :=
  match v with Some (OneEntry p) => Some p | _ => None end.
Definition as_array (v : option keyval) : option (list nat) :=
  match v with Some (EntryArr ps) => Some ps | _ => None end.

(** [Segment].  [entry_free_list_] holds removed nodes of [entries_] by the
    version they were removed in. *)
Record Segment : Type := MkSegment {
  sg_entries : skiplist bytes (option keyval);
  sg_heap : gmap nat KeyEntry;
  sg_next : nat;
  idx_cnt_ : Z;
  idx_byte_size_ : Z;
  pk_cnt_ : Z;
  key_entry_max_height_ : Z;
  entry_free_list_ : skiplist Z (option nat);
  ts_cnt_ : Z;
  gc_version_ : Z;
  ts_idx_map_ : gmap Z nat;
  idx_cnt_vec_ : list Z;
  ttl_offset_ : Z
}.

Definition set_sg_entries l s := MkSegment l (sg_heap s) (sg_next s) (idx_cnt_ s) (idx_byte_size_ s) (pk_cnt_ s)
  (key_entry_max_height_ s) (entry_free_list_ s) (ts_cnt_ s) (gc_version_ s) (ts_idx_map_ s) (idx_cnt_vec_ s) (ttl_offset_ s).
Definition set_sg_heap h s := MkSegment (sg_entries s) h (sg_next s) (idx_cnt_ s) (idx_byte_size_ s) (pk_cnt_ s)
  (key_entry_max_height_ s) (entry_free_list_ s) (ts_cnt_ s) (gc_version_ s) (ts_idx_map_ s) (idx_cnt_vec_ s) (ttl_offset_ s).
Definition set_idx_cnt c s := MkSegment (sg_entries s) (sg_heap s) (sg_next s) c (idx_byte_size_ s) (pk_cnt_ s)
  (key_entry_max_height_ s) (entry_free_list_ s) (ts_cnt_ s) (gc_version_ s) (ts_idx_map_ s) (idx_cnt_vec_ s) (ttl_offset_ s).
Definition set_idx_byte_size b s := MkSegment (sg_entries s) (sg_heap s) (sg_next s) (idx_cnt_ s) b (pk_cnt_ s)
  (key_entry_max_height_ s) (entry_free_list_ s) (ts_cnt_ s) (gc_version_ s) (ts_idx_map_ s) (idx_cnt_vec_ s) (ttl_offset_ s).
Definition set_pk_cnt c s := MkSegment (sg_entries s) (sg_heap s) (sg_next s) (idx_cnt_ s) (idx_byte_size_ s) c
  (key_entry_max_height_ s) (entry_free_list_ s) (ts_cnt_ s) (gc_version_ s) (ts_idx_map_ s) (idx_cnt_vec_ s) (ttl_offset_ s).
Definition set_free_list l s := MkSegment (sg_entries s) (sg_heap s) (sg_next s) (idx_cnt_ s) (idx_byte_size_ s) (pk_cnt_ s)
  (key_entry_max_height_ s) l (ts_cnt_ s) (gc_version_ s) (ts_idx_map_ s) (idx_cnt_vec_ s) (ttl_offset_ s).
Definition set_cnt_vec v s := MkSegment (sg_entries s) (sg_heap s) (sg_next s) (idx_cnt_ s) (idx_byte_size_ s) (pk_cnt_ s)
  (key_entry_max_height_ s) (entry_free_list_ s) (ts_cnt_ s) (gc_version_ s) (ts_idx_map_ s) v (ttl_offset_ s).
Definition IncrGcVersion s := MkSegment (sg_entries s) (sg_heap s) (sg_next s) (idx_cnt_ s) (idx_byte_size_ s) (pk_cnt_ s)
  (key_entry_max_height_ s) (entry_free_list_ s) (ts_cnt_ s) (u64 (gc_version_ s + 1)) (ts_idx_map_ s) (idx_cnt_vec_ s) (ttl_offset_ s).
Definition set_entry (p : nat) (e : KeyEntry) (s : Segment) : Segment := set_sg_heap (<[p := e]> (sg_heap s)) s.

(** What a garbage collection adds up *)
Record GcStat : Type := MkGcStat { gc_idx_cnt : Z; gc_record_cnt : Z; gc_record_byte_size : Z }.

Section segment.
Context `{Layout}.

(** ** Sizes (record.h) *)
Definition GetRecordSize (value_size : Z) : Z := u32 (value_size + DATA_BLOCK_BYTE_SIZE).
Definition GetRecordPkIdxSize (height key_size key_entry_max_height : Z) : Z :=
  u32 (height * 8 + ENTRY_NODE_SIZE + KEY_ENTRY_BYTE_SIZE + key_size + key_entry_max_height * 8 + DATA_NODE_SIZE).
Definition GetRecordPkMultiIdxSize (height key_size key_entry_max_height ts_cnt : Z) : Z :=
  u32 (height * 8 + ENTRY_NODE_SIZE + key_size +
       (KEY_ENTRY_PTR_SIZE + KEY_ENTRY_BYTE_SIZE + key_entry_max_height * 8 + DATA_NODE_SIZE) * ts_cnt).
Definition GetRecordTsIdxSize (height : Z) : Z := u32 (height * 8 + DATA_NODE_SIZE).

(** ** Construction *)
Definition Segment_make (height ts_cnt : Z) (map : gmap Z nat) (vec : list Z) : Segment :=
  MkSegment (Skiplist_new (Z.to_nat (u8 FLAGS_skiplist_max_height)) 4) ∅ 0 0 0 0 height (Skiplist_new 4 4) ts_cnt 0 map vec
    (u64 (s32 (s32 (FLAGS_gc_safe_offset * 60) * 1000))).
Definition Segment_new : Segment := Segment_make (u8 FLAGS_skiplist_max_height) 1 ∅ [].
Definition Segment_height (height : Z) : Segment := Segment_make height 1 ∅ [].
Definition Segment_ts (height : Z) (ts_idx_vec : list Z) : Segment :=
  Segment_make height (u32 (Z.of_nat (length ts_idx_vec)))
    (foldl (fun m e => <[e.2 := e.1]> m) ∅ (zip (seq 0 (length ts_idx_vec)) ts_idx_vec))
    (replicate (length ts_idx_vec) 0).

(** ** Lookup *)

(** [entries_->Get(key, entry)] with the test [< 0 || entry == NULL]: NULL when
    it holds *)
Definition find_entry (s : Segment) (key : bytes) : option (option keyval) :=
  match Skiplist.Get (sg_entries s) key with
  | Some r => Some (match r with Some v => v | None => None end)
  | None => None
  end.
Definition deref (s : Segment) (p : nat) : option KeyEntry := sg_heap s !! p.

(** [Get(key, time, block)]: [None] inside for [false], else the pointer stored
    in [block], possibly NULL *)
Definition Get (s : Segment) (key : bytes) (time : Z) : option (option (option nat)) :=
  if decide (1 < ts_cnt_ s) then Some None
  else
    entry ← find_entry s key;
    match entry with
    | None => Some None
    | Some _ => p ← as_entry entry; e ← deref s p; b ← Get_ref (entries e) time; Some (Some b)
    end.

(** [((KeyEntry** )entry_arr)[pos]] *)
Definition entry_at (entry : option keyval) (pos : nat) : option nat := ps ← as_array entry; ps !! pos.

Definition Get_idx (s : Segment) (key : bytes) (idx time : Z) : option (option (option nat)) :=
  match ts_idx_map_ s !! idx with
  | None => Some None
  | Some pos =>
      if decide (ts_cnt_ s = 1) then Get s key time
      else
        entry ← find_entry s key;
        match entry with
        | None => Some None
        | Some _ => p ← entry_at entry pos; e ← deref s p; b ← Get_ref (entries e) time; Some (Some b)
        end
  end.

(** [GetCount]: [None] inside for -1 *)
Definition GetCount (s : Segment) (key : bytes) : option (option Z) :=
  if decide (1 < ts_cnt_ s) then Some None
  else
    entry ← find_entry s key;
    match entry with
    | None => Some None
    | Some _ => p ← as_entry entry; e ← deref s p; Some (Some (count_ e))
    end.
Definition GetCount_idx (s : Segment) (key : bytes) (idx : Z) : option (option Z) :=
  match ts_idx_map_ s !! idx with
  | None => Some None
  | Some pos =>
      if decide (ts_cnt_ s = 1) then GetCount s key
      else
        entry ← find_entry s key;
        match entry with
        | None => Some None
        | Some _ => p ← entry_at entry pos; e ← deref s p; Some (Some (count_ e))
        end
  end.

Definition GetIdxCnt (s : Segment) : option Z :=
  if decide (1 < ts_cnt_ s) then idx_cnt_vec_ s !! 0%nat else Some (idx_cnt_ s).
Definition GetTsIdx (s : Segment) (raw_idx : Z) : option nat := ts_idx_map_ s !! raw_idx.
Definition GetIdxCnt_ts (s : Segment) (ts_idx : Z) : option (option Z) :=
  match GetTsIdx s ts_idx with
  | None => Some None
  | Some real_idx => c ← idx_cnt_vec_ s !! real_idx; Some (Some c)
  end.

(** ** Insertion *)

(** [new KeyEntry(key_entry_max_height_)] *)
Definition new_entry (s : Segment) : nat * Segment :=
  let p := sg_next s in
  (p, MkSegment (sg_entries s) (<[p := KeyEntry_new (key_entry_max_height_ s)]> (sg_heap s)) (S p) (idx_cnt_ s)
        (idx_byte_size_ s) (pk_cnt_ s) (key_entry_max_height_ s) (entry_free_list_ s) (ts_cnt_ s) (gc_version_ s)
        (ts_idx_map_ s) (idx_cnt_vec_ s) (ttl_offset_ s)).

(** [entry->entries.Insert(time, row)] and the increment of [count_] *)
Definition insert_time (s : Segment) (p : nat) (time : Z) (row : nat) : option (nat * Segment) :=
  e ← deref s p;
  '(height, l) ← Insert (entries e) time (Some row);
  Some (height, set_entry p (MkKeyEntry l (refs_ e) (u64 (count_ e + 1))) s).

(** [Put(key, time, row)] *)
Definition Put_row (s : Segment) (key : bytes) (time : Z) (row : nat) : option Segment :=
  if decide (1 < ts_cnt_ s) then Some s
  else
    entry ← find_entry s key;
    '(entry, byte_size, s) ←
      match entry with
      | Some _ => Some (entry, 0, s)
      | None =>
          let '(p, s) := new_entry s in
          '(height, l) ← Insert (sg_entries s) key (Some (OneEntry p));
          Some (Some (OneEntry p),
                u32 (0 + GetRecordPkIdxSize (Z.of_nat height) (Z.of_nat (length key)) (key_entry_max_height_ s)),
                set_pk_cnt (u64 (pk_cnt_ s + 1)) (set_sg_entries l s))
      end;
    let s := set_idx_cnt (u64 (idx_cnt_ s + 1)) s in
    p ← as_entry entry;
    '(height, s) ← insert_time s p time row;
    let byte_size := u32 (byte_size + GetRecordTsIdxSize (Z.of_nat height)) in
    Some (set_idx_byte_size (u64 (idx_byte_size_ s + byte_size)) s).

(** [new DataBlock(dim_cnt, data, size)] at an unused address *)
Definition new_block (bs : blocks) (dim_cnt : Z) (value : bytes) : nat * blocks :=
  let b := fresh (dom bs) in (b, <[b := MkDataBlock (u8 dim_cnt) value]> bs).

(** [Put(key, time, data, size)] *)
Definition Put (s : Segment) (bs : blocks) (key : bytes) (time : Z) (value : bytes) : option (Segment * blocks) :=
  if decide (1 < ts_cnt_ s) then Some (s, bs)
  else
    let '(b, bs) := new_block bs 1 value in
    s ← Put_row s key time b; Some (s, bs).

(** [KeyEntry* entry_arr_tmp[ts_cnt_]] filled with new entries *)
Fixpoint new_entries (n : nat) (s : Segment) : list nat * Segment :=
  match n with
  | O => ([], s)
  | S n' => let '(p, s) := new_entry s in let '(ps, s) := new_entries n' s in (p :: ps, s)
  end.

(** The loop of [Put(key, ts_dimension, row)] *)
Fixpoint Put_dims_loop (s : Segment) (key : bytes) (ts_dimension : list (Z * Z)) (row : nat)
    (entry_arr : option keyval) : option Segment :=
  match ts_dimension with
  | [] => Some s
  | (idx, ts) :: rest =>
      match ts_idx_map_ s !! idx with
      | None => Put_dims_loop s key rest row entry_arr
      | Some pos =>
          '(entry_arr, byte_size, s) ←
            match entry_arr with
            | Some _ => Some (entry_arr, 0, s)
            | None =>
                found ← find_entry s key;
                match found with
                | Some _ => Some (found, 0, s)
                | None =>
                    let '(ps, s) := new_entries (Z.to_nat (ts_cnt_ s)) s in
                    '(height, l) ← Insert (sg_entries s) key (Some (EntryArr ps));
                    Some (Some (EntryArr ps),
                          u32 (0 + GetRecordPkMultiIdxSize (Z.of_nat height) (Z.of_nat (length key))
                                     (key_entry_max_height_ s) (ts_cnt_ s)),
                          set_pk_cnt (u64 (pk_cnt_ s + 1)) (set_sg_entries l s))
                end
            end;
          p ← entry_at entry_arr pos;
          '(height, s) ← insert_time s p ts row;
          let byte_size := u32 (byte_size + GetRecordTsIdxSize (Z.of_nat height)) in
          let s := set_idx_byte_size (u64 (idx_byte_size_ s + byte_size)) s in
          c ← idx_cnt_vec_ s !! pos;
          Put_dims_loop (set_cnt_vec (<[pos := u64 (c + 1)]> (idx_cnt_vec_ s)) s) key rest row entry_arr
      end
  end.

(** [Put(key, ts_dimension, row)]; a dimension is its [idx] and its [ts]. *)
Definition Put_dims (s : Segment) (key : bytes) (ts_dimension : list (Z * Z)) (row : nat) : option Segment :=
  match ts_dimension with
  | [] => Some s
  | d :: rest =>
      if decide (ts_cnt_ s = 1) then
        if decide (rest = []) then Put_row s key d.2 row
        else
          match list_find (fun c => is_Some (ts_idx_map_ s !! c.1)) ts_dimension with
          | Some (_, cur_ts) => Put_row s key cur_ts.2 row
          | None => Some s
          end
      else Put_dims_loop s key ts_dimension row None
  end.

(** ** Deletion *)

(** [entry_free_list_->Insert(gc_version_, entry_node)] *)
Definition retire (s : Segment) (entry_node : nat) : option Segment :=
  '(_, l) ← Insert (entry_free_list_ s) (gc_version_ s) (Some entry_node);
  Some (set_free_list l s).

(** [entries_->Remove(key)] *)
Definition remove_key (s : Segment) (key : bytes) : option (option nat * Segment) :=
  '(r, l) ← Remove (sg_entries s) key; Some (r, set_sg_entries l s).

Definition Delete (s : Segment) (key : bytes) : option (bool * Segment) :=
  '(entry_node, s) ← remove_key s key;
  match entry_node with
  | None => Some (false, s)
  | Some n => s ← retire s n; Some (true, s)
  end.
End segment.
