(* ===== verification/SegmentGc.v ===== *)
(** Garbage collection, release and iteration of a segment
    (storage/segment.cc, storage/ticket.cc).

    A collection reads the clock once ([ExecuteGc]), so the time in
    microseconds is an argument.  [gc_idx_cnt], [gc_record_cnt] and
    [gc_record_byte_size], passed by reference in the sources, are a [GcStat]
    threaded through the calls. *)
From S2P Require Import Prelude Slice Random Skiplist Segment.

Section gc.
Context `{Layout}.

(** ** Freeing rows *)

(** [if (block->dim_cnt_down > 1) block->dim_cnt_down--; else delete block;]:
    the block when it is deleted *)
Definition drop_block (bs : blocks) (v : option nat) : option (option DataBlock * blocks) :=
  b ← v;
  blk ← bs !! b;
  if decide (1 < dim_cnt_down blk) then Some (None, <[b := MkDataBlock (u8 (dim_cnt_down blk - 1)) (data blk)]> bs)
  else Some (Some blk, delete b bs).

(** The loop of [FreeList] over the nodes of the entry list [l]: also the
    bytes [idx_byte_size_] is lowered by, one subtraction per node *)
Fixpoint FreeList_loop (fuel : nat) (l : TimeEntries) (node : option nat) (idx_bytes : Z) (bs : blocks) (st : GcStat)
    : option (TimeEntries * Z * blocks * GcStat) :=
  match node with
  | None => Some (l, idx_bytes, bs, st)
  | Some tmp =>
      match fuel with
      | O => None
      | S fuel' =>
          h ← Height l tmp;
          let idx_bytes := u64 (idx_bytes - GetRecordTsIdxSize (Z.of_nat h)) in
          node' ← GetNext l tmp 0;
          v ← GetValue l tmp;
          '(freed, bs) ← drop_block bs v;
          let st :=
            match freed with
            | None => MkGcStat (u64 (gc_idx_cnt st + 1)) (gc_record_cnt st) (gc_record_byte_size st)
            | Some blk => MkGcStat (u64 (gc_idx_cnt st + 1)) (u64 (gc_record_cnt st + 1))
                            (u64 (gc_record_byte_size st + GetRecordSize (block_size blk)))
            end in
          l ← DeleteNode l tmp;
          FreeList_loop fuel' l node' idx_bytes bs st
      end
  end.

(** [FreeList(node, ...)] for nodes of the entry [p] *)
Definition FreeList (s : Segment) (p : nat) (node : option nat) (bs : blocks) (st : GcStat)
    : option (Segment * blocks * GcStat) :=
  e ← deref s p;
  '(l, idx_bytes, bs, st) ← FreeList_loop (size (heap (entries e))) (entries e) node (idx_byte_size_ s) bs st;
  Some (set_idx_byte_size idx_bytes (set_entry p (set_entries l e) s), bs, st).

(** [uint64_t entry_gc_idx_cnt = 0; FreeList(node, entry_gc_idx_cnt, ...);
    entry->count_ -= entry_gc_idx_cnt; gc_idx_cnt += entry_gc_idx_cnt], and the
    count of the entry *)
Definition FreeList_counted (s : Segment) (p : nat) (node : option nat) (bs : blocks) (st : GcStat)
    : option (Z * Segment * blocks * GcStat) :=
  '(s, bs, st') ← FreeList s p node bs (MkGcStat 0 (gc_record_cnt st) (gc_record_byte_size st));
  let entry_gc_idx_cnt := gc_idx_cnt st' in
  e ← deref s p;
  Some (entry_gc_idx_cnt, set_entry p (set_count (u64 (count_ e - entry_gc_idx_cnt)) e) s, bs,
        MkGcStat (u64 (gc_idx_cnt st + entry_gc_idx_cnt)) (gc_record_cnt st') (gc_record_byte_size st')).

(** ** Freeing keys *)

(** One [KeyEntry] of [FreeEntry]: free its rows and the object *)
Definition free_key_entry (s : Segment) (p : nat) (bs : blocks) (st : GcStat) : option (Segment * blocks * GcStat) :=
  e ← deref s p;
  it ← it_SeekToFirst (entries e);
  '(s, bs, st) ←
    if it_Valid it then
      ts ← it_GetKey (entries e) it;
      '(data_node, l) ← Split (entries e) ts;
      FreeList (set_entry p (set_entries l e) s) p data_node bs st
    else Some (s, bs, st);
  Some (set_sg_heap (delete p (sg_heap s)) s, bs, st).

(** The loop over [entry_arr] *)
Fixpoint free_entry_arr (n i : nat) (ps : list nat) (s : Segment) (bs : blocks) (st : GcStat)
    : option (Segment * blocks * GcStat) :=
  match n with
  | O => Some (s, bs, st)
  | S n' =>
      p ← ps !! i;
      '(s, bs, st') ← free_key_entry s p bs st;
      c ← idx_cnt_vec_ s !! i;
      let s := set_cnt_vec (<[i := u64 (c - u64 (gc_idx_cnt st' - gc_idx_cnt st))]> (idx_cnt_vec_ s)) s in
      free_entry_arr n' (S i) ps s bs st'
  end.

Definition FreeEntry (s : Segment) (entry_node : option nat) (bs : blocks) (st : GcStat)
    : option (Segment * blocks * GcStat) :=
  match entry_node with
  | None => Some (s, bs, st)
  | Some n =>
      key ← GetKey (sg_entries s) n;
      v ← GetValue (sg_entries s) n;
      h ← Height (sg_entries s) n;
      if decide (1 < ts_cnt_ s) then
        ps ← as_array v;
        '(s, bs, st) ← free_entry_arr (Z.to_nat (ts_cnt_ s)) 0 ps s bs st;
        let byte_size := GetRecordPkMultiIdxSize (Z.of_nat h) (Z.of_nat (length key)) (key_entry_max_height_ s) (ts_cnt_ s) in
        Some (set_idx_byte_size (u64 (idx_byte_size_ s - byte_size)) s, bs, st)
      else
        p ← as_entry v;
        '(s, bs, st') ← free_key_entry s p bs st;
        let byte_size := GetRecordPkIdxSize (Z.of_nat h) (Z.of_nat (length key)) (key_entry_max_height_ s) in
        let s := set_idx_byte_size (u64 (idx_byte_size_ s - byte_size)) s in
        Some (set_idx_cnt (u64 (idx_cnt_ s - u64 (gc_idx_cnt st' - gc_idx_cnt st))) s, bs, st')
  end.

(** [delete entry_node] *)
Definition delete_entry_node (s : Segment) (n : nat) : option Segment :=
  l ← DeleteNode (sg_entries s) n; Some (set_sg_entries l s).

(** The loop of [GcEntryFreeList] over the cut part of [entry_free_list_] *)
Fixpoint GcEntryFreeList_loop (fuel : nat) (node : option nat) (s : Segment) (bs : blocks) (st : GcStat)
    : option (Segment * blocks * GcStat) :=
  match node with
  | None => Some (s, bs, st)
  | Some tmp =>
      match fuel with
      | O => None
      | S fuel' =>
          entry_node ← GetValue (entry_free_list_ s) tmp;
          '(s, bs, st) ← FreeEntry s entry_node bs st;
          s ← match entry_node with Some n => delete_entry_node s n | None => Some s end;
          node' ← GetNext (entry_free_list_ s) tmp 0;
          fl ← DeleteNode (entry_free_list_ s) tmp;
          GcEntryFreeList_loop fuel' node' (set_pk_cnt (u64 (pk_cnt_ s - 1)) (set_free_list fl s)) bs st
      end
  end.
Definition GcEntryFreeList (s : Segment) (version : Z) (bs : blocks) (st : GcStat) : option (Segment * blocks * GcStat) :=
  '(node, fl) ← Split (entry_free_list_ s) version;
  GcEntryFreeList_loop (size (heap (entry_free_list_ s))) node (set_free_list fl s) bs st.

Definition GcFreeList (s : Segment) (bs : blocks) (st : GcStat) : option (Segment * blocks * GcStat) :=
  let cur_version := gc_version_ s in
  if decide (cur_version < FLAGS_gc_deleted_pk_version_delta) then Some (s, bs, st)
  else GcEntryFreeList s (cur_version - FLAGS_gc_deleted_pk_version_delta) bs st.

(** ** Collections of a segment with one timestamp *)

(** Cut the list of an entry unless a reader holds it *)
Definition split_entry (s : Segment) (p : nat) (split : TimeEntries -> option (option nat * TimeEntries))
    : option (option nat * Segment) :=
  e ← deref s p;
  if decide (refs_ e <= 0) then '(node, l) ← split (entries e); Some (node, set_entry p (set_entries l e) s)
  else Some (None, s).
Definition SplitList (s : Segment) (p : nat) (ts : Z) : option (option nat * Segment) :=
  split_entry s p (fun l => Split l ts).

(** [if (entry->entries.IsEmpty()) entry_node = entries_->Remove(key)] and the
    insertion of the node into the free list *)
Definition remove_if_empty (s : Segment) (p : nat) (key : bytes) : option Segment :=
  e ← deref s p;
  empty ← IsEmpty (entries e);
  '(entry_node, s) ← if (empty : bool) then remove_key s key else Some (None, s);
  match entry_node with Some n => retire s n | None => Some s end.

(** The current entry and key of the iteration *)
Definition it_entry (s : Segment) (n : nat) : option (nat * bytes) :=
  v ← GetValue (sg_entries s) n; key ← GetKey (sg_entries s) n; p ← as_entry v; Some (p, key).

Fixpoint Gc4Head_loop (fuel : nat) (keep_cnt : Z) (it : option nat) (s : Segment) (bs : blocks) (st : GcStat)
    : option (Segment * blocks * GcStat) :=
  match it with
  | None => Some (s, bs, st)
  | Some n =>
      match fuel with
      | O => None
      | S fuel' =>
          '(p, _) ← it_entry s n;
          '(node, s) ← split_entry s p (fun l => SplitByPos l keep_cnt);
          '(_, s, bs, st) ← FreeList_counted s p node bs st;
          it' ← it_Next (sg_entries s) it;
          Gc4Head_loop fuel' keep_cnt it' s bs st
      end
  end.

(** [node = entry->entries.GetLast(); node == NULL || node->GetKey() > time] *)
Definition need_not_ttl (l : TimeEntries) (time : Z) : option bool :=
  match GetLast l with
  | None => Some true
  | Some node => k ← GetKey l node; Some (bool_decide (time < k))
  end.

Fixpoint Gc4TTL_loop (fuel : nat) (time : Z) (it : option nat) (s : Segment) (bs : blocks) (st : GcStat)
    : option (Segment * blocks * GcStat) :=
  match it with
  | None => Some (s, bs, st)
  | Some n =>
      match fuel with
      | O => None
      | S fuel' =>
          '(p, key) ← it_entry s n;
          it' ← it_Next (sg_entries s) it;
          e ← deref s p;
          skip ← need_not_ttl (entries e) time;
          if (skip : bool) then Gc4TTL_loop fuel' time it' s bs st
          else
            '(node, s) ← SplitList s p time;
            s ← remove_if_empty s p key;
            '(_, s, bs, st) ← FreeList_counted s p node bs st;
            Gc4TTL_loop fuel' time it' s bs st
      end
  end.

Fixpoint Gc4TTLAndHead_loop (fuel : nat) (time keep_cnt : Z) (it : option nat) (s : Segment) (bs : blocks) (st : GcStat)
    : option (Segment * blocks * GcStat) :=
  match it with
  | None => Some (s, bs, st)
  | Some n =>
      match fuel with
      | O => None
      | S fuel' =>
          '(p, _) ← it_entry s n;
          e ← deref s p;
          it' ← it_Next (sg_entries s) it;
          skip ← need_not_ttl (entries e) time;
          if (skip : bool) then Gc4TTLAndHead_loop fuel' time keep_cnt it' s bs st
          else
            '(node, s) ← split_entry s p (fun l => SplitByKeyAndPos l time keep_cnt);
            '(_, s, bs, st) ← FreeList_counted s p node bs st;
            Gc4TTLAndHead_loop fuel' time keep_cnt it' s bs st
      end
  end.

Fixpoint Gc4TTLOrHead_loop (fuel : nat) (time keep_cnt : Z) (it : option nat) (s : Segment) (bs : blocks) (st : GcStat)
    : option (Segment * blocks * GcStat) :=
  match it with
  | None => Some (s, bs, st)
  | Some n =>
      match fuel with
      | O => None
      | S fuel' =>
          '(p, key) ← it_entry s n;
          it' ← it_Next (sg_entries s) it;
          e ← deref s p;
          match GetLast (entries e) with
          | None => Gc4TTLOrHead_loop fuel' time keep_cnt it' s bs st
          | Some _ =>
              '(node, s) ← split_entry s p (fun l => SplitByKeyOrPos l time keep_cnt);
              s ← remove_if_empty s p key;
              '(_, s, bs, st) ← FreeList_counted s p node bs st;
              Gc4TTLOrHead_loop fuel' time keep_cnt it' s bs st
          end
      end
  end.

(** [it->SeekToFirst(); while (it->Valid()) ...; idx_cnt_ -= gc_idx_cnt - old] *)
Definition gc_run (loop : nat -> option nat -> Segment -> blocks -> GcStat -> option (Segment * blocks * GcStat))
    (s : Segment) (bs : blocks) (st : GcStat) : option (Segment * blocks * GcStat) :=
  it ← it_SeekToFirst (sg_entries s);
  '(s, bs, st') ← loop (size (heap (sg_entries s))) it s bs st;
  Some (set_idx_cnt (u64 (idx_cnt_ s - u64 (gc_idx_cnt st' - gc_idx_cnt st))) s, bs, st').

Definition Gc4Head (s : Segment) (keep_cnt : Z) (bs : blocks) (st : GcStat) : option (Segment * blocks * GcStat) :=
  if decide (keep_cnt = 0) then Some (s, bs, st)
  else gc_run (fun fuel => Gc4Head_loop fuel keep_cnt) s bs st.
Definition Gc4TTL (s : Segment) (time : Z) (bs : blocks) (st : GcStat) : option (Segment * blocks * GcStat) :=
  gc_run (fun fuel => Gc4TTL_loop fuel time) s bs st.
Definition Gc4TTLAndHead (s : Segment) (time keep_cnt : Z) (bs : blocks) (st : GcStat)
    : option (Segment * blocks * GcStat) :=
  if decide (time = 0 \/ keep_cnt = 0) then Some (s, bs, st)
  else gc_run (fun fuel => Gc4TTLAndHead_loop fuel time keep_cnt) s bs st.
Definition Gc4TTLOrHead (s : Segment) (time keep_cnt : Z) (bs : blocks) (st : GcStat)
    : option (Segment * blocks * GcStat) :=
  if decide (time = 0 /\ keep_cnt = 0) then Some (s, bs, st)
  else if decide (time = 0) then Gc4Head s keep_cnt bs st
  else if decide (keep_cnt = 0) then Gc4TTL s time bs st
  else gc_run (fun fuel => Gc4TTLOrHead_loop fuel time keep_cnt) s bs st.

(** [ExecuteGc(ttl_st, ...)] *)
Definition ExecuteGc (s : Segment) (get_micros : Z) (ttl_st : TTLSt) (bs : blocks) (st : GcStat)
    : option (Segment * blocks * GcStat) :=
  let cur_time := u64 (get_micros / 1000) in
  let expire_time := u64 (cur_time - ttl_offset_ s - abs_ttl ttl_st) in
  match ttl_type ttl_st with
  | kAbsoluteTime =>
      if decide (abs_ttl ttl_st = 0) then Some (s, bs, st) else Gc4TTL s expire_time bs st
  | kLatestTime =>
      if decide (lat_ttl ttl_st = 0) then Some (s, bs, st) else Gc4Head s (lat_ttl ttl_st) bs st
  | kAbsAndLat =>
      if decide (abs_ttl ttl_st = 0 \/ lat_ttl ttl_st = 0) then Some (s, bs, st)
      else Gc4TTLAndHead s expire_time (lat_ttl ttl_st) bs st
  | kAbsOrLat =>
      if decide (abs_ttl ttl_st = 0 /\ lat_ttl ttl_st = 0) then Some (s, bs, st)
      else Gc4TTLOrHead s (if decide (abs_ttl ttl_st = 0) then 0 else expire_time) (lat_ttl ttl_st) bs st
  | kRelativeTime => Some (s, bs, st)
  end.
End gc.
