(* ===== verification/SegmentRelease.v ===== *)
(** The rest of a segment's operations (storage/segment.cc, storage/ticket.cc):
    the collection of a segment with several timestamp columns, releasing a
    whole segment, and the iterators and tickets of readers. *)
From S2P Require Import Prelude Slice Random Skiplist Segment SegmentGc.

(** [Ticket]: the entries it holds, last first *)
Abbreviation Ticket := (list nat).
(** [MemTableIterator]: NULL, or the entry whose list it walks and the node it
    stands on *)
Abbreviation MemTableIterator := (option (nat * option nat)).

Section release.
Context `{Layout}.

(** ** [GcAllType] *)

(** One entry of the [ttl_st_map] for one key: [inl] the switch's default,
    which returns from the function; else the entry's cut and whether it was
    found empty, or [None] to skip it *)
Definition gc_switch (s : Segment) (p : nat) (ttl : TTLSt)
    : option (unit + option (option nat * Segment * bool)) :=
  e ← deref s p;
  let finish (r : option (option nat * Segment)) : option (unit + option (option nat * Segment * bool)) :=
    '(node, s) ← r;
    e ← deref s p;
    empty ← IsEmpty (entries e);
    Some (inr (Some (node, s, empty))) in
  match ttl_type ttl with
  | kAbsoluteTime =>
      skip ← need_not_ttl (entries e) (abs_ttl ttl);
      if (skip : bool) then Some (inr None) else finish (SplitList s p (abs_ttl ttl))
  | kLatestTime =>
      '(node, s) ← split_entry s p (fun l => SplitByPos l (lat_ttl ttl));
      Some (inr (Some (node, s, false)))
  | kAbsAndLat =>
      skip ← need_not_ttl (entries e) (abs_ttl ttl);
      if (skip : bool) then Some (inr None)
      else
        '(node, s) ← split_entry s p (fun l => SplitByKeyAndPos l (abs_ttl ttl) (lat_ttl ttl));
        Some (inr (Some (node, s, false)))
  | kAbsOrLat =>
      match GetLast (entries e) with
      | None => Some (inr None)
      | Some _ =>
          finish (split_entry s p (fun l =>
            if decide (abs_ttl ttl = 0) then SplitByPos l (lat_ttl ttl)
            else if decide (lat_ttl ttl = 0) then Split l (abs_ttl ttl)
            else SplitByKeyOrPos l (abs_ttl ttl) (lat_ttl ttl)))
      end
  | kRelativeTime => Some (inl tt)
  end.

(** The loop over [ttl_st_map] for one key: whether the function returned, and
    [empty_cnt] *)
Fixpoint gc_ttl_map (ttl_st_map : list (Z * TTLSt)) (ps : list nat) (empty_cnt : Z) (s : Segment) (bs : blocks) (st : GcStat)
    : option (bool * Z * Segment * blocks * GcStat) :=
  match ttl_st_map with
  | [] => Some (false, empty_cnt, s, bs, st)
  | (idx, ttl) :: rest =>
      if NeedGc ttl then
        match ts_idx_map_ s !! idx with
        | None => gc_ttl_map rest ps empty_cnt s bs st
        | Some pos =>
            if decide (ts_cnt_ s <= Z.of_nat pos) then gc_ttl_map rest ps empty_cnt s bs st
            else
              p ← ps !! pos;
              r ← gc_switch s p ttl;
              match r with
              | inl _ => Some (true, empty_cnt, s, bs, st)
              | inr None => gc_ttl_map rest ps empty_cnt s bs st
              | inr (Some (node, s, empty)) =>
                  '(n, s, bs, st) ← FreeList_counted s p node bs st;
                  c ← idx_cnt_vec_ s !! pos;
                  gc_ttl_map rest ps (if (empty : bool) then u32 (empty_cnt + 1) else empty_cnt)
                    (set_cnt_vec (<[pos := u64 (c - n)]> (idx_cnt_vec_ s)) s) bs st
              end
        end
      else gc_ttl_map rest ps empty_cnt s bs st
  end.

(** Whether every list of the array is empty *)
Fixpoint all_empty (n : nat) (ps : list nat) (s : Segment) : option bool :=
  match n with
  | O => Some true
  | S n' =>
      match ps with
      | [] => None
      | p :: ps' =>
          e ← deref s p;
          empty ← IsEmpty (entries e);
          if (empty : bool) then all_empty n' ps' s else Some false
      end
  end.

Fixpoint GcAllType_loop (fuel : nat) (ttl_st_map : list (Z * TTLSt)) (it : option nat) (s : Segment) (bs : blocks) (st : GcStat)
    : option (Segment * blocks * GcStat) :=
  match it with
  | None => Some (s, bs, st)
  | Some n =>
      match fuel with
      | O => None
      | S fuel' =>
          v ← GetValue (sg_entries s) n;
          ps ← as_array v;
          key ← GetKey (sg_entries s) n;
          it' ← it_Next (sg_entries s) it;
          '(returned, empty_cnt, s, bs, st) ← gc_ttl_map ttl_st_map ps 0 s bs st;
          if (returned : bool) then Some (s, bs, st)
          else
            s ← (if decide (empty_cnt = ts_cnt_ s) then
                   is_empty ← all_empty (Z.to_nat (ts_cnt_ s)) ps s;
                   '(entry_node, s) ← if (is_empty : bool) then remove_key s key else Some (None, s);
                   match entry_node with Some n => retire s n | None => Some s end
                 else Some s);
            GcAllType_loop fuel' ttl_st_map it' s bs st
      end
  end.
Definition GcAllType (s : Segment) (ttl_st_map : list (Z * TTLSt)) (bs : blocks) (st : GcStat)
    : option (Segment * blocks * GcStat) :=
  it ← it_SeekToFirst (sg_entries s);
  GcAllType_loop (size (heap (sg_entries s))) ttl_st_map it s bs st.

(** [ExecuteGc(ttl_st_map, ...)]: the map in key order *)
Definition ExecuteGc_map (s : Segment) (get_micros : Z) (ttl_st_map : list (Z * TTLSt)) (bs : blocks) (st : GcStat)
    : option (Segment * blocks * GcStat) :=
  match ttl_st_map with
  | [] => Some (s, bs, st)
  | (_, ttl) :: _ =>
      if decide (ts_cnt_ s <= 1) then ExecuteGc s get_micros ttl bs st
      else if decide (Exists (fun kv => ts_idx_map_ s !! kv.1 = None) ttl_st_map) then Some (s, bs, st)
      else if existsb (fun kv => NeedGc kv.2) ttl_st_map then GcAllType s ttl_st_map bs st
      else Some (s, bs, st)
  end.

(** ** Release *)

(** [KeyEntry::Release] *)
Fixpoint KeyEntry_Release_loop (fuel : nat) (l : TimeEntries) (it : option nat) (cnt : Z) (bs : blocks)
    : option (Z * blocks) :=
  match it with
  | None => Some (cnt, bs)
  | Some _ =>
      match fuel with
      | O => None
      | S fuel' =>
          block ← it_GetValue l it;
          '(_, bs) ← drop_block bs block;
          it' ← it_Next l it;
          KeyEntry_Release_loop fuel' l it' (u64 (cnt + 1)) bs
      end
  end.
Definition KeyEntry_Release (e : KeyEntry) (bs : blocks) : option (Z * KeyEntry * blocks) :=
  it ← it_SeekToFirst (entries e);
  '(cnt, bs) ← KeyEntry_Release_loop (size (heap (entries e))) (entries e) it 0 bs;
  '(_, l) ← Clear (entries e);
  Some (cnt, set_entries l e, bs).

(** [entry->Release(); delete entry;] *)
Definition release_entry (s : Segment) (p : nat) (bs : blocks) : option (Z * Segment * blocks) :=
  e ← deref s p;
  '(cnt, _, bs) ← KeyEntry_Release e bs;
  Some (cnt, set_sg_heap (delete p (sg_heap s)) s, bs).

(** The entry or the array a node of [entries_] holds *)
Fixpoint release_entries (ps : list nat) (cnt : Z) (s : Segment) (bs : blocks) : option (Z * Segment * blocks) :=
  match ps with
  | [] => Some (cnt, s, bs)
  | p :: ps' => '(c, s, bs) ← release_entry s p bs; release_entries ps' (u64 (cnt + c)) s bs
  end.
Definition release_value (v : option keyval) (cnt : Z) (s : Segment) (bs : blocks) : option (Z * Segment * blocks) :=
  if decide (1 < ts_cnt_ s) then
    ps ← as_array v;
    _ ← require (bool_decide (length ps = Z.to_nat (ts_cnt_ s)));
    release_entries ps cnt s bs
  else p ← as_entry v; release_entries [p] cnt s bs.

Fixpoint Release_loop (fuel : nat) (it : option nat) (cnt : Z) (s : Segment) (bs : blocks) : option (Z * Segment * blocks) :=
  match it with
  | None => Some (cnt, s, bs)
  | Some _ =>
      match fuel with
      | O => None
      | S fuel' =>
          v ← it_GetValue (sg_entries s) it;
          '(cnt, s, bs) ← match v with Some _ => release_value v cnt s bs | None => Some (cnt, s, bs) end;
          it' ← it_Next (sg_entries s) it;
          Release_loop fuel' it' cnt s bs
      end
  end.
Fixpoint Release_free_loop (fuel : nat) (f_it : option nat) (s : Segment) (bs : blocks) : option (Segment * blocks) :=
  match f_it with
  | None => Some (s, bs)
  | Some _ =>
      match fuel with
      | O => None
      | S fuel' =>
          node ← it_GetValue (entry_free_list_ s) f_it;
          n ← node;
          v ← GetValue (sg_entries s) n;
          '(_, s, bs) ← release_value v 0 s bs;
          s ← delete_entry_node s n;
          f_it' ← it_Next (entry_free_list_ s) f_it;
          Release_free_loop fuel' f_it' s bs
      end
  end.
Definition Release (s : Segment) (bs : blocks) : option (Z * Segment * blocks) :=
  it ← it_SeekToFirst (sg_entries s);
  '(cnt, s, bs) ← Release_loop (size (heap (sg_entries s))) it 0 s bs;
  '(_, l) ← Clear (sg_entries s);
  let s := set_sg_entries l s in
  f_it ← it_SeekToFirst (entry_free_list_ s);
  '(s, bs) ← Release_free_loop (size (heap (entry_free_list_ s))) f_it s bs;
  '(_, fl) ← Clear (entry_free_list_ s);
  Some (cnt, set_cnt_vec [] (set_free_list fl s), bs).

(** [ReleaseAndCount]: the iterator stands on the node just removed when it is
    advanced. *)
Fixpoint ReleaseAndCount_loop (fuel : nat) (it : option nat) (s : Segment) (bs : blocks) (st : GcStat)
    : option (Segment * blocks * GcStat) :=
  match it with
  | None => Some (s, bs, st)
  | Some _ =>
      match fuel with
      | O => None
      | S fuel' =>
          key ← it_GetKey (sg_entries s) it;
          '(entry_node, s) ← remove_key s key;
          '(s, bs, st) ← FreeEntry s entry_node bs st;
          it' ← it_Next (sg_entries s) it;
          ReleaseAndCount_loop fuel' it' (set_pk_cnt (u64 (pk_cnt_ s - 1)) s) bs st
      end
  end.
Definition ReleaseAndCount (s : Segment) (bs : blocks) (st : GcStat) : option (Segment * blocks * GcStat) :=
  it ← it_SeekToFirst (sg_entries s);
  '(s, bs, st) ← ReleaseAndCount_loop (size (heap (sg_entries s))) it s bs st;
  '(s, bs, st) ← GcEntryFreeList s (gc_version_ s) bs st;
  '(_, s, bs) ← Release s bs;
  Some (s, bs, st).

(** ** Readers *)

Definition Ticket_Push (s : Segment) (t : Ticket) (p : nat) : option (Segment * Ticket) :=
  e ← deref s p; Some (set_entry p (Ref e) s, p :: t).
Definition Ticket_Pop (s : Segment) (t : Ticket) : option (Segment * Ticket) :=
  match t with
  | [] => Some (s, [])
  | p :: t' => e ← deref s p; Some (set_entry p (UnRef e) s, t')
  end.
(** The destructor releases every entry. *)
Fixpoint Ticket_destroy (s : Segment) (t : Ticket) : option Segment :=
  match t with
  | [] => Some s
  | p :: t' => s ← Ticket_destroy s t'; e ← deref s p; Some (set_entry p (UnRef e) s)
  end.

Definition NewIterator (s : Segment) (key : bytes) (ticket : Ticket) : option (MemTableIterator * Segment * Ticket) :=
  if decide (1 < ts_cnt_ s) then Some (None, s, ticket)
  else
    entry ← find_entry s key;
    match entry with
    | None => Some (None, s, ticket)
    | Some _ =>
        p ← as_entry entry;
        '(s, ticket) ← Ticket_Push s ticket p;
        Some (Some (p, None), s, ticket)
    end.
Definition NewIterator_idx (s : Segment) (key : bytes) (idx : Z) (ticket : Ticket)
    : option (MemTableIterator * Segment * Ticket) :=
  match ts_idx_map_ s !! idx with
  | None => Some (None, s, ticket)
  | Some pos =>
      if decide (ts_cnt_ s = 1) then NewIterator s key ticket
      else
        entry ← find_entry s key;
        match entry with
        | None => Some (None, s, ticket)
        | Some _ =>
            p ← entry_at entry pos;
            '(s, ticket) ← Ticket_Push s ticket p;
            Some (Some (p, None), s, ticket)
        end
  end.

Definition mt_list (s : Segment) (p : nat) : option TimeEntries := e ← deref s p; Some (entries e).
Definition mt_Seek (s : Segment) (it : MemTableIterator) (time : Z) : option MemTableIterator :=
  match it with
  | None => Some None
  | Some (p, _) => l ← mt_list s p; n ← it_Seek l time; Some (Some (p, n))
  end.
Definition mt_Valid (it : MemTableIterator) : bool :=
  match it with None => false | Some (_, n) => it_Valid n end.
Definition mt_Next (s : Segment) (it : MemTableIterator) : option MemTableIterator :=
  match it with
  | None => Some None
  | Some (p, n) => l ← mt_list s p; n ← it_Next l n; Some (Some (p, n))
  end.
Definition mt_GetKey (s : Segment) (it : MemTableIterator) : option Z :=
  '(p, n) ← it; l ← mt_list s p; it_GetKey l n.
Definition mt_GetValue (s : Segment) (bs : blocks) (it : MemTableIterator) : option bytes :=
  '(p, n) ← it; l ← mt_list s p; v ← it_GetValue l n; b ← v; blk ← bs !! b; Some (data blk).
Definition mt_SeekToFirst (s : Segment) (it : MemTableIterator) : option MemTableIterator :=
  match it with
  | None => Some None
  | Some (p, _) => l ← mt_list s p; n ← it_SeekToFirst l; Some (Some (p, n))
  end.
Definition mt_SeekToLast (s : Segment) (it : MemTableIterator) : option MemTableIterator :=
  match it with
  | None => Some None
  | Some (p, _) => l ← mt_list s p; Some (Some (p, it_SeekToLast l))
  end.
End release.
