(* ===== verification/SegmentInv.v ===== *)
(** The invariant of a segment with one timestamp column.

    [seg_core s live dead]: the keys [live] are in [entries_], the keys [dead]
    are removed nodes waiting in [entry_free_list_]; every allocated [KeyEntry]
    and node of [entries_] belongs to exactly one of them, and the counters are
    exact. *)
From S2P Require Import Prelude Slice Random Skiplist SkiplistInv SkiplistInsert SkiplistSplit SkiplistSpec SkiplistNodes Segment SegmentGc.

(** * SegmentFree: Reference counting of data blocks, and what [FreeList] gives back.

    [blocks_rep bs R]: the blocks of [bs] are exactly those the references [R]
    name, each counting how often; a block is allocated as long as someone
    refers to it, and no longer. *)
(** ** Occurrences in a list *)
Definition occ (b : nat) (R : list nat) : nat := length (filter (fun x => x = b) R).

Lemma occ_nil b : occ b [] = 0%nat.
Proof. done. Qed.
Lemma occ_cons b x R : occ b (x :: R) = ((if decide (x = b) then 1 else 0) + occ b R)%nat.
Proof. unfold occ. rewrite filter_cons. by case_decide. Qed.
Lemma occ_app b R S : occ b (R ++ S) = (occ b R + occ b S)%nat.
Proof. unfold occ. by rewrite filter_app, length_app. Qed.
#[global] Instance occ_perm b : Proper ((≡ₚ) ==> eq) (occ b).
Proof. intros R S HRS. unfold occ. by rewrite HRS. Qed.
Lemma occ_elem b R : b ∈ R <-> occ b R <> 0%nat.
Proof.
  induction R as [|x R IH]; [split; [by intros ?%elem_of_nil|done]|]. rewrite occ_cons, elem_of_cons, IH. case_decide; naive_solver lia.
Qed.

Definition blocks_rep (bs : blocks) (R : list nat) : Prop :=
  forall b, match bs !! b with
            | Some blk => dim_cnt_down blk = Z.of_nat (occ b R) /\ 1 <= dim_cnt_down blk < 2 ^ 8
            | None => occ b R = 0%nat
            end.

#[global] Instance blocks_rep_perm bs : Proper ((≡ₚ) ==> iff) (blocks_rep bs).
Proof.
  intros R S HRS. unfold blocks_rep. split; intros Hb b; specialize (Hb b); destruct (bs !! b); by rewrite ?HRS, <- ?HRS in *.
Qed.

Lemma blocks_rep_lookup bs R b : blocks_rep bs R -> b ∈ R -> is_Some (bs !! b).
Proof. intros Hb Hin%occ_elem. specialize (Hb b). destruct (bs !! b); [eauto|done]. Qed.

Lemma blocks_rep_nil bs : blocks_rep bs [] -> bs = ∅.
Proof.
  intros Hb. apply map_empty. intros b. specialize (Hb b). destruct (bs !! b) as [blk|]; [|done].
  rewrite occ_nil in Hb. lia.
Qed.

(** A new block with [n] references *)
Lemma new_block_rep bs R n value b bs' : blocks_rep bs R -> 1 <= n < 2 ^ 8 -> new_block bs n value = (b, bs') ->
  bs !! b = None /\ bs' = <[b := MkDataBlock n value]> bs /\ blocks_rep bs' (replicate (Z.to_nat n) b ++ R).
Proof.
  intros Hb Hn [= <- <-]. set (b := fresh (dom bs)).
  assert (Hf : bs !! b = None) by (apply not_elem_of_dom; apply is_fresh).
  rewrite uwrap_id by (unfold in_uint; lia). split; [done|]. split; [done|]. intros b'. rewrite occ_app. destruct (decide (b' = b)) as [->|Hne].
  - rewrite lookup_insert_eq. specialize (Hb b). rewrite Hf in Hb. rewrite Hb. cbn.
    assert (occ b (replicate (Z.to_nat n) b) = Z.to_nat n) as ->; [|lia].
    unfold occ. rewrite filter_all; [by rewrite length_replicate|]. intros x Hx. by apply elem_of_replicate in Hx as [-> _].
  - rewrite lookup_insert_ne by done. specialize (Hb b').
    assert (occ b' (replicate (Z.to_nat n) b) = 0%nat) as ->; [|done].
    destruct (decide (occ b' (replicate (Z.to_nat n) b) = 0%nat)) as [|Ho]; [done|].
    apply occ_elem in Ho. by apply elem_of_replicate in Ho as [-> _].
Qed.

(** A row of a key: its timestamp, its block, and the height of its node *)
Abbreviation row := (Z * nat * nat)%type.
Definition node_row (r : row) : Z * option nat * nat := (r.1.1, Some r.1.2, r.2).
Definition row_blocks (rows : list row) : list nat := (fun r => r.1.2) <$> rows.

Section free.
Context `{Layout}.

(** ** What is given back *)

(** The bytes the blocks account for in [gc_record_byte_size] *)
Definition blocks_bytes (bs : blocks) : Z :=
  map_fold (fun _ blk acc => GetRecordSize (block_size blk) + acc) 0 bs.

(** Between two moments of a collection, the rows that went are in the
    statistics and the others unchanged. *)
Record gc_step (bs bs' : blocks) (st st' : GcStat) (rows : nat) : Prop := {
  gs_idx : gc_idx_cnt st' = u64 (gc_idx_cnt st + Z.of_nat rows);
  gs_cnt : gc_record_cnt st' = u64 (gc_record_cnt st + (Z.of_nat (size bs) - Z.of_nat (size bs')));
  gs_bytes : gc_record_byte_size st' = u64 (gc_record_byte_size st + (blocks_bytes bs - blocks_bytes bs'));
  gs_data : forall b blk', bs' !! b = Some blk' -> exists blk, bs !! b = Some blk /\ data blk' = data blk
}.

Definition stat_ok (st : GcStat) : Prop :=
  in_uint 64 (gc_idx_cnt st) /\ in_uint 64 (gc_record_cnt st) /\ in_uint 64 (gc_record_byte_size st).

Lemma gc_step_refl bs st : stat_ok st -> gc_step bs bs st st 0.
Proof.
  intros (? & ? & ?). split; rewrite ?Z.sub_diag, ?Z.add_0_r, ?uwrap_id by done; eauto.
Qed.

Lemma gc_step_trans bs1 bs2 bs3 st1 st2 st3 n m : gc_step bs1 bs2 st1 st2 n -> gc_step bs2 bs3 st2 st3 m ->
  gc_step bs1 bs3 st1 st3 (n + m).
Proof.
  intros [A1 A2 A3 A4] [B1 B2 B3 B4]. split.
  - rewrite B1, A1, uwrap_add_l. f_equal. lia.
  - rewrite B2, A2, uwrap_add_l. f_equal. lia.
  - rewrite B3, A3, uwrap_add_l. f_equal. lia.
  - intros b blk3 (blk2 & H2 & E2)%B4. destruct (A4 _ _ H2) as (blk1 & H1 & E1). exists blk1. split; [done|congruence].
Qed.

Lemma gc_step_ok bs bs' st st' n : gc_step bs bs' st st' n -> stat_ok st'.
Proof. intros [E1 E2 E3 _]. unfold stat_ok. rewrite E1, E2, E3. split_and!; apply uwrap_range; lia. Qed.

Lemma blocks_bytes_insert bs b blk : bs !! b = None ->
  blocks_bytes (<[b := blk]> bs) = GetRecordSize (block_size blk) + blocks_bytes bs.
Proof. intros Hb. unfold blocks_bytes. rewrite map_fold_insert_L; [done| |done]. intros; lia. Qed.

Lemma blocks_bytes_delete bs b blk : bs !! b = Some blk ->
  blocks_bytes bs = GetRecordSize (block_size blk) + blocks_bytes (delete b bs).
Proof. intros Hb. rewrite <- (insert_delete_id bs b blk Hb) at 1. apply blocks_bytes_insert, lookup_delete_eq. Qed.

(** The references the blocks count *)
Definition block_refs (bs : blocks) : Z := map_fold (fun _ blk acc => dim_cnt_down blk + acc) 0 bs.

Lemma block_refs_insert bs b blk : bs !! b = None -> block_refs (<[b := blk]> bs) = dim_cnt_down blk + block_refs bs.
Proof. intros Hb. unfold block_refs. rewrite map_fold_insert_L; [done| |done]. intros; lia. Qed.
Lemma block_refs_delete bs b blk : bs !! b = Some blk -> block_refs bs = dim_cnt_down blk + block_refs (delete b bs).
Proof. intros Hb. rewrite <- (insert_delete_id bs b blk Hb) at 1. apply block_refs_insert, lookup_delete_eq. Qed.

(** Dropping one reference *)
Lemma drop_block_spec bs b R : blocks_rep bs (b :: R) ->
  exists freed bs', drop_block bs (Some b) = Some (freed, bs') /\ blocks_rep bs' R /\
    Z.of_nat (size bs) = Z.of_nat (size bs') + match freed with Some _ => 1 | None => 0 end /\
    blocks_bytes bs = blocks_bytes bs' + match freed with Some blk => GetRecordSize (block_size blk) | None => 0 end /\
    block_refs bs = block_refs bs' + 1 /\
    (forall b' blk', bs' !! b' = Some blk' -> exists blk, bs !! b' = Some blk /\ data blk' = data blk).
Proof.
  intros Hb. pose proof (Hb b) as Hbb. rewrite occ_cons, decide_True in Hbb by done.
  assert (Ho : forall b', b' <> b -> occ b' (b :: R) = occ b' R) by (intros b' ?; by rewrite occ_cons, decide_False).
  unfold drop_block. cbn [mbind option_bind]. destruct (bs !! b) as [blk|] eqn:E; [|lia]. cbn [mbind option_bind].
  destruct Hbb as [Hd Hr]. destruct (decide (1 < dim_cnt_down blk)) as [Hgt|Hle].
  - rewrite (uwrap_id 8) by (unfold in_uint; lia). eexists None, _. split; [done|]. split; [|split; [|split; [|split]]].
    + intros b'. destruct (decide (b' = b)) as [->|Hne]; [rewrite lookup_insert_eq; cbn; lia|].
      rewrite lookup_insert_ne by done. specialize (Hb b'). by rewrite Ho in Hb.
    + rewrite map_size_insert_Some by eauto. lia.
    + rewrite <- (insert_delete_eq bs). rewrite blocks_bytes_insert by apply lookup_delete_eq. rewrite (blocks_bytes_delete bs b blk E).
      unfold block_size. cbn [data]. lia.
    + rewrite <- (insert_delete_eq bs), block_refs_insert, (block_refs_delete bs b blk E) by apply lookup_delete_eq. cbn. lia.
    + intros b' blk'. destruct (decide (b' = b)) as [->|Hne]; [|rewrite lookup_insert_ne by done; eauto].
      rewrite lookup_insert_eq. intros [= <-]. eauto.
  - eexists (Some blk), _. split; [done|]. split; [|split; [|split; [|split]]].
    + intros b'. destruct (decide (b' = b)) as [->|Hne]; [rewrite lookup_delete_eq; lia|].
      rewrite lookup_delete_ne by done. specialize (Hb b'). by rewrite Ho in Hb.
    + rewrite map_size_delete_Some by eauto. assert (size bs <> 0%nat) by (eapply map_size_ne_0_lookup_2; eauto). lia.
    + rewrite (blocks_bytes_delete bs b blk E). lia.
    + rewrite (block_refs_delete bs b blk E). lia.
    + intros b' blk' Hb'. apply lookup_delete_Some in Hb' as [_ ?]. eauto.
Qed.

Lemma blocks_rep_refs R : forall bs, blocks_rep bs R -> block_refs bs = Z.of_nat (length R).
Proof.
  induction R as [|b R IH]; intros bs Hb; [by rewrite (blocks_rep_nil bs Hb)|].
  destruct (drop_block_spec bs b R Hb) as (freed & bs' & _ & Hb' & _ & _ & Hr & _). rewrite Hr, (IH bs' Hb'). simpl. lia.
Qed.

(** ** [FreeList] *)

Definition row_bytes (rows : list row) : Z := foldr (fun r acc => GetRecordTsIdxSize (Z.of_nat r.2) + acc) 0 rows.

Lemma row_bytes_app a b : row_bytes (a ++ b) = row_bytes a + row_bytes b.
Proof. induction a as [|r a IH]; [done|]. simpl. rewrite IH. lia. Qed.
Lemma row_bytes_perm a b : a ≡ₚ b -> row_bytes a = row_bytes b.
Proof. induction 1; simpl; lia. Qed.

Lemma FreeList_loop_spec R c : forall rows fuel l a xs B bs st,
  nrep l a xs -> chain l c -> nodes l c (node_row <$> rows) -> NoDup (head_ l :: a ++ c) -> (length c <= fuel)%nat ->
  blocks_rep bs (row_blocks rows ++ R) -> stat_ok st -> in_uint 64 B ->
  exists l' bs' st', FreeList_loop fuel l (head c) B bs st = Some (l', u64 (B - row_bytes rows), bs', st') /\
    nrep l' a xs /\ kept l l' /\ blocks_rep bs' R /\ gc_step bs bs' st st' (length rows).
Proof.
  induction c as [|q c IH]; intros rows fuel l a xs B bs st Hl Hc Hn Hnd Hf Hb Hst HB.
  { apply Forall2_nil_inv_l in Hn. apply fmap_nil_inv in Hn as ->. exists l, bs, st. cbn. rewrite Z.sub_0_r, uwrap_id by done.
    split; [by destruct fuel|]. split; [done|]. split; [done|]. split; [done|]. by apply gc_step_refl. }
  destruct rows as [|[[t b] h] rows]; [by inversion Hn|]. apply Forall2_cons in Hn as [Hq Hn].
  destruct fuel as [|fuel]; [simpl in Hf; lia|]. cbn [FreeList_loop head].
  apply chain_cons in Hc as [Hnx Hc]. rewrite Height_info, GetValue_info, Hq, Hnx. cbn [fmap option_fmap option_map mbind option_bind node_row fst snd].
  destruct (drop_block_spec bs b (row_blocks rows ++ R)) as (freed & bs1 & -> & Hb1 & Hsz & Hby & _ & Hdata); [done|].
  cbn [mbind option_bind]. set (st1 := match freed with Some _ => _ | None => _ end).
  assert (Hstep : gc_step bs bs1 st st1 1).
  { destruct Hst as (? & ? & ?). unfold st1. destruct freed as [blk|]; split; cbn; try done; try (f_equal; lia);
      rewrite uwrap_id; [lia| |lia|]; (replace (_ - _) with 0 by lia); by rewrite Z.add_0_r. }
  assert (Hq' : q ∉ head_ l :: a).
  { intros Hin. change (head_ l :: a ++ q :: c) with ((head_ l :: a) ++ q :: c) in Hnd.
    apply NoDup_app in Hnd as (_ & Hd & _). apply (Hd q Hin). left. }
  destruct (DeleteNode_nrep l a xs q Hl Hq') as (l1 & -> & Hl1 & Hdn); [eauto|]. cbn [mbind option_bind].
  pose proof (dn_kept _ _ _ Hdn) as Hk.
  assert (Hqc : q ∉ c).
  { apply NoDup_cons in Hnd as [_ Hnd]. apply NoDup_app in Hnd as (_ & _ & Hnd). by apply NoDup_cons in Hnd as [? _]. }
  destruct (IH rows fuel l1 a xs (u64 (B - GetRecordTsIdxSize (Z.of_nat h))) bs1 st1) as (l' & bs' & st' & -> & Hl' & Hk' & Hb' & Hs').
  - done.
  - eapply chain_frame; [|done]. intros p Hp. apply (dn_links _ _ _ Hdn). congruence.
  - eapply nodes_ext; [|done]. intros p Hp. rewrite (dn_info _ _ _ Hdn), decide_False; congruence.
  - rewrite (kp_head _ _ Hk). eapply sublist_NoDup; [exact Hnd|]. apply sublist_skip, sublist_app; [done|]. by apply sublist_cons.
  - simpl in Hf. lia.
  - done.
  - by eapply gc_step_ok.
  - apply uwrap_range. lia.
  - exists l', bs', st'. split; [|split; [done|split; [|split; [done|]]]].
    + rewrite uwrap_sub_l. change (row_bytes ((t, b, h) :: rows)) with (GetRecordTsIdxSize (Z.of_nat h) + row_bytes rows).
      by rewrite <- Z.sub_add_distr.
    + destruct Hk, Hk'. split; congruence.
    + by apply (gc_step_trans bs bs1 bs' st st1 st' 1).
Qed.
End free.

(** * SegmentEntry: The time-ordered list of one key: what [KeyEntry] operations do to its
    rows. *)
(** A key of the segment: the node of [entries_] that holds it, the [KeyEntry]
    it points to, the readers of the entry and its rows, newest first *)
Record key_state : Type := KeyState {
  ks_node : nat;
  ks_height : nat;
  ks_id : nat;
  ks_refs : Z;
  ks_rows : list row
}.
Definition with_rows (rows : list row) (ks : key_state) : key_state :=
  KeyState (ks_node ks) (ks_height ks) (ks_id ks) (ks_refs ks) rows.
Definition with_refs (refs : Z) (ks : key_state) : key_state :=
  KeyState (ks_node ks) (ks_height ks) (ks_id ks) refs (ks_rows ks).

(** How many rows of a key are newer than [t] *)
Definition newer (t : Z) (rows : list row) : nat := seq_before t ((node_row <$> rows).*1).

Lemma newer_cons t r rows : newer t (r :: rows) = if decide (t < r.1.1) then S (newer t rows) else 0%nat.
Proof.
  unfold newer. cbn. unfold adv_lt, compare_, time_comparator, TimeComparator.
  destruct (decide (t < r.1.1)); [done|]. by case_decide.
Qed.

(** Rows in the order of the list *)
Definition rows_sorted (rows : list row) : Prop := StronglySorted (fun x y => y.1.1 <= x.1.1) rows.

Lemma newer_le t rows : (newer t rows <= length rows)%nat.
Proof. induction rows as [|r rows IH]; [done|]. rewrite newer_cons. case_decide; simpl; lia. Qed.

(** On sorted rows the first [newer t] are those with a timestamp above [t]. *)
Lemma take_newer t rows : rows_sorted rows -> take (newer t rows) rows = filter (fun r => t < r.1.1) rows.
Proof.
  induction 1 as [|r rows Hs IH Hr]; [done|]. rewrite newer_cons, filter_cons. destruct (decide (t < r.1.1)) as [Hlt|Hge].
  - simpl. by rewrite IH.
  - symmetry. apply filter_none. rewrite Forall_forall in Hr. intros x Hx Hgt. specialize (Hr x Hx). simpl in Hr. lia.
Qed.

Section entry.
Context `{Layout}.

(** [e] holds the rows of [ks]. *)
Record entry_rep (e : KeyEntry) (ks : key_state) : Prop := {
  er_list : exists c, nrep (entries e) c (node_row <$> ks_rows ks);
  er_refs : refs_ e = ks_refs ks;
  er_count : count_ e = u64 (Z.of_nat (length (ks_rows ks)));
  er_mh : (MaxHeight (entries e) < 256)%nat
}.

(** [e] holds the first [n] rows; the rest hang off [r], still allocated and
    counted. *)
Record entry_cut (e : KeyEntry) (ks : key_state) (n : nat) (r : option nat) : Prop := {
  ec_list : exists c, nrep (entries e) (take n c) (node_row <$> take n (ks_rows ks)) /\ r = head (drop n c) /\
    chain (entries e) (drop n c) /\ nodes (entries e) (drop n c) (node_row <$> drop n (ks_rows ks)) /\
    NoDup (head_ (entries e) :: c) /\ (length c < size (heap (entries e)))%nat;
  ec_refs : refs_ e = ks_refs ks;
  ec_count : count_ e = u64 (Z.of_nat (length (ks_rows ks)));
  ec_mh : (MaxHeight (entries e) < 256)%nat
}.

Lemma KeyEntry_new_rep height ks : 1 <= height < 256 -> ks_refs ks = 0 -> ks_rows ks = [] -> entry_rep (KeyEntry_new height) ks.
Proof.
  intros Hh Hr Hrows. split; rewrite ?Hrows; [|done|done|cbn [entries KeyEntry_new MaxHeight Skiplist_new]; lia].
  exists []. apply nrep_full_nrep, Skiplist_new_nrep. lia.
Qed.

Lemma entry_sorted e ks : entry_rep e ks -> rows_sorted (ks_rows ks).
Proof.
  intros [(c & Hn%nrep_sorted) _ _ _]. unfold rows_sorted. revert Hn. induction (ks_rows ks) as [|r rows IH]; intros Hs; [constructor|].
  apply StronglySorted_inv in Hs as [Hs Hx]. constructor; [by apply IH|]. apply (Forall_fmap node_row) in Hx. eapply Forall_impl; [exact Hx|].
  intros x. cbn. unfold compare_, time_comparator, TimeComparator. repeat case_decide; lia.
Qed.

Lemma set_entry_twice p e e' s : set_entry p e (set_entry p e' s) = set_entry p e s.
Proof. unfold set_entry, set_sg_heap. cbn. by rewrite insert_insert_eq. Qed.
Lemma set_entry_id p e s : deref s p = Some e -> set_entry p e s = s.
Proof. intros He. unfold set_entry, set_sg_heap. rewrite insert_id by done. by destruct s. Qed.
Lemma deref_set_entry p e s : deref (set_entry p e s) p = Some e.
Proof. apply lookup_insert_eq. Qed.

(** ** Insertion *)
Lemma insert_time_spec s p e ks t b : deref s p = Some e -> entry_rep e ks ->
  exists h e', insert_time s p t b = Some (h, set_entry p e' s) /\
    entry_rep e' (with_rows (ins_at (newer t (ks_rows ks)) (t, b, h) (ks_rows ks)) ks) /\ (1 <= h < 256)%nat.
Proof.
  intros He [(c & Hn) Hr Hc Hm]. unfold insert_time. rewrite He. cbn [mbind option_bind].
  destruct (Insert_nrep (entries e) c _ t (Some b) Hn) as (h & l' & -> & Hn' & Hin). cbn [mbind option_bind].
  pose proof (kp_MaxHeight _ _ (in_kept _ _ _ _ _ Hin)) as Hk.
  eexists h, _. split; [done|]. split; [split; cbn [entries refs_ count_ with_rows ks_rows ks_refs]|pose proof (in_height _ _ _ _ _ Hin); lia].
  - eexists. rewrite fmap_ins_at. exact Hn'.
  - done.
  - rewrite Hc, uwrap_add_l. f_equal. rewrite ins_at_perm. simpl. lia.
  - by rewrite Hk.
Qed.

(** ** Cutting *)

(** The number of rows a splitting call keeps *)
Definition splits (split : TimeEntries -> option (option nat * TimeEntries)) (rows : list row) (n : nat) : Prop :=
  forall l c, nrep l c (node_row <$> rows) -> cut_at l c (node_row <$> rows) n (split l).

Lemma cut_entry e ks split n : entry_rep e ks -> splits split (ks_rows ks) n ->
  exists r l, split (entries e) = Some (r, l) /\ entry_cut (set_entries l e) ks n r.
Proof.
  intros [(c & Hn) Hr Hc Hm] Hs. destruct (Hs _ c Hn) as (r & l & -> & Hn' & Hh & Hch & Hi & Hk & Hnp).
  exists r, l. split; [done|]. split; cbn [entries refs_ count_ set_entries]; [|done|done|by rewrite (kp_MaxHeight _ _ Hk)]. exists c. rewrite fmap_take. split; [done|]. split; [done|]. split; [done|].
  split; [|split].
  - rewrite fmap_drop. apply Forall2_drop. eapply nodes_ext; [intros; apply Hi|]. by eapply nrep_nodes.
  - rewrite (kp_head _ _ Hk). by eapply nrep_NoDup.
  - rewrite (info_size _ _ Hi). by eapply nrep_size.
Qed.

Lemma uncut_entry e ks : entry_rep e ks -> entry_cut e ks (length (ks_rows ks)) None.
Proof.
  intros [(c & Hn) Hr Hc Hm]. pose proof (nrep_length _ _ _ Hn) as Hlen. rewrite length_fmap in Hlen. split; [|done|done|done].
  exists c. rewrite !take_ge, !drop_ge by lia. split; [done|]. split; [done|]. split; [done|]. split; [constructor|].
  split; [by eapply nrep_NoDup|by eapply nrep_size].
Qed.

(** The rows a collection keeps: all of them when a reader holds the entry *)
Definition kept_rows (refs : Z) (n : nat) (rows : list row) : nat := if decide (refs <= 0) then n else length rows.

Lemma split_entry_spec s p e ks split n : deref s p = Some e -> entry_rep e ks -> splits split (ks_rows ks) n ->
  exists r e', split_entry s p split = Some (r, set_entry p e' s) /\ entry_cut e' ks (kept_rows (ks_refs ks) n (ks_rows ks)) r.
Proof.
  intros He Hks Hs. unfold split_entry, kept_rows. rewrite He. cbn [mbind option_bind]. rewrite (er_refs _ _ Hks).
  destruct (decide (ks_refs ks <= 0)) as [Hle|Hgt].
  - destruct (cut_entry e ks split n Hks Hs) as (r & l & -> & Hc). cbn [mbind option_bind]. eauto.
  - exists None, e. rewrite (set_entry_id _ _ _ He). split; [done|]. by apply uncut_entry.
Qed.

(** [IsEmpty] of a cut list *)
Lemma cut_IsEmpty e ks n r : entry_cut e ks n r -> IsEmpty (entries e) = Some (bool_decide (take n (ks_rows ks) = [])).
Proof.
  intros [(c & Hn & _) _ _ _]. rewrite (IsEmpty_rep _ _ (nrep_rep _ _ _ Hn)). f_equal. by destruct (take n (ks_rows ks)).
Qed.

(** ** Freeing the rows cut off *)
Lemma FreeList_spec s p e ks n r bs st R : deref s p = Some e -> entry_cut e ks n r ->
  blocks_rep bs (row_blocks (drop n (ks_rows ks)) ++ R) -> stat_ok st -> in_uint 64 (idx_byte_size_ s) ->
  exists l bs' st', FreeList s p r bs st =
      Some (set_idx_byte_size (u64 (idx_byte_size_ s - row_bytes (drop n (ks_rows ks)))) (set_entry p (set_entries l e) s), bs', st') /\
    (exists c, nrep l c (node_row <$> take n (ks_rows ks))) /\ MaxHeight l = MaxHeight (entries e) /\ blocks_rep bs' R /\ gc_step bs bs' st st' (length (drop n (ks_rows ks))).
Proof.
  intros He [(c & Hn & -> & Hch & Hnd & Hdup & Hsz) Hr Hc Hm] Hb Hst HB. unfold FreeList. rewrite He. cbn [mbind option_bind].
  destruct (FreeList_loop_spec R (drop n c) (drop n (ks_rows ks)) (size (heap (entries e))) (entries e) (take n c) _ (idx_byte_size_ s) bs st Hn)
    as (l & bs' & st' & -> & Hl & Hk & Hb' & Hg); try done.
  { by rewrite take_drop. }
  { rewrite length_drop. lia. }
  cbn [mbind option_bind]. exists l, bs', st'. split; [done|]. split; [eauto|]. split; [apply Hk|done].
Qed.

Lemma FreeList_counted_spec s p e ks n r bs st R : deref s p = Some e -> entry_cut e ks n r ->
  blocks_rep bs (row_blocks (drop n (ks_rows ks)) ++ R) -> stat_ok st -> in_uint 64 (idx_byte_size_ s) ->
  exists e' bs' st', FreeList_counted s p r bs st =
      Some (u64 (Z.of_nat (length (drop n (ks_rows ks)))),
            set_entry p e' (set_idx_byte_size (u64 (idx_byte_size_ s - row_bytes (drop n (ks_rows ks)))) s), bs', st') /\
    entry_rep e' (with_rows (take n (ks_rows ks)) ks) /\ blocks_rep bs' R /\ gc_step bs bs' st st' (length (drop n (ks_rows ks))).
Proof.
  intros He Hcut Hb Hst HB. unfold FreeList_counted.
  destruct (FreeList_spec s p e ks n r bs (MkGcStat 0 (gc_record_cnt st) (gc_record_byte_size st)) R He Hcut Hb) as (l & bs' & st' & -> & Hl & Hmh & Hb' & Hg).
  { destruct Hst as (_ & ? & ?). split; [by unfold in_uint|done]. }
  { done. }
  cbn [mbind option_bind]. change (deref _ p) with (deref (set_entry p (set_entries l e) s) p). rewrite deref_set_entry. cbn [mbind option_bind].
  destruct Hg as [Hi H1 H2 H3]. cbn in Hi. eexists _, bs', _. split; [|split; [|split; [exact Hb'|]]].
  - rewrite Hi. cbn [Z.add]. unfold set_entry, set_idx_byte_size, set_sg_heap; cbn. rewrite insert_insert_eq. done.
  - split; cbn [entries refs_ count_ set_entries set_count]; [done|apply Hcut| |rewrite Hmh; apply Hcut]. rewrite (ec_count _ _ _ _ Hcut), ?Hi. cbn [Z.add]. rewrite uwrap_sub_l.
    unfold uwrap. rewrite Zminus_mod_idemp_r. f_equal. cbn [with_rows ks_rows]. rewrite length_take, length_drop. lia.
  - split; cbn; try done. rewrite ?Hi. cbn [Z.add]. unfold uwrap. by rewrite Zplus_mod_idemp_r.
Qed.

(** ** Freeing a whole entry *)

Lemma newer_first r rows : newer r.1.1 (r :: rows) = 0%nat.
Proof. rewrite newer_cons. apply decide_False. lia. Qed.

Lemma free_key_entry_spec s p e ks bs st R : deref s p = Some e -> entry_rep e ks ->
  blocks_rep bs (row_blocks (ks_rows ks) ++ R) -> stat_ok st -> in_uint 64 (idx_byte_size_ s) ->
  exists bs' st', free_key_entry s p bs st =
      Some (set_sg_heap (delete p (sg_heap s)) (set_idx_byte_size (u64 (idx_byte_size_ s - row_bytes (ks_rows ks))) s), bs', st') /\
    blocks_rep bs' R /\ gc_step bs bs' st st' (length (ks_rows ks)).
Proof.
  intros He Hks Hb Hst HB. destruct (er_list _ _ Hks) as [c Hn]. unfold free_key_entry. rewrite He. cbn [mbind option_bind].
  destruct (nrep_chain _ _ _ Hn) as [-> Hch]. cbn [mbind option_bind]. destruct (ks_rows ks) as [|r rows] eqn:Er.
  - apply nrep_nodes, Forall2_nil_inv_r in Hn as ->. cbn. rewrite Z.sub_0_r, uwrap_id by done. exists bs, st.
    split; [by destruct s|]. split; [done|]. by apply gc_step_refl.
  - pose proof (nrep_nodes _ _ _ Hn) as Hnodes. destruct c as [|q c]; [by inversion Hnodes|].
    apply Forall2_cons in Hnodes as [Hq _]. change (it_Valid (head (q :: c))) with true. cbn beta iota.
    unfold it_GetKey. cbn [mbind option_bind head]. rewrite GetKey_info, Hq. cbn [fmap option_fmap option_map mbind option_bind node_row fst].
    destruct (cut_entry e ks (fun l => Split l r.1.1) 0 Hks) as (d & l & -> & Hc).
    { rewrite Er. intros l c' Hl. pose proof (Split_cut l c' _ r.1.1 Hl) as Hcut.
      change (seq_before _ _) with (newer r.1.1 (r :: rows)) in Hcut. by rewrite newer_first in Hcut. }
    cbn [mbind option_bind].
    destruct (FreeList_spec (set_entry p (set_entries l e) s) p (set_entries l e) ks 0 d bs st R) as (l' & bs' & st' & -> & _ & _ & Hb' & Hg);
      [apply deref_set_entry|done|by rewrite Er, drop_0|done|done|].
    cbn [mbind option_bind]. rewrite drop_0, Er in Hg. exists bs', st'. split; [|done].
    rewrite drop_0, Er, set_entry_twice. unfold set_entry, set_sg_heap, set_idx_byte_size. cbn. by rewrite delete_insert_eq.
Qed.
End entry.

(** * SegmentInv *)
Abbreviation keyed := (bytes * key_state)%type.
Definition node_of (x : keyed) : nat := ks_node x.2.
Definition id_of (x : keyed) : nat := ks_id x.2.
Definition rows_of (x : keyed) : list row := ks_rows x.2.
(** What the node of a key carries *)
Definition key_node (x : keyed) : bytes * option keyval * nat := (x.1, Some (OneEntry (id_of x)), ks_height x.2).

Definition total_rows (ks : list keyed) : nat := sum_list (length ∘ rows_of <$> ks).
Definition keyed_blocks (ks : list keyed) : list nat := ks ≫= (row_blocks ∘ rows_of).

Lemma perm_mid {A} (a b d : list A) x : (a ++ x :: b) ++ d ≡ₚ x :: a ++ b ++ d.
Proof. rewrite <- app_assoc. cbn. by rewrite <- Permutation_middle. Qed.
Lemma sum_list_perm (a b : list nat) : a ≡ₚ b -> sum_list a = sum_list b.
Proof. induction 1; simpl; lia. Qed.
#[global] Instance total_rows_perm : Proper ((≡ₚ) ==> eq) total_rows.
Proof. intros a b Hab. apply sum_list_perm. by rewrite Hab. Qed.
#[global] Instance keyed_blocks_perm : Proper ((≡ₚ) ==> (≡ₚ)) keyed_blocks.
Proof. intros a b Hab. unfold keyed_blocks. by rewrite Hab. Qed.
Lemma total_rows_app a b : total_rows (a ++ b) = (total_rows a + total_rows b)%nat.
Proof. unfold total_rows. by rewrite fmap_app, sum_list_with_app. Qed.
Lemma total_rows_cons x ks : total_rows (x :: ks) = (length (rows_of x) + total_rows ks)%nat.
Proof. done. Qed.
Lemma keyed_blocks_app a b : keyed_blocks (a ++ b) = keyed_blocks a ++ keyed_blocks b.
Proof. apply bind_app. Qed.
Lemma keyed_blocks_cons x ks : keyed_blocks (x :: ks) = row_blocks (rows_of x) ++ keyed_blocks ks.
Proof. done. Qed.

(** Two states of the same key *)
Definition same_key (x y : keyed) : Prop :=
  x.1 = y.1 /\ node_of x = node_of y /\ id_of x = id_of y /\ ks_height x.2 = ks_height y.2.

Section inv.
Context `{Layout}.

Definition key_bytes (s : Segment) (x : keyed) : Z :=
  GetRecordPkIdxSize (Z.of_nat (ks_height x.2)) (Z.of_nat (length x.1)) (key_entry_max_height_ s) + row_bytes (rows_of x).
Definition keys_bytes (s : Segment) (ks : list keyed) : Z := foldr (fun x acc => key_bytes s x + acc) 0 ks.

#[global] Instance keys_bytes_perm s : Proper ((≡ₚ) ==> eq) (keys_bytes s).
Proof. induction 1; simpl; lia. Qed.

(** ** Ownership *)
Record owned (s : Segment) (ks : list keyed) : Prop := {
  ow_info : Forall (fun x => info (sg_entries s) (node_of x) = Some (key_node x)) ks;
  ow_heap : Forall (fun x => exists e, deref s (id_of x) = Some e /\ entry_rep e x.2) ks;
  ow_nodes : NoDup (head_ (sg_entries s) :: (node_of <$> ks));
  ow_ids : NoDup (id_of <$> ks);
  ow_node_dom : forall p, is_Some (info (sg_entries s) p) -> p ∈ head_ (sg_entries s) :: (node_of <$> ks);
  ow_heap_dom : forall p, is_Some (deref s p) -> p ∈ id_of <$> ks;
  ow_fresh : Forall (fun x => (id_of x < sg_next s)%nat) ks;
  ow_pk : pk_cnt_ s = u64 (Z.of_nat (length ks));
  ow_bytes : idx_byte_size_ s = u64 (keys_bytes s ks)
}.

#[global] Instance owned_perm s : Proper ((≡ₚ) ==> iff) (owned s).
Proof.
  assert (Hp : forall a b, a ≡ₚ b -> owned s a -> owned s b).
  { intros a b Hab []. split; try (by rewrite <- Hab).
    - intros p Hp. rewrite <- Hab. auto.
    - intros p Hp. rewrite <- Hab. auto. }
  intros a b Hab. split; by apply Hp.
Qed.

(** The part of the state ownership speaks of *)
Record same_owned (s s' : Segment) : Prop := {
  so_info : forall p, info (sg_entries s') p = info (sg_entries s) p;
  so_head : head_ (sg_entries s') = head_ (sg_entries s);
  so_heap : sg_heap s' = sg_heap s;
  so_next : sg_next s' = sg_next s;
  so_pk : pk_cnt_ s' = pk_cnt_ s;
  so_bytes : idx_byte_size_ s' = idx_byte_size_ s;
  so_height : key_entry_max_height_ s' = key_entry_max_height_ s
}.

Lemma owned_same s s' ks : same_owned s s' -> owned s ks -> owned s' ks.
Proof.
  intros [E1 E2 E3 E4 E5 E6 E7] [H1 H2 H3 H4 H5 H6 H7 H8 H9].
  assert (Hd : forall p, deref s' p = deref s p) by (intros p; unfold deref; by rewrite E3).
  split; rewrite ?E2, ?E4, ?E5, ?E6; try done.
  - eapply Forall_impl; [exact H1|]. intros x. by rewrite E1.
  - eapply Forall_impl; [exact H2|]. intros x. by rewrite Hd.
  - intros p. rewrite E1. apply H5.
  - intros p. rewrite Hd. apply H6.
  - rewrite H9. f_equal. unfold keys_bytes, key_bytes. by rewrite E7.
Qed.

Lemma owned_entry s x ks : owned s (x :: ks) -> exists e, deref s (id_of x) = Some e /\ entry_rep e x.2.
Proof. intros [_ Hh _ _ _ _ _ _ _]. by apply Forall_cons in Hh as [? _]. Qed.

Lemma owned_deref_ne s x ks : owned s (x :: ks) -> Forall (fun y => id_of y <> id_of x) ks.
Proof.
  intros [_ _ _ Hi _ _ _ _ _]. apply NoDup_cons in Hi as [Hi _]. apply Forall_forall. intros y Hy E. apply Hi.
  rewrite <- E. by apply list_elem_of_fmap_2.
Qed.

(** Changing the rows or readers of one key *)
Lemma owned_update s x x' ks e : owned s (x :: ks) -> same_key x x' -> entry_rep e x'.2 ->
  owned (set_entry (id_of x) e (set_idx_byte_size (u64 (idx_byte_size_ s - row_bytes (rows_of x) + row_bytes (rows_of x'))) s)) (x' :: ks).
Proof.
  intros Ho (E1 & E2 & E3 & E4) He. pose proof (owned_deref_ne _ _ _ Ho) as Hne. destruct Ho as [H1 H2 H3 H4 H5 H6 H7 H8 H9].
  apply Forall_cons in H1 as [Hx1 H1], H2 as [Hx2 H2], H7 as [Hx7 H7].
  split; cbn; try done.
  - constructor; [|done]. unfold key_node. by rewrite <- E1, <- E2, <- E3, <- E4.
  - constructor; [exists e; split; [|done]; rewrite <- E3; apply lookup_insert_eq|].
    rewrite Forall_forall in H2, Hne |- *. intros y Hy. unfold deref. cbn. rewrite lookup_insert_ne; [by apply H2|]. by apply not_eq_sym, Hne.
  - by rewrite <- E2.
  - by rewrite <- E3.
  - intros p Hp. rewrite <- E2. by apply H5.
  - intros p. unfold deref. cbn. rewrite <- E3. destruct (decide (p = id_of x)) as [->|Hp]; [intros; left|].
    rewrite lookup_insert_ne by done. apply H6.
  - constructor; [by rewrite <- E3|done].
  - rewrite H9. unfold uwrap. rewrite <- Zplus_mod_idemp_l, Zminus_mod_idemp_l, Zplus_mod_idemp_l. f_equal.
    change (keys_bytes s (x :: ks)) with (key_bytes s x + keys_bytes s ks).
    change (foldr _ 0 ks) with (keys_bytes s ks).
    unfold key_bytes. rewrite <- E1, <- E4. cbn. lia.
Qed.

(** A key whose object was freed and node deleted *)
Lemma owned_remove s x ks s' : owned s (x :: ks) ->
  sg_heap s' = delete (id_of x) (sg_heap s) -> deleted_node (sg_entries s) (node_of x) (sg_entries s') ->
  sg_next s' = sg_next s -> pk_cnt_ s' = u64 (pk_cnt_ s - 1) -> key_entry_max_height_ s' = key_entry_max_height_ s ->
  idx_byte_size_ s' = u64 (idx_byte_size_ s - key_bytes s x) -> owned s' ks.
Proof.
  intros Ho Eh Ed En Ep Ek Eb. pose proof (owned_deref_ne _ _ _ Ho) as Hne. destruct Ho as [H1 H2 H3 H4 H5 H6 H7 H8 H9].
  apply Forall_cons in H1 as [Hx1 H1], H2 as [Hx2 H2], H7 as [Hx7 H7].
  pose proof (kp_head _ _ (dn_kept _ _ _ Ed)) as Ehd.
  assert (Hnode : Forall (fun y => node_of y <> node_of x) ks).
  { rewrite fmap_cons in H3. apply NoDup_cons in H3 as [_ H3]. apply NoDup_cons in H3 as [H3 _].
    apply Forall_forall. intros y Hy E. apply H3. rewrite <- E. by apply list_elem_of_fmap_2. }
  rewrite !fmap_cons in *. split; rewrite ?Ehd, ?En.
  - rewrite Forall_forall in H1, Hnode |- *. intros y Hy. rewrite (dn_info _ _ _ Ed), decide_False; auto.
  - rewrite Forall_forall in H2, Hne |- *. intros y Hy. unfold deref. rewrite Eh, lookup_delete_ne; [by apply H2|]. by apply not_eq_sym, Hne.
  - apply NoDup_cons in H3 as [Hh H3]. apply NoDup_cons in H3 as [_ H3]. apply NoDup_cons. split; [|done].
    intros Hin. apply Hh. by right.
  - by apply NoDup_cons in H4 as [_ ?].
  - intros p. rewrite (dn_info _ _ _ Ed). case_decide as Hp; [by intros []|]. intros Hi%H5.
    apply elem_of_cons in Hi as [->|Hi]; [left|]. apply elem_of_cons in Hi as [->|Hi]; [done|by right].
  - intros p. unfold deref. rewrite Eh. destruct (decide (p = id_of x)) as [->|Hp].
    + rewrite lookup_delete_eq. by intros [].
    + rewrite lookup_delete_ne by done. intros Hi%H6. by apply elem_of_cons in Hi as [?|?].
  - done.
  - rewrite Ep, H8, uwrap_sub_l. f_equal. simpl length. lia.
  - rewrite Eb, H9, uwrap_sub_l. f_equal. unfold keys_bytes, key_bytes. rewrite Ek. simpl. lia.
Qed.

(** ** The invariant *)

(** The free list in its order: versions and node addresses *)
Definition free_node (y : Z * keyed) : Z * option nat := (y.1, Some (node_of y.2)).

Record seg_core (s : Segment) (live : list keyed) (dead : list (Z * keyed)) : Prop := {
  sc_ts : ts_cnt_ s = 1;
  sc_height : 1 <= key_entry_max_height_ s < 256;
  sc_mh : (MaxHeight (sg_entries s) < 256)%nat;
  sc_keys : nrep_full (sg_entries s) (node_of <$> live) (key_node <$> live);
  sc_free : exists c xs, nrep (entry_free_list_ s) c xs /\ xs.*1 = free_node <$> dead;
  sc_distinct : NoDup live.*1;
  sc_owned : owned s (live ++ dead.*2)
}.

(** The keys as the list of [entries_] stores them *)
Definition key_pair (x : keyed) : bytes * option keyval := (x.1, Some (OneEntry (id_of x))).

Lemma key_pairs live : (key_node <$> live).*1 = key_pair <$> live.
Proof. by rewrite <- list_fmap_compose. Qed.
Lemma key_pairs_keys live : (key_pair <$> live).*1 = live.*1.
Proof. by rewrite <- list_fmap_compose. Qed.

Lemma core_sorted s live dead : seg_core s live dead -> StronglySorted (fun x y => compare_ x.1 y.1 <= 0) (key_pair <$> live).
Proof. intros Hc. rewrite <- key_pairs. by eapply rep_sorted, nrep_rep, nrep_full_nrep, sc_keys. Qed.

Lemma core_before s a x b dead : seg_core s (a ++ x :: b) dead -> seq_before x.1 (key_pair <$> (a ++ x :: b)) = length a.
Proof.
  intros Hc. pose proof (core_sorted _ _ _ Hc) as Hs. pose proof (sc_distinct _ _ _ Hc) as Hd. rewrite <- key_pairs_keys in Hd.
  rewrite fmap_app, fmap_cons in *. etransitivity; [exact (seq_before_at _ _ _ _ Hs Hd)|apply length_fmap].
Qed.

Lemma find_entry_at s a x b dead : seg_core s (a ++ x :: b) dead -> find_entry s x.1 = Some (Some (OneEntry (id_of x))).
Proof.
  intros Hc. pose proof (core_sorted _ _ _ Hc) as Hs. pose proof (sc_distinct _ _ _ Hc) as Hd. rewrite <- key_pairs_keys in Hd.
  unfold find_entry. rewrite (Get_rep _ _ _ (nrep_rep _ _ _ (nrep_full_nrep _ _ _ (sc_keys _ _ _ Hc)))), key_pairs.
  rewrite fmap_app, fmap_cons in *. pose proof (seq_get_at _ _ _ _ Hs Hd) as E. change (x.1, _) with (key_pair x) in E. by rewrite E.
Qed.

Lemma find_entry_absent s live dead key : seg_core s live dead -> key ∉ live.*1 -> find_entry s key = Some None.
Proof.
  intros Hc Hk. unfold find_entry. rewrite (Get_rep _ _ _ (nrep_rep _ _ _ (nrep_full_nrep _ _ _ (sc_keys _ _ _ Hc)))), key_pairs.
  destruct (seq_get_absent key (key_pair <$> live)) as [E|E]; [by rewrite key_pairs_keys|by rewrite E|by rewrite E].
Qed.

(** ** One key retired: removed from [entries_] and put on the free list *)

Lemma remove_key_at s a x b dead : seg_core s (a ++ x :: b) dead ->
  exists l, Remove (sg_entries s) x.1 = Some (Some (node_of x), l) /\
    nrep_full l (node_of <$> a ++ b) (key_node <$> a ++ b) /\
    (forall p, info l p = info (sg_entries s) p) /\ kept (sg_entries s) l.
Proof.
  intros Hc. pose proof (sc_keys _ _ _ Hc) as Hk. rewrite (fmap_app node_of), fmap_cons in Hk.
  pose proof (ow_info _ _ (sc_owned _ _ _ Hc)) as Hi. rewrite Forall_forall in Hi.
  destruct (Remove_found (sg_entries s) _ _ _ _ x.1 (key_node x) Hk) as (l & -> & Hl & Hin & Hkp & _).
  - by rewrite key_pairs, (core_before _ _ _ _ _ Hc), length_fmap.
  - apply Hi. apply elem_of_app. left. apply elem_of_app_cons.
  - apply cmp_refl.
  - exists l. split; [done|]. split; [|done]. rewrite !fmap_app. rewrite fmap_app, fmap_cons in Hl.
    rewrite length_fmap in Hl. rewrite take_app_length' in Hl by (by rewrite length_fmap).
    rewrite (cons_middle (key_node x)), app_assoc, drop_app_length' in Hl by (rewrite length_app, length_fmap; simpl; lia). done.
Qed.

(** The place of a version in the free list *)
Definition free_pos (v : Z) (dead : list (Z * keyed)) : nat := seq_before v (free_node <$> dead).

Lemma retire_at s a x b dead : seg_core s (a ++ x :: b) dead ->
  exists l h fl, Remove (sg_entries s) x.1 = Some (Some (node_of x), l) /\
    Insert (entry_free_list_ s) (gc_version_ s) (Some (node_of x)) = Some (h, fl) /\
    seg_core (set_free_list fl (set_sg_entries l s)) (a ++ b) (ins_at (free_pos (gc_version_ s) dead) (gc_version_ s, x) dead).
Proof.
  intros Hc. destruct (remove_key_at _ _ _ _ _ Hc) as (l & Hr & Hl & Hin & [Hh Hmh]). destruct (sc_free _ _ _ Hc) as (c & xs & Hf & Hx).
  destruct (Insert_nrep (entry_free_list_ s) c xs (gc_version_ s) (Some (node_of x)) Hf) as (h & fl & Hi & Hf' & _).
  exists l, h, fl. split; [done|]. split; [done|]. split; cbn.
  - apply Hc.
  - apply Hc.
  - rewrite Hmh. apply Hc.
  - done.
  - do 2 eexists. split; [exact Hf'|]. by rewrite !fmap_ins_at, Hx.
  - eapply sublist_NoDup; [apply (sc_distinct _ _ _ Hc)|]. rewrite !fmap_app, fmap_cons. apply sublist_app; [done|by apply sublist_cons].
  - eapply (owned_perm _ (x :: a ++ b ++ dead.*2)); [|eapply (owned_same s); [by split|]].
    + rewrite fmap_ins_at, ins_at_perm. cbn. rewrite <- app_assoc. by rewrite <- !Permutation_middle.
    + rewrite <- perm_mid. apply Hc.
Qed.
End inv.
