(* ===== verification/SegmentGcInv.v ===== *)
(** Collections keep the invariant and cut every key's rows as specified. *)
From S2P Require Import Prelude Slice Random Skiplist SkiplistInv SkiplistInsert SkiplistSplit SkiplistSpec SkiplistNodes Segment SegmentGc.
From S2P Require Import SegmentRelease SegmentInv.

(** * SegmentPut: [Put] and the readers' operations keep the invariant. *)
(** What the accounting in [uint32_t] needs: object sizes far below its range *)
Class SmallLayout `{Layout} : Prop := {
  sl_block : 0 <= DATA_BLOCK_BYTE_SIZE < 2 ^ 16;
  sl_entry : 0 <= KEY_ENTRY_BYTE_SIZE < 2 ^ 16;
  sl_node : 0 <= ENTRY_NODE_SIZE < 2 ^ 16;
  sl_data : 0 <= DATA_NODE_SIZE < 2 ^ 16
}.
(** Keys short enough for [Slice]'s 32-bit size *)
Definition key_ok (key : bytes) : Prop := Z.of_nat (length key) < 2 ^ 31.

Section put.
Context `{SmallLayout}.

Lemma core_same_lists s s' live dead : seg_core s live dead -> sg_entries s' = sg_entries s -> entry_free_list_ s' = entry_free_list_ s ->
  ts_cnt_ s' = ts_cnt_ s -> key_entry_max_height_ s' = key_entry_max_height_ s -> forall live', owned s' (live' ++ dead.*2) ->
  node_of <$> live' = node_of <$> live -> key_node <$> live' = key_node <$> live -> seg_core s' live' dead.
Proof.
  intros [C1 C2 C3 C4 C5 C6 C7] E1 E2 E3 E4 live' Ho En Ek. split; rewrite ?E1, ?E2, ?E3, ?E4, ?En, ?Ek; try done.
  assert (live'.*1 = live.*1) as ->; [|done]. rewrite <- !key_pairs_keys, <- !key_pairs. by rewrite Ek.
Qed.

Lemma same_key_node x x' : same_key x x' -> node_of x' = node_of x /\ key_node x' = key_node x.
Proof. intros (E1 & E2 & E3 & E4). unfold key_node. rewrite E1, E3, E4. done. Qed.

(** One live key changed in place *)
Lemma core_update s a x b dead x' e : seg_core s (a ++ x :: b) dead -> same_key x x' -> entry_rep e x'.2 ->
  seg_core (set_entry (id_of x) e (set_idx_byte_size (u64 (idx_byte_size_ s - row_bytes (rows_of x) + row_bytes (rows_of x'))) s))
    (a ++ x' :: b) dead.
Proof.
  intros Hc Hs He. destruct (same_key_node _ _ Hs) as [En Ek]. eapply core_same_lists; [exact Hc|done..| | |].
  - rewrite perm_mid. apply owned_update; [|done|done]. rewrite <- perm_mid. apply Hc.
  - rewrite !fmap_app, !fmap_cons. by rewrite En.
  - rewrite !fmap_app, !fmap_cons. by rewrite Ek.
Qed.

Lemma core_entry s a x b dead : seg_core s (a ++ x :: b) dead -> exists e, deref s (id_of x) = Some e /\ entry_rep e x.2.
Proof.
  intros Hc. pose proof (ow_heap _ _ (sc_owned _ _ _ Hc)) as Hh. rewrite Forall_forall in Hh. apply Hh.
  apply elem_of_app. left. apply elem_of_app_cons.
Qed.

Lemma core_bytes s live dead : seg_core s live dead -> in_uint 64 (idx_byte_size_ s).
Proof. intros Hc. rewrite (ow_bytes _ _ (sc_owned _ _ _ Hc)). apply uwrap_range. lia. Qed.

Lemma ts_size_u32 h : (h < 256)%nat -> GetRecordTsIdxSize (Z.of_nat h) = Z.of_nat h * 8 + DATA_NODE_SIZE.
Proof. intros Hh. unfold GetRecordTsIdxSize. apply uwrap_id. pose proof sl_data. unfold in_uint. lia. Qed.

(** The two parts of a new key's size add up without wrapping. *)
Lemma put_bytes_u32 h key height h' : (h < 256)%nat -> (h' < 256)%nat -> key_ok key -> 0 <= height < 256 ->
  u32 (u32 (0 + GetRecordPkIdxSize (Z.of_nat h) (Z.of_nat (length key)) height) + GetRecordTsIdxSize (Z.of_nat h')) =
  GetRecordPkIdxSize (Z.of_nat h) (Z.of_nat (length key)) height + GetRecordTsIdxSize (Z.of_nat h').
Proof.
  intros Hh Hh' Hk Hht. rewrite (ts_size_u32 _ Hh'). pose proof sl_data. pose proof sl_entry. pose proof sl_node. unfold key_ok in Hk.
  set (sz := GetRecordPkIdxSize _ _ _).
  assert (0 <= sz < 2 ^ 31 + 2 ^ 20) as Hsz by (unfold sz, GetRecordPkIdxSize; rewrite uwrap_id; unfold in_uint; lia).
  rewrite Z.add_0_l, (uwrap_id 32 sz) by (unfold in_uint; lia). apply uwrap_id. unfold in_uint. lia.
Qed.

(** ** A key that is present *)
Lemma insert_row_spec s a x b dead t blk : seg_core s (a ++ x :: b) dead ->
  exists h s' x', insert_time s (id_of x) t blk = Some (h, s') /\ (1 <= h < 256)%nat /\ same_key x x' /\
    ks_refs x'.2 = ks_refs x.2 /\ rows_of x' = ins_at (newer t (rows_of x)) (t, blk, h) (rows_of x) /\
    seg_core (set_idx_byte_size (u64 (idx_byte_size_ s + GetRecordTsIdxSize (Z.of_nat h))) s') (a ++ x' :: b) dead /\
    exists e', s' = set_entry (id_of x) e' s.
Proof.
  intros Hc. destruct (core_entry _ _ _ _ _ Hc) as (e & He & Hrep).
  destruct (insert_time_spec s (id_of x) e x.2 t blk He Hrep) as (h & e' & Hi & Hrep' & Hh).
  exists h, (set_entry (id_of x) e' s), (x.1, with_rows (ins_at (newer t (rows_of x)) (t, blk, h) (rows_of x)) x.2).
  split; [done|]. split; [done|]. split; [done|]. split; [done|]. split; [done|]. split; [|eauto].
  assert (Hs : same_key x (x.1, with_rows (ins_at (newer t (rows_of x)) (t, blk, h) (rows_of x)) x.2)) by done.
  pose proof (core_update s a x b dead _ e' Hc Hs Hrep') as Hc'. cbn [rows_of snd with_rows ks_rows] in Hc'.
  rewrite (row_bytes_perm _ _ (ins_at_perm _ _ _)) in Hc'. cbn [row_bytes foldr] in Hc'.
  match goal with Hc' : seg_core (set_entry _ _ (set_idx_byte_size (u64 ?z) _)) _ _ |- _ =>
    replace z with (idx_byte_size_ s + GetRecordTsIdxSize (Z.of_nat h)) in Hc' end; [exact Hc'|].
  unfold row_bytes. cbn. lia.
Qed.

(** ** A new key *)

(** A segment [s'] that differs from [s] by a new key [x] *)
Record key_added (s s' : Segment) (x : keyed) : Prop := {
  ka_heap : exists e, sg_heap s' = <[sg_next s := e]> (sg_heap s) /\ entry_rep e x.2;
  ka_id : id_of x = sg_next s;
  ka_next : sg_next s' = S (sg_next s);
  ka_node : node_of x = next_ptr (sg_entries s);
  ka_list : inserted_node (sg_entries s) x.1 (Some (OneEntry (id_of x))) (ks_height x.2) (sg_entries s');
  ka_pk : pk_cnt_ s' = u64 (pk_cnt_ s + 1);
  ka_height : key_entry_max_height_ s' = key_entry_max_height_ s;
  ka_bytes : idx_byte_size_ s' = u64 (idx_byte_size_ s + key_bytes s x)
}.

Lemma owned_add s s' x ks c xs : owned s ks -> nrep (sg_entries s) c xs -> key_added s s' x -> owned s' (x :: ks).
Proof.
  intros [H1 H2 H3 H4 H5 H6 H7 H8 H9] Hn [(e & Eh & He) Ei En Ex Hin Ep Ekh Eb].
  pose proof (kp_head _ _ (in_kept _ _ _ _ _ Hin)) as Ehd. pose proof (nrep_fresh _ _ _ (next_ptr (sg_entries s)) Hn) as Hfr.
  assert (Hids : sg_next s ∉ id_of <$> ks).
  { intros (y & Hy & Hyin)%list_elem_of_fmap. rewrite Forall_forall in H7. specialize (H7 y Hyin). lia. }
  assert (Hnew : next_ptr (sg_entries s) ∉ head_ (sg_entries s) :: (node_of <$> ks)).
  { intros Hi. assert (is_Some (info (sg_entries s) (next_ptr (sg_entries s)))) as Hs; [|specialize (Hfr Hs); lia].
    apply elem_of_cons in Hi as [->|(y & -> & Hy)%list_elem_of_fmap]; [rewrite (nrep_head _ _ _ Hn); eauto|].
    rewrite Forall_forall in H1. rewrite (H1 y Hy). eauto. }
  split; rewrite ?fmap_cons, ?Ehd, ?En.
  - constructor; [rewrite (in_info _ _ _ _ _ Hin), decide_True by done; done|].
    rewrite Forall_forall in H1 |- *. intros y Hy. rewrite (in_info _ _ _ _ _ Hin), decide_False; [by apply H1|].
    intros E. apply Hnew. rewrite <- E. right. by apply list_elem_of_fmap_2.
  - constructor; [exists e; split; [|done]; unfold deref; by rewrite Eh, Ei, lookup_insert_eq|].
    rewrite Forall_forall in H2 |- *. intros y Hy. unfold deref. rewrite Eh, lookup_insert_ne; [by apply H2|].
    intros E. apply Hids. rewrite E. by apply list_elem_of_fmap_2.
  - rewrite Ex. apply NoDup_cons in H3 as [Hh H3]. apply not_elem_of_cons in Hnew as [Hne Hnew]. constructor; [|by constructor].
    apply not_elem_of_cons. split; [congruence|done].
  - rewrite Ei. by constructor.
  - intros p. rewrite (in_info _ _ _ _ _ Hin), Ex. case_decide as Hp; [intros; right; rewrite Hp; left|].
    intros Hi%H5. apply elem_of_cons in Hi as [->|Hi]; [left|right; by right].
  - intros p. unfold deref. rewrite Eh, Ei. destruct (decide (p = sg_next s)) as [->|Hp]; [intros; left|].
    rewrite lookup_insert_ne by done. intros Hi%H6. by right.
  - constructor; [lia|]. eapply Forall_impl; [exact H7|]. cbn. lia.
  - rewrite Ep, H8, uwrap_add_l. f_equal. simpl length. lia.
  - rewrite Eb, H9, uwrap_add_l. f_equal. unfold keys_bytes, key_bytes. rewrite Ekh. simpl. lia.
Qed.

(** The key list after a new key, the free list unchanged *)
Lemma core_add s s' live dead x : seg_core s live dead -> x.1 ∉ live.*1 -> key_added s s' x ->
  nrep_full (sg_entries s') (ins_at (seq_before x.1 (key_pair <$> live)) (node_of x) (node_of <$> live))
    (ins_at (seq_before x.1 (key_pair <$> live)) (key_node x) (key_node <$> live)) ->
  ts_cnt_ s' = ts_cnt_ s -> entry_free_list_ s' = entry_free_list_ s ->
  seg_core s' (ins_at (seq_before x.1 (key_pair <$> live)) x live) dead.
Proof.
  intros Hc Hx Ha Hn Et Ef. split.
  - rewrite Et. apply Hc.
  - rewrite (ka_height _ _ _ Ha). apply Hc.
  - rewrite (kp_MaxHeight _ _ (in_kept _ _ _ _ _ (ka_list _ _ _ Ha))). apply Hc.
  - by rewrite !fmap_ins_at.
  - rewrite Ef. apply Hc.
  - rewrite fmap_ins_at, ins_at_perm. constructor; [done|apply Hc].
  - rewrite ins_at_perm. cbn. eapply owned_add; [apply Hc|eapply nrep_full_nrep, (sc_keys _ _ _ Hc)|done].
Qed.

(** The part of [Put] that makes the key; [idx_byte_size_] is raised here and
    in the code at the end. *)
Lemma new_key_spec s live dead key : seg_core s live dead -> key ∉ live.*1 ->
  let n := seq_before key (key_pair <$> live) in
  let s1 := (new_entry s).2 in
  exists h l x, Insert (sg_entries s1) key (Some (OneEntry (sg_next s))) = Some (h, l) /\ (1 <= h < 256)%nat /\
    x.1 = key /\ id_of x = sg_next s /\ ks_refs x.2 = 0 /\ rows_of x = [] /\
    seg_core (set_idx_byte_size (u64 (idx_byte_size_ s + GetRecordPkIdxSize (Z.of_nat h) (Z.of_nat (length key)) (key_entry_max_height_ s)))
                (set_pk_cnt (u64 (pk_cnt_ s + 1)) (set_sg_entries l s1)))
      (ins_at n x live) dead.
Proof.
  intros Hc Hk n s1. destruct (Insert_nrep_full (sg_entries s) _ _ key (Some (OneEntry (sg_next s))) (sc_keys _ _ _ Hc)) as (h & l & Hi & Hn & Hin).
  rewrite key_pairs in Hn. pose proof (in_height _ _ _ _ _ Hin). pose proof (sc_mh _ _ _ Hc).
  exists h, l, (key, KeyState (next_ptr (sg_entries s)) h (sg_next s) 0 []). split; [done|]. split; [lia|]. split_and!; try done.
  apply (core_add s _ live dead (key, KeyState (next_ptr (sg_entries s)) h (sg_next s) 0 [])); [done|done| |exact Hn|done|done]. split; try done.
  - eexists. split; [done|]. apply KeyEntry_new_rep; [apply Hc|done|done].
  - unfold key_bytes. cbn. by rewrite Z.add_0_r.
Qed.

(** ** [Put] *)

(** The keys after a row was added: in place, or a new key in its place *)
Inductive put_keys (key : bytes) (t : Z) (blk h : nat) : list keyed -> list keyed -> Prop :=
  | put_old a x b x' : x.1 = key -> same_key x x' -> ks_refs x'.2 = ks_refs x.2 ->
      rows_of x' = ins_at (newer t (rows_of x)) (t, blk, h) (rows_of x) -> put_keys key t blk h (a ++ x :: b) (a ++ x' :: b)
  | put_new live x n : key ∉ live.*1 -> x.1 = key -> ks_refs x.2 = 0 -> rows_of x = [(t, blk, h)] ->
      put_keys key t blk h live (ins_at n x live).

(** What an operation on the contents leaves alone *)
Record same_config (s s' : Segment) : Prop := {
  cf_version : gc_version_ s' = gc_version_ s;
  cf_offset : ttl_offset_ s' = ttl_offset_ s;
  cf_map : ts_idx_map_ s' = ts_idx_map_ s
}.

Lemma insert_time_ext s s1 p t blk h e : deref s1 p = deref s p -> insert_time s p t blk = Some (h, set_entry p e s) ->
  insert_time s1 p t blk = Some (h, set_entry p e s1).
Proof.
  unfold insert_time. intros ->. destruct (deref s p) as [e0|]; [|done]. cbn. destruct (Insert _ _ _) as [[h' l]|]; [|done]. cbn.
  intros [= -> Hs]. apply (f_equal (.!! p)) in Hs. rewrite !lookup_insert_eq in Hs. by injection Hs as <-.
Qed.

Lemma live_split (live : list keyed) key : key ∈ live.*1 -> exists a x b, live = a ++ x :: b /\ x.1 = key.
Proof. intros (x & -> & Hx)%list_elem_of_fmap. destruct (list_elem_of_split _ _ Hx) as (a & b & ->). eauto. Qed.

Lemma core_idx_cnt c s live dead : seg_core s live dead -> seg_core (set_idx_cnt c s) live dead.
Proof. intros Hc. eapply core_same_lists; [exact Hc|done..| |done|done]. eapply owned_same; [|apply Hc]. by split. Qed.

Lemma Put_row_spec s live dead key t blk : seg_core s live dead -> key_ok key ->
  exists s' live' h, Put_row s key t blk = Some s' /\ put_keys key t blk h live live' /\ seg_core s' live' dead /\
    idx_cnt_ s' = u64 (idx_cnt_ s + 1) /\ same_config s s'.
Proof.
  intros Hc Hk. unfold Put_row. rewrite (sc_ts _ _ _ Hc), decide_False by lia.
  destruct (decide (key ∈ live.*1)) as [(a & x & b & -> & Hx)%live_split|Hnew].
  - rewrite <- Hx, (find_entry_at _ _ _ _ _ Hc). cbn [mbind option_bind as_entry]. set (s1 := set_idx_cnt _ s).
    destruct (insert_row_spec s1 a x b dead t blk (core_idx_cnt _ _ _ _ Hc)) as (h & s2 & x' & -> & Hh & Hs & Hr & Hrows & Hc2 & e & He).
    cbn [mbind option_bind]. eexists _, (a ++ x' :: b), h. split; [done|]. split; [by constructor|]. split; [|by subst s2].
    rewrite Z.add_0_l, (ts_size_u32 h) by lia. pose proof sl_data.
    rewrite (uwrap_id 32) by (unfold in_uint; lia). rewrite <- (ts_size_u32 h) by lia. by subst s2.
  - rewrite (find_entry_absent _ _ _ _ Hc Hnew). cbn [mbind option_bind].
    destruct (new_key_spec s live dead key Hc Hnew) as (h & l & x & Hi & Hh & Hx & Hid & Hr & Hrows & Hc1).
    change (new_entry s) with (sg_next s, (new_entry s).2). cbn beta iota. rewrite Hi. cbn [mbind option_bind as_entry].
    set (s1 := set_idx_cnt _ _). unfold ins_at in Hc1.
    destruct (insert_row_spec _ _ x _ dead t blk (core_idx_cnt (u64 (idx_cnt_ s + 1)) _ _ _ Hc1)) as (h' & s2 & x' & Hit & Hh' & Hs & Hr' & Hrows' & Hc2 & e & He).
    rewrite Hid in *. subst s2. rewrite ((fun E => insert_time_ext _ s1 _ _ _ _ _ E Hit) eq_refl). cbn [mbind option_bind].
    eexists _, _, h'. split; [done|]. split; [eapply (put_new _ _ _ _ live x'); [done|by destruct Hs as [<- _]|by rewrite Hr'|by rewrite Hrows', Hrows]|].
    split; [|done]. change (key_entry_max_height_ _) with (key_entry_max_height_ s).
    rewrite put_bytes_u32; [|lia|lia|done|destruct (sc_height _ _ _ Hc); lia].
    cbn [idx_byte_size_ set_idx_cnt set_idx_byte_size set_entry set_sg_heap] in Hc2 |- *. rewrite uwrap_add_l, <- Z.add_assoc in Hc2. exact Hc2.
Qed.
End put.

(** * SegmentGcInv *)
(** The key after a cut that keeps [keep rows] rows *)
Definition cut_len (keep : list row -> nat) (x : keyed) : nat := kept_rows (ks_refs x.2) (keep (rows_of x)) (rows_of x).
Definition cut_key (keep : list row -> nat) (x : keyed) : keyed := (x.1, with_rows (take (cut_len keep x) (rows_of x)) x.2).
Definition cut_off (keep : list row -> nat) (x : keyed) : list row := drop (cut_len keep x) (rows_of x).

(** The keys a collection leaves, from the keys still to visit: a key whose
    rows are all gone moves to the free list. *)
Fixpoint gc_keys (keep : list row -> nat) (version : Z) (todo : list keyed) (dead : list (Z * keyed)) : list keyed * list (Z * keyed) :=
  match todo with
  | [] => ([], dead)
  | x :: rest =>
      if decide (rows_of (cut_key keep x) = [])
      then gc_keys keep version rest (ins_at (free_pos version dead) (version, cut_key keep x) dead)
      else let '(live, dead) := gc_keys keep version rest dead in (cut_key keep x :: live, dead)
  end.
Definition gc_freed (keep : list row -> nat) (todo : list keyed) : nat := sum_list (length ∘ cut_off keep <$> todo).

Lemma gc_freed_cons keep x todo : gc_freed keep (x :: todo) = (length (cut_off keep x) + gc_freed keep todo)%nat.
Proof. done. Qed.

Lemma cut_rows keep x : rows_of x = rows_of (cut_key keep x) ++ cut_off keep x.
Proof. symmetry. apply take_drop. Qed.

Lemma cut_all_kept keep x : (length (rows_of x) <= cut_len keep x)%nat -> cut_key keep x = x /\ cut_off keep x = [].
Proof.
  intros Hl. unfold cut_key, cut_off. rewrite take_ge, drop_ge by done. by destruct x as [k []].
Qed.

Section gc_inv.
Context `{SmallLayout}.

Lemma cut_key_same keep x : same_key x (cut_key keep x).
Proof. done. Qed.

(** ** One key *)

Lemma remove_if_empty_keep s p e key : deref s p = Some e -> IsEmpty (entries e) = Some false -> remove_if_empty s p key = Some s.
Proof. intros He Hi. unfold remove_if_empty. rewrite He. cbn [mbind option_bind]. by rewrite Hi. Qed.

Lemma remove_if_empty_remove s p e key n l h fl : deref s p = Some e -> IsEmpty (entries e) = Some true ->
  Remove (sg_entries s) key = Some (Some n, l) -> Insert (entry_free_list_ s) (gc_version_ s) (Some n) = Some (h, fl) ->
  remove_if_empty s p key = Some (set_free_list fl (set_sg_entries l s)).
Proof.
  intros He Hi Hr Hf. unfold remove_if_empty, remove_key, retire. rewrite He. cbn [mbind option_bind]. rewrite Hi. cbn [mbind option_bind].
  rewrite Hr. cbn. by rewrite Hf.
Qed.

(** What a collection does to the key under the iterator *)
Record cut_step (keep : list row -> nat) (a : list keyed) (x : keyed) (b : list keyed) (dead : list (Z * keyed))
    (s : Segment) (bs : blocks) (st : GcStat) (R : list nat) (s' : Segment) (bs' : blocks) (st' : GcStat) : Prop := {
  cs_core : if decide (rows_of (cut_key keep x) = [])
            then seg_core s' (a ++ b) (ins_at (free_pos (gc_version_ s) dead) (gc_version_ s, cut_key keep x) dead)
            else seg_core s' (a ++ cut_key keep x :: b) dead;
  cs_blocks : blocks_rep bs' R;
  cs_gc : gc_step bs bs' st st' (length (cut_off keep x));
  cs_idx : idx_cnt_ s' = idx_cnt_ s;
  cs_config : same_config s s'
}.

Lemma cut_bytes keep x B :
  B - row_bytes (rows_of x) + row_bytes (rows_of (cut_key keep x)) = B - row_bytes (cut_off keep x).
Proof.
  change (rows_of (cut_key keep x)) with (take (cut_len keep x) (rows_of x)). unfold cut_off.
  rewrite <- (take_drop (cut_len keep x) (rows_of x)) at 1. rewrite row_bytes_app. lia.
Qed.

Section one.
Context s a x b dead (keep : list row -> nat) (Hc : seg_core s (a ++ x :: b) dead).
Local Abbreviation x' := (cut_key keep x).
Local Abbreviation bytes' := (u64 (idx_byte_size_ s - row_bytes (cut_off keep x))).

(** The rows cut off are freed, whatever the key list became meanwhile. *)
Lemma free_cut e1 node bs st R s2 : entry_cut e1 x.2 (cut_len keep x) node ->
  blocks_rep bs (row_blocks (cut_off keep x) ++ R) -> stat_ok st -> deref s2 (id_of x) = Some e1 -> idx_byte_size_ s2 = idx_byte_size_ s ->
  exists c e2 bs' st', FreeList_counted s2 (id_of x) node bs st = Some (c, set_entry (id_of x) e2 (set_idx_byte_size bytes' s2), bs', st') /\
    entry_rep e2 x'.2 /\ blocks_rep bs' R /\ gc_step bs bs' st st' (length (cut_off keep x)).
Proof using Hc.
  intros Hcut Hb Hst Ed Eb. pose proof (core_bytes _ _ _ Hc) as HB. rewrite <- Eb in HB |- *.
  destruct (FreeList_counted_spec s2 (id_of x) e1 x.2 (cut_len keep x) node bs st R Ed Hcut Hb Hst HB) as (e2 & bs' & st' & ? & ?).
  eauto 10.
Qed.

Lemma cut_keep e2 : entry_rep e2 x'.2 -> seg_core (set_entry (id_of x) e2 (set_idx_byte_size bytes' s)) (a ++ x' :: b) dead.
Proof using Hc.
  intros He2. pose proof (core_update s a x b dead _ e2 Hc (cut_key_same keep x) He2) as Hu. by rewrite cut_bytes in Hu.
Qed.

Lemma cut_retire : exists l h fl, Remove (sg_entries s) x.1 = Some (Some (node_of x), l) /\
  Insert (entry_free_list_ s) (gc_version_ s) (Some (node_of x)) = Some (h, fl) /\
  forall e2, entry_rep e2 x'.2 -> seg_core (set_free_list fl (set_sg_entries l (set_entry (id_of x) e2 (set_idx_byte_size bytes' s))))
    (a ++ b) (ins_at (free_pos (gc_version_ s) dead) (gc_version_ s, x') dead).
Proof using Hc.
  destruct (retire_at _ _ _ _ _ Hc) as (l & h & fl & Hr & Hi & _). exists l, h, fl. split; [done|]. split; [done|]. intros e2 He2.
  destruct (retire_at _ _ _ _ _ (cut_keep e2 He2)) as (l' & h' & fl' & Hr' & Hi' & Hcore). 
  change (Remove (sg_entries s) x.1 = Some (Some (node_of x), l')) in Hr'.
  change (Insert (entry_free_list_ s) (gc_version_ s) (Some (node_of x)) = Some (h', fl')) in Hi'.
  rewrite Hr in Hr'. rewrite Hi in Hi'. injection Hr' as <-. injection Hi' as <- <-. exact Hcore.
Qed.

Lemma cut_one split bs st R : splits split (rows_of x) (keep (rows_of x)) ->
  blocks_rep bs (row_blocks (cut_off keep x) ++ R) -> stat_ok st ->
  exists node s1 s2 c s3 bs' st', split_entry s (id_of x) split = Some (node, s1) /\
    remove_if_empty s1 (id_of x) x.1 = Some s2 /\ (rows_of x' <> [] -> s2 = s1) /\
    FreeList_counted s2 (id_of x) node bs st = Some (c, s3, bs', st') /\ cut_step keep a x b dead s bs st R s3 bs' st'.
Proof using Hc.
  intros Hs Hb Hst. destruct (core_entry _ _ _ _ _ Hc) as (e & He & Hrep).
  destruct (split_entry_spec s (id_of x) e x.2 split (keep (rows_of x)) He Hrep Hs) as (node & e1 & Hsp & Hcut). fold (cut_len keep x) in Hcut.
  pose proof (cut_IsEmpty _ _ _ _ Hcut) as Hem. change (take _ _) with (rows_of x') in Hem.
  pose proof (deref_set_entry (id_of x) e1 s) as Hd. destruct (decide (rows_of x' = [])) as [Hnil|Hne].
  - rewrite bool_decide_eq_true_2 in Hem by done. destruct cut_retire as (l & h & fl & Hr & Hi & Hcore).
    destruct (free_cut e1 node bs st R (set_free_list fl (set_sg_entries l (set_entry (id_of x) e1 s))) Hcut Hb Hst Hd eq_refl)
      as (c & e2 & bs' & st' & Hf & He2 & Hb' & Hg).
    do 7 eexists. split; [exact Hsp|]. split; [by eapply remove_if_empty_remove|]. split; [done|]. split; [exact Hf|]. split; try done.
    rewrite decide_True by done. pose proof (Hcore e2 He2) as Hc3.
    unfold set_entry, set_free_list, set_sg_entries, set_idx_byte_size, set_sg_heap in Hc3 |- *. cbn in Hc3 |- *. by rewrite insert_insert_eq.
  - rewrite bool_decide_eq_false_2 in Hem by done.
    destruct (free_cut e1 node bs st R _ Hcut Hb Hst Hd eq_refl) as (c & e2 & bs' & st' & Hf & He2 & Hb' & Hg).
    do 7 eexists. split; [exact Hsp|]. split; [by eapply remove_if_empty_keep|]. split; [done|]. split; [exact Hf|]. split; try done.
    rewrite decide_False by done. pose proof (cut_keep e2 He2) as Hu.
    unfold set_entry, set_idx_byte_size, set_sg_heap in Hu |- *. cbn in Hu |- *. by rewrite insert_insert_eq.
Qed.
End one.

(** ** All keys *)

(** The references of a segment's rows *)
Definition seg_blocks (live : list keyed) (dead : list (Z * keyed)) : list nat := keyed_blocks (live ++ dead.*2).

Record gc_done (keep : list row -> nat) (a todo : list keyed) (dead : list (Z * keyed)) (s : Segment) (bs : blocks) (st : GcStat)
    (R : list nat) (s' : Segment) (bs' : blocks) (st' : GcStat) : Prop := {
  gd_core : seg_core s' (a ++ (gc_keys keep (gc_version_ s) todo dead).1) (gc_keys keep (gc_version_ s) todo dead).2;
  gd_blocks : blocks_rep bs' (seg_blocks (a ++ (gc_keys keep (gc_version_ s) todo dead).1) (gc_keys keep (gc_version_ s) todo dead).2 ++ R);
  gd_gc : gc_step bs bs' st st' (gc_freed keep todo);
  gd_idx : idx_cnt_ s' = idx_cnt_ s;
  gd_config : same_config s s'
}.

Lemma gc_done_nil keep a dead s bs st R : seg_core s a dead -> blocks_rep bs (seg_blocks a dead ++ R) -> stat_ok st ->
  gc_done keep a [] dead s bs st R s bs st.
Proof. intros. split; cbn; rewrite ?app_nil_r; try done. by apply gc_step_refl. Qed.

Lemma same_config_trans s1 s2 s3 : same_config s1 s2 -> same_config s2 s3 -> same_config s1 s3.
Proof. intros [] []. split; congruence. Qed.

Lemma gc_done_skip keep a x todo dead s bs st R s' bs' st' : (length (rows_of x) <= cut_len keep x)%nat -> rows_of x <> [] ->
  gc_done keep (a ++ [x]) todo dead s bs st R s' bs' st' -> gc_done keep a (x :: todo) dead s bs st R s' bs' st'.
Proof.
  intros [Ek Eo]%cut_all_kept Hne [G1 G2 G3 G4 G5].
  assert (Eg : gc_keys keep (gc_version_ s) (x :: todo) dead =
    (x :: (gc_keys keep (gc_version_ s) todo dead).1, (gc_keys keep (gc_version_ s) todo dead).2)).
  { cbn [gc_keys]. rewrite Ek, decide_False by done. by destruct (gc_keys _ _ todo _). }
  split; rewrite ?Eg; cbn [fst snd]; rewrite ?(cons_middle x), ?app_assoc; try done.
  by rewrite gc_freed_cons, Eo.
Qed.

(** The references a cut leaves *)
Definition cut_refs (keep : list row -> nat) (a : list keyed) (x : keyed) (b : list keyed) (dead : list (Z * keyed)) (R : list nat) : list nat :=
  row_blocks (rows_of (cut_key keep x)) ++ keyed_blocks (a ++ b ++ dead.*2) ++ R.

Lemma cut_refs_before keep a x b dead R :
  seg_blocks (a ++ x :: b) dead ++ R ≡ₚ row_blocks (cut_off keep x) ++ cut_refs keep a x b dead R.
Proof.
  unfold seg_blocks, cut_refs. rewrite perm_mid, keyed_blocks_cons, (cut_rows keep x). unfold row_blocks. rewrite fmap_app.
  rewrite <- !app_assoc. rewrite app_assoc, (Permutation_app_comm (_ <$> _) (_ <$> cut_off keep x)), <- app_assoc. done.
Qed.

Lemma cut_refs_kept keep a x b dead R : cut_refs keep a x b dead R ≡ₚ seg_blocks (a ++ cut_key keep x :: b) dead ++ R.
Proof. unfold seg_blocks, cut_refs. by rewrite perm_mid, keyed_blocks_cons, <- app_assoc. Qed.

Lemma cut_refs_dead keep a x b dead R n v : cut_refs keep a x b dead R ≡ₚ seg_blocks (a ++ b) (ins_at n (v, cut_key keep x) dead) ++ R.
Proof.
  unfold seg_blocks, cut_refs. rewrite fmap_ins_at, ins_at_perm. cbn [snd].
  rewrite <- Permutation_middle, keyed_blocks_cons, <- !app_assoc. done.
Qed.

Lemma gc_done_cut keep a x todo dead s bs st R s1 bs1 st1 s' bs' st' :
  cut_step keep a x todo dead s bs st (cut_refs keep a x todo dead R) s1 bs1 st1 ->
  (forall a' dead', seg_core s1 (a' ++ todo) dead' -> blocks_rep bs1 (seg_blocks (a' ++ todo) dead' ++ R) -> stat_ok st1 ->
     gc_done keep a' todo dead' s1 bs1 st1 R s' bs' st') ->
  gc_done keep a (x :: todo) dead s bs st R s' bs' st'.
Proof.
  intros [C1 C2 C3 C4 C5] Hrest. pose proof (gc_step_ok _ _ _ _ _ C3) as Hst. destruct (decide (rows_of (cut_key keep x) = [])) as [Hnil|Hne].
  - assert (gc_keys keep (gc_version_ s) (x :: todo) dead =
      gc_keys keep (gc_version_ s1) todo (ins_at (free_pos (gc_version_ s) dead) (gc_version_ s, cut_key keep x) dead)) as Eg.
    { cbn [gc_keys]. rewrite decide_True by done. by rewrite (cf_version _ _ C5). }
    destruct (Hrest _ _ C1) as [G1 G2 G3 G4 G5]; [by rewrite <- cut_refs_dead|done|].
    split; rewrite ?Eg; try done; [|congruence|by eapply same_config_trans].
    exact (gc_step_trans _ _ _ _ _ _ _ _ C3 G3).
  - assert (gc_keys keep (gc_version_ s) (x :: todo) dead =
      (cut_key keep x :: (gc_keys keep (gc_version_ s1) todo dead).1, (gc_keys keep (gc_version_ s1) todo dead).2)) as Eg.
    { cbn [gc_keys]. rewrite decide_False by done. rewrite (cf_version _ _ C5). by destruct (gc_keys _ _ todo _). }
    destruct (Hrest (a ++ [cut_key keep x]) dead) as [G1 G2 G3 G4 G5]; [by rewrite <- app_assoc|by rewrite <- app_assoc; cbn; rewrite <- cut_refs_kept|done|].
    split; rewrite ?Eg; cbn [fst snd]; rewrite ?(cons_middle (cut_key keep x)), ?app_assoc; try done; [|congruence|by eapply same_config_trans].
    exact (gc_step_trans _ _ _ _ _ _ _ _ C3 G3).
Qed.
End gc_inv.

(** * SegmentGcLoops: The four collections of a segment with one timestamp column, loop by
    loop: each is [gc_keys] with its own rule for the rows to keep. *)
(** The rows each collection keeps *)
Definition keep_ttl (time : Z) (rows : list row) : nat := newer time rows.
Definition keep_head (cnt : Z) (rows : list row) : nat := Z.to_nat cnt.
Definition keep_and (time cnt : Z) (rows : list row) : nat := newer time rows `max` Z.to_nat cnt.
Definition keep_or (time cnt : Z) (rows : list row) : nat := newer time rows `min` Z.to_nat cnt.

Lemma newer_all t rows r : rows_sorted rows -> last rows = Some r -> (t < r.1.1 <-> newer t rows = length rows).
Proof.
  intros Hs Hl. destruct rows as [|r0 rows0] using rev_ind; [done|]. rewrite last_snoc in Hl. injection Hl as ->.
  pose proof (take_newer t _ Hs) as Hn. split.
  - intros Hlt. assert (filter (fun x => t < x.1.1) (rows0 ++ [r]) = rows0 ++ [r]) as Hf.
    { apply filter_all. intros x [Hx|Hx%list_elem_of_singleton]%elem_of_app; [|by subst].
      assert (r.1.1 <= x.1.1); [|lia]. apply (StronglySorted_app_1_elem_of _ rows0 [r] x r Hs Hx). left. }
    rewrite Hf in Hn. apply (f_equal length) in Hn. rewrite length_take in Hn. pose proof (newer_le t (rows0 ++ [r])). lia.
  - intros Hall. rewrite Hall, take_ge in Hn by done. assert (r ∈ filter (fun x => t < x.1.1) (rows0 ++ [r])) as Hr.
    { rewrite <- Hn. apply elem_of_app. right. left. }
    by apply list_elem_of_filter in Hr as [? _].
Qed.

Section loops.
Context `{SmallLayout}.

Lemma it_entry_at s a x b dead : seg_core s (a ++ x :: b) dead -> it_entry s (node_of x) = Some (id_of x, x.1).
Proof.
  intros Hc. pose proof (ow_info _ _ (sc_owned _ _ _ Hc)) as Hi. rewrite Forall_forall in Hi.
  assert (info (sg_entries s) (node_of x) = Some (key_node x)) as E.
  { apply Hi. apply elem_of_app. left. apply elem_of_app_cons. }
  unfold it_entry. rewrite GetValue_info, GetKey_info, E. done.
Qed.

Lemma it_next_at s a x b dead : seg_core s (a ++ x :: b) dead -> it_Next (sg_entries s) (Some (node_of x)) = Some (head (node_of <$> b)).
Proof.
  intros Hc. eapply nrep_step; [apply nrep_full_nrep, (sc_keys _ _ _ Hc)|]. rewrite fmap_app, fmap_cons. done.
Qed.

Lemma need_not_ttl_spec e ks t : entry_rep e ks -> ks_rows ks <> [] ->
  need_not_ttl (entries e) t = Some (bool_decide (newer t (ks_rows ks) = length (ks_rows ks))).
Proof.
  intros Hrep Hne. pose proof (entry_sorted _ _ Hrep) as Hs. destruct (er_list _ _ Hrep) as [c Hn].
  destruct (nrep_last _ _ _ Hn) as (p & y & Hp & Hy & Hi); [by intros ?%fmap_nil_inv|].
  rewrite fmap_last in Hy. destruct (last (ks_rows ks)) as [r|] eqn:Hl; [|done]. cbn in Hy. injection Hy as <-.
  unfold need_not_ttl. rewrite Hp, GetKey_info, Hi. cbn. f_equal. apply bool_decide_ext. by apply newer_all.
Qed.

Lemma GetLast_Some e ks : entry_rep e ks -> ks_rows ks <> [] -> is_Some (GetLast (entries e)).
Proof.
  intros Hrep Hne. destruct (er_list _ _ Hrep) as [c Hn].
  destruct (nrep_last _ _ _ Hn) as (p & y & Hp & _); [by intros ?%fmap_nil_inv|]. rewrite Hp. eauto.
Qed.

(** What the splitting calls keep *)
Definition rows_bounded (rows : list row) : Prop := Z.of_nat (length rows) < 2 ^ 64.

Lemma splits_ttl t rows : splits (fun l => Split l t) rows (keep_ttl t rows).
Proof. intros l c Hl. by apply Split_cut. Qed.
Lemma splits_head k rows : 0 <= k -> rows_bounded rows -> splits (fun l => SplitByPos l k) rows (keep_head k rows).
Proof. intros Hk Hb l c Hl. apply SplitByPos_cut; [done|done|by rewrite length_fmap]. Qed.
Lemma splits_and t k rows : 0 <= k -> rows_bounded rows -> splits (fun l => SplitByKeyAndPos l t k) rows (keep_and t k rows).
Proof. intros Hk Hb l c Hl. apply SplitByKeyAndPos_cut; [done|done|by rewrite length_fmap]. Qed.
Lemma splits_or t k rows : 0 <= k -> rows_bounded rows -> splits (fun l => SplitByKeyOrPos l t k) rows (keep_or t k rows).
Proof. intros Hk Hb l c Hl. apply SplitByKeyOrPos_cut; [done|done|by rewrite length_fmap]. Qed.

(** A rule that keeps at least one row removes no key. *)
Lemma cut_nonempty keep x : (1 <= keep (rows_of x))%nat -> rows_of x <> [] -> rows_of (cut_key keep x) <> [].
Proof.
  intros Hk Hne. change (rows_of (cut_key keep x)) with (take (cut_len keep x) (rows_of x)). unfold cut_len, kept_rows.
  destruct (rows_of x); [done|]. case_decide; [|done]. by destruct (keep _); [lia|].
Qed.

(** What every loop needs of its keys *)
Definition visitable (x : keyed) : Prop := rows_of x <> [] /\ rows_bounded (rows_of x).

(** A loop that handles the keys [todo] from any state *)
Definition loop_ok (keep : list row -> nat) (R : list nat)
    (loop : option nat -> Segment -> blocks -> GcStat -> option (Segment * blocks * GcStat)) (todo : list keyed) : Prop :=
  forall a dead s bs st, seg_core s (a ++ todo) dead -> blocks_rep bs (seg_blocks (a ++ todo) dead ++ R) -> stat_ok st ->
    exists s' bs' st', loop (head (node_of <$> todo)) s bs st = Some (s', bs', st') /\ gc_done keep a todo dead s bs st R s' bs' st'.

Lemma loop_nil keep R loop : (forall s bs st, loop None s bs st = Some (s, bs, st)) -> loop_ok keep R loop [].
Proof.
  intros Hl a dead s bs st Hc Hb Hst. rewrite app_nil_r in *. exists s, bs, st. split; [apply Hl|]. by apply gc_done_nil.
Qed.

Lemma pass_skip keep R loop a x todo dead s bs st : loop_ok keep R loop todo -> (length (rows_of x) <= cut_len keep x)%nat -> rows_of x <> [] ->
  seg_core s (a ++ x :: todo) dead -> blocks_rep bs (seg_blocks (a ++ x :: todo) dead ++ R) -> stat_ok st ->
  exists s' bs' st', loop (head (node_of <$> todo)) s bs st = Some (s', bs', st') /\ gc_done keep a (x :: todo) dead s bs st R s' bs' st'.
Proof.
  intros Hl Hlen Hne Hc Hb Hst. rewrite (cons_middle x), app_assoc in Hc, Hb. destruct (Hl _ _ _ _ _ Hc Hb Hst) as (s' & bs' & st' & Hr & Hd).
  exists s', bs', st'. split; [done|]. by apply gc_done_skip.
Qed.

Lemma loop_cut keep R loop a x todo dead s bs st s1 bs1 st1 : loop_ok keep R loop todo ->
  cut_step keep a x todo dead s bs st (cut_refs keep a x todo dead R) s1 bs1 st1 ->
  exists s' bs' st', loop (head (node_of <$> todo)) s1 bs1 st1 = Some (s', bs', st') /\ gc_done keep a (x :: todo) dead s bs st R s' bs' st'.
Proof.
  intros Hl Hstep. pose proof (gc_step_ok _ _ _ _ _ (cs_gc _ _ _ _ _ _ _ _ _ _ _ _ Hstep)) as Hst.
  assert (exists a' dead', seg_core s1 (a' ++ todo) dead' /\ blocks_rep bs1 (seg_blocks (a' ++ todo) dead' ++ R)) as (a' & dead' & Hc & Hb).
  { pose proof (cs_core _ _ _ _ _ _ _ _ _ _ _ _ Hstep) as Hc. pose proof (cs_blocks _ _ _ _ _ _ _ _ _ _ _ _ Hstep) as Hb.
    case_decide.
    - rewrite cut_refs_dead in Hb. eauto.
    - rewrite cut_refs_kept, (cons_middle (cut_key keep x)), app_assoc in Hb. rewrite (cons_middle (cut_key keep x)), app_assoc in Hc. eauto. }
  destruct (Hl a' dead' s1 bs1 st1 Hc Hb Hst) as (s' & bs' & st' & Hr & _). exists s', bs', st'. split; [done|].
  eapply gc_done_cut; [exact Hstep|]. intros a2 dead2 Hc2 Hb2 Hst2.
  destruct (Hl a2 dead2 s1 bs1 st1 Hc2 Hb2 Hst2) as (s2 & bs2 & st2 & Hr2 & Hd). rewrite Hr in Hr2. by injection Hr2 as <- <- <-.
Qed.

Ltac visit Hc := cbn [fmap list_fmap head]; rewrite ?(it_entry_at _ _ _ _ _ Hc), ?(it_next_at _ _ _ _ _ Hc); cbn [mbind option_bind].

Lemma Gc4Head_loop_ok cnt R todo : 0 < cnt -> Forall visitable todo -> forall fuel, (length todo <= fuel)%nat ->
  loop_ok (keep_head cnt) R (Gc4Head_loop fuel cnt) todo.
Proof.
  intros Hk. induction 1 as [|x todo [Hne Hlen] Hv IH]; intros fuel Hf; [apply loop_nil; by destruct fuel|].
  intros a dead s bs st Hc Hb Hst. destruct fuel as [|fuel]; [simpl in Hf; lia|]. cbn [Gc4Head_loop]. visit Hc.
  rewrite (cut_refs_before (keep_head cnt)) in Hb.
  destruct (cut_one s a x todo dead (keep_head cnt) Hc _ bs st _ (splits_head cnt _ (Z.lt_le_incl _ _ Hk) Hlen) Hb Hst)
    as (node & s1 & s2 & c & s3 & bs3 & st3 & -> & _ & Hs & Hfr & Hstep).
  assert (Hne' : rows_of (cut_key (keep_head cnt) x) <> []) by (apply cut_nonempty; [unfold keep_head; lia|done]).
  specialize (Hs Hne') as ->. cbn [mbind option_bind]. rewrite Hfr. cbn [mbind option_bind].
  pose proof (cs_core _ _ _ _ _ _ _ _ _ _ _ _ Hstep) as Hc3. rewrite decide_False in Hc3 by done.
  change (Some (node_of x)) with (Some (node_of (cut_key (keep_head cnt) x))). rewrite (it_next_at _ _ _ _ _ Hc3). cbn [mbind option_bind].
  eapply loop_cut; [|exact Hstep]. apply IH. simpl in Hf. lia.
Qed.

Lemma Gc4TTL_loop_ok time R todo : Forall visitable todo -> forall fuel, (length todo <= fuel)%nat ->
  loop_ok (keep_ttl time) R (Gc4TTL_loop fuel time) todo.
Proof.
  induction 1 as [|x todo [Hne Hlen] Hv IH]; intros fuel Hf; [apply loop_nil; by destruct fuel|].
  intros a dead s bs st Hc Hb Hst. destruct fuel as [|fuel]; [simpl in Hf; lia|]. cbn [Gc4TTL_loop]. visit Hc.
  destruct (core_entry _ _ _ _ _ Hc) as (e & He & Hrep). rewrite He. cbn [mbind option_bind]. rewrite (need_not_ttl_spec _ _ _ Hrep Hne).
  cbn [mbind option_bind]. case_bool_decide as Hall.
  - eapply pass_skip; [apply IH; simpl in Hf; lia| |done..]. unfold cut_len, kept_rows, keep_ttl. case_decide; unfold rows_of; lia.
  - rewrite (cut_refs_before (keep_ttl time)) in Hb.
    destruct (cut_one s a x todo dead (keep_ttl time) Hc _ bs st _ (splits_ttl time _) Hb Hst)
      as (node & s1 & s2 & c & s3 & bs3 & st3 & Hsp & Hr & _ & Hfr & Hstep).
    unfold SplitList. rewrite Hsp. cbn [mbind option_bind]. rewrite Hr. cbn [mbind option_bind]. rewrite Hfr. cbn [mbind option_bind].
    eapply loop_cut; [|exact Hstep]. apply IH. simpl in Hf. lia.
Qed.

Lemma Gc4TTLAndHead_loop_ok time cnt R todo : 0 < cnt -> Forall visitable todo -> forall fuel, (length todo <= fuel)%nat ->
  loop_ok (keep_and time cnt) R (Gc4TTLAndHead_loop fuel time cnt) todo.
Proof.
  intros Hk. induction 1 as [|x todo [Hne Hlen] Hv IH]; intros fuel Hf; [apply loop_nil; by destruct fuel|].
  intros a dead s bs st Hc Hb Hst. destruct fuel as [|fuel]; [simpl in Hf; lia|]. cbn [Gc4TTLAndHead_loop]. visit Hc.
  destruct (core_entry _ _ _ _ _ Hc) as (e & He & Hrep). rewrite He. cbn [mbind option_bind]. rewrite (need_not_ttl_spec _ _ _ Hrep Hne).
  cbn [mbind option_bind]. case_bool_decide as Hall.
  - eapply pass_skip; [apply IH; simpl in Hf; lia| |done..]. unfold cut_len, kept_rows, keep_and. case_decide; unfold rows_of; lia.
  - rewrite (cut_refs_before (keep_and time cnt)) in Hb.
    destruct (cut_one s a x todo dead (keep_and time cnt) Hc _ bs st _ (splits_and time cnt _ (Z.lt_le_incl _ _ Hk) Hlen) Hb Hst)
      as (node & s1 & s2 & c & s3 & bs3 & st3 & -> & _ & Hs & Hfr & Hstep).
    rewrite Hs in Hfr by (apply cut_nonempty; [unfold keep_and; lia|done]). cbn [mbind option_bind]. rewrite Hfr. cbn [mbind option_bind].
    eapply loop_cut; [|exact Hstep]. apply IH. simpl in Hf. lia.
Qed.

Lemma Gc4TTLOrHead_loop_ok time cnt R todo : 0 < cnt -> Forall visitable todo -> forall fuel, (length todo <= fuel)%nat ->
  loop_ok (keep_or time cnt) R (Gc4TTLOrHead_loop fuel time cnt) todo.
Proof.
  intros Hk. induction 1 as [|x todo [Hne Hlen] Hv IH]; intros fuel Hf; [apply loop_nil; by destruct fuel|].
  intros a dead s bs st Hc Hb Hst. destruct fuel as [|fuel]; [simpl in Hf; lia|]. cbn [Gc4TTLOrHead_loop]. visit Hc.
  destruct (core_entry _ _ _ _ _ Hc) as (e & He & Hrep). rewrite He. cbn [mbind option_bind]. destruct (GetLast_Some _ _ Hrep Hne) as [p ->].
  rewrite (cut_refs_before (keep_or time cnt)) in Hb.
  destruct (cut_one s a x todo dead (keep_or time cnt) Hc _ bs st _ (splits_or time cnt _ (Z.lt_le_incl _ _ Hk) Hlen) Hb Hst)
    as (node & s1 & s2 & c & s3 & bs3 & st3 & -> & Hr & _ & Hfr & Hstep).
  cbn [mbind option_bind]. rewrite Hr. cbn [mbind option_bind]. rewrite Hfr. cbn [mbind option_bind].
  eapply loop_cut; [|exact Hstep]. apply IH. simpl in Hf. lia.
Qed.
End loops.
