(* ===== verification/SegmentOps.v ===== *)
(** Every operation of a segment with one timestamp column, on the full
    invariant: counters, blocks and contents. *)
From S2P Require Import Prelude Slice Random Skiplist SkiplistInv SkiplistInsert SkiplistSplit SkiplistSpec SkiplistNodes Segment SegmentGc.
From S2P Require Import SegmentRelease SegmentInv SegmentGcInv.

(** * SegmentOps *)
Section ops.
Context `{SmallLayout}.

(** [R]: the references other segments hold *)
Record seg_inv (s : Segment) (bs : blocks) (live : list keyed) (dead : list (Z * keyed)) (R : list nat) : Prop := {
  sv_core : seg_core s live dead;
  sv_nonempty : Forall (fun x => rows_of x <> []) live;
  sv_idx : idx_cnt_ s = u64 (Z.of_nat (total_rows (live ++ dead.*2)));
  sv_blocks : blocks_rep bs (seg_blocks live dead ++ R)
}.

(** ** Collections *)

Lemma total_rows_dead l n v x (dead : list (Z * keyed)) : total_rows (l ++ (ins_at n (v, x) dead).*2) = (length (rows_of x) + total_rows (l ++ dead.*2))%nat.
Proof. rewrite fmap_ins_at, ins_at_perm. cbn [snd]. by rewrite <- Permutation_middle, total_rows_cons. Qed.

Lemma gc_keys_total keep version todo : forall dead,
  (total_rows ((gc_keys keep version todo dead).1 ++ (gc_keys keep version todo dead).2.*2) + gc_freed keep todo =
   total_rows (todo ++ dead.*2))%nat.
Proof.
  induction todo as [|x todo IH]; intros dead; [cbn; unfold gc_freed; cbn; lia|]. rewrite gc_freed_cons. cbn [gc_keys].
  assert (Hx : length (rows_of x) = (length (rows_of (cut_key keep x)) + length (cut_off keep x))%nat).
  { by rewrite (cut_rows keep x), length_app at 1. }
  destruct (decide (rows_of (cut_key keep x) = [])) as [Hnil|Hne].
  - specialize (IH (ins_at (free_pos version dead) (version, cut_key keep x) dead)).
    rewrite (total_rows_dead todo) in IH. change ((x :: todo) ++ dead.*2) with (x :: (todo ++ dead.*2)). rewrite total_rows_cons. lia.
  - specialize (IH dead). destruct (gc_keys keep version todo dead) as [l d]. cbn [fst snd app] in *. rewrite !total_rows_cons. lia.
Qed.

Lemma gc_keys_nonempty keep version todo : forall dead, Forall (fun x => rows_of x <> []) (gc_keys keep version todo dead).1.
Proof.
  induction todo as [|x todo IH]; intros dead; [constructor|]. cbn [gc_keys]. case_decide; [apply IH|].
  specialize (IH dead). destruct (gc_keys _ _ _ _). cbn. by constructor.
Qed.

Lemma gc_run_spec keep loop s bs st live dead R : seg_inv s bs live dead R -> stat_ok st ->
  (forall fuel, (length live <= fuel)%nat -> loop_ok keep R (loop fuel) live) ->
  exists s' bs' st', gc_run loop s bs st = Some (s', bs', st') /\
    seg_inv s' bs' (gc_keys keep (gc_version_ s) live dead).1 (gc_keys keep (gc_version_ s) live dead).2 R /\
    gc_step bs bs' st st' (gc_freed keep live) /\ same_config s s'.
Proof.
  intros [Hc Hne Hidx Hb] Hst Hl. unfold gc_run. destruct (nrep_chain _ _ _ (nrep_full_nrep _ _ _ (sc_keys _ _ _ Hc))) as [-> _].
  cbn [mbind option_bind]. destruct (Hl (size (heap (sg_entries s)))) with (a := @nil keyed) (dead := dead) (s := s) (bs := bs) (st := st)
    as (s' & bs' & st' & -> & [G1 G2 G3 G4 G5]); try done.
  { pose proof (nrep_size _ _ _ (nrep_full_nrep _ _ _ (sc_keys _ _ _ Hc))) as Hsz. rewrite length_fmap in Hsz. lia. }
  cbn [mbind option_bind]. eexists _, bs', st'. split; [done|]. cbn [app] in *. split; [|split; [done|by split; apply G5]]. split.
  - by apply core_idx_cnt.
  - apply gc_keys_nonempty.
  - cbn [idx_cnt_ set_idx_cnt]. rewrite G4, Hidx, uwrap_sub_l, (gs_idx _ _ _ _ _ G3). unfold uwrap.
    rewrite Zminus_mod_idemp_l, Zminus_mod_idemp_r. f_equal. pose proof (gc_keys_total keep (gc_version_ s) live dead). lia.
  - done.
Qed.

Definition live_bounded (live : list keyed) : Prop := Forall (fun x => rows_bounded (rows_of x)) live.

Lemma inv_visitable s bs live dead R : seg_inv s bs live dead R -> live_bounded live -> Forall visitable live.
Proof.
  intros Hi Hb. pose proof (sv_nonempty _ _ _ _ _ Hi) as Hne. unfold live_bounded in Hb. rewrite Forall_forall in Hb, Hne |- *. by split; auto.
Qed.

(** The rule a TTL stands for, at the time [now] in milliseconds; [None] when
    it asks for no collection *)
Definition ttl_rule (offset now : Z) (t : TTLSt) : option (list row -> nat) :=
  let expire := u64 (now - offset - abs_ttl t) in
  match ttl_type t with
  | kAbsoluteTime => if decide (abs_ttl t = 0) then None else Some (keep_ttl expire)
  | kLatestTime => if decide (lat_ttl t = 0) then None else Some (keep_head (lat_ttl t))
  | kAbsAndLat =>
      if decide (abs_ttl t = 0 \/ lat_ttl t = 0 \/ expire = 0) then None else Some (keep_and expire (lat_ttl t))
  | kAbsOrLat =>
      if decide (abs_ttl t = 0 \/ expire = 0) then
        if decide (lat_ttl t = 0) then None else Some (keep_head (lat_ttl t))
      else if decide (lat_ttl t = 0) then Some (keep_ttl expire) else Some (keep_or expire (lat_ttl t))
  | kRelativeTime => None
  end.

Definition ttl_ok (t : TTLSt) : Prop := 0 <= abs_ttl t /\ 0 <= lat_ttl t.

(** What a collection with the rule [r] does *)
Definition gc_outcome (r : option (list row -> nat)) (s : Segment) (bs : blocks) (st : GcStat) (live : list keyed) (dead : list (Z * keyed)) (R : list nat)
    (res : option (Segment * blocks * GcStat)) : Prop :=
  match r with
  | None => res = Some (s, bs, st)
  | Some keep =>
      exists s' bs' st', res = Some (s', bs', st') /\
        seg_inv s' bs' (gc_keys keep (gc_version_ s) live dead).1 (gc_keys keep (gc_version_ s) live dead).2 R /\
        gc_step bs bs' st st' (gc_freed keep live) /\ same_config s s'
  end.

Section collect.
Context s bs st live dead R (Hi : seg_inv s bs live dead R) (Hst : stat_ok st) (Hlb : live_bounded live).

Lemma Gc4TTL_spec time : gc_outcome (Some (keep_ttl time)) s bs st live dead R (Gc4TTL s time bs st).
Proof using All. apply gc_run_spec; [done|done|]. apply Gc4TTL_loop_ok. by eapply inv_visitable. Qed.
Lemma Gc4Head_spec cnt : 0 < cnt -> gc_outcome (Some (keep_head cnt)) s bs st live dead R (Gc4Head s cnt bs st).
Proof using All.
  intros Hk. unfold Gc4Head. rewrite decide_False by lia. apply gc_run_spec; [done|done|].
  apply Gc4Head_loop_ok; [done|]. by eapply inv_visitable.
Qed.

Lemma ExecuteGc_spec micros ttl : ttl_ok ttl ->
  gc_outcome (ttl_rule (ttl_offset_ s) (u64 (micros / 1000)) ttl) s bs st live dead R (ExecuteGc s micros ttl bs st).
Proof using All.
  intros [Ha Hl]. pose proof (inv_visitable _ _ _ _ _ Hi Hlb) as Hv. unfold ExecuteGc, ttl_rule. destruct (ttl_type ttl).
  - case_decide; [done|]. apply Gc4TTL_spec.
  - done.
  - case_decide; [done|]. apply Gc4Head_spec. lia.
  - destruct (decide (abs_ttl ttl = 0 \/ lat_ttl ttl = 0)) as [Hz|Hz]; [by rewrite decide_True by tauto|].
    unfold Gc4TTLAndHead. destruct (decide (u64 (u64 (micros / 1000) - ttl_offset_ s - abs_ttl ttl) = 0)) as [He|He].
    + rewrite !decide_True by tauto. done.
    + rewrite !decide_False by tauto. apply gc_run_spec; [done|done|]. by apply Gc4TTLAndHead_loop_ok; [lia|].
  - unfold Gc4TTLOrHead. set (expire := u64 (u64 (micros / 1000) - ttl_offset_ s - abs_ttl ttl)).
    destruct (decide (abs_ttl ttl = 0)) as [Hz|Hz]; destruct (decide (lat_ttl ttl = 0)) as [Hz'|Hz'].
    + rewrite !decide_True by tauto. done.
    + rewrite (decide_False (P := _ /\ _)) by tauto. rewrite (decide_True (P := abs_ttl ttl = 0 \/ _)) by tauto.
      rewrite (decide_False (P := 0 = 0 /\ _)) by tauto. rewrite decide_True by done. apply Gc4Head_spec. lia.
    + rewrite (decide_False (P := abs_ttl ttl = 0 /\ _)) by tauto. destruct (decide (expire = 0)) as [He|He].
      * rewrite !decide_True by tauto. done.
      * rewrite !decide_False by tauto. apply Gc4TTL_spec.
    + rewrite (decide_False (P := abs_ttl ttl = 0 /\ _)) by tauto. destruct (decide (expire = 0)) as [He|He].
      * rewrite (decide_False (P := expire = 0 /\ _)) by tauto. rewrite decide_True by tauto. apply Gc4Head_spec. lia.
      * rewrite !decide_False by tauto. apply gc_run_spec; [done|done|]. apply Gc4TTLOrHead_loop_ok; [lia|done].
Qed.
End collect.
End ops.

(** * SegmentDelete: [Put], [Delete], and freeing the keys on the free list, on the full
    invariant. *)
Section delete.
Context `{SmallLayout}.

(** ** [Put] *)

Lemma put_keys_effect key t blk h live live' : put_keys key t blk h live live' ->
  keyed_blocks live' ≡ₚ blk :: keyed_blocks live /\ total_rows live' = S (total_rows live) /\
  (Forall (fun x => rows_of x <> []) live -> Forall (fun x => rows_of x <> []) live').
Proof.
  intros [a x b x' Hx Hs Hr Hrows|live0 x n Hx Hk Hr Hrows].
  - rewrite !keyed_blocks_app, !keyed_blocks_cons, !total_rows_app, !total_rows_cons, Hrows. split; [|split].
    + unfold row_blocks. rewrite fmap_ins_at, ins_at_perm. cbn. by rewrite <- Permutation_middle.
    + rewrite ins_at_perm. simpl. lia.
    + rewrite !Forall_app, !Forall_cons. intros (Ha & _ & Hb). split; [done|]. split; [|done]. rewrite Hrows.
      unfold ins_at. by destruct (take _ _).
  - split; [|split].
    + rewrite ins_at_perm, keyed_blocks_cons, Hrows. done.
    + rewrite ins_at_perm, total_rows_cons, Hrows. done.
    + rewrite ins_at_perm, Forall_cons, Hrows. done.
Qed.

Lemma Put_spec s bs live dead R key t value : seg_inv s bs live dead R -> key_ok key ->
  exists s' b live' h, Put s bs key t value = Some (s', <[b := MkDataBlock 1 value]> bs) /\ bs !! b = None /\
    put_keys key t b h live live' /\ seg_inv s' (<[b := MkDataBlock 1 value]> bs) live' dead R /\ same_config s s'.
Proof.
  intros [Hc Hne Hidx Hb] Hk. unfold Put. rewrite (sc_ts _ _ _ Hc), decide_False by lia.
  destruct (new_block bs 1 value) as [b bs1] eqn:En. assert (1 <= 1 < 2 ^ 8) as Hone by lia.
  destruct (new_block_rep _ _ _ _ _ _ Hb Hone En) as (Hfresh & -> & Hb1).
  destruct (Put_row_spec s live dead key t b Hc Hk) as (s' & live' & h & -> & Hp & Hc' & Hi' & Hcf). cbn [mbind option_bind].
  destruct (put_keys_effect _ _ _ _ _ _ Hp) as (Hbl & Htot & Hnon). exists s', b, live', h. split; [done|]. split; [done|]. split; [done|].
  split; [|done]. split; [done|by apply Hnon| |].
  - rewrite Hi', Hidx, uwrap_add_l. f_equal. rewrite !total_rows_app, Htot. lia.
  - unfold seg_blocks in *. rewrite keyed_blocks_app, Hbl. by rewrite keyed_blocks_app in Hb1.
Qed.

(** ** [Delete] *)

Lemma Delete_absent s bs live dead R key : seg_inv s bs live dead R -> key ∉ live.*1 -> Delete s key = Some (false, s).
Proof.
  intros [Hc _ _ _] Hk. unfold Delete, remove_key. rewrite (Remove_absent _ _ _ _ (sc_keys _ _ _ Hc)).
  - cbn. by destruct s.
  - rewrite key_pairs. apply seq_found_absent. by rewrite key_pairs_keys.
Qed.

Lemma Delete_present s bs a x b dead R : seg_inv s bs (a ++ x :: b) dead R ->
  exists s', Delete s x.1 = Some (true, s') /\
    seg_inv s' bs (a ++ b) (ins_at (free_pos (gc_version_ s) dead) (gc_version_ s, x) dead) R /\ same_config s s'.
Proof.
  intros [Hc Hne Hidx Hb]. destruct (retire_at _ _ _ _ _ Hc) as (l & h & fl & Hr & Hi & Hc'). unfold Delete, remove_key, retire.
  rewrite Hr. cbn. rewrite Hi. cbn. eexists. split; [done|]. split; [|by split]. split; [done| | |].
  - rewrite Forall_app, Forall_cons in Hne. apply Forall_app. tauto.
  - cbn. rewrite Hidx. do 2 f_equal. rewrite total_rows_dead, perm_mid, total_rows_cons, <- app_assoc. done.
  - unfold seg_blocks in *. rewrite fmap_ins_at, ins_at_perm. cbn [snd]. rewrite <- Permutation_middle, <- app_assoc. by rewrite perm_mid in Hb.
Qed.

(** ** [FreeEntry] *)

(** A state in which the keys [todo], cut off the free list with nodes [d],
    are still to be freed *)
Record freeing (s : Segment) (live : list keyed) (dead : list (Z * keyed)) (todo : list keyed) (d : list nat) : Prop := {
  fr_ts : ts_cnt_ s = 1;
  fr_height : 1 <= key_entry_max_height_ s < 256;
  fr_mh : (MaxHeight (sg_entries s) < 256)%nat;
  fr_keys : nrep_full (sg_entries s) (node_of <$> live) (key_node <$> live);
  fr_free : exists c xs, nrep (entry_free_list_ s) c xs /\ xs.*1 = free_node <$> dead /\ NoDup (head_ (entry_free_list_ s) :: c ++ d);
  fr_todo : Forall2 (fun q x => exists v h, info (entry_free_list_ s) q = Some (v, Some (node_of x), h)) d todo;
  fr_chain : chain (entry_free_list_ s) d;
  fr_distinct : NoDup live.*1;
  fr_owned : owned s (todo ++ live ++ dead.*2)
}.

Lemma freeing_done s live dead : freeing s live dead [] [] -> seg_core s live dead.
Proof. intros [F1 F2 F3 F4 (c & xs & F5 & F5' & _) _ _ F8 F9]. split; try done. eauto. Qed.

(** One round of the loop of [GcEntryFreeList] *)
Lemma free_one s live dead x todo q d bs st R : freeing s live dead (x :: todo) (q :: d) ->
  blocks_rep bs (row_blocks (rows_of x) ++ R) -> stat_ok st ->
  exists s1 bs' st' s2 fl, GetValue (entry_free_list_ s) q = Some (Some (node_of x)) /\
    FreeEntry s (Some (node_of x)) bs st = Some (s1, bs', st') /\ delete_entry_node s1 (node_of x) = Some s2 /\
    GetNext (entry_free_list_ s2) q 0 = Some (head d) /\ DeleteNode (entry_free_list_ s2) q = Some fl /\
    freeing (set_pk_cnt (u64 (pk_cnt_ s2 - 1)) (set_free_list fl s2)) live dead todo d /\
    idx_cnt_ s2 = u64 (idx_cnt_ s - u64 (gc_idx_cnt st' - gc_idx_cnt st)) /\ same_config s s2 /\
    blocks_rep bs' R /\ gc_step bs bs' st st' (length (rows_of x)).
Proof.
  intros Hf Hb Hst. pose proof (fr_owned _ _ _ _ _ Hf) as Ho. pose proof (ow_info _ _ Ho) as Hinfo. apply Forall_cons in Hinfo as [Hinfo _].
  pose proof (fr_todo _ _ _ _ _ Hf) as Ht. apply Forall2_cons in Ht as [(v & h & Hq) Ht].
  destruct (owned_entry _ _ _ Ho) as (e & He & Hrep).
  destruct (free_key_entry_spec s (id_of x) e x.2 bs st R He Hrep Hb Hst) as (bs' & st' & Hfree & Hb' & Hg).
  { rewrite (ow_bytes _ _ Ho). apply uwrap_range. lia. }
  pose proof (chain_cons _ _ _ (fr_chain _ _ _ _ _ Hf)) as [Hnx Hch].
  destruct (fr_free _ _ _ _ _ Hf) as (c & xs & Hfl & Hxs & Hnd).
  destruct (DeleteNode_nrep_full (sg_entries s) _ _ (node_of x) (fr_keys _ _ _ _ _ Hf)) as (l & Hdel & Hl & Hdn); [|eauto|].
  { pose proof (ow_nodes _ _ Ho) as Hn. cbn in Hn. rewrite fmap_app, fmap_app in Hn. apply NoDup_cons in Hn as [Hh Hn]. apply NoDup_cons in Hn as [Hn _].
    apply not_elem_of_cons. split; [intros E; apply Hh; rewrite <- E; left|]. intros Hin. apply Hn. apply elem_of_app. right. apply elem_of_app. by left. }
  assert (Hqc : (q ∉ head_ (entry_free_list_ s) :: c) /\ q ∉ d).
  { rewrite app_comm_cons in Hnd. apply NoDup_app in Hnd as (_ & Hd & Hnd). apply NoDup_cons in Hnd as [? _]. split; [|done]. intros Hin. apply (Hd q Hin). left. }
  destruct (DeleteNode_nrep (entry_free_list_ s) c xs q Hfl) as (fl & Hdfl & Hfl' & Hdnf); [tauto|eauto|].
  do 5 eexists. split; [by rewrite GetValue_info, Hq|]. split; [|split; [|split; [|split; [|split; [|split; [|split; [|split; [exact Hb'|exact Hg]]]]]]]].
  - unfold FreeEntry. rewrite GetKey_info, GetValue_info, Height_info, Hinfo. cbn [fmap option_fmap option_map mbind option_bind key_node fst snd].
    rewrite (fr_ts _ _ _ _ _ Hf), decide_False by lia. cbn [as_entry mbind option_bind]. rewrite Hfree. cbn [mbind option_bind]. reflexivity.
  - unfold delete_entry_node. cbn. rewrite Hdel. reflexivity.
  - exact Hnx.
  - exact Hdfl.
  - split; cbn; try apply Hf.
    + rewrite (kp_MaxHeight _ _ (dn_kept _ _ _ Hdn)). apply Hf.
    + done.
    + exists c, xs. split; [done|]. split; [done|]. rewrite (kp_head _ _ (dn_kept _ _ _ Hdnf)).
      eapply sublist_NoDup; [exact Hnd|]. apply sublist_skip, sublist_app; [done|by apply sublist_cons].
    + eapply Forall2_elem; [exact Ht|]. intros q' y Hq' (v' & h' & Hi'). exists v', h'.
      rewrite (dn_info _ _ _ Hdnf), decide_False; [done|]. intros ->. tauto.
    + eapply chain_frame; [|exact Hch]. intros q' Hq'. apply (dn_links _ _ _ Hdnf). intros ->. tauto.
    + eapply owned_remove; [exact Ho|done|exact Hdn|done|done|done|]. cbn. rewrite uwrap_sub_l. f_equal. unfold key_bytes, rows_of. lia.
  - reflexivity.
  - done.
Qed.

Lemma GcEntryFreeList_loop_spec R T live dead d : forall todo fuel s bs st, freeing s live dead todo d ->
  blocks_rep bs (keyed_blocks todo ++ R) -> stat_ok st -> (length d <= fuel)%nat -> idx_cnt_ s = u64 (T + Z.of_nat (total_rows todo)) ->
  exists s' bs' st', GcEntryFreeList_loop fuel (head d) s bs st = Some (s', bs', st') /\ seg_core s' live dead /\
    idx_cnt_ s' = u64 T /\ same_config s s' /\ blocks_rep bs' R /\ gc_step bs bs' st st' (total_rows todo).
Proof.
  induction d as [|q d IH]; intros todo fuel s bs st Hf Hb Hst Hfuel Hidx.
  { pose proof (fr_todo _ _ _ _ _ Hf) as ->%Forall2_nil_inv_l. exists s, bs, st. split; [by destruct fuel|]. split; [by apply freeing_done|].
    split; [rewrite Hidx; f_equal; cbn; lia|]. split; [by split|]. split; [done|]. by apply gc_step_refl. }
  destruct todo as [|x todo]; [by pose proof (Forall2_nil_inv_r _ _ (fr_todo _ _ _ _ _ Hf))|].
  destruct fuel as [|fuel]; [simpl in Hfuel; lia|]. rewrite keyed_blocks_cons, <- app_assoc in Hb. rewrite total_rows_cons in Hidx.
  destruct (free_one s live dead x todo q d bs st _ Hf Hb Hst) as (s1 & bs1 & st1 & s2 & fl & E1 & E2 & E3 & E4 & E5 & Hf2 & Hidx2 & Hcf & Hb1 & Hg).
  cbn [GcEntryFreeList_loop head]. rewrite E1. cbn [mbind option_bind]. rewrite E2. cbn [mbind option_bind]. rewrite E3. cbn [mbind option_bind].
  rewrite E4. cbn [mbind option_bind]. rewrite E5. cbn [mbind option_bind].
  destruct (IH todo fuel _ bs1 st1 Hf2 Hb1) as (s' & bs' & st' & -> & Hc' & Hi' & Hcf' & Hb' & Hg').
  - by eapply gc_step_ok.
  - simpl in Hfuel. lia.
  - cbn [idx_cnt_ set_pk_cnt set_free_list]. rewrite Hidx2, Hidx, (gs_idx _ _ _ _ _ Hg), uwrap_sub_l. unfold uwrap.
    rewrite !Zminus_mod_idemp_l, Zminus_mod_idemp_r. f_equal. lia.
  - exists s', bs', st'. split; [done|]. split; [done|]. split; [done|]. split; [|split; [done|]].
    + eapply same_config_trans; [exact Hcf|]. by destruct Hcf'; split.
    + rewrite total_rows_cons. by eapply gc_step_trans.
Qed.

(** The keys removed in a version up to [version] are freed, the others stay. *)
Lemma GcEntryFreeList_spec s bs st live dead R version : seg_inv s bs live dead R -> stat_ok st ->
  let n := free_pos version dead in
  exists s' bs' st', GcEntryFreeList s version bs st = Some (s', bs', st') /\ seg_inv s' bs' live (take n dead) R /\
    gc_step bs bs' st st' (total_rows (drop n dead).*2) /\ same_config s s'.
Proof.
  intros [Hc Hne Hidx Hb] Hst n. destruct (sc_free _ _ _ Hc) as (c & xs & Hfl & Hxs).
  destruct (Split_cut _ _ _ version Hfl) as (r & fl & Hs & Hfl' & Hr & Hch & Hin & Hk & Hnp). rewrite Hxs in *. fold (free_pos version dead) n in Hfl', Hr, Hch.
  unfold GcEntryFreeList. rewrite Hs. cbn [mbind option_bind]. rewrite Hr.
  assert (Hsplit : live ++ dead.*2 ≡ₚ (drop n dead).*2 ++ live ++ (take n dead).*2).
  { rewrite (Permutation_app_comm ((drop n dead).*2)), <- app_assoc, <- fmap_app, take_drop. done. }
  destruct (GcEntryFreeList_loop_spec (seg_blocks live (take n dead) ++ R) (Z.of_nat (total_rows (live ++ (take n dead).*2)))
    live (take n dead) (drop n c) (drop n dead).*2 (size (heap (entry_free_list_ s))) (set_free_list fl s) bs st) as (s' & bs' & st' & -> & Hc' & Hi' & Hcf & Hb' & Hg).
  - split; cbn; try apply Hc.
    + exists (take n c), (take n xs). split; [done|]. split; [by rewrite fmap_take, Hxs, fmap_take|].
      rewrite take_drop, (kp_head _ _ Hk). by eapply nrep_NoDup.
    + pose proof (nrep_nodes _ _ _ Hfl) as Hn. apply (Forall2_drop _ _ _ n) in Hn. apply Forall2_fmap_r.
      assert (Hx' : (drop n xs).*1 = free_node <$> drop n dead) by (by rewrite fmap_drop, Hxs, fmap_drop).
      clear -Hn Hx' Hin. revert Hx'. generalize (drop n dead). induction Hn as [|q x d ys Hq Hn IH]; intros [|y dd] Hx'; try done; constructor.
      * injection Hx' as Hx _. destruct x as [[v w] h]. cbn in Hx. injection Hx as -> ->. rewrite Hin. eauto.
      * apply IH. by injection Hx' as _ ?.
    + done.
    + rewrite <- Hsplit. eapply owned_same; [|apply Hc]. by split.
  - unfold seg_blocks in *. rewrite app_assoc, <- keyed_blocks_app, <- Hsplit. done.
  - done.
  - pose proof (nrep_size _ _ _ Hfl). rewrite length_drop. lia.
  - cbn. rewrite Hidx. f_equal. rewrite Hsplit, !total_rows_app. lia.
  - exists s', bs', st'. split; [done|]. split; [by split|]. split; [done|]. by destruct Hcf; split.
Qed.

(** [GcFreeList] frees the keys removed at least
    [gc_deleted_pk_version_delta] versions ago. *)
Lemma GcFreeList_spec s bs st live dead R : seg_inv s bs live dead R -> stat_ok st ->
  let n := if decide (gc_version_ s < FLAGS_gc_deleted_pk_version_delta) then length dead
           else free_pos (gc_version_ s - FLAGS_gc_deleted_pk_version_delta) dead in
  exists s' bs' st', GcFreeList s bs st = Some (s', bs', st') /\ seg_inv s' bs' live (take n dead) R /\
    gc_step bs bs' st st' (total_rows (drop n dead).*2) /\ same_config s s'.
Proof.
  intros Hi Hst n. unfold GcFreeList. unfold n. case_decide.
  - exists s, bs, st. rewrite take_ge, drop_ge by done. split; [done|]. split; [done|]. split; [by apply gc_step_refl|by split].
  - by apply GcEntryFreeList_spec.
Qed.
End delete.

(** * SegmentRead: Reading a segment: lookups, iterators and the tickets that protect them. *)
(** The loop [while (it->Valid()) { it->GetKey(); it->GetValue(); it->Next(); }] *)
Fixpoint mt_collect (fuel : nat) (s : Segment) (bs : blocks) (it : option (nat * option nat)) : option (list (Z * bytes)) :=
  if mt_Valid it then
    match fuel with
    | O => None
    | S fuel' =>
        k ← mt_GetKey s it;
        v ← mt_GetValue s bs it;
        it ← mt_Next s it;
        rest ← mt_collect fuel' s bs it;
        Some ((k, v) :: rest)
    end
  else Some [].

(** Steps that bound the loop: the nodes of the list under the iterator *)
Definition mt_fuel (s : Segment) (it : option (nat * option nat)) : nat :=
  match it with
  | Some (p, _) => match deref s p with Some e => size (heap (entries e)) | None => 0 end
  | None => 0
  end.

(** A reader: open an iterator on [key], walk it from the first row or from
    [time], and release the ticket *)
Definition scan_from (s : Segment) (bs : blocks) (key : bytes) (time : option Z) : option (list (Z * bytes) * Segment) :=
  '(it, s, ticket) ← NewIterator s key [];
  it ← match time with Some t => mt_Seek s it t | None => mt_SeekToFirst s it end;
  rows ← mt_collect (mt_fuel s it) s bs it;
  s ← Ticket_destroy s ticket;
  Some (rows, s).

(** A row with its value *)
Definition row_view (bs : blocks) (r : row) : Z * bytes := (r.1.1, match bs !! r.1.2 with Some blk => data blk | None => [] end).

Section read.
Context `{SmallLayout}.

(** ** Iteration *)
Lemma mt_collect_spec s bs p e c : forall rows fuel, deref s p = Some e -> chain (entries e) c -> nodes (entries e) c (node_row <$> rows) ->
  Forall (fun r => is_Some (bs !! r.1.2)) rows -> (length c <= fuel)%nat ->
  mt_collect fuel s bs (Some (p, head c)) = Some (row_view bs <$> rows).
Proof.
  induction c as [|q c IH]; intros rows fuel He Hc Hn Hb Hf.
  { apply Forall2_nil_inv_l, fmap_nil_inv in Hn as ->. by destruct fuel. }
  destruct rows as [|r rows]; [by inversion Hn|]. apply Forall2_cons in Hn as [Hq Hn]. apply Forall_cons in Hb as [[blk Hblk] Hb].
  destruct fuel as [|fuel]; [simpl in Hf; lia|]. apply chain_cons in Hc as [Hnx Hc].
  cbn [mt_collect head]. change (mt_Valid (Some (p, Some q))) with true. cbn beta iota.
  unfold mt_GetKey, mt_GetValue, mt_Next, mt_list, it_GetKey, it_GetValue, it_Next. cbn [mbind option_bind]. rewrite He. cbn [mbind option_bind].
  rewrite GetKey_info, GetValue_info, Hq, Hnx. cbn [fmap option_fmap option_map mbind option_bind node_row fst snd]. rewrite Hblk. cbn [mbind option_bind].
  assert (mt_collect fuel s bs (Some (p, head c)) = Some (row_view bs <$> rows)) as E by (apply IH; try done; simpl in Hf; lia).
  etransitivity; [apply (f_equal (fun m => m ≫= _) E)|]. cbn. unfold row_view at 2. by rewrite Hblk.
Qed.

Lemma rows_blocks s bs live dead R x : seg_inv s bs live dead R -> x ∈ live -> Forall (fun r => is_Some (bs !! r.1.2)) (rows_of x).
Proof.
  intros Hi Hx. apply Forall_forall. intros r Hr. eapply blocks_rep_lookup; [apply Hi|]. unfold seg_blocks. rewrite keyed_blocks_app.
  apply elem_of_app. left. apply elem_of_app. left. apply list_elem_of_bind. exists x. split; [|done]. cbn. unfold row_blocks.
  apply list_elem_of_fmap. eauto.
Qed.

(** ** Readers counted *)

Lemma UnRef_Ref e : in_uint 64 (refs_ e) -> UnRef (Ref e) = e.
Proof. intros Hr. destruct e as [l r c]. unfold UnRef, Ref. cbn. rewrite uwrap_sub_l, Z.add_simpl_r, uwrap_id; done. Qed.

(** Changing the reader count of one live key *)
Lemma core_refs s a x b dead e r : seg_core s (a ++ x :: b) dead -> deref s (id_of x) = Some e ->
  seg_core (set_entry (id_of x) (MkKeyEntry (entries e) r (count_ e)) s) (a ++ (x.1, with_refs r x.2) :: b) dead.
Proof.
  intros Hc He. destruct (core_entry _ _ _ _ _ Hc) as (e' & He' & Hrep). rewrite He in He'. injection He' as <-.
  assert (Hrep' : entry_rep (MkKeyEntry (entries e) r (count_ e)) (with_refs r x.2)) by (destruct Hrep; by split).
  pose proof (core_update s a x b dead (x.1, with_refs r x.2) _ Hc (conj eq_refl (conj eq_refl (conj eq_refl eq_refl))) Hrep') as Hu.
  change (rows_of (x.1, with_refs r x.2)) with (rows_of x) in Hu. rewrite Z.sub_add, uwrap_id in Hu by (by eapply core_bytes).
  by destruct s.
Qed.

Lemma inv_refs s bs a x b dead R e r : seg_inv s bs (a ++ x :: b) dead R -> deref s (id_of x) = Some e ->
  seg_inv (set_entry (id_of x) (MkKeyEntry (entries e) r (count_ e)) s) bs (a ++ (x.1, with_refs r x.2) :: b) dead R.
Proof.
  intros [Hc Hne Hidx Hb] He. split.
  - by apply core_refs.
  - rewrite Forall_app, Forall_cons in *. done.
  - change (idx_cnt_ (set_entry _ _ s)) with (idx_cnt_ s). rewrite Hidx. do 2 f_equal. by rewrite !perm_mid.
  - unfold seg_blocks in *. rewrite perm_mid in *. done.
Qed.

(** ** Opening an iterator *)

Lemma NewIterator_absent s bs live dead R key t : seg_inv s bs live dead R -> key ∉ live.*1 -> NewIterator s key t = Some (None, s, t).
Proof.
  intros [Hc _ _ _] Hk. unfold NewIterator. rewrite (sc_ts _ _ _ Hc), decide_False by lia. by rewrite (find_entry_absent _ _ _ _ Hc Hk).
Qed.

Lemma NewIterator_present s bs a x b dead R t : seg_inv s bs (a ++ x :: b) dead R ->
  exists s', NewIterator s x.1 t = Some (Some (id_of x, None), s', id_of x :: t) /\
    seg_inv s' bs (a ++ (x.1, with_refs (u64 (ks_refs x.2 + 1)) x.2) :: b) dead R /\ same_config s s' /\
    exists e, deref s (id_of x) = Some e /\ s' = set_entry (id_of x) (Ref e) s.
Proof.
  intros Hi. pose proof (sv_core _ _ _ _ _ Hi) as Hc. destruct (core_entry _ _ _ _ _ Hc) as (e & He & Hrep).
  unfold NewIterator. rewrite (sc_ts _ _ _ Hc), decide_False by lia. rewrite (find_entry_at _ _ _ _ _ Hc). cbn [mbind option_bind as_entry].
  unfold Ticket_Push. rewrite He. cbn [mbind option_bind]. eexists. split; [done|].
  pose proof (inv_refs _ _ _ _ _ _ _ _ (u64 (ks_refs x.2 + 1)) Hi He) as Hi'. rewrite <- (er_refs _ _ Hrep) in Hi' at 1.
  split; [done|]. split; [done|]. eauto.
Qed.

(** Walking an open iterator *)
Lemma mt_first_spec s bs a x b dead R p : seg_inv s bs (a ++ x :: b) dead R ->
  exists it, mt_SeekToFirst s (Some (id_of x, p)) = Some it /\ mt_collect (mt_fuel s it) s bs it = Some (row_view bs <$> rows_of x).
Proof.
  intros Hi. destruct (core_entry _ _ _ _ _ (sv_core _ _ _ _ _ Hi)) as (e & He & Hrep). destruct (er_list _ _ Hrep) as [c Hn].
  destruct (nrep_chain _ _ _ Hn) as [Hf Hch]. unfold mt_SeekToFirst, mt_list. rewrite He. cbn [mbind option_bind]. rewrite Hf. cbn [mbind option_bind].
  eexists. split; [done|]. cbn [mt_fuel]. rewrite He. eapply mt_collect_spec; [done|done|by apply nrep_nodes|eapply rows_blocks; [exact Hi|apply elem_of_app_cons]|].
  pose proof (nrep_size _ _ _ Hn). lia.
Qed.

Lemma mt_seek_spec s bs a x b dead R p t : seg_inv s bs (a ++ x :: b) dead R ->
  exists it, mt_Seek s (Some (id_of x, p)) t = Some it /\
    mt_collect (mt_fuel s it) s bs it = Some (row_view bs <$> drop (newer t (rows_of x)) (rows_of x)).
Proof.
  intros Hi. destruct (core_entry _ _ _ _ _ (sv_core _ _ _ _ _ Hi)) as (e & He & Hrep). destruct (er_list _ _ Hrep) as [c Hn].
  unfold mt_Seek, mt_list. rewrite He. cbn [mbind option_bind].
  assert (it_Seek (entries e) t = Some (head (drop (newer t (rows_of x)) c))) as ->.
  { destruct Hn as (cs & Hr & Hh & <- & Hn). pose proof (r_mh _ _ Hr). unfold it_Seek. rewrite (FindLessThan_spec _ cs t Hr). cbn.
    etransitivity; [apply (pred_next _ cs t 0 Hr); lia|]. destruct (lt_part_take _ cs t Hr) as [_ ->].
    rewrite <- (before_lt_part _ cs t Hr), <- seq_before_entries, (nodes_entries _ _ _ Hn). done. }
  cbn [mbind option_bind]. eexists. split; [done|]. cbn [mt_fuel]. rewrite He. eapply mt_collect_spec; [done| | | |].
  - apply chain_drop. by apply nrep_chain in Hn as [_ ?].
  - rewrite fmap_drop. apply Forall2_drop. by apply nrep_nodes.
  - apply Forall_drop. eapply rows_blocks; [exact Hi|apply elem_of_app_cons].
  - pose proof (nrep_size _ _ _ Hn). rewrite length_drop. lia.
Qed.
End read.

(** * SegmentSpec: The abstract segment: a map from keys to rows, newest first, and the
    operations on it. *)
Abbreviation rowv := (Z * bytes)%type.
Abbreviation content := (gmap bytes (list rowv)).

(** ** Abstract operations *)

(** A row goes before the rows of the same time. *)
Definition add_row (t : Z) (value : bytes) (rows : list rowv) : list rowv :=
  filter (fun r => t < r.1) rows ++ (t, value) :: filter (fun r => r.1 <= t) rows.
Definition abs_put (key : bytes) (t : Z) (value : bytes) (m : content) : content :=
  <[key := add_row t value (default [] (m !! key))]> m.

(** How many rows are newer than [t] *)
Definition count_newer (t : Z) (rows : list rowv) : nat := length (filter (fun r => t < r.1) rows).

(** The rows a TTL keeps at the time [now] *)
Definition abs_keep (offset now : Z) (ttl : TTLSt) (rows : list rowv) : list rowv :=
  let expire := u64 (now - offset - abs_ttl ttl) in
  let cnt := Z.to_nat (lat_ttl ttl) in
  match ttl_type ttl with
  | kAbsoluteTime => if decide (abs_ttl ttl = 0) then rows else filter (fun r => expire < r.1) rows
  | kLatestTime => if decide (lat_ttl ttl = 0) then rows else take cnt rows
  | kAbsAndLat =>
      if decide (abs_ttl ttl = 0 \/ lat_ttl ttl = 0 \/ expire = 0) then rows else take (count_newer expire rows `max` cnt) rows
  | kAbsOrLat =>
      if decide (abs_ttl ttl = 0 \/ expire = 0) then if decide (lat_ttl ttl = 0) then rows else take cnt rows
      else if decide (lat_ttl ttl = 0) then filter (fun r => expire < r.1) rows else take (count_newer expire rows `min` cnt) rows
  | kRelativeTime => rows
  end.
(** A key without rows is gone. *)
Definition nonempty_rows (rows : list rowv) : option (list rowv) := if decide (rows = []) then None else Some rows.
Definition abs_gc (keep : list rowv -> list rowv) (m : content) : content := omap (nonempty_rows ∘ keep) m.

Definition content_rows (m : content) : nat := map_fold (fun _ rows acc => (length rows + acc)%nat) 0%nat m.

(** ** The contents of a represented segment *)
Definition view (bs : blocks) (live : list keyed) : content :=
  list_to_map ((fun x => (x.1, row_view bs <$> rows_of x)) <$> live).

Lemma view_lookup bs a x b : x.1 ∉ a.*1 -> view bs (a ++ x :: b) !! x.1 = Some (row_view bs <$> rows_of x).
Proof.
  intros Ha. unfold view. rewrite fmap_app, list_to_map_app, fmap_cons. cbn. rewrite lookup_union_r; [by rewrite lookup_insert_eq|].
  apply not_elem_of_list_to_map. by rewrite <- list_fmap_compose.
Qed.

Lemma view_absent bs live key : key ∉ live.*1 -> view bs live !! key = None.
Proof. intros Hk. apply not_elem_of_list_to_map. by rewrite <- list_fmap_compose. Qed.

Lemma view_present bs live key rows : view bs live !! key = Some rows ->
  exists a x b, live = a ++ x :: b /\ x.1 = key /\ rows = row_view bs <$> rows_of x.
Proof.
  intros Hk%elem_of_list_to_map_2. apply list_elem_of_fmap in Hk as (x & Hx & Hin). injection Hx as -> ->.
  destruct (list_elem_of_split _ _ Hin) as (a & b & ->). by exists a, x, b.
Qed.

Lemma view_perm bs l l' : NoDup l.*1 -> l ≡ₚ l' -> view bs l = view bs l'.
Proof.
  intros Hnd Hp. apply list_to_map_proper; [by rewrite <- list_fmap_compose|by rewrite Hp].
Qed.

Lemma view_cons bs x l : view bs (x :: l) = <[x.1 := row_view bs <$> rows_of x]> (view bs l).
Proof. done. Qed.

Lemma view_size bs live : NoDup live.*1 -> size (view bs live) = length live.
Proof. intros Hnd. unfold view. rewrite map_size_list_to_map; [apply length_fmap|]. by rewrite <- list_fmap_compose. Qed.

Lemma view_rows bs live : NoDup live.*1 -> content_rows (view bs live) = total_rows live.
Proof.
  induction live as [|x live IH]; intros Hnd; [done|]. apply NoDup_cons in Hnd as [Hx Hnd]. rewrite view_cons. unfold content_rows.
  rewrite map_fold_insert_L; [|intros; lia|by apply view_absent]. fold (content_rows (view bs live)).
  rewrite IH, length_fmap by done. done.
Qed.

(** The values of the rows kept do not change. *)
Lemma view_ext bs bs' live : (forall x r, x ∈ live -> r ∈ rows_of x -> row_view bs' r = row_view bs r) -> view bs' live = view bs live.
Proof.
  intros Hv. unfold view. f_equal. apply list_fmap_ext. intros i x Hx. f_equal. apply list_fmap_ext. intros j r Hr.
  eapply Hv; by eapply list_elem_of_lookup_2.
Qed.

(** ** Abstract against concrete rows *)

Lemma filter_gt_view bs t (rows : list row) : filter (fun r : rowv => t < r.1) (row_view bs <$> rows) = row_view bs <$> filter (fun r : row => t < r.1.1) rows.
Proof. induction rows as [|r rows IH]; [done|]. rewrite fmap_cons, !filter_cons. cbn [row_view fst]. case_decide; by rewrite ?fmap_cons, IH. Qed.
Lemma filter_le_view bs t (rows : list row) : filter (fun r : rowv => r.1 <= t) (row_view bs <$> rows) = row_view bs <$> filter (fun r : row => r.1.1 <= t) rows.
Proof. induction rows as [|r rows IH]; [done|]. rewrite fmap_cons, !filter_cons. cbn [row_view fst]. case_decide; by rewrite ?fmap_cons, IH. Qed.

Lemma newer_count bs t rows : rows_sorted rows -> newer t rows = count_newer t (row_view bs <$> rows).
Proof.
  intros Hs. unfold count_newer. rewrite filter_gt_view, length_fmap, <- take_newer, length_take by done.
  pose proof (newer_le t rows). lia.
Qed.

Lemma drop_newer t rows : rows_sorted rows -> drop (newer t rows) rows = filter (fun r => r.1.1 <= t) rows.
Proof.
  induction 1 as [|r rows Hs IH Hr]; [done|]. rewrite newer_cons, filter_cons. destruct (decide (t < r.1.1)) as [Hlt|Hge].
  - rewrite decide_False by lia. simpl. by rewrite IH.
  - rewrite decide_True by lia. simpl. f_equal. symmetry. apply filter_all. rewrite Forall_forall in Hr. intros x Hx. specialize (Hr x Hx). simpl in Hr. lia.
Qed.

Lemma view_add bs t b h rows value : rows_sorted rows -> bs !! b = None -> Forall (fun r => is_Some (bs !! r.1.2)) rows ->
  row_view (<[b := MkDataBlock 1 value]> bs) <$> ins_at (newer t rows) (t, b, h) rows = add_row t value (row_view bs <$> rows).
Proof.
  intros Hs Hb Hrows. assert (Hv : forall r, r ∈ rows -> row_view (<[b := MkDataBlock 1 value]> bs) r = row_view bs r).
  { intros r Hr. unfold row_view. rewrite lookup_insert_ne; [done|]. intros ->. rewrite Forall_forall in Hrows. destruct (Hrows r Hr). congruence. }
  assert (Hm : forall l : list row, (forall r, r ∈ l -> r ∈ rows) -> row_view (<[b := MkDataBlock 1 value]> bs) <$> l = row_view bs <$> l).
  { intros l Hl. apply list_fmap_ext. intros i r Hr. apply Hv, Hl. by eapply list_elem_of_lookup_2. }
  unfold ins_at, add_row. rewrite fmap_app, fmap_cons, take_newer, drop_newer by done.
  rewrite filter_gt_view, filter_le_view. rewrite !Hm by (intros r Hr; by apply list_elem_of_filter in Hr as [_ ?]).
  f_equal. f_equal. unfold row_view. cbn. by rewrite lookup_insert_eq.
Qed.

(** The rule of a TTL on rows and on their values *)
Lemma rule_keep bs offset now ttl rows : rows_sorted rows ->
  abs_keep offset now ttl (row_view bs <$> rows) =
  match ttl_rule offset now ttl with Some keep => row_view bs <$> take (keep rows) rows | None => row_view bs <$> rows end.
Proof.
  intros Hs. unfold abs_keep, ttl_rule, keep_ttl, keep_head, keep_and, keep_or.
  rewrite filter_gt_view, <- !take_newer, <- !fmap_take, <- !newer_count by done.
  destruct (ttl_type ttl); repeat case_decide; done.
Qed.

(** * SegmentReleaseThms: [Segment::Release]: every entry is freed and every reference to a data
    block is given back. *)
Section release.
Context `{SmallLayout}.

(** ** One key *)
Lemma KeyEntry_Release_loop_spec c : forall rows fuel l cnt bs R, chain l c -> nodes l c (node_row <$> rows) -> (length c <= fuel)%nat ->
  blocks_rep bs (row_blocks rows ++ R) -> in_uint 64 cnt ->
  exists bs', KeyEntry_Release_loop fuel l (head c) cnt bs = Some (u64 (cnt + Z.of_nat (length rows)), bs') /\ blocks_rep bs' R.
Proof.
  induction c as [|q c IH]; intros rows fuel l cnt bs R Hc Hn Hf Hb Hcnt.
  { apply Forall2_nil_inv_l, fmap_nil_inv in Hn as ->. exists bs. cbn. rewrite Z.add_0_r, uwrap_id by done. by destruct fuel. }
  destruct rows as [|r rows]; [by inversion Hn|]. apply Forall2_cons in Hn as [Hq Hn]. destruct fuel as [|fuel]; [simpl in Hf; lia|].
  apply chain_cons in Hc as [Hnx Hc]. cbn [KeyEntry_Release_loop head]. unfold it_GetValue, it_Next. cbn [mbind option_bind].
  rewrite GetValue_info, Hq. cbn [fmap option_fmap option_map mbind option_bind node_row fst snd].
  destruct (drop_block_spec bs r.1.2 (row_blocks rows ++ R) Hb) as (freed & bs1 & -> & Hb1 & _). cbn [mbind option_bind]. rewrite Hnx. cbn [mbind option_bind].
  destruct (IH rows fuel l (u64 (cnt + 1)) bs1 R Hc Hn) as (bs2 & -> & Hb2); [simpl in Hf; lia|done|apply uwrap_range; lia|].
  exists bs2. split; [|done]. rewrite uwrap_add_l. do 3 f_equal. cbn [length]. lia.
Qed.

Lemma KeyEntry_Release_spec e ks bs R : entry_rep e ks -> blocks_rep bs (row_blocks (ks_rows ks) ++ R) ->
  exists e' bs', KeyEntry_Release e bs = Some (u64 (Z.of_nat (length (ks_rows ks))), e', bs') /\ blocks_rep bs' R.
Proof.
  intros He Hb. destruct (er_list _ _ He) as [c Hn]. destruct (nrep_chain _ _ _ Hn) as [Hf Hc]. unfold KeyEntry_Release. rewrite Hf. cbn [mbind option_bind].
  pose proof (nrep_size _ _ _ Hn) as Hsz.
  destruct (KeyEntry_Release_loop_spec c (ks_rows ks) (size (heap (entries e))) (entries e) 0 bs R Hc (nrep_nodes _ _ _ Hn) ltac:(lia) Hb ltac:(done)) as (bs' & -> & Hb').
  cbn [mbind option_bind]. destruct (Clear_rep _ _ (nrep_rep _ _ _ Hn)) as (l' & -> & _). cbn [mbind option_bind]. eexists _, bs'. by rewrite Z.add_0_l.
Qed.

(** ** The keys that are still stored *)
Record stored (s : Segment) (ks : list keyed) : Prop := {
  so_ts : ts_cnt_ s = 1;
  so_entry : Forall (fun x => exists e, deref s (id_of x) = Some e /\ entry_rep e x.2) ks;
  so_ids : NoDup (id_of <$> ks);
  so_dom : forall p, is_Some (deref s p) -> p ∈ id_of <$> ks
}.

Lemma release_key s x ks bs R cnt : stored s (x :: ks) -> blocks_rep bs (keyed_blocks (x :: ks) ++ R) ->
  exists bs', release_value (Some (OneEntry (id_of x))) cnt s bs = Some (u64 (cnt + Z.of_nat (length (rows_of x))), set_sg_heap (delete (id_of x) (sg_heap s)) s, bs') /\
    stored (set_sg_heap (delete (id_of x) (sg_heap s)) s) ks /\ blocks_rep bs' (keyed_blocks ks ++ R).
Proof.
  intros [S1 S2 S3 S4] Hb. apply Forall_cons in S2 as [(e & He & Hrep) S2]. rewrite fmap_cons in S3. apply NoDup_cons in S3 as [Hx S3].
  rewrite keyed_blocks_cons, <- app_assoc in Hb. destruct (KeyEntry_Release_spec e x.2 bs _ Hrep Hb) as (e' & bs' & Er & Hb').
  exists bs'. split; [|split; [|done]].
  - unfold release_value. rewrite S1, decide_False by lia. cbn [as_entry mbind option_bind release_entries]. unfold release_entry. rewrite He. cbn [mbind option_bind].
    rewrite Er. cbn [mbind option_bind]. unfold rows_of. do 3 f_equal. rewrite Z.add_comm, uwrap_add_l, Z.add_comm. done.
  - split; cbn; try done.
    + rewrite Forall_forall in S2 |- *. intros y Hy. destruct (S2 y Hy) as (ey & Hey & Hry). exists ey. split; [|done]. unfold deref. cbn.
      rewrite lookup_delete_ne; [done|]. intros E. apply Hx. rewrite E. by apply list_elem_of_fmap_2.
    + intros p Hp. unfold deref in Hp. cbn in Hp. destruct (decide (p = id_of x)) as [->|Hne]; [by rewrite lookup_delete_eq in Hp; destruct Hp|].
      rewrite lookup_delete_ne in Hp by done. specialize (S4 p Hp). rewrite fmap_cons in S4. by apply elem_of_cons in S4 as [?|?].
Qed.

(** ** The two loops *)
Lemma Release_loop_spec todo : forall fuel s bs cnt rest R, stored s (todo ++ rest) -> chain (sg_entries s) (node_of <$> todo) ->
  Forall (fun x => info (sg_entries s) (node_of x) = Some (key_node x)) todo -> blocks_rep bs (keyed_blocks (todo ++ rest) ++ R) -> (length todo <= fuel)%nat ->
  in_uint 64 cnt -> exists h bs', Release_loop fuel (head (node_of <$> todo)) cnt s bs = Some (u64 (cnt + Z.of_nat (total_rows todo)), set_sg_heap h s, bs') /\
    stored (set_sg_heap h s) rest /\ blocks_rep bs' (keyed_blocks rest ++ R).
Proof.
  induction todo as [|x todo IH]; intros fuel s bs cnt rest R Hs Hc Hi Hb Hf Hcnt.
  { exists (sg_heap s), bs. split; [|split; [|done]].
    - rewrite Z.add_0_r, uwrap_id by done. destruct s. by destruct fuel.
    - by destruct s. }
  apply Forall_cons in Hi as [Hx Hi]. destruct fuel as [|fuel]; [simpl in Hf; lia|]. rewrite fmap_cons in *. apply chain_cons in Hc as [Hnx Hc].
  cbn [Release_loop head]. unfold it_GetValue, it_Next. cbn [mbind option_bind]. rewrite GetValue_info, Hx. cbn [fmap option_fmap option_map mbind option_bind key_node fst snd].
  destruct (release_key s x (todo ++ rest) bs R cnt Hs Hb) as (bs1 & -> & Hs1 & Hb1). cbn [mbind option_bind]. set (s1 := set_sg_heap _ s) in *.
  change (sg_entries s1) with (sg_entries s). rewrite Hnx. cbn [mbind option_bind].
  destruct (IH fuel s1 bs1 (u64 (cnt + Z.of_nat (length (rows_of x)))) rest R Hs1 Hc Hi Hb1) as (h & bs2 & -> & Hs2 & Hb2); [simpl in Hf; lia|apply uwrap_range; lia|].
  exists h, bs2. split; [|done]. rewrite uwrap_add_l, total_rows_cons. do 4 f_equal. lia.
Qed.

Lemma Release_free_loop_spec todo : forall fuel s bs fc xs R, stored s todo -> chain (entry_free_list_ s) fc -> nodes (entry_free_list_ s) fc xs ->
  (snd <$> xs.*1) = (fun x => Some (node_of x)) <$> todo -> NoDup (node_of <$> todo) ->
  Forall (fun x => info (sg_entries s) (node_of x) = Some (key_node x)) todo -> blocks_rep bs (keyed_blocks todo ++ R) -> (length fc <= fuel)%nat ->
  exists h l bs', Release_free_loop fuel (head fc) s bs = Some (set_sg_entries l (set_sg_heap h s), bs') /\ stored (set_sg_heap h s) [] /\ blocks_rep bs' R /\
    (forall p, info l p = if decide (p ∈ node_of <$> todo) then None else info (sg_entries s) p).
Proof.
  induction todo as [|x todo IH]; intros fuel s bs fc xs R Hs Hc Hn Hxs Hnd Hi Hb Hf.
  { apply fmap_nil_inv, fmap_nil_inv in Hxs as ->. apply Forall2_nil_inv_r in Hn as ->. exists (sg_heap s), (sg_entries s), bs.
    split; [destruct s; by destruct fuel|]. split; [by destruct s|]. split; [done|]. intros p. by rewrite decide_False by apply not_elem_of_nil. }
  destruct xs as [|[[ver v] ht] xs]; [done|]. rewrite !fmap_cons in Hxs. injection Hxs as -> Hxs. destruct fc as [|q fc]; [by inversion Hn|].
  apply Forall2_cons in Hn as [Hq Hn]. apply Forall_cons in Hi as [Hx Hi]. destruct fuel as [|fuel]; [simpl in Hf; lia|]. apply chain_cons in Hc as [Hnx Hc].
  cbn [Release_free_loop head]. unfold it_GetValue, it_Next. cbn [mbind option_bind]. rewrite GetValue_info, Hq. cbn [fmap option_fmap option_map mbind option_bind fst snd].
  rewrite GetValue_info, Hx. cbn [fmap option_fmap option_map mbind option_bind key_node fst snd].
  destruct (release_key s x todo bs R 0 Hs Hb) as (bs1 & -> & Hs1 & Hb1). cbn [mbind option_bind]. set (s1 := set_sg_heap _ s) in *.
  unfold delete_entry_node. change (sg_entries s1) with (sg_entries s). destruct (DeleteNode_spec (sg_entries s) (node_of x)) as (l1 & -> & _ & Hi1 & _); [by rewrite Hx|].
  cbn [mbind option_bind]. change (entry_free_list_ (set_sg_entries l1 s1)) with (entry_free_list_ s). rewrite Hnx. cbn [mbind option_bind].
  rewrite fmap_cons in Hnd. apply NoDup_cons in Hnd as [Hnode Hnd].
  destruct (IH fuel (set_sg_entries l1 s1) bs1 fc xs R) as (h & l & bs2 & -> & Hs2 & Hb2 & Hl); try done.
  { destruct Hs1. by split. }
  { rewrite Forall_forall in Hi |- *. intros y Hy. cbn. rewrite Hi1, decide_False; [by apply Hi|]. intros E. apply Hnode. rewrite <- E. by apply list_elem_of_fmap_2. }
  { simpl in Hf. lia. }
  exists h, l, bs2. split; [done|]. split; [destruct Hs2; by split|]. split; [done|]. intros p. rewrite Hl, fmap_cons. change (sg_entries (set_sg_entries l1 s1)) with l1. rewrite Hi1.
  destruct (decide (p = node_of x)) as [->|Hne]; [rewrite (decide_True (P := node_of x ∈ node_of x :: _)) by left; by case_decide|].
  apply decide_ext. rewrite elem_of_cons. tauto.
Qed.

(** ** [Release] *)
Lemma Release_spec s bs live dead R : seg_core s live dead -> blocks_rep bs (seg_blocks live dead ++ R) ->
  exists s' bs', Release s bs = Some (u64 (Z.of_nat (total_rows live)), s', bs') /\ blocks_rep bs' R /\ sg_heap s' = ∅ /\
    forall p, is_Some (info (sg_entries s') p) -> p = head_ (sg_entries s).
Proof.
  intros Hcore Hb. pose proof Hcore as [S1 _ _ S4 (fc & fxs & Hfree & Hfx) _ [O1 O2 O3 O4 O5 O6 _ _ _]].
  assert (Hst : stored s (live ++ dead.*2)) by (by split). apply Forall_app in O1 as [O1 O1'].
  destruct S4 as (cs & Hr & Hhi & _ & Hcs & Hnodes). destruct (repr_chain _ _ Hr) as [Hfirst Hch]. rewrite Hcs in *. pose proof (repr_size _ _ Hr) as Hsz. rewrite Hcs in Hsz.
  unfold Release. assert (it_SeekToFirst (sg_entries s) = Some (head (node_of <$> live))) as -> by done. cbn [mbind option_bind].
  destruct (Release_loop_spec live (size (heap (sg_entries s))) s bs 0 dead.*2 R Hst Hch O1 Hb) as (h & bs1 & -> & Hs1 & Hb1); [rewrite length_fmap in Hsz; lia|done|].
  cbn [mbind option_bind]. change (sg_entries (set_sg_heap h s)) with (sg_entries s). destruct (Clear_spec _ _ Hr Hhi) as (l1 & -> & _ & _ & Hl1). cbn [mbind option_bind].
  set (s1 := set_sg_entries l1 (set_sg_heap h s)). change (entry_free_list_ s1) with (entry_free_list_ s).
  destruct (nrep_chain _ _ _ Hfree) as [-> Hfc]. cbn [mbind option_bind]. rewrite Hcs in Hl1.
  pose proof O3 as Hnd. apply NoDup_cons in Hnd as [Hhead Hnd]. rewrite fmap_app in Hnd. apply NoDup_app in Hnd as (_ & Hdisj & Hnd2).
  destruct (Release_free_loop_spec dead.*2 (size (heap (entry_free_list_ s))) s1 bs1 fc fxs R) as (h2 & l2 & bs2 & -> & Hs2 & Hb2 & Hl2); try done.
  { destruct Hs1. by split. }
  { by apply nrep_nodes. }
  { rewrite Hfx, <- !list_fmap_compose. done. }
  { rewrite Forall_forall in O1' |- *. intros y Hy. unfold s1. cbn. rewrite Hl1, decide_False; [by apply O1'|]. intros Hin. apply (Hdisj _ Hin). by apply list_elem_of_fmap_2. }
  { pose proof (nrep_size _ _ _ Hfree). lia. }
  cbn [mbind option_bind]. change (entry_free_list_ (set_sg_entries l2 (set_sg_heap h2 s1))) with (entry_free_list_ s).
  destruct (Clear_rep _ _ (nrep_rep _ _ _ Hfree)) as (fl & -> & _). cbn [mbind option_bind]. rewrite Z.add_0_l. eexists _, bs2. split; [reflexivity|]. split; [done|].
  split; cbn.
  - apply map_empty. intros p. apply eq_None_not_Some. intros Hp. by apply (so_dom _ _ Hs2), not_elem_of_nil in Hp.
  - intros p. rewrite Hl2. case_decide as Hp1; [by intros []|]. unfold s1. cbn. rewrite Hl1. case_decide as Hp2; [by intros []|]. intros Hp.
    apply O5 in Hp. rewrite fmap_app in Hp. apply elem_of_cons in Hp as [->|Hp]; [done|]. by apply elem_of_app in Hp as [?|?].
Qed.
End release.
