(* ===== verification/SegmentRefine.v ===== *)
(** The segment refines the abstract map: one simulation lemma per
    operation. *)
From S2P Require Import Prelude Slice Random Skiplist SkiplistInv SkiplistInsert SkiplistSplit SkiplistSpec SkiplistNodes Segment SegmentGc.
From S2P Require Import SegmentRelease SegmentInv SegmentGcInv SegmentOps.

(** The calls of a segment, each answering with a number: whether the key was
    there for [Delete], the rows freed for the collections *)
Inductive seg_op : Type :=
  | SPut (key : bytes) (t : Z) (value : bytes)
  | SDelete (key : bytes)
  | SGc (micros : Z) (ttl : TTLSt)
  | SGcFree
  | SIncr.

(** The abstract state: the contents, the keys taken out whose memory is not
    freed yet (their version and number of rows), and the version *)
Record abs_seg : Type := AbsSeg { ab_content : content; ab_retired : list (Z * nat); ab_version : Z }.

Definition retired_rows (l : list (Z * nat)) : nat := sum_list l.*2.

Section machine.
Context `{Layout}.

Definition zero_stat : GcStat := MkGcStat 0 0 0.

Definition run_seg_op (o : seg_op) (sb : Segment * blocks) : option (Z * (Segment * blocks)) :=
  let '(s, bs) := sb in
  match o with
  | SPut key t value => '(s, bs) ← Put s bs key t value; Some (0, (s, bs))
  | SDelete key => '(b, s) ← Delete s key; Some (if (b : bool) then 1 else 0, (s, bs))
  | SGc micros ttl => '(s, bs, st) ← ExecuteGc s micros ttl bs zero_stat; Some (gc_idx_cnt st, (s, bs))
  | SGcFree => '(s, bs, st) ← GcFreeList s bs zero_stat; Some (gc_idx_cnt st, (s, bs))
  | SIncr => Some (0, (IncrGcVersion s, bs))
  end.

Definition abs_op (offset : Z) (o : seg_op) (a : abs_seg) : Z * abs_seg :=
  let '(AbsSeg m ret ver) := a in
  match o with
  | SPut key t value => (0, AbsSeg (abs_put key t value m) ret ver)
  | SDelete key =>
      match m !! key with
      | None => (0, a)
      | Some rows => (1, AbsSeg (delete key m) ((ver, length rows) :: ret) ver)
      end
  | SGc micros ttl =>
      let m' := abs_gc (abs_keep offset (u64 (micros / 1000)) ttl) m in
      (Z.of_nat (content_rows m - content_rows m'), AbsSeg m' (replicate (size m - size m') (ver, 0%nat) ++ ret) ver)
  | SGcFree =>
      if decide (ver < FLAGS_gc_deleted_pk_version_delta) then (0, a)
      else (Z.of_nat (retired_rows (filter (fun y => y.1 <= ver - FLAGS_gc_deleted_pk_version_delta) ret)),
            AbsSeg m (filter (fun y => ver - FLAGS_gc_deleted_pk_version_delta < y.1) ret) ver)
  | SIncr => (0, AbsSeg m ret (u64 (ver + 1)))
  end.
End machine.

(** ** The free list and the retired keys *)
Definition retired_of (dead : list (Z * keyed)) : list (Z * nat) := (fun y => (y.1, length (rows_of y.2))) <$> dead.

Lemma retired_rows_of dead : retired_rows (retired_of dead) = total_rows dead.*2.
Proof. unfold retired_rows, retired_of, total_rows. by rewrite <- !list_fmap_compose. Qed.

Lemma retired_rows_perm a b : a ≡ₚ b -> retired_rows a = retired_rows b.
Proof. intros Hab. unfold retired_rows. apply sum_list_perm. by rewrite Hab. Qed.

Lemma retired_rows_filter (P : Z * nat -> Prop) `{!forall y, Decision (P y)} l : (retired_rows (filter P l) <= retired_rows l)%nat.
Proof.
  induction l as [|y l IH]; [done|]. rewrite filter_cons. change (retired_rows (y :: l)) with (y.2 + retired_rows l)%nat.
  case_decide; [|lia]. change (retired_rows (y :: filter P l)) with (y.2 + retired_rows (filter P l))%nat. lia.
Qed.

Lemma retired_rows_zero n v l : retired_rows (replicate n (v, 0%nat) ++ l) = retired_rows l.
Proof. induction n as [|n IH]; [done|]. exact IH. Qed.

Lemma retired_ins n v x dead : retired_of (ins_at n (v, x) dead) ≡ₚ (v, length (rows_of x)) :: retired_of dead.
Proof. unfold retired_of. by rewrite ins_at_perm. Qed.

Lemma retired_gc keep v todo : forall dead,
  retired_of (gc_keys keep v todo dead).2 ≡ₚ replicate (length todo - length (gc_keys keep v todo dead).1) (v, 0%nat) ++ retired_of dead /\
  (length (gc_keys keep v todo dead).1 <= length todo)%nat.
Proof.
  induction todo as [|x todo IH]; intros dead; [done|]. cbn [gc_keys]. case_decide as Hx.
  - destruct (IH (ins_at (free_pos v dead) (v, cut_key keep x) dead)) as [Hp Hl]. split; [|simpl; lia].
    rewrite Hp. cbn [length]. rewrite Nat.sub_succ_l by done. cbn [replicate app]. rewrite retired_ins, Hx.
    by rewrite <- Permutation_middle.
  - destruct (IH dead) as [Hp Hl]. destruct (gc_keys keep v todo dead) as [l d]. cbn [fst snd length] in *. split; [done|lia].
Qed.

Lemma gc_keys_fst keep v todo : forall dead, (gc_keys keep v todo dead).1 = filter (fun x => rows_of x <> []) (cut_key keep <$> todo).
Proof.
  induction todo as [|x todo IH]; intros dead; [done|]. cbn [gc_keys]. rewrite fmap_cons, filter_cons. case_decide as Hx.
  - rewrite decide_False by tauto. apply IH.
  - rewrite decide_True by done. rewrite <- (IH dead). by destruct (gc_keys keep v todo dead).
Qed.

(** The free list is in version order, newest first. *)
Definition dead_sorted (dead : list (Z * keyed)) : Prop := StronglySorted (fun x y => y.1 <= x.1) dead.

Lemma free_pos_cons v y dead : free_pos v (y :: dead) = if decide (v < y.1) then S (free_pos v dead) else 0%nat.
Proof.
  unfold free_pos. cbn. unfold adv_lt, compare_, time_comparator, TimeComparator. destruct (decide (v < y.1)); [done|]. by case_decide.
Qed.

Lemma take_free_pos v dead : dead_sorted dead ->
  take (free_pos v dead) dead = filter (fun y => v < y.1) dead /\ drop (free_pos v dead) dead = filter (fun y => y.1 <= v) dead.
Proof.
  induction 1 as [|y dead Hs [IH1 IH2] Hy]; [done|]. rewrite free_pos_cons, !filter_cons. destruct (decide (v < y.1)) as [Hlt|Hge].
  - rewrite (decide_False (P := y.1 <= v)) by lia. simpl. by rewrite IH1, IH2.
  - rewrite (decide_True (P := y.1 <= v)) by lia. rewrite Forall_forall in Hy. simpl. split.
    + symmetry. apply filter_none. intros z Hz Hgt. specialize (Hy z Hz). simpl in Hy. lia.
    + f_equal. symmetry. apply filter_all. intros z Hz. specialize (Hy z Hz). simpl in Hy. lia.
Qed.

Lemma core_dead_sorted `{Layout} s live dead : seg_core s live dead -> dead_sorted dead.
Proof.
  intros Hc. destruct (sc_free _ _ _ Hc) as (c & xs & Hn & Hx). pose proof (rep_sorted _ _ (nrep_rep _ _ _ Hn)) as Hs. rewrite Hx in Hs.
  unfold dead_sorted. clear -Hs. induction dead as [|y dead IH]; [constructor|]. apply StronglySorted_inv in Hs as [Hs Hy]. constructor; [by apply IH|].
  apply (Forall_fmap free_node) in Hy. eapply Forall_impl; [exact Hy|]. intros z. cbn. rewrite time_le. done.
Qed.

Lemma retired_filter (P : Z -> Prop) `{!forall y : Z * keyed, Decision (P y.1)} `{!forall y : Z * nat, Decision (P y.1)} (dead : list (Z * keyed)) :
  retired_of (filter (fun y => P y.1) dead) = filter (fun y => P y.1) (retired_of dead).
Proof.
  induction dead as [|y dead IH]; [done|]. unfold retired_of in *. rewrite fmap_cons, !filter_cons.
  destruct (decide (P y.1)) as [Hy|Hy]; destruct (decide (P (y.1, length (rows_of y.2)).1)) as [Hy'|Hy'];
    rewrite ?fmap_cons, ?IH; done.
Qed.

(** ** Simulation *)
Section sim.
Context `{SmallLayout}.

Record sim (offset : Z) (s : Segment) (bs : blocks) (a : abs_seg) (live : list keyed) (dead : list (Z * keyed)) : Prop := {
  sm_inv : seg_inv s bs live dead [];
  sm_readers : Forall (fun x => ks_refs x.2 = 0) live;
  sm_content : ab_content a = view bs live;
  sm_retired : ab_retired a ≡ₚ retired_of dead;
  sm_version : ab_version a = gc_version_ s;
  sm_offset : ttl_offset_ s = offset
}.

(** ** Views of the keys *)

Lemma rows_of_sorted s live dead x : seg_core s live dead -> x ∈ live -> rows_sorted (rows_of x).
Proof.
  intros Hc Hx. pose proof (ow_heap _ _ (sc_owned _ _ _ Hc)) as Hh. rewrite Forall_forall in Hh.
  destruct (Hh x) as (e & _ & Hr); [apply elem_of_app; by left|]. by eapply entry_sorted.
Qed.

Lemma view_same bs bs' live' : (forall x r, x ∈ live' -> r ∈ rows_of x -> is_Some (bs' !! r.1.2)) ->
  (forall b blk', bs' !! b = Some blk' -> exists blk, bs !! b = Some blk /\ data blk' = data blk) -> view bs' live' = view bs live'.
Proof.
  intros Hin Hd. apply view_ext. intros x r Hx Hr. unfold row_view. destruct (Hin x r Hx Hr) as [blk' E]. rewrite E.
  destruct (Hd _ _ E) as (blk & -> & ->). done.
Qed.

Lemma seg_inv_blocks s bs live dead R x r : seg_inv s bs live dead R -> x ∈ live -> r ∈ rows_of x -> is_Some (bs !! r.1.2).
Proof. intros Hi Hx Hr. pose proof (rows_blocks _ _ _ _ _ _ Hi Hx) as Hb. rewrite Forall_forall in Hb. by apply Hb. Qed.

Lemma view_put s bs live dead R key t b h value live' : seg_inv s bs live dead R -> bs !! b = None -> put_keys key t b h live live' ->
  view (<[b := MkDataBlock 1 value]> bs) live' = abs_put key t value (view bs live).
Proof.
  intros Hi Hb Hp. pose proof (sv_core _ _ _ _ _ Hi) as Hc. pose proof (sc_distinct _ _ _ Hc) as Hnd.
  assert (Hsame : forall l, (forall x, x ∈ l -> x ∈ live) -> view (<[b := MkDataBlock 1 value]> bs) l = view bs l).
  { intros l Hl. apply view_ext. intros x r Hx Hr. unfold row_view. rewrite lookup_insert_ne; [done|]. intros ->.
    destruct (seg_inv_blocks _ _ _ _ _ _ _ Hi (Hl x Hx) Hr). congruence. }
  unfold abs_put. destruct Hp as [la x lb x' Hx Hs Hr Hrows|live0 x n Hk Hx Hr Hrows].
  - assert (Hxin : x ∈ la ++ x :: lb) by apply elem_of_app_cons.
    assert (Hperm : forall y : keyed, la ++ y :: lb ≡ₚ y :: la ++ lb) by (intros; by rewrite Permutation_middle).
    destruct Hs as (E1 & _). rewrite (view_perm bs _ _ Hnd (Hperm x)).
    rewrite (view_perm _ _ (x' :: la ++ lb)); [|rewrite fmap_app, fmap_cons, <- E1, <- fmap_cons, <- fmap_app; done|apply Hperm].
    rewrite !view_cons, Hsame, <- E1, Hx by (intros y; rewrite !elem_of_app, elem_of_cons; tauto).
    rewrite lookup_insert_eq, insert_insert_eq. cbn. f_equal. rewrite Hrows. apply view_add; [by eapply rows_of_sorted|done|by eapply rows_blocks].
  - rewrite (view_perm _ _ (x :: live0)); [|rewrite fmap_ins_at, ins_at_perm; constructor; by rewrite ?Hx|apply ins_at_perm].
    rewrite view_cons, Hsame, Hx, (view_absent bs live0 key Hk), Hrows by done. cbn. f_equal. unfold row_view. cbn. by rewrite lookup_insert_eq.
Qed.

Lemma view_gc bs keep K todo : NoDup todo.*1 -> (forall x, x ∈ todo -> row_view bs <$> rows_of (cut_key keep x) = K (row_view bs <$> rows_of x)) ->
  view bs (filter (fun x => rows_of x <> []) (cut_key keep <$> todo)) = abs_gc K (view bs todo).
Proof.
  induction todo as [|x todo IH]; intros Hnd HK; [unfold abs_gc, view; cbn; by rewrite omap_empty|].
  apply NoDup_cons in Hnd as [Hx Hnd]. rewrite fmap_cons, filter_cons, view_cons. unfold abs_gc. rewrite omap_insert.
  assert (view bs todo !! x.1 = None) as Habs by (by apply view_absent).
  unfold compose at 1. rewrite <- HK by left. unfold nonempty_rows at 1.
  destruct (decide (rows_of (cut_key keep x) <> [])) as [Hne|He].
  - rewrite decide_False by (by intros ?%fmap_nil_inv). rewrite view_cons. f_equal. by apply IH; [|intros; apply HK; right].
  - destruct (rows_of (cut_key keep x)) eqn:E; [|by exfalso; apply He]. rewrite decide_True by done.
    rewrite IH by (done || (intros; apply HK; by right)). unfold abs_gc. rewrite delete_id; [done|]. by rewrite lookup_omap, Habs.
Qed.

(** ** One call *)

Definition seg_op_ok (o : seg_op) : Prop :=
  match o with
  | SPut key _ _ => key_ok key
  | SGc _ ttl => ttl_ok ttl
  | _ => True
  end.

(** The call does what the abstract operation says. *)
Definition simulates (offset : Z) (o : seg_op) (s : Segment) (bs : blocks) (a : abs_seg) : Prop :=
  exists s' bs' live' dead', run_seg_op o (s, bs) = Some ((abs_op offset o a).1, (s', bs')) /\
    sim offset s' bs' (abs_op offset o a).2 live' dead'.

Section one_call.
Context offset s bs a live dead (Hs : sim offset s bs a live dead).

Lemma put_keys_refs key t b h live' : put_keys key t b h live live' -> Forall (fun x => ks_refs x.2 = 0) live'.
Proof using All.
  intros Hp. pose proof (sm_readers _ _ _ _ _ _ Hs) as Hr. destruct Hp as [la x lb x' _ _ E _|live0 x n _ _ E _].
  - rewrite Forall_app, Forall_cons in *. by rewrite E.
  - rewrite ins_at_perm. by constructor.
Qed.

Lemma sim_put key t value : key_ok key -> simulates offset (SPut key t value) s bs a.
Proof using All.
  intros Hk. destruct (Put_spec s bs live dead [] key t value (sm_inv _ _ _ _ _ _ Hs) Hk) as (s' & b & live' & h & Hput & Hb & Hp & Hi & Hcf).
  pose proof (put_keys_refs _ _ _ _ _ Hp) as Hrf.
  exists s', (<[b := MkDataBlock 1 value]> bs), live', dead. cbn [run_seg_op]. rewrite Hput. destruct a as [m ret ver].
  pose proof Hs as [S1 S2 S3 S4 S5 S6]. cbn in *. split; [done|]. split; cbn; try done.
  - rewrite S3. symmetry. by eapply view_put.
  - by rewrite (cf_version _ _ Hcf).
  - by rewrite (cf_offset _ _ Hcf).
Qed.

Lemma sim_delete key : simulates offset (SDelete key) s bs a.
Proof using All.
  unfold simulates. destruct a as [m ret ver]. cbn [run_seg_op abs_op]. pose proof Hs as [S1 S2 S3 S4 S5 S6]. cbn in S3, S4, S5.
  destruct (m !! key) as [rows|] eqn:E.
  - rewrite S3 in E. apply view_present in E as (la & x & lb & -> & <- & ->).
    destruct (Delete_present _ _ _ _ _ _ _ S1) as (s' & -> & Hi & Hcf). cbn [mbind option_bind].
    do 4 eexists. split; [done|]. pose proof (sc_distinct _ _ _ (sv_core _ _ _ _ _ S1)) as Hnd. split; cbn; try done.
    + rewrite Forall_app, Forall_cons in *. tauto.
    + assert (Hperm : la ++ x :: lb ≡ₚ x :: la ++ lb) by (by rewrite Permutation_middle).
      rewrite S3, (view_perm _ _ _ Hnd Hperm), view_cons, delete_insert_id; [done|]. apply view_absent.
      rewrite Hperm in Hnd. by apply NoDup_cons in Hnd as [? _].
    + by rewrite length_fmap, retired_ins, S4, S5.
    + by rewrite (cf_version _ _ Hcf).
    + by rewrite (cf_offset _ _ Hcf).
  - rewrite (Delete_absent _ _ _ _ _ _ S1).
    + exists s, bs, live, dead. done.
    + intros Hin. apply live_split in Hin as (la & x & lb & -> & <-). rewrite S3, view_lookup in E; [done|].
      pose proof (sc_distinct _ _ _ (sv_core _ _ _ _ _ S1)) as Hnd. rewrite fmap_app, fmap_cons in Hnd.
      apply NoDup_app in Hnd as (_ & Hd & _). intros Hin. apply (Hd x.1 Hin). left.
Qed.

Lemma sim_incr : simulates offset SIncr s bs a.
Proof using All.
  unfold simulates. destruct a as [m ret ver]. cbn [run_seg_op abs_op]. pose proof Hs as [S1 S2 S3 S4 S5 S6]. cbn in *.
  exists (IncrGcVersion s), bs, live, dead. split; [done|]. split; cbn; try done; [|by rewrite S5].
  destruct S1 as [C1 C2 C3 C4]. split; try done. eapply core_same_lists; [exact C1|done..| |done|done]. eapply owned_same; [|apply C1]. by split.
Qed.

Lemma sim_free : Z.of_nat (retired_rows (ab_retired a)) < 2 ^ 64 -> simulates offset SGcFree s bs a.
Proof using All.
  intros Hlen. unfold simulates. destruct a as [m ret ver]. cbn [run_seg_op abs_op]. pose proof Hs as [S1 S2 S3 S4 S5 S6]. cbn in S3, S4, S5, Hlen.
  assert (Hst : stat_ok zero_stat) by (by unfold stat_ok, in_uint).
  destruct (GcFreeList_spec s bs zero_stat live dead [] S1 Hst) as (s' & bs' & st' & -> & Hi & Hg & Hcf). cbn [mbind option_bind].
  rewrite S5. pose proof (core_dead_sorted _ _ _ (sv_core _ _ _ _ _ S1)) as Hsort.
  assert (Hview : view bs live = view bs' live).
  { symmetry. apply view_same; [intros; by eapply seg_inv_blocks|apply Hg]. }
  destruct (decide (gc_version_ s < FLAGS_gc_deleted_pk_version_delta)) as [Hlt|Hge].
  - rewrite take_ge in Hi by done. rewrite drop_ge in Hg by done. pose proof (gs_idx _ _ _ _ _ Hg) as E. cbn in E. rewrite E.
    exists s', bs', live, dead. split; [done|]. split; cbn; try done; [by rewrite S3|by rewrite (cf_version _ _ Hcf)|by rewrite (cf_offset _ _ Hcf)].
  - set (v := gc_version_ s - FLAGS_gc_deleted_pk_version_delta) in *. destruct (take_free_pos v dead Hsort) as [Ht Hd]. rewrite Ht in Hi. rewrite Hd in Hg.
    pose proof (gs_idx _ _ _ _ _ Hg) as E. cbn [gc_idx_cnt zero_stat] in E. rewrite Z.add_0_l in E.
    assert (Hsum : total_rows (filter (fun y : Z * keyed => y.1 <= v) dead).*2 = retired_rows (filter (fun y => y.1 <= v) ret)).
    { rewrite <- retired_rows_of, (retired_filter (fun z => z <= v)). apply retired_rows_perm. by rewrite S4. }
    rewrite Hsum in E. rewrite uwrap_id in E.
    + do 4 eexists. split; [rewrite E; done|]. split; cbn; try done.
      * by rewrite S3, Hview.
      * rewrite (retired_filter (fun z => v < z)), S4. done.
      * by rewrite (cf_version _ _ Hcf).
      * by rewrite (cf_offset _ _ Hcf).
    + split; [lia|]. eapply Z.le_lt_trans; [|exact Hlen]. apply inj_le, retired_rows_filter.
Qed.

Lemma abs_gc_id (K : list rowv -> list rowv) (m : content) : (forall key rows, m !! key = Some rows -> K rows = rows /\ rows <> []) -> abs_gc K m = m.
Proof.
  intros Hm. apply map_eq. intros key. unfold abs_gc. rewrite lookup_omap. destruct (m !! key) as [rows|] eqn:E; [|done].
  destruct (Hm key rows E) as [HK Hne]. cbn. unfold compose, nonempty_rows. rewrite HK. by rewrite decide_False.
Qed.

Lemma cut_len_free keep x : x ∈ live -> cut_len keep x = keep (rows_of x).
Proof using All.
  intros Hx. pose proof (sm_readers _ _ _ _ _ _ Hs) as Hr. rewrite Forall_forall in Hr. unfold cut_len, kept_rows. by rewrite (Hr x Hx), decide_True by lia.
Qed.

Lemma live_bounded_total : Z.of_nat (content_rows (ab_content a)) < 2 ^ 64 -> live_bounded live.
Proof using All.
  rewrite (sm_content _ _ _ _ _ _ Hs), view_rows by (apply (sv_core _ _ _ _ _ (sm_inv _ _ _ _ _ _ Hs))). intros Hlen.
  apply Forall_forall. intros x Hx. unfold rows_bounded. destruct (list_elem_of_split _ _ Hx) as (la & lb & E). rewrite E, total_rows_app, total_rows_cons in Hlen. lia.
Qed.

(** The contents after a collection with the rule [keep] *)
Lemma gc_content keep (K : list rowv -> list rowv) version : (forall x, x ∈ live -> row_view bs <$> take (keep (rows_of x)) (rows_of x) = K (row_view bs <$> rows_of x)) ->
  view bs (gc_keys keep version live dead).1 = abs_gc K (ab_content a).
Proof using All.
  intros HK. rewrite gc_keys_fst, (sm_content _ _ _ _ _ _ Hs). apply view_gc; [apply (sv_core _ _ _ _ _ (sm_inv _ _ _ _ _ _ Hs))|].
  intros x Hx. change (rows_of (cut_key keep x)) with (take (cut_len keep x) (rows_of x)). by rewrite cut_len_free, HK.
Qed.

Lemma gc_freed_content keep version s' bs' live' dead' : seg_inv s' bs' live' dead' [] -> gc_keys keep version live dead = (live', dead') ->
  gc_freed keep live = (content_rows (view bs live) - content_rows (view bs' live'))%nat /\ (content_rows (view bs' live') <= content_rows (view bs live))%nat.
Proof using All.
  intros Hi E. pose proof (gc_keys_total keep version live dead) as Ht. destruct (retired_gc keep version live dead) as [Hp _].
  apply retired_rows_perm in Hp. rewrite retired_rows_of in Hp. rewrite E in *. cbn [fst snd] in *.
  rewrite !view_rows by (apply (sv_core _ _ _ _ _ Hi) || apply (sv_core _ _ _ _ _ (sm_inv _ _ _ _ _ _ Hs))).
  assert (retired_rows (replicate (length live - length live') (version, 0%nat) ++ retired_of dead) = total_rows dead.*2) as Hz.
  { rewrite <- retired_rows_of. apply retired_rows_zero. }
  rewrite !total_rows_app in Ht. lia.
Qed.

Lemma sim_gc micros ttl : ttl_ok ttl -> Z.of_nat (content_rows (ab_content a)) < 2 ^ 64 -> simulates offset (SGc micros ttl) s bs a.
Proof using All.
  intros Ht Hlen. assert (Hst : stat_ok zero_stat) by (by unfold stat_ok, in_uint). pose proof (live_bounded_total Hlen) as Hlb.
  pose proof (sm_inv _ _ _ _ _ _ Hs) as S1. pose proof (sc_distinct _ _ _ (sv_core _ _ _ _ _ S1)) as Hnd.
  pose proof (ExecuteGc_spec s bs zero_stat live dead [] S1 Hst Hlb micros ttl Ht) as Hg. rewrite (sm_offset _ _ _ _ _ _ Hs) in Hg.
  assert (Hrule : forall x, x ∈ live -> abs_keep offset (u64 (micros / 1000)) ttl (row_view bs <$> rows_of x) =
    match ttl_rule offset (u64 (micros / 1000)) ttl with Some keep => row_view bs <$> take (keep (rows_of x)) (rows_of x) | None => row_view bs <$> rows_of x end).
  { intros x Hx. apply rule_keep. eapply rows_of_sorted; [apply S1|done]. }
  set (K := abs_keep offset (u64 (micros / 1000)) ttl) in *. destruct (ttl_rule offset (u64 (micros / 1000)) ttl) as [keep|].
  - destruct Hg as (s' & bs' & st' & Hx & Hi & Hstep & Hcf).
    pose proof (gc_content keep K (gc_version_ s) (fun x Hx => eq_sym (Hrule x Hx))) as Hc.
    pose proof (retired_gc keep (gc_version_ s) live dead) as [Hret Hle].
    destruct (gc_keys keep (gc_version_ s) live dead) as [live' dead'] eqn:Ek. cbn [fst snd] in *.
    destruct (gc_freed_content keep _ s' bs' live' dead' Hi Ek) as [Hfree Hcle].
    assert (Hv : view bs' live' = abs_gc K (ab_content a)).
    { rewrite <- Hc. apply view_same; [intros; by eapply seg_inv_blocks|apply Hstep]. }
    pose proof (sc_distinct _ _ _ (sv_core _ _ _ _ _ Hi)) as Hnd'. pose proof (gs_idx _ _ _ _ _ Hstep) as Eidx.
    cbn [gc_idx_cnt zero_stat] in Eidx. rewrite Hfree, Z.add_0_l in Eidx. rewrite Hv in Eidx, Hcle.
    assert (Hsz : (size (ab_content a) - size (abs_gc K (ab_content a)) = length live - length live')%nat).
    { rewrite <- Hv, (sm_content _ _ _ _ _ _ Hs), !view_size by done. done. }
    assert (Hrf : Forall (fun x => ks_refs x.2 = 0) live').
    { assert (live' = (gc_keys keep (gc_version_ s) live dead).1) as -> by (by rewrite Ek). rewrite gc_keys_fst.
      apply Forall_forall. intros y [_ (z & -> & Hz)%list_elem_of_fmap]%list_elem_of_filter. pose proof (sm_readers _ _ _ _ _ _ Hs) as Hr.
      rewrite Forall_forall in Hr. by apply (Hr z). }
    rewrite <- (sm_content _ _ _ _ _ _ Hs) in Eidx. destruct a as [m ret ver]. pose proof Hs as [_ S2 S3 S4 S5 S6]. cbn [ab_content ab_retired ab_version] in *. subst K.
    exists s', bs', live', dead'. unfold run_seg_op. rewrite Hx. cbn [mbind option_bind]. split.
    + rewrite Eidx. rewrite uwrap_id; [done|]. split; lia.
    + split; cbn [abs_op snd ab_content ab_retired ab_version]; try done.
      * by rewrite Hsz, Hret, S4, S5.
      * by rewrite (cf_version _ _ Hcf).
      * by rewrite (cf_offset _ _ Hcf).
  - cbn in Hg. assert (Hid : abs_gc K (ab_content a) = ab_content a).
    { apply abs_gc_id. rewrite (sm_content _ _ _ _ _ _ Hs). intros key rows (la & x & lb & El & _ & ->)%view_present.
      assert (x ∈ live) as Hxin by (rewrite El; apply elem_of_app_cons). split; [by apply Hrule|].
      pose proof (sv_nonempty _ _ _ _ _ S1) as Hne. rewrite Forall_forall in Hne. intros E%fmap_nil_inv. by apply (Hne x). }
    exists s, bs, live, dead. unfold run_seg_op. rewrite Hg. destruct a as [m ret ver]. subst K.
    cbn [abs_op fst snd ab_content mbind option_bind] in *. rewrite Hid, !Nat.sub_diag. done.
Qed.
End one_call.
End sim.
