(* ===== verification/SegmentClaims.v ===== *)
(** What the segment promises, for any sequence of calls on a new segment. *)
From S2P Require Import Prelude Slice Random Skiplist SkiplistInv SkiplistInsert SkiplistSplit SkiplistSpec SkiplistNodes Segment SegmentGc.
From S2P Require Import SegmentRelease SegmentInv SegmentGcInv SegmentOps SegmentRefine.

(** * SegmentThms: The properties of the segment. *)
(** ** Sizes of the abstract contents *)

Lemma content_rows_insert (m : content) key rows : m !! key = None -> content_rows (<[key := rows]> m) = (length rows + content_rows m)%nat.
Proof. intros Hk. unfold content_rows. rewrite map_fold_insert_L; [done|intros; lia|done]. Qed.

Lemma content_rows_delete (m : content) key rows : m !! key = Some rows -> content_rows m = (length rows + content_rows (delete key m))%nat.
Proof. intros Hk. rewrite <- (insert_delete_id m key rows Hk) at 1. apply content_rows_insert, lookup_delete_eq. Qed.

Lemma length_add_row t value rows : length (add_row t value rows) = S (length rows).
Proof.
  unfold add_row. rewrite length_app. simpl. rewrite Nat.add_succ_r. f_equal. induction rows as [|r rows IH]; [done|]. rewrite !filter_cons.
  destruct (decide (t < r.1)); [rewrite decide_False by lia|rewrite decide_True by lia]; simpl; lia.
Qed.

Lemma content_rows_put key t value m : content_rows (abs_put key t value m) = S (content_rows m).
Proof.
  unfold abs_put. destruct (m !! key) as [rows|] eqn:E; cbn [default from_option id].
  - rewrite <- (insert_delete_eq m), content_rows_insert, length_add_row by apply lookup_delete_eq. by rewrite (content_rows_delete m key rows E).
  - by rewrite content_rows_insert.
Qed.

Lemma content_rows_gc (K : list rowv -> list rowv) m : (forall rows, (length (K rows) <= length rows)%nat) -> (content_rows (abs_gc K m) <= content_rows m)%nat.
Proof.
  intros HK. induction m as [|key rows m Hk IH] using map_ind; [unfold abs_gc; by rewrite omap_empty|].
  unfold abs_gc in *. rewrite omap_insert, content_rows_insert by done. unfold compose at 1, nonempty_rows at 1. specialize (HK rows).
  destruct (decide (K rows = [])); [rewrite delete_id by (by rewrite lookup_omap, Hk); lia|].
  rewrite content_rows_insert by (by rewrite lookup_omap, Hk). lia.
Qed.

Lemma length_abs_keep offset now ttl rows : (length (abs_keep offset now ttl rows) <= length rows)%nat.
Proof.
  unfold abs_keep. destruct (ttl_type ttl); repeat case_decide; rewrite ?length_take; try lia; apply length_filter.
Qed.

(** ** Runs *)
Section runs.
Context `{SmallLayout}.

Fixpoint run_seg_ops (os : list seg_op) (sb : Segment * blocks) : option (list Z * (Segment * blocks)) :=
  match os with
  | [] => Some ([], sb)
  | o :: os' => '(out, sb) ← run_seg_op o sb; '(outs, sb) ← run_seg_ops os' sb; Some (out :: outs, sb)
  end.
Fixpoint abs_ops (offset : Z) (os : list seg_op) (a : abs_seg) : list Z * abs_seg :=
  match os with
  | [] => ([], a)
  | o :: os' => let '(out, a) := abs_op offset o a in let '(outs, a) := abs_ops offset os' a in (out :: outs, a)
  end.

Definition abs_size (a : abs_seg) : nat := content_rows (ab_content a) + retired_rows (ab_retired a).

Lemma abs_op_size offset o a : (abs_size (abs_op offset o a).2 <= S (abs_size a))%nat.
Proof.
  destruct a as [m ret ver]. unfold abs_size. destruct o as [key t value|key|micros ttl| |]; cbn [abs_op].
  - cbn. rewrite content_rows_put. lia.
  - destruct (m !! key) as [rows|] eqn:E; cbn [snd ab_content ab_retired]; [|lia]. rewrite (content_rows_delete m key rows E).
    change (retired_rows ((ver, length rows) :: ret)) with (length rows + retired_rows ret)%nat. lia.
  - cbn [snd ab_content ab_retired]. rewrite retired_rows_zero. pose proof (content_rows_gc _ m (length_abs_keep offset (u64 (micros / 1000)) ttl)). lia.
  - case_decide; cbn [snd ab_content ab_retired]; [lia|]. pose proof (retired_rows_filter (fun y => ver - FLAGS_gc_deleted_pk_version_delta < y.1) ret). lia.
  - cbn. lia.
Qed.

Lemma abs_ops_size offset os : forall a, (abs_size (abs_ops offset os a).2 <= length os + abs_size a)%nat.
Proof.
  induction os as [|o os IH]; intros a; [simpl; lia|]. cbn [abs_ops]. pose proof (abs_op_size offset o a) as Hsz.
  destruct (abs_op offset o a) as [out a1]. specialize (IH a1). destruct (abs_ops offset os a1) as [outs a2]. simpl in *. lia.
Qed.

Lemma run_seg_op_sim offset o s bs a live dead : sim offset s bs a live dead -> seg_op_ok o -> Z.of_nat (abs_size a) < 2 ^ 64 -> simulates offset o s bs a.
Proof.
  intros Hs Ho Hlen. unfold abs_size in Hlen. destruct o; cbn in Ho.
  - by eapply sim_put.
  - by eapply sim_delete.
  - eapply sim_gc; [done|done|lia].
  - eapply sim_free; [done|lia].
  - by eapply sim_incr.
Qed.

Lemma run_seg_ops_sim offset os : forall s bs a live dead, sim offset s bs a live dead -> Forall seg_op_ok os -> Z.of_nat (abs_size a + length os) < 2 ^ 64 ->
  exists s' bs' live' dead', run_seg_ops os (s, bs) = Some ((abs_ops offset os a).1, (s', bs')) /\ sim offset s' bs' (abs_ops offset os a).2 live' dead'.
Proof.
  induction os as [|o os IH]; intros s bs a live dead Hs Ho Hlen; [by exists s, bs, live, dead|].
  apply Forall_cons in Ho as [Ho Hos]. simpl in Hlen. destruct (run_seg_op_sim offset o s bs a live dead Hs Ho) as (s1 & bs1 & live1 & dead1 & E1 & Hs1); [lia|].
  cbn [run_seg_ops abs_ops]. rewrite E1. cbn [mbind option_bind]. pose proof (abs_op_size offset o a) as Hsz. destruct (abs_op offset o a) as [out a1]. cbn [fst snd] in *.
  destruct (IH s1 bs1 a1 live1 dead1 Hs1 Hos) as (s2 & bs2 & live2 & dead2 & E2 & Hs2); [lia|]. rewrite E2. cbn [mbind option_bind].
  destruct (abs_ops offset os a1) as [outs a2]. by exists s2, bs2, live2, dead2.
Qed.

(** ** The constructor *)
Definition new_seg_ok (height : Z) : Prop := 1 <= height < 256 /\ 1 <= u8 FLAGS_skiplist_max_height.
Definition abs_new : abs_seg := AbsSeg ∅ [] 0.

Lemma Segment_make_core height map vec : new_seg_ok height -> seg_core (Segment_make height 1 map vec) [] [].
Proof.
  intros [Hh Hm]. pose proof (uwrap_range 8 FLAGS_skiplist_max_height ltac:(lia)) as [_ Hm'].
  split; cbn -[Skiplist_new]; try done.
  - cbn. lia.
  - apply Skiplist_new_nrep. lia.
  - exists [], []. split; [|done]. apply nrep_full_nrep, Skiplist_new_nrep. lia.
  - constructor.
  - split; [constructor|constructor|apply NoDup_singleton|constructor| | |constructor|done|done].
    + intros p [y Hp]. unfold info in Hp. cbn in Hp. destruct (decide (p = 0%nat)) as [->|]; [left|]. by rewrite lookup_singleton_ne in Hp.
    + intros p [y Hp]. unfold deref in Hp. cbn in Hp. by rewrite lookup_empty in Hp.
Qed.

Lemma Segment_new_inv height : new_seg_ok height -> seg_inv (Segment_height height) ∅ [] [] [].
Proof. intros Hh. split; [by apply Segment_make_core|constructor|done|]. intros b. by rewrite lookup_empty. Qed.

Lemma Segment_new_sim height : new_seg_ok height -> sim (ttl_offset_ (Segment_height height)) (Segment_height height) ∅ abs_new [] [].
Proof. intros Hh. split; try done. by apply Segment_new_inv. Qed.

(** ** Observations *)
Lemma seg_scan s bs live dead R key time : seg_inv s bs live dead R -> Forall (fun x => ks_refs x.2 = 0) live ->
  scan_from s bs key time =
    Some (match time with Some t => filter (fun r => r.1 <= t) (default [] (view bs live !! key)) | None => default [] (view bs live !! key) end, s).
Proof.
  intros Hi Hr. unfold scan_from.
  destruct (decide (key ∈ live.*1)) as [(la & x & lb & -> & <-)%live_split|Hk].
  - pose proof (sc_distinct _ _ _ (sv_core _ _ _ _ _ Hi)) as Hnd. rewrite view_lookup; [cbn [default from_option id]|rewrite fmap_app, fmap_cons in Hnd;
      apply NoDup_app in Hnd as (_ & Hd & _); intros Hin; apply (Hd x.1 Hin); left].
    destruct (NewIterator_present s bs la x lb dead R [] Hi) as (s1 & -> & Hi1 & _ & e & He & ->). cbn [mbind option_bind].
    assert (Hdest : Ticket_destroy (set_entry (id_of x) (Ref e) s) [id_of x] = Some s).
    { cbn [Ticket_destroy mbind option_bind]. rewrite deref_set_entry. cbn [mbind option_bind]. f_equal. rewrite set_entry_twice.
      destruct (core_entry _ _ _ _ _ (sv_core _ _ _ _ _ Hi)) as (e' & He' & Hrep). rewrite He in He'. injection He' as <-.
      rewrite Forall_app, Forall_cons in Hr. destruct Hr as (_ & Hr & _).
      rewrite UnRef_Ref by (rewrite (er_refs _ _ Hrep), Hr; by unfold in_uint). by apply set_entry_id. }
    destruct time as [t|].
    + destruct (mt_seek_spec _ _ _ _ _ _ _ None t Hi1) as (it & Hit & Hcol).
      change (id_of (x.1, _)) with (id_of x) in Hit. rewrite Hit. cbn [mbind option_bind]. rewrite Hcol. cbn [mbind option_bind].
      rewrite Hdest. cbn [mbind option_bind]. do 2 f_equal. change (rows_of (x.1, with_refs (u64 (ks_refs x.2 + 1)) x.2)) with (rows_of x).
      rewrite drop_newer, filter_le_view; [done|]. eapply rows_of_sorted; [apply Hi|apply elem_of_app_cons].
    + destruct (mt_first_spec _ _ _ _ _ _ _ None Hi1) as (it & Hit & Hcol).
      change (id_of (x.1, _)) with (id_of x) in Hit. rewrite Hit. cbn [mbind option_bind]. rewrite Hcol. cbn [mbind option_bind].
      rewrite Hdest. done.
  - rewrite (NewIterator_absent _ _ _ _ _ _ _ Hi Hk), view_absent by done. cbn. by destruct time.
Qed.

Lemma seg_count s bs live dead R key : seg_inv s bs live dead R -> Z.of_nat (total_rows live) < 2 ^ 64 ->
  GetCount s key = Some ((fun rows => Z.of_nat (length rows)) <$> view bs live !! key).
Proof.
  intros Hi Hlen. pose proof (sv_core _ _ _ _ _ Hi) as Hc.
  unfold GetCount. rewrite (sc_ts _ _ _ Hc), decide_False by lia.
  destruct (decide (key ∈ live.*1)) as [(la & x & lb & -> & <-)%live_split|Hk].
  - pose proof (sc_distinct _ _ _ Hc) as Hnd. rewrite view_lookup; [|rewrite fmap_app, fmap_cons in Hnd;
      apply NoDup_app in Hnd as (_ & Hd & _); intros Hin; apply (Hd x.1 Hin); left].
    rewrite (find_entry_at _ _ _ _ _ Hc). cbn [mbind option_bind as_entry]. destruct (core_entry _ _ _ _ _ Hc) as (e & -> & Hrep). cbn [mbind option_bind].
    cbn [fmap option_fmap option_map]. rewrite length_fmap, (er_count _ _ Hrep), uwrap_id; [done|]. rewrite total_rows_app, total_rows_cons in Hlen.
    unfold in_uint, rows_of in *. lia.
  - rewrite (find_entry_absent _ _ _ _ Hc Hk), view_absent by done. done.
Qed.

Lemma scan_spec offset s bs a live dead key time : sim offset s bs a live dead ->
  scan_from s bs key time =
    Some (match time with Some t => filter (fun r => r.1 <= t) (default [] (ab_content a !! key)) | None => default [] (ab_content a !! key) end, s).
Proof. intros Hs. rewrite (sm_content _ _ _ _ _ _ Hs). eapply seg_scan; apply Hs. Qed.

Lemma GetCount_sim offset s bs a live dead key : sim offset s bs a live dead -> Z.of_nat (abs_size a) < 2 ^ 64 ->
  GetCount s key = Some ((fun rows => Z.of_nat (length rows)) <$> ab_content a !! key).
Proof.
  intros Hs Hlen. pose proof (sm_inv _ _ _ _ _ _ Hs) as Hi. rewrite (sm_content _ _ _ _ _ _ Hs). eapply seg_count; [exact Hi|].
  unfold abs_size in Hlen. rewrite (sm_content _ _ _ _ _ _ Hs), view_rows in Hlen by apply Hi. lia.
Qed.

(** ** Accounting *)

Lemma size_NoDup {A} (m : gmap nat A) (l : list nat) : NoDup l -> (forall i, is_Some (m !! i) <-> i ∈ l) -> size m = length l.
Proof.
  intros Hl Hm. rewrite <- size_dom, <- (size_list_to_set (C := gset nat) l Hl). f_equal. apply set_eq. intros i.
  by rewrite elem_of_dom, elem_of_list_to_set.
Qed.

Lemma length_keyed_blocks l : length (keyed_blocks l) = total_rows l.
Proof.
  induction l as [|x l IH]; [done|]. rewrite keyed_blocks_cons, total_rows_cons, length_app, IH. unfold row_blocks. by rewrite length_fmap.
Qed.

Lemma seg_inv_counts s bs live dead : seg_inv s bs live dead [] ->
  pk_cnt_ s = u64 (Z.of_nat (length live + length dead)) /\ size (sg_heap s) = (length live + length dead)%nat /\
  size (heap (sg_entries s)) = S (length live + length dead) /\ block_refs bs = Z.of_nat (total_rows (live ++ dead.*2)).
Proof.
  intros [Hc _ _ Hb]. pose proof (sc_owned _ _ _ Hc) as [H1 H2 H3 H4 H5 H6 _ H8 _].
  assert (Hlen : length (live ++ dead.*2) = (length live + length dead)%nat) by (by rewrite length_app, length_fmap).
  split; [by rewrite H8, Hlen|]. rewrite <- Hlen. split; [|split].
  - rewrite (size_NoDup _ (id_of <$> live ++ dead.*2)); [apply length_fmap|done|]. intros p. split; [apply H6|].
    intros (x & -> & Hx)%list_elem_of_fmap. rewrite Forall_forall in H2. destruct (H2 x Hx) as (e & He & _). by exists e.
  - rewrite (size_NoDup _ (head_ (sg_entries s) :: (node_of <$> live ++ dead.*2))); [simpl; by rewrite length_fmap|done|].
    intros p. assert (is_Some (info (sg_entries s) p) <-> is_Some (heap (sg_entries s) !! p)) as <- by (unfold info; by rewrite fmap_is_Some).
    split; [apply H5|]. intros [->|(x & -> & Hx)%list_elem_of_fmap]%elem_of_cons.
    + rewrite (nrep_head _ _ _ (nrep_full_nrep _ _ _ (sc_keys _ _ _ Hc))). eauto.
    + rewrite Forall_forall in H1. rewrite (H1 x Hx). eauto.
  - rewrite app_nil_r in Hb. rewrite (blocks_rep_refs _ _ Hb). f_equal. apply length_keyed_blocks.
Qed.

Lemma sim_sizes offset s bs a live dead : sim offset s bs a live dead ->
  total_rows (live ++ dead.*2) = abs_size a /\ (length live + length dead = size (ab_content a) + length (ab_retired a))%nat.
Proof.
  intros Hs. pose proof (sc_distinct _ _ _ (sv_core _ _ _ _ _ (sm_inv _ _ _ _ _ _ Hs))) as Hnd. pose proof (sm_retired _ _ _ _ _ _ Hs) as Hr.
  unfold abs_size. rewrite (sm_content _ _ _ _ _ _ Hs), view_rows, view_size, total_rows_app, <- retired_rows_of by done. split.
  - by rewrite (retired_rows_perm _ _ Hr).
  - rewrite Hr. unfold retired_of. by rewrite length_fmap.
Qed.

(** ** The reader's view *)

(** Collections one after the other *)
Fixpoint run_gcs (gcs : list (Z * TTLSt)) (s : Segment) (bs : blocks) (st : GcStat) : option (Segment * blocks * GcStat) :=
  match gcs with
  | [] => Some (s, bs, st)
  | (micros, ttl) :: rest => '(s, bs, st) ← ExecuteGc s micros ttl bs st; run_gcs rest s bs st
  end.

(** A key some reader holds is left alone by a collection. *)
Lemma gc_keeps_held keep v live dead x : x ∈ live -> 0 < ks_refs x.2 -> rows_of x <> [] -> x ∈ (gc_keys keep v live dead).1.
Proof.
  intros Hx Hr Hne. rewrite gc_keys_fst. apply list_elem_of_filter. split; [done|]. apply list_elem_of_fmap. exists x. split; [|done].
  symmetry. apply cut_all_kept. unfold cut_len, kept_rows. by rewrite decide_False by lia.
Qed.

Lemma ExecuteGc_held s bs st live dead R x micros ttl : seg_inv s bs live dead R -> stat_ok st -> live_bounded live -> ttl_ok ttl ->
  x ∈ live -> 0 < ks_refs x.2 ->
  exists s' bs' st' live' dead', ExecuteGc s micros ttl bs st = Some (s', bs', st') /\ seg_inv s' bs' live' dead' R /\ stat_ok st' /\
    live_bounded live' /\ x ∈ live' /\ row_view bs' <$> rows_of x = row_view bs <$> rows_of x.
Proof.
  intros Hi Hst Hlb Ht Hx Hr. pose proof (ExecuteGc_spec s bs st live dead R Hi Hst Hlb micros ttl Ht) as Hg.
  destruct (ttl_rule _ _ _) as [keep|]; cbn in Hg; [|by exists s, bs, st, live, dead].
  destruct Hg as (s' & bs' & st' & E & Hi' & Hstep & _). do 5 eexists. split; [exact E|]. split; [exact Hi'|]. split; [by eapply gc_step_ok|].
  pose proof (sv_nonempty _ _ _ _ _ Hi) as Hne. rewrite Forall_forall in Hne.
  pose proof (gc_keeps_held keep (gc_version_ s) live dead x Hx Hr (Hne x Hx)) as Hin. split; [|split; [done|]].
  - apply Forall_forall. intros y Hy. rewrite gc_keys_fst in Hy. apply list_elem_of_filter in Hy as [_ (z & -> & Hz)%list_elem_of_fmap].
    unfold live_bounded in Hlb. rewrite Forall_forall in Hlb. specialize (Hlb z Hz). unfold rows_bounded in *.
    change (rows_of (cut_key keep z)) with (take (cut_len keep z) (rows_of z)). rewrite length_take. lia.
  - apply list_fmap_ext. intros i r Hir. apply list_elem_of_lookup_2 in Hir. unfold row_view.
    destruct (seg_inv_blocks _ _ _ _ _ _ _ Hi' Hin Hir) as [blk' E']. rewrite E'. by destruct (gs_data _ _ _ _ _ Hstep _ _ E') as (blk & -> & ->).
Qed.

Lemma run_gcs_held gcs x R : forall s bs st live dead, seg_inv s bs live dead R -> stat_ok st -> live_bounded live -> Forall (fun g => ttl_ok g.2) gcs ->
  x ∈ live -> 0 < ks_refs x.2 ->
  exists s' bs' st' live' dead', run_gcs gcs s bs st = Some (s', bs', st') /\ seg_inv s' bs' live' dead' R /\ x ∈ live' /\
    row_view bs' <$> rows_of x = row_view bs <$> rows_of x.
Proof.
  induction gcs as [|[micros ttl] gcs IH]; intros s bs st live dead Hi Hst Hlb Hok Hx Hr; [by exists s, bs, st, live, dead|].
  apply Forall_cons in Hok as [Ht Hok].
  destruct (ExecuteGc_held s bs st live dead R x micros ttl Hi Hst Hlb Ht Hx Hr) as (s1 & bs1 & st1 & live1 & dead1 & E1 & Hi1 & Hst1 & Hlb1 & Hx1 & Hv1).
  cbn [run_gcs]. rewrite E1. cbn [mbind option_bind].
  destruct (IH s1 bs1 st1 live1 dead1 Hi1 Hst1 Hlb1 Hok Hx1 Hr) as (s2 & bs2 & st2 & live2 & dead2 & E2 & Hi2 & Hx2 & Hv2).
  exists s2, bs2, st2, live2, dead2. split; [done|]. split; [done|]. split; [done|]. by rewrite Hv2.
Qed.
End runs.

(** * SegmentClaims *)
(** The default flags of flags.cc and the object sizes of a 64-bit build *)
#[local] Instance x64_layout : Layout := {|
  DATA_BLOCK_BYTE_SIZE := 16; KEY_ENTRY_BYTE_SIZE := 80; ENTRY_NODE_SIZE := 40; DATA_NODE_SIZE := 32; KEY_ENTRY_PTR_SIZE := 8;
  FLAGS_gc_safe_offset := 1; FLAGS_skiplist_max_height := 12; FLAGS_gc_deleted_pk_version_delta := 2
|}.
#[local] Instance x64_small : SmallLayout.
Proof. by split. Qed.

(** Two versions of one key, a second key, a collection by count, a deletion *)
Definition sample_ops : list seg_op :=
  [SPut [107] 5 [1]; SPut [107] 9 [2]; SPut [97] 7 [3]; SGc 0 (MkTTLSt 0 1 kLatestTime); SDelete [97]; SIncr; SIncr; SGcFree].

Lemma sample_ok : new_seg_ok 12 /\ Forall seg_op_ok sample_ops /\ Z.of_nat (length sample_ops) < 2 ^ 64.
Proof. split; [by vm_compute|]. split; [|by vm_compute]. repeat constructor; by vm_compute. Qed.

(** C10: A segment implements a map from keys to rows, newest first: every
    sequence of [Put], [Delete], [ExecuteGc], [GcFreeList] and [IncrGcVersion]
    on a new segment runs without undefined behaviour and answers as the
    abstract operations do; afterwards an iterator on any key, from the first
    row or from a given time, walks exactly the rows of the abstract map, and
    [GetCount] is their number. *)
Theorem segment_refines `{SmallLayout} (height : Z) (os : list seg_op) :
  new_seg_ok height -> Forall seg_op_ok os -> Z.of_nat (length os) < 2 ^ 64 ->
  let '(outs, a) := abs_ops (ttl_offset_ (Segment_height height)) os abs_new in
  exists s bs, run_seg_ops os (Segment_height height, ∅) = Some (outs, (s, bs)) /\
    forall key, let rows := ab_content a !! key in
      scan_from s bs key None = Some (default [] rows, s) /\
      (forall t, scan_from s bs key (Some t) = Some (filter (fun r => r.1 <= t) (default [] rows), s)) /\
      GetCount s key = Some ((fun l => Z.of_nat (length l)) <$> rows).
Proof.
  intros Hh Hos Hlen. destruct (run_seg_ops_sim _ os _ _ _ _ _ (Segment_new_sim height Hh) Hos) as (s & bs & live & dead & Hr & Hs); [exact Hlen|].
  destruct (abs_ops _ os abs_new) as [outs a] eqn:E. exists s, bs. split; [done|]. intros key. cbn [snd] in Hs.
  split; [exact (scan_spec _ _ _ _ _ _ key None Hs)|]. split; [intros t; exact (scan_spec _ _ _ _ _ _ key (Some t) Hs)|].
  apply (GetCount_sim _ _ _ _ _ _ key Hs). pose proof (abs_ops_size (ttl_offset_ (Segment_height height)) os abs_new) as Hsz. rewrite E in Hsz.
  change (abs_size abs_new) with 0%nat in Hsz. cbn [snd] in Hsz. lia.
Qed.
Lemma segment_refines_witness : exists s bs, run_seg_ops sample_ops (Segment_height 12, ∅) = Some ([0; 0; 0; 1; 1; 0; 0; 1], (s, bs)) /\
  scan_from s bs [107] None = Some ([(9, [2])], s) /\ scan_from s bs [97] None = Some ([], s).
Proof.
  destruct sample_ok as (Hh & Hos & Hlen). pose proof (segment_refines 12 sample_ops Hh Hos Hlen) as Hr.
  destruct (abs_ops (ttl_offset_ (Segment_height 12)) sample_ops abs_new) as [outs a] eqn:E. vm_compute in E. injection E as <- <-.
  destruct Hr as (s & bs & Hrun & Hread). exists s, bs. split; [exact Hrun|]. split; [exact (proj1 (Hread [107]))|exact (proj1 (Hread [97]))].
Defined.

(** C11: The books balance: after any sequence of calls the row counter is
    the rows of the contents plus those of retired keys, the key counter and
    the number of allocated [KeyEntry] objects are the keys plus the retired
    ones, the nodes of [entries_] are those and the sentinel, and the blocks
    count one reference per row.  Once everything is deleted and freed, no
    block is left and the byte counter is back to zero. *)
Theorem segment_accounting `{SmallLayout} (height : Z) (os : list seg_op) :
  new_seg_ok height -> Forall seg_op_ok os -> Z.of_nat (length os) < 2 ^ 64 ->
  let '(outs, AbsSeg m retired _) := abs_ops (ttl_offset_ (Segment_height height)) os abs_new in
  let rows := (content_rows m + retired_rows retired)%nat in
  let keys := (size m + length retired)%nat in
  exists s bs, run_seg_ops os (Segment_height height, ∅) = Some (outs, (s, bs)) /\
    GetIdxCnt s = Some (Z.of_nat rows) /\ pk_cnt_ s = u64 (Z.of_nat keys) /\ size (sg_heap s) = keys /\
    size (heap (sg_entries s)) = S keys /\ block_refs bs = Z.of_nat rows /\
    (keys = 0%nat -> bs = ∅ /\ idx_byte_size_ s = 0).
Proof.
  intros Hh Hos Hlen. destruct (run_seg_ops_sim _ os _ _ _ _ _ (Segment_new_sim height Hh) Hos) as (s & bs & live & dead & Hr & Hs); [exact Hlen|].
  pose proof (abs_ops_size (ttl_offset_ (Segment_height height)) os abs_new) as Hsz. change (abs_size abs_new) with 0%nat in Hsz.
  destruct (abs_ops _ os abs_new) as [outs [m retired ver]]. cbn [snd] in Hs, Hsz. exists s, bs. split; [done|].
  destruct (sim_sizes _ _ _ _ _ _ Hs) as [Hrows Hkeys]. pose proof (sm_inv _ _ _ _ _ _ Hs) as Hi. pose proof (sv_core _ _ _ _ _ Hi) as Hc.
  destruct (seg_inv_counts _ _ _ _ Hi) as (H1 & H2 & H3 & H4). cbn [ab_content ab_retired abs_size] in Hkeys, Hrows, Hsz. unfold abs_size in Hrows, Hsz. cbn [ab_content ab_retired] in Hrows, Hsz.
  rewrite Hkeys in H1, H2, H3. rewrite Hrows in H4. split_and!; try done.
  - unfold GetIdxCnt. rewrite (sc_ts _ _ _ Hc), decide_False by lia. rewrite (sv_idx _ _ _ _ _ Hi), Hrows, uwrap_id; [done|]. split; lia.
  - intros Hz. assert (live = [] /\ dead = []) as [-> ->] by (rewrite Hz in Hkeys; destruct live, dead; simpl in Hkeys; (done || lia)).
    split; [|by rewrite (ow_bytes _ _ (sc_owned _ _ _ Hc))]. apply blocks_rep_nil. apply (sv_blocks _ _ _ _ _ Hi).
Qed.
Lemma segment_accounting_witness : exists s bs, run_seg_ops sample_ops (Segment_height 12, ∅) = Some ([0; 0; 0; 1; 1; 0; 0; 1], (s, bs)) /\
  GetIdxCnt s = Some 1 /\ size (sg_heap s) = 1%nat /\ block_refs bs = 1.
Proof.
  destruct sample_ok as (Hh & Hos & Hlen). pose proof (segment_accounting 12 sample_ops Hh Hos Hlen) as Hr.
  destruct (abs_ops (ttl_offset_ (Segment_height 12)) sample_ops abs_new) as [outs a] eqn:E. vm_compute in E. injection E as <- <-.
  destruct Hr as (s & bs & Hrun & Hidx & _ & Hheap & _ & Hrefs & _). exists s, bs.
  split; [exact Hrun|]. split; [exact Hidx|]. split; [exact Hheap|exact Hrefs].
Defined.

(** C12: A reader is not disturbed by collections: an iterator opened on a
    key still walks all of that key's rows after any number of [ExecuteGc]
    calls with any TTLs, and its ticket can be released. *)
Theorem reader_snapshot `{SmallLayout} (height : Z) (os : list seg_op) (key : bytes) (rows : list (Z * bytes)) (gcs : list (Z * TTLSt)) :
  new_seg_ok height -> Forall seg_op_ok os -> Z.of_nat (length os) < 2 ^ 64 -> Forall (fun g => ttl_ok g.2) gcs ->
  ab_content (abs_ops (ttl_offset_ (Segment_height height)) os abs_new).2 !! key = Some rows ->
  exists outs s bs it s1 ticket s2 bs2 st2 it2 s3,
    run_seg_ops os (Segment_height height, ∅) = Some (outs, (s, bs)) /\ NewIterator s key [] = Some (it, s1, ticket) /\
    run_gcs gcs s1 bs zero_stat = Some (s2, bs2, st2) /\ mt_SeekToFirst s2 it = Some it2 /\
    mt_collect (mt_fuel s2 it2) s2 bs2 it2 = Some rows /\ Ticket_destroy s2 ticket = Some s3.
Proof.
  intros Hh Hos Hlen Hg Hrows. destruct (run_seg_ops_sim _ os _ _ _ _ _ (Segment_new_sim height Hh) Hos) as (s & bs & live & dead & Hr & Hs); [exact Hlen|].
  pose proof (abs_ops_size (ttl_offset_ (Segment_height height)) os abs_new) as Hsz. change (abs_size abs_new) with 0%nat in Hsz.
  set (a := (abs_ops (ttl_offset_ (Segment_height height)) os abs_new).2) in *.
  assert (Hlb : live_bounded live) by (eapply live_bounded_total; [exact Hs|]; unfold abs_size in Hsz; lia).
  rewrite (sm_content _ _ _ _ _ _ Hs) in Hrows. apply view_present in Hrows as (la & x & lb & -> & <- & ->).
  destruct (NewIterator_present s bs la x lb dead [] [] (sm_inv _ _ _ _ _ _ Hs)) as (s1 & Hit & Hi1 & _). set (x1 := (x.1, with_refs (u64 (ks_refs x.2 + 1)) x.2)) in *.
  assert (Hst : stat_ok zero_stat) by (by unfold stat_ok, in_uint).
  pose proof (sm_readers _ _ _ _ _ _ Hs) as Hrd. rewrite Forall_app, Forall_cons in Hrd. destruct Hrd as (_ & Hrd & _).
  destruct (run_gcs_held gcs x1 [] s1 bs zero_stat _ dead Hi1 Hst) as (s2 & bs2 & st2 & live2 & dead2 & Hgc & Hi2 & Hx2 & Hv).
  { unfold live_bounded in *. rewrite Forall_app, Forall_cons in *. done. }
  { done. }
  { apply elem_of_app_cons. }
  { unfold x1. cbn. by rewrite Hrd. }
  destruct (list_elem_of_split _ _ Hx2) as (la2 & lb2 & ->). destruct (mt_first_spec _ _ _ _ _ _ _ None Hi2) as (it2 & Hit2 & Hcol).
  destruct (core_entry _ _ _ _ _ (sv_core _ _ _ _ _ Hi2)) as (e & He & _).
  exists (abs_ops (ttl_offset_ (Segment_height height)) os abs_new).1, s, bs. do 8 eexists. split; [exact Hr|]. split; [exact Hit|]. split; [exact Hgc|].
  split; [exact Hit2|]. split; [by rewrite Hcol, Hv|]. cbn. change (id_of x) with (id_of x1). rewrite He. reflexivity.
Qed.
Lemma reader_snapshot_witness : exists outs s bs it s1 ticket s2 bs2 st2 it2 s3,
  run_seg_ops sample_ops (Segment_height 12, ∅) = Some (outs, (s, bs)) /\ NewIterator s [107] [] = Some (it, s1, ticket) /\
  run_gcs [(10 ^ 9, MkTTLSt 1 0 kAbsoluteTime)] s1 bs zero_stat = Some (s2, bs2, st2) /\ mt_SeekToFirst s2 it = Some it2 /\
  mt_collect (mt_fuel s2 it2) s2 bs2 it2 = Some [(9, [2])] /\ Ticket_destroy s2 ticket = Some s3.
Proof.
  destruct sample_ok as (Hh & Hos & Hlen). apply (reader_snapshot 12 sample_ops [107] [(9, [2])] [(10 ^ 9, MkTTLSt 1 0 kAbsoluteTime)] Hh Hos Hlen).
  - repeat constructor; by vm_compute.
  - by vm_compute.
Defined.
