(* ===== verification/StdMap.v ===== *)
(** [std::map<K, V>] as its in-order traversal: an association list sorted by
    key without repetitions, for the places where the sources iterate over a
    map or take its first element. *)
From Stdlib Require Import String Ascii.
From S2P Require Import Prelude Slice.

(** The bytes of a string literal of the sources *)
Definition str (s : string) : bytes := (fun a => Z.of_N (N_of_ascii a)) <$> list_ascii_of_string s.

Section std_map.
Context {K V : Type} `{EqDecision K} (before : K -> K -> bool).

(** [emplace] and [insert]: the old element stays if there is one. *)
Fixpoint emplace (k : K) (v : V) (m : list (K * V)) : list (K * V) :=
  match m with
  | [] => [(k, v)]
  | (k', v') :: m' =>
      if decide (k = k') then m
      else if before k k' then (k, v) :: m
      else (k', v') :: emplace k v m'
  end.
Fixpoint map_find (k : K) (m : list (K * V)) : option V :=
  match m with
  | [] => None
  | (k', v) :: m' => if decide (k = k') then Some v else map_find k m'
  end.

(** [std::set<K>::insert] *)
Fixpoint set_insert (k : K) (m : list K) : list K :=
  match m with
  | [] => [k]
  | k' :: m' => if decide (k = k') then m else if before k k' then k :: m else k' :: set_insert k m'
  end.

(** The keys of a map are in strict order. *)
Definition map_wf (m : list (K * V)) : Prop := StronglySorted (fun x y => before x.1 y.1) m.

Lemma map_find_in k m v : map_find k m = Some v -> (k, v) ∈ m.
Proof.
  induction m as [|[k' v'] m IH]; simpl; [done|]. destruct (decide (k = k')) as [->|].
  - intros [= ->]. by left.
  - intros Hm. right. auto.
Qed.

Lemma emplace_elem k v m x : x ∈ emplace k v m -> x = (k, v) \/ x ∈ m.
Proof.
  induction m as [|[k' v'] m IH]; simpl; [set_solver|].
  destruct (decide (k = k')); [by right|]. destruct (before k k'); set_solver.
Qed.

Context (before_irrefl : forall x, before x x = false)
  (before_trans : forall x y z, before x y -> before y z -> before x z)
  (before_total : forall x y, x <> y -> before x y = false -> before y x).

Lemma emplace_wf k v m : map_wf m -> map_wf (emplace k v m).
Proof using All.
  unfold map_wf. induction 1 as [|[k' v'] m Hm IH Hall]; simpl; [repeat constructor|].
  destruct (decide (k = k')) as [|Hne]; [by constructor|].
  destruct (before k k') eqn:E.
  - constructor; [by constructor|]. constructor; [simpl; by rewrite E|].
    eapply Forall_impl; [exact Hall|]. intros [k2 v2]. simpl. intros H2. apply before_trans with k'; [by rewrite E|done].
  - constructor; [done|]. apply Forall_forall. intros x [->|Hx]%emplace_elem; [simpl; auto|].
    rewrite Forall_forall in Hall. auto.
Qed.

Lemma map_find_absent k m : Forall (fun x => before k x.1) m -> map_find k m = None.
Proof using before_irrefl.
  induction 1 as [|[k' v'] m Hk Hm IH]; simpl; [done|]. rewrite decide_False; [done|].
  intros ->. simpl in Hk. by rewrite before_irrefl in Hk.
Qed.

Lemma map_find_emplace k v m k0 : map_wf m ->
  map_find k0 (emplace k v m) = if decide (k0 = k) then Some (default v (map_find k m)) else map_find k0 m.
Proof using All.
  induction 1 as [|[k' v'] m Hm IH Hall]; simpl; [by destruct (decide (k0 = k))|].
  destruct (decide (k = k')) as [->|Hne]; simpl; [by destruct (decide (k0 = k'))|].
  destruct (before k k') eqn:E; simpl.
  - destruct (decide (k0 = k)) as [->|]; [|done]. rewrite map_find_absent; [done|].
    eapply Forall_impl; [exact Hall|]. intros [k2 v2]. simpl. intros H2. apply before_trans with k'; [by rewrite E|done].
  - rewrite IH. destruct (decide (k0 = k')) as [->|]; [|done]. by rewrite (decide_False (P := k' = k)).
Qed.
End std_map.

(** Maps with integer keys *)
Definition Z_before (x y : Z) : bool := bool_decide (x < y).
Lemma Z_before_irrefl x : Z_before x x = false.
Proof. apply bool_decide_eq_false. lia. Qed.
Lemma Z_before_trans x y z : Z_before x y -> Z_before y z -> Z_before x z.
Proof. unfold Z_before. rewrite !bool_decide_spec. lia. Qed.
Lemma Z_before_total x y : x <> y -> Z_before x y = false -> Z_before y x.
Proof. unfold Z_before. rewrite bool_decide_eq_false, bool_decide_spec. lia. Qed.

(** Maps with string keys *)
Definition str_before (x y : bytes) : bool := bool_decide (Slice_compare x y < 0).
