(* ===== verification/Strings.v ===== *)
(** String helpers (base/strings.h): the zero-padded names of log files and the
    tests on text the replicator uses to read them back. *)
From Stdlib Require Import String.
From S2P Require Import Prelude Slice StdMap.

(** ** Formatting *)

Definition LABELS : bytes := str "0123456789".

(** [FormatToString]: the digits are stored from the end of the buffer. *)
Fixpoint FormatToString_loop (n : nat) (max_shift shift : nat) (name : Z) (rbuffer : bytes) : bytes :=
  match n with
  | O => rbuffer
  | S n' => FormatToString_loop n' max_shift (S shift) (name / 10)
              (<[(max_shift - shift - 1)%nat := default 0 (LABELS !! Z.to_nat (name `mod` 10))]> rbuffer)
  end.
Definition FormatToString (name : Z) (max_shift : nat) : bytes :=
  FormatToString_loop max_shift max_shift 0 name (replicate max_shift 48).

(** [std::isdigit], [IsNumber] and [std::stoul] on a string of digits; a number
    that does not fit raises an exception. *)
Definition isdigit (c : Z) : bool := bool_decide (48 <= c <= 57).
Definition IsNumber (s : bytes) : bool := negb (bool_decide (s = [])) && forallb isdigit s.
Definition digits_val (s : bytes) : Z := foldl (fun v c => v * 10 + (c - 48)) 0 s.
Definition stoul (s : bytes) : option Z :=
  if decide (digits_val s < 2 ^ 64) then Some (digits_val s) else None.

(** [IsVisible], [ToHex] and [DebugString] *)
Definition IsVisible (c : Z) : bool := bool_decide (0x20 <= c <= 0x7E).
Definition ToHex (i : Z) : Z := if decide (i < 10) then u8 (i + 48) else u8 (i - 10 + 97).
Fixpoint DebugString (src : bytes) : bytes :=
  match src with
  | [] => []
  | c :: src' =>
      (if IsVisible c then [c] else [92; 120; ToHex (Z.shiftr c 4); ToHex (Z.land c 0xF)]) ++ DebugString src'
  end.

(** ** Facts *)

(** The last [w] decimal digits of a number *)
Fixpoint decimal (w : nat) (n : Z) : bytes :=
  match w with
  | O => []
  | S w' => decimal w' (n / 10) ++ [48 + n `mod` 10]
  end.

Lemma length_decimal w n : length (decimal w n) = w.
Proof. revert n; induction w as [|w IH]; intros n; [done|]. cbn [decimal]. rewrite length_app, IH. simpl. lia. Qed.

Lemma label_digit d : 0 <= d < 10 -> default 0 (LABELS !! Z.to_nat d) = 48 + d.
Proof.
  intros Hd. assert (Hc : d = 0 \/ d = 1 \/ d = 2 \/ d = 3 \/ d = 4 \/ d = 5 \/ d = 6 \/ d = 7 \/ d = 8 \/ d = 9) by lia.
  by repeat destruct Hc as [->|Hc]; subst.
Qed.

Lemma FormatToString_loop_spec n : forall w shift name pre post, (shift + n = w)%nat ->
  length pre = n -> length post = shift ->
  FormatToString_loop n w shift name (pre ++ post) = decimal n name ++ post.
Proof.
  induction n as [|n IH]; intros w shift name pre post Hw Hpre Hpost.
  - by destruct pre.
  - cbn [FormatToString_loop decimal]. destruct pre as [|x pre _] using rev_ind; [done|].
    rewrite length_app in Hpre. cbn [length] in Hpre. rewrite <- app_assoc. cbn [app].
    rewrite insert_app_r_alt by lia. replace (w - shift - 1 - length pre)%nat with 0%nat by lia. cbn [insert list_insert].
    rewrite IH; [|lia|lia|cbn [length]; lia]. rewrite label_digit by (apply Z.mod_pos_bound; lia). by rewrite <- app_assoc.
Qed.

Lemma FormatToString_decimal name w : FormatToString name w = decimal w name.
Proof.
  unfold FormatToString. rewrite <- (app_nil_r (replicate w 48)), FormatToString_loop_spec; [apply app_nil_r|lia| |done].
  apply length_replicate.
Qed.

Lemma digits_val_snoc s c : digits_val (s ++ [c]) = digits_val s * 10 + (c - 48).
Proof. unfold digits_val. by rewrite foldl_app. Qed.

Lemma digits_val_decimal w n : 0 <= n < 10 ^ Z.of_nat w -> digits_val (decimal w n) = n.
Proof.
  revert n; induction w as [|w IH]; intros n Hn.
  - cbn in *. unfold digits_val. cbn. lia.
  - cbn [decimal]. rewrite Nat2Z.inj_succ, Z.pow_succ_r in Hn by lia. rewrite digits_val_snoc, IH.
    + pose proof (Z.div_mod n 10). lia.
    + split; [apply Z.div_pos; lia|]. apply Z.div_lt_upper_bound; lia.
Qed.

Lemma decimal_digits w n : Forall (fun c => isdigit c = true) (decimal w n).
Proof.
  revert n; induction w as [|w IH]; intros n; [constructor|]. cbn [decimal]. apply Forall_app. split; [done|].
  constructor; [|constructor]. apply bool_decide_eq_true. pose proof (Z.mod_pos_bound n 10). lia.
Qed.

Lemma decimal_inj w m n : 0 <= m < 10 ^ Z.of_nat w -> 0 <= n < 10 ^ Z.of_nat w -> decimal w m = decimal w n -> m = n.
Proof. intros Hm Hn E. by rewrite <- (digits_val_decimal w m), <- (digits_val_decimal w n), E. Qed.
