(* ===== verification/LogRoll.v ===== *)
(** Reading a log that is spread over several files (class [LogReader] of
    log/log_reader.{h,cc}): the reader looks up the file that holds an offset in
    the list of log parts and moves on to the next file at the end of one. *)
From Stdlib Require Import String.
From S2P Require Import Prelude Slice LogFile LogReader Random Skiplist StdMap Strings.

(** ** Files

    A file system maps path names to contents.  [fs_denied] are the paths that
    cannot be opened, [fs_faults] the failing calls (see [PosixWritableFile]) of
    a stream opened for writing. *)
Record FileSystem : Type := MkFileSystem {
  fs_files : gmap bytes bytes;
  fs_denied : bytes -> bool;
  fs_faults : bytes -> list (option nat)
}.
Definition set_files (m : gmap bytes bytes) (fs : FileSystem) : FileSystem := MkFileSystem m (fs_denied fs) (fs_faults fs).
Definition write_file (path data : bytes) (fs : FileSystem) : FileSystem := set_files (<[path := data]> (fs_files fs)) fs.

(** [fopen(path, "rb")], also for "rb+" *)
Definition fopen_read (fs : FileSystem) (path : bytes) : option bytes :=
  if fs_denied fs path then None else fs_files fs !! path.
(** [fopen(path, "wb")] creates or empties the file. *)
Definition fopen_write (fs : FileSystem) (path : bytes) : option FileSystem :=
  if fs_denied fs path then None else Some (write_file path [] fs).

(** ** Configuration *)
Class BinlogFlags := {
  FLAGS_binlog_name_length : nat;
  FLAGS_binlog_enable_crc : bool;
  FLAGS_binlog_single_file_max_size : Z;
  FLAGS_binlog_sync_batch_size : Z;
  FLAGS_go_back_max_try_cnt : Z;
  FLAGS_gc_on_table_recover_count : Z;
  FLAGS_zk_cluster : bytes
}.
(** The compression libraries, as the reader and the writer take them *)
Class Compressors := {
  snappy_compress : bytes -> bytes;
  zlib_compress : bytes -> Z * bytes;
  snappy_length : bytes -> Z;
  snappy_uncompress : bytes -> option bytes;
  zlib_uncompress : bytes -> Z * bytes
}.

(** File index to offset of the first entry; the largest index first *)
Abbreviation LogParts := (skiplist Z Z).

Section roll.
Context `{BinlogFlags} `{Compressors}.

(** [log_path + "/" + FormatToString(index, FLAGS_binlog_name_length) + ".log"] *)
Definition log_file (log_path : bytes) (index : Z) : bytes :=
  log_path ++ str "/" ++ FormatToString (u32 index) FLAGS_binlog_name_length ++ str ".log".

(** [sf_] and [reader_] are set together; the path of the open file is kept
    with them. *)
Record LogReader : Type := MkLogReader {
  lr_log_path : bytes;
  lr_log_part_index : Z;
  lr_start_offset : Z;
  lr_reader : option (bytes * Reader PosixSequentialFile);
  lr_compressed : bool
}.
Definition LogReader_new (log_path : bytes) (compressed : bool) : LogReader := MkLogReader log_path (-1) 0 None compressed.
Definition LogReader_SetOffset (start_offset : Z) (r : LogReader) : LogReader :=
  MkLogReader (lr_log_path r) (lr_log_part_index r) start_offset (lr_reader r) (lr_compressed r).
Definition set_lr_reader (x : option (bytes * Reader PosixSequentialFile)) (r : LogReader) : LogReader :=
  MkLogReader (lr_log_path r) (lr_log_part_index r) (lr_start_offset r) x (lr_compressed r).

Definition on_reader (f : Reader PosixSequentialFile -> Reader PosixSequentialFile) (r : LogReader) : LogReader :=
  set_lr_reader ((fun x => (x.1, f x.2)) <$> lr_reader r) r.
Definition LogReader_GoBackToLastBlock (r : LogReader) : LogReader := on_reader GoBackToLastBlock r.
Definition LogReader_GoBackToStart (r : LogReader) : LogReader := on_reader GoBackToStart r.
Definition GetLogIndex (r : LogReader) : Z := lr_log_part_index r.
Definition GetLastRecordEndOffset (r : LogReader) : Z :=
  match lr_reader r with None => 0 | Some (_, rd) => rd_last_record_end_offset rd end.

(** [GetEndLogIndex]: the largest index *)
Definition GetEndLogIndex (logs : LogParts) : option Z :=
  n ← GetSize logs;
  if decide (n <= 0) then Some (-1)
  else
    it ← it_SeekToFirst logs;
    if it_Valid it then k ← it_GetKey logs it; Some (s32 k) else Some (-1).

(** The loops of [RollRLogFile]; the number of nodes bounds their rounds.
    The first file: the newest one that does not start after the offset *)
Fixpoint find_part (fuel : nat) (logs : LogParts) (it : iterator) (start_offset : Z) : option Z :=
  match fuel with
  | O => None
  | S fuel' =>
      if it_Valid it then
        k ← it_GetKey logs it;
        v ← it_GetValue logs it;
        if decide (v <= start_offset) then Some (s32 k)
        else it ← it_Next logs it; find_part fuel' logs it start_offset
      else Some (-1)
  end.
(** A later file: the one with the next index, or the oldest newer one when the
    indexes in between are gone *)
Fixpoint next_part (fuel : nat) (logs : LogParts) (it : iterator) (log_part_index : Z) : option Z :=
  match fuel with
  | O => None
  | S fuel' =>
      if it_Valid it then
        cur_index ← it_GetKey logs it;
        if decide (cur_index = u32 (log_part_index + 1)) then Some (s32 cur_index)
        else if decide (cur_index = log_part_index) then Some (-1)
        else
          it ← it_Next logs it;
          if it_Valid it then
            k ← it_GetKey logs it;
            if decide (k <= log_part_index /\ log_part_index < cur_index) then Some (s32 cur_index)
            else next_part fuel' logs it log_part_index
          else next_part fuel' logs it log_part_index
      else Some (-1)
  end.

(** [RollRLogFile] with [OpenSeqFile]; a new [Reader] has an uninitialised
    backing store, which is never read before it is written. *)
Definition RollRLogFile (fs : FileSystem) (logs : LogParts) (r : LogReader) : option (Z * LogReader) :=
  n ← GetSize logs;
  if decide (n <= 0) then Some (-1, r)
  else
    it ← it_SeekToFirst logs;
    let fuel := S (base.size (heap logs)) in
    index ← (if decide (lr_log_part_index r < 0) then find_part fuel logs it (lr_start_offset r)
             else next_part fuel logs it (u32 (lr_log_part_index r)));
    if decide (0 <= index) then
      let full_path := log_file (lr_log_path r) index in
      match fopen_read fs full_path with
      | None => Some (-1, r)
      | Some data =>
          let reader := Reader_new (open_seq data) None FLAGS_binlog_enable_crc 0 (lr_compressed r) [] in
          Some (0, MkLogReader (lr_log_path r) index (lr_start_offset r) (Some (full_path, reader)) (lr_compressed r))
      end
    else Some (-1, r).

(** The open stream reads what the file holds now; a file that was unlinked
    keeps its contents for the stream. *)
Definition set_data (data : bytes) (rd : Reader PosixSequentialFile) : Reader PosixSequentialFile :=
  set_rd_file (MkPosixSequentialFile data (ps_pos (rd_file rd)) (ps_eof (rd_file rd))) rd.
Definition refresh (fs : FileSystem) (path : bytes) (rd : Reader PosixSequentialFile) : Reader PosixSequentialFile :=
  set_data (default (ps_data (rd_file rd)) (fs_files fs !! path)) rd.

(** [ReadNextRecord]; one more round than the file has bytes is enough for
    [ReadRecord]. *)
Definition ReadNextRecord (fs : FileSystem) (logs : LogParts) (r : LogReader) : option (Status * bytes * LogReader) :=
  '(res, r) ← match lr_reader r with None => RollRLogFile fs logs r | Some _ => Some (0, r) end;
  if decide (res < 0) then Some (WaitRecord, [], r)
  else
    '(path, rd) ← lr_reader r;
    let rd := refresh fs path rd in
    '(status, record, rd) ← ReadRecord snappy_length snappy_uncompress zlib_uncompress (S (S (length (ps_data (rd_file rd))))) rd;
    let r := set_lr_reader (Some (path, rd)) r in
    if decide (status = Eof) then
      '(_, r) ← RollRLogFile fs logs r;
      Some (Eof, record, r)
    else Some (status, record, r).
End roll.
