(* ===== verification/LogGrow.v ===== *)
(** Reading a log file while it grows: a reader whose stream is not at its end
    goes on in the longer file; one that saw the end works off its buffer, waits
    once, and then sees the longer file. *)
From S2P Require Import Prelude Slice CrcTables Coding LogFile LogWriter LogLayout LogReader LogRoundtrip LogThms LogLive Random Skiplist.
From S2P Require Import SkiplistInv SkiplistInsert SkiplistSplit SkiplistSpec StdMap Strings LogRoll.

(** * LogParts: The list of log parts as a sequence of (file index, first offset) pairs, the
    newest part first: what the loops of [RollRLogFile] and [GetEndLogIndex]
    (log/log_reader.cc) find in it. *)
(** ** Iterators *)

Lemma detached_nil {K V} `{ComparatorLaws K, !ValueInit K, !ValueInit V} (l : skiplist K V) it : detached l it [] -> it = None.
Proof. intros ([|p c] & -> & _ & _ & Hx); done. Qed.
Lemma detached_cons {K V} `{ComparatorLaws K, !ValueInit K, !ValueInit V} (l : skiplist K V) it k v xs : detached l it ((k, v) :: xs) ->
  it_Valid it = true /\ it_GetKey l it = Some k /\ it_GetValue l it = Some v /\ exists it', it_Next l it = Some it' /\ detached l it' xs.
Proof.
  intros ([|p c] & -> & Hc & Hi & Hx); [done|]. apply chain_cons in Hc as [Hn Hc]. destruct (Hi p) as [[[k' v'] h] Hp]; [left|].
  unfold entries_of in Hx. rewrite fmap_cons in Hx. assert (Hkv : (k, v) = ent l p) by congruence. assert (Hxs : xs = ent l <$> c) by congruence. rewrite ent_info, Hp in Hkv. injection Hkv as -> ->.
  cbn [head]. split; [done|]. unfold it_GetKey, it_GetValue, it_Next. cbn [mbind option_bind]. rewrite GetKey_info, GetValue_info, Hp.
  split; [done|]. split; [done|]. exists (head c). split; [done|]. exists c. split; [done|]. split; [done|]. split; [|done].
  intros q Hq. apply Hi. by right.
Qed.
Lemma rep_first {K V} `{ComparatorLaws K, !ValueInit K, !ValueInit V} (l : skiplist K V) xs : rep l xs ->
  exists it, it_SeekToFirst l = Some it /\ detached l it xs.
Proof.
  intros (cs & Hr & _ & ->). exists (head (cs 0%nat)). destruct (repr_chain l cs Hr) as [Hf Hc]. split; [done|].
  exists (cs 0%nat). split; [done|]. split; [done|]. split; [|done]. intros q Hq. destruct (repr_info l cs Hr q Hq) as (k & v & h & -> & _). done.
Qed.

Section parts.
Context `{BinlogFlags} `{Compressors}.
Implicit Types (logs : LogParts) (xs : list (Z * Z)).

(** File indexes fit in an [int] and in the digits of a file name. *)
Definition index_ok (k : Z) : Prop := 0 <= k < 2 ^ 31 - 1 /\ k < 10 ^ Z.of_nat FLAGS_binlog_name_length.
Definition newest_first xs : Prop := StronglySorted (fun x y => y.1 < x.1) xs.

Lemma index_s32 k : index_ok k -> s32 k = k.
Proof. intros [[? ?] _]. apply swrap_id; unfold in_sint; lia. Qed.
Lemma index_u32 k : index_ok k -> u32 k = k.
Proof. intros [[? ?] _]. apply uwrap_id. unfold in_uint. lia. Qed.

Lemma log_file_inj path i j : index_ok i -> index_ok j -> log_file path i = log_file path j -> i = j.
Proof.
  intros Hi Hj E. unfold log_file in E. rewrite !index_u32, !FormatToString_decimal in E by done.
  apply app_inv_head in E. apply app_inv_head in E. apply app_inv_tail in E. destruct Hi, Hj. eapply decimal_inj; [| |exact E]; lia.
Qed.

(** The first loop *)
Definition seq_find (off : Z) xs : Z :=
  match list_find (fun x => x.2 <= off) xs with Some (_, x) => x.1 | None => -1 end.
Lemma find_part_spec logs off xs : forall fuel it, detached logs it xs -> Forall (fun x => index_ok x.1) xs -> (length xs < fuel)%nat ->
  find_part fuel logs it off = Some (seq_find off xs).
Proof.
  induction xs as [|[k v] xs IH]; intros fuel it Hd Hok Hf; (destruct fuel as [|fuel]; [lia|]); cbn [find_part].
  - by rewrite (detached_nil _ _ Hd).
  - apply Forall_cons in Hok as [Hk Hok]. simpl in Hf. destruct (detached_cons _ _ _ _ _ Hd) as (-> & -> & -> & it' & Hn & Hd'). rewrite !bind_some.
    unfold seq_find. cbn [list_find snd]. destruct (decide (v <= off)) as [Hv|Hv]; [by rewrite index_s32|].
    rewrite Hn, bind_some, (IH fuel it' Hd' Hok) by lia. unfold seq_find. by destruct (list_find _ xs) as [[i x]|].
Qed.

(** The second loop: from the newest part, whose successor there is none, and
    from an older one *)
Lemma next_part_last logs it cur v xs fuel : detached logs it ((cur, v) :: xs) -> index_ok cur -> next_part (S fuel) logs it cur = Some (-1).
Proof.
  intros Hd Hk. cbn [next_part]. destruct (detached_cons _ _ _ _ _ Hd) as (-> & -> & _). rewrite bind_some.
  rewrite decide_False by (rewrite uwrap_id by (unfold in_uint; unfold index_ok in Hk; lia); lia). by rewrite decide_True.
Qed.
Lemma next_part_older logs k v cur v' b xs : forall fuel it, detached logs it (xs ++ (k, v) :: (cur, v') :: b) ->
  newest_first (xs ++ (k, v) :: (cur, v') :: b) -> index_ok k -> index_ok cur -> (length xs < fuel)%nat ->
  next_part fuel logs it cur = Some k.
Proof.
  induction xs as [|[k1 v1] xs IH]; intros fuel it Hd Hs Hk Hc Hf; (destruct fuel as [|fuel]; [lia|]); cbn [next_part];
    destruct (detached_cons _ _ _ _ _ Hd) as (-> & -> & _ & it' & Hn & Hd'); rewrite bind_some; apply StronglySorted_inv in Hs as [Hs Hall];
    rewrite (uwrap_id _ (cur + 1)) by (unfold in_uint; unfold index_ok in Hc; lia).
  - apply Forall_cons in Hall as [Hlt _]. cbn [fst] in Hlt. case_decide; [by rewrite index_s32|]. rewrite decide_False by lia.
    rewrite Hn, bind_some. destruct (detached_cons _ _ _ _ _ Hd') as (-> & -> & _). rewrite bind_some.
    rewrite decide_True by lia. by rewrite index_s32.
  - apply Forall_app in Hall as [_ Hall]. apply Forall_cons in Hall as [H1 Hall]. apply Forall_cons in Hall as [H2 _]. cbn [fst] in *.
    assert (Hkc : cur < k).
    { clear -Hs. induction xs as [|x xs IHx]; simpl in Hs; apply StronglySorted_inv in Hs as [Hs Ha]; [by apply Forall_cons in Ha as [? _]|by apply IHx]. }
    rewrite !decide_False by lia. rewrite Hn, bind_some. simpl in Hf.
    assert (Hnext : exists k2 v2 ys, xs ++ (k, v) :: (cur, v') :: b = (k2, v2) :: ys /\ cur < k2).
    { destruct xs as [|[k2 v2] xs]; [by eexists _, _, _|]. eexists _, _, _. split; [done|]. simpl in Hs. apply StronglySorted_inv in Hs as [_ Ha].
      apply Forall_app in Ha as [_ Ha]. apply Forall_cons in Ha as [? _]. cbn [fst] in *. lia. }
    destruct Hnext as (k2 & v2 & ys & Hys & Hlt). change (detached logs it' (xs ++ (k, v) :: (cur, v') :: b)) in Hd'. rewrite Hys in Hd'. destruct (detached_cons _ _ _ _ _ Hd') as (-> & -> & _). rewrite bind_some.
    rewrite decide_False by lia. rewrite <- Hys in Hd'. apply (IH fuel it' Hd' Hs Hk Hc). lia.
Qed.

Lemma GetEndLogIndex_spec logs k v xs : rep logs ((k, v) :: xs) -> index_ok k -> Z.of_nat (S (length xs)) < 2 ^ 32 -> GetEndLogIndex logs = Some k.
Proof.
  intros Hr Hk Hn. unfold GetEndLogIndex. rewrite (GetSize_rep _ _ Hr), bind_some. cbn [length]. rewrite uwrap_id by (unfold in_uint; lia).
  rewrite decide_False by lia. destruct (rep_first _ _ Hr) as (it & -> & Hd). rewrite bind_some.
  destruct (detached_cons _ _ _ _ _ Hd) as (-> & -> & _). by rewrite bind_some, index_s32.
Qed.
Lemma GetEndLogIndex_nil logs : rep logs [] -> GetEndLogIndex logs = Some (-1).
Proof. intros Hr. unfold GetEndLogIndex. by rewrite (GetSize_rep _ _ Hr). Qed.

(** ** [RollRLogFile] *)

Definition opened (path : bytes) (r : LogReader) (index : Z) (data : bytes) : LogReader :=
  MkLogReader path index (lr_start_offset r)
    (Some (log_file path index, Reader_new (open_seq data) None FLAGS_binlog_enable_crc 0 (lr_compressed r) [])) (lr_compressed r).
(** Moving to the part [index] *)
Definition roll_to (fs : FileSystem) (r : LogReader) (index : Z) : Z * LogReader :=
  if decide (0 <= index) then
    match fopen_read fs (log_file (lr_log_path r) index) with None => (-1, r) | Some data => (0, opened (lr_log_path r) r index data) end
  else (-1, r).

Lemma RollRLogFile_nil fs logs r : rep logs [] -> RollRLogFile fs logs r = Some (-1, r).
Proof. intros Hr. unfold RollRLogFile. by rewrite (GetSize_rep _ _ Hr). Qed.

Lemma RollRLogFile_first fs logs xs r : rep logs xs -> Forall (fun x => index_ok x.1) xs -> Z.of_nat (length xs) < 2 ^ 32 ->
  lr_log_part_index r < 0 -> RollRLogFile fs logs r = Some (roll_to fs r (seq_find (lr_start_offset r) xs)).
Proof.
  intros Hr Hok Hn Hi. destruct xs as [|x xs]; [by apply RollRLogFile_nil|]. unfold RollRLogFile. rewrite (GetSize_rep _ _ Hr), bind_some. cbn [length] in *.
  rewrite uwrap_id by (unfold in_uint; lia). rewrite decide_False by lia. destruct (rep_first _ _ Hr) as (it & -> & Hd). rewrite bind_some. cbv zeta.
  rewrite decide_True by done. rewrite (find_part_spec _ _ _ _ _ Hd Hok) by (pose proof (rep_size _ _ Hr) as Hs; cbn [length] in *; lia).
  rewrite bind_some. unfold roll_to. case_decide; [|done]. by destruct (fopen_read _ _).
Qed.

Lemma RollRLogFile_last fs logs cur v xs r : rep logs ((cur, v) :: xs) -> index_ok cur -> Z.of_nat (S (length xs)) < 2 ^ 32 ->
  lr_log_part_index r = cur -> RollRLogFile fs logs r = Some (-1, r).
Proof.
  intros Hr Hok Hn Hi. unfold RollRLogFile. rewrite (GetSize_rep _ _ Hr), bind_some. cbn [length].
  rewrite uwrap_id by (unfold in_uint; lia). rewrite decide_False by lia. destruct (rep_first _ _ Hr) as (it & -> & Hd). rewrite bind_some. cbv zeta.
  rewrite Hi, decide_False by (unfold index_ok in Hok; lia). rewrite index_u32 by done. by rewrite (next_part_last _ _ _ _ _ _ Hd Hok), bind_some.
Qed.

Lemma RollRLogFile_next fs logs a k v cur v' b r : rep logs (a ++ (k, v) :: (cur, v') :: b) -> newest_first (a ++ (k, v) :: (cur, v') :: b) ->
  index_ok k -> index_ok cur -> Z.of_nat (length (a ++ (k, v) :: (cur, v') :: b)) < 2 ^ 32 ->
  lr_log_part_index r = cur -> RollRLogFile fs logs r = Some (roll_to fs r k).
Proof.
  intros Hr Hs Hk Hok Hn Hi. pose proof (rep_size _ _ Hr) as Hsz. unfold RollRLogFile. rewrite (GetSize_rep _ _ Hr), bind_some.
  rewrite uwrap_id by (unfold in_uint; lia). rewrite length_app in Hn, Hsz. cbn [length] in Hn, Hsz. rewrite decide_False by (rewrite length_app; cbn [length]; lia).
  destruct (rep_first _ _ Hr) as (it & -> & Hd). rewrite bind_some. cbv zeta.
  rewrite Hi, decide_False by (unfold index_ok in Hok; lia). rewrite index_u32 by done. rewrite (next_part_older _ _ _ _ _ _ _ _ _ Hd Hs Hk Hok) by lia.
  rewrite bind_some. unfold roll_to. case_decide; [|done]. by destruct (fopen_read _ _).
Qed.
End parts.

(** * LogGrow *)
Section grow.
Context (snl : bytes -> Z) (snu : bytes -> option bytes) (zu : bytes -> Z * bytes).
Local Abbreviation Rd := (Reader PosixSequentialFile).
Local Abbreviation loop := (ReadRecord_loop snl snu zu).
Local Abbreviation RPR := (ReadPhysicalRecord snl snu zu).
Local Abbreviation read D r := (ReadRecord snl snu zu (S (S (length D))) r).
Implicit Types (r : Rd) (D d tail : bytes).

(** ** At the end of the stream the contents of the file do not matter *)

Definition at_eof r : Prop := ps_eof (rd_file r) = true /\ rd_compressed r = false.

Lemma set_data_drop D r n st : set_data D (ReportDrop r n st) = ReportDrop (set_data D r) n st.
Proof. unfold ReportDrop. cbn. destruct (rd_reporter r); [|done]. by case_decide. Qed.
Lemma at_eof_drop r n st : at_eof r -> at_eof (ReportDrop r n st).
Proof. intros Hr. unfold ReportDrop. destruct (rd_reporter r); [|done]. by case_decide. Qed.

(** [f] commutes with a change of the file. *)
Definition swaps {X} (D : bytes) (a b : option (X * Rd)) : Prop :=
  match a with
  | Some (x, r) => at_eof r /\ b = Some (x, set_data D r)
  | None => b = None
  end.

Lemma parse_swap D r fragment : at_eof r -> swaps D (parse_record r fragment) (parse_record (set_data D r) fragment).
Proof.
  intros Hr. unfold parse_record. cbn [set_data set_rd_file rd_buffer rd_compressed rd_header_size rd_checksum rd_end_of_buffer_offset rd_initial_offset].
  destruct (parse_header _ _) as [[type len]|]; [|done]. rewrite !bind_some. case_decide; [done|].
  destruct (if rd_checksum r then _ else _) as [crc_ok|]; [|done]. rewrite !bind_some. destruct crc_ok; cbn [negb].
  - case_decide; [done|]. case_decide; [done|]. cbn [set_data set_rd_file set_rd_buffer rd_end_of_buffer_offset rd_buffer rd_header_size rd_initial_offset]. by case_decide.
  - split; [by apply at_eof_drop|]. by rewrite set_data_drop.
Qed.
Lemma read_swap D r fragment : at_eof r -> swaps D (RPR r fragment) (RPR (set_data D r) fragment).
Proof.
  intros Hr. unfold ReadPhysicalRecord. cbn [set_data set_rd_file rd_buffer rd_header_size]. fold (set_data D r). case_decide as Hsz.
  - unfold read_block, read_file. cbn [set_data set_rd_file set_rd_buffer rd_compressed rd_block_size rd_file sf_Read posix_sequential]. destruct Hr as [He Hc]. rewrite Hc. cbn [negb].
    destruct (require _) as [[]|]; [|done]. rewrite !bind_some. unfold PosixSequentialFile_Read. cbn [ps_eof]. rewrite He. cbv zeta. rewrite !bind_some. cbn [ok negb].
    cbn -[swaps u64 decide size Z.lt]. rewrite decide_True by (unfold size in *; simpl; lia). rewrite decide_True by (unfold size in *; simpl; lia). split; [done|]. done.
  - pose proof (parse_swap D r fragment Hr) as Hs. destruct (parse_record r fragment) as [[[t f] r1]|]; [|by cbn in Hs |- *; rewrite Hs]. destruct Hs as [Hr1 ->]. by rewrite !bind_some.
Qed.

Lemma loop_swap D fuel : forall r in_frag prosp fragment scratch, at_eof r ->
  match loop fuel r in_frag prosp fragment scratch with
  | Some (st, rec, r1) => loop fuel (set_data D r) in_frag prosp fragment scratch = Some (st, rec, set_data D r1) /\ (st <> WaitRecord -> at_eof r1)
  | None => loop fuel (set_data D r) in_frag prosp fragment scratch = None
  end.
Proof.
  induction fuel as [|fuel IH]; intros r in_frag prosp fragment scratch Hr; [done|]. cbn [ReadRecord_loop]. pose proof (read_swap D r fragment Hr) as Hs.
  destruct (RPR r fragment) as [[[[t fr] off] r1]|]; cbn [swaps] in Hs; [|by rewrite Hs]. destruct Hs as [Hr1 ->]. rewrite !bind_some. cbv zeta.
  cbn [set_data set_rd_file rd_resyncing rd_end_of_buffer_offset rd_buffer rd_header_size]. fold (set_data D r1). destruct (rd_resyncing r1 && bool_decide (t = kMiddleType)); [by apply IH|].
  destruct (rd_resyncing r1 && bool_decide (t = kLastType)); [by apply (IH (set_rd_resyncing false r1))|].
  change (set_rd_resyncing false (set_data D r1)) with (set_data D (set_rd_resyncing false r1)).
  assert (Hr2 : at_eof (set_rd_resyncing false r1)) by done.
  repeat case_decide; try (by apply IH); try done; destruct in_frag; try (by apply IH); try done.
  all: rewrite <- set_data_drop; split; [done|]; intros _; by apply at_eof_drop.
Qed.

(** More rounds do not change a result. *)
Lemma loop_more fuel : forall fuel' r in_frag prosp fragment scratch x, (fuel <= fuel')%nat -> loop fuel r in_frag prosp fragment scratch = Some x ->
  loop fuel' r in_frag prosp fragment scratch = Some x.
Proof.
  induction fuel as [|fuel IH]; intros fuel' r in_frag prosp fragment scratch x Hf; [done|]. destruct fuel' as [|fuel']; [lia|]. cbn [ReadRecord_loop].
  destruct (RPR r fragment) as [[[[t fr] off] r1]|]; [|done]. rewrite !bind_some. cbv zeta. repeat case_match; try done; apply IH; lia.
Qed.

(** A reader at the end of an old version [D0] of the file reads as in it. *)
Lemma read_old D0 D r st rec r1 : (length D0 <= length D)%nat -> at_eof r -> rd_initial_offset r <= rd_last_record_offset r ->
  read D0 (set_data D0 r) = Some (st, rec, r1) -> read D (set_data D r) = Some (st, rec, set_data D r1) /\ (st <> WaitRecord -> at_eof r1).
Proof.
  intros Hle Hr Hlo. unfold ReadRecord. change (rd_last_record_offset (set_data D0 r)) with (rd_last_record_offset r). change (rd_initial_offset (set_data D0 r)) with (rd_initial_offset r).
  change (rd_last_record_offset (set_data D r)) with (rd_last_record_offset r). change (rd_initial_offset (set_data D r)) with (rd_initial_offset r). rewrite !decide_False by lia.
  intros HR. apply (loop_more _ (S (S (length D)))) in HR; [|lia]. assert (Hr0 : at_eof (set_data D0 r)) by (by destruct Hr).
  pose proof (loop_swap D (S (S (length D))) (set_data D0 r) false 0 [] [] Hr0) as Hs. rewrite HR in Hs. exact Hs.
Qed.

(** ** Versions of a file *)

(** Records were added to [D0], and possibly an end mark. *)
Definition grows D0 ds0 ps0 (ends0 : list nat) D ds ps (ends : list nat) : Prop :=
  exists ds1 ps1 ends1 X, ds = ds0 ++ ds1 /\ ps = ps0 ++ ps1 /\ ends = ends0 ++ ends1 /\ laid (length (enc 0 ps0)) ds1 ps1 ends1 /\ D = D0 ++ X.
Lemma grows_trans D0 ds0 ps0 ends0 D1 ds1 ps1 ends1 D2 ds2 ps2 ends2 :
  grows D0 ds0 ps0 ends0 D1 ds1 ps1 ends1 -> grows D1 ds1 ps1 ends1 D2 ds2 ps2 ends2 -> grows D0 ds0 ps0 ends0 D2 ds2 ps2 ends2.
Proof.
  intros (a1 & a2 & a3 & X & -> & -> & -> & Hl & ->) (b1 & b2 & b3 & Y & -> & -> & -> & Hl' & ->).
  exists (a1 ++ b1), (a2 ++ b2), (a3 ++ b3), (X ++ Y). rewrite <- !app_assoc. split_and!; try done. apply laid_app; [done|].
  rewrite enc_app, length_app in Hl'. exact Hl'.
Qed.
Lemma grows_refl D ds ps ends : grows D ds ps ends D ds ps ends.
Proof. exists [], [], [], []. rewrite !app_nil_r. split_and!; try done. constructor. Qed.

(** The reader has a view of the file as it is, or works off its buffer at the
    end of an older version. *)
Definition fresh D ds ps ends tail r (i : nat) : Prop := rat D ds ps ends tail (set_data D r) i.
Definition stale D ds ps ends r (i : nat) : Prop :=
  at_eof r /\ exists D0 ds0 ps0 ends0, holds D0 ds0 false ps0 ends0 [] /\ grows D0 ds0 ps0 ends0 D ds ps ends /\ rat D0 ds0 ps0 ends0 [] (set_data D0 r) i.
Definition live (old : bool) D ds ps ends tail r (i : nat) : Prop := if old then stale D ds ps ends r i else fresh D ds ps ends tail r i.

Lemma rat_conf D ds ps ends tail r i : rat D ds ps ends tail r i -> rconf r.
Proof. intros (P & E & L & eof & qs & ps' & e & Hr & _). apply Hr. Qed.
Lemma rat_lookup D ds ps ends tail r i : rat D ds ps ends tail r i -> is_Some ((0%nat :: ends) !! i).
Proof. intros (P & E & L & eof & qs & ps' & e & _ & _ & _ & _ & _ & _ & He & _). by exists e. Qed.

Lemma rok_grow D0 X r P E L : rok (set_data D0 r) D0 P E -> rinv (set_data D0 r) D0 E L false -> rok (set_data (D0 ++ X) r) (D0 ++ X) P E.
Proof.
  intros [Hc (eof & Hf & _) He Hb Hle Hblk Hsp] Hi. pose proof (ri_file _ _ _ _ _ Hi) as Hf2. rewrite Hf2 in Hf. injection Hf as <-.
  pose proof (ri_eof _ _ _ _ _ Hi eq_refl) as Hm. split; try done.
  - by destruct Hc.
  - exists false. split; [|done]. cbn in Hf2 |- *. injection Hf2 as <- ->. done.
  - cbn in Hb |- *. rewrite Hb, drop_app_le by lia. rewrite take_app_le; [done|]. rewrite length_drop. lia.
  - rewrite length_app. lia.
  - destruct Hsp as [Hsp|Hsp]; [|by right]. right. pose proof (Nat.div_mod_eq P B). pose proof (Nat.div_mod_eq E B). pose proof (mod_B P).
    assert (HB : (P / B * B + P mod B = P)%nat) by blia. assert (HE : (E / B * B = E)%nat) by blia.
    destruct (decide (P mod B = 0)%nat) as [Hz|Hz].
    + destruct (decide (E = P)) as [->|Hne]; [by left|]. right. rewrite Hz in *.
      assert (P / B < E / B)%nat by (apply Nat.nle_gt; intros Hx; assert (E / B * B <= P / B * B)%nat by (by apply Nat.mul_le_mono_r); lia).
      assert ((P / B + 1) * B <= E / B * B)%nat by (apply Nat.mul_le_mono_r; lia). lia.
    + right. assert (P / B < E / B)%nat by (apply Nat.nle_gt; intros Hx; assert (E / B * B <= P / B * B)%nat by (by apply Nat.mul_le_mono_r); lia).
      assert ((P / B + 1) * B <= E / B * B)%nat by (apply Nat.mul_le_mono_r; lia). lia.
Qed.
Lemma rat_grow D0 ds0 ps0 ends0 D ds closed ps ends tail r i : holds D0 ds0 false ps0 ends0 [] -> holds D ds closed ps ends tail -> grows D0 ds0 ps0 ends0 D ds ps ends ->
  ps_eof (rd_file r) = false -> rat D0 ds0 ps0 ends0 [] (set_data D0 r) i -> rat D ds ps ends tail (set_data D r) i.
Proof.
  intros Hh0 Hh (ds1 & ps1 & ends1 & X & -> & -> & -> & Hl1 & ->) Heof Hrat. pose proof (rat_le _ _ _ _ _ _ _ (hd_laid _ _ _ _ _ _ Hh0) Hrat) as Hi0.
  destruct Hrat as (P & E & L & eof & qs & ps' & e & Hr & Hi & Hq & Hfq & Hl & HD & He & HLe & HL). pose proof (ri_file _ _ _ _ _ Hi) as Hf. cbn in Hf. injection Hf as Hpos Heof'.
  rewrite Heof in Heof'. subst eof. pose proof (rat_end _ _ _ _ _ _ _ _ _ _ _ Hh0 Hr HD) as HN. pose proof (rk_le _ _ _ _ Hr) as Hle.
  exists P, E, L, false, qs, (ps' ++ ps1), e. split; [by eapply rok_grow|]. split.
  { destruct Hi as [[] ? ? ? ? ? ? ?]. split; try done; [cbn; by rewrite Hpos, Heof|]. rewrite length_app. lia. }
  split; [done|]. split; [done|]. rewrite enc_app, length_app in HN. pose proof (laid_length _ _ _ _ (hd_laid _ _ _ _ _ _ Hh0)) as Hlen.
  split; [rewrite !drop_app_le by lia; apply laid_app; [done|]; by rewrite <- Nat.add_assoc, HN|].
  split; [|split; [by rewrite app_comm_cons; apply lookup_app_l_Some|split; [done|rewrite enc_app, length_app; lia]]].
  pose proof (hd_data _ _ _ _ _ _ Hh) as HDD. rewrite enc_app, <- app_assoc in HDD. rewrite (hd_data _ _ _ _ _ _ Hh0), app_nil_r in HDD |- *. apply app_inv_head in HDD. subst X.
  rewrite (hd_data _ _ _ _ _ _ Hh0), !app_nil_r in HD. rewrite (hd_data _ _ _ _ _ _ Hh0), app_nil_r in Hle. rewrite drop_app_le by lia. rewrite HD.
  rewrite (app_assoc qs ps' ps1), (enc_app P (qs ++ ps') ps1), <- app_assoc. do 3 f_equal. rewrite enc_app, length_app. lia.
Qed.

Lemma live_grow old D0 ds0 ps0 ends0 D ds closed ps ends tail r i : holds D0 ds0 false ps0 ends0 [] -> holds D ds closed ps ends tail -> grows D0 ds0 ps0 ends0 D ds ps ends ->
  live old D0 ds0 ps0 ends0 [] r i -> exists old', live old' D ds ps ends tail r i.
Proof.
  intros Hh0 Hh Hg. destruct old; cbn [live].
  - intros (He & D1 & ds1 & ps1 & ends1 & Hh1 & Hg1 & Hr1). exists true. split; [done|]. exists D1, ds1, ps1, ends1. split; [done|]. split; [by eapply grows_trans|done].
  - intros Hf. destruct (ps_eof (rd_file r)) eqn:Heof; [|exists false; by eapply rat_grow]. exists true.
    split; [split; [done|exact (rc_comp _ (rat_conf _ _ _ _ _ _ _ Hf))]|]. by exists D0, ds0, ps0, ends0.
Qed.

Lemma set_data_twice D0 D r : set_data D0 (set_data D r) = set_data D0 r.
Proof. done. Qed.
Lemma rat_same_data D ds ps ends tail r i : rat D ds ps ends tail r i -> set_data D r = r.
Proof.
  intros (P & E & L & eof & qs & ps' & e & _ & Hi & _). unfold set_data. rewrite (ri_file _ _ _ _ _ Hi). cbn [ps_pos ps_eof]. rewrite <- (ri_file _ _ _ _ _ Hi). by destruct r.
Qed.
Lemma live_le old D ds closed ps ends tail r i : holds D ds closed ps ends tail -> live old D ds ps ends tail r i -> (i <= length ds)%nat.
Proof.
  intros Hh. destruct old; cbn [live]; [|by intros Hf; eapply rat_le; [apply Hh|]]. intros (_ & D0 & ds0 & ps0 & ends0 & Hh0 & (ds1 & ps1 & ends1 & X & -> & _) & Hr).
  apply rat_le in Hr; [|apply Hh0]. rewrite length_app. lia.
Qed.

(** What the next call on a live reader returns: the next record; or nothing yet,
    and the reader stands at or before that record with a view of the file as it
    is; or the end mark *)
Definition next_read old D ds (closed : bool) ps ends tail i (st : Status) (rec : bytes) r' : Prop :=
  (st = OK /\ ds !! i = Some rec /\ live old D ds ps ends tail r' (S i)) \/
  (st = WaitRecord /\ rec = [] /\ (old = true \/ (i = length ds /\ closed = false)) /\ exists j, (j <= i)%nat /\ live false D ds ps ends tail r' j) \/
  (st = Eof /\ rec = [] /\ old = false /\ closed = true /\ i = length ds /\ rpast D ps r').

Lemma fresh_read D ds closed ps ends tail r i : holds D ds closed ps ends tail -> fresh D ds ps ends tail r i ->
  exists st rec r', read D (set_data D r) = Some (st, rec, r') /\ next_read false D ds closed ps ends tail i st rec r'.
Proof.
  intros Hh Hf. pose proof (rat_le _ _ _ _ _ _ _ (hd_laid _ _ _ _ _ _ Hh) Hf) as Hi. destruct (decide (i < length ds)%nat) as [Hlt|Hge].
  - destruct (lookup_lt_is_Some_2 ds i Hlt) as [d Hd]. destruct (read_ok snl snu zu _ _ _ _ _ _ _ _ _ Hh Hf Hd) as (r' & e & HR & Hr' & _).
    assert (Hf' : fresh D ds ps ends tail r' (S i)) by (unfold fresh; by rewrite (rat_same_data _ _ _ _ _ _ _ Hr')).
    exists OK, d, r'. split; [done|]. left. done.
  - assert (i = length ds) as -> by lia. destruct closed.
    + destruct (read_end snl snu zu _ _ _ _ _ _ Hh Hf) as (r' & HR & Hp & _). exists Eof, [], r'. split; [done|]. right; right. done.
    + destruct (read_wait snl snu zu _ _ _ _ _ _ Hh Hf) as (r' & j & L & HR & Hj & Hr' & _). exists WaitRecord, [], r'. split; [done|]. right; left. split_and!; [done|done|by right|].
      exists j. split; [done|]. cbn [live]. unfold fresh. by rewrite (rat_same_data _ _ _ _ _ _ _ Hr').
Qed.

Lemma stale_read D ds closed ps ends tail r i : holds D ds closed ps ends tail -> stale D ds ps ends r i ->
  exists st rec r', read D (set_data D r) = Some (st, rec, r') /\ next_read true D ds closed ps ends tail i st rec r'.
Proof.
  intros Hh (He & D0 & ds0 & ps0 & ends0 & Hh0 & Hg & Hr). pose proof Hg as (ds1 & ps1 & ends1 & X & -> & -> & -> & Hl1 & HX).
  pose proof (rat_le _ _ _ _ _ _ _ (hd_laid _ _ _ _ _ _ Hh0) Hr) as Hi. pose proof (rat_conf _ _ _ _ _ _ _ Hr) as Hc.
  assert (Hlo : rd_initial_offset r <= rd_last_record_offset r) by (pose proof (rc_init _ Hc) as H1; pose proof (rc_last _ Hc) as H2; cbn in H1, H2; lia).
  assert (HlenD : (length D0 <= length D)%nat) by (rewrite HX, length_app; lia).
  destruct (decide (i < length ds0)%nat) as [Hlt|Hge].
  - destruct (lookup_lt_is_Some_2 ds0 i Hlt) as [d Hd]. destruct (read_ok snl snu zu _ _ _ _ _ _ _ _ _ Hh0 Hr Hd) as (r' & e & HR & Hr' & _).
    destruct (read_old _ _ _ _ _ _ HlenD He Hlo HR) as [HR' He']. exists OK, d, (set_data D r'). split; [done|]. left. split; [done|]. split; [by apply lookup_app_l_Some|].
    split; [by apply He'|]. exists D0, ds0, ps0, ends0. split; [done|]. split; [done|]. by rewrite set_data_twice, (rat_same_data _ _ _ _ _ _ _ Hr').
  - assert (i = length ds0) as -> by lia. destruct (read_wait snl snu zu _ _ _ _ _ _ Hh0 Hr) as (r' & j0 & L & HR & _ & _ & Hinv & Hbuf & _).
    destruct (read_old _ _ _ _ _ _ HlenD He Hlo HR) as [HR' _]. exists WaitRecord, [], (set_data D r'). split; [done|]. right; left. split; [done|]. split; [done|]. split; [by left|].
    pose proof (hd_data _ _ _ _ _ _ Hh0) as HD0. rewrite app_nil_r in HD0. pose proof (ri_le _ _ _ _ _ Hinv) as HL. rewrite HD0 in HL.
    destruct (rat_rewind D (ds0 ++ ds1) closed (ps0 ++ ps1) (ends0 ++ ends1) tail (set_data D r') L Hh) as (j & _ & Hj & Hmin).
    + destruct Hinv as [[] Hif ? ? ? ? ? ?]. split; try done; [cbn; by rewrite Hif|]. rewrite HX, length_app, HD0. lia.
    + done.
    + rewrite enc_app, length_app. lia.
    + exists j. split; [|done]. apply (Hmin _ (length (enc 0 ps0))); [|lia]. rewrite app_comm_cons. apply lookup_app_l_Some. exact (laid_last _ _ _ _ (hd_laid _ _ _ _ _ _ Hh0)).
Qed.

Lemma live_read old D ds closed ps ends tail r i : holds D ds closed ps ends tail -> live old D ds ps ends tail r i ->
  exists st rec r', read D (set_data D r) = Some (st, rec, r') /\ next_read old D ds closed ps ends tail i st rec r'.
Proof. intros Hh. destruct old; [by apply stale_read|by apply fresh_read]. Qed.
Lemma past_data D ps r : rpast D ps r -> set_data D r = r.
Proof.
  intros (E & L & eof & qs & m & _ & Hi & _). unfold set_data. rewrite (ri_file _ _ _ _ _ Hi). cbn [ps_pos ps_eof]. rewrite <- (ri_file _ _ _ _ _ Hi). by destruct r.
Qed.
Lemma past_read D ds closed ps ends tail r : holds D ds closed ps ends tail -> rpast D ps (set_data D r) ->
  exists r' j, read D (set_data D r) = Some (WaitRecord, [], r') /\ (j <= length ds)%nat /\ live false D ds ps ends tail r' j.
Proof.
  intros Hh Hp. destruct (read_past snl snu zu _ _ _ _ _ _ _ Hh Hp) as (r' & j & L & HR & Hj & Hr' & _). exists r', j. split; [done|]. split; [done|].
  cbn. unfold fresh. by rewrite (rat_same_data _ _ _ _ _ _ _ Hr').
Qed.
End grow.
