(* ===== verification/Hash.v ===== *)
(** The hash functions of base/hash.h: [hash] spreads the keys of a table over
    its segments, [hash64] the keys of a client over partitions.  Words are
    read in little-endian order. *)
From S2P Require Import Prelude.

Definition hash_m : Z := 0x5bd1e995.
Definition le32 (a b c d : Z) : Z := a + Z.shiftl b 8 + Z.shiftl c 16 + Z.shiftl d 24.

(** One round of the [while (len >= 4)] loop *)
Definition hash_mix (h k : Z) : Z :=
  let k := u32 (k * hash_m) in
  let k := Z.lxor k (Z.shiftr k 24) in
  let k := u32 (k * hash_m) in
  Z.lxor (u32 (h * hash_m)) k.

(** The rounds, then the [switch] on the bytes that are left *)
Fixpoint hash_words (h : Z) (data : bytes) : Z :=
  match data with
  | a :: b :: c :: d :: rest => hash_words (hash_mix h (le32 a b c d)) rest
  | [a; b; c] => u32 (Z.lxor (Z.lxor (Z.lxor h (Z.shiftl c 16)) (Z.shiftl b 8)) a * hash_m)
  | [a; b] => u32 (Z.lxor (Z.lxor h (Z.shiftl b 8)) a * hash_m)
  | [a] => u32 (Z.lxor h a * hash_m)
  | [] => h
  end.

Definition hash (key : bytes) (seed : Z) : Z :=
  let h := hash_words (Z.lxor seed (u32 (Z.of_nat (length key)))) key in
  let h := Z.lxor h (Z.shiftr h 13) in
  let h := u32 (h * hash_m) in
  Z.lxor h (Z.shiftr h 15).



(** ** Bounds *)
Lemma xorshift_range w k h : 0 <= k <= w -> in_uint w h -> in_uint w (Z.lxor h (Z.shiftr h k)).
Proof.
  intros Hk Hh. apply lxor_range; [lia|done|]. destruct (shiftr_range w k h Hk Hh) as [? Hlt]. split; [done|].
  eapply Z.lt_le_trans; [exact Hlt|]. apply Z.pow_le_mono_r; lia.
Qed.

Lemma hash_range key seed : in_uint 32 (hash key seed).
Proof. apply xorshift_range; [lia|]. by apply uwrap_range. Qed.


