(* ===== verification/TableIndex.v ===== *)
(** The indexes of a table: storage/schema.{h,cc}.

    A table is described by a protobuf message [TableMeta] whose column keys
    name the columns and timestamp columns of each index.  [TableIndex] turns
    it into index definitions and groups those over the same columns into the
    inner indexes a memory table keeps segments for.  [IndexDef] objects are
    shared between the vectors of [TableIndex] and changed through any of
    them, so they live in a heap and the vectors hold addresses; column
    definitions are not changed once an index refers to them. *)
From Stdlib Require Import String.
From S2P Require Import Prelude Slice RowCodec Segment StdMap.

(** ** Messages (proto/tablet.proto, proto/common.proto)

    The enumerations [TTLType] of the two files and of storage/schema.h have
    the same constructors. *)
Record TTLDesc : Type := MkTTLDesc { td_ttl_type : TTLType; td_abs_ttl : Z; td_lat_ttl : Z }.
Record ColumnMeta : Type := MkColumnMeta {
  cm_name : bytes; cm_type : bytes; cm_add_ts_idx : bool; cm_is_ts_col : bool;
  cm_ttl : option Z; cm_abs_ttl : option Z; cm_lat_ttl : option Z; cm_data_type : option DataType
}.
Record ColumnKey : Type := MkColumnKey {
  ck_index_name : bytes; ck_col_name : list bytes; ck_ts_name : list bytes; ck_flag : Z; ck_ttl : option TTLDesc
}.
Inductive TableMode : Type := kTableLeader | kTableFollower.
Record TableMeta : Type := MkTableMeta {
  tm_ttl : Z; tm_ttl_type : TTLType; tm_ttl_desc : option TTLDesc; tm_seg_cnt : Z; tm_key_entry_max_height : option Z;
  tm_mode : option TableMode; tm_dimensions : list bytes; tm_column_desc : list ColumnMeta; tm_column_key : list ColumnKey;
  tm_added_column_desc : list ColumnMeta; tm_schema_versions : list (Z * Z)
}.

(** ** TTL descriptors *)
Definition ConvertTTLType (type : TTLType) : TTLType :=
  match type with
  | kAbsoluteTime => kAbsoluteTime
  | kLatestTime => kLatestTime
  | kAbsAndLat => kAbsAndLat
  | kAbsOrLat => kAbsOrLat
  | _ => kAbsoluteTime
  end.
Definition TTLSt_of (d : TTLDesc) : TTLSt :=
  MkTTLSt (u64 (td_abs_ttl d * 60 * 1000)) (td_lat_ttl d) (ConvertTTLType (td_ttl_type d)).

(** ** Columns *)
Record ColumnDef : Type := MkColumnDef { cd_name : bytes; cd_id : Z; cd_type : DataType; cd_ts_idx : Z }.
Definition CheckTsType (type : DataType) : bool := bool_decide (type = kBigInt \/ type = kTimestamp).

(** [SchemaCodec::ConvertStrType] with [DATA_TYPE_MAP] of codec/schema_codec.h *)
Definition DATA_TYPE_MAP : list (bytes * DataType) :=
  [(str "bool", kBool); (str "smallint", kSmallInt); (str "uint16", kSmallInt); (str "int16", kSmallInt);
   (str "int", kInt); (str "int32", kInt); (str "uint32", kInt); (str "bigint", kBigInt); (str "int64", kBigInt);
   (str "uint64", kBigInt); (str "float", kFloat); (str "double", kDouble); (str "varchar", kVarchar);
   (str "string", kString); (str "date", kDate); (str "timestamp", kTimestamp)].
Definition ConvertStrType (type : bytes) : DataType := default kString (map_find type DATA_TYPE_MAP).

(** ** Index definitions *)
Inductive IndexStatus : Type := kReady | kWaiting | kDeleting | kDeleted.
#[global] Instance IndexStatus_eq_dec : EqDecision IndexStatus.
Proof. solve_decision. Defined.
Inductive IndexType : Type := kUnique | kNoUnique | kPrimaryKey | kAutoGen | kIncrement | kTimeSerise.
#[global] Instance IndexType_eq_dec : EqDecision IndexType.
Proof. solve_decision. Defined.
Record IndexDef : Type := MkIndexDef {
  name_ : bytes; index_id_ : Z; inner_pos_ : Z; status_ : IndexStatus; type_ : IndexType;
  columns_ : list ColumnDef; ttl_st_ : option TTLSt; ts_column_ : option ColumnDef
}.
Definition IndexDef_new (name : bytes) (id : Z) (status : IndexStatus) (type : IndexType) (columns : list ColumnDef) : IndexDef :=
  MkIndexDef name id 0 status type columns None None.
Definition IsReady (d : IndexDef) : bool := bool_decide (status_ d = kReady).
Definition SetStatus (s : IndexStatus) (d : IndexDef) : IndexDef :=
  MkIndexDef (name_ d) (index_id_ d) (inner_pos_ d) s (type_ d) (columns_ d) (ttl_st_ d) (ts_column_ d).
Definition SetTTL (ttl : TTLSt) (d : IndexDef) : IndexDef :=
  MkIndexDef (name_ d) (index_id_ d) (inner_pos_ d) (status_ d) (type_ d) (columns_ d) (Some ttl) (ts_column_ d).
Definition SetTsColumn (c : option ColumnDef) (d : IndexDef) : IndexDef :=
  MkIndexDef (name_ d) (index_id_ d) (inner_pos_ d) (status_ d) (type_ d) (columns_ d) (ttl_st_ d) c.
Definition SetInnerPos (pos : Z) (d : IndexDef) : IndexDef :=
  MkIndexDef (name_ d) (index_id_ d) pos (status_ d) (type_ d) (columns_ d) (ttl_st_ d) (ts_column_ d).
(** [GetTTLType]: the TTL must have been set *)
Definition GetTTLType (d : IndexDef) : option TTLType := t ← ttl_st_ d; Some (ttl_type t).

(** [InnerIndexSt]: the indexes over the same columns and their timestamp
    columns *)
Record InnerIndexSt : Type := MkInnerIndexSt { ii_id : Z; ii_index : list nat; ii_ts : list Z }.

(** [TableIndex] *)
Record TableIndex : Type := MkTableIndex {
  ti_heap : list IndexDef;
  indexs_ : list nat;
  multi_ts_indexs_ : list (list nat);
  inner_indexs_ : list InnerIndexSt;
  column_key_2_inner_index_ : list Z;
  pk_index_ : option nat;
  combine_col_name_map_ : gmap bytes nat;
  col_name_vec_ : list bytes;
  unique_col_name_vec_ : list bytes
}.
Definition set_ti_heap h t := MkTableIndex h (indexs_ t) (multi_ts_indexs_ t) (inner_indexs_ t) (column_key_2_inner_index_ t)
  (pk_index_ t) (combine_col_name_map_ t) (col_name_vec_ t) (unique_col_name_vec_ t).
Definition set_indexs x t := MkTableIndex (ti_heap t) x (multi_ts_indexs_ t) (inner_indexs_ t) (column_key_2_inner_index_ t)
  (pk_index_ t) (combine_col_name_map_ t) (col_name_vec_ t) (unique_col_name_vec_ t).
Definition set_multi_ts_indexs x t := MkTableIndex (ti_heap t) (indexs_ t) x (inner_indexs_ t) (column_key_2_inner_index_ t)
  (pk_index_ t) (combine_col_name_map_ t) (col_name_vec_ t) (unique_col_name_vec_ t).
Definition set_inner_indexs x t := MkTableIndex (ti_heap t) (indexs_ t) (multi_ts_indexs_ t) x (column_key_2_inner_index_ t)
  (pk_index_ t) (combine_col_name_map_ t) (col_name_vec_ t) (unique_col_name_vec_ t).
Definition set_column_key_2_inner x t := MkTableIndex (ti_heap t) (indexs_ t) (multi_ts_indexs_ t) (inner_indexs_ t) x
  (pk_index_ t) (combine_col_name_map_ t) (col_name_vec_ t) (unique_col_name_vec_ t).
Definition set_pk_index x t := MkTableIndex (ti_heap t) (indexs_ t) (multi_ts_indexs_ t) (inner_indexs_ t) (column_key_2_inner_index_ t)
  x (combine_col_name_map_ t) (col_name_vec_ t) (unique_col_name_vec_ t).
Definition set_names m v u t := MkTableIndex (ti_heap t) (indexs_ t) (multi_ts_indexs_ t) (inner_indexs_ t) (column_key_2_inner_index_ t)
  (pk_index_ t) m v u.

Definition MAX_INDEX_NUM : nat := 200.
(** The constructor, and [ReSet], after which the old definitions are no longer
    referred to *)
Definition ReSet (t : TableIndex) : TableIndex :=
  MkTableIndex (ti_heap t) [] [] [] (replicate MAX_INDEX_NUM (-1)) None ∅ [] [].
Definition TableIndex_new : TableIndex := MkTableIndex [] [] [] [] (replicate MAX_INDEX_NUM (-1)) None ∅ [] [].

(** Access through a [shared_ptr<IndexDef>] *)
Definition def_at (t : TableIndex) (p : nat) : option IndexDef := ti_heap t !! p.
Definition upd_def (t : TableIndex) (p : nat) (f : IndexDef -> IndexDef) : option TableIndex :=
  d ← def_at t p; Some (set_ti_heap (<[p := f d]> (ti_heap t)) t).
Fixpoint upd_defs (t : TableIndex) (ps : list nat) (f : IndexDef -> IndexDef) : option TableIndex :=
  match ps with [] => Some t | p :: ps' => t ← upd_def t p f; upd_defs t ps' f end.
Definition new_def (t : TableIndex) (d : IndexDef) : nat * TableIndex :=
  (length (ti_heap t), set_ti_heap (ti_heap t ++ [d]) t).

(** ** Lookup *)
Definition ts_is (ts_idx : Z) (d : IndexDef) : bool :=
  match ts_column_ d with Some c => bool_decide (cd_ts_idx c = s32 ts_idx) | None => false end.
Definition name_is (name : bytes) (d : IndexDef) : bool := bool_decide (name_ d = name).

(** The first of [ps] whose definition satisfies [f] *)
Fixpoint find_def (t : TableIndex) (f : IndexDef -> bool) (ps : list nat) : option (option nat) :=
  match ps with
  | [] => Some None
  | p :: ps' => d ← def_at t p; if f d then Some (Some p) else find_def t f ps'
  end.

(** [GetIndex(idx)]: [None] inside for an empty pointer *)
Definition GetIndex (t : TableIndex) (idx : Z) : option nat :=
  match multi_ts_indexs_ t with
  | [] => indexs_ t !! Z.to_nat idx
  | m => index_vec ← m !! Z.to_nat idx; head index_vec
  end.

(** [GetIndex(idx, ts_idx)] *)
Definition GetIndex_ts (t : TableIndex) (idx ts_idx : Z) : option (option nat) :=
  match multi_ts_indexs_ t with
  | [] => match indexs_ t !! Z.to_nat idx with None => Some None | Some p => find_def t (ts_is ts_idx) [p] end
  | m => match m !! Z.to_nat idx with None => Some None | Some index_vec => find_def t (ts_is ts_idx) index_vec end
  end.

(** [GetIndex(name)]: only the first of the indexes of a column key is compared *)
Definition GetIndex_name (t : TableIndex) (name : bytes) : option (option nat) :=
  match multi_ts_indexs_ t with
  | [] => find_def t (name_is name) (indexs_ t)
  | m => find_def t (name_is name) (omap head m)
  end.

(** [GetIndex(name, ts_idx)] *)
Fixpoint find_name_ts (t : TableIndex) (name : bytes) (ts_idx : Z) (ps : list nat) : option (option nat) :=
  match ps with
  | [] => Some None
  | p :: ps' =>
      d ← def_at t p;
      if negb (name_is name d) then Some None
      else if ts_is ts_idx d then Some (Some p) else find_name_ts t name ts_idx ps'
  end.
Fixpoint find_name_ts_vec (t : TableIndex) (name : bytes) (ts_idx : Z) (m : list (list nat)) : option (option nat) :=
  match m with
  | [] => Some None
  | ps :: m' => r ← find_name_ts t name ts_idx ps; match r with Some p => Some (Some p) | None => find_name_ts_vec t name ts_idx m' end
  end.
Definition GetIndex_name_ts (t : TableIndex) (name : bytes) (ts_idx : Z) : option (option nat) :=
  match multi_ts_indexs_ t with
  | [] =>
      r ← find_def t (name_is name) (indexs_ t);
      match r with None => Some None | Some p => find_def t (ts_is ts_idx) [p] end
  | m => find_name_ts_vec t name ts_idx m
  end.

Definition GetAllIndex (t : TableIndex) : list nat := concat (multi_ts_indexs_ t) ++ indexs_ t.
Definition GetInnerIndex (t : TableIndex) (idx : Z) : option InnerIndexSt := inner_indexs_ t !! Z.to_nat idx.
Definition GetInnerIndexPos (t : TableIndex) (column_key_pos : Z) : Z :=
  default (-1) (column_key_2_inner_index_ t !! Z.to_nat column_key_pos).
Definition SetInnerIndexPos (t : TableIndex) (column_key_pos inner_pos : Z) : TableIndex :=
  set_column_key_2_inner (<[Z.to_nat column_key_pos := s32 inner_pos]> (column_key_2_inner_index_ t)) t.
Definition AddInnerIndex (t : TableIndex) (i : InnerIndexSt) : TableIndex := set_inner_indexs (inner_indexs_ t ++ [i]) t.
Definition Size (t : TableIndex) : Z :=
  match multi_ts_indexs_ t with
  | [] => u32 (Z.of_nat (length (indexs_ t)))
  | m => u32 (Z.of_nat (length (concat m)))
  end.
(** [GetMaxIndexId] *)
Definition GetMaxIndexId (t : TableIndex) : option Z :=
  match multi_ts_indexs_ t with
  | [] =>
      match last (indexs_ t) with
      | None => Some (-1)
      | Some p => d ← def_at t p; Some (index_id_ d)
      end
  | m => vec ← last m; p ← head vec; d ← def_at t p; Some (index_id_ d)
  end.
Definition HasAutoGen (t : TableIndex) : option bool :=
  p ← pk_index_ t; d ← def_at t p; Some (bool_decide (type_ d = kAutoGen)).
Definition GetIndexByCombineStr (t : TableIndex) (combine_str : bytes) : option nat := combine_col_name_map_ t !! combine_str.
Definition IsColName (t : TableIndex) (name : bytes) : bool := bool_decide (name ∈ col_name_vec_ t).
Definition IsUniqueColName (t : TableIndex) (name : bytes) : bool := bool_decide (name ∈ unique_col_name_vec_ t).
