(* ===== verification/TableParse.v ===== *)
(** Building the indexes of a table from its description:
    [TableIndex::AddIndex], [ParseFromMeta] and [FillIndexVal] of
    storage/schema.cc. *)
From Stdlib Require Import String.
From S2P Require Import Prelude Slice RowCodec Segment StdMap TableIndex.

(** ** Adding an index *)
Definition AddMultiTsIndex (t : TableIndex) (pos : nat) (index : nat) : Z * TableIndex :=
  let m := multi_ts_indexs_ t in
  if decide (length m < pos)%nat then (-1, t)
  else if decide (pos < length m)%nat then (0, set_multi_ts_indexs (alter (fun v => v ++ [index]) pos m) t)
  else (0, set_multi_ts_indexs (m ++ [[index]]) t).

(** The column names joined with an underscore, as [combine_name] is built *)
Definition combine_name (cols : list ColumnDef) : bytes :=
  foldl (fun acc c => (if decide (acc = []) then acc else acc ++ str "_") ++ cd_name c) [] cols.

Definition AddIndex (t : TableIndex) (index_def : nat) : option (Z * TableIndex) :=
  match multi_ts_indexs_ t with
  | _ :: _ => Some (AddMultiTsIndex t (length (multi_ts_indexs_ t)) index_def)
  | [] =>
      if decide (MAX_INDEX_NUM <= length (indexs_ t))%nat then Some (-1, t)
      else
        d ← def_at t index_def;
        dup ← find_def t (name_is (name_ d)) (indexs_ t);
        match dup with
        | Some _ => Some (-1, t)
        | None =>
            let t := set_indexs (indexs_ t ++ [index_def]) t in
            let t := if decide (type_ d = kPrimaryKey \/ type_ d = kAutoGen) then set_pk_index (Some index_def) t else t in
            let names := cd_name <$> columns_ d in
            let combine := combine_name (columns_ d) in
            Some (0, set_names
                       (match combine_col_name_map_ t !! combine with
                        | Some _ => combine_col_name_map_ t
                        | None => <[combine := index_def]> (combine_col_name_map_ t)
                        end)
                       (col_name_vec_ t ++ names)
                       (if decide (type_ d = kUnique) then unique_col_name_vec_ t ++ names else unique_col_name_vec_ t) t)
        end
  end.

(** ** [ParseFromMeta] *)

(** [table_ttl] *)
Definition meta_ttl (m : TableMeta) : TTLSt :=
  match tm_ttl_desc m with
  | Some d => TTLSt_of d
  | None =>
      match tm_ttl_type m with
      | kAbsoluteTime => MkTTLSt (u64 (tm_ttl m * 60 * 1000)) 0 (ConvertTTLType (tm_ttl_type m))
      | _ => MkTTLSt 0 (tm_ttl m) (ConvertTTLType (tm_ttl_type m))
      end
  end.

(** What the loop over the columns builds up *)
Record parse_state : Type := MkParse {
  ps_index : TableIndex;
  ps_ts_mapping : list (bytes * Z);
  ps_key_idx : Z;
  ps_ts_idx : Z;
  ps_col_map : gmap bytes ColumnDef;
  ps_ts_ttl : gmap bytes TTLSt
}.
(** [std::map::emplace] *)
Definition insert_new {A} (k : bytes) (x : A) (m : gmap bytes A) : gmap bytes A :=
  match m !! k with Some _ => m | None => <[k := x]> m end.

(** The TTL of a column with [is_ts_col] *)
Definition ts_col_ttl (m : TableMeta) (c : ColumnMeta) : TTLSt :=
  let table_ttl := meta_ttl m in
  if decide (is_Some (cm_abs_ttl c) \/ is_Some (cm_lat_ttl c))
  then MkTTLSt (u64 (default 0 (cm_abs_ttl c) * 60 * 1000)) (default 0 (cm_lat_ttl c)) (ttl_type table_ttl)
  else
    match cm_ttl c with
    | Some ttl =>
        match tm_ttl_type m with
        | kAbsoluteTime => MkTTLSt (u64 (ttl * 60 * 1000)) 0 (ttl_type table_ttl)
        | _ => MkTTLSt 0 ttl (ttl_type table_ttl)
        end
    | None => table_ttl
    end.

(** The next number for a timestamp column *)
Definition add_ts (s : parse_state) (col : ColumnDef) (ttl : option TTLSt) : parse_state :=
  let name := cd_name col in
  MkParse (ps_index s) (emplace str_before name (u8 (ps_ts_idx s)) (ps_ts_mapping s)) (ps_key_idx s) (u32 (ps_ts_idx s + 1))
    (insert_new name (MkColumnDef name (cd_id col) (cd_type col) (s32 (ps_ts_idx s))) (ps_col_map s))
    (match ttl with Some t => insert_new name t (ps_ts_ttl s) | None => ps_ts_ttl s end).

(** One column; [false] when the function returns -1 *)
Definition parse_column (m : TableMeta) (ts_col_set : list bytes) (c : ColumnMeta) (s : parse_state)
    : option (bool * parse_state) :=
  let type := match cm_data_type c with Some t => t | None => ConvertStrType (cm_type c) end in
  let name := cm_name c in
  let col := MkColumnDef name (ps_key_idx s) type (-1) in
  if cm_add_ts_idx c then
    let '(p, t) := new_def (ps_index s) (SetTTL (meta_ttl m) (IndexDef_new name (ps_key_idx s) kReady kTimeSerise [col])) in
    '(ret, t) ← AddIndex t p;
    let s' := MkParse t (ps_ts_mapping s) (ps_key_idx s) (ps_ts_idx s) (insert_new name col (ps_col_map s)) (ps_ts_ttl s) in
    if decide (ret < 0) then Some (false, s')
    else Some (true, MkParse t (ps_ts_mapping s) (u32 (ps_key_idx s + 1)) (ps_ts_idx s) (ps_col_map s') (ps_ts_ttl s))
  else if cm_is_ts_col c then
    if decide ((name ∉ ts_col_set) /\ ps_ts_mapping s <> []) then Some (false, s)
    else if negb (CheckTsType type) then Some (false, s)
    else Some (true, add_ts s col (Some (ts_col_ttl m c)))
  else if decide (name ∈ ts_col_set) then
    if negb (CheckTsType type) then Some (false, s) else Some (true, add_ts s col None)
  else
    Some (true, MkParse (ps_index s) (ps_ts_mapping s) (ps_key_idx s) (ps_ts_idx s) (insert_new name col (ps_col_map s)) (ps_ts_ttl s)).

Fixpoint parse_columns (m : TableMeta) (ts_col_set : list bytes) (cols : list ColumnMeta) (s : parse_state)
    : option (bool * parse_state) :=
  match cols with
  | [] => Some (true, s)
  | c :: cols' => '(ok, s) ← parse_column m ts_col_set c s; if (ok : bool) then parse_columns m ts_col_set cols' s else Some (false, s)
  end.

(** The index of a column key for one of its timestamp columns *)
Definition key_index (m : TableMeta) (s : parse_state) (ck : ColumnKey) (key_idx : Z) (col_vec : list ColumnDef) (ts_name : option bytes)
    : IndexDef :=
  let status := if decide (ck_flag ck <> 0) then kDeleted else kReady in
  let index := SetTTL (meta_ttl m) (IndexDef_new (ck_index_name ck) key_idx status kTimeSerise col_vec) in
  let index :=
    match ts_name with
    | None => index
    | Some n =>
        let index := SetTsColumn (ps_col_map s !! n) index in
        match ps_ts_ttl s !! n with Some t => SetTTL t index | None => index end
    end in
  match ck_ttl ck with Some d => SetTTL (TTLSt_of d) index | None => index end.

(** The [do ... while] over the timestamp columns of the column key at [pos] *)
Fixpoint parse_key_ts (m : TableMeta) (s : parse_state) (has_multi_ts : bool) (pos : nat) (ck : ColumnKey) (key_idx : Z)
    (col_vec : list ColumnDef) (ts_names : list (option bytes)) (t : TableIndex) : option (bool * TableIndex) :=
  match ts_names with
  | [] => Some (true, t)
  | n :: rest =>
      let '(p, t) := new_def t (key_index m s ck key_idx col_vec n) in
      '(ret, t) ← if has_multi_ts then Some (AddMultiTsIndex t pos p) else AddIndex t p;
      if decide (ret < 0) then Some (false, t) else parse_key_ts m s has_multi_ts pos ck key_idx col_vec rest t
  end.

(** The loop over the column keys *)
Fixpoint parse_keys (m : TableMeta) (s : parse_state) (has_multi_ts : bool) (pos : nat) (keys : list ColumnKey) (t : TableIndex)
    : option (bool * TableIndex) :=
  match keys with
  | [] => Some (true, t)
  | ck :: keys' =>
      col_vec ← mapM (fun n => ps_col_map s !! n) (ck_col_name ck);
      let ts_names := match ck_ts_name ck with [] => [None] | l => Some <$> l end in
      '(ok, t) ← parse_key_ts m s has_multi_ts pos ck (Z.of_nat pos) col_vec ts_names t;
      if (ok : bool) then parse_keys m s has_multi_ts (S pos) keys' t else Some (false, t)
  end.

(** ** [FillIndexVal] *)

(** [std::make_shared<InnerIndexSt>(id, index)] *)
Definition InnerIndexSt_new (t : TableIndex) (id : Z) (index : list nat) : option InnerIndexSt :=
  defs ← mapM (def_at t) index;
  Some (MkInnerIndexSt id index
    (omap (fun d => match ts_column_ d with
                    | Some c => if decide (0 <= cd_ts_idx c) then Some (cd_ts_idx c) else None
                    | None => None
                    end) defs)).

(** [column_key_2_inner_index_[idx]->store(pos)] *)
Definition store_inner_pos (t : TableIndex) (idx : nat) (pos : Z) : option TableIndex :=
  _ ← require (bool_decide (idx < length (column_key_2_inner_index_ t))%nat);
  Some (set_column_key_2_inner (<[idx := pos]> (column_key_2_inner_index_ t)) t).

(** The inner indexes of consecutive groups of indexes *)
Fixpoint fill_groups (t : TableIndex) (idx : nat) (groups : list (list nat)) (store : bool) : option TableIndex :=
  match groups with
  | [] => Some t
  | ps :: rest =>
      i ← InnerIndexSt_new t (Z.of_nat idx) ps;
      t ← upd_defs (AddInnerIndex t i) ps (SetInnerPos (Z.of_nat idx));
      t ← if store then store_inner_pos t idx (Z.of_nat idx) else Some t;
      fill_groups t (S idx) rest store
  end.

(** The name under which column keys over the same columns are merged *)
Definition combine_col_name (ck : ColumnKey) : bytes :=
  match ck_col_name ck with
  | [] => ck_index_name ck
  | [c] => c
  | cols => concat ((fun c => c ++ str "|") <$> foldl (fun s c => set_insert str_before c s) [] cols)
  end.

(** The loop that merges column keys; [name_pos_map] numbers the names *)
Fixpoint merge_keys (t : TableIndex) (idx : nat) (keys : list ColumnKey) (name_pos_map : gmap bytes nat) (pos_index_vec : list (list nat))
    : option (TableIndex * list (list nat)) :=
  match keys with
  | [] => Some (t, pos_index_vec)
  | ck :: rest =>
      let name := combine_col_name ck in
      let '(pos, name_pos_map, pos_index_vec) :=
        match name_pos_map !! name with
        | Some pos => (pos, name_pos_map, pos_index_vec)
        | None => (length pos_index_vec, <[name := length pos_index_vec]> name_pos_map, pos_index_vec ++ [[]])
        end in
      t ← store_inner_pos t idx (Z.of_nat pos);
      index ← GetIndex_name t (ck_index_name ck);
      p ← index;
      merge_keys t (S idx) rest name_pos_map (alter (fun v => v ++ [p]) pos pos_index_vec)
  end.

Definition FillIndexVal (t : TableIndex) (m : TableMeta) (ts_num : nat) : option TableIndex :=
  let t := set_inner_indexs [] t in
  if decide (tm_column_key m <> [] /\ (1 < ts_num)%nat) then
    match multi_ts_indexs_ t with
    | _ :: _ => fill_groups t 0 (multi_ts_indexs_ t) true
    | [] => '(t, groups) ← merge_keys t 0 (tm_column_key m) ∅ []; fill_groups t 0 groups false
    end
  else fill_groups t 0 ((fun p => [p]) <$> indexs_ t) true.

(** The timestamp columns named by the column keys *)
Definition ts_columns (keys : list ColumnKey) : list bytes := concat (ck_ts_name <$> keys).

(** The indexes of a description without column descriptions *)
Fixpoint parse_dimensions (m : TableMeta) (i : Z) (dims : list bytes) (t : TableIndex) : option (bool * TableIndex) :=
  match dims with
  | [] => Some (true, t)
  | name :: rest =>
      let '(p, t) := new_def t (SetTTL (meta_ttl m) (IndexDef_new name i kReady kTimeSerise [])) in
      '(ret, t) ← AddIndex t p;
      if decide (ret < 0) then Some (false, t) else parse_dimensions m (i + 1) rest t
  end.

(** The branch for a description with columns: [false] for -1 *)
Definition parse_described (t : TableIndex) (m : TableMeta) : option (bool * TableIndex * list (bytes * Z)) :=
  let keys := tm_column_key m in
  let set_ts_cnt := length (List.filter (fun ck => bool_decide (ck_ts_name ck <> [])) keys) in
  let has_multi_ts := existsb (fun ck => bool_decide (1 < length (ck_ts_name ck))%nat) keys in
  if decide ((0 < set_ts_cnt)%nat /\ set_ts_cnt <> length keys) then Some (false, t, [])
  else
    '(ok, s) ← parse_columns m (ts_columns keys) (tm_column_desc m) (MkParse t [] 0 0 ∅ ∅);
    if negb ok then Some (false, ps_index s, ps_ts_mapping s)
    else if decide (UINT8_MAX < ps_ts_idx s) then Some (false, ps_index s, ps_ts_mapping s)
    else
      match keys with
      | _ :: _ =>
          '(ok, t) ← parse_keys m s has_multi_ts 0 keys (ReSet (ps_index s));
          Some (ok, t, ps_ts_mapping s)
      | [] =>
          match ps_ts_mapping s with
          | [] => Some (true, ps_index s, [])
          | (name, _) :: _ =>
              t ← upd_defs (ps_index s) (indexs_ (ps_index s)) (SetTsColumn (ps_col_map s !! name));
              Some (true, t, ps_ts_mapping s)
          end
      end.

Definition ParseFromMeta (t : TableIndex) (m : TableMeta) : option (Z * TableIndex * list (bytes * Z)) :=
  let t := ReSet t in
  '(ok, t, ts_mapping) ←
    match tm_column_desc m with
    | _ :: _ => parse_described t m
    | [] => '(ok, t) ← parse_dimensions m 0 (tm_dimensions m) t; Some (ok, t, [])
    end;
  if negb ok then Some (-1, t, ts_mapping)
  else
    '(ret, t) ←
      match indexs_ t, multi_ts_indexs_ t with
      | [], [] => let '(p, t) := new_def t (SetTTL (meta_ttl m) (IndexDef_new (str "idx0") 0 kReady kTimeSerise [])) in AddIndex t p
      | _, _ => Some (0, t)
      end;
    if decide (ret < 0) then Some (-1, t, ts_mapping)
    else
      t ← FillIndexVal t m (length ts_mapping);
      match multi_ts_indexs_ t, indexs_ t with
      | vec :: _, _ => p ← head vec; Some (0, set_pk_index (Some p) t, ts_mapping)
      | [], p :: _ => Some (0, set_pk_index (Some p) t, ts_mapping)
      | [], [] => Some (-1, t, ts_mapping)
      end.
