(* ===== verification/Table.v ===== *)
(** The part of a table common to all storage engines: storage/table.{h,cc},
    the description, the indexes made from it and the pending TTL updates. *)
From Stdlib Require Import String.
From S2P Require Import Prelude Slice RowCodec Segment StdMap TableIndex TableParse.

Record UpdateTTLMeta : Type := MkUpdateTTLMeta { um_ttl : TTLSt; um_ts_idx : Z; um_index_name : bytes }.

Record Table : Type := MkTable {
  ts_mapping_ : list (bytes * Z);
  table_index_ : TableIndex;
  table_meta_ : TableMeta;
  is_leader_ : bool;
  version_schema_ : list (Z * list ColumnMeta);
  update_ttl_ : list UpdateTTLMeta
}.
Definition set_table_index x t := MkTable (ts_mapping_ t) x (table_meta_ t) (is_leader_ t) (version_schema_ t) (update_ttl_ t).
Definition set_table_meta x t := MkTable (ts_mapping_ t) (table_index_ t) x (is_leader_ t) (version_schema_ t) (update_ttl_ t).
Definition set_version_schema x t := MkTable (ts_mapping_ t) (table_index_ t) (table_meta_ t) (is_leader_ t) x (update_ttl_ t).
Definition set_update_ttl x t := MkTable (ts_mapping_ t) (table_index_ t) (table_meta_ t) (is_leader_ t) (version_schema_ t) x.

(** Changing the column keys of the description *)
Definition set_column_key ks m := MkTableMeta (tm_ttl m) (tm_ttl_type m) (tm_ttl_desc m) (tm_seg_cnt m) (tm_key_entry_max_height m)
  (tm_mode m) (tm_dimensions m) (tm_column_desc m) ks (tm_added_column_desc m) (tm_schema_versions m).

(** [Table(name, ..., ttl, is_leader, ..., mapping, ttl_type, ...)]: a
    description with one indexed string column per entry of [mapping]
    ([std::map<std::string, uint32_t>], in key order).  [ttl] in milliseconds
    is stored in minutes. *)
Definition Table_new (ttl : Z) (is_leader : bool) (mapping : list (bytes * Z)) (type : TTLType) : Table :=
  let desc :=
    match type with
    | kAbsoluteTime => MkTTLDesc type (ttl / (60 * 1000)) 0
    | _ => MkTTLDesc type 0 (ttl / (60 * 1000))
    end in
  let idx_map := foldl (fun m kv => emplace Z_before kv.2 kv.1 m) [] mapping in
  let cols := (fun kv => MkColumnMeta kv.2 (str "string") true false None None None None) <$> idx_map in
  MkTable [] TableIndex_new (MkTableMeta 0 kAbsoluteTime (Some desc) 0 None None [] cols [] [] []) is_leader [] [].

(** [AddVersionSchema]: version 1 has the original columns, a later version the
    first of the added ones as well. *)
Definition AddVersionSchema (t : Table) : Table :=
  let m := table_meta_ t in
  let base := tm_column_desc m in
  let added := tm_added_column_desc m in
  set_version_schema
    (foldl (fun versions ver =>
       let remain_size := s32 (ver.2 - Z.of_nat (length base)) in
       if decide (remain_size < 0) then versions
       else if decide (Z.of_nat (length added) < remain_size) then versions
       else emplace Z_before ver.1 (base ++ take (Z.to_nat remain_size) added) versions)
     [(1, base)] (tm_schema_versions m)) t.
Definition SetTableMeta (t : Table) (m : TableMeta) : Table := AddVersionSchema (set_table_meta m t).
Definition GetVersionSchema (t : Table) (ver : Z) : option (list ColumnMeta) := map_find ver (version_schema_ t).

(** [InitColumnDesc]: parse the description; when it has no column keys, one is
    added for every indexed column. *)
Definition InitColumnDesc (t : Table) : option (Z * Table) :=
  '(ret, index, ts_mapping) ← ParseFromMeta (table_index_ t) (table_meta_ t);
  let t := MkTable ts_mapping index (table_meta_ t) (is_leader_ t) (version_schema_ t) (update_ttl_ t) in
  if decide (ret < 0) then Some (-1, t)
  else
    let m := table_meta_ t in
    let m :=
      match tm_column_key m with
      | [] =>
          let ts_name := match ts_mapping with (n, _) :: _ => [n] | [] => [] end in
          set_column_key ((fun c => MkColumnKey (cm_name c) [cm_name c] ts_name 0 None) <$>
                            List.filter cm_add_ts_idx (tm_column_desc m)) m
      | _ => m
      end in
    Some (0, AddVersionSchema (set_table_meta m t)).

Definition InitFromMeta (t : Table) : option (bool * Table) :=
  let t :=
    match tm_mode (table_meta_ t) with
    | Some kTableFollower => MkTable (ts_mapping_ t) (table_index_ t) (table_meta_ t) false (version_schema_ t) (update_ttl_ t)
    | _ => t
    end in
  '(ret, t) ← InitColumnDesc t;
  Some (if decide (ret < 0) then (false, t) else (true, t)).

(** ** TTL updates: queued by [SetTTL], applied by [UpdateTTL] after a
    collection *)
Definition Table_SetTTL (t : Table) (ttl_meta : UpdateTTLMeta) : Table := set_update_ttl (update_ttl_ t ++ [ttl_meta]) t.

Definition ttl_applies (u : UpdateTTLMeta) (d : IndexDef) : bool :=
  if decide (um_index_name u <> []) then bool_decide (name_ d = um_index_name u)
  else if decide (0 <= um_ts_idx u) then
    match ts_column_ d with Some c => bool_decide (cd_ts_idx c = um_ts_idx u) | None => false end
  else true.
Fixpoint apply_ttls (t : TableIndex) (ps : list nat) (us : list UpdateTTLMeta) : option TableIndex :=
  match us with
  | [] => Some t
  | u :: us' =>
      t ← upd_defs t ps (fun d => if ttl_applies u d then TableIndex.SetTTL (um_ttl u) d else d);
      apply_ttls t ps us'
  end.
Definition UpdateTTL (t : Table) : option Table :=
  match update_ttl_ t with
  | [] => Some t
  | us => i ← apply_ttls (table_index_ t) (GetAllIndex (table_index_ t)) us; Some (set_update_ttl [] (set_table_index i t))
  end.

(** [GetTTL()]: the TTL of the first index *)
Definition Table_GetTTL (t : Table) : option TTLSt :=
  match GetIndex (table_index_ t) 0 with
  | Some p => d ← def_at (table_index_ t) p; ttl_st_ d
  | None => Some (TTLSt_of (default (MkTTLDesc kAbsoluteTime 0 0) (tm_ttl_desc (table_meta_ t))))
  end.

Definition CheckFieldExist (t : Table) (name : bytes) : bool :=
  existsb (fun c => bool_decide (cm_name c = name)) (tm_column_desc (table_meta_ t) ++ tm_added_column_desc (table_meta_ t)).
