(* ===== verification/MemTable.v ===== *)
(** The memory table: class [MemTable] of storage/mem_table.{h,cc}.

    A table keeps, for every inner index, [seg_cnt_] segments over which keys
    are spread by hash.  A row is one data block shared by the segments of all
    its indexes and counts them down as they drop it.  Segments and blocks are
    part of the table's state; a ticket of a reader names an entry by inner
    index, segment and address.  The clock is an argument of the operations
    that read it. *)
From Stdlib Require Import String.
From S2P Require Import Prelude Slice Skiplist Segment SegmentGc SegmentRelease StdMap Hash TableIndex TableParse Table.

(** Command line flags *)
Class TableFlags := {
  FLAGS_key_entry_max_height : Z;
  FLAGS_absolute_default_skiplist_height : Z;
  FLAGS_latest_default_skiplist_height : Z;
  FLAGS_max_traverse_cnt : Z
}.

Definition SEED : Z := 0xe17a1465.

Record MemTable : Type := MkMemTable {
  mt_table : Table;
  seg_cnt_ : Z;
  segments_ : list (option (list Segment));
  mt_blocks : blocks;
  enable_gc_ : bool;
  record_cnt_ : Z;
  segment_released_ : bool;
  record_byte_size_ : Z;
  mt_key_entry_max_height_ : Z
}.
Abbreviation mt_index m := (table_index_ (mt_table m)).
Definition set_mt_table t m := MkMemTable t (seg_cnt_ m) (segments_ m) (mt_blocks m) (enable_gc_ m) (record_cnt_ m)
  (segment_released_ m) (record_byte_size_ m) (mt_key_entry_max_height_ m).
Definition set_segments x m := MkMemTable (mt_table m) (seg_cnt_ m) x (mt_blocks m) (enable_gc_ m) (record_cnt_ m)
  (segment_released_ m) (record_byte_size_ m) (mt_key_entry_max_height_ m).
Definition set_mt_blocks bs m := MkMemTable (mt_table m) (seg_cnt_ m) (segments_ m) bs (enable_gc_ m) (record_cnt_ m)
  (segment_released_ m) (record_byte_size_ m) (mt_key_entry_max_height_ m).
Definition set_records cnt byte_size m := MkMemTable (mt_table m) (seg_cnt_ m) (segments_ m) (mt_blocks m) (enable_gc_ m) cnt
  (segment_released_ m) byte_size (mt_key_entry_max_height_ m).
Definition set_index i m := set_mt_table (set_table_index i (mt_table m)) m.
(** [SetExpire] *)
Definition SetExpire (is_expire : bool) (m : MemTable) := MkMemTable (mt_table m) (seg_cnt_ m) (segments_ m) (mt_blocks m) is_expire
  (record_cnt_ m) (segment_released_ m) (record_byte_size_ m) (mt_key_entry_max_height_ m).

(** [segments_[i][j]] *)
Definition seg_at (m : MemTable) (i j : nat) : option Segment := arr ← mjoin (segments_ m !! i); arr !! j.
Definition set_seg (m : MemTable) (i j : nat) (s : Segment) : MemTable :=
  set_segments (alter (fmap (alter (fun _ => s) j)) i (segments_ m)) m.

(** The segment of a key: [hash(...) % seg_cnt_] *)
Definition seg_of (seg_cnt : Z) (key : bytes) : nat := if decide (1 < seg_cnt) then Z.to_nat (hash key SEED mod seg_cnt) else 0%nat.
Definition seg_idx_of (m : MemTable) (key : bytes) : nat := seg_of (seg_cnt_ m) key.

Section mem_table.
Context `{Layout} `{TableFlags}.

(** ** Construction *)
Definition MemTable_new (seg_cnt : Z) (mapping : list (bytes * Z)) (ttl : Z) (type : TTLType) : MemTable :=
  MkMemTable (Table_new (u64 (ttl * 60 * 1000)) true mapping type) seg_cnt (replicate MAX_INDEX_NUM None) ∅ true 0 false 0 0.
Definition MemTable_of (m : TableMeta) : MemTable :=
  MkMemTable (set_table_meta m (Table_new 0 true [] kAbsoluteTime)) 8 (replicate MAX_INDEX_NUM None) ∅ true 0 false 0 0.

(** [InnerIndexSt::GetKeyEntryMaxHeight] *)
Fixpoint any_abs (t : TableIndex) (ps : list nat) : option bool :=
  match ps with
  | [] => Some false
  | p :: ps' =>
      d ← def_at t p;
      ty ← GetTTLType d;
      if decide (ty = kAbsoluteTime \/ ty = kAbsAndLat) then Some true else any_abs t ps'
  end.
Definition GetKeyEntryMaxHeight (t : TableIndex) (i : InnerIndexSt) (abs_max_height lat_max_height : Z) : option Z :=
  b ← any_abs t (ii_index i); Some (if (b : bool) then abs_max_height else lat_max_height).

(** [new Segment(height, ts_vec)] or [new Segment(height)] *)
Definition new_segment (height : Z) (ts_vec : list Z) : Segment :=
  match ts_vec with [] => Segment_height (u8 height) | _ => Segment_ts (u8 height) ts_vec end.

(** [segments_[i] = seg_arr] *)
Definition store_segments (m : MemTable) (i : nat) (arr : list Segment) : option MemTable :=
  _ ← require (bool_decide (i < length (segments_ m))%nat);
  Some (set_segments (<[i := Some arr]> (segments_ m)) m).

Fixpoint init_segments (m : MemTable) (global_height : Z) (i : nat) (inner : list InnerIndexSt) : option MemTable :=
  match inner with
  | [] => Some m
  | x :: rest =>
      height ← if decide (0 < global_height) then Some global_height
               else GetKeyEntryMaxHeight (mt_index m) x FLAGS_absolute_default_skiplist_height FLAGS_latest_default_skiplist_height;
      m ← store_segments m i (replicate (Z.to_nat (seg_cnt_ m)) (new_segment height (ii_ts x)));
      init_segments (MkMemTable (mt_table m) (seg_cnt_ m) (segments_ m) (mt_blocks m) (enable_gc_ m) (record_cnt_ m)
        (segment_released_ m) (record_byte_size_ m) height) global_height (S i) rest
  end.
Definition MemTable_Init (m : MemTable) : option (bool * MemTable) :=
  '(ok, t) ← InitFromMeta (mt_table m);
  let meta := table_meta_ t in
  let m := MkMemTable t (seg_cnt_ m) (segments_ m) (mt_blocks m) (enable_gc_ m) (record_cnt_ m)
             (segment_released_ m) (record_byte_size_ m) FLAGS_key_entry_max_height in
  if negb ok then Some (false, m)
  else
    let m := if decide (0 < tm_seg_cnt meta)
             then MkMemTable t (tm_seg_cnt meta) (segments_ m) (mt_blocks m) (enable_gc_ m) (record_cnt_ m)
                    (segment_released_ m) (record_byte_size_ m) (mt_key_entry_max_height_ m)
             else m in
    let global_height :=
      match tm_key_entry_max_height meta with
      | Some h => if decide (h <= FLAGS_skiplist_max_height /\ 0 < h) then h else 0
      | None => 0
      end in
    m ← init_segments m global_height 0 (inner_indexs_ (mt_index m));
    Some (true, m).

(** ** Insertion *)

(** [record_cnt_.fetch_add(1); record_byte_size_.fetch_add(GetRecordSize(size))] *)
Definition count_record (size : Z) (m : MemTable) : MemTable :=
  set_records (u64 (record_cnt_ m + 1)) (u64 (record_byte_size_ m + GetRecordSize (u32 size))) m.

(** [Put(pk, time, data, size)] *)
Definition MemTable_Put (m : MemTable) (pk : bytes) (time : Z) (data : bytes) : option (bool * MemTable) :=
  match segments_ m with
  | [] => Some (false, m)
  | _ =>
      let index := seg_idx_of m pk in
      s ← seg_at m 0 index;
      '(s, bs) ← Segment.Put s (mt_blocks m) pk time data;
      Some (true, count_record (Z.of_nat (length data)) (set_mt_blocks bs (set_seg m 0 index s)))
  end.

(** [inner_index_key_map] from [dimensions], a list of indexes and keys:
    nothing when one of them names no index *)
Fixpoint inner_keys (t : TableIndex) (dimensions : list (Z * bytes)) (km : list (Z * bytes)) : option (list (Z * bytes)) :=
  match dimensions with
  | [] => Some km
  | (idx, key) :: rest =>
      let inner_pos := GetInnerIndexPos t idx in
      if decide (inner_pos < 0) then None else inner_keys t rest (emplace Z_before inner_pos key km)
  end.

(** The indexes of one inner index that a row counts for: [None] when the row
    must be refused.  A row without timestamps ([ts_dims] absent) is refused by
    an index with a timestamp column; with them, an index counts if its column
    is among them. *)
Definition has_ts (ts_dims : list (Z * Z)) (c : ColumnDef) : bool :=
  existsb (fun d => bool_decide (s32 d.1 = cd_ts_idx c)) ts_dims.
Fixpoint count_ready (t : TableIndex) (ts_dims : option (list (Z * Z))) (ps : list nat) (cnt : Z) : option (option Z) :=
  match ps with
  | [] => Some (Some cnt)
  | p :: ps' =>
      d ← def_at t p;
      match ts_column_ d, ts_dims with
      | Some _, None => Some None
      | Some c, Some dims =>
          count_ready t ts_dims ps' (if has_ts dims c && IsReady d then u32 (cnt + 1) else cnt)
      | None, _ => count_ready t ts_dims ps' (if IsReady d then u32 (cnt + 1) else cnt)
      end
  end.
Fixpoint real_ref_cnt (t : TableIndex) (ts_dims : option (list (Z * Z))) (km : list (Z * bytes)) (cnt : Z) : option (option Z) :=
  match km with
  | [] => Some (Some cnt)
  | (pos, _) :: rest =>
      match GetInnerIndex t pos with
      | None => Some None
      | Some i =>
          r ← count_ready t ts_dims (ii_index i) cnt;
          match r with None => Some None | Some cnt => real_ref_cnt t ts_dims rest cnt end
      end
  end.

(** [need_put] *)
Fixpoint any_ready (t : TableIndex) (ps : list nat) : option bool :=
  match ps with
  | [] => Some false
  | p :: ps' => d ← def_at t p; if IsReady d then Some true else any_ready t ps'
  end.

(** The loop that puts the block into the segment of every key *)
Fixpoint put_keys_loop (m : MemTable) (km : list (Z * bytes)) (put : Segment -> bytes -> option Segment) : option MemTable :=
  match km with
  | [] => Some m
  | (pos, key) :: rest =>
      i ← GetInnerIndex (mt_index m) pos;
      need_put ← any_ready (mt_index m) (ii_index i);
      m ← (if (need_put : bool) then
             let j := seg_idx_of m key in
             s ← seg_at m (Z.to_nat pos) j;
             s ← put s key;
             Some (set_seg m (Z.to_nat pos) j s)
           else Some m);
      put_keys_loop m rest put
  end.

(** The body shared by the two forms of [Put] with dimensions *)
Definition put_row (m : MemTable) (dimensions : list (Z * bytes)) (ts_dims : option (list (Z * Z))) (value : bytes)
    (put : nat -> Segment -> bytes -> option Segment) : option (bool * MemTable) :=
  match inner_keys (mt_index m) dimensions [] with
  | None => Some (false, m)
  | Some km =>
      r ← real_ref_cnt (mt_index m) ts_dims km 0;
      match r with
      | None => Some (false, m)
      | Some cnt =>
          let '(block, bs) := new_block (mt_blocks m) cnt value in
          m ← put_keys_loop (set_mt_blocks bs m) km (put block);
          Some (true, count_record (Z.of_nat (length value)) m)
      end
  end.

(** [Put(time, value, dimensions)] *)
Definition MemTable_Put_dims (m : MemTable) (time : Z) (value : bytes) (dimensions : list (Z * bytes)) : option (bool * MemTable) :=
  put_row m dimensions None value (fun block s key => Put_row s key time block).

(** [Put(dimensions, ts_dimemsions, value)] *)
Definition MemTable_Put_ts (m : MemTable) (dimensions : list (Z * bytes)) (ts_dims : list (Z * Z)) (value : bytes)
    : option (bool * MemTable) :=
  match dimensions, ts_dims with
  | [], _ | _, [] => Some (false, m)
  | _, _ => put_row m dimensions (Some ts_dims) value (fun block s key => Put_dims s key ts_dims block)
  end.

(** [GetIndex(idx)] with the test [!index_def || !index_def->IsReady()] *)
Definition ready_index (m : MemTable) (r : option nat) : option (option IndexDef) :=
  match r with
  | None => Some None
  | Some p => d ← def_at (mt_index m) p; Some (if IsReady d then Some d else None)
  end.

(** [Put(pk, time, row, idx)] *)
Definition MemTable_Put_block (m : MemTable) (pk : bytes) (time : Z) (row : nat) (idx : Z) : option (bool * MemTable) :=
  r ← ready_index m (GetIndex (mt_index m) idx);
  match r with
  | None => Some (false, m)
  | Some d =>
      let i := Z.to_nat (inner_pos_ d) in
      let j := seg_idx_of m pk in
      s ← seg_at m i j;
      s ← Put_row s pk time row;
      Some (true, set_seg m i j s)
  end.

(** A log entry (proto/tablet.proto) and [Table::Put(entry)] *)
Inductive MethodType : Type := kPut | kDelete.
Record LogEntry : Type := MkLogEntry {
  le_term : option Z; le_log_index : Z; le_pk : bytes; le_value : bytes; le_ts : Z; le_dimensions : list (Z * bytes);
  le_method_type : option MethodType; le_ts_dimensions : list (Z * Z)
}.
Definition Put_entry (m : MemTable) (e : LogEntry) : option (bool * MemTable) :=
  match le_dimensions e with
  | _ :: _ =>
      match le_ts_dimensions e with
      | _ :: _ => MemTable_Put_ts m (le_dimensions e) (le_ts_dimensions e) (le_value e)
      | [] => MemTable_Put_dims m (le_ts e) (le_value e) (le_dimensions e)
      end
  | [] => MemTable_Put m (le_pk e) (le_ts e) (le_value e)
  end.

(** ** Deletion *)
Definition MemTable_Delete (m : MemTable) (pk : bytes) (idx : Z) : option (bool * MemTable) :=
  r ← ready_index m (GetIndex (mt_index m) idx);
  match r with
  | None => Some (false, m)
  | Some d =>
      let i := Z.to_nat (inner_pos_ d) in
      let j := seg_idx_of m pk in
      s ← seg_at m i j;
      '(ok, s) ← Segment.Delete s pk;
      Some (ok, set_seg m i j s)
  end.

(** [Release] *)
Fixpoint release_arr (arr : list Segment) (total_cnt : Z) (bs : blocks) : option (Z * blocks) :=
  match arr with
  | [] => Some (total_cnt, bs)
  | s :: arr' => '(cnt, _, bs) ← Release s bs; release_arr arr' (u64 (total_cnt + cnt)) bs
  end.
Fixpoint release_all (segs : list (option (list Segment))) (total_cnt : Z) (bs : blocks) : option (Z * blocks) :=
  match segs with
  | [] => Some (total_cnt, bs)
  | None :: rest => release_all rest total_cnt bs
  | Some arr :: rest => '(total_cnt, bs) ← release_arr arr total_cnt bs; release_all rest total_cnt bs
  end.
Definition MemTable_Release (m : MemTable) : option (Z * MemTable) :=
  if segment_released_ m then Some (0, m)
  else
    match segments_ m with
    | [] => Some (0, m)
    | segs =>
        '(total_cnt, bs) ← release_all segs 0 (mt_blocks m);
        Some (total_cnt, MkMemTable (mt_table m) (seg_cnt_ m) [] bs (enable_gc_ m) (record_cnt_ m) true (record_byte_size_ m)
                           (mt_key_entry_max_height_ m))
    end.
End mem_table.
