(* ===== verification/MemTableGc.v ===== *)
(** The rest of class [MemTable] (storage/mem_table.cc): collection, expiry
    tests, counters, readers, and adding and deleting indexes. *)
From Stdlib Require Import String.
From S2P Require Import Prelude Slice Skiplist Segment SegmentGc SegmentRelease StdMap Hash TableIndex TableParse Table MemTable.

(** The entries a table's ticket holds: inner index, segment, address *)
Abbreviation TableTicket := (list (nat * nat * nat)).
(** A [MemTableIterator] and the segment it walks in, or NULL *)
Abbreviation TableIt := (nat * nat * MemTableIterator)%type.

Section mem_table_gc.
Context `{Layout} `{TableFlags}.

(** ** [SchedGc] *)

(** [for k < seg_cnt_: segments_[i][k]->ReleaseAndCount(...)] *)
Fixpoint release_count_arr (arr : list Segment) (bs : blocks) (st : GcStat) : option (list Segment * blocks * GcStat) :=
  match arr with
  | [] => Some ([], bs, st)
  | s :: arr' =>
      '(s, bs, st) ← ReleaseAndCount s bs st;
      '(arr', bs, st) ← release_count_arr arr' bs st;
      Some (s :: arr', bs, st)
  end.

(** The entry of [ttl_st_map] for an index *)
Definition ttl_key (d : IndexDef) : Z := match ts_column_ d with Some c => u32 (cd_ts_idx c) | None => 0 end.

(** The loop over the indexes of the inner index [i]: the TTLs by timestamp
    column, [need_gc] and [deleted_num]; the statuses advance. *)
Fixpoint sched_status (m : MemTable) (i : nat) (size : nat) (ps : list nat) (ttl_st_map : list (Z * TTLSt)) (need_gc : bool)
    (deleted_num : nat) (st : GcStat) : option (MemTable * list (Z * TTLSt) * bool * nat * GcStat) :=
  match ps with
  | [] => Some (m, ttl_st_map, need_gc, deleted_num, st)
  | p :: ps' =>
      d ← def_at (mt_index m) p;
      ttl ← ttl_st_ d;
      let ttl_st_map := emplace Z_before (ttl_key d) ttl ttl_st_map in
      match status_ d with
      | kWaiting =>
          t ← upd_def (mt_index m) p (SetStatus kDeleting);
          sched_status (set_index t m) i size ps' ttl_st_map false deleted_num st
      | kDeleting =>
          '(m, deleted_num, st) ←
            (if decide (size = 1%nat) then
               arr ← segments_ m !! i;
               match arr with
               | None => Some (m, S deleted_num, st)
               | Some arr =>
                   '(arr, bs, st) ← release_count_arr arr (mt_blocks m) st;
                   Some (set_mt_blocks bs (set_segments (<[i := Some arr]> (segments_ m)) m), S deleted_num, st)
               end
             else Some (m, deleted_num, st));
          t ← upd_def (mt_index m) p (SetStatus kDeleted);
          sched_status (set_index t m) i size ps' ttl_st_map need_gc deleted_num st
      | kDeleted => sched_status m i size ps' ttl_st_map need_gc (S deleted_num) st
      | kReady => sched_status m i size ps' ttl_st_map need_gc deleted_num st
      end
  end.

(** One segment: [IncrGcVersion], [GcFreeList], [ExecuteGc] *)
Definition gc_segment (s : Segment) (get_micros : Z) (ttl_st_map : list (Z * TTLSt)) (bs : blocks) (st : GcStat)
    : option (Segment * blocks * GcStat) :=
  '(s, bs, st) ← GcFreeList (IncrGcVersion s) bs st;
  match ttl_st_map with
  | [(_, ttl)] => ExecuteGc s get_micros ttl bs st
  | _ => ExecuteGc_map s get_micros ttl_st_map bs st
  end.
Fixpoint gc_arr (arr : list Segment) (j : nat) (get_micros : nat -> Z) (ttl_st_map : list (Z * TTLSt)) (bs : blocks) (st : GcStat)
    : option (list Segment * blocks * GcStat) :=
  match arr with
  | [] => Some ([], bs, st)
  | s :: arr' =>
      '(s, bs, st) ← gc_segment s (get_micros j) ttl_st_map bs st;
      '(arr', bs, st) ← gc_arr arr' (S j) get_micros ttl_st_map bs st;
      Some (s :: arr', bs, st)
  end.

(** The loop over the inner indexes; [get_micros i j] is the clock read for
    segment [j] of inner index [i]. *)
Fixpoint sched_loop (m : MemTable) (get_micros : nat -> nat -> Z) (i : nat) (inner : list InnerIndexSt) (st : GcStat)
    : option (MemTable * GcStat) :=
  match inner with
  | [] => Some (m, st)
  | x :: rest =>
      let size := length (ii_index x) in
      '(m, ttl_st_map, need_gc, deleted_num, st) ← sched_status m i size (ii_index x) [] true 0 st;
      if negb (enable_gc_ m) || negb need_gc then sched_loop m get_micros (S i) rest st
      else if decide (deleted_num = size \/ ttl_st_map = []) then sched_loop m get_micros (S i) rest st
      else
        arr ← mjoin (segments_ m !! i);
        '(arr, bs, st) ← gc_arr arr 0 (get_micros i) ttl_st_map (mt_blocks m) st;
        sched_loop (set_mt_blocks bs (set_segments (<[i := Some arr]> (segments_ m)) m)) get_micros (S i) rest st
  end.

Definition SchedGc (m : MemTable) (get_micros : nat -> nat -> Z) : option MemTable :=
  '(m, st) ← sched_loop m get_micros 0 (inner_indexs_ (mt_index m)) (MkGcStat 0 0 0);
  let m := set_records (u64 (record_cnt_ m - gc_record_cnt st)) (u64 (record_byte_size_ m - gc_record_byte_size st)) m in
  t ← UpdateTTL (mt_table m);
  Some (set_mt_table t m).

(** ** Readers *)

Definition seg_iterator (m : MemTable) (i j : nat) (ticket : TableTicket)
    (open : Segment -> option (MemTableIterator * Segment * Ticket)) : option (option TableIt * MemTable * TableTicket) :=
  s ← seg_at m i j;
  '(it, s, held) ← open s;
  Some (Some (i, j, it), set_seg m i j s, ((fun p => (i, j, p)) <$> held) ++ ticket).

(** [NewIterator(index, ts_idx, pk, ticket)] *)
Definition MemTable_NewIterator_ts (m : MemTable) (index ts_idx : Z) (pk : bytes) (ticket : TableTicket)
    : option (option TableIt * MemTable * TableTicket) :=
  found ← GetIndex_ts (mt_index m) index ts_idx;
  r ← ready_index m found;
  match r with
  | None => Some (None, m, ticket)
  | Some d => seg_iterator m (Z.to_nat (inner_pos_ d)) (seg_idx_of m pk) ticket (fun s => NewIterator_idx s pk (u32 ts_idx) [])
  end.
(** [NewIterator(index, pk, ticket)] *)
Definition MemTable_NewIterator (m : MemTable) (index : Z) (pk : bytes) (ticket : TableTicket)
    : option (option TableIt * MemTable * TableTicket) :=
  r ← ready_index m (GetIndex (mt_index m) index);
  match r with
  | None => Some (None, m, ticket)
  | Some d =>
      match ts_column_ d with
      | Some c => MemTable_NewIterator_ts m index (cd_ts_idx c) pk ticket
      | None => seg_iterator m (Z.to_nat (inner_pos_ d)) (seg_idx_of m pk) ticket (fun s => NewIterator s pk [])
      end
  end.
(** [~Ticket] *)
Fixpoint TableTicket_destroy (m : MemTable) (t : TableTicket) : option MemTable :=
  match t with
  | [] => Some m
  | (i, j, p) :: t' =>
      m ← TableTicket_destroy m t';
      s ← seg_at m i j;
      s ← Ticket_destroy s [p];
      Some (set_seg m i j s)
  end.

(** ** Expiry *)
Definition GetExpireTime (m : MemTable) (get_micros : Z) (ttl_st : TTLSt) : Z :=
  if negb (enable_gc_ m) || bool_decide (abs_ttl ttl_st = 0) || bool_decide (ttl_type ttl_st = kLatestTime) then 0
  else u64 (get_micros / 1000 - abs_ttl ttl_st).
Definition CheckAbsolute (m : MemTable) (get_micros : Z) (ttl_st : TTLSt) (ts : Z) : bool :=
  negb (bool_decide (GetExpireTime m get_micros ttl_st <= ts)).
(** [CheckLatest]: the iterator must exist *)
Definition CheckLatest (m : MemTable) (index_id ts_idx : Z) (key : bytes) (ts : Z) : option (bool * MemTable) :=
  '(it, m, ticket) ← if decide (0 <= ts_idx) then MemTable_NewIterator_ts m index_id ts_idx key []
                     else MemTable_NewIterator m index_id key [];
  '(i, j, it) ← it;
  s ← seg_at m i j;
  it ← mt_SeekToLast s it;
  expired ← (if mt_Valid it then k ← mt_GetKey s it; Some (negb (bool_decide (k <= ts))) else Some true);
  m ← TableTicket_destroy m ticket;
  Some (expired, m).

(** [IsExpire]: the indexes of one inner index; [Some b] inside when the
    function returns [b] *)
Fixpoint expire_indexes (m : MemTable) (get_micros : Z) (e : LogEntry) (key : bytes) (ps : list nat)
    : option (option bool * MemTable) :=
  match ps with
  | [] => Some (None, m)
  | p :: ps' =>
      d ← def_at (mt_index m) p;
      if negb (IsReady d) then expire_indexes m get_micros e key ps'
      else
        ttl ← ttl_st_ d;
        if negb (NeedGc ttl) then Some (Some false, m)
        else
          let ts_idx := match ts_column_ d with Some c => cd_ts_idx c | None => -1 end in
          match (match ts_column_ d with
                 | None => Some (le_ts e)
                 | Some c => map_find (u32 (cd_ts_idx c)) (foldl (fun m d => emplace Z_before d.1 d.2 m) [] (le_ts_dimensions e))
                 end) with
          | None => expire_indexes m get_micros e key ps'
          | Some ts =>
              let index_id := index_id_ d in
              let absolute := CheckAbsolute m get_micros ttl ts in
              '(is_expire, m) ←
                match ttl_type ttl with
                | kLatestTime => CheckLatest m index_id ts_idx key ts
                | kAbsoluteTime => Some (absolute, m)
                | kAbsOrLat => if absolute then Some (true, m) else CheckLatest m index_id ts_idx key ts
                | kAbsAndLat => if absolute then CheckLatest m index_id ts_idx key ts else Some (false, m)
                | kRelativeTime => Some (true, m)
                end;
              if decide (ttl_type ttl = kRelativeTime) then Some (Some true, m)
              else if negb is_expire then Some (Some false, m)
              else expire_indexes m get_micros e key ps'
          end
  end.
Fixpoint expire_keys (m : MemTable) (get_micros : Z) (e : LogEntry) (km : list (Z * bytes)) : option (bool * MemTable) :=
  match km with
  | [] => Some (true, m)
  | (pos, key) :: rest =>
      match GetInnerIndex (mt_index m) pos with
      | None => expire_keys m get_micros e rest
      | Some i =>
          '(r, m) ← expire_indexes m get_micros e key (ii_index i);
          match r with Some b => Some (b, m) | None => expire_keys m get_micros e rest end
      end
  end.
Definition IsExpire (m : MemTable) (get_micros : Z) (e : LogEntry) : option (bool * MemTable) :=
  if negb (enable_gc_ m) then Some (false, m)
  else
    let dims := match le_dimensions e with [] => [(0, le_pk e)] | l => l end in
    let km := foldl (fun km d => let pos := GetInnerIndexPos (mt_index m) d.1 in
                                 if decide (0 <= pos) then emplace Z_before pos d.2 km else km) [] dims in
    expire_keys m get_micros e km.

(** ** Counters *)

(** [GetCount(index, pk, count)]: [None] inside for -1.  An index that does not
    exist is dereferenced. *)
Definition MemTable_GetCount (m : MemTable) (index : Z) (pk : bytes) : option (option Z) :=
  p ← GetIndex (mt_index m) index;
  d ← def_at (mt_index m) p;
  if negb (IsReady d) then Some None
  else
    s ← seg_at m (Z.to_nat (inner_pos_ d)) (seg_idx_of m pk);
    match ts_column_ d with
    | Some c => GetCount_idx s pk (u32 (cd_ts_idx c))
    | None => Segment.GetCount s pk
    end.
(** [GetCount(index, ts_idx, pk, count)] *)
Definition MemTable_GetCount_ts (m : MemTable) (index ts_idx : Z) (pk : bytes) : option (option Z) :=
  found ← GetIndex_ts (mt_index m) index ts_idx;
  r ← ready_index m found;
  match r with
  | None => Some None
  | Some d => s ← seg_at m (Z.to_nat (inner_pos_ d)) (seg_idx_of m pk); GetCount_idx s pk ts_idx
  end.

(** The sum of a counter over the segments of the inner indexes with a ready
    index *)
Fixpoint sum_segments (arr : list Segment) (f : Segment -> option Z) (acc : Z) : option Z :=
  match arr with [] => Some acc | s :: arr' => x ← f s; sum_segments arr' f (u64 (acc + x)) end.
Fixpoint sum_inner (m : MemTable) (f : Segment -> option Z) (i : nat) (inner : list InnerIndexSt) (acc : Z) : option Z :=
  match inner with
  | [] => Some acc
  | x :: rest =>
      is_valid ← any_ready (mt_index m) (ii_index x);
      acc ← (if (is_valid : bool) then arr ← mjoin (segments_ m !! i); sum_segments arr f acc else Some acc);
      sum_inner m f (S i) rest acc
  end.
Definition GetRecordIdxByteSize (m : MemTable) : option Z :=
  sum_inner m (fun s => Some (idx_byte_size_ s)) 0 (inner_indexs_ (mt_index m)) 0.
Definition GetRecordIdxCnt (m : MemTable) : option Z := sum_inner m GetIdxCnt 0 (inner_indexs_ (mt_index m)) 0.
Definition GetRecordPkCnt (m : MemTable) : option Z := sum_inner m (fun s => Some (pk_cnt_ s)) 0 (inner_indexs_ (mt_index m)) 0.
(** [GetRecordIdxCnt(idx, stat, size)]: the counter of each segment *)
Definition GetRecordIdxCnt_idx (m : MemTable) (idx : Z) : option (option (list Z)) :=
  r ← ready_index m (GetIndex (mt_index m) idx);
  match r with
  | None => Some None
  | Some d => arr ← mjoin (segments_ m !! Z.to_nat (inner_pos_ d)); l ← mapM GetIdxCnt arr; Some (Some l)
  end.

(** ** Adding and deleting indexes *)

(** The numbers of the timestamp columns, without repetition *)
Fixpoint find_ts (ts_mapping : list (bytes * Z)) (names : list bytes) (ts_vec : list Z) : option (list Z) :=
  match names with
  | [] => Some ts_vec
  | n :: rest => ts ← map_find n ts_mapping; if decide (ts ∈ ts_vec) then None else find_ts ts_mapping rest (ts_vec ++ [ts])
  end.

(** The TTL of the first index on the timestamp column *)
Definition ts_name_is (name : bytes) (d : IndexDef) : bool :=
  match ts_column_ d with Some c => bool_decide (cd_name c = name) | None => false end.

(** [table_meta_.add_column_key()->CopyFrom(column_key)] *)
Definition add_meta_key (ck : ColumnKey) (m : MemTable) : MemTable :=
  let meta := table_meta_ (mt_table m) in
  set_mt_table (set_table_meta (set_column_key (tm_column_key meta ++ [ck]) meta) (mt_table m)) m.
(** [table_meta_.mutable_column_key(id)], which must exist *)
Definition alter_meta_key (f : ColumnKey -> ColumnKey) (id : Z) (m : MemTable) : option MemTable :=
  let meta := table_meta_ (mt_table m) in
  ck ← tm_column_key meta !! Z.to_nat id;
  Some (set_mt_table (set_table_meta (set_column_key (<[Z.to_nat id := f ck]> (tm_column_key meta)) meta) (mt_table m)) m).

(** The last part of [AddIndex]: the TTL, the inner index and the status *)
Definition finish_index (m : MemTable) (ck : ColumnKey) (p : nat) (inner_id : nat) : option (bool * MemTable) :=
  let finish t :=
    t ← upd_def t p (SetInnerPos (Z.of_nat inner_id));
    i ← InnerIndexSt_new t (Z.of_nat inner_id) [p];
    let t := SetInnerIndexPos (AddInnerIndex t i) (u32 (Z.of_nat (length (tm_column_key (table_meta_ (mt_table m)))) - 1)) (Z.of_nat inner_id) in
    t ← upd_def t p (SetStatus kReady);
    Some (true, set_index t m) in
  match ck_ts_name ck with
  | name :: _ =>
      ts ← map_find name (ts_mapping_ (mt_table m));
      t ← upd_def (mt_index m) p (SetTsColumn (Some (MkColumnDef name 0 RowCodec.kTimestamp ts)));
      found ← find_def t (ts_name_is name) (GetAllIndex t);
      match found with
      | None => Some (false, set_index t m)
      | Some q =>
          (* the first match may be the new index itself, whose TTL is not set *)
          dq ← def_at t q;
          ttl ← ttl_st_ dq;
          t ← upd_def t p (TableIndex.SetTTL ttl);
          finish t
      end
  | [] => t ← upd_def (mt_index m) p (TableIndex.SetTTL (meta_ttl (table_meta_ (mt_table m)))); finish t
  end.

Definition MemTable_AddIndex (m : MemTable) (ck : ColumnKey) : option (bool * MemTable) :=
  found ← GetIndex_name (mt_index m) (ck_index_name ck);
  match found with
  | Some p =>
      d ← def_at (mt_index m) p;
      if decide (status_ d <> kDeleted) then Some (false, m)
      else
        m ← alter_meta_key (fun _ => ck) (index_id_ d) m;
        t ← upd_def (mt_index m) p (SetStatus kReady);
        Some (true, set_index t m)
  | None =>
      let m := add_meta_key ck m in
      match find_ts (ts_mapping_ (mt_table m)) (ck_ts_name ck) [] with
      | None => Some (false, m)
      | Some ts_vec =>
          let inner_id := length (inner_indexs_ (mt_index m)) in
          let arr := replicate (Z.to_nat (seg_cnt_ m)) (new_segment FLAGS_absolute_default_skiplist_height ts_vec) in
          max_id ← GetMaxIndexId (mt_index m);
          let '(p, t) := new_def (mt_index m) (IndexDef_new (ck_index_name ck) (u32 (max_id + 1)) kReady kTimeSerise []) in
          '(ret, t) ← AddIndex t p;
          if decide (ret < 0) then Some (false, set_index t m)
          else
            m ← store_segments (set_index t m) inner_id arr;
            finish_index m ck p inner_id
      end
  end.

Definition MemTable_DeleteIndex (m : MemTable) (idx_name : bytes) : option (bool * MemTable) :=
  found ← GetIndex_name (mt_index m) idx_name;
  match found with
  | None => Some (false, m)
  | Some p =>
      d ← def_at (mt_index m) p;
      if decide (index_id_ d = 0) then Some (false, m)
      else if negb (IsReady d) then Some (false, m)
      else
        let keys := tm_column_key (table_meta_ (mt_table m)) in
        m ← (if decide (index_id_ d < u32 (Z.of_nat (length keys)))
             then alter_meta_key (fun ck => MkColumnKey (ck_index_name ck) (ck_col_name ck) (ck_ts_name ck) 1 (ck_ttl ck)) (index_id_ d) m
             else Some m);
        t ← upd_def (mt_index m) p (SetStatus kWaiting);
        Some (true, set_index t m)
  end.
End mem_table_gc.
