(* ===== verification/MemTableIter.v ===== *)
(** The iterators of a memory table (storage/mem_table.{h,cc}):
    [MemTableWindowIterator] over the rows of one key, [MemTableKeyIterator]
    over the keys of an index, and [MemTableTraverseIterator] over all its
    rows. *)
From S2P Require Import Prelude Slice Skiplist Segment SegmentGc SegmentRelease StdMap Hash TableIndex TableParse Table MemTable MemTableGc.

(** ** [MemTableWindowIterator]: an iterator of the row list [l] *)
Record WindowIt : Type := MkWindowIt { wi_it : option nat; wi_record_idx : Z; wi_expire_value : TTLSt }.
Definition WindowIt_new (it : option nat) (type : TTLType) (expire_time expire_cnt : Z) : WindowIt :=
  MkWindowIt it 0 (MkTTLSt expire_time expire_cnt type).
Definition wi_Valid (l : TimeEntries) (w : WindowIt) : option bool :=
  if it_Valid (wi_it w) then
    key ← it_GetKey l (wi_it w);
    Some (negb (IsExpired (wi_expire_value w) key (wi_record_idx w)))
  else Some false.
Definition wi_Next (l : TimeEntries) (w : WindowIt) : option WindowIt :=
  it ← it_Next l (wi_it w); Some (MkWindowIt it (u32 (wi_record_idx w + 1)) (wi_expire_value w)).
Definition wi_GetKey (l : TimeEntries) (w : WindowIt) : option Z := it_GetKey l (wi_it w).
Definition wi_GetValue (l : TimeEntries) (bs : blocks) (w : WindowIt) : option bytes :=
  v ← it_GetValue l (wi_it w); b ← v; blk ← bs !! b; Some (data blk).
Definition wi_Seek (l : TimeEntries) (w : WindowIt) (key : Z) : option WindowIt :=
  it ← it_Seek l key; Some (MkWindowIt it (wi_record_idx w) (wi_expire_value w)).
Definition wi_SeekToFirst (l : TimeEntries) (w : WindowIt) : option WindowIt :=
  it ← it_SeekToFirst l; Some (MkWindowIt it (wi_record_idx w) (wi_expire_value w)).

(** ** Tickets of the table's iterators *)
Definition ticket_push (m : MemTable) (t : TableTicket) (i j p : nat) : option (MemTable * TableTicket) :=
  s ← seg_at m i j;
  '(s, _) ← Ticket_Push s [] p;
  Some (set_seg m i j s, (i, j, p) :: t).
Definition ticket_pop (m : MemTable) (t : TableTicket) : option (MemTable * TableTicket) :=
  match t with
  | [] => Some (m, [])
  | (i, j, p) :: t' => s ← seg_at m i j; '(s, _) ← Ticket_Pop s [p]; Some (set_seg m i j s, t')
  end.

(** The [KeyEntry] under the key iterator: the array element [pos] when the
    segment has several timestamp columns *)
Definition pk_entry (s : Segment) (pk : option nat) (pos : nat) : option nat :=
  v ← it_GetValue (sg_entries s) pk;
  if decide (1 < ts_cnt_ s) then entry_at v pos else as_entry v.

(** The first segment from [j] on with a key: its number and the iterator on its
    first key; NULL after the last *)
Fixpoint first_pk (segs : list Segment) (j : nat) : option (nat * option (option nat)) :=
  match segs with
  | [] => Some (j, None)
  | s :: rest =>
      pk ← it_SeekToFirst (sg_entries s);
      if it_Valid pk then Some (j, Some pk) else first_pk rest (S j)
  end.

(** The segments of the inner index [i] *)
Definition seg_arr (m : MemTable) (i : nat) : option (list Segment) := mjoin (segments_ m !! i).

(** ** [MemTableKeyIterator] *)
Record KeyIt : Type := MkKeyIt {
  ki_inner : nat;
  ki_seg_idx : nat;
  ki_pk_it : option (option nat);
  ki_ttl_type : TTLType;
  ki_expire_time : Z;
  ki_expire_cnt : Z;
  ki_ticket : TableTicket;
  ki_ts_idx : nat
}.
Definition set_ki_pos (j : nat) (pk : option (option nat)) (t : TableTicket) (k : KeyIt) : KeyIt :=
  MkKeyIt (ki_inner k) j pk (ki_ttl_type k) (ki_expire_time k) (ki_expire_cnt k) t (ki_ts_idx k).

(** [ts_idx_]: the position of the timestamp column in the segments, or 0 *)
Definition ts_pos (m : MemTable) (i : nat) (ts_index : Z) : option nat := s ← seg_at m i 0; Some (default 0%nat (GetTsIdx s ts_index)).
Definition KeyIt_new (m : MemTable) (i : nat) (type : TTLType) (expire_time expire_cnt ts_index : Z) : option KeyIt :=
  pos ← ts_pos m i ts_index; Some (MkKeyIt i 0 None type expire_time expire_cnt [] pos).

Definition ki_SeekToFirst (m : MemTable) (k : KeyIt) : option (MemTable * KeyIt) :=
  '(m, t) ← ticket_pop m (ki_ticket k);
  segs ← seg_arr m (ki_inner k);
  '(j, pk) ← first_pk segs 0;
  Some (m, set_ki_pos j pk t k).

(** [NextPK]; one round pops the ticket once *)
Fixpoint ki_NextPK (fuel : nat) (m : MemTable) (k : KeyIt) : option (MemTable * KeyIt) :=
  match fuel with
  | O => None
  | S fuel' =>
      '(m, t) ← ticket_pop m (ki_ticket k);
      pk ← ki_pk_it k;
      segs ← seg_arr m (ki_inner k);
      s ← segs !! ki_seg_idx k;
      pk ← if it_Valid pk then it_Next (sg_entries s) pk else Some pk;
      if it_Valid pk then Some (m, set_ki_pos (ki_seg_idx k) (Some pk) t k)
      else
        let j := S (ki_seg_idx k) in
        match segs !! j with
        | None => Some (m, set_ki_pos j None t k)
        | Some s =>
            pk ← it_SeekToFirst (sg_entries s);
            if it_Valid pk then Some (m, set_ki_pos j (Some pk) t k)
            else ki_NextPK fuel' m (set_ki_pos j (Some pk) t k)
        end
  end.
Definition ki_fuel (m : MemTable) : nat := S (Z.to_nat (seg_cnt_ m)).
Definition ki_Next (m : MemTable) (k : KeyIt) : option (MemTable * KeyIt) := ki_NextPK (ki_fuel m) m k.

(** [Seek]: with one segment, [seg_idx_] is left as it is *)
Definition ki_Seek (m : MemTable) (k : KeyIt) (key : bytes) : option (MemTable * KeyIt) :=
  '(m, t) ← ticket_pop m (ki_ticket k);
  let j := if decide (1 < seg_cnt_ m) then seg_idx_of m key else ki_seg_idx k in
  s ← seg_at m (ki_inner k) j;
  pk ← it_Seek (sg_entries s) key;
  let k := set_ki_pos j (Some pk) t k in
  if it_Valid pk then Some (m, k) else ki_NextPK (ki_fuel m) m k.
Definition ki_Valid (k : KeyIt) : bool := match ki_pk_it k with None => false | Some pk => it_Valid pk end.
Definition ki_GetKey (m : MemTable) (k : KeyIt) : option bytes :=
  pk ← ki_pk_it k; s ← seg_at m (ki_inner k) (ki_seg_idx k); it_GetKey (sg_entries s) pk.
(** [GetValue] and [GetRawValue]: the entry under the iterator and a window
    iterator on its first row *)
Definition ki_GetValue (m : MemTable) (k : KeyIt) : option (nat * WindowIt * MemTable * KeyIt) :=
  pk ← ki_pk_it k;
  s ← seg_at m (ki_inner k) (ki_seg_idx k);
  p ← pk_entry s pk (ki_ts_idx k);
  '(m, t) ← ticket_push m (ki_ticket k) (ki_inner k) (ki_seg_idx k) p;
  e ← deref s p;
  it ← it_SeekToFirst (entries e);
  Some (p, WindowIt_new it (ki_ttl_type k) (ki_expire_time k) (ki_expire_cnt k), m, set_ki_pos (ki_seg_idx k) (ki_pk_it k) t k).

Section traverse.
Context `{Layout} `{TableFlags}.

(** ** [MemTableTraverseIterator] *)
Record TraverseIt : Type := MkTraverseIt {
  tr_inner : nat;
  tr_seg_idx : nat;
  tr_pk_it : option (option nat);
  tr_it : option (nat * nat * option nat);
  tr_record_idx : Z;
  tr_ts_idx : nat;
  tr_expire_value : TTLSt;
  tr_ticket : TableTicket;
  tr_traverse_cnt : Z
}.
Definition TraverseIt_new (m : MemTable) (i : nat) (type : TTLType) (expire_time expire_cnt ts_index : Z) : option TraverseIt :=
  pos ← ts_pos m i ts_index;
  Some (MkTraverseIt i 0 None None 0 pos (MkTTLSt expire_time expire_cnt type) [] 0).
Definition set_tr_key (j : nat) (pk : option (option nat)) (it : option (nat * nat * option nat)) (t : TableTicket) (r : TraverseIt) : TraverseIt :=
  MkTraverseIt (tr_inner r) j pk it (tr_record_idx r) (tr_ts_idx r) (tr_expire_value r) t (tr_traverse_cnt r).
Definition set_tr_row (it : option (nat * nat * option nat)) (idx cnt : Z) (r : TraverseIt) : TraverseIt :=
  MkTraverseIt (tr_inner r) (tr_seg_idx r) (tr_pk_it r) it idx (tr_ts_idx r) (tr_expire_value r) (tr_ticket r) cnt.

(** The row list the iterator [it_] walks in: it keeps the segment and the entry
    it was opened on. *)
Definition tr_list (m : MemTable) (r : TraverseIt) (j p : nat) : option TimeEntries :=
  s ← seg_at m (tr_inner r) j; e ← deref s p; Some (entries e).

(** [!it_->Valid() || expire_value_.IsExpired(it_->GetKey(), record_idx_)] *)
Definition row_done (l : TimeEntries) (ttl : TTLSt) (n : option nat) (idx : Z) : option bool :=
  if it_Valid n then key ← it_GetKey l n; Some (IsExpired ttl key idx) else Some true.

Definition tr_Valid (m : MemTable) (r : TraverseIt) : option bool :=
  match tr_pk_it r, tr_it r with
  | Some pk, Some (j, p, n) =>
      if it_Valid pk then l ← tr_list m r j p; done ← row_done l (tr_expire_value r) n (tr_record_idx r); Some (negb done)
      else Some false
  | _, _ => Some false
  end.

(** Open the rows of the key under [pk_it_], of its entry [pos] when it has
    several, and push the entry on the ticket *)
Definition tr_open (m : MemTable) (r : TraverseIt) (pos : nat) : option (MemTable * TraverseIt * TimeEntries * option nat) :=
  pk ← tr_pk_it r;
  s ← seg_at m (tr_inner r) (tr_seg_idx r);
  p ← pk_entry s pk pos;
  e ← deref s p;
  '(m, t) ← ticket_push m (tr_ticket r) (tr_inner r) (tr_seg_idx r) p;
  n ← it_SeekToFirst (entries e);
  Some (m, set_tr_key (tr_seg_idx r) (Some pk) (Some (tr_seg_idx r, p, n)) t r, entries e, n).
(** The loop of [NextPK]: the entry opened is the first of the array, whatever
    [ts_idx_] is. *)
Fixpoint tr_NextPK_loop (fuel : nat) (m : MemTable) (r : TraverseIt) : option (MemTable * TraverseIt) :=
  match fuel with
  | O => None
  | S fuel' =>
      '(m, t) ← ticket_pop m (tr_ticket r);
      pk ← tr_pk_it r;
      s ← seg_at m (tr_inner r) (tr_seg_idx r);
      pk ← if it_Valid pk then it_Next (sg_entries s) pk else Some pk;
      let visit m r :=
        '(m, r, l, n) ← tr_open m r 0;
        let r := set_tr_row (tr_it r) 1 (u64 (tr_traverse_cnt r + 1)) r in
        if decide (FLAGS_max_traverse_cnt <= tr_traverse_cnt r) then Some (m, r)
        else
          done ← row_done l (tr_expire_value r) n (tr_record_idx r);
          if (done : bool) then tr_NextPK_loop fuel' m r else Some (m, r) in
      if it_Valid pk then visit m (set_tr_key (tr_seg_idx r) (Some pk) (tr_it r) t r)
      else
        let j := S (tr_seg_idx r) in
        match seg_at m (tr_inner r) j with
        | None => Some (m, set_tr_key j None (tr_it r) t r)
        | Some s =>
            pk ← it_SeekToFirst (sg_entries s);
            let r := set_tr_key j (Some pk) (tr_it r) t r in
            if it_Valid pk then visit m r else tr_NextPK_loop fuel' m r
        end
  end.
(** Enough rounds for every key and every segment *)
Definition tr_fuel (m : MemTable) (i : nat) : nat :=
  S (list_sum ((fun s => S (size (heap (sg_entries s)))) <$> default [] (seg_arr m i))).
Definition tr_NextPK (m : MemTable) (r : TraverseIt) : option (MemTable * TraverseIt) :=
  tr_NextPK_loop (tr_fuel m (tr_inner r)) m (set_tr_key (tr_seg_idx r) (tr_pk_it r) None (tr_ticket r) r).

Definition tr_Next (m : MemTable) (r : TraverseIt) : option (MemTable * TraverseIt) :=
  '(j, p, n) ← tr_it r;
  l ← tr_list m r j p;
  n ← it_Next l n;
  let r := set_tr_row (Some (j, p, n)) (u32 (tr_record_idx r + 1)) (u64 (tr_traverse_cnt r + 1)) r in
  done ← row_done l (tr_expire_value r) n (tr_record_idx r);
  if (done : bool) then tr_NextPK m r else Some (m, r).

(** The loop of [Seek] for [kLatestTime]: [true] when the function returns *)
Fixpoint tr_seek_latest (fuel : nat) (l : TimeEntries) (ts : Z) (j p : nat) (n : option nat) (r : TraverseIt) : option (bool * TraverseIt) :=
  if it_Valid n && bool_decide (tr_record_idx r <= lat_ttl (tr_expire_value r)) then
    match fuel with
    | O => None
    | S fuel' =>
        let r := set_tr_row (Some (j, p, n)) (tr_record_idx r) (u64 (tr_traverse_cnt r + 1)) r in
        key ← it_GetKey l n;
        if decide (key < ts) then Some (true, r)
        else n ← it_Next l n; tr_seek_latest fuel' l ts j p n (set_tr_row (Some (j, p, n)) (u32 (tr_record_idx r + 1)) (tr_traverse_cnt r) r)
    end
  else Some (false, r).

Definition tr_Seek (m : MemTable) (r : TraverseIt) (key : bytes) (ts : Z) : option (MemTable * TraverseIt) :=
  '(m, t) ← ticket_pop m (tr_ticket r);
  let j := if decide (1 < seg_cnt_ m) then seg_idx_of m key else tr_seg_idx r in
  s ← seg_at m (tr_inner r) j;
  pk ← it_Seek (sg_entries s) key;
  let r := set_tr_key j (Some pk) None t r in
  if negb (it_Valid pk) then tr_NextPK m r
  else
    pk_key ← it_GetKey (sg_entries s) pk;
    '(m, r, l, first) ← tr_open m r (tr_ts_idx r);
    '(_, p, _) ← tr_it r;
    if decide (Slice_compare key pk_key <> 0) then
      let r := set_tr_row (Some (j, p, first)) 1 (u64 (tr_traverse_cnt r + 1)) r in
      done ← row_done l (tr_expire_value r) first (tr_record_idx r);
      if (done : bool) then tr_NextPK m r else Some (m, r)
    else if decide (ttl_type (tr_expire_value r) = kLatestTime) then
      '(returned, r) ← tr_seek_latest (size (heap l)) l ts j p first (set_tr_row (Some (j, p, first)) 1 (tr_traverse_cnt r) r);
      if (returned : bool) then Some (m, r) else tr_NextPK m r
    else
      n ← it_Seek l ts;
      at_ts ← (if it_Valid n then k ← it_GetKey l n; Some (bool_decide (k = ts)) else Some false);
      n ← if (at_ts : bool) then it_Next l n else Some n;
      let r := set_tr_row (Some (j, p, n)) (tr_record_idx r) (u64 (tr_traverse_cnt r + 1)) r in
      done ← row_done l (tr_expire_value r) n (tr_record_idx r);
      if (done : bool) then tr_NextPK m r else Some (m, r).

Definition tr_GetValue (m : MemTable) (r : TraverseIt) : option bytes :=
  '(j, p, n) ← tr_it r; l ← tr_list m r j p; v ← it_GetValue l n; b ← v; blk ← mt_blocks m !! b; Some (data blk).
Definition tr_GetKey (m : MemTable) (r : TraverseIt) : option Z :=
  match tr_it r with
  | Some (j, p, n) => if it_Valid n then l ← tr_list m r j p; it_GetKey l n else Some (2 ^ 64 - 1)
  | None => Some (2 ^ 64 - 1)
  end.
Definition tr_GetPK (m : MemTable) (r : TraverseIt) : option bytes :=
  match tr_pk_it r with
  | None => Some []
  | Some pk => s ← seg_at m (tr_inner r) (tr_seg_idx r); it_GetKey (sg_entries s) pk
  end.

(** The [while] of [SeekToFirst] over the keys of a segment: [true] when the
    function returns.  [record_idx_] is set only when a row is found. *)
Fixpoint tr_first_key (fuel : nat) (m : MemTable) (r : TraverseIt) : option (bool * MemTable * TraverseIt) :=
  pk ← tr_pk_it r;
  if it_Valid pk then
    match fuel with
    | O => None
    | S fuel' =>
        s ← seg_at m (tr_inner r) (tr_seg_idx r);
        '(m, r, l, n) ← tr_open m r (tr_ts_idx r);
        let r := set_tr_row (tr_it r) (tr_record_idx r) (u64 (tr_traverse_cnt r + 1)) r in
        done ← row_done l (tr_expire_value r) n (tr_record_idx r);
        if negb done then Some (true, m, set_tr_row (tr_it r) 1 (tr_traverse_cnt r) r)
        else
          pk ← it_Next (sg_entries s) pk;
          '(m, t) ← ticket_pop m (tr_ticket r);
          let r := set_tr_key (tr_seg_idx r) (Some pk) None t r in
          if decide (FLAGS_max_traverse_cnt <= tr_traverse_cnt r) then Some (true, m, r)
          else tr_first_key fuel' m r
    end
  else Some (false, m, r).
Fixpoint tr_first_seg (n j : nat) (m : MemTable) (r : TraverseIt) : option (MemTable * TraverseIt) :=
  match n with
  | O => Some (m, set_tr_key j None None (tr_ticket r) r)
  | S n' =>
      s ← seg_at m (tr_inner r) j;
      pk ← it_SeekToFirst (sg_entries s);
      '(returned, m, r) ← tr_first_key (size (heap (sg_entries s))) m (set_tr_key j (Some pk) None (tr_ticket r) r);
      if (returned : bool) then Some (m, r) else tr_first_seg n' (S j) m r
  end.
Definition tr_SeekToFirst (m : MemTable) (r : TraverseIt) : option (MemTable * TraverseIt) :=
  '(m, t) ← ticket_pop m (tr_ticket r);
  tr_first_seg (Z.to_nat (seg_cnt_ m)) 0 m (set_tr_key 0 None None t r).

(** ** Opening iterators *)

(** [expire_time] and [expire_cnt] of an index *)
Definition expire_of (m : MemTable) (get_micros : Z) (ttl : TTLSt) : Z * Z :=
  if enable_gc_ m then (GetExpireTime m get_micros ttl, lat_ttl ttl) else (0, 0).

Definition NewTraverseIterator_ts (m : MemTable) (get_micros : Z) (index ts_index : Z) : option (option TraverseIt) :=
  found ← GetIndex_ts (mt_index m) index ts_index;
  r ← ready_index m found;
  match r with
  | None => Some None
  | Some d =>
      ttl ← ttl_st_ d;
      let '(expire_time, expire_cnt) := expire_of m get_micros ttl in
      it ← TraverseIt_new m (Z.to_nat (inner_pos_ d)) (ttl_type ttl) expire_time expire_cnt ts_index;
      Some (Some it)
  end.
Definition NewTraverseIterator (m : MemTable) (get_micros : Z) (index : Z) : option (option TraverseIt) :=
  r ← ready_index m (GetIndex (mt_index m) index);
  match r with
  | None => Some None
  | Some d =>
      match ts_column_ d with
      | Some c => NewTraverseIterator_ts m get_micros index (u32 (cd_ts_idx c))
      | None =>
          ttl ← ttl_st_ d;
          let '(expire_time, expire_cnt) := expire_of m get_micros ttl in
          it ← TraverseIt_new m (Z.to_nat (inner_pos_ d)) (ttl_type ttl) expire_time expire_cnt 0;
          Some (Some it)
      end
  end.

Definition NewWindowIterator_ts (m : MemTable) (get_micros : Z) (index ts_index : Z) : option (option KeyIt) :=
  found ← GetIndex_ts (mt_index m) index ts_index;
  r ← ready_index m found;
  match r with
  | None => Some None
  | Some d =>
      ttl ← ttl_st_ d;
      let '(expire_time, expire_cnt) := expire_of m get_micros ttl in
      it ← KeyIt_new m (Z.to_nat (inner_pos_ d)) (ttl_type ttl) expire_time expire_cnt ts_index;
      Some (Some it)
  end.
(** [NewWindowIterator(index)]: an index that does not exist is dereferenced;
    one that is not ready is opened. *)
Definition NewWindowIterator (m : MemTable) (get_micros : Z) (index : Z) : option (option KeyIt) :=
  p ← GetIndex (mt_index m) index;
  d ← def_at (mt_index m) p;
  match (if IsReady d then ts_column_ d else None) with
  | Some c => NewWindowIterator_ts m get_micros index (u32 (cd_ts_idx c))
  | None =>
      ttl ← ttl_st_ d;
      let '(expire_time, expire_cnt) := expire_of m get_micros ttl in
      it ← KeyIt_new m (Z.to_nat (inner_pos_ d)) (ttl_type ttl) expire_time expire_cnt 0;
      Some (Some it)
  end.
End traverse.
