(* ===== verification/Binlog.v ===== *)
(** The binlog of a table: writing entries (struct [WriteHandle] of
    log/log_writer.h) and replaying them into a table after a restart
    (storage/binlog.cc). *)
From Stdlib Require Import String.
From S2P Require Import Prelude Slice LogFile LogWriter LogReader Random Skiplist Segment SegmentGc StdMap Strings LogRoll TableIndex Table.
From S2P Require Import MemTable MemTableGc.

(** ** Log entries as bytes

    The encoding of [LogEntry] is generated from proto/tablet.proto.  Its
    documented property is the round trip for messages whose numbers fit their
    fields. *)
Class EntryCodec := {
  SerializeToString : LogEntry -> bytes;
  ParseFromString : bytes -> option LogEntry
}.
Definition in_uintb (w x : Z) : bool := bool_decide (0 <= x < 2 ^ w).
Definition bytesb (s : bytes) : bool := forallb (fun b => bool_decide (0 <= b < 256)) s.
Definition entry_fits (e : LogEntry) : bool :=
  match le_term e with Some t => in_uintb 64 t | None => true end && in_uintb 64 (le_log_index e) && bytesb (le_pk e) &&
  bytesb (le_value e) && in_uintb 64 (le_ts e) && forallb (fun d => in_uintb 32 d.1 && bytesb d.2) (le_dimensions e) &&
  forallb (fun d => in_uintb 32 d.1 && in_uintb 64 d.2) (le_ts_dimensions e).
Class EntryCodecLaws `{EntryCodec} := {
  parse_serialize : forall e, entry_fits e = true -> ParseFromString (SerializeToString e) = Some e;
  serialize_bytes : forall e, entry_fits e = true -> all_bytes (SerializeToString e)
}.

(** ** Tables

    What the binlog and the replicator need of a table; [tbl_SchedGc] is given
    the clock. *)
Class TableOps (T : Type) := {
  tbl_Put_pk : T -> bytes -> Z -> bytes -> option (bool * T);
  tbl_Put_dims : T -> Z -> bytes -> list (Z * bytes) -> option (bool * T);
  tbl_Put_ts : T -> list (Z * bytes) -> list (Z * Z) -> bytes -> option (bool * T);
  tbl_Delete : T -> bytes -> Z -> option (bool * T);
  tbl_SchedGc : T -> (nat -> nat -> Z) -> option T;
  tbl_IsLeader : T -> bool;
  tbl_GetIdxCnt : T -> Z;
  tbl_ReadyIndexId : T -> bytes -> option (option Z)
}.
(** [entry.set_log_index(i)] *)
Definition set_log_index (i : Z) (e : LogEntry) : LogEntry :=
  MkLogEntry (le_term e) i (le_pk e) (le_value e) (le_ts e) (le_dimensions e) (le_method_type e) (le_ts_dimensions e).

(** [GetIndex(name)] with the test [!index_def || !index_def->IsReady()], and [GetId] *)
Definition ReadyIndexId (m : MemTable) (name : bytes) : option (option Z) :=
  i ← GetIndex_name (mt_index m) name;
  d ← ready_index m i;
  Some (option_map index_id_ d).

(** [Table::Put(const LogEntry&)] *)
Definition tbl_Put {T} `{TableOps T} (t : T) (e : LogEntry) : option (bool * T) :=
  match le_dimensions e with
  | _ :: _ =>
      match le_ts_dimensions e with
      | _ :: _ => tbl_Put_ts t (le_dimensions e) (le_ts_dimensions e) (le_value e)
      | [] => tbl_Put_dims t (le_ts e) (le_value e) (le_dimensions e)
      end
  | [] => tbl_Put_pk t (le_pk e) (le_ts e) (le_value e)
  end.
#[global] Instance memtable_ops `{Layout} `{TableFlags} : TableOps MemTable := {
  tbl_Put_pk := MemTable_Put;
  tbl_Put_dims := MemTable_Put_dims;
  tbl_Put_ts := MemTable_Put_ts;
  tbl_Delete := MemTable_Delete;
  tbl_SchedGc := SchedGc;
  tbl_IsLeader m := is_leader_ (mt_table m);
  tbl_GetIdxCnt m := Size (mt_index m);
  tbl_ReadyIndexId := ReadyIndexId
}.

Section binlog.
Context `{BinlogFlags} `{Compressors}.

(** ** Write handles *)

(** [Writer::GetCompressType] *)
Definition GetCompressType (compress_type : bytes) : CompressType :=
  if decide (compress_type = str "zlib") then kZlib
  else if decide (compress_type = str "snappy") then kSnappy
  else kNoCompress.

(** The stream's file is known by its path: what was written so far, over what
    the file held after that. *)
Record WriteHandle : Type := MkWriteHandle { wh_path : bytes; wh_lw : Writer PosixWritableFile }.
Definition stream_of (h : WriteHandle) : bytes := pw_stream (dest_ (wh_lw h)).
Definition store_stream (h : WriteHandle) (fs : FileSystem) : FileSystem :=
  let old := default [] (fs_files fs !! wh_path h) in
  write_file (wh_path h) (stream_of h ++ drop (length (stream_of h)) old) fs.

(** The constructor, on a stream positioned at [dest_length] *)
Definition WriteHandle_new (fs : FileSystem) (compress_type path : bytes) (dest_length : Z) : option WriteHandle :=
  let old := default [] (fs_files fs !! path) in
  let n := Z.to_nat dest_length in
  let stream := take n old ++ replicate (n - length old) 0 in
  lw ← Writer_new (GetCompressType compress_type) (MkPosixWritableFile stream (fs_faults fs path) 0) dest_length;
  Some (MkWriteHandle path lw).
Definition wh_Write (fs : FileSystem) (h : WriteHandle) (slice : bytes) : option (Status * FileSystem * WriteHandle) :=
  '(s, lw) ← AddRecord snappy_compress zlib_compress (wh_lw h) slice;
  let h := MkWriteHandle (wh_path h) lw in
  Some (s, store_stream h fs, h).
Definition wh_EndLog (fs : FileSystem) (h : WriteHandle) : option (Status * FileSystem * WriteHandle) :=
  '(s, lw) ← EndLog snappy_compress zlib_compress (wh_lw h);
  let h := MkWriteHandle (wh_path h) lw in
  Some (s, store_stream h fs, h).
Definition wh_GetSize (h : WriteHandle) : Z := wsize_ (dest_ (wh_lw h)).

(** ** Replay *)
Context `{EntryCodec} {T : Type} `{TableOps T}.

(** [table->Put(entry)] or [table->Delete]: a deletion without a dimension is
    passed over. *)
Definition apply_entry (t : T) (e : LogEntry) : option T :=
  match le_method_type e with
  | Some kDelete =>
      match le_dimensions e with
      | [] => Some t
      | (idx, key) :: _ => '(_, t) ← tbl_Delete t key idx; Some t
      end
  | _ => '(_, t) ← tbl_Put t e; Some t
  end.

(** The loop of [RecoverFromBinlog]: the table, the reader, the offset, and
    whether the end of the log was reached.  [clock n] is the clock of the
    collection after the entry number [n]. *)
Fixpoint RecoverFromBinlog_loop (fuel : nat) (fs : FileSystem) (logs : LogParts) (clock : Z -> nat -> nat -> Z)
    (t : T) (r : LogReader) (cur_offset succ_cnt last_log_index : Z) : option (T * LogReader * Z * bool) :=
  match fuel with
  | O => None
  | S fuel' =>
      '(status, record, r) ← ReadNextRecord fs logs r;
      if decide (status = WaitRecord) then
        end_log_index ← GetEndLogIndex logs;
        let cur_log_index := GetLogIndex r in
        if decide (0 <= end_log_index /\ cur_log_index < end_log_index) then
          '(_, r) ← RollRLogFile fs logs r;
          RecoverFromBinlog_loop fuel' fs logs clock t r cur_offset succ_cnt last_log_index
        else Some (t, r, cur_offset, false)
      else if decide (status = Eof) then
        if decide (GetLogIndex r <> last_log_index)
        then RecoverFromBinlog_loop fuel' fs logs clock t r cur_offset succ_cnt (GetLogIndex r)
        else Some (t, r, cur_offset, true)
      else if negb (ok status) then RecoverFromBinlog_loop fuel' fs logs clock t r cur_offset succ_cnt last_log_index
      else
        match ParseFromString record with
        | None => RecoverFromBinlog_loop fuel' fs logs clock t r cur_offset succ_cnt last_log_index
        | Some entry =>
            if decide (le_log_index entry <= cur_offset)
            then RecoverFromBinlog_loop fuel' fs logs clock t r cur_offset succ_cnt last_log_index
            else
              t ← apply_entry t entry;
              let succ_cnt := u64 (succ_cnt + 1) in
              _ ← require (bool_decide (FLAGS_gc_on_table_recover_count <> 0));
              t ← (if decide (succ_cnt `mod` FLAGS_gc_on_table_recover_count = 0) then tbl_SchedGc t (clock succ_cnt) else Some t);
              RecoverFromBinlog_loop fuel' fs logs clock t r (le_log_index entry) succ_cnt last_log_index
        end
  end.

(** [RecoverFromBinlog]: the result, [latest_offset], the table and the files.
    A log that was not ended is ended after its last record. *)
Definition RecoverFromBinlog (fuel : nat) (fs : FileSystem) (logs : LogParts) (log_path : bytes) (clock : Z -> nat -> nat -> Z)
    (t : T) (offset : Z) : option (bool * Z * T * FileSystem) :=
  let r := LogReader_SetOffset offset (LogReader_new log_path false) in
  '(t, r, cur_offset, reach_end_log) ← RecoverFromBinlog_loop fuel fs logs clock t r offset 0 (GetLogIndex r);
  if (reach_end_log : bool) then Some (true, cur_offset, t, fs)
  else
    let log_index := GetLogIndex r in
    if decide (log_index < 0) then Some (true, cur_offset, t, fs)
    else
      let pos := GetLastRecordEndOffset r in
      let full_path := log_file log_path log_index in
      match fopen_read fs full_path with
      | None => Some (false, cur_offset, t, fs)
      | Some _ =>
          wh ← WriteHandle_new fs (str "off") full_path pos;
          '(_, fs, _) ← wh_EndLog fs wh;
          Some (true, cur_offset, t, fs)
      end.
End binlog.
