(* ===== verification/BinlogWrite.v ===== *)
(** What a write handle does to the file of a part: a record is added behind the
    others, an end mark is put behind the last one. *)
From Stdlib Require Import String.
From S2P Require Import Prelude Slice LogFile LogWriter LogLayout LogReader LogRoundtrip LogThms LogLive Random Skiplist SkiplistInv.
From S2P Require Import SkiplistInsert SkiplistSplit SkiplistSpec StdMap Strings LogRoll LogGrow Table MemTable Binlog.

(** * BinlogSpec: The binlog as a sequence of numbered entries, split over files: what the
    files, the list of parts and a reader of them stand for. *)
(** ** Parts *)

(** One file: its index, the offset before its first entry, its entries, and
    whether it was ended *)
Record part : Type := MkPart { pt_index : Z; pt_start : Z; pt_entries : list LogEntry; pt_closed : bool }.
Definition pt_key (p : part) : Z * Z := (pt_index p, pt_start p).

(** Entries numbered from [start + 1] on *)
Definition numbered (start : Z) (es : list LogEntry) : Prop :=
  forall i e, es !! i = Some e -> le_log_index e = start + 1 + Z.of_nat i /\ entry_fits e = true.
(** Each part starts where the one before it ends. *)
Fixpoint chained (start : Z) (ps : list part) : Prop :=
  match ps with
  | [] => True
  | p :: ps' => pt_start p = start /\ chained (start + Z.of_nat (length (pt_entries p))) ps'
  end.
Definition all_entries (ps : list part) : list LogEntry := ps ≫= pt_entries.

Section spec.
Context `{BinlogFlags} `{Compressors} `{EntryCodecLaws}.
Implicit Types (fs : FileSystem) (logs : LogParts) (ps : list part) (p : part).

Definition pt_recs p : list bytes := SerializeToString <$> pt_entries p.

(** The file of a part; [W] bounds the bytes of records, and a torn record or
    an end mark comes on top of them. *)
Record part_data fs (path : bytes) (W : nat) p (D : bytes) lay ends tail : Prop := {
  pd_file : fs_files fs !! log_file path (pt_index p) = Some D;
  pd_denied : fs_denied fs (log_file path (pt_index p)) = false;
  pd_holds : holds D (pt_recs p) (pt_closed p) lay ends tail;
  pd_bound : (length (enc 0 lay) <= W)%nat;
  pd_length : (length D <= W + 13)%nat
}.
Definition part_file fs path W p : Prop := exists D lay ends tail, part_data fs path W p D lay ends tail.

Record binlog fs logs (path : bytes) (W : nat) (base : Z) ps : Prop := {
  bl_logs : rep logs (reverse (pt_key <$> ps));
  bl_sorted : StronglySorted (fun p q => pt_index p < pt_index q) ps;
  bl_index : Forall (fun p => index_ok (pt_index p)) ps;
  bl_files : Forall (part_file fs path W) ps;
  bl_chain : chained base ps;
  bl_numbers : Forall (fun p => numbered (pt_start p) (pt_entries p)) ps;
  bl_bound : Z.of_nat W + 13 < 2 ^ 62
}.

(** ** Sequences of parts *)

Lemma sorted_range (R : part -> Z) ps : StronglySorted (fun p q => R p < R q) ps -> forall lo hi, Forall (fun p => lo <= R p < hi) ps -> lo <= hi ->
  Z.of_nat (length ps) <= hi - lo.
Proof.
  induction 1 as [|p ps Hs IH Ha]; intros lo hi Hf Hle; [simpl; lia|]. apply Forall_cons in Hf as [Hp Hf]. cbn [length].
  assert (Hq : Forall (fun q => R p + 1 <= R q < hi) ps); [|specialize (IH _ _ Hq); lia].
  apply Forall_forall. intros q Hq. rewrite Forall_forall in Ha, Hf. specialize (Ha _ Hq). specialize (Hf _ Hq). lia.
Qed.
Lemma binlog_count fs logs path W base ps : binlog fs logs path W base ps -> Z.of_nat (length (reverse (pt_key <$> ps))) < 2 ^ 32.
Proof.
  intros Hb. rewrite length_reverse, length_fmap. pose proof (sorted_range pt_index ps (bl_sorted _ _ _ _ _ _ Hb) 0 (2 ^ 31)) as Hr.
  assert (Hq : Forall (fun p => 0 <= pt_index p < 2 ^ 31) ps); [|specialize (Hr Hq); lia].
  eapply Forall_impl; [apply (bl_index _ _ _ _ _ _ Hb)|]. unfold index_ok. intros; lia.
Qed.

Lemma StronglySorted_snoc {A} (R : A -> A -> Prop) l x : StronglySorted R l -> Forall (fun y => R y x) l -> StronglySorted R (l ++ [x]).
Proof.
  induction 1 as [|y l Hs IH Ha]; intros Hf; simpl; [by repeat constructor|]. apply Forall_cons in Hf as [Hy Hf].
  constructor; [by apply IH|]. apply Forall_app. by split; [|constructor].
Qed.
Lemma reverse_newest ps : StronglySorted (fun p q => pt_index p < pt_index q) ps -> newest_first (reverse (pt_key <$> ps)).
Proof.
  unfold newest_first. induction 1 as [|p ps Hs IH Ha]; [constructor|]. rewrite fmap_cons, reverse_cons. apply StronglySorted_snoc; [done|].
  apply Forall_reverse, Forall_fmap. eapply Forall_impl; [done|]. done.
Qed.
Lemma index_keys fs logs path W base ps : binlog fs logs path W base ps -> Forall (fun x : Z * Z => index_ok x.1) (reverse (pt_key <$> ps)).
Proof. intros Hb. apply Forall_reverse, Forall_fmap. apply (bl_index _ _ _ _ _ _ Hb). Qed.

Lemma chained_app base a b : chained base (a ++ b) <-> chained base a /\ chained (base + Z.of_nat (length (all_entries a))) b.
Proof.
  revert base; induction a as [|p a IH]; intros base; cbn [chained app all_entries mbind list_bind length]; [rewrite Z.add_0_r; tauto|].
  rewrite IH, length_app. fold (all_entries a).
  replace (base + Z.of_nat (length (pt_entries p)) + Z.of_nat (length (all_entries a))) with (base + Z.of_nat (length (pt_entries p) + length (all_entries a))) by lia. tauto.
Qed.

Lemma chained_numbered base ps : chained base ps -> Forall (fun q => numbered (pt_start q) (pt_entries q)) ps -> numbered base (all_entries ps).
Proof.
  revert base; induction ps as [|q ps IH]; intros base Hc Hn; [by intros i e|]. destruct Hc as [<- Hc]. apply Forall_cons in Hn as [Hq Hn]. cbn [all_entries mbind list_bind]. fold (all_entries ps).
  intros i e Hi. destruct (decide (i < length (pt_entries q))%nat) as [Hlt|Hge]; [rewrite lookup_app_l in Hi by done; by apply Hq|].
  rewrite lookup_app_r in Hi by lia. destruct (IH _ Hc Hn _ _ Hi) as [-> ?]. split; [lia|done].
Qed.

(** ** Readers *)

Definition with_reader (r : LogReader) (path : bytes) (rd : Reader PosixSequentialFile) : LogReader := set_lr_reader (Some (path, rd)) r.

Lemma ReadNextRecord_open fs logs r path rd D st rec rd' : lr_reader r = Some (path, rd) -> fs_files fs !! path = Some D ->
  ReadRecord snappy_length snappy_uncompress zlib_uncompress (S (S (length D))) (set_data D rd) = Some (st, rec, rd') ->
  ReadNextRecord fs logs r =
    if decide (st = Eof) then '(_, r') ← RollRLogFile fs logs (with_reader r path rd'); Some (Eof, rec, r') else Some (st, rec, with_reader r path rd').
Proof.
  intros Hr HD HR. unfold ReadNextRecord. rewrite Hr, bind_some. cbv beta iota. rewrite decide_False by done. rewrite Hr, bind_some. cbv beta iota zeta.
  unfold refresh. rewrite HD. cbn [default set_data set_rd_file rd_file ps_data]. cbn [from_option]. fold (set_data D rd). unfold id. rewrite HR. rewrite bind_some. done.
Qed.

Lemma set_data_id rd D E eof : rd_file rd = MkPosixSequentialFile D E eof -> set_data D rd = rd.
Proof. intros Hf. unfold set_data. rewrite Hf. cbn [ps_pos ps_eof]. rewrite <- Hf. by destruct rd. Qed.

Lemma reverse_keys a p b : reverse (pt_key <$> a ++ p :: b) = reverse (pt_key <$> b) ++ pt_key p :: reverse (pt_key <$> a).
Proof. by rewrite fmap_app, fmap_cons, reverse_app, reverse_cons, <- app_assoc. Qed.

Lemma roll_to_part fs path W p D lay ends tail r : part_data fs path W p D lay ends tail -> index_ok (pt_index p) -> lr_log_path r = path ->
  roll_to fs r (pt_index p) = (0, opened path r (pt_index p) D).
Proof.
  intros Hp Hk Hr. unfold roll_to. rewrite decide_True by apply Hk. rewrite Hr. unfold fopen_read. by rewrite (pd_denied _ _ _ _ _ _ _ _ Hp), (pd_file _ _ _ _ _ _ _ _ Hp).
Qed.

Lemma roll_next fs logs path W base a p q b r : binlog fs logs path W base (a ++ p :: q :: b) -> lr_log_path r = path -> lr_log_part_index r = pt_index p ->
  exists D lay ends tail, part_data fs path W q D lay ends tail /\ RollRLogFile fs logs r = Some (0, opened path r (pt_index q) D).
Proof.
  intros Hb Hpath Hidx. pose proof (bl_index _ _ _ _ _ _ Hb) as Hok. apply Forall_app in Hok as [_ Hok]. apply Forall_cons in Hok as [Hkp Hok]. apply Forall_cons in Hok as [Hkq _].
  pose proof (bl_files _ _ _ _ _ _ Hb) as Hf. apply Forall_app in Hf as [_ Hf]. apply Forall_cons in Hf as [_ Hf]. apply Forall_cons in Hf as [(D & lay & ends & tail & Hq) _].
  exists D, lay, ends, tail. split; [done|]. pose proof (bl_logs _ _ _ _ _ _ Hb) as Hl. pose proof (binlog_count _ _ _ _ _ _ Hb) as Hn.
  pose proof (reverse_newest _ (bl_sorted _ _ _ _ _ _ Hb)) as Hs.
  rewrite reverse_keys, fmap_cons, reverse_cons, <- app_assoc in Hl, Hn, Hs. cbn [app] in Hl, Hn, Hs.
  rewrite (RollRLogFile_next fs logs _ _ _ _ _ _ r Hl Hs Hkq Hkp Hn Hidx). f_equal. by eapply roll_to_part.
Qed.

Lemma roll_none fs logs path W base a p r : binlog fs logs path W base (a ++ [p]) -> lr_log_part_index r = pt_index p -> RollRLogFile fs logs r = Some (-1, r).
Proof.
  intros Hb Hidx. pose proof (bl_index _ _ _ _ _ _ Hb) as Hok. apply Forall_app in Hok as [_ Hok]. apply Forall_cons in Hok as [Hkp _].
  pose proof (bl_logs _ _ _ _ _ _ Hb) as Hl. pose proof (binlog_count _ _ _ _ _ _ Hb) as Hn. rewrite reverse_keys in Hl, Hn.
  change (rep logs ((pt_index p, pt_start p) :: reverse (pt_key <$> a))) in Hl. by eapply RollRLogFile_last.
Qed.

Lemma end_index fs logs path W base a p : binlog fs logs path W base (a ++ [p]) -> GetEndLogIndex logs = Some (pt_index p).
Proof.
  intros Hb. pose proof (bl_index _ _ _ _ _ _ Hb) as Hok. apply Forall_app in Hok as [_ Hok]. apply Forall_cons in Hok as [Hkp _].
  pose proof (bl_logs _ _ _ _ _ _ Hb) as Hl. pose proof (binlog_count _ _ _ _ _ _ Hb) as Hn. rewrite reverse_keys in Hl, Hn.
  change (rep logs ((pt_index p, pt_start p) :: reverse (pt_key <$> a))) in Hl. by eapply GetEndLogIndex_spec.
Qed.

Lemma index_lt fs logs path W base a p b q : binlog fs logs path W base (a ++ p :: b) -> q ∈ b -> pt_index p < pt_index q.
Proof.
  intros Hb Hq. pose proof (bl_sorted _ _ _ _ _ _ Hb) as Hs. clear Hb. induction a as [|x a IH]; simpl in Hs; apply StronglySorted_inv in Hs as [Hs Ha]; [|by apply IH].
  rewrite Forall_forall in Ha. by apply Ha.
Qed.
End spec.

(** * BinlogWrite *)
Local Abbreviation eof_piece := [(kEofType, @nil Z)].

(** A writer of a file *)
Abbreviation pwok := (wok (contents := pw_stream) (reliable := no_faults)).

Section write.
Context `{BinlogFlags} `{Compressors} `{EntryCodecLaws}.
Implicit Types (fs : FileSystem) (p : part) (h : WriteHandle).

(** No call on the file fails. *)
Definition writable fs (f : bytes) : Prop := Forall (fun o => o = None) (fs_faults fs f).

Lemma WriteHandle_new_spec fs f D n : fs_files fs !! f = Some D -> writable fs f -> (n <= length D)%nat ->
  exists h, WriteHandle_new fs (str "off") f (Z.of_nat n) = Some h /\ wh_path h = f /\ pwok (wh_lw h) (take n D).
Proof.
  intros HD Hw Hn. unfold WriteHandle_new. rewrite HD. cbn [default from_option]. unfold id. cbv zeta. rewrite Nat2Z.id.
  replace (n - length D)%nat with 0%nat by lia. cbn [replicate]. rewrite app_nil_r.
  destruct (Writer_new_wok (contents := pw_stream) (reliable := no_faults) (MkPosixWritableFile (take n D) (fs_faults fs f) 0)) as (w & Hnew & Hwk); [done|].
  cbn [pw_stream] in Hnew, Hwk. rewrite length_take, Nat.min_l in Hnew by lia. change (GetCompressType (str "off")) with kNoCompress. rewrite Hnew, bind_some.
  by eexists.
Qed.

Lemma wh_Write_spec fs h D d : pwok (wh_lw h) D -> fs_files fs !! wh_path h = Some D -> all_bytes d ->
  exists h' ps, wh_Write fs h d = Some (OK, write_file (wh_path h) (D ++ enc (length D) ps) fs, h') /\ wh_path h' = wh_path h /\
    pieces true d ps /\ fits (length D) ps /\ pwok (wh_lw h') (D ++ enc (length D) ps) /\
    (length (enc (length D) ps) <= 27 * S (length d))%nat.
Proof.
  intros Hw HD Hd. unfold wh_Write. destruct (AddRecord_spec snappy_compress zlib_compress (wh_lw h) D d Hw Hd) as (w' & ps & -> & Hps & Hf & Hw' & Hlen).
  rewrite bind_some. cbv zeta. exists (MkWriteHandle (wh_path h) w'), ps. split; [|by split_and!]. do 3 f_equal. unfold store_stream, stream_of. cbn [wh_path wh_lw].
  rewrite (wk_dest _ _ Hw'), HD. cbn [default from_option]. unfold id. rewrite drop_ge; [by rewrite app_nil_r|]. rewrite length_app. lia.
Qed.

Lemma wh_EndLog_spec fs h W D : pwok (wh_lw h) W -> fs_files fs !! wh_path h = Some D ->
  exists h', wh_EndLog fs h =
    Some (OK, write_file (wh_path h) (W ++ enc (length W) eof_piece ++ drop (length W + length (enc (length W) eof_piece)) D) fs, h').
Proof.
  intros Hw HD. unfold wh_EndLog. destruct (EndLog_spec snappy_compress zlib_compress (wh_lw h) W Hw) as (w' & -> & _ & Hw').
  rewrite bind_some. cbv zeta. eexists. do 3 f_equal. unfold store_stream, stream_of. cbn [wh_path wh_lw].
  rewrite (wk_dest _ _ Hw'), HD. cbn [default from_option]. unfold id. by rewrite length_app, <- app_assoc.
Qed.

(** ** The effect on a part *)

Lemma lookup_write fs f D : fs_files (write_file f D fs) !! f = Some D.
Proof. apply lookup_insert_eq. Qed.
Lemma lookup_write_ne fs f D g : f <> g -> fs_files (write_file f D fs) !! g = fs_files fs !! g.
Proof. intros Hne. by apply lookup_insert_ne. Qed.

Definition close p : part := MkPart (pt_index p) (pt_start p) (pt_entries p) true.

Lemma close_data fs path W p D lay ends tail : part_data fs path W p D lay ends tail -> Z.of_nat W + 13 < 2 ^ 62 ->
  let N := length (enc 0 lay) in let D' := enc 0 lay ++ enc N eof_piece ++ drop (length (enc N eof_piece)) tail in
  exists tail', part_data (write_file (log_file path (pt_index p)) D' fs) path W (close p) D' lay ends tail'.
Proof.
  intros [Hfile Hden [Hl Hby HD Ht Hsm] Hbd Hlen] HW N D'. exists (enc N eof_piece ++ drop (length (enc N eof_piece)) tail).
  assert (HN : (length (enc N eof_piece) <= 13)%nat).
  { cbn [enc]. rewrite app_nil_r, length_app, length_replicate, length_phys. pose proof (pad_le N). simpl. lia. }
  assert (HD' : (length D' <= W + 13)%nat).
  { rewrite HD, length_app in Hlen. unfold D'. rewrite !length_app, length_drop. fold N in Hbd, Hlen |- *. lia. }
  split; [apply lookup_write|done| |done|done]. split; [done|done|done| |unfold small; lia]. fold N in Ht |- *. cbn [close pt_closed].
  inversion Ht as [qs m Hn Hf Hm Hx1 Hx2|qs m Hn Hf Hx1 Hx2]; [by constructor|]. rewrite drop_app_length. by constructor.
Qed.

Definition add_entry (e : LogEntry) p : part := MkPart (pt_index p) (pt_start p) (pt_entries p ++ [e]) (pt_closed p).

Lemma add_data fs path W p D lay ends e ps : part_data fs path W p D lay ends [] -> pt_closed p = false -> entry_fits e = true ->
  pieces true (SerializeToString e) ps -> fits (length D) ps -> (length (enc (length D) ps) <= 27 * S (length (SerializeToString e)))%nat ->
  Z.of_nat (W + 27 * S (length (SerializeToString e))) + 13 < 2 ^ 62 ->
  let D' := D ++ enc (length D) ps in
  part_data (write_file (log_file path (pt_index p)) D' fs) path (W + 27 * S (length (SerializeToString e))) (add_entry e p) D' (lay ++ ps)
    (ends ++ [(length D + length (enc (length D) ps))%nat]) [].
Proof.
  intros [Hfile Hden [Hl Hby HD Ht Hsm] Hbd Hlen] Hc Hfit Hps Hf Hle HW D'. rewrite app_nil_r in HD.
  assert (HDl : D' = enc 0 (lay ++ ps)) by (unfold D'; by rewrite HD, enc_app).
  split; [apply lookup_write|done| | |].
  - split.
    + unfold pt_recs. cbn [add_entry pt_entries]. rewrite fmap_app. cbn [fmap list_fmap]. eapply laid_app; [exact Hl|].
      cbn [Nat.add]. rewrite <- HD. pose proof (laid_cons (length D) _ [] ps [] [] Hps Hf (laid_nil _)) as Hone. by rewrite app_nil_r in Hone.
    + unfold pt_recs. cbn [add_entry pt_entries]. rewrite fmap_app. apply Forall_app. split; [done|]. constructor; [|done]. by apply serialize_bytes.
    + by rewrite app_nil_r.
    + cbn [add_entry pt_closed]. rewrite Hc. rewrite <- (take_nil 0). change (take 0 (@nil Z)) with (take 0 (enc (length (enc 0 (lay ++ ps))) [])).
      constructor; [constructor|done|by left].
    + unfold small. unfold D'. rewrite length_app. rewrite HD in *. lia.
  - rewrite <- HDl. unfold D'. rewrite length_app. rewrite HD in *. lia.
  - unfold D'. rewrite length_app. rewrite HD in *. lia.
Qed.

(** ** The effect on the binlog *)

(** A part is not touched by a write to another one. *)
Lemma part_file_other fs path W W' p k D : part_file fs path W p -> index_ok (pt_index p) -> index_ok k -> pt_index p <> k -> (W <= W')%nat ->
  part_file (write_file (log_file path k) D fs) path W' p.
Proof.
  intros (D0 & lay & ends & tail & []) Hi Hk Hne HW. exists D0, lay, ends, tail. split; [|done|done|lia|lia].
  rewrite lookup_write_ne; [done|]. intros E. apply Hne. symmetry. by eapply log_file_inj.
Qed.

Lemma sorted_app_lt a p b : StronglySorted (fun p q => pt_index p < pt_index q) (a ++ p :: b) -> Forall (fun q => pt_index q < pt_index p) a.
Proof.
  induction a as [|x a IH]; intros Hs; [constructor|]. simpl in Hs. apply StronglySorted_inv in Hs as [Hs Ha]. constructor; [|by apply IH].
  rewrite Forall_forall in Ha. apply Ha. set_solver.
Qed.
Lemma sorted_replace a p q : pt_index q = pt_index p -> StronglySorted (fun p q => pt_index p < pt_index q) (a ++ [p]) ->
  StronglySorted (fun p q => pt_index p < pt_index q) (a ++ [q]).
Proof.
  intros Heq. induction a as [|x a IH]; intros Hs; simpl in *; [by repeat constructor|]. apply StronglySorted_inv in Hs as [Hs Ha].
  constructor; [by apply IH|]. apply Forall_app in Ha as [? Ha]. apply Forall_app. split; [done|]. apply Forall_cons in Ha as [? _]. constructor; [lia|constructor].
Qed.

(** A write to the last part *)
Lemma binlog_update fs logs path W W' base a p q D : binlog fs logs path W base (a ++ [p]) -> pt_index q = pt_index p -> pt_start q = pt_start p ->
  numbered (pt_start q) (pt_entries q) -> (W <= W')%nat -> Z.of_nat W' + 13 < 2 ^ 62 ->
  part_file (write_file (log_file path (pt_index p)) D fs) path W' q ->
  binlog (write_file (log_file path (pt_index p)) D fs) logs path W' base (a ++ [q]).
Proof.
  intros [Hl Hs Hi Hf Hch Hn Hb] Hqi Hqs Hnum HWW HW Hq. apply Forall_app in Hi as [Hia Hip], Hf as [Hfa _], Hn as [Hna _].
  apply Forall_cons in Hip as [Hip _]. split.
  - rewrite reverse_keys in Hl |- *. unfold pt_key in *. by rewrite Hqi, Hqs.
  - by eapply sorted_replace.
  - apply Forall_app. split; [done|]. constructor; [by rewrite Hqi|constructor].
  - apply Forall_app. split; [|by constructor]. apply sorted_app_lt in Hs. rewrite Forall_forall in Hfa, Hia, Hs |- *. intros x Hx.
    apply (part_file_other fs path W); [by apply Hfa|by apply Hia|done| |done]. specialize (Hs _ Hx). simpl in Hs. lia.
  - apply chained_app in Hch as [Hca Hcp]. apply chained_app. split; [done|]. cbn [chained] in *. by rewrite Hqs.
  - apply Forall_app. split; [done|]. by constructor.
  - done.
Qed.

Lemma binlog_close fs logs path W base a p D lay ends tail : binlog fs logs path W base (a ++ [p]) -> part_data fs path W p D lay ends tail ->
  let N := length (enc 0 lay) in let D' := enc 0 lay ++ enc N eof_piece ++ drop (length (enc N eof_piece)) tail in
  binlog (write_file (log_file path (pt_index p)) D' fs) logs path W base (a ++ [close p]).
Proof.
  intros Hb Hp N D'. pose proof (bl_bound _ _ _ _ _ _ Hb) as HW. eapply binlog_update; try done.
  - pose proof (bl_numbers _ _ _ _ _ _ Hb) as Hn. apply Forall_app in Hn as [_ Hn]. by apply Forall_cons in Hn as [? _].
  - destruct (close_data _ _ _ _ _ _ _ _ Hp HW) as (tail' & Hc). by exists D', lay, ends, tail'.
Qed.

Lemma numbered_snoc start es e : numbered start es -> le_log_index e = start + 1 + Z.of_nat (length es) -> entry_fits e = true -> numbered start (es ++ [e]).
Proof.
  intros Hn He Hf i e' Hi. destruct (decide (i < length es)%nat) as [Hlt|Hge]; [rewrite lookup_app_l in Hi by done; by apply Hn|].
  rewrite lookup_app_r in Hi by lia. destruct (i - length es)%nat as [|n] eqn:Hd; [|by rewrite lookup_cons, lookup_nil in Hi]. injection Hi as <-. split; [lia|done].
Qed.

Lemma insert_largest k v (xs : list (Z * Z)) : Forall (fun x => x.1 < k) xs -> seq_insert k v xs = (k, v) :: xs.
Proof.
  destruct xs as [|x xs]; intros Hf; [done|]. apply Forall_cons in Hf as [Hx _]. cbn [seq_insert]. unfold adv_lt, compare_, time_comparator, TimeComparator.
  rewrite bool_decide_eq_false_2; [done|]. repeat case_decide; lia.
Qed.

(** A new part *)
Lemma binlog_roll fs logs path W base ps k start : binlog fs logs path W base ps -> index_ok k -> Forall (fun p => pt_index p < k) ps ->
  start = base + Z.of_nat (length (all_entries ps)) -> fs_denied fs (log_file path k) = false ->
  exists x logs', Insert logs k start = Some (x, logs') /\
    binlog (write_file (log_file path k) [] fs) logs' path W base (ps ++ [MkPart k start [] false]) /\
    part_data (write_file (log_file path k) [] fs) path W (MkPart k start [] false) [] [] [] [].
Proof.
  intros [Hl Hs Hi Hf Hch Hn Hb] Hk Hlt Hst Hden. destruct (Insert_rep _ _ k start Hl) as (x & logs' & Hins & Hl').
  exists x, logs'. split; [done|]. assert (Hpd : part_data (write_file (log_file path k) [] fs) path W (MkPart k start [] false) [] [] [] []).
  { split; [apply lookup_write|done| |simpl; lia|simpl; lia]. split; [constructor|constructor|done| |unfold small; simpl; lia].
    apply (tail_open _ [] 0); [constructor|done|by left]. }
  split; [|done]. split.
  - rewrite reverse_keys. cbn [fmap list_fmap app]. rewrite reverse_nil. cbn [app pt_key pt_index pt_start].
    rewrite insert_largest in Hl'; [done|]. by apply Forall_reverse, Forall_fmap.
  - by apply StronglySorted_snoc.
  - apply Forall_app. by split; [|constructor].
  - apply Forall_app. split; [|constructor; [|constructor]; by eexists _, _, _, _]. rewrite Forall_forall in Hf, Hi, Hlt |- *. intros p Hp.
    apply (part_file_other fs path W); [by apply Hf|by apply Hi|done| |done]. specialize (Hlt _ Hp). simpl in Hlt. lia.
  - apply chained_app. split; [done|]. by split.
  - apply Forall_app. split; [done|]. constructor; [by intros i e|constructor].
  - done.
Qed.
End write.
