(* ===== verification/BinlogRecover.v ===== *)
(** Recovery of a table from its binlog (storage/binlog.cc): every complete
    entry after the given offset is applied once, in order, whatever the files
    end in, and the log is ended behind its last entry. *)
From Stdlib Require Import String.
From S2P Require Import Prelude Slice LogFile LogWriter LogLayout LogReader LogRoundtrip LogThms LogLive Random Skiplist SkiplistInv.
From S2P Require Import SkiplistInsert SkiplistSplit SkiplistSpec StdMap Strings LogRoll LogGrow Table MemTable Binlog BinlogWrite.

Section recover.
Context `{BinlogFlags} `{Compressors} `{EntryCodecLaws} {T : Type} `{TableOps T}.
Implicit Types (fs : FileSystem) (logs : LogParts) (ps : list part) (p : part) (r : LogReader) (t : T).

(** ** The specification of a replay

    Entries up to [cur] are passed over; the table is collected after every
    [FLAGS_gc_on_table_recover_count] entries.  The result is the table, the
    offset of the last entry and the number of entries applied. *)
Fixpoint replay (clock : Z -> nat -> nat -> Z) t (cur cnt : Z) (es : list LogEntry) : option (T * Z * Z) :=
  match es with
  | [] => Some (t, cur, cnt)
  | e :: es' =>
      if decide (le_log_index e <= cur) then replay clock t cur cnt es'
      else
        t ← apply_entry t e;
        let cnt := u64 (cnt + 1) in
        t ← (if decide (cnt `mod` FLAGS_gc_on_table_recover_count = 0) then tbl_SchedGc t (clock cnt) else Some t);
        replay clock t (le_log_index e) cnt es'
  end.

Lemma replay_app clock es1 es2 : forall t cur cnt,
  replay clock t cur cnt (es1 ++ es2) = '(t, cur, cnt) ← replay clock t cur cnt es1; replay clock t cur cnt es2.
Proof.
  induction es1 as [|e es1 IH]; intros t cur cnt; cbn [app replay]; [done|]. case_decide; [apply IH|].
  destruct (apply_entry t e) as [t1|]; [|done]. rewrite !bind_some. cbv zeta. destruct (if decide _ then _ else _) as [t2|]; [|done]. rewrite !bind_some. apply IH.
Qed.

Context (gc_count : FLAGS_gc_on_table_recover_count <> 0).
Context (clock : Z -> nat -> nat -> Z).

(** ** Readers of a part *)

Definition reads path p D lay ends tail r (i : nat) : Prop :=
  lr_log_path r = path /\ lr_log_part_index r = pt_index p /\ lr_compressed r = false /\
  exists rd e, lr_reader r = Some (log_file path (pt_index p), rd) /\ rat D (pt_recs p) lay ends tail rd i /\
    (0%nat :: ends) !! i = Some e /\ rd_last_record_end_offset rd = Z.of_nat e.

Lemma reads_opened fs path W p D lay ends tail r : part_data fs path W p D lay ends tail -> lr_compressed r = false ->
  reads path p D lay ends tail (opened path r (pt_index p) D) 0.
Proof.
  intros Hp Hc. unfold reads, opened. cbn [lr_log_path lr_log_part_index lr_compressed lr_reader]. split; [done|]. split; [done|]. split; [done|]. rewrite Hc.
  eexists _, 0%nat. split; [done|]. split; [by eapply rat_open, pd_holds|]. done.
Qed.

(** ** The loop *)

Lemma loop_record fs logs path W p D lay ends tail r i e : part_data fs path W p D lay ends tail -> reads path p D lay ends tail r i ->
  pt_entries p !! i = Some e -> entry_fits e = true ->
  exists r', reads path p D lay ends tail r' (S i) /\ forall fuel t cur cnt last,
    RecoverFromBinlog_loop (S fuel) fs logs clock t r cur cnt last =
    '(t, cur, cnt) ← replay clock t cur cnt [e]; RecoverFromBinlog_loop fuel fs logs clock t r' cur cnt last.
Proof using All.
  intros Hp (Hpath & Hidx & Hc & rd & e0 & Hrd & Hat & He0 & Hle) He Hfit.
  destruct (read_ok snappy_length snappy_uncompress zlib_uncompress _ _ _ _ _ _ rd i (SerializeToString e) (pd_holds _ _ _ _ _ _ _ _ Hp) Hat) as (rd' & e1 & HR & Hat' & He1 & Hle1).
  { unfold pt_recs. by rewrite list_lookup_fmap, He. }
  exists (with_reader r (log_file path (pt_index p)) rd'). split.
  { split; [done|]. split; [done|]. split; [done|]. by exists rd', e1. }
  intros fuel t cur cnt last. cbn [RecoverFromBinlog_loop]. rewrite <- (rat_same_data _ _ _ _ _ _ _ Hat) in HR.
  rewrite (ReadNextRecord_open fs logs r _ rd D _ _ _ Hrd (pd_file _ _ _ _ _ _ _ _ Hp) HR). rewrite decide_False by done. rewrite bind_some. cbv beta iota.
  rewrite !decide_False by done. change (ok OK) with true. cbn [negb]. rewrite parse_serialize by done. cbn [replay].
  case_decide; [by rewrite bind_some|]. destruct (apply_entry t e) as [t1|]; [|done]. rewrite !bind_some. cbv zeta.
  rewrite require_P by done. destruct (if decide _ then _ else _) as [t2|]; [|done]. by rewrite !bind_some.
Qed.

Lemma loop_records fs logs path W p D lay ends tail : part_data fs path W p D lay ends tail -> numbered (pt_start p) (pt_entries p) ->
  forall n r i, (i + n = length (pt_entries p))%nat -> reads path p D lay ends tail r i ->
  exists r', reads path p D lay ends tail r' (length (pt_entries p)) /\ forall fuel t cur cnt last,
    RecoverFromBinlog_loop (n + fuel) fs logs clock t r cur cnt last =
    '(t, cur, cnt) ← replay clock t cur cnt (drop i (pt_entries p)); RecoverFromBinlog_loop fuel fs logs clock t r' cur cnt last.
Proof using All.
  intros Hp Hnum. induction n as [|n IH]; intros r i Hi Hr.
  - exists r. rewrite Nat.add_0_r in Hi. subst i. split; [done|]. intros. by rewrite drop_all.
  - destruct (lookup_lt_is_Some_2 (pt_entries p) i) as [e He]; [lia|].
    destruct (loop_record fs logs path W p D lay ends tail r i e Hp Hr He) as (r1 & Hr1 & Hstep); [by apply (Hnum i)|].
    destruct (IH r1 (S i) ltac:(lia) Hr1) as (r' & Hr' & Hrest). exists r'. split; [done|]. intros fuel t cur cnt last. cbn [Nat.add]. rewrite Hstep.
    rewrite (drop_S _ _ _ He). change (e :: drop (S i) (pt_entries p)) with ([e] ++ drop (S i) (pt_entries p)). rewrite replay_app.
    destruct (replay clock t cur cnt [e]) as [[[t1 cur1] cnt1]|]; [|done]. rewrite !bind_some. apply Hrest.
Qed.

Lemma length_recs p : length (pt_recs p) = length (pt_entries p).
Proof. apply length_fmap. Qed.

(** At the end of a part that has a successor *)
Lemma loop_next_part fs logs path W base a p q b D lay ends tail r last : binlog fs logs path W base (a ++ p :: q :: b) ->
  part_data fs path W p D lay ends tail -> reads path p D lay ends tail r (length (pt_entries p)) -> last <= pt_index p ->
  exists D' lay' ends' tail' r' last', part_data fs path W q D' lay' ends' tail' /\ reads path q D' lay' ends' tail' r' 0 /\ last' <= pt_index q /\
    forall fuel t cur cnt, RecoverFromBinlog_loop (S fuel) fs logs clock t r cur cnt last = RecoverFromBinlog_loop fuel fs logs clock t r' cur cnt last'.
Proof using All.
  intros Hb Hp (Hpath & Hidx & Hc & rd & e0 & Hrd & Hat & He0 & Hle) Hlast. pose proof (pd_holds _ _ _ _ _ _ _ _ Hp) as Hh.
  assert (Hlt : pt_index p < pt_index q) by (eapply index_lt; [done|left]). rewrite <- length_recs in Hat. pose proof (rat_same_data _ _ _ _ _ _ _ Hat) as Hset.
  destruct (pt_closed p) eqn:Hcl.
  - destruct (read_end snappy_length snappy_uncompress zlib_uncompress _ _ _ _ _ rd Hh Hat) as (rd' & HR & _). rewrite <- Hset in HR.
    set (r1 := with_reader r (log_file path (pt_index p)) rd'). destruct (roll_next fs logs path W base a p q b r1 Hb Hpath Hidx) as (D' & lay' & ends' & tail' & Hq & Hroll).
    eexists D', lay', ends', tail', (opened path r1 (pt_index q) D'), (pt_index q). split; [done|]. split; [by eapply reads_opened|]. split; [lia|].
    intros fuel t cur cnt. cbn [RecoverFromBinlog_loop]. rewrite (ReadNextRecord_open fs logs r _ rd D _ _ _ Hrd (pd_file _ _ _ _ _ _ _ _ Hp) HR).
    rewrite decide_True by done. fold r1. rewrite Hroll, !bind_some. cbv beta iota. rewrite decide_False, decide_True by done. rewrite decide_True; [done|].
    cbn [GetLogIndex opened lr_log_part_index]. lia.
  - destruct (read_wait snappy_length snappy_uncompress zlib_uncompress _ _ _ _ _ rd Hh Hat) as (rd' & j & L & HR & _). rewrite <- Hset in HR.
    set (r1 := with_reader r (log_file path (pt_index p)) rd'). destruct (roll_next fs logs path W base a p q b r1 Hb Hpath Hidx) as (D' & lay' & ends' & tail' & Hq & Hroll).
    eexists D', lay', ends', tail', (opened path r1 (pt_index q) D'), last. split; [done|]. split; [by eapply reads_opened|]. split; [lia|].
    intros fuel t cur cnt. cbn [RecoverFromBinlog_loop]. rewrite (ReadNextRecord_open fs logs r _ rd D _ _ _ Hrd (pd_file _ _ _ _ _ _ _ _ Hp) HR).
    rewrite decide_False by done. fold r1. rewrite bind_some. cbv beta iota. rewrite decide_True by done.
    assert (Hend : exists z, GetEndLogIndex logs = Some z /\ 0 <= z /\ pt_index p < z).
    { destruct (exists_last (l := q :: b)) as (b' & z & Hz); [done|]. rewrite Hz in Hb. exists (pt_index z). change (a ++ p :: b' ++ [z]) with (a ++ (p :: b') ++ [z]) in Hb.
      split; [rewrite app_assoc in Hb; by eapply end_index|]. assert (pt_index p < pt_index z) by (eapply index_lt; [exact Hb|]; set_solver).
      split; [|done]. pose proof (bl_index _ _ _ _ _ _ Hb) as Hok. apply Forall_app in Hok as [_ Hok]. apply Forall_cons in Hok as [[? ?] _]. lia. }
    destruct Hend as (z & -> & Hz0 & Hz). rewrite bind_some. cbv zeta. rewrite decide_True; [by rewrite Hroll, bind_some|].
    unfold GetLogIndex, r1, with_reader, set_lr_reader. cbn [lr_log_part_index]. lia.
Qed.

(** At the end of the last part *)
Lemma loop_last_part fs logs path W base a p D lay ends tail r last : binlog fs logs path W base (a ++ [p]) ->
  part_data fs path W p D lay ends tail -> reads path p D lay ends tail r (length (pt_entries p)) ->
  exists r' (b : bool), (if b then pt_closed p = true else lr_log_part_index r' = pt_index p /\ GetLastRecordEndOffset r' = Z.of_nat (length (enc 0 lay))) /\
    forall fuel t cur cnt, RecoverFromBinlog_loop (S (S fuel)) fs logs clock t r cur cnt last = Some (t, r', cur, b).
Proof using All.
  intros Hb Hp (Hpath & Hidx & Hc & rd & e0 & Hrd & Hat & He0 & Hle). pose proof (pd_holds _ _ _ _ _ _ _ _ Hp) as Hh.
  rewrite <- length_recs in Hat, He0. pose proof (rat_same_data _ _ _ _ _ _ _ Hat) as Hset. rewrite (laid_last _ _ _ _ (hd_laid _ _ _ _ _ _ Hh)) in He0. injection He0 as <-.
  assert (Hwait : forall r1 rd1 rd2 fuel t cur cnt last, lr_reader r1 = Some (log_file path (pt_index p), rd1) -> lr_log_part_index r1 = pt_index p ->
    ReadRecord snappy_length snappy_uncompress zlib_uncompress (S (S (length D))) (set_data D rd1) = Some (WaitRecord, [], rd2) ->
    RecoverFromBinlog_loop (S fuel) fs logs clock t r1 cur cnt last = Some (t, with_reader r1 (log_file path (pt_index p)) rd2, cur, false)).
  { intros r1 rd1 rd2 fuel t cur cnt last' Hr1 Hi1 HR. cbn [RecoverFromBinlog_loop].
    rewrite (ReadNextRecord_open fs logs r1 _ rd1 D _ _ _ Hr1 (pd_file _ _ _ _ _ _ _ _ Hp) HR). rewrite decide_False by done. rewrite bind_some. cbv beta iota.
    rewrite decide_True by done. rewrite (end_index _ _ _ _ _ _ _ Hb), bind_some. cbv zeta. rewrite decide_False; [done|].
    unfold GetLogIndex, with_reader, set_lr_reader. cbn [lr_log_part_index]. lia. }
  destruct (pt_closed p) eqn:Hcl.
  - destruct (read_end snappy_length snappy_uncompress zlib_uncompress _ _ _ _ _ rd Hh Hat) as (rd1 & HR & Hpast & Hle1). rewrite <- Hset in HR.
    set (r1 := with_reader r (log_file path (pt_index p)) rd1). pose proof (roll_none fs logs path W base a p r1 Hb Hidx) as Hroll.
    destruct (read_past snappy_length snappy_uncompress zlib_uncompress _ _ _ _ _ _ rd1 Hh Hpast) as (rd2 & j & L & HR2 & _ & _ & _ & _ & Hle2).
    assert (Hset1 : set_data D rd1 = rd1) by (destruct Hpast as (? & ? & ? & ? & ? & _ & Hi & _); eapply set_data_id, ri_file, Hi). rewrite <- Hset1 in HR2.
    assert (Hstep : forall fuel t cur cnt, RecoverFromBinlog_loop (S fuel) fs logs clock t r cur cnt last =
      if decide (pt_index p <> last) then RecoverFromBinlog_loop fuel fs logs clock t r1 cur cnt (pt_index p) else Some (t, r1, cur, true)).
    { intros fuel t cur cnt. cbn [RecoverFromBinlog_loop]. rewrite (ReadNextRecord_open fs logs r _ rd D _ _ _ Hrd (pd_file _ _ _ _ _ _ _ _ Hp) HR).
      rewrite decide_True by done. fold r1. rewrite Hroll, !bind_some. cbv beta iota. rewrite decide_False, decide_True by done.
      change (GetLogIndex r1) with (lr_log_part_index r). by rewrite Hidx. }
    destruct (decide (pt_index p = last)) as [Heq|Hne].
    + exists r1, true. split; [done|]. intros. rewrite Hstep, decide_False; [done|]. intros Hx. by apply Hx.
    + exists (with_reader r1 (log_file path (pt_index p)) rd2), false. split; [split; [done|]|].
      * unfold GetLastRecordEndOffset, with_reader, set_lr_reader. cbn [lr_reader]. by rewrite Hle2, Hle1.
      * intros. rewrite Hstep, decide_True by done. by apply (Hwait r1 rd1).
  - destruct (read_wait snappy_length snappy_uncompress zlib_uncompress _ _ _ _ _ rd Hh Hat) as (rd1 & j & L & HR & _ & _ & _ & _ & Hle1). rewrite <- Hset in HR.
    exists (with_reader r (log_file path (pt_index p)) rd1), false. split; [split; [done|]|].
    + unfold GetLastRecordEndOffset, with_reader, set_lr_reader. cbn [lr_reader]. by rewrite Hle1.
    + intros. by apply (Hwait r rd).
Qed.

(** From the start of a part to the end of the log *)
Definition rounds ps : nat := S (length (all_entries ps) + length ps).
Lemma all_entries_cons p ps : all_entries (p :: ps) = pt_entries p ++ all_entries ps.
Proof. done. Qed.

Lemma loop_parts fs logs path W base todo : forall a p D lay ends tail r last, binlog fs logs path W base (a ++ p :: todo) ->
  part_data fs path W p D lay ends tail -> reads path p D lay ends tail r 0 -> last <= pt_index p ->
  exists r' (b : bool) c q D' lay' ends' tail', p :: todo = c ++ [q] /\ part_data fs path W q D' lay' ends' tail' /\
    (if b then pt_closed q = true else lr_log_part_index r' = pt_index q /\ GetLastRecordEndOffset r' = Z.of_nat (length (enc 0 lay'))) /\
    forall fuel t cur cnt, (rounds (p :: todo) <= fuel)%nat -> RecoverFromBinlog_loop fuel fs logs clock t r cur cnt last =
      '(t, cur, _) ← replay clock t cur cnt (all_entries (p :: todo)); Some (t, r', cur, b).
Proof using All.
  induction todo as [|q todo IH]; intros a p D lay ends tail r last Hb Hp Hr Hlast.
  - assert (Hnum : numbered (pt_start p) (pt_entries p)).
    { pose proof (bl_numbers _ _ _ _ _ _ Hb) as Hn. apply Forall_app in Hn as [_ Hn]. by apply Forall_cons in Hn as [? _]. }
    destruct (loop_records fs logs path W p D lay ends tail Hp Hnum (length (pt_entries p)) r 0 eq_refl Hr) as (r1 & Hr1 & Hrecs).
    destruct (loop_last_part fs logs path W base a p D lay ends tail r1 last Hb Hp Hr1) as (r' & b & Hfin & Hend).
    exists r', b, [], p, D, lay, ends, tail. split; [done|]. split; [done|]. split; [done|]. intros fuel t cur cnt Hf.
    unfold rounds in Hf. rewrite all_entries_cons, length_app in Hf. cbn [length all_entries mbind list_bind] in Hf.
    replace fuel with (length (pt_entries p) + (S (S (fuel - length (pt_entries p) - 2))))%nat by lia. rewrite Hrecs, all_entries_cons, app_nil_r, drop_0.
    destruct (replay clock t cur cnt (pt_entries p)) as [[[t1 cur1] cnt1]|]; [|done]. rewrite !bind_some. apply Hend.
  - assert (Hnum : numbered (pt_start p) (pt_entries p)).
    { pose proof (bl_numbers _ _ _ _ _ _ Hb) as Hn. apply Forall_app in Hn as [_ Hn]. by apply Forall_cons in Hn as [? _]. }
    destruct (loop_records fs logs path W p D lay ends tail Hp Hnum (length (pt_entries p)) r 0 eq_refl Hr) as (r1 & Hr1 & Hrecs).
    destruct (loop_next_part fs logs path W base a p q todo D lay ends tail r1 last Hb Hp Hr1 Hlast) as (D2 & lay2 & ends2 & tail2 & r2 & last2 & Hq & Hr2 & Hl2 & Hstep).
    assert (Hb' : binlog fs logs path W base ((a ++ [p]) ++ q :: todo)) by (by rewrite <- app_assoc).
    destruct (IH (a ++ [p]) q D2 lay2 ends2 tail2 r2 last2 Hb' Hq Hr2 Hl2) as (r' & b & c & z & D3 & lay3 & ends3 & tail3 & Hz & Hpz & Hfin & Hrest).
    exists r', b, (p :: c), z, D3, lay3, ends3, tail3. split; [by rewrite Hz|]. split; [done|]. split; [done|]. intros fuel t cur cnt Hf.
    unfold rounds in Hf. rewrite all_entries_cons, length_app in Hf. cbn [length] in Hf.
    replace fuel with (length (pt_entries p) + (S (fuel - length (pt_entries p) - 1)))%nat by lia. rewrite Hrecs, (all_entries_cons p (q :: todo)), replay_app, drop_0.
    destruct (replay clock t cur cnt (pt_entries p)) as [[[t1 cur1] cnt1]|]; [|done]. rewrite !bind_some, Hstep. apply Hrest. unfold rounds. cbn [length]. lia.
Qed.

(** ** Where the replay starts *)

Lemma replay_below es : forall t cur cnt, Forall (fun e => le_log_index e <= cur) es -> replay clock t cur cnt es = Some (t, cur, cnt).
Proof using. induction es as [|e es IH]; intros t cur cnt Hf; [done|]. apply Forall_cons in Hf as [He Hf]. cbn [replay]. rewrite decide_True by done. by apply IH. Qed.

Lemma numbered_below start es : numbered start es -> Forall (fun e => le_log_index e <= start + Z.of_nat (length es)) es.
Proof using. intros Hn. apply Forall_lookup_2. intros i e Hi. destruct (Hn i e Hi) as [-> _]. apply lookup_lt_Some in Hi. lia. Qed.

Lemma chained_below base ps : chained base ps -> Forall (fun p => numbered (pt_start p) (pt_entries p)) ps ->
  Forall (fun e => le_log_index e <= base + Z.of_nat (length (all_entries ps))) (all_entries ps).
Proof using.
  revert base; induction ps as [|p ps IH]; intros base Hc Hn; [constructor|]. destruct Hc as [<- Hc]. apply Forall_cons in Hn as [Hp Hn].
  rewrite all_entries_cons, length_app. apply Forall_app. split.
  - eapply Forall_impl; [by apply numbered_below|]. cbv beta. lia.
  - eapply Forall_impl; [by apply (IH _ Hc Hn)|]. cbv beta. lia.
Qed.

(** The part that holds an offset: the last one that does not start after it *)
Lemma chained_starts base ps : chained base ps -> Forall (fun p => base <= pt_start p) ps.
Proof using.
  revert base; induction ps as [|p ps IH]; intros base Hc; [constructor|]. destruct Hc as [<- Hc]. constructor; [lia|].
  eapply Forall_impl; [by apply (IH _ Hc)|]. cbv beta. lia.
Qed.
Lemma seq_find_part base ps off : chained base ps -> ps <> [] -> base <= off ->
  exists a p b, ps = a ++ p :: b /\ seq_find off (reverse (pt_key <$> ps)) = pt_index p /\ pt_start p <= off.
Proof using.
  intros Hc Hne Hoff. unfold seq_find. destruct (list_find _ _) as [[i x]|] eqn:Hf.
  - apply list_find_Some in Hf as (Hx & Hle & _). apply list_elem_of_lookup_2, elem_of_reverse, list_elem_of_fmap in Hx as (p & -> & Hp).
    apply list_elem_of_split in Hp as (a & b & ->). by exists a, p, b.
  - exfalso. apply list_find_None in Hf. apply Forall_reverse in Hf. rewrite reverse_involutive in Hf. destruct ps as [|p ps]; [done|].
    destruct Hc as [<- _]. apply Forall_cons in Hf as [Hp _]. apply Hp. done.
Qed.

(** ** [RecoverFromBinlog] *)

Fixpoint close_last ps : list part :=
  match ps with [] => [] | [p] => [close p] | p :: ps' => p :: close_last ps' end.
Lemma close_last_snoc a q : close_last (a ++ [q]) = a ++ [close q].
Proof using. induction a as [|p a IH]; [done|]. cbn [app close_last]. destruct (a ++ [q]) eqn:E; [by destruct a|]. by rewrite IH. Qed.

(** Only the file of the last part is written. *)
Definition touched path ps fs fs' : Prop :=
  fs' = fs \/ exists q D, last ps = Some q /\ fs' = write_file (log_file path (pt_index q)) D fs.

Lemma first_roll fs logs path W base a p b off : binlog fs logs path W base (a ++ p :: b) -> seq_find off (reverse (pt_key <$> a ++ p :: b)) = pt_index p ->
  exists D lay ends tail r, part_data fs path W p D lay ends tail /\ reads path p D lay ends tail r 0 /\
    ReadNextRecord fs logs (LogReader_SetOffset off (LogReader_new path false)) = ReadNextRecord fs logs r.
Proof using.
  intros Hb Hf. set (r0 := LogReader_SetOffset off (LogReader_new path false)).
  pose proof (bl_index _ _ _ _ _ _ Hb) as Hok. apply Forall_app in Hok as [_ Hok]. apply Forall_cons in Hok as [Hkp _].
  pose proof (bl_files _ _ _ _ _ _ Hb) as Hfs. apply Forall_app in Hfs as [_ Hfs]. apply Forall_cons in Hfs as [(D & lay & ends & tail & Hp) _].
  exists D, lay, ends, tail, (opened path r0 (pt_index p) D). split; [done|]. split; [by eapply reads_opened|].
  unfold ReadNextRecord. cbn [r0 LogReader_SetOffset LogReader_new lr_reader opened].
  assert (Hroll : RollRLogFile fs logs r0 = Some (roll_to fs r0 (seq_find (lr_start_offset r0) (reverse (pt_key <$> a ++ p :: b))))).
  { apply RollRLogFile_first; [apply Hb|by eapply index_keys|by eapply binlog_count|done]. }
  fold r0. rewrite Hroll. change (lr_start_offset r0) with off. rewrite Hf. rewrite (roll_to_part _ _ _ _ _ _ _ _ r0 Hp Hkp eq_refl). by rewrite !bind_some.
Qed.

Lemma binlog_prefix_replay fs logs path W base a p b off t : binlog fs logs path W base (a ++ p :: b) -> pt_start p <= off ->
  replay clock t off 0 (all_entries (a ++ p :: b)) = replay clock t off 0 (all_entries (p :: b)).
Proof using.
  intros Hb Hoff. unfold all_entries at 1. rewrite bind_app. fold (all_entries a) (all_entries (p :: b)).
  pose proof (bl_chain _ _ _ _ _ _ Hb) as Hc. apply chained_app in Hc as [Hca [Hcp _]].
  pose proof (bl_numbers _ _ _ _ _ _ Hb) as Hn. apply Forall_app in Hn as [Hna _].
  rewrite replay_app, replay_below, bind_some; [done|]. eapply Forall_impl; [by eapply chained_below|]. cbv beta. lia.
Qed.

Lemma RecoverFromBinlog_spec fs logs path W base ps off fuel : binlog fs logs path W base ps -> (ps = [] \/ base <= off) ->
  Forall (fun p => writable fs (log_file path (pt_index p))) ps -> (rounds ps <= fuel)%nat ->
  exists fs', binlog fs' logs path W base (close_last ps) /\ touched path ps fs fs' /\
    forall t, RecoverFromBinlog fuel fs logs path clock t off = '(t, cur, _) ← replay clock t off 0 (all_entries ps); Some (true, cur, t, fs').
Proof using All.
  intros Hb Hoff Hw Hf. destruct (decide (ps = [])) as [->|Hne].
  { exists fs. split; [done|]. split; [by left|]. intros t. cbn [all_entries mbind list_bind replay option_bind]. unfold RecoverFromBinlog.
    destruct fuel as [|fuel]; [unfold rounds in Hf; lia|]. cbn [RecoverFromBinlog_loop]. unfold ReadNextRecord. cbn [LogReader_SetOffset LogReader_new lr_reader].
    rewrite (RollRLogFile_nil _ _ _ (bl_logs _ _ _ _ _ _ Hb)), bind_some. cbv beta iota. rewrite decide_True by lia. rewrite bind_some. cbv beta iota.
    rewrite decide_True by done. rewrite (GetEndLogIndex_nil _ (bl_logs _ _ _ _ _ _ Hb)), bind_some. cbv zeta. rewrite decide_False by lia. by rewrite bind_some. }
  destruct Hoff as [|Hoff]; [done|].
  destruct (seq_find_part base ps off (bl_chain _ _ _ _ _ _ Hb) Hne Hoff) as (a & p & b & -> & Hfind & Hst).
  destruct (first_roll _ _ _ _ _ _ _ _ _ Hb Hfind) as (D & lay & ends & tail & r & Hp & Hr & Hread).
  assert (Hidx : -1 <= pt_index p).
  { pose proof (bl_index _ _ _ _ _ _ Hb) as Hok. apply Forall_app in Hok as [_ Hok]. apply Forall_cons in Hok as [[[? ?] _] _]. lia. }
  destruct (loop_parts fs logs path W base b a p D lay ends tail r (-1) Hb Hp Hr Hidx) as (r' & bl & c & q & D' & lay' & ends' & tail' & Hq & Hpq & Hfin & Hloop).
  set (r0 := LogReader_SetOffset off (LogReader_new path false)) in *.
  assert (Hstart : forall t, RecoverFromBinlog_loop fuel fs logs clock t r0 off 0 (GetLogIndex r0) = '(t, cur, _) ← replay clock t off 0 (all_entries (a ++ p :: b)); Some (t, r', cur, bl)).
  { intros t. assert (Hfuel : (rounds (p :: b) <= fuel)%nat).
    { etransitivity; [|exact Hf]. unfold rounds, all_entries. rewrite bind_app, !length_app. lia. }
    rewrite (binlog_prefix_replay _ _ _ _ _ _ _ _ _ _ Hb Hst), <- (Hloop fuel) by done. destruct fuel as [|fuel]; [unfold rounds in Hf; lia|].
    cbn [RecoverFromBinlog_loop]. by rewrite Hread. }
  rewrite Hq, app_assoc in Hb, Hw |- *. set (z := a ++ c) in *. rewrite close_last_snoc.
  assert (Hbq : binlog fs logs path W base (z ++ [q])) by done.
  pose proof (bl_index _ _ _ _ _ _ Hbq) as Hok. apply Forall_app in Hok as [_ Hok]. apply Forall_cons in Hok as [Hkq _]. destruct bl.
  - exists fs. split; [|split; [by left|]].
    + replace (close q) with q; [done|]. destruct q. simpl in Hfin. by rewrite Hfin.
    + intros t. unfold RecoverFromBinlog. fold r0. rewrite Hstart. rewrite Hq, app_assoc. fold z. destruct (replay _ _ _ _ _) as [[[t1 cur1] cnt1]|]; [|done]. by rewrite !bind_some.
  - destruct Hfin as [Hi Hpos]. apply Forall_app in Hw as [_ Hw]. apply Forall_cons in Hw as [Hw _].
    pose proof (hd_data _ _ _ _ _ _ (pd_holds _ _ _ _ _ _ _ _ Hpq)) as HD'. set (N := length (enc 0 lay')) in *.
    destruct (WriteHandle_new_spec fs (log_file path (pt_index q)) D' N) as (wh & Hnew & Hwp & Hwk); [apply Hpq|done|rewrite HD', length_app; lia|].
    assert (Htake : take N D' = enc 0 lay') by (unfold N; by rewrite HD', take_app_length). rewrite Htake in Hwk.
    destruct (wh_EndLog_spec fs wh (enc 0 lay') D' Hwk) as (wh' & Hend); [rewrite Hwp; apply Hpq|]. fold N in Hend. rewrite Hwp in Hend.
    assert (Hdrop : forall k, drop (N + k) D' = drop k tail') by (intros k; unfold N; by rewrite HD', drop_app_add). rewrite Hdrop in Hend.
    eexists. split; [by apply (binlog_close fs logs path W base z q D' lay' ends' tail')|]. split.
    { right. eexists q, _. split; [apply last_snoc|done]. }
    intros t. unfold RecoverFromBinlog. fold r0. rewrite Hstart. rewrite Hq, app_assoc. fold z. destruct (replay _ _ _ _ _) as [[[t1 cur1] cnt1]|]; [|done]. rewrite !bind_some. cbv beta iota zeta.
    unfold GetLogIndex. rewrite Hi, decide_False by (destruct Hkq; lia). unfold fopen_read. rewrite (pd_denied _ _ _ _ _ _ _ _ Hpq), (pd_file _ _ _ _ _ _ _ _ Hpq), Hpos.
    rewrite Hnew, bind_some, Hend. by rewrite bind_some.
Qed.
End recover.
