(* ===== verification/TableLaws.v ===== *)
(** What the binlog, the replicator and the tablet rely on of a table: its
    operations are defined while there is room, and act on an abstract table. *)
From S2P Require Import Prelude StdMap LogRoll MemTable Binlog BinlogRecover.

(** [table_rep n t a]: the table [t] stands for [a] and has room for [n] more
    calls.  The operations on abstract tables give the answer of the call and the
    table after it; a refused call changes nothing. *)
Class TableLaws (T : Type) `{TableOps T} := {
  table_abs : Type;
  table_rep : nat -> T -> table_abs -> Prop;
  put_ok : LogEntry -> Prop;
  clock_ok : (nat -> nat -> Z) -> Prop;
  table_put : table_abs -> LogEntry -> bool * table_abs;
  table_delete : table_abs -> bytes -> Z -> bool * table_abs;
  table_gc : table_abs -> (nat -> nat -> Z) -> table_abs;
  table_rep_le m n t a : (m <= n)%nat -> table_rep n t a -> table_rep m t a;
  Put_rep n t a e : table_rep (S n) t a -> put_ok e -> exists t', tbl_Put t e = Some ((table_put a e).1, t') /\ table_rep n t' (table_put a e).2;
  Delete_rep n t a key idx : table_rep (S n) t a -> 0 <= idx ->
    exists t', tbl_Delete t key idx = Some ((table_delete a key idx).1, t') /\ table_rep n t' (table_delete a key idx).2;
  SchedGc_rep n t a now : table_rep (S n) t a -> clock_ok now -> exists t', tbl_SchedGc t now = Some t' /\ table_rep n t' (table_gc a now);
  table_leader : table_abs -> bool;
  table_idx_cnt : table_abs -> Z;
  table_index : table_abs -> bytes -> option Z;
  IsLeader_rep n t a : table_rep n t a -> tbl_IsLeader t = table_leader a;
  GetIdxCnt_rep n t a : table_rep n t a -> tbl_GetIdxCnt t = table_idx_cnt a;
  ReadyIndexId_rep n t a name : table_rep n t a -> tbl_ReadyIndexId t name = Some (table_index a name) /\ (forall i, table_index a name = Some i -> 0 <= i < 2 ^ 32);
  table_put_index a e i : table_put a (set_log_index i e) = table_put a e;
  table_put_refused a e : (table_put a e).1 = false -> (table_put a e).2 = a;
  table_delete_refused a key idx : (table_delete a key idx).1 = false -> (table_delete a key idx).2 = a;
  table_put_leader a e : table_leader (table_put a e).2 = table_leader a;
  table_delete_leader a key idx : table_leader (table_delete a key idx).2 = table_leader a;
  table_gc_leader a now : table_leader (table_gc a now) = table_leader a
}.
Arguments table_abs T {_ _}.

Section laws.
Context `{BinlogFlags} {T : Type} `{TableLaws T}.

(** The entries that can be applied, and what applying one does *)
Definition entry_ok (e : LogEntry) : Prop :=
  match le_method_type e with
  | Some kDelete => match le_dimensions e with [] => True | (idx, _) :: _ => 0 <= idx end
  | _ => put_ok e
  end.
Definition abs_apply (a : table_abs T) (e : LogEntry) : table_abs T :=
  match le_method_type e with
  | Some kDelete => match le_dimensions e with [] => a | (idx, key) :: _ => (table_delete a key idx).2 end
  | _ => (table_put a e).2
  end.

Lemma abs_apply_leader a e : table_leader (abs_apply a e) = table_leader a.
Proof. unfold abs_apply. destruct (le_method_type e) as [[]|], (le_dimensions e) as [|[] ?]; by rewrite ?table_put_leader, ?table_delete_leader. Qed.

Lemma apply_entry_rep n t a e : table_rep (S n) t a -> entry_ok e -> exists t', apply_entry t e = Some t' /\ table_rep n t' (abs_apply a e).
Proof.
  unfold entry_ok, apply_entry, abs_apply. intros Hr He. destruct (le_method_type e) as [[]|].
  - destruct (Put_rep _ _ _ _ Hr He) as (t' & -> & Hr'). by exists t'.
  - destruct (le_dimensions e) as [|[idx key] dims]; [exists t; split; [done|]; eapply table_rep_le; [|exact Hr]; lia|].
    destruct (Delete_rep _ _ _ key idx Hr He) as (t' & -> & Hr'). by exists t'.
  - destruct (Put_rep _ _ _ _ Hr He) as (t' & -> & Hr'). by exists t'.
Qed.

(** The replay on abstract tables *)
Fixpoint abs_replay (clock : Z -> nat -> nat -> Z) (a : table_abs T) (cur cnt : Z) (es : list LogEntry) : table_abs T :=
  match es with
  | [] => a
  | e :: es' =>
      if decide (le_log_index e <= cur) then abs_replay clock a cur cnt es'
      else
        let a := abs_apply a e in
        let cnt := u64 (cnt + 1) in
        let a := if decide (cnt `mod` FLAGS_gc_on_table_recover_count = 0) then table_gc a (clock cnt) else a in
        abs_replay clock a (le_log_index e) cnt es'
  end.

Lemma replay_rep clock es : (forall n, clock_ok (clock n)) -> Forall entry_ok es -> forall n t a cur cnt, table_rep (2 * length es + n) t a ->
  exists t' m, replay clock t cur cnt es = Some (t', foldl (fun c e => Z.max c (le_log_index e)) cur es, m) /\ table_rep n t' (abs_replay clock a cur cnt es).
Proof.
  intros Hclk. induction es as [|e es IH]; intros Hes n t a cur cnt Hr; cbn [replay abs_replay foldl]; [by exists t, cnt|].
  apply Forall_cons in Hes as [He Hes]. cbn [length] in Hr. case_decide as Hle.
  - rewrite Z.max_l by done. apply IH; [done|]. eapply table_rep_le; [|exact Hr]. lia.
  - rewrite Z.max_r by lia. replace (2 * S (length es) + n)%nat with (S (S (2 * length es + n))) in Hr by lia.
    destruct (apply_entry_rep _ _ _ _ Hr He) as (t1 & -> & Hr1). rewrite bind_some. cbv zeta. case_decide as Hgc.
    + destruct (SchedGc_rep _ _ _ (clock (u64 (cnt + 1))) Hr1 (Hclk _)) as (t2 & -> & Hr2). rewrite bind_some. by apply IH.
    + rewrite bind_some. apply IH; [done|]. eapply table_rep_le; [|exact Hr1]. lia.
Qed.
End laws.
