(* ===== verification/SampleLog.v ===== *)
(** Concrete instances of what the log is parameterised by, for the examples: an
    encoding of entries with the round trip that the generated one documents, a
    configuration, and a table that keeps the calls made on it. *)
From Stdlib Require Import String.
From S2P Require Import Prelude StdMap LogRoll MemTable Binlog BinlogRecover TableLaws.

(** ** An encoding *)

(** A writer of [A] and a reader that takes back what was written *)
Record code (A : Type) : Type := MkCode {
  put : A -> bytes;
  get : bytes -> option (A * bytes);
  good : A -> Prop
}.
Arguments put {A}. Arguments get {A}. Arguments good {A}.
Class CodeOk {A} (c : code A) : Prop := {
  get_put : forall x r, good c x -> get c (put c x ++ r) = Some (x, r);
  put_bytes : forall x, good c x -> all_bytes (put c x)
}.

(** Numbers of [n] bytes *)
Definition num (n : nat) : code Z :=
  MkCode Z (le_bytes n) (fun s => if decide (n <= length s)%nat then Some (le_val (take n s), drop n s) else None) (fun x => 0 <= x < 2 ^ (8 * Z.of_nat n)).
#[global] Instance num_ok n : CodeOk (num n).
Proof.
  split; cbn [num put get good].
  - intros x r Hx. rewrite decide_True by (rewrite length_app, length_le_bytes; lia). rewrite take_app_length', drop_app_length' by (by rewrite length_le_bytes).
    by rewrite le_val_bytes, Z.mod_small.
  - intros x _. apply le_bytes_all.
Qed.

(** Pairs, options and lists; a list is written with a mark before each element *)
Definition pair_code {A B} (c : code A) (d : code B) : code (A * B) :=
  MkCode (A * B) (fun x => put c x.1 ++ put d x.2) (fun s => '(x, s) ← get c s; '(y, s) ← get d s; Some ((x, y), s)) (fun x => good c x.1 /\ good d x.2).
#[global] Instance pair_code_ok {A B} (c : code A) (d : code B) : CodeOk c -> CodeOk d -> CodeOk (pair_code c d).
Proof.
  intros Hc Hd. split; cbn [pair_code put get good].
  - intros [x y] r [Hx Hy]. cbn [fst snd] in *. rewrite <- app_assoc, get_put by done. rewrite bind_some, get_put by done. by rewrite bind_some.
  - intros [x y] [Hx Hy]. apply Forall_app. split; by apply put_bytes.
Qed.

Fixpoint get_list {A} (fuel : nat) (c : code A) (s : bytes) : option (list A * bytes) :=
  match fuel, s with
  | S fuel', m :: s => if decide (m = 0) then Some ([], s) else '(x, s) ← get c s; '(xs, s) ← get_list fuel' c s; Some (x :: xs, s)
  | _, _ => None
  end.
Definition put_list {A} (c : code A) (xs : list A) : bytes := (xs ≫= fun x => 1 :: put c x) ++ [0].
Definition list_code {A} (c : code A) : code (list A) :=
  MkCode (list A) (put_list c) (fun s => get_list (length s) c s) (Forall (good c)).
#[global] Instance list_code_ok {A} (c : code A) : CodeOk c -> CodeOk (list_code c).
Proof.
  intros Hc. split; cbn [list_code put get good].
  - intros xs r Hxs. assert (Hg : forall fuel, (length xs < fuel)%nat -> get_list fuel c (put_list c xs ++ r) = Some (xs, r)).
    { induction Hxs as [|x xs Hx Hxs IH]; intros [|fuel] Hf; try (simpl in Hf; lia); cbn [put_list mbind list_bind app get_list].
      - by rewrite decide_True.
      - rewrite decide_False by done. rewrite <- !app_assoc, get_put by done. rewrite bind_some. cbv beta iota. unfold put_list in IH. rewrite <- app_assoc in IH.
        cbn [length] in Hf. rewrite IH by lia. by rewrite bind_some. }
    apply Hg. rewrite length_app. unfold put_list. rewrite length_app. assert (Hl : (length xs <= length (xs ≫= fun x => (1 : Z) :: put c x))%nat); [|simpl; lia].
    clear. induction xs as [|x xs IH]; [done|]. rewrite bind_cons, length_app. cbn [length]. lia.
  - intros xs Hxs. unfold put_list. apply Forall_app. split; [|by repeat constructor]. induction Hxs as [|x xs Hx Hxs IH]; [constructor|]. cbn [mbind list_bind app].
    constructor; [done|]. apply Forall_app. split; [by apply put_bytes|done].
Qed.

(** A code for [A] from one for [B] *)
Definition map_code {A B} (f : A -> B) (g : B -> option A) (c : code B) : code A :=
  MkCode A (fun x => put c (f x)) (fun s => '(y, s) ← get c s; x ← g y; Some (x, s)) (fun x => good c (f x) /\ g (f x) = Some x).
#[global] Instance map_code_ok {A B} (f : A -> B) g (c : code B) : CodeOk c -> CodeOk (map_code f g c).
Proof.
  intros Hc. split; cbn [map_code put get good].
  - intros x r [Hx Hg]. rewrite get_put by done. rewrite bind_some. cbv beta iota. by rewrite Hg, bind_some.
  - intros x [Hx _]. by apply put_bytes.
Qed.

(** Entries: the term and the method are written as lists of at most one *)
Definition entry_tuple (e : LogEntry) : list Z * (Z * (list Z * (list Z * (Z * (list (Z * list Z) * (list Z * list (Z * Z))))))) :=
  (match le_term e with Some t => [t] | None => [] end,
   (le_log_index e, (le_pk e, (le_value e, (le_ts e, (le_dimensions e,
   (match le_method_type e with Some kPut => [0] | Some kDelete => [1] | None => [] end, le_ts_dimensions e))))))).
Definition tuple_entry (x : list Z * (Z * (list Z * (list Z * (Z * (list (Z * list Z) * (list Z * list (Z * Z)))))))) : option LogEntry :=
  let '(t, (i, (pk, (v, (ts, (dims, (m, tss))))))) := x in
  Some (MkLogEntry (head t) i pk v ts dims (match m with [] => None | 0 :: _ => Some kPut | _ => Some kDelete end) tss).
Definition str_code : code bytes := list_code (num 1).
Definition entry_code : code LogEntry :=
  map_code entry_tuple tuple_entry
    (pair_code (list_code (num 8)) (pair_code (num 8) (pair_code str_code (pair_code str_code (pair_code (num 8)
      (pair_code (list_code (pair_code (num 4) str_code)) (pair_code (list_code (num 1)) (list_code (pair_code (num 4) (num 8)))))))))).

#[global] Instance sample_codec : EntryCodec := {
  SerializeToString e := put entry_code e;
  ParseFromString s := fst <$> get entry_code s
}.

Lemma in_uintb_range w x : in_uintb w x = true -> 0 <= x < 2 ^ w.
Proof. apply bool_decide_eq_true. Qed.
Lemma bytesb_good s : bytesb s = true -> good str_code s.
Proof.
  unfold bytesb. rewrite forallb_forall. intros Hs. apply Forall_forall. intros b Hb. apply list_elem_of_In in Hb.
  specialize (Hs b Hb). by apply bool_decide_eq_true in Hs.
Qed.
Lemma entry_good e : entry_fits e = true -> good entry_code e.
Proof.
  unfold entry_fits. rewrite !andb_true_iff. intros [[[[[[Ht Hi] Hpk] Hv] Hts] Hd] Htd]. split; [|by destruct e as [[] ? ? ? ? ? [[]|] ?]].
  cbn [entry_tuple pair_code good fst snd]. split_and!.
  - destruct (le_term e); [|constructor]. constructor; [by apply in_uintb_range|constructor].
  - by apply in_uintb_range.
  - by apply bytesb_good.
  - by apply bytesb_good.
  - by apply in_uintb_range.
  - apply Forall_forall. intros d Hin. apply list_elem_of_In in Hin. rewrite forallb_forall in Hd. specialize (Hd d Hin). apply andb_true_iff in Hd as [? ?].
    split; [by apply in_uintb_range|by apply bytesb_good].
  - destruct (le_method_type e) as [[]|]; repeat constructor; simpl; lia.
  - apply Forall_forall. intros d Hin. apply list_elem_of_In in Hin. rewrite forallb_forall in Htd. specialize (Htd d Hin). apply andb_true_iff in Htd as [? ?].
    split; by apply in_uintb_range.
Qed.
#[global] Instance sample_codec_laws : EntryCodecLaws.
Proof.
  split; intros e He; cbn [SerializeToString ParseFromString sample_codec].
  - rewrite <- (app_nil_r (put entry_code e)), get_put by (by apply entry_good). done.
  - apply put_bytes. by apply entry_good.
Qed.

(** ** A configuration without compression *)
#[global] Instance log_flags : BinlogFlags := {
  FLAGS_binlog_name_length := 8;
  FLAGS_binlog_enable_crc := false;
  FLAGS_binlog_single_file_max_size := 1024;
  FLAGS_binlog_sync_batch_size := 32;
  FLAGS_go_back_max_try_cnt := 10;
  FLAGS_gc_on_table_recover_count := 10000000;
  FLAGS_zk_cluster := []
}.
#[global] Instance sample_compressors : Compressors := {
  snappy_compress s := s;
  zlib_compress s := (0, s);
  snappy_length s := Z.of_nat (length s);
  snappy_uncompress s := Some s;
  zlib_uncompress s := (0, s)
}.

(** ** A table that keeps the calls made on it *)
Inductive call : Type :=
  | CallPut (pk : bytes) (time : Z) (value : bytes)
  | CallPutDims (time : Z) (value : bytes) (dims : list (Z * bytes))
  | CallPutTs (dims : list (Z * bytes)) (tss : list (Z * Z)) (value : bytes)
  | CallDelete (pk : bytes) (idx : Z)
  | CallGc.
Definition journal : Type := list call.
#[global] Instance journal_ops : TableOps journal := {
  tbl_Put_pk t pk time value := Some (true, t ++ [CallPut pk time value]);
  tbl_Put_dims t time value dims := Some (true, t ++ [CallPutDims time value dims]);
  tbl_Put_ts t dims tss value := Some (true, t ++ [CallPutTs dims tss value]);
  tbl_Delete t pk idx := Some (true, t ++ [CallDelete pk idx]);
  tbl_SchedGc t _ := Some (t ++ [CallGc]);
  tbl_IsLeader _ := true;
  tbl_GetIdxCnt _ := 1;
  tbl_ReadyIndexId _ _ := Some (Some 0)
}.
#[global, refine] Instance journal_laws : TableLaws journal := {
  table_abs := journal;
  table_rep _ t a := t = a;
  put_ok _ := True;
  clock_ok _ := True;
  table_put a e := default (true, a) (tbl_Put a e);
  table_delete a key idx := (true, a ++ [CallDelete key idx]);
  table_gc a _ := a ++ [CallGc];
  table_leader _ := true;
  table_idx_cnt _ := 1;
  table_index _ _ := Some 0
}.
Proof.
  - done.
  - intros n t a e -> _. unfold tbl_Put. destruct (le_dimensions e) as [|[] ?], (le_ts_dimensions e); by eexists.
  - intros n t a key idx -> _. by eexists.
  - intros n t a now -> _. by eexists.
  - done.
  - done.
  - intros n t a name _. split; [reflexivity|]. intros i [= <-]. lia.
  - done.
  - intros a e. unfold tbl_Put. by destruct (le_dimensions e) as [|[] ?], (le_ts_dimensions e).
  - done.
  - done.
  - done.
  - done.
Defined.
