(* ===== verification/ReplicateNode.v ===== *)
(** The leader's side of replication (replica/replicate_node.{h,cc}): a node
    asks a follower for its offset, reads the entries after it from the binlog
    and sends them in batches until they are acknowledged. *)
From Stdlib Require Import String.
From S2P Require Import Prelude Slice LogFile LogReader Random Skiplist StdMap Strings LogRoll MemTable Binlog.

(** ** Messages (proto/tablet.proto) *)
Record AppendEntriesRequest : Type := MkAppendEntriesRequest {
  rq_pre_log_index : Z; rq_entries : list LogEntry; rq_tid : Z; rq_pid : Z; rq_term : Z
}.
Record AppendEntriesResponse : Type := MkAppendEntriesResponse { rs_log_offset : Z; rs_code : Z }.

Record ReplicateNode : Type := MkReplicateNode {
  rn_log_reader : LogReader;
  rn_cache : list AppendEntriesRequest;
  rn_endpoint : bytes;
  rn_last_sync_offset : Z;
  rn_log_matched : bool;
  rn_tid : Z;
  rn_pid : Z;
  rn_is_running : bool;
  rn_go_back_cnt : Z;
  rn_rep_node : bool
}.
Definition ReplicateNode_new (point log_path : bytes) (tid pid : Z) (rep_follower : bool) : ReplicateNode :=
  MkReplicateNode (LogReader_new log_path false) [] point 0 false tid pid false 0 rep_follower.
Definition set_rn_reader r n := MkReplicateNode r (rn_cache n) (rn_endpoint n) (rn_last_sync_offset n) (rn_log_matched n)
  (rn_tid n) (rn_pid n) (rn_is_running n) (rn_go_back_cnt n) (rn_rep_node n).
Definition set_rn_cache c n := MkReplicateNode (rn_log_reader n) c (rn_endpoint n) (rn_last_sync_offset n) (rn_log_matched n)
  (rn_tid n) (rn_pid n) (rn_is_running n) (rn_go_back_cnt n) (rn_rep_node n).
Definition set_rn_offset o n := MkReplicateNode (rn_log_reader n) (rn_cache n) (rn_endpoint n) o (rn_log_matched n)
  (rn_tid n) (rn_pid n) (rn_is_running n) (rn_go_back_cnt n) (rn_rep_node n).
Definition set_rn_matched b n := MkReplicateNode (rn_log_reader n) (rn_cache n) (rn_endpoint n) (rn_last_sync_offset n) b
  (rn_tid n) (rn_pid n) (rn_is_running n) (rn_go_back_cnt n) (rn_rep_node n).
Definition set_rn_running b n := MkReplicateNode (rn_log_reader n) (rn_cache n) (rn_endpoint n) (rn_last_sync_offset n) (rn_log_matched n)
  (rn_tid n) (rn_pid n) b (rn_go_back_cnt n) (rn_rep_node n).
Definition set_rn_go_back c n := MkReplicateNode (rn_log_reader n) (rn_cache n) (rn_endpoint n) (rn_last_sync_offset n) (rn_log_matched n)
  (rn_tid n) (rn_pid n) (rn_is_running n) c (rn_rep_node n).

Definition Node_GetLogIndex (n : ReplicateNode) : Z := GetLogIndex (rn_log_reader n).

(** [Start] and [Stop]; [thread_start] is the result of
    [bthread_start_background]. *)
Definition Node_Start (thread_start : Z) (n : ReplicateNode) : Z * ReplicateNode :=
  if rn_is_running n then (0, n) else (thread_start, set_rn_running true n).
Definition Node_Stop (n : ReplicateNode) : ReplicateNode := set_rn_running false n.

Section node.
Context `{BinlogFlags} `{Compressors} `{EntryCodec}.

(** The receiver behind [rpc_client_.SendRequest]: whether the call came
    through, the answer, and the receiver's new state *)
Context {W : Type} (SendRequest : W -> AppendEntriesRequest -> option (bool * AppendEntriesResponse * W)).

(** [MatchLogOffsetFromNode] *)
Definition MatchLogOffsetFromNode (term : Z) (n : ReplicateNode) (w : W) : option (Z * ReplicateNode * W) :=
  let request := MkAppendEntriesRequest 0 [] (rn_tid n) (rn_pid n) term in
  '(ret, response, w) ← SendRequest w request;
  if ret && bool_decide (rs_code response = 0) then
    let n := set_rn_matched true (set_rn_offset (rs_log_offset response) n) in
    Some (0, set_rn_reader (LogReader_SetOffset (rn_last_sync_offset n) (rn_log_reader n)) n, w)
  else Some (-1, n, w).

(** Going back in the log when a record is missing or invalid *)
Definition go_back (n : ReplicateNode) : ReplicateNode :=
  if decide (FLAGS_go_back_max_try_cnt < rn_go_back_cnt n)
  then set_rn_go_back 0 (set_rn_reader (LogReader_GoBackToStart (rn_log_reader n)) n)
  else set_rn_go_back (u32 (rn_go_back_cnt n + 1)) (set_rn_reader (LogReader_GoBackToLastBlock (rn_log_reader n)) n).

(** The loop of [SyncData] that fills a request with [left] more entries: the
    entries, the offset of the last one, and [need_wait] *)
Fixpoint fill_request (fuel : nat) (fs : FileSystem) (logs : LogParts) (left : nat) (n : ReplicateNode)
    (sync_log_offset : Z) (entries : list LogEntry) : option (list LogEntry * Z * bool * ReplicateNode) :=
  match left with
  | O => Some (entries, sync_log_offset, false, n)
  | S left' =>
      match fuel with
      | O => None
      | S fuel' =>
          '(status, record, r) ← ReadNextRecord fs logs (rn_log_reader n);
          let n := set_rn_reader r n in
          if ok status then
            match ParseFromString record with
            | None => Some (entries, sync_log_offset, false, n)
            | Some entry =>
                if decide (le_log_index entry <= sync_log_offset) then fill_request fuel' fs logs left n sync_log_offset entries
                else if decide (u64 (sync_log_offset + 1) <> le_log_index entry) then Some (entries, sync_log_offset, true, go_back n)
                else fill_request fuel' fs logs left' (set_rn_go_back 0 n) (le_log_index entry) (entries ++ [entry])
            end
          else if decide (status = InvalidRecord) then Some (entries, sync_log_offset, true, go_back n)
          else Some (entries, sync_log_offset, true, n)
      end
  end.

(** The request [SyncData] sends: [inl] is a result returned at once. *)
Definition sync_request (fuel : nat) (fs : FileSystem) (logs : LogParts) (term log_offset : Z) (n : ReplicateNode)
    : option ((Z + AppendEntriesRequest * Z * bool * bool) * ReplicateNode) :=
  match rn_cache n with
  | request :: _ =>
      match last (rq_entries request) with
      | None => Some (inl (-1), set_rn_cache [] n)
      | Some entry =>
          if decide (le_log_index entry <= rn_last_sync_offset n) then Some (inl (-1), set_rn_cache [] n)
          else Some (inr (request, le_log_index entry, true, false), n)
      end
  | [] =>
      let term := if decide (FLAGS_zk_cluster <> []) then term else 0 in
      let batchSize := u32 (log_offset - rn_last_sync_offset n) in
      let batchSize := Z.min batchSize (u32 FLAGS_binlog_sync_batch_size) in
      '(entries, sync_log_offset, need_wait, n') ← fill_request fuel fs logs (Z.to_nat batchSize) n (rn_last_sync_offset n) [];
      Some (inr (MkAppendEntriesRequest (rn_last_sync_offset n) entries (rn_tid n) (rn_pid n) term, sync_log_offset, false, need_wait), n')
  end.

(** [SyncData(log_offset)]: the result, the node, [follower_offset_] of the
    replicator, and the receiver *)
Definition SyncData (fuel : nat) (fs : FileSystem) (logs : LogParts) (term follower_offset log_offset : Z) (n : ReplicateNode) (w : W)
    : option (Z * ReplicateNode * Z * W) :=
  if decide (log_offset <= rn_last_sync_offset n) then Some (1, n, follower_offset, w)
  else
    '(prepared, n) ← sync_request fuel fs logs term log_offset n;
    match prepared with
    | inl ret => Some (ret, n, follower_offset, w)
    | inr (request, sync_log_offset, request_from_cache, need_wait) =>
        match rq_entries request with
        | [] => Some (if (need_wait : bool) then 1 else 0, n, follower_offset, w)
        | _ =>
            '(ret, response, w) ← SendRequest w request;
            if ret && bool_decide (rs_code response = 0) then
              let n := set_rn_offset sync_log_offset n in
              let follower_offset :=
                if negb (rn_rep_node n) && bool_decide (follower_offset < rn_last_sync_offset n)
                then rn_last_sync_offset n else follower_offset in
              let n := if (request_from_cache : bool) then set_rn_cache [] n else n in
              Some (if (need_wait : bool) then 1 else 0, n, follower_offset, w)
            else
              let n := if (request_from_cache : bool) then n else set_rn_cache (rn_cache n ++ [request]) n in
              Some (1, n, follower_offset, w)
        end
    end.

(** One round of the thread's loop [SyncData()]: it waits while the follower has
    everything ([None]), and then syncs up to the leader's offset, or, for a
    node of another cluster, up to what a local follower has. *)
Definition sync_round (fuel : nat) (fs : FileSystem) (logs : LogParts) (term leader_log_offset follower_offset : Z) (n : ReplicateNode) (w : W)
    : option (option (Z * ReplicateNode * Z * W)) :=
  if decide (leader_log_offset <= rn_last_sync_offset n) then Some None
  else
    x ← SyncData fuel fs logs term follower_offset (if rn_rep_node n then follower_offset else leader_log_offset) n w;
    Some (Some x).
End node.
