(* ===== verification/Replicator.v ===== *)
(** The replicator of a table (replica/log_replicator.{h,cc}): the leader
    appends entries to the binlog, a follower takes them from the leader,
    appends them to its own and applies them to its table. *)
From Stdlib Require Import String.
From S2P Require Import Prelude Slice LogFile LogReader Random Skiplist StdMap Strings LogRoll MemTable Binlog ReplicateNode.

Inductive ReplicatorRole : Type := kLeaderNode | kFollowerNode.
#[global] Instance ReplicatorRole_eq_dec : EqDecision ReplicatorRole.
Proof. solve_decision. Defined.

Section replicator.
Context `{BinlogFlags} `{Compressors} `{EntryCodec} {T : Type} `{TableOps T}.

(** [path_] is kept only as [log_path_]; [mu_], [cv_] and [wmu_] are not
    represented: a call is one step. *)
Record LogReplicator : Type := MkLogReplicator {
  lp_log_path : bytes;
  lp_log_offset : Z;
  lp_follower_offset : Z;
  lp_binlog_index : Z;
  lp_logs : LogParts;
  lp_wh : option WriteHandle;
  lp_role : ReplicatorRole;
  lp_real_ep_map : gmap bytes bytes;
  lp_nodes : list ReplicateNode;
  lp_local_endpoints : list bytes;
  lp_term : Z;
  lp_snapshot_log_part_index : Z;
  lp_snapshot_last_offset : Z;
  lp_table : T;
  lp_follower : bool
}.
Definition set_lp_offset o p := MkLogReplicator (lp_log_path p) o (lp_follower_offset p) (lp_binlog_index p) (lp_logs p) (lp_wh p) (lp_role p)
  (lp_real_ep_map p) (lp_nodes p) (lp_local_endpoints p) (lp_term p) (lp_snapshot_log_part_index p) (lp_snapshot_last_offset p) (lp_table p) (lp_follower p).
Definition set_lp_follower_offset o p := MkLogReplicator (lp_log_path p) (lp_log_offset p) o (lp_binlog_index p) (lp_logs p) (lp_wh p) (lp_role p)
  (lp_real_ep_map p) (lp_nodes p) (lp_local_endpoints p) (lp_term p) (lp_snapshot_log_part_index p) (lp_snapshot_last_offset p) (lp_table p) (lp_follower p).
Definition set_lp_logs i l p := MkLogReplicator (lp_log_path p) (lp_log_offset p) (lp_follower_offset p) i l (lp_wh p) (lp_role p)
  (lp_real_ep_map p) (lp_nodes p) (lp_local_endpoints p) (lp_term p) (lp_snapshot_log_part_index p) (lp_snapshot_last_offset p) (lp_table p) (lp_follower p).
Definition set_lp_wh h p := MkLogReplicator (lp_log_path p) (lp_log_offset p) (lp_follower_offset p) (lp_binlog_index p) (lp_logs p) h (lp_role p)
  (lp_real_ep_map p) (lp_nodes p) (lp_local_endpoints p) (lp_term p) (lp_snapshot_log_part_index p) (lp_snapshot_last_offset p) (lp_table p) (lp_follower p).
Definition set_lp_nodes eps ns ends p := MkLogReplicator (lp_log_path p) (lp_log_offset p) (lp_follower_offset p) (lp_binlog_index p) (lp_logs p) (lp_wh p) (lp_role p)
  eps ns ends (lp_term p) (lp_snapshot_log_part_index p) (lp_snapshot_last_offset p) (lp_table p) (lp_follower p).
Definition set_lp_term t p := MkLogReplicator (lp_log_path p) (lp_log_offset p) (lp_follower_offset p) (lp_binlog_index p) (lp_logs p) (lp_wh p) (lp_role p)
  (lp_real_ep_map p) (lp_nodes p) (lp_local_endpoints p) t (lp_snapshot_log_part_index p) (lp_snapshot_last_offset p) (lp_table p) (lp_follower p).
Definition set_lp_snapshot i o p := MkLogReplicator (lp_log_path p) (lp_log_offset p) (lp_follower_offset p) (lp_binlog_index p) (lp_logs p) (lp_wh p) (lp_role p)
  (lp_real_ep_map p) (lp_nodes p) (lp_local_endpoints p) (lp_term p) i o (lp_table p) (lp_follower p).
Definition set_lp_table t p := MkLogReplicator (lp_log_path p) (lp_log_offset p) (lp_follower_offset p) (lp_binlog_index p) (lp_logs p) (lp_wh p) (lp_role p)
  (lp_real_ep_map p) (lp_nodes p) (lp_local_endpoints p) (lp_term p) (lp_snapshot_log_part_index p) (lp_snapshot_last_offset p) t (lp_follower p).
Definition SetRole r p := MkLogReplicator (lp_log_path p) (lp_log_offset p) (lp_follower_offset p) (lp_binlog_index p) (lp_logs p) (lp_wh p) r
  (lp_real_ep_map p) (lp_nodes p) (lp_local_endpoints p) (lp_term p) (lp_snapshot_log_part_index p) (lp_snapshot_last_offset p) (lp_table p) (lp_follower p).

(** The constructor with the first lines of [Init] *)
Definition LogReplicator_new (path : bytes) (real_ep_map : gmap bytes bytes) (role : ReplicatorRole) (table : T) (follower : bool) : LogReplicator :=
  MkLogReplicator (path ++ str "/binlog/") 0 0 0 (Skiplist_new 12 4) None role real_ep_map [] [] 0 (-1) 0 table follower.

(** ** Writing *)

(** [RollWLogFile] *)
Definition RollWLogFile (fs : FileSystem) (p : LogReplicator) : option (bool * FileSystem * LogReplicator) :=
  fs ← match lp_wh p with Some wh => '(_, fs, _) ← wh_EndLog fs wh; Some fs | None => Some fs end;
  let p := set_lp_wh None p in
  let full_path := log_file (lp_log_path p) (lp_binlog_index p) in
  match fopen_write fs full_path with
  | None => Some (false, fs, p)
  | Some fs =>
      '(_, logs) ← Insert (lp_logs p) (lp_binlog_index p) (lp_log_offset p);
      let p := set_lp_logs (u32 (lp_binlog_index p + 1)) logs p in
      wh ← WriteHandle_new fs (str "off") full_path 0;
      Some (true, fs, set_lp_wh (Some wh) p)
  end.

(** The test for a new file, with the roll *)
Definition roll_if_needed (fs : FileSystem) (p : LogReplicator) : option (bool * FileSystem * LogReplicator) :=
  if match lp_wh p with
     | None => true
     | Some wh => bool_decide (u32 FLAGS_binlog_single_file_max_size < wh_GetSize wh / (1024 * 1024))
     end
  then RollWLogFile fs p else Some (true, fs, p).

(** [wh_->Write] of an entry *)
Definition write_entry (fs : FileSystem) (p : LogReplicator) (e : LogEntry) : option (Status * FileSystem * LogReplicator) :=
  wh ← lp_wh p;
  '(status, fs, wh) ← wh_Write fs wh (SerializeToString e);
  Some (status, fs, set_lp_wh (Some wh) p).

(** [AppendEntry]: the entry is given the next index. *)
Definition AppendEntry (fs : FileSystem) (p : LogReplicator) (entry : LogEntry) : option (bool * LogEntry * FileSystem * LogReplicator) :=
  '(rolled, fs, p) ← roll_if_needed fs p;
  if negb rolled then Some (false, entry, fs, p)
  else
    let cur_offset := lp_log_offset p in
    let entry := set_log_index (u64 (1 + cur_offset)) entry in
    '(status, fs, p) ← write_entry fs p entry;
    if negb (ok status) then Some (false, entry, fs, p)
    else
      let p := set_lp_offset (u64 (cur_offset + 1)) p in
      let p := match lp_local_endpoints p with [] => set_lp_follower_offset (u64 (cur_offset + 1)) p | _ => p end in
      Some (true, entry, fs, p).

(** [ApplyEntryToTable] *)
Definition ApplyEntryToTable (p : LogReplicator) (entry : LogEntry) : option (bool * LogReplicator) :=
  match le_method_type entry with
  | Some kDelete =>
      match le_dimensions entry with
      | [] => Some (false, p)
      | (idx, key) :: _ => '(_, t) ← tbl_Delete (lp_table p) key idx; Some (true, set_lp_table t p)
      end
  | _ => '(b, t) ← tbl_Put (lp_table p) entry; Some (b, set_lp_table t p)
  end.

(** The loop of [AppendEntries]; [rs] is [log_offset] of the response. *)
Fixpoint append_loop (fs : FileSystem) (p : LogReplicator) (last_log_offset : Z) (entries : list LogEntry) (rs : Z)
    : option (bool * Z * FileSystem * LogReplicator) :=
  match entries with
  | [] => Some (true, rs, fs, p)
  | e :: rest =>
      if decide (le_log_index e <= last_log_offset) then append_loop fs p last_log_offset rest rs
      else
        '(status, fs, p) ← write_entry fs p e;
        if negb (ok status) then Some (false, rs, fs, p)
        else
          '(applied, p) ← ApplyEntryToTable p e;
          if negb applied then Some (false, rs, fs, p)
          else append_loop fs (set_lp_offset (le_log_index e) p) last_log_offset rest (le_log_index e)
  end.

(** [AppendEntries]: the result and [log_offset] of the response *)
Definition AppendEntries (fs : FileSystem) (p : LogReplicator) (request : AppendEntriesRequest) : option (bool * Z * FileSystem * LogReplicator) :=
  let has_zk := bool_decide (FLAGS_zk_cluster <> []) in
  if negb (lp_follower p) && has_zk && bool_decide (rq_term request < lp_term p) then Some (false, 0, fs, p)
  else
    let last_log_offset := lp_log_offset p in
    if decide (rq_pre_log_index request = 0 /\ rq_entries request = []) then
      let p := if has_zk && bool_decide (lp_term p < rq_term request) then set_lp_term (rq_term request) p else p in
      Some (true, last_log_offset, fs, p)
    else
      '(rolled, fs, p) ← roll_if_needed fs p;
      if negb rolled then Some (false, 0, fs, p)
      else if decide (last_log_offset < rq_pre_log_index request) then Some (false, 0, fs, p)
      else append_loop fs p last_log_offset (rq_entries request) 0.

(** ** Recovery of the log parts *)

(** [ParseBinlogIndex]: the result and the index, [None] for an exception *)
Fixpoint rfind_slash (path : bytes) (i : nat) (found : option nat) : option nat :=
  match path with
  | [] => found
  | c :: path' => rfind_slash path' (S i) (if decide (c = 47) then Some i else found)
  end.
Fixpoint no_zero_index (name : bytes) (i : nat) (last : nat) : nat :=
  match name with
  | [] => last
  | c :: name' => if decide (c <> 48) then i else no_zero_index name' (S i) i
  end.
Definition ParseBinlogIndex (path : bytes) : option (option Z) :=
  let len := length path in
  if decide (len <= 4 \/ drop (len - 4) path <> str ".log")%nat then Some None
  else
    let rindex := match rfind_slash path 0 None with None => 0%nat | Some i => S i end in
    let name := take (len - rindex - 4) (drop rindex path) in
    let num := drop (no_zero_index name 0 0) name in
    match num with
    | [] => Some (Some 0)
    | _ => if IsNumber num then n ← stoul num; Some (Some (u32 n)) else Some None
    end.

(** [GetFileName] of base/file_util.h: the files right under a directory, in
    the order of the file system *)
Definition in_dir (dir path : bytes) : bool :=
  let prefix := dir ++ str "/" in
  bool_decide (take (length prefix) path = prefix) && bool_decide (47 ∉ drop (length prefix) path).
Definition GetFileName (fs : FileSystem) (path : bytes) : option (list bytes) :=
  if decide (path = [] \/ fs_denied fs path = true) then None
  else Some (filter (fun f => in_dir path f = true) (fst <$> map_to_list (fs_files fs))).

(** [std::sort] of strings *)
Definition string_le (a b : bytes) : Prop := Slice_compare a b <= 0.
#[global] Instance string_le_dec a b : Decision (string_le a b).
Proof. unfold string_le. apply _. Defined.

(** The loop of [Recover] *)
Fixpoint recover_parts (fs : FileSystem) (files : list bytes) (p : LogReplicator) : option (bool * LogReplicator) :=
  match files with
  | [] => Some (true, p)
  | full_path :: rest =>
      index ← ParseBinlogIndex full_path;
      match index, fopen_read fs full_path with
      | Some binlog_index, Some data =>
          let reader := Reader_new (open_seq data) None false 0 false [] in
          '(status, record, _) ← ReadRecord snappy_length snappy_uncompress zlib_uncompress (S (S (length data))) reader;
          if negb (ok status) then recover_parts fs rest p
          else
            match ParseFromString record with
            | None => Some (false, p)
            | Some entry =>
                if decide (le_log_index entry <= 0) then Some (false, p)
                else
                  '(_, logs) ← Insert (lp_logs p) binlog_index (le_log_index entry - 1);
                  recover_parts fs rest (set_lp_logs (u32 (binlog_index + 1)) logs p)
            end
      | _, _ => Some (true, p)
      end
  end.
Definition LogReplicator_Recover (fs : FileSystem) (p : LogReplicator) : option (bool * LogReplicator) :=
  match GetFileName fs (lp_log_path p) with
  | None => Some (false, p)
  | Some files => recover_parts fs (merge_sort string_le files) p
  end.

(** ** Nodes *)

(** [rpc_init] and [thread_start] are the results of [RpcClient::Init] and of
    starting the thread for an endpoint. *)
Context (tid pid : Z) (rpc_init thread_start : bytes -> Z).

(** The nodes of a leader in [Init] *)
Fixpoint init_nodes (eps : list (bytes * bytes)) (p : LogReplicator) : bool * LogReplicator :=
  match eps with
  | [] => (true, p)
  | (point, _) :: rest =>
      if decide (rpc_init point < 0) then (false, p)
      else init_nodes rest (set_lp_nodes (lp_real_ep_map p) (lp_nodes p ++ [ReplicateNode_new point (lp_log_path p) tid pid false])
                              (lp_local_endpoints p ++ [point]) p)
  end.
(** [Init]; [mkdir] is the result of creating the directory. *)
Definition LogReplicator_Init (fs : FileSystem) (mkdir : bool) (p : LogReplicator) : option (bool * LogReplicator) :=
  if negb mkdir then Some (false, p)
  else
    let '(ok, p) := match lp_role p with
                    | kLeaderNode => init_nodes (merge_sort (fun a b => string_le a.1 b.1) (map_to_list (lp_real_ep_map p))) p
                    | kFollowerNode => (true, p)
                    end in
    if negb ok then Some (false, p) else LogReplicator_Recover fs p.

(** [StartSyncing] *)
Fixpoint start_nodes (ns : list ReplicateNode) : bool * list ReplicateNode :=
  match ns with
  | [] => (true, [])
  | n :: rest =>
      let '(r, n) := Node_Start (thread_start (rn_endpoint n)) n in
      if decide (r <> 0) then (false, n :: rest)
      else let '(b, rest) := start_nodes rest in (b, n :: rest)
  end.
Definition StartSyncing (p : LogReplicator) : bool * LogReplicator :=
  let '(b, ns) := start_nodes (lp_nodes p) in
  (b, set_lp_nodes (lp_real_ep_map p) ns (lp_local_endpoints p) p).

(** [AddReplicateNode] with the table id of a remote cluster, or [None] for the
    form without it; the endpoints in the order of the map *)
Fixpoint add_nodes (remote_tid : option Z) (eps : list (bytes * bytes)) (p : LogReplicator) : Z * LogReplicator :=
  match eps with
  | [] => (0, p)
  | (endpoint, real) :: rest =>
      if existsb (fun n => bool_decide (rn_endpoint n = endpoint)) (lp_nodes p) then (1, p)
      else
        let n := ReplicateNode_new endpoint (lp_log_path p) (default tid remote_tid) pid (bool_decide (is_Some remote_tid)) in
        if decide (rpc_init endpoint < 0) then (-1, p)
        else
          let '(r, n) := Node_Start (thread_start endpoint) n in
          if decide (r <> 0) then (-1, p)
          else
            let eps := match lp_real_ep_map p !! endpoint with Some _ => lp_real_ep_map p | None => <[endpoint := real]> (lp_real_ep_map p) end in
            let ends := match remote_tid with None => lp_local_endpoints p ++ [endpoint] | Some _ => lp_local_endpoints p end in
            add_nodes remote_tid rest (set_lp_nodes eps (lp_nodes p ++ [n]) ends p)
  end.
Definition AddReplicateNode (remote_tid : option Z) (eps : gmap bytes bytes) (p : LogReplicator) : Z * LogReplicator :=
  if decide (eps = ∅) then (1, p)
  else if decide (lp_role p <> kLeaderNode) then (-1, p)
  else add_nodes remote_tid (merge_sort (fun a b => string_le a.1 b.1) (map_to_list eps)) p.

(** [DelReplicateNode]: the node found is stopped and dropped. *)
Definition DelReplicateNode (endpoint : bytes) (p : LogReplicator) : Z * LogReplicator :=
  if decide (lp_role p <> kLeaderNode) then (-1, p)
  else
    match list_find (fun n => rn_endpoint n = endpoint) (lp_nodes p) with
    | None => (1, p)
    | Some (i, _) =>
        (0, set_lp_nodes (delete endpoint (lp_real_ep_map p)) (delete i (lp_nodes p)) (filter (fun e => e <> endpoint) (lp_local_endpoints p)) p)
    end.
Definition DelAllReplicateNode (p : LogReplicator) : LogReplicator :=
  match lp_nodes p with [] => p | _ => set_lp_nodes ∅ [] [] p end.

(** [GetReplicateInfo]: endpoint and offset of each node, the first of equal
    endpoints *)
Definition GetReplicateInfo (p : LogReplicator) (info_map : list (bytes * Z)) : list (bytes * Z) :=
  if decide (lp_role p <> kLeaderNode) then info_map
  else foldl (fun m n => emplace str_before (rn_endpoint n) (rn_last_sync_offset n) m) info_map (lp_nodes p).

(** ** Deletion of old files *)

(** [SetSnapshotLogPartIndex]: the file that holds the snapshot's offset *)
Definition SetSnapshotLogPartIndex (fs : FileSystem) (offset : Z) (p : LogReplicator) : option LogReplicator :=
  '(_, r) ← RollRLogFile fs (lp_logs p) (LogReader_SetOffset offset (LogReader_new (lp_log_path p) false));
  Some (set_lp_snapshot (GetLogIndex r) offset p).

(** The chain of parts cut off: each file is unlinked, each node deleted. *)
Fixpoint unlink_parts (fuel : nat) (log_path : bytes) (logs : LogParts) (node : option ptr) (fs : FileSystem) : option (FileSystem * LogParts) :=
  match fuel with
  | O => None
  | S fuel' =>
      match node with
      | None => Some (fs, logs)
      | Some tmp_node =>
          next ← GetNext logs tmp_node 0;
          k ← GetKey logs tmp_node;
          let full_path := log_file log_path k in
          logs ← DeleteNode logs tmp_node;
          unlink_parts fuel' log_path logs next (set_files (delete full_path (fs_files fs)) fs)
      end
  end.
Definition DeleteBinlog (fs : FileSystem) (p : LogReplicator) : option (FileSystem * LogReplicator) :=
  n ← GetSize (lp_logs p);
  if decide (n <= 1) then Some (fs, p)
  else
    let min_log_index := foldl Z.min (lp_snapshot_log_part_index p) (Node_GetLogIndex <$> lp_nodes p) in
    let min_log_index := min_log_index - 1 in
    if decide (min_log_index < 0) then Some (fs, p)
    else
      '(node, logs) ← Split (lp_logs p) (u32 min_log_index);
      '(fs, logs) ← unlink_parts (S (base.size (heap logs))) (lp_log_path p) logs node fs;
      Some (fs, set_lp_logs (lp_binlog_index p) logs p).
End replicator.
Arguments LogReplicator : clear implicits.
