(* ===== verification/Tablet.v ===== *)
(** The requests that write to a partition of a tablet server, and the loading
    of a partition (tablet/tablet_impl.cc): a table, its log replicator and its
    binlog put together. *)
From Stdlib Require Import String.
From S2P Require Import Prelude Slice LogFile LogReader Random Skiplist StdMap Strings LogRoll MemTable Binlog ReplicateNode Replicator.

(** ** Return codes (base/status.h) *)
Definition kOk : Z := 0.
Definition kTableIsNotExist : Z := 100.
Definition kTableIsLeader : Z := 102.
Definition kTableIsFollower : Z := 103.
Definition kTableIsLoading : Z := 104.
Definition kIdxNameNotFound : Z := 108.
Definition kTsMustBeGreaterThanZero : Z := 114.
Definition kInvalidDimensionParameter : Z := 115.
Definition kPutFailed : Z := 116.
Definition kFailToAppendEntriesToReplicator : Z := 122.
Definition kDeleteFailed : Z := 136.
Definition kPutBadFormat : Z := 149.
Definition kIsFollowerCluster : Z := 453.

Inductive TableStat : Type := kUndefined | kNormal | kLoading | kMakingSnapshot | kSnapshotPaused.
#[global] Instance TableStat_eq_dec : EqDecision TableStat.
Proof. solve_decision. Defined.

(** ** Requests (proto/tablet.proto) *)
Record PutRequest : Type := MkPutRequest {
  pr_pk : bytes; pr_time : Z; pr_value : bytes; pr_tid : Z; pr_pid : Z;
  pr_dimensions : list (Z * bytes); pr_ts_dimensions : list (Z * Z); pr_format_version : option Z
}.
Record DeleteRequest : Type := MkDeleteRequest { dr_tid : Z; dr_pid : Z; dr_key : bytes; dr_idx_name : option bytes }.

Section tablet.
Context `{BinlogFlags} `{Compressors} `{EntryCodec} {T : Type} `{TableOps T}.

(** A partition: the table is the one its replicator refers to.  The sources keep
    tables and replicators in two maps that they fill and empty together for a
    partition; as one record holds both here, the branches for a table without a
    replicator are not represented: [AppendEntries] answering
    [kReplicatorIsNotExist], [Put] and [Delete] logging nothing. *)
Record Partition : Type := MkPartition { pa_stat : TableStat; pa_format_version : Z; pa_replicator : LogReplicator T }.
Definition set_pa_replicator (p : LogReplicator T) (x : Partition) : Partition := MkPartition (pa_stat x) (pa_format_version x) p.
Definition SetTableStat (s : TableStat) (x : Partition) : Partition := MkPartition s (pa_format_version x) (pa_replicator x).
Definition pa_table (x : Partition) : T := lp_table (pa_replicator x).

(** The server: the partitions by table and partition id, and the files *)
Record TabletImpl : Type := MkTabletImpl { tb_follower : bool; tb_partitions : gmap (Z * Z) Partition; tb_fs : FileSystem }.
Definition GetPartition (s : TabletImpl) (tid pid : Z) : option Partition := tb_partitions s !! (tid, pid).
Definition set_partition (tid pid : Z) (x : Partition) (fs : FileSystem) (s : TabletImpl) : TabletImpl :=
  MkTabletImpl (tb_follower s) (<[(tid, pid) := x]> (tb_partitions s)) fs.

(** [CheckDimessionPut] *)
Fixpoint CheckDimessionPut (dims : list (Z * bytes)) (idx_cnt : Z) : Z :=
  match dims with
  | [] => 0
  | (idx, key) :: dims' =>
      if decide (idx_cnt <= idx) then -1
      else if decide (key = []) then 1
      else CheckDimessionPut dims' idx_cnt
  end.

(** The table's [Put] with the arguments of a request *)
Definition put_request (t : T) (request : PutRequest) : option (Z + bool * T) :=
  match pr_dimensions request with
  | _ :: _ =>
      if decide (CheckDimessionPut (pr_dimensions request) (tbl_GetIdxCnt t) <> 0) then Some (inl kInvalidDimensionParameter)
      else
        match pr_ts_dimensions request with
        | _ :: _ => x ← tbl_Put_ts t (pr_dimensions request) (pr_ts_dimensions request) (pr_value request); Some (inr x)
        | [] => x ← tbl_Put_dims t (u64 (pr_time request)) (pr_value request) (pr_dimensions request); Some (inr x)
        end
  | [] => x ← tbl_Put_pk t (pr_pk request) (u64 (pr_time request)) (pr_value request); Some (inr x)
  end.

(** The entry of a put; [AppendEntry] sets its index. *)
Definition put_entry (term : Z) (request : PutRequest) : LogEntry :=
  MkLogEntry (Some term) 0 (pr_pk request) (pr_value request) (u64 (pr_time request)) (pr_dimensions request) None (pr_ts_dimensions request).

(** [Put]: the code of the response *)
Definition TabletImpl_Put (s : TabletImpl) (request : PutRequest) : option (Z * TabletImpl) :=
  if tb_follower s then Some (kIsFollowerCluster, s)
  else
    match GetPartition s (pr_tid request) (pr_pid request) with
    | None => Some (kTableIsNotExist, s)
    | Some x =>
        if match pr_format_version request with None => bool_decide (pa_format_version x = 1) | Some v => bool_decide (v <> pa_format_version x) end
        then Some (kPutBadFormat, s)
        else if decide (pr_time request = 0 /\ pr_ts_dimensions request = []) then Some (kTsMustBeGreaterThanZero, s)
        else if negb (tbl_IsLeader (pa_table x)) then Some (kTableIsFollower, s)
        else if decide (pa_stat x = kLoading) then Some (kTableIsLoading, s)
        else
          res ← put_request (pa_table x) request;
          match res with
          | inl code => Some (code, s)
          | inr (ok, t) =>
              let p := set_lp_table t (pa_replicator x) in
              if negb ok then Some (kPutFailed, set_partition (pr_tid request) (pr_pid request) (set_pa_replicator p x) (tb_fs s) s)
              else
                '(_, _, fs, p) ← AppendEntry (tb_fs s) p (put_entry (lp_term p) request);
                Some (kOk, set_partition (pr_tid request) (pr_pid request) (set_pa_replicator p x) fs s)
          end
    end.

(** [Delete] *)
Definition delete_entry (term : Z) (key : bytes) (idx : Z) : LogEntry :=
  MkLogEntry (Some term) 0 [] [] 0 [(idx, key)] (Some kDelete) [].
Definition TabletImpl_Delete (s : TabletImpl) (request : DeleteRequest) : option (Z * TabletImpl) :=
  if tb_follower s then Some (kIsFollowerCluster, s)
  else
    match GetPartition s (dr_tid request) (dr_pid request) with
    | None => Some (kTableIsNotExist, s)
    | Some x =>
        if negb (tbl_IsLeader (pa_table x)) then Some (kTableIsFollower, s)
        else if decide (pa_stat x = kLoading) then Some (kTableIsLoading, s)
        else
          idx ← match dr_idx_name request with
                | Some ((_ :: _) as name) => tbl_ReadyIndexId (pa_table x) name
                | _ => Some (Some 0)
                end;
          match idx with
          | None => Some (kIdxNameNotFound, s)
          | Some idx =>
              '(ok, t) ← tbl_Delete (pa_table x) (dr_key request) idx;
              let p := set_lp_table t (pa_replicator x) in
              if negb ok then Some (kDeleteFailed, set_partition (dr_tid request) (dr_pid request) (set_pa_replicator p x) (tb_fs s) s)
              else
                '(_, _, fs, p) ← AppendEntry (tb_fs s) p (delete_entry (lp_term p) (dr_key request) idx);
                Some (kOk, set_partition (dr_tid request) (dr_pid request) (set_pa_replicator p x) fs s)
          end
    end.

(** [AppendEntries]: what a leader's request does to a follower *)
Definition TabletImpl_AppendEntries (s : TabletImpl) (request : AppendEntriesRequest) : option (AppendEntriesResponse * TabletImpl) :=
  match GetPartition s (rq_tid request) (rq_pid request) with
  | None => Some (MkAppendEntriesResponse 0 kTableIsNotExist, s)
  | Some x =>
      if negb (tb_follower s) && tbl_IsLeader (pa_table x) then Some (MkAppendEntriesResponse 0 kTableIsLeader, s)
      else if decide (pa_stat x = kLoading) then Some (MkAppendEntriesResponse 0 kTableIsLoading, s)
      else
        '(ok, log_offset, fs, p) ← AppendEntries (tb_fs s) (pa_replicator x) request;
        Some (MkAppendEntriesResponse log_offset (if (ok : bool) then kOk else kFailToAppendEntriesToReplicator),
              set_partition (rq_tid request) (rq_pid request) (set_pa_replicator p x) fs s)
  end.

(** ** Loading *)

(** [LoadTableInternal] after the snapshot was recovered into the table up to
    [snapshot_offset]: the binlog is replayed and the replicator set to the last
    entry.  The scheduled tasks are not represented.  When the replay fails the
    sources go on to delete the partition ([DeleteTableInternal]), which is not
    part of this function: [false] says so, and the partition returned with it is
    that state, still [kLoading]. *)
Definition load_binlog (fuel : nat) (clock : Z -> nat -> nat -> Z) (now : nat -> nat -> Z) (thread_start : bytes -> Z) (fs : FileSystem)
    (snapshot_offset : Z) (x : Partition) : option (bool * FileSystem * Partition) :=
  let x := SetTableStat kLoading x in
  let p := pa_replicator x in
  '(ok, latest_offset, t, fs) ← RecoverFromBinlog fuel fs (lp_logs p) (lp_log_path p) clock (lp_table p) snapshot_offset;
  let p := set_lp_table t p in
  if (ok : bool) then
    p ← SetSnapshotLogPartIndex fs snapshot_offset (set_lp_offset latest_offset p);
    let '(_, p) := StartSyncing thread_start p in
    t ← tbl_SchedGc (lp_table p) now;
    Some (true, fs, SetTableStat kNormal (set_pa_replicator (set_lp_table t p) x))
  else Some (false, fs, set_pa_replicator p x).
End tablet.
Arguments Partition : clear implicits.
Arguments TabletImpl : clear implicits.
