(* ===== verification/LogNames.v ===== *)
(** The names of log files: [ParseBinlogIndex] (replica/log_replicator.cc) reads
    back the index that [FormatToString] (base/strings.h) put into a name, and
    sorting the names sorts the indexes. *)
From Stdlib Require Import String.
From S2P Require Import Prelude Slice LogFile LogReader Random Skiplist StdMap Strings LogRoll LogGrow MemTable Binlog ReplicateNode Replicator.

Section names.
Context `{BinlogFlags}.

(** ** Reading an index back *)

Lemma rfind_slash_none s : 47 ∉ s -> forall i found, rfind_slash s i found = found.
Proof.
  induction s as [|c s IH]; intros Hs i found; [done|]. cbn [rfind_slash]. rewrite decide_False by set_solver. apply IH. set_solver.
Qed.
Lemma rfind_slash_app a s : 47 ∉ s -> forall i found, rfind_slash (a ++ [47] ++ s) i found = Some (i + length a)%nat.
Proof.
  intros Hs. induction a as [|c a IH]; intros i found; cbn [app rfind_slash].
  - rewrite decide_True by done. rewrite rfind_slash_none by done. simpl. f_equal. lia.
  - rewrite IH. simpl. f_equal. lia.
Qed.

(** The leading zeros that are skipped *)
Lemma no_zero_index_zeros s : forall i last, exists n, (n <= length s)%nat /\ Forall (fun c => c = 48) (take n s) /\
  no_zero_index s i last = (match s with [] => last | _ => i + n end)%nat /\ (s <> [] -> n < length s)%nat.
Proof.
  induction s as [|c s IH]; intros i last; [by exists 0%nat|]. cbn [no_zero_index]. case_decide as Hc.
  - exists 0%nat. split; [lia|]. split; [constructor|]. split; [lia|]. simpl. lia.
  - assert (c = 48) as -> by lia. destruct (IH (S i) i) as (n & Hn & Hz & Hres & Hlt). destruct s as [|d s].
    + exists 0%nat. cbn [no_zero_index] in *. split; [lia|]. split; [constructor|]. split; [lia|]. simpl. lia.
    + exists (S n). split; [simpl in *; lia|]. split; [by constructor|]. split; [lia|]. intros _. specialize (Hlt ltac:(done)). simpl in *. lia.
Qed.

Lemma digits_val_zeros z s : Forall (fun c => c = 48) z -> digits_val (z ++ s) = digits_val s.
Proof.
  unfold digits_val. rewrite foldl_app. intros Hz. f_equal. induction Hz as [|c z -> Hz IH]; [done|]. exact IH.
Qed.

Lemma decimal_no_slash w n : 47 ∉ decimal w n ++ str ".log".
Proof.
  rewrite elem_of_app. intros [Hin|Hin]; [|by compute in Hin; set_solver].
  pose proof (decimal_digits w n) as Hd. rewrite Forall_forall in Hd. apply list_elem_of_In in Hin. apply list_elem_of_In, Hd in Hin. by compute in Hin.
Qed.

Lemma ParseBinlogIndex_log_file path k : index_ok k -> ParseBinlogIndex (log_file path k) = Some (Some k).
Proof.
  intros Hk. unfold log_file. rewrite index_u32, FormatToString_decimal by done. set (w := FLAGS_binlog_name_length). set (name := decimal w k).
  assert (Hname : length name = w) by apply length_decimal. unfold ParseBinlogIndex. set (f := path ++ str "/" ++ name ++ str ".log").
  assert (Hlen : length f = (length path + 1 + w + 4)%nat) by (unfold f; rewrite !length_app, Hname; simpl; lia).
  assert (Hsuf : drop (length f - 4) f = str ".log").
  { unfold f. rewrite !app_assoc. apply drop_app_length'. rewrite !length_app, Hname. simpl. lia. }
  rewrite decide_False by (rewrite Hsuf, Hlen; intros [?|?]; [lia|done]).
  assert (Hslash : rfind_slash f 0 None = Some (length path)).
  { unfold f. change (str "/") with [47]. rewrite rfind_slash_app by apply decimal_no_slash. done. }
  rewrite Hslash. cbv zeta.
  assert (Hn : take (length f - S (length path) - 4) (drop (S (length path)) f) = name).
  { rewrite Hlen. unfold f. rewrite (app_assoc path), drop_app_length' by (rewrite length_app; simpl; lia). apply take_app_length'. lia. }
  rewrite Hn. destruct (no_zero_index_zeros name 0 0) as (n & Hle & Hz & -> & Hlt).
  assert (Hdv : digits_val name = k) by (apply digits_val_decimal; destruct Hk as [[? ?] Hk]; split; [done|exact Hk]).
  destruct (decide (name = [])) as [Hnil|Hnn]; [rewrite Hnil in *; by rewrite <- Hdv|]. specialize (Hlt Hnn).
  replace (match name with [] => 0%nat | _ => (0 + n)%nat end) with n by (by destruct name).
  assert (Hdd : digits_val (drop n name) = k) by (pose proof (digits_val_zeros (take n name) (drop n name) Hz) as Hx; rewrite take_drop in Hx; congruence).
  assert (Hne : drop n name <> []).
  { intros E. apply (f_equal length) in E. rewrite length_drop in E. simpl in E. lia. }
  assert (Hnum : IsNumber (drop n name) = true).
  { unfold IsNumber. rewrite bool_decide_eq_false_2 by done. apply forallb_forall. intros x Hx. pose proof (decimal_digits w k) as Hd. fold name in Hd.
    apply (Forall_drop _ n) in Hd. rewrite Forall_forall in Hd. apply Hd. by apply list_elem_of_In. }
  destruct (drop n name) as [|d num] eqn:Hdr; [done|]. rewrite Hnum. unfold stoul. rewrite Hdd. rewrite decide_True by (destruct Hk; lia).
  rewrite bind_some. by rewrite index_u32.
Qed.

(** ** Sorting names *)

Lemma lex_prefix a x y : lex_compare (a ++ x) (a ++ y) = lex_compare x y.
Proof. induction a as [|c a IH]; [done|]. cbn [app lex_compare]. by rewrite !decide_False by lia. Qed.

Lemma decimal_lt w : forall m n s s', 0 <= m < n -> n < 10 ^ Z.of_nat w -> lex_compare (decimal w m ++ s) (decimal w n ++ s') < 0.
Proof.
  induction w as [|w IH]; intros m n s s' Hmn Hn; [simpl in Hn; lia|]. rewrite Nat2Z.inj_succ, Z.pow_succ_r in Hn by lia. cbn [decimal]. rewrite <- !app_assoc.
  pose proof (Z.div_mod m 10 ltac:(lia)) as Hm10. pose proof (Z.div_mod n 10 ltac:(lia)) as Hn10. pose proof (Z.mod_pos_bound m 10 ltac:(lia)). pose proof (Z.mod_pos_bound n 10 ltac:(lia)).
  destruct (decide (m / 10 < n / 10)) as [Hlt|Hge].
  - apply IH; [split; [apply Z.div_pos; lia|done]|]. apply Z.div_lt_upper_bound; lia.
  - assert (m / 10 = n / 10) as Heq by lia. rewrite Heq, lex_prefix. cbn [app lex_compare]. rewrite decide_True by lia. lia.
Qed.

Lemma log_file_lt path i j : index_ok i -> index_ok j -> i < j -> string_le (log_file path i) (log_file path j).
Proof.
  intros Hi Hj Hij. unfold string_le, log_file. rewrite !index_u32, !FormatToString_decimal, Slice_compare_lex, !lex_prefix by done.
  apply Z.lt_le_incl, decimal_lt; [destruct Hi; lia|]. by destruct Hj.
Qed.

#[global] Instance string_le_total : Total string_le.
Proof. intros a b. unfold string_le. rewrite !Slice_compare_lex. pose proof (lex_compare_flip b a). lia. Qed.
#[global] Instance string_le_trans : Transitive string_le.
Proof.
  intros a b c. unfold string_le. rewrite !Slice_compare_lex. intros Hab Hbc.
  destruct (decide (lex_compare a b = 0)) as [E|E]; [apply lex_compare_eq in E as ->; done|].
  destruct (decide (lex_compare b c = 0)) as [E2|E2]; [apply lex_compare_eq in E2 as <-; lia|]. pose proof (lex_compare_trans a b c). lia.
Qed.
#[global] Instance string_le_antisymm : AntiSymm (=) string_le.
Proof. intros a b. unfold string_le. rewrite !Slice_compare_lex. intros Hab Hba. apply lex_compare_eq. pose proof (lex_compare_flip b a). pose proof (lex_compare_flip a b). lia. Qed.

Lemma sorted_names path ks : StronglySorted Z.lt ks -> Forall index_ok ks -> StronglySorted string_le (log_file path <$> ks).
Proof.
  induction 1 as [|k ks Hs IH Ha]; intros Hok; [constructor|]. apply Forall_cons in Hok as [Hk Hok]. rewrite fmap_cons. constructor; [by apply IH|].
  apply Forall_fmap. rewrite Forall_forall in Ha, Hok |- *. intros j Hj. apply log_file_lt; auto.
Qed.
Lemma sort_names path ks files : StronglySorted Z.lt ks -> Forall index_ok ks -> files ≡ₚ log_file path <$> ks -> merge_sort string_le files = log_file path <$> ks.
Proof.
  intros Hs Hok Hp. apply (StronglySorted_unique string_le).
  - apply (StronglySorted_merge_sort _ _).
  - by apply sorted_names.
  - etransitivity; [apply merge_sort_Permutation|done].
Qed.

(** A list of distinct log files is sorted by index. *)
Lemma sorted_indexes path files : NoDup files -> Forall (fun f => exists k, index_ok k /\ f = log_file path k) files ->
  exists ks, StronglySorted Z.lt ks /\ Forall index_ok ks /\ files ≡ₚ log_file path <$> ks.
Proof.
  intros Hnd Hf. assert (Hks : exists ks, Forall index_ok ks /\ files = log_file path <$> ks).
  { clear Hnd. induction Hf as [|f files (k & Hk & ->) _ (ks & Hks & ->)]; [by exists []|]. exists (k :: ks). split; [by constructor|done]. }
  destruct Hks as (ks & Hks & ->). exists (merge_sort Z.le ks). apply NoDup_fmap_1 in Hnd.
  assert (Hp : merge_sort Z.le ks ≡ₚ ks) by apply merge_sort_Permutation. split; [|split].
  - assert (Hnd' : NoDup (merge_sort Z.le ks)) by (by rewrite Hp). assert (Hs : StronglySorted Z.le (merge_sort Z.le ks)) by apply (StronglySorted_merge_sort _ _).
    clear Hp. induction Hs as [|k l Hs IH Ha]; [constructor|]. apply NoDup_cons in Hnd' as [Hin Hnd']. constructor; [by apply IH|].
    rewrite Forall_forall in Ha |- *. intros j Hj. specialize (Ha j Hj). assert (j <> k) by (by intros ->). lia.
  - by rewrite Hp.
  - by rewrite Hp.
Qed.
End names.
