(* ===== verification/ReplicaLog.v ===== *)
(** The log of a replicator (replica/log_replicator.cc): the entries appended so
    far, whatever the files they went to, and how the writing operations extend
    them. *)
From Stdlib Require Import String.
From S2P Require Import Prelude Slice LogFile LogWriter LogLayout LogReader LogRoundtrip LogThms LogLive Random Skiplist SkiplistInv.
From S2P Require Import SkiplistInsert SkiplistSplit SkiplistSpec SkiplistNodes StdMap Strings LogRoll LogGrow Table MemTable Binlog BinlogWrite BinlogRecover.
From S2P Require Import ReplicateNode Replicator.

Local Abbreviation eof_piece := [(kEofType, @nil Z)].

Section replica.
Context `{BinlogFlags} `{Compressors} `{EntryCodecLaws} {T : Type} `{TableOps T}.
Implicit Types (fs : FileSystem) (ps : list part) (p : LogReplicator T).

(** Files of the log can be opened and written. *)
Definition healthy fs path : Prop := forall k, fs_denied fs (log_file path k) = false /\ writable fs (log_file path k).
Lemma healthy_write fs path f D : healthy fs path -> healthy (write_file f D fs) path.
Proof. done. Qed.

(** The stream of [wh_] stands at the end of the last part, whose entries end at
    [ends] in the file. *)
Definition writes_to fs path W (wh : WriteHandle) (q : part) (ends : list nat) : Prop :=
  exists D lay, part_data fs path W q D lay ends [] /\ pt_closed q = false /\ wh_path wh = log_file path (pt_index q) /\ pwok (wh_lw wh) D.

(** The parts of a replicator's log: all are ended but the one written to. *)
Record replica fs p W base ps (ends : list nat) : Prop := {
  rp_binlog : binlog fs (lp_logs p) (lp_log_path p) W base ps;
  rp_offset : lp_log_offset p = base + Z.of_nat (length (all_entries ps));
  rp_base : 0 <= base;
  rp_index : Forall (fun q => pt_index q < lp_binlog_index p) ps;
  rp_next : 0 <= lp_binlog_index p;
  rp_healthy : healthy fs (lp_log_path p);
  rp_wh : match lp_wh p with
          | None => ends = [] /\ Forall (fun q => pt_closed q = true) ps
          | Some wh => exists a q, ps = a ++ [q] /\ Forall (fun q => pt_closed q = true) a /\ writes_to fs (lp_log_path p) W wh q ends /\
              lp_binlog_index p = pt_index q + 1
          end
}.

(** Only files of the given parts are changed. *)
Definition frame path ps fs fs' : Prop :=
  (fs_denied fs' = fs_denied fs /\ fs_faults fs' = fs_faults fs) /\ forall f, f ∉ log_file path ∘ pt_index <$> ps -> fs_files fs' !! f = fs_files fs !! f.
Lemma files_refl path ps fs : frame path ps fs fs.
Proof. done. Qed.
Lemma files_trans path ps1 ps2 fs1 fs2 fs3 : frame path ps1 fs1 fs2 -> frame path ps2 fs2 fs3 -> (pt_index <$> ps1) ⊆ (pt_index <$> ps2) -> frame path ps2 fs1 fs3.
Proof.
  intros [[Hd1 Hl1] Hf1] [[Hd2 Hl2] Hf2] Hsub. split; [by rewrite Hd2, Hl2|]. intros f Hf. rewrite Hf2 by done. apply Hf1. intros (q & -> & Hq)%list_elem_of_fmap. apply Hf.
  assert (Hin : pt_index q ∈ pt_index <$> ps2) by (apply Hsub; by apply list_elem_of_fmap_2). apply list_elem_of_fmap in Hin as (q' & Heq & Hq').
  apply list_elem_of_fmap. exists q'. split; [|done]. cbn. by rewrite Heq.
Qed.
Lemma frame_write path ps q D fs : q ∈ ps -> frame path ps fs (write_file (log_file path (pt_index q)) D fs).
Proof. intros Hq. split; [done|]. intros f Hf. apply lookup_write_ne. intros <-. apply Hf, list_elem_of_fmap. by exists q. Qed.

(** Only log files are changed. *)
Definition elsewhere path fs fs' : Prop :=
  (fs_denied fs' = fs_denied fs /\ fs_faults fs' = fs_faults fs) /\ forall f, (forall k, f <> log_file path k) -> fs_files fs' !! f = fs_files fs !! f.
Lemma frame_elsewhere path ps fs fs' : frame path ps fs fs' -> elsewhere path fs fs'.
Proof. intros [Hd Hf]. split; [done|]. intros f Hne. apply Hf. intros (q & -> & _)%list_elem_of_fmap. by apply (Hne (pt_index q)). Qed.
#[global] Instance elsewhere_preorder path : PreOrder (elsewhere path).
Proof.
  split; [done|]. intros fs1 fs2 fs3 [[Hd1 Hl1] Hf1] [[Hd2 Hl2] Hf2]. split; [by rewrite Hd2, Hl2|]. intros f Hne. by rewrite Hf2, Hf1.
Qed.

(** What the writing operations keep of a replicator *)
Record same_config p p' : Prop := {
  sc_path : lp_log_path p' = lp_log_path p;
  sc_table : lp_table p' = lp_table p;
  sc_nodes : lp_nodes p' = lp_nodes p;
  sc_term : lp_term p' = lp_term p;
  sc_role : lp_role p' = lp_role p;
  sc_ends : lp_local_endpoints p' = lp_local_endpoints p;
  sc_follower : lp_follower p' = lp_follower p;
  sc_mark : lp_snapshot_log_part_index p' = lp_snapshot_log_part_index p;
  sc_last : lp_snapshot_last_offset p' = lp_snapshot_last_offset p
}.
#[global] Instance same_config_refl : Reflexive same_config.
Proof. by split. Qed.
#[global] Instance same_config_trans : Transitive same_config.
Proof. intros p1 p2 p3 [] []. split; by etransitivity. Qed.

Lemma all_entries_app a b : all_entries (a ++ b) = all_entries a ++ all_entries b.
Proof. apply bind_app. Qed.

(** ** How the files grow *)

Lemma eof_tail N : file_tail N true (enc N eof_piece).
Proof.
  pose proof (tail_closed N [] 0 next_none ltac:(done)) as Ht. change (take 0 (enc N [])) with (@nil Z) in Ht. by rewrite drop_nil, app_nil_r in Ht.
Qed.

(** A part is left as it is, or entries and perhaps an end mark are added. *)
Definition part_grows fs fs' path q q' : Prop :=
  pt_index q' = pt_index q /\ exists D D', fs_files fs !! log_file path (pt_index q) = Some D /\ fs_files fs' !! log_file path (pt_index q) = Some D' /\
    ((q' = q /\ D' = D) \/
     (pt_closed q = false /\ exists es1 lay1 ends1 tail, pt_entries q' = pt_entries q ++ es1 /\ laid (length D) (SerializeToString <$> es1) lay1 ends1 /\
        D' = D ++ enc (length D) lay1 ++ tail /\ file_tail (length D + length (enc (length D) lay1)) (pt_closed q') tail /\ (pt_closed q' = false -> tail = []))).
Definition log_grows fs fs' path ps ps' : Prop := exists psg new, ps' = psg ++ new /\ Forall2 (part_grows fs fs' path) ps psg.

Lemma part_grows_trans fs1 fs2 fs3 path q1 q2 q3 : part_grows fs1 fs2 path q1 q2 -> part_grows fs2 fs3 path q2 q3 -> part_grows fs1 fs3 path q1 q3.
Proof.
  intros (Hi1 & D1 & D2 & Hf1 & Hf2 & Hc1) (Hi2 & D2' & D3 & Hf2' & Hf3 & Hc2). rewrite Hi1 in *. rewrite Hf2 in Hf2'. injection Hf2' as <-.
  split; [done|]. exists D1, D3. split; [done|]. split; [done|]. destruct Hc1 as [[-> ->]|(Ho1 & es1 & lay1 & ends1 & t1 & He1 & Hl1 & -> & Ht1 & Hopen1)]; [exact Hc2|].
  right. split; [done|]. destruct Hc2 as [[-> ->]|(Ho2 & es2 & lay2 & ends2 & t2 & He2 & Hl2 & -> & Ht2 & Hopen2)]; [by exists es1, lay1, ends1, t1|].
  rewrite (Hopen1 Ho2), app_nil_r, length_app in *. exists (es1 ++ es2), (lay1 ++ lay2), (ends1 ++ ends2), t2. rewrite He2, He1, fmap_app, <- app_assoc. split; [done|].
  split; [by apply laid_app|]. rewrite enc_app, length_app, <- !app_assoc. split; [done|]. by rewrite Nat.add_assoc.
Qed.
Lemma log_grows_trans fs1 fs2 fs3 path ps1 ps2 ps3 : log_grows fs1 fs2 path ps1 ps2 -> log_grows fs2 fs3 path ps2 ps3 -> log_grows fs1 fs3 path ps1 ps3.
Proof.
  intros (g1 & n1 & -> & H12) (g2 & n2 & -> & H23). apply Forall2_app_inv_l in H23 as (ga & gb & Ha & Hb & ->). exists ga, (gb ++ n2). split; [by rewrite <- app_assoc|].
  eapply Forall2_trans; [|exact H12|exact Ha]. intros x y z. apply part_grows_trans.
Qed.
Lemma log_grows_refl fs logs path W base ps : binlog fs logs path W base ps -> log_grows fs fs path ps ps.
Proof.
  intros Hb. exists ps, []. rewrite app_nil_r. split; [done|]. apply Forall_Forall2_diag. eapply Forall_impl; [apply (bl_files _ _ _ _ _ _ Hb)|].
  intros q (D & lay & ends & tail & Hq). split; [done|]. exists D, D. split; [apply Hq|]. split; [apply Hq|by left].
Qed.
Lemma untouched fs path W ps k D : Forall (part_file fs path W) ps -> Forall (fun q => index_ok (pt_index q)) ps -> index_ok k -> Forall (fun q => pt_index q < k) ps ->
  Forall2 (part_grows fs (write_file (log_file path k) D fs) path) ps ps.
Proof.
  intros Hf Hi Hk Hne. apply Forall_Forall2_diag. rewrite Forall_forall in Hf, Hi, Hne |- *.
  intros q Hq. destruct (Hf q Hq) as (D0 & lay & ends & tail & Hd). split; [done|]. exists D0, D0. split; [apply Hd|]. split; [|by left].
  rewrite lookup_write_ne; [apply Hd|]. intros Heq. apply log_file_inj in Heq; [|done|by apply Hi]. pose proof (Hne q Hq). lia.
Qed.
Lemma grows_last fs logs path W base a q q' D : binlog fs logs path W base (a ++ [q]) -> part_grows fs (write_file (log_file path (pt_index q)) D fs) path q q' ->
  log_grows fs (write_file (log_file path (pt_index q)) D fs) path (a ++ [q]) (a ++ [q']).
Proof.
  intros [_ Hs Hi Hf _ _ _] Hq. exists (a ++ [q']), []. rewrite app_nil_r. split; [done|]. apply Forall_app in Hi as [Hia Hiq]. apply Forall_cons in Hiq as [Hiq _].
  apply Forall_app in Hf as [Hf _]. apply Forall2_app; [|by constructor]. eapply untouched; [done..|]. by eapply sorted_app_lt.
Qed.

Lemma grown_close D q : exists es1 lay1 ends1 tail, pt_entries (close q) = pt_entries q ++ es1 /\ laid (length D) (SerializeToString <$> es1) lay1 ends1 /\
    D ++ enc (length D) eof_piece = D ++ enc (length D) lay1 ++ tail /\ file_tail (length D + length (enc (length D) lay1)) (pt_closed (close q)) tail /\
    (pt_closed (close q) = false -> tail = []).
Proof.
  exists [], [], [], (enc (length D) eof_piece). rewrite app_nil_r. change (enc (length D) []) with (@nil Z). rewrite app_nil_l. split; [reflexivity|]. split; [constructor|].
  split; [reflexivity|]. split; [|intros Hx; discriminate Hx]. rewrite Nat.add_0_r. apply eof_tail.
Qed.

(** ** Rolling to a new file *)

Lemma RollWLogFile_spec fs p W base ps ends : replica fs p W base ps ends -> index_ok (lp_binlog_index p) ->
  exists fs' p' ps' wh, RollWLogFile fs p = Some (true, fs', p') /\ replica fs' p' W base ps' [] /\ lp_wh p' = Some wh /\ all_entries ps' = all_entries ps /\
    lp_log_offset p' = lp_log_offset p /\ lp_binlog_index p' = lp_binlog_index p + 1 /\ same_config p p' /\
    frame (lp_log_path p) ps' fs fs' /\ log_grows fs fs' (lp_log_path p) ps ps' /\
    exists k c, ps' = c ++ [MkPart (lp_binlog_index p) k [] false] /\ (ps = c \/ exists a q, ps = a ++ [q] /\ c = a ++ [close q]).
Proof.
  intros [Hb Hoff Hbase Hidx Hnext Hhl Hwh] Hk. unfold RollWLogFile.
  assert (Hend : exists fs1 ps1, match lp_wh p with Some wh => '(_, fs, _) ← wh_EndLog fs wh; Some fs | None => Some fs end = Some fs1 /\
    binlog fs1 (lp_logs p) (lp_log_path p) W base ps1 /\ healthy fs1 (lp_log_path p) /\ Forall (fun q => pt_closed q = true) ps1 /\
    all_entries ps1 = all_entries ps /\ Forall (fun q => pt_index q < lp_binlog_index p) ps1 /\ (ps = ps1 \/ exists a q, ps = a ++ [q] /\ ps1 = a ++ [close q]) /\ frame (lp_log_path p) ps1 fs fs1 /\
    log_grows fs fs1 (lp_log_path p) ps ps1).
  { destruct (lp_wh p) as [wh|].
    - destruct Hwh as (a & q & -> & Hcl & (D & lay & Hq & Hqc & Hwp & Hwk) & _).
      destruct (wh_EndLog_spec fs wh D D Hwk) as (wh' & ->); [rewrite Hwp; apply Hq|]. rewrite bind_some.
      pose proof (hd_data _ _ _ _ _ _ (pd_holds _ _ _ _ _ _ _ _ Hq)) as HD. rewrite app_nil_r in HD.
      pose proof (binlog_close _ _ _ _ _ _ _ _ _ _ _ Hb Hq) as Hb1. cbv zeta in Hb1. rewrite drop_nil, <- HD in Hb1.
      eexists _, (a ++ [close q]). split; [done|]. rewrite Hwp, drop_ge by lia. split; [done|]. split; [by apply healthy_write|].
      split; [apply Forall_app; split; [done|by constructor]|]. rewrite !all_entries_app. split; [done|]. apply Forall_app in Hidx as [Hia Hiq].
      split; [apply Forall_app; split; [done|]; apply Forall_cons in Hiq as [? _]; by constructor|]. split; [right; by exists a, q|].
      split; [change (pt_index q) with (pt_index (close q)); apply frame_write; set_solver|]. eapply grows_last; [exact Hb|]. split; [done|].
      eexists D, _. split; [apply Hq|]. split; [apply lookup_write|]. right. split; [done|]. rewrite (app_nil_r (enc (length D) eof_piece)). apply grown_close.
    - destruct Hwh as [-> Hcl]. exists fs, ps. split_and!; try done; [by left|by eapply log_grows_refl]. }
  destruct Hend as (fs1 & ps1 & -> & Hb1 & Hhl1 & Hcl1 & Hes1 & Hidx1 & Hrel & Hfr & Hgr). rewrite bind_some. cbv zeta.
  unfold fopen_write. change (lp_log_path (set_lp_wh None p)) with (lp_log_path p). change (lp_binlog_index (set_lp_wh None p)) with (lp_binlog_index p).
  destruct (Hhl1 (lp_binlog_index p)) as [Hden Hwr]. rewrite Hden. rewrite <- Hes1 in Hoff.
  destruct (binlog_roll fs1 (lp_logs p) (lp_log_path p) W base ps1 (lp_binlog_index p) (lp_log_offset p) Hb1 Hk Hidx1 Hoff Hden) as (x & logs' & Hins & Hb2 & Hp2).
  change (lp_logs (set_lp_wh None p)) with (lp_logs p). change (lp_log_offset (set_lp_wh None p)) with (lp_log_offset p). rewrite Hins, bind_some. cbv beta iota zeta.
  set (fs2 := write_file _ [] fs1) in *. destruct (WriteHandle_new_spec fs2 (log_file (lp_log_path p) (lp_binlog_index p)) [] 0) as (wh & Hnew & Hwp & Hwk); [apply lookup_write|done|simpl; lia|].
  change (Z.of_nat 0) with 0 in Hnew. rewrite Hnew, bind_some. rewrite (uwrap_id _ (lp_binlog_index p + 1)) by (unfold in_uint; destruct Hk; lia).
  eexists fs2, _, (ps1 ++ [MkPart (lp_binlog_index p) (lp_log_offset p) [] false]), wh. split; [done|]. split; [split; cbn [set_lp_wh set_lp_logs lp_logs lp_log_path lp_log_offset lp_binlog_index lp_wh]|].
  - done.
  - rewrite all_entries_app, Hoff. cbn [all_entries mbind list_bind pt_entries app]. by rewrite app_nil_r.
  - done.
  - apply Forall_app. split; [eapply Forall_impl; [exact Hidx1|]; cbv beta; lia|]. constructor; [cbn [pt_index]; lia|constructor].
  - destruct Hk; lia.
  - by apply healthy_write.
  - exists ps1, (MkPart (lp_binlog_index p) (lp_log_offset p) [] false). split; [done|]. split; [done|]. split; [by exists [], []|done].
  - split; [done|]. rewrite all_entries_app, Hes1. split; [cbn [all_entries mbind list_bind pt_entries app]; by rewrite app_nil_r|]. split; [done|]. split; [done|]. split; [by split|].
    split; [|split; [|by eexists _, ps1]].
    2: { eapply log_grows_trans; [exact Hgr|]. eexists ps1, _. split; [done|]. eapply untouched; [apply Hb1|apply Hb1|done|done]. }
    eapply files_trans; [exact Hfr| |rewrite fmap_app; by apply list_subseteq_app_l].
    pose proof (frame_write (lp_log_path p) (ps1 ++ [MkPart (lp_binlog_index p) (lp_log_offset p) [] false]) (MkPart (lp_binlog_index p) (lp_log_offset p) [] false) [] fs1) as Hw.
    apply Hw, elem_of_app. right. left.
Qed.

(** ** Writing an entry *)

(** An entry joins the last part. *)
Definition extends (e : LogEntry) ps ps' : Prop := exists a q, ps = a ++ [q] /\ ps' = a ++ [add_entry e q].
Definition weight (e : LogEntry) : nat := 27 * S (length (SerializeToString e)).
Definition advanced (o : Z) p : LogReplicator T := set_lp_offset o p.

Lemma extends_entries e ps ps' : extends e ps ps' -> all_entries ps' = all_entries ps ++ [e].
Proof. intros (a & q & -> & ->). rewrite !all_entries_app. cbn [all_entries mbind list_bind add_entry pt_entries]. by rewrite !app_nil_r, app_assoc. Qed.

Lemma extends_index e ps ps' : extends e ps ps' -> pt_index <$> ps' = pt_index <$> ps.
Proof. intros (a & q & -> & ->). by rewrite !fmap_app. Qed.

Lemma grown_entry D e q pcs : pt_closed q = false -> pieces true (SerializeToString e) pcs -> fits (length D) pcs ->
  exists es1 lay1 ends1 tail, pt_entries (add_entry e q) = pt_entries q ++ es1 /\ laid (length D) (SerializeToString <$> es1) lay1 ends1 /\
    D ++ enc (length D) pcs = D ++ enc (length D) lay1 ++ tail /\ file_tail (length D + length (enc (length D) lay1)) (pt_closed (add_entry e q)) tail /\
    (pt_closed (add_entry e q) = false -> tail = []).
Proof.
  intros Hc Hp Hf. exists [e], pcs, [(length D + length (enc (length D) pcs))%nat], []. rewrite app_nil_r. cbn [add_entry pt_entries pt_closed fmap list_fmap]. split; [done|].
  split; [|split; [done|split; [|done]]].
  - pose proof (laid_cons (length D) _ [] pcs [] [] Hp Hf (laid_nil _)) as Hone. by rewrite app_nil_r in Hone.
  - rewrite Hc. pose proof (tail_open (length D + length (enc (length D) pcs)) [] 0 next_none ltac:(done) ltac:(by left)) as Ht. exact Ht.
Qed.

(** The size of the file being written *)
Definition file_len fs p : nat := match lp_wh p with Some wh => length (default [] (fs_files fs !! wh_path wh)) | None => 0 end.

Lemma write_entry_spec fs p W base ps ends wh e : replica fs p W base ps ends -> lp_wh p = Some wh -> le_log_index e = lp_log_offset p + 1 -> entry_fits e = true ->
  Z.of_nat (W + weight e) + 13 < 2 ^ 62 ->
  exists fs' wh' ps', write_entry fs p e = Some (OK, fs', set_lp_wh (Some wh') p) /\ extends e ps ps' /\ frame (lp_log_path p) ps' fs fs' /\
    log_grows fs fs' (lp_log_path p) ps ps' /\
    replica fs' (advanced (lp_log_offset p + 1) (set_lp_wh (Some wh') p)) (W + weight e) base ps' (ends ++ [file_len fs' (set_lp_wh (Some wh') p)]).
Proof.
  intros [Hb Hoff Hbase Hidx Hnext Hhl Hwh] Hsome He Hfit HW. rewrite Hsome in Hwh. destruct Hwh as (a & q & -> & Hcl & (D & lay & Hq & Hqc & Hwp & Hwk) & Hlast).
  unfold write_entry. rewrite Hsome, bind_some.
  destruct (wh_Write_spec fs wh D (SerializeToString e) Hwk) as (wh' & pcs & -> & Hwp' & Hpcs & Hfits & Hwk' & Hlen); [rewrite Hwp; apply Hq|by apply serialize_bytes|].
  rewrite bind_some. cbv beta iota. rewrite Hwp. pose proof (add_data fs (lp_log_path p) W q D lay ends e pcs Hq Hqc Hfit Hpcs Hfits Hlen HW) as Hadd. cbv zeta in Hadd.
  pose proof (bl_numbers _ _ _ _ _ _ Hb) as Hnum. apply Forall_app in Hnum as [_ Hnum]. apply Forall_cons in Hnum as [Hnum _].
  pose proof (bl_chain _ _ _ _ _ _ Hb) as Hch. apply chained_app in Hch as [_ [Hst _]].
  assert (Hlenall : Z.of_nat (length (all_entries (a ++ [q]))) = Z.of_nat (length (all_entries a)) + Z.of_nat (length (pt_entries q))).
  { rewrite all_entries_app, length_app. cbn [all_entries mbind list_bind]. rewrite app_nil_r. lia. }
  eexists _, wh', (a ++ [add_entry e q]). split; [done|]. split; [by exists a, q|].
  split; [change (pt_index q) with (pt_index (add_entry e q)); apply frame_write; set_solver|].
  split; [eapply grows_last; [exact Hb|]; split; [done|]; eexists D, _; split; [apply Hq|]; split; [apply lookup_write|]; right; split; [done|]; by eapply grown_entry|].
  assert (Hb' : binlog (write_file (log_file (lp_log_path p) (pt_index q)) (D ++ enc (length D) pcs) fs) (lp_logs p) (lp_log_path p) (W + weight e) base (a ++ [add_entry e q])).
  { eapply binlog_update; try done; [|unfold weight; lia|by eexists _, _, _, _].
    cbn [add_entry pt_start pt_entries]. apply numbered_snoc; [done| |done]. rewrite Hst. lia. }
  assert (Hfl : file_len (write_file (log_file (lp_log_path p) (pt_index q)) (D ++ enc (length D) pcs) fs) (set_lp_wh (Some wh') p) = (length D + length (enc (length D) pcs))%nat).
  { unfold file_len. cbn [set_lp_wh lp_wh]. rewrite Hwp', Hwp, lookup_write. apply length_app. }
  rewrite Hfl. split; cbn [advanced set_lp_offset set_lp_wh lp_logs lp_log_path lp_log_offset lp_binlog_index lp_wh].
  - done.
  - rewrite (extends_entries e (a ++ [q])) by (by exists a, q). rewrite length_app. cbn [length]. lia.
  - done.
  - apply Forall_app in Hidx as [Hia Hiq]. apply Forall_app. split; [done|]. apply Forall_cons in Hiq as [? _]. by constructor.
  - done.
  - by apply healthy_write.
  - exists a, (add_entry e q). split; [done|]. split; [done|]. split; [|done]. eexists _, _. split; [exact Hadd|]. split; [done|]. split; [by rewrite Hwp'|done].
Qed.

(** A call adds a file or goes on with the one it has. *)
Definition more_files p p' (ends ends' : list nat) : Prop :=
  (lp_binlog_index p' = lp_binlog_index p /\ ends' = ends /\ lp_wh p <> None) \/ (lp_binlog_index p' = lp_binlog_index p + 1 /\ ends' = []).

(** The parts after a possible roll *)
Definition rolled ps ps' : Prop :=
  ps' = ps \/ exists k o, ps' = ps ++ [MkPart k o [] false] \/ exists a q, ps = a ++ [q] /\ ps' = a ++ [close q; MkPart k o [] false].

Lemma roll_if_needed_spec fs p W base ps ends : replica fs p W base ps ends -> index_ok (lp_binlog_index p) ->
  exists fs' p' ps' ends' wh, roll_if_needed fs p = Some (true, fs', p') /\ replica fs' p' W base ps' ends' /\ lp_wh p' = Some wh /\ all_entries ps' = all_entries ps /\
    rolled ps ps' /\ lp_log_offset p' = lp_log_offset p /\ more_files p p' ends ends' /\ same_config p p' /\ frame (lp_log_path p) ps' fs fs' /\
    log_grows fs fs' (lp_log_path p) ps ps'.
Proof.
  intros Hr Hk. unfold roll_if_needed. destruct (match lp_wh p with None => true | Some wh => _ end) eqn:Hroll.
  - destruct (RollWLogFile_spec fs p W base ps ends Hr Hk) as (fs' & p' & ps' & wh & -> & Hr' & Hwh & Hes & Hoff & Hi & Hsc & Hfr & Hgr & k & c & -> & Hc).
    exists fs', p', (c ++ [MkPart (lp_binlog_index p) k [] false]), [], wh. split_and!; try done; [|by right].
    right. eexists _, k. destruct Hc as [->|(a & q & -> & ->)]; [by left|]. right. exists a, q. split; [done|]. by rewrite <- app_assoc.
  - destruct (lp_wh p) as [wh|] eqn:Hwh; [|done]. exists fs, p, ps, ends, wh. split_and!; try done; [by left|left; split_and!; try done; by rewrite Hwh|eapply log_grows_refl; apply Hr].
Qed.

(** [AppendEntry] *)
Lemma AppendEntry_spec fs p W base ps ends e0 : replica fs p W base ps ends -> index_ok (lp_binlog_index p) -> lp_log_offset p + 1 < 2 ^ 64 ->
  let e := set_log_index (lp_log_offset p + 1) e0 in entry_fits e = true -> Z.of_nat (W + weight e) + 13 < 2 ^ 62 ->
  exists fs' p' ps1 ps' ends1, AppendEntry fs p e0 = Some (true, e, fs', p') /\ replica fs' p' (W + weight e) base ps' (ends1 ++ [file_len fs' p']) /\
    rolled ps ps1 /\ extends e ps1 ps' /\ all_entries ps' = all_entries ps ++ [e] /\ lp_log_offset p' = lp_log_offset p + 1 /\
    more_files p p' ends ends1 /\ is_Some (lp_wh p') /\ same_config p p' /\ frame (lp_log_path p) ps' fs fs' /\
    log_grows fs fs' (lp_log_path p) ps ps'.
Proof.
  intros Hr Hk Hmax e Hfit HW. unfold AppendEntry.
  assert (Hge0 : 0 <= lp_log_offset p) by (rewrite (rp_offset _ _ _ _ _ _ Hr); pose proof (rp_base _ _ _ _ _ _ Hr); lia).
  destruct (roll_if_needed_spec fs p W base ps ends Hr Hk) as (fs1 & p1 & ps1 & ends1 & wh & -> & Hr1 & Hwh & Hes & Hrl & Hoff & Hmf & Hsc & Hfr1 & Hgr1). rewrite bind_some. cbn [negb]. cbv zeta.
  rewrite Hoff. rewrite (uwrap_id _ (1 + lp_log_offset p)), (Z.add_comm 1) by (unfold in_uint; lia). fold e. rewrite (uwrap_id _ (lp_log_offset p + 1)) by (unfold in_uint; lia).
  destruct (write_entry_spec fs1 p1 W base ps1 ends1 wh e Hr1 Hwh) as (fs2 & wh2 & ps2 & -> & Hext & Hfr2 & Hgr2 & Hr2); [by rewrite Hoff|done|done|]. rewrite Hoff in Hr2.
  rewrite bind_some. change (ok OK) with true. cbn [negb]. set (p2 := advanced _ _) in Hr2.
  assert (Hes2 : all_entries ps2 = all_entries ps ++ [e]) by (by rewrite (extends_entries _ _ _ Hext), Hes).
  assert (Hfr : frame (lp_log_path p) ps2 fs fs2).
  { rewrite (sc_path _ _ Hsc) in Hfr2. eapply files_trans; [done..|]. by apply extends_index in Hext as ->. }
  rewrite (sc_path _ _ Hsc) in Hgr2. pose proof (log_grows_trans _ _ _ _ _ _ _ Hgr1 Hgr2) as Hgr.
  change (set_lp_offset (lp_log_offset p + 1) (set_lp_wh (Some wh2) p1)) with p2. destruct (lp_local_endpoints p2) eqn:Hle.
  - exists fs2, (set_lp_follower_offset (lp_log_offset p + 1) p2), ps1, ps2, ends1. split; [done|]. split; [by destruct Hr2|]. split_and!; try done; [by destruct Hsc; split|apply Hfr..].
  - exists fs2, p2, ps1, ps2, ends1. split; [done|]. split_and!; try done; [by destruct Hsc; split|apply Hfr..].
Qed.

Lemma rolled_index ps ps' : rolled ps ps' -> (pt_index <$> ps) ⊆ (pt_index <$> ps') /\ (length ps' <= S (length ps))%nat.
Proof.
  intros [->|(k & o & [->|(a & q & -> & ->)])].
  - split; [done|lia].
  - rewrite fmap_app, length_app. split; [by apply list_subseteq_app_l|simpl; lia].
  - rewrite !fmap_app, !length_app. split; [|simpl; lia]. intros x Hx. apply elem_of_app in Hx as [Hx|Hx]; apply elem_of_app; [by left|right]. cbn in *. set_solver.
Qed.

(** ** Deleting old files *)

Definition unlinked (path : bytes) (ks : list Z) fs : FileSystem := set_files (foldl (fun m k => delete (log_file path k) m) (fs_files fs) ks) fs.
Lemma unlinked_lookup path ks : forall fs f, fs_files (unlinked path ks fs) !! f = if decide (f ∈ log_file path <$> ks) then None else fs_files fs !! f.
Proof using.
  induction ks as [|k ks IH]; intros fs f; [rewrite decide_False; [done|apply not_elem_of_nil]|]. change (unlinked path (k :: ks) fs) with (unlinked path ks (set_files (delete (log_file path k) (fs_files fs)) fs)).
  rewrite IH. rewrite fmap_cons. destruct (decide (f ∈ log_file path <$> ks)) as [Hin|Hin]; [rewrite decide_True by (by right); done|]. cbn [fs_files set_files].
  destruct (decide (f = log_file path k)) as [->|Hne]; [rewrite lookup_delete_eq, decide_True by left; done|]. rewrite lookup_delete_ne by done. rewrite decide_False; [done|]. by rewrite not_elem_of_cons.
Qed.
Lemma unlink_parts_spec path d : forall (ys : list (Z * Z * nat)) fuel (logs : LogParts) c xs fs, nrep logs c xs -> chain logs d -> nodes logs d ys -> NoDup (head_ logs :: c ++ d) -> (length d < fuel)%nat ->
  exists logs', unlink_parts fuel path logs (head d) fs = Some (unlinked path ((fun y => y.1.1) <$> ys) fs, logs') /\ nrep logs' c xs.
Proof using.
  induction d as [|q d IH]; intros ys fuel logs c xs fs Hl Hc Hn Hnd Hf; (destruct fuel as [|fuel]; [cbn in Hf; lia|]); cbn [unlink_parts head].
  { apply Forall2_nil_inv_l in Hn as ->. exists logs. split; [by destruct fs|done]. }
  destruct ys as [|[[k v] h] ys]; [by inversion Hn|]. apply Forall2_cons in Hn as [Hq Hn]. apply chain_cons in Hc as [Hnx Hc].
  rewrite Hnx, bind_some, GetKey_info, Hq. cbn [fmap option_fmap option_map list_fmap fst]. rewrite bind_some.
  assert (Hq' : q ∉ head_ logs :: c) by (intros Hin; change (head_ logs :: c ++ q :: d) with ((head_ logs :: c) ++ q :: d) in Hnd; apply NoDup_app in Hnd as (_ & Hd & _); apply (Hd q Hin); left).
  destruct (DeleteNode_nrep logs c xs q Hl Hq') as (l1 & -> & Hl1 & Hdn); [eauto|]. rewrite bind_some.
  assert (Hqd : q ∉ d) by (apply NoDup_cons in Hnd as [_ Hnd]; apply NoDup_app in Hnd as (_ & _ & Hnd); by apply NoDup_cons in Hnd as [? _]).
  destruct (IH ys fuel l1 c xs (set_files (delete (log_file path k) (fs_files fs)) fs) Hl1) as (l' & -> & Hl'); [..|by exists l'].
  - eapply chain_frame; [|done]. intros p Hp. apply (dn_links _ _ _ Hdn). congruence.
  - eapply nodes_ext; [|done]. intros p Hp. rewrite (dn_info _ _ _ Hdn), decide_False; congruence.
  - rewrite (kp_head _ _ (dn_kept _ _ _ Hdn)). eapply sublist_NoDup; [exact Hnd|]. apply sublist_skip, sublist_app; [done|]. by apply sublist_cons.
  - cbn in Hf. lia.
Qed.

(** [i] is the part that holds the entry behind the snapshot's offset [o], or
    nothing may be deleted. *)
Definition marked (i o : Z) ps : Prop := i <= 0 \/ exists q, q ∈ ps /\ pt_index q = i /\ pt_start q <= o.
Lemma marked_append i o e ps ps1 ps' : rolled ps ps1 -> extends e ps1 ps' -> marked i o ps -> marked i o ps'.
Proof using.
  intros Hr (a & q1 & -> & ->) [Hi|(q & Hq & <- & Ho)]; [by left|right]. assert (Hm : exists q', q' ∈ a ++ [q1] /\ pt_index q' = pt_index q /\ pt_start q' = pt_start q).
  { destruct Hr as [->|(k & x & [Heq|(b & y & -> & Heq)])]; [by exists q|rewrite Heq; exists q; split; [apply elem_of_app; by left|done]|]. rewrite Heq.
    apply elem_of_app in Hq as [Hq|Hq%list_elem_of_singleton]; [exists q|subst q; exists (close y)]; (split; [apply elem_of_app; (by left) || (right; left)|done]). }
  destruct Hm as (q' & Hq' & <- & Hs). apply elem_of_app in Hq' as [Hq'|Hq'%list_elem_of_singleton]; [exists q'|subst q'; exists (add_entry e q1)]; (split; [apply elem_of_app; (by left) || (right; left)|split; [done|cbn; lia]]).
Qed.

Lemma split_parts m ps : StronglySorted (fun x y => pt_index x < pt_index y) ps ->
  exists a b, ps = a ++ b /\ Forall (fun q => pt_index q <= m) a /\ Forall (fun q => m < pt_index q) b /\ seq_before m (reverse (pt_key <$> ps)) = length b.
Proof using.
  intros Hs. assert (Hx : exists a b, ps = a ++ b /\ Forall (fun q => pt_index q <= m) a /\ Forall (fun q => m < pt_index q) b).
  { induction Hs as [|q ps Hs IH Hq]; [by exists [], []|]. destruct (decide (pt_index q <= m)) as [Hle|Hgt].
    - destruct IH as (a & b & -> & Ha & Hb). exists (q :: a), b. split_and!; [done|by constructor|done].
    - exists [], (q :: ps). split_and!; [done|constructor|]. constructor; [lia|]. eapply Forall_impl; [exact Hq|]. cbv beta. lia. }
  destruct Hx as (a & b & -> & Ha & Hb). exists a, b. split_and!; try done. rewrite fmap_app, reverse_app. rewrite <- (reverse_involutive a) in Ha. rewrite <- (reverse_involutive b) in Hb.
  rewrite <- !fmap_reverse, <- (length_reverse b). apply Forall_reverse in Ha, Hb. rewrite reverse_involutive in Ha, Hb. clear Hs.
  induction Hb as [|q l Hq Hl IH]; cbn [fmap list_fmap app seq_before length].
  - destruct Ha as [|q l Hq Hl]; [done|]. cbn [fmap list_fmap seq_before]. destruct (adv_lt m (pt_key q).1) eqn:Ea; [|done]. apply adv_lt_true in Ea. revert Ea. unfold compare_, time_comparator, TimeComparator. cbn. repeat case_decide; lia.
  - assert (adv_lt m (pt_key q).1 = true) as ->; [|by rewrite IH]. apply adv_lt_true. unfold compare_, time_comparator, TimeComparator. cbn. repeat case_decide; lia.
Qed.

Lemma unlinked_part path W ks fs q : part_file fs path W q -> index_ok (pt_index q) -> Forall index_ok ks -> pt_index q ∉ ks -> part_file (unlinked path ks fs) path W q.
Proof using.
  intros (D & lay & ends & tail & [Hf Hd Hh Hb Hl]) Hq Hks Hin. exists D, lay, ends, tail. split; try done. rewrite unlinked_lookup, decide_False; [done|].
  intros (k & Heq & Hk)%list_elem_of_fmap. rewrite Forall_forall in Hks. apply log_file_inj in Heq; [by rewrite Heq in Hin|done|by apply Hks].
Qed.

Lemma replica_drop fs p W base a b ends logs' : replica fs p W base (a ++ b) ends -> b <> [] -> rep logs' (reverse (pt_key <$> b)) ->
  replica (unlinked (lp_log_path p) (reverse (pt_index <$> a)) fs) (set_lp_logs (lp_binlog_index p) logs' p) W (base + Z.of_nat (length (all_entries a))) b ends.
Proof using All.
  intros Hr Hbne Hl. pose proof (rp_binlog _ _ _ _ _ _ Hr) as [_ Hso Hix Hfi Hch Hnu Hbo].
  pose proof (rp_wh _ _ _ _ _ _ Hr) as Hwh. pose proof (rp_offset _ _ _ _ _ _ Hr) as Ho. rewrite all_entries_app, length_app in Ho.
  apply Forall_app in Hix as [Hxa Hxb]. apply Forall_app in Hfi as [_ Hfb]. apply chained_app in Hch as [_ Hcb]. apply Forall_app in Hnu as [_ Hnb].
  assert (Hna : forall q, q ∈ b -> pt_index q ∉ reverse (pt_index <$> a)).
  { intros q Hq Hx. apply elem_of_reverse, list_elem_of_fmap in Hx as (q' & Heq & Hq'). clear -Hso Heq Hq Hq'. induction a as [|x a IH]; [by apply not_elem_of_nil in Hq'|]. apply StronglySorted_inv in Hso as [Hso Hx]. apply elem_of_cons in Hq' as [->|Hq']; [|by apply IH]. rewrite Forall_forall in Hx. specialize (Hx q ltac:(apply elem_of_app; by right)). lia. }
  assert (Hka : Forall index_ok (reverse (pt_index <$> a))) by (by apply Forall_reverse, Forall_fmap).
  split; cbn [set_lp_logs lp_logs lp_log_path lp_log_offset lp_binlog_index lp_wh].
  - split; try done.
    + clear -Hso. induction a as [|q a IH]; [done|]. apply IH. by inversion Hso.
    + rewrite Forall_forall in Hfb, Hxb |- *. intros q Hq. apply unlinked_part; auto.
  - lia.
  - pose proof (rp_base _ _ _ _ _ _ Hr). lia.
  - pose proof (rp_index _ _ _ _ _ _ Hr) as Hi. by apply Forall_app in Hi as [_ ?].
  - apply Hr.
  - exact (rp_healthy _ _ _ _ _ _ Hr).
  - destruct (lp_wh p) as [wh|]; [|destruct Hwh as [? Hwh]; split; [done|]; by apply Forall_app in Hwh as [_ ?]].
    destruct Hwh as (a' & q & Heq & Hcl & (D & lay & Hq & Hqc & Hwp & Hwk) & Hlast). destruct (exists_last Hbne) as (b' & q' & ->). rewrite app_assoc in Heq. apply app_inj_tail in Heq as [<- ->]. apply Forall_app in Hcl as [_ Hcl].
    exists b', q. split; [done|]. split; [done|]. split; [|done]. exists D, lay. split; [|done]. destruct Hq as [Hqf Hqd Hqh Hqb Hql]. split; try done.
    rewrite unlinked_lookup, decide_False; [done|]. intros (k & Hk & Hkin)%list_elem_of_fmap. apply (Hna q); [apply elem_of_app; right; left|]. apply log_file_inj in Hk; [by rewrite Hk| |rewrite Forall_forall in Hka; by apply Hka].
    apply Forall_app in Hxb as [_ Hxb]. by apply Forall_cons in Hxb as [? _].
Qed.

(** [DeleteBinlog] deletes parts from the front of the log, all before the
    snapshot's part. *)
Lemma DeleteBinlog_spec fs p W base ps ends o : replica fs p W base ps ends -> marked (lp_snapshot_log_part_index p) o ps ->
  exists a b logs', DeleteBinlog fs p = Some (unlinked (lp_log_path p) (reverse (pt_index <$> a)) fs, set_lp_logs (lp_binlog_index p) logs' p) /\ ps = a ++ b /\
    (a = [] \/ base + Z.of_nat (length (all_entries a)) <= o) /\ marked (lp_snapshot_log_part_index p) o b /\
    replica (unlinked (lp_log_path p) (reverse (pt_index <$> a)) fs) (set_lp_logs (lp_binlog_index p) logs' p) W (base + Z.of_nat (length (all_entries a))) b ends.
Proof using All.
  intros Hr Hm. pose proof (rp_binlog _ _ _ _ _ _ Hr) as [Hlogs Hso Hix Hfi Hch Hnu Hbo]. unfold DeleteBinlog. rewrite (GetSize_rep _ _ Hlogs), bind_some.
  assert (Hnone : exists a b logs', Some (fs, p) = Some (unlinked (lp_log_path p) (reverse (pt_index <$> a)) fs, set_lp_logs (lp_binlog_index p) logs' p) /\ ps = a ++ b /\
    (a = [] \/ base + Z.of_nat (length (all_entries a)) <= o) /\ marked (lp_snapshot_log_part_index p) o b /\
    replica (unlinked (lp_log_path p) (reverse (pt_index <$> a)) fs) (set_lp_logs (lp_binlog_index p) logs' p) W (base + Z.of_nat (length (all_entries a))) b ends).
  { exists [], ps, (lp_logs p). change (unlinked (lp_log_path p) (reverse (pt_index <$> [])) fs) with (set_files (fs_files fs) fs). replace (set_files (fs_files fs) fs) with fs by (by destruct fs).
    replace (set_lp_logs _ _ p) with p by (by destruct p). split_and!; [done|done|by left|done|]. cbn. by rewrite Z.add_0_r. }
  case_decide as Hsz; [exact Hnone|]. cbv zeta. set (mi := foldl Z.min _ _ - 1). case_decide as Hmi; [exact Hnone|]. clear Hnone.
  assert (Hle : mi + 1 <= lp_snapshot_log_part_index p).
  { unfold mi. rewrite Z.sub_add. clear. generalize (lp_snapshot_log_part_index p). induction (Node_GetLogIndex <$> lp_nodes p) as [|x l IH]; intros i; cbn [foldl]; [lia|]. specialize (IH (i `min` x)). lia. }
  destruct Hm as [Hm|(qs & Hin & Hqs & Hqo)]; [lia|].
  assert (Hiq : index_ok (pt_index qs)) by (rewrite Forall_forall in Hix; by apply Hix).
  rewrite uwrap_id by (unfold in_uint; unfold index_ok in Hiq; lia).
  destruct (split_parts mi ps Hso) as (a & b & -> & Ha & Hb & Hbefore). destruct (rep_nrep _ _ Hlogs) as (c & xs & Hn & Hxs).
  destruct (Split_cut _ c xs mi Hn) as (r & l1 & -> & Hn1 & -> & Hc1 & Hi1 & Hk1 & _). rewrite bind_some, Hxs, Hbefore in *. cbv beta iota.
  assert (Hnd : NoDup (head_ l1 :: take (length b) c ++ drop (length b) c)) by (rewrite take_drop, (kp_head _ _ Hk1); by eapply nrep_NoDup).
  destruct (unlink_parts_spec (lp_log_path p) (drop (length b) c) (drop (length b) xs) (S (base.size (heap l1))) l1 (take (length b) c) (take (length b) xs) fs Hn1 Hc1) as (l2 & -> & Hn2); [|done|rewrite (info_size _ _ Hi1), length_drop; pose proof (nrep_size _ _ _ Hn); lia|].
  { eapply nodes_ext; [intros; apply Hi1|]. apply Forall2_drop. by eapply nrep_nodes. }
  rewrite bind_some. cbv beta iota. assert (Hks : (fun y : Z * Z * nat => y.1.1) <$> drop (length b) xs = reverse (pt_index <$> a)).
  { change (fun y : Z * Z * nat => y.1.1) with (@fst Z Z ∘ @fst (Z * Z) nat). rewrite list_fmap_compose, fmap_drop, Hxs, fmap_app, reverse_app, drop_app_length' by (by rewrite length_reverse, length_fmap).
    rewrite fmap_reverse. by rewrite <- list_fmap_compose. }
  rewrite Hks. exists a, b, l2. split; [done|]. split; [done|].
  assert (Hinb : qs ∈ b) by (apply elem_of_app in Hin as [Hin|Hin]; [|done]; rewrite Forall_forall in Ha; specialize (Ha qs Hin); lia).
  split; [right; apply chained_app in Hch as [_ Hch]; apply chained_starts in Hch; rewrite Forall_forall in Hch; specialize (Hch qs Hinb); lia|]. split; [right; by exists qs|].
  apply replica_drop; [done| |].
  - intros ->. by apply not_elem_of_nil in Hinb.
  - apply nrep_rep in Hn2. by rewrite fmap_take, Hxs, fmap_app, reverse_app, take_app_length' in Hn2 by (by rewrite length_reverse, length_fmap).
Qed.
End replica.
