(* ===== verification/ReplicaSend.v ===== *)
(** The leader's side of replication: which entries a node puts into a request,
    and that a node which is behind either finds some or moves on in the log. *)
From Stdlib Require Import String.
From S2P Require Import Prelude Slice LogFile LogWriter LogLayout LogReader LogRoundtrip LogThms LogLive Random Skiplist SkiplistInv.
From S2P Require Import SkiplistInsert SkiplistSplit SkiplistSpec StdMap Strings LogRoll LogGrow Table MemTable Binlog BinlogWrite BinlogRecover.
From S2P Require Import ReplicateNode Replicator ReplicaLog.

(** * ReplicaRead: A log reader that follows a log while it is written: where it stands among
    all entries, what [ReadNextRecord] returns there, and that it keeps its place
    when entries are added. *)
Section read.
Context `{BinlogFlags} `{Compressors} `{EntryCodecLaws}.
Implicit Types (fs : FileSystem) (logs : LogParts) (ps : list part) (q : part) (r : LogReader).

(** ** Logs with at most one open part *)

(** Only the last part may be open, and then it holds complete records only. *)
Record tidy fs path ps : Prop := {
  td_closed : forall a q b, ps = a ++ q :: b -> b <> [] -> pt_closed q = true;
  td_open : forall q, q ∈ ps -> pt_closed q = false -> exists D lay ends, fs_files fs !! log_file path (pt_index q) = Some D /\ holds D (pt_recs q) false lay ends []
}.

Lemma replica_tidy {T} `{TableOps T} fs (p : LogReplicator T) W base ps ends : replica fs p W base ps ends -> tidy fs (lp_log_path p) ps.
Proof.
  intros Hr. pose proof (rp_wh _ _ _ _ _ _ Hr) as Hwh. destruct (lp_wh p) as [wh|].
  - destruct Hwh as (a & q & -> & Hcl & (D & lay & Hq & Hqc & _) & _). split.
    + intros a' x b Heq Hb. destruct (exists_last Hb) as (b0 & y & ->). rewrite app_comm_cons, app_assoc in Heq. apply app_inj_tail in Heq as [-> _].
      apply Forall_app in Hcl as [_ Hcl]. by apply Forall_cons in Hcl as [? _].
    + intros x Hx Ho. apply elem_of_app in Hx as [Hx|Hx]; [rewrite Forall_forall in Hcl; by rewrite (Hcl x Hx) in Ho|]. apply list_elem_of_singleton in Hx as ->.
      exists D, lay, ends. split; [apply Hq|]. rewrite <- Hqc. apply Hq.
  - destruct Hwh as [_ Hcl]. split.
    + intros a q b -> _. apply Forall_app in Hcl as [_ Hcl]. by apply Forall_cons in Hcl as [? _].
    + intros q Hq Ho. rewrite Forall_forall in Hcl. by rewrite (Hcl q Hq) in Ho.
Qed.

(** ** Where a reader stands *)

(** [At old]: before a record, with an older view of the file if [old]; [Past]:
    behind the end mark of the last part *)
Inductive spot : Type := At (old : bool) | Past.

Definition spot_at (s : spot) D q lay ends tail rd i : Prop :=
  match s with
  | At old => live old D (pt_recs q) lay ends tail rd i
  | Past => pt_closed q = true /\ i = length (pt_entries q) /\ rpast D lay (set_data D rd)
  end.
(** The next entry is number [k], in a part that [b] parts follow. *)
Definition reading fs path ps r (s : spot) (k b : nat) : Prop :=
  lr_log_path r = path /\ lr_compressed r = false /\
  exists a q c D lay ends tail rd i, ps = a ++ q :: c /\ b = length c /\ k = (length (all_entries a) + i)%nat /\
    fs_files fs !! log_file path (pt_index q) = Some D /\ holds D (pt_recs q) (pt_closed q) lay ends tail /\ (pt_closed q = false -> tail = []) /\
    lr_log_part_index r = pt_index q /\ lr_reader r = Some (log_file path (pt_index q), rd) /\ spot_at s D q lay ends tail rd i.

(** What the next call returns, and where the reader stands then *)
Inductive read_step ps : spot -> nat -> nat -> Status -> bytes -> spot -> nat -> nat -> Prop :=
  | read_entry old k b e : all_entries ps !! k = Some e -> read_step ps (At old) k b OK (SerializeToString e) (At old) (S k) b
  | read_nothing s k b j : (s = At false -> k = length (all_entries ps) /\ b = 0%nat) -> (j <= k)%nat -> read_step ps s k b WaitRecord [] (At false) j b
  | read_next k b : read_step ps (At false) k (S b) Eof [] (At false) k b
  | read_last k : k = length (all_entries ps) -> read_step ps (At false) k 0 Eof [] Past k 0.

Lemma entries_at a q c i e : pt_entries q !! i = Some e -> all_entries (a ++ q :: c) !! (length (all_entries a) + i)%nat = Some e.
Proof. intros Hi. rewrite all_entries_app, lookup_app_r by lia. replace (_ + i - _)%nat with i by lia. cbn [all_entries mbind list_bind]. by apply lookup_app_l_Some. Qed.
Lemma opened_fresh D ds closed lay ends tail : holds D ds closed lay ends tail ->
  live false D ds lay ends tail (Reader_new (open_seq D) None FLAGS_binlog_enable_crc 0 false []) 0.
Proof. intros Hh. exact (rat_open D ds closed lay ends tail None FLAGS_binlog_enable_crc [] Hh). Qed.

(** The file of a part, with complete records if it is open *)
Lemma part_holds fs logs path W base ps q : binlog fs logs path W base ps -> tidy fs path ps -> q ∈ ps ->
  exists D lay ends tail, fs_files fs !! log_file path (pt_index q) = Some D /\ fs_denied fs (log_file path (pt_index q)) = false /\
    holds D (pt_recs q) (pt_closed q) lay ends tail /\ (pt_closed q = false -> tail = []).
Proof.
  intros Hb Ht Hq. pose proof (bl_files _ _ _ _ _ _ Hb) as Hf. rewrite Forall_forall in Hf. destruct (Hf q Hq) as (D & lay & ends & tail & Hd).
  destruct (pt_closed q) eqn:Hc; [exists D, lay, ends, tail; rewrite <- Hc; split_and!; try apply Hd; congruence|].
  destruct (td_open _ _ _ Ht q Hq Hc) as (D' & lay' & ends' & HD' & Hh). exists D', lay', ends', []. split_and!; try done. apply Hd.
Qed.

(** A part just opened *)
Lemma reading_opened fs logs path W base a q c r : binlog fs logs path W base (a ++ q :: c) -> tidy fs path (a ++ q :: c) -> lr_compressed r = false -> lr_log_path r = path ->
  exists D, fs_files fs !! log_file path (pt_index q) = Some D /\ roll_to fs r (pt_index q) = (0, opened path r (pt_index q) D) /\
    reading fs path (a ++ q :: c) (opened path r (pt_index q) D) (At false) (length (all_entries a)) (length c).
Proof.
  intros Hb Ht Hc Hp. destruct (part_holds _ _ _ _ _ _ q Hb Ht) as (D & lay & ends & tail & HD & Hden & Hh & Htail); [apply elem_of_app; right; left|].
  exists D. split; [done|]. split.
  { unfold roll_to. pose proof (bl_index _ _ _ _ _ _ Hb) as Hi. apply Forall_app in Hi as [_ Hi]. apply Forall_cons in Hi as [[[? ?] _] _]. rewrite decide_True by done.
    unfold fopen_read. by rewrite Hp, Hden, HD. }
  split; [done|]. split; [done|]. exists a, q, c, D, lay, ends, tail, (Reader_new (open_seq D) None FLAGS_binlog_enable_crc 0 false []), 0%nat.
  cbn [opened lr_log_part_index lr_reader]. rewrite Hc, Nat.add_0_r. split_and!; try done. by eapply opened_fresh.
Qed.

(** ** The next call *)
Lemma next_record fs logs path W base ps r s k b : binlog fs logs path W base ps -> tidy fs path ps -> reading fs path ps r s k b ->
  exists st rec r' s' k' b', ReadNextRecord fs logs r = Some (st, rec, r') /\ read_step ps s k b st rec s' k' b' /\ reading fs path ps r' s' k' b'.
Proof.
  intros Hb Ht (Hpath & Hcomp & a & q & c & D & lay & ends & tail & rd & i & -> & -> & -> & HD & Hh & Htail & Hidx & Hrd & Hs).
  assert (Hread : forall st rec rd', ReadRecord snappy_length snappy_uncompress zlib_uncompress (S (S (length D))) (set_data D rd) = Some (st, rec, rd') -> st <> Eof ->
    ReadNextRecord fs logs r = Some (st, rec, with_reader r (log_file path (pt_index q)) rd')).
  { intros st rec rd' HR Hst. rewrite (ReadNextRecord_open fs logs r _ rd D st rec rd' Hrd HD HR). by rewrite decide_False. }
  assert (Hat : forall s' rd' j, spot_at s' D q lay ends tail rd' j ->
    reading fs path (a ++ q :: c) (with_reader r (log_file path (pt_index q)) rd') s' (length (all_entries a) + j) (length c)).
  { intros s' rd' j Hs'. split; [done|]. split; [done|]. by exists a, q, c, D, lay, ends, tail, rd', j. }
  destruct s as [old|].
  - destruct (live_read snappy_length snappy_uncompress zlib_uncompress old D _ _ _ _ _ _ _ Hh Hs) as (st & rec & rd' & HR & [(-> & Hrec & Hl)|[(-> & -> & Hend & j & Hj & Hl)|(-> & -> & -> & Hcl & -> & Hp)]]).
    + unfold pt_recs in Hrec. rewrite list_lookup_fmap in Hrec. destruct (pt_entries q !! i) as [e|] eqn:He; [|done]. injection Hrec as <-.
      eexists OK, _, _, (At old), _, _. split; [by apply Hread|]. split; [apply read_entry; by apply entries_at|]. rewrite <- Nat.add_succ_r. by apply Hat.
    + eexists WaitRecord, _, _, (At false), (length (all_entries a) + j)%nat, _. split; [by apply Hread|]. split; [|by apply Hat]. apply read_nothing; [|lia]. intros [= ->].
      destruct Hend as [Hold|[-> Hopen]]; [done|]. assert (c = []) as ->.
      { destruct (decide (c = [])) as [|Hne]; [done|]. by rewrite (td_closed _ _ _ Ht a q c eq_refl Hne) in Hopen. }
      rewrite all_entries_app, length_app. cbn [all_entries mbind list_bind length]. by rewrite app_nil_r, length_recs.
    + rewrite (ReadNextRecord_open fs logs r _ rd D Eof [] rd' Hrd HD HR), decide_True by done. set (r1 := with_reader r _ rd'). destruct c as [|x c].
      * rewrite (roll_none fs logs path W base a q r1 Hb Hidx), bind_some. eexists Eof, _, _, Past, _, _. split; [done|]. split; [apply read_last|].
        -- rewrite all_entries_app, length_app. cbn [all_entries mbind list_bind length]. by rewrite app_nil_r, length_recs.
        -- apply Hat. split; [done|]. split; [by rewrite length_recs|]. by rewrite (past_data _ _ _ Hp).
      * destruct (roll_next fs logs path W base a q x c r1 Hb Hpath Hidx) as (D1 & lay1 & ends1 & tail1 & Hx & ->). rewrite bind_some.
        replace (a ++ q :: x :: c) with ((a ++ [q]) ++ x :: c) in Hb, Ht |- * by (by rewrite <- app_assoc).
        destruct (reading_opened fs logs path W base (a ++ [q]) x c r1 Hb Ht Hcomp Hpath) as (D2 & HD2 & _ & Hro). rewrite (pd_file _ _ _ _ _ _ _ _ Hx) in HD2. injection HD2 as <-.
        eexists Eof, _, _, (At false), _, _. split; [done|]. split; [apply read_next|]. rewrite length_recs. rewrite all_entries_app, length_app in Hro.
        cbn [all_entries mbind list_bind] in Hro. by rewrite app_nil_r in Hro.
  - destruct Hs as (Hcl & -> & Hp). destruct (past_read snappy_length snappy_uncompress zlib_uncompress D _ _ _ _ _ rd Hh Hp) as (rd' & j & HR & Hj & Hl). rewrite length_recs in Hj.
    eexists WaitRecord, _, _, (At false), (length (all_entries a) + j)%nat, _. split; [by apply Hread|]. split; [|by apply Hat]. apply read_nothing; [done|lia].
Qed.

(** ** The first call *)
Definition unopened path r : Prop := lr_log_path r = path /\ lr_compressed r = false /\ lr_log_part_index r = -1 /\ lr_reader r = None.

Lemma first_nothing fs logs path W base r : binlog fs logs path W base [] -> unopened path r -> ReadNextRecord fs logs r = Some (WaitRecord, [], r).
Proof. intros Hb (_ & _ & _ & Hn). unfold ReadNextRecord. rewrite Hn, (RollRLogFile_nil fs logs r (bl_logs _ _ _ _ _ _ Hb)), bind_some. done. Qed.
Lemma first_record fs logs path W base ps r : binlog fs logs path W base ps -> tidy fs path ps -> ps <> [] -> unopened path r -> base <= lr_start_offset r ->
  exists r1 k b, ReadNextRecord fs logs r = ReadNextRecord fs logs r1 /\ reading fs path ps r1 (At false) k b /\ base + Z.of_nat k <= lr_start_offset r.
Proof.
  intros Hb Ht Hne (Hp & Hc & Hi & Hn) Hoff. destruct (seq_find_part base ps _ (bl_chain _ _ _ _ _ _ Hb) Hne Hoff) as (a & q & c & -> & Hf & Hst).
  destruct (reading_opened fs logs path W base a q c r Hb Ht Hc Hp) as (D & _ & Hro & Hr1). eexists _, _, _. split; [|split; [exact Hr1|]].
  - unfold ReadNextRecord. rewrite Hn. rewrite (RollRLogFile_first fs logs _ r (bl_logs _ _ _ _ _ _ Hb)), Hf, Hro, bind_some; [done|by eapply index_keys|by eapply binlog_count|lia].
  - pose proof (bl_chain _ _ _ _ _ _ Hb) as Hch. apply chained_app in Hch as [_ [Hs _]]. lia.
Qed.

(** ** Growth *)
Lemma closed_same fs fs' path a a' : Forall2 (part_grows fs fs' path) a a' -> Forall (fun q => pt_closed q = true) a -> a' = a.
Proof.
  induction 1 as [|q q' a a' (_ & D & D' & _ & _ & Hq) _ IH]; intros Hc; [done|]. apply Forall_cons in Hc as [Hc1 Hc]. rewrite (IH Hc). f_equal.
  destruct Hq as [[-> _]|[Hx _]]; [done|congruence].
Qed.
Lemma tidy_before fs path a q c : tidy fs path (a ++ q :: c) -> Forall (fun x => pt_closed x = true) a.
Proof.
  intros Ht. apply Forall_forall. intros x Hx. apply list_elem_of_split in Hx as (a1 & a2 & ->). apply (td_closed _ _ _ Ht a1 x (a2 ++ q :: c)); [by rewrite <- app_assoc|by destruct a2].
Qed.
(** The new version of a part in the log *)
Lemma grown_holds fs' logs' path W base ps' q q' D D' lay ends es1 lay1 ends1 tail : binlog fs' logs' path W base ps' -> q' ∈ ps' -> fs_files fs' !! log_file path (pt_index q') = Some D' ->
  holds D (pt_recs q) false lay ends [] -> pt_entries q' = pt_entries q ++ es1 -> laid (length D) (SerializeToString <$> es1) lay1 ends1 -> D' = D ++ enc (length D) lay1 ++ tail ->
  file_tail (length D + length (enc (length D) lay1)) (pt_closed q') tail ->
  holds D' (pt_recs q') (pt_closed q') (lay ++ lay1) (ends ++ ends1) tail /\ grows D (pt_recs q) lay ends D' (pt_recs q') (lay ++ lay1) (ends ++ ends1).
Proof.
  intros Hb Hq' HD' Hh He Hl -> Ht. pose proof (hd_data _ _ _ _ _ _ Hh) as HD. rewrite app_nil_r in HD. pose proof (hd_laid _ _ _ _ _ _ Hh) as Hl0.
  assert (Hrecs : pt_recs q' = pt_recs q ++ (SerializeToString <$> es1)) by (unfold pt_recs; by rewrite He, fmap_app). rewrite Hrecs.
  pose proof (bl_files _ _ _ _ _ _ Hb) as Hf. pose proof (bl_numbers _ _ _ _ _ _ Hb) as Hn. rewrite Forall_forall in Hf, Hn. split.
  - split.
    + apply laid_app; [done|]. by rewrite Nat.add_0_l, <- HD.
    + rewrite <- Hrecs. apply Forall_fmap, Forall_lookup_2. intros i e Hi. apply serialize_bytes. by eapply (Hn q' Hq').
    + rewrite enc_app, <- HD, app_assoc. done.
    + by rewrite enc_app, length_app, <- HD.
    + destruct (Hf q' Hq') as (D2 & lay2 & ends2 & tail2 & Hd2). rewrite (pd_file _ _ _ _ _ _ _ _ Hd2) in HD'. injection HD' as ->. apply Hd2.
  - exists (SerializeToString <$> es1), lay1, ends1, (enc (length D) lay1 ++ tail). split_and!; try done. by rewrite <- HD.
Qed.

Lemma reading_grows fs fs' logs' path W base ps ps' r s k b : log_grows fs fs' path ps ps' -> tidy fs path ps -> binlog fs' logs' path W base ps' -> reading fs path ps r s k b ->
  exists s' b', reading fs' path ps' r s' k b'.
Proof.
  intros (psg & new & -> & Hg) Htd Hb (Hpath & Hcomp & a & q & c & D & lay & ends & tail & rd & i & -> & -> & -> & HD & Hh & Htail & Hidx & Hrd & Hs).
  apply Forall2_app_inv_l in Hg as (a' & x & Ha & Hx & ->). apply Forall2_cons_inv_l in Hx as (q' & c' & (Hqi & D0 & D' & HD0 & HD' & Hq) & _ & ->). rewrite HD in HD0. injection HD0 as <-.
  pose proof (closed_same _ _ _ _ _ Ha (tidy_before _ _ _ _ _ Htd)) as ->. rewrite <- app_assoc in *. cbn [app] in *.
  destruct Hq as [[-> ->]|(Ho & es1 & lay1 & ends1 & tail' & He & Hl & -> & Ht' & Hopen)].
  - exists s, (length (c' ++ new)). split; [done|]. split; [done|]. by exists a, q, (c' ++ new), D, lay, ends, tail, rd, i.
  - rewrite (Htail Ho), Ho in *. destruct s as [old|]; [|by destruct Hs as [? _]; congruence].
    destruct (grown_holds fs' logs' path W base _ q q' D _ lay ends es1 lay1 ends1 tail' Hb ltac:(apply elem_of_app; right; left) ltac:(by rewrite Hqi) Hh He Hl eq_refl Ht') as [Hh' Hgr].
    destruct (live_grow old _ _ _ _ _ _ _ _ _ _ rd i Hh Hh' Hgr Hs) as (old' & Hl'). exists (At old'), (length (c' ++ new)). split; [done|]. split; [done|].
    eexists a, q', (c' ++ new), _, _, _, tail', rd, i. rewrite Hqi. by split_and!.
Qed.
End read.

(** * ReplicaSend *)
Section send.
Context `{BinlogFlags} `{Compressors} `{EntryCodecLaws}.
Implicit Types (fs : FileSystem) (logs : LogParts) (ps : list part) (q : part) (r : LogReader) (n : ReplicateNode).

(** ** The place of a reader

    All entries before the next one are at or before the offset [o].  [lag]
    bounds how often the reader comes back without an entry. *)
Definition spot_lag (s : spot) : nat := match s with At false => 0 | _ => 1 end.
Inductive placed fs path (base : Z) ps r (o : Z) : nat -> Prop :=
  | placed_unopened : unopened path r -> base <= lr_start_offset r <= o -> placed fs path base ps r o (2 * length ps)
  | placed_reading s k b : reading fs path ps r s k b -> base + Z.of_nat k <= o -> placed fs path base ps r o (2 * b + spot_lag s).

Lemma placed_later fs path base ps r o o' lag : placed fs path base ps r o lag -> o <= o' -> placed fs path base ps r o' lag.
Proof. intros Hp Ho. destruct Hp as [Hu Hb|s k b Hr Hk]; [apply placed_unopened; [done|lia]|eapply placed_reading; [done|lia]]. Qed.
Lemma placed_grows fs fs' logs' path W base ps ps' r o lag : log_grows fs fs' path ps ps' -> tidy fs path ps -> binlog fs' logs' path W base ps' ->
  placed fs path base ps r o lag -> exists lag', placed fs' path base ps' r o lag'.
Proof.
  intros Hg Ht Hb [Hu Ho|s k b Hr Hk]; [eexists; by apply placed_unopened|]. destruct (reading_grows _ _ _ _ _ _ _ _ _ _ _ _ Hg Ht Hb Hr) as (s' & b' & Hr').
  eexists. by eapply placed_reading.
Qed.

(** ** Filling a request *)

Definition moved n r g : ReplicateNode := set_rn_go_back g (set_rn_reader r n).
Lemma moved_moved n r g r' g' : moved (moved n r g) r' g' = moved n r' g'.
Proof. done. Qed.

(** [es] are the entries of the log after the offset [o]. *)
Definition batch base ps o (es : list LogEntry) : Prop := es = take (length es) (drop (Z.to_nat (o - base)) (all_entries ps)).

Lemma batch_nil base ps o : batch base ps o [].
Proof. done. Qed.
Lemma batch_cons base ps o e es : base <= o -> all_entries ps !! Z.to_nat (o - base) = Some e -> batch base ps (o + 1) es -> batch base ps o (e :: es).
Proof.
  unfold batch. intros Ho He Hes. rewrite (drop_S _ _ _ He). cbn [length take]. f_equal. rewrite Hes at 1. repeat f_equal. lia.
Qed.

Section log.
Context (fs : FileSystem) (logs : LogParts) (path : bytes) (W : nat) (base : Z) (ps : list part).
Context (Hb : binlog fs logs path W base ps) (Ht : tidy fs path ps) (Hbase : 0 <= base) (Hmax : base + Z.of_nat (length (all_entries ps)) < 2 ^ 64).
Abbreviation top := (base + Z.of_nat (length (all_entries ps))).

(** What filling leaves: the entries found, the node, and progress unless there
    was nothing to do *)
Definition filled_with (left : nat) n (o : Z) (lag : nat) entries (res : option (list LogEntry * Z * bool * ReplicateNode)) : Prop :=
  exists es wait r' g lag', res = Some (entries ++ es, o + Z.of_nat (length es), wait, moved n r' g) /\ batch base ps o es /\ (length es <= left)%nat /\
    placed fs path base ps r' (o + Z.of_nat (length es)) lag' /\ o + Z.of_nat (length es) <= Z.max o top /\
    (o < top -> (lag' <= lag)%nat \/ o + Z.of_nat (length es) = top) /\ (o < top -> (0 < left)%nat -> es = [] -> (lag' < lag)%nat).

Lemma fill_reading fuel : forall left n o s k b entries, reading fs path ps (rn_log_reader n) s k b -> base + Z.of_nat k <= o ->
  (length (all_entries ps) - k < fuel)%nat -> filled_with left n o (2 * b + spot_lag s) entries (fill_request fuel fs logs left n o entries).
Proof using All.
  induction fuel as [|fuel IH]; intros left n o s k b entries Hr Hk Hf; [lia|]. destruct left as [|left].
  { exists [], false, (rn_log_reader n), (rn_go_back_cnt n), (2 * b + spot_lag s)%nat. cbn [fill_request length]. rewrite app_nil_r, Z.add_0_r.
    split_and!; try done; [by destruct n|by eapply placed_reading|lia|by left|lia]. }
  cbn [fill_request]. destruct (next_record fs logs path W base ps _ s k b Hb Ht Hr) as (st & rec & r' & s' & k' & b' & -> & Hstep & Hr'). rewrite bind_some. cbv beta iota zeta.
  destruct Hstep as [old k b e He|s k b j Hs Hj|k b|k Hlast].
  - change (ok OK) with true. cbv iota. pose proof (chained_numbered base ps (bl_chain _ _ _ _ _ _ Hb) (bl_numbers _ _ _ _ _ _ Hb)) as Hn.
    destruct (Hn k e He) as [Hei Hfit]. rewrite (parse_serialize e Hfit). pose proof (lookup_lt_Some _ _ _ He) as Hlt. case_decide as Hle.
    + destruct (IH (S left) (set_rn_reader r' n) o (At old) (S k) b entries Hr' ltac:(lia) ltac:(lia)) as (es & wait & r2 & g & lag' & -> & Hx). by exists es, wait, r2, g, lag'.
    + rewrite uwrap_id by (unfold in_uint; lia). rewrite decide_False by lia.
      destruct (IH left (set_rn_go_back 0 (set_rn_reader r' n)) (le_log_index e) (At old) (S k) b (entries ++ [e]) Hr' ltac:(lia) ltac:(lia))
        as (es & wait & r2 & g & lag' & -> & Hbat & Hlen & Hpl & Hmx & Hpr & _).
      exists (e :: es), wait, r2, g, lag'. rewrite <- app_assoc. cbn [app length]. assert (Ho : le_log_index e = o + 1) by lia. rewrite Ho in *.
      replace (o + Z.of_nat (S (length es))) with (o + 1 + Z.of_nat (length es)) by lia.
      split_and!; try done; [|lia|lia|].
      * apply batch_cons; [lia| |done]. replace (Z.to_nat (o - base)) with k by lia. done.
      * intros Hot. destruct (decide (o + 1 < top)) as [Hlt2|Hge]; [by apply Hpr|]. right. lia.
  - cbn [ok]. rewrite decide_False by done. exists [], true, r', (rn_go_back_cnt n), (2 * b + spot_lag (At false))%nat. cbn [length]. rewrite app_nil_r, Z.add_0_r.
    split_and!; try done; [lia|eapply placed_reading; [done|lia]|lia|intros _; left; cbn; lia|]. intros Hot _ _. destruct s as [[]|]; cbn; try lia. destruct (Hs eq_refl) as [-> _]. lia.
  - cbn [ok]. rewrite decide_False by done. exists [], true, r', (rn_go_back_cnt n), (2 * b + spot_lag (At false))%nat. cbn [length]. rewrite app_nil_r, Z.add_0_r.
    split_and!; try done; [lia|by eapply placed_reading|lia|intros _; left; cbn; lia|cbn; lia].
  - cbn [ok]. rewrite decide_False by done. exists [], true, r', (rn_go_back_cnt n), (2 * 0 + spot_lag Past)%nat. cbn [length]. rewrite app_nil_r, Z.add_0_r.
    split_and!; try done; [lia|by eapply placed_reading|lia|lia|lia].
Qed.

Lemma reading_before r s k b : reading fs path ps r s k b -> (b < length ps)%nat /\ (k <= length (all_entries ps))%nat.
Proof using All.
  intros (_ & _ & a & q & c & D & lay & ends & tail & rd & i & -> & -> & -> & _ & Hh & _ & _ & _ & Hs). rewrite all_entries_app, !length_app, all_entries_cons, length_app. cbn [length]. split; [lia|].
  enough (i <= length (pt_entries q))%nat by lia. destruct s as [old|]; [rewrite <- length_recs; by eapply live_le|destruct Hs as (_ & -> & _); lia].
Qed.

Lemma fill_placed fuel left n o lag : placed fs path base ps (rn_log_reader n) o lag -> (length (all_entries ps) < fuel)%nat ->
  filled_with left n o lag [] (fill_request fuel fs logs left n o []).
Proof using All.
  intros Hp Hf. destruct Hp as [Hu Ho|s k b Hr Hk]; [|eapply fill_reading; [done..|lia]]. destruct left as [|left].
  { exists [], false, (rn_log_reader n), (rn_go_back_cnt n), (2 * length ps)%nat. destruct fuel; cbn [fill_request length]; rewrite Z.add_0_r;
      (split_and!; try done; [by destruct n|by apply placed_unopened|lia|by left|lia]). }
  destruct (decide (ps = [])) as [Hnil|Hne].
  { destruct fuel as [|fuel]; [lia|]. cbn [fill_request]. rewrite (first_nothing fs logs path W base _ ltac:(by rewrite Hnil in Hb) Hu), bind_some. cbv beta iota zeta. cbn [ok]. rewrite decide_False by done.
    exists [], true, (rn_log_reader n), (rn_go_back_cnt n), (2 * length ps)%nat. cbn [length app]. rewrite Z.add_0_r.
    assert (o < top -> False) by (rewrite Hnil; cbn; lia). split_and!; try done; [lia|by apply placed_unopened|lia]. }
  destruct (first_record fs logs path W base ps _ Hb Ht Hne Hu ltac:(lia)) as (r1 & k & b & Hread & Hr & Hk).
  destruct (reading_before _ _ _ _ Hr) as [Hlt _].
  assert (Heq : fill_request fuel fs logs (S left) n o [] = fill_request fuel fs logs (S left) (set_rn_reader r1 n) o []).
  { destruct fuel as [|fuel]; [lia|]. cbn [fill_request]. change (rn_log_reader (set_rn_reader r1 n)) with r1. by rewrite Hread. }
  rewrite Heq. destruct (fill_reading fuel (S left) (set_rn_reader r1 n) o (At false) k b [] Hr ltac:(lia) ltac:(lia)) as (es & wait & r2 & g & lag' & -> & Hbat & Hlen & Hpl & Hmx & Hpr & Hno).
  exists es, wait, r2, g, lag'. cbn [spot_lag] in *. split_and!; try done.
  - intros Hot. destruct (Hpr Hot) as [Hle|Hle]; [left; lia|by right].
  - intros Hot Hl He. specialize (Hno Hot Hl He). lia.
Qed.

(** ** A node of the same cluster *)
Section node.
Context (tid pid term : Z).
Definition request_term : Z := if decide (FLAGS_zk_cluster <> []) then term else 0.
Abbreviation request o es := (MkAppendEntriesRequest o es tid pid request_term).

(** The follower has the entries up to [o]; a request that was not acknowledged
    is kept. *)
Record node_ok n (o : Z) (lag : nat) : Prop := {
  no_offset : rn_last_sync_offset n = o;
  no_ids : rn_tid n = tid /\ rn_pid n = pid /\ rn_rep_node n = false /\ rn_log_matched n = true;
  no_range : base <= o <= top;
  no_state : (rn_cache n = [] /\ placed fs path base ps (rn_log_reader n) o lag) \/
    exists es lag1, lag = S lag1 /\ rn_cache n = [request o es] /\ es <> [] /\ batch base ps o es /\ o + Z.of_nat (length es) <= top /\
      placed fs path base ps (rn_log_reader n) (o + Z.of_nat (length es)) lag1
}.

Lemma batch_last o es : base <= o -> batch base ps o es -> es <> [] -> exists e, last es = Some e /\ le_log_index e = o + Z.of_nat (length es).
Proof using All.
  intros Ho Hbat Hne. destruct (exists_last Hne) as (es' & e & ->). exists e. split; [by rewrite last_snoc|].
  pose proof (chained_numbered base ps (bl_chain _ _ _ _ _ _ Hb) (bl_numbers _ _ _ _ _ _ Hb)) as Hn.
  assert (He : (es' ++ [e]) !! length es' = Some e) by (by apply list_lookup_middle). rewrite Hbat in He. apply lookup_take_Some in He as [He _]. rewrite lookup_drop in He.
  destruct (Hn _ _ He) as [-> _]. rewrite length_app. cbn [length]. lia.
Qed.

(** What a call to [SyncData] does with the answer to the request *)
Definition answered {V} (req : AppendEntriesRequest) (SendRequest : V -> AppendEntriesRequest -> option (bool * AppendEntriesResponse * V)) (v : V)
    (acked kept : V -> Z * ReplicateNode * Z * V) : option (Z * ReplicateNode * Z * V) :=
  '(ret, response, v) ← SendRequest v req;
  Some (if ret && bool_decide (rs_code response = 0) then acked v else kept v).

Lemma SyncData_spec {V} (SendRequest : V -> AppendEntriesRequest -> option (bool * AppendEntriesResponse * V)) fuel fo n o lag v :
  node_ok n o lag -> o < top -> (length (all_entries ps) < fuel)%nat -> top - base < 2 ^ 32 -> 0 < FLAGS_binlog_sync_batch_size < 2 ^ 32 ->
  (exists ret n' lag', SyncData SendRequest fuel fs logs term fo top n v = Some (ret, n', fo, v) /\ node_ok n' o lag' /\ (lag' < lag)%nat) \/
  (exists es ret n1 n2 lag1 lag2, let o' := o + Z.of_nat (length es) in es <> [] /\ batch base ps o es /\ o' <= top /\
    SyncData SendRequest fuel fs logs term fo top n v =
      answered (request o es) SendRequest v (fun v => (ret, n1, Z.max fo o', v)) (fun v => (1, n2, fo, v)) /\
    node_ok n1 o' lag1 /\ ((lag1 <= lag)%nat \/ o' = top) /\ node_ok n2 o lag2).
Proof using All.
  intros Hn Hot Hf Hsize Hbat. pose proof Hn as [Ho (Hti & Hpi & Hrep & Hmat) Hrng Hst]. unfold SyncData. rewrite Ho, decide_False by lia. unfold sync_request.
  destruct Hst as [[Hc Hp]|(es & lag1 & -> & Hc & Hne & Hb1 & Hle & Hp)]; rewrite Hc.
  - rewrite Ho. set (size := Z.to_nat _).
    assert (Hsz : (0 < size)%nat). { unfold size. rewrite !uwrap_id by (unfold in_uint; lia). lia. }
    destruct (fill_placed fuel size n o lag Hp Hf) as (es & wait & r' & g & lag' & -> & Hes & Hlen & Hpl & Hmx & Hpr & Hno). rewrite bind_some. cbv beta iota zeta. cbn [rq_entries app].
    rewrite Hti, Hpi. fold request_term. assert (Hmv : rn_rep_node (moved n r' g) = false) by done. destruct es as [|e es].
    + left. eexists _, (moved n r' g), lag'. split; [reflexivity|]. split; [|by apply Hno]. split; try done. left. split; [done|]. by rewrite Z.add_0_r in Hpl.
    + right. set (ees := e :: es) in *. set (o' := o + Z.of_nat (length ees)) in *.
      exists ees, (if wait then 1 else 0), (set_rn_offset o' (moved n r' g)), (set_rn_cache [request o ees] (moved n r' g)), lag', (S lag').
      cbv zeta. fold o'. split; [done|]. split; [done|]. split; [lia|]. split.
      { rewrite bind_some. cbv beta iota. unfold answered. cbn [rq_entries]. unfold ees at 1. cbv iota. destruct (SendRequest v _) as [[[ret resp] v']|]; [|done]. rewrite !bind_some. destruct (ret && _); [|change (rn_cache (moved n r' g)) with (rn_cache n); by rewrite Hc].
        change (rn_rep_node (set_rn_offset o' (moved n r' g))) with (rn_rep_node n). change (rn_last_sync_offset (set_rn_offset o' (moved n r' g))) with o'. rewrite Hrep. cbn [negb andb].
        repeat f_equal. unfold bool_decide. case_decide; lia. }
      split; [split; try done; [lia|by left]|]. split; [destruct (Hpr Hot); [by left|by right]|]. split; try done. right. exists ees, lag'. split_and!; try done. fold o'. lia.
  - right. destruct (batch_last o es ltac:(lia) Hb1 Hne) as (e & Hlast & Hei). cbn [rq_entries]. rewrite Hlast, Ho, decide_False by (destruct es; [done|cbn [length] in *; lia]).
    rewrite bind_some. cbv beta iota. set (o' := o + Z.of_nat (length es)) in *.
    exists es, 0, (set_rn_cache [] (set_rn_offset o' n)), n, lag1, (S lag1). cbv zeta. fold o'. split; [done|]. split; [done|]. split; [lia|]. split.
    { destruct es as [|e0 es]; [done|]. unfold answered. cbn [rq_entries]. destruct (SendRequest v _) as [[[ret resp] v']|]; [|done]. rewrite !bind_some. destruct (ret && _); [|done].
      rewrite Hei. fold o'. change (rn_rep_node (set_rn_offset o' n)) with (rn_rep_node n). change (rn_last_sync_offset (set_rn_offset o' n)) with o'. rewrite Hrep. cbn [negb andb].
      repeat f_equal. unfold bool_decide. case_decide; lia. }
    split; [split; try done; [lia|by left]|]. split; [left; lia|]. done.
Qed.
End node.
End log.
End send.
