(* ===== verification/Snapshot.v ===== *)
(** Snapshots of a memory table (storage/snapshot.cc, storage/mem_table_snapshot.cc):
    the manifest, the filtering of an old snapshot and of the binlog into a new one,
    and loading; with the two calls of the tablet that make and load snapshots. *)
From Stdlib Require Import String.
From S2P Require Import Prelude Slice LogFile LogWriter LogReader Random Skiplist StdMap Strings LogRoll TableIndex Table MemTable MemTableGc Binlog.
From S2P Require Import ReplicateNode Replicator Tablet.

(** ** Files *)

(** The name the kernel looks up: a repeated slash counts as one. *)
Fixpoint squeeze (path : bytes) : bytes :=
  match path with
  | c :: (d :: _) as rest => if decide (c = 47 /\ d = 47) then squeeze rest else c :: squeeze rest
  | _ => path
  end.
(** [fopen(path, "ab+")] creates the file or goes to its end. *)
Definition fopen_append (fs : FileSystem) (path : bytes) : option FileSystem :=
  if fs_denied fs path then None else Some (write_file path (default [] (fs_files fs !! path)) fs).
Definition rename (fs : FileSystem) (from to : bytes) : option FileSystem :=
  if fs_denied fs to then None
  else data ← fs_files fs !! from; Some (write_file to data (set_files (delete from (fs_files fs)) fs)).
Definition unlink (fs : FileSystem) (path : bytes) : FileSystem := set_files (delete path (fs_files fs)) fs.
(** A C string ends at the first zero byte. *)
Fixpoint c_str (s : bytes) : bytes :=
  match s with
  | [] => []
  | c :: s' => if decide (c = 0) then [] else c :: c_str s'
  end.
(** [std::string::find] *)
Fixpoint contains (s pat : bytes) : bool :=
  bool_decide (take (length pat) s = pat) || match s with [] => false | _ :: s' => contains s' pat end.
(** [std::to_string] of an unsigned number *)
Fixpoint to_string_loop (fuel : nat) (n : Z) (rest : bytes) : bytes :=
  match fuel with
  | O => rest
  | S fuel' => let rest := (48 + n `mod` 10) :: rest in if decide (n < 10) then rest else to_string_loop fuel' (n / 10) rest
  end.
Definition to_string (n : Z) : bytes := to_string_loop 20 n [].

(** ** Parameters *)
Class SnapshotFlags := {
  FLAGS_snapshot_compression : bytes;
  FLAGS_make_snapshot_max_deleted_keys : Z;
  FLAGS_load_table_batch : Z;
  FLAGS_make_snapshot_threshold_offset : Z
}.
Record Manifest : Type := MkManifest { mf_offset : Z; mf_name : option bytes; mf_count : Z; mf_term : Z }.
Definition no_manifest : Manifest := MkManifest 0 None 0 0.
(** The fields have their types: 64-bit unsigned numbers, and bytes. *)
Definition manifest_fits (m : Manifest) : bool :=
  in_uintb 64 (mf_offset m) && bytesb (default [] (mf_name m)) && in_uintb 64 (mf_count m) && in_uintb 64 (mf_term m).
(** [TextFormat::PrintToString] and [TextFormat::Parse] of a manifest *)
Class ManifestCodec := {
  PrintToString : Manifest -> bytes;
  ParseManifest : bytes -> option Manifest
}.
Class ManifestCodecLaws `{ManifestCodec} : Prop := {
  print_parse : forall m, manifest_fits m = true -> ParseManifest (PrintToString m) = Some m;
  print_text : forall m, manifest_fits m = true -> 0 ∉ PrintToString m
}.
(** What a snapshot needs of a table besides [TableOps]: the ids and states of the
    indexes, and [IsExpire] at the given time *)
Class SnapshotTable (T : Type) := {
  tbl_GetAllIndex : T -> option (list (Z * IndexStatus));
  tbl_IsExpire : T -> Z -> LogEntry -> option (bool * T)
}.
#[global] Instance memtable_snapshot : SnapshotTable MemTable := {
  tbl_GetAllIndex m := mapM (fun p => d ← def_at (mt_index m) p; Some (index_id_ d, status_ d)) (GetAllIndex (mt_index m));
  tbl_IsExpire := IsExpire
}.

Section snapshot.
Context `{BinlogFlags} `{Compressors} `{SnapshotFlags} `{EntryCodec} `{ManifestCodec} {T : Type} `{TableOps T} `{SnapshotTable T}.

(** ** The manifest *)

(** The fields of [Snapshot] and [MemTableSnapshot]; the log parts are those of
    the replicator. *)
Record MemTableSnapshot : Type := MkSnapshot {
  sn_offset : Z;
  sn_making_snapshot : bool;
  sn_snapshot_path : bytes;
  sn_log_path : bytes;
  sn_deleted_keys : gmap bytes Z
}.
(** The constructor and [Init]; [dir] is the directory of the partition. *)
Definition MemTableSnapshot_new : MemTableSnapshot := MkSnapshot 0 false [] [] ∅.
Definition MemTableSnapshot_Init (dir : bytes) (mkdir mkdir_log : bool) (sn : MemTableSnapshot) : bool * MemTableSnapshot :=
  (mkdir && mkdir_log, MkSnapshot (sn_offset sn) (sn_making_snapshot sn) (dir ++ str "/snapshot/") (dir ++ str "/binlog/") (sn_deleted_keys sn)).
Definition set_sn_offset o sn := MkSnapshot o (sn_making_snapshot sn) (sn_snapshot_path sn) (sn_log_path sn) (sn_deleted_keys sn).
Definition set_sn_making b sn := MkSnapshot (sn_offset sn) b (sn_snapshot_path sn) (sn_log_path sn) (sn_deleted_keys sn).
Definition set_sn_deleted dk sn := MkSnapshot (sn_offset sn) (sn_making_snapshot sn) (sn_snapshot_path sn) (sn_log_path sn) dk.
Definition sn_file (sn : MemTableSnapshot) (name : bytes) : bytes := squeeze (sn_snapshot_path sn ++ name).
Definition MANIFEST : bytes := str "MANIFEST".

(** [GenManifest]: the failing calls of the stream are those of [fputs] and of
    [fflush] with [fsync]. *)
Definition GenManifest (fs : FileSystem) (sn : MemTableSnapshot) (snapshot_name : bytes) (key_count offset term : Z) : Z * FileSystem :=
  let full_path := sn_file sn MANIFEST in
  let tmp_file := sn_file sn (MANIFEST ++ str ".tmp") in
  let manifest_info := c_str (PrintToString (MkManifest offset (Some snapshot_name) key_count term)) in
  match fopen_write fs tmp_file with
  | None => (-1, fs)
  | Some fs =>
      let '(io_error, written) :=
        match fs_faults fs tmp_file with
        | Some n :: _ => (true, take n manifest_info)
        | None :: Some _ :: _ => (true, manifest_info)
        | _ => (false, manifest_info)
        end in
      let fs := write_file tmp_file written fs in
      if io_error : bool then (-1, unlink fs tmp_file)
      else match rename fs tmp_file full_path with
           | Some fs => (0, fs)
           | None => (-1, unlink fs tmp_file)
           end
  end.
(** [GetLocalManifest]: 1 if there is none, -1 if it cannot be parsed *)
Definition GetLocalManifest (fs : FileSystem) (full_path : bytes) : Z * Manifest :=
  match fopen_read fs full_path with
  | None => (1, no_manifest)
  | Some data => match ParseManifest data with Some m => (0, m) | None => (-1, no_manifest) end
  end.

(** ** Loading *)

Definition IsCompressed (path : bytes) : bool := contains path (str ".zlib") || contains path (str ".snappy").

(** Reading a snapshot to its end; a bad record is passed over. *)
Fixpoint read_snapshot (fuel : nat) (rd : Reader PosixSequentialFile) : option (list bytes) :=
  match fuel with
  | O => None
  | S fuel' =>
      '(status, record, rd) ← ReadRecord snappy_length snappy_uncompress zlib_uncompress (S (S (length (ps_data (rd_file rd))))) rd;
      if decide (status = WaitRecord \/ status = Eof) then Some []
      else
        rest ← read_snapshot fuel' rd;
        Some (if ok status then record :: rest else rest)
  end.
(** The tasks: batches of records *)
Fixpoint load_tasks (recordPtr : list bytes) (records : list bytes) : list (list bytes) :=
  match records with
  | [] => match recordPtr with [] => [] | _ => [recordPtr] end
  | r :: records' =>
      let recordPtr := recordPtr ++ [r] in
      if decide (FLAGS_load_table_batch <= Z.of_nat (length recordPtr)) then recordPtr :: load_tasks [] records'
      else load_tasks recordPtr records'
  end.
(** [MemTableSnapshot::Put] of one record *)
Definition load_record (t : T) (record : bytes) : option T :=
  match ParseFromString record with
  | None => Some t
  | Some entry => '(_, t) ← tbl_Put t entry; Some t
  end.
Fixpoint load_records (t : T) (records : list bytes) : option T :=
  match records with
  | [] => Some t
  | r :: records' => t ← load_record t r; load_records t records'
  end.
(** [RecoverSingleSnapshot]: [pool] is the order in which the threads of the task
    pool take the records of the tasks. *)
Definition RecoverSingleSnapshot (fuel : nat) (fs : FileSystem) (pool : list (list bytes) -> list bytes) (path : bytes) (t : T) : option T :=
  match fopen_read fs (squeeze path) with
  | None => Some t
  | Some data =>
      records ← read_snapshot fuel (Reader_new (open_seq data) None false 0 (IsCompressed path) []);
      load_records t (pool (load_tasks [] records))
  end.
Definition RecoverFromSnapshot (fuel : nat) (fs : FileSystem) (pool : list (list bytes) -> list bytes) (sn : MemTableSnapshot) (snapshot_name : bytes) (t : T) : option T :=
  RecoverSingleSnapshot fuel fs pool (sn_snapshot_path sn ++ str "/" ++ snapshot_name) t.
(** [Recover]: the result, [latest_offset] if it is set, and the table *)
Definition Snapshot_Recover (fuel : nat) (fs : FileSystem) (pool : list (list bytes) -> list bytes) (sn : MemTableSnapshot) (t : T) (latest_offset : Z)
    : option (bool * Z * MemTableSnapshot * T) :=
  let '(ret, manifest) := GetLocalManifest fs (sn_file sn MANIFEST) in
  if decide (ret = -1) then Some (false, latest_offset, sn, t)
  else if decide (ret = 0) then
    t ← RecoverFromSnapshot fuel fs pool sn (default [] (mf_name manifest)) t;
    Some (true, mf_offset manifest, set_sn_offset (mf_offset manifest) sn, t)
  else Some (true, latest_offset, sn, t).

(** ** Making *)

(** The key of [deleted_keys_] *)
Definition combined_key (key : bytes) (idx : Z) : bytes := key ++ str "|" ++ to_string idx.

(** [CollectDeletedKey] from the offset of the last snapshot on *)
Fixpoint CollectDeletedKey_loop (fuel : nat) (fs : FileSystem) (logs : LogParts) (end_offset : Z) (r : LogReader) (cur_offset : Z) (dk : gmap bytes Z)
    : option (Z * gmap bytes Z) :=
  match fuel with
  | O => None
  | S fuel' =>
      if decide (FLAGS_make_snapshot_max_deleted_keys <= Z.of_nat (base.size dk)) then Some (cur_offset, dk)
      else if decide (0 < end_offset /\ end_offset <= cur_offset) then Some (cur_offset, dk)
      else
        '(status, record, r) ← ReadNextRecord fs logs r;
        if ok status then
          match ParseFromString record with
          | None => Some (cur_offset, dk)
          | Some entry =>
              if decide (le_log_index entry <= cur_offset) then CollectDeletedKey_loop fuel' fs logs end_offset r cur_offset dk
              else if decide (u64 (cur_offset + 1) <> le_log_index entry) then CollectDeletedKey_loop fuel' fs logs end_offset r cur_offset dk
              else
                let cur_offset := le_log_index entry in
                let dk := match le_method_type entry, le_dimensions entry with
                          | Some kDelete, (idx, key) :: _ => <[combined_key key idx := cur_offset]> dk
                          | _, _ => dk
                          end in
                CollectDeletedKey_loop fuel' fs logs end_offset r cur_offset dk
          end
        else if decide (status = Eof) then CollectDeletedKey_loop fuel' fs logs end_offset r cur_offset dk
        else if decide (status = WaitRecord) then
          end_log_index ← GetEndLogIndex logs;
          if decide (0 <= end_log_index /\ GetLogIndex r < end_log_index) then
            '(_, r) ← RollRLogFile fs logs r;
            CollectDeletedKey_loop fuel' fs logs end_offset r cur_offset dk
          else Some (cur_offset, dk)
        else Some (cur_offset, dk)
  end.
Definition CollectDeletedKey (fuel : nat) (fs : FileSystem) (logs : LogParts) (sn : MemTableSnapshot) (end_offset : Z) : option (Z * MemTableSnapshot) :=
  let r := LogReader_SetOffset (sn_offset sn) (LogReader_new (sn_log_path sn) false) in
  '(collected, dk) ← CollectDeletedKey_loop fuel fs logs end_offset r (sn_offset sn) ∅;
  Some (collected, set_sn_deleted dk sn).

(** [RemoveDeletedKey]: 1 if nothing of the entry is left, 2 with the serialised
    rest if some dimensions are gone, otherwise 0 *)
Definition set_dimensions (dims : list (Z * bytes)) (e : LogEntry) : LogEntry :=
  MkLogEntry (le_term e) (le_log_index e) (le_pk e) (le_value e) (le_ts e) dims (le_method_type e) (le_ts_dimensions e).
Definition key_deleted (dk : gmap bytes Z) (cur_offset : Z) (key : bytes) (idx : Z) : bool :=
  match dk !! combined_key key idx with Some o => bool_decide (cur_offset <= o) | None => false end.
Definition RemoveDeletedKey (dk : gmap bytes Z) (deleted_index : list Z) (entry : LogEntry) : Z * bytes :=
  let cur_offset := le_log_index entry in
  match le_dimensions entry with
  | [] => (if key_deleted dk cur_offset (le_pk entry) 0 then 1 else 0, [])
  | dims =>
      let left := filter (fun d : Z * bytes => key_deleted dk cur_offset d.2 d.1 || bool_decide (d.1 ∈ deleted_index) = false) dims in
      if decide (length left = length dims) then (0, [])
      else if decide (left = []) then (1, [])
      else (2, SerializeToString (set_dimensions left entry))
  end.

(** What becomes of an entry: [clock] is the time at which its expiry is tested. *)
Inductive fate : Type := Deleted | Expired | Kept (record : bytes).
Definition sift (dk : gmap bytes Z) (deleted_index : list Z) (clock : Z -> Z) (t : T) (entry : LogEntry) (record : bytes) : option (fate * T) :=
  let '(ret, tmp_buf) := RemoveDeletedKey dk deleted_index entry in
  if decide (ret = 1) then Some (Deleted, t)
  else
    let record := if decide (ret = 2) then tmp_buf else record in
    '(expired, t) ← tbl_IsExpire t (clock (le_log_index entry)) entry;
    Some (if (expired : bool) then Expired else Kept record, t).

(** The new snapshot file and the counters [count], [expired_key_num] and
    [deleted_key_num] *)
Record Draft : Type := MkDraft { dr_fs : FileSystem; dr_wh : WriteHandle; dr_count : Z; dr_expired : Z; dr_deleted : Z }.
(** An entry goes into the file, or one of the counters is raised; false if it
    cannot be written. *)
Definition draft_entry (dk : gmap bytes Z) (deleted_index : list Z) (clock : Z -> Z) (t : T) (entry : LogEntry) (record : bytes) (d : Draft)
    : option (bool * T * Draft) :=
  '(f, t) ← sift dk deleted_index clock t entry record;
  match f with
  | Deleted => Some (true, t, MkDraft (dr_fs d) (dr_wh d) (dr_count d) (dr_expired d) (u64 (dr_deleted d + 1)))
  | Expired => Some (true, t, MkDraft (dr_fs d) (dr_wh d) (dr_count d) (u64 (dr_expired d + 1)) (dr_deleted d))
  | Kept record =>
      '(status, fs, wh) ← wh_Write (dr_fs d) (dr_wh d) record;
      if ok status then Some (true, t, MkDraft fs wh (u64 (dr_count d + 1)) (dr_expired d) (dr_deleted d))
      else Some (false, t, MkDraft fs wh (dr_count d) (dr_expired d) (dr_deleted d))
  end.

(** [TTLSnapshot]: the entries of the old snapshot *)
Fixpoint TTLSnapshot_loop (fuel : nat) (dk : gmap bytes Z) (deleted_index : list Z) (clock : Z -> Z) (rd : Reader PosixSequentialFile) (t : T) (d : Draft)
    : option (bool * T * Draft) :=
  match fuel with
  | O => None
  | S fuel' =>
      '(status, record, rd) ← ReadRecord snappy_length snappy_uncompress zlib_uncompress (S (S (length (ps_data (rd_file rd))))) rd;
      if decide (status = Eof) then Some (true, t, d)
      else if negb (ok status) then Some (false, t, d)
      else
        match ParseFromString record with
        | None => Some (false, t, d)
        | Some entry =>
            '(written, t, d) ← draft_entry dk deleted_index clock t entry record d;
            if written : bool then TTLSnapshot_loop fuel' dk deleted_index clock rd t d else Some (false, t, d)
        end
  end.
Definition index_ids (bad : IndexStatus -> bool) (l : list (Z * IndexStatus)) : list Z := fst <$> filter (fun x => bad x.2 = true) l.
Definition TTLSnapshot (fuel : nat) (sn : MemTableSnapshot) (clock : Z -> Z) (manifest : Manifest) (t : T) (d : Draft) : option (Z * T * Draft) :=
  let full_path := sn_snapshot_path sn ++ default [] (mf_name manifest) in
  match fopen_read (dr_fs d) (squeeze full_path) with
  | None => Some (-1, t, d)
  | Some data =>
      indexes ← tbl_GetAllIndex t;
      let deleted_index := index_ids (fun s => negb (bool_decide (s = kReady))) indexes in
      '(fine, t, d) ← TTLSnapshot_loop fuel (sn_deleted_keys sn) deleted_index clock (Reader_new (open_seq data) None false 0 (IsCompressed full_path) []) t d;
      let fine := fine && bool_decide (u64 (dr_expired d + dr_count d + dr_deleted d) = mf_count manifest) in
      Some (if fine then 0 else -1, t, d)
  end.

(** The binlog behind the old snapshot: [has_error], and the offset and the term
    of the last entry *)
Fixpoint MakeSnapshot_loop (fuel : nat) (logs : LogParts) (dk : gmap bytes Z) (deleted_index : list Z) (clock : Z -> Z) (collected_offset : Z)
    (r : LogReader) (cur_offset last_term : Z) (t : T) (d : Draft) : option (bool * Z * Z * T * Draft) :=
  match fuel with
  | O => None
  | S fuel' =>
      if decide (collected_offset <= cur_offset) then Some (false, cur_offset, last_term, t, d)
      else
        '(status, record, r) ← ReadNextRecord (dr_fs d) logs r;
        if ok status then
          match ParseFromString record with
          | None => Some (true, cur_offset, last_term, t, d)
          | Some entry =>
              if decide (le_log_index entry <= cur_offset) then MakeSnapshot_loop fuel' logs dk deleted_index clock collected_offset r cur_offset last_term t d
              else if decide (u64 (cur_offset + 1) <> le_log_index entry) then MakeSnapshot_loop fuel' logs dk deleted_index clock collected_offset r cur_offset last_term t d
              else
                let cur_offset := le_log_index entry in
                match le_method_type entry with
                | Some kDelete => MakeSnapshot_loop fuel' logs dk deleted_index clock collected_offset r cur_offset last_term t d
                | _ =>
                    let last_term := default last_term (le_term entry) in
                    '(written, t, d) ← draft_entry dk deleted_index clock t entry record d;
                    if written : bool then MakeSnapshot_loop fuel' logs dk deleted_index clock collected_offset r cur_offset last_term t d
                    else Some (true, cur_offset, last_term, t, d)
                end
          end
        else if decide (status = Eof) then MakeSnapshot_loop fuel' logs dk deleted_index clock collected_offset r cur_offset last_term t d
        else if decide (status = WaitRecord) then
          end_log_index ← GetEndLogIndex logs;
          if decide (0 <= end_log_index /\ GetLogIndex r < end_log_index) then
            '(_, r) ← RollRLogFile (dr_fs d) logs r;
            MakeSnapshot_loop fuel' logs dk deleted_index clock collected_offset r cur_offset last_term t d
          else Some (false, cur_offset, last_term, t, d)
        else Some (true, cur_offset, last_term, t, d)
  end.

(** The names of a new snapshot: the time without its seconds *)
Definition snapshot_name (now_time : bytes) : bytes :=
  (if decide (2 <= length now_time)%nat then take (length now_time - 2) now_time else now_time) ++ str ".sdb" ++
  (if decide (FLAGS_snapshot_compression = str "off") then [] else str "." ++ FLAGS_snapshot_compression).
(** The handle on a file opened for appending: the writer starts a new block
    wherever the file ends. *)
Definition WriteHandle_append (fs : FileSystem) (compress_type path : bytes) : option WriteHandle :=
  lw ← Writer_new (GetCompressType compress_type) (MkPosixWritableFile (default [] (fs_files fs !! path)) (fs_faults fs path) 0) 0;
  Some (MkWriteHandle path lw).
(** The end of [MakeSnapshot]: the file gets its name, the manifest is written, and
    the old file removed. *)
Definition publish (fs : FileSystem) (sn : MemTableSnapshot) (manifest : Manifest) (name : bytes) (count offset term : Z) : Z * FileSystem * MemTableSnapshot :=
  let tmp_file_path := sn_file sn (name ++ str ".tmp") in
  let full_path := sn_file sn name in
  match rename fs tmp_file_path full_path with
  | None => (-1, unlink fs tmp_file_path, sn)
  | Some fs =>
      let '(res, fs) := GenManifest fs sn name count offset term in
      if decide (res = 0) then
        let fs := match mf_name manifest with
                  | Some old => if decide (old = name) then fs else unlink fs (sn_file sn old)
                  | None => fs
                  end in
        (0, fs, set_sn_offset offset sn)
      else (-1, unlink fs full_path, sn)
  end.

(** The part of [MakeSnapshot] that fills the new file: [has_error], the old
    manifest, the count, the offset and the term of the new one *)
Definition fill_snapshot (fuel : nat) (fs : FileSystem) (logs : LogParts) (tmp_file_path : bytes) (clock : Z -> Z) (end_offset : Z) (sn : MemTableSnapshot) (t : T)
    : option (bool * Manifest * Z * Z * Z * FileSystem * MemTableSnapshot * T) :=
  '(collected_offset, sn) ← CollectDeletedKey fuel fs logs sn end_offset;
  wh ← WriteHandle_append fs FLAGS_snapshot_compression tmp_file_path;
  let d := MkDraft fs wh 0 0 0 in
  let '(result, manifest) := GetLocalManifest fs (sn_file sn MANIFEST) in
  '(has_error, t, d) ←
    (if decide (result = 0) then '(ret, t, d) ← TTLSnapshot fuel sn clock manifest t d; Some (bool_decide (ret < 0), t, d)
     else Some (bool_decide (result < 0), t, d));
  let last_term := mf_term manifest in
  indexes ← tbl_GetAllIndex t;
  let deleted_index := index_ids (fun s => bool_decide (s = kDeleted)) indexes in
  let r := LogReader_SetOffset (sn_offset sn) (LogReader_new (sn_log_path sn) false) in
  '(has_error, cur_offset, last_term, t, d) ←
    (if has_error : bool then Some (true, sn_offset sn, last_term, t, d)
     else MakeSnapshot_loop fuel logs (sn_deleted_keys sn) deleted_index clock collected_offset r (sn_offset sn) last_term t d);
  '(_, fs, _) ← wh_EndLog (dr_fs d) (dr_wh d);
  Some (has_error, manifest, dr_count d, cur_offset, last_term, fs, sn, t).

(** [MakeSnapshot]: the result; [out_offset] is the offset of the snapshot if it is
    0 and one was made. *)
Definition MakeSnapshot (fuel : nat) (fs : FileSystem) (logs : LogParts) (now_time : bytes) (clock : Z -> Z) (end_offset : Z) (sn : MemTableSnapshot) (t : T)
    : option (Z * option Z * FileSystem * MemTableSnapshot * T) :=
  if sn_making_snapshot sn then Some (0, None, fs, sn, t)
  else if decide (0 < end_offset /\ end_offset <= sn_offset sn) then Some (-1, None, fs, sn, t)
  else
    let sn := set_sn_making true sn in
    let name := snapshot_name now_time in
    let tmp_file_path := sn_file sn (name ++ str ".tmp") in
    match fopen_append fs tmp_file_path with
    | None => Some (-1, None, fs, set_sn_making false sn, t)
    | Some fs =>
        '(has_error, manifest, write_count, cur_offset, last_term, fs, sn, t) ← fill_snapshot fuel fs logs tmp_file_path clock end_offset sn t;
        let '(ret, fs, sn) :=
          if has_error : bool then (-1, unlink fs tmp_file_path, sn)
          else publish fs sn manifest name write_count cur_offset last_term in
        Some (ret, if decide (ret = 0) then Some cur_offset else None, fs, set_sn_making false (set_sn_deleted ∅ sn), t)
    end.

(** ** The tablet *)

(** [MakeSnapshotInternal] on a partition with its snapshot *)
Definition MakeSnapshotInternal (fuel : nat) (fs : FileSystem) (now_time : bytes) (clock : Z -> Z) (end_offset : Z) (x : Partition T) (sn : MemTableSnapshot)
    : option (FileSystem * Partition T * MemTableSnapshot) :=
  if decide (pa_stat x <> kNormal) then Some (fs, x, sn)
  else
    let p := pa_replicator x in
    if decide (lp_log_offset p < u64 (sn_offset sn + FLAGS_make_snapshot_threshold_offset) /\ end_offset = 0) then Some (fs, x, sn)
    else
      '(ret, out, fs, sn, t) ← MakeSnapshot fuel fs (lp_logs p) now_time clock end_offset sn (lp_table p);
      let p := set_lp_table t p in
      p ← (if decide (ret = 0) then SetSnapshotLogPartIndex fs (default 0 out) p else Some p);
      Some (fs, set_pa_replicator p x, sn).
(** [LoadTableInternal]: the snapshot, and the binlog behind it *)
Definition LoadTableInternal (fuel : nat) (pool : list (list bytes) -> list bytes) (clock : Z -> nat -> nat -> Z) (now : nat -> nat -> Z) (thread_start : bytes -> Z)
    (fs : FileSystem) (x : Partition T) (sn : MemTableSnapshot) : option (bool * FileSystem * Partition T * MemTableSnapshot) :=
  let x := SetTableStat kLoading x in
  '(ok, snapshot_offset, sn, t) ← Snapshot_Recover fuel fs pool sn (pa_table x) 0;
  let x := set_pa_replicator (set_lp_table t (pa_replicator x)) x in
  if ok : bool then '(ok, fs, x) ← load_binlog fuel clock now thread_start fs snapshot_offset x; Some (ok, fs, x, sn)
  else Some (false, fs, x, sn).
End snapshot.
