(* ===== verification/SnapshotTable.v ===== *)
(** What a snapshot has to keep of a log: replaying the puts that no later deletion
    undoes, and that are not expired, gives the table that the log gives; loading
    them in another order gives the same table when no two of them share a key and
    a time. *)
From Stdlib Require Import String.
From S2P Require Import Prelude StdMap Strings LogRoll SegmentOps TableIndex MemTable Binlog BinlogWrite BinlogRecover TableLaws Snapshot.

(** ** Entries *)
Definition is_delete (e : LogEntry) : bool := match le_method_type e with Some kDelete => true | _ => false end.
Definition deletes (e : LogEntry) (i : Z) (k : bytes) : bool :=
  is_delete e && match le_dimensions e with d :: _ => bool_decide (d = (i, k)) | [] => false end.
Definition deleted_in (es : list LogEntry) (i : Z) (k : bytes) : bool := existsb (fun e => deletes e i k) es.

(** The keys an entry is put under, and its key in an index: the first one counts. *)
Definition entry_dims (e : LogEntry) : list (Z * bytes) := match le_dimensions e with [] => [(0, le_pk e)] | dims => dims end.
Definition entry_key (e : LogEntry) (i : Z) : option bytes := (fun x => x.2.2) <$> list_find (fun d => d.1 = i) (entry_dims e).

(** An entry without its dead dimensions, if one is left *)
Definition trim (dead : Z -> bytes -> bool) (e : LogEntry) : option LogEntry :=
  match le_dimensions e with
  | [] => if dead 0 (le_pk e) then None else Some e
  | dims => match filter (fun d : Z * bytes => dead d.1 d.2 = false) dims with [] => None | rest => Some (set_dimensions rest e) end
  end.

(** The snapshot of a log; [X] are the numbers of the entries left out as expired. *)
Fixpoint snap (X : gset Z) (es : list LogEntry) : list LogEntry :=
  match es with
  | [] => []
  | e :: es' =>
      (if is_delete e then [] else if decide (le_log_index e ∈ X) then [] else option_list (trim (deleted_in es') e)) ++ snap X es'
  end.
(** The log without its expired puts *)
Definition kept (X : gset Z) (es : list LogEntry) : list LogEntry := filter (fun e => is_delete e = true \/ le_log_index e ∉ X) es.

(** Every index occurs once among the dimensions. *)
Definition distinct_dims (e : LogEntry) : Prop := NoDup (fst <$> le_dimensions e).

Lemma NoDup_find (l : list (Z * bytes)) i k : NoDup (fst <$> l) -> ((fun x => x.2.2) <$> list_find (fun d => d.1 = i) l = Some k <-> (i, k) ∈ l).
Proof.
  induction l as [|[j k'] l IH]; cbn [fmap list_fmap list_find fst]; intros Hnd; [split; [done|by intros ?%elem_of_nil]|]. apply NoDup_cons in Hnd as [Hj Hnd].
  rewrite elem_of_cons. case_decide as Hij; cbn [fst] in Hij.
  - subst j. cbn. split; [intros [= ->]; by left|]. intros [[= ->]|Hin]; [done|]. exfalso. apply Hj. apply list_elem_of_fmap. by exists (i, k).
  - destruct (list_find _ l) as [[n d]|]; cbn in *; rewrite <- IH by done; (split; [by right|]); intros [[= <- <-]|Hk]; done.
Qed.
Lemma entry_key_elem e i k : distinct_dims e -> (entry_key e i = Some k <-> (i, k) ∈ entry_dims e).
Proof.
  intros Hd. apply NoDup_find. unfold entry_dims, distinct_dims in *. destruct (le_dimensions e); [|done]. cbn. apply NoDup_singleton.
Qed.

Lemma filter_sublist_nodup (P : Z * bytes -> Prop) `{forall x, Decision (P x)} l : NoDup (fst <$> l) -> NoDup (fst <$> filter P l).
Proof. intros Hnd. eapply sublist_NoDup; [exact Hnd|]. apply fmap_sublist, list.sublist_filter. Qed.

Lemma trim_some dead e e' : trim dead e = Some e' -> distinct_dims e ->
  e' = set_dimensions (le_dimensions e') e /\ sublist (le_dimensions e') (le_dimensions e) /\ (le_dimensions e' = [] <-> le_dimensions e = []) /\ distinct_dims e' /\
  forall i k, (i, k) ∈ entry_dims e' <-> (i, k) ∈ entry_dims e /\ dead i k = false.
Proof.
  unfold trim, distinct_dims, entry_dims. intros Ht Hd. destruct (le_dimensions e) as [|d dims] eqn:He.
  - destruct (dead 0 (le_pk e)) eqn:Hk; [done|]. injection Ht as <-. rewrite He. split; [destruct e; cbn in *; by rewrite He|]. split; [constructor|]. split; [done|]. split; [constructor|].
    intros i k. rewrite list_elem_of_singleton. split; [by intros [= -> ->]|by intros [? _]].
  - destruct (filter _ (d :: dims)) as [|l ls] eqn:Hf; [done|]. injection Ht as <-. cbn [set_dimensions le_dimensions]. rewrite <- Hf.
    split; [done|]. split; [apply list.sublist_filter|]. split; [by rewrite Hf|]. split; [by apply filter_sublist_nodup|].
    intros i k. rewrite Hf, <- Hf, list_elem_of_filter. cbn. tauto.
Qed.
Lemma trim_none dead e i k : trim dead e = None -> (i, k) ∈ entry_dims e -> dead i k = true.
Proof.
  unfold trim, entry_dims. destruct (le_dimensions e) as [|d dims] eqn:He.
  - intros Ht. rewrite list_elem_of_singleton. intros [= -> ->]. by destruct (dead 0 (le_pk e)).
  - intros Ht Hin. destruct (filter _ (d :: dims)) as [|l ls] eqn:Hf; [|done]. destruct (dead i k) eqn:Hk; [done|]. exfalso.
    apply (not_elem_of_nil (i, k)). rewrite <- Hf, list_elem_of_filter. done.
Qed.
Lemma trim_delete dead e e' : trim dead e = Some e' -> is_delete e' = is_delete e /\ le_log_index e' = le_log_index e.
Proof. unfold trim. destruct (le_dimensions e); [destruct (dead 0 (le_pk e)); [done|]; by intros [= <-]|]. destruct (filter _ _); [done|]. by intros [= <-]. Qed.

(** ** Tables *)

(** What a snapshot relies on of a table: whether an entry is expired is decided
    without changing the table, every index is in use, which puts are accepted does
    not depend on the rows, and a table is determined by what puts and deletions
    keep of it and by its rows under each key. *)
Class SnapshotLaws (T : Type) `{TableLaws T} `{SnapshotTable T} := {
  table_expired : table_abs T -> Z -> LogEntry -> bool;
  IsExpire_rep n t a now e : table_rep n t a -> put_ok e -> exists t', tbl_IsExpire t now e = Some (table_expired a now e, t') /\ table_rep n t' a;
  GetAllIndex_rep n t a : table_rep n t a -> exists ids, tbl_GetAllIndex t = Some ids /\ Forall (fun x => x.2 = kReady) ids;
  table_wf : table_abs T -> Prop;
  rep_wf n t a : table_rep n t a -> table_wf a;
  table_like : table_abs T -> table_abs T -> Prop;
  table_like_equiv :: Equivalence table_like;
  table_rows : table_abs T -> Z -> bytes -> option (list (Z * bytes));
  table_time : table_abs T -> LogEntry -> Z -> Z;
  wf_like a a' : table_like a a' -> table_wf a -> table_wf a';
  time_like a a' e i : table_like a a' -> table_time a e i = table_time a' e i;
  put_answer_like a a' e : table_like a a' -> (table_put a e).1 = (table_put a' e).1;
  put_answer_gc a c e : (table_put (table_gc a c) e).1 = (table_put a e).1;
  table_ext a a' : table_like a a' -> (forall i k, table_rows a i k = table_rows a' i k) -> a = a';
  put_like a e : table_like (table_put a e).2 a;
  delete_like a key idx : table_like (table_delete a key idx).2 a;
  put_rows a e i k : table_wf a -> put_ok e -> (table_put a e).1 = true -> table_rows (table_put a e).2 i k =
    if decide (entry_key e i = Some k) then Some (add_row (table_time a e i) (le_value e) (default [] (table_rows a i k))) else table_rows a i k;
  delete_rows a key idx i k : table_wf a -> 0 <= idx -> table_rows (table_delete a key idx).2 i k =
    if decide ((i, k) = (idx, key)) then None else table_rows a i k;
  put_fewer a e dims : table_wf a -> put_ok e -> (table_put a e).1 = true -> sublist dims (le_dimensions e) -> (dims = [] <-> le_dimensions e = []) ->
    put_ok (set_dimensions dims e) /\ (table_put a (set_dimensions dims e)).1 = true /\ forall i, table_time a (set_dimensions dims e) i = table_time a e i
}.

Section replay.
Context `{BinlogFlags} {T : Type} `{SnapshotLaws T}.
Implicit Types (a : table_abs T) (e : LogEntry) (es : list LogEntry) (X : gset Z).

(** An entry that can be replayed, and that [a] took if it is a put *)
Record loggable a e : Prop := {
  lg_ok : entry_ok e;
  lg_dims : distinct_dims e;
  lg_taken : is_delete e = false -> (table_put a e).1 = true
}.
Lemma loggable_like a a' e : table_like a a' -> loggable a e -> loggable a' e.
Proof. intros Hl [? ? Ht]. split; try done. intros Hd. rewrite <- (put_answer_like a a' e Hl). by apply Ht. Qed.
Lemma loggable_put a e : loggable a e -> is_delete e = false -> put_ok e /\ abs_apply a e = (table_put a e).2 /\ (table_put a e).1 = true.
Proof. intros [Ho _ Ht] Hd. unfold entry_ok, abs_apply in *. rewrite (Ht Hd). unfold is_delete in Hd. by destruct (le_method_type e) as [[]|]. Qed.
Lemma apply_like a e : table_like (abs_apply a e) a.
Proof. unfold abs_apply. destruct (le_method_type e) as [[]|], (le_dimensions e) as [|[] ?]; try apply put_like; [done|apply delete_like]. Qed.
Lemma loggable_trim a e e' dead : table_wf a -> loggable a e -> is_delete e = false -> trim dead e = Some e' ->
  loggable a e' /\ is_delete e' = false /\ put_ok e' /\ forall i, table_time a e' i = table_time a e i.
Proof.
  intros Hwf Hl Hd Ht. destruct (loggable_put a e Hl Hd) as (Hok & _ & Hacc). destruct (trim_some _ _ _ Ht (lg_dims _ _ Hl)) as (He & Hsub & Hemp & Hnd & _).
  destruct (put_fewer a e _ Hwf Hok Hacc Hsub Hemp) as (Hok' & Hacc' & Htm). rewrite <- He in *. destruct (trim_delete _ _ _ Ht) as [Hdel _]. rewrite Hd in Hdel.
  split; [|done]. split; [|done|done]. unfold entry_ok. unfold is_delete in Hdel. by destruct (le_method_type e') as [[]|].
Qed.

(** The step for a put that is not expired *)
Lemma snap_put a a' e es : table_wf a -> loggable a e -> is_delete e = false -> table_like a' a ->
  (forall i k, table_rows a' i k = if deleted_in es i k then None else table_rows a i k) ->
  let b' := foldl abs_apply a' (option_list (trim (deleted_in es) e)) in
  table_like b' a /\ forall i k, table_rows b' i k = if deleted_in es i k then None else table_rows (abs_apply a e) i k.
Proof.
  intros Hwf Hl Hd Hlike Hrows. destruct (loggable_put a e Hl Hd) as (Hok & -> & Hacc). pose proof (fun i k => entry_key_elem e i k (lg_dims _ _ Hl)) as Hkey.
  destruct (trim (deleted_in es) e) as [e'|] eqn:Ht; cbv zeta; cbn [option_list option_rect foldl].
  - destruct (loggable_trim a e e' _ Hwf Hl Hd Ht) as (Hl' & Hd' & Hok' & Htm). pose proof (loggable_like a a' e' ltac:(by symmetry) Hl') as Hl1.
    destruct (loggable_put a' e' Hl1 Hd') as (_ & -> & Hacc'). destruct (trim_some _ _ _ Ht (lg_dims _ _ Hl)) as (He & _ & _ & Hnd & Hdims).
    split; [etransitivity; [apply put_like|done]|]. intros i k. rewrite (put_rows a' e' i k ltac:(by eapply wf_like; [symmetry|]) Hok' Hacc'), (put_rows a e i k Hwf Hok Hacc), Hrows.
    rewrite (time_like a' a e' i Hlike), Htm. replace (le_value e') with (le_value e) by (by rewrite He).
    destruct (deleted_in es i k) eqn:Hdead.
    + rewrite decide_False; [done|]. rewrite (entry_key_elem e' i k Hnd), Hdims, Hdead. by intros [_ ?].
    + destruct (decide (entry_key e i = Some k)) as [Hk|Hk].
      * rewrite decide_True; [done|]. rewrite (entry_key_elem e' i k Hnd), Hdims. split; [by apply Hkey|done].
      * rewrite decide_False; [done|]. rewrite (entry_key_elem e' i k Hnd), Hdims. intros [? _]. by apply Hk, Hkey.
  - split; [done|]. intros i k. rewrite Hrows, (put_rows a e i k Hwf Hok Hacc). destruct (decide (entry_key e i = Some k)) as [Hk|Hk]; [|done].
    rewrite (trim_none _ _ i k Ht); [done|]. by apply Hkey.
Qed.

(** The table of a snapshot, started from one without the deleted keys *)
Lemma snap_replay X es : forall a a', table_wf a -> Forall (loggable a) es -> table_like a' a ->
  (forall i k, table_rows a' i k = if deleted_in es i k then None else table_rows a i k) -> foldl abs_apply a' (snap X es) = foldl abs_apply a (kept X es).
Proof.
  induction es as [|e es IH]; intros a a' Hwf Hes Hlike Hrows; [by apply table_ext|]. apply Forall_cons in Hes as [He Hes].
  assert (Hnext : forall a1 a1', table_like a1 a -> table_like a1' a -> (forall i k, table_rows a1' i k = if deleted_in es i k then None else table_rows a1 i k) ->
    foldl abs_apply a1' (snap X es) = foldl abs_apply a1 (kept X es)).
  { intros a1 a1' Hy Hy' Hr. apply IH; [by eapply wf_like; [symmetry|]| |by etransitivity|done]. eapply Forall_impl; [exact Hes|]. intros x. apply loggable_like. by symmetry. }
  cbn [snap]. unfold kept. rewrite filter_cons. fold (kept X es). rewrite foldl_app. destruct (is_delete e) eqn:Hd.
  - rewrite decide_True by (by left). cbn [foldl]. apply Hnext; [apply apply_like|done|]. intros i k. rewrite Hrows. cbn [deleted_in existsb]. unfold deletes at 1. rewrite Hd. cbn [andb].
    pose proof (lg_ok _ _ He) as Ho. unfold entry_ok, abs_apply in *. unfold is_delete in Hd. destruct (le_method_type e) as [[]|]; try done.
    destruct (le_dimensions e) as [|[idx key] dims]; [done|]. rewrite (delete_rows a key idx i k Hwf Ho). unfold deleted_in.
    destruct (decide ((i, k) = (idx, key))) as [->|Hne]; [rewrite bool_decide_eq_true_2 by done; by destruct (existsb _ _)|]. by rewrite bool_decide_eq_false_2 by congruence.
  - assert (Hrows' : forall i k, table_rows a' i k = if deleted_in es i k then None else table_rows a i k) by (intros i k; rewrite Hrows; cbn [deleted_in existsb]; unfold deletes at 1; by rewrite Hd).
    destruct (decide (le_log_index e ∈ X)) as [Hx|Hx].
    + rewrite decide_False by (intros [?|?]; done). by apply Hnext.
    + rewrite decide_True by (by right). cbn [foldl]. destruct (snap_put a a' e es Hwf He Hd Hlike Hrows') as [Hl Hr]. apply Hnext; [apply apply_like|done|done].
Qed.

(** ** Loading in another order *)

(** No row of one of the entries has the key and the time of a row of the other. *)
Definition apart a e1 e2 : Prop := forall i k, entry_key e1 i = Some k -> entry_key e2 i = Some k -> table_time a e1 i <> table_time a e2 i.
Fixpoint pairwise (R : LogEntry -> LogEntry -> Prop) es : Prop :=
  match es with [] => True | e :: es' => Forall (R e) es' /\ pairwise R es' end.
Lemma pairwise_perm R es es' : (forall x y, R x y -> R y x) -> es ≡ₚ es' -> pairwise R es -> pairwise R es'.
Proof.
  intros Hsym. induction 1 as [|x l l' Hl IH|x y l|l1 l2 l3 _ IH1 _ IH2]; cbn [pairwise]; [done| | |tauto].
  - intros [Hx Hp]. split; [by rewrite <- Hl|by apply IH].
  - rewrite !Forall_cons. intros ((Hxy & Hx) & Hy & Hp). split_and!; try done. by apply Hsym.
Qed.
Lemma apart_sym a e1 e2 : apart a e1 e2 -> apart a e2 e1.
Proof. intros Ha i k Hk2 Hk1 Ht. by apply (Ha i k). Qed.

Lemma add_row_comm t1 v1 t2 v2 rows : t1 <> t2 -> add_row t1 v1 (add_row t2 v2 rows) = add_row t2 v2 (add_row t1 v1 rows).
Proof.
  assert (Hlt : forall t1 v1 t2 v2, t1 < t2 -> add_row t1 v1 (add_row t2 v2 rows) = add_row t2 v2 (add_row t1 v1 rows)); [|intros Hne; destruct (decide (t1 < t2)); [by apply Hlt|symmetry; apply Hlt; lia]].
  clear. intros t1 v1 t2 v2 Ht. unfold add_row. rewrite !filter_app, !filter_cons. cbn [fst]. rewrite (decide_True (P := t1 < t2)), (decide_False (P := t2 <= t1)), (decide_False (P := t2 < t1)), (decide_True (P := t1 <= t2)) by lia.
  rewrite !list_filter_filter. rewrite <- !app_assoc. cbn [app].
  rewrite (list_filter_iff (fun x : Z * bytes => t1 < x.1 /\ t2 < x.1) (fun x => t2 < x.1)) by (intros; lia).
  rewrite (list_filter_iff (fun x : Z * bytes => t2 < x.1 /\ t1 < x.1) (fun x => t2 < x.1)) by (intros; lia).
  rewrite (list_filter_iff (fun x : Z * bytes => x.1 <= t1 /\ x.1 <= t2) (fun x => x.1 <= t1)) by (intros; lia).
  rewrite (list_filter_iff (fun x : Z * bytes => x.1 <= t2 /\ x.1 <= t1) (fun x => x.1 <= t1)) by (intros; lia).
  rewrite (list_filter_iff (fun x : Z * bytes => x.1 <= t1 /\ t2 < x.1) (fun x => False)) by (intros; lia).
  rewrite (list_filter_iff (fun x : Z * bytes => t2 < x.1 /\ x.1 <= t1) (fun x => False)) by (intros; lia).
  rewrite (list_filter_iff (fun x : Z * bytes => t1 < x.1 /\ x.1 <= t2) (fun x => x.1 <= t2 /\ t1 < x.1)) by (intros; lia).
  assert (Hnil : forall l : list (Z * bytes), filter (fun _ => False) l = []) by (induction l; done). by rewrite !Hnil.
Qed.
Lemma put_comm a e1 e2 : table_wf a -> loggable a e1 -> loggable a e2 -> is_delete e1 = false -> is_delete e2 = false -> apart a e1 e2 ->
  abs_apply (abs_apply a e1) e2 = abs_apply (abs_apply a e2) e1.
Proof.
  intros Hwf Hl1 Hl2 Hd1 Hd2 Hap.
  assert (Hrows : forall x y, loggable a x -> loggable a y -> is_delete x = false -> is_delete y = false ->
    table_like (abs_apply (abs_apply a x) y) a /\ forall i k, table_rows (abs_apply (abs_apply a x) y) i k =
      let r := if decide (entry_key x i = Some k) then Some (add_row (table_time a x i) (le_value x) (default [] (table_rows a i k))) else table_rows a i k in
      if decide (entry_key y i = Some k) then Some (add_row (table_time a y i) (le_value y) (default [] r)) else r).
  { intros x y Hx Hy Hdx Hdy. pose proof (apply_like a x) as Hlx. split; [etransitivity; [apply apply_like|done]|]. intros i k.
    destruct (loggable_put a x Hx Hdx) as (Hox & Ex & Hax). pose proof (loggable_like a (abs_apply a x) y ltac:(by symmetry) Hy) as Hy'.
    destruct (loggable_put _ y Hy' Hdy) as (Hoy & -> & Hay). rewrite (put_rows _ y i k ltac:(by eapply wf_like; [symmetry|]) Hoy Hay), (time_like _ a y i Hlx), Ex, (put_rows a x i k Hwf Hox Hax). done. }
  destruct (Hrows e1 e2 Hl1 Hl2 Hd1 Hd2) as [Hk1 Hr1], (Hrows e2 e1 Hl2 Hl1 Hd2 Hd1) as [Hk2 Hr2]. apply table_ext; [by etransitivity; [|symmetry]|].
  intros i k. rewrite Hr1, Hr2. cbv zeta. destruct (decide (entry_key e1 i = Some k)) as [E1|E1], (decide (entry_key e2 i = Some k)) as [E2|E2]; try done.
  cbn [default from_option]. unfold id. f_equal. apply add_row_comm. intros Heq. by apply (Hap i k E1 E2).
Qed.
Lemma load_perm es es' : es ≡ₚ es' -> forall a, table_wf a -> Forall (fun e => loggable a e /\ is_delete e = false) es -> pairwise (apart a) es ->
  foldl abs_apply a es = foldl abs_apply a es'.
Proof.
  assert (Hmove : forall a b es, table_like b a -> Forall (fun e => loggable a e /\ is_delete e = false) es -> Forall (fun e => loggable b e /\ is_delete e = false) es).
  { intros a b l Hb Hl. eapply Forall_impl; [exact Hl|]. intros e [He ?]. split; [|done]. eapply loggable_like; [symmetry; exact Hb|done]. }
  assert (Hpw : forall a b es, table_like b a -> pairwise (apart a) es -> pairwise (apart b) es).
  { intros a b l Hb. induction l as [|e l IH]; cbn [pairwise]; [done|]. intros [He Hp]. split; [|by apply IH]. eapply Forall_impl; [exact He|]. intros e' Ha i k K1 K2.
    rewrite !(time_like b a _ i Hb). by apply (Ha i k). }
  induction 1 as [|x l l' Hl IH|x y l|l1 l2 l3 H12 IH1 H23 IH2]; intros a Hwf Hf Hp; [done| | |].
  - cbn [foldl]. apply Forall_cons in Hf as [_ Hf]. destruct Hp as [_ Hp]. pose proof (apply_like a x) as Hlx. apply IH; [by eapply wf_like; [symmetry|]|by eapply Hmove|by eapply Hpw].
  - cbn [foldl]. apply Forall_cons in Hf as [[? ?] Hf]. apply Forall_cons in Hf as [[? ?] Hf]. destruct Hp as [Hy _]. apply Forall_cons in Hy as [Hyx _]. f_equal. by apply put_comm.
  - rewrite IH1 by done. apply IH2; [done|by rewrite <- H12|]. eapply pairwise_perm; [apply apart_sym|exact H12|done].
Qed.

(** An entry with some of the rows of another *)
Definition part_of a e' e : Prop := (forall i k, entry_key e' i = Some k -> entry_key e i = Some k) /\ forall i, table_time a e' i = table_time a e i.
Lemma apart_part a e1 e2 e1' e2' : apart a e1 e2 -> part_of a e1' e1 -> part_of a e2' e2 -> apart a e1' e2'.
Proof. intros Ha [Hk1 Ht1] [Hk2 Ht2] i k H1' H2'. rewrite Ht1, Ht2. apply (Ha i k); auto. Qed.
Lemma trim_part a e e' dead : table_wf a -> loggable a e -> is_delete e = false -> trim dead e = Some e' -> part_of a e' e.
Proof.
  intros Hwf He Hd Ht. destruct (loggable_trim a e e' _ Hwf He Hd Ht) as (Hl' & _ & _ & Htm). split; [|done]. intros i k.
  rewrite (entry_key_elem e' i k (lg_dims _ _ Hl')), (entry_key_elem e i k (lg_dims _ _ He)). destruct (trim_some _ _ _ Ht (lg_dims _ _ He)) as (_ & _ & _ & _ & Hdims). intros Hin. by apply Hdims in Hin as [? _].
Qed.
Lemma snap_part X a es : table_wf a -> Forall (loggable a) es -> Forall (fun e' => exists e, e ∈ es /\ is_delete e = false /\ part_of a e' e) (snap X es).
Proof.
  intros Hwf. induction 1 as [|e es He Hes IH]; [constructor|]. cbn [snap]. apply Forall_app. split.
  - destruct (is_delete e) eqn:Hd; [constructor|]. case_decide; [constructor|]. destruct (trim (deleted_in es) e) as [e'|] eqn:Ht; constructor; [|constructor].
    exists e. split; [left|]. split; [done|]. by eapply trim_part.
  - eapply Forall_impl; [exact IH|]. intros e' (x & Hx & ?). exists x. split; [by right|done].
Qed.
Lemma pairwise_snap X a es : table_wf a -> Forall (loggable a) es -> pairwise (apart a) (filter (fun e => is_delete e = false) es) -> pairwise (apart a) (snap X es).
Proof.
  intros Hwf. induction 1 as [|e es He Hes IH]; [done|]. cbn [snap]. rewrite filter_cons. destruct (is_delete e) eqn:Hd; [rewrite decide_False by done; exact IH|]. rewrite decide_True by done.
  intros [Hall Hp]. specialize (IH Hp). case_decide; [exact IH|]. destruct (trim (deleted_in es) e) as [e'|] eqn:Ht; [|exact IH]. cbn [option_list option_rect app pairwise]. split; [|exact IH].
  eapply Forall_impl; [exact (snap_part X a es Hwf Hes)|]. intros x (y & Hy & Hdy & Hpart). apply (apart_part a e y); [|by eapply trim_part|done].
  rewrite Forall_forall in Hall. apply Hall. by apply list_elem_of_filter.
Qed.
Lemma pairwise_app R es1 es2 : pairwise R (es1 ++ es2) <-> pairwise R es1 /\ pairwise R es2 /\ Forall (fun e => Forall (R e) es2) es1.
Proof.
  induction es1 as [|e es1 IH]; cbn [app pairwise]; [split; [by intros ?|by intros (_ & ? & _)]|]. rewrite IH, Forall_app, Forall_cons. tauto.
Qed.
End replay.

(** ** Several snapshots *)

Lemma filter_ext_elem {A} (P Q : A -> Prop) `{forall x, Decision (P x)} `{forall x, Decision (Q x)} (l : list A) : (forall x, x ∈ l -> P x <-> Q x) -> filter P l = filter Q l.
Proof.
  induction l as [|x l IH]; intros Hl; [done|]. rewrite !filter_cons, IH by (intros y Hy; apply Hl; by right). pose proof (Hl x ltac:(left)) as Hx.
  destruct (decide (P x)), (decide (Q x)); tauto || done.
Qed.
Lemma trim_ext d1 d2 e : (forall i k, (i, k) ∈ entry_dims e -> d1 i k = d2 i k) -> trim d1 e = trim d2 e.
Proof.
  unfold trim, entry_dims. intros Hd. destruct (le_dimensions e) as [|d dims] eqn:He; [by rewrite (Hd 0 (le_pk e)) by left|].
  rewrite (filter_ext_elem (fun x : Z * bytes => d1 x.1 x.2 = false) (fun x => d2 x.1 x.2 = false)); [done|]. intros [i k] Hin. cbn. by rewrite Hd.
Qed.
Lemma trim_trim d1 d2 e : (e' ← trim d1 e; trim d2 e') = trim (fun i k => d1 i k || d2 i k) e.
Proof.
  unfold trim. destruct (le_dimensions e) as [|d dims] eqn:He; [destruct (d1 0 (le_pk e)); [done|]; rewrite bind_some, He; done|].
  assert (Hf : filter (fun x : Z * bytes => d1 x.1 x.2 || d2 x.1 x.2 = false) (d :: dims) = filter (fun x => d2 x.1 x.2 = false) (filter (fun x => d1 x.1 x.2 = false) (d :: dims))).
  { rewrite list_filter_filter. apply list_filter_iff. intros [i k]. cbn. rewrite orb_false_iff. tauto. }
  rewrite Hf. clear Hf. generalize (filter (fun x : Z * bytes => d1 x.1 x.2 = false) (d :: dims)). intros [|x l]; [reflexivity|]. rewrite bind_some. cbn [set_dimensions le_dimensions]. by destruct (filter _ (x :: l)).
Qed.
Lemma deleted_in_app es1 es2 i k : deleted_in (es1 ++ es2) i k = deleted_in es1 i k || deleted_in es2 i k.
Proof. apply existsb_app. Qed.

(** An old snapshot, filtered by the deletions of [es2], in front of the snapshot
    of [es2] *)
Lemma snap_app X1 X2 es1 es2 : Forall (fun e => le_log_index e ∉ X1) es2 ->
  omap (fun e => if decide (le_log_index e ∈ X2) then None else trim (deleted_in es2) e) (snap X1 es1) ++ snap X2 es2 = snap (X1 ∪ X2) (es1 ++ es2).
Proof.
  intros Hx. induction es1 as [|e es1 IH]; cbn [app snap omap].
  - change (snap X2 es2 = snap (X1 ∪ X2) es2). induction Hx as [|e es2 He Hx IH]; [done|]. cbn [snap]. rewrite IH. f_equal. destruct (is_delete e); [done|].
    destruct (decide (le_log_index e ∈ X2)), (decide (le_log_index e ∈ X1 ∪ X2)); done || set_solver.
  - rewrite <- IH, omap_app, app_assoc. f_equal. f_equal. clear IH. destruct (is_delete e); [done|]. destruct (decide (le_log_index e ∈ X1)) as [H1|H1]; [rewrite decide_True by set_solver; done|].
    rewrite (trim_ext (deleted_in (es1 ++ es2)) (fun i k => deleted_in es1 i k || deleted_in es2 i k)) by (intros; apply deleted_in_app). rewrite <- trim_trim.
    destruct (trim (deleted_in es1) e) as [e'|] eqn:Ht; [|by destruct (decide _)]. cbn [option_list option_rect omap list_omap]. rewrite bind_some. destruct (trim_delete _ _ _ Ht) as [_ ->].
    destruct (decide (le_log_index e ∈ X2)); [by rewrite decide_True by set_solver|]. rewrite decide_False by set_solver. by destruct (trim (deleted_in es2) e').
Qed.

(** ** The deleted keys *)

Definition collect_one (dk : gmap bytes Z) (e : LogEntry) : gmap bytes Z :=
  match le_method_type e, le_dimensions e with
  | Some kDelete, (idx, key) :: _ => <[combined_key key idx := le_log_index e]> dk
  | _, _ => dk
  end.
Definition collect (es : list LogEntry) : gmap bytes Z := foldl collect_one ∅ es.

Lemma to_string_loop_digits fuel : forall n rest, 124 ∉ rest -> 124 ∉ to_string_loop fuel n rest.
Proof.
  induction fuel as [|fuel IH]; intros n rest Hr; cbn [to_string_loop]; [done|]. pose proof (Z.mod_pos_bound n 10 ltac:(lia)).
  assert (124 ∉ (48 + n `mod` 10) :: rest) by (rewrite not_elem_of_cons; split; [lia|done]). case_decide; [done|by apply IH].
Qed.
Lemma to_string_loop_val fuel : forall n rest, 0 <= n < 10 ^ Z.of_nat fuel -> exists s, to_string_loop fuel n rest = s ++ rest /\ digits_val s = n.
Proof.
  induction fuel as [|fuel IH]; intros n rest Hn; cbn [to_string_loop]; [exists []; split; [done|]; cbn in *; unfold digits_val; cbn; lia|].
  rewrite Nat2Z.inj_succ, Z.pow_succ_r in Hn by lia. case_decide as Hlt.
  - exists [48 + n `mod` 10]. split; [done|]. unfold digits_val. cbn. rewrite Z.mod_small by lia. lia.
  - destruct (IH (n / 10) ((48 + n `mod` 10) :: rest)) as (s & -> & Hs); [split; [apply Z.div_pos; lia|apply Z.div_lt_upper_bound; lia]|].
    exists (s ++ [48 + n `mod` 10]). split; [by rewrite <- app_assoc|]. rewrite digits_val_snoc, Hs. pose proof (Z.div_mod n 10). lia.
Qed.
Lemma to_string_inj m n : 0 <= m < 2 ^ 32 -> 0 <= n < 2 ^ 32 -> to_string m = to_string n -> m = n.
Proof.
  unfold to_string. intros Hm Hn E. destruct (to_string_loop_val 20 m []) as (s & Es & <-); [lia|]. destruct (to_string_loop_val 20 n []) as (s' & Es' & <-); [lia|].
  rewrite Es, Es', !app_nil_r in E. by subst.
Qed.
(** The text behind the last occurrence of a character *)
Lemma last_split (c : Z) a : forall b s s', c ∉ s -> c ∉ s' -> a ++ c :: s = b ++ c :: s' -> a = b /\ s = s'.
Proof.
  induction a as [|x a IH]; intros [|y b] s s' Hs Hs' E; cbn [app] in E.
  - by injection E.
  - injection E as -> ->. exfalso. apply Hs. apply elem_of_app. right. left.
  - injection E as -> <-. exfalso. apply Hs'. apply elem_of_app. right. left.
  - injection E as -> E. destruct (IH b s s' Hs Hs' E) as [-> ->]. done.
Qed.
Lemma combined_key_inj k i k' i' : 0 <= i < 2 ^ 32 -> 0 <= i' < 2 ^ 32 -> combined_key k i = combined_key k' i' -> k = k' /\ i = i'.
Proof.
  intros Hi Hi' E. unfold combined_key in E. change (str "|") with [124] in E. cbn [app] in E.
  apply last_split in E as [-> E]; [|unfold to_string; by apply to_string_loop_digits, not_elem_of_nil..]. split; [done|]. by apply to_string_inj.
Qed.

Lemma fits_dims e : entry_fits e = true -> Forall (fun d => 0 <= d.1 < 2 ^ 32) (le_dimensions e).
Proof.
  unfold entry_fits. rewrite !andb_true_iff. intros [[_ Hd] _]. apply Forall_forall. intros d Hin. rewrite forallb_forall in Hd. apply list_elem_of_In in Hin.
  specialize (Hd d Hin). apply andb_true_iff in Hd as [Hd _]. by apply bool_decide_eq_true in Hd.
Qed.

Lemma key_deleted_collect es : forall start o i k, numbered start es -> 0 <= i < 2 ^ 32 ->
  key_deleted (collect es) o k i = existsb (fun e => deletes e i k && bool_decide (o <= le_log_index e)) es.
Proof.
  induction es as [|e es IH] using rev_ind; intros start o i k Hn Hi; [done|]. rewrite existsb_app. cbn [existsb]. rewrite orb_false_r.
  assert (Hn' : numbered start es) by (intros j x Hx; apply Hn; by apply lookup_app_l_Some).
  assert (He : (es ++ [e]) !! length es = Some e) by (by apply list_lookup_middle). destruct (Hn _ _ He) as [Hidx Hfit].
  rewrite <- (IH start o i k Hn' Hi). unfold collect at 1. rewrite foldl_app. cbn [foldl]. fold (collect es). unfold collect_one, deletes, is_delete.
  destruct (le_method_type e) as [[]|]; cbn [andb]; rewrite ?orb_false_r; try done. pose proof (fits_dims e Hfit) as Hd. destruct (le_dimensions e) as [|[idx key] dims]; cbn [andb]; rewrite ?orb_false_r; [done|].
  apply Forall_cons in Hd as [Hdi _]. cbn [fst] in Hdi. unfold key_deleted at 1. destruct (decide ((idx, key) = (i, k))) as [[= -> ->]|Hne].
  - rewrite lookup_insert_eq. rewrite (bool_decide_eq_true_2 ((i, k) = (i, k))) by done. cbn [andb]. destruct (bool_decide (o <= le_log_index e)) eqn:Ho; [by rewrite orb_true_r|].
    rewrite orb_false_r. apply bool_decide_eq_false in Ho. symmetry. rewrite (IH start o i k Hn' Hi). apply not_true_is_false. rewrite existsb_exists. intros (x & Hx & Hb).
    apply andb_true_iff in Hb as [_ Hb%bool_decide_eq_true]. apply list_elem_of_In, list_elem_of_lookup in Hx as (j & Hj). destruct (Hn' _ _ Hj) as [? _]. apply lookup_lt_Some in Hj. lia.
  - rewrite lookup_insert_ne; [|intros E; apply combined_key_inj in E as [-> ->]; done]. rewrite (bool_decide_eq_false_2 ((idx, key) = (i, k))) by done. cbn [andb]. by rewrite orb_false_r.
Qed.
Lemma key_deleted_before start es o i k : numbered start es -> 0 <= i < 2 ^ 32 -> o <= start -> key_deleted (collect es) o k i = deleted_in es i k.
Proof.
  intros Hn Hi Ho. rewrite (key_deleted_collect es start o i k Hn Hi). unfold deleted_in. assert (Hge : forall e, e ∈ es -> o <= le_log_index e).
  { intros e (j & Hj)%list_elem_of_lookup. destruct (Hn _ _ Hj) as [-> _]. lia. }
  clear Hn. induction es as [|e es IH]; [done|]. cbn [existsb]. rewrite IH by (intros x Hx; apply Hge; by right). rewrite bool_decide_eq_true_2 by (apply Hge; left). by rewrite andb_true_r.
Qed.
Lemma key_deleted_at start a e b i k : numbered start (a ++ e :: b) -> 0 <= i < 2 ^ 32 -> is_delete e = false ->
  key_deleted (collect (a ++ e :: b)) (le_log_index e) k i = deleted_in b i k.
Proof.
  intros Hn Hi Hd. rewrite (key_deleted_collect _ start _ i k Hn Hi), existsb_app. cbn [existsb]. unfold deletes at 2. rewrite Hd. cbn [andb orb].
  assert (He : (a ++ e :: b) !! length a = Some e) by (by apply list_lookup_middle). destruct (Hn _ _ He) as [Hidx _].
  assert (Ha : existsb (fun x => deletes x i k && bool_decide (le_log_index e <= le_log_index x)) a = false).
  { apply not_true_is_false. rewrite existsb_exists. intros (x & Hx & Hb). apply andb_true_iff in Hb as [_ Hb%bool_decide_eq_true]. apply list_elem_of_In, list_elem_of_lookup in Hx as (j & Hj).
    destruct (Hn j x ltac:(by apply lookup_app_l_Some)) as [? _]. apply lookup_lt_Some in Hj. lia. }
  rewrite Ha. cbn [orb]. unfold deleted_in. assert (Hge : forall x, x ∈ b -> le_log_index e <= le_log_index x).
  { intros x (j & Hj)%list_elem_of_lookup. destruct (Hn (length a + S j)%nat x) as [-> _]; [|lia]. rewrite lookup_app_r by lia. by replace (length a + S j - length a)%nat with (S j) by lia. }
  clear - Hge. induction b as [|x b IH]; [done|]. cbn [existsb]. rewrite IH by (intros y Hy; apply Hge; by right). rewrite bool_decide_eq_true_2 by (apply Hge; left). by rewrite andb_true_r.
Qed.

(** ** Filtering *)

Definition key_dead (dk : gmap bytes Z) (e : LogEntry) (i : Z) (k : bytes) : bool := key_deleted dk (le_log_index e) k i.
(** What is left of the puts among [es] *)
Definition sifted (dk : gmap bytes Z) (X : gset Z) (es : list LogEntry) : list LogEntry :=
  omap (fun e => if is_delete e then None else if decide (le_log_index e ∈ X) then None else trim (key_dead dk e) e) es.

Lemma fits_entry_dims e i k : entry_fits e = true -> (i, k) ∈ entry_dims e -> 0 <= i < 2 ^ 32.
Proof.
  intros Hf Hin. pose proof (fits_dims e Hf) as Hd. unfold entry_dims in Hin. destruct (le_dimensions e) as [|d dims]; [apply list_elem_of_singleton in Hin as [= -> ->]; lia|].
  rewrite Forall_forall in Hd. by apply Hd in Hin.
Qed.
Lemma sifted_old start es X S : numbered start es -> Forall (fun e => le_log_index e <= start /\ entry_fits e = true /\ is_delete e = false) S ->
  sifted (collect es) X S = omap (fun e => if decide (le_log_index e ∈ X) then None else trim (deleted_in es) e) S.
Proof.
  intros Hn. induction 1 as [|e S (Hi & Hf & Hd) HS IH]; [done|]. unfold sifted in *. cbn [omap list_omap]. rewrite IH, Hd. case_decide; [done|].
  rewrite (trim_ext (key_dead (collect es) e) (deleted_in es)); [done|]. intros i k Hin. eapply key_deleted_before; [done|by eapply fits_entry_dims|done].
Qed.
Lemma sifted_new start es X : numbered start es -> sifted (collect es) X es = snap X es.
Proof.
  intros Hn. assert (Hsuf : forall b a, es = a ++ b -> sifted (collect es) X b = snap X b); [|by apply (Hsuf es [])].
  induction b as [|e b IH]; intros a Ha; [done|]. unfold sifted in *. cbn [omap list_omap snap]. rewrite (IH (a ++ [e])) by (by rewrite <- app_assoc). destruct (is_delete e) eqn:Hd; [done|]. case_decide; [done|].
  rewrite (trim_ext (key_dead (collect es) e) (deleted_in b)); [by destruct (trim _ _)|]. intros i k Hin. rewrite Ha in *.
  destruct (Hn (length a) e) as [_ Hf]; [by apply list_lookup_middle|]. unfold key_dead. eapply key_deleted_at; [done|by eapply fits_entry_dims|done].
Qed.

Lemma snap_indices X es : sublist (le_log_index <$> snap X es) (le_log_index <$> es).
Proof.
  induction es as [|e es IH]; [done|]. cbn [snap]. rewrite fmap_app. cbn [fmap list_fmap]. destruct (is_delete e); [by apply sublist_cons|]. case_decide; [by apply sublist_cons|].
  destruct (trim (deleted_in es) e) as [e'|] eqn:Ht; cbn [option_list option_rect fmap list_fmap app]; [|by apply sublist_cons]. destruct (trim_delete _ _ _ Ht) as [_ ->]. by apply sublist_skip.
Qed.
Lemma numbered_nodup start es : numbered start es -> NoDup (le_log_index <$> es).
Proof.
  intros Hn. apply NoDup_alt. intros i j x Hi Hj. apply list_lookup_fmap_Some in Hi as (e & -> & He), Hj as (e' & Heq & He').
  destruct (Hn _ _ He) as [? _], (Hn _ _ He') as [? _]. lia.
Qed.
Lemma nodup_index es e e' : NoDup (le_log_index <$> es) -> e ∈ es -> e' ∈ es -> le_log_index e = le_log_index e' -> e = e'.
Proof.
  intros Hnd (i & Hi)%list_elem_of_lookup (j & Hj)%list_elem_of_lookup E. assert (i = j) as -> by (eapply NoDup_lookup; [exact Hnd| |]; rewrite list_lookup_fmap; [by rewrite Hi|rewrite Hj; cbn; by rewrite E]). congruence.
Qed.
(** Entries are left out by a test instead of a set of numbers. *)
Lemma sifted_test dk (expires : LogEntry -> bool) all es : NoDup (le_log_index <$> all) -> (forall e, e ∈ es -> e ∈ all) ->
  omap (fun e => if is_delete e then None else if expires e then None else trim (key_dead dk e) e) es = sifted dk (list_to_set (le_log_index <$> filter (fun e => is_delete e = false /\ expires e = true) all)) es.
Proof.
  intros Hnd Hin. induction es as [|e es IH]; [done|]. unfold sifted in *. cbn [omap list_omap]. rewrite IH by (intros; apply Hin; by right). destruct (is_delete e) eqn:Hdel; [done|].
  assert (Hiff : expires e = true <-> le_log_index e ∈ (list_to_set (le_log_index <$> filter (fun e => is_delete e = false /\ expires e = true) all) : gset Z)).
  { rewrite elem_of_list_to_set, list_elem_of_fmap. split; [intros He; exists e; split; [done|]; rewrite list_elem_of_filter; split; [done|]; apply Hin; left|].
    intros (e' & E & [[_ He'] Ha]%list_elem_of_filter). by rewrite (nodup_index all e e' Hnd (Hin e ltac:(left)) Ha E). }
  destruct (expires e), (decide _) as [Hd|Hd]; try done; [exfalso; apply Hd; by apply Hiff|exfalso; apply Hiff in Hd; done].
Qed.

Lemma sublist_full {A} (l1 l2 : list A) : sublist l1 l2 -> length l1 = length l2 -> l1 = l2.
Proof.
  induction 1 as [|x l1 l2 Hs IH|x l1 l2 Hs IH]; cbn [length]; intros Hl; [done|f_equal; apply IH; lia|]. apply sublist_length in Hs. lia.
Qed.
Section remove.
Context `{EntryCodec}.
(** [RemoveDeletedKey] when every index is in use *)
Lemma RemoveDeletedKey_trim dk e :
  match trim (key_dead dk e) e with
  | None => RemoveDeletedKey dk [] e = (1, [])
  | Some e' => (e' = e /\ RemoveDeletedKey dk [] e = (0, [])) \/ RemoveDeletedKey dk [] e = (2, SerializeToString e')
  end.
Proof.
  unfold trim, RemoveDeletedKey, key_dead. destruct (le_dimensions e) as [|d dims] eqn:He; [destruct (key_deleted _ _ _ _); [done|by left]|].
  rewrite (filter_ext_elem (fun d0 : Z * bytes => key_deleted dk (le_log_index e) d0.2 d0.1 || bool_decide (d0.1 ∈ @nil Z) = false) (fun x => key_deleted dk (le_log_index e) x.2 x.1 = false)).
  2: { intros x _. rewrite bool_decide_eq_false_2 by apply not_elem_of_nil. by rewrite orb_false_r. }
  set (l0 := filter _ (d :: dims)). assert (Hsub : sublist l0 (d :: dims)) by apply list.sublist_filter. clearbody l0. destruct l0 as [|x l].
  - rewrite decide_False by done. by rewrite decide_True.
  - case_decide as Hlen.
    + left. split; [|done]. rewrite (sublist_full _ _ Hsub Hlen), <- He. by destruct e.
    + right. by rewrite decide_False.
Qed.
End remove.
