(* ===== verification/SnapshotMake.v ===== *)
(** The files of a snapshot: what is written to the new one, entry by entry, from
    the old snapshot and from the binlog, and that a snapshot is read back. *)
From Stdlib Require Import String.
From S2P Require Import Prelude Slice LogFile LogWriter LogLayout LogReader LogRoundtrip LogThms LogLive Random Skiplist SkiplistInv.
From S2P Require Import SkiplistInsert SkiplistSplit SkiplistSpec StdMap Strings LogRoll LogGrow TableIndex Table MemTable Binlog BinlogWrite BinlogRecover.
From S2P Require Import TableLaws ReplicateNode Replicator ReplicaLog ReplicaSend Tablet Snapshot SnapshotTable.

Section make.
Context `{BinlogFlags} `{Compressors} `{SnapshotFlags} `{EntryCodecLaws} {T : Type} `{SnapshotLaws T}.
Implicit Types (fs : FileSystem) (logs : LogParts) (t : T) (a : table_abs T) (d : Draft) (es : list LogEntry) (e : LogEntry).

Abbreviation recs es := (SerializeToString <$> es).

(** ** Reading a snapshot *)

(** A finished snapshot *)
Definition snapshot_file fs (f : bytes) es : Prop :=
  Forall (fun e => entry_fits e = true) es /\ fs_denied fs f = false /\
  exists D lay ends tail, fs_files fs !! f = Some D /\ holds D (recs es) true lay ends tail.

Abbreviation next_of rd := (ReadRecord snappy_length snappy_uncompress zlib_uncompress (S (S (length (ps_data (rd_file rd))))) rd).
Lemma rat_length D ds lay ends tail (rd : Reader PosixSequentialFile) i : rat D ds lay ends tail rd i -> length (ps_data (rd_file rd)) = length D.
Proof. intros (P & E & L & eof & qs & ps' & x & _ & Hi & _). by rewrite (ri_file _ _ _ _ _ Hi). Qed.
(** The next record of a finished file *)
Lemma next_snapshot D es lay ends tail rd i : holds D (recs es) true lay ends tail -> rat D (recs es) lay ends tail rd i ->
  match es !! i with
  | Some e => exists rd', next_of rd = Some (OK, SerializeToString e, rd') /\ rat D (recs es) lay ends tail rd' (S i)
  | None => exists rd', next_of rd = Some (Eof, [], rd')
  end.
Proof.
  intros Hh Hr. rewrite (rat_length _ _ _ _ _ _ _ Hr). destruct (es !! i) as [e|] eqn:He.
  - destruct (read_ok snappy_length snappy_uncompress zlib_uncompress D (recs es) true lay ends tail rd i (SerializeToString e) Hh Hr) as (rd' & x & Hn & Hr' & _); [by rewrite list_lookup_fmap, He|].
    by exists rd'.
  - assert (i = length (recs es)) as ->.
    { pose proof (rat_le _ _ _ _ _ _ _ (hd_laid _ _ _ _ _ _ Hh) Hr). apply lookup_ge_None in He. rewrite length_fmap in *. lia. }
    destruct (read_end snappy_length snappy_uncompress zlib_uncompress D (recs es) lay ends tail rd Hh Hr) as (rd' & Hn & _). by exists rd'.
Qed.

Lemma read_snapshot_spec D es lay ends tail : holds D (recs es) true lay ends tail -> forall fuel rd i, rat D (recs es) lay ends tail rd i -> (length es - i < fuel)%nat ->
  read_snapshot fuel rd = Some (recs (drop i es)).
Proof.
  intros Hh. induction fuel as [|fuel IH]; intros rd i Hr Hf; [lia|]. cbn [read_snapshot]. pose proof (next_snapshot D es lay ends tail rd i Hh Hr) as Hn. destruct (es !! i) as [e|] eqn:He.
  - destruct Hn as (rd' & -> & Hr'). rewrite bind_some. rewrite decide_False by (by intros [?|?]). pose proof (lookup_lt_Some _ _ _ He). rewrite (IH rd' (S i) Hr' ltac:(lia)), bind_some. cbn [ok].
    by rewrite (drop_S es e i He).
  - destruct Hn as (rd' & ->). rewrite bind_some, decide_True by (by right). apply lookup_ge_None in He. by rewrite drop_ge.
Qed.

Lemma load_tasks_concat rs : forall cur, concat (load_tasks cur rs) = cur ++ rs.
Proof.
  induction rs as [|r rs IH]; intros cur; cbn [load_tasks]; [destruct cur; cbn; by rewrite ?app_nil_r|]. case_decide; cbn [concat]; rewrite IH; by rewrite <- app_assoc.
Qed.
Lemma load_records_rep n es : Forall (fun e => entry_fits e = true /\ put_ok e /\ is_delete e = false) es -> forall t a, table_rep (length es + n) t a ->
  exists t', load_records t (recs es) = Some t' /\ table_rep n t' (foldl abs_apply a es).
Proof.
  induction 1 as [|e es (Hf & Ho & Hd) Hes IH]; intros t a Ht; [by exists t|]. cbn [fmap list_fmap load_records foldl]. unfold load_record. rewrite parse_serialize by done.
  destruct (Put_rep _ _ _ e Ht Ho) as (t1 & -> & Ht1). rewrite !bind_some. replace (abs_apply a e) with (table_put a e).2; [by apply IH|].
  unfold abs_apply. unfold is_delete in Hd. by destruct (le_method_type e) as [[]|].
Qed.

(** ** Writing *)

Lemma holds_add D ds lay ends x ps : holds D ds false lay ends [] -> all_bytes x -> pieces true x ps -> fits (length D) ps -> small (D ++ enc (length D) ps) ->
  holds (D ++ enc (length D) ps) (ds ++ [x]) false (lay ++ ps) (ends ++ [(length D + length (enc (length D) ps))%nat]) [].
Proof.
  intros [Hl Hby HD Ht _] Hx Hps Hf Hsm. rewrite app_nil_r in HD. assert (HDl : D ++ enc (length D) ps = enc 0 (lay ++ ps)) by (by rewrite HD, enc_app). split.
  - eapply laid_app; [exact Hl|]. cbn [Nat.add]. rewrite <- HD. pose proof (laid_cons (length D) _ [] ps [] [] Hps Hf (laid_nil _)) as Hone. by rewrite app_nil_r in Hone.
  - apply Forall_app. by split; [|constructor].
  - by rewrite app_nil_r.
  - rewrite <- (take_nil 0). change (take 0 (@nil Z)) with (take 0 (enc (length (enc 0 (lay ++ ps))) [])). constructor; [constructor|done|by left].
  - done.
Qed.

Context (M : nat).
(** The new file [f] holds [es]; no other file has changed since [fs0]. *)
Record drafting fs0 (f : bytes) d es : Prop := {
  dg_path : wh_path (dr_wh d) = f;
  dg_data : exists D lay ends, fs_files (dr_fs d) !! f = Some D /\ pwok (wh_lw (dr_wh d)) D /\ holds D (recs es) false lay ends [] /\ (length D <= length es * (27 * S M))%nat;
  dg_fits : Forall (fun e => entry_fits e = true) es;
  dg_count : dr_count d = Z.of_nat (length es);
  dg_other : fs_denied (dr_fs d) = fs_denied fs0 /\ fs_faults (dr_fs d) = fs_faults fs0 /\ forall g, g <> f -> fs_files (dr_fs d) !! g = fs_files fs0 !! g
}.
Lemma draft_write fs0 f d es e : drafting fs0 f d es -> entry_fits e = true -> (length (SerializeToString e) <= M)%nat -> Z.of_nat (S (length es) * (27 * S M)) < 2 ^ 62 ->
  exists fs' wh', wh_Write (dr_fs d) (dr_wh d) (SerializeToString e) = Some (OK, fs', wh') /\ drafting fs0 f (MkDraft fs' wh' (u64 (dr_count d + 1)) (dr_expired d) (dr_deleted d)) (es ++ [e]).
Proof.
  intros [Hp (D & lay & ends & HD & Hw & Hh & Hlen) Hfit Hc (Hden & Hfl & Hoth)] He HM Hsz.
  destruct (wh_Write_spec (dr_fs d) (dr_wh d) D (SerializeToString e) Hw ltac:(by rewrite Hp) (serialize_bytes e He)) as (h' & ps & Hwr & Hph & Hps & Hf & Hw' & Hl). rewrite Hp in *.
  eexists _, h'. split; [exact Hwr|]. split; cbn [dr_fs dr_wh dr_count]; try done.
  - exists (D ++ enc (length D) ps), (lay ++ ps), (ends ++ [(length D + length (enc (length D) ps))%nat]). split; [apply lookup_write|]. split; [done|].
    assert (Hle : (length (D ++ enc (length D) ps) <= length (es ++ [e]) * (27 * S M))%nat).
    { rewrite !length_app. cbn [length]. rewrite Nat.mul_add_distr_r. lia. }
    split; [|done]. rewrite fmap_app. cbn [fmap list_fmap]. apply holds_add; try done; [by apply serialize_bytes|]. unfold small. rewrite length_app in Hle |- *. rewrite length_app in Hle. cbn [length] in Hle. lia.
  - apply Forall_app. by split; [|constructor].
  - rewrite Hc, length_app. cbn [length]. assert (length es < S (length es) * (27 * S M))%nat by nia. rewrite uwrap_id; [lia|]. unfold in_uint. lia.
  - split; [done|]. split; [done|]. intros g Hg. rewrite lookup_write_ne by done. by apply Hoth.
Qed.

(** ** One entry *)

(** An entry of the log or of a snapshot, small enough even without some of its
    dimensions *)
Record draftable e : Prop := {
  df_fits : entry_fits e = true;
  df_ok : entry_ok e;
  df_size : forall dims, sublist dims (le_dimensions e) -> (length (SerializeToString (set_dimensions dims e)) <= M)%nat
}.
Lemma set_dimensions_id e : set_dimensions (le_dimensions e) e = e.
Proof. by destruct e. Qed.
Lemma trim_sublist dead e e' : trim dead e = Some e' -> e' = set_dimensions (le_dimensions e') e /\ sublist (le_dimensions e') (le_dimensions e).
Proof.
  unfold trim. destruct (le_dimensions e) as [|x dims] eqn:He; [destruct (dead 0 (le_pk e)); [done|]; intros [= <-]; rewrite He; split; [rewrite <- He at 1; by rewrite set_dimensions_id|done]|].
  destruct (filter _ _) as [|y l] eqn:Hf; [done|]. intros [= <-]. cbn [set_dimensions le_dimensions]. split; [done|]. rewrite <- Hf. apply list.sublist_filter.
Qed.
Lemma fits_sublist dims e : entry_fits e = true -> sublist dims (le_dimensions e) -> entry_fits (set_dimensions dims e) = true.
Proof.
  unfold entry_fits. cbn [set_dimensions le_term le_log_index le_pk le_value le_ts le_dimensions le_ts_dimensions]. rewrite !andb_true_iff, !forallb_forall. intros [[Hx Hd] Ht] Hs.
  split; [split; [done|]|done]. intros x Hin. apply Hd. apply list_elem_of_In. eapply sublist_subseteq; [exact Hs|]. by apply list_elem_of_In.
Qed.

Context (clock : Z -> Z) (n : nat) (a : table_abs T) (dk : gmap bytes Z).
Definition expires e : bool := table_expired a (clock (le_log_index e)) e.
Definition survivor e : option LogEntry := if is_delete e then None else if expires e then None else trim (key_dead dk e) e.
Definition total d : Z := dr_count d + dr_expired d + dr_deleted d.
Definition counting d : Prop := 0 <= dr_expired d /\ 0 <= dr_deleted d.

Lemma draft_entry_spec fs0 f d es e t : drafting fs0 f d es -> counting d -> table_rep n t a -> draftable e -> is_delete e = false ->
  Z.of_nat (S (length es) * (27 * S M)) < 2 ^ 62 -> total d + 1 < 2 ^ 62 ->
  exists t' d', draft_entry dk [] clock t e (SerializeToString e) d = Some (true, t', d') /\ table_rep n t' a /\ drafting fs0 f d' (es ++ option_list (survivor e)) /\
    counting d' /\ total d' = total d + 1.
Proof using All.
  intros Hdr [Hx0 Hd0] Ht [Hf Ho Hs] Hdel Hsz Htot. unfold total in *. pose proof (dg_count _ _ _ _ Hdr) as Hc. unfold draft_entry, survivor. rewrite Hdel.
  pose proof (RemoveDeletedKey_trim dk e) as Hrm. destruct (IsExpire_rep n t a (clock (le_log_index e)) e Ht ltac:(unfold entry_ok in Ho; unfold is_delete in Hdel; by destruct (le_method_type e) as [[]|])) as (t1 & Hex & Ht1).
  assert (Hdropped : forall x y, dr_expired d <= x < 2 ^ 64 -> dr_deleted d <= y -> drafting fs0 f (MkDraft (dr_fs d) (dr_wh d) (dr_count d) x y) (es ++ [])) by (intros; rewrite app_nil_r; by destruct Hdr).
  destruct (trim (key_dead dk e) e) as [e'|] eqn:Htr.
  - assert (Hsift : sift dk [] clock t e (SerializeToString e) = Some (if expires e then Expired else Kept (SerializeToString e'), t1)).
    { unfold sift, expires. destruct Hrm as [[-> ->]| ->]; rewrite decide_False by done; rewrite Hex, bind_some; done. }
    rewrite Hsift, bind_some. destruct (expires e).
    + eexists t1, _. split; [reflexivity|]. split; [done|]. cbn [option_list option_rect]. rewrite uwrap_id by (unfold in_uint; lia). split; [apply Hdropped; lia|]. unfold counting. cbn [dr_count dr_expired dr_deleted]. lia.
    + destruct (trim_sublist _ _ _ Htr) as [He' Hsub]. destruct (draft_write fs0 f d es e' Hdr) as (fs' & wh' & Hw & Hdr'); [rewrite He'; by apply fits_sublist|rewrite He'; by apply Hs|done|].
      rewrite Hw, bind_some. cbn [ok]. eexists t1, _. split; [reflexivity|]. split; [done|]. split; [exact Hdr'|]. unfold counting. cbn [dr_count dr_expired dr_deleted]. rewrite uwrap_id by (unfold in_uint; lia). lia.
  - unfold sift. rewrite Hrm, decide_True, bind_some by done. eexists t, _. split; [reflexivity|]. split; [done|]. rewrite uwrap_id by (unfold in_uint; lia).
    replace (option_list (if expires e then None else None)) with (@nil LogEntry) by (by destruct (expires e)). split; [apply Hdropped; lia|]. unfold counting. cbn [dr_count dr_expired dr_deleted]. lia.
Qed.

(** ** The old snapshot *)

Definition survivors_of es : list LogEntry := omap survivor es.
Lemma TTLSnapshot_loop_spec fs0 f D S lay ends tail : holds D (recs S) true lay ends tail -> Forall (fun e => draftable e /\ is_delete e = false) S ->
  forall fuel rd i t d es, rat D (recs S) lay ends tail rd i -> (length S - i < fuel)%nat -> drafting fs0 f d es -> counting d -> table_rep n t a ->
  Z.of_nat ((length es + (length S - i)) * (27 * Datatypes.S M)) < 2 ^ 62 -> total d + Z.of_nat (length S - i) < 2 ^ 62 ->
  exists t' d', TTLSnapshot_loop fuel dk [] clock rd t d = Some (true, t', d') /\ table_rep n t' a /\ drafting fs0 f d' (es ++ survivors_of (drop i S)) /\
    counting d' /\ total d' = total d + Z.of_nat (length S - i).
Proof using All.
  intros Hh HS. induction fuel as [|fuel IH]; intros rd i t d es Hr Hf Hdr Hcn Ht Hsz Htot; [lia|]. cbn [TTLSnapshot_loop].
  pose proof (next_snapshot D S lay ends tail rd i Hh Hr) as Hn. destruct (S !! i) as [e|] eqn:He.
  - destruct Hn as (rd' & -> & Hr'). rewrite bind_some, decide_False by done. cbn [ok negb]. pose proof (lookup_lt_Some _ _ _ He). destruct (Forall_lookup_1 _ _ _ _ HS He) as [Hd Hdel].
    rewrite parse_serialize by apply Hd.
    destruct (draft_entry_spec fs0 f d es e t Hdr Hcn Ht Hd Hdel) as (t1 & d1 & -> & Ht1 & Hdr1 & Hcn1 & Htot1).
    { assert (Hle : (Datatypes.S (length es) * (27 * Datatypes.S M) <= (length es + (length S - i)) * (27 * Datatypes.S M))%nat) by (apply Nat.mul_le_mono_r; lia). lia. } { lia. }
    rewrite bind_some. destruct (IH rd' (Datatypes.S i) t1 d1 (es ++ option_list (survivor e)) Hr' ltac:(lia) Hdr1 Hcn1 Ht1) as (t' & d' & -> & Ht' & Hdr' & Hcn' & Htot').
    { assert (Hle : ((length (es ++ option_list (survivor e)) + (length S - Datatypes.S i)) * (27 * Datatypes.S M) <= (length es + (length S - i)) * (27 * Datatypes.S M))%nat).
      { apply Nat.mul_le_mono_r. rewrite length_app. destruct (survivor e); cbn; lia. } lia. } { lia. }
    exists t', d'. split; [done|]. split; [done|]. split; [|split; [done|lia]]. rewrite (drop_S S e i He). unfold survivors_of. cbn [omap list_omap]. rewrite <- app_assoc in Hdr'. unfold survivors_of in Hdr'. by destruct (survivor e).
  - destruct Hn as (rd' & ->). rewrite bind_some, decide_True by done. apply lookup_ge_None in He. exists t, d. rewrite drop_ge by done. unfold survivors_of. cbn. rewrite app_nil_r. split_and!; try done. lia.
Qed.

(** ** The binlog while the new file is written *)

Definition same_log fs fs' path (ps : list part) : Prop :=
  fs_denied fs' = fs_denied fs /\ forall q, q ∈ ps -> fs_files fs' !! log_file path (pt_index q) = fs_files fs !! log_file path (pt_index q).
Lemma binlog_same fs fs' logs path W base ps : same_log fs fs' path ps -> binlog fs logs path W base ps -> binlog fs' logs path W base ps.
Proof using.
  intros [Hd Hs] [Hl Hso Hi Hf Hc Hn Hb]. split; try done. rewrite Forall_forall in Hf |- *. intros q Hq. destruct (Hf q Hq) as (D & lay & ends & tail & []). exists D, lay, ends, tail.
  split; try done; [by rewrite Hs|by rewrite Hd].
Qed.
Lemma tidy_same fs fs' path ps : same_log fs fs' path ps -> tidy fs path ps -> tidy fs' path ps.
Proof using. intros [Hd Hs] [Hc Ho]. split; [done|]. intros q Hq Hcl. destruct (Ho q Hq Hcl) as (D & lay & ends & HD & Hh). exists D, lay, ends. by rewrite Hs. Qed.
Lemma reading_same fs fs' path ps r s k b : same_log fs fs' path ps -> reading fs path ps r s k b -> reading fs' path ps r s k b.
Proof using.
  intros [Hd Hs] (Hp & Hc & x & q & c & D & lay & ends & tail & rd & i & -> & Hb & Hk & HD & Hrest). split; [done|]. split; [done|]. exists x, q, c, D, lay, ends, tail, rd, i.
  split; [done|]. split; [done|]. split; [done|]. split; [|exact Hrest]. rewrite Hs; [done|]. apply elem_of_app. right. left.
Qed.
Lemma same_log_refl fs path ps : same_log fs fs path ps.
Proof using. done. Qed.
Lemma drafting_same fs0 f d es path ps : drafting fs0 f d es -> f ∉ (fun q => log_file path (pt_index q)) <$> ps -> same_log fs0 (dr_fs d) path ps.
Proof using.
  intros [_ _ _ _ (Hd & _ & Ho)] Hf. split; [done|]. intros q Hq. apply Ho. intros <-. apply Hf. apply list_elem_of_fmap. by exists q.
Qed.

(** ** Walking through the binlog *)
Section walk.
Context (fs : FileSystem) (logs : LogParts) (path : bytes) (W : nat) (base : Z) (ps : list part).
Context (log : binlog fs logs path W base ps) (log_tidy : tidy fs path ps).
Abbreviation E := (all_entries ps).
Abbreviation N := (length (all_entries ps)).

Definition left_to_read (s : spot) (k b : nat) : nat := match s with At _ => (N - k) + b + 2 | Past => 1 end.
(** A reader that has not gone back, or is behind the last file *)
Definition onward (s : spot) (b : nat) : Prop := match s with At old => old = false | Past => b = 0%nat end.
(** What the next call brings: an entry, the next file, or the end of the log *)
Inductive walked (s : spot) (k b : nat) : Status -> bytes -> LogReader -> Prop :=
  | walk_entry e r' : E !! k = Some e -> reading fs path ps r' (At false) (S k) b -> s = At false -> walked s k b OK (SerializeToString e) r'
  | walk_file s' b' rec r' : reading fs path ps r' s' k b' -> onward s' b' -> (left_to_read s' k b' < left_to_read s k b)%nat -> walked s k b Eof rec r'
  | walk_end rec r' : k = N -> GetEndLogIndex logs = Some (GetLogIndex r') -> walked s k b WaitRecord rec r'.

Lemma reading_index r s k : reading fs path ps r s k 0 -> GetEndLogIndex logs = Some (GetLogIndex r).
Proof using log.
  intros (_ & _ & x & q & c & D & lay & ends & tail & rd & i & Hps & Hb & _ & _ & _ & _ & Hidx & _). destruct c; [|done]. unfold GetLogIndex. rewrite Hidx. rewrite Hps in log. by eapply end_index.
Qed.
Lemma reading_end r k b : reading fs path ps r Past k b -> b = 0%nat -> k = N.
Proof using.
  intros (_ & _ & x & q & c & D & lay & ends & tail & rd & i & Hps & -> & -> & _ & _ & _ & _ & _ & (_ & -> & _)) Hc. destruct c; [|done].
  rewrite Hps, all_entries_app, length_app. cbn [all_entries mbind list_bind length]. by rewrite app_nil_r.
Qed.
Lemma walk r s k b : reading fs path ps r s k b -> onward s b -> exists st rec r', ReadNextRecord fs logs r = Some (st, rec, r') /\ walked s k b st rec r'.
Proof using log log_tidy.
  intros Hr Ho. destruct (next_record fs logs path W base ps r s k b log log_tidy Hr) as (st & rec & r' & s' & k' & b' & Hn & Hst & Hr').
  exists st, rec, r'. split; [exact Hn|]. inversion Hst as [old k0 b0 e He|s0 k0 b0 j Hend Hj|k0 b0|k0 Hk]; subst.
  - destruct old; [done|]. by apply walk_entry.
  - assert (Hb : b' = 0%nat) by (destruct s as [[]|]; [done|by destruct (Hend eq_refl)|done]). subst b'.
    apply walk_end; [destruct s as [[]|]; [done|by destruct (Hend eq_refl)|by eapply reading_end]|]. by eapply reading_index.
  - eapply walk_file; [exact Hr'|done|]. cbn. lia.
  - eapply walk_file; [exact Hr'|done|]. cbn. lia.
Qed.
Context (bound : base + Z.of_nat N < 2 ^ 64 - 1) (start : 0 <= base).

(** ** The deleted keys *)

Lemma collect_walk endo : forall fuel r s k b c dk0, reading fs path ps r s k b -> onward s b -> (k <= c <= N)%nat -> (left_to_read s k b <= fuel)%nat ->
  exists m, (c <= m <= N)%nat /\ CollectDeletedKey_loop fuel fs logs endo r (base + Z.of_nat c) dk0 = Some (base + Z.of_nat m, foldl collect_one dk0 (take (m - c) (drop c E))) /\
    (endo = 0 -> Z.of_nat (base.size dk0 + (N - c)) < FLAGS_make_snapshot_max_deleted_keys -> m = N).
Proof using H3 log log_tidy bound start.
  induction fuel as [|fuel IH]; intros r s k b c dk0 Hr Ho Hk Hf; [destruct s; cbn in Hf; lia|]. cbn [CollectDeletedKey_loop].
  assert (Hstop : take (c - c) (drop c E) = []) by (by rewrite Nat.sub_diag).
  case_decide as Hmax; [exists c; rewrite Hstop; split; [lia|]; split; [done|]; intros _; lia|].
  case_decide as Hend; [exists c; rewrite Hstop; split; [lia|]; split; [done|]; intros ->; lia|].
  destruct (walk r s k b Hr Ho) as (st & rec & r' & -> & Hw). rewrite bind_some. destruct Hw as [e r' He Hr' ->|s' b' rec r' Hr' Ho' Hlt|rec r' Hkn Hidx]; cbn [ok].
  - pose proof (chained_numbered base ps (bl_chain _ _ _ _ _ _ log) (bl_numbers _ _ _ _ _ _ log) _ _ He) as [Hn Hfit]. rewrite parse_serialize by done. pose proof (lookup_lt_Some _ _ _ He) as Hkl. cbn [left_to_read] in Hf.
    destruct (decide (le_log_index e <= base + Z.of_nat c)) as [Hold|Hnew].
    + apply (IH r' (At false) (Datatypes.S k) b c dk0 Hr' eq_refl); [lia|cbn; lia].
    + assert (k = c) as -> by lia. rewrite decide_False by (rewrite uwrap_id; [lia|unfold in_uint; lia]). change (match le_method_type e with Some kPut => dk0 | Some kDelete => match le_dimensions e with [] => dk0 | (idx, key) :: _ => <[combined_key key idx:=le_log_index e]> dk0 end | None => dk0 end) with (collect_one dk0 e).
      replace (le_log_index e) with (base + Z.of_nat (Datatypes.S c)) by lia.
      destruct (IH r' (At false) (Datatypes.S c) b (Datatypes.S c) (collect_one dk0 e) Hr' eq_refl) as (m & Hm & -> & Hall); [lia|cbn; lia|]. exists m. split; [lia|]. split.
      * f_equal. f_equal. rewrite (drop_S E e c He). replace (m - c)%nat with (Datatypes.S (m - Datatypes.S c)) by lia. done.
      * intros He0 Hsz. apply Hall; [done|]. assert (base.size (collect_one dk0 e) <= Datatypes.S (base.size dk0))%nat; [|lia].
        unfold collect_one. destruct (le_method_type e) as [[]|], (le_dimensions e) as [|[] ?]; try lia. rewrite map_size_insert. destruct (dk0 !! combined_key _ _); cbn; lia.
  - cbn [decide decide_rel]. rewrite decide_True by done. apply (IH r' s' k b' c dk0 Hr' Ho'); lia.
  - rewrite decide_False, decide_True by done. rewrite Hidx, bind_some, decide_False by lia. exists c. rewrite Hstop. split; [lia|]. split; [done|]. lia.
Qed.
End walk.

(** ** The entries of the binlog *)

Definition last_term_of (lt : Z) es : Z := foldl (fun l e => if is_delete e then l else default l (le_term e)) lt es.
Lemma last_term_cons lt e es : last_term_of lt (e :: es) = last_term_of (if is_delete e then lt else default lt (le_term e)) es.
Proof using. done. Qed.
Lemma make_walk fs0 f logs path W base ps coll : binlog fs0 logs path W base ps -> tidy fs0 path ps -> f ∉ (fun q => log_file path (pt_index q)) <$> ps ->
  base + Z.of_nat (length (all_entries ps)) < 2 ^ 64 - 1 -> 0 <= base -> Forall draftable (all_entries ps) -> (coll <= length (all_entries ps))%nat ->
  forall fuel r s k b c lt t d es, reading fs0 path ps r s k b -> onward s b -> (k <= c <= coll)%nat -> (left_to_read ps s k b < fuel)%nat -> drafting fs0 f d es -> counting d -> table_rep n t a ->
  Z.of_nat ((length es + (coll - c)) * (27 * S M)) < 2 ^ 62 -> total d + Z.of_nat (coll - c) < 2 ^ 62 ->
  let new := take (coll - c) (drop c (all_entries ps)) in
  exists t' d', MakeSnapshot_loop fuel logs dk [] clock (base + Z.of_nat coll) r (base + Z.of_nat c) lt t d = Some (false, base + Z.of_nat coll, last_term_of lt new, t', d') /\
    table_rep n t' a /\ drafting fs0 f d' (es ++ survivors_of new).
Proof using All.
  intros Hlog Htidy Hf Hbd Hst Hall Hcoll. induction fuel as [|fuel IH]; intros r s k b c lt t d es Hr Ho Hk Hfu Hdr Hcn Ht Hsz Htot; [lia|]. cbv zeta. cbn [MakeSnapshot_loop].
  case_decide as Hdone.
  { assert (c = coll) as -> by lia. rewrite Nat.sub_diag. exists t, d. split; [done|]. split; [done|]. cbn. by rewrite app_nil_r. }
  pose proof (drafting_same fs0 f d es path ps Hdr Hf) as Hsame.
  destruct (walk (dr_fs d) logs path W base ps (binlog_same _ _ _ _ _ _ _ Hsame Hlog) (tidy_same _ _ _ _ Hsame Htidy) r s k b (reading_same _ _ _ _ _ _ _ _ Hsame Hr) Ho) as (st & rec & r' & -> & Hw).
  assert (Hback : forall r s k b, reading (dr_fs d) path ps r s k b -> reading fs0 path ps r s k b).
  { intros. eapply reading_same; [|done]. destruct Hsame as [Hd Hs]. split; [done|]. intros q Hq. by rewrite Hs. }
  rewrite bind_some. destruct Hw as [e r' He Hr' ->|s' b' rec r' Hr' Ho' Hlt|rec r' Hkn Hidx]; cbn [ok].
  - pose proof (chained_numbered base ps (bl_chain _ _ _ _ _ _ Hlog) (bl_numbers _ _ _ _ _ _ Hlog) _ _ He) as [Hn Hfit]. rewrite parse_serialize by done. pose proof (lookup_lt_Some _ _ _ He) as Hkl. cbn [left_to_read] in Hfu.
    apply Hback in Hr'. destruct (decide (le_log_index e <= base + Z.of_nat c)) as [Hold|Hnew].
    + apply (IH r' (At false) (S k) b c lt t d es Hr' eq_refl); try done; [lia|cbn; lia].
    + assert (k = c) as -> by lia. rewrite decide_False by (rewrite uwrap_id; [lia|unfold in_uint; lia]). replace (le_log_index e) with (base + Z.of_nat (S c)) by lia.
      assert (Hsplit : take (coll - c) (drop c (all_entries ps)) = e :: take (coll - S c) (drop (S c) (all_entries ps))) by (rewrite (drop_S _ e c He); by replace (coll - c)%nat with (S (coll - S c)) by lia).
      rewrite Hsplit, last_term_cons. unfold survivors_of. cbn [omap list_omap]. fold (survivors_of (take (coll - S c) (drop (S c) (all_entries ps)))).
      assert (Hmul : forall x y : nat, (x <= y)%nat -> (x * (27 * S M) <= y * (27 * S M))%nat) by (intros; by apply Nat.mul_le_mono_r).
      destruct (is_delete e) eqn:Hdel.
      * unfold survivor at 1. rewrite Hdel. unfold is_delete in Hdel. destruct (le_method_type e) as [[]|]; try done.
        apply (IH r' (At false) (S c) b (S c) lt t d es Hr' eq_refl); try done; [lia|cbn; lia| |lia]. specialize (Hmul (length es + (coll - S c))%nat (length es + (coll - c))%nat ltac:(lia)). lia.
      * destruct (draft_entry_spec fs0 f d es e t Hdr Hcn Ht (Forall_lookup_1 _ _ _ _ Hall He) Hdel) as (t1 & d1 & Hde & Ht1 & Hdr1 & Hcn1 & Htot1).
        { specialize (Hmul (S (length es)) (length es + (coll - c))%nat ltac:(lia)). lia. } { lia. }
        unfold is_delete in Hdel. rewrite Hde. rewrite !bind_some.
        destruct (IH r' (At false) (S c) b (S c) (default lt (le_term e)) t1 d1 _ Hr' eq_refl ltac:(lia) ltac:(cbn; lia) Hdr1 Hcn1 Ht1) as (t' & d' & Hlp & Ht' & Hdr').
        { specialize (Hmul (length (es ++ option_list (survivor e)) + (coll - S c))%nat (length es + (coll - c))%nat). rewrite length_app in *. destruct (survivor e); cbn in *; lia. } { lia. }
        exists t', d'. split; [|split; [done|]].
        -- rewrite <- Hlp. by destruct (le_method_type e) as [[]|].
        -- rewrite <- app_assoc in Hdr'. by destruct (survivor e).
  - rewrite decide_True by done. apply (IH r' s' k b' c lt t d es (Hback _ _ _ _ Hr') Ho'); try done. lia.
  - lia.
Qed.
End make.
