(* ===== verification/SnapshotStore.v ===== *)
(** The snapshot directory: the manifest names a finished snapshot at all times,
    also when the making of a new one is interrupted. *)
From Stdlib Require Import String.
From S2P Require Import Prelude Slice LogFile LogWriter LogLayout LogReader LogRoundtrip LogThms LogLive Random Skiplist SkiplistInv.
From S2P Require Import SkiplistInsert SkiplistSplit SkiplistSpec StdMap Strings LogRoll LogGrow TableIndex Table MemTable Binlog BinlogWrite BinlogRecover.
From S2P Require Import TableLaws ReplicateNode Replicator ReplicaLog ReplicaSend Tablet Snapshot SnapshotTable SnapshotMake.

(** ** Names *)

Lemma squeeze_cons c p : squeeze (c :: p) = match p with d :: _ => if decide (c = 47 /\ d = 47) then squeeze p else c :: squeeze p | [] => [c] end.
Proof. by destruct p. Qed.
Lemma squeeze_head p : head (squeeze p) = head p.
Proof.
  induction p as [|c p IH]; [done|]. rewrite squeeze_cons. destruct p as [|d p]; [done|]. case_decide as Hd; [|done]. destruct Hd as [-> ->]. rewrite IH. done.
Qed.
(** A name behind a slash is kept. *)
Lemma squeeze_dir p name : 47 ∉ name -> squeeze (p ++ [47] ++ name) = squeeze (p ++ [47]) ++ name.
Proof.
  intros Hn. assert (Hname : forall s : bytes, 47 ∉ s -> squeeze s = s).
  { induction s as [|c s IH]; intros Hs; [done|]. apply not_elem_of_cons in Hs as [Hc Hs]. rewrite squeeze_cons, IH by done. destruct s; [done|]. by rewrite decide_False by (intros [? _]; congruence). }
  induction p as [|c p IH]; cbn [app].
  - rewrite squeeze_cons. destruct name as [|d name]; [done|]. apply not_elem_of_cons in Hn as [Hd Hn']. rewrite decide_False by (intros [_ ?]; congruence). rewrite Hname by (by apply not_elem_of_cons). done.
  - rewrite !squeeze_cons. cbn [app] in IH. destruct p as [|d p]; cbn [app] in *; case_decide; [by rewrite IH|by rewrite IH|by rewrite IH|by rewrite IH].
Qed.
(** The doubled slash of [RecoverFromSnapshot] *)
Lemma squeeze_slash p name : squeeze (p ++ [47] ++ [47] ++ name) = squeeze (p ++ [47] ++ name).
Proof.
  induction p as [|c p IH]; cbn [app] in *; [by rewrite squeeze_cons, decide_True|]. rewrite !(squeeze_cons c). destruct p as [|d p]; cbn [app] in *; case_decide; by rewrite IH.
Qed.

Section store.
Context `{BinlogFlags} `{Compressors} `{SnapshotFlags} `{EntryCodecLaws} `{ManifestCodecLaws} {T : Type} `{SnapshotLaws T}.
Implicit Types (fs : FileSystem) (logs : LogParts) (t : T) (a : table_abs T) (d : Draft) (es S : list LogEntry) (e : LogEntry) (sn : MemTableSnapshot) (name : bytes).

(** The directory ends in a slash. *)
Definition slashed sn : Prop := exists p, sn_snapshot_path sn = p ++ [47].
Lemma sn_file_inj sn n1 n2 : slashed sn -> 47 ∉ n1 -> 47 ∉ n2 -> sn_file sn n1 = sn_file sn n2 -> n1 = n2.
Proof using. intros (p & Hp) H1' H2'. unfold sn_file. rewrite Hp, <- !app_assoc, !squeeze_dir by done. apply app_inv_head. Qed.

(** The names of snapshots *)
Context (off : FLAGS_snapshot_compression = str "off").
Definition minute (now_time : bytes) : bytes := if decide (2 <= length now_time)%nat then take (length now_time - 2) now_time else now_time.
Definition sdb (m : bytes) : bytes := m ++ str ".sdb".
Lemma snapshot_name_sdb now_time : snapshot_name now_time = sdb (minute now_time).
Proof using off. unfold snapshot_name. rewrite off, (decide_True (P := str "off" = str "off")) by done. by rewrite app_nil_r. Qed.
(** The digits of a time *)
Definition dated (m : bytes) : Prop := Forall (fun c => 48 <= c <= 57) m.
Lemma dated_slash m : dated m -> 47 ∉ m.
Proof using. intros Hm Hin. unfold dated in Hm. rewrite Forall_forall in Hm. specialize (Hm 47 Hin). lia. Qed.
Lemma dated_bytes m : dated m -> bytesb m = true.
Proof using.
  intros Hm. unfold bytesb, dated in *. rewrite Forall_forall in Hm. apply forallb_forall. intros c Hc. apply list_elem_of_In in Hc. specialize (Hm c Hc). apply bool_decide_eq_true_2. lia.
Qed.
Lemma sdb_name m : dated m -> (47 ∉ sdb m) /\ (47 ∉ sdb m ++ str ".tmp") /\ sdb m <> MANIFEST /\ sdb m <> MANIFEST ++ str ".tmp" /\ sdb m ++ str ".tmp" <> MANIFEST ++ str ".tmp" /\ sdb m ++ str ".tmp" <> MANIFEST.
Proof using.
  intros Hm%dated_slash. assert (Hs : 47 ∉ sdb m) by (unfold sdb; rewrite not_elem_of_app; split; [done|]; vm_compute; intros Hx; repeat (apply elem_of_cons in Hx as [Hx|Hx]; [done|]); by apply elem_of_nil in Hx).
  assert (Hlast : last (sdb m) = Some 98) by (unfold sdb; by rewrite last_app).
  split; [done|]. split; [rewrite not_elem_of_app; split; [done|]; vm_compute; intros Hx; repeat (apply elem_of_cons in Hx as [Hx|Hx]; [done|]); by apply elem_of_nil in Hx|].
  split; [intros E; by rewrite E in Hlast|]. split; [intros E; by rewrite E in Hlast|]. split; intros E.
  - apply app_inv_tail in E. by rewrite E in Hlast.
  - apply (f_equal last) in E. rewrite last_app in E. done.
Qed.
Lemma sdb_inj m1 m2 : sdb m1 = sdb m2 -> m1 = m2.
Proof using. apply app_inv_tail. Qed.

(** ** What the directory holds *)

(** The snapshot at [o] with the entries [S], written in the minute [old]; or none *)
Inductive stored fs sn : Z -> list LogEntry -> option bytes -> Prop :=
  | stored_none : fs_files fs !! sn_file sn MANIFEST = None -> stored fs sn 0 [] None
  | stored_some o S m term : manifest_fits (MkManifest o (Some (sdb m)) (Z.of_nat (length S)) term) = true -> fs_denied fs (sn_file sn MANIFEST) = false ->
      fs_files fs !! sn_file sn MANIFEST = Some (PrintToString (MkManifest o (Some (sdb m)) (Z.of_nat (length S)) term)) -> dated m ->
      snapshot_file fs (sn_file sn (sdb m)) S -> stored fs sn o S (Some m).
(** No file of the directory makes an operation fail. *)
Definition undenied fs sn : Prop := forall name, fs_denied fs (sn_file sn name) = false.
Definition open_dir fs sn : Prop := forall name, fs_denied fs (sn_file sn name) = false /\ writable fs (sn_file sn name).
Definition uncompressed sn : Prop := forall m, dated m -> IsCompressed (sn_snapshot_path sn ++ sdb m) = false /\ IsCompressed (sn_snapshot_path sn ++ str "/" ++ sdb m) = false.

Lemma open_undenied fs sn : open_dir fs sn -> undenied fs sn.
Proof using. intros Ho name. apply Ho. Qed.
Lemma stored_manifest fs sn o S old : stored fs sn o S old -> undenied fs sn ->
  match old with
  | None => o = 0 /\ S = [] /\ GetLocalManifest fs (sn_file sn MANIFEST) = (1, no_manifest)
  | Some m => exists term, manifest_fits (MkManifest o (Some (sdb m)) (Z.of_nat (length S)) term) = true /\
      GetLocalManifest fs (sn_file sn MANIFEST) = (0, MkManifest o (Some (sdb m)) (Z.of_nat (length S)) term)
  end.
Proof using H5.
  intros [Hn|o' S' m term Hfi Hd Hm Hs Hf] Ho; unfold GetLocalManifest, fopen_read; rewrite (Ho MANIFEST); [by rewrite Hn|]. exists term. split; [done|]. by rewrite Hm, print_parse.
Qed.
(** Other files do not matter. *)
Lemma stored_frame fs fs' sn o S old : stored fs sn o S old -> fs_denied fs' = fs_denied fs -> fs_files fs' !! sn_file sn MANIFEST = fs_files fs !! sn_file sn MANIFEST ->
  (forall m, old = Some m -> fs_files fs' !! sn_file sn (sdb m) = fs_files fs !! sn_file sn (sdb m)) -> stored fs' sn o S old.
Proof using.
  intros [Hn|o' S' m term Hfi Hd Hm Hs (Hfit & Hden & D & lay & ends & tail & HD & Hh)] Hde Hma Hsn; [apply stored_none; by rewrite Hma|].
  eapply stored_some; [exact Hfi|by rewrite Hde|by rewrite Hma|done|]. split; [done|]. split; [by rewrite Hde|]. exists D, lay, ends, tail. by rewrite Hsn.
Qed.

Abbreviation from sn base := (Z.to_nat (sn_offset sn - base)).

(** ** Filling the new file *)

Lemma all_ready bad (ids : list (Z * IndexStatus)) : bad kReady = false -> Forall (fun x => x.2 = kReady) ids -> index_ids bad ids = [].
Proof using. intros Hb. unfold index_ids. induction 1 as [|[i s] ids Hs Hi IH]; [done|]. cbn in Hs. subst s. rewrite filter_cons, decide_False; [done|]. cbn. by rewrite Hb. Qed.

Lemma CollectDeletedKey_spec fs logs W base ps sn endo fuel : binlog fs logs (sn_log_path sn) W base ps -> tidy fs (sn_log_path sn) ps -> base + Z.of_nat (length (all_entries ps)) < 2 ^ 64 - 1 -> 0 <= base ->
  base <= sn_offset sn <= base + Z.of_nat (length (all_entries ps)) -> (length (all_entries ps) + length ps + 2 < fuel)%nat ->
  exists j, (from sn base <= j <= length (all_entries ps))%nat /\
    CollectDeletedKey fuel fs logs sn endo = Some (base + Z.of_nat j, set_sn_deleted (collect (take (j - from sn base) (drop (from sn base) (all_entries ps)))) sn) /\
    (endo = 0 -> Z.of_nat (length (all_entries ps)) < FLAGS_make_snapshot_max_deleted_keys -> j = length (all_entries ps)).
Proof using All.
  intros Hlog Htidy Hbd Hst Hoff Hf. unfold CollectDeletedKey. set (r := LogReader_SetOffset (sn_offset sn) (LogReader_new (sn_log_path sn) false)).
  assert (Hun : unopened (sn_log_path sn) r) by done. assert (Hc : sn_offset sn = base + Z.of_nat (from sn base)) by lia. destruct ps as [|q ps'] eqn:Hps.
  - cbn [all_entries mbind list_bind length] in Hoff |- *. exists 0%nat. replace (from sn base) with 0%nat in * by lia. split; [lia|]. split; [|done]. assert (Hstop : CollectDeletedKey_loop fuel fs logs endo r (sn_offset sn) ∅ = Some (base + Z.of_nat 0, ∅)); [|by rewrite Hstop].
    destruct fuel as [|fuel]; [lia|]. cbn [CollectDeletedKey_loop]. rewrite <- Hc. case_decide; [done|]. case_decide; [done|].
    rewrite (first_nothing fs logs _ W base r Hlog Hun), bind_some. cbn [ok]. rewrite decide_False, decide_True by done. by rewrite (GetEndLogIndex_nil logs (bl_logs _ _ _ _ _ _ Hlog)), bind_some.
  - rewrite <- Hps in *. destruct (first_record fs logs _ W base ps r Hlog Htidy ltac:(by rewrite Hps) Hun ltac:(cbn; lia)) as (r1 & k & b & Hsame & Hr1 & Hk). cbn in Hk.
    assert (Hb : (b < length ps)%nat) by (destruct Hr1 as (_ & _ & x & y & c & D & lay & ends & tail & rd & i & -> & -> & _); rewrite length_app; cbn [length]; lia).
    destruct (collect_walk fs logs _ W base ps Hlog Htidy Hbd Hst endo fuel r1 (At false) k b (from sn base) ∅ Hr1 eq_refl ltac:(lia) ltac:(cbn; lia)) as (j & Hj & Hlp & Hall).
    exists j. split; [done|]. split; [|by intros ? ?; apply Hall; [done|]; rewrite map_size_empty; lia].
    assert (Hl : CollectDeletedKey_loop fuel fs logs endo r (sn_offset sn) ∅ = CollectDeletedKey_loop fuel fs logs endo r1 (sn_offset sn) ∅) by (destruct fuel; [done|]; cbn [CollectDeletedKey_loop]; by rewrite Hsame).
    rewrite Hl, Hc at 1. rewrite Hlp, bind_some. done.
Qed.

Lemma stored_like fs sn sn' o S old : sn_snapshot_path sn' = sn_snapshot_path sn -> stored fs sn o S old -> stored fs sn' o S old.
Proof using.
  intros E Hst. assert (Hs : forall name, sn_file sn' name = sn_file sn name) by (intros; unfold sn_file; by rewrite E).
  destruct Hst as [Hn|o S m term Hfi Hd Hma Hm Hf]; [apply stored_none; by rewrite Hs|]. eapply stored_some; [exact Hfi|by rewrite Hs|rewrite Hs; exact Hma|done|by rewrite Hs].
Qed.

Context (M n : nat) (clock : Z -> Z) (a : table_abs T).
Abbreviation rows k := (Z.of_nat (k * (27 * Datatypes.S M))).

Lemma draft_start fs f : fs_files fs !! f = Some [] -> writable fs f -> exists wh, WriteHandle_append fs FLAGS_snapshot_compression f = Some wh /\ drafting M fs f (MkDraft fs wh 0 0 0) [].
Proof using off.
  intros Hf Hw. destruct (WriteHandle_new_spec fs f [] 0 Hf Hw) as (wh & Hnew & Hp & Hwk); [cbn; lia|]. exists wh. split; [unfold WriteHandle_append, WriteHandle_new in *; rewrite off, Hf in *; exact Hnew|].
  split; cbn [dr_fs dr_wh dr_count]; try done. exists [], [], []. split; [done|]. split; [done|]. split; [|cbn; lia]. split; [apply laid_nil|constructor|done| |unfold small; cbn; lia].
  change (@nil Z) with (take 0 (enc 0 [])). constructor; [constructor|done|by left].
Qed.
Lemma draft_end fs0 f d es : drafting M fs0 f d es -> fs_denied fs0 f = false -> rows (length es) + 13 < 2 ^ 62 ->
  exists fs' wh', wh_EndLog (dr_fs d) (dr_wh d) = Some (OK, fs', wh') /\ snapshot_file fs' f es /\ fs_denied fs' = fs_denied fs0 /\ fs_faults fs' = fs_faults fs0 /\
    forall g, g <> f -> fs_files fs' !! g = fs_files fs0 !! g.
Proof using.
  intros [Hp (D & lay & ends & HD & Hw & [Hl Hby HDe Ht Hsm] & Hlen) Hfit Hc (Hden & Hfl & Hoth)] Hd Hsz. rewrite app_nil_r in HDe. rewrite <- Hp in HD. destruct (wh_EndLog_spec _ _ D D Hw HD) as (h' & ->).
  rewrite Hp. eexists _, h'. split; [reflexivity|]. split; [|split; [done|split; [done|]]; intros g Hg; rewrite lookup_write_ne by done; by apply Hoth].
  split; [done|]. split; [cbn; by rewrite Hden|]. rewrite drop_ge, app_nil_r by (rewrite ?length_app; lia). set (z := enc (length D) _). exists (D ++ z), lay, ends, z. split; [apply lookup_write|].
  assert (Hz : (length z <= 13)%nat) by (unfold z; cbn [enc]; rewrite app_nil_r, length_app, length_replicate, length_phys; pose proof (pad_le (length D)); cbn; lia).
  split; [done|done|by rewrite HDe| |unfold small; rewrite length_app; lia]. rewrite <- HDe.
  pose proof (tail_closed (length D) [] 0 ltac:(constructor) ltac:(done)) as Hcl. change (take 0 _) with (@nil Z) in Hcl. by rewrite drop_nil, app_nil_r in Hcl.
Qed.

(** The old snapshot *)
Lemma TTLSnapshot_spec fuel fs0 f sn o S m term t d : fs_files (dr_fs d) !! sn_file sn (sdb m) = fs_files fs0 !! sn_file sn (sdb m) -> snapshot_file fs0 (sn_file sn (sdb m)) S -> uncompressed sn -> dated m ->
  drafting M fs0 f d [] -> dr_expired d = 0 -> dr_deleted d = 0 -> table_rep n t a -> Forall (fun e => draftable M e /\ is_delete e = false) S -> (length S < fuel)%nat -> rows (length S) < 2 ^ 62 ->
  exists t' d', TTLSnapshot fuel sn clock (MkManifest o (Some (sdb m)) (Z.of_nat (length S)) term) t d = Some (0, t', d') /\ table_rep n t' a /\
    drafting M fs0 f d' (survivors_of clock a (sn_deleted_keys sn) S) /\ counting d' /\ total d' = Z.of_nat (length S).
Proof using H H1 H3.
  intros Hfile (Hfit & Hden & D & lay & ends & tail & HD & Hh) Hun Hm Hdr Hx0 Hd0 Ht HS Hfu Hsz. pose proof (dg_count _ _ _ _ _ Hdr) as Hc. unfold TTLSnapshot. cbn [mf_name default from_option mf_count]. unfold id.
  change (squeeze (sn_snapshot_path sn ++ sdb m)) with (sn_file sn (sdb m)). unfold fopen_read. destruct (dg_other _ _ _ _ _ Hdr) as (Hde & _ & _). rewrite Hde, Hden, Hfile, HD.
  destruct (GetAllIndex_rep n t a Ht) as (ids & -> & Hids). rewrite bind_some. rewrite (all_ready _ ids) by done. destruct (Hun m Hm) as [-> _].
  assert (Hlen : Z.of_nat (length S) < 2 ^ 62) by (eapply Z.le_lt_trans; [|exact Hsz]; apply Nat2Z.inj_le; nia).
  assert (Htot0 : total d = 0) by (unfold total; rewrite Hc, Hx0, Hd0; done).
  destruct (TTLSnapshot_loop_spec M clock n a (sn_deleted_keys sn) fs0 f D S lay ends tail Hh HS fuel _ 0 t d [] (rat_open _ _ _ _ _ _ None false [] Hh) ltac:(lia) Hdr) as (t' & d' & Hlp & Ht' & Hdr' & Hcn & Htot);
    [by split; lia|done|cbn [length]; by rewrite Nat.sub_0_r|lia|].
  unfold open_reader in Hlp. rewrite Hlp, bind_some. cbn [andb]. exists t', d'. rewrite Nat.sub_0_r, Htot0 in Htot. split; [|split; [done|split; [exact Hdr'|split; [done|lia]]]].
  rewrite bool_decide_eq_true_2; [done|]. unfold total in Htot. rewrite uwrap_id; [lia|]. destruct Hcn. pose proof (dg_count _ _ _ _ _ Hdr'). unfold in_uint. lia.
Qed.

Definition new_entries (ps : list part) (from_ to_ : nat) : list LogEntry := take (to_ - from_) (drop from_ (all_entries ps)).
(** The binlog behind it *)
Lemma make_spec fuel fs0 f logs W base ps sn dk j lt t d es : binlog fs0 logs (sn_log_path sn) W base ps -> tidy fs0 (sn_log_path sn) ps -> f ∉ (fun q => log_file (sn_log_path sn) (pt_index q)) <$> ps ->
  base + Z.of_nat (length (all_entries ps)) < 2 ^ 64 - 1 -> 0 <= base -> Forall (draftable M) (all_entries ps) -> base <= sn_offset sn -> (from sn base <= j <= length (all_entries ps))%nat ->
  (length (all_entries ps) + length ps + 2 < fuel)%nat -> drafting M fs0 f d es -> counting d -> table_rep n t a ->
  rows (length es + (j - from sn base)) < 2 ^ 62 -> total d + Z.of_nat (j - from sn base) < 2 ^ 62 ->
  let new := new_entries ps (from sn base) j in
  exists t' d', MakeSnapshot_loop fuel logs dk [] clock (base + Z.of_nat j) (LogReader_SetOffset (sn_offset sn) (LogReader_new (sn_log_path sn) false)) (sn_offset sn) lt t d =
      Some (false, base + Z.of_nat j, last_term_of lt new, t', d') /\ table_rep n t' a /\ drafting M fs0 f d' (es ++ survivors_of clock a dk new).
Proof using H H1 H3.
  intros Hlog Htidy Hf Hbd Hst Hall Hoff Hj Hfu Hdr Hcn Ht Hsz Htot. set (r := LogReader_SetOffset _ _). cbv zeta. assert (Hun : unopened (sn_log_path sn) r) by done.
  assert (Hc : sn_offset sn = base + Z.of_nat (from sn base)) by lia. destruct ps as [|q ps'] eqn:Hps.
  - cbn [all_entries mbind list_bind length] in Hj. replace (from sn base) with 0%nat in * by lia. replace j with 0%nat by lia. exists t, d. split; [|split; [done|]; cbn; by rewrite app_nil_r].
    destruct fuel as [|fuel]; [lia|]. cbn [MakeSnapshot_loop]. by rewrite <- Hc, decide_True by lia.
  - rewrite <- Hps in *. pose proof (drafting_same M fs0 f d es _ ps Hdr Hf) as Hsame.
    destruct (first_record (dr_fs d) logs _ W base ps r (binlog_same _ _ _ _ _ _ _ Hsame Hlog) (tidy_same _ _ _ _ Hsame Htidy) ltac:(by rewrite Hps) Hun ltac:(cbn; lia)) as (r1 & k & b & Hread & Hr1 & Hk). cbn in Hk.
    assert (Hb : (b < length ps)%nat) by (destruct Hr1 as (_ & _ & x & y & c & D & lay & ends & tail & rd & i & -> & -> & _); rewrite length_app; cbn [length]; lia).
    assert (Hr0 : reading fs0 (sn_log_path sn) ps r1 (At false) k b) by (eapply reading_same; [|done]; destruct Hsame as [? Hs]; split; [done|]; intros; by rewrite Hs).
    destruct (make_walk M clock n a dk fs0 f logs _ W base ps j Hlog Htidy Hf Hbd Hst Hall ltac:(lia) fuel r1 (At false) k b (from sn base) lt t d es Hr0 eq_refl ltac:(lia) ltac:(cbn; lia) Hdr Hcn Ht Hsz Htot) as (t' & d' & Hlp & Ht' & Hdr').
    exists t', d'. split; [|done]. rewrite <- Hc in Hlp. unfold new_entries. rewrite <- Hlp. destruct fuel as [|fuel]; [lia|]. cbn [MakeSnapshot_loop]. by rewrite Hread.
Qed.

(** ** The partition on disk *)

(** The binlog [ps] from [base] on and the snapshot [S] at the offset of [sn] *)
Record on_disk fs logs sn W base ps S old : Prop := {
  od_slash : slashed sn;
  od_open : undenied fs sn;
  od_plain : uncompressed sn;
  od_stored : stored fs sn (sn_offset sn) S old;
  od_log : binlog fs logs (sn_log_path sn) W base ps;
  od_tidy : tidy fs (sn_log_path sn) ps;
  od_apart : forall name q, q ∈ ps -> sn_file sn name <> log_file (sn_log_path sn) (pt_index q);
  od_range : 0 <= base <= sn_offset sn /\ sn_offset sn <= base + Z.of_nat (length (all_entries ps)) < 2 ^ 64 - 1;
  od_entries : Forall (draftable M) (all_entries ps);
  od_snapshot : Forall (fun e => draftable M e /\ is_delete e = false) S;
  od_size : rows (length S + length (all_entries ps)) + 13 < 2 ^ 62
}.
(** The file system changes in one file. *)
Definition only fs fs' (f : bytes) : Prop := fs_denied fs' = fs_denied fs /\ fs_faults fs' = fs_faults fs /\ forall g, g <> f -> fs_files fs' !! g = fs_files fs !! g.
Definition enough_fuel (fuel : nat) (ps : list part) S : Prop := (length (all_entries ps) + length ps + 2 < fuel)%nat /\ (length S < fuel)%nat.
(** The new snapshot, with the entries up to number [j] of the log *)
Definition new_snapshot sn base ps S (j : nat) : list LogEntry :=
  let new := new_entries ps (from sn base) j in survivors_of clock a (collect new) S ++ survivors_of clock a (collect new) new.

Lemma omap_length {A B} (g : A -> option B) (l : list A) : (length (omap g l) <= length l)%nat.
Proof using. induction l as [|x l IH]; cbn [omap list_omap length]; [lia|]. destruct (g x); cbn [length]; unfold omap in *; lia. Qed.

Lemma manifest_term m : manifest_fits m = true -> 0 <= mf_term m < 2 ^ 64.
Proof using. unfold manifest_fits. rewrite !andb_true_iff. intros [_ Ht]. by apply bool_decide_eq_true in Ht. Qed.
Lemma last_term_range es : forall lt, 0 <= lt < 2 ^ 64 -> Forall (fun e => entry_fits e = true) es -> 0 <= last_term_of lt es < 2 ^ 64.
Proof using.
  induction es as [|e es IH]; intros lt Hl Hes; [done|]. apply Forall_cons in Hes as [He Hes]. rewrite last_term_cons. apply IH; [|done]. destruct (is_delete e); [done|]. unfold entry_fits in He. rewrite !andb_true_iff in He.
  destruct (le_term e) as [x|]; [|done]. destruct He as [[[[[[Hx _] _] _] _] _] _]. by apply bool_decide_eq_true in Hx.
Qed.

Lemma fill_spec fuel fs logs sn W base ps S old tmp endo t : on_disk fs logs sn W base ps S old -> enough_fuel fuel ps S -> table_rep n t a ->
  fs_files fs !! sn_file sn tmp = Some [] -> writable fs (sn_file sn tmp) ->
  exists j t' fs' ret mf lt, (from sn base <= j <= length (all_entries ps))%nat /\ 0 <= lt < 2 ^ 64 /\ GetLocalManifest fs (sn_file sn MANIFEST) = (ret, mf) /\ mf_name mf = sdb <$> old /\
    fill_snapshot fuel fs logs (sn_file sn tmp) clock endo sn t =
      Some (false, mf, Z.of_nat (length (new_snapshot sn base ps S j)), base + Z.of_nat j, lt, fs', set_sn_deleted (collect (new_entries ps (from sn base) j)) sn, t') /\
    table_rep n t' a /\ snapshot_file fs' (sn_file sn tmp) (new_snapshot sn base ps S j) /\ only fs fs' (sn_file sn tmp) /\
    (endo = 0 -> Z.of_nat (length (all_entries ps)) < FLAGS_make_snapshot_max_deleted_keys -> j = length (all_entries ps)).
Proof using All.
  intros [Hsl Hop Hpl Hst Hlog Htidy Hap (Hb0 & Hb1) Hent HS Hsz] [Hf1 Hf2] Ht Htmp Hwr. unfold fill_snapshot.
  destruct (CollectDeletedKey_spec fs logs W base ps sn endo fuel Hlog Htidy ltac:(lia) ltac:(lia) ltac:(lia) Hf1) as (j & Hj & -> & Hall). rewrite bind_some.
  set (new := new_entries ps (from sn base) j). change (take _ _) with new. set (sn1 := set_sn_deleted (collect new) sn).
  pose proof (Hop tmp) as Hden. destruct (draft_start fs (sn_file sn tmp) Htmp Hwr) as (wh & -> & Hdr). rewrite bind_some. change (sn_file sn1 MANIFEST) with (sn_file sn MANIFEST).
  assert (Hnotlog : sn_file sn tmp ∉ (fun q => log_file (sn_log_path sn) (pt_index q)) <$> ps) by (intros (q & Hq & Hin)%list_elem_of_fmap; by apply (Hap tmp q)).
  assert (Hmul : forall x y : nat, (x <= y)%nat -> rows x <= rows y) by (intros; apply Nat2Z.inj_le; by apply Nat.mul_le_mono_r).
  pose proof (stored_manifest fs sn _ S old Hst Hop) as Hmf.
  assert (Hold : exists ret mf t1 d1, GetLocalManifest fs (sn_file sn MANIFEST) = (ret, mf) /\ mf_name mf = sdb <$> old /\ 0 <= mf_term mf < 2 ^ 64 /\
    (if decide (ret = 0) then '(ret, t, d) ← TTLSnapshot fuel sn1 clock mf t (MkDraft fs wh 0 0 0); Some (bool_decide (ret < 0), t, d) else Some (bool_decide (ret < 0), t, MkDraft fs wh 0 0 0)) = Some (false, t1, d1) /\
    table_rep n t1 a /\ drafting M fs (sn_file sn tmp) d1 (survivors_of clock a (collect new) S) /\ counting d1 /\ total d1 = Z.of_nat (length S)).
  { destruct Hst as [Hn|o' S m term Hfi Hd Hm Hs Hsf].
    - destruct Hmf as (_ & _ & Hmf). exists 1, no_manifest, t, (MkDraft fs wh 0 0 0). rewrite decide_False by done. split_and!; try done.
    - destruct Hmf as (term' & Hfi' & Hmf). eexists 0, _. destruct (TTLSnapshot_spec fuel fs (sn_file sn tmp) sn1 o' S m term' t (MkDraft fs wh 0 0 0)) as (t1 & d1 & Htt & Hrest); try done.
      { specialize (Hmul (length S) (length S + length (all_entries ps))%nat ltac:(lia)). lia. }
      exists t1, d1. split; [exact Hmf|]. split; [done|]. split; [by eapply manifest_term|]. rewrite decide_True by done. by rewrite Htt. }
  destruct Hold as (ret & mf & t1 & d1 & -> & Hmn & Hterm & -> & Ht1 & Hdr1 & Hcn1 & Htot1). rewrite bind_some.
  destruct (GetAllIndex_rep n t1 a Ht1) as (ids & -> & Hids). rewrite bind_some. rewrite (all_ready _ ids) by done.
  pose proof (omap_length (survivor clock a (collect new)) S) as HlS. assert (Hls : (length (survivors_of clock a (collect new) S) <= length S)%nat) by exact HlS.
  destruct (make_spec fuel fs (sn_file sn tmp) logs W base ps sn (collect new) j (mf_term mf) t1 d1 _ Hlog Htidy Hnotlog ltac:(lia) ltac:(lia) Hent ltac:(lia) Hj Hf1 Hdr1 Hcn1 Ht1) as (t2 & d2 & Hlp & Ht2 & Hdr2).
  { specialize (Hmul (length (survivors_of clock a (collect new) S) + (j - from sn base))%nat (length S + length (all_entries ps))%nat ltac:(lia)). lia. }
  { assert (Z.of_nat (length S + length (all_entries ps)) <= rows (length S + length (all_entries ps))) by (apply Nat2Z.inj_le; nia). lia. }
  change (LogReader_SetOffset (sn_offset sn1) (LogReader_new (sn_log_path sn1) false)) with (LogReader_SetOffset (sn_offset sn) (LogReader_new (sn_log_path sn) false)). change (sn_offset sn1) with (sn_offset sn).
  change (sn_deleted_keys sn1) with (collect new). rewrite Hlp, bind_some. fold new in Hdr2 |- *.
  assert (Hnl : (length new <= length (all_entries ps))%nat) by (unfold new, new_entries; rewrite length_take, length_drop; lia). pose proof (omap_length (survivor clock a (collect new)) new) as Hln.
  destruct (draft_end fs (sn_file sn tmp) d2 _ Hdr2 Hden) as (fs' & wh' & -> & Hsf & Hden' & Hfl' & Hoth).
  { rewrite length_app. specialize (Hmul (length (survivors_of clock a (collect new) S) + length (survivors_of clock a (collect new) new))%nat (length S + length (all_entries ps))%nat). unfold survivors_of in *. lia. }
  rewrite bind_some. eexists j, t2, fs', ret, mf, _. split; [done|]. split; [apply last_term_range; [exact Hterm|]; apply Forall_take, Forall_drop; eapply Forall_impl; [exact Hent|]; by intros ? []|]. split; [done|]. split; [done|]. split; [rewrite (dg_count _ _ _ _ _ Hdr2); reflexivity|]. split; [done|]. split; [exact Hsf|]. split; [by split_and!|done].
Qed.

(** ** Publishing *)

Abbreviation tmp_of name := (name ++ str ".tmp").
(** The file system when the process ends somewhere in [publish]: [k] bytes of the
    new manifest have been written. *)
Inductive cut_short fs sn mf name count o term : FileSystem -> Prop :=
  | cut_before : cut_short fs sn mf name count o term fs
  | cut_named fs1 : rename fs (sn_file sn (tmp_of name)) (sn_file sn name) = Some fs1 -> cut_short fs sn mf name count o term fs1
  | cut_writing fs1 fs2 k : rename fs (sn_file sn (tmp_of name)) (sn_file sn name) = Some fs1 -> fopen_write fs1 (sn_file sn (tmp_of MANIFEST)) = Some fs2 ->
      cut_short fs sn mf name count o term (write_file (sn_file sn (tmp_of MANIFEST)) (take k (c_str (PrintToString (MkManifest o (Some name) count term)))) fs2)
  | cut_manifest fs1 fs2 : rename fs (sn_file sn (tmp_of name)) (sn_file sn name) = Some fs1 -> GenManifest fs1 sn name count o term = (0, fs2) -> cut_short fs sn mf name count o term fs2
  | cut_after ret fs1 sn1 : publish fs sn mf name count o term = (ret, fs1, sn1) -> cut_short fs sn mf name count o term fs1.

Lemma c_str_text s : 0 ∉ s -> c_str s = s.
Proof using. induction s as [|c s IH]; intros Hs; [done|]. apply not_elem_of_cons in Hs as [Hc Hs]. cbn [c_str]. rewrite decide_False by congruence. by rewrite IH. Qed.
Lemma rename_spec fs f g D : fs_denied fs g = false -> fs_files fs !! f = Some D -> f <> g ->
  exists fs', rename fs f g = Some fs' /\ fs_denied fs' = fs_denied fs /\ fs_faults fs' = fs_faults fs /\ fs_files fs' !! g = Some D /\ fs_files fs' !! f = None /\
    forall h, h <> f -> h <> g -> fs_files fs' !! h = fs_files fs !! h.
Proof using.
  intros Hd Hf Hne. unfold rename. rewrite Hd, Hf, bind_some. eexists. split; [done|]. split; [done|]. split; [done|]. split; [apply lookup_write|]. split.
  - rewrite lookup_write_ne by done. apply lookup_delete_eq.
  - intros h H1' H2'. rewrite lookup_write_ne by done. by apply lookup_delete_ne.
Qed.
Lemma manifest_names : (47 ∉ MANIFEST) /\ (47 ∉ tmp_of MANIFEST).
Proof using. split; by apply (bool_decide_unpack _), I. Qed.
Lemma GenManifest_spec fs sn name count o term : slashed sn -> open_dir fs sn -> manifest_fits (MkManifest o (Some name) count term) = true ->
  exists fs', GenManifest fs sn name count o term = (0, fs') /\ fs_denied fs' = fs_denied fs /\ fs_faults fs' = fs_faults fs /\
    fs_files fs' !! sn_file sn MANIFEST = Some (PrintToString (MkManifest o (Some name) count term)) /\
    forall h, h <> sn_file sn MANIFEST -> h <> sn_file sn (tmp_of MANIFEST) -> fs_files fs' !! h = fs_files fs !! h.
Proof using H5.
  intros Hsl Hop Hfi. unfold GenManifest. set (f := sn_file sn (tmp_of MANIFEST)). destruct (Hop (tmp_of MANIFEST)) as [Hd Hw]. fold f in Hd, Hw. unfold fopen_write. rewrite Hd.
  set (fs1 := write_file f _ fs). set (text := c_str _). assert (Htext : text = PrintToString (MkManifest o (Some name) count term)) by (by apply c_str_text, print_text).
  assert (Hio : match fs_faults fs1 f with Some n0 :: _ => (true, take n0 text) | None :: Some _ :: _ => (true, text) | _ => (false, text) end = (false, text)).
  { change (fs_faults fs1 f) with (fs_faults fs f). unfold writable in Hw. destruct (fs_faults fs f) as [|x [|y l]]; [done|by inversion Hw; subst|]. inversion Hw as [|? ? -> Hw']; subst. by inversion Hw'; subst. }
  rewrite Hio. destruct (rename_spec (write_file f text fs1) f (sn_file sn MANIFEST) text) as (fs' & -> & Hde & Hfl & Hma & _ & Hoth); [apply (Hop MANIFEST)|apply lookup_write| |].
  { unfold f. intros E. destruct manifest_names as [? ?]. by apply sn_file_inj in E. }
  exists fs'. split; [done|]. split; [done|]. split; [done|]. split; [by rewrite Hma, Htext|]. intros h H1' H2'. rewrite Hoth by done. unfold fs1. by rewrite !lookup_write_ne by done.
Qed.

Lemma snapshot_moved fs fs' f g S : snapshot_file fs f S -> fs_files fs' !! g = fs_files fs !! f -> fs_denied fs' g = false -> snapshot_file fs' g S.
Proof using. intros (Hfit & _ & D & lay & ends & tail & HD & Hh) Hg Hd. split; [done|]. split; [done|]. exists D, lay, ends, tail. by rewrite Hg. Qed.
(** The files outside the directory *)
Definition outside fs fs' sn : Prop := fs_denied fs' = fs_denied fs /\ fs_faults fs' = fs_faults fs /\ forall h, (forall name, h <> sn_file sn name) -> fs_files fs' !! h = fs_files fs !! h.

Lemma publish_spec fs sn o S old m S' o' term mf : slashed sn -> open_dir fs sn -> stored fs sn o S old -> snapshot_file fs (sn_file sn (tmp_of (sdb m))) S' -> dated m -> old <> Some m -> mf_name mf = sdb <$> old ->
  manifest_fits (MkManifest o' (Some (sdb m)) (Z.of_nat (length S')) term) = true ->
  (exists fs', publish fs sn mf (sdb m) (Z.of_nat (length S')) o' term = (0, fs', set_sn_offset o' sn) /\ stored fs' sn o' S' (Some m) /\ outside fs fs' sn) /\
  forall fs1, cut_short fs sn mf (sdb m) (Z.of_nat (length S')) o' term fs1 -> (stored fs1 sn o S old \/ stored fs1 sn o' S' (Some m)) /\ outside fs fs1 sn.
Proof using All.
  intros Hsl Hop Hst Hsf Hm Hold Hmn Hfi. destruct (sdb_name m Hm) as (Hs1 & Hs2 & Hn1 & Hn2 & Hn3 & Hn4). destruct manifest_names as [Hp1 Hp2]. set (tmp := sn_file sn (tmp_of (sdb m))) in *. set (full := sn_file sn (sdb m)).
  assert (Hne : forall n1 n2, 47 ∉ n1 -> 47 ∉ n2 -> n1 <> n2 -> sn_file sn n1 <> sn_file sn n2) by (intros n1 n2 ? ? Hd E; by apply sn_file_inj in E).
  assert (Htf : sdb m <> tmp_of (sdb m)) by (intros E; apply (f_equal length) in E; rewrite length_app in E; cbn in E; lia).
  pose proof Hsf as (_ & _ & D & _ & _ & _ & HD & _).
  destruct (rename_spec fs tmp full D (proj1 (Hop (sdb m))) HD ltac:(by apply Hne)) as (fs1 & Hren & Hde1 & Hfl1 & Hfu1 & Htm1 & Hot1).
  assert (Hop1 : open_dir fs1 sn) by (intros name; unfold writable; rewrite Hde1, Hfl1; apply Hop).
  destruct (GenManifest_spec fs1 sn (sdb m) (Z.of_nat (length S')) o' term Hsl Hop1 Hfi) as (fs2 & Hgen & Hde2 & Hfl2 & Hma2 & Hot2).
  assert (Hout1 : outside fs fs1 sn) by (split; [done|]; split; [done|]; intros h Hh; apply Hot1; apply Hh).
  assert (Hout2 : outside fs fs2 sn) by (split; [by rewrite Hde2|]; split; [by rewrite Hfl2|]; intros h Hh; rewrite Hot2 by apply Hh; apply Hot1; apply Hh).
  assert (Hstill : forall fs', fs_denied fs' = fs_denied fs -> (forall h, h <> tmp -> h <> full -> h <> sn_file sn (tmp_of MANIFEST) -> fs_files fs' !! h = fs_files fs !! h) -> stored fs' sn o S old).
  { intros fs' Hd Hsame. destruct Hst as [Hn|o S m' term' Hfi' Hdm Hma Hm' Hs]; [apply stored_none|eapply stored_some; [exact Hfi'|by rewrite Hd| |done|eapply snapshot_moved; [exact Hs| |rewrite Hd; apply Hop]]].
    - rewrite Hsame; [done|by apply Hne..].
    - rewrite Hsame; [exact Hma|by apply Hne..].
    - destruct (sdb_name m' Hm') as (Hs1' & _ & _ & Hn2' & _). apply Hsame; apply Hne; try done; [|intros E; apply sdb_inj in E; congruence].
      intros E. apply (f_equal last) in E. unfold sdb in E. rewrite !last_app in E. done. }
  assert (Hnew : forall fs', fs_denied fs' = fs_denied fs -> fs_files fs' !! full = Some D -> fs_files fs' !! sn_file sn MANIFEST = fs_files fs2 !! sn_file sn MANIFEST -> stored fs' sn o' S' (Some m)).
  { intros fs' Hd Hf Hma. eapply stored_some; [exact Hfi|rewrite Hd; apply Hop|by rewrite Hma, Hma2|done|]. eapply snapshot_moved; [exact Hsf|exact (eq_trans Hf (eq_sym HD))|rewrite Hd; apply Hop]. }
  assert (Hf2 : fs_files fs2 !! full = Some D) by (rewrite Hot2; [done|by apply Hne..]).
  assert (Hpub : exists fs', publish fs sn mf (sdb m) (Z.of_nat (length S')) o' term = (0, fs', set_sn_offset o' sn) /\ stored fs' sn o' S' (Some m) /\ outside fs fs' sn).
  { unfold publish. fold tmp full. rewrite Hren, Hgen, decide_True by done. rewrite Hmn. destruct old as [m'|]; cbn [fmap option_fmap option_map].
    - rewrite decide_False by (intros E; apply sdb_inj in E; congruence). eexists. split; [done|]. split.
      + assert (Hm' : dated m') by (by inversion Hst). destruct (sdb_name m' Hm') as (Hs1' & _ & Hn1' & _). apply Hnew; [by cbn; rewrite Hde2| |]; unfold unlink, set_files; cbn [fs_files].
        * rewrite lookup_delete_ne; [done|]. apply Hne; try done. intros E. apply sdb_inj in E. congruence.
        * rewrite lookup_delete_ne; [done|]. by apply Hne.
      + destruct Hout2 as (? & ? & Hof). split; [done|]. split; [done|]. intros h Hh. unfold unlink, set_files. cbn [fs_files]. rewrite lookup_delete_ne; [by apply Hof|]. intros E. by apply (Hh (sdb m')).
    - eexists. split; [done|]. split; [|done]. apply Hnew; [by rewrite Hde2|done|done]. }
  split; [exact Hpub|]. intros fsx Hcut. inversion Hcut as [|fs1' Hr|fs1' fs2' k Hr Hw|fs1' fs2' Hr Hg|ret fs1' sn1 Hp]; subst.
  - split; [by left|done].
  - fold tmp full in Hr. rewrite Hren in Hr. injection Hr as <-. split; [left; apply Hstill; [done|]; intros; by apply Hot1|done].
  - fold tmp full in Hr. rewrite Hren in Hr. injection Hr as <-. unfold fopen_write in Hw. destruct (Hop1 (tmp_of MANIFEST)) as [Hdt _]. rewrite Hdt in Hw. injection Hw as <-. split.
    + left. apply Hstill; [done|]. intros h ? ? ?. rewrite !lookup_write_ne by done. by apply Hot1.
    + destruct Hout1 as (? & ? & Hof). split; [done|]. split; [done|]. intros h Hh. rewrite !lookup_write_ne by (intros E; by apply (Hh (tmp_of MANIFEST))). by apply Hof.
  - fold tmp full in Hr. rewrite Hren in Hr. injection Hr as <-. rewrite Hgen in Hg. injection Hg as <-. split; [right; apply Hnew; [by rewrite Hde2|done|done]|done].
  - destruct Hpub as (fs' & Hpub & Hs & Ho). rewrite Hpub in Hp. injection Hp as <- <- <-. split; [by right|done].
Qed.

(** ** Making a snapshot *)

Lemma on_disk_only fs fs' logs sn W base ps S old m : on_disk fs logs sn W base ps S old -> dated m -> only fs fs' (sn_file sn (tmp_of (sdb m))) -> on_disk fs' logs sn W base ps S old.
Proof using.
  intros [Hsl Hop Hpl Hst Hlog Htidy Hap Hr He HS Hsz] Hm (Hd & Hf & Hoth). destruct (sdb_name m Hm) as (Hs1 & Hs2 & _ & _ & _ & Hn4). destruct manifest_names as [Hp1 _].
  assert (Hsame : same_log fs fs' (sn_log_path sn) ps) by (split; [done|]; intros q Hq; apply Hoth; intros E; by apply (Hap (tmp_of (sdb m)) q)).
  split; try done; [intros name; rewrite Hd; apply Hop| |by eapply binlog_same|by eapply tidy_same].
  eapply stored_frame; [exact Hst|done| |].
  - apply Hoth. intros E. by apply sn_file_inj in E.
  - intros m' ->. apply Hoth. inversion Hst as [|? ? ? ? _ _ _ Hm' _]; subst. destruct (sdb_name m' Hm') as (Hs1' & _). intros E. apply sn_file_inj in E; [|done..]. apply (f_equal last) in E. unfold sdb in E. rewrite !last_app in E. done.
Qed.
Lemma on_disk_making fs logs sn W base ps S old b : on_disk fs logs sn W base ps S old -> on_disk fs logs (set_sn_making b sn) W base ps S old.
Proof using. intros [Hsl Hop Hpl Hst Hlog Htidy Hap Hr He HS Hsz]. split; try done. by apply (stored_like _ sn). Qed.

Lemma new_manifest_fits fs logs sn W base ps S old j m lt : on_disk fs logs sn W base ps S old -> (j <= length (all_entries ps))%nat -> dated m -> 0 <= lt < 2 ^ 64 ->
  manifest_fits (MkManifest (base + Z.of_nat j) (Some (sdb m)) (Z.of_nat (length (new_snapshot sn base ps S j))) lt) = true.
Proof using.
  intros Hod Hj Hm%dated_bytes Hlt. pose proof (od_range _ _ _ _ _ _ _ _ Hod) as [Hr1 Hr2]. pose proof (od_size _ _ _ _ _ _ _ _ Hod) as Hsz.
  assert (Hlen : (length (new_snapshot sn base ps S j) <= length S + length (all_entries ps))%nat).
  { unfold new_snapshot. set (new := new_entries _ _ _). assert (Hn : (length new <= length (all_entries ps))%nat) by (unfold new, new_entries; rewrite length_take, length_drop; lia).
    pose proof (omap_length (survivor clock a (collect new)) S). pose proof (omap_length (survivor clock a (collect new)) new). rewrite length_app. unfold survivors_of. lia. }
  assert (Z.of_nat (length S + length (all_entries ps)) <= rows (length S + length (all_entries ps))) by (apply Nat2Z.inj_le; nia).
  unfold manifest_fits, in_uintb. cbn [mf_offset mf_name mf_count mf_term default from_option]. unfold id. rewrite !andb_true_iff. split_and!; [apply bool_decide_eq_true; lia| |apply bool_decide_eq_true; lia|by apply bool_decide_eq_true].
  unfold sdb, bytesb in *. rewrite forallb_app, Hm. by vm_compute.
Qed.

(** The file system when the process ends somewhere in [MakeSnapshot] *)
Inductive make_cut fuel fs logs (now_time : bytes) endo sn t : FileSystem -> Prop :=
  | cut_filling fs1 : only fs fs1 (sn_file sn (tmp_of (snapshot_name now_time))) -> make_cut fuel fs logs now_time endo sn t fs1
  | cut_publishing fs0 mf count o term fs1 sn1 t1 fs2 : fopen_append fs (sn_file sn (tmp_of (snapshot_name now_time))) = Some fs0 ->
      fill_snapshot fuel fs0 logs (sn_file sn (tmp_of (snapshot_name now_time))) clock endo (set_sn_making true sn) t = Some (false, mf, count, o, term, fs1, sn1, t1) ->
      cut_short fs1 sn1 mf (snapshot_name now_time) count o term fs2 -> make_cut fuel fs logs now_time endo sn t fs2.

(** The new file is opened and filled. *)
Lemma start_fill fuel fs logs now_time endo sn t W base ps S old : on_disk fs logs sn W base ps S old -> enough_fuel fuel ps S -> table_rep n t a ->
  let tmp := sn_file sn (tmp_of (snapshot_name now_time)) in let sn1 := set_sn_making true sn in
  dated (minute now_time) -> fs_files fs !! tmp = None -> writable fs tmp ->
  exists j t' fs0 fs1 mf lt, let S' := new_snapshot sn base ps S j in
    (from sn base <= j <= length (all_entries ps))%nat /\ (endo = 0 -> Z.of_nat (length (all_entries ps)) < FLAGS_make_snapshot_max_deleted_keys -> j = length (all_entries ps)) /\
    fopen_append fs tmp = Some fs0 /\
    fill_snapshot fuel fs0 logs tmp clock endo sn1 t = Some (false, mf, Z.of_nat (length S'), base + Z.of_nat j, lt, fs1, set_sn_deleted (collect (new_entries ps (from sn base) j)) sn1, t') /\
    table_rep n t' a /\ mf_name mf = sdb <$> old /\ snapshot_file fs1 tmp S' /\ only fs fs1 tmp /\ on_disk fs1 logs sn1 W base ps S old /\
    manifest_fits (MkManifest (base + Z.of_nat j) (Some (sdb (minute now_time))) (Z.of_nat (length S')) lt) = true.
Proof using All.
  intros Hod Hfu Ht. rewrite snapshot_name_sdb. set (m := minute now_time). intros tmp sn1 Hm Htmp Hwr.
  assert (Hopen : fopen_append fs tmp = Some (write_file tmp [] fs)).
  { unfold fopen_append, tmp. rewrite (od_open _ _ _ _ _ _ _ _ Hod (tmp_of (sdb m))). fold tmp. by rewrite Htmp. }
  set (fs0 := write_file tmp [] fs) in *. assert (Hon0 : only fs fs0 tmp) by (split; [done|]; split; [done|]; intros g Hg; unfold fs0; by rewrite lookup_write_ne).
  pose proof (on_disk_making _ _ _ _ _ _ _ _ true (on_disk_only _ _ _ _ _ _ _ _ _ _ Hod Hm Hon0)) as Hod0. fold sn1 in Hod0.
  destruct (fill_spec fuel fs0 logs sn1 W base ps S old (tmp_of (sdb m)) endo t Hod0 Hfu Ht (lookup_write _ _ _) Hwr) as (j & t' & fs1 & ret & mf & lt & Hj & Hlt & _ & Hmn & Hfill & Ht' & Hsf & Hon1 & Hall).
  pose proof (on_disk_only _ _ _ _ _ _ _ _ _ _ Hod0 Hm Hon1) as Hod1. exists j, t', fs0, fs1, mf, lt. cbv zeta. split; [done|]. split; [done|]. split; [done|]. split; [exact Hfill|]. split; [done|]. split; [done|].
  split; [exact Hsf|]. split; [|split; [done|exact (new_manifest_fits fs0 logs sn1 W base ps S old j m lt Hod0 (proj2 Hj) Hm Hlt)]].
  destruct Hon0 as (? & ? & Ho0), Hon1 as (Hd1 & Hf1 & Ho1). split; [by rewrite Hd1|]. split; [by rewrite Hf1|]. intros g Hg. rewrite Ho1 by exact Hg. by apply Ho0.
Qed.

Lemma MakeSnapshot_spec fuel fs logs now_time endo sn t W base ps S old : on_disk fs logs sn W base ps S old -> open_dir fs sn -> enough_fuel fuel ps S -> table_rep n t a ->
  sn_making_snapshot sn = false -> ~ (0 < endo <= sn_offset sn) -> dated (minute now_time) -> old <> Some (minute now_time) -> fs_files fs !! sn_file sn (tmp_of (snapshot_name now_time)) = None ->
  exists j t' fs', (from sn base <= j <= length (all_entries ps))%nat /\ (endo = 0 -> Z.of_nat (length (all_entries ps)) < FLAGS_make_snapshot_max_deleted_keys -> j = length (all_entries ps)) /\
    MakeSnapshot fuel fs logs now_time clock endo sn t =
      Some (0, Some (base + Z.of_nat j), fs', MkSnapshot (base + Z.of_nat j) false (sn_snapshot_path sn) (sn_log_path sn) ∅, t') /\
    table_rep n t' a /\ stored fs' sn (base + Z.of_nat j) (new_snapshot sn base ps S j) (Some (minute now_time)) /\ outside fs fs' sn /\
    forall fs1, make_cut fuel fs logs now_time endo sn t fs1 ->
      (stored fs1 sn (sn_offset sn) S old \/ stored fs1 sn (base + Z.of_nat j) (new_snapshot sn base ps S j) (Some (minute now_time))) /\ outside fs fs1 sn.
Proof using All.
  intros Hod Hop Hfu Ht Hmk Hend Hm Hold Htmp. unfold MakeSnapshot. rewrite Hmk, (decide_False (P := 0 < endo /\ endo <= sn_offset sn)) by done.
  destruct (start_fill fuel fs logs now_time endo sn t W base ps S old Hod Hfu Ht Hm Htmp (proj2 (Hop _))) as (j & t' & fs0 & fs1 & mf & lt & Hj & Hall & Hopen & Hfill & Ht' & Hmn & Hsf & Hon & Hod1 & Hfi).
  cbv zeta. set (sn1 := set_sn_making true sn) in *. change (sn_file sn1 (tmp_of (snapshot_name now_time))) with (sn_file sn (tmp_of (snapshot_name now_time))). rewrite Hopen, Hfill, bind_some.
  rewrite snapshot_name_sdb in *. set (m := minute now_time) in *. set (S' := new_snapshot sn base ps S j) in *. set (sn2 := set_sn_deleted _ sn1) in *.
  assert (Hop1 : open_dir fs1 sn2) by (intros name; destruct Hon as (Hd & Hf & _); unfold writable; rewrite Hd, Hf; apply Hop).
  destruct (publish_spec fs1 sn2 (sn_offset sn) S old m S' (base + Z.of_nat j) lt mf) as [(fs2 & Hpub & Hst2 & Hout2) Hcut]; try done; try apply Hod1; [destruct Hod1 as [_ _ _ Hst _ _ _ _ _ _ _]; by apply (stored_like _ sn1)|].
  rewrite Hpub. cbv zeta. rewrite decide_True by done. exists j, t', fs2. split; [done|]. split; [done|]. split; [done|]. split; [done|].
  assert (Hback : forall fs' o0 S0 old0, stored fs' sn2 o0 S0 old0 -> stored fs' sn o0 S0 old0) by (intros ? ? ? ? Hx; by apply (stored_like _ sn2)).
  assert (Hout : forall fs', outside fs1 fs' sn2 -> outside fs fs' sn).
  { intros fs' (Hd & Hf & Ho). destruct Hon as (Hd1 & Hf1 & Ho1). split; [by rewrite Hd, Hd1|]. split; [by rewrite Hf, Hf1|]. intros h Hh. rewrite Ho by apply Hh. apply Ho1. apply Hh. }
  split; [by apply Hback|]. split; [by apply Hout|]. intros fsx Hx. inversion Hx as [fs' Honx|fs0' mf' count o term fs1' sn1' t1' fs2' Hopx Hfix Hc]; subst.
  - rewrite snapshot_name_sdb in Honx. fold m in Honx. split; [left; by destruct (on_disk_only _ _ _ _ _ _ _ _ _ _ Hod Hm Honx)|]. destruct Honx as (? & ? & Ho). split; [done|]. split; [done|]. intros h Hh. apply Ho. apply Hh.
  - rewrite snapshot_name_sdb in Hopx, Hfix, Hc. fold m in Hopx, Hfix, Hc. rewrite Hopen in Hopx. injection Hopx as <-. fold sn1 in Hfix. rewrite Hfill in Hfix. injection Hfix as <- <- <- <- <- <- <-.
    destruct (Hcut _ Hc) as [[Hs|Hs] Ho]; (split; [|by apply Hout]); [left|right]; by apply Hback.
Qed.

(** ** A name that is in use *)

(** The new file takes its name, also from another file. *)
Lemma rename_over fs sn m S' : slashed sn -> undenied fs sn -> dated m -> snapshot_file fs (sn_file sn (tmp_of (sdb m))) S' ->
  exists fs', rename fs (sn_file sn (tmp_of (sdb m))) (sn_file sn (sdb m)) = Some fs' /\ snapshot_file fs' (sn_file sn (sdb m)) S' /\ outside fs fs' sn /\
    fs_files fs' !! sn_file sn MANIFEST = fs_files fs !! sn_file sn MANIFEST.
Proof using.
  intros Hsl Hun Hm Hsf. destruct (sdb_name m Hm) as (Hs1 & Hs2 & Hn1 & _ & _ & Hn4). destruct manifest_names as [Hp1 _]. pose proof Hsf as (_ & _ & D & _ & _ & _ & HD & _).
  destruct (rename_spec fs (sn_file sn (tmp_of (sdb m))) (sn_file sn (sdb m)) D (Hun _) HD) as (fs' & Hren & Hd & Hf & Hfull & _ & Hoth).
  { intros E. apply sn_file_inj in E; [|done..]. apply (f_equal length) in E. rewrite length_app in E. cbn in E. lia. }
  exists fs'. split; [done|]. split; [eapply snapshot_moved; [exact Hsf|by rewrite Hfull|rewrite Hd; apply Hun]|]. split; [split; [done|]; split; [done|]; intros h Hh; apply Hoth; apply Hh|].
  apply Hoth; intros E; apply sn_file_inj in E; congruence.
Qed.

(** The manifest cannot be written: the file that was just named is removed. *)
Lemma publish_faulty fs sn mf m S' o' term k rest : slashed sn -> undenied fs sn -> dated m -> snapshot_file fs (sn_file sn (tmp_of (sdb m))) S' ->
  fs_faults fs (sn_file sn (tmp_of MANIFEST)) = Some k :: rest ->
  exists fs', publish fs sn mf (sdb m) (Z.of_nat (length S')) o' term = (-1, fs', sn) /\ outside fs fs' sn /\
    fs_files fs' !! sn_file sn MANIFEST = fs_files fs !! sn_file sn MANIFEST /\ fs_files fs' !! sn_file sn (sdb m) = None.
Proof using.
  intros Hsl Hun Hm Hsf Hft. destruct (rename_over fs sn m S' Hsl Hun Hm Hsf) as (fs1 & Hren & _ & (Hd & Hf & Ho) & Hma). unfold publish. rewrite Hren. unfold GenManifest, fopen_write. rewrite Hd, (Hun (tmp_of MANIFEST)).
  cbn [write_file set_files fs_faults]. rewrite Hf, Hft. rewrite decide_False by done. destruct (sdb_name m Hm) as (Hs1 & _ & Hn1 & Hn2 & _). destruct manifest_names as [Hp1 Hp2].
  assert (Htm : sn_file sn (tmp_of MANIFEST) <> sn_file sn MANIFEST) by (intros E; by apply sn_file_inj in E).
  assert (Hsm : sn_file sn (sdb m) <> sn_file sn MANIFEST) by (intros E; apply sn_file_inj in E; congruence).
  eexists. split; [reflexivity|]. unfold outside, unlink, write_file, set_files. cbn [fs_files fs_denied fs_faults]. split; [split; [done|]; split; [done|]|].
  - intros h Hh. rewrite !lookup_delete_ne, !lookup_insert_ne by (by intros E; eapply Hh). by apply Ho.
  - split; [|by rewrite lookup_delete_eq]. by rewrite !lookup_delete_ne, !lookup_insert_ne.
Qed.

(** ** The history *)

Context (a0 : table_abs T) (fresh : table_wf a0).
(** What the log has held since the table was created, [hist], is on disk: the
    directory holds its snapshot without the entries [X], and the binlog [ps] the
    entries behind [base], which is not behind the snapshot. *)
Record recorded fs logs sn W base ps X hist old : Prop := {
  rc_slash : slashed sn;
  rc_open : open_dir fs sn;
  rc_plain : uncompressed sn;
  rc_stored : stored fs sn (sn_offset sn) (snap X (take (Z.to_nat (sn_offset sn)) hist)) old;
  rc_log : binlog fs logs (sn_log_path sn) W base ps;
  rc_closed : forall ps1 q ps2, ps = ps1 ++ q :: ps2 -> ps2 <> [] -> pt_closed q = true;
  rc_apart : forall name k, sn_file sn name <> log_file (sn_log_path sn) k;
  rc_range : 0 <= base <= sn_offset sn /\ sn_offset sn <= Z.of_nat (length hist) < 2 ^ 64 - 1;
  rc_hist : all_entries ps = drop (Z.to_nat base) hist;
  rc_numbers : numbered 0 hist;
  rc_entries : Forall (fun e => draftable M e /\ loggable a0 e) hist;
  rc_size : rows (2 * length hist) + 13 < 2 ^ 62;
  rc_expired : forall x, x ∈ X -> x <= sn_offset sn
}.

Lemma draftable_trim dead e e' : draftable M e -> loggable a0 e -> is_delete e = false -> trim dead e = Some e' -> draftable M e' /\ is_delete e' = false.
Proof using fresh.
  intros [Hf Ho Hs] Hl Hd Ht. destruct (loggable_trim a0 e e' dead fresh Hl Hd Ht) as (Hl' & Hd' & _). destruct (trim_sublist _ _ _ Ht) as [He Hsub].
  split; [|done]. split; [rewrite He; by apply fits_sublist|apply Hl'|]. intros dims Hdims. rewrite He. change (set_dimensions dims (set_dimensions (le_dimensions e') e)) with (set_dimensions dims e). apply Hs. by etransitivity.
Qed.
Lemma snap_draftable X es : Forall (fun e => draftable M e /\ loggable a0 e) es -> Forall (fun e => draftable M e /\ is_delete e = false) (snap X es).
Proof using fresh.
  induction 1 as [|e es [Hd Hl] Hes IH]; [constructor|]. cbn [snap]. apply Forall_app. split; [|done]. destruct (is_delete e) eqn:Hde; [constructor|]. case_decide; [constructor|].
  destruct (trim (deleted_in es) e) as [e'|] eqn:Ht; constructor; [|constructor]. by eapply draftable_trim.
Qed.
Lemma snap_length X es : (length (snap X es) <= length es)%nat.
Proof using. pose proof (sublist_length _ _ (snap_indices X es)) as Hl. by rewrite !length_fmap in Hl. Qed.
Lemma rows_le (x y : nat) : (x <= y)%nat -> rows x <= rows y.
Proof using. intros Hx. apply Nat2Z.inj_le. by apply Nat.mul_le_mono_r. Qed.

Lemma recorded_on_disk fs logs sn W base ps X hist old : recorded fs logs sn W base ps X hist old -> tidy fs (sn_log_path sn) ps -> on_disk fs logs sn W base ps (snap X (take (Z.to_nat (sn_offset sn)) hist)) old.
Proof using fresh.
  intros [Hsl Hop Hpl Hst Hlog Hclo Hap [Hr1 Hr2] Hh Hn He Hsz Hx] Htidy. assert (Hlen : length (all_entries ps) = (length hist - Z.to_nat base)%nat) by (by rewrite Hh, length_drop).
  split; try done; [by apply open_undenied|rewrite Hlen; lia| | |].
  - rewrite Hh. apply Forall_drop. eapply Forall_impl; [exact He|]. by intros ? [].
  - apply snap_draftable. by apply Forall_take.
  - pose proof (snap_length X (take (Z.to_nat (sn_offset sn)) hist)) as Hl. rewrite length_take in Hl. pose proof (rows_le (length (snap X (take (Z.to_nat (sn_offset sn)) hist)) + length (all_entries ps)) (2 * length hist) ltac:(lia)). lia.
Qed.

(** A put that was tested and found expired *)
Definition found_expired (es : list LogEntry) (x : Z) : Prop := exists e, e ∈ es /\ is_delete e = false /\ le_log_index e = x /\ expires clock a e = true.
Lemma new_snapshot_snap fs logs sn W base ps X hist old j : recorded fs logs sn W base ps X hist old -> (from sn base <= j <= length (all_entries ps))%nat ->
  let o := Z.to_nat (sn_offset sn) in let o' := (Z.to_nat base + j)%nat in
  exists X', new_snapshot sn base ps (snap X (take o hist)) j = snap X' (take o' hist) /\ X ⊆ X' /\ (forall x, x ∈ X' -> x <= Z.of_nat o') /\
    forall x, x ∈ X' -> x ∈ X \/ found_expired (snap X (take o hist) ++ take (o' - o) (drop o hist)) x.
Proof using All.
  intros Hrc Hj o o'. pose proof Hrc as [_ _ _ _ _ _ _ [Hr1 Hr2] Hh Hn He _ Hx]. assert (Hlen : length (all_entries ps) = (length hist - Z.to_nat base)%nat) by (by rewrite Hh, length_drop).
  set (S := snap X (take o hist)). set (new := new_entries ps (from sn base) j). assert (Hnew : new = take (o' - o) (drop o hist)).
  { unfold new, new_entries. rewrite Hh, drop_drop. replace (Z.to_nat base + from sn base)%nat with o by lia. f_equal. lia. }
  assert (Hall : take o hist ++ new = take o' hist) by (rewrite Hnew, take_take_drop; f_equal; lia).
  assert (Hnn : numbered (Z.of_nat o) new).
  { intros k e Hk. rewrite Hnew in Hk. apply lookup_take_Some in Hk as [Hk _]. rewrite lookup_drop in Hk. destruct (Hn _ _ Hk). split; [lia|done]. }
  assert (Hno : numbered 0 (take o hist)) by (intros k e [Hk _]%lookup_take_Some; by apply Hn).
  assert (Hnd : NoDup (le_log_index <$> S ++ new)).
  { eapply sublist_NoDup; [apply (numbered_nodup 0 (take o' hist)); intros k e [Hk _]%lookup_take_Some; by apply Hn|]. rewrite <- Hall, !fmap_app. apply sublist_app; [apply snap_indices|done]. }
  set (X2 := list_to_set (le_log_index <$> filter (fun e => is_delete e = false /\ expires clock a e = true) (S ++ new)) : gset Z).
  assert (HX2 : forall x, x ∈ X2 -> found_expired (S ++ new) x).
  { intros x. unfold X2. rewrite elem_of_list_to_set, list_elem_of_fmap. intros (e & -> & [[Hde Hex] Hin]%list_elem_of_filter). by exists e. }
  assert (Hidx : forall e, e ∈ S ++ new -> le_log_index e <= Z.of_nat o').
  { intros e Hin. assert (Hl : le_log_index e ∈ le_log_index <$> take o' hist).
    { rewrite <- Hall, fmap_app, elem_of_app. apply elem_of_app in Hin as [Hin|Hin]; [left; eapply sublist_subseteq; [apply snap_indices|]|right]; by apply list_elem_of_fmap_2. }
    apply list_elem_of_fmap in Hl as (e' & -> & (k & Hk)%list_elem_of_lookup). apply lookup_take_Some in Hk as [Hk ?]. destruct (Hn _ _ Hk). lia. }
  exists (X ∪ X2). split; [|split; [set_solver|split]].
  - unfold new_snapshot. fold new. unfold survivors_of, survivor. rewrite (sifted_test (collect new) (expires clock a) (S ++ new) S Hnd), (sifted_test (collect new) (expires clock a) (S ++ new) new Hnd) by (intros; apply elem_of_app; auto). fold X2.
    rewrite (sifted_old (Z.of_nat o) new X2 S Hnn), (sifted_new (Z.of_nat o) new X2 Hnn); [|]. { unfold S. rewrite snap_app, Hall; [done|]. apply Forall_forall. intros e (k & Hk)%list_elem_of_lookup Hin. apply Hx in Hin. destruct (Hnn _ _ Hk). lia. }
    pose proof (snap_draftable X (take o hist) (Forall_take _ _ _ He)) as HS. apply Forall_forall. intros e Hin. rewrite Forall_forall in HS. destruct (HS e Hin) as [[Hf _ _] Hd]. split; [|done].
    assert (Hl : le_log_index e ∈ le_log_index <$> take o hist) by (eapply sublist_subseteq; [apply (snap_indices X)|]; by apply list_elem_of_fmap_2).
    apply list_elem_of_fmap in Hl as (e' & -> & (k & Hk)%list_elem_of_lookup). destruct (Hno _ _ Hk). apply lookup_lt_Some in Hk. rewrite length_take in Hk. lia.
  - intros x [Hin|Hin]%elem_of_union; [apply Hx in Hin; lia|]. destruct (HX2 x Hin) as (e & He' & _ & <- & _). by apply Hidx.
  - intros x [Hin|Hin]%elem_of_union; [by left|right]. rewrite <- Hnew. by apply HX2.
Qed.

(** Another snapshot in the directory *)
Lemma recorded_moved fs fs' logs sn W base ps X hist old X' o' old' : recorded fs logs sn W base ps X hist old -> outside fs fs' sn -> 0 <= base <= o' -> o' <= Z.of_nat (length hist) ->
  (forall x, x ∈ X' -> x <= o') -> stored fs' sn o' (snap X' (take (Z.to_nat o') hist)) old' ->
  forall mk dk, recorded fs' logs (MkSnapshot o' mk (sn_snapshot_path sn) (sn_log_path sn) dk) W base ps X' hist old'.
Proof using.
  intros [Hsl Hop Hpl Hst Hlog Htidy Hap [Hr1 Hr2] Hh Hn He Hsz Hx] (Hd & Hf & Ho) Hb Ho' HX Hs mk dk.
  assert (Hsame : same_log fs fs' (sn_log_path sn) ps) by (split; [done|]; intros q Hq; apply Ho; intros name E; by apply (Hap name (pt_index q))).
  split; cbn [sn_offset sn_log_path]; try done; [intros name; unfold writable; rewrite Hd, Hf; apply (Hop name)|by apply (stored_like _ sn)|by eapply binlog_same|lia].
Qed.

Lemma MakeSnapshot_recorded fuel fs logs now_time endo sn t W base ps X hist old : recorded fs logs sn W base ps X hist old -> tidy fs (sn_log_path sn) ps -> (length hist + length ps + 2 < fuel)%nat -> table_rep n t a ->
  sn_making_snapshot sn = false -> ~ (0 < endo <= sn_offset sn) -> dated (minute now_time) -> old <> Some (minute now_time) -> fs_files fs !! sn_file sn (tmp_of (snapshot_name now_time)) = None ->
  exists o' X' t' fs', let sn' := MkSnapshot o' false (sn_snapshot_path sn) (sn_log_path sn) ∅ in
    MakeSnapshot fuel fs logs now_time clock endo sn t = Some (0, Some o', fs', sn', t') /\ sn_offset sn <= o' <= Z.of_nat (length hist) /\
    (endo = 0 -> Z.of_nat (length hist) < FLAGS_make_snapshot_max_deleted_keys -> o' = Z.of_nat (length hist)) /\
    table_rep n t' a /\ recorded fs' logs sn' W base ps X' hist (Some (minute now_time)) /\ X ⊆ X' /\
    (forall x, x ∈ X' -> x ∈ X \/ found_expired (snap X (take (Z.to_nat (sn_offset sn)) hist) ++ take (Z.to_nat o' - Z.to_nat (sn_offset sn)) (drop (Z.to_nat (sn_offset sn)) hist)) x) /\
    outside fs fs' sn /\ forall fs1, make_cut fuel fs logs now_time endo sn t fs1 -> outside fs fs1 sn /\
      (recorded fs1 logs sn W base ps X hist old \/ recorded fs1 logs sn' W base ps X' hist (Some (minute now_time))).
Proof using All.
  intros Hrc Htidy Hfu Ht Hmk Hend Hm Hold Htmp. pose proof (recorded_on_disk _ _ _ _ _ _ _ _ _ Hrc Htidy) as Hod. pose proof (rc_range _ _ _ _ _ _ _ _ _ Hrc) as [Hr1 Hr2].
  assert (Hlen : length (all_entries ps) = (length hist - Z.to_nat base)%nat) by (by rewrite (rc_hist _ _ _ _ _ _ _ _ _ Hrc), length_drop).
  pose proof (snap_length X (take (Z.to_nat (sn_offset sn)) hist)) as Hsl. rewrite length_take in Hsl.
  destruct (MakeSnapshot_spec fuel fs logs now_time endo sn t W base ps _ old Hod (rc_open _ _ _ _ _ _ _ _ _ Hrc) ltac:(split; lia) Ht Hmk Hend Hm Hold Htmp) as (j & t' & fs' & Hj & Hall & Hmake & Ht' & Hst & Hout & Hcut).
  destruct (new_snapshot_snap fs logs sn W base ps X hist old j Hrc Hj) as (X' & Hsnap & Hsub & Hle & Hexp). rewrite Hsnap in *.
  replace (Z.to_nat base + j)%nat with (Z.to_nat (base + Z.of_nat j)) in * by lia. set (o' := base + Z.of_nat j) in *. assert (Eo : o' = base + Z.of_nat j) by done.
  assert (HX' : forall x, x ∈ X' -> x <= o') by (intros x Hin; specialize (Hle x Hin); lia).
  exists o', X', t', fs'. cbv zeta. split; [exact Hmake|]. split; [lia|]. split; [intros He0 Hmx; specialize (Hall He0 ltac:(lia)); lia|]. split; [done|].
  split; [apply (recorded_moved _ _ _ _ _ _ _ _ _ _ _ _ _ Hrc Hout); [lia|lia|done|done]|]. split; [done|]. split; [done|].
  split; [done|]. intros fs1 Hc. destruct (Hcut fs1 Hc) as [[Hs|Hs] Ho]; (split; [done|]); [left|right]; [|apply (recorded_moved _ _ _ _ _ _ _ _ _ _ _ _ _ Hrc Ho); [lia|lia|done|done]].
  pose proof (recorded_moved fs fs1 logs sn W base ps X hist old X (sn_offset sn) old Hrc Ho ltac:(lia) ltac:(lia) (rc_expired _ _ _ _ _ _ _ _ _ Hrc) Hs (sn_making_snapshot sn) (sn_deleted_keys sn)) as Hx. by destruct sn.
Qed.
End store.
