(* ===== verification/ReplicaFollow.v ===== *)
(** The follower's side of replication: [AppendEntries] adds exactly the entries
    it does not have yet to its log, and applies them to its table. *)
From Stdlib Require Import String.
From S2P Require Import Prelude Slice LogFile LogWriter LogLayout LogReader LogRoundtrip LogThms LogLive Random Skiplist SkiplistInv.
From S2P Require Import SkiplistInsert SkiplistSplit SkiplistSpec StdMap Strings LogRoll LogGrow Table MemTable Binlog BinlogWrite BinlogRecover.
From S2P Require Import TableLaws ReplicateNode Replicator ReplicaLog.

Section follow.
Context `{BinlogFlags} `{Compressors} `{EntryCodecLaws} {T : Type} `{TableLaws T}.
Implicit Types (fs : FileSystem) (p : LogReplicator T) (ps : list part) (a : table_abs T).

(** ** Applying an entry *)
Definition applies a (e : LogEntry) : Prop :=
  match le_method_type e with
  | Some kDelete => le_dimensions e <> []
  | _ => (table_put a e).1 = true
  end.
Fixpoint all_apply a (es : list LogEntry) : Prop :=
  match es with
  | [] => True
  | e :: es' => applies a e /\ all_apply (abs_apply a e) es'
  end.
Lemma all_apply_app a es es' : all_apply a (es ++ es') <-> all_apply a es /\ all_apply (foldl abs_apply a es) es'.
Proof. revert a; induction es as [|e es IH]; intros a; cbn [all_apply app foldl]; [tauto|]. rewrite IH. tauto. Qed.

Lemma ApplyEntryToTable_rep n p a e : table_rep (S n) (lp_table p) a -> entry_ok e -> applies a e ->
  exists t, ApplyEntryToTable p e = Some (true, set_lp_table t p) /\ table_rep n t (abs_apply a e).
Proof.
  unfold entry_ok, applies, ApplyEntryToTable, abs_apply. intros Hr He Ha. destruct (le_method_type e) as [[]|].
  - destruct (Put_rep _ _ _ _ Hr He) as (t & -> & Hr'). rewrite Ha, bind_some. by exists t.
  - destruct (le_dimensions e) as [|[idx key] dims]; [done|]. destruct (Delete_rep _ _ _ key idx Hr He) as (t & -> & Hr'). rewrite bind_some. by exists t.
  - destruct (Put_rep _ _ _ _ Hr He) as (t & -> & Hr'). rewrite Ha, bind_some. by exists t.
Qed.

(** ** A follower

    Its log holds the entries [bf + 1, ..., m] of the history [hist], its table is
    their replay on [a0]. *)
Record follows fs p (hist : list LogEntry) (bf m : nat) a0 (room W : nat) ps ends : Prop := {
  fo_replica : replica fs p W (Z.of_nat bf) ps ends;
  fo_range : (bf <= m <= length hist)%nat;
  fo_entries : all_entries ps = drop bf (take m hist);
  fo_table : table_rep room (lp_table p) (foldl abs_apply a0 (all_entries ps))
}.
Lemma follows_offset fs p hist bf m a0 room W ps ends : follows fs p hist bf m a0 room W ps ends -> lp_log_offset p = Z.of_nat m.
Proof. intros [Hr Hm He _]. rewrite (rp_offset _ _ _ _ _ _ Hr), He, length_drop, length_take. lia. Qed.
Lemma follows_more fs p hist es bf m a0 room W ps ends : follows fs p hist bf m a0 room W ps ends -> follows fs p (hist ++ es) bf m a0 room W ps ends.
Proof. intros [Hr Hm He Ht]. split; try done; [rewrite length_app; lia|]. by rewrite take_app_le by lia. Qed.

Lemma replica_table fs p t W base ps ends : replica fs p W base ps ends -> replica fs (set_lp_table t p) W base ps ends.
Proof. by intros []. Qed.
Lemma advanced_table o t p : set_lp_offset o (set_lp_table t p) = set_lp_table t (advanced o p).
Proof. done. Qed.

(** The history is numbered from 1 on and its entries can be applied. *)
Record history (M : nat) (hist : list LogEntry) (bf : nat) a0 : Prop := {
  hi_numbered : numbered 0 hist;
  hi_ok : Forall entry_ok hist;
  hi_apply : all_apply a0 (drop bf hist);
  hi_size : Forall (fun e => (length (SerializeToString e) <= M)%nat) hist
}.

Lemma history_apply M hist bf a0 m e : history M hist bf a0 -> (bf <= m)%nat -> hist !! m = Some e -> applies (foldl abs_apply a0 (drop bf (take m hist))) e.
Proof.
  intros Hh Hm He. pose proof (hi_apply _ _ _ _ Hh) as Ha. rewrite <- (take_drop_middle hist m e He), drop_app_le in Ha.
  - apply all_apply_app in Ha as [_ [Ha _]]. exact Ha.
  - rewrite length_take. apply lookup_lt_Some in He. lia.
Qed.

(** A larger bound on the sizes *)
Lemma part_data_le fs path W W' q D lay ends tail : part_data fs path W q D lay ends tail -> (W <= W')%nat -> part_data fs path W' q D lay ends tail.
Proof. intros [] Hle. split; try done; lia. Qed.
Lemma replica_le fs p W W' base ps ends : replica fs p W base ps ends -> (W <= W')%nat -> Z.of_nat W' + 13 < 2 ^ 62 -> replica fs p W' base ps ends.
Proof.
  intros [[? ? ? Hf ? ? ?] ? ? ? ? ? Hwh] Hle HW. split; try done.
  - split; try done. eapply Forall_impl; [exact Hf|]. intros q (D & lay & ends0 & tail & Hd). exists D, lay, ends0, tail. by eapply part_data_le.
  - destruct (lp_wh p) as [wh|]; [|done]. destruct Hwh as (a & q & ? & ? & (D & lay & Hd & ?) & ?). exists a, q. split_and!; try done. exists D, lay. split; [by eapply part_data_le|done].
Qed.

(** One new entry *)
Lemma follow_entry M fs p hist bf m a0 room W ps ends e wh : follows fs p hist bf m a0 (S room) W ps ends -> history M hist bf a0 -> hist !! m = Some e -> lp_wh p = Some wh ->
  Z.of_nat (W + 27 * S M) + 13 < 2 ^ 62 ->
  exists fs' wh' t ps' ends', let p1 := set_lp_wh (Some wh') p in write_entry fs p e = Some (OK, fs', p1) /\ ApplyEntryToTable p1 e = Some (true, set_lp_table t p1) /\
    follows fs' (set_lp_offset (le_log_index e) (set_lp_table t p1)) hist bf (S m) a0 room (W + 27 * S M) ps' ends' /\ fs_denied fs' = fs_denied fs.
Proof.
  intros Hfo Hh He Hwh HW. pose proof (follows_offset _ _ _ _ _ _ _ _ _ _ Hfo) as Hoff. destruct Hfo as [Hr Hm Hes Ht].
  destruct (hi_numbered _ _ _ _ Hh m e He) as [Hei Hfit]. pose proof (Forall_lookup_1 _ _ _ _ (hi_size _ _ _ _ Hh) He) as Hsz. cbv beta in Hsz.
  assert (Hwt : (weight e <= 27 * S M)%nat) by (unfold weight; lia).
  destruct (write_entry_spec fs p W _ ps ends wh e Hr Hwh ltac:(lia) Hfit ltac:(lia)) as (fs' & wh' & ps' & Hwr & Hext & Hfr & _ & Hr').
  assert (Hes' : all_entries ps' = drop bf (take (S m) hist)).
  { rewrite (extends_entries _ _ _ Hext), Hes, (take_S_r _ _ _ He), drop_app_le; [done|]. rewrite length_take. apply lookup_lt_Some in He. lia. }
  destruct (ApplyEntryToTable_rep room (set_lp_wh (Some wh') p) (foldl abs_apply a0 (all_entries ps)) e Ht (Forall_lookup_1 _ _ _ _ (hi_ok _ _ _ _ Hh) He)) as (t & Hap & Ht').
  { rewrite Hes. eapply history_apply; [done|lia|done]. }
  eexists fs', wh', t, ps', _. cbv zeta. split; [done|]. split; [done|]. split; [|apply Hfr]. apply lookup_lt_Some in He. split.
  - rewrite advanced_table. apply replica_table. eapply replica_le; [|apply Nat.add_le_mono_l, Hwt|done]. rewrite Hoff in Hr'. replace (le_log_index e) with (Z.of_nat m + 1) by lia. exact Hr'.
  - lia.
  - exact Hes'.
  - rewrite (extends_entries _ _ _ Hext), foldl_app. exact Ht'.
Qed.

Lemma follows_le fs p hist bf m a0 room room' W W' ps ends : follows fs p hist bf m a0 room W ps ends -> (room' <= room)%nat -> (W <= W')%nat -> Z.of_nat W' + 13 < 2 ^ 62 ->
  follows fs p hist bf m a0 room' W' ps ends.
Proof. intros [] Hr HW Hx. split; try done; [by eapply replica_le|by eapply table_rep_le]. Qed.

(** The loop: entries up to [last] are passed over. *)
Lemma append_loop_spec M hist bf a0 room last : history M hist bf a0 -> forall es j fs p m W ps ends rs wh,
  es = take (length es) (drop j hist) -> (j + length es <= length hist)%nat -> (j <= m)%nat -> ((j < m)%nat -> m = last) -> (last <= m)%nat ->
  let m' := (m `max` (j + length es))%nat in
  follows fs p hist bf m a0 (m' - m + room) W ps ends -> lp_wh p = Some wh -> Z.of_nat (W + (m' - m) * (27 * S M)) + 13 < 2 ^ 62 ->
  exists rs' fs' p' ps' ends', append_loop fs p (Z.of_nat last) es rs = Some (true, rs', fs', p') /\
    follows fs' p' hist bf m' a0 room (W + (m' - m) * (27 * S M)) ps' ends' /\ lp_binlog_index p' = lp_binlog_index p /\ fs_denied fs' = fs_denied fs.
Proof.
  intros Hh. induction es as [|e es IH]; intros j fs p m W ps ends rs wh Hes Hlen Hj Hjm Hlast; cbn [append_loop length] in *.
  { rewrite Nat.add_0_r, Nat.max_l, Nat.sub_diag by lia. intros Hfo Hwh HW. exists rs, fs, p, ps, ends. split; [done|]. split; [|done]. by rewrite Nat.add_0_r. }
  assert (He : hist !! j = Some e).
  { destruct (lookup_lt_is_Some_2 hist j ltac:(lia)) as [x Hx]. rewrite (drop_S _ _ _ Hx) in Hes. cbn [take] in Hes. injection Hes as -> _. done. }
  assert (Hes1 : es = take (length es) (drop (S j) hist)) by (rewrite (drop_S _ _ _ He) in Hes; cbn [take] in Hes; by injection Hes as Hes).
  destruct (hi_numbered _ _ _ _ Hh j e He) as [Hei _]. rewrite Nat.add_succ_r, <- Nat.add_succ_l in Hlen |- *. set (m' := (m `max` (S j + length es))%nat). intros Hfo Hwh HW. case_decide as Hle.
  - by apply (IH (S j) fs p m W ps ends rs wh Hes1 Hlen ltac:(lia) ltac:(lia) Hlast).
  - assert (j = m) as -> by lia. assert (Hm' : (m' - m = S (length es))%nat) by (unfold m'; lia). rewrite Hm' in Hfo, HW |- *.
    destruct (follow_entry M fs p hist bf m a0 (length es + room) W ps ends e wh Hfo Hh He Hwh ltac:(lia)) as (fs1 & wh1 & t & ps1 & ends1 & -> & Hap & Hfo1 & Hd1).
    rewrite bind_some. change (ok OK) with true. cbn [negb]. rewrite Hap, bind_some. cbn [negb]. assert (Hmm : (S m `max` (S m + length es) = m')%nat) by (unfold m'; lia).
    specialize (IH (S m) fs1 (set_lp_offset (le_log_index e) (set_lp_table t (set_lp_wh (Some wh1) p))) (S m) (W + 27 * S M)%nat ps1 ends1 (le_log_index e) wh1 Hes1 Hlen (le_n _) ltac:(lia) ltac:(lia)). cbv zeta in IH. rewrite Hmm in IH.
    replace (m' - S m)%nat with (length es) in IH by lia. destruct (IH Hfo1 ltac:(done) ltac:(lia)) as (rs' & fs' & p' & ps' & ends' & Hloop & Hfo' & Hi & Hd).
    exists rs', fs', p', ps', ends'. split; [exact Hloop|]. split; [|split; [by rewrite Hi|by rewrite Hd]]. eapply follows_le; [exact Hfo'|lia|lia|lia].
Qed.

(** ** The requests *)

(** A leader of the current term is heard. *)
Definition heard p (term : Z) : Prop := FLAGS_zk_cluster = [] \/ lp_follower p = true \/ lp_term p <= term.
Lemma heard_check p term : heard p term -> negb (lp_follower p) && bool_decide (FLAGS_zk_cluster <> []) && bool_decide (term < lp_term p) = false.
Proof.
  intros [Hz|[Hf|Ht]]; [rewrite (bool_decide_eq_false_2 (FLAGS_zk_cluster <> [])) by (by rewrite Hz; intros Hx)|rewrite Hf|rewrite (bool_decide_eq_false_2 (term < lp_term p)) by lia]; by destruct (lp_follower p), (bool_decide _).
Qed.

(** What a request keeps of the rest of the replicator *)
Record steady p p' : Prop := {
  sd_path : lp_log_path p' = lp_log_path p;
  sd_follower : lp_follower p' = lp_follower p;
  sd_term : lp_term p' = lp_term p;
  sd_index : lp_binlog_index p' <= lp_binlog_index p + 1
}.

Definition config p : bytes * bool * Z := (lp_log_path p, lp_follower p, lp_term p).
Lemma write_entry_config fs p e st fs' p' : write_entry fs p e = Some (st, fs', p') -> config p' = config p.
Proof.
  unfold write_entry. destruct (lp_wh p) as [wh|]; [|done]. rewrite bind_some. destruct (wh_Write _ _ _) as [[[? ?] ?]|]; [|done]. rewrite bind_some. by intros [= _ _ <-].
Qed.
Lemma ApplyEntryToTable_config p e b p' : ApplyEntryToTable p e = Some (b, p') -> config p' = config p.
Proof.
  unfold ApplyEntryToTable. destruct (le_method_type e) as [[]|].
  - destruct (tbl_Put _ _) as [[? ?]|]; [|done]. rewrite bind_some. by intros [= _ <-].
  - destruct (le_dimensions e) as [|[] ?]; [by intros [= _ <-]|]. destruct (tbl_Delete _ _ _) as [[? ?]|]; [|done]. rewrite bind_some. by intros [= _ <-].
  - destruct (tbl_Put _ _) as [[? ?]|]; [|done]. rewrite bind_some. by intros [= _ <-].
Qed.
Lemma append_loop_config last es : forall fs p rs b rs' fs' p', append_loop fs p last es rs = Some (b, rs', fs', p') -> config p' = config p.
Proof.
  induction es as [|e es IH]; intros fs p rs b rs' fs' p'; cbn [append_loop]; [by intros [= _ _ _ <-]|]. case_decide; [apply IH|].
  destruct (write_entry fs p e) as [[[st fs1] p1]|] eqn:Hw; [|done]. rewrite bind_some. apply write_entry_config in Hw. rewrite <- Hw.
  destruct (negb (ok st)); [by intros [= _ _ _ <-]|]. destruct (ApplyEntryToTable p1 e) as [[ap p2]|] eqn:Ha; [|done]. rewrite bind_some. apply ApplyEntryToTable_config in Ha. rewrite <- Ha.
  destruct (negb ap); [by intros [= _ _ _ <-]|]. intros Hl. by rewrite (IH _ _ _ _ _ _ _ Hl).
Qed.

Lemma AppendEntries_spec M fs p hist bf m a0 room W ps ends rq o : let m' := (m `max` (o + length (rq_entries rq)))%nat in
  follows fs p hist bf m a0 (m' - m + room) W ps ends -> history M hist bf a0 -> index_ok (lp_binlog_index p) -> heard p (rq_term rq) ->
  rq_pre_log_index rq = Z.of_nat o -> (o <= m)%nat -> rq_entries rq <> [] -> rq_entries rq = take (length (rq_entries rq)) (drop o hist) -> (o + length (rq_entries rq) <= length hist)%nat ->
  Z.of_nat (W + (m' - m) * (27 * S M)) + 13 < 2 ^ 62 ->
  exists rs fs' p' ps' ends', AppendEntries fs p rq = Some (true, rs, fs', p') /\ follows fs' p' hist bf m' a0 room (W + (m' - m) * (27 * S M)) ps' ends' /\
    steady p p' /\ fs_denied fs' = fs_denied fs.
Proof.
  intros m' Hfo Hh Hidx Hheard Hpre Hom Hne Hes Hlen HW. pose proof (follows_offset _ _ _ _ _ _ _ _ _ _ Hfo) as Hoff. unfold AppendEntries. cbv zeta. rewrite (heard_check p _ Hheard).
  rewrite decide_False by (intros [_ Hx]; done). destruct Hfo as [Hr Hm He Ht].
  destruct (roll_if_needed_spec fs p W _ ps ends Hr Hidx) as (fs1 & p1 & ps1 & ends1 & wh & -> & Hr1 & Hwh & Hes1 & _ & Hoff1 & Hmf & Hsc & Hfr & _). rewrite bind_some. cbn [negb].
  rewrite Hoff, decide_False by lia.
  assert (Hfo1 : follows fs1 p1 hist bf m a0 (m' - m + room) W ps1 ends1) by (split; [done|done|by rewrite Hes1|by rewrite (sc_table _ _ Hsc), Hes1]).
  destruct (append_loop_spec M hist bf a0 room m Hh (rq_entries rq) o fs1 p1 m W ps1 ends1 0 wh Hes Hlen Hom ltac:(lia) (le_n _) Hfo1 Hwh HW) as (rs & fs' & p' & ps' & ends' & Hloop & Hfo' & Hi & Hd).
  pose proof (append_loop_config _ _ _ _ _ _ _ _ _ Hloop) as [= Hx1 Hx2 Hx3].
  exists rs, fs', p', ps', ends'. split; [done|]. split; [done|]. split; [split; [by rewrite Hx1, (sc_path _ _ Hsc)|by rewrite Hx2, (sc_follower _ _ Hsc)|by rewrite Hx3, (sc_term _ _ Hsc)|]|].
  - rewrite Hi. destruct Hmf as [(-> & _)|(-> & _)]; lia.
  - rewrite Hd. apply Hfr.
Qed.

(** The request that asks for the offset *)
Lemma AppendEntries_match fs p rq : heard p (rq_term rq) -> rq_pre_log_index rq = 0 -> rq_entries rq = [] ->
  exists term, AppendEntries fs p rq = Some (true, lp_log_offset p, fs, set_lp_term term p) /\ (FLAGS_zk_cluster = [] \/ term = Z.max (lp_term p) (rq_term rq)).
Proof.
  intros Hh Hp He. unfold AppendEntries. cbv zeta. rewrite (heard_check p _ Hh), decide_True by done.
  destruct (bool_decide (FLAGS_zk_cluster <> [])) eqn:Hz; cbn [andb].
  - destruct (bool_decide (lp_term p < rq_term rq)) eqn:Ht.
    + apply bool_decide_eq_true in Ht. exists (rq_term rq). split; [done|]. right. lia.
    + apply bool_decide_eq_false in Ht. exists (lp_term p). split; [by destruct p|]. right. lia.
  - apply bool_decide_eq_false, dec_stable in Hz. exists (lp_term p). split; [by destruct p|by left].
Qed.
End follow.
