(* ===== verification/Replication.v ===== *)
(** Replication between a leader and a follower over a network that loses,
    repeats and does not acknowledge requests: the follower's log is at all times
    a beginning of the leader's, and catches up when requests come through. *)
From Stdlib Require Import String.
From S2P Require Import Prelude Slice LogFile LogWriter LogLayout LogReader LogRoundtrip LogThms LogLive Random Skiplist SkiplistInv.
From S2P Require Import SkiplistInsert SkiplistSplit SkiplistSpec StdMap Strings LogRoll LogGrow Table MemTable Binlog BinlogWrite BinlogRecover.
From S2P Require Import TableLaws ReplicateNode Replicator Tablet ReplicaLog ReplicaSend ReplicaFollow.

(** What becomes of a call: it comes back, the request or its answer is lost, or
    the request arrives twice. *)
Inductive network : Type := Delivered | Lost | NoAnswer | Twice.

Section system.
Context `{BinlogFlags} `{Compressors} `{EntryCodecLaws} {T : Type} `{TableLaws T}.
Context (tid pid : Z) (fuel : nat).

(** ** The system *)
Record system : Type := MkSystem { s_fs : FileSystem; s_leader : LogReplicator T; s_node : ReplicateNode; s_follower : TabletImpl T }.

Definition SendRequest (net : network) (s : TabletImpl T) (rq : AppendEntriesRequest) : option (bool * AppendEntriesResponse * TabletImpl T) :=
  match net with
  | Delivered => '(rs, s) ← TabletImpl_AppendEntries s rq; Some (true, rs, s)
  | Lost => Some (false, MkAppendEntriesResponse 0 0, s)
  | NoAnswer => '(_, s) ← TabletImpl_AppendEntries s rq; Some (false, MkAppendEntriesResponse 0 0, s)
  | Twice => '(_, s) ← TabletImpl_AppendEntries s rq; '(rs, s) ← TabletImpl_AppendEntries s rq; Some (true, rs, s)
  end.

(** The leader adds an entry; a round of [MatchLogOffset], until it succeeds; a
    round of [SyncData] after that *)
Inductive sys_event : Type := Write (e : LogEntry) | Match (net : network) | Sync (net : network).
Definition sys_step (s : system) (ev : sys_event) : option system :=
  match ev with
  | Write e =>
      '(ok, _, fs, p) ← AppendEntry (s_fs s) (s_leader s) e;
      _ ← require ok;
      Some (MkSystem fs p (s_node s) (s_follower s))
  | Match net =>
      if rn_log_matched (s_node s) then Some s
      else
        '(_, n, f) ← MatchLogOffsetFromNode (SendRequest net) (lp_term (s_leader s)) (s_node s) (s_follower s);
        Some (MkSystem (s_fs s) (s_leader s) n f)
  | Sync net =>
      if rn_log_matched (s_node s) then
        r ← sync_round (SendRequest net) fuel (s_fs s) (lp_logs (s_leader s)) (lp_term (s_leader s)) (lp_log_offset (s_leader s)) (lp_follower_offset (s_leader s)) (s_node s) (s_follower s);
        match r with
        | None => Some s
        | Some (_, n, fo, f) => Some (MkSystem (s_fs s) (set_lp_follower_offset fo (s_leader s)) n f)
        end
      else Some s
  end.
Fixpoint sys_run (evs : list sys_event) (s : system) : option system :=
  match evs with
  | [] => Some s
  | ev :: evs' => s ← sys_step s ev; sys_run evs' s
  end.

(** The entries the leader has written *)
Fixpoint log_of (hist : list LogEntry) (evs : list sys_event) : list LogEntry :=
  match evs with
  | [] => hist
  | Write e :: evs' => log_of (hist ++ [set_log_index (Z.of_nat (length hist) + 1) e]) evs'
  | _ :: evs' => log_of hist evs'
  end.

(** ** The invariant *)
Context (M K R bf : nat) (a0 : table_abs T).

(** The follower holds the entries up to [m]. *)
Definition follower_ok (f : TabletImpl T) (term : Z) (hist : list LogEntry) (m k : nat) : Prop :=
  exists x W ps ends, GetPartition f tid pid = Some x /\ pa_stat x <> kLoading /\ (tb_follower f = true \/ table_leader a0 = false) /\
    follows (tb_fs f) (pa_replicator x) hist bf m a0 (R - m) W ps ends /\ (W <= m * (27 * S M))%nat /\ heard (pa_replicator x) term /\
    lp_binlog_index (pa_replicator x) <= Z.of_nat k.
(** The node knows of the entries up to [o]. *)
Definition node_inv fs (p : LogReplicator T) ps n (o : Z) (lag : nat) : Prop :=
  if rn_log_matched n then node_ok fs (lp_log_path p) 0 ps tid pid (lp_term p) n o lag
  else o = 0 /\ rn_last_sync_offset n = 0 /\ unopened (lp_log_path p) (rn_log_reader n) /\ rn_cache n = [] /\ rn_tid n = tid /\ rn_pid n = pid /\ rn_rep_node n = false.

Record sys_inv (s : system) (hist : list LogEntry) (m : nat) (o : Z) (lag k : nat) : Prop := {
  si_leader : exists W ps ends, replica (s_fs s) (s_leader s) W 0 ps ends /\ all_entries ps = hist /\ (W <= k * (27 * S M))%nat /\
    node_inv (s_fs s) (s_leader s) ps (s_node s) o lag;
  si_index : lp_binlog_index (s_leader s) <= Z.of_nat k;
  si_follower : follower_ok (s_follower s) (lp_term (s_leader s)) hist m k;
  si_acked : 0 <= o <= Z.of_nat m;
  si_history : history M hist bf a0;
  si_length : (length hist <= k)%nat
}.

(** ** A request at the follower *)
Context (count : Z.of_nat K < 2 ^ 31 - 1 /\ Z.of_nat K < 10 ^ Z.of_nat FLAGS_binlog_name_length) (sizes : Z.of_nat (K * (27 * S M)) + 13 < 2 ^ 62).
Context (room : (K < R)%nat) (enough : (K < fuel)%nat) (batches : 0 < FLAGS_binlog_sync_batch_size < 2 ^ 32).

Lemma replay_leader es : forall a, table_leader (foldl abs_apply a es) = table_leader a.
Proof using. induction es as [|e es IH]; intros a; [done|]. cbn [foldl]. by rewrite IH, abs_apply_leader. Qed.

Lemma heard_term (p : LogReplicator T) term : heard p term -> heard p (request_term term).
Proof using. unfold heard, request_term. intros [Hz|[Hf|Ht]]; [by left|by right; left|]. case_decide as Hd; [by right; right|by left]. Qed.

(** The checks of the handler *)
Lemma handler_checks f term hist m k rq : follower_ok f term hist m k -> rq_tid rq = tid -> rq_pid rq = pid ->
  exists x, GetPartition f tid pid = Some x /\ TabletImpl_AppendEntries f rq =
    '(ok, log_offset, fs, p) ← AppendEntries (tb_fs f) (pa_replicator x) rq;
    Some (MkAppendEntriesResponse log_offset (if (ok : bool) then kOk else kFailToAppendEntriesToReplicator), set_partition tid pid (set_pa_replicator p x) fs f).
Proof using.
  intros (x & W & ps & ends & Hx & Hstat & Hlead & Hfo & _) Ht Hp. exists x. split; [done|]. unfold TabletImpl_AppendEntries. rewrite Ht, Hp, Hx.
  assert (Hl : negb (tb_follower f) && tbl_IsLeader (pa_table x) = false).
  { destruct Hlead as [-> | Hl]; [done|]. unfold pa_table. rewrite (IsLeader_rep _ _ _ (fo_table _ _ _ _ _ _ _ _ _ _ Hfo)), replay_leader, Hl. by destruct (tb_follower f). }
  rewrite Hl, decide_False by done. done.
Qed.

Lemma deliver f term hist m k o es : follower_ok f term hist m k -> history M hist bf a0 -> (length hist <= K)%nat -> (k < K)%nat ->
  (o <= m)%nat -> es <> [] -> es = take (length es) (drop o hist) -> (o + length es <= length hist)%nat ->
  exists rs f', TabletImpl_AppendEntries f (MkAppendEntriesRequest (Z.of_nat o) es tid pid (request_term term)) = Some (MkAppendEntriesResponse rs kOk, f') /\
    follower_ok f' term hist (m `max` (o + length es)) (S k).
Proof using All.
  intros Hf Hh Hlen Hk Hom Hne Hes Hle. destruct (handler_checks f term hist m k (MkAppendEntriesRequest (Z.of_nat o) es tid pid (request_term term)) Hf eq_refl eq_refl) as (x & Hx & ->).
  destruct Hf as (x' & W & ps & ends & Hx' & Hstat & Hlead & Hfo & HW & Hheard & Hidx). rewrite Hx in Hx'. injection Hx' as <-. set (m' := (m `max` (o + length es))%nat).
  pose proof (fo_range _ _ _ _ _ _ _ _ _ _ Hfo) as Hrng. destruct count as [Hc1 Hc2].
  assert (Hm' : (m <= m' <= length hist)%nat) by (unfold m'; lia). assert (Hmul : (m' * (27 * S M) <= K * (27 * S M))%nat) by (apply Nat.mul_le_mono_r; lia).
  assert (Hsum : (W + (m' - m) * (27 * S M) <= m' * (27 * S M))%nat) by (rewrite Nat.mul_sub_distr_r; assert (m * (27 * S M) <= m' * (27 * S M))%nat by (apply Nat.mul_le_mono_r; lia); lia).
  destruct (AppendEntries_spec M (tb_fs f) (pa_replicator x) hist bf m a0 (R - m') W ps ends (MkAppendEntriesRequest (Z.of_nat o) es tid pid (request_term term)) o)
    as (rs & fs' & p' & ps' & ends' & Happ & Hfo' & Hsd & Hden); cbn [rq_entries rq_term rq_pre_log_index]; try done.
  - fold m'. replace (m' - m + (R - m'))%nat with (R - m)%nat by lia. done.
  - pose proof (rp_next _ _ _ _ _ _ (fo_replica _ _ _ _ _ _ _ _ _ _ Hfo)). unfold index_ok. lia.
  - by apply heard_term.
  - fold m'. lia.
  - rewrite Happ, bind_some. eexists rs, _. split; [reflexivity|]. cbn [rq_entries] in Hfo'. fold m' in Hfo'.
    exists (set_pa_replicator p' x), (W + (m' - m) * (27 * S M))%nat, ps', ends'. split; [apply lookup_insert_eq|]. split; [done|]. split; [done|]. split; [exact Hfo'|]. split; [lia|].
    cbn [set_pa_replicator pa_replicator]. split; [|rewrite Nat2Z.inj_succ; pose proof (sd_index _ _ Hsd); lia].
    destruct Hheard as [Hz|[Hfl|Ht]]; [by left|right; left; by rewrite (sd_follower _ _ Hsd)|right; right; by rewrite (sd_term _ _ Hsd)].
Qed.

Lemma deliver_match f term hist m k : follower_ok f term hist m k -> exists f', TabletImpl_AppendEntries f (MkAppendEntriesRequest 0 [] tid pid term) =
  Some (MkAppendEntriesResponse (Z.of_nat m) kOk, f') /\ follower_ok f' term hist m k.
Proof using All.
  intros Hf. destruct (handler_checks f term hist m k (MkAppendEntriesRequest 0 [] tid pid term) Hf eq_refl eq_refl) as (x & Hx & ->).
  destruct Hf as (x' & W & ps & ends & Hx' & Hstat & Hlead & Hfo & HW & Hheard & Hidx). rewrite Hx in Hx'. injection Hx' as <-.
  destruct (AppendEntries_match (tb_fs f) (pa_replicator x) (MkAppendEntriesRequest 0 [] tid pid term) Hheard eq_refl eq_refl) as (tm & -> & Htm).
  rewrite bind_some, (follows_offset _ _ _ _ _ _ _ _ _ _ Hfo). eexists. split; [reflexivity|]. exists (set_pa_replicator (set_lp_term tm (pa_replicator x)) x), W, ps, ends.
  split; [apply lookup_insert_eq|]. split; [done|]. split; [done|]. split; [by destruct Hfo as [[] ? ? ?]|]. split; [done|]. split; [|done].
  destruct Hheard as [Hz|[Hfl|Ht]]; [by left|by right; left|]. destruct Htm as [Hz| ->]; [by left|]. right; right. cbn in *. lia.
Qed.

Lemma follower_later f term hist m k k' : follower_ok f term hist m k -> (k <= k')%nat -> follower_ok f term hist m k'.
Proof using All. intros (x & W & ps & ends & ? & ? & ? & ? & ? & ? & ?) Hk. exists x, W, ps, ends. split_and!; try done. lia. Qed.

(** A request over the network *)
Lemma send net f term hist m k o es : follower_ok f term hist m k -> history M hist bf a0 -> (length hist <= K)%nat -> (S k < K)%nat ->
  (o <= m)%nat -> es <> [] -> es = take (length es) (drop o hist) -> (o + length es <= length hist)%nat ->
  exists ret rs f' m', SendRequest net f (MkAppendEntriesRequest (Z.of_nat o) es tid pid (request_term term)) = Some (ret, rs, f') /\ follower_ok f' term hist m' (S (S k)) /\
    (m <= m')%nat /\ rs_code rs = 0 /\ (ret = true -> (o + length es <= m')%nat) /\ (net = Delivered -> ret = true).
Proof using All.
  intros Hf Hh Hlen Hk Hom Hne Hes Hle. destruct (deliver f term hist m k o es Hf Hh Hlen ltac:(lia) Hom Hne Hes Hle) as (rs & f1 & Hd1 & Hf1). destruct net; cbn [SendRequest].
  - rewrite Hd1, bind_some. eexists true, _, f1, _. split; [reflexivity|]. split; [eapply follower_later; [exact Hf1|lia]|]. split_and!; try done; lia.
  - eexists false, _, f, m. split; [reflexivity|]. split; [eapply follower_later; [exact Hf|lia]|]. split_and!; try done; lia.
  - rewrite Hd1, bind_some. eexists false, _, f1, _. split; [reflexivity|]. split; [eapply follower_later; [exact Hf1|lia]|]. split_and!; try done; lia.
  - rewrite Hd1, bind_some. destruct (deliver f1 term hist _ (S k) o es Hf1 Hh Hlen ltac:(lia) ltac:(lia) Hne Hes Hle) as (rs2 & f2 & -> & Hf2). rewrite bind_some.
    eexists true, _, f2, _. split; [reflexivity|]. split; [exact Hf2|]. split_and!; try done; lia.
Qed.
Lemma send_match net f term hist m k : follower_ok f term hist m k -> exists ret rs f', SendRequest net f (MkAppendEntriesRequest 0 [] tid pid term) = Some (ret, rs, f') /\
  follower_ok f' term hist m k /\ rs_code rs = 0 /\ (ret = true -> rs_log_offset rs = Z.of_nat m) /\ (net = Delivered -> ret = true).
Proof using All.
  intros Hf. destruct (deliver_match f term hist m k Hf) as (f1 & Hd1 & Hf1). destruct net; cbn [SendRequest].
  - rewrite Hd1, bind_some. by eexists true, _, f1.
  - by eexists false, _, f.
  - rewrite Hd1, bind_some. by eexists false, _, f1.
  - rewrite Hd1, bind_some. destruct (deliver_match f1 term hist m k Hf1) as (f2 & -> & Hf2). rewrite bind_some. by eexists true, _, f2.
Qed.

(** ** Steps *)
Lemma history_prefix hist es : history M (hist ++ es) bf a0 -> history M hist bf a0.
Proof using.
  intros [Hn Ho Ha Hs]. apply Forall_app in Ho as [? _], Hs as [? _]. split; try done.
  - intros i e Hi. apply Hn. by apply lookup_app_l_Some.
  - destruct (decide (bf <= length hist)%nat) as [Hle|Hgt].
    + rewrite drop_app_le in Ha by done. by apply all_apply_app in Ha as [? _].
    + rewrite drop_ge; [done|]. apply Nat.lt_le_incl. by apply Nat.nle_gt.
Qed.

Lemma node_grows fs fs' logs' path W ps ps' term n o lag : log_grows fs fs' path ps ps' -> tidy fs path ps -> binlog fs' logs' path W 0 ps' ->
  (exists es, all_entries ps' = all_entries ps ++ es) -> node_ok fs path 0 ps tid pid term n o lag -> exists lag', node_ok fs' path 0 ps' tid pid term n o lag'.
Proof using All.
  intros Hg Ht Hb (es' & Hes') [Ho Hids Hrng Hst]. assert (Hrng' : 0 <= o <= 0 + Z.of_nat (length (all_entries ps'))) by (rewrite Hes', length_app; lia).
  destruct Hst as [[Hc Hp]|(es & lag1 & -> & Hc & Hne & Hbat & Hle & Hp)].
  - destruct (placed_grows _ _ _ _ _ _ _ _ _ _ _ Hg Ht Hb Hp) as (lag' & Hp'). exists lag'. split; try done. by left.
  - destruct (placed_grows _ _ _ _ _ _ _ _ _ _ _ Hg Ht Hb Hp) as (lag' & Hp'). exists (S lag'). split; try done. right. exists es, lag'. split_and!; try done.
    + unfold batch in *. rewrite Hes', drop_app_le, take_app_le; [done| |].
      * rewrite length_drop. lia.
      * lia.
    + rewrite Hes', length_app. lia.
Qed.

Lemma write_step s hist m o lag k e : sys_inv s hist m o lag k -> (k < K)%nat -> let e' := set_log_index (Z.of_nat (length hist) + 1) e in history M (hist ++ [e']) bf a0 ->
  exists s' lag', sys_step s (Write e) = Some s' /\ sys_inv s' (hist ++ [e']) m o lag' (S k) /\ rn_log_matched (s_node s') = rn_log_matched (s_node s).
Proof using All.
  intros [(W & ps & ends & Hr & Hes & HW & Hnode) Hidx Hf Hack Hh Hlen] Hk e' Hh'. destruct count as [Hc1 Hc2].
  assert (Hoff : lp_log_offset (s_leader s) = Z.of_nat (length hist)) by (rewrite (rp_offset _ _ _ _ _ _ Hr), Hes; lia).
  assert (He' : (hist ++ [e']) !! length hist = Some e') by (by apply list_lookup_middle). destruct (hi_numbered _ _ _ _ Hh' _ _ He') as [_ Hfit].
  pose proof (Forall_lookup_1 _ _ _ _ (hi_size _ _ _ _ Hh') He') as Hsz. cbv beta in Hsz. assert (Hwt : (weight e' <= 27 * S M)%nat) by (unfold weight; lia).
  assert (Hmul : (S k * (27 * S M) <= K * (27 * S M))%nat) by (apply Nat.mul_le_mono_r; lia).
  destruct (AppendEntry_spec (s_fs s) (s_leader s) W 0 ps ends e Hr) as (fs' & p' & ps1 & ps' & ends1 & Happ & Hr' & _ & _ & Hall & Hoff' & Hmf & _ & Hsc & _ & Hgr).
  { pose proof (rp_next _ _ _ _ _ _ Hr). unfold index_ok. lia. } { lia. } { by rewrite Hoff. } { rewrite Hoff. fold e'. lia. }
  rewrite Hoff in *. fold e' in Happ, Hall, Hr'. cbn [sys_step]. rewrite Happ, bind_some. cbn [require mbind option_bind].
  assert (Hn : exists lag', node_inv fs' p' ps' (s_node s) o lag').
  { unfold node_inv in *. rewrite (sc_path _ _ Hsc), (sc_term _ _ Hsc). destruct (rn_log_matched (s_node s)); [|by exists lag].
    eapply node_grows; [exact Hgr|by eapply replica_tidy|rewrite <- (sc_path _ _ Hsc); apply Hr'|by eexists|exact Hnode]. }
  destruct Hn as (lag' & Hn). eexists _, lag'. split; [reflexivity|]. split; [|done]. split; cbn [s_fs s_leader s_node s_follower]; try done.
  - exists (W + weight e')%nat, ps', (ends1 ++ [file_len fs' p']). split; [done|]. split; [by rewrite Hall, Hes|]. split; [lia|done].
  - destruct Hmf as [(-> & _)|(-> & _)]; lia.
  - rewrite (sc_term _ _ Hsc). destruct Hf as (x & Wf & psf & endsf & ? & ? & ? & Hfo & ? & ? & ?). exists x, Wf, psf, endsf. split_and!; try done; [by apply follows_more|lia].
  - rewrite length_app. cbn [length]. lia.
Qed.

Lemma match_step s hist m o lag k net : sys_inv s hist m o lag k -> (k <= K)%nat ->
  exists s' o' lag', sys_step s (Match net) = Some s' /\ sys_inv s' hist m o' lag' k /\ o <= o' /\
    (net = Delivered \/ rn_log_matched (s_node s) = true -> rn_log_matched (s_node s') = true).
Proof using All.
  intros Hinv Hk. pose proof Hinv as [(W & ps & ends & Hr & Hes & HW & Hnode) Hidx Hf Hack Hh Hlen]. cbn [sys_step]. destruct (rn_log_matched (s_node s)) eqn:Hm; [exists s, o, lag; split_and!; try done; lia|].
  unfold node_inv in Hnode. rewrite Hm in Hnode. destruct Hnode as (-> & Hz & Hun & Hca & Ht & Hp & Hrep). unfold MatchLogOffsetFromNode. rewrite Ht, Hp.
  destruct (send_match net (s_follower s) (lp_term (s_leader s)) hist m k Hf) as (ret & rs & f' & -> & Hf' & Hcode & Hoff & Hdel). rewrite bind_some, Hcode, bool_decide_eq_true_2, andb_true_r by done.
  destruct ret.
  - rewrite bind_some. eexists _, (Z.of_nat m), (2 * length ps)%nat. split; [reflexivity|]. split; [|split; [lia|done]]. split; cbn [s_fs s_leader s_node s_follower]; try done; [|lia].
    exists W, ps, ends. split; [done|]. split; [done|]. split; [done|]. unfold node_inv. cbn [set_rn_reader set_rn_matched set_rn_offset rn_log_matched].
    assert (Hml : (m <= length hist)%nat) by (destruct Hf as (x & Wf & psf & endsf & _ & _ & _ & Hfo & _); apply (fo_range _ _ _ _ _ _ _ _ _ _ Hfo)).
    split; cbn [rn_last_sync_offset rn_tid rn_pid rn_rep_node rn_log_matched rn_cache rn_log_reader set_rn_reader set_rn_matched set_rn_offset]; try done; [by apply Hoff|rewrite Hes; lia|].
    left. split; [done|]. rewrite (Hoff eq_refl). apply placed_unopened; [done|]. cbn. lia.
  - rewrite bind_some. eexists _, 0, lag. split; [reflexivity|]. split; [|split; [lia|]].
    + split; cbn [s_fs s_leader s_node s_follower]; try done. exists W, ps, ends. split_and!; try done. unfold node_inv. by rewrite Hm.
    + intros [Hx|Hx]; [by apply Hdel in Hx|done].
Qed.

(** A batch of the leader's log is a part of the history. *)
Lemma batch_history ps hist o es : all_entries ps = hist -> 0 <= o -> batch 0 ps o es -> 0 <= o + Z.of_nat (length es) <= Z.of_nat (length hist) ->
  es = take (length es) (drop (Z.to_nat o) hist) /\ (Z.to_nat o + length es <= length hist)%nat.
Proof using All. intros <- Ho Hb Hle. unfold batch in Hb. rewrite Z.sub_0_r in Hb. split; [exact Hb|lia]. Qed.

Lemma sync_step s hist m o lag k net : sys_inv s hist m o lag k -> (S k < K)%nat ->
  exists s' m' o' lag', sys_step s (Sync net) = Some s' /\ sys_inv s' hist m' o' lag' (S (S k)) /\ (m <= m')%nat /\ o <= o' /\
    rn_log_matched (s_node s') = rn_log_matched (s_node s) /\
    (net = Delivered -> rn_log_matched (s_node s) = true -> o' = Z.of_nat (length hist) \/ Z.of_nat (length hist) - o' + Z.of_nat lag' < Z.of_nat (length hist) - o + Z.of_nat lag).
Proof using All.
  intros Hinv Hk. pose proof Hinv as [(W & ps & ends & Hr & Hes & HW & Hnode) Hidx Hf Hack Hh Hlen].
  assert (Hsame : sys_inv s hist m o lag (S (S k))) by (split; try done; [exists W, ps, ends; split_and!; try done; nia|lia|eapply follower_later; [exact Hf|lia]|lia]).
  cbn [sys_step]. destruct (rn_log_matched (s_node s)) eqn:Hm; [|exists s, m, o, lag; split_and!; try done; lia]. unfold node_inv in Hnode. rewrite Hm in Hnode.
  pose proof (rp_offset _ _ _ _ _ _ Hr) as Hoff. unfold sync_round. pose proof (no_offset _ _ _ _ _ _ _ _ _ _ Hnode) as Hno. pose proof (no_range _ _ _ _ _ _ _ _ _ _ Hnode) as Hrng.
  destruct (no_ids _ _ _ _ _ _ _ _ _ _ Hnode) as (_ & _ & Hrep & _). rewrite Hno, Hrep. case_decide as Hdone.
  { rewrite bind_some. exists s, m, o, lag. split_and!; try done. intros _ _. left. rewrite Hes in *. lia. }
  rewrite Hoff. destruct count as [Hc1 _].
  destruct (SyncData_spec (s_fs s) (lp_logs (s_leader s)) (lp_log_path (s_leader s)) W 0 ps (rp_binlog _ _ _ _ _ _ Hr) (replica_tidy _ _ _ _ _ _ Hr) ltac:(lia) ltac:(rewrite Hes; lia)
    tid pid (lp_term (s_leader s)) (SendRequest net) fuel (lp_follower_offset (s_leader s)) (s_node s) o lag (s_follower s) Hnode ltac:(lia) ltac:(rewrite Hes; lia) ltac:(rewrite Hes; lia) batches)
    as [(ret & n' & lag' & -> & Hn' & Hlag)|(es & ret & n1 & n2 & lag1 & lag2 & Hne & Hbat & Hle & -> & Hn1 & Hpr & Hn2)].
  - rewrite !bind_some. assert (Hm' : rn_log_matched n' = true) by apply (no_ids _ _ _ _ _ _ _ _ _ _ Hn').
    eexists _, m, o, lag'. split; [reflexivity|]. split; [|split_and!; try done; intros _ _; right; lia]. split; cbn [s_fs s_leader s_node s_follower]; try done; try lia.
    + exists W, ps, ends. split; [by destruct Hr|]. split_and!; try done; [nia|]. unfold node_inv. by rewrite Hm'.
    + cbn. lia.
    + eapply follower_later; [exact Hf|lia].
  - destruct (batch_history ps hist o es Hes ltac:(lia) Hbat) as [Hb1 Hb2]; [rewrite <- Hes; lia|]. unfold answered. rewrite <- (Z2Nat.id o) by lia.
    destruct (send net (s_follower s) (lp_term (s_leader s)) hist m k (Z.to_nat o) es Hf Hh ltac:(lia) Hk ltac:(lia) Hne Hb1 Hb2) as (rt & rs & f' & m' & -> & Hf' & Hmm & Hcode & Hgot & Hdel).
    rewrite Z2Nat.id by lia. rewrite bind_some, Hcode, bool_decide_eq_true_2, andb_true_r by done. rewrite bind_some. cbv beta iota.
    destruct rt; rewrite bind_some.
    + assert (Hm' : rn_log_matched n1 = true) by apply (no_ids _ _ _ _ _ _ _ _ _ _ Hn1). eexists _, m', (o + Z.of_nat (length es)), lag1. split; [reflexivity|]. specialize (Hgot eq_refl). cbv zeta in *.
      split; [|split_and!; try done; [lia|]].
      * split; cbn [s_fs s_leader s_node s_follower]; try done; try lia; [|cbn; lia]. exists W, ps, ends. split; [by destruct Hr|]. split_and!; try done; [nia|]. unfold node_inv. by rewrite Hm'.
      * intros _ _. destruct es as [|e es]; [done|]. cbn [length] in *. rewrite Hes in *. destruct Hpr; [right; lia|left; lia].
    + assert (Hm' : rn_log_matched n2 = true) by apply (no_ids _ _ _ _ _ _ _ _ _ _ Hn2). eexists _, m', o, lag2. split; [reflexivity|].
      split; [|split_and!; try done; by intros Hx; apply Hdel in Hx].
      split; cbn [s_fs s_leader s_node s_follower]; try done; try lia; [|cbn; lia]. exists W, ps, ends. split; [by destruct Hr|]. split_and!; try done; [nia|]. unfold node_inv. by rewrite Hm'.
Qed.

(** ** Runs *)
Lemma log_of_prefix evs : forall hist, exists es, log_of hist evs = hist ++ es.
Proof using.
  induction evs as [|ev evs IH]; intros hist; cbn [log_of]; [exists []; by rewrite app_nil_r|]. destruct ev; [|apply IH|apply IH].
  destruct (IH (hist ++ [set_log_index (Z.of_nat (length hist) + 1) e])) as (es & ->). eexists. by rewrite <- app_assoc.
Qed.
Lemma sys_later s hist m o lag k k' : sys_inv s hist m o lag k -> (k <= k')%nat -> sys_inv s hist m o lag k'.
Proof using All. intros [(W & ps & ends & ? & ? & HW & ?) ? Hf ? ? ?] Hk. split; try done; try lia; [exists W, ps, ends; split_and!; try done; nia|]. eapply follower_later; [exact Hf|lia]. Qed.

Lemma run_step s hist m o lag k ev : sys_inv s hist m o lag k -> (S k < K)%nat -> history M (log_of hist [ev]) bf a0 ->
  exists s' m' o' lag', sys_step s ev = Some s' /\ sys_inv s' (log_of hist [ev]) m' o' lag' (S (S k)) /\ (m <= m')%nat /\ o <= o'.
Proof using All.
  intros Hinv Hk Hh. destruct ev as [e|net|net]; cbn [log_of] in *.
  - destruct (write_step s hist m o lag k e Hinv ltac:(lia) Hh) as (s' & lag' & Hs & Hi & _). exists s', m, o, lag'. split; [done|]. split; [eapply sys_later; [exact Hi|lia]|lia].
  - destruct (match_step s hist m o lag k net Hinv ltac:(lia)) as (s' & o' & lag' & Hs & Hi & Ho & _). exists s', m, o', lag'. split; [done|]. split; [eapply sys_later; [exact Hi|lia]|lia].
  - destruct (sync_step s hist m o lag k net Hinv Hk) as (s' & m' & o' & lag' & Hs & Hi & Hm & Ho & _). by exists s', m', o', lag'.
Qed.
Lemma run_invariant evs : forall s hist m o lag k, sys_inv s hist m o lag k -> (k + 2 * length evs < K)%nat -> history M (log_of hist evs) bf a0 ->
  exists s' m' o' lag', sys_run evs s = Some s' /\ sys_inv s' (log_of hist evs) m' o' lag' (k + 2 * length evs) /\ (m <= m')%nat /\ o <= o'.
Proof using All.
  induction evs as [|ev evs IH]; intros s hist m o lag k Hinv Hk Hh; cbn [length sys_run] in *; [exists s, m, o, lag; rewrite Nat.add_0_r; split_and!; done|].
  assert (Hsplit : log_of hist (ev :: evs) = log_of (log_of hist [ev]) evs) by (by destruct ev). rewrite Hsplit in *.
  destruct (log_of_prefix evs (log_of hist [ev])) as (es & Hes).
  destruct (run_step s hist m o lag k ev Hinv ltac:(lia)) as (s1 & m1 & o1 & lag1 & -> & Hi1 & Hm1 & Ho1); [rewrite Hes in Hh; by eapply history_prefix|]. rewrite bind_some.
  destruct (IH s1 _ m1 o1 lag1 (S (S k)) Hi1 ltac:(lia) Hh) as (s' & m' & o' & lag' & Hrun & Hi' & Hm' & Ho'). exists s', m', o', lag'. split; [done|].
  split; [eapply sys_later; [exact Hi'|lia]|lia].
Qed.
Lemma run_app evs1 evs2 s : sys_run (evs1 ++ evs2) s = s ← sys_run evs1 s; sys_run evs2 s.
Proof using. revert s; induction evs1 as [|ev evs1 IH]; intros s; cbn [app sys_run]; [done|]. destruct (sys_step s ev) as [s1|]; [|done]. rewrite !bind_some. apply IH. Qed.

(** ** Catching up *)
Lemma matched_lag s hist m o lag k : sys_inv s hist m o lag k -> (k <= K)%nat -> rn_log_matched (s_node s) = true -> (lag <= 2 * k + 1)%nat.
Proof using All.
  intros [(W & ps & ends & Hr & Hes & HW & Hnode) Hidx Hf Hack Hh Hlen] Hk Hm. unfold node_inv in Hnode. rewrite Hm in Hnode. destruct count as [Hc1 _].
  assert (Hps : (length ps <= k)%nat).
  { pose proof (sorted_range pt_index ps (bl_sorted _ _ _ _ _ _ (rp_binlog _ _ _ _ _ _ Hr)) 0 (lp_binlog_index (s_leader s))) as Hs. pose proof (rp_next _ _ _ _ _ _ Hr) as Hn.
    assert (Hrng : Forall (fun q => 0 <= pt_index q < lp_binlog_index (s_leader s)) ps); [|specialize (Hs Hrng Hn); lia].
    pose proof (rp_index _ _ _ _ _ _ Hr) as Hx. pose proof (bl_index _ _ _ _ _ _ (rp_binlog _ _ _ _ _ _ Hr)) as Hy. rewrite Forall_forall in Hx, Hy |- *.
    intros q Hq. specialize (Hx q Hq). destruct (Hy q Hq) as [[? _] _]. cbv beta in Hx. lia. }
  assert (Hpl : forall r oo l, placed (s_fs s) (lp_log_path (s_leader s)) 0 ps r oo l -> (l <= 2 * length ps)%nat).
  { intros r oo l [? ?|sp kk b Hrd ?]; [lia|]. destruct (reading_before (s_fs s) (lp_logs (s_leader s)) (lp_log_path (s_leader s)) W 0 ps (rp_binlog _ _ _ _ _ _ Hr) (replica_tidy _ _ _ _ _ _ Hr) ltac:(lia) ltac:(rewrite Hes; lia) r sp kk b Hrd) as [Hb _].
    destruct sp as [[]|]; cbn; lia. }
  destruct (no_state _ _ _ _ _ _ _ _ _ _ Hnode) as [[_ Hp]|(es & lag1 & -> & _ & _ & _ & _ & Hp)]; apply Hpl in Hp; lia.
Qed.

Lemma follower_range f term hist m k : follower_ok f term hist m k -> (m <= length hist)%nat.
Proof using. intros (x & W & ps & ends & _ & _ & _ & Hfo & _). apply (fo_range _ _ _ _ _ _ _ _ _ _ Hfo). Qed.

Lemma catch_up N : forall s hist m o lag k, sys_inv s hist m o lag k -> rn_log_matched (s_node s) = true -> (k + 2 * N < K)%nat ->
  Z.of_nat (length hist) - o + Z.of_nat lag <= Z.of_nat N -> exists s' o' lag', sys_run (replicate N (Sync Delivered)) s = Some s' /\ sys_inv s' hist (length hist) o' lag' (k + 2 * N).
Proof using All.
  assert (Hall : forall N s hist m o lag k, sys_inv s hist m o lag k -> rn_log_matched (s_node s) = true -> (k + 2 * N < K)%nat ->
    (o = Z.of_nat (length hist) \/ Z.of_nat (length hist) - o + Z.of_nat lag <= Z.of_nat N) -> exists s' o' lag', sys_run (replicate N (Sync Delivered)) s = Some s' /\ sys_inv s' hist (length hist) o' lag' (k + 2 * N)).
  { clear N. induction N as [|N IH]; intros s hist m o lag k Hinv Hm Hk Ho; cbn [replicate sys_run].
    - exists s, o, lag. split; [done|]. rewrite Nat.add_0_r. pose proof (si_acked _ _ _ _ _ _ Hinv) as Hack. pose proof (follower_range _ _ _ _ _ (si_follower _ _ _ _ _ _ Hinv)) as Hr.
      replace (length hist) with m by lia. done.
    - destruct (sync_step s hist m o lag k Delivered Hinv ltac:(lia)) as (s1 & m1 & o1 & lag1 & -> & Hi1 & Hm1 & Ho1 & Hmat & Hpr). rewrite bind_some.
      destruct (IH s1 hist m1 o1 lag1 (S (S k)) Hi1 ltac:(by rewrite Hmat) ltac:(lia)) as (s' & o' & lag' & Hrun & Hi').
      + pose proof (si_acked _ _ _ _ _ _ Hi1) as Hack. pose proof (follower_range _ _ _ _ _ (si_follower _ _ _ _ _ _ Hi1)) as Hr. destruct Ho as [->|Ho]; [left; lia|]. destruct (Hpr eq_refl Hm) as [->|Hlt]; [by left|right; lia].
      + exists s', o', lag'. split; [done|]. eapply sys_later; [exact Hi'|lia]. }
  intros s hist m o lag k Hinv Hm Hk Ho. eapply Hall; [done..|]. by right.
Qed.
End system.
