(* ===== verification/ReplicaOpen.v ===== *)
(** Opening the log of a replicator after a restart ([LogReplicator::Recover],
    replica/log_replicator.cc): the list of parts is rebuilt from the files of
    the directory, without those that hold no complete entry. *)
From Stdlib Require Import String.
From S2P Require Import Prelude Slice LogFile LogWriter LogLayout LogReader LogRoundtrip LogThms LogLive Random Skiplist SkiplistInv.
From S2P Require Import SkiplistInsert SkiplistSplit SkiplistSpec StdMap Strings LogRoll LogGrow Table MemTable Binlog BinlogWrite BinlogRecover.
From S2P Require Import ReplicateNode Replicator LogNames ReplicaLog.

Section open.
Context `{BinlogFlags} `{Compressors} `{EntryCodecLaws} {T : Type} `{TableOps T}.
Implicit Types (fs : FileSystem) (ps : list part) (p : LogReplicator T) (q : part).

(** ** The directory *)

(** A file without a complete entry *)
Definition stray fs (f : bytes) : Prop := exists D c lay ends tail, fs_files fs !! f = Some D /\ holds D [] c lay ends tail.
(** Every file of the directory belongs to a part or holds no entry. *)
Definition dir_ok fs path ps : Prop :=
  forall f, is_Some (fs_files fs !! f) -> in_dir path f = true ->
    exists k, index_ok k /\ f = log_file path k /\ (k ∈ pt_index <$> ps \/ stray fs f).

Definition filled q : Prop := pt_entries q <> [].
#[global] Instance filled_dec q : Decision (filled q).
Proof. unfold filled. destruct (pt_entries q); [by right; intros []|by left]. Defined.

Lemma in_dir_log_file path k : index_ok k -> in_dir path (log_file path k) = true.
Proof.
  intros Hk. unfold in_dir, log_file. rewrite index_u32, FormatToString_decimal by done. rewrite app_assoc.
  rewrite take_app_length, drop_app_length, !bool_decide_eq_true_2; [done| |done]. apply decimal_no_slash.
Qed.

(** ** The loop *)

(** What a file of the directory is: a part with entries, or none *)
Definition file_kind fs path W (k : Z) (o : option part) : Prop :=
  match o with
  | Some q => pt_index q = k /\ part_file fs path W q /\ numbered (pt_start q) (pt_entries q) /\ filled q /\ 0 <= pt_start q
  | None => stray fs (log_file path k) /\ fs_denied fs (log_file path k) = false
  end.

Lemma opened_record fs path W k o : file_kind fs path W k o ->
  exists D st rec r, fopen_read fs (log_file path k) = Some D /\
    ReadRecord snappy_length snappy_uncompress zlib_uncompress (S (S (length D))) (Reader_new (open_seq D) None false 0 false []) = Some (st, rec, r) /\
    match o with
    | Some q => st = OK /\ exists e, ParseFromString rec = Some e /\ le_log_index e = pt_start q + 1
    | None => ok st = false
    end.
Proof.
  destruct o as [q|].
  - intros (<- & (D & lay & ends & tail & Hq) & Hn & Hf & Hst). unfold filled in Hf. destruct (pt_entries q) as [|e es] eqn:Hes; [done|].
    pose proof (pd_holds _ _ _ _ _ _ _ _ Hq) as Hh. destruct (Hn 0%nat e ltac:(done)) as [Hi Hfit].
    destruct (read_ok snappy_length snappy_uncompress zlib_uncompress D _ _ _ _ _ (open_reader D None false []) 0 (SerializeToString e) Hh (rat_open _ _ _ _ _ _ _ _ _ Hh)) as (r & x & HR & _).
    { unfold pt_recs. by rewrite Hes. }
    exists D, OK, (SerializeToString e), r. split; [unfold fopen_read; by rewrite (pd_denied _ _ _ _ _ _ _ _ Hq), (pd_file _ _ _ _ _ _ _ _ Hq)|]. split; [done|]. split; [done|].
    exists e. split; [by apply parse_serialize|]. rewrite Hi. simpl. lia.
  - intros ((D & c & lay & ends & tail & HD & Hh) & Hden).
    assert (Hread : exists st rec r, ReadRecord snappy_length snappy_uncompress zlib_uncompress (S (S (length D))) (open_reader D None false []) = Some (st, rec, r) /\ ok st = false).
    { pose proof (rat_open _ _ _ _ _ _ None false [] Hh) as Hat. destruct c.
      - destruct (read_end snappy_length snappy_uncompress zlib_uncompress _ _ _ _ _ _ Hh Hat) as (r & HR & _). by eexists _, _, _.
      - destruct (read_wait snappy_length snappy_uncompress zlib_uncompress _ _ _ _ _ _ Hh Hat) as (r & j & L & HR & _). by eexists _, _, _. }
    destruct Hread as (st & rec & r & HR & Hst). exists D, st, rec, r. split; [unfold fopen_read; by rewrite Hden|]. done.
Qed.

Definition next_index (i : Z) (qs : list part) : Z := match last qs with Some q => pt_index q + 1 | None => i end.

Lemma recover_parts_spec fs path W ks os : Forall2 (file_kind fs path W) ks os -> StronglySorted Z.lt ks -> Forall index_ok ks ->
  forall p acc, rep (lp_logs p) (reverse (pt_key <$> acc)) -> Forall (fun q => Forall (fun k => pt_index q < k) ks) acc ->
  exists logs', recover_parts fs (log_file path <$> ks) p = Some (true, set_lp_logs (next_index (lp_binlog_index p) (omap id os)) logs' p) /\
    rep logs' (reverse (pt_key <$> acc ++ omap id os)).
Proof.
  induction 1 as [|k o ks os Hk Hks IH]; intros Hs Hok p acc Hr Hacc.
  { exists (lp_logs p). split; [by destruct p|]. cbn [omap list_omap]. by rewrite app_nil_r. }
  apply StronglySorted_inv in Hs as [Hs Hlt]. apply Forall_cons in Hok as [Hik Hok]. rewrite fmap_cons. cbn [recover_parts].
  rewrite (ParseBinlogIndex_log_file path k Hik), bind_some. destruct (opened_record fs path W k o Hk) as (D & st & rec & r & -> & -> & Ho). rewrite bind_some. cbv beta iota zeta.
  assert (Hacc' : Forall (fun q => Forall (fun k => pt_index q < k) ks) acc) by (eapply Forall_impl; [exact Hacc|]; intros q Hq; by apply Forall_cons in Hq as [_ ?]).
  destruct o as [q|]; cbn [omap list_omap id].
  - destruct Ho as (-> & e & -> & He). destruct Hk as (Hqk & _ & _ & _ & Hst). change (ok OK) with true. cbn [negb]. rewrite decide_False by lia.
    destruct (Insert_rep _ _ k (le_log_index e - 1) Hr) as (x & logs1 & -> & Hr1). rewrite bind_some. cbv beta iota.
    replace (le_log_index e - 1) with (pt_start q) in Hr1 by lia. rewrite insert_largest in Hr1; cycle 1.
    { apply Forall_reverse, Forall_fmap. eapply Forall_impl; [exact Hacc|]. intros y Hy. by apply Forall_cons in Hy as [? _]. }
    destruct (IH Hs Hok (set_lp_logs (u32 (k + 1)) logs1 p) (acc ++ [q])) as (logs' & -> & Hr').
    { rewrite reverse_keys. unfold pt_key at 2. by rewrite Hqk. }
    { apply Forall_app. split; [done|]. constructor; [|constructor]. by rewrite Hqk. }
    exists logs'. split; [|by rewrite <- app_assoc in Hr']. do 2 f_equal. unfold set_lp_logs. cbn [lp_log_path lp_log_offset lp_follower_offset lp_binlog_index lp_wh lp_role lp_real_ep_map lp_nodes lp_local_endpoints lp_term lp_snapshot_log_part_index lp_snapshot_last_offset lp_table lp_follower].
    f_equal. unfold next_index. destruct (omap id os) as [|q' qs] eqn:Hos.
    + cbn [last]. rewrite uwrap_id by (unfold in_uint; destruct Hik; lia). lia.
    + change (q :: q' :: qs) with ([q] ++ (q' :: qs)). rewrite last_app. destruct (last (q' :: qs)) eqn:El; [done|]. by apply last_None in El.
  - rewrite Ho. cbn [negb]. destruct (IH Hs Hok p acc Hr Hacc') as (logs' & -> & Hr'). by exists logs'.
Qed.

(** ** [Recover] *)

Definition readable fs (path : bytes) : Prop := path <> [] /\ fs_denied fs path = false.

Lemma part_stray fs path W q : part_file fs path W q -> ~ filled q -> stray fs (log_file path (pt_index q)).
Proof.
  intros (D & lay & ends & tail & Hq) Hf. exists D, (pt_closed q), lay, ends, tail. split; [apply Hq|]. pose proof (pd_holds _ _ _ _ _ _ _ _ Hq) as Hh.
  unfold filled in Hf. unfold pt_recs in Hh. destruct (pt_entries q); [done|]. by destruct Hf.
Qed.

Lemma chained_filled base ps : chained base ps -> chained base (filter filled ps).
Proof.
  revert base; induction ps as [|q ps IH]; intros base Hc; [done|]. destruct Hc as [Hst Hc]. destruct (decide (filled q)) as [Hf|Hf].
  - rewrite filter_cons_True by done. split; [done|]. by apply IH.
  - rewrite filter_cons_False by done. unfold filled in Hf. destruct (pt_entries q); [|by destruct Hf]. apply IH. by rewrite Z.add_0_r in Hc.
Qed.
Lemma filled_entries ps : all_entries (filter filled ps) = all_entries ps.
Proof.
  induction ps as [|q ps IH]; [done|]. destruct (decide (filled q)) as [Hf|Hf].
  - rewrite filter_cons_True by done. by rewrite !all_entries_cons, IH.
  - rewrite filter_cons_False by done. rewrite all_entries_cons. unfold filled in Hf. destruct (pt_entries q); [done|by destruct Hf].
Qed.
Lemma StronglySorted_filter {A} (R : A -> A -> Prop) (P : A -> Prop) `{!forall x, Decision (P x)} l : StronglySorted R l -> StronglySorted R (filter P l).
Proof.
  induction 1 as [|x l Hs IH Ha]; [constructor|]. destruct (decide (P x)); [rewrite filter_cons_True|rewrite filter_cons_False]; try done.
  constructor; [done|]. rewrite Forall_forall in Ha |- *. intros y [_ Hy]%list_elem_of_filter. by apply Ha.
Qed.
Lemma sorted_NoDup ps : StronglySorted (fun x y => pt_index x < pt_index y) ps -> NoDup ps.
Proof.
  induction 1 as [|x l Hs IH Ha]; constructor; [|done]. intros Hin. rewrite Forall_forall in Ha. specialize (Ha _ Hin). simpl in Ha. lia.
Qed.
Lemma index_inj ps q q' : StronglySorted (fun x y => pt_index x < pt_index y) ps -> q ∈ ps -> q' ∈ ps -> pt_index q = pt_index q' -> q = q'.
Proof.
  induction 1 as [|x l Hs IH Ha]; intros Hq Hq' Heq; [by apply not_elem_of_nil in Hq|]. rewrite Forall_forall in Ha.
  apply elem_of_cons in Hq as [->|Hq], Hq' as [->|Hq']; [done|specialize (Ha _ Hq'); simpl in Ha; lia|specialize (Ha _ Hq); simpl in Ha; lia|auto].
Qed.

(** The files of the directory, in order, and the parts they are *)
Lemma dir_files fs logs path W base ps : binlog fs logs path W base ps -> dir_ok fs path ps -> 0 <= base -> healthy fs path -> readable fs path ->
  exists files ks os, GetFileName fs path = Some files /\ merge_sort string_le files = log_file path <$> ks /\
    StronglySorted Z.lt ks /\ Forall index_ok ks /\ Forall2 (file_kind fs path W) ks os /\ omap id os = filter filled ps.
Proof.
  intros Hb Hd Hbase Hhl [Hne Hden]. unfold GetFileName. rewrite decide_False by (intros [?|?]; congruence). eexists. set (files := filter _ _).
  assert (Hin : forall f, f ∈ files <-> is_Some (fs_files fs !! f) /\ in_dir path f = true).
  { intros f. unfold files. rewrite list_elem_of_filter. split.
    - intros [Hf Hm]. split; [|done]. apply list_elem_of_fmap in Hm as ([f' D] & -> & Hm). apply elem_of_map_to_list in Hm. by exists D.
    - intros [[D HD] Hf]. split; [done|]. apply list_elem_of_fmap. exists (f, D). split; [done|]. by apply elem_of_map_to_list. }
  destruct (sorted_indexes path files) as (ks & Hs & Hok & Hp).
  { apply NoDup_filter, NoDup_fst_map_to_list. }
  { apply Forall_forall. intros f [Hf1 Hf2]%Hin. destruct (Hd f Hf1 Hf2) as (k & Hk & -> & _). by exists k. }
  pose proof (bl_sorted _ _ _ _ _ _ Hb) as Hsort. pose proof (bl_files _ _ _ _ _ _ Hb) as Hfiles. pose proof (bl_numbers _ _ _ _ _ _ Hb) as Hnum. rewrite Forall_forall in Hfiles, Hnum.
  pose proof (chained_starts _ _ (bl_chain _ _ _ _ _ _ Hb)) as Hstarts. rewrite Forall_forall in Hstarts. pose proof (bl_index _ _ _ _ _ _ Hb) as Hidx. rewrite Forall_forall in Hidx.
  assert (Hkinds : exists os, Forall2 (fun k o => file_kind fs path W k o /\ (forall q, q ∈ ps -> pt_index q = k -> filled q -> o = Some q) /\ (forall q, o = Some q -> q ∈ ps)) ks os).
  { assert (Hall : Forall (fun k => exists o, file_kind fs path W k o /\ (forall q, q ∈ ps -> pt_index q = k -> filled q -> o = Some q) /\ (forall q, o = Some q -> q ∈ ps)) ks).
    { apply Forall_forall. intros k Hk. assert (Hkok : index_ok k) by (rewrite Forall_forall in Hok; by apply Hok).
      assert (Hkf : log_file path k ∈ files) by (rewrite Hp; by apply list_elem_of_fmap_2). apply Hin in Hkf as [Hk1 Hk2].
      destruct (Hd _ Hk1 Hk2) as (k' & Hk' & Heq & Hcase). apply log_file_inj in Heq as <-; [|done|done].
      destruct (decide (Exists (fun q => pt_index q = k /\ filled q) ps)) as [Hex|Hnex].
      - apply Exists_exists in Hex as (q & Hq & Hqk & Hqf). exists (Some q). split; [pose proof (Hstarts q Hq); split_and!; auto; cbv beta in *; lia|]. split; [|by intros ? [= <-]].
        intros q' Hq' Hq'k _. f_equal. eapply index_inj; [done..|]. congruence.
      - exists None. split; [|split; [|done]].
        + split; [|apply Hhl]. destruct Hcase as [(q & -> & Hq)%list_elem_of_fmap|?]; [|done]. apply (part_stray fs path W); [by apply Hfiles|].
          intros Hf. apply Hnex, Exists_exists. by exists q.
        + intros q Hq Hqk Hqf. exfalso. apply Hnex, Exists_exists. by exists q. }
    clear -Hall. induction Hall as [|k ks (o & Ho) _ (os & Hos)]; [by exists []|]. exists (o :: os). by constructor. }
  destruct Hkinds as (os & Hos). exists ks, os. split; [done|]. split; [by apply sort_names|]. split; [done|]. split; [done|].
  split; [eapply Forall2_impl; [exact Hos|]; by intros ?? [? _]|].
  assert (Hsome : StronglySorted (fun x y => pt_index x < pt_index y) (omap id os)).
  { clear -Hos Hs. induction Hos as [|k o ks os [Hk _] Hos IH]; [constructor|]. apply StronglySorted_inv in Hs as [Hs Ha]. destruct o as [q|]; cbn [omap list_omap id]; [|by apply IH].
    constructor; [by apply IH|]. destruct Hk as [Hqk _]. apply Forall_forall. intros q' (k' & Hk' & Hf')%list_elem_of_omap. unfold id in Hf'. subst k'.
    apply list_elem_of_lookup in Hk' as [i Hi]. destruct (Forall2_lookup_r _ _ _ _ _ Hos Hi) as (k' & Hk' & [[Hq'k _] _]). rewrite Forall_forall in Ha.
    rewrite Hqk, Hq'k. apply Ha. by eapply list_elem_of_lookup_2. }
  assert (Hfs : StronglySorted (fun x y => pt_index x < pt_index y) (filter filled ps)) by (by apply StronglySorted_filter).
  assert (Hanti : AntiSymm (=) (fun x y => pt_index x < pt_index y)) by (intros x y Hxy Hyx; simpl in *; lia).
  apply (StronglySorted_unique (fun x y => pt_index x < pt_index y)); [done|done|].
  - apply NoDup_Permutation.
    + by apply sorted_NoDup.
    + by apply sorted_NoDup.
    + intros q. rewrite list_elem_of_omap, list_elem_of_filter. split.
      * intros (o & Ho & Hq). unfold id in Hq. subst o. apply list_elem_of_lookup in Ho as [i Hi]. destruct (Forall2_lookup_r _ _ _ _ _ Hos Hi) as (k' & Hk' & [(_ & _ & _ & Hf & _) [_ Hin2]]).
        split; [done|]. by apply Hin2.
      * intros [Hqf Hq]. assert (Hkf : log_file path (pt_index q) ∈ files).
        { apply Hin. split; [|apply in_dir_log_file; by apply Hidx]. destruct (Hfiles q Hq) as (D & lay & ends & tail & Hpd). rewrite (pd_file _ _ _ _ _ _ _ _ Hpd). done. }
        rewrite Hp in Hkf. apply list_elem_of_fmap in Hkf as (k & Heq & Hk). rewrite Forall_forall in Hok. apply log_file_inj in Heq; [|by apply Hidx|by apply Hok]. subst k.
        apply list_elem_of_lookup in Hk as [i Hi]. destruct (Forall2_lookup_l _ _ _ _ _ Hos Hi) as (o & Ho & [_ [Hsel _]]). exists (Some q).
        split; [|done]. rewrite (Hsel q Hq eq_refl Hqf) in Ho. by eapply list_elem_of_lookup_2.
Qed.

Lemma Forall_filled (P : part -> Prop) ps : Forall P ps -> Forall P (filter filled ps).
Proof. rewrite !Forall_forall. intros Hp q [_ Hq]%list_elem_of_filter. by apply Hp. Qed.
Lemma binlog_filled fs logs logs' path W base ps : binlog fs logs path W base ps -> rep logs' (reverse (pt_key <$> filter filled ps)) ->
  binlog fs logs' path W base (filter filled ps).
Proof.
  intros [Hl Hs Hi Hf Hch Hn Hb] Hr. split; try done.
  - by apply StronglySorted_filter.
  - by apply Forall_filled.
  - by apply Forall_filled.
  - by apply chained_filled.
  - by apply Forall_filled.
Qed.
Lemma dir_filled fs logs path W base ps : binlog fs logs path W base ps -> dir_ok fs path ps -> dir_ok fs path (filter filled ps).
Proof.
  intros Hb Hd f Hf Hin. destruct (Hd f Hf Hin) as (k & Hk & -> & Hcase). exists k. split; [done|]. split; [done|].
  destruct Hcase as [(q & -> & Hq)%list_elem_of_fmap|?]; [|by right]. destruct (decide (filled q)) as [Hqf|Hqf].
  - left. apply list_elem_of_fmap. exists q. split; [done|]. by apply list_elem_of_filter.
  - right. apply (part_stray fs path W); [|done]. pose proof (bl_files _ _ _ _ _ _ Hb) as Hfs. rewrite Forall_forall in Hfs. by apply Hfs.
Qed.

Lemma Recover_spec fs logs W base ps p : binlog fs logs (lp_log_path p) W base ps -> dir_ok fs (lp_log_path p) ps -> 0 <= base ->
  healthy fs (lp_log_path p) -> readable fs (lp_log_path p) -> rep (lp_logs p) [] ->
  exists logs', LogReplicator_Recover fs p = Some (true, set_lp_logs (next_index (lp_binlog_index p) (filter filled ps)) logs' p) /\
    binlog fs logs' (lp_log_path p) W base (filter filled ps).
Proof.
  intros Hb Hd Hbase Hhl Hrd Hr. destruct (dir_files fs logs _ W base ps Hb Hd Hbase Hhl Hrd) as (files & ks & os & Hget & Hsort & Hs & Hok & Hkinds & Hos).
  unfold LogReplicator_Recover. rewrite Hget, Hsort.
  destruct (recover_parts_spec fs _ W ks os Hkinds Hs Hok p [] Hr ltac:(constructor)) as (logs' & -> & Hr'). rewrite Hos in Hr' |- *. exists logs'. split; [done|].
  by eapply binlog_filled.
Qed.

Lemma next_index_above i ps : 0 <= i -> Forall (fun q => index_ok (pt_index q)) ps -> StronglySorted (fun x y => pt_index x < pt_index y) ps ->
  0 <= next_index i ps /\ Forall (fun q => pt_index q < next_index i ps) ps.
Proof.
  intros Hi Hok Hs. unfold next_index. destruct (last ps) as [q|] eqn:Hl; [|apply last_None in Hl as ->; split; [done|constructor]].
  apply last_Some in Hl as (a & ->). apply Forall_app in Hok as [Hoka Hokq]. apply Forall_cons in Hokq as [[[Hq0 ?] ?] _]. split; [lia|].
  apply Forall_app. split; [|constructor; [lia|constructor]]. apply sorted_app_lt in Hs. eapply Forall_impl; [exact Hs|]. cbv beta. lia.
Qed.

(** Changes to the files of parts keep the directory in order. *)
Lemma dir_ok_frame fs fs' path ps ps' : dir_ok fs path ps -> frame path ps' fs fs' -> (pt_index <$> ps) ⊆ (pt_index <$> ps') ->
  Forall (fun q => index_ok (pt_index q)) ps' -> dir_ok fs' path ps'.
Proof.
  intros Hd [_ Hf] Hsub Hok f Hex Hin. destruct (decide (f ∈ log_file path ∘ pt_index <$> ps')) as [Hp|Hp].
  - apply list_elem_of_fmap in Hp as (q & -> & Hq). exists (pt_index q). rewrite Forall_forall in Hok. split; [by apply Hok|]. split; [done|]. left. by apply list_elem_of_fmap_2.
  - rewrite Hf in Hex by done. destruct (Hd f Hex Hin) as (k & Hk & -> & Hcase). exists k. split; [done|]. split; [done|]. destruct Hcase as [Hkin|(D & c & lay & ends & tail & HD & Hh)].
    + left. by apply Hsub.
    + right. exists D, c, lay, ends, tail. by rewrite Hf.
Qed.
End open.
