(* ===== verification/Durable.v ===== *)
(** Durability of the binlog: appending entries, losing the end of the file being
    written in a crash, and starting again from the files. *)
From Stdlib Require Import String.
From S2P Require Import Prelude Slice LogFile LogWriter LogLayout LogReader LogRoundtrip LogThms LogLive Random Skiplist SkiplistInv.
From S2P Require Import SkiplistInsert SkiplistSplit SkiplistSpec StdMap Strings LogRoll LogGrow Table MemTable Binlog BinlogWrite BinlogRecover.
From S2P Require Import TableLaws SampleLog ReplicateNode Replicator Tablet LogNames ReplicaLog ReplicaOpen.

(** ** Lists *)
Lemma filter_same {A} (P Q : A -> Prop) `{!forall x, Decision (P x)} `{!forall x, Decision (Q x)} (l : list A) : Forall (fun x => P x <-> Q x) l -> filter P l = filter Q l.
Proof.
  induction 1 as [|x l Hx Hl IH]; [done|]. destruct (decide (P x)) as [Hp|Hp].
  - rewrite !filter_cons_True by tauto. by rewrite IH.
  - rewrite !filter_cons_False by tauto. done.
Qed.
Lemma filter_keep {A} (P : A -> Prop) `{!forall x, Decision (P x)} (l : list A) : Forall P l -> filter P l = l.
Proof. induction 1 as [|x l Hx Hl IH]; [done|]. rewrite filter_cons_True by done. by rewrite IH. Qed.
Lemma filter_ends n j (h : list (LogEntry * Z * nat)) lay ds ends : snd <$> h = ends -> laid 0 ds lay ends -> (forall i e, ends !! i = Some e -> (i < j)%nat -> (e <= n)%nat) ->
  (forall e, ends !! j = Some e -> (n < e)%nat) -> filter (fun x => (x.2 <= n)%nat) h = take j h.
Proof.
  intros Hh Hl Hlow Hhigh. assert (Hall : forall i x, h !! i = Some x -> (x.2 <= n)%nat <-> (i < j)%nat).
  { intros i x Hx. assert (He : ends !! i = Some x.2) by (by rewrite <- Hh, list_lookup_fmap, Hx). split; [|by apply Hlow]. intros Hle.
    destruct (decide (i < j)%nat) as [?|Hge]; [done|]. exfalso. destruct (lookup_lt_is_Some_2 ends j) as [e Hej]; [apply lookup_lt_Some in He; lia|].
    specialize (Hhigh e Hej). pose proof (ends_sorted _ _ _ _ Hl j i e x.2 ltac:(lia) Hej He). lia. }
  clear -Hall. revert j Hall. induction h as [|x h IH]; intros j Hall; [by rewrite take_nil|]. destruct j as [|j].
  - rewrite filter_cons_False; [|intros Hx; apply (Hall 0%nat x eq_refl) in Hx; lia]. cbn [take]. rewrite (IH 0%nat); [done|].
    intros i y Hy. split; [|lia]. intros Hle. apply (Hall (S i) y Hy) in Hle. lia.
  - rewrite filter_cons_True by (apply (Hall 0%nat x eq_refl); lia). cbn [take]. f_equal. apply IH. intros i y Hy. rewrite (Hall (S i) y Hy). lia.
Qed.
Lemma numbered_take start es j : numbered start es -> numbered start (take j es).
Proof. intros Hn i e Hi. apply Hn. eapply lookup_take_Some in Hi as [? _]. done. Qed.

(** * Durable *)
Section durable.
Context `{BinlogFlags} `{Compressors} `{EntryCodecLaws} {T : Type} `{TableLaws T}.

(** The configuration of a partition: where its files are, its followers, the
    table before anything is loaded, and the clocks of the collections *)
Context (root : bytes) (real_ep_map : gmap bytes bytes) (role : ReplicatorRole) (follower : bool) (tid pid : Z).
Context (rpc_init thread_start : bytes -> Z) (clock : Z -> nat -> nat -> Z) (now : nat -> nat -> Z).
Context (t0 : T) (fuel : nat).

(** ** Runs *)

(** The log, and for each entry the number of files there were and the size of
    the file when it had been written *)
Record world : Type := MkWorld { w_fs : FileSystem; w_partition : Partition T; w_history : list (LogEntry * Z * nat) }.
Abbreviation w_log w := (pa_replicator (w_partition w)).

(** The start of a server: the replicator is created and its log loaded.  The
    partition has the format version 0, the default of a table description. *)
Definition start (fs : FileSystem) : option (bool * FileSystem * Partition T) :=
  '(ok, p) ← LogReplicator_Init tid pid rpc_init fs true (LogReplicator_new root real_ep_map role t0 follower);
  let x := MkPartition kUndefined 0 p in
  if negb ok then Some (false, fs, x) else load_binlog fuel clock now thread_start fs 0 x.

(** A crash keeps [n] bytes of the file being written. *)
Definition cut (n : nat) (w : world) : FileSystem :=
  match lp_wh (w_log w) with
  | None => w_fs w
  | Some wh => write_file (wh_path wh) (take n (default [] (fs_files (w_fs w) !! wh_path wh))) (w_fs w)
  end.
(** The entries that lie in earlier files, or in the file before the cut *)
Definition survivors (n : nat) (w : world) : list (LogEntry * Z * nat) :=
  match lp_wh (w_log w) with
  | None => w_history w
  | Some _ => filter (fun h => h.1.2 < lp_binlog_index (w_log w) \/ (h.2 <= n)%nat) (w_history w)
  end.

(** After a start they all are in finished files. *)
Definition settled (h : list (LogEntry * Z * nat)) : list (LogEntry * Z * nat) := (fun x => (x.1.1, 0, 0%nat)) <$> h.

Inductive event : Type := Append (e : LogEntry) | Restart (n : nat).
Definition step (w : world) (ev : event) : option world :=
  match ev with
  | Append e =>
      '(ok, e, fs, p) ← AppendEntry (w_fs w) (w_log w) e;
      _ ← require ok;
      Some (MkWorld fs (set_pa_replicator p (w_partition w)) (w_history w ++ [(e, lp_binlog_index p, file_len fs p)]))
  | Restart n =>
      '(ok, fs, x) ← start (cut n w);
      _ ← require ok;
      Some (MkWorld fs x (settled (survivors n w)))
  end.
Fixpoint run (evs : list event) (w : world) : option world :=
  match evs with
  | [] => Some w
  | ev :: evs' => w ← step w ev; run evs' w
  end.

Definition history_entries (h : list (LogEntry * Z * nat)) : list LogEntry := (fun x => x.1.1) <$> h.

(** ** The invariant *)

Definition path : bytes := root ++ str "/binlog/".

(** The log holds the entries behind [base].  The entries of the file being
    written end at [ends]; the others are in earlier files. *)
Definition history_ok (base : Z) (p : LogReplicator T) (ps : list part) (ends : list nat) (h : list (LogEntry * Z * nat)) : Prop :=
  (0 <= base <= Z.of_nat (length h) /\ drop (Z.to_nat base) (history_entries h) = all_entries ps) /\
  exists h0 h1, h = h0 ++ h1 /\ snd <$> h1 = ends /\
    match lp_wh p with
    | None => Forall (fun x => x.1.2 <= lp_binlog_index p) h
    | Some _ => Forall (fun x => x.1.2 < lp_binlog_index p) h0 /\ Forall (fun x => x.1.2 = lp_binlog_index p) h1
    end.

Record winv (k W : nat) (w : world) base ps ends : Prop := {
  wi_replica : replica (w_fs w) (w_log w) W base ps ends;
  wi_dir : dir_ok (w_fs w) path ps;
  wi_readable : readable (w_fs w) path;
  wi_path : lp_log_path (w_log w) = path;
  wi_entries : (length (w_history w) <= k)%nat;
  wi_parts : (length ps <= k)%nat;
  wi_index : lp_binlog_index (w_log w) <= Z.of_nat k;
  wi_marked : marked (lp_snapshot_log_part_index (w_log w)) (lp_snapshot_last_offset (w_log w)) ps;
  wi_history : history_ok base (w_log w) ps ends (w_history w)
}.
Lemma history_length base (p : LogReplicator T) ps ends h : history_ok base p ps ends h -> (Z.to_nat base + length (all_entries ps) = length h)%nat.
Proof. intros [[Hb <-] _]. unfold history_entries. rewrite length_drop, length_fmap. lia. Qed.
Lemma history_all (p : LogReplicator T) ps ends h : history_ok 0 p ps ends h -> history_entries h = all_entries ps.
Proof. intros [[_ <-] _]. done. Qed.

(** ** Appending *)

Lemma history_append base (p p' : LogReplicator T) ps ps' ends ends1 h e len : history_ok base p ps ends h -> match lp_wh p with None => ends = [] | Some _ => True end ->
  all_entries ps' = all_entries ps ++ [e] -> more_files p p' ends ends1 -> is_Some (lp_wh p') ->
  history_ok base p' ps' (ends1 ++ [len]) (h ++ [(e, lp_binlog_index p', len)]).
Proof.
  intros ([Hb Hes] & h0 & h1 & -> & Hends & Hcase) Hnone Hall Hmf [wh' Hwh']. split.
  { rewrite length_app. cbn [length]. split; [lia|]. unfold history_entries in *. rewrite fmap_app, drop_app_le by (rewrite length_fmap; lia). by rewrite Hes, Hall. }
  rewrite Hwh'. destruct Hmf as [(Hi & -> & Hsome)|(Hi & ->)].
  - destruct (lp_wh p) eqn:Hwh; [|done]. destruct Hcase as [Hc0 Hc1]. exists h0, (h1 ++ [(e, lp_binlog_index p', len)]). split; [by rewrite app_assoc|].
    split; [by rewrite fmap_app, Hends|]. rewrite Hi. split; [done|]. apply Forall_app. by split; [|constructor].
  - exists (h0 ++ h1), [(e, lp_binlog_index p', len)]. split; [done|]. split; [done|]. rewrite Hi. split; [|by constructor].
    destruct (lp_wh p) eqn:Hwh.
    + destruct Hcase as [Hc0 Hc1]. apply Forall_app. split; (eapply Forall_impl; [eassumption|]; cbv beta; lia).
    + eapply Forall_impl; [exact Hcase|]. cbv beta. lia.
Qed.

Lemma append_step k W w base ps ends e : winv k W w base ps ends -> Z.of_nat k < 2 ^ 31 - 1 -> Z.of_nat k < 10 ^ Z.of_nat FLAGS_binlog_name_length ->
  entry_fits (set_log_index (lp_log_offset (w_log w) + 1) e) = true -> Z.of_nat (W + weight (set_log_index (lp_log_offset (w_log w) + 1) e)) + 13 < 2 ^ 62 ->
  exists w' ps' ends', step w (Append e) = Some w' /\ winv (S k) (W + weight (set_log_index (lp_log_offset (w_log w) + 1) e)) w' base ps' ends' /\
    (exists p', w_partition w' = set_pa_replicator p' (w_partition w) /\ same_config (w_log w) p') /\ elsewhere path (w_fs w) (w_fs w') /\
    exists i len, w_history w' = w_history w ++ [(set_log_index (lp_log_offset (w_log w) + 1) e, i, len)].
Proof.
  intros [Hr Hd Hrd Hpath Hes Hps Hidx Hmark Hh] Hk1 Hk2 Hfit HW. set (e' := set_log_index _ e) in *.
  assert (Hiok : index_ok (lp_binlog_index (w_log w))) by (pose proof (rp_next _ _ _ _ _ _ Hr); unfold index_ok; lia).
  pose proof (history_length _ _ _ _ _ Hh) as Hhl. pose proof (rp_base _ _ _ _ _ _ Hr) as Hb0. assert (Hoff : lp_log_offset (w_log w) + 1 < 2 ^ 64) by (rewrite (rp_offset _ _ _ _ _ _ Hr); lia).
  destruct (AppendEntry_spec _ _ _ _ _ _ e Hr Hiok Hoff Hfit HW) as (fs' & p' & ps1 & ps' & ends1 & Happ & Hr' & Hrl & Hext & Hall & Hoff' & Hmf & Hwh & Hsc & Hfr & _).
  destruct (rolled_index _ _ Hrl) as [Hsub Hlen]. pose proof (extends_index _ _ _ Hext) as Hei.
  eexists (MkWorld fs' (set_pa_replicator p' (w_partition w)) (w_history w ++ [(e', lp_binlog_index p', file_len fs' p')])), ps', _. split.
  { cbn [step]. rewrite Happ, bind_some. done. }
  rewrite Hpath in Hfr. split; [|split; [by exists p'|split; [by eapply frame_elsewhere|by eexists _, _]]]. split; cbn [w_fs w_partition w_history set_pa_replicator pa_replicator].
  - exact Hr'.
  - eapply dir_ok_frame; [exact Hd|exact Hfr|by rewrite Hei|]. apply (bl_index _ _ _ _ _ _ (rp_binlog _ _ _ _ _ _ Hr')).
  - destruct Hrd as [? Hden]. split; [done|]. destruct Hfr as [[-> _] _]. done.
  - by rewrite (sc_path _ _ Hsc).
  - rewrite length_app. simpl. lia.
  - apply (f_equal length) in Hei. rewrite !length_fmap in Hei. lia.
  - destruct Hmf as [(-> & _)|(-> & _)]; lia.
  - rewrite (sc_mark _ _ Hsc), (sc_last _ _ Hsc). by eapply marked_append.
  - eapply history_append; [exact Hh| |exact Hall|exact Hmf|exact Hwh]. pose proof (rp_wh _ _ _ _ _ _ Hr) as Hx. by destruct (lp_wh (w_log w)); [|destruct Hx].
Qed.

(** ** A crash *)




(** The parts after the file being written lost its end *)
Lemma crash_parts k W w base ps ends n : winv k W w base ps ends ->
  exists ps', binlog (cut n w) (lp_logs (w_log w)) path W base ps' /\ dir_ok (cut n w) path ps' /\ readable (cut n w) path /\ healthy (cut n w) path /\
    base <= Z.of_nat (length (survivors n w)) /\ drop (Z.to_nat base) (history_entries (survivors n w)) = all_entries ps' /\ (length (survivors n w) <= k)%nat /\ (length ps' <= k)%nat /\
    (forall a q b, ps' = a ++ q :: b -> b <> [] -> pt_closed q = true) /\ Forall (fun q => pt_index q < lp_binlog_index (w_log w)) ps' /\
    exists j, survivors n w = take j (w_history w).
Proof using H2.
  intros [Hr Hd Hrd Hpath Hes Hps Hidx _ ([Hbase Hhe] & h0 & h1 & Hh & Hends & Hcase)]. unfold cut, survivors. pose proof (rp_binlog _ _ _ _ _ _ Hr) as Hb.
  pose proof (rp_wh _ _ _ _ _ _ Hr) as Hwh. pose proof (rp_healthy _ _ _ _ _ _ Hr) as Hhl. rewrite Hpath in *. destruct (lp_wh (w_log w)) as [wh|].
  2: { destruct Hwh as [-> Hcl]. exists ps. split_and!; try done; [lia| |apply Hr|exists (length (w_history w)); by rewrite take_ge]. intros a q b -> _. apply Forall_app in Hcl as [_ Hcl]. by apply Forall_cons in Hcl as [? _]. }
  destruct Hwh as (a & q & -> & Hcl & (D & lay & Hq & Hqc & Hwp & Hwk) & Hlast). destruct Hcase as [Hc0 Hc1].
  rewrite Hwp, (pd_file _ _ _ _ _ _ _ _ Hq). cbn [default from_option]. unfold id. pose proof (pd_holds _ _ _ _ _ _ _ _ Hq) as Hhq. rewrite Hqc in Hhq.
  destruct (holds_cut D (pt_recs q) lay ends n Hhq) as (j & lay' & tail' & Hj & Hcut & Hle & Hln & Hgt).
  set (q' := MkPart (pt_index q) (pt_start q) (take j (pt_entries q)) false).
  assert (Hpd : part_data (write_file (log_file path (pt_index q)) (take n D) (w_fs w)) path W q' (take n D) lay' (take j ends) tail').
  { split; [apply lookup_write|apply Hq| |pose proof (pd_bound _ _ _ _ _ _ _ _ Hq); lia|]. - unfold pt_recs. cbn [q' pt_entries pt_closed]. by rewrite fmap_take. - rewrite length_take. pose proof (pd_length _ _ _ _ _ _ _ _ Hq). lia. }
  assert (Hsur : filter (fun h => h.1.2 < lp_binlog_index (w_log w) \/ (h.2 <= n)%nat) (w_history w) = h0 ++ take j h1).
  { rewrite Hh, filter_app. f_equal.
    - apply filter_keep. eapply Forall_impl; [exact Hc0|]. by left.
    - rewrite <- (filter_ends n j h1 lay (pt_recs q) ends Hends (hd_laid _ _ _ _ _ _ Hhq)).
      + apply filter_same. eapply Forall_impl; [exact Hc1|]. cbv beta. intros x Hx. lia.
      + intros i e He Hi. pose proof (ends_le _ _ _ _ (hd_laid _ _ _ _ _ _ Hcut) i e) as Hx. rewrite lookup_take_lt in Hx by done. specialize (Hx He). lia.
      + exact Hgt. }
  assert (Hl1 : length h1 = length (pt_entries q)).
  { rewrite <- (length_recs q), <- (laid_length _ _ _ _ (hd_laid _ _ _ _ _ _ Hhq)), <- Hends. by rewrite length_fmap. }
  assert (Hsplit : base <= Z.of_nat (length h0) /\ drop (Z.to_nat base) (history_entries h0) = all_entries a /\ history_entries h1 = pt_entries q).
  { rewrite Hh in Hhe, Hbase. rewrite all_entries_app in Hhe. unfold history_entries in *. rewrite fmap_app in Hhe. cbn [all_entries mbind list_bind] in Hhe. rewrite app_nil_r in Hhe.
    assert (Hb0 : base <= Z.of_nat (length h0)).
    { apply (f_equal length) in Hhe. rewrite length_drop, !length_app, !length_fmap in Hhe. rewrite length_app in Hbase. lia. }
    rewrite drop_app_le in Hhe by (rewrite length_fmap; lia). apply app_inj_2 in Hhe; [done|]. by rewrite length_fmap. }
  destruct Hsplit as (Hb0 & He0 & He1). rewrite Hsur. exists (a ++ [q']). pose proof (bl_numbers _ _ _ _ _ _ Hb) as Hnum. apply Forall_app in Hnum as [_ Hnum]. apply Forall_cons in Hnum as [Hnum _].
  assert (Hb' : binlog (write_file (log_file path (pt_index q)) (take n D) (w_fs w)) (lp_logs (w_log w)) path W base (a ++ [q'])).
  { eapply binlog_update; try done; [by apply numbered_take|apply (bl_bound _ _ _ _ _ _ Hb)|by eexists _, _, _, _]. }
  split; [exact Hb'|]. split.
  { eapply dir_ok_frame; [exact Hd| | |apply (bl_index _ _ _ _ _ _ Hb')].
    - change (pt_index q) with (pt_index q'). apply frame_write. apply elem_of_app. right. left.
    - by rewrite !fmap_app. }
  split; [done|]. split; [by apply healthy_write|].
  assert (Hall : drop (Z.to_nat base) (history_entries (h0 ++ take j h1)) = all_entries (a ++ [q'])).
  { unfold history_entries in *. rewrite fmap_app, fmap_take, drop_app_le by (rewrite length_fmap; lia). rewrite He0, He1, all_entries_app. cbn [all_entries mbind list_bind q' pt_entries]. by rewrite app_nil_r. }
  rewrite length_app. split; [lia|]. split; [exact Hall|]. rewrite Hh in Hes. rewrite !length_app in *. cbn [length] in *.
  split; [rewrite length_take; lia|]. split; [done|]. split.
  { intros a' x b' Heq Hnb. destruct (exists_last Hnb) as (b0 & y & ->). rewrite app_comm_cons, app_assoc in Heq. apply app_inj_tail in Heq as [Heq _].
    rewrite Heq in Hcl. apply Forall_app in Hcl as [_ Hcl]. by apply Forall_cons in Hcl as [? _]. }
  pose proof (rp_index _ _ _ _ _ _ Hr) as Hri. apply Forall_app in Hri as [Hra Hrq]. apply Forall_cons in Hrq as [Hrq _]. split; [apply Forall_app; split; [done|]; by constructor|].
  exists (length h0 + j)%nat. by rewrite Hh, take_app_add.
Qed.

(** Nothing is lost when the file keeps its size. *)
Lemma survivors_all k W w base ps ends n : winv k W w base ps ends -> (file_len (w_fs w) (w_log w) <= n)%nat -> survivors n w = w_history w.
Proof using.
  intros [Hr _ _ Hpath _ _ _ _ (Hhe & h0 & h1 & Hh & Hends & Hcase)] Hn. unfold survivors, file_len in *. pose proof (rp_wh _ _ _ _ _ _ Hr) as Hwh. destruct (lp_wh (w_log w)) as [wh|]; [|done].
  destruct Hwh as (a & q & -> & _ & (D & lay & Hq & _ & Hwp & _) & _). destruct Hcase as [Hc0 Hc1]. rewrite Hwp, (pd_file _ _ _ _ _ _ _ _ Hq) in Hn. cbn in Hn.
  pose proof (pd_holds _ _ _ _ _ _ _ _ Hq) as [Hl _ HD _ _]. rewrite app_nil_r in HD. apply filter_keep. rewrite Hh. apply Forall_app. split.
  - eapply Forall_impl; [exact Hc0|]. by left.
  - apply Forall_lookup_2. intros i x Hx. right. pose proof (ends_le _ _ _ _ Hl i x.2) as Hle. rewrite <- Hends, list_lookup_fmap, Hx in Hle. specialize (Hle eq_refl). simpl in Hle. rewrite HD in Hn. lia.
Qed.

(** ** A start *)

Context (rpc_ok : forall point, 0 <= rpc_init point).

Lemma init_nodes_spec eps : forall p, exists ns ends, init_nodes (T := T) tid pid rpc_init eps p = (true, set_lp_nodes (lp_real_ep_map p) ns ends p).
Proof using rpc_ok.
  induction eps as [|[point x] eps IH]; intros p; cbn [init_nodes]; [exists (lp_nodes p), (lp_local_endpoints p); by destruct p|].
  rewrite decide_False by (pose proof (rpc_ok point); lia). destruct (IH (set_lp_nodes (lp_real_ep_map p) (lp_nodes p ++ [ReplicateNode_new point (lp_log_path p) tid pid false]) (lp_local_endpoints p ++ [point]) p)) as (ns & ends & ->).
  by exists ns, ends.
Qed.
Lemma Init_spec fs p : exists ns ends, LogReplicator_Init (T := T) tid pid rpc_init fs true p = LogReplicator_Recover fs (set_lp_nodes (lp_real_ep_map p) ns ends p).
Proof using rpc_ok.
  unfold LogReplicator_Init. cbn [negb]. destruct (lp_role p).
  - destruct (init_nodes_spec (merge_sort (fun a b => string_le a.1 b.1) (map_to_list (lp_real_ep_map p))) p) as (ns & ends & ->). by exists ns, ends.
  - exists (lp_nodes p), (lp_local_endpoints p). by destruct p.
Qed.
Lemma StartSyncing_spec p : exists b ns, StartSyncing (T := T) thread_start p = (b, set_lp_nodes (lp_real_ep_map p) ns (lp_local_endpoints p) p).
Proof using. unfold StartSyncing. destruct (start_nodes thread_start (lp_nodes p)) as [b ns]. by exists b, ns. Qed.

Lemma SetSnapshot_spec fs o p W base ps : binlog fs (lp_logs p) (lp_log_path p) W base ps -> exists i, SetSnapshotLogPartIndex (T := T) fs o p = Some (set_lp_snapshot i o p) /\ marked i o ps.
Proof using.
  intros Hb. unfold SetSnapshotLogPartIndex. set (r := LogReader_SetOffset _ _).
  rewrite (RollRLogFile_first fs _ _ r (bl_logs _ _ _ _ _ _ Hb) (index_keys _ _ _ _ _ _ Hb) (binlog_count _ _ _ _ _ _ Hb) ltac:(done)), bind_some.
  destruct (roll_to _ _ _) as [x r'] eqn:Hroll. eexists. split; [done|]. revert Hroll. unfold roll_to, seq_find. destruct (list_find _ _) as [[j y]|] eqn:Hf; [|rewrite decide_False by lia; intros [= <- <-]; by left].
  apply list_find_Some in Hf as (Hy & Hle & _). apply list_elem_of_lookup_2, elem_of_reverse, list_elem_of_fmap in Hy as (q & -> & Hq).
  case_decide; [|intros [= <- <-]; by left]. case_match; intros [= <- <-]; [right; by exists q|by left].
Qed.

Lemma numbered_max start es : numbered start es -> foldl (fun c e => Z.max c (le_log_index e)) start es = start + Z.of_nat (length es).
Proof using.
  revert start; induction es as [|e es IH]; intros start Hn; cbn [foldl length]; [lia|]. destruct (Hn 0%nat e eq_refl) as [He _]. rewrite Z.max_r by lia.
  rewrite He. cbn [Z.of_nat]. rewrite Z.add_0_r, IH; [lia|]. intros i e' Hi. destruct (Hn (S i) e' Hi) as [-> ?]. split; [lia|done].
Qed.
Lemma close_last_entries ps : all_entries (close_last ps) = all_entries ps /\ length (close_last ps) = length ps /\ pt_index <$> close_last ps = pt_index <$> ps.
Proof using.
  destruct (decide (ps = [])) as [->|Hne]; [done|]. destruct (exists_last Hne) as (a & q & ->). rewrite close_last_snoc, !all_entries_app, !length_app, !fmap_app. done.
Qed.
Lemma close_last_closed ps : (forall a q b, ps = a ++ q :: b -> b <> [] -> pt_closed q = true) -> Forall (fun q => pt_closed q = true) (close_last ps).
Proof using.
  intros Hc. destruct (decide (ps = [])) as [->|Hne]; [constructor|]. destruct (exists_last Hne) as (a & q & ->). rewrite close_last_snoc. apply Forall_app. split; [|by constructor].
  apply Forall_forall. intros x Hx. apply list_elem_of_split in Hx as (a1 & a2 & ->). apply (Hc a1 x (a2 ++ [q])); [by rewrite <- app_assoc|by destruct a2].
Qed.
Lemma filled_closed ps : (forall a q b, ps = a ++ q :: b -> b <> [] -> pt_closed q = true) -> forall a q b, filter filled ps = a ++ q :: b -> b <> [] -> pt_closed q = true.
Proof using.
  intros Hc a q b Heq Hb. assert (Hq : exists a' b', ps = a' ++ q :: b' /\ filter filled b' = b).
  { clear -Heq. revert a Heq. induction ps as [|x ps IH]; intros a Heq; [by destruct a|]. destruct (decide (filled x)) as [Hf|Hf].
    - rewrite filter_cons_True in Heq by done. destruct a as [|y a]; injection Heq as -> Heq; [by exists [], ps|]. destruct (IH a Heq) as (a' & b' & -> & ?). by exists (y :: a'), b'.
    - rewrite filter_cons_False in Heq by done. destruct (IH a Heq) as (a' & b' & -> & ?). by exists (x :: a'), b'. }
  destruct Hq as (a' & b' & -> & <-). apply (Hc a' q b'); [done|]. by intros ->.
Qed.

Context (gc_count : FLAGS_gc_on_table_recover_count <> 0) (clocks : forall n, clock_ok (clock n)) (now_ok : clock_ok now).

Lemma Forall_index (P : Z -> Prop) (l l' : list part) : pt_index <$> l = pt_index <$> l' -> Forall (fun q => P (pt_index q)) l' -> Forall (fun q => P (pt_index q)) l.
Proof using. intros Heq Hf. change (Forall (P ∘ pt_index) l). rewrite <- Forall_fmap, Heq, Forall_fmap. exact Hf. Qed.

(** The files when the log has been read: an end mark may have been added. *)
Lemma loaded_replica fs fs' logs W base ps (p : LogReplicator T) : binlog fs logs path W base ps -> dir_ok fs path ps -> readable fs path -> healthy fs path ->
  (forall a q b, ps = a ++ q :: b -> b <> [] -> pt_closed q = true) -> let ps' := close_last (filter filled ps) in
  touched path (filter filled ps) fs fs' -> binlog fs' (lp_logs p) path W base ps' -> 0 <= base -> lp_log_path p = path -> lp_wh p = None ->
  lp_binlog_index p = next_index 0 (filter filled ps) -> lp_log_offset p = base + Z.of_nat (length (all_entries ps)) ->
  replica fs' p W base ps' [] /\ dir_ok fs' path ps' /\ readable fs' path /\ elsewhere path fs fs'.
Proof using H2.
  intros Hb Hd Hrd Hhl Hcl ps' Htouch Hb2 Hbase Hpath Hwh Hix Hoff. destruct (close_last_entries (filter filled ps)) as (Hce & _ & Hci).
  assert (Hfr : frame path ps' fs fs').
  { destruct Htouch as [->|(q & D & Hq & ->)]; [done|]. apply last_Some in Hq as (a & Hq). unfold ps'. rewrite Hq, close_last_snoc. change (pt_index q) with (pt_index (close q)).
    apply frame_write, elem_of_app. right. left. }
  pose proof (Forall_filled _ _ (bl_index _ _ _ _ _ _ Hb)) as Hok. pose proof (StronglySorted_filter _ filled _ (bl_sorted _ _ _ _ _ _ Hb)) as Hso.
  destruct (next_index_above 0 (filter filled ps) ltac:(done) Hok Hso) as [Hn0 Hnall]. rewrite <- Hix in Hn0, Hnall. split; [|split; [|split]].
  - split; rewrite ?Hpath; try done.
    + unfold ps'. by rewrite Hce, filled_entries.
    + by apply (Forall_index (fun k => k < lp_binlog_index p) _ _ Hci).
    + intros k0. destruct (Hhl k0) as [Hdk Hwk]. destruct Hfr as [[Hfd Hff] _]. split; [by rewrite Hfd|]. unfold writable in *. by rewrite Hff.
    + rewrite Hwh. split; [done|]. apply close_last_closed. by apply filled_closed.
  - eapply dir_ok_frame; [exact (dir_filled fs logs path W base ps Hb Hd)|exact Hfr|by unfold ps'; rewrite Hci|apply (bl_index _ _ _ _ _ _ Hb2)].
  - destruct Hrd as [? Hden]. split; [done|]. destruct Hfr as [[-> _] _]. done.
  - by eapply frame_elsewhere.
Qed.

Lemma settled_entries h : history_entries (settled h) = history_entries h.
Proof using. unfold history_entries, settled. by rewrite <- list_fmap_compose. Qed.
Lemma loaded_winv k W fs base ps x h : replica fs (pa_replicator x) W base (close_last (filter filled ps)) [] -> dir_ok fs path (close_last (filter filled ps)) -> readable fs path ->
  lp_log_path (pa_replicator x) = path -> lp_wh (pa_replicator x) = None -> lp_binlog_index (pa_replicator x) = next_index 0 (filter filled ps) ->
  marked (lp_snapshot_log_part_index (pa_replicator x)) (lp_snapshot_last_offset (pa_replicator x)) (close_last (filter filled ps)) ->
  base <= Z.of_nat (length h) -> drop (Z.to_nat base) (history_entries h) = all_entries ps -> (length h <= k)%nat -> (length ps <= k)%nat ->
  Forall (fun q => pt_index q < Z.of_nat k) ps -> winv k W (MkWorld fs x (settled h)) base (close_last (filter filled ps)) [].
Proof using.
  intros Hr Hd Hrd Hpath Hwh Hix Hmark Hb0 Hhe Hle Hlp Hidx. destruct (close_last_entries (filter filled ps)) as (Hce & Hcl' & _). rewrite filled_entries in Hce.
  assert (Hlen : (length (filter filled ps) <= length ps)%nat) by (clear; induction ps as [|q l IH]; [simpl; lia|]; rewrite filter_cons; case_decide; simpl; lia).
  split; cbn [w_fs w_partition w_history]; try done.
  - unfold settled. by rewrite length_fmap.
  - rewrite Hcl'. lia.
  - rewrite Hix. unfold next_index. destruct (last (filter filled ps)) as [q|] eqn:Hl; [|lia]. apply last_Some in Hl as (a & Hl).
    pose proof (Forall_filled _ _ Hidx) as Hf. rewrite Hl in Hf. apply Forall_app in Hf as [_ Hf]. apply Forall_cons in Hf as [Hq _]. lia.
  - split; [rewrite settled_entries, Hce; unfold settled; rewrite length_fmap; pose proof (rp_base _ _ _ _ _ _ Hr); done|].
    exists (settled h), []. rewrite app_nil_r. split; [done|]. split; [done|]. rewrite Hwh. pose proof (rp_next _ _ _ _ _ _ Hr). apply Forall_fmap, Forall_forall. intros y _. cbn. lia.
Qed.

Lemma start_spec fs logs W ps R a0 : binlog fs logs path W 0 ps -> dir_ok fs path ps -> readable fs path -> healthy fs path ->
  (forall a q b, ps = a ++ q :: b -> b <> [] -> pt_closed q = true) -> (length (all_entries ps) + length ps < fuel)%nat ->
  Forall entry_ok (all_entries ps) -> table_rep R t0 a0 -> (2 * length (all_entries ps) < R)%nat ->
  let ps' := close_last (filter filled ps) in
  exists fs' x, start fs = Some (true, fs', x) /\ replica fs' (pa_replicator x) W 0 ps' [] /\ dir_ok fs' path ps' /\ readable fs' path /\
    lp_log_path (pa_replicator x) = path /\ lp_wh (pa_replicator x) = None /\ lp_binlog_index (pa_replicator x) = next_index 0 (filter filled ps) /\
    lp_term (pa_replicator x) = 0 /\ marked (lp_snapshot_log_part_index (pa_replicator x)) (lp_snapshot_last_offset (pa_replicator x)) ps' /\
    pa_stat x = kNormal /\ pa_format_version x = 0 /\ table_rep (R - 2 * length (all_entries ps) - 1) (pa_table x) (table_gc (abs_replay clock a0 0 0 (all_entries ps)) now).
Proof using All.
  intros Hb Hd Hrd Hhl Hcl Hfuel Hes Ht HR ps'. unfold start. set (p0 := LogReplicator_new root real_ep_map role t0 follower).
  destruct (Init_spec fs p0) as (ns & nends & ->). set (p1 := set_lp_nodes _ ns nends p0).
  destruct (Recover_spec fs logs W 0 ps p1) as (logs' & -> & Hb1); try done; [apply rep_full_rep, Skiplist_new_rep; lia|]. rewrite bind_some. cbv beta iota zeta. cbn [negb].
  change (lp_binlog_index p1) with 0. change (lp_log_path p1) with path in Hb1. set (p2 := set_lp_logs _ logs' p1).
  unfold load_binlog. cbn [SetTableStat pa_replicator]. change (lp_logs p2) with logs'. change (lp_log_path p2) with path. change (lp_table p2) with t0.
  assert (Hlen : (length (filter filled ps) <= length ps)%nat) by (clear; induction ps as [|q l IH]; [simpl; lia|]; rewrite filter_cons; case_decide; simpl; lia).
  destruct (RecoverFromBinlog_spec gc_count clock fs logs' path W 0 (filter filled ps) 0 fuel Hb1) as (fs' & Hb2 & Htouch & Hrec).
  { by right. } { apply Forall_forall. intros q _. apply Hhl. } { unfold rounds. rewrite filled_entries. lia. }
  rewrite Hrec, filled_entries.
  destruct (replay_rep clock (all_entries ps) clocks Hes (R - 2 * length (all_entries ps)) t0 a0 0 0) as (t1 & cnt1 & -> & Ht1).
  { by replace (2 * length (all_entries ps) + (R - 2 * length (all_entries ps)))%nat with R by lia. }
  rewrite bind_some. cbv beta iota. rewrite bind_some. cbv beta iota zeta.
  assert (Hnum : numbered 0 (all_entries ps)) by (apply chained_numbered; apply Hb). rewrite (numbered_max 0 _ Hnum), Z.add_0_l.
  set (p3 := set_lp_offset _ (set_lp_table t1 p2)). destruct (SetSnapshot_spec fs' 0 p3 W 0 _ Hb2) as (i & -> & Hmark). rewrite bind_some.
  destruct (StartSyncing_spec (set_lp_snapshot i 0 p3)) as (b & ns' & ->). set (p4 := set_lp_nodes _ ns' _ _). change (lp_table p4) with t1.
  replace (R - 2 * length (all_entries ps))%nat with (S (R - 2 * length (all_entries ps) - 1)) in Ht1 by lia. destruct (SchedGc_rep _ _ _ now Ht1 now_ok) as (t2 & -> & Ht2). rewrite bind_some.
  eexists fs', _. split; [done|]. cbn [pa_replicator SetTableStat set_pa_replicator pa_stat pa_format_version].
  destruct (loaded_replica fs fs' logs W 0 ps (set_lp_table t2 p4) Hb Hd Hrd Hhl Hcl Htouch Hb2) as (Hr & Hd' & Hrd' & _); [done|done|done|done|cbn; lia|].
  split_and!; try done; apply Hrd'.
Qed.

(** ** Runs from an empty directory *)

Definition boot (fs : FileSystem) : option world :=
  '(ok, fs, x) ← start fs; _ ← require ok; Some (MkWorld fs x []).

(** Entries the codec and the table take, of at most [M] bytes *)
Definition event_ok (M : nat) (ev : event) : Prop :=
  match ev with
  | Append e => entry_fits e = true /\ forall i, 0 <= i < 2 ^ 64 -> entry_ok (set_log_index i e) /\ (length (SerializeToString (set_log_index i e)) <= M)%nat
  | Restart _ => True
  end.

Lemma fits_set_log_index i e : entry_fits e = true -> 0 <= i < 2 ^ 64 -> entry_fits (set_log_index i e) = true.
Proof using.
  unfold entry_fits. cbn [set_log_index le_term le_log_index le_pk le_value le_ts le_dimensions le_ts_dimensions]. rewrite !andb_true_iff. intros Hfe Hi. split_and!; try apply Hfe.
  unfold in_uintb. by apply bool_decide_eq_true_2.
Qed.

(** An entry the log has taken *)
Definition logged (M : nat) (e : LogEntry) : Prop := entry_ok e /\ (length (SerializeToString e) <= M)%nat.
Record run_inv (M k : nat) (base : Z) (w : world) : Prop := {
  rv_inv : exists W ps ends, winv k W w base ps ends /\ (W <= k * (27 * S M))%nat;
  rv_ok : Forall (logged M) (history_entries (w_history w))
}.

Section bounds.
Context (M K R : nat) (a0 : table_abs T).
Context (count : Z.of_nat K < 2 ^ 31 - 1 /\ Z.of_nat K < 10 ^ Z.of_nat FLAGS_binlog_name_length) (sizes : Z.of_nat (K * (27 * S M)) + 13 < 2 ^ 62).
Context (enough : (2 * K < fuel)%nat) (table : table_rep R t0 a0) (room : (2 * K < R)%nat).

Lemma append_run k base w e : run_inv M k base w -> (k < K)%nat -> event_ok M (Append e) ->
  exists w' i len, step w (Append e) = Some w' /\ run_inv M (S k) base w' /\ (exists p', w_partition w' = set_pa_replicator p' (w_partition w) /\ same_config (w_log w) p') /\
    elsewhere path (w_fs w) (w_fs w') /\ w_history w' = w_history w ++ [(set_log_index (Z.of_nat (length (w_history w)) + 1) e, i, len)].
Proof using All.
  intros [(W & ps & ends & Hw & HW) Hok] Hk [Hfit He]. destruct count as [Hc1 Hc2].
  assert (Hoff : lp_log_offset (w_log w) = Z.of_nat (length (w_history w))).
  { rewrite (rp_offset _ _ _ _ _ _ (wi_replica _ _ _ _ _ _ Hw)). pose proof (history_length _ _ _ _ _ (wi_history _ _ _ _ _ _ Hw)). pose proof (rp_base _ _ _ _ _ _ (wi_replica _ _ _ _ _ _ Hw)). lia. }
  assert (Hkk : Z.of_nat (length (w_history w)) <= Z.of_nat k) by (pose proof (wi_entries _ _ _ _ _ _ Hw); lia).
  destruct (He (lp_log_offset (w_log w) + 1)) as [Hoke Hlen]; [lia|].
  assert (Hwt : (weight (set_log_index (lp_log_offset (w_log w) + 1) e) <= 27 * S M)%nat) by (unfold weight; lia).
  assert (Hmul : (k * (27 * S M) + 27 * S M <= K * (27 * S M))%nat) by nia.
  destruct (append_step k W w base ps ends e Hw) as (w' & ps' & ends' & Hst & Hw' & Hp & Hels & i & len & Hh); [lia|lia|apply fits_set_log_index; [done|lia]|lia|].
  exists w', i, len. rewrite Hoff in *. split; [exact Hst|]. split; [|by split]. split.
  - eexists _, ps', ends'. split; [exact Hw'|lia].
  - rewrite Hh. unfold history_entries in *. rewrite fmap_app. apply Forall_app. split; [done|]. by constructor; [|constructor].
Qed.

Lemma restart_run k w n : run_inv M k 0 w -> (k <= K)%nat ->
  exists w', step w (Restart n) = Some w' /\ run_inv M k 0 w' /\ history_entries (w_history w') = history_entries (survivors n w) /\
    (exists j, survivors n w = take j (w_history w)) /\ lp_term (w_log w') = 0 /\ pa_stat (w_partition w') = kNormal /\ pa_format_version (w_partition w') = 0 /\
    table_rep (R - 2 * k - 1) (pa_table (w_partition w')) (table_gc (abs_replay clock a0 0 0 (history_entries (survivors n w))) now).
Proof using All.
  intros [(W & ps & ends & Hw & HW) Hok] Hk.
  destruct (crash_parts k W w 0 ps ends n Hw) as (ps1 & Hb & Hd & Hrd & Hhl & _ & Hhe & Hle & Hlp & Hcl & Hidx & Hpre). change (history_entries (survivors n w) = all_entries ps1) in Hhe.
  assert (Hle1 : (length (all_entries ps1) <= k)%nat) by (rewrite <- Hhe; unfold history_entries; by rewrite length_fmap).
  assert (Hsub : Forall (logged M) (history_entries (survivors n w))).
  { unfold survivors, history_entries in *. destruct (lp_wh (w_log w)); [|done]. apply Forall_fmap. rewrite Forall_fmap in Hok. rewrite Forall_forall in Hok |- *.
    intros x [_ Hx]%list_elem_of_filter. by apply Hok. }
  destruct (start_spec (cut n w) _ W ps1 R a0 Hb Hd Hrd Hhl Hcl) as (fs' & x & Hst & Hr & Hd' & Hrd' & Hpath & Hwh & Hix & Hterm & Hmark & Hsta & Hver & Ht); [lia|rewrite <- Hhe; eapply Forall_impl; [exact Hsub|by intros ? []]|done|lia|].
  exists (MkWorld fs' x (settled (survivors n w))). cbn [step w_partition w_history]. rewrite Hst, bind_some. split; [done|].
  rewrite settled_entries. split; [split|split; [done|split; [done|split; [done|split; [done|split; [done|eapply table_rep_le; [|by rewrite Hhe]; lia]]]]]].
  - exists W, (close_last (filter filled ps1)), []. split; [|done]. apply loaded_winv; try done; [lia|]. eapply Forall_impl; [exact Hidx|]. cbv beta. pose proof (wi_index _ _ _ _ _ _ Hw). lia.
  - cbn [w_history]. by rewrite settled_entries.
Qed.

Lemma boot_run fs : readable fs path -> healthy fs path -> (forall f, is_Some (fs_files fs !! f) -> in_dir path f = false) ->
  exists w, boot fs = Some w /\ run_inv M 0 0 w /\ w_history w = [] /\
    lp_term (w_log w) = 0 /\ pa_stat (w_partition w) = kNormal /\ pa_format_version (w_partition w) = 0 /\ table_rep (R - 1) (pa_table (w_partition w)) (table_gc a0 now).
Proof using All.
  intros Hrd Hhl Hno. assert (Hb : binlog fs (Skiplist_new 12 4) path 0 0 []).
  { split; [apply rep_full_rep, Skiplist_new_rep; lia|apply SSorted_nil|by apply Forall_nil..|done|by apply Forall_nil|done]. }
  assert (Hd : dir_ok fs path []) by (intros f Hf Hin; by rewrite (Hno f Hf) in Hin).
  destruct (start_spec fs _ 0 [] R a0 Hb Hd Hrd Hhl) as (fs' & x & Hst & Hr & Hd' & Hrd' & Hpath & Hwh & Hix & Hterm & Hmark & Hsta & Hver & Ht); [by intros [] ? ?|simpl; lia|constructor|done|simpl; lia|].
  exists (MkWorld fs' x []). unfold boot. rewrite Hst, bind_some. split; [done|]. split; [|split_and!; try done; eapply table_rep_le; [|exact Ht]; simpl; lia]. split; [|constructor].
  exists 0%nat, [], []. split; [|lia]. split; cbn [w_fs w_partition w_history]; try done.
  - rewrite Hix. done.
  - split; [done|]. exists [], []. split; [done|]. split; [done|]. by rewrite Hwh.
Qed.

Lemma run_invs evs : forall k w, run_inv M k 0 w -> (k + length evs <= K)%nat -> Forall (event_ok M) evs -> exists w', run evs w = Some w' /\ run_inv M (k + length evs) 0 w'.
Proof using All.
  induction evs as [|ev evs IH]; intros k w Hr Hk Hev; [exists w; by rewrite Nat.add_0_r|]. apply Forall_cons in Hev as [He Hev]. cbn [length run] in *.
  destruct ev as [e|n].
  - destruct (append_run k 0 w e Hr ltac:(lia) He) as (w1 & i & len & -> & Hr1 & _). rewrite bind_some. rewrite <- Nat.add_succ_comm. apply IH; [done|lia|done].
  - destruct (restart_run k w n Hr ltac:(lia)) as (w1 & -> & Hr1 & _). rewrite bind_some.
    destruct (IH k w1 Hr1 ltac:(lia) Hev) as (w' & Hrun & [(W & ps & ends & [] & HW) Hok]). exists w'. split; [done|]. split; [|done].
    exists W, ps, ends. split; [split; try done; lia|lia].
Qed.
End bounds.
End durable.

(** * DurableClaims: The durability of the binlog, and examples of it. *)
(** C5: Appends and restarts in any order, where a crash before a restart keeps
    an arbitrary number of bytes of the file being written, all succeed.  At any
    time the log holds its entries with consecutive numbers; a further append
    takes the next number; and a restart brings back the table that results from
    replaying exactly the entries that survive: those in finished files and those
    whose record lies before the cut, which are all of them if nothing was cut. *)
Theorem binlog_durable `{BinlogFlags} `{Compressors} `{EntryCodecLaws} {T : Type} `{TableLaws T}
    (root : bytes) (real_ep_map : gmap bytes bytes) (role : ReplicatorRole) (follower : bool) (tid pid : Z) (rpc_init thread_start : bytes -> Z)
    (clock : Z -> nat -> nat -> Z) (now : nat -> nat -> Z) (t0 : T) (a0 : table_abs T) (fs : FileSystem) (evs : list event) (M K R fuel : nat) :
  (forall point, 0 <= rpc_init point) -> FLAGS_gc_on_table_recover_count <> 0 -> (forall n, clock_ok (clock n)) -> clock_ok now ->
  Z.of_nat K < 2 ^ 31 - 1 /\ Z.of_nat K < 10 ^ Z.of_nat FLAGS_binlog_name_length -> Z.of_nat (K * (27 * S M)) + 13 < 2 ^ 62 ->
  (2 * K < fuel)%nat -> table_rep R t0 a0 -> (2 * K < R)%nat ->
  readable fs (path root) -> healthy fs (path root) -> (forall f, is_Some (fs_files fs !! f) -> in_dir (path root) f = false) ->
  Forall (event_ok M) evs -> (length evs < K)%nat ->
  let step := step root real_ep_map role follower tid pid rpc_init thread_start clock now t0 fuel in
  exists w0 w, boot root real_ep_map role follower tid pid rpc_init thread_start clock now t0 fuel fs = Some w0 /\
    run root real_ep_map role follower tid pid rpc_init thread_start clock now t0 fuel evs w0 = Some w /\
    lp_log_offset (pa_replicator (w_partition w)) = Z.of_nat (length (w_history w)) /\ numbered 0 (history_entries (w_history w)) /\
    (forall e, event_ok M (Append e) -> exists w' i len, step w (Append e) = Some w' /\
      w_history w' = w_history w ++ [(set_log_index (Z.of_nat (length (w_history w)) + 1) e, i, len)]) /\
    (forall n, (file_len (w_fs w) (pa_replicator (w_partition w)) <= n)%nat -> survivors n w = w_history w) /\
    (forall n, exists w', step w (Restart n) = Some w' /\ history_entries (w_history w') = history_entries (survivors n w) /\
      table_rep (R - 2 * K) (pa_table (w_partition w')) (table_gc (abs_replay clock a0 0 0 (history_entries (survivors n w))) now)).
Proof.
  intros Hrpc Hgc Hclk Hnow HK Hsz Hfuel Ht HR Hrd Hhl Hno Hev Hlen st.
  destruct (boot_run root real_ep_map role follower tid pid rpc_init thread_start clock now t0 fuel Hrpc Hgc Hclk Hnow M K R a0 HK Hsz Hfuel Ht HR fs Hrd Hhl Hno) as (w0 & Hb & Hr0 & _).
  destruct (run_invs root real_ep_map role follower tid pid rpc_init thread_start clock now t0 fuel Hrpc Hgc Hclk Hnow M K R a0 HK Hsz Hfuel Ht HR evs 0 w0 Hr0 ltac:(lia) Hev) as (w & Hrun & Hr).
  exists w0, w. split; [exact Hb|]. split; [exact Hrun|]. destruct (rv_inv _ _ _ _ _ Hr) as (W & ps & ends & Hw & _). pose proof (wi_replica _ _ _ _ _ _ _ Hw) as Hrep.
  pose proof (history_all _ _ _ _ (wi_history _ _ _ _ _ _ _ Hw)) as Hhe. split.
  { rewrite (rp_offset _ _ _ _ _ _ Hrep), <- Hhe. unfold history_entries. rewrite length_fmap. lia. }
  split; [rewrite Hhe; apply chained_numbered; apply (rp_binlog _ _ _ _ _ _ Hrep)|]. split; [|split].
  - intros e He.
    destruct (append_run root real_ep_map role follower tid pid rpc_init thread_start clock now t0 fuel Hrpc Hgc Hclk Hnow M K R a0 HK Hsz Hfuel Ht HR _ 0 w e Hr ltac:(simpl; lia) He) as (w' & i & len & ? & _ & _ & _ & ?). eauto.
  - intros n Hn. by eapply survivors_all.
  - intros n.
    destruct (restart_run root real_ep_map role follower tid pid rpc_init thread_start clock now t0 fuel Hrpc Hgc Hclk Hnow M K R a0 HK Hsz Hfuel Ht HR _ w n Hr ltac:(simpl; lia)) as (w' & ? & _ & ? & _ & _ & _ & _ & Ht').
    exists w'. split; [done|]. split; [done|]. eapply table_rep_le; [|exact Ht']. simpl. lia.
Qed.

(** Three entries, a crash that keeps 130 bytes of the file, among them the first
    two entries, and one more entry *)
Definition sample_entry (pk : Z) : LogEntry := MkLogEntry (Some 1) 0 [pk] [pk; pk] 7 [] (Some kPut) [].
Definition sample_fs : FileSystem := MkFileSystem ∅ (fun _ => false) (fun _ => []).
Definition sample_events : list event := [Append (sample_entry 3); Append (sample_entry 4); Append (sample_entry 5); Restart 130; Append (sample_entry 6)].

Lemma sample_entry_ok pk : 0 <= pk < 256 -> event_ok (T := journal) 100 (Append (sample_entry pk)).
Proof.
  intros Hpk. split.
  - unfold entry_fits, bytesb, in_uintb. cbn [sample_entry le_term le_log_index le_pk le_value le_ts le_dimensions le_ts_dimensions forallb].
    rewrite !(bool_decide_eq_true_2 (0 <= pk < 256)) by done. by vm_compute.
  - intros i _. split; [done|]. apply Nat.leb_le. by vm_compute.
Qed.
Lemma sample_events_ok : Forall (event_ok (T := journal) 100) sample_events.
Proof. repeat constructor; apply sample_entry_ok; lia. Qed.

Lemma binlog_durable_witness :
  let flag := fun _ : bytes => 0 in let clock := fun (_ : Z) (_ _ : nat) => 0 in let now := fun _ _ : nat => 0 in let t0 : journal := [] in
  exists w0 w w', boot (str "/db") ∅ kLeaderNode false 1 0 flag flag clock now t0 100 sample_fs = Some w0 /\
  run (str "/db") ∅ kLeaderNode false 1 0 flag flag clock now t0 100 sample_events w0 = Some w /\
  le_pk <$> history_entries (w_history w) = [[3]; [4]; [6]] /\
  step (str "/db") ∅ kLeaderNode false 1 0 flag flag clock now t0 100 w (Restart 1000) = Some w' /\
  pa_table (w_partition w') = [CallPut [3] 7 [3; 3]; CallPut [4] 7 [4; 4]; CallPut [6] 7 [6; 6]; CallGc].
Proof.
  intros flag clock now t0.
  destruct (binlog_durable (str "/db") ∅ kLeaderNode false 1 0 flag flag clock now t0 (t0 : @table_abs journal journal_ops journal_laws) sample_fs sample_events 100 20 100 100) as (w0 & w & Hb & Hr & _ & Hn & _ & Hall & Hre).
  - done.
  - done.
  - done.
  - done.
  - by vm_compute.
  - by vm_compute.
  - lia.
  - reflexivity.
  - lia.
  - split; [intros Hx; vm_compute in Hx; discriminate Hx|done].
  - intros k. split; [done|constructor].
  - intros f. cbn. rewrite lookup_empty. by intros [].
  - exact sample_events_ok.
  - simpl. lia.
  - destruct (Hre 1000%nat) as (w' & Hs & _ & Ht). exists w0, w, w'. split; [exact Hb|]. split; [exact Hr|].
    assert (Hsum : (w0 ← boot (str "/db") ∅ kLeaderNode false 1 0 flag flag clock now t0 100 sample_fs;
      w ← run (str "/db") ∅ kLeaderNode false 1 0 flag flag clock now t0 100 sample_events w0;
      Some (le_pk <$> history_entries (w_history w), abs_replay clock (t0 : @table_abs journal journal_ops journal_laws) 0 0 (history_entries (survivors 1000 w)))) =
      Some ([[3]; [4]; [6]], [CallPut [3] 7 [3; 3]; CallPut [4] 7 [4; 4]; CallPut [6] 7 [6; 6]])) by (vm_compute; reflexivity).
    rewrite Hb, bind_some, Hr, bind_some in Hsum. injection Hsum as Hh Hrep. split; [exact Hh|]. split; [exact Hs|]. rewrite Hrep in Ht. exact Ht.
Defined.
