(* ===== verification/Serve.v ===== *)
(** A partition of a tablet server as a durable store: the put and delete
    handlers, restarts and crashes, against a specification that knows tables and
    logs only as an abstract table and a list of entries. *)
From Stdlib Require Import String.
From S2P Require Import Prelude Slice LogFile LogWriter LogLayout LogReader LogRoundtrip LogThms LogLive Random Skiplist SkiplistSpec StdMap.
From S2P Require Import Strings LogRoll LogGrow Table MemTable Binlog BinlogWrite BinlogRecover TableLaws ReplicateNode Replicator Tablet.
From S2P Require Import LogNames ReplicaLog ReplicaOpen Durable.

(** What clients and the machine do; [Crash n] keeps [n] bytes of the file being
    written, [Reboot] all of them. *)
Inductive action : Type := ClientPut (r : PutRequest) | ClientDelete (r : DeleteRequest) | Reboot | Crash (n : nat).

Section serve.
Context `{BinlogFlags} `{Compressors} `{EntryCodecLaws} {T : Type} `{TableLaws T}.
Context (root : bytes) (real_ep_map : gmap bytes bytes) (role : ReplicatorRole) (follower : bool) (tid pid : Z).
Context (rpc_init thread_start : bytes -> Z) (clock : Z -> nat -> nat -> Z) (now : nat -> nat -> Z).
Context (t0 : T) (fuel : nat).

Abbreviation world := (world (T := T)).
Abbreviation step := (step root real_ep_map role follower tid pid rpc_init thread_start clock now t0 fuel).
Abbreviation w_log w := (pa_replicator (w_partition w)).

(** ** The server with one partition *)
Definition tablet (w : world) : TabletImpl T := MkTabletImpl follower {[ (tid, pid) := w_partition w ]} (w_fs w).

(** The index a deletion names *)
Definition delete_index (w : world) (r : DeleteRequest) : Z :=
  match dr_idx_name r with
  | Some ((_ :: _) as name) => default 0 (default None (tbl_ReadyIndexId (pa_table (w_partition w)) name))
  | _ => 0
  end.
(** The state after a request; the history grows with the accepted ones. *)
Definition served (w : world) (e : LogEntry) (res : Z * TabletImpl T) : option (Z * world) :=
  x ← GetPartition res.2 tid pid;
  let p := pa_replicator x in
  Some (res.1, MkWorld (tb_fs res.2) x
    (if decide (res.1 = kOk) then w_history w ++ [(set_log_index (lp_log_offset p) e, lp_binlog_index p, file_len (tb_fs res.2) p)] else w_history w)).

Definition act (w : world) (o : action) : option (Z * world) :=
  match o with
  | ClientPut r => res ← TabletImpl_Put (tablet w) r; served w (put_entry (lp_term (w_log w)) r) res
  | ClientDelete r => res ← TabletImpl_Delete (tablet w) r; served w (delete_entry (lp_term (w_log w)) (dr_key r) (delete_index w r)) res
  | Reboot => w' ← step w (Restart (file_len (w_fs w) (w_log w))); Some (kOk, w')
  | Crash n => w' ← step w (Restart n); Some (kOk, w')
  end.
Fixpoint acts (w : world) (os : list action) : option (list Z * world) :=
  match os with
  | [] => Some ([], w)
  | o :: os' => '(code, w) ← act w o; '(codes, w) ← acts w os'; Some (code :: codes, w)
  end.

(** ** The specification *)
Record store : Type := MkStore { st_live : table_abs T; st_log : list LogEntry }.

Definition log_entry (s : store) (a : table_abs T) (e : LogEntry) : store :=
  MkStore a (st_log s ++ [set_log_index (Z.of_nat (length (st_log s)) + 1) e]).
Definition spec_put (r : PutRequest) (s : store) : Z * store :=
  let e := put_entry 0 r in
  if follower then (kIsFollowerCluster, s)
  else if decide ((pr_tid r, pr_pid r) <> (tid, pid)) then (kTableIsNotExist, s)
  else if decide (default 0 (pr_format_version r) <> 0) then (kPutBadFormat, s)
  else if decide (pr_time r = 0 /\ pr_ts_dimensions r = []) then (kTsMustBeGreaterThanZero, s)
  else if negb (table_leader (st_live s)) then (kTableIsFollower, s)
  else if decide (CheckDimessionPut (pr_dimensions r) (table_idx_cnt (st_live s)) <> 0) then (kInvalidDimensionParameter, s)
  else if (table_put (st_live s) e).1 then (kOk, log_entry s (table_put (st_live s) e).2 e)
  else (kPutFailed, s).
Definition spec_delete (r : DeleteRequest) (s : store) : Z * store :=
  if follower then (kIsFollowerCluster, s)
  else if decide ((dr_tid r, dr_pid r) <> (tid, pid)) then (kTableIsNotExist, s)
  else if negb (table_leader (st_live s)) then (kTableIsFollower, s)
  else
    match match dr_idx_name r with Some ((_ :: _) as name) => table_index (st_live s) name | _ => Some 0 end with
    | None => (kIdxNameNotFound, s)
    | Some idx =>
        if (table_delete (st_live s) (dr_key r) idx).1
        then (kOk, log_entry s (table_delete (st_live s) (dr_key r) idx).2 (delete_entry 0 (dr_key r) idx))
        else (kDeleteFailed, s)
    end.
(** A start: the log is replayed into the table [a0] and collected. *)
Definition reload (a0 : table_abs T) (log : list LogEntry) : store := MkStore (table_gc (abs_replay clock a0 0 0 log) now) log.

(** A crash keeps a part of the log. *)
Inductive store_step (a0 : table_abs T) (s : store) : action -> Z -> store -> Prop :=
  | step_put r : store_step a0 s (ClientPut r) (spec_put r s).1 (spec_put r s).2
  | step_delete r : store_step a0 s (ClientDelete r) (spec_delete r s).1 (spec_delete r s).2
  | step_reboot : store_step a0 s Reboot kOk (reload a0 (st_log s))
  | step_crash n j : store_step a0 s (Crash n) kOk (reload a0 (take j (st_log s))).
Inductive store_steps (a0 : table_abs T) : store -> list action -> list Z -> store -> Prop :=
  | steps_nil s : store_steps a0 s [] [] s
  | steps_cons s o code s1 os codes s2 : store_step a0 s o code s1 -> store_steps a0 s1 os codes s2 -> store_steps a0 s (o :: os) (code :: codes) s2.

(** ** Without collections the table is always the replay of the log *)
Definition plain (P : table_abs T -> Prop) : Prop :=
  (forall a e, P a -> P (table_put a e).2) /\ (forall a key idx, P a -> P (table_delete a key idx).2) /\ (forall a c, P a -> table_gc a c = a).
Definition indexed (start : Z) (log : list LogEntry) : Prop := forall i e, log !! i = Some e -> le_log_index e = start + 1 + Z.of_nat i.

Lemma plain_apply P a e : plain P -> P a -> P (abs_apply a e).
Proof using.
  intros (Hp & Hd & _) Ha. unfold abs_apply. destruct (le_method_type e) as [[]|]; [by apply Hp| |by apply Hp]. destruct (le_dimensions e) as [|[] ?]; [done|by apply Hd].
Qed.
Lemma plain_replay P log : plain P -> forall a cur cnt, P a -> indexed cur log -> abs_replay clock a cur cnt log = foldl abs_apply a log /\ P (foldl abs_apply a log).
Proof using.
  intros HP. induction log as [|e log IH]; intros a cur cnt Ha Hn; [done|]. cbn [abs_replay foldl]. pose proof (Hn 0%nat e eq_refl) as He. rewrite decide_False by lia.
  assert (Ha' : P (abs_apply a e)) by (by apply plain_apply). cbv zeta. pose proof HP as (_ & _ & Hg). rewrite (Hg _ (clock (u64 (cnt + 1))) Ha').
  replace (if decide _ then abs_apply a e else abs_apply a e) with (abs_apply a e) by (by case_decide). apply IH; [done|]. intros i x Hx. pose proof (Hn (S i) x Hx). lia.
Qed.

Definition settled_store (a0 : table_abs T) (s : store) : Prop := st_live s = foldl abs_apply a0 (st_log s) /\ indexed 0 (st_log s).
Lemma settled_log a0 s e a : settled_store a0 s -> a = abs_apply (st_live s) (set_log_index (Z.of_nat (length (st_log s)) + 1) e) -> settled_store a0 (log_entry s a e).
Proof using.
  intros [Hl Hi] ->. split; cbn [log_entry st_live st_log]; [by rewrite foldl_app, Hl|]. intros i x Hx. apply lookup_app_Some in Hx as [Hx|[Hge Hx]]; [by apply Hi|].
  apply list_lookup_singleton_Some in Hx as [Hz <-]. cbn. lia.
Qed.
Lemma settled_reload P a0 log : plain P -> P a0 -> indexed 0 log -> settled_store a0 (reload a0 log).
Proof using. intros HP Ha Hi. split; [|done]. destruct (plain_replay P log HP a0 0 0 Ha Hi) as [Hr Hp]. cbn [reload st_live st_log]. rewrite Hr. by apply HP. Qed.
Lemma settled_step P a0 s o code s' : plain P -> P a0 -> settled_store a0 s -> store_step a0 s o code s' -> settled_store a0 s'.
Proof using.
  intros HP Ha Hs. destruct 1 as [r|r| |n j].
  - unfold spec_put. repeat case_match; try done. apply settled_log; [done|]. cbn. by rewrite <- (table_put_index _ _ (Z.of_nat (length (st_log s)) + 1)).
  - unfold spec_delete. repeat case_match; try done; by apply settled_log.
  - apply (settled_reload P); [done..|apply Hs].
  - apply (settled_reload P); [done..|]. intros i e Hi. apply Hs. by eapply lookup_take_Some in Hi as [? _].
Qed.
Lemma settled_steps P a0 s os codes s' : plain P -> P a0 -> settled_store a0 s -> store_steps a0 s os codes s' -> settled_store a0 s'.
Proof using. intros HP Ha Hs Hst. induction Hst as [|s o code s1 os codes s2 Hone _ IH]; [done|]. apply IH. by eapply settled_step. Qed.

(** ** The requests *)
Lemma put_request_spec (t : T) r term : put_request t r =
  if decide (CheckDimessionPut (pr_dimensions r) (tbl_GetIdxCnt t) <> 0) then Some (inl kInvalidDimensionParameter)
  else x ← tbl_Put t (put_entry term r); Some (inr x).
Proof using.
  unfold put_request, tbl_Put. cbn [put_entry le_dimensions le_ts_dimensions le_pk le_ts le_value].
  destruct (pr_dimensions r) as [|d dims]; [by rewrite decide_False by (intros Hx; by apply Hx)|]. case_decide; [done|]. by destruct (pr_ts_dimensions r).
Qed.

Lemma step_append w e w' : step w (Append e) = Some w' -> exists e' fs p, AppendEntry (w_fs w) (w_log w) e = Some (true, e', fs, p) /\
  w' = MkWorld fs (set_pa_replicator p (w_partition w)) (w_history w ++ [(e', lp_binlog_index p, file_len fs p)]).
Proof using.
  cbn [Durable.step]. destruct (AppendEntry _ _ _) as [[[[ok e'] fs] p]|]; [|done]. rewrite bind_some. destruct ok; [|done]. cbn [require mbind option_bind]. intros [= <-].
  by exists e', fs, p.
Qed.

(** Another table *)
Definition with_table (t : T) (w : world) : world := MkWorld (w_fs w) (set_pa_replicator (set_lp_table t (w_log w)) (w_partition w)) (w_history w).
Lemma run_inv_table M k base t w : run_inv root M k base w -> run_inv root M k base (with_table t w).
Proof using. intros [(W & ps & ends & [[] ? ? ? ? ? ? ?] & HW) Hok]. split; [|done]. exists W, ps, ends. split; [|done]. by split. Qed.
Lemma offset_history M k base w : run_inv root M k base w -> lp_log_offset (w_log w) = Z.of_nat (length (w_history w)).
Proof using.
  intros [(W & ps & ends & Hw & _) _]. pose proof (history_length _ _ _ _ _ (wi_history _ _ _ _ _ _ _ Hw)) as Hl. pose proof (wi_replica _ _ _ _ _ _ _ Hw) as Hr.
  rewrite (rp_offset _ _ _ _ _ _ Hr). pose proof (rp_base _ _ _ _ _ _ Hr). lia.
Qed.

Context (rpc_ok : forall point, 0 <= rpc_init point) (gc_count : FLAGS_gc_on_table_recover_count <> 0).
Context (clocks : forall n, clock_ok (clock n)) (now_ok : clock_ok now).
Context (M K R : nat) (a0 : table_abs T).
Context (count : Z.of_nat K < 2 ^ 31 - 1 /\ Z.of_nat K < 10 ^ Z.of_nat FLAGS_binlog_name_length) (sizes : Z.of_nat (K * (27 * S M)) + 13 < 2 ^ 62).
Context (enough : (2 * K < fuel)%nat) (table : table_rep R t0 a0) (room : (2 * K + 1 < R)%nat).

(** ** The simulation *)
Record serving (k : nat) (base : Z) (w : world) (s : store) : Prop := {
  sv_run : run_inv root M k base w;
  sv_table : table_rep (R - 2 * k - 1) (pa_table (w_partition w)) (st_live s);
  sv_log : history_entries (w_history w) = st_log s;
  sv_term : lp_term (w_log w) = 0;
  sv_stat : pa_stat (w_partition w) = kNormal;
  sv_format : pa_format_version (w_partition w) = 0
}.

Definition action_ok (o : action) : Prop :=
  match o with
  | ClientPut r => event_ok M (Append (put_entry 0 r))
  | ClientDelete r => forall idx, 0 <= idx < 2 ^ 32 -> event_ok M (Append (delete_entry 0 (dr_key r) idx))
  | _ => True
  end.

Lemma serving_le k k' base w s : (k <= k')%nat -> serving k base w s -> serving k' base w s.
Proof using All.
  intros Hk [[(W & ps & ends & [] & HW) ?] Ht ? ? ? ?]. split; try done; [|eapply table_rep_le; [|exact Ht]; lia]. split; [|done].
  exists W, ps, ends. split; [split; try done; lia|]. nia.
Qed.

(** Requests write to log files only, and leave the snapshot's mark. *)
Definition same_rest (w w' : world) : Prop :=
  elsewhere (path root) (w_fs w) (w_fs w') /\ lp_snapshot_last_offset (w_log w') = lp_snapshot_last_offset (w_log w).

(** A request that the table accepted is logged. *)
Lemma accepted k base w s e t a : serving k base w s -> (k < K)%nat -> event_ok M (Append e) -> table_rep (R - 2 * S k - 1) t a ->
  exists e' fs p, AppendEntry (w_fs w) (set_lp_table t (w_log w)) e = Some (true, e', fs, p) /\
    let w' := MkWorld fs (set_pa_replicator p (w_partition w)) (w_history w ++ [(set_log_index (lp_log_offset p) e, lp_binlog_index p, file_len fs p)]) in
    serving (S k) base w' (log_entry s a e) /\ same_rest w w'.
Proof using All.
  intros [Hr Ht Hlog Hterm Hstat Hfmt] Hk He Ht'.
  destruct (append_run root real_ep_map role follower tid pid rpc_init thread_start clock now t0 fuel rpc_ok gc_count clocks now_ok M K R a0 count sizes enough table ltac:(lia) k base
    (with_table t w) e (run_inv_table M k base t w Hr) Hk He) as (w' & i & len & Hs & Hr' & (p' & Hp & Hsc) & Hels & Hh).
  destruct (step_append _ _ _ Hs) as (e' & fs & p & Happ & ->). cbn [with_table w_fs w_partition w_history set_pa_replicator pa_replicator] in *.
  apply app_inv_head in Hh. injection Hh as -> _ _. injection Hp as <-.
  pose proof (offset_history _ _ _ _ Hr') as Hoff. cbn [w_partition w_history set_pa_replicator pa_replicator] in Hoff. rewrite length_app in Hoff. cbn [length] in Hoff.
  exists (set_log_index (Z.of_nat (length (w_history w)) + 1) e), fs, p. split; [exact Happ|].
  cbv zeta. replace (lp_log_offset p) with (Z.of_nat (length (w_history w)) + 1) by lia. split; [|split; [exact Hels|exact (sc_last _ _ Hsc)]]. split; cbn [w_partition set_pa_replicator pa_replicator pa_stat pa_format_version]; try done.
  - unfold pa_table. cbn. rewrite (sc_table _ _ Hsc). exact Ht'.
  - cbn [w_history log_entry st_log]. rewrite <- Hlog. unfold history_entries. by rewrite fmap_app, length_fmap.
  - rewrite (sc_term _ _ Hsc). exact Hterm.
Qed.

Lemma served_same w e code : code <> kOk -> served w e (code, tablet w) = Some (code, w).
Proof using.
  intros Hc. unfold served, tablet, GetPartition. cbn [fst snd tb_partitions tb_fs]. rewrite lookup_singleton_eq. cbn [mbind option_bind]. rewrite decide_False by done. by destruct w.
Qed.
Lemma served_set w e code x fs : served w e (code, set_partition tid pid x fs (tablet w)) =
  Some (code, MkWorld fs x (if decide (code = kOk) then w_history w ++ [(set_log_index (lp_log_offset (pa_replicator x)) e, lp_binlog_index (pa_replicator x), file_len fs (pa_replicator x))] else w_history w)).
Proof using. unfold served, set_partition, GetPartition. cbn [fst snd tb_partitions tb_fs]. by rewrite lookup_insert_eq. Qed.
Lemma get_tablet w tid' pid' : GetPartition (tablet w) tid' pid' = if decide ((tid', pid') <> (tid, pid)) then None else Some (w_partition w).
Proof using.
  unfold GetPartition, tablet. cbn [tb_partitions]. case_decide as Hd; [by apply lookup_singleton_ne|]. rewrite Hd. apply lookup_singleton_eq.
Qed.

(** A request turned away at once *)
Ltac refuse w := rewrite ?bind_some; exists w; by rewrite served_same.

(** A refused call leaves what the table stands for. *)
Lemma refused_serving k base w s t : serving k base w s -> table_rep (R - 2 * S k - 1) t (st_live s) -> serving (S k) base (with_table t w) s.
Proof using All.
  intros Hs Ht. destruct (serving_le k (S k) base w s ltac:(lia) Hs) as [Hr _ Hlog Hterm Hstat Hfmt]. split; try done. by apply run_inv_table.
Qed.

Lemma act_put k base w s r : serving k base w s -> (k < K)%nat -> action_ok (ClientPut r) ->
  exists w', act w (ClientPut r) = Some ((spec_put r s).1, w') /\ serving (S k) base w' (spec_put r s).2 /\ same_rest w w'.
Proof using All.
  intros Hs Hk He. pose proof Hs as [Hr Ht Hlog Hterm Hstat Hfmt]. cbn [action_ok] in He. cbn [act]. unfold TabletImpl_Put, spec_put. cbn [tablet tb_follower]. rewrite Hterm.
  assert (Hsame : serving (S k) base w s) by (eapply serving_le; [|exact Hs]; lia).
  destruct follower; [refuse w|]. fold (tablet w). rewrite get_tablet. case_decide as Hid; [refuse w|].
  injection Hid as Htid Hpid. rewrite Hfmt, Hstat.
  replace (match pr_format_version r with None => bool_decide (0 = 1) | Some v => bool_decide (v <> 0) end) with (bool_decide (default 0 (pr_format_version r) <> 0))
    by (destruct (pr_format_version r); [done|by vm_compute]).
  destruct (decide (default 0 (pr_format_version r) <> 0)) as [Hf|Hf]; [rewrite bool_decide_true by done; refuse w|rewrite bool_decide_false by done].
  case_decide as Htime; [refuse w|].
  rewrite (IsLeader_rep _ _ _ Ht). destruct (table_leader (st_live s)); cbn [negb]; [|refuse w]. rewrite decide_False by done.
  rewrite (put_request_spec _ _ 0), (GetIdxCnt_rep _ _ _ Ht). case_decide as Hck; [refuse w|].
  replace (R - 2 * k - 1)%nat with (S (R - 2 * S k)) in Ht by lia.
  destruct (Put_rep _ _ _ (put_entry 0 r) Ht) as (t & -> & Ht'); [exact (proj1 (proj2 He 0 ltac:(lia)))|]. rewrite !bind_some. apply (table_rep_le (R - 2 * S k - 1)) in Ht'; [|lia].
  destruct (table_put (st_live s) (put_entry 0 r)) as [[] a] eqn:Hput; cbn [fst snd negb] in *.
  - change (lp_term (set_lp_table t (w_log w))) with (lp_term (w_log w)). rewrite Hterm.
    destruct (accepted k base w s (put_entry 0 r) t a Hs Hk He Ht') as (e' & fs & p & Happ & Hs' & Hrest). cbn [tablet tb_fs]. rewrite Happ, !bind_some, Htid, Hpid.
    fold (tablet w). rewrite served_set. cbn [set_pa_replicator pa_replicator]. rewrite decide_True by done. eexists. split; [reflexivity|split; [exact Hs'|exact Hrest]].
  - rewrite bind_some, Htid, Hpid, served_set, decide_False by done. eexists. split; [reflexivity|]. cbn [tablet tb_fs]. split; [|done]. apply (refused_serving k base w s t Hs).
    pose proof (table_put_refused (st_live s) (put_entry 0 r)) as Hx. rewrite Hput in Hx. cbn in Hx. by rewrite (Hx eq_refl) in Ht'.
Qed.

(** What the handler finds for the name in a deletion *)
Lemma delete_index_spec n w a r : table_rep n (pa_table (w_partition w)) a ->
  let i := match dr_idx_name r with Some ((_ :: _) as name) => table_index a name | _ => Some 0 end in
  match dr_idx_name r with Some ((_ :: _) as name) => tbl_ReadyIndexId (pa_table (w_partition w)) name | _ => Some (Some 0) end = Some i /\
  (forall j, i = Some j -> delete_index w r = j /\ 0 <= j < 2 ^ 32).
Proof using All.
  intros Ht. unfold delete_index. destruct (dr_idx_name r) as [[|c name]|]; try (split; [done|]; intros j [= <-]; split; [done|lia]).
  destruct (ReadyIndexId_rep _ _ _ (c :: name) Ht) as [-> Hr]. cbv zeta. split; [done|]. intros j Hj. split; [by rewrite Hj|by apply Hr].
Qed.

Lemma act_delete k base w s r : serving k base w s -> (k < K)%nat -> action_ok (ClientDelete r) ->
  exists w', act w (ClientDelete r) = Some ((spec_delete r s).1, w') /\ serving (S k) base w' (spec_delete r s).2 /\ same_rest w w'.
Proof using All.
  intros Hs Hk He. pose proof Hs as [Hr Ht Hlog Hterm Hstat Hfmt]. cbn [action_ok] in He. cbn [act]. unfold TabletImpl_Delete, spec_delete. cbn [tablet tb_follower]. rewrite Hterm.
  assert (Hsame : serving (S k) base w s) by (eapply serving_le; [|exact Hs]; lia).
  destruct follower; [refuse w|]. fold (tablet w). rewrite get_tablet. case_decide as Hid; [refuse w|]. injection Hid as Htid Hpid. rewrite Hstat.
  rewrite (IsLeader_rep _ _ _ Ht). destruct (table_leader (st_live s)); cbn [negb]; [|refuse w]. rewrite decide_False by done.
  destruct (delete_index_spec _ _ _ r Ht) as [-> Hidx]. rewrite bind_some. destruct (match dr_idx_name r with Some ((_ :: _) as name) => table_index (st_live s) name | _ => Some 0 end) as [idx|]; [|refuse w].
  destruct (Hidx idx eq_refl) as [-> Hrng]. replace (R - 2 * k - 1)%nat with (S (R - 2 * S k)) in Ht by lia.
  destruct (Delete_rep _ _ _ (dr_key r) idx Ht) as (t & -> & Ht'); [lia|]. rewrite !bind_some. apply (table_rep_le (R - 2 * S k - 1)) in Ht'; [|lia].
  destruct (table_delete (st_live s) (dr_key r) idx) as [[] a] eqn:Hdel; cbn [fst snd negb] in *.
  - change (lp_term (set_lp_table t (w_log w))) with (lp_term (w_log w)). rewrite Hterm.
    destruct (accepted k base w s (delete_entry 0 (dr_key r) idx) t a Hs Hk (He idx Hrng) Ht') as (e' & fs & p & Happ & Hs' & Hrest). cbn [tablet tb_fs]. rewrite Happ, !bind_some, Htid, Hpid.
    fold (tablet w). rewrite served_set. cbn [set_pa_replicator pa_replicator]. rewrite decide_True by done. eexists. split; [reflexivity|split; [exact Hs'|exact Hrest]].
  - rewrite bind_some, Htid, Hpid, served_set, decide_False by done. eexists. split; [reflexivity|]. cbn [tablet tb_fs]. split; [|done]. apply (refused_serving k base w s t Hs).
    pose proof (table_delete_refused (st_live s) (dr_key r) idx) as Hx. rewrite Hdel in Hx. cbn in Hx. by rewrite (Hx eq_refl) in Ht'.
Qed.

Lemma act_restart k w s n : serving k 0 w s -> (k <= K)%nat ->
  exists w' j, step w (Restart n) = Some w' /\ serving k 0 w' (reload a0 (take j (st_log s))) /\ ((file_len (w_fs w) (w_log w) <= n)%nat -> take j (st_log s) = st_log s).
Proof using All.
  intros [Hr Ht Hlog Hterm Hstat Hfmt] Hk.
  destruct (restart_run root real_ep_map role follower tid pid rpc_init thread_start clock now t0 fuel rpc_ok gc_count clocks now_ok M K R a0 count sizes enough table ltac:(lia) k w n Hr Hk)
    as (w' & Hst & Hr' & Hh & (j & Hj) & Hterm' & Hstat' & Hfmt' & Ht').
  assert (Hl : history_entries (survivors n w) = take j (st_log s)) by (rewrite Hj, <- Hlog; unfold history_entries; by rewrite fmap_take).
  exists w', j. rewrite Hl in *. split; [done|]. split; [by split|]. intros Hn. destruct (rv_inv _ _ _ _ _ Hr) as (W & ps & ends & Hw & _).
  rewrite <- Hl, (survivors_all root k W w 0 ps ends n Hw Hn). exact Hlog.
Qed.

Lemma act_step k w s o : serving k 0 w s -> (k < K)%nat -> action_ok o -> exists code w' s', act w o = Some (code, w') /\ store_step a0 s o code s' /\ serving (S k) 0 w' s'.
Proof using All.
  intros Hs Hk Ho. destruct o as [r|r| |n].
  - destruct (act_put k 0 w s r Hs Hk Ho) as (w' & Ha & Hs' & _). eexists _, w', _. split; [exact Ha|]. split; [constructor|exact Hs'].
  - destruct (act_delete k 0 w s r Hs Hk Ho) as (w' & Ha & Hs' & _). eexists _, w', _. split; [exact Ha|]. split; [constructor|exact Hs'].
  - destruct (act_restart k w s (file_len (w_fs w) (w_log w)) Hs ltac:(lia)) as (w' & j & Ha & Hs' & Hj). rewrite (Hj (le_n _)) in Hs'. eexists _, w', _. cbn [act]. rewrite Ha.
    split; [reflexivity|]. split; [constructor|]. eapply serving_le; [|exact Hs']. lia.
  - destruct (act_restart k w s n Hs ltac:(lia)) as (w' & j & Ha & Hs' & _). eexists _, w', _. cbn [act]. rewrite Ha. split; [reflexivity|]. split; [apply (step_crash a0 s n j)|].
    eapply serving_le; [|exact Hs']. lia.
Qed.

Lemma acts_steps os : forall k w s, serving k 0 w s -> (k + length os <= K)%nat -> Forall action_ok os ->
  exists codes w' s', acts w os = Some (codes, w') /\ store_steps a0 s os codes s' /\ serving (k + length os) 0 w' s'.
Proof using All.
  induction os as [|o os IH]; intros k w s Hs Hk Hos; cbn [length acts] in *; [exists [], w, s; rewrite Nat.add_0_r; split; [done|]; split; [constructor|done]|].
  apply Forall_cons in Hos as [Ho Hos]. destruct (act_step k w s o Hs ltac:(lia) Ho) as (code & w1 & s1 & -> & Hst & Hs1). rewrite bind_some.
  destruct (IH (S k) w1 s1 Hs1 ltac:(lia) Hos) as (codes & w' & s' & -> & Hsts & Hs'). rewrite bind_some. exists (code :: codes), w', s'. split; [done|].
  split; [by econstructor|]. by rewrite <- Nat.add_succ_comm.
Qed.

Lemma boot_serving fs : readable fs (path root) -> healthy fs (path root) -> (forall f, is_Some (fs_files fs !! f) -> in_dir (path root) f = false) ->
  exists w, boot root real_ep_map role follower tid pid rpc_init thread_start clock now t0 fuel fs = Some w /\ serving 0 0 w (reload a0 []).
Proof using All.
  intros Hrd Hhl Hno.
  destruct (boot_run root real_ep_map role follower tid pid rpc_init thread_start clock now t0 fuel rpc_ok gc_count clocks now_ok M K R a0 count sizes enough table ltac:(lia) fs Hrd Hhl Hno)
    as (w & Hb & Hr & Hh & Hterm & Hstat & Hfmt & Ht). exists w. split; [exact Hb|]. split; try done; [|by rewrite Hh]. eapply table_rep_le; [|exact Ht]. lia.
Qed.

End serve.
