(* ===== verification/ReplicationClaims.v ===== *)
(** Replication from a leader that has been appended to and restarted to a
    follower that starts empty: safety, catching up, and an example. *)
From Stdlib Require Import String.
From S2P Require Import Prelude Slice LogFile LogWriter LogLayout LogReader LogRoundtrip LogThms LogLive Random Skiplist SkiplistInv.
From S2P Require Import SkiplistInsert SkiplistSplit SkiplistSpec StdMap Strings LogRoll LogGrow Table MemTable Binlog BinlogWrite BinlogRecover.
From S2P Require Import TableLaws SampleLog ReplicateNode Replicator Tablet LogNames ReplicaLog ReplicaSend ReplicaFollow Replication.
From S2P Require Import ReplicaOpen Durable Serve.

Section replication.
Context `{BinlogFlags} `{Compressors} `{EntryCodecLaws} {T : Type} `{TableLaws T}.

(** The leader told its term, a node for the follower, and the follower's server *)
Definition join (tid pid : Z) (point : bytes) (term : Z) (leader : world) (follower : TabletImpl T) : system :=
  let p := set_lp_term term (pa_replicator (w_partition leader)) in
  MkSystem (w_fs leader) p (ReplicateNode_new point (lp_log_path p) tid pid false) follower.

Definition sys_event_ok (M : nat) (ev : sys_event) : Prop :=
  match ev with Write e => event_ok M (Append e) | _ => True end.
(** The log of the replicator holds the entries [es], numbered from one. *)
Definition holds fs (p : LogReplicator T) (es : list LogEntry) : Prop := exists W ps ends, replica fs p W 0 ps ends /\ all_entries ps = es.

Lemma log_of_length evs : forall hist, (length (log_of hist evs) <= length hist + length evs)%nat.
Proof using. induction evs as [|[e|net|net] evs IH]; intros hist; cbn [log_of length]; [lia|specialize (IH (hist ++ [set_log_index (Z.of_nat (length hist) + 1) e])); rewrite length_app in IH; cbn [length] in IH; lia|specialize (IH hist); lia..]. Qed.

Lemma log_of_ok M evs : Forall (sys_event_ok M) evs -> forall hist, Z.of_nat (length hist + length evs) < 2 ^ 31 -> numbered 0 hist -> Forall (logged M) hist ->
  numbered 0 (log_of hist evs) /\ Forall (logged M) (log_of hist evs).
Proof using.
  induction 1 as [|[e|net|net] evs Hev Hevs IH]; intros hist Hlen Hnum Hlog; cbn [log_of length] in *; [done| |apply IH; [lia|done..]..].
  destruct Hev as [Hfit He]. apply IH.
  - rewrite length_app. cbn [length]. lia.
  - intros i x. rewrite lookup_app. destruct (hist !! i) as [y|] eqn:Hi; [intros [= <-]; by apply Hnum|]. apply lookup_ge_None in Hi.
    intros Hx. apply list_lookup_singleton_Some in Hx as [Hi0 <-]. split; [cbn; lia|]. apply fits_set_log_index; [done|lia].
  - apply Forall_app. split; [done|]. constructor; [|constructor]. apply He. lia.
Qed.

Context (rootl rootf : bytes) (eps : gmap bytes bytes) (fl ff : bool) (tid pid : Z) (rpc_init thread_start : bytes -> Z) (clock : Z -> nat -> nat -> Z) (now : nat -> nat -> Z).
Context (tl tf : T) (al af : table_abs T) (fsl fsf : FileSystem) (point : bytes) (term : Z) (M K R fuel : nat).
Context (rpc_ok : forall point, 0 <= rpc_init point) (gc_count : FLAGS_gc_on_table_recover_count <> 0) (clocks : forall n, clock_ok (clock n)) (now_ok : clock_ok now).
Context (batches : 0 < FLAGS_binlog_sync_batch_size < 2 ^ 32).
Context (count : Z.of_nat K < 2 ^ 31 - 1 /\ Z.of_nat K < 10 ^ Z.of_nat FLAGS_binlog_name_length) (sizes : Z.of_nat (K * (27 * S M)) + 13 < 2 ^ 62).
Context (enough : (2 * K < fuel)%nat) (tablel : table_rep R tl al) (tablef : table_rep R tf af) (room : (2 * K < R)%nat).
Context (term_ok : 0 <= term) (not_leader : ff = true \/ table_leader af = false).
Context (readl : readable fsl (path rootl)) (healthl : healthy fsl (path rootl)) (emptyl : forall f, is_Some (fs_files fsl !! f) -> in_dir (path rootl) f = false).
Context (readf : readable fsf (path rootf)) (healthf : healthy fsf (path rootf)) (emptyf : forall f, is_Some (fs_files fsf !! f) -> in_dir (path rootf) f = false).

Abbreviation boot_leader := (boot rootl eps kLeaderNode fl tid pid rpc_init thread_start clock now tl fuel fsl).
Abbreviation run_leader := (run rootl eps kLeaderNode fl tid pid rpc_init thread_start clock now tl fuel).
Abbreviation boot_follower := (boot rootf ∅ kFollowerNode ff tid pid rpc_init thread_start clock now tf fuel fsf).

Lemma joined k w f0 hist : run_inv rootl M k 0 w -> run_inv rootf M 0 0 f0 -> w_history f0 = [] -> lp_term (pa_replicator (w_partition f0)) = 0 -> pa_stat (w_partition f0) = kNormal ->
  table_rep (R - 1) (pa_table (w_partition f0)) (table_gc af now) -> hist = history_entries (w_history w) -> history M hist 0 (table_gc af now) ->
  sys_inv tid pid M (R - 1) 0 (table_gc af now) (join tid pid point term w (tablet ff tid pid f0)) hist 0 0 0 k.
Proof using All.
  intros [(W & ps & ends & Hw & HW) _] [(Wf & psf & endsf & Hf & HWf) _] Hnil Hterm Hstat Ht -> Hh. pose proof (wi_replica _ _ _ _ _ _ _ Hw) as Hr. pose proof (history_all _ _ _ _ (wi_history _ _ _ _ _ _ _ Hw)) as Hhe.
  pose proof (wi_replica _ _ _ _ _ _ _ Hf) as Hrf. pose proof (history_all _ _ _ _ (wi_history _ _ _ _ _ _ _ Hf)) as Hfe. rewrite Hnil in Hfe. pose proof (wi_entries _ _ _ _ _ _ _ Hw) as Hlen.
  assert (Hlen' : (length (all_entries ps) <= k)%nat) by (rewrite <- Hhe; unfold history_entries; by rewrite length_fmap).
  split; cbn [join s_fs s_leader s_node s_follower]; try done.
  - exists W, ps, ends. split; [by destruct Hr|]. split_and!; try done.
  - apply (wi_index _ _ _ _ _ _ _ Hw).
  - exists (w_partition f0), Wf, psf, endsf. split; [apply lookup_singleton_eq|]. split; [by rewrite Hstat|]. split; [rewrite table_gc_leader; exact not_leader|].
    pose proof (wi_index _ _ _ _ _ _ _ Hf) as Hi. split; [|split; [lia|split; [right; right; rewrite Hterm; exact term_ok|lia]]]. split.
    + exact Hrf.
    + lia.
    + rewrite <- Hfe. by rewrite drop_0, take_0.
    + rewrite <- Hfe, Nat.sub_0_r. exact Ht.
  - by rewrite Hhe.
Qed.

(** The system from its start: both servers come up, the leader's events all
    succeed, and the invariant holds whatever happens between the two. *)
Lemma replicated levs : Forall (event_ok M) levs -> (length levs < K)%nat ->
  exists w0 w f0, boot_leader = Some w0 /\ run_leader levs w0 = Some w /\ boot_follower = Some f0 /\
    forall evs, Forall (sys_event_ok M) evs -> (length levs + 2 * length evs < K)%nat -> let hist := log_of (history_entries (w_history w)) evs in
      all_apply (table_gc af now) hist -> history M hist 0 (table_gc af now) /\ (length hist <= length levs + length evs)%nat /\
      exists s m o lag, sys_run fuel evs (join tid pid point term w (tablet ff tid pid f0)) = Some s /\
        sys_inv tid pid M (R - 1) 0 (table_gc af now) s hist m o lag (length levs + 2 * length evs).
Proof using All.
  intros Hlev Hlen.
  destruct (boot_run rootl eps kLeaderNode fl tid pid rpc_init thread_start clock now tl fuel rpc_ok gc_count clocks now_ok M K R al count sizes enough tablel room fsl readl healthl emptyl) as (w0 & Hb & Hr0 & _).
  destruct (run_invs rootl eps kLeaderNode fl tid pid rpc_init thread_start clock now tl fuel rpc_ok gc_count clocks now_ok M K R al count sizes enough tablel room levs 0 w0 Hr0 ltac:(lia) Hlev) as (w & Hrun & Hr).
  destruct (boot_run rootf ∅ kFollowerNode ff tid pid rpc_init thread_start clock now tf fuel rpc_ok gc_count clocks now_ok M K R af count sizes enough tablef room fsf readf healthf emptyf)
    as (f0 & Hbf & Hrf & Hnil & Hterm & Hstat & _ & Ht).
  exists w0, w, f0. split; [exact Hb|]. split; [exact Hrun|]. split; [exact Hbf|]. intros evs Hev Hk hist Happ.
  pose proof Hr as [(W & ps & ends & Hw & _) Hok]. pose proof (history_all _ _ _ _ (wi_history _ _ _ _ _ _ _ Hw)) as Hhe. pose proof (wi_entries _ _ _ _ _ _ _ Hw) as Hle. assert (Hle' : (length (history_entries (w_history w)) <= length levs)%nat) by (unfold history_entries; by rewrite length_fmap).
  pose proof (wi_replica _ _ _ _ _ _ _ Hw) as Hrep. pose proof (chained_numbered _ _ (bl_chain _ _ _ _ _ _ (rp_binlog _ _ _ _ _ _ Hrep)) (bl_numbers _ _ _ _ _ _ (rp_binlog _ _ _ _ _ _ Hrep))) as Hnum.
  rewrite <- Hhe in Hnum. destruct (log_of_ok M evs Hev (history_entries (w_history w)) ltac:(lia) Hnum Hok) as [Hnum' Hok']. fold hist in Hnum', Hok'.
  assert (Hh : history M hist 0 (table_gc af now)) by (split; [done|by eapply Forall_impl; [exact Hok'|intros ? []]|by rewrite drop_0|by eapply Forall_impl; [exact Hok'|intros ? []]]).
  pose proof (log_of_length evs (history_entries (w_history w))) as Hll. split; [done|]. split; [unfold hist; lia|].
  destruct (log_of_prefix evs (history_entries (w_history w))) as (es & Hes).
  destruct (run_invariant tid pid fuel M K (R - 1) 0 (table_gc af now) count sizes ltac:(lia) ltac:(lia) batches evs (join tid pid point term w (tablet ff tid pid f0)) (history_entries (w_history w)) 0 0 0 (length levs))
    as (s & m & o & lag & Hs & Hinv & _); [|lia|done|by exists s, m, o, lag].
  apply joined; try done. unfold hist in Hh. rewrite Hes in Hh. by eapply history_prefix.
Qed.

(** What the follower has: the first [m] of the leader's entries [hist], the same
    in its log and in its table; the leader does not count on more. *)
Definition in_step (s : system) (hist : list LogEntry) (m : nat) : Prop :=
  exists x, GetPartition (s_follower s) tid pid = Some x /\ (m <= length hist)%nat /\ 0 <= rn_last_sync_offset (s_node s) <= Z.of_nat m /\
    holds (s_fs s) (s_leader s) hist /\ holds (tb_fs (s_follower s)) (pa_replicator x) (take m hist) /\
    table_rep (R - 1 - m) (pa_table x) (foldl abs_apply (table_gc af now) (take m hist)).
Lemma inv_in_step s hist m o lag k : sys_inv tid pid M (R - 1) 0 (table_gc af now) s hist m o lag k -> in_step s hist m.
Proof using.
  intros [(W & ps & ends & Hr & Hes & HW & Hn) Hi (x & Wf & psf & endsf & Hx & _ & _ & [Hrf Hrng Hef Ht] & _) Hack Hh Hlen]. exists x. rewrite drop_0 in Hef.
  split; [done|]. split; [apply Hrng|]. split; [|split; [by exists W, ps, ends|split; [by exists Wf, psf, endsf|by rewrite Hef in Ht]]].
  unfold node_inv in Hn. destruct (rn_log_matched (s_node s)); [by rewrite (no_offset _ _ _ _ _ _ _ _ _ _ Hn)|]. destruct Hn as (_ & -> & _). split; [done|apply Nat2Z.is_nonneg].
Qed.

(** C1: A leader that has been appended to and restarted replicates to a follower
    that starts empty.  Whatever further entries are written, and whichever
    requests are lost, stay unanswered or arrive twice, every step is defined, and
    the follower holds a beginning of the leader's log, in its own log and as the
    contents of its table; the offset the leader keeps for it never exceeds what
    it holds.  The follower's table must accept the entries of the log
    ([all_apply]): an entry it refuses is never acknowledged. *)
Theorem replication_safe levs : Forall (event_ok M) levs -> (length levs < K)%nat ->
  exists w0 w f0, boot_leader = Some w0 /\ run_leader levs w0 = Some w /\ boot_follower = Some f0 /\
    forall evs, Forall (sys_event_ok M) evs -> (length levs + 2 * length evs < K)%nat -> let hist := log_of (history_entries (w_history w)) evs in
      all_apply (table_gc af now) hist -> exists s m, sys_run fuel evs (join tid pid point term w (tablet ff tid pid f0)) = Some s /\ in_step s hist m.
Proof using All.
  intros Hlev Hlen. destruct (replicated levs Hlev Hlen) as (w0 & w & f0 & Hb & Hr & Hf & Hall). exists w0, w, f0. split_and!; try done. intros evs Hev Hk hist Happ.
  destruct (Hall evs Hev Hk Happ) as (_ & _ & s & m & o & lag & Hs & Hinv). exists s, m. split; [exact Hs|]. by eapply inv_in_step.
Qed.

(** C2: From any state that replication can reach, once requests come through
    again the follower catches up: one round that matches the offsets and a
    bounded number of rounds that send entries bring it all of the leader's log,
    which the follower's table must accept ([all_apply]). *)
Theorem replication_catches_up levs : Forall (event_ok M) levs -> (length levs < K)%nat ->
  exists w0 w f0, boot_leader = Some w0 /\ run_leader levs w0 = Some w /\ boot_follower = Some f0 /\
    forall evs N, Forall (sys_event_ok M) evs -> (3 * length levs + 5 * length evs < N)%nat -> (length levs + 2 * (length evs + N) < K)%nat ->
      let hist := log_of (history_entries (w_history w)) evs in all_apply (table_gc af now) hist ->
      exists s, sys_run fuel (evs ++ Match Delivered :: replicate N (Sync Delivered)) (join tid pid point term w (tablet ff tid pid f0)) = Some s /\ in_step s hist (length hist).
Proof using All.
  intros Hlev Hlen. destruct (replicated levs Hlev Hlen) as (w0 & w & f0 & Hb & Hr & Hf & Hall). exists w0, w, f0. split_and!; try done. intros evs N Hev HN Hk hist Happ.
  destruct (Hall evs Hev ltac:(lia) Happ) as (_ & Hle & s & m & o & lag & Hs & Hinv). fold hist in Hle, Hinv. rewrite run_app, Hs, bind_some. cbn [sys_run].
  destruct (match_step tid pid fuel M K (R - 1) 0 (table_gc af now) count sizes ltac:(lia) ltac:(lia) batches s hist m o lag _ Delivered Hinv ltac:(lia)) as (s1 & o1 & lag1 & -> & Hinv1 & Ho & Hm).
  rewrite bind_some. specialize (Hm (or_introl eq_refl)).
  pose proof (matched_lag tid pid fuel M K (R - 1) 0 (table_gc af now) count sizes ltac:(lia) ltac:(lia) batches _ _ _ _ _ _ Hinv1 ltac:(lia) Hm) as Hlag.
  pose proof (si_acked _ _ _ _ _ _ _ _ _ _ _ _ Hinv1) as Hack.
  destruct (catch_up tid pid fuel M K (R - 1) 0 (table_gc af now) count sizes ltac:(lia) ltac:(lia) batches N s1 hist m o1 lag1 _ Hinv1 Hm ltac:(lia) ltac:(lia)) as (s' & o' & lag' & Hrun & Hinv').
  exists s'. split; [exact Hrun|]. by eapply inv_in_step.
Qed.
End replication.

(** ** An example *)

(** The leader after the appends and the crash of [sample_events]; then more is
    written while requests are lost, unanswered and repeated. *)
Definition sample_rounds : list sys_event :=
  [Write (sample_entry 7); Match Lost; Match Delivered; Sync NoAnswer; Write (sample_entry 8); Sync Twice].
Lemma sample_rounds_ok : Forall (sys_event_ok (T := journal) 100) sample_rounds.
Proof. repeat (apply Forall_cons; split); try done; apply sample_entry_ok; lia. Qed.

Definition is_put (e : LogEntry) : Prop := le_method_type e = Some kPut.
Lemma journal_all_apply es : Forall is_put es -> forall a : @table_abs journal journal_ops journal_laws, all_apply a es.
Proof.
  induction 1 as [|e es He Hes IH]; intros a; [done|]. split; [|by apply IH].
  unfold applies. rewrite He. cbn [table_put journal_laws]. unfold tbl_Put. by destruct (le_dimensions e) as [|[] ?], (le_ts_dimensions e).
Qed.
Lemma log_of_put evs : forall hist, Forall is_put hist -> Forall (fun ev => match ev with Write e => is_put e | _ => True end) evs -> Forall is_put (log_of hist evs).
Proof.
  induction evs as [|[e|net|net] evs IH]; intros hist Hh Hevs; cbn [log_of]; [done| |apply Forall_cons in Hevs as [_ Hevs]; by apply IH..].
  apply Forall_cons in Hevs as [He Hevs]. apply IH; [|done]. apply Forall_app. by split; [|constructor].
Qed.

Definition empty_journal : @table_abs journal journal_ops journal_laws := [].
Lemma sample_history (w0 w : world (T := journal)) : let flag := fun _ : bytes => 0 in let clock := fun (_ : Z) (_ _ : nat) => 0 in let now := fun _ _ : nat => 0 in let t0 : journal := [] in
  boot (str "/db") ∅ kLeaderNode false 1 0 flag flag clock now t0 400 sample_fs = Some w0 ->
  run (str "/db") ∅ kLeaderNode false 1 0 flag flag clock now t0 400 sample_events w0 = Some w ->
  history_entries (w_history w) = imap (fun i e => set_log_index (Z.of_nat i + 1) e) [sample_entry 3; sample_entry 4; sample_entry 6].
Proof.
  intros flag clock now t0 Hb Hr.
  assert (Hsum : (w0 ← boot (str "/db") ∅ kLeaderNode false 1 0 flag flag clock now t0 400 sample_fs;
    w ← run (str "/db") ∅ kLeaderNode false 1 0 flag flag clock now t0 400 sample_events w0; Some (history_entries (w_history w))) =
    Some (imap (fun i e => set_log_index (Z.of_nat i + 1) e) [sample_entry 3; sample_entry 4; sample_entry 6])) by (vm_compute; reflexivity).
  rewrite Hb, bind_some, Hr, bind_some in Hsum. by injection Hsum.
Qed.
Lemma fresh_dir : readable sample_fs (path (str "/db")) /\ healthy sample_fs (path (str "/db")) /\ forall f, is_Some (fs_files sample_fs !! f) -> in_dir (path (str "/db")) f = false.
Proof.
  split; [split; [intros Hx; vm_compute in Hx; discriminate Hx|done]|]. split; [intros k; split; [done|constructor]|].
  intros f. cbn. rewrite lookup_empty. by intros [].
Qed.

Lemma replication_safe_witness :
  let flag := fun _ : bytes => 0 in let clock := fun (_ : Z) (_ _ : nat) => 0 in let now := fun _ _ : nat => 0 in let t0 : journal := [] in
  exists w f0 s m, boot (str "/db") ∅ kFollowerNode true 1 0 flag flag clock now t0 400 sample_fs = Some f0 /\
    sys_run 400 sample_rounds (join 1 0 (str "f") 2 w (tablet true 1 0 f0)) = Some s /\
    in_step (T := journal) 1 0 now empty_journal 300 s (log_of (history_entries (w_history w)) sample_rounds) m.
Proof.
  intros flag clock now t0. destruct fresh_dir as (Hrd & Hhl & Hno).
  destruct (replication_safe (T := journal) (str "/db") (str "/db") ∅ false true 1 0 flag flag clock now t0 t0 empty_journal empty_journal sample_fs sample_fs (str "f") 2 100 120 300 400) with (levs := sample_events)
    as (w0 & w & f0 & Hb & Hr & Hf & Hall); [done|done|done|done|done|by vm_compute|by vm_compute|lia|reflexivity|reflexivity|lia|lia|by left|done..|exact sample_events_ok|simpl; lia|].
  destruct (Hall sample_rounds sample_rounds_ok) as (s & m & Hs & Hin); [simpl; lia|apply journal_all_apply, log_of_put; [rewrite (sample_history _ _ Hb Hr)|]; repeat (apply Forall_cons; split); done|].
  by exists w, f0, s, m.
Defined.

Lemma replication_catches_up_witness :
  let flag := fun _ : bytes => 0 in let clock := fun (_ : Z) (_ _ : nat) => 0 in let now := fun _ _ : nat => 0 in let t0 : journal := [] in
  exists w f0 s x, boot (str "/db") ∅ kFollowerNode true 1 0 flag flag clock now t0 400 sample_fs = Some f0 /\
    sys_run 400 (sample_rounds ++ Match Delivered :: replicate 46 (Sync Delivered)) (join 1 0 (str "f") 2 w (tablet true 1 0 f0)) = Some s /\
    GetPartition (s_follower s) 1 0 = Some x /\ pa_table x = CallGc :: ((fun k => CallPut [k] 7 [k; k]) <$> [3; 4; 6; 7; 8]).
Proof.
  intros flag clock now t0. destruct fresh_dir as (Hrd & Hhl & Hno).
  destruct (replication_catches_up (T := journal) (str "/db") (str "/db") ∅ false true 1 0 flag flag clock now t0 t0 empty_journal empty_journal sample_fs sample_fs (str "f") 2 100 120 300 400) with (levs := sample_events)
    as (w0 & w & f0 & Hb & Hr & Hf & Hall); [done|done|done|done|done|by vm_compute|by vm_compute|lia|reflexivity|reflexivity|lia|lia|by left|done..|exact sample_events_ok|simpl; lia|].
  destruct (Hall sample_rounds 46%nat sample_rounds_ok) as (s & Hs & x & Hx & _ & _ & _ & _ & Ht);
    [simpl; lia|simpl; lia|apply journal_all_apply, log_of_put; [rewrite (sample_history _ _ Hb Hr)|]; repeat (apply Forall_cons; split); done|].
  exists w, f0, s, x. split; [exact Hf|]. split; [exact Hs|]. split; [exact Hx|]. rewrite take_ge, (sample_history _ _ Hb Hr) in Ht by done. exact Ht.
Defined.
