(* ===== verification/MemTableInv.v ===== *)
(** The invariant of a memory table in which every inner index has one ready
    index with at most one timestamp column: its segments hold what the
    abstract table says, and a data block counts the rows that refer to it. *)
From S2P Require Import Prelude Slice Random Skiplist SkiplistInv SkiplistInsert SkiplistSplit SkiplistSpec SkiplistNodes Segment SegmentGc.
From S2P Require Import SegmentRelease SegmentInv SegmentGcInv SegmentOps SegmentRefine SegmentClaims StdMap Hash TableIndex TableParse Table.
From S2P Require Import MemTable MemTableGc.

(** * MemTableCell: One segment of a table: the invariant of a segment whose blocks are shared
    with other segments, and what the table's operations do to it. *)
(** The keys of a segment and the removed keys in its free list *)
Record cell : Type := MkCell { ce_live : list keyed; ce_dead : list (Z * keyed) }.
Definition cell_blocks (c : cell) : list nat := seg_blocks (ce_live c) (ce_dead c).

Section cell.
Context `{SmallLayout}.

(** The segment [s] of a table with [n] segments per index is the one numbered
    [j] and holds [c]; no reader holds a key. *)
Record cell_rep (n : Z) (offset : Z) (map : gmap Z nat) (j : nat) (s : Segment) (c : cell) : Prop := {
  cr_core : seg_core s (ce_live c) (ce_dead c);
  cr_nonempty : Forall (fun x => rows_of x <> []) (ce_live c);
  cr_idx : idx_cnt_ s = u64 (Z.of_nat (total_rows (ce_live c ++ (ce_dead c).*2)));
  cr_readers : Forall (fun x => ks_refs x.2 = 0) (ce_live c);
  cr_route : Forall (fun x => seg_of n x.1 = j) (ce_live c);
  cr_offset : ttl_offset_ s = offset;
  cr_map : ts_idx_map_ s = map
}.

Lemma cell_inv n offset map j s c bs R : cell_rep n offset map j s c -> blocks_rep bs (cell_blocks c ++ R) ->
  seg_inv s bs (ce_live c) (ce_dead c) R.
Proof. intros [] Hb. by split. Qed.

Lemma cell_rows n offset map j s c bs R x r : cell_rep n offset map j s c -> blocks_rep bs (cell_blocks c ++ R) ->
  x ∈ ce_live c -> r ∈ rows_of x -> is_Some (bs !! r.1.2).
Proof. intros Hc Hb. eapply seg_inv_blocks. by eapply cell_inv. Qed.

Lemma length_cell_blocks c : length (cell_blocks c) = total_rows (ce_live c ++ (ce_dead c).*2).
Proof. apply length_keyed_blocks. Qed.

(** ** Insertion of a shared block *)

Lemma row_view_ins bs t b h rows blk : rows_sorted rows -> bs !! b = Some blk ->
  row_view bs <$> ins_at (newer t rows) (t, b, h) rows = add_row t (data blk) (row_view bs <$> rows).
Proof.
  intros Hs Hb. unfold ins_at, add_row. rewrite fmap_app, fmap_cons, take_newer, drop_newer, filter_gt_view, filter_le_view by done.
  f_equal. f_equal. unfold row_view. cbn. by rewrite Hb.
Qed.

Lemma view_put_row s bs live dead key t b h live' blk : seg_core s live dead -> bs !! b = Some blk -> put_keys key t b h live live' ->
  view bs live' = abs_put key t (data blk) (view bs live).
Proof.
  intros Hc Hb Hp. pose proof (sc_distinct _ _ _ Hc) as Hnd. unfold abs_put. destruct Hp as [la x lb x' Hx Hs Hr Hrows|live0 x n Hk Hx Hr Hrows].
  - assert (Hperm : forall y : keyed, la ++ y :: lb ≡ₚ y :: la ++ lb) by (intros; by rewrite Permutation_middle).
    destruct Hs as (E1 & _). rewrite (view_perm bs _ _ Hnd (Hperm x)).
    rewrite (view_perm _ _ (x' :: la ++ lb)); [|rewrite fmap_app, fmap_cons, <- E1, <- fmap_cons, <- fmap_app; done|apply Hperm].
    rewrite !view_cons, <- E1, Hx, lookup_insert_eq, insert_insert_eq. cbn. f_equal. rewrite Hrows.
    apply row_view_ins; [|done]. eapply rows_of_sorted; [exact Hc|apply elem_of_app_cons].
  - rewrite (view_perm _ _ (x :: live0)); [|rewrite fmap_ins_at, ins_at_perm; constructor; by rewrite ?Hx|apply ins_at_perm].
    rewrite view_cons, Hx, (view_absent bs live0 key Hk), Hrows. cbn. f_equal. unfold row_view. cbn. by rewrite Hb.
Qed.

(** [put_keys] keeps what is true of every key *)
Lemma put_keys_forall (P : bytes -> Prop) key t b h live live' : put_keys key t b h live live' -> P key ->
  Forall (fun x => P x.1) live -> Forall (fun x => P x.1) live'.
Proof.
  intros Hp Hk Hl. destruct Hp as [la x lb x' Hx (E & _) _ _|live0 x n _ Hx _ _].
  - rewrite Forall_app, Forall_cons in *. by rewrite <- E.
  - rewrite ins_at_perm. constructor; [by rewrite Hx|done].
Qed.
Lemma put_keys_readers key t b h live live' : put_keys key t b h live live' ->
  Forall (fun x => ks_refs x.2 = 0) live -> Forall (fun x => ks_refs x.2 = 0) live'.
Proof.
  intros Hp Hl. destruct Hp as [la x lb x' _ _ E _|live0 x n _ _ E _].
  - rewrite Forall_app, Forall_cons in *. by rewrite E.
  - rewrite ins_at_perm. by constructor.
Qed.

Lemma cell_put n offset map j s c key t b bs blk : cell_rep n offset map j s c -> key_ok key -> seg_of n key = j -> bs !! b = Some blk ->
  exists s' c', Put_row s key t b = Some s' /\ cell_rep n offset map j s' c' /\ cell_blocks c' ≡ₚ b :: cell_blocks c /\
    view bs (ce_live c') = abs_put key t (data blk) (view bs (ce_live c)).
Proof.
  intros [C1 C2 C3 C4 C5 C6 C7] Hk Hj Hb.
  destruct (Put_row_spec s _ _ key t b C1 Hk) as (s' & live' & h & Hput & Hp & Hc' & Hi' & [F1 F2 F3]).
  destruct (put_keys_effect _ _ _ _ _ _ Hp) as (Hbl & Htot & Hnon).
  exists s', (MkCell live' (ce_dead c)). split; [done|]. split; [split; cbn [ce_live ce_dead]|split]; try done.
  - by apply Hnon.
  - rewrite Hi', C3, uwrap_add_l. f_equal. rewrite !total_rows_app, Htot. lia.
  - by eapply put_keys_readers.
  - by eapply (put_keys_forall (fun k => seg_of n k = j)).
  - by rewrite F2.
  - by rewrite F3.
  - unfold cell_blocks, seg_blocks. cbn [ce_live ce_dead]. by rewrite !keyed_blocks_app, Hbl.
  - by eapply view_put_row.
Qed.

(** ** Deletion *)
Lemma cell_delete n offset map j s c key bs R : cell_rep n offset map j s c -> blocks_rep bs (cell_blocks c ++ R) ->
  exists s' c', Segment.Delete s key = Some (bool_decide (is_Some (view bs (ce_live c) !! key)), s') /\ cell_rep n offset map j s' c' /\
    cell_blocks c' ≡ₚ cell_blocks c /\ view bs (ce_live c') = delete key (view bs (ce_live c)).
Proof.
  intros Hc Hb. pose proof (cell_inv _ _ _ _ _ _ _ _ Hc Hb) as Hi. destruct c as [live dead]. cbn [ce_live ce_dead] in *.
  destruct (decide (key ∈ live.*1)) as [(la & x & lb & -> & <-)%live_split|Hk].
  - destruct (Delete_present _ _ _ _ _ _ _ Hi) as (s' & -> & [I1 I2 I3 I4] & [F1 F2 F3]). destruct Hc as [C1 C2 C3 C4 C5 C6 C7]. cbn [ce_live ce_dead] in *.
    pose proof (sc_distinct _ _ _ C1) as Hnd.
    assert (Hperm : la ++ x :: lb ≡ₚ x :: la ++ lb) by (by rewrite Permutation_middle).
    exists s', (MkCell (la ++ lb) (ins_at (free_pos (gc_version_ s) dead) (gc_version_ s, x) dead)).
    rewrite Forall_app, Forall_cons in C4, C5. rewrite (view_perm _ _ _ Hnd Hperm), view_cons, lookup_insert_eq. split; [done|].
    split; [split; cbn [ce_live ce_dead]; try done; [apply Forall_app; tauto|apply Forall_app; tauto|by rewrite F2|by rewrite F3]|]. split.
    + unfold cell_blocks, seg_blocks. cbn [ce_live ce_dead]. rewrite fmap_ins_at, ins_at_perm. cbn [snd]. by rewrite <- Permutation_middle, perm_mid, <- app_assoc.
    + cbn [ce_live]. rewrite delete_insert_id; [done|]. apply view_absent. rewrite Hperm in Hnd. by apply NoDup_cons in Hnd as [? _].
  - rewrite (Delete_absent _ _ _ _ _ _ Hi Hk), (view_absent bs live key Hk). exists s, (MkCell live dead).
    split; [done|]. split; [done|]. split; [done|]. cbn [ce_live]. by rewrite delete_id by (by apply view_absent).
Qed.

(** ** Collection *)

(** [IncrGcVersion] *)
Lemma cell_incr n offset map j s c : cell_rep n offset map j s c -> cell_rep n offset map j (IncrGcVersion s) c.
Proof.
  intros [C1 C2 C3 C4 C5 C6 C7]. split; try done. eapply core_same_lists; [exact C1|done..| |done|done]. eapply owned_same; [|apply C1]. by split.
Qed.

Lemma total_rows_take n (dead : list (Z * keyed)) : (total_rows (take n dead).*2 <= total_rows dead.*2)%nat.
Proof. rewrite <- (take_drop n dead) at 2. rewrite fmap_app, total_rows_app. lia. Qed.

Lemma cell_free n offset map j s c bs R st : cell_rep n offset map j s c -> blocks_rep bs (cell_blocks c ++ R) -> stat_ok st ->
  exists s' c' bs' st' k, GcFreeList s bs st = Some (s', bs', st') /\ cell_rep n offset map j s' c' /\ blocks_rep bs' (cell_blocks c' ++ R) /\
    gc_step bs bs' st st' k /\ ce_live c' = ce_live c /\ (length (cell_blocks c') <= length (cell_blocks c))%nat.
Proof.
  intros Hc Hb Hst. destruct (GcFreeList_spec s bs st _ _ R (cell_inv _ _ _ _ _ _ _ _ Hc Hb) Hst) as (s' & bs' & st' & E & [I1 I2 I3 I4] & Hg & [F1 F2 F3]).
  destruct Hc as [C1 C2 C3 C4 C5 C6 C7]. set (d := take _ (ce_dead c)) in *. exists s', (MkCell (ce_live c) d), bs', st'. eexists.
  split; [exact E|]. split; [split; cbn [ce_live ce_dead]; try done; [by rewrite F2|by rewrite F3]|]. split; [done|]. split; [exact Hg|]. split; [done|].
  rewrite !length_cell_blocks. cbn [ce_live ce_dead]. rewrite !total_rows_app. apply Nat.add_le_mono_l. unfold d.
  apply total_rows_take.
Qed.

Lemma cell_execute n offset map j s c bs R st micros ttl : cell_rep n offset map j s c -> blocks_rep bs (cell_blocks c ++ R) -> stat_ok st ->
  ttl_ok ttl -> Z.of_nat (length (cell_blocks c)) < 2 ^ 64 ->
  exists s' c' bs' st' k, ExecuteGc s micros ttl bs st = Some (s', bs', st') /\ cell_rep n offset map j s' c' /\ blocks_rep bs' (cell_blocks c' ++ R) /\
    gc_step bs bs' st st' k /\ view bs' (ce_live c') = abs_gc (abs_keep offset (u64 (micros / 1000)) ttl) (view bs (ce_live c)) /\
    (length (cell_blocks c') <= length (cell_blocks c))%nat.
Proof.
  intros Hc Hb Hst Ht Hlen. pose proof (cell_inv _ _ _ _ _ _ _ _ Hc Hb) as Hi. pose proof Hc as [C1 C2 C3 C4 C5 C6 C7].
  assert (Hlb : live_bounded (ce_live c)).
  { apply Forall_forall. intros x Hx. unfold rows_bounded. rewrite length_cell_blocks, total_rows_app in Hlen.
    destruct (list_elem_of_split _ _ Hx) as (la & lb & E). rewrite E, total_rows_app, total_rows_cons in Hlen. lia. }
  pose proof (ExecuteGc_spec s bs st _ _ R Hi Hst Hlb micros ttl Ht) as Hg. rewrite C6 in Hg.
  assert (Hrule : forall x, x ∈ ce_live c -> abs_keep offset (u64 (micros / 1000)) ttl (row_view bs <$> rows_of x) =
    match ttl_rule offset (u64 (micros / 1000)) ttl with Some keep => row_view bs <$> take (keep (rows_of x)) (rows_of x) | None => row_view bs <$> rows_of x end).
  { intros x Hx. apply rule_keep. by eapply rows_of_sorted. }
  set (K := abs_keep offset (u64 (micros / 1000)) ttl) in *. destruct (ttl_rule offset (u64 (micros / 1000)) ttl) as [keep|].
  - destruct Hg as (s' & bs' & st' & Hx & [I1 I2 I3 I4] & Hstep & [F1 F2 F3]).
    exists s', (MkCell (gc_keys keep (gc_version_ s) (ce_live c) (ce_dead c)).1 (gc_keys keep (gc_version_ s) (ce_live c) (ce_dead c)).2), bs', st'. eexists.
    assert (Hkeys : forall x, x ∈ (gc_keys keep (gc_version_ s) (ce_live c) (ce_dead c)).1 -> exists y, x = cut_key keep y /\ y ∈ ce_live c).
    { intros x. rewrite gc_keys_fst. by intros [_ (y & -> & Hy)%list_elem_of_fmap]%list_elem_of_filter; eauto. }
    rewrite Forall_forall in C4, C5. split; [exact Hx|]. split.
    { split; cbn [ce_live ce_dead]; try done; [| |by rewrite F2|by rewrite F3].
      - apply Forall_forall. intros x (y & -> & Hy)%Hkeys. by apply (C4 y).
      - apply Forall_forall. intros x (y & -> & Hy)%Hkeys. by apply (C5 y). }
    split; [done|]. split; [exact Hstep|]. split.
    + rewrite <- (view_gc bs keep K (ce_live c) (sc_distinct _ _ _ C1)), <- (gc_keys_fst keep (gc_version_ s) _ (ce_dead c)).
      * apply view_same; [|apply Hstep]. intros x r Hxl Hr. eapply (seg_inv_blocks s' bs'); [by split|done|done].
      * intros x Hxl. rewrite Hrule by done. change (rows_of (cut_key keep x)) with (take (cut_len keep x) (rows_of x)).
        unfold cut_len, kept_rows. by rewrite (C4 x Hxl), decide_True by lia.
    + rewrite !length_cell_blocks. cbn [ce_live ce_dead]. pose proof (gc_keys_total keep (gc_version_ s) (ce_live c) (ce_dead c)). lia.
  - cbn in Hg. exists s, c, bs, st, 0%nat. split; [done|]. split; [done|]. split; [done|]. split; [by apply gc_step_refl|]. split; [|done].
    symmetry. apply abs_gc_id. intros key rows (la & x & lb & El & _ & ->)%view_present.
    assert (x ∈ ce_live c) as Hxin by (rewrite El; apply elem_of_app_cons). split; [by apply Hrule|].
    rewrite Forall_forall in C2. intros ?%fmap_nil_inv. by apply (C2 x).
Qed.

(** One segment of [SchedGc] *)
Lemma cell_gc n offset map j s c bs R st micros k0 ttl : cell_rep n offset map j s c -> blocks_rep bs (cell_blocks c ++ R) -> stat_ok st ->
  ttl_ok ttl -> Z.of_nat (length (cell_blocks c)) < 2 ^ 64 ->
  exists s' c' bs' st' k, gc_segment s micros [(k0, ttl)] bs st = Some (s', bs', st') /\ cell_rep n offset map j s' c' /\
    blocks_rep bs' (cell_blocks c' ++ R) /\ gc_step bs bs' st st' k /\
    view bs' (ce_live c') = abs_gc (abs_keep offset (u64 (micros / 1000)) ttl) (view bs (ce_live c)) /\
    (length (cell_blocks c') <= length (cell_blocks c))%nat.
Proof.
  intros Hc Hb Hst Ht Hlen.
  destruct (cell_free n offset map j (IncrGcVersion s) c bs R st (cell_incr _ _ _ _ _ _ Hc) Hb Hst) as (s1 & c1 & bs1 & st1 & k1 & E1 & Hc1 & Hb1 & Hg1 & Hl1 & Hle1).
  destruct (cell_execute n offset map j s1 c1 bs1 R st1 micros ttl Hc1 Hb1 (gc_step_ok _ _ _ _ _ Hg1) Ht ltac:(lia))
    as (s2 & c2 & bs2 & st2 & k2 & E2 & Hc2 & Hb2 & Hg2 & Hv2 & Hle2).
  exists s2, c2, bs2, st2, (k1 + k2)%nat. unfold gc_segment. rewrite E1. cbn [mbind option_bind]. split; [done|]. split; [done|]. split; [done|].
  split; [by eapply gc_step_trans|]. split; [|lia]. rewrite Hv2, Hl1. f_equal.
  apply view_same; [|apply Hg1]. intros x r Hx Hr. rewrite <- Hl1 in Hx. by eapply (cell_rows _ _ _ _ _ _ _ _ x r Hc1 Hb1).
Qed.
End cell.

(** * MemTableSpec: The abstract memory table: one map from keys to rows per index, with the
    operations on it. *)
(** The calls of a table, each answering [true] or [false] *)
Inductive mem_op : Type :=
  | MPut (pk : bytes) (time : Z) (value : bytes)
  | MPutDims (time : Z) (value : bytes) (dims : list (Z * bytes))
  | MPutTs (dims : list (Z * bytes)) (ts_dims : list (Z * Z)) (value : bytes)
  | MDelete (pk : bytes) (idx : Z)
  | MSchedGc (micros : nat -> nat -> Z)
  | MSetTTL (u : UpdateTTLMeta)
  | MSetExpire (b : bool).

Section machine.
Context `{Layout}.
Definition run_mem_op (o : mem_op) (m : MemTable) : option (bool * MemTable) :=
  match o with
  | MPut pk time value => MemTable_Put m pk time value
  | MPutDims time value dims => MemTable_Put_dims m time value dims
  | MPutTs dims ts_dims value => MemTable_Put_ts m dims ts_dims value
  | MDelete pk idx => MemTable_Delete m pk idx
  | MSchedGc micros => m ← SchedGc m micros; Some (true, m)
  | MSetTTL u => Some (true, set_mt_table (Table_SetTTL (mt_table m) u) m)
  | MSetExpire b => Some (true, SetExpire b m)
  end.
Fixpoint run_mem_ops (os : list mem_op) (m : MemTable) : option (list bool * MemTable) :=
  match os with
  | [] => Some ([], m)
  | o :: os' => '(out, m) ← run_mem_op o m; '(outs, m) ← run_mem_ops os' m; Some (out :: outs, m)
  end.
End machine.

(** ** The abstract table

    The contents of each index, the definitions of the indexes, the TTL changes
    that wait for the next collection, and whether rows expire. *)
Record abs_table : Type := AbsTable {
  at_content : list content;
  at_defs : list IndexDef;
  at_pending : list UpdateTTLMeta;
  at_gc : bool
}.

(** The key of a row for each index it names: the first one counts.  No row is
    accepted for an index that does not exist. *)
Fixpoint dims_keys (n : nat) (dims : list (Z * bytes)) (km : list (Z * bytes)) : option (list (Z * bytes)) :=
  match dims with
  | [] => Some km
  | (idx, key) :: rest => if decide (idx < Z.of_nat n) then dims_keys n rest (emplace Z_before idx key km) else None
  end.

(** The row under each of its keys *)
Definition put_all (time : nat -> Z) (value : bytes) (km : list (Z * bytes)) (cs : list content) : list content :=
  foldl (fun cs kv => alter (abs_put kv.2 (time (Z.to_nat kv.1)) value) (Z.to_nat kv.1) cs) cs km.

(** The time of a row for an index with a timestamp column *)
Definition ts_time (d : IndexDef) (ts_dims : list (Z * Z)) : option Z :=
  c ← ts_column_ d; '(_, e) ← list_find (fun e => e.1 = cd_ts_idx c) ts_dims; Some e.2.
Definition def_time (defs : list IndexDef) (ts_dims : list (Z * Z)) (i : nat) : Z :=
  default 0 (d ← defs !! i; ts_time d ts_dims).

(** Which rows a collection keeps: the clock is that of the key's segment. *)
Definition gc_content_at (seg_cnt offset : Z) (micros : nat -> Z) (ttl : TTLSt) (m : content) : content :=
  map_imap (fun key rows => nonempty_rows (abs_keep offset (u64 (micros (seg_of seg_cnt key) / 1000)) ttl rows)) m.
Definition gc_contents (seg_cnt offset : Z) (micros : nat -> nat -> Z) (defs : list IndexDef) (cs : list content) : list content :=
  imap (fun i m => match ttl_st_ <$> defs !! i with
                   | Some (Some ttl) => gc_content_at seg_cnt offset (micros i) ttl m
                   | _ => m
                   end) cs.

Definition apply_pending (us : list UpdateTTLMeta) (d : IndexDef) : IndexDef :=
  foldl (fun d u => if ttl_applies u d then TableIndex.SetTTL (um_ttl u) d else d) d us.

Definition abs_mem_op (seg_cnt offset : Z) (o : mem_op) (a : abs_table) : bool * abs_table :=
  let '(AbsTable cs defs pending gc) := a in
  match o with
  | MPut pk time value => (true, AbsTable (put_all (fun _ => time) value [(0, pk)] cs) defs pending gc)
  | MPutDims time value dims =>
      match dims_keys (length defs) dims [] with
      | None => (false, a)
      | Some km =>
          if existsb (fun kv => match defs !! Z.to_nat kv.1 with Some d => bool_decide (is_Some (ts_column_ d)) | None => false end) km
          then (false, a)
          else (true, AbsTable (put_all (fun _ => time) value km cs) defs pending gc)
      end
  | MPutTs dims ts_dims value =>
      if decide (dims = [] \/ ts_dims = []) then (false, a)
      else
        match dims_keys (length defs) dims [] with
        | None => (false, a)
        | Some km => (true, AbsTable (put_all (def_time defs ts_dims) value km cs) defs pending gc)
        end
  | MDelete pk idx =>
      match cs !! Z.to_nat idx with
      | None => (false, a)
      | Some m => (bool_decide (is_Some (m !! pk)), AbsTable (<[Z.to_nat idx := delete pk m]> cs) defs pending gc)
      end
  | MSchedGc micros =>
      (true, AbsTable (if gc then gc_contents seg_cnt offset micros defs cs else cs) (apply_pending pending <$> defs) [] gc)
  | MSetTTL u => (true, AbsTable cs defs (pending ++ [u]) gc)
  | MSetExpire b => (true, AbsTable cs defs pending b)
  end.
Fixpoint abs_mem_ops (seg_cnt offset : Z) (os : list mem_op) (a : abs_table) : list bool * abs_table :=
  match os with
  | [] => ([], a)
  | o :: os' =>
      let '(out, a) := abs_mem_op seg_cnt offset o a in
      let '(outs, a) := abs_mem_ops seg_cnt offset os' a in
      (out :: outs, a)
  end.

(** * MemTableInv *)
(** ** The indexes *)
Definition def_map (d : IndexDef) : gmap Z nat := match ts_column_ d with Some c => {[cd_ts_idx c := 0%nat]} | None => ∅ end.
Definition def_ok (i : nat) (d : IndexDef) : Prop :=
  status_ d = kReady /\ inner_pos_ d = Z.of_nat i /\ (exists ttl, ttl_st_ d = Some ttl /\ ttl_ok ttl) /\
  match ts_column_ d with Some c => 0 <= cd_ts_idx c < 2 ^ 31 | None => True end /\ index_id_ d = Z.of_nat i.

Record index_rep (t : TableIndex) (defs : list IndexDef) : Prop := {
  ix_multi : multi_ts_indexs_ t = [];
  ix_nodup : NoDup (indexs_ t);
  ix_inner : ii_index <$> inner_indexs_ t = (fun p => [p]) <$> indexs_ t;
  ix_defs : Forall2 (fun p d => def_at t p = Some d) (indexs_ t) defs;
  ix_pos : forall idx, 0 <= idx -> GetInnerIndexPos t idx = if decide (idx < Z.of_nat (length defs)) then idx else -1;
  ix_ok : forall i d, defs !! i = Some d -> def_ok i d;
  ix_num : (length defs <= MAX_INDEX_NUM)%nat
}.

Lemma ix_lookup t defs i d : index_rep t defs -> defs !! i = Some d -> exists p, indexs_ t !! i = Some p /\ def_at t p = Some d.
Proof. intros Hx Hd. destruct (Forall2_lookup_r _ _ _ _ _ (ix_defs _ _ Hx) Hd) as (p & Hp & E). eauto. Qed.

Lemma ix_length t defs : index_rep t defs -> length (indexs_ t) = length defs.
Proof. intros Hx. apply (Forall2_length _ _ _ (ix_defs _ _ Hx)). Qed.

Lemma ix_inner_at t defs i d : index_rep t defs -> defs !! i = Some d ->
  exists x p, inner_indexs_ t !! i = Some x /\ ii_index x = [p] /\ def_at t p = Some d.
Proof.
  intros Hx Hd. destruct (ix_lookup _ _ _ _ Hx Hd) as (p & Hp & E). pose proof (ix_inner _ _ Hx) as Hin.
  apply (f_equal (.!! i)) in Hin. rewrite !list_lookup_fmap, Hp in Hin. destruct (inner_indexs_ t !! i) as [x|]; [|done].
  injection Hin as Hin. eauto.
Qed.

Lemma ix_GetIndex t defs idx : index_rep t defs ->
  GetIndex t idx = indexs_ t !! Z.to_nat idx.
Proof. intros Hx. unfold GetIndex. by rewrite (ix_multi _ _ Hx). Qed.

(** ** Cells of the table *)
Section cells.
Context `{SmallLayout}.

Fixpoint arr_rep (n offset : Z) (map : gmap Z nat) (j : nat) (arr : list Segment) (ci : list cell) : Prop :=
  match arr, ci with
  | [], [] => True
  | s :: arr', c :: ci' => cell_rep n offset map j s c /\ arr_rep n offset map (S j) arr' ci'
  | _, _ => False
  end.

Lemma arr_rep_length n offset map arr : forall j ci, arr_rep n offset map j arr ci -> length arr = length ci.
Proof. induction arr as [|s arr IH]; intros j [|c ci]; simpl; try done. intros [_ Hr]. f_equal. by eapply IH. Qed.

Lemma arr_rep_lookup n offset map arr : forall j0 ci j c, arr_rep n offset map j0 arr ci -> ci !! j = Some c ->
  exists s, arr !! j = Some s /\ cell_rep n offset map (j0 + j) s c.
Proof.
  induction arr as [|s arr IH]; intros j0 [|c0 ci] j c; simpl; try done. intros [Hs Hr] Hj. destruct j as [|j].
  - injection Hj as <-. exists s. by rewrite Nat.add_0_r.
  - destruct (IH _ _ _ _ Hr Hj) as (s' & Hs' & Hc). exists s'. by rewrite Nat.add_succ_r.
Qed.

Lemma arr_rep_alter n offset map arr : forall j0 ci j s' c', arr_rep n offset map j0 arr ci -> cell_rep n offset map (j0 + j) s' c' ->
  arr_rep n offset map j0 (alter (fun _ => s') j arr) (<[j := c']> ci).
Proof.
  induction arr as [|s arr IH]; intros j0 [|c0 ci] j s' c'; simpl; try done. intros [Hs Hr] Hc. destruct j as [|j]; simpl.
  - split; [by rewrite Nat.add_0_r in Hc|done].
  - split; [done|]. apply IH; [done|]. by rewrite Nat.add_succ_r in Hc.
Qed.

Definition segs_rep (n offset : Z) (defs : list IndexDef) (segs : list (option (list Segment))) (cs : list (list cell)) : Prop :=
  length cs = length defs /\
  (forall i d ci, defs !! i = Some d -> cs !! i = Some ci ->
    length ci = Z.to_nat n /\ exists arr, segs !! i = Some (Some arr) /\ arr_rep n offset (def_map d) 0 arr ci) /\
  (forall i x, (length defs <= i)%nat -> segs !! i = Some x -> x = None).

Lemma segs_rep_at n offset defs segs cs i d : segs_rep n offset defs segs cs -> defs !! i = Some d ->
  exists ci arr, cs !! i = Some ci /\ length ci = Z.to_nat n /\ segs !! i = Some (Some arr) /\ arr_rep n offset (def_map d) 0 arr ci.
Proof.
  intros (Hl & Hs & _) Hd. assert (is_Some (cs !! i)) as [ci Hci] by (apply lookup_lt_is_Some; rewrite Hl; by eapply lookup_lt_Some).
  destruct (Hs i d ci Hd Hci) as (Hn & arr & Harr & Hr). by exists ci, arr.
Qed.

Lemma segs_rep_alter n offset defs segs cs i d ci j s' c' : segs_rep n offset defs segs cs -> defs !! i = Some d -> cs !! i = Some ci ->
  cell_rep n offset (def_map d) j s' c' ->
  segs_rep n offset defs (alter (fmap (alter (fun _ => s') j)) i segs) (<[i := <[j := c']> ci]> cs).
Proof.
  intros (Hl & Hs & Htl) Hd Hci Hc. split; [by rewrite length_insert|]. split; [|intros k x Hk Hx; apply (Htl k x Hk);
    rewrite list_lookup_alter_ne in Hx by (apply lookup_lt_Some in Hd; lia); done]. intros i' d' ci' Hd' Hci'. destruct (decide (i' = i)) as [->|Hne].
  - rewrite list_lookup_insert_eq in Hci' by (by eapply lookup_lt_Some). injection Hci' as <-. rewrite Hd in Hd'. injection Hd' as <-.
    destruct (Hs i d ci Hd Hci) as (Hn & arr & Harr & Hr). split; [by rewrite length_insert|]. rewrite list_lookup_alter_eq, Harr.
    eexists. split; [reflexivity|]. by apply arr_rep_alter.
  - rewrite list_lookup_insert_ne in Hci' by done. rewrite list_lookup_alter_ne by done. by apply Hs.
Qed.

Lemma segs_rep_set n offset defs segs cs i d arr' ci' : segs_rep n offset defs segs cs -> defs !! i = Some d -> (i < length segs)%nat ->
  length ci' = Z.to_nat n -> arr_rep n offset (def_map d) 0 arr' ci' ->
  segs_rep n offset defs (<[i := Some arr']> segs) (<[i := ci']> cs).
Proof.
  intros (Hl & Hs & Htl) Hd Hi Hn Hr. split; [by rewrite length_insert|]. split; [|intros k x Hk Hx; apply (Htl k x Hk);
    rewrite list_lookup_insert_ne in Hx by (apply lookup_lt_Some in Hd; lia); done]. intros i' d' ci0 Hd' Hci0. destruct (decide (i' = i)) as [->|Hne].
  - assert (i < length cs)%nat as Hlt by (rewrite Hl; by eapply lookup_lt_Some). rewrite list_lookup_insert_eq in Hci0 by done.
    injection Hci0 as <-. rewrite Hd in Hd'. injection Hd' as <-. split; [done|]. exists arr'. by rewrite list_lookup_insert_eq.
  - rewrite list_lookup_insert_ne in Hci0 by done. rewrite list_lookup_insert_ne by done. by apply Hs.
Qed.
End cells.

(** ** The blocks the cells refer to *)
Definition cells_blocks (cs : list (list cell)) : list nat := mjoin cs ≫= cell_blocks.

Lemma bind_insert_perm {A} (f : A -> list nat) (l : list A) i x : l !! i = Some x ->
  exists rest, l ≫= f ≡ₚ f x ++ rest /\ forall y, <[i := y]> l ≫= f ≡ₚ f y ++ rest.
Proof.
  intros Hx. exists ((take i l ≫= f) ++ (drop (S i) l ≫= f)). split.
  - rewrite <- (take_drop_middle l i x Hx) at 1. rewrite bind_app. cbn. rewrite !app_assoc. by rewrite (Permutation_app_comm (take i l ≫= f)).
  - intros y. rewrite insert_take_drop by (by eapply lookup_lt_Some). rewrite bind_app. cbn.
    rewrite !app_assoc. by rewrite (Permutation_app_comm (take i l ≫= f)).
Qed.

Lemma cells_blocks_alter cs i ci : cs !! i = Some ci ->
  exists rest, cells_blocks cs ≡ₚ (ci ≫= cell_blocks) ++ rest /\ forall ci', cells_blocks (<[i := ci']> cs) ≡ₚ (ci' ≫= cell_blocks) ++ rest.
Proof.
  intros Hi. assert (Hc : forall l : list (list cell), cells_blocks l = l ≫= (fun c => c ≫= cell_blocks)).
  { induction l as [|c l IH]; [done|]. unfold cells_blocks in *. change (mjoin (c :: l)) with (c ++ mjoin l). by rewrite bind_app, IH. }
  destruct (bind_insert_perm (fun c => c ≫= cell_blocks) cs i ci Hi) as (rest & H1 & H2). exists rest. split; [by rewrite Hc|].
  intros ci'. by rewrite Hc.
Qed.

Lemma cells_blocks_cell cs i ci j c : cs !! i = Some ci -> ci !! j = Some c ->
  exists rest, cells_blocks cs ≡ₚ cell_blocks c ++ rest /\ forall c', cells_blocks (<[i := <[j := c']> ci]> cs) ≡ₚ cell_blocks c' ++ rest.
Proof.
  intros Hi Hj. destruct (cells_blocks_alter _ _ _ Hi) as (rest & H1 & H2). destruct (bind_insert_perm cell_blocks ci j c Hj) as (rest' & H3 & H4).
  exists (rest' ++ rest). split; [by rewrite H1, H3, app_assoc|]. intros c'. by rewrite H2, H4, app_assoc.
Qed.

(** ** The contents *)
Lemma alter_insert {A} (f : A -> A) (l : list A) i x : l !! i = Some x -> alter f i l = <[i := f x]> l.
Proof.
  intros Hx. apply list_eq. intros k. destruct (decide (k = i)) as [->|Hne].
  - rewrite list_lookup_alter_eq, Hx, list_lookup_insert_eq; [done|]. by eapply lookup_lt_Some.
  - by rewrite list_lookup_alter_ne, list_lookup_insert_ne.
Qed.

Definition index_view (bs : blocks) (n : Z) (ci : list cell) (key : bytes) : option (list rowv) :=
  c ← ci !! seg_of n key; view bs (ce_live c) !! key.
Definition contents_rep (bs : blocks) (n : Z) (cs : list (list cell)) (ms : list content) : Prop :=
  length ms = length cs /\
  forall i ci m, cs !! i = Some ci -> ms !! i = Some m -> forall key, m !! key = index_view bs n ci key.

Lemma seg_of_lt n key : 1 <= n -> (seg_of n key < Z.to_nat n)%nat.
Proof.
  intros Hn. unfold seg_of. case_decide; [|lia]. pose proof (Z.mod_pos_bound (hash key SEED) n ltac:(lia)). lia.
Qed.

Lemma contents_at bs n cs ms i ci : contents_rep bs n cs ms -> cs !! i = Some ci ->
  exists m, ms !! i = Some m /\ forall key, m !! key = index_view bs n ci key.
Proof.
  intros [Hl Hr] Hi. assert (is_Some (ms !! i)) as [m Hm] by (apply lookup_lt_is_Some; rewrite Hl; by eapply lookup_lt_Some). eauto.
Qed.

(** One index changes *)
Lemma contents_rep_set (bs : blocks) (n : Z) (cs : list (list cell)) (ms : list content) (i : nat) (ci' : list cell) (m' : content) : contents_rep bs n cs ms -> (forall key, m' !! key = index_view bs n ci' key) ->
  contents_rep bs n (<[i := ci']> cs) (<[i := m']> ms).
Proof.
  intros [Hl Hr] Hv. split; [by rewrite !length_insert|]. intros i' ci0 m0 Hc Hm. destruct (decide (i' = i)) as [->|Hne].
  - apply list_lookup_insert_Some in Hc as [(_ & <- & _)|[? _]]; [|done]. by apply list_lookup_insert_Some in Hm as [(_ & <- & _)|[? _]].
  - rewrite list_lookup_insert_ne in Hc by done. rewrite list_lookup_insert_ne in Hm by done. by eapply Hr.
Qed.

(** One segment of an index changes *)
Lemma index_view_cell (bs : blocks) (n : Z) (ci : list cell) (m : content) (j : nat) (c c' : cell) (m' : content) : 1 <= n -> length ci = Z.to_nat n -> (forall key, m !! key = index_view bs n ci key) -> ci !! j = Some c ->
  (forall key, seg_of n key <> j -> m' !! key = m !! key) ->
  (forall key, seg_of n key = j -> m !! key = view bs (ce_live c) !! key -> m' !! key = view bs (ce_live c') !! key) ->
  forall key, m' !! key = index_view bs n (<[j := c']> ci) key.
Proof.
  intros Hn Hl Hm Hj Hother Hsame key. unfold index_view. destruct (decide (seg_of n key = j)) as [E|Hne].
  - rewrite E, list_lookup_insert_eq by (by eapply lookup_lt_Some). cbn. apply Hsame; [done|]. rewrite Hm. unfold index_view. by rewrite E, Hj.
  - rewrite list_lookup_insert_ne by done. rewrite Hother by done. apply Hm.
Qed.

Lemma abs_put_lookup (key : bytes) (t : Z) (v : bytes) (m : content) (k : bytes) : abs_put key t v m !! k = if decide (k = key) then Some (add_row t v (default [] (m !! key))) else m !! k.
Proof. unfold abs_put. case_decide as E; [by rewrite E, lookup_insert_eq|by rewrite lookup_insert_ne]. Qed.

(** Other blocks: the rows of the cells are not affected *)
Lemma contents_rep_blocks bs bs' n cs ms : contents_rep bs n cs ms ->
  (forall ci c, ci ∈ cs -> c ∈ ci -> view bs' (ce_live c) = view bs (ce_live c)) -> contents_rep bs' n cs ms.
Proof.
  intros [Hl Hr] Hv. split; [done|]. intros i ci m Hc Hm key. rewrite (Hr i ci m Hc Hm key). unfold index_view.
  destruct (ci !! seg_of n key) as [c|] eqn:E; [|done]. cbn. rewrite (Hv ci c); [done| |]; by eapply list_elem_of_lookup_2.
Qed.
