(* ===== verification/TableParseThms.v ===== *)
(** Building the indexes of a table from a description with at most one
    timestamp column ([ParseFromMeta] of storage/schema.cc): every index gets
    an inner index of its own, and all positions agree. *)
From Stdlib Require Import String.
From S2P Require Import Prelude Slice RowCodec Segment SegmentOps StdMap TableIndex TableParse Table MemTableInv.

(** ** Plain descriptions *)

(** The columns that [ParseFromMeta] numbers as timestamp columns *)
Definition is_ts_column (ts_col_set : list bytes) (c : ColumnMeta) : bool :=
  negb (cm_add_ts_idx c) && (cm_is_ts_col c || bool_decide (cm_name c ∈ ts_col_set)).

(** 64-bit unsigned fields of the messages *)
Definition desc_ok (d : TTLDesc) : bool := bool_decide (0 <= td_lat_ttl d).
Definition opt_ok (x : option Z) : bool := bool_decide (0 <= default 0 x).

Definition plain_meta (m : TableMeta) : bool :=
  let keys := tm_column_key m in
  let cols := tm_column_desc m in
  forallb (fun ck => bool_decide (length (ck_ts_name ck) <= 1)%nat && bool_decide (ck_flag ck = 0) && from_option desc_ok true (ck_ttl ck)) keys &&
  bool_decide (NoDup (cm_name <$> cols)) &&
  forallb (fun c => negb (cm_add_ts_idx c && bool_decide (cm_name c ∈ ts_columns keys)) && opt_ok (cm_ttl c) && opt_ok (cm_lat_ttl c)) cols &&
  bool_decide (length (List.filter (is_ts_column (ts_columns keys)) cols) <= 1)%nat &&
  bool_decide (0 <= tm_ttl m) && from_option desc_ok true (tm_ttl_desc m).

(** ** Index definitions while they are collected *)
Definition ts_ok (c : option ColumnDef) : Prop := match c with Some c => 0 <= cd_ts_idx c < 2 ^ 31 | None => True end.
Definition def_wf (d : IndexDef) : Prop := status_ d = kReady /\ (exists ttl, ttl_st_ d = Some ttl /\ ttl_ok ttl) /\ ts_ok (ts_column_ d).

Record defs_wf (t : TableIndex) (defs : list IndexDef) : Prop := {
  dw_multi : multi_ts_indexs_ t = [];
  dw_nodup : NoDup (indexs_ t);
  dw_num : (length (indexs_ t) <= MAX_INDEX_NUM)%nat;
  dw_pos : column_key_2_inner_index_ t = replicate MAX_INDEX_NUM (-1);
  dw_at : Forall2 (fun p d => def_at t p = Some d) (indexs_ t) defs;
  dw_defs : Forall def_wf defs;
  dw_names : NoDup (name_ <$> defs);
  dw_ids : forall i d, defs !! i = Some d -> index_id_ d = Z.of_nat i
}.

Lemma defs_wf_ReSet t : defs_wf (ReSet t) [].
Proof. split; cbn; try done; [constructor|lia|constructor]. Qed.

Lemma find_def_none t f : forall ps ds, Forall2 (fun p d => def_at t p = Some d) ps ds -> find_def t f ps = Some None -> Forall (fun d => f d = false) ds.
Proof.
  induction ps as [|p ps IH]; intros ds Hf; inversion Hf as [|p' d ps' ds' Hd Hf']; subst; [constructor|]. cbn [find_def]. rewrite Hd.
  cbn [mbind option_bind]. destruct (f d) eqn:E; [done|]. intros Hn. constructor; [done|]. by apply IH.
Qed.

(** A new definition is added, or refused and nothing changes but the heap. *)
Lemma AddIndex_new t defs d ret t' : defs_wf t defs -> def_wf d -> index_id_ d = Z.of_nat (length defs) ->
  AddIndex (new_def t d).2 (new_def t d).1 = Some (ret, t') -> ret < 0 \/ (ret = 0 /\ defs_wf t' (defs ++ [d])).
Proof.
  intros [D1 D2 D3 D4 D5 D6 D7 D8] Hd Hid. unfold AddIndex. cbn [new_def fst snd]. set (t1 := set_ti_heap (ti_heap t ++ [d]) t).
  assert (Hold : Forall2 (fun p d => def_at t1 p = Some d) (indexs_ t) defs).
  { eapply Forall2_impl; [exact D5|]. intros p e Hp. unfold def_at, t1. cbn. by apply lookup_app_l_Some. }
  assert (Hnew : def_at t1 (length (ti_heap t)) = Some d) by (unfold def_at, t1; cbn; by apply list_lookup_middle).
  change (multi_ts_indexs_ t1) with (multi_ts_indexs_ t). change (indexs_ t1) with (indexs_ t). rewrite D1. case_decide as Hc; [intros [= <- <-]; left; lia|].
  rewrite Hnew. cbn [mbind option_bind]. destruct (find_def t1 (name_is (name_ d)) (indexs_ t)) as [[p|]|] eqn:Hf; cbn [mbind option_bind]; try done; [intros [= <- <-]; left; lia|].
  intros [= <- <-]. right. split; [done|]. pose proof (find_def_none _ _ _ _ Hold Hf) as Hnames.
  assert (Hfresh : length (ti_heap t) ∉ indexs_ t).
  { intros [i Hi]%list_elem_of_lookup_1. destruct (Forall2_lookup_l _ _ _ _ _ D5 Hi) as (e & _ & He). apply lookup_lt_Some in He. lia. }
  assert (Hkind : forall t2, t2 = (if decide (type_ d = kPrimaryKey \/ type_ d = kAutoGen) then set_pk_index (Some (length (ti_heap t))) (set_indexs (indexs_ t ++ [length (ti_heap t)]) t1)
    else set_indexs (indexs_ t ++ [length (ti_heap t)]) t1) -> ti_heap t2 = ti_heap t1 /\ indexs_ t2 = indexs_ t ++ [length (ti_heap t)] /\
    multi_ts_indexs_ t2 = [] /\ column_key_2_inner_index_ t2 = column_key_2_inner_index_ t) by (intros t2 ->; by case_decide).
  destruct (Hkind _ eq_refl) as (K1 & K2 & K3 & K4). clear Hkind.
  split; cbn -[MAX_INDEX_NUM]; rewrite ?K2, ?K3, ?K4; try done.
  - apply NoDup_app. split; [done|]. split; [|apply NoDup_singleton]. intros x Hx ->%list_elem_of_singleton. done.
  - rewrite length_app. cbn. lia.
  - unfold def_at. cbn. rewrite K1. apply Forall2_app; [exact Hold|by constructor].
  - apply Forall_app. split; [done|by constructor].
  - rewrite fmap_app. apply NoDup_app. split; [done|]. split; [|apply NoDup_singleton]. intros x Hx ->%list_elem_of_singleton.
    apply list_elem_of_fmap in Hx as (e & He & Hin). rewrite Forall_forall in Hnames. specialize (Hnames e Hin). unfold name_is in Hnames.
    by apply bool_decide_eq_false in Hnames.
  - intros i e [He|[? He]]%lookup_app_Some; [by apply D8|]. apply list_lookup_singleton_Some in He as [Hi <-]. rewrite Hid. lia.
Qed.

(** Changing several definitions *)
Lemma upd_defs_spec f ps : forall t ds, NoDup ps -> Forall2 (fun p d => def_at t p = Some d) ps ds ->
  exists h, upd_defs t ps f = Some (set_ti_heap h t) /\ Forall2 (fun p d => h !! p = Some (f d)) ps ds /\ (forall q, q ∉ ps -> h !! q = ti_heap t !! q).
Proof.
  induction ps as [|p ps IH]; intros t ds Hnd Hf.
  { apply Forall2_nil_inv_l in Hf as ->. exists (ti_heap t). split; [by destruct t|]. done. }
  destruct ds as [|d ds]; [by inversion Hf|]. apply Forall2_cons in Hf as [Hd Hf]. apply NoDup_cons in Hnd as [Hp Hnd].
  cbn [upd_defs]. unfold upd_def. rewrite Hd. cbn [mbind option_bind]. set (t1 := set_ti_heap _ t).
  destruct (IH t1 ds Hnd) as (h & E & Hh & Hother).
  { apply Forall2_same_length_lookup. apply Forall2_same_length_lookup in Hf as [Hl Hf]. split; [done|]. intros i q d' Hq Hd'. unfold def_at, t1. cbn.
    rewrite list_lookup_insert_ne; [by eapply Hf|]. intros ->. apply Hp. by eapply list_elem_of_lookup_2. }
  exists h. split; [by rewrite E|]. split.
  - constructor; [|done]. rewrite (Hother p Hp). unfold t1. cbn. apply list_lookup_insert_eq. by eapply lookup_lt_Some.
  - intros q Hq. rewrite not_elem_of_cons in Hq. destruct Hq as [Hq1 Hq2]. rewrite (Hother q Hq2). unfold t1. cbn. by rewrite list_lookup_insert_ne.
Qed.

(** ** TTLs *)
Section plain.
Context (m : TableMeta) (Hm : plain_meta m = true).

Lemma plain_parts :
  Forall (fun ck => (length (ck_ts_name ck) <= 1)%nat /\ ck_flag ck = 0 /\ (forall d, ck_ttl ck = Some d -> 0 <= td_lat_ttl d)) (tm_column_key m) /\
  NoDup (cm_name <$> tm_column_desc m) /\
  Forall (fun c => (cm_add_ts_idx c = true -> cm_name c ∉ ts_columns (tm_column_key m)) /\ 0 <= default 0 (cm_ttl c) /\ 0 <= default 0 (cm_lat_ttl c)) (tm_column_desc m) /\
  (length (List.filter (is_ts_column (ts_columns (tm_column_key m))) (tm_column_desc m)) <= 1)%nat /\ ttl_ok (meta_ttl m).
Proof using Hm.
  pose proof Hm as Hp. unfold plain_meta in Hp. repeat (apply andb_true_iff in Hp as [Hp ?]). split_and!.
  - apply Forall_forall. intros ck Hck. rewrite forallb_forall in Hp. specialize (Hp ck ltac:(by apply list_elem_of_In)).
    repeat (apply andb_true_iff in Hp as [Hp ?]). split_and!; [by eapply bool_decide_eq_true|by eapply bool_decide_eq_true|]. intros d Hd. rewrite Hd in *.
    by eapply bool_decide_eq_true.
  - by eapply bool_decide_eq_true.
  - apply Forall_forall. intros c Hc. rewrite forallb_forall in H2. specialize (H2 c ltac:(by apply list_elem_of_In)).
    repeat (apply andb_true_iff in H2 as [H2 ?]). split_and!; [|by eapply bool_decide_eq_true|by eapply bool_decide_eq_true].
    intros Ha. rewrite Ha in H2. cbn in H2. apply negb_true_iff in H2. by apply bool_decide_eq_false in H2.
  - by eapply bool_decide_eq_true.
  - apply bool_decide_eq_true in H0. unfold ttl_ok, meta_ttl. pose proof (fun x => uwrap_range 64 x ltac:(lia)) as Hu.
    destruct (tm_ttl_desc m) as [d|]; cbn in *.
    + split; [apply Hu|]. by apply bool_decide_eq_true in H.
    + destruct (tm_ttl_type m); cbn; try lia. split; [apply Hu|lia].
Qed.

Lemma ts_col_ttl_ok c : c ∈ tm_column_desc m -> ttl_ok (ts_col_ttl m c).
Proof using Hm.
  intros Hc. destruct plain_parts as (_ & _ & Hcols & _ & Httl). rewrite Forall_forall in Hcols. destruct (Hcols c Hc) as (_ & H1 & H2).
  pose proof (fun x => uwrap_range 64 x ltac:(lia)) as Hu. unfold ts_col_ttl. case_decide; [split; cbn; [apply Hu|done]|].
  destruct (cm_ttl c) as [z|]; [|done]. cbn in H1. destruct (tm_ttl_type m); split; cbn; try lia; apply Hu.
Qed.

(** ** Dimensions *)
Lemma parse_dimensions_wf dims : forall i t defs t', defs_wf t defs -> i = Z.of_nat (length defs) -> parse_dimensions m i dims t = Some (true, t') -> exists defs', defs_wf t' defs'.
Proof using Hm.
  induction dims as [|n dims IH]; intros i t defs t' Hw Hi; cbn [parse_dimensions new_def]; [intros [= <-]; eauto|].
  destruct (AddIndex _ _) as [[ret t1]|] eqn:E; cbn [mbind option_bind]; [|done].
  apply (AddIndex_new _ _ _ _ _ Hw) in E; [|by destruct plain_parts as (_ & _ & _ & _ & Httl); split; [done|split; [eauto|done]]|done].
  case_decide; [done|]. destruct E as [?|[-> Hw1]]; [done|]. eapply IH; [exact Hw1|]. rewrite length_app. cbn. lia.
Qed.

(** ** Columns *)
Abbreviation ts_set := (ts_columns (tm_column_key m)).

Record parse_inv (past : list ColumnMeta) (s : parse_state) : Prop := {
  pi_defs : exists defs, defs_wf (ps_index s) defs /\ ps_key_idx s = Z.of_nat (length defs);
  pi_idx : ps_ts_idx s = Z.of_nat (length (List.filter (is_ts_column ts_set) past));
  pi_len : Z.of_nat (length (ps_ts_mapping s)) <= ps_ts_idx s;
  pi_dom : forall n, is_Some (ps_col_map s !! n) -> n ∈ cm_name <$> past;
  pi_ts : forall n c, n ∈ ts_set \/ n ∈ (ps_ts_mapping s).*1 -> ps_col_map s !! n = Some c -> 0 <= cd_ts_idx c < 2 ^ 31;
  pi_mapped : forall n, n ∈ (ps_ts_mapping s).*1 -> n ∈ cm_name <$> past;
  pi_ttl : forall n ttl, ps_ts_ttl s !! n = Some ttl -> ttl_ok ttl
}.

Lemma insert_new_lookup {A} (k : bytes) (x : A) (mm : gmap bytes A) n y : insert_new k x mm !! n = Some y -> mm !! n = Some y \/ (n = k /\ y = x /\ mm !! k = None).
Proof.
  unfold insert_new. destruct (mm !! k) eqn:E; [tauto|]. destruct (decide (n = k)) as [->|Hne].
  - rewrite lookup_insert_eq. intros [= <-]. tauto.
  - rewrite lookup_insert_ne by done. tauto.
Qed.

Lemma past_snoc (past : list ColumnMeta) c n : n ∈ cm_name <$> past ++ [c] <-> n ∈ cm_name <$> past \/ n = cm_name c.
Proof. rewrite fmap_app, elem_of_app. cbn. by rewrite list_elem_of_singleton. Qed.

Lemma filter_snoc (past : list ColumnMeta) c : length (List.filter (is_ts_column ts_set) (past ++ [c])) =
  (length (List.filter (is_ts_column ts_set) past) + if is_ts_column ts_set c then 1 else 0)%nat.
Proof. rewrite List.filter_app, length_app. cbn. by destruct (is_ts_column ts_set c). Qed.

Lemma length_emplace_le {V} (k : bytes) (v : V) mm : (length (emplace str_before k v mm) <= S (length mm))%nat.
Proof. induction mm as [|[k' v'] mm IH]; cbn; [lia|]. repeat case_match; cbn; lia. Qed.

(** A column that is not a timestamp column *)
Lemma column_plain past s c t' key_idx col : parse_inv past s -> cm_name c ∉ cm_name <$> past -> is_ts_column ts_set c = false ->
  (cm_add_ts_idx c = true -> cm_name c ∉ ts_set) -> (cm_add_ts_idx c = false -> cm_name c ∉ ts_set) ->
  (exists defs, defs_wf t' defs /\ key_idx = Z.of_nat (length defs)) ->
  parse_inv (past ++ [c]) (MkParse t' (ps_ts_mapping s) key_idx (ps_ts_idx s) (insert_new (cm_name c) col (ps_col_map s)) (ps_ts_ttl s)).
Proof.
  intros [P1 P2 P3 P4 P5 P6 P7] Hn Hts Ha Hb Hw. split; cbn; try done.
  - by rewrite filter_snoc, Hts, Nat.add_0_r.
  - intros n [y Hy]. apply past_snoc. apply insert_new_lookup in Hy as [Hy|(-> & _)]; [left; apply P4; eauto|by right].
  - intros n y Hset Hy. apply insert_new_lookup in Hy as [Hy|(-> & _)]; [by eapply P5|]. destruct Hset as [Hset|Hset].
    + destruct (cm_add_ts_idx c); [by destruct (Ha eq_refl)|by destruct (Hb eq_refl)].
    + by apply P6 in Hset.
  - intros n Hn'. apply past_snoc. left. by apply P6.
Qed.

(** A timestamp column *)
Lemma column_ts past s c id type ttl : parse_inv past s -> cm_name c ∉ cm_name <$> past -> is_ts_column ts_set c = true ->
  (length (List.filter (is_ts_column ts_set) (past ++ [c])) <= 1)%nat -> (forall t, ttl = Some t -> ttl_ok t) ->
  parse_inv (past ++ [c]) (add_ts s (MkColumnDef (cm_name c) id type (-1)) ttl).
Proof.
  intros [P1 P2 P3 P4 P5 P6 P7] Hn Hts Hone Hok. rewrite filter_snoc, Hts in Hone. assert (Hz : ps_ts_idx s = 0) by lia.
  assert (Hmap : forall n, n ∈ (emplace str_before (cm_name c) (u8 (ps_ts_idx s)) (ps_ts_mapping s)).*1 -> n ∈ (ps_ts_mapping s).*1 \/ n = cm_name c).
  { intros n [[k v] [-> Hin]]%list_elem_of_fmap. apply emplace_elem in Hin as [[= -> ->]|Hin]; [by right|left]. apply list_elem_of_fmap. by exists (k, v). }
  split; cbn; try done.
  - rewrite filter_snoc, Hts, Hz. rewrite Hz in P2. change (u32 (0 + 1)) with 1. lia.
  - pose proof (length_emplace_le (cm_name c) (u8 (ps_ts_idx s)) (ps_ts_mapping s)). rewrite Hz in *. change (u32 (0 + 1)) with 1. lia.
  - intros n [y Hy]. apply past_snoc. apply insert_new_lookup in Hy as [Hy|(-> & _)]; [left; apply P4; eauto|by right].
  - intros n y Hset Hy. apply insert_new_lookup in Hy as [Hy|(-> & -> & _)]; [|cbn; rewrite Hz; vm_compute; split; congruence].
    destruct Hset as [Hset|Hset]; [by eapply P5; [left|]|]. apply Hmap in Hset as [Hset| ->]; [by eapply P5; [right|]|].
    destruct Hn. apply P4. eauto.
  - intros n Hin. apply past_snoc. apply Hmap in Hin as [Hin| ->]; [left; by apply P6|by right].
  - intros n t Ht. destruct ttl as [t'|]; [|by eapply P7]. apply insert_new_lookup in Ht as [Ht|(-> & -> & _)]; [by eapply P7|by apply Hok].
Qed.

Lemma parse_column_inv past s c s' : parse_inv past s -> c ∈ tm_column_desc m -> cm_name c ∉ cm_name <$> past ->
  (length (List.filter (is_ts_column ts_set) (past ++ [c])) <= 1)%nat -> parse_column m ts_set c s = Some (true, s') -> parse_inv (past ++ [c]) s'.
Proof using Hm.
  intros Hi Hc Hn Hone. destruct plain_parts as (_ & _ & Hcols & _ & Httl). rewrite Forall_forall in Hcols. destruct (Hcols c Hc) as (Hidx & _ & _).
  unfold parse_column. set (type := match cm_data_type c with Some t => t | None => ConvertStrType (cm_type c) end). destruct (cm_add_ts_idx c) eqn:Ea.
  - cbn [new_def]. destruct (AddIndex _ _) as [[ret t1]|] eqn:E; cbn [mbind option_bind]; [|done]. case_decide; [done|]. intros [= <-].
    destruct (pi_defs _ _ Hi) as (defs & Hw & Hkey). apply (AddIndex_new _ _ _ _ _ Hw) in E; [|by split; [done|split; [eauto|done]]|done]. destruct E as [?|[_ Hw1]]; [done|].
    cbn. apply column_plain; try done; [unfold is_ts_column; by rewrite Ea|intros _; by apply Hidx|by rewrite Ea|]. exists (defs ++ [SetTTL (meta_ttl m) (IndexDef_new (cm_name c) (ps_key_idx s) kReady kTimeSerise [MkColumnDef (cm_name c) (ps_key_idx s) type (-1)])]).
    split; [exact Hw1|]. rewrite length_app, Hkey. cbn. pose proof (dw_num _ _ Hw) as Hnum. rewrite (Forall2_length _ _ _ (dw_at _ _ Hw)) in Hnum. rewrite uwrap_id; [lia|]. unfold in_uint, MAX_INDEX_NUM in *. lia.
  - destruct (cm_is_ts_col c) eqn:Eb.
    + case_decide; [done|]. destruct (CheckTsType type); [|done]. intros [= <-]. apply column_ts; try done; [unfold is_ts_column; by rewrite Ea, Eb|].
      intros t [= <-]. by apply ts_col_ttl_ok.
    + case_decide as Hin.
      * destruct (CheckTsType type); [|done]. intros [= <-]. apply column_ts; try done. unfold is_ts_column. rewrite Ea, Eb. by apply bool_decide_true.
      * intros [= <-]. apply column_plain; try done; [unfold is_ts_column; rewrite Ea, Eb; by apply bool_decide_false|apply Hi].
Qed.

Lemma parse_columns_inv cols : forall past s s', parse_inv past s -> past ++ cols = tm_column_desc m -> parse_columns m ts_set cols s = Some (true, s') ->
  parse_inv (tm_column_desc m) s'.
Proof using Hm.
  induction cols as [|c cols IH]; intros past s s' Hi Hall; cbn [parse_columns]; [intros [= <-]; by rewrite <- Hall, app_nil_r|].
  destruct (parse_column m ts_set c s) as [[[] s1]|] eqn:E; cbn [mbind option_bind]; try done. intros Hrest.
  destruct plain_parts as (_ & Hnd & _ & Hone & _). rewrite cons_middle, app_assoc in Hall.
  eapply (IH (past ++ [c])); [|exact Hall|exact Hrest]. eapply parse_column_inv; [exact Hi| | | |exact E].
  - rewrite <- Hall. apply elem_of_app. left. apply elem_of_app. right. by left.
  - rewrite <- Hall, fmap_app, fmap_app in Hnd. apply NoDup_app in Hnd as (Hnd & _). apply NoDup_app in Hnd as (_ & Hd & _). intros Hin. apply (Hd _ Hin). by left.
  - rewrite <- Hall, List.filter_app, length_app in Hone. lia.
Qed.

(** ** Column keys *)
Lemma key_index_wf past s ck key_idx cols n : parse_inv past s -> ck ∈ tm_column_key m -> (forall k, n = Some k -> k ∈ ck_ts_name ck) ->
  def_wf (key_index m s ck key_idx cols n).
Proof using Hm.
  intros Hi Hck Hn. destruct plain_parts as (Hkeys & _ & _ & _ & Httl). rewrite Forall_forall in Hkeys. destruct (Hkeys ck Hck) as (_ & Hflag & Hdesc).
  assert (Hset : forall k, n = Some k -> k ∈ ts_set).
  { intros k Hk. unfold ts_columns. apply list_elem_of_In, in_concat. exists (ck_ts_name ck). split; apply list_elem_of_In; [|by apply Hn].
    apply list_elem_of_fmap. eauto. }
  assert (Hcol : forall k, n = Some k -> ts_ok (ps_col_map s !! k)).
  { intros k Hk. destruct (ps_col_map s !! k) eqn:E; [|done]. eapply (pi_ts _ _ Hi); [|exact E]. left. by apply Hset. }
  assert (Hd : forall d, ck_ttl ck = Some d -> ttl_ok (TTLSt_of d)).
  { intros d Hd. split; [apply uwrap_range; lia|]. cbn. by apply Hdesc. }
  unfold key_index, def_wf. rewrite Hflag. cbn [decide]. destruct n as [k|].
  - destruct (ps_ts_ttl s !! k) as [t|] eqn:Et; destruct (ck_ttl ck) as [d|]; cbn; (split; [done|split; [eexists; split; [done|]|by apply Hcol]]);
      try (by apply Hd); try done. by eapply (pi_ttl _ _ Hi).
  - destruct (ck_ttl ck) as [d|]; cbn; (split; [done|split; [eexists; split; [done|]|done]]); [by apply Hd|done].
Qed.

Lemma key_index_id s ck key_idx cols n : index_id_ (key_index m s ck key_idx cols n) = key_idx.
Proof using. unfold key_index. destruct n as [k|]; [destruct (ps_ts_ttl s !! k)|]; by destruct (ck_ttl ck). Qed.
Lemma parse_keys_wf past s keys : parse_inv past s -> forall pos t defs t', (forall ck, ck ∈ keys -> ck ∈ tm_column_key m) -> defs_wf t defs -> pos = length defs ->
  parse_keys m s false pos keys t = Some (true, t') -> exists defs', defs_wf t' defs'.
Proof using Hm.
  intros Hi. induction keys as [|ck keys IH]; intros pos t defs t' Hin Hw Hpos; cbn [parse_keys]; [intros [= <-]; eauto|].
  destruct (mapM _ _) as [cols|]; cbn [mbind option_bind]; [|done]. pose proof plain_parts as (Hkeys & _). rewrite Forall_forall in Hkeys.
  destruct (Hkeys ck (Hin ck ltac:(by left))) as (Hone & _ & _).
  assert (exists n, (match ck_ts_name ck with [] => [None] | l => Some <$> l end) = [n] /\ forall k, n = Some k -> k ∈ ck_ts_name ck) as (n & -> & Hn).
  { destruct (ck_ts_name ck) as [|k [|k' l]]; [by exists None| |cbn in Hone; lia]. exists (Some k). split; [done|]. intros ? [= <-]. by left. }
  cbn [parse_key_ts new_def]. destruct (AddIndex _ _) as [[ret t1]|] eqn:E; cbn [mbind option_bind]; [|done].
  apply (AddIndex_new _ _ _ _ _ Hw) in E; [|eapply key_index_wf; [exact Hi|apply Hin; by left|exact Hn]|by rewrite key_index_id, Hpos].
  case_decide; cbn [mbind option_bind]; [done|]. destruct E as [?|[_ Hw1]]; [done|]. eapply IH; [|exact Hw1|rewrite length_app; cbn; lia]. intros ck' Hck'. apply Hin. by right.
Qed.
End plain.

(** ** Inner indexes *)
Definition ts_list (d : IndexDef) : list Z := match ts_column_ d with Some c => [cd_ts_idx c] | None => [] end.

(** The first [k] indexes have their inner index. *)
Record fill_inv (t : TableIndex) (defs : list IndexDef) (k : nat) : Prop := {
  fi_multi : multi_ts_indexs_ t = [];
  fi_nodup : NoDup (indexs_ t);
  fi_num : (length (indexs_ t) <= MAX_INDEX_NUM)%nat;
  fi_pos : column_key_2_inner_index_ t = (Z.of_nat <$> seq 0 k) ++ replicate (MAX_INDEX_NUM - k) (-1);
  fi_at : Forall2 (fun p d => def_at t p = Some d) (indexs_ t) defs;
  fi_defs : Forall def_wf defs;
  fi_names : NoDup (name_ <$> defs);
  fi_inner : ii_index <$> inner_indexs_ t = (fun p => [p]) <$> take k (indexs_ t);
  fi_ts : ii_ts <$> inner_indexs_ t = ts_list <$> take k defs;
  fi_set : forall i d, (i < k)%nat -> defs !! i = Some d -> inner_pos_ d = Z.of_nat i;
  fi_ids : forall i d, defs !! i = Some d -> index_id_ d = Z.of_nat i
}.

Lemma InnerIndexSt_one t id p d : def_at t p = Some d -> ts_ok (ts_column_ d) -> InnerIndexSt_new t id [p] = Some (MkInnerIndexSt id [p] (ts_list d)).
Proof.
  intros Hd Hts. unfold InnerIndexSt_new. cbn. rewrite Hd. cbn. unfold ts_list, ts_ok in *. destruct (ts_column_ d) as [c|]; [|done].
  by rewrite decide_True by lia.
Qed.

Lemma take_S_fmap {A B} (f : A -> B) (l : list A) k x : l !! k = Some x -> f <$> take (S k) l = (f <$> take k l) ++ [f x].
Proof. intros Hx. by rewrite (take_S_r _ _ _ Hx), fmap_app. Qed.

Lemma store_next k : (k < MAX_INDEX_NUM)%nat ->
  <[k := Z.of_nat k]> ((Z.of_nat <$> seq 0 k) ++ replicate (MAX_INDEX_NUM - k) (-1)) = (Z.of_nat <$> seq 0 (S k)) ++ replicate (MAX_INDEX_NUM - S k) (-1).
Proof.
  intros Hk. rewrite seq_S, fmap_app, <- app_assoc. rewrite insert_app_r_alt by (rewrite length_fmap, length_seq; lia).
  rewrite length_fmap, length_seq, Nat.sub_diag. replace (MAX_INDEX_NUM - k)%nat with (S (MAX_INDEX_NUM - S k)) by lia. done.
Qed.

(** The heap after the definition of the index [k] changed *)
Lemma heap_set (h : list IndexDef) (ps : list nat) (defs : list IndexDef) (k p : nat) (d' : IndexDef) :
  NoDup ps -> Forall2 (fun p d => h !! p = Some d) ps defs -> ps !! k = Some p -> Forall2 (fun q d => <[p := d']> h !! q = Some d) ps (<[k := d']> defs).
Proof.
  intros Hnd Hf Hk. pose proof Hf as [Hl Hall]%Forall2_same_length_lookup. apply Forall2_same_length_lookup. split; [by rewrite length_insert|].
  intros i q e Hi He. destruct (decide (i = k)) as [->|Hne].
  - rewrite Hk in Hi. injection Hi as <-. destruct (Forall2_lookup_l _ _ _ _ _ Hf Hk) as (d & Hd & Hp).
    rewrite list_lookup_insert_eq in He by (by eapply lookup_lt_Some). injection He as <-. apply list_lookup_insert_eq. by eapply lookup_lt_Some.
  - rewrite list_lookup_insert_ne in He by done. rewrite list_lookup_insert_ne; [by eapply Hall|]. intros ->. apply Hne. by eapply (NoDup_lookup ps).
Qed.

Lemma fill_step t defs k p : fill_inv t defs k -> indexs_ t !! k = Some p ->
  exists x t1 t2 defs', InnerIndexSt_new t (Z.of_nat k) [p] = Some x /\ upd_defs (AddInnerIndex t x) [p] (SetInnerPos (Z.of_nat k)) = Some t1 /\
    store_inner_pos t1 k (Z.of_nat k) = Some t2 /\ fill_inv t2 defs' (S k) /\ indexs_ t2 = indexs_ t.
Proof.
  intros [F1 F2 F3 F4 F5 F6 F7 F8 F9 F10 F11] Hp. destruct (Forall2_lookup_l _ _ _ _ _ F5 Hp) as (d & Hd & Hat).
  assert (Hw : def_wf d) by (rewrite Forall_forall in F6; apply F6; by eapply list_elem_of_lookup_2).
  assert (Hk : (k < MAX_INDEX_NUM)%nat) by (apply lookup_lt_Some in Hp; lia).
  set (x := MkInnerIndexSt (Z.of_nat k) [p] (ts_list d)). set (d' := SetInnerPos (Z.of_nat k) d).
  exists x, (set_ti_heap (<[p := d']> (ti_heap t)) (AddInnerIndex t x)), (set_column_key_2_inner (<[k := Z.of_nat k]> (column_key_2_inner_index_ t))
    (set_ti_heap (<[p := d']> (ti_heap t)) (AddInnerIndex t x))), (<[k := d']> defs).
  split; [apply InnerIndexSt_one; [done|apply Hw]|]. split; [|split].
  { cbn [upd_defs]. unfold upd_def. change (def_at (AddInnerIndex t x) p) with (def_at t p). by rewrite Hat. }
  { unfold store_inner_pos. cbn [column_key_2_inner_index_ set_ti_heap AddInnerIndex set_inner_indexs]. apply require_P.
    rewrite F4, length_app, length_fmap, length_seq, length_replicate. lia. }
  split; [|done]. assert (Hlt : (k < length defs)%nat) by (by eapply lookup_lt_Some). split; cbn -[MAX_INDEX_NUM]; try done.
  - rewrite F4. by apply store_next.
  - by apply heap_set.
  - by apply Forall_insert.
  - rewrite list_fmap_insert. cbn. rewrite list_insert_id; [done|]. by rewrite list_lookup_fmap, Hd.
  - rewrite fmap_app, F8. symmetry. exact (take_S_fmap (fun p : nat => [p]) _ _ _ Hp).
  - rewrite fmap_app, F9. rewrite (take_S_fmap _ _ _ d') by (by apply list_lookup_insert_eq). rewrite take_insert_ge by lia. done.
  - intros i e Hi He. destruct (decide (i = k)) as [->|Hne]; [rewrite list_lookup_insert_eq in He by done; by injection He as <-|].
    rewrite list_lookup_insert_ne in He by done. apply F10; [lia|done].
  - intros i e He. destruct (decide (i = k)) as [->|Hne]; [rewrite list_lookup_insert_eq in He by done; injection He as <-; exact (F11 k d Hd)|].
    rewrite list_lookup_insert_ne in He by done. by apply F11.
Qed.

Lemma fill_all ps : forall t defs k, fill_inv t defs k -> indexs_ t = take k (indexs_ t) ++ ps -> (k + length ps = length (indexs_ t))%nat ->
  exists t' defs', fill_groups t k ((fun p => [p]) <$> ps) true = Some t' /\ fill_inv t' defs' (length (indexs_ t')).
Proof.
  induction ps as [|p ps IH]; intros t defs k Hf Hd Hk.
  { exists t, defs. split; [done|]. cbn in Hk. rewrite Nat.add_0_r in Hk. by subst k. }
  assert (Hp : indexs_ t !! k = Some p).
  { rewrite Hd. rewrite lookup_app_r by (rewrite length_take; lia). rewrite length_take. cbn in Hk. by rewrite Nat.min_l, Nat.sub_diag by lia. }
  destruct (fill_step t defs k p Hf Hp) as (x & t1 & t2 & defs2 & E1 & E2 & E3 & Hf2 & Hi2). rewrite fmap_cons. cbn [fill_groups].
  rewrite E1. cbn [mbind option_bind]. rewrite E2. cbn [mbind option_bind]. rewrite E3. cbn [mbind option_bind]. apply (IH t2 defs2 (S k) Hf2); rewrite Hi2.
  - rewrite (take_S_r _ _ _ Hp), <- app_assoc. exact Hd.
  - cbn in Hk. lia.
Qed.

(** ** The result *)

(** What the table relies on *)
Record index_built (t : TableIndex) (defs : list IndexDef) : Prop := {
  ib_rep : index_rep t defs;
  ib_ts : ii_ts <$> inner_indexs_ t = ts_list <$> defs;
  ib_names : NoDup (name_ <$> defs)
}.

Lemma fill_built t defs : fill_inv t defs (length (indexs_ t)) -> index_built t defs.
Proof.
  intros [F1 F2 F3 F4 F5 F6 F7 F8 F9 F10 F11]. pose proof (Forall2_length _ _ _ F5) as Hl. rewrite take_ge in F8 by lia. rewrite take_ge in F9 by lia.
  split; [split|done|done]; try done; [|intros i d Hd; rewrite Forall_forall in F6; destruct (F6 d ltac:(by eapply list_elem_of_lookup_2)) as (W1 & W2 & W3);
    split_and!; try done; [apply F10; [|done]; rewrite Hl; by eapply lookup_lt_Some|by apply F11]|by rewrite <- Hl].
  intros idx Hidx. unfold GetInnerIndexPos. rewrite F4. case_decide as Hc.
  - rewrite lookup_app_l by (rewrite length_fmap, length_seq; lia). rewrite list_lookup_fmap, lookup_seq_lt by lia. cbn. lia.
  - rewrite lookup_app_r by (rewrite length_fmap, length_seq; lia). destruct (replicate _ _ !! _) as [z|] eqn:E; [|done].
    apply lookup_replicate in E as [-> _]. done.
Qed.

Lemma fill_plain t defs m n : defs_wf t defs -> (tm_column_key m = [] \/ n <= 1)%nat ->
  exists t' defs', FillIndexVal t m n = Some t' /\ fill_inv t' defs' (length (indexs_ t')).
Proof.
  intros [D1 D2 D3 D4 D5 D6 D7 D8] Hn. unfold FillIndexVal. rewrite decide_False by (intros [? ?]; destruct Hn; [done|lia]).
  apply (fill_all (indexs_ t) _ defs 0); [|done|done]. split; cbn -[MAX_INDEX_NUM]; try done. intros i d Hi. lia.
Qed.

(** One timestamp column for all indexes *)
Lemma set_ts_wf t defs c t' : defs_wf t defs -> ts_ok c -> upd_defs t (indexs_ t) (SetTsColumn c) = Some t' -> defs_wf t' (SetTsColumn c <$> defs).
Proof.
  intros [D1 D2 D3 D4 D5 D6 D7 D8] Hc Hu. destruct (upd_defs_spec (SetTsColumn c) _ _ _ D2 D5) as (h & E & Hh & _). rewrite E in Hu. injection Hu as <-.
  split; cbn -[MAX_INDEX_NUM]; try done.
  - by apply Forall2_fmap_r.
  - apply Forall_fmap. eapply Forall_impl; [exact D6|]. by intros d (W1 & W2 & _).
  - by rewrite <- list_fmap_compose.
  - intros i d (d0 & -> & Hd)%list_lookup_fmap_Some. exact (D8 i d0 Hd).
Qed.

Section parse.
Context (m : TableMeta) (Hm : plain_meta m = true).

Lemma parse_described_wf t t' ts : parse_described (ReSet t) m = Some (true, t', ts) ->
  exists defs, defs_wf t' defs /\ (length ts <= 1)%nat.
Proof using Hm.
  unfold parse_described. case_decide; [done|]. destruct (plain_parts m Hm) as (Hkeys & _ & _ & Hone & _).
  assert (existsb (fun ck => bool_decide (1 < length (ck_ts_name ck))%nat) (tm_column_key m) = false) as ->.
  { apply not_true_iff_false. intros (ck & Hck & Hlen)%existsb_exists. apply bool_decide_eq_true in Hlen. rewrite Forall_forall in Hkeys.
    destruct (Hkeys ck ltac:(by apply list_elem_of_In)). lia. }
  destruct (parse_columns _ _ _ _) as [[[] s]|] eqn:E; cbn [mbind option_bind negb]; try done.
  assert (Hi : parse_inv m (tm_column_desc m) s).
  { eapply (parse_columns_inv m Hm _ []); [|done|exact E]. split; cbn; try done; [exists []; split; [apply defs_wf_ReSet|done]|].
    intros n [c Hc]. by rewrite lookup_empty in Hc. }
  assert (Hlen : (length (ps_ts_mapping s) <= 1)%nat) by (pose proof (pi_len _ _ _ Hi); pose proof (pi_idx _ _ _ Hi); lia).
  case_decide; [done|]. destruct (tm_column_key m) as [|ck keys] eqn:Ek.
  - destruct (ps_ts_mapping s) as [|[name v] rest] eqn:Em.
    + intros [= <- <-]. destruct (pi_defs _ _ _ Hi) as (defs & Hw & _). exists defs. split; [done|]. cbn. lia.
    + destruct (upd_defs _ _ _) as [t1|] eqn:Eu; cbn [mbind option_bind]; [|done]. intros [= <- <-].
      destruct (pi_defs _ _ _ Hi) as (defs & Hw & _). exists (SetTsColumn (ps_col_map s !! name) <$> defs). split; [|done].
      eapply set_ts_wf; [exact Hw| |exact Eu]. destruct (ps_col_map s !! name) as [c|] eqn:Ec; [|done]. eapply (pi_ts _ _ _ Hi); [|exact Ec].
      right. rewrite Em. by left.
  - destruct (parse_keys _ _ _ _ _ _) as [[[] t1]|] eqn:Ep; cbn [mbind option_bind]; try done. intros [= <- <-].
    eapply (parse_keys_wf m Hm) in Ep as [defs Hw]; [by exists defs|exact Hi|by rewrite Ek|apply defs_wf_ReSet|done].
Qed.

Lemma parse_plain t t' ts : ParseFromMeta t m = Some (0, t', ts) -> exists defs, index_built t' defs /\ defs <> [].
Proof using Hm.
  unfold ParseFromMeta. destruct (plain_parts m Hm) as (_ & _ & _ & _ & Httl).
  destruct (match tm_column_desc m with [] => _ | _ => _ end) as [[[[] t1] ts1]|] eqn:E; cbn [mbind option_bind negb]; try done.
  assert (exists defs, defs_wf t1 defs /\ (tm_column_key m = [] \/ length ts1 <= 1)%nat) as (defs & Hw & Hts).
  { destruct (tm_column_desc m).
    - destruct (parse_dimensions _ _ _ _) as [[ok t2]|] eqn:Ed; cbn [mbind option_bind] in E; [|done]. injection E as -> -> <-.
      apply (parse_dimensions_wf m Hm _ _ _ []) in Ed as [defs Hw]; [|apply defs_wf_ReSet|done]. exists defs. split; [done|]. right. cbn. lia.
    - apply parse_described_wf in E as (defs & Hw & Hl). exists defs. split; [done|by right]. }
  assert (Hadd : forall ret t2, (match indexs_ t1, multi_ts_indexs_ t1 with
      | [], [] => let '(p, t) := new_def t1 (SetTTL (meta_ttl m) (IndexDef_new (str "idx0") 0 kReady kTimeSerise [])) in AddIndex t p
      | _, _ => Some (0, t1) end) = Some (ret, t2) -> ret < 0 \/ exists defs2, defs_wf t2 defs2).
  { intros ret t2. rewrite (dw_multi _ _ Hw). pose proof (Forall2_length _ _ _ (dw_at _ _ Hw)) as Hl0. destruct (indexs_ t1); [|intros [= <- <-]; eauto]. cbn [new_def]. intros Ha.
    apply (AddIndex_new _ _ _ _ _ Hw) in Ha; [|by split; [done|split; [eauto|done]]|by rewrite <- Hl0]. destruct Ha as [?|[_ ?]]; [by left|eauto]. }
  destruct (match indexs_ t1, multi_ts_indexs_ t1 with [], [] => _ | _, _ => _ end) as [[ret t2]|]; cbn [mbind option_bind]; [|done].
  destruct (Hadd ret t2 eq_refl) as [Hneg|[defs2 Hw2]]; [by rewrite decide_True by done|]. case_decide; [done|].
  destruct (fill_plain t2 defs2 m (length ts1) Hw2 Hts) as (t3 & defs3 & -> & Hf). cbn [mbind option_bind]. rewrite (fi_multi _ _ _ Hf).
  assert (Hb : forall p, index_built (set_pk_index p t3) defs3) by (intros p; apply fill_built in Hf as [[X1 X2 X3 X4 X5 X6 X7] Y1 Y2]; by split; [split|..]).
  pose proof (fi_at _ _ _ Hf) as Hat. destruct (indexs_ t3) as [|p ps]; [done|]. intros [= <- <-]. exists defs3. split; [apply Hb|]. by inversion Hat.
Qed.
End parse.
