(* ===== verification/MemTableOps.v ===== *)
(** Every operation of a memory table keeps the invariant and does what the
    abstract table says. *)
From S2P Require Import Prelude Slice Random Skiplist SkiplistInv SkiplistInsert SkiplistSplit SkiplistSpec SkiplistNodes Segment SegmentGc.
From S2P Require Import SegmentRelease SegmentInv SegmentGcInv SegmentOps SegmentRefine SegmentClaims StdMap Hash TableIndex TableParse Table.
From S2P Require Import MemTable MemTableGc MemTableInv.

Section ops.
Context `{SmallLayout}.

(** The table [m] holds [a]; [R] are references to blocks that are not in a
    segment yet. *)
Record tab_rep (n offset : Z) (m : MemTable) (a : abs_table) (cs : list (list cell)) (R : list nat) : Prop := {
  tb_index : index_rep (mt_index m) (at_defs a);
  tb_pending : update_ttl_ (mt_table m) = at_pending a;
  tb_ttls : Forall (fun u => ttl_ok (um_ttl u)) (at_pending a);
  tb_gc : enable_gc_ m = at_gc a;
  tb_cnt : seg_cnt_ m = n;
  tb_segs : segs_rep n offset (at_defs a) (segments_ m) cs;
  tb_blocks : blocks_rep (mt_blocks m) (cells_blocks cs ++ R);
  tb_contents : contents_rep (mt_blocks m) n cs (at_content a);
  tb_records : record_cnt_ m = u64 (Z.of_nat (size (mt_blocks m)));
  tb_bytes : record_byte_size_ m = u64 (blocks_bytes (mt_blocks m));
  tb_open : segment_released_ m = false
}.

(** ** One segment *)
Lemma seg_at_rep n offset defs m cs i d key : segs_rep n offset defs (segments_ m) cs -> 1 <= n -> defs !! i = Some d ->
  exists ci c s, cs !! i = Some ci /\ ci !! seg_of n key = Some c /\ length ci = Z.to_nat n /\ seg_at m i (seg_of n key) = Some s /\
    cell_rep n offset (def_map d) (seg_of n key) s c.
Proof.
  intros Hs Hn Hd. destruct (segs_rep_at _ _ _ _ _ _ _ Hs Hd) as (ci & arr & Hci & Hl & Harr & Hr).
  assert (is_Some (ci !! seg_of n key)) as [c Hc] by (apply lookup_lt_is_Some; rewrite Hl; by apply seg_of_lt).
  destruct (arr_rep_lookup _ _ _ _ _ _ _ _ Hr Hc) as (s & Hsj & Hrep). exists ci, c, s. unfold seg_at. rewrite Harr. by split_and!.
Qed.

(** ** Insertion *)

(** A row put into the segment of [key] in index [i] takes one reference over. *)
Lemma put_one n offset defs m cs i d key t b blk ms R : segs_rep n offset defs (segments_ m) cs -> 1 <= n -> defs !! i = Some d -> key_ok key ->
  mt_blocks m !! b = Some blk -> contents_rep (mt_blocks m) n cs ms -> blocks_rep (mt_blocks m) (cells_blocks cs ++ b :: R) ->
  exists s s' cs', seg_at m i (seg_of n key) = Some s /\ Put_row s key t b = Some s' /\
    segs_rep n offset defs (segments_ (set_seg m i (seg_of n key) s')) cs' /\
    contents_rep (mt_blocks m) n cs' (alter (abs_put key t (data blk)) i ms) /\ blocks_rep (mt_blocks m) (cells_blocks cs' ++ R) /\
    ts_idx_map_ s = def_map d /\ ts_cnt_ s = 1 /\ length (cells_blocks cs') = S (length (cells_blocks cs)).
Proof.
  intros Hs Hn Hd Hk Hb Hct Hbr. destruct (seg_at_rep _ _ _ _ _ _ _ key Hs Hn Hd) as (ci & c & s & Hci & Hc & Hl & Hat & Hrep).
  destruct (cell_put _ _ _ _ _ _ key t b _ _ Hrep Hk eq_refl Hb) as (s' & c' & Hput & Hrep' & Hbl & Hv).
  destruct (cells_blocks_cell _ _ _ _ _ Hci Hc) as (rest & P1 & P2). destruct (contents_at _ _ _ _ _ _ Hct Hci) as (m0 & Hm0 & Hm0v).
  exists s, s', (<[i := <[seg_of n key := c']> ci]> cs). split; [done|]. split; [done|].
  assert (Hperm : cells_blocks (<[i := <[seg_of n key := c']> ci]> cs) ≡ₚ b :: cells_blocks cs) by (by rewrite P2, Hbl, P1).
  split; [by eapply segs_rep_alter|]. split; [|split; [|split; [apply Hrep|split; [apply Hrep|by rewrite Hperm]]]].
  - rewrite (alter_insert _ _ _ _ Hm0).
    apply contents_rep_set; [done|]. eapply index_view_cell; [done|done|exact Hm0v|exact Hc| |].
    + intros k Hk'. rewrite abs_put_lookup, decide_False; [done|]. by intros ->.
    + intros k Hk' Hmk. rewrite Hv, !abs_put_lookup. case_decide as Ek; [|done]. by rewrite Ek in Hmk; rewrite Hmk.
  - rewrite Hperm. cbn. by rewrite Permutation_middle.
Qed.

Definition km_ok (defs : list IndexDef) (km : list (Z * bytes)) : Prop :=
  Forall (fun kv => 0 <= kv.1 < Z.of_nat (length defs) /\ key_ok kv.2) km.

Lemma km_def (defs : list IndexDef) (kv : Z * bytes) : 0 <= kv.1 < Z.of_nat (length defs) -> exists d, defs !! Z.to_nat kv.1 = Some d.
Proof. intros Hkv. apply lookup_lt_is_Some. lia. Qed.

Lemma inner_ready t defs pos d : index_rep t defs -> 0 <= pos -> defs !! Z.to_nat pos = Some d ->
  exists x p, GetInnerIndex t pos = Some x /\ ii_index x = [p] /\ def_at t p = Some d /\ any_ready t [p] = Some true.
Proof.
  intros Hx Hp Hd. destruct (ix_inner_at _ _ _ _ Hx Hd) as (x & p & Hin & Hii & Hdef). exists x, p. split; [done|]. split; [done|]. split; [done|].
  cbn. rewrite Hdef. cbn. destruct (ix_ok _ _ Hx _ _ Hd) as (Hr & _). unfold IsReady. by rewrite bool_decide_true.
Qed.

Lemma put_loop n offset defs (put : Segment -> bytes -> option Segment) (time : nat -> Z) b blk R : forall km m cs ms,
  index_rep (mt_index m) defs -> segs_rep n offset defs (segments_ m) cs -> seg_cnt_ m = n -> 1 <= n -> km_ok defs km ->
  mt_blocks m !! b = Some blk -> contents_rep (mt_blocks m) n cs ms -> blocks_rep (mt_blocks m) (cells_blocks cs ++ replicate (length km) b ++ R) ->
  (forall kv d s, kv ∈ km -> defs !! Z.to_nat kv.1 = Some d -> ts_idx_map_ s = def_map d -> ts_cnt_ s = 1 ->
     put s kv.2 = Put_row s kv.2 (time (Z.to_nat kv.1)) b) ->
  exists segs' cs', put_keys_loop m km put = Some (set_segments segs' m) /\ segs_rep n offset defs segs' cs' /\
    contents_rep (mt_blocks m) n cs' (put_all time (data blk) km ms) /\ blocks_rep (mt_blocks m) (cells_blocks cs' ++ R) /\
    length (cells_blocks cs') = (length km + length (cells_blocks cs))%nat.
Proof.
  induction km as [|[pos key] km IH]; intros m cs ms Hx Hs Hcnt Hn Hkm Hb Hct Hbr Hput.
  { exists (segments_ m), cs. split; [by destruct m|]. done. }
  apply Forall_cons in Hkm as [[Hpos Hkey] Hkm]. cbn [fst snd] in Hpos, Hkey. destruct (km_def defs (pos, key) Hpos) as [d Hd]. cbn [fst] in Hd.
  destruct (inner_ready _ _ _ _ Hx (proj1 Hpos) Hd) as (x & p & Hin & Hii & Hdef & Hready).
  cbn [length replicate] in Hbr. rewrite <- app_comm_cons in Hbr.
  destruct (put_one n offset defs m cs _ d key (time (Z.to_nat pos)) b blk ms _ Hs Hn Hd Hkey Hb Hct Hbr)
    as (s & s' & cs1 & Hat & Hp & Hs1 & Hct1 & Hbr1 & Hmap & Hts & Hlen1).
  cbn [put_keys_loop]. rewrite Hin. cbn [mbind option_bind]. rewrite Hii, Hready. cbn [mbind option_bind]. unfold seg_idx_of. rewrite Hcnt, Hat. cbn [mbind option_bind].
  pose proof (Hput (pos, key) d s ltac:(left) Hd Hmap Hts) as Epu. cbn [fst snd] in Epu. rewrite Epu, Hp. cbn [mbind option_bind].
  destruct (IH (set_seg m (Z.to_nat pos) (seg_of n key) s') cs1 (alter (abs_put key (time (Z.to_nat pos)) (data blk)) (Z.to_nat pos) ms))
    as (segs' & cs' & E & Hs' & Hct' & Hbr' & Hlen'); try done.
  { intros kv d' s0 Hkv. apply Hput. by right. }
  exists segs', cs'. split; [exact E|]. split; [done|]. split; [done|]. split; [done|]. simpl. lia.
Qed.

(** The keys of a row *)
Lemma emplace_ok defs idx key km : 0 <= idx < Z.of_nat (length defs) -> key_ok key -> km_ok defs km -> km_ok defs (emplace Z_before idx key km).
Proof.
  intros Hi Hk Hkm. apply Forall_forall. intros x [->|Hx]%emplace_elem; [done|]. unfold km_ok in Hkm. rewrite Forall_forall in Hkm. by apply Hkm.
Qed.

Definition dims_ok (dims : list (Z * bytes)) : Prop := Forall (fun d => 0 <= d.1 /\ key_ok d.2) dims.

Lemma inner_keys_spec t defs dims : index_rep t defs -> dims_ok dims -> forall km, km_ok defs km ->
  inner_keys t dims km = dims_keys (length defs) dims km /\ (forall km', dims_keys (length defs) dims km = Some km' -> km_ok defs km').
Proof.
  intros Hx Hd. induction Hd as [|[idx key] dims [Hi Hk] Hd IH]; intros km Hkm; [split; [done|by intros km' [= <-]]|]. cbn [inner_keys dims_keys fst snd] in *.
  rewrite (ix_pos _ _ Hx) by done. destruct (decide (idx < Z.of_nat (length defs))) as [Hlt|Hge].
  - rewrite decide_False by lia. apply IH. by apply emplace_ok.
  - rewrite decide_True by lia. done.
Qed.

(** A map over the indexes has at most one key for each. *)
Lemma dims_keys_wf n dims : forall km km', map_wf Z_before km -> dims_keys n dims km = Some km' -> map_wf Z_before km'.
Proof.
  induction dims as [|[idx key] dims IH]; intros km km' Hw; cbn [dims_keys]; [by intros [= <-]|]. case_decide; [|done]. apply IH.
  apply emplace_wf; [apply Z_before_irrefl|apply Z_before_trans|apply Z_before_total|done].
Qed.

Lemma sorted_bound (km : list (Z * bytes)) lo hi : map_wf Z_before km -> Forall (fun kv => lo <= kv.1 < hi) km -> lo <= hi ->
  Z.of_nat (length km) <= hi - lo.
Proof.
  intros Hw. revert lo. induction Hw as [|[k v] km Hw IH Hall]; intros lo Hf Hle; [simpl; lia|]. apply Forall_cons in Hf as [Hk Hf]. cbn [fst] in Hk.
  specialize (IH (k + 1)). simpl length. rewrite Nat2Z.inj_succ. enough (Z.of_nat (length km) <= hi - (k + 1)) by lia. apply IH; [|lia].
  apply Forall_forall. intros x Hx. rewrite Forall_forall in Hall, Hf. specialize (Hall x Hx). specialize (Hf x Hx). unfold Z_before in Hall.
  rewrite bool_decide_spec in Hall. cbn [fst] in Hall. lia.
Qed.

Lemma dims_keys_length t defs dims km : index_rep t defs -> dims_ok dims -> dims_keys (length defs) dims [] = Some km -> (length km <= 200)%nat.
Proof.
  intros Hx Hd Hkm. destruct (inner_keys_spec t defs dims Hx Hd []) as [_ Hok]; [constructor|]. specialize (Hok km Hkm).
  pose proof (dims_keys_wf _ _ [] km ltac:(constructor) Hkm) as Hw.
  pose proof (sorted_bound km 0 (Z.of_nat (length defs)) Hw) as Hb. pose proof (ix_num _ _ Hx) as Hn. unfold MAX_INDEX_NUM in Hn.
  enough (Z.of_nat (length km) <= Z.of_nat (length defs) - 0) by lia. apply Hb; [|lia]. eapply Forall_impl; [exact Hok|]. by intros kv [? _].
Qed.

Lemma dims_keys_nonempty n dims km0 km : dims_keys n dims km0 = Some km -> dims <> [] \/ km0 <> [] -> km <> [].
Proof.
  revert km0. induction dims as [|[idx key] dims IH]; intros km0; cbn [dims_keys]; [intros [= <-]; tauto|]. case_decide; [|done].
  intros Hkm _. eapply IH; [exact Hkm|]. right. destruct km0 as [|[k v] km0]; simpl; [done|]. destruct (decide _); [done|]. by destruct (Z_before idx k).
Qed.

(** ** The number of references of a row *)

(** The index takes a row with these timestamps (or none) *)
Definition takes (ts_dims : option (list (Z * Z))) (d : IndexDef) : Prop :=
  match ts_column_ d, ts_dims with
  | Some c, Some dims => has_ts dims c = true
  | Some _, None => False
  | None, _ => True
  end.

Lemma real_ref_all t defs ts_dims km : index_rep t defs -> km_ok defs km -> (forall kv d, kv ∈ km -> defs !! Z.to_nat kv.1 = Some d -> takes ts_dims d) ->
  forall cnt, 0 <= cnt -> cnt + Z.of_nat (length km) < 2 ^ 32 -> real_ref_cnt t ts_dims km cnt = Some (Some (cnt + Z.of_nat (length km))).
Proof.
  intros Hx. induction km as [|[pos key] km IH]; intros Hkm Htk cnt Hc Hlt; [cbn; by rewrite Z.add_0_r|].
  apply Forall_cons in Hkm as [[Hpos _] Hkm]. cbn [fst] in Hpos. destruct (km_def defs (pos, key) Hpos) as [d Hd]. cbn [fst] in Hd.
  destruct (inner_ready _ _ _ _ Hx (proj1 Hpos) Hd) as (x & p & Hin & Hii & Hdef & Hready). cbn [real_ref_cnt]. rewrite Hin, Hii.
  destruct (ix_ok _ _ Hx _ _ Hd) as (Hr & _). assert (IsReady d = true) as Hrd by (unfold IsReady; by rewrite bool_decide_true).
  assert (count_ready t ts_dims [p] cnt = Some (Some (cnt + 1))) as ->.
  { cbn [count_ready]. rewrite Hdef. cbn [mbind option_bind]. specialize (Htk (pos, key) d ltac:(left) Hd). unfold takes in Htk. simpl in Hlt.
    destruct (ts_column_ d) as [c|]; [destruct ts_dims as [dims|]; [|done]; rewrite Htk|]; rewrite Hrd; cbn; rewrite uwrap_id; (done || split; lia). }
  cbn [mbind option_bind]. simpl length in *. rewrite IH; [do 2 f_equal; lia|done|intros kv d' Hkv; apply Htk; by right|lia|lia].
Qed.

Lemma real_ref_refused t defs km : index_rep t defs -> km_ok defs km -> forall cnt,
  existsb (fun kv => match defs !! Z.to_nat kv.1 with Some d => bool_decide (is_Some (ts_column_ d)) | None => false end) km = true ->
  real_ref_cnt t None km cnt = Some None.
Proof.
  intros Hx. induction km as [|[pos key] km IH]; intros Hkm cnt Hex; [done|].
  apply Forall_cons in Hkm as [[Hpos _] Hkm]. cbn [fst] in Hpos. destruct (km_def defs (pos, key) Hpos) as [d Hd]. cbn [fst] in Hd.
  destruct (inner_ready _ _ _ _ Hx (proj1 Hpos) Hd) as (x & p & Hin & Hii & Hdef & Hready). cbn [real_ref_cnt existsb fst] in Hex |- *. rewrite Hin, Hii. rewrite Hd in Hex.
  cbn [count_ready]. rewrite Hdef. cbn [mbind option_bind]. destruct (ts_column_ d) as [c|]; [done|]. cbn [mbind option_bind].
  apply IH; [done|]. exact Hex.
Qed.

(** ** A new row *)

Lemma cells_rows_blocks bs cs R ci c x r : blocks_rep bs (cells_blocks cs ++ R) -> ci ∈ cs -> c ∈ ci -> x ∈ ce_live c -> r ∈ rows_of x ->
  is_Some (bs !! r.1.2).
Proof.
  intros Hb Hci Hc Hx Hr. eapply blocks_rep_lookup; [exact Hb|]. apply elem_of_app. left. unfold cells_blocks. apply list_elem_of_bind.
  exists c. split; [|apply list_elem_of_join; eauto]. unfold cell_blocks, seg_blocks. rewrite keyed_blocks_app. apply elem_of_app. left.
  apply list_elem_of_bind. exists x. split; [|done]. cbn. unfold row_blocks. apply list_elem_of_fmap. eauto.
Qed.

Lemma contents_new_block bs n cs ms R b blk : contents_rep bs n cs ms -> blocks_rep bs (cells_blocks cs ++ R) -> bs !! b = None ->
  contents_rep (<[b := blk]> bs) n cs ms.
Proof.
  intros Hct Hb Hn. eapply contents_rep_blocks; [exact Hct|]. intros ci c Hci Hc. apply view_ext. intros x r Hx Hr. unfold row_view.
  rewrite lookup_insert_ne; [done|]. intros ->. destruct (cells_rows_blocks _ _ _ _ _ _ _ Hb Hci Hc Hx Hr). congruence.
Qed.

(** The counters of the table follow its blocks. *)
Lemma count_new_block bs b (cnt : Z) (value : bytes) : bs !! b = None ->
  u64 (u64 (Z.of_nat (size bs)) + 1) = u64 (Z.of_nat (size (<[b := MkDataBlock cnt value]> bs))) /\
  u64 (u64 (blocks_bytes bs) + GetRecordSize (u32 (Z.of_nat (length value)))) = u64 (blocks_bytes (<[b := MkDataBlock cnt value]> bs)).
Proof.
  intros Hb. rewrite map_size_insert_None, blocks_bytes_insert by done. rewrite !uwrap_add_l. split; f_equal; [lia|]. unfold block_size. cbn [data]. lia.
Qed.
End ops.
