(* ===== verification/MemTablePut.v ===== *)
(** Insertion and deletion in a memory table; and a small table for the examples. *)
From Stdlib Require Import String.
From S2P Require Import Prelude Slice Random Skiplist SkiplistInv SkiplistInsert SkiplistSplit SkiplistSpec SkiplistNodes Segment SegmentGc.
From S2P Require Import SegmentRelease SegmentInv SegmentGcInv SegmentOps SegmentRefine SegmentClaims StdMap Hash TableIndex TableParse Table.
From S2P Require Import MemTable MemTableGc MemTableInv TableParseThms MemTableOps.

(** * MemTableInit: The constructor and [Init] of a memory table with a plain description:
    empty segments for every index. *)
Section init.
Context `{SmallLayout} `{TableFlags}.

(** Heights that a segment can have *)
Definition flags_ok : Prop :=
  1 <= FLAGS_skiplist_max_height < 256 /\ 1 <= FLAGS_absolute_default_skiplist_height < 256 /\ 1 <= FLAGS_latest_default_skiplist_height < 256.

Definition new_offset : Z := ttl_offset_ (Segment_height 1).

Lemma new_segment_cell n j height d : flags_ok -> 1 <= height < 256 -> def_wf d ->
  cell_rep n new_offset (def_map d) j (new_segment height (ts_list d)) (MkCell [] []).
Proof.
  intros Hf Hh (_ & _ & Hts). assert (Hok : new_seg_ok (u8 height)).
  { destruct Hf as [Hm _]. split; rewrite uwrap_id; unfold in_uint; lia. }
  unfold new_segment, def_map, ts_list. destruct (ts_column_ d) as [c|].
  - split; cbn -[Segment_ts]; try done; [|constructor..]. by apply Segment_make_core.
  - split; cbn -[Segment_height]; try done; [|constructor..]. by apply Segment_make_core.
Qed.

Lemma any_abs_height t x a l h : GetKeyEntryMaxHeight t x a l = Some h -> h = a \/ h = l.
Proof. unfold GetKeyEntryMaxHeight. destruct (any_abs t (ii_index x)) as [[]|]; cbn; try done; intros [= <-]; tauto. Qed.

Lemma init_segments_spec gh : flags_ok -> 0 <= gh < 256 -> forall inner i m m', init_segments m gh i inner = Some m' ->
  mt_table m' = mt_table m /\ seg_cnt_ m' = seg_cnt_ m /\ mt_blocks m' = mt_blocks m /\ enable_gc_ m' = enable_gc_ m /\
  record_cnt_ m' = record_cnt_ m /\ record_byte_size_ m' = record_byte_size_ m /\ segment_released_ m' = segment_released_ m /\ (forall k, (k < i \/ i + length inner <= k)%nat -> segments_ m' !! k = segments_ m !! k) /\
  (forall k x, inner !! k = Some x -> exists h, 1 <= h < 256 /\ segments_ m' !! (i + k)%nat = Some (Some (replicate (Z.to_nat (seg_cnt_ m)) (new_segment h (ii_ts x))))).
Proof.
  intros (F1 & F2 & F3) Hg. induction inner as [|x inner IH]; intros i m m'; cbn [init_segments]; [by intros [= <-]|].
  destruct (if decide (0 < gh) then _ else _) as [h|] eqn:Eh; cbn [mbind option_bind]; [|done].
  assert (Hh : 1 <= h < 256) by (case_decide; [injection Eh as <-; lia|apply any_abs_height in Eh as [-> | ->]; lia]).
  unfold store_segments. destruct (require _) eqn:Er; cbn [mbind option_bind]; [|done]. apply require_Some, bool_decide_eq_true in Er.
  intros (I1 & I2 & I3 & I4 & I5 & I6 & I9 & I7 & I8)%IH. cbn in *. split_and!; try done.
  - intros k Hk. cbn in Hk. rewrite I7 by lia. apply list_lookup_insert_ne. lia.
  - intros [|k] y Hk; cbn in Hk.
    + injection Hk as <-. exists h. split; [done|]. rewrite Nat.add_0_r, I7 by lia. by apply list_lookup_insert_eq.
    + destruct (I8 k y Hk) as (h' & Hh' & E). exists h'. split; [done|]. by rewrite Nat.add_succ_r.
Qed.

(** ** The abstract table a new table stands for *)
Definition defs_of (t : TableIndex) : list IndexDef := omap (def_at t) (indexs_ t).
Definition abs_table_new (m : MemTable) : abs_table := AbsTable (replicate (length (indexs_ (mt_index m))) ∅) (defs_of (mt_index m)) [] true.

Lemma defs_of_rep t defs : index_rep t defs -> defs_of t = defs.
Proof.
  intros Hx. unfold defs_of. pose proof (ix_defs _ _ Hx) as Hf. clear Hx. induction Hf as [|p d ps ds Hd Hf IH]; [done|]. cbn. rewrite Hd. by f_equal.
Qed.

Lemma arr_rep_new n map s c k : (forall j, cell_rep n new_offset map j s c) -> forall j, arr_rep n new_offset map j (replicate k s) (replicate k c).
Proof. intros Hc. induction k as [|k IH]; intros j; cbn; [done|]. split; [done|apply IH]. Qed.

Lemma cells_blocks_new k n : cells_blocks (replicate k (replicate n (MkCell [] []))) = [].
Proof.
  unfold cells_blocks. assert (forall l : list cell, Forall (fun c => c = MkCell [] []) l -> l ≫= cell_blocks = []) as Hl.
  { intros l Hl. induction Hl as [|c l -> Hl IH]; [done|]. by rewrite bind_cons, IH. }
  apply Hl. apply Forall_join, Forall_replicate, Forall_replicate. done.
Qed.

(** ** [Init] *)
Lemma ParseFromMeta_ret t meta ret t' ts : ParseFromMeta t meta = Some (ret, t', ts) -> ret = -1 \/ ret = 0.
Proof.
  unfold ParseFromMeta. intros Hp. repeat (case_match; simplify_option_eq; try done; try tauto).
Qed.

Lemma InitFromMeta_parts t t' : InitFromMeta t = Some (true, t') ->
  exists ts, ParseFromMeta (table_index_ t) (table_meta_ t) = Some (0, table_index_ t', ts) /\ update_ttl_ t' = update_ttl_ t.
Proof.
  unfold InitFromMeta. set (t1 := match tm_mode (table_meta_ t) with Some kTableFollower => _ | _ => t end).
  assert (table_index_ t1 = table_index_ t /\ table_meta_ t1 = table_meta_ t /\ update_ttl_ t1 = update_ttl_ t) as (E1 & E2 & E3) by (unfold t1; by repeat case_match).
  unfold InitColumnDesc. rewrite E1, E2. destruct (ParseFromMeta _ _) as [[[ret idx] ts]|] eqn:Ep; cbn [mbind option_bind]; [|done].
  destruct (ParseFromMeta_ret _ _ _ _ _ Ep) as [-> | ->]; cbn [decide]; [done|]. intros [= <-]. by exists ts.
Qed.

Lemma MemTable_Init_index meta m0 : flags_ok -> MemTable_Init (MemTable_of meta) = Some (true, m0) -> exists ts, ParseFromMeta TableIndex_new meta = Some (0, mt_index m0, ts).
Proof.
  intros Hf. unfold MemTable_Init. destruct (InitFromMeta _) as [[[] t]|] eqn:Et; cbn [mbind option_bind negb]; try done.
  apply InitFromMeta_parts in Et as (ts & Hp & _). set (m1 := if decide _ then _ else _). assert (mt_table m1 = t) as M1 by (unfold m1; by case_decide).
  set (gh := match tm_key_entry_max_height (table_meta_ t) with Some h => _ | None => 0 end).
  assert (Hgh : 0 <= gh < 256) by (destruct Hf as [? _]; unfold gh; repeat case_match; lia). clearbody m1 gh.
  destruct (init_segments m1 gh 0 _) as [m2|] eqn:Ei; cbn [mbind option_bind]; [|done]. intros [= <-].
  apply init_segments_spec in Ei as (I1 & _); [|done|done]. exists ts. by rewrite I1, M1.
Qed.

(** The table [Init] builds when every index has an inner index of its own *)
Lemma MemTable_Init_built meta m0 defs : flags_ok -> MemTable_Init (MemTable_of meta) = Some (true, m0) -> index_built (mt_index m0) defs ->
  1 <= seg_cnt_ m0 /\ exists cs, tab_rep (seg_cnt_ m0) new_offset m0 (abs_table_new m0) cs [] /\ cells_blocks cs = [] /\ defs_of (mt_index m0) = defs.
Proof.
  intros Hf HI Hbuilt. revert HI. unfold MemTable_Init. destruct (InitFromMeta _) as [[[] t]|] eqn:Et; cbn [mbind option_bind negb]; try done.
  apply InitFromMeta_parts in Et as (ts & Hp & Hu). set (m1 := if decide _ then _ else _).
  assert (mt_table m1 = t /\ segments_ m1 = replicate MAX_INDEX_NUM None /\ segment_released_ m1 = false /\ 1 <= seg_cnt_ m1 /\ mt_blocks m1 = ∅ /\ enable_gc_ m1 = true /\ record_cnt_ m1 = 0 /\ record_byte_size_ m1 = 0)
    as (M1 & M7 & M8 & M2 & M3 & M4 & M5 & M6) by (unfold m1; case_decide; split_and!; cbn; (done || lia)).
  set (gh := match tm_key_entry_max_height (table_meta_ t) with Some h => _ | None => 0 end).
  assert (Hgh : 0 <= gh < 256) by (destruct Hf as [? _]; unfold gh; repeat case_match; lia). clearbody m1 gh.
  destruct (init_segments m1 gh 0 _) as [m2|] eqn:Ei; cbn [mbind option_bind]; [|done]. intros [= ->].
  apply init_segments_spec in Ei as (I1 & I2 & I3 & I4 & I5 & I6 & I9 & I7 & I8); [|done|done]. rewrite M1 in *. rewrite I1 in Hbuilt. destruct Hbuilt as [Hx Hts Hnames]. rewrite I2.
  split; [done|]. exists (replicate (length defs) (replicate (Z.to_nat (seg_cnt_ m1)) (MkCell [] []))). unfold abs_table_new. rewrite I1, (defs_of_rep _ _ Hx), (ix_length _ _ Hx).
  split; [|split; [apply cells_blocks_new|done]].
  split; cbn [at_content at_defs at_pending at_gc]; rewrite ?I1, ?I2, ?I3, ?I4, ?I5, ?I6, ?I9; try done.
  - split; [apply length_replicate|]. split; [|intros i x Hi; rewrite I7, M7;
      [by intros [-> _]%lookup_replicate|pose proof (f_equal length Hts) as E; rewrite !length_fmap in E; lia]].
    intros i d ci Hd [-> _]%lookup_replicate. split; [apply length_replicate|].
    destruct (ix_inner_at _ _ _ _ Hx Hd) as (x & p & Hxi & Hp' & Hdef). destruct (I8 i x Hxi) as (h & Hh & Hseg). eexists. split; [exact Hseg|].
    apply arr_rep_new. intros j. assert (ii_ts x = ts_list d) as ->.
    { apply (f_equal (.!! i)) in Hts. rewrite !list_lookup_fmap, Hxi, Hd in Hts. by injection Hts. }
    apply new_segment_cell; [done|done|]. destruct (ix_ok _ _ Hx i d Hd) as (O1 & _ & O3 & O4 & _). done.
  - rewrite M3, cells_blocks_new. intros b. by rewrite lookup_empty.
  - split; [by rewrite !length_replicate|]. intros i ci mm [-> _]%lookup_replicate [-> _]%lookup_replicate key. rewrite lookup_empty. unfold index_view.
    destruct (replicate _ _ !! _) as [c|] eqn:E; [|done]. by apply lookup_replicate in E as [-> _].
  - by rewrite M3, M5.
  - by rewrite M3, M6.
Qed.

Lemma MemTable_Init_rep meta m0 : flags_ok -> plain_meta meta = true -> MemTable_Init (MemTable_of meta) = Some (true, m0) ->
  1 <= seg_cnt_ m0 /\ exists cs, tab_rep (seg_cnt_ m0) new_offset m0 (abs_table_new m0) cs [] /\ cells_blocks cs = [] /\ defs_of (mt_index m0) <> [].
Proof.
  intros Hf Hm HI. destruct (MemTable_Init_index meta m0 Hf HI) as [ts Hp]. destruct (parse_plain _ Hm _ _ _ Hp) as (defs & Hb & Hne).
  destruct (MemTable_Init_built meta m0 defs Hf HI Hb) as (Hn & cs & Ht & Hcs & Hd). split; [done|]. exists cs. by rewrite Hd.
Qed.
End init.

(** * MemTablePut *)
Section put.
Context `{SmallLayout}.

(** A new block with a reference for each of the [k] segments it goes to *)
Lemma new_row n offset m a cs k value : tab_rep n offset m a cs [] -> (1 <= k <= 200)%nat ->
  exists b, new_block (mt_blocks m) (Z.of_nat k) value = (b, <[b := MkDataBlock (Z.of_nat k) value]> (mt_blocks m)) /\ mt_blocks m !! b = None /\
    blocks_rep (<[b := MkDataBlock (Z.of_nat k) value]> (mt_blocks m)) (cells_blocks cs ++ replicate k b ++ []) /\
    contents_rep (<[b := MkDataBlock (Z.of_nat k) value]> (mt_blocks m)) n cs (at_content a).
Proof.
  intros Ht Hk. destruct (new_block (mt_blocks m) (Z.of_nat k) value) as [b bs'] eqn:E.
  pose proof (tb_blocks _ _ _ _ _ _ Ht) as Hb. destruct (new_block_rep _ _ (Z.of_nat k) _ _ _ Hb ltac:(lia) E) as (Hf & -> & Hb').
  exists b. split; [done|]. split; [done|]. split; [|eapply contents_new_block; [apply Ht|exact Hb|done]].
  rewrite Nat2Z.id in Hb'. rewrite (app_nil_r (replicate k b)), (app_nil_r (cells_blocks cs)) in *. by rewrite Permutation_app_comm.
Qed.

(** The state after a row was put into its segments *)
Lemma row_counted n offset m a cs cs' segs b k value ms : tab_rep n offset m a cs [] -> mt_blocks m !! b = None ->
  let bs := <[b := MkDataBlock k value]> (mt_blocks m) in
  segs_rep n offset (at_defs a) segs cs' -> blocks_rep bs (cells_blocks cs' ++ []) -> contents_rep bs n cs' ms ->
  tab_rep n offset (count_record (Z.of_nat (length value)) (set_segments segs (set_mt_blocks bs m))) (AbsTable ms (at_defs a) (at_pending a) (at_gc a)) cs' [].
Proof.
  intros Ht Hf bs Hs Hb Hc. destruct (count_new_block (mt_blocks m) b k value Hf) as [E1 E2]. pose proof Ht as [T1 T2 T3 T4 T5 T6 T7 T8 T9 T10 T11].
  split; cbn [mt_table update_ttl_ enable_gc_ seg_cnt_ segments_ mt_blocks record_cnt_ record_byte_size_ count_record set_records set_segments set_mt_blocks
              at_content at_defs at_pending at_gc]; try done.
  - by rewrite T9.
  - by rewrite T10.
Qed.

Lemma put_row_spec n offset m a cs dims ts_dims value put time km : tab_rep n offset m a cs [] -> 1 <= n -> dims_ok dims -> dims <> [] ->
  dims_keys (length (at_defs a)) dims [] = Some km ->
  (forall kv d, kv ∈ km -> at_defs a !! Z.to_nat kv.1 = Some d -> takes ts_dims d) ->
  (forall b kv d s, kv ∈ km -> at_defs a !! Z.to_nat kv.1 = Some d -> ts_idx_map_ s = def_map d -> ts_cnt_ s = 1 ->
     put b s kv.2 = Put_row s kv.2 (time (Z.to_nat kv.1)) b) ->
  exists m' cs', put_row m dims ts_dims value put = Some (true, m') /\
    tab_rep n offset m' (AbsTable (put_all time value km (at_content a)) (at_defs a) (at_pending a) (at_gc a)) cs' [] /\
    (length (cells_blocks cs') <= 200 + length (cells_blocks cs))%nat.
Proof.
  intros Ht Hn Hd Hne Hkm Htk Hput. pose proof (tb_index _ _ _ _ _ _ Ht) as Hx.
  destruct (inner_keys_spec _ _ dims Hx Hd []) as [Hik Hok]; [constructor|]. specialize (Hok km Hkm).
  pose proof (dims_keys_length _ _ _ _ Hx Hd Hkm) as Hlen. pose proof (dims_keys_nonempty _ _ _ _ Hkm (or_introl Hne)) as Hkne.
  assert (1 <= length km <= 200)%nat as Hk by (destruct km; simpl in *; [done|lia]).
  unfold put_row. rewrite Hik, Hkm, (real_ref_all _ _ ts_dims km Hx Hok Htk 0) by lia. cbn [mbind option_bind]. rewrite Z.add_0_l.
  destruct (new_row n offset m a cs (length km) value Ht Hk) as (b & -> & Hf & Hb & Hct).
  destruct (put_loop n offset (at_defs a) (put b) time b (MkDataBlock (Z.of_nat (length km)) value) [] km (set_mt_blocks (<[b := MkDataBlock (Z.of_nat (length km)) value]> (mt_blocks m)) m) cs (at_content a))
    as (segs' & cs' & -> & Hs' & Hct' & Hb' & Hl'); try done.
  { apply (tb_segs _ _ _ _ _ _ Ht). }
  { apply (tb_cnt _ _ _ _ _ _ Ht). }
  { apply lookup_insert_eq. }
  { intros kv d s Hkv. by apply Hput. }
  cbn [mbind option_bind]. do 2 eexists. split; [reflexivity|]. split; [by eapply row_counted|]. lia.
Qed.

(** ** The three forms of [Put] *)

(** What an operation needs: keys of moderate length, an index for each
    dimension, a row for at least one, non-negative TTLs, and for every index
    named its timestamp among those given. *)
Definition mem_op_ok (defs : list IndexDef) (o : mem_op) : Prop :=
  match o with
  | MPut pk _ _ => key_ok pk /\ defs <> []
  | MPutDims _ _ dims => dims_ok dims /\ dims <> []
  | MPutTs dims ts_dims _ =>
      dims_ok dims /\ Forall (fun e => 0 <= e.1 < 2 ^ 31) ts_dims /\
      Forall (fun kv => match defs !! Z.to_nat kv.1 with Some d => is_Some (ts_time d ts_dims) | None => True end) dims
  | MDelete pk idx => 0 <= idx
  | MSetTTL u => ttl_ok (um_ttl u)
  | _ => True
  end.

#[global] Instance mem_op_ok_dec defs o : Decision (mem_op_ok defs o).
Proof.
  destruct o; cbn [mem_op_ok]; unfold key_ok, dims_ok, key_ok, ttl_ok; try apply _. apply and_dec; [apply _|]. apply and_dec; [apply _|].
  apply Forall_dec. intros kv. destruct (defs !! Z.to_nat kv.1); apply _.
Defined.

(** The operation on [m] does what the abstract one does on [a]. *)
Definition mem_simulates (n offset : Z) (o : mem_op) (m : MemTable) (a : abs_table) (cs : list (list cell)) : Prop :=
  exists m' cs', run_mem_op o m = Some ((abs_mem_op n offset o a).1, m') /\ tab_rep n offset m' (abs_mem_op n offset o a).2 cs' [] /\
    (length (cells_blocks cs') <= 200 + length (cells_blocks cs))%nat.

Lemma refused n offset o m a cs : tab_rep n offset m a cs [] -> run_mem_op o m = Some (false, m) -> abs_mem_op n offset o a = (false, a) ->
  mem_simulates n offset o m a cs.
Proof. intros Ht Hr Ha. exists m, cs. rewrite Ha. split; [done|]. split; [done|]. cbn. lia. Qed.

(** The keys come from the dimensions. *)
Lemma dims_keys_elem k dims : forall km km' kv, dims_keys k dims km = Some km' -> kv ∈ km' -> kv ∈ km \/ kv ∈ dims.
Proof.
  induction dims as [|[idx key] dims IH]; intros km km' kv; cbn [dims_keys]; [intros [= <-]; tauto|]. case_decide; [|done]. intros Hkm Hkv.
  destruct (IH _ _ _ Hkm Hkv) as [[->|Hin]%emplace_elem|Hin]; [right; left|by left|right; by right].
Qed.

Lemma ts_time_has d ts_dims t : Forall (fun e => 0 <= e.1 < 2 ^ 31) ts_dims -> ts_time d ts_dims = Some t -> takes (Some ts_dims) d.
Proof.
  unfold ts_time, takes. intros Hr Hts. destruct (ts_column_ d) as [c|]; [|done]. cbn [mbind option_bind] in Hts.
  destruct (list_find _ ts_dims) as [[i e]|] eqn:E; [|done]. apply list_find_Some in E as (Hi & He & _). apply existsb_exists. exists e.
  split; [by apply list_elem_of_In; eapply list_elem_of_lookup_2|]. rewrite Forall_forall in Hr. specialize (Hr e ltac:(by eapply list_elem_of_lookup_2)).
  apply bool_decide_eq_true. rewrite swrap_id; [done|lia|unfold in_sint; lia].
Qed.

(** A segment with one timestamp column takes the row at that timestamp. *)
Lemma Put_dims_time s d key ts_dims b t : ts_idx_map_ s = def_map d -> ts_cnt_ s = 1 -> ts_time d ts_dims = Some t ->
  Put_dims s key ts_dims b = Put_row s key t b.
Proof.
  intros Hm Hc Ht. unfold ts_time in Ht. destruct (ts_column_ d) as [c|] eqn:Ec; [|done]. cbn [mbind option_bind] in Ht.
  assert (Hfind : list_find (fun e : Z * Z => is_Some (ts_idx_map_ s !! e.1)) ts_dims = list_find (fun e : Z * Z => e.1 = cd_ts_idx c) ts_dims).
  { apply list_find_ext. intros e. rewrite Hm. unfold def_map. rewrite Ec, lookup_singleton_is_Some. split; congruence. }
  unfold Put_dims. destruct ts_dims as [|e rest]; [done|]. rewrite decide_True by done. destruct (decide (rest = [])) as [->|Hne].
  - cbn in Ht. destruct (decide (e.1 = cd_ts_idx c)); [|done]. cbn in Ht. by injection Ht as ->.
  - rewrite Hfind. destruct (list_find _ (e :: rest)) as [[i e']|]; [|done]. cbn in Ht. by injection Ht as ->.
Qed.

Section one_op.
Context n offset m a cs (Ht : tab_rep n offset m a cs []) (Hn : 1 <= n).

Lemma sim_mput_dims time value dims : mem_op_ok (at_defs a) (MPutDims time value dims) -> mem_simulates n offset (MPutDims time value dims) m a cs.
Proof using All.
  intros [Hd Hne]. pose proof (tb_index _ _ _ _ _ _ Ht) as Hx. destruct (inner_keys_spec _ _ dims Hx Hd []) as [Hik Hok]; [constructor|].
  destruct (dims_keys (length (at_defs a)) dims []) as [km|] eqn:Hkm.
  - specialize (Hok km eq_refl).
    destruct (existsb (fun kv => match at_defs a !! Z.to_nat kv.1 with Some d => bool_decide (is_Some (ts_column_ d)) | None => false end) km) eqn:Hex.
    + apply refused; [done| |].
      * cbn. unfold MemTable_Put_dims, put_row. rewrite Hik. by rewrite (real_ref_refused _ _ km Hx Hok 0 Hex).
      * destruct a as [ms defs pend gc]. cbn in *. by rewrite Hkm, Hex.
    + destruct (put_row_spec n offset m a cs dims None value (fun block s key => Put_row s key time block) (fun _ => time) km Ht Hn Hd Hne Hkm)
        as (m' & cs' & E & Ht' & Hl).
      * intros kv d Hkv Hdef. unfold takes. destruct (ts_column_ d) as [c|] eqn:Ec; [|done]. exfalso. apply not_true_iff_false in Hex. apply Hex.
        apply existsb_exists. exists kv. split; [by apply list_elem_of_In|]. rewrite Hdef, Ec. by apply bool_decide_true.
      * done.
      * exists m', cs'. destruct a as [ms defs pend gc]. cbn [abs_mem_op at_content at_defs at_pending at_gc] in *. rewrite Hkm, Hex. done.
  - apply refused; [done| |].
    + cbn. unfold MemTable_Put_dims, put_row. by rewrite Hik.
    + destruct a as [ms defs pend gc]. cbn in *. by rewrite Hkm.
Qed.

Lemma sim_mput_ts dims ts_dims value : mem_op_ok (at_defs a) (MPutTs dims ts_dims value) -> mem_simulates n offset (MPutTs dims ts_dims value) m a cs.
Proof using All.
  intros (Hd & Hr & Hts). pose proof (tb_index _ _ _ _ _ _ Ht) as Hx. destruct (inner_keys_spec _ _ dims Hx Hd []) as [Hik Hok]; [constructor|].
  destruct (decide (dims = [] \/ ts_dims = [])) as [Hnil|Hne].
  { apply refused; [done| |].
    - cbn. unfold MemTable_Put_ts. destruct dims; [done|]. destruct ts_dims; [done|]. by destruct Hnil.
    - destruct a as [ms defs pend gc]. cbn. by rewrite decide_True. }
  assert (Hrun : run_mem_op (MPutTs dims ts_dims value) m = put_row m dims (Some ts_dims) value (fun block s key => Put_dims s key ts_dims block)).
  { cbn. unfold MemTable_Put_ts. destruct dims; [tauto|]. by destruct ts_dims; [tauto|]. }
  destruct (dims_keys (length (at_defs a)) dims []) as [km|] eqn:Hkm.
  - assert (Htime : forall kv d, kv ∈ km -> at_defs a !! Z.to_nat kv.1 = Some d -> exists t, ts_time d ts_dims = Some t).
    { intros kv d Hkv Hdef. destruct (dims_keys_elem _ _ _ _ _ Hkm Hkv) as [?%not_elem_of_nil|Hin]; [done|]. rewrite Forall_forall in Hts.
      specialize (Hts kv Hin). rewrite Hdef in Hts. by destruct Hts; eauto. }
    destruct (put_row_spec n offset m a cs dims (Some ts_dims) value (fun block s key => Put_dims s key ts_dims block) (def_time (at_defs a) ts_dims) km Ht Hn Hd)
      as (m' & cs' & E & Ht' & Hl).
    + tauto.
    + done.
    + intros kv d Hkv Hdef. destruct (Htime kv d Hkv Hdef) as [t Htm]. by eapply ts_time_has.
    + intros b kv d s Hkv Hdef Hmap Hcnt. destruct (Htime kv d Hkv Hdef) as [t Htm]. rewrite (Put_dims_time _ _ _ _ _ _ Hmap Hcnt Htm).
      unfold def_time. rewrite Hdef. cbn [mbind option_bind]. by rewrite Htm.
    + unfold mem_simulates. rewrite Hrun, E. exists m', cs'. destruct a as [ms defs pend gc]. cbn [abs_mem_op at_content at_defs at_pending at_gc] in *.
      rewrite decide_False by done. rewrite Hkm. done.
  - apply refused; [done| |].
    + rewrite Hrun. unfold put_row. by rewrite Hik.
    + destruct a as [ms defs pend gc]. cbn in *. rewrite decide_False by done. by rewrite Hkm.
Qed.

Lemma sim_mput pk time value : mem_op_ok (at_defs a) (MPut pk time value) -> mem_simulates n offset (MPut pk time value) m a cs.
Proof using All.
  intros [Hk Hne]. assert (is_Some (at_defs a !! 0%nat)) as [d Hd] by (destruct (at_defs a); simpl; [done|eauto]).
  pose proof (tb_segs _ _ _ _ _ _ Ht) as Hs. destruct (segs_rep_at _ _ _ _ _ _ _ Hs Hd) as (ci0 & arr & _ & _ & Hseg & _).
  destruct (new_row n offset m a cs 1 value Ht ltac:(lia)) as (b & Enew & Hf & Hb & Hct). set (bs := <[b := MkDataBlock (Z.of_nat 1) value]> (mt_blocks m)) in *.
  destruct (put_one n offset (at_defs a) (set_mt_blocks bs m) cs 0 d pk time b (MkDataBlock 1 value) (at_content a) [] Hs Hn Hd Hk)
    as (s & s' & cs' & Hat & Hput & Hs' & Hct' & Hb' & _ & Hts & Hlen); [apply lookup_insert_eq|done|done|].
  unfold mem_simulates. cbn [run_mem_op]. unfold MemTable_Put. destruct (segments_ m) as [|x segs] eqn:Esegs; [done|]. unfold seg_idx_of. rewrite (tb_cnt _ _ _ _ _ _ Ht).
  change (seg_at m 0 (seg_of n pk)) with (seg_at (set_mt_blocks bs m) 0 (seg_of n pk)). rewrite Hat. cbn [mbind option_bind].
  unfold Segment.Put. rewrite decide_False by lia. change (new_block (mt_blocks m) 1 value) with (new_block (mt_blocks m) (Z.of_nat 1) value). rewrite Enew.
  fold bs. rewrite Hput. cbn [mbind option_bind]. exists (count_record (Z.of_nat (length value)) (set_segments (segments_ (set_seg (set_mt_blocks bs m) 0 (seg_of n pk) s')) (set_mt_blocks bs m))), cs'.
  assert (abs_mem_op n offset (MPut pk time value) a =
    (true, AbsTable (put_all (fun _ => time) value [(0, pk)] (at_content a)) (at_defs a) (at_pending a) (at_gc a))) as -> by (by destruct a).
  split; [reflexivity|]. split; [|lia]. by eapply row_counted.
Qed.

Lemma sim_mdelete pk idx : mem_op_ok (at_defs a) (MDelete pk idx) -> mem_simulates n offset (MDelete pk idx) m a cs.
Proof using All.
  intros Hi. pose proof (tb_index _ _ _ _ _ _ Ht) as Hx. pose proof (tb_segs _ _ _ _ _ _ Ht) as Hs. pose proof (tb_contents _ _ _ _ _ _ Ht) as Hct.
  destruct (at_defs a !! Z.to_nat idx) as [d|] eqn:Hd.
  - destruct (ix_lookup _ _ _ _ Hx Hd) as (p & Hp & Hdef). destruct (ix_ok _ _ Hx _ _ Hd) as (Hready & Hpos & _).
    destruct (seg_at_rep _ _ _ m _ _ _ pk Hs Hn Hd) as (ci & c & s & Hci & Hc & Hl & Hat & Hrep). destruct (cells_blocks_cell _ _ _ _ _ Hci Hc) as (rest & P1 & P2).
    destruct (contents_at _ _ _ _ _ _ Hct Hci) as (m0 & Hm0 & Hm0v).
    destruct (cell_delete _ _ _ _ _ _ pk (mt_blocks m) (rest ++ []) Hrep) as (s' & c' & Hdel & Hrep' & Hbl & Hv).
    { rewrite app_assoc, <- P1. apply (tb_blocks _ _ _ _ _ _ Ht). }
    unfold mem_simulates. cbn [run_mem_op]. unfold MemTable_Delete. rewrite (ix_GetIndex _ _ _ Hx), Hp. cbn [ready_index]. rewrite Hdef. cbn [mbind option_bind].
    unfold IsReady. rewrite bool_decide_true by done. rewrite Hpos, Nat2Z.id. unfold seg_idx_of. rewrite (tb_cnt _ _ _ _ _ _ Ht), Hat. cbn [mbind option_bind].
    rewrite Hdel. cbn [mbind option_bind]. exists (set_seg m (Z.to_nat idx) (seg_of n pk) s'), (<[Z.to_nat idx := <[seg_of n pk := c']> ci]> cs).
    destruct a as [ms defs pend gc] eqn:Ea. cbn [abs_mem_op at_content at_defs at_pending at_gc] in *. rewrite Hm0.
    assert (Hperm : cells_blocks (<[Z.to_nat idx := <[seg_of n pk := c']> ci]> cs) ≡ₚ cells_blocks cs) by (by rewrite P2, Hbl, P1).
    split; [do 3 f_equal; rewrite Hm0v; unfold index_view; by rewrite Hc|]. split; [|rewrite Hperm; lia].
    pose proof Ht as [T1 T2 T3 T4 T5 T6 T7 T8 T9 T10 T11]. split; cbn [snd at_content at_defs at_pending at_gc] in *; try done.
    + by eapply segs_rep_alter.
    + by rewrite Hperm.
    + apply contents_rep_set; [done|]. eapply index_view_cell; [done|done|exact Hm0v|exact Hc| |].
      * intros k Hk'. rewrite lookup_delete_ne; [done|]. by intros ->.
      * intros k Hk' Hmk. cbn [mt_blocks set_seg set_segments]. rewrite Hv. destruct (decide (k = pk)) as [->|Hk2]; [by rewrite !lookup_delete_eq|by rewrite !lookup_delete_ne].
  - apply refused; [done| |].
    + cbn. unfold MemTable_Delete. rewrite (ix_GetIndex _ _ _ Hx). rewrite (proj2 (lookup_ge_None (indexs_ (mt_index m)) (Z.to_nat idx))); [done|].
      rewrite (ix_length _ _ Hx). by apply lookup_ge_None.
    + destruct a as [ms defs pend gc]. cbn in *. destruct Hct as [Hl _]. destruct Hs as [Hl' _]. rewrite (proj2 (lookup_ge_None ms (Z.to_nat idx))); [done|].
      rewrite Hl, Hl'. by apply lookup_ge_None.
Qed.
End one_op.
End put.

(** * SampleTable: A small memory table for the examples: its description, the table [Init] makes
    of it and a sequence of calls. *)
(** ** A sample table: two indexes and one timestamp column *)

(** The default flags of flags.cc and the object sizes of a 64-bit build *)
Definition x64_layout : Layout := {|
  DATA_BLOCK_BYTE_SIZE := 16; KEY_ENTRY_BYTE_SIZE := 80; ENTRY_NODE_SIZE := 40; DATA_NODE_SIZE := 32; KEY_ENTRY_PTR_SIZE := 8;
  FLAGS_gc_safe_offset := 1; FLAGS_skiplist_max_height := 12; FLAGS_gc_deleted_pk_version_delta := 2
|}.
#[local] Existing Instance x64_layout.
Lemma x64_small : SmallLayout.
Proof. by split. Qed.
Definition default_flags : TableFlags := {|
  FLAGS_key_entry_max_height := 8; FLAGS_absolute_default_skiplist_height := 4; FLAGS_latest_default_skiplist_height := 1; FLAGS_max_traverse_cnt := 50000
|}.
#[local] Existing Instances x64_small default_flags.

Definition sample_meta : TableMeta :=
  let column (name type : string) := MkColumnMeta (str name) (str type) false false None None None None in
  let key (name : string) := MkColumnKey (str name) [str name] [str "ts1"] 0 None in
  MkTableMeta 0 kAbsoluteTime (Some (MkTTLDesc kLatestTime 0 1)) 2 None None []
    [column "card"%string "string"%string; column "mcc"%string "string"%string; column "ts1"%string "bigint"%string] [key "card"%string; key "mcc"%string] [] [].
Definition sample_table : MemTable := match MemTable_Init (MemTable_of sample_meta) with Some (_, m) => m | None => MemTable_of sample_meta end.

(** Two rows, a row for one index only, a collection, a deletion *)
Definition sample_mem_ops : list mem_op :=
  [MPutTs [(0, [1]); (1, [2])] [(0, 10)] [7]; MPutTs [(0, [1]); (1, [3])] [(0, 20)] [8]; MPutTs [(0, [4])] [(0, 5)] [9];
   MPutTs [(7, [4])] [(0, 5)] [9]; MSchedGc (fun _ _ => 0); MDelete [3] 1; MDelete [3] 1].

Lemma sample_init : plain_meta sample_meta = true /\ MemTable_Init (MemTable_of sample_meta) = Some (true, sample_table).
Proof. split; by vm_compute. Qed.
Lemma default_flags_ok : flags_ok.
Proof. by vm_compute. Qed.
Lemma sample_mem_ok : Forall (mem_op_ok (defs_of (mt_index sample_table))) sample_mem_ops /\ 200 * Z.of_nat (length sample_mem_ops) < 2 ^ 64.
Proof.
  split; [|done]. apply (bool_decide_unpack _). by vm_compute. Qed.
