(* ===== verification/MemTableSched.v ===== *)
(** The collection of a memory table ([SchedGc]) and pending TTL updates. *)
From S2P Require Import Prelude Slice Random Skiplist SkiplistInv SkiplistInsert SkiplistSplit SkiplistSpec SkiplistNodes Segment SegmentGc.
From S2P Require Import SegmentRelease SegmentInv SegmentGcInv SegmentOps SegmentRefine SegmentClaims StdMap Hash TableIndex TableParse Table.
From S2P Require Import MemTable MemTableGc MemTableInv TableParseThms MemTableOps MemTablePut.

(** ** TTL updates *)

(** What an update leaves alone *)
Definition same_def (d d' : IndexDef) : Prop :=
  status_ d' = status_ d /\ inner_pos_ d' = inner_pos_ d /\ ts_column_ d' = ts_column_ d /\ name_ d' = name_ d /\ index_id_ d' = index_id_ d.

Lemma index_rep_upd t defs f : index_rep t defs -> (forall d, same_def d (f d)) ->
  (forall i d, defs !! i = Some d -> exists ttl, ttl_st_ (f d) = Some ttl /\ ttl_ok ttl) ->
  exists t', upd_defs t (indexs_ t) f = Some t' /\ index_rep t' (f <$> defs) /\ indexs_ t' = indexs_ t.
Proof.
  intros Hx Hsame Hok. destruct (upd_defs_spec f (indexs_ t) t defs (ix_nodup _ _ Hx) (ix_defs _ _ Hx)) as (h & E & Hh & _).
  exists (set_ti_heap h t). split; [done|]. split; [|done]. destruct Hx as [X1 X2 X3 X4 X5 X6 X7]. split; try done.
  - apply Forall2_fmap_r. exact Hh.
  - intros idx Hi. rewrite length_fmap. by apply X5.
  - intros i d' (d & -> & Hd)%list_lookup_fmap_Some. destruct (X6 i d Hd) as (H1 & H2 & _ & H4 & H5). destruct (Hsame d) as (S1 & S2 & S3 & _ & S5).
    unfold def_ok. rewrite S1, S2, S3, S5. split_and!; try done. by eapply Hok.
  - by rewrite length_fmap.
Qed.

Lemma apply_ttls_spec us : forall t defs, index_rep t defs -> Forall (fun u => ttl_ok (um_ttl u)) us ->
  exists t', apply_ttls t (indexs_ t) us = Some t' /\ index_rep t' (apply_pending us <$> defs) /\ indexs_ t' = indexs_ t.
Proof.
  induction us as [|u us IH]; intros t defs Hx Hus.
  { exists t. split; [done|]. split; [|done]. by rewrite list_fmap_id. }
  apply Forall_cons in Hus as [Hu Hus]. cbn [apply_ttls].
  destruct (index_rep_upd t defs (fun d => if ttl_applies u d then TableIndex.SetTTL (um_ttl u) d else d) Hx) as (t1 & E1 & Hx1 & Hi1).
  { intros d. by destruct (ttl_applies u d). }
  { intros i d Hd. destruct (ttl_applies u d); [by exists (um_ttl u)|]. by destruct (ix_ok _ _ Hx i d Hd) as (_ & _ & ? & _). }
  rewrite E1. cbn [mbind option_bind]. rewrite <- Hi1. destruct (IH t1 _ Hx1 Hus) as (t2 & E2 & Hx2 & Hi2). exists t2. split; [done|].
  split; [|done]. by rewrite <- list_fmap_compose in Hx2.
Qed.

Lemma UpdateTTL_spec t defs : index_rep (table_index_ t) defs -> Forall (fun u => ttl_ok (um_ttl u)) (update_ttl_ t) ->
  exists t', UpdateTTL t = Some t' /\ index_rep (table_index_ t') (apply_pending (update_ttl_ t) <$> defs) /\ update_ttl_ t' = [].
Proof.
  intros Hx Hus. unfold UpdateTTL. destruct (update_ttl_ t) as [|u us] eqn:E.
  - exists t. split; [done|]. split; [by rewrite list_fmap_id|done].
  - unfold GetAllIndex. rewrite (ix_multi _ _ Hx). cbn [concat app].
    destruct (apply_ttls_spec (u :: us) _ _ Hx Hus) as (t' & -> & Hx' & _). cbn [mbind option_bind]. by eexists.
Qed.

Lemma pending_ts_column us : forall d, ts_column_ (apply_pending us d) = ts_column_ d.
Proof. unfold apply_pending. induction us as [|u us IH]; intros d; [done|]. cbn. rewrite IH. by destruct (ttl_applies u d). Qed.
Lemma def_map_pending us d : def_map (apply_pending us d) = def_map d.
Proof. unfold def_map. by rewrite pending_ts_column. Qed.

(** ** Collection *)
Section sched.
Context `{SmallLayout}.

Lemma segs_rep_pending n offset defs segs cs us : segs_rep n offset defs segs cs -> segs_rep n offset (apply_pending us <$> defs) segs cs.
Proof.
  intros (Hl & Hs & Htl). split; [by rewrite length_fmap|]. split; [|intros i x; rewrite length_fmap; apply Htl]. intros i d' ci (d & -> & Hd)%list_lookup_fmap_Some Hci. rewrite def_map_pending. by apply Hs.
Qed.

(** The rows of a cell that survive are the same rows. *)
Lemma view_step bs bs' st st' k c R : gc_step bs bs' st st' k -> blocks_rep bs' (cell_blocks c ++ R) -> view bs' (ce_live c) = view bs (ce_live c).
Proof.
  intros Hg Hb. apply view_same; [|apply Hg]. intros x r Hx Hr. eapply blocks_rep_lookup; [exact Hb|]. apply elem_of_app. left.
  unfold cell_blocks, seg_blocks. rewrite keyed_blocks_app. apply elem_of_app. left. apply list_elem_of_bind. exists x. split; [|done].
  cbn. unfold row_blocks. apply list_elem_of_fmap. eauto.
Qed.

Lemma gc_arr_spec n offset map clock k0 ttl : ttl_ok ttl -> forall arr ci j bs st R, arr_rep n offset map j arr ci ->
  blocks_rep bs ((ci ≫= cell_blocks) ++ R) -> stat_ok st -> Z.of_nat (length (ci ≫= cell_blocks)) < 2 ^ 64 ->
  exists arr' ci' bs' st' k, gc_arr arr j clock [(k0, ttl)] bs st = Some (arr', bs', st') /\ arr_rep n offset map j arr' ci' /\
    blocks_rep bs' ((ci' ≫= cell_blocks) ++ R) /\ gc_step bs bs' st st' k /\ (length (ci' ≫= cell_blocks) <= length (ci ≫= cell_blocks))%nat /\
    forall j' c', ci' !! j' = Some c' -> exists c, ci !! j' = Some c /\
      view bs' (ce_live c') = abs_gc (abs_keep offset (u64 (clock (j + j')%nat / 1000)) ttl) (view bs (ce_live c)).
Proof.
  intros Ht. induction arr as [|s arr IH]; intros [|c ci] j bs st R Hr Hb Hst Hlen; try done.
  { exists [], [], bs, st, 0%nat. split; [done|]. split; [done|]. split; [done|]. split; [by apply gc_step_refl|]. split; [done|]. intros j' c' Hj. done. }
  destruct Hr as [Hc Hr]. rewrite bind_cons in Hb, Hlen. rewrite length_app in Hlen. rewrite <- app_assoc in Hb.
  destruct (cell_gc n offset map j s c bs _ st (clock j) k0 ttl Hc Hb Hst Ht ltac:(lia)) as (s1 & c1 & bs1 & st1 & k1 & E1 & Hc1 & Hb1 & Hg1 & Hv1 & Hl1).
  rewrite (Permutation_app_comm (cell_blocks c1)), <- app_assoc in Hb1.
  destruct (IH ci (S j) bs1 st1 _ Hr Hb1 (gc_step_ok _ _ _ _ _ Hg1) ltac:(lia)) as (arr2 & ci2 & bs2 & st2 & k2 & E2 & Hr2 & Hb2 & Hg2 & Hl2 & Hv2).
  assert (Hb2' : blocks_rep bs2 (((c1 :: ci2) ≫= cell_blocks) ++ R)).
  { rewrite bind_cons, <- app_assoc, (Permutation_app_comm (cell_blocks c1)), <- app_assoc. exact Hb2. }
  exists (s1 :: arr2), (c1 :: ci2), bs2, st2, (k1 + k2)%nat. cbn [gc_arr]. rewrite E1. cbn [mbind option_bind]. rewrite E2. cbn [mbind option_bind].
  split; [done|]. split; [done|]. split; [done|]. split; [by eapply gc_step_trans|]. split; [rewrite !bind_cons, !length_app; lia|].
  intros [|j'] c' Hj.
  - injection Hj as <-. exists c. split; [done|]. rewrite Nat.add_0_r, <- Hv1. eapply view_step; [exact Hg2|].
    by rewrite bind_cons, <- app_assoc in Hb2'.
  - destruct (Hv2 j' c' Hj) as (c0 & Hc0 & Hv0). exists c0. split; [done|]. rewrite Nat.add_succ_r. rewrite Hv0. f_equal.
    destruct (bind_insert_perm cell_blocks ci j' c0 Hc0) as (rest & Hp & _). eapply view_step; [exact Hg1|].
    rewrite Hp, <- app_assoc in Hb1. exact Hb1.
Qed.

(** The inner indexes from [i] on *)
Definition inner_suffix (t : TableIndex) (defs : list IndexDef) (i : nat) (inner : list InnerIndexSt) : Prop :=
  forall k x, inner !! k = Some x -> exists p d, ii_index x = [p] /\ def_at t p = Some d /\ defs !! (i + k)%nat = Some d /\ def_ok (i + k) d.

Lemma inner_suffix_cons t defs i x inner : inner_suffix t defs i (x :: inner) ->
  (exists p d ttl, ii_index x = [p] /\ def_at t p = Some d /\ defs !! i = Some d /\ status_ d = kReady /\ ttl_st_ d = Some ttl /\ ttl_ok ttl) /\
  inner_suffix t defs (S i) inner.
Proof.
  intros Hi. split.
  - destruct (Hi 0%nat x eq_refl) as (p & d & H1 & H2 & H3 & Hok). rewrite Nat.add_0_r in H3. destruct Hok as (Hr & _ & (ttl & Htt & Hok) & _).
    by exists p, d, ttl.
  - intros k y Hk. specialize (Hi (S k) y Hk). by rewrite Nat.add_succ_r in Hi.
Qed.

Lemma sched_status_ready m i p d ttl st : def_at (mt_index m) p = Some d -> status_ d = kReady -> ttl_st_ d = Some ttl ->
  sched_status m i 1 [p] [] true 0 st = Some (m, [(ttl_key d, ttl)], true, 0%nat, st).
Proof. intros Hd Hr Ht. cbn [sched_status]. rewrite Hd. cbn [mbind option_bind]. rewrite Ht. cbn [mbind option_bind]. by rewrite Hr. Qed.

Lemma sched_loop_off m micros st defs : forall inner i, enable_gc_ m = false -> inner_suffix (mt_index m) defs i inner ->
  sched_loop m micros i inner st = Some (m, st).
Proof.
  induction inner as [|x inner IH]; intros i Hgc Hi; [done|]. apply inner_suffix_cons in Hi as [(p & d & ttl & Hx & Hd & _ & Hr & Ht & _) Hi].
  cbn [sched_loop]. rewrite Hx. cbn [length]. rewrite (sched_status_ready _ _ _ _ _ _ Hd Hr Ht). cbn [mbind option_bind]. rewrite Hgc. cbn. by apply IH.
Qed.

(** What one index keeps *)
Definition gc_index (n offset : Z) (micros : nat -> nat -> Z) (defs : list IndexDef) (i : nat) (m : content) : content :=
  match ttl_st_ <$> defs !! i with Some (Some ttl) => gc_content_at n offset (micros i) ttl m | _ => m end.

Lemma gc_index_view (n offset : Z) (micros : nat -> nat -> Z) (defs : list IndexDef) (i : nat) (d : IndexDef) (ttl : TTLSt) (bs bs' : blocks) (ci ci' : list cell) (m : content) : defs !! i = Some d -> ttl_st_ d = Some ttl ->
  (forall key, m !! key = index_view bs n ci key) -> length ci' = length ci ->
  (forall j c', ci' !! j = Some c' -> exists c, ci !! j = Some c /\
     view bs' (ce_live c') = abs_gc (abs_keep offset (u64 (micros i j / 1000)) ttl) (view bs (ce_live c))) ->
  forall key, gc_index n offset micros defs i m !! key = index_view bs' n ci' key.
Proof.
  intros Hd Htt Hm Hl Hv key. unfold gc_index, gc_content_at, index_view. rewrite Hd. cbn [fmap option_fmap option_map]. rewrite Htt.
  rewrite map_lookup_imap, Hm. unfold index_view. destruct (ci' !! seg_of n key) as [c'|] eqn:E.
  - destruct (Hv _ _ E) as (c & -> & Hvc). cbn [mbind option_bind]. rewrite Hvc. unfold abs_gc. rewrite lookup_omap. done.
  - apply lookup_ge_None in E. rewrite Hl in E. apply lookup_ge_None in E. by rewrite E.
Qed.

(** The contents from index [i] on after the collection *)
Definition gc_from (n offset : Z) (micros : nat -> nat -> Z) (defs : list IndexDef) (i : nat) (ms ms' : list content) : Prop :=
  forall k, ms' !! k = if decide (i <= k)%nat then gc_index n offset micros defs k <$> ms !! k else ms !! k.

Lemma contents_rep_replace (bs bs' : blocks) (n : Z) (cs : list (list cell)) (ms : list content) (i : nat) (ci' : list cell) (m' : content) : contents_rep bs n cs ms ->
  (forall k ci c, k <> i -> cs !! k = Some ci -> c ∈ ci -> view bs' (ce_live c) = view bs (ce_live c)) -> (forall key, m' !! key = index_view bs' n ci' key) ->
  contents_rep bs' n (<[i := ci']> cs) (<[i := m']> ms).
Proof.
  intros [Hl Hr] Hv Hm. split; [by rewrite !length_insert|]. intros k ci m Hc Hk key. destruct (decide (k = i)) as [->|Hne].
  - apply list_lookup_insert_Some in Hc as [(_ & <- & _)|[? _]]; [|done]. by apply list_lookup_insert_Some in Hk as [(_ & <- & _)|[? _]].
  - rewrite list_lookup_insert_ne in Hc by done. rewrite list_lookup_insert_ne in Hk by done. rewrite (Hr k ci m Hc Hk key). unfold index_view.
    destruct (ci !! seg_of n key) as [c|] eqn:E; [|done]. cbn. rewrite (Hv k ci c Hne Hc); [done|]. by eapply list_elem_of_lookup_2.
Qed.

Lemma gc_arr_length clock tm : forall arr j bs st arr' bs' st', gc_arr arr j clock tm bs st = Some (arr', bs', st') -> length arr' = length arr.
Proof.
  induction arr as [|s arr IH]; intros j bs st arr' bs' st'; cbn [gc_arr]; [by intros [= <- _ _]|].
  destruct (gc_segment s (clock j) tm bs st) as [[[s1 bs1] st1]|]; cbn [mbind option_bind]; [|done].
  destruct (gc_arr arr (S j) clock tm bs1 st1) as [[[arr2 bs2] st2]|] eqn:E; cbn [mbind option_bind]; [|done]. intros [= <- _ _]. cbn. f_equal. by eapply IH.
Qed.

(** The collection of one index *)
Lemma gc_one n offset defs micros i d ttl segs bs cs ms st : segs_rep n offset defs segs cs -> blocks_rep bs (cells_blocks cs ++ []) ->
  contents_rep bs n cs ms -> stat_ok st -> Z.of_nat (length (cells_blocks cs)) < 2 ^ 64 -> defs !! i = Some d -> ttl_st_ d = Some ttl -> ttl_ok ttl ->
  exists arr arr' ci' bs' st' k m0, segs !! i = Some (Some arr) /\ gc_arr arr 0 (micros i) [(ttl_key d, ttl)] bs st = Some (arr', bs', st') /\
    segs_rep n offset defs (<[i := Some arr']> segs) (<[i := ci']> cs) /\ blocks_rep bs' (cells_blocks (<[i := ci']> cs) ++ []) /\
    ms !! i = Some m0 /\ contents_rep bs' n (<[i := ci']> cs) (<[i := gc_index n offset micros defs i m0]> ms) /\
    gc_step bs bs' st st' k /\ (length (cells_blocks (<[i := ci']> cs)) <= length (cells_blocks cs))%nat.
Proof.
  intros Hs Hb Hct Hst Hbound Hd Htt Hok.
  destruct (segs_rep_at _ _ _ _ _ _ _ Hs Hd) as (ci & arr & Hci & Hln & Harr & Hrep). destruct (cells_blocks_alter _ _ _ Hci) as (rest & P1 & P2).
  destruct (gc_arr_spec n offset (def_map d) (micros i) (ttl_key d) ttl Hok arr ci 0 bs st (rest ++ []) Hrep)
    as (arr' & ci' & bs' & st' & k & E & Hrep' & Hb' & Hg & Hl & Hv).
  { by rewrite app_assoc, <- P1. }
  { done. }
  { rewrite P1, length_app in Hbound. lia. }
  destruct (contents_at _ _ _ _ _ _ Hct Hci) as (m0 & Hm0 & Hm0v).
  assert (Hcl : length ci' = length ci).
  { rewrite <- (arr_rep_length _ _ _ _ _ _ Hrep'), <- (arr_rep_length _ _ _ _ _ _ Hrep). by eapply gc_arr_length. }
  assert (Hb2 : blocks_rep bs' (cells_blocks (<[i := ci']> cs) ++ [])) by (by rewrite P2, <- app_assoc).
  exists arr, arr', ci', bs', st', k, m0. split; [done|]. split; [done|].
  split; [apply (segs_rep_set _ _ _ _ _ _ d); [done|done|by eapply lookup_lt_Some|by rewrite Hcl|done]|]. split; [done|]. split; [done|].
  split; [|split; [done|rewrite P2, P1, !length_app; lia]]. eapply contents_rep_replace; [exact Hct| |by eapply gc_index_view].
  intros i' ci0 c Hne Hci0 Hc. apply list_elem_of_lookup_1 in Hc as [j Hj]. rewrite <- (list_lookup_insert_ne cs i i' ci') in Hci0 by done.
  destruct (cells_blocks_cell _ _ _ _ _ Hci0 Hj) as (rest' & P3 & _). eapply view_step; [exact Hg|]. rewrite P3, <- app_assoc in Hb2. exact Hb2.
Qed.

Lemma gc_from_step n offset micros defs i ms m0 ms' : ms !! i = Some m0 -> gc_from n offset micros defs (S i) (<[i := gc_index n offset micros defs i m0]> ms) ms' ->
  gc_from n offset micros defs i ms ms'.
Proof.
  intros Hm Hf k. rewrite (Hf k). destruct (decide (k = i)) as [->|Hne].
  - rewrite decide_False by lia. rewrite decide_True by lia. rewrite list_lookup_insert_eq by (by eapply lookup_lt_Some). by rewrite Hm.
  - rewrite list_lookup_insert_ne by done. repeat case_decide; (done || lia).
Qed.

Lemma sched_loop_on n offset defs micros : forall inner i m cs ms st, enable_gc_ m = true -> inner_suffix (mt_index m) defs i inner ->
  length defs = (i + length inner)%nat -> segs_rep n offset defs (segments_ m) cs -> blocks_rep (mt_blocks m) (cells_blocks cs ++ []) ->
  contents_rep (mt_blocks m) n cs ms -> stat_ok st -> Z.of_nat (length (cells_blocks cs)) < 2 ^ 64 ->
  exists segs' bs' st' cs' ms' k, sched_loop m micros i inner st = Some (set_mt_blocks bs' (set_segments segs' m), st') /\
    segs_rep n offset defs segs' cs' /\ blocks_rep bs' (cells_blocks cs' ++ []) /\ contents_rep bs' n cs' ms' /\
    gc_step (mt_blocks m) bs' st st' k /\ gc_from n offset micros defs i ms ms' /\ (length (cells_blocks cs') <= length (cells_blocks cs))%nat.
Proof.
  induction inner as [|x inner IH]; intros i m cs ms st Hgc Hi Hlen Hs Hb Hct Hst Hbound.
  { exists (segments_ m), (mt_blocks m), st, cs, ms, 0%nat. split; [by destruct m|]. split; [done|]. split; [done|]. split; [done|].
    split; [by apply gc_step_refl|]. split; [|done]. intros k. case_decide as Hk; [|done]. simpl in Hlen.
    rewrite (proj2 (lookup_ge_None ms k)); [done|]. destruct Hct as [Hl _], Hs as [Hl' _]. lia. }
  apply inner_suffix_cons in Hi as [(p & d & ttl & Hx & Hd & Hdef & Hr & Htt & Hok) Hi].
  destruct (gc_one n offset defs micros i d ttl _ _ _ _ _ Hs Hb Hct Hst Hbound Hdef Htt Hok)
    as (arr & arr' & ci' & bs1 & st1 & k1 & m0 & Harr & E1 & Hs1 & Hb1 & Hm0 & Hct1 & Hg1 & Hl1).
  destruct (IH (S i) (set_mt_blocks bs1 (set_segments (<[i := Some arr']> (segments_ m)) m)) (<[i := ci']> cs) (<[i := gc_index n offset micros defs i m0]> ms) st1 Hgc Hi)
    as (segs' & bs' & st' & cs' & ms' & k & E & Q1 & Q2 & Q3 & Q4 & Q5 & Q6); [simpl in Hlen; lia|exact Hs1|exact Hb1|exact Hct1|by eapply gc_step_ok|lia|].
  exists segs', bs', st', cs', ms', (k1 + k)%nat. split; [|split; [done|split; [done|split; [done|split; [by eapply gc_step_trans|split; [by eapply gc_from_step|lia]]]]]].
  cbn [sched_loop]. rewrite Hx. cbn [length]. rewrite (sched_status_ready _ _ _ _ _ _ Hd Hr Htt). cbn [mbind option_bind]. rewrite Hgc. cbn [negb orb].
  rewrite decide_False by (intros [?|?]; done). rewrite Harr. cbn [mjoin option_join mbind option_bind]. rewrite E1. exact E.
Qed.

Lemma inner_all t defs : index_rep t defs -> inner_suffix t defs 0 (inner_indexs_ t) /\ length defs = length (inner_indexs_ t).
Proof.
  intros Hx. assert (Hl : length defs = length (inner_indexs_ t)).
  { rewrite <- (ix_length _ _ Hx). pose proof (f_equal length (ix_inner _ _ Hx)) as E. by rewrite !length_fmap in E. }
  split; [|done]. intros k x Hk. destruct (lookup_lt_is_Some_2 defs k) as [d Hd]; [rewrite Hl; by eapply lookup_lt_Some|].
  destruct (ix_inner_at _ _ _ _ Hx Hd) as (x' & p & Hk' & Hp & Hdef). rewrite Hk in Hk'. injection Hk' as <-. exists p, d. split_and!; try done.
  by apply (ix_ok _ _ Hx).
Qed.

Lemma gc_from_all n offset micros defs ms ms' : gc_from n offset micros defs 0 ms ms' -> ms' = gc_contents n offset micros defs ms.
Proof.
  intros Hf. apply list_eq. intros k. rewrite (Hf k), decide_True by lia. unfold gc_contents. rewrite list_lookup_imap. by destruct (ms !! k).
Qed.

(** What the counters lose is what the collection freed. *)
Lemma gc_counters bs bs' st k : gc_step bs bs' (MkGcStat 0 0 0) st k ->
  u64 (u64 (Z.of_nat (size bs)) - gc_record_cnt st) = u64 (Z.of_nat (size bs')) /\
  u64 (u64 (blocks_bytes bs) - gc_record_byte_size st) = u64 (blocks_bytes bs').
Proof.
  intros Hg. rewrite (gs_cnt _ _ _ _ _ Hg), (gs_bytes _ _ _ _ _ Hg). cbn [gc_record_cnt gc_record_byte_size]. rewrite !Z.add_0_l.
  rewrite !uwrap_sub_l, !uwrap_sub_r. split; f_equal; lia.
Qed.

(** The table after the loop, before the TTL updates *)
Lemma sched_loop_rep n offset m a cs micros : tab_rep n offset m a cs [] -> Z.of_nat (length (cells_blocks cs)) < 2 ^ 64 ->
  exists segs' bs' st' cs' k, sched_loop m micros 0 (inner_indexs_ (mt_index m)) (MkGcStat 0 0 0) = Some (set_mt_blocks bs' (set_segments segs' m), st') /\
    segs_rep n offset (at_defs a) segs' cs' /\ blocks_rep bs' (cells_blocks cs' ++ []) /\
    contents_rep bs' n cs' (if at_gc a then gc_contents n offset micros (at_defs a) (at_content a) else at_content a) /\
    gc_step (mt_blocks m) bs' (MkGcStat 0 0 0) st' k /\ (length (cells_blocks cs') <= length (cells_blocks cs))%nat.
Proof.
  intros Ht Hbound. destruct (inner_all _ _ (tb_index _ _ _ _ _ _ Ht)) as [Hi Hlen]. assert (Hz : stat_ok (MkGcStat 0 0 0)) by done.
  pose proof Ht as [_ _ _ Hgc _ Hs Hb Hct _ _ _]. destruct (at_gc a).
  - destruct (sched_loop_on n offset (at_defs a) micros _ 0 m cs _ _ Hgc Hi Hlen Hs Hb Hct Hz Hbound) as (segs' & bs' & st' & cs' & ms' & k & E & Q1 & Q2 & Q3 & Q4 & Q5 & Q6).
    apply gc_from_all in Q5 as ->. by exists segs', bs', st', cs', k.
  - exists (segments_ m), (mt_blocks m), (MkGcStat 0 0 0), cs, 0%nat. split; [|split_and!; try done; by apply gc_step_refl].
    rewrite (sched_loop_off m micros _ (at_defs a)) by done. by destruct m.
Qed.

Lemma sim_msched n offset m a cs micros : tab_rep n offset m a cs [] -> Z.of_nat (length (cells_blocks cs)) < 2 ^ 64 ->
  mem_simulates n offset (MSchedGc micros) m a cs.
Proof.
  intros Ht Hbound. destruct (sched_loop_rep n offset m a cs micros Ht Hbound) as (segs' & bs' & st' & cs' & k & E & Hs & Hb & Hct & Hg & Hl).
  destruct (gc_counters _ _ _ _ Hg) as [Hcnt Hbytes]. destruct Ht as [T1 T2 T3 T4 T5 T6 T7 T8 T9 T10 T11].
  unfold mem_simulates. cbn [run_mem_op]. unfold SchedGc. rewrite E. cbn [mbind option_bind]. rewrite <- T2 in T3.
  destruct (UpdateTTL_spec _ _ T1 T3) as (t & Et & Hx & Hu). cbn [mt_table set_records set_mt_blocks set_segments]. rewrite Et. cbn [mbind option_bind].
  destruct a as [ms defs pend gc]. cbn [abs_mem_op at_content at_defs at_pending at_gc fst snd] in *. rewrite T2 in Hx.
  eexists _, cs'. split; [reflexivity|]. split; [|lia]. split; cbn; try done.
  - by apply segs_rep_pending.
  - rewrite T9. exact Hcnt.
  - rewrite T10. exact Hbytes.
Qed.

Lemma sim_msetttl n offset m a cs u : tab_rep n offset m a cs [] -> ttl_ok (um_ttl u) -> mem_simulates n offset (MSetTTL u) m a cs.
Proof.
  intros [T1 T2 T3 T4 T5 T6 T7 T8 T9 T10 T11] Hu. eexists _, cs. split; [by destruct a|]. split; [|lia]. destruct a as [ms defs pend gc].
  split; cbn in *; try done; [by rewrite T2|]. apply Forall_app. split; [done|]. by constructor.
Qed.

Lemma sim_msetexpire n offset m a cs b : tab_rep n offset m a cs [] -> mem_simulates n offset (MSetExpire b) m a cs.
Proof. intros [T1 T2 T3 T4 T5 T6 T7 T8 T9 T10 T11]. eexists _, cs. split; [by destruct a|]. split; [|lia]. destruct a as [ms defs pend gc]. by split. Qed.

(** ** Sequences of operations *)
Lemma sim_mem_op n offset o m a cs : tab_rep n offset m a cs [] -> 1 <= n -> mem_op_ok (at_defs a) o -> Z.of_nat (length (cells_blocks cs)) < 2 ^ 64 ->
  mem_simulates n offset o m a cs.
Proof.
  intros Ht Hn Hok Hb. destruct o.
  - by apply sim_mput.
  - by apply sim_mput_dims.
  - by apply sim_mput_ts.
  - by apply sim_mdelete.
  - by apply sim_msched.
  - by apply sim_msetttl.
  - by apply sim_msetexpire.
Qed.

(** Pending TTLs do not change what an operation needs. *)
Lemma mem_op_ok_pending us defs o : mem_op_ok (apply_pending us <$> defs) o <-> mem_op_ok defs o.
Proof.
  assert (Hts : forall d ts, ts_time (apply_pending us d) ts = ts_time d ts) by (intros d ts; unfold ts_time; by rewrite pending_ts_column).
  destruct o; cbn [mem_op_ok]; try done.
  - apply and_iff_compat_l. destruct defs; split; done.
  - apply and_iff_compat_l, and_iff_compat_l. apply Forall_iff. intros kv. rewrite list_lookup_fmap. destruct (defs !! Z.to_nat kv.1); cbn; [by rewrite Hts|done].
Qed.

Lemma abs_op_ok n offset o a o' : mem_op_ok (at_defs a) o' -> mem_op_ok (at_defs (abs_mem_op n offset o a).2) o'.
Proof.
  destruct a as [ms defs pend gc]. destruct o; cbn [abs_mem_op]; repeat case_match; cbn [at_defs snd]; try done.
  all: by rewrite mem_op_ok_pending.
Qed.

Lemma sim_mem_ops n offset : 1 <= n -> forall os m a cs, tab_rep n offset m a cs [] -> Forall (mem_op_ok (at_defs a)) os ->
  Z.of_nat (length (cells_blocks cs)) + 200 * Z.of_nat (length os) < 2 ^ 64 ->
  exists m' cs', run_mem_ops os m = Some ((abs_mem_ops n offset os a).1, m') /\ tab_rep n offset m' (abs_mem_ops n offset os a).2 cs' [] /\
    (length (cells_blocks cs') <= 200 * length os + length (cells_blocks cs))%nat.
Proof.
  intros Hn. induction os as [|o os IH]; intros m a cs Ht Hok Hb; [by exists m, cs|]. apply Forall_cons in Hok as [Ho Hok]. cbn [length] in Hb.
  destruct (sim_mem_op n offset o m a cs Ht Hn Ho ltac:(lia)) as (m1 & cs1 & E1 & Ht1 & Hl1).
  destruct (IH m1 (abs_mem_op n offset o a).2 cs1 Ht1) as (m2 & cs2 & E2 & Ht2 & Hl2).
  { eapply Forall_impl; [exact Hok|]. intros o'. apply abs_op_ok. }
  { lia. }
  exists m2, cs2. cbn [run_mem_ops abs_mem_ops]. rewrite E1. cbn [mbind option_bind]. rewrite E2. cbn [mbind option_bind].
  destruct (abs_mem_op n offset o a) as [out a1]. cbn [fst snd] in *. destruct (abs_mem_ops n offset os a1). split; [done|]. split; [done|]. cbn [length]. lia.
Qed.

Lemma abs_op_defs n offset o a : length (at_defs (abs_mem_op n offset o a).2) = length (at_defs a).
Proof. destruct a as [ms defs pend gc]. destruct o; cbn [abs_mem_op]; repeat case_match; cbn [at_defs snd]; by rewrite ?length_fmap. Qed.

Lemma abs_ops_defs n offset os : forall a, length (at_defs (abs_mem_ops n offset os a).2) = length (at_defs a).
Proof.
  induction os as [|o os IH]; intros a; [done|]. cbn [abs_mem_ops]. pose proof (abs_op_defs n offset o a) as Ho.
  destruct (abs_mem_op n offset o a) as [out a1]. specialize (IH a1). destruct (abs_mem_ops n offset os a1). cbn in *. congruence.
Qed.
End sched.
