(* ===== verification/MemTableVisible.v ===== *)
(** Which rows of a key an iterator shows: the test [IsExpired] row by row
    agrees with the rules of the collection, and rows a collection removes were
    not shown before. *)
From S2P Require Import Prelude Slice Random Skiplist SkiplistInv SkiplistInsert SkiplistSplit SkiplistSpec SkiplistNodes Segment SegmentGc.
From S2P Require Import SegmentRelease SegmentInv SegmentGcInv SegmentOps SegmentRefine SegmentClaims StdMap Hash TableIndex TableParse Table.
From S2P Require Import MemTable MemTableGc MemTableInv TableParseThms MemTableOps MemTablePut MemTableSched.

(** * MemTableRead: Reading a memory table: an iterator on a key of an index walks the rows the
    abstract table has for it, and leaves the table as it was. *)
Section read.
Context `{SmallLayout} `{TableFlags}.

(** A reader: open an iterator, walk it from the first row or from [time], and
    release the ticket.  No rows at all when there is no iterator. *)
Definition table_scan (m : MemTable) (idx : Z) (key : bytes) (time : option Z) : option (option (list rowv) * MemTable) :=
  '(it, m, ticket) ← MemTable_NewIterator m idx key [];
  match it with
  | None => Some (None, m)
  | Some (i, j, it) =>
      s ← seg_at m i j;
      it ← match time with Some t => mt_Seek s it t | None => mt_SeekToFirst s it end;
      rows ← mt_collect (mt_fuel s it) s (mt_blocks m) it;
      m ← TableTicket_destroy m ticket;
      Some (Some rows, m)
  end.

Definition from_time (time : option Z) (rows : list rowv) : list rowv :=
  match time with Some t => filter (fun r => r.1 <= t) rows | None => rows end.

(** ** Segments in place *)
Lemma seg_at_set m i j s s' : seg_at m i j = Some s -> seg_at (set_seg m i j s') i j = Some s'.
Proof.
  unfold seg_at, set_seg. cbn [segments_ set_segments]. rewrite list_lookup_alter_eq. destruct (segments_ m !! i) as [[arr|]|]; cbn; try done.
  intros Hs. by rewrite list_lookup_alter_eq, Hs.
Qed.

Lemma set_seg_twice m i j s1 s : seg_at m i j = Some s -> set_seg (set_seg m i j s1) i j s = m.
Proof.
  intros Hs. unfold set_seg, set_segments. cbn. destruct m as [t n segs bs gc rc sr rb kh]. cbn in *. f_equal. unfold seg_at in Hs. cbn in Hs.
  apply list_eq. intros i'. destruct (decide (i' = i)) as [->|Hne]; [|by rewrite !list_lookup_alter_ne]. rewrite !list_lookup_alter_eq.
  destruct (segs !! i) as [[arr|]|]; cbn in *; try done. do 2 f_equal. apply list_eq. intros j'.
  destruct (decide (j' = j)) as [->|Hne]; [|by rewrite !list_lookup_alter_ne]. by rewrite !list_lookup_alter_eq, Hs.
Qed.

Lemma set_seg_set_seg m i j s1 s2 : set_seg (set_seg m i j s1) i j s2 = set_seg m i j s2.
Proof.
  unfold set_seg, set_segments. cbn. f_equal. apply list_eq. intros i'. destruct (decide (i' = i)) as [->|Hne]; [|by rewrite !list_lookup_alter_ne].
  rewrite !list_lookup_alter_eq. destruct (segments_ m !! i) as [[arr|]|]; cbn; try done. do 2 f_equal. apply list_eq. intros j'.
  destruct (decide (j' = j)) as [->|Hne]; [|by rewrite !list_lookup_alter_ne]. rewrite !list_lookup_alter_eq. by destruct (arr !! j).
Qed.

(** Releasing entries of one segment *)
Lemma TableTicket_seg m i j ticket : forall s s', seg_at m i j = Some s -> Ticket_destroy s ticket = Some s' ->
  TableTicket_destroy m ((fun p => (i, j, p)) <$> ticket) = Some (set_seg m i j s').
Proof.
  induction ticket as [|p ticket IH]; intros s s' Hs; cbn [Ticket_destroy].
  - intros [= <-]. cbn. f_equal. rewrite <- (set_seg_twice m i j s s Hs) at 1. by rewrite set_seg_set_seg.
  - destruct (Ticket_destroy s ticket) as [s1|] eqn:E1; cbn [mbind option_bind]; [|done]. destruct (deref s1 p) as [e|] eqn:Ee; cbn [mbind option_bind]; [|done].
    intros [= <-]. rewrite fmap_cons. cbn [TableTicket_destroy]. rewrite (IH _ _ Hs E1). cbn [mbind option_bind]. rewrite (seg_at_set _ _ _ _ _ Hs).
    cbn [mbind option_bind Ticket_destroy]. rewrite Ee. cbn [mbind option_bind]. by rewrite set_seg_set_seg.
Qed.

(** A scan of the segment is a scan of the table. *)
Lemma scan_in_place m i j s key time rows open : seg_at m i j = Some s -> (forall s, seg_at m i j = Some s -> open s = NewIterator s key []) ->
  scan_from s (mt_blocks m) key time = Some (rows, s) ->
  exists it m1 ticket, seg_iterator m i j [] open = Some (Some it, m1, ticket) /\ it.1 = (i, j) /\
    (s1 ← seg_at m1 i j; it ← match time with Some t => mt_Seek s1 it.2 t | None => mt_SeekToFirst s1 it.2 end;
     rows ← mt_collect (mt_fuel s1 it) s1 (mt_blocks m1) it; m2 ← TableTicket_destroy m1 ticket; Some (Some rows, m2)) = Some (Some rows, m).
Proof.
  intros Hs Hopen Hscan. unfold scan_from in Hscan. unfold seg_iterator. rewrite Hs. cbn [mbind option_bind]. rewrite (Hopen s Hs).
  destruct (NewIterator s key []) as [[[it s1] ticket]|]; cbn [mbind option_bind] in *; [|done]. eexists (i, j, it), _, _. split; [reflexivity|]. split; [done|].
  cbn [snd]. rewrite (seg_at_set _ _ _ _ _ Hs). cbn [mbind option_bind]. destruct (match time with Some t => mt_Seek s1 it t | None => mt_SeekToFirst s1 it end) as [it2|];
    cbn [mbind option_bind] in *; [|done]. cbn [mt_blocks set_seg set_segments]. destruct (mt_collect _ s1 (mt_blocks m) it2) as [l|]; cbn [mbind option_bind] in *; [|done].
  destruct (Ticket_destroy s1 ticket) as [s2|] eqn:Ed; cbn [mbind option_bind] in Hscan; [|done]. injection Hscan as -> ->. rewrite app_nil_r.
  rewrite (TableTicket_seg _ _ _ _ _ _ (seg_at_set _ _ _ _ s1 Hs) Ed). cbn [mbind option_bind]. by rewrite (set_seg_twice _ _ _ _ _ Hs).
Qed.

(** A reader of the oldest row of a key *)
Definition last_key (s : Segment) (key : bytes) : option (option Z * Segment) :=
  '(it, s, ticket) ← NewIterator s key [];
  it ← mt_SeekToLast s it;
  k ← (if mt_Valid it then k ← mt_GetKey s it; Some (Some k) else Some None);
  s ← Ticket_destroy s ticket;
  Some (k, s).
Lemma seg_last s bs live dead R key : seg_inv s bs live dead R -> Forall (fun x => ks_refs x.2 = 0) live ->
  last_key s key = Some (fst <$> last (default [] (view bs live !! key)), s).
Proof.
  intros Hi Hr. unfold last_key. destruct (decide (key ∈ live.*1)) as [(la & x & lb & -> & <-)%live_split|Hk].
  - pose proof (sc_distinct _ _ _ (sv_core _ _ _ _ _ Hi)) as Hnd. rewrite view_lookup; [cbn [default from_option id]|rewrite fmap_app, fmap_cons in Hnd;
      apply NoDup_app in Hnd as (_ & Hd & _); intros Hin; apply (Hd x.1 Hin); left].
    destruct (NewIterator_present s bs la x lb dead R [] Hi) as (s1 & -> & Hi1 & _ & e & He & ->). rewrite bind_some.
    destruct (core_entry _ _ _ _ _ (sv_core _ _ _ _ _ Hi)) as (e' & He' & Hrep). rewrite He in He'. injection He' as <-. destruct (er_list _ _ Hrep) as [c Hn].
    pose proof (sv_nonempty _ _ _ _ _ Hi) as Hne. rewrite Forall_app, Forall_cons in Hne, Hr. destruct Hne as (_ & Hne & _), Hr as (_ & Hr & _).
    destruct (it_SeekToLast_rep (entries e) _ (nrep_rep _ _ _ Hn)) as (p & Hp & Hl & [[[k v] h] Hinfo]); [intros Hnil; by do 2 apply fmap_nil_inv in Hnil|].
    unfold mt_SeekToLast, mt_list. rewrite deref_set_entry, !bind_some. change (entries (Ref e)) with (entries e). rewrite Hp. change (mt_Valid _) with true. cbv iota.
    unfold mt_GetKey, mt_list. rewrite !bind_some, deref_set_entry, !bind_some. change (entries (Ref e)) with (entries e). unfold it_GetKey. rewrite bind_some. rewrite GetKey_info, Hinfo. cbn [fmap option_fmap option_map]. rewrite !bind_some.
    cbn [Ticket_destroy]. rewrite bind_some, deref_set_entry, !bind_some. rewrite set_entry_twice, UnRef_Ref by (rewrite (er_refs _ _ Hrep), Hr; by unfold in_uint). rewrite set_entry_id by done. do 2 f_equal.
    rewrite !fmap_last in *.
    change (ks_rows x.2) with (rows_of x) in Hl. destruct (last (rows_of x)) as [r|]; [|done]. cbn in Hl |- *. injection Hl as Hl _. rewrite Hl. unfold keyof. by rewrite GetKey_info, Hinfo.
  - rewrite (NewIterator_absent _ _ _ _ _ _ _ Hi Hk), view_absent by done. done.
Qed.

(** ** Reading an index *)
Section index.
Context n offset m a cs (Ht : tab_rep n offset m a cs []) (Hn : 1 <= n).

(** The segment of a key *)
Lemma index_at i key : (i < length (at_defs a))%nat -> exists d p c s R, indexs_ (mt_index m) !! i = Some p /\ def_at (mt_index m) p = Some d /\ def_ok i d /\
  seg_at m i (seg_of n key) = Some s /\ cell_rep n offset (def_map d) (seg_of n key) s c /\ seg_inv s (mt_blocks m) (ce_live c) (ce_dead c) R /\
  (content ← at_content a !! i; content !! key) = view (mt_blocks m) (ce_live c) !! key /\ (length (cell_blocks c) <= length (cells_blocks cs))%nat.
Proof using All.
  intros [d Hd]%lookup_lt_is_Some. pose proof (tb_index _ _ _ _ _ _ Ht) as Hx. destruct (ix_lookup _ _ _ _ Hx Hd) as (p & Hp & Hdef).
  destruct (seg_at_rep _ _ _ m _ _ _ key (tb_segs _ _ _ _ _ _ Ht) Hn Hd) as (ci & c & s & Hci & Hc & Hl & Hat & Hrep).
  destruct (contents_at _ _ _ _ _ _ (tb_contents _ _ _ _ _ _ Ht) Hci) as (m0 & Hm0 & Hm0v). destruct (cells_blocks_cell _ _ _ _ _ Hci Hc) as (rest & P1 & _).
  pose proof (tb_blocks _ _ _ _ _ _ Ht) as Hb. rewrite P1, <- app_assoc in Hb. exists d, p, c, s, (rest ++ []). split_and!; try done.
  - by apply (ix_ok _ _ Hx).
  - by eapply cell_inv.
  - rewrite Hm0. cbn. rewrite Hm0v. unfold index_view. by rewrite Hc.
  - rewrite P1, length_app. lia.
Qed.

Lemma index_scan i key time : (i < length (at_defs a))%nat ->
  table_scan m (Z.of_nat i) key time = Some (Some (from_time time (default [] (content ← at_content a !! i; content !! key))), m).
Proof using All.
  intros (d & p & c & s & R & Hp & Hdef & (Hready & Hpos & _ & Hts) & Hat & Hrep & Hi & Hrow & _)%(fun H => index_at i key H). pose proof (tb_index _ _ _ _ _ _ Ht) as Hx.
  pose proof (seg_scan _ _ _ _ _ key time Hi (cr_readers _ _ _ _ _ _ Hrep)) as Hscan.
  fold (from_time time (default [] (view (mt_blocks m) (ce_live c) !! key))) in Hscan. rewrite Hrow.
  assert (Hri : ready_index m (Some p) = Some (Some d)) by (cbn; rewrite Hdef; cbn; unfold IsReady; by rewrite bool_decide_true).
  unfold table_scan, MemTable_NewIterator. rewrite (ix_GetIndex _ _ _ Hx), Nat2Z.id, Hp, Hri. cbn [mbind option_bind].
  assert (Hgo : forall open, (forall s, seg_at m i (seg_of n key) = Some s -> open s = NewIterator s key []) ->
    ('(it, m1, ticket) ← seg_iterator m (Z.to_nat (inner_pos_ d)) (seg_idx_of m key) [] open;
     match it with None => Some (None, m1) | Some (i, j, it) =>
      s ← seg_at m1 i j; it ← match time with Some t => mt_Seek s it t | None => mt_SeekToFirst s it end;
      rows ← mt_collect (mt_fuel s it) s (mt_blocks m1) it; m ← TableTicket_destroy m1 ticket; Some (Some rows, m) end) =
    Some (Some (from_time time (default [] (view (mt_blocks m) (ce_live c) !! key))), m)).
  { intros open Hopen. rewrite Hpos, Nat2Z.id. unfold seg_idx_of. rewrite (tb_cnt _ _ _ _ _ _ Ht).
    destruct (scan_in_place _ _ _ _ _ _ _ _ Hat Hopen Hscan) as ([[i' j'] it] & m1 & ticket & -> & [= -> ->] & Hrun). exact Hrun. }
  destruct (ts_column_ d) as [col|] eqn:Ecol; [|by apply Hgo].
  unfold MemTable_NewIterator_ts, GetIndex_ts. rewrite (ix_multi _ _ Hx), Nat2Z.id, Hp. cbn [find_def]. rewrite Hdef. cbn [mbind option_bind]. unfold ts_is. rewrite Ecol.
  rewrite (swrap_id 32) by (unfold in_sint; lia). rewrite bool_decide_true by done. cbn [mbind option_bind]. rewrite Hri. cbn [mbind option_bind].
  apply Hgo. intros s' Hs'. rewrite Hat in Hs'. injection Hs' as <-. unfold NewIterator_idx. rewrite (cr_map _ _ _ _ _ _ Hrep). unfold def_map. rewrite Ecol.
  rewrite uwrap_id by (unfold in_uint; lia). rewrite lookup_singleton_eq. by rewrite (sc_ts _ _ _ (cr_core _ _ _ _ _ _ Hrep)).
Qed.

(** Whether [ts] lies behind the oldest row of a key *)
Definition behind (ts : Z) (rows : list rowv) : bool := match last rows with Some r => negb (bool_decide (r.1 <= ts)) | None => true end.
Lemma check_in_place i j s key ts rows open : seg_at m i j = Some s -> open s = NewIterator s key [] -> last_key s key = Some (fst <$> last rows, s) ->
  ('(it, m, ticket) ← seg_iterator m i j [] open; '(i, j, it) ← it; s ← seg_at m i j; it ← mt_SeekToLast s it;
   expired ← (if mt_Valid it then k ← mt_GetKey s it; Some (negb (bool_decide (k <= ts))) else Some true); m ← TableTicket_destroy m ticket; Some (expired, m)) = Some (behind ts rows, m).
Proof using.
  intros Hs Hopen Hlast. unfold last_key in Hlast. unfold seg_iterator. rewrite Hs, bind_some, Hopen. destruct (NewIterator s key []) as [[[it s1] ticket]|]; cbn [mbind option_bind] in *; [|done].
  rewrite (seg_at_set _ _ _ _ _ Hs). cbn [mbind option_bind]. destruct (mt_SeekToLast s1 it) as [it2|]; cbn [mbind option_bind] in *; [|done]. rewrite app_nil_r. unfold behind.
  destruct (mt_Valid it2); [destruct (mt_GetKey s1 it2) as [k|]|]; cbn [mbind option_bind] in *; try done; destruct (Ticket_destroy s1 ticket) as [s2|] eqn:Ed; cbn [mbind option_bind] in Hlast; try done;
    injection Hlast as Hl ->; rewrite (TableTicket_seg _ _ _ _ _ _ (seg_at_set _ _ _ _ s1 Hs) Ed), (set_seg_twice _ _ _ _ _ Hs); cbn [mbind option_bind]; destruct (last rows) as [r|]; try done. by injection Hl as ->.
Qed.
Lemma index_check i key ts : (i < length (at_defs a))%nat -> forall d, at_defs a !! i = Some d ->
  CheckLatest m (index_id_ d) (match ts_column_ d with Some c => cd_ts_idx c | None => -1 end) key ts = Some (behind ts (default [] (content ← at_content a !! i; content !! key)), m).
Proof using All.
  intros Hlt d0 Hd0. destruct (index_at i key Hlt) as (d & p & c & s & R & Hp & Hdef & (Hready & Hpos & _ & Hts & Hid) & Hat & Hrep & Hi & Hrow & _). pose proof (tb_index _ _ _ _ _ _ Ht) as Hx.
  assert (d0 = d) as -> by (destruct (ix_lookup _ _ _ _ Hx Hd0) as (p' & Hp' & Hd'); congruence).
  pose proof (seg_last _ _ _ _ _ key Hi (cr_readers _ _ _ _ _ _ Hrep)) as Hlast. rewrite <- Hrow in Hlast.
  assert (Hri : ready_index m (Some p) = Some (Some d)) by (cbn; rewrite Hdef; cbn; unfold IsReady; by rewrite bool_decide_true).
  unfold CheckLatest. rewrite Hid. destruct (ts_column_ d) as [col|] eqn:Ecol.
  - rewrite decide_True by lia. unfold MemTable_NewIterator_ts, GetIndex_ts. rewrite (ix_multi _ _ Hx), Nat2Z.id, Hp. cbn [find_def]. rewrite Hdef. cbn [mbind option_bind]. unfold ts_is. rewrite Ecol.
    rewrite (swrap_id 32) by (unfold in_sint; lia). rewrite bool_decide_true by done. cbn [mbind option_bind]. rewrite Hri. cbn [mbind option_bind]. rewrite Hpos, Nat2Z.id. unfold seg_idx_of. rewrite (tb_cnt _ _ _ _ _ _ Ht).
    eapply check_in_place; [exact Hat| |exact Hlast]. unfold NewIterator_idx. rewrite (cr_map _ _ _ _ _ _ Hrep). unfold def_map. rewrite Ecol.
    rewrite uwrap_id by (unfold in_uint; lia). rewrite lookup_singleton_eq. by rewrite (sc_ts _ _ _ (cr_core _ _ _ _ _ _ Hrep)).
  - rewrite decide_False by lia. unfold MemTable_NewIterator. rewrite (ix_GetIndex _ _ _ Hx), Nat2Z.id, Hp, Hri. cbn [mbind option_bind]. rewrite Ecol, Hpos, Nat2Z.id. unfold seg_idx_of. rewrite (tb_cnt _ _ _ _ _ _ Ht).
    eapply check_in_place; [exact Hat|done|exact Hlast].
Qed.

(** No index, no iterator *)
Lemma index_scan_none i key time : (length (at_defs a) <= i)%nat -> table_scan m (Z.of_nat i) key time = Some (None, m).
Proof using All.
  intros Hi. pose proof (tb_index _ _ _ _ _ _ Ht) as Hx. unfold table_scan, MemTable_NewIterator. rewrite (ix_GetIndex _ _ _ Hx), Nat2Z.id.
  rewrite (proj2 (lookup_ge_None (indexs_ (mt_index m)) i)); [done|]. by rewrite (ix_length _ _ Hx).
Qed.

Lemma index_count i key : (i < length (at_defs a))%nat -> Z.of_nat (length (cells_blocks cs)) < 2 ^ 64 ->
  MemTable_GetCount m (Z.of_nat i) key = Some ((fun rows => Z.of_nat (length rows)) <$> (content ← at_content a !! i; content !! key)).
Proof using All.
  intros (d & p & c & s & R & Hp & Hdef & (Hready & Hpos & _ & Hts) & Hat & Hrep & Hi & -> & Hl)%(fun H => index_at i key H) Hlen. pose proof (tb_index _ _ _ _ _ _ Ht) as Hx.
  assert (Hcnt : GetCount s key = Some ((fun rows => Z.of_nat (length rows)) <$> view (mt_blocks m) (ce_live c) !! key)).
  { eapply seg_count; [exact Hi|]. rewrite length_cell_blocks, total_rows_app in Hl. lia. }
  unfold MemTable_GetCount. rewrite (ix_GetIndex _ _ _ Hx), Nat2Z.id, Hp. cbn [mbind option_bind]. rewrite Hdef. cbn [mbind option_bind]. unfold IsReady.
  rewrite bool_decide_true by done. cbn [negb]. rewrite Hpos, Nat2Z.id. unfold seg_idx_of. rewrite (tb_cnt _ _ _ _ _ _ Ht), Hat. cbn [mbind option_bind].
  destruct (ts_column_ d) as [col|] eqn:Ecol; [|done].
  unfold GetCount_idx. rewrite (cr_map _ _ _ _ _ _ Hrep). unfold def_map. rewrite Ecol, uwrap_id by (unfold in_uint; lia). rewrite lookup_singleton_eq.
  by rewrite (sc_ts _ _ _ (cr_core _ _ _ _ _ _ Hrep)).
Qed.
End index.

(** ** Counters *)
Lemma sum_arr n offset map arr : forall j ci acc, arr_rep n offset map j arr ci -> in_uint 64 acc ->
  sum_segments arr GetIdxCnt acc = Some (u64 (acc + Z.of_nat (length (ci ≫= cell_blocks)))).
Proof.
  induction arr as [|s arr IH]; intros j [|c ci] acc Hr Hacc; try done.
  - cbn [sum_segments]. f_equal. rewrite Z.add_0_r. by rewrite uwrap_id.
  - destruct Hr as [Hc Hr]. cbn [sum_segments].
    assert (GetIdxCnt s = Some (idx_cnt_ s)) as -> by (unfold GetIdxCnt; by rewrite (sc_ts _ _ _ (cr_core _ _ _ _ _ _ Hc)), decide_False by lia). cbn [mbind option_bind].
    rewrite (IH _ _ _ Hr (uwrap_range 64 _ ltac:(lia))), (cr_idx _ _ _ _ _ _ Hc), <- length_cell_blocks, bind_cons, length_app. f_equal.
    rewrite uwrap_add_l. rewrite (Z.add_comm acc), <- Z.add_assoc, uwrap_add_l. f_equal. lia.
Qed.

Lemma sum_inner_spec n offset defs m cs : segs_rep n offset defs (segments_ m) cs -> forall inner i acc, inner_suffix (mt_index m) defs i inner ->
  length defs = (i + length inner)%nat -> in_uint 64 acc ->
  sum_inner m GetIdxCnt i inner acc = Some (u64 (acc + Z.of_nat (length (cells_blocks (drop i cs))))).
Proof.
  intros Hs. induction inner as [|x inner IH]; intros i acc Hi Hlen Hacc.
  - cbn [sum_inner]. rewrite drop_ge by (destruct Hs as [Hl _]; cbn in Hlen; lia). cbn. by rewrite Z.add_0_r, uwrap_id.
  - apply inner_suffix_cons in Hi as [(p & d & ttl & Hx & Hd & Hdef & Hr & _) Hi]. destruct (segs_rep_at _ _ _ _ _ _ _ Hs Hdef) as (ci & arr & Hci & _ & Harr & Hrep).
    cbn [sum_inner]. rewrite Hx. cbn [any_ready]. rewrite Hd. cbn [mbind option_bind]. unfold IsReady. rewrite bool_decide_true by done. cbn [mbind option_bind].
    rewrite Harr. cbn [mjoin option_join mbind option_bind]. rewrite (sum_arr _ _ _ _ _ _ _ Hrep Hacc). cbn [mbind option_bind].
    rewrite (IH (S i) _ Hi) by (cbn in Hlen; (lia || apply uwrap_range; lia)). f_equal. rewrite uwrap_add_l. f_equal. rewrite (drop_S _ _ _ Hci). unfold cells_blocks.
    change (mjoin (ci :: drop (S i) cs)) with (ci ++ mjoin (drop (S i) cs)). rewrite bind_app, length_app. lia.
Qed.

(** The row counter is the number of references to blocks. *)
Lemma table_refs n offset m a cs : tab_rep n offset m a cs [] -> Z.of_nat (length (cells_blocks cs)) < 2 ^ 64 -> GetRecordIdxCnt m = Some (block_refs (mt_blocks m)).
Proof.
  intros Ht Hlen. destruct (inner_all _ _ (tb_index _ _ _ _ _ _ Ht)) as [Hi Hl]. unfold GetRecordIdxCnt.
  rewrite (sum_inner_spec _ _ _ _ _ (tb_segs _ _ _ _ _ _ Ht) _ 0 0 Hi Hl) by done. pose proof (tb_blocks _ _ _ _ _ _ Ht) as Hb. rewrite app_nil_r in Hb.
  rewrite (blocks_rep_refs _ _ Hb), drop_0, Z.add_0_l, uwrap_id; [done|]. unfold in_uint. lia.
Qed.
End read.

(** * MemTableRelease: [MemTable::Release]: every row is freed exactly once. *)
(** All keys of an index *)
Definition index_live (ci : list cell) : list keyed := ci ≫= ce_live.
Definition content_total (ms : list content) : nat := sum_list (content_rows <$> ms).

Section release.
Context `{SmallLayout}.

(** ** The contents of an index are those of its segments *)
Lemma view_app (bs : blocks) (a b : list keyed) (key : bytes) : view bs (a ++ b) !! key = match view bs a !! key with Some r => Some r | None => view bs b !! key end.
Proof.
  unfold view. rewrite fmap_app, list_to_map_app, lookup_union. destruct (list_to_map _ !! key) as [r|]; cbn; [by destruct (list_to_map _ !! key)|].
  by destruct (list_to_map _ !! key).
Qed.

Lemma live_routed n offset map arr : forall j0 ci, arr_rep n offset map j0 arr ci -> Forall (fun x => (j0 <= seg_of n x.1)%nat) (index_live ci) /\ NoDup (index_live ci).*1.
Proof.
  induction arr as [|s arr IH]; intros j0 [|c ci] Hr; try done; [split; constructor|]. destruct Hr as [Hc Hr]. destruct (IH _ _ Hr) as [I1 I2].
  pose proof (cr_route _ _ _ _ _ _ Hc) as Hroute. unfold index_live. rewrite bind_cons. fold (index_live ci). split.
  - apply Forall_app. split; [|by eapply Forall_impl; [exact I1|]; cbn; intros; lia]. eapply Forall_impl; [exact Hroute|]. cbn. intros x ->. lia.
  - rewrite fmap_app. apply NoDup_app. split; [apply (sc_distinct _ _ _ (cr_core _ _ _ _ _ _ Hc))|]. split; [|done].
    intros k (x & -> & Hx)%list_elem_of_fmap (y & E & Hy)%list_elem_of_fmap. rewrite Forall_forall in Hroute, I1. specialize (Hroute x Hx). specialize (I1 y Hy).
    cbn in *. rewrite <- E in I1. lia.
Qed.

Lemma live_lookup n offset map bs arr key : forall j0 ci, arr_rep n offset map j0 arr ci -> (j0 <= seg_of n key)%nat ->
  view bs (index_live ci) !! key = c ← ci !! (seg_of n key - j0)%nat; view bs (ce_live c) !! key.
Proof.
  induction arr as [|s arr IH]; intros j0 [|c ci] Hr Hj; try done. pose proof Hr as [Hc Hr']. unfold index_live. rewrite bind_cons, view_app. fold (index_live ci).
  destruct (decide (seg_of n key = j0)) as [E|Hne].
  - rewrite E, Nat.sub_diag. cbn. destruct (view bs (ce_live c) !! key); [done|]. apply view_absent.
    intros (x & -> & Hx)%list_elem_of_fmap. destruct (live_routed _ _ _ _ _ _ Hr') as [I1 _]. rewrite Forall_forall in I1. specialize (I1 x Hx). cbn in I1. lia.
  - rewrite (view_absent bs (ce_live c)), (IH (S j0) ci Hr') by (lia || (intros (x & -> & Hx)%list_elem_of_fmap;
      pose proof (cr_route _ _ _ _ _ _ Hc) as Hroute; rewrite Forall_forall in Hroute; specialize (Hroute x Hx); done)).
    replace (seg_of n key - j0)%nat with (S (seg_of n key - S j0)) by lia. done.
Qed.

Lemma index_rows (n offset : Z) (map : gmap Z nat) (bs : blocks) (arr : list Segment) (ci : list cell) (m : content) : arr_rep n offset map 0 arr ci -> (forall key, m !! key = index_view bs n ci key) ->
  content_rows m = total_rows (index_live ci).
Proof.
  intros Hr Hm. rewrite <- (view_rows bs) by (by eapply live_routed). f_equal. apply map_eq. intros key. rewrite Hm. unfold index_view.
  rewrite (live_lookup _ _ _ _ _ _ _ _ Hr) by lia. by rewrite Nat.sub_0_r.
Qed.

(** ** The loops *)
Lemma release_arr_spec n offset map arr : forall j ci total bs R, arr_rep n offset map j arr ci -> blocks_rep bs ((ci ≫= cell_blocks) ++ R) -> in_uint 64 total ->
  exists bs', release_arr arr total bs = Some (u64 (total + Z.of_nat (total_rows (index_live ci))), bs') /\ blocks_rep bs' R.
Proof.
  induction arr as [|s arr IH]; intros j [|c ci] total bs R Hr Hb Ht; try done.
  { exists bs. cbn. by rewrite Z.add_0_r, uwrap_id. }
  destruct Hr as [Hc Hr]. rewrite bind_cons, <- app_assoc in Hb. destruct (Release_spec s bs _ _ _ (cr_core _ _ _ _ _ _ Hc) Hb) as (s' & bs1 & E & Hb1 & _).
  cbn [release_arr]. rewrite E. cbn [mbind option_bind]. destruct (IH _ _ (u64 (total + u64 (Z.of_nat (total_rows (ce_live c))))) _ _ Hr Hb1) as (bs2 & -> & Hb2); [apply uwrap_range; lia|].
  exists bs2. split; [|done]. rewrite uwrap_add_l. unfold index_live. rewrite bind_cons, total_rows_app. fold (index_live ci).
  rewrite (Z.add_comm total), <- Z.add_assoc, uwrap_add_l. do 3 f_equal. lia.
Qed.

(** The rest of the array of segments, from index [i] on *)
Lemma release_all_spec n offset defs segs0 cs0 bs0 ms0 : segs_rep n offset defs segs0 cs0 -> contents_rep bs0 n cs0 ms0 ->
  forall segs i total bs, drop i segs0 = segs -> blocks_rep bs (cells_blocks (drop i cs0)) -> in_uint 64 total ->
  exists bs', release_all segs total bs = Some (u64 (total + Z.of_nat (content_total (drop i ms0))), bs') /\ blocks_rep bs' [].
Proof.
  intros (Hl & Hs & Htl) Hct. induction segs as [|x segs IH]; intros i total bs Hd Hb Ht.
  { assert (length cs0 <= i)%nat.
    { destruct (decide (i < length cs0)%nat) as [Hi|]; [|lia]. destruct (lookup_lt_is_Some_2 _ _ Hi) as [ci Hci].
      destruct (lookup_lt_is_Some_2 defs i ltac:(lia)) as [d Hdd]. destruct (Hs i d ci Hdd Hci) as (_ & arr & Harr & _).
      apply lookup_lt_Some in Harr. apply (f_equal length) in Hd. rewrite length_drop in Hd. cbn in Hd. lia. }
    destruct Hct as [Hlm _]. exists bs. rewrite !drop_ge in * by lia. split; [|done]. cbn. by rewrite Z.add_0_r, uwrap_id. }
  assert (Hx : segs0 !! i = Some x) by (by rewrite <- (Nat.add_0_r i), <- lookup_drop, Hd).
  assert (Hd' : drop (S i) segs0 = segs) by (rewrite (drop_S _ _ _ Hx) in Hd; by injection Hd).
  destruct (decide (i < length defs)%nat) as [Hi|Hi].
  - destruct (lookup_lt_is_Some_2 _ _ Hi) as [d Hdd]. destruct (lookup_lt_is_Some_2 cs0 i ltac:(lia)) as [ci Hci].
    destruct (Hs i d ci Hdd Hci) as (_ & arr & Harr & Hrep). rewrite Hx in Harr. injection Harr as ->. destruct (contents_at _ _ _ _ _ _ Hct Hci) as (m & Hm & Hv).
    rewrite (drop_S _ _ _ Hci) in Hb. unfold cells_blocks in Hb. change (mjoin (ci :: drop (S i) cs0)) with (ci ++ mjoin (drop (S i) cs0)) in Hb. rewrite bind_app in Hb.
    destruct (release_arr_spec _ _ _ _ _ _ total _ _ Hrep Hb Ht) as (bs1 & E1 & Hb1). cbn [release_all]. rewrite E1. cbn [mbind option_bind].
    destruct (IH (S i) (u64 (total + Z.of_nat (total_rows (index_live ci)))) bs1 Hd' Hb1 (uwrap_range 64 _ ltac:(lia))) as (bs2 & -> & Hb2). exists bs2. split; [|done].
    rewrite uwrap_add_l, (drop_S _ _ _ Hm). unfold content_total. rewrite fmap_cons, (index_rows _ _ _ _ _ _ _ Hrep Hv). cbn [sum_list sum_list_with]. do 3 f_equal. unfold id. lia.
  - rewrite (Htl i x ltac:(lia) Hx). cbn [release_all]. destruct Hct as [Hlm _]. rewrite (drop_ge cs0) in Hb by lia.
    destruct (IH (S i) total bs Hd') as (bs2 & -> & Hb2); [by rewrite drop_ge by lia|done|]. exists bs2. by rewrite !(drop_ge ms0) by lia.
Qed.

Lemma MemTable_Release_spec n offset m a cs : tab_rep n offset m a cs [] -> at_defs a <> [] ->
  exists m', MemTable_Release m = Some (u64 (Z.of_nat (content_total (at_content a))), m') /\ mt_blocks m' = ∅ /\ MemTable_Release m' = Some (0, m').
Proof.
  intros Ht Hne. pose proof (tb_segs _ _ _ _ _ _ Ht) as Hs. pose proof (tb_blocks _ _ _ _ _ _ Ht) as Hb. rewrite app_nil_r in Hb.
  assert (exists d, at_defs a !! 0%nat = Some d) as [d Hd] by (destruct (at_defs a); cbn; eauto; done).
  destruct (segs_rep_at _ _ _ _ _ _ _ Hs Hd) as (ci0 & arr & _ & _ & Hseg & _).
  destruct (release_all_spec _ _ _ _ _ _ _ Hs (tb_contents _ _ _ _ _ _ Ht) (segments_ m) 0 0 (mt_blocks m)) as (bs' & E & Hb'); [done|done|done|].
  unfold MemTable_Release. rewrite (tb_open _ _ _ _ _ _ Ht). destruct (segments_ m) as [|x segs]; [done|]. rewrite E. cbn [mbind option_bind]. rewrite drop_0, Z.add_0_l.
  eexists. split; [reflexivity|]. split; [by apply blocks_rep_nil|done].
Qed.
End release.

(** * MemTableVisible *)
(** The rows before the first one that [ttl] says has expired, the first one
    being number [idx] *)
Fixpoint visible (ttl : TTLSt) (idx : Z) (rows : list rowv) : list rowv :=
  match rows with
  | [] => []
  | r :: rest => if IsExpired ttl r.1 idx then [] else r :: visible ttl (idx + 1) rest
  end.

(** The same rows, all at once *)
Definition visible_rows (ttl : TTLSt) (idx : Z) (rows : list rowv) : list rowv :=
  let newer := filter (fun r => abs_ttl ttl < r.1) rows in
  let cnt := Z.to_nat (lat_ttl ttl + 1 - idx) in
  match ttl_type ttl with
  | kAbsoluteTime => if decide (abs_ttl ttl = 0) then rows else newer
  | kLatestTime => if decide (lat_ttl ttl = 0) then rows else take cnt rows
  | kAbsAndLat => if decide (abs_ttl ttl = 0 \/ lat_ttl ttl = 0) then rows else take (count_newer (abs_ttl ttl) rows `max` cnt) rows
  | kAbsOrLat =>
      if decide (abs_ttl ttl = 0) then if decide (lat_ttl ttl = 0) then rows else take cnt rows
      else if decide (lat_ttl ttl = 0) then newer else take (count_newer (abs_ttl ttl) rows `min` cnt) rows
  | kRelativeTime => []
  end.

Definition newest_first (rows : list rowv) : Prop := StronglySorted (fun x y => y.1 <= x.1) rows.

Lemma count_newer_cons t r rows : count_newer t (r :: rows) = if decide (t < r.1) then S (count_newer t rows) else count_newer t rows.
Proof. unfold count_newer. rewrite filter_cons. by case_decide. Qed.

Lemma count_newer_none t rows : Forall (fun r => r.1 <= t) rows -> count_newer t rows = 0%nat.
Proof. intros Hf. unfold count_newer. rewrite filter_none; [done|]. intros r Hr. rewrite Forall_forall in Hf. specialize (Hf r Hr). lia. Qed.

Lemma newest_tail r rows t : newest_first (r :: rows) -> ~ t < r.1 -> Forall (fun x => x.1 <= t) rows.
Proof. intros [_ Hr]%StronglySorted_inv Ht. eapply Forall_impl; [exact Hr|]. cbn. lia. Qed.

Lemma newer_take t rows : newest_first rows -> filter (fun r => t < r.1) rows = take (count_newer t rows) rows.
Proof.
  induction rows as [|r rows IH]; intros Hs; [done|]. rewrite filter_cons, count_newer_cons. case_decide as Hr.
  - cbn. f_equal. apply IH. by apply StronglySorted_inv in Hs as [? _].
  - rewrite filter_none; [rewrite count_newer_none; [done|by eapply newest_tail]|]. intros x Hx. pose proof (newest_tail _ _ _ Hs Hr) as Hf. rewrite Forall_forall in Hf.
    specialize (Hf x Hx). lia.
Qed.

(** The rules in terms of how many rows they keep *)
Definition visible_cnt (ttl : TTLSt) (idx : Z) (rows : list rowv) : option nat :=
  let cnt := Z.to_nat (lat_ttl ttl + 1 - idx) in
  match ttl_type ttl with
  | kAbsoluteTime => if decide (abs_ttl ttl = 0) then None else Some (count_newer (abs_ttl ttl) rows)
  | kLatestTime => if decide (lat_ttl ttl = 0) then None else Some cnt
  | kAbsAndLat => if decide (abs_ttl ttl = 0 \/ lat_ttl ttl = 0) then None else Some (count_newer (abs_ttl ttl) rows `max` cnt)%nat
  | kAbsOrLat =>
      if decide (abs_ttl ttl = 0) then if decide (lat_ttl ttl = 0) then None else Some cnt
      else if decide (lat_ttl ttl = 0) then Some (count_newer (abs_ttl ttl) rows) else Some (count_newer (abs_ttl ttl) rows `min` cnt)%nat
  | kRelativeTime => Some 0%nat
  end.

Lemma visible_rows_cnt ttl idx rows : newest_first rows -> visible_rows ttl idx rows = match visible_cnt ttl idx rows with Some n => take n rows | None => rows end.
Proof.
  intros Hs. unfold visible_rows, visible_cnt. rewrite (newer_take _ _ Hs). destruct (ttl_type ttl); repeat case_decide; done.
Qed.

(** One row: expired exactly when none are kept *)
Lemma visible_cnt_cons ttl idx r rows : newest_first (r :: rows) ->
  match visible_cnt ttl idx (r :: rows) with
  | None => IsExpired ttl r.1 idx = false /\ visible_cnt ttl (idx + 1) rows = None
  | Some O => IsExpired ttl r.1 idx = true
  | Some (S n) => IsExpired ttl r.1 idx = false /\ visible_cnt ttl (idx + 1) rows = Some n
  end.
Proof.
  intros Hs. set (A := abs_ttl ttl). set (k := lat_ttl ttl). unfold visible_cnt, IsExpired. fold A k. rewrite count_newer_cons.
  assert (Hk : Z.to_nat (k + 1 - idx) = if decide (k < idx) then 0%nat else S (Z.to_nat (k + 1 - (idx + 1)))) by (case_decide; lia). rewrite Hk.
  assert (Hk0 : k < idx -> Z.to_nat (k + 1 - (idx + 1)) = 0%nat) by lia.
  destruct (decide (A < r.1)) as [Hr|Hr].
  - rewrite (bool_decide_false (r.1 <= A)) by lia. destruct (decide (k < idx)) as [Hi|Hi]; [rewrite (bool_decide_true (k < idx)), (Hk0 Hi) by done|rewrite (bool_decide_false (k < idx)) by done];
      destruct (ttl_type ttl); repeat case_decide; cbn; repeat split; try done; f_equal; lia.
  - rewrite (count_newer_none A rows) by (by eapply newest_tail). rewrite (bool_decide_true (r.1 <= A)) by lia.
    destruct (decide (k < idx)) as [Hi|Hi]; [rewrite (bool_decide_true (k < idx)), (Hk0 Hi) by done|rewrite (bool_decide_false (k < idx)) by done];
      destruct (ttl_type ttl); repeat case_decide; cbn; repeat split; try done; f_equal; lia.
Qed.

Lemma visible_rule ttl rows : forall idx, newest_first rows -> visible ttl idx rows = visible_rows ttl idx rows.
Proof.
  intros idx Hs. rewrite (visible_rows_cnt _ _ _ Hs). revert idx Hs. induction rows as [|r rows IH]; intros idx Hs; [by destruct (visible_cnt _ _ _) as [[]|]|].
  pose proof (visible_cnt_cons ttl idx r rows Hs) as Hc. cbn [visible]. apply StronglySorted_inv in Hs as [Hs _]. specialize (IH (idx + 1) Hs).
  destruct (visible_cnt ttl idx (r :: rows)) as [[|n]|].
  - by rewrite Hc.
  - destruct Hc as [-> Hc]. rewrite Hc in IH. cbn. by rewrite IH.
  - destruct Hc as [-> Hc]. rewrite Hc in IH. by rewrite IH.
Qed.

(** ** Collections *)

(** What a reader at the time [now] expires by ([GetExpireTime]) *)
Definition reader_ttl (now : Z) (ttl : TTLSt) : TTLSt :=
  MkTTLSt (if decide (abs_ttl ttl = 0 \/ ttl_type ttl = kLatestTime) then 0 else u64 (now - abs_ttl ttl)) (lat_ttl ttl) (ttl_type ttl).

Lemma count_newer_take t n rows : newest_first rows -> count_newer t (take n rows) = (n `min` count_newer t rows)%nat.
Proof.
  revert n. induction rows as [|r rows IH]; intros n Hs; [by rewrite take_nil, Nat.min_0_r|]. destruct n as [|n]; [done|]. cbn [take]. rewrite !count_newer_cons.
  pose proof (StronglySorted_inv Hs) as [Hs' _]. rewrite (IH n Hs'). case_decide as Hr; [lia|]. rewrite (count_newer_none t rows) by (by eapply newest_tail). lia.
Qed.

Lemma count_newer_mono t t' rows : t <= t' -> (count_newer t' rows <= count_newer t rows)%nat.
Proof. intros Ht. induction rows as [|r rows IH]; [done|]. rewrite !count_newer_cons. repeat case_decide; lia. Qed.

Lemma count_newer_le t rows : (count_newer t rows <= length rows)%nat.
Proof. apply length_filter. Qed.

Lemma newest_take n rows : newest_first rows -> newest_first (take n rows).
Proof. intros Hs. unfold newest_first in *. rewrite <- (take_drop n rows) in Hs. by apply StronglySorted_app_1_l in Hs. Qed.

(** What a collection keeps is a prefix. *)
Lemma abs_keep_take offset now ttl rows : newest_first rows -> abs_keep offset now ttl rows = take (length (abs_keep offset now ttl rows)) rows.
Proof.
  intros Hs. assert (Hall : rows = take (length rows) rows) by (by rewrite take_ge). assert (Hn : forall n, take n rows = take (length (take n rows)) rows).
  { intros n. rewrite length_take. destruct (decide (n <= length rows)%nat); [by rewrite Nat.min_l by lia|by rewrite !take_ge by lia]. }
  unfold abs_keep. destruct (ttl_type ttl); repeat case_decide; rewrite ?(newer_take _ _ Hs); (exact Hall || apply Hn).
Qed.

Lemma visible_after_gc offset now ttl rows : newest_first rows -> 0 <= lat_ttl ttl -> 0 <= abs_ttl ttl -> 0 <= offset -> offset + abs_ttl ttl < now < 2 ^ 64 ->
  visible (reader_ttl now ttl) 1 (abs_keep offset now ttl rows) = visible (reader_ttl now ttl) 1 rows.
Proof.
  intros Hs Hl Ha Ho Hnow. assert (Hs' : newest_first (abs_keep offset now ttl rows)) by (rewrite (abs_keep_take _ _ _ _ Hs); by apply newest_take).
  rewrite !visible_rule, !visible_rows_cnt by done. unfold visible_cnt, reader_ttl, abs_keep. cbn [abs_ttl lat_ttl ttl_type].
  rewrite !(uwrap_id 64) by (unfold in_uint; lia). replace (lat_ttl ttl + 1 - 1) with (lat_ttl ttl) by lia. rewrite (newer_take _ _ Hs).
  pose proof (count_newer_mono (now - offset - abs_ttl ttl) (now - abs_ttl ttl) rows ltac:(lia)) as Hm.
  destruct (ttl_type ttl); repeat case_decide; try done; try lia; rewrite ?(count_newer_take _ _ _ Hs), ?take_take; try (f_equal; lia).
  all: exfalso; repeat match goal with Hd : _ \/ _ |- _ => destruct Hd end; (done || lia).
Qed.
