(* ===== verification/MemTableIterThms.v ===== *)
(** The key and window iterators of a memory table: walking an index visits
    every key once, with the rows that have not expired. *)
From S2P Require Import Prelude Slice Random Skiplist SkiplistInv SkiplistInsert SkiplistSplit SkiplistSpec SkiplistNodes Segment SegmentGc.
From S2P Require Import SegmentRelease SegmentInv SegmentGcInv SegmentOps SegmentRefine SegmentClaims StdMap Hash TableIndex TableParse Table.
From S2P Require Import MemTable MemTableGc MemTableIter MemTableInv TableParseThms MemTableOps MemTablePut MemTableSched MemTableVisible.

(** ** Walking a window *)
Fixpoint wi_collect (fuel : nat) (l : TimeEntries) (bs : blocks) (w : WindowIt) : option (list rowv) :=
  valid ← wi_Valid l w;
  if (valid : bool) then
    match fuel with
    | O => None
    | S fuel' =>
        key ← wi_GetKey l w;
        value ← wi_GetValue l bs w;
        w ← wi_Next l w;
        rest ← wi_collect fuel' l bs w;
        Some ((key, value) :: rest)
    end
  else Some [].

Lemma wi_collect_spec l bs ttl c : forall rows fuel idx, chain l c -> nodes l c (node_row <$> rows) -> Forall (fun r => is_Some (bs !! r.1.2)) rows ->
  (length c <= fuel)%nat -> 0 <= idx -> idx + Z.of_nat (length rows) < 2 ^ 32 ->
  wi_collect fuel l bs (MkWindowIt (head c) idx ttl) = Some (visible ttl idx (row_view bs <$> rows)).
Proof.
  induction c as [|q c IH]; intros rows fuel idx Hc Hn Hb Hf Hi Hlen.
  { apply Forall2_nil_inv_l, fmap_nil_inv in Hn as ->. by destruct fuel. }
  destruct rows as [|r rows]; [by inversion Hn|]. apply Forall2_cons in Hn as [Hq Hn]. apply Forall_cons in Hb as [[blk Hblk] Hb].
  destruct fuel as [|fuel]; [simpl in Hf; lia|]. apply chain_cons in Hc as [Hnx Hc]. cbn [wi_collect head].
  unfold wi_Valid, wi_GetKey, wi_GetValue, wi_Next, it_GetKey, it_GetValue, it_Next. cbn [wi_it wi_record_idx wi_expire_value mbind option_bind].
  change (it_Valid (Some q)) with true. rewrite GetKey_info, GetValue_info, Hq. cbn [fmap option_fmap option_map mbind option_bind node_row fst snd].
  rewrite fmap_cons. cbn [visible]. change (row_view bs r).1 with r.1.1. destruct (IsExpired ttl r.1.1 idx); [done|]. cbn [negb]. rewrite Hblk, Hnx. cbn [mbind option_bind].
  cbn [length] in Hlen. rewrite (uwrap_id 32) by (unfold in_uint; lia). rewrite (IH rows); [|done|done|done|simpl in Hf; lia|lia|lia].
  cbn [mbind option_bind]. unfold row_view at 2. by rewrite Hblk.
Qed.

(** ** Walking the keys *)
Fixpoint ki_collect (fuel : nat) (m : MemTable) (k : KeyIt) : option (list (bytes * list rowv) * MemTable) :=
  if ki_Valid k then
    match fuel with
    | O => None
    | S fuel' =>
        key ← ki_GetKey m k;
        '(p, w, m, k) ← ki_GetValue m k;
        s ← seg_at m (ki_inner k) (ki_seg_idx k);
        e ← deref s p;
        rows ← wi_collect (size (heap (entries e))) (entries e) (mt_blocks m) w;
        '(m, k) ← ki_Next m k;
        '(rest, m) ← ki_collect fuel' m k;
        Some ((key, rows) :: rest, m)
    end
  else Some ([], m).

(** A walk over the keys of an index and their windows *)
Definition key_walk `{Layout} (m : MemTable) (micros idx : Z) (fuel : nat) : option (list (bytes * list rowv) * MemTable) :=
  it ← NewWindowIterator m micros idx;
  k ← it;
  '(m, k) ← ki_SeekToFirst m k;
  ki_collect fuel m k.

(** The keys that remain when the iterator stands on one of [ci] *)
Definition ki_at (ci : list cell) (todo : list keyed) (k : KeyIt) : Prop :=
  match todo with
  | [] => ki_pk_it k = None
  | x :: rest => exists c a b, ci !! ki_seg_idx k = Some c /\ ce_live c = a ++ x :: b /\ ki_pk_it k = Some (Some (node_of x)) /\
      rest = b ++ index_live (drop (S (ki_seg_idx k)) ci)
  end.

Section keys.
Context `{SmallLayout}.

Lemma cell_first n offset map j s c : cell_rep n offset map j s c -> it_SeekToFirst (sg_entries s) = Some (head (node_of <$> ce_live c)).
Proof. intros Hc. apply (nrep_chain _ _ _ (nrep_full_nrep _ _ _ (sc_keys _ _ _ (cr_core _ _ _ _ _ _ Hc)))). Qed.

Lemma arr_rep_drop n offset map arr : forall j ci k, arr_rep n offset map j arr ci -> arr_rep n offset map (j + k) (drop k arr) (drop k ci).
Proof.
  induction arr as [|s arr IH]; intros j [|c ci] k Hr; try done; [by rewrite !drop_nil|]. destruct k as [|k]; [by rewrite Nat.add_0_r|].
  destruct Hr as [_ Hr]. cbn. rewrite Nat.add_succ_r. by apply (IH (S j)).
Qed.

(** The first key from segment [j] on *)
Lemma first_pk_spec n offset map ci0 arr : forall j, arr_rep n offset map j arr (drop j ci0) ->
  exists j' pk, first_pk arr j = Some (j', pk) /\ forall k, ki_seg_idx k = j' -> ki_pk_it k = pk -> ki_at ci0 (index_live (drop j ci0)) k.
Proof.
  induction arr as [|s arr IH]; intros j Hr.
  - destruct (drop j ci0) eqn:E; [|done]. exists j, None. split; [done|]. intros k _ Hk. done.
  - destruct (ci0 !! j) as [c|] eqn:Ec; [|apply lookup_ge_None in Ec; rewrite drop_ge in Hr by done; done].
    rewrite (drop_S _ _ _ Ec) in Hr |- *. destruct Hr as [Hc Hr]. cbn [first_pk]. rewrite (cell_first _ _ _ _ _ _ Hc). cbn [mbind option_bind].
    unfold index_live. rewrite bind_cons. fold (index_live (drop (S j) ci0)). destruct (ce_live c) as [|x live] eqn:El.
    + apply IH. exact Hr.
    + exists j, (Some (Some (node_of x))). split; [done|]. intros k Hj Hk. exists c, [], live. rewrite Hj. by split_and!.
Qed.

Section walk.
Context n offset map m i arr ci R (Harr : seg_arr m i = Some arr) (Hrep : arr_rep n offset map 0 arr ci) (Hb : blocks_rep (mt_blocks m) ((ci ≫= cell_blocks) ++ R)).
Context (Hcnt : seg_cnt_ m = n) (Hlen : length ci = Z.to_nat n).

Lemma walk_seg j c : ci !! j = Some c -> exists s, seg_at m i j = Some s /\ arr !! j = Some s /\ cell_rep n offset map j s c.
Proof using All.
  intros Hc. destruct (arr_rep_lookup _ _ _ _ _ _ _ _ Hrep Hc) as (s & Hs & Hr). exists s. split_and!; try done. unfold seg_at.
  unfold seg_arr in Harr. by rewrite Harr.
Qed.

(** From an exhausted segment to the next key *)
Lemma ki_NextPK_on fuel : forall j k s, ki_inner k = i -> ki_ticket k = [] -> ki_seg_idx k = j -> ki_pk_it k = Some None -> arr !! j = Some s -> (length ci - j <= fuel)%nat ->
  exists k', ki_NextPK fuel m k = Some (m, k') /\ ki_at ci (index_live (drop (S j) ci)) k' /\ ki_inner k' = i /\ ki_ticket k' = [] /\ ki_ts_idx k' = ki_ts_idx k /\
    ki_ttl_type k' = ki_ttl_type k /\ ki_expire_time k' = ki_expire_time k /\ ki_expire_cnt k' = ki_expire_cnt k.
Proof using All.
  pose proof (arr_rep_length _ _ _ _ _ _ Hrep) as Hla.
  induction fuel as [|fuel IH]; intros j k s Hi Ht Hj Hpk Hs Hf; [apply lookup_lt_Some in Hs; lia|]. cbn [ki_NextPK]. rewrite Ht, Hpk. cbn [ticket_pop mbind option_bind].
  rewrite Hi, Harr. cbn [mbind option_bind]. rewrite Hj, Hs. cbn [mbind option_bind].
  change (it_Valid None) with false.
  cbn [ticket_pop mbind option_bind].
  destruct (arr !! S j) as [s'|] eqn:Es'.
  - destruct (ci !! S j) as [c|] eqn:Ec; [|apply lookup_ge_None in Ec; apply lookup_lt_Some in Es'; lia].
    destruct (walk_seg _ _ Ec) as (s2 & _ & Hs2 & Hcell). rewrite Es' in Hs2. injection Hs2 as <-. rewrite (cell_first _ _ _ _ _ _ Hcell). cbn [mbind option_bind].
    rewrite (drop_S _ _ _ Ec). unfold index_live. rewrite bind_cons. fold (index_live (drop (S (S j)) ci)). destruct (ce_live c) as [|x live] eqn:El.
    + cbn [fmap list_fmap head]. change (it_Valid None) with false. cbn beta iota.
      destruct (IH (S j) (set_ki_pos (S j) (Some None) [] k) s') as (k' & E & Hk'); try done; [apply lookup_lt_Some in Es'; lia|]. by exists k'.
    + cbn [fmap list_fmap head]. change (it_Valid (Some (node_of x))) with true. cbn beta iota. eexists. split; [reflexivity|]. split_and!; try done.
      exists c, [], live. cbn. by split_and!.
  - rewrite (drop_ge ci) by (apply lookup_ge_None in Es'; lia). eexists. split; [reflexivity|]. by split_and!.
Qed.

(** An entry held by a ticket, and let go again *)
Lemma push_pop j c s a x b e : ci !! j = Some c -> seg_at m i j = Some s -> cell_rep n offset map j s c -> ce_live c = a ++ x :: b -> deref s (id_of x) = Some e ->
  let m1 := set_seg m i j (set_entry (id_of x) (Ref e) s) in
  ticket_push m [] i j (id_of x) = Some (m1, [(i, j, id_of x)]) /\ ticket_pop m1 [(i, j, id_of x)] = Some (m, []) /\
  seg_at m1 i j = Some (set_entry (id_of x) (Ref e) s).
Proof using All.
  intros Hc Hs Hcell Hl He m1. unfold ticket_push, ticket_pop, Ticket_Push, Ticket_Pop, m1. rewrite Hs. cbn [mbind option_bind]. rewrite He. cbn [mbind option_bind].
  rewrite (seg_at_set _ _ _ _ _ Hs). cbn [mbind option_bind]. rewrite deref_set_entry. cbn [mbind option_bind]. split_and!; try done. do 2 f_equal.
  pose proof (cr_readers _ _ _ _ _ _ Hcell) as Hr. rewrite Hl, Forall_app, Forall_cons in Hr. destruct Hr as (_ & Hr & _).
  pose proof (cr_core _ _ _ _ _ _ Hcell) as Hcore. rewrite Hl in Hcore. destruct (core_entry _ _ _ _ _ Hcore) as (e' & He' & Herep). rewrite He in He'. injection He' as <-.
  rewrite UnRef_Ref by (rewrite (er_refs _ _ Herep), Hr; by unfold in_uint). rewrite set_entry_twice, (set_entry_id _ _ _ He). by apply set_seg_twice.
Qed.

(** The iterator's settings *)
Definition ki_same (k k' : KeyIt) : Prop :=
  ki_inner k' = ki_inner k /\ ki_ts_idx k' = ki_ts_idx k /\ ki_ttl_type k' = ki_ttl_type k /\ ki_expire_time k' = ki_expire_time k /\ ki_expire_cnt k' = ki_expire_cnt k.

(** One key *)
Lemma ki_visit k x rest ttl : ki_inner k = i -> ki_ticket k = [] -> ki_at ci (x :: rest) k -> ttl = MkTTLSt (ki_expire_time k) (ki_expire_cnt k) (ki_ttl_type k) ->
  Z.of_nat (length (rows_of x)) < 2 ^ 32 ->
  ki_Valid k = true /\ ki_GetKey m k = Some x.1 /\
  exists w m1 k1 s1 e1 k2, ki_GetValue m k = Some (id_of x, w, m1, k1) /\ seg_at m1 (ki_inner k1) (ki_seg_idx k1) = Some s1 /\ deref s1 (id_of x) = Some e1 /\
    wi_collect (size (heap (entries e1))) (entries e1) (mt_blocks m1) w = Some (visible ttl 0 (row_view (mt_blocks m) <$> rows_of x)) /\
    ki_Next m1 k1 = Some (m, k2) /\ ki_at ci rest k2 /\ ki_ticket k2 = [] /\ ki_same k k2.
Proof using All.
  intros Hin Ht (c & a & b & Hc & Hl & Hpk & ->) -> Hrows. set (j := ki_seg_idx k) in *. destruct (walk_seg _ _ Hc) as (s & Hs & Hsa & Hcell).
  pose proof (cr_core _ _ _ _ _ _ Hcell) as Hcore. rewrite Hl in Hcore. destruct (core_entry _ _ _ _ _ Hcore) as (e & He & Herep).
  destruct (push_pop j c s a x b e Hc Hs Hcell Hl He) as (Hpush & Hpop & Hat). set (m1 := set_seg m i j _) in *. destruct (er_list _ _ Herep) as [rc Hn].
  destruct (nrep_chain _ _ _ Hn) as [Hf Hch]. split; [by unfold ki_Valid; rewrite Hpk|]. pose proof (it_entry_at _ _ _ _ _ Hcore) as Hent. unfold it_entry in Hent.
  destruct (GetValue (sg_entries s) (node_of x)) as [v|] eqn:Ev; [|done]. cbn [mbind option_bind] in Hent. destruct (GetKey (sg_entries s) (node_of x)) as [key|] eqn:Ek; [|done].
  cbn [mbind option_bind] in Hent. destruct (as_entry v) as [p|] eqn:Ep; [|done]. injection Hent as -> ->.
  split; [unfold ki_GetKey; rewrite Hpk; cbn [mbind option_bind]; fold j; rewrite Hin, Hs; exact Ek|].
  assert (Hget : ki_GetValue m k = Some (id_of x, WindowIt_new (head rc) (ki_ttl_type k) (ki_expire_time k) (ki_expire_cnt k), m1, set_ki_pos j (ki_pk_it k) [(i, j, id_of x)] k)).
  { unfold ki_GetValue. fold j. rewrite Hin, Ht, Hpk. cbn [mbind option_bind]. rewrite Hs. cbn [mbind option_bind]. unfold pk_entry, it_GetValue. cbn [mbind option_bind]. rewrite Ev.
    cbn [mbind option_bind]. rewrite (sc_ts _ _ _ Hcore), decide_False by lia. rewrite Ep. cbn [mbind option_bind]. rewrite Hpush. cbn [mbind option_bind]. rewrite He. cbn [mbind option_bind].
    by rewrite Hf. }
  assert (Hnext : exists k2, ki_Next m1 (set_ki_pos j (ki_pk_it k) [(i, j, id_of x)] k) = Some (m, k2) /\ ki_at ci (b ++ index_live (drop (S j) ci)) k2 /\ ki_ticket k2 = [] /\ ki_same k k2).
  { unfold ki_Next. change (ki_fuel m1) with (ki_fuel m). unfold ki_fuel. cbn [ki_NextPK ki_ticket set_ki_pos ki_pk_it ki_inner ki_seg_idx]. rewrite Hpop. cbn [mbind option_bind].
    rewrite Hpk. cbn [mbind option_bind]. rewrite Hin, Harr. cbn [mbind option_bind]. rewrite Hsa. cbn [mbind option_bind]. change (it_Valid (Some (node_of x))) with true. cbn beta iota.
    rewrite (it_next_at _ _ _ _ _ Hcore). cbn [mbind option_bind]. destruct b as [|y b'].
    - destruct (ki_NextPK_on (S (Z.to_nat (seg_cnt_ m))) j (set_ki_pos j (Some None) [] k) s) as (k2 & E & Hk2 & Q1 & Q2 & Q3 & Q4 & Q5 & Q6); try done; [rewrite Hcnt; lia|].
      exists k2. split; [|split; [done|split; [done|split_and!; try done; by rewrite Q1, Hin]]].
      rewrite <- E. cbn [ki_NextPK ki_ticket set_ki_pos ki_pk_it ki_inner ki_seg_idx ticket_pop mbind option_bind]. rewrite Hin, Harr. cbn [mbind option_bind]. by rewrite Hsa.
    - eexists. split; [reflexivity|]. split; [|by split_and!]. exists c, (a ++ [x]), b'. cbn [ki_seg_idx set_ki_pos ki_pk_it]. split_and!; try done. by rewrite <- app_assoc. }
  destruct Hnext as (k2 & Hk2 & Hat2 & Ht2 & Hsame). eexists _, m1, _, _, (Ref e), k2. split; [exact Hget|]. cbn [ki_inner ki_seg_idx set_ki_pos]. rewrite Hin.
  split; [exact Hat|]. split; [apply deref_set_entry|]. split; [|done]. cbn [entries Ref]. pose proof (nrep_size _ _ _ Hn).
  change (mt_blocks m1) with (mt_blocks m). unfold WindowIt_new. apply wi_collect_spec; [done|by apply nrep_nodes| |lia|lia|lia].
  destruct (bind_insert_perm cell_blocks ci j c Hc) as (rest' & Hp & _). rewrite Hp, <- app_assoc in Hb.
  apply (rows_blocks s _ (ce_live c) (ce_dead c) (rest' ++ R)); [by eapply cell_inv|rewrite Hl; apply elem_of_app_cons].
Qed.

Lemma ki_collect_spec todo : forall fuel k ttl, ki_inner k = i -> ki_ticket k = [] -> ki_at ci todo k -> ttl = MkTTLSt (ki_expire_time k) (ki_expire_cnt k) (ki_ttl_type k) ->
  Forall (fun x => Z.of_nat (length (rows_of x)) < 2 ^ 32) todo -> (length todo <= fuel)%nat ->
  ki_collect fuel m k = Some ((fun x => (x.1, visible ttl 0 (row_view (mt_blocks m) <$> rows_of x))) <$> todo, m).
Proof using All.
  induction todo as [|x todo IH]; intros fuel k ttl Hin Ht Hat Httl Hlr Hf.
  { cbn in Hat. destruct fuel; cbn [ki_collect]; unfold ki_Valid; by rewrite Hat. }
  apply Forall_cons in Hlr as [Hx Hlr]. destruct fuel as [|fuel]; [simpl in Hf; lia|].
  destruct (ki_visit k x todo ttl Hin Ht Hat Httl Hx) as (Hv & Hkey & w & m1 & k1 & s1 & e1 & k2 & E1 & E2 & E3 & E4 & E5 & Hat2 & Ht2 & (S1 & S2 & S3 & S4 & S5)).
  cbn [ki_collect]. rewrite Hv, Hkey. cbn [mbind option_bind]. rewrite E1. cbn [mbind option_bind]. rewrite E2. cbn [mbind option_bind]. rewrite E3. cbn [mbind option_bind].
  rewrite E4. cbn [mbind option_bind]. rewrite E5. cbn [mbind option_bind]. rewrite (IH fuel k2 ttl); try done; [by rewrite S1|by rewrite S3, S4, S5|simpl in Hf; lia].
Qed.

(** The whole index *)
Lemma ki_all k ttl fuel : ki_inner k = i -> ki_ticket k = [] -> ttl = MkTTLSt (ki_expire_time k) (ki_expire_cnt k) (ki_ttl_type k) ->
  Forall (fun x => Z.of_nat (length (rows_of x)) < 2 ^ 32) (index_live ci) -> (length (index_live ci) <= fuel)%nat ->
  exists k1, ki_SeekToFirst m k = Some (m, k1) /\
    ki_collect fuel m k1 = Some ((fun x => (x.1, visible ttl 0 (row_view (mt_blocks m) <$> rows_of x))) <$> index_live ci, m).
Proof using All.
  intros Hin Ht Httl Hlr Hf. unfold ki_SeekToFirst. rewrite Ht, Hin. cbn [ticket_pop mbind option_bind]. rewrite Harr. cbn [mbind option_bind].
  destruct (first_pk_spec n offset map ci arr 0) as (j & pk & -> & Hk); [done|]. cbn [mbind option_bind]. eexists. split; [reflexivity|].
  apply ki_collect_spec; try done. rewrite <- (drop_0 ci) at 2. by apply Hk.
Qed.
End walk.

(** The keys and rows of an index, in any order *)
Lemma index_pairs (n offset : Z) (map : gmap Z nat) (bs : blocks) (arr : list Segment) (ci : list cell) (m : content) : arr_rep n offset map 0 arr ci -> (forall key, m !! key = index_view bs n ci key) ->
  map_to_list m ≡ₚ (fun x => (x.1, row_view bs <$> rows_of x)) <$> index_live ci.
Proof.
  intros Hr Hm. assert (m = view bs (index_live ci)) as ->.
  { apply map_eq. intros key. rewrite Hm. unfold index_view. rewrite (live_lookup _ _ _ _ _ _ _ _ Hr) by lia. by rewrite Nat.sub_0_r. }
  unfold view. apply map_to_list_to_map. rewrite <- list_fmap_compose. by eapply (live_routed n offset map arr 0).
Qed.
End keys.
