(* ===== verification/MemTableTraverse.v ===== *)
(** The traverse iterator of a memory table: walking an index from its first
    row visits the unexpired rows of every key, and leaves the table as it
    was. *)
From S2P Require Import Prelude Slice Random Skiplist SkiplistInv SkiplistInsert SkiplistSplit SkiplistSpec SkiplistNodes Segment SegmentGc.
From S2P Require Import SegmentRelease SegmentInv SegmentGcInv SegmentOps SegmentRefine SegmentClaims StdMap Hash TableIndex TableParse Table.
From S2P Require Import MemTable MemTableGc MemTableIter MemTableInv TableParseThms MemTableOps MemTablePut MemTableSched MemTableVisible.
From S2P Require Import MemTableIterThms.

Section traverse.
Context `{SmallLayout} `{TableFlags}.

Fixpoint tr_collect (fuel : nat) (m : MemTable) (r : TraverseIt) : option (list (bytes * rowv) * MemTable) :=
  valid ← tr_Valid m r;
  if (valid : bool) then
    match fuel with
    | O => None
    | S fuel' =>
        pk ← tr_GetPK m r;
        key ← tr_GetKey m r;
        value ← tr_GetValue m r;
        '(m, r) ← tr_Next m r;
        '(rest, m) ← tr_collect fuel' m r;
        Some ((pk, (key, value)) :: rest, m)
    end
  else Some ([], m).

(** A traversal at the time [micros]: open an iterator on the index, go to its
    first row and walk to the end *)
Definition traversal (m : MemTable) (micros idx : Z) (fuel : nat) : option (list (bytes * rowv) * MemTable) :=
  it ← NewTraverseIterator m micros idx;
  r ← it;
  '(m, r) ← tr_SeekToFirst m r;
  tr_collect fuel m r.

(** ** Rows *)
Lemma row_done_spec l bs ttl idx c rows : nodes l c (node_row <$> rows) ->
  row_done l ttl (head c) idx = Some (bool_decide (visible ttl idx (row_view bs <$> rows) = [])).
Proof.
  intros Hn. destruct c as [|q c]; [by apply Forall2_nil_inv_l, fmap_nil_inv in Hn as ->|]. destruct rows as [|r rows]; [by inversion Hn|]. apply Forall2_cons in Hn as [Hq _].
  unfold row_done, it_GetKey. change (it_Valid (head (q :: c))) with true. cbn [head mbind option_bind]. rewrite GetKey_info, Hq. cbn.
  by destruct (IsExpired ttl r.1.1 idx).
Qed.

Lemma expired_first ttl key : 0 <= lat_ttl ttl -> IsExpired ttl key 0 = IsExpired ttl key 1.
Proof.
  intros Hl. unfold IsExpired. destruct (ttl_type ttl); repeat case_decide; try done; rewrite ?(bool_decide_false (lat_ttl ttl < 0)), ?(bool_decide_false (lat_ttl ttl < 1)) by lia; done.
Qed.
Lemma visible_first ttl rows : 0 <= lat_ttl ttl -> (visible ttl 0 rows = [] <-> visible ttl 1 rows = []).
Proof. intros Hl. destruct rows as [|r rows]; [done|]. cbn [visible]. rewrite (expired_first ttl r.1 Hl). by destruct (IsExpired ttl r.1 1). Qed.

Section walk.
Context n offset map m i arr ci R (ttl : TTLSt) (Harr : seg_arr m i = Some arr) (Hrep : arr_rep n offset map 0 arr ci) (Hb : blocks_rep (mt_blocks m) ((ci ≫= cell_blocks) ++ R)).
Context (Hcnt : seg_cnt_ m = n) (Hlen : length ci = Z.to_nat n) (Hlat : 0 <= lat_ttl ttl).

Definition shown (idx : Z) (rows : list row) : list rowv := visible ttl idx (row_view (mt_blocks m) <$> rows).
(** From the first key with a row to show *)
Fixpoint skip_expired (ks : list keyed) : list keyed :=
  match ks with
  | [] => []
  | x :: ks' => if decide (shown 1 (rows_of x) = []) then skip_expired ks' else ks
  end.
(** How often [traverse_cnt_] is still counted *)
Definition weight (ks : list keyed) : nat := sum_list ((fun x => S (length (rows_of x))) <$> ks).

(** The iterator stands on the first of [rows] of the key [x]; the keys [rest]
    follow. *)
Record standing (x : keyed) (rest : list keyed) (rows : list row) (mc : MemTable) (r : TraverseIt) : Prop := {
  sd_cell : exists c a b, ci !! tr_seg_idx r = Some c /\ ce_live c = a ++ x :: b /\ rest = b ++ index_live (drop (S (tr_seg_idx r)) ci);
  sd_rows : exists s e rc, seg_at m i (tr_seg_idx r) = Some s /\ deref s (id_of x) = Some e /\ chain (entries e) rc /\ nodes (entries e) rc (node_row <$> rows) /\
    tr_it r = Some (tr_seg_idx r, id_of x, head rc) /\ mc = set_seg m i (tr_seg_idx r) (set_entry (id_of x) (Ref e) s);
  sd_suffix : rows `suffix_of` rows_of x;
  sd_pk : tr_pk_it r = Some (Some (node_of x));
  sd_ticket : tr_ticket r = [(i, tr_seg_idx r, id_of x)];
  sd_inner : tr_inner r = i;
  sd_ttl : tr_expire_value r = ttl
}.
Definition finished (mc : MemTable) (r : TraverseIt) : Prop := mc = m /\ tr_pk_it r = None /\ tr_ticket r = [].
(** Where the iterator stops when the keys [ks] come next *)
Definition landed (ks : list keyed) (w : nat) (mc : MemTable) (r : TraverseIt) : Prop :=
  match ks with
  | [] => finished mc r
  | x :: rest => standing x rest (rows_of x) mc r /\ tr_record_idx r = 1 /\ 0 <= tr_traverse_cnt r /\
      tr_traverse_cnt r + Z.of_nat (length (rows_of x) + weight rest) <= Z.of_nat w
  end.

(** A key is opened on its first row. *)
Lemma tr_open_at r x a b c pos : tr_inner r = i -> tr_ticket r = [] -> tr_pk_it r = Some (Some (node_of x)) -> tr_expire_value r = ttl ->
  ci !! tr_seg_idx r = Some c -> ce_live c = a ++ x :: b ->
  exists mc r1 l first, tr_open m r pos = Some (mc, r1, l, first) /\ standing x (b ++ index_live (drop (S (tr_seg_idx r)) ci)) (rows_of x) mc r1 /\
    r1 = set_tr_key (tr_seg_idx r) (Some (Some (node_of x))) (tr_it r1) (tr_ticket r1) r /\
    (forall idx, row_done l ttl first idx = Some (bool_decide (shown idx (rows_of x) = []))) /\ tr_it r1 = Some (tr_seg_idx r, id_of x, first).
Proof using All.
  intros Hi Ht Hpk Httl Hc Hl. set (j := tr_seg_idx r) in *. destruct (walk_seg n offset map m i arr ci R Harr Hrep Hb Hcnt Hlen _ _ Hc) as (s & Hs & Hsa & Hcell).
  pose proof (cr_core _ _ _ _ _ _ Hcell) as Hcore. rewrite Hl in Hcore. destruct (core_entry _ _ _ _ _ Hcore) as (e & He & Herep).
  destruct (push_pop n offset map m i arr ci R Harr Hrep Hb Hcnt Hlen j c s a x b e Hc Hs Hcell Hl He) as (Hpush & _ & Hat).
  destruct (er_list _ _ Herep) as [rc Hn]. destruct (nrep_chain _ _ _ Hn) as [Hf Hch]. pose proof (it_entry_at _ _ _ _ _ Hcore) as Hent. unfold it_entry in Hent.
  destruct (GetValue (sg_entries s) (node_of x)) as [v|] eqn:Ev; [|done]. cbn [mbind option_bind] in Hent. destruct (GetKey (sg_entries s) (node_of x)); [|done].
  cbn [mbind option_bind] in Hent. destruct (as_entry v) as [p|] eqn:Ep; [|done]. injection Hent as -> ->.
  unfold tr_open. rewrite Hpk, Hi, Ht. cbn [mbind option_bind]. fold j. rewrite Hs. cbn [mbind option_bind]. unfold pk_entry, it_GetValue. cbn [mbind option_bind]. rewrite Ev.
  cbn [mbind option_bind]. rewrite (sc_ts _ _ _ Hcore), decide_False by lia. rewrite Ep. cbn [mbind option_bind]. rewrite He. cbn [mbind option_bind]. rewrite Hpush. cbn [mbind option_bind].
  rewrite Hf. cbn [mbind option_bind]. eexists _, _, _, _. split; [reflexivity|]. split; [|split; [done|split; [intros idx; unfold shown; apply row_done_spec; by apply nrep_nodes|done]]].
  split; cbn; try done; [by exists c, a, b|]. exists s, e, rc. split_and!; try done. by apply nrep_nodes.
Qed.

Abbreviation seg_facts := (walk_seg n offset map m i arr ci R Harr Hrep Hb Hcnt Hlen).

Lemma skip_cons x ks : skip_expired (x :: ks) = if decide (shown 1 (rows_of x) = []) then skip_expired ks else x :: ks.
Proof. done. Qed.

(** The iterator is about to leave the segment [tr_seg_idx r]'s key; the keys
    [rest] come next. *)
Record poised (rest : list keyed) (mc : MemTable) (r : TraverseIt) : Prop := {
  po_pop : ticket_pop mc (tr_ticket r) = Some (m, []);
  po_inner : tr_inner r = i;
  po_ttl : tr_expire_value r = ttl;
  po_seg : (tr_seg_idx r < length ci)%nat;
  po_blocks : mt_blocks mc = mt_blocks m;
  po_pk : (exists c a x b, ci !! tr_seg_idx r = Some c /\ ce_live c = a ++ x :: b /\ tr_pk_it r = Some (Some (node_of x)) /\ rest = b ++ index_live (drop (S (tr_seg_idx r)) ci)) \/
          (tr_pk_it r = Some None /\ rest = index_live (drop (S (tr_seg_idx r)) ci))
}.

(** The part of the loop that opens the key [x] it moved to *)
Lemma visit_key fuel x rest r w : (forall mc r', poised rest mc r' -> tr_seg_idx r' = tr_seg_idx r -> 0 <= tr_traverse_cnt r' -> tr_traverse_cnt r' + Z.of_nat (weight rest) <= Z.of_nat w ->
    exists mc' r'', tr_NextPK_loop fuel mc r' = Some (mc', r'') /\ landed (skip_expired rest) w mc' r'') ->
  tr_inner r = i -> tr_ticket r = [] -> tr_pk_it r = Some (Some (node_of x)) -> tr_expire_value r = ttl ->
  (exists c a b, ci !! tr_seg_idx r = Some c /\ ce_live c = a ++ x :: b /\ rest = b ++ index_live (drop (S (tr_seg_idx r)) ci)) ->
  0 <= tr_traverse_cnt r -> tr_traverse_cnt r + Z.of_nat (weight (x :: rest)) <= Z.of_nat w -> Z.of_nat w < FLAGS_max_traverse_cnt < 2 ^ 32 ->
  exists mc' r', ('(m, r, l, n) ← tr_open m r 0;
        let r := set_tr_row (tr_it r) 1 (u64 (tr_traverse_cnt r + 1)) r in
        if decide (FLAGS_max_traverse_cnt <= tr_traverse_cnt r) then Some (m, r)
        else done ← row_done l (tr_expire_value r) n (tr_record_idx r);
             if (done : bool) then tr_NextPK_loop fuel m r else Some (m, r)) = Some (mc', r') /\ landed (skip_expired (x :: rest)) w mc' r'.
Proof using All.
  intros IH Hi Ht Hpk Httl (c & a & b & Hc & Hl & ->) H0w Hw Hmax.
  destruct (tr_open_at r x a b c 0 Hi Ht Hpk Httl Hc Hl) as (mc & r1 & l & first & -> & Hsd & Hr1 & Hdone & Hit). cbn [mbind option_bind].
  assert (tr_traverse_cnt r1 = tr_traverse_cnt r /\ tr_seg_idx r1 = tr_seg_idx r) as [Ec Ej] by (rewrite Hr1; done). rewrite Ec.
  change (weight (x :: ?ks)) with (S (length (rows_of x)) + weight ks)%nat in Hw.
  rewrite (uwrap_id 64) by (unfold in_uint; lia). cbn [tr_traverse_cnt set_tr_row tr_expire_value tr_record_idx]. rewrite decide_False by lia.
  rewrite (sd_ttl _ _ _ _ _ Hsd), (Hdone 1). cbn [mbind option_bind]. rewrite skip_cons. set (r2 := set_tr_row (tr_it r1) 1 (tr_traverse_cnt r + 1) r1).
  assert (Hsd2 : standing x (b ++ index_live (drop (S (tr_seg_idx r)) ci)) (rows_of x) mc r2) by (destruct Hsd; by split).
  destruct (decide (shown 1 (rows_of x) = [])) as [Hnone|Hsome].
  - rewrite bool_decide_true by done. cbn beta iota. apply IH; [|done|cbn; lia|cbn; lia]. destruct Hsd2 as [S1 (s & e & rc & Hs & He & _ & _ & _ & Hmc) _ S4 S5 S6 S7].
    split; try done.
    + rewrite S5, Hmc. cbn [tr_seg_idx r2 set_tr_row]. destruct (seg_facts _ _ Hc) as (s' & Hs' & _ & Hcell). cbn in Hs. rewrite Ej in *. rewrite Hs in Hs'. injection Hs' as <-.
      by apply (push_pop n offset map m i arr ci R Harr Hrep Hb Hcnt Hlen (tr_seg_idx r) c s a x b e Hc Hs Hcell Hl He).
    + cbn. rewrite Ej. by eapply lookup_lt_Some.
    + by rewrite Hmc.
    + left. exists c, a, x, b. cbn. rewrite Ej. by split_and!.
  - rewrite bool_decide_false by done. cbn beta iota. exists mc, r2. split; [done|]. split; [done|]. split; [done|]. cbn. split; [lia|lia].
Qed.

Lemma NextPK_loop_spec w : Z.of_nat w < FLAGS_max_traverse_cnt < 2 ^ 32 -> forall fuel rest mc r, poised rest mc r -> 0 <= tr_traverse_cnt r ->
  tr_traverse_cnt r + Z.of_nat (weight rest) <= Z.of_nat w -> (length rest + (length ci - tr_seg_idx r) <= fuel)%nat ->
  exists mc' r', tr_NextPK_loop fuel mc r = Some (mc', r') /\ landed (skip_expired rest) w mc' r'.
Proof using All.
  intros Hmax. induction fuel as [|fuel IH]; intros rest mc r Hp H0w Hw Hf; [pose proof (po_seg _ _ _ Hp); lia|].
  destruct Hp as [P1 P2 P3 P4 P5 P6]. cbn [tr_NextPK_loop]. rewrite P1. cbn [mbind option_bind].
  destruct (lookup_lt_is_Some_2 _ _ P4) as [c Hc]. destruct (seg_facts _ _ Hc) as (s & Hs & _ & Hcell). rewrite P2.
  assert (Hout : forall pk, (it_Valid pk = false) -> rest = index_live (drop (S (tr_seg_idx r)) ci) -> exists mc' r', match seg_at m i (S (tr_seg_idx r)) with
      | None => Some (m, set_tr_key (S (tr_seg_idx r)) None (tr_it r) [] r)
      | Some s =>
          pk ← it_SeekToFirst (sg_entries s);
          let r := set_tr_key (S (tr_seg_idx r)) (Some pk) (tr_it r) [] r in
          if it_Valid pk then
            '(m, r, l, n) ← tr_open m r 0;
            let r := set_tr_row (tr_it r) 1 (u64 (tr_traverse_cnt r + 1)) r in
            if decide (FLAGS_max_traverse_cnt <= tr_traverse_cnt r) then Some (m, r)
            else done ← row_done l (tr_expire_value r) n (tr_record_idx r);
                 if (done : bool) then tr_NextPK_loop fuel m r else Some (m, r)
          else tr_NextPK_loop fuel m r
      end = Some (mc', r') /\ landed (skip_expired rest) w mc' r').
  { intros _ _ Hrest. destruct (ci !! S (tr_seg_idx r)) as [c'|] eqn:Ec'.
    - destruct (seg_facts _ _ Ec') as (s' & -> & _ & Hcell'). rewrite (cell_first _ _ _ _ _ _ Hcell'). cbn [mbind option_bind].
      rewrite (drop_S _ _ _ Ec') in Hrest. unfold index_live in Hrest. rewrite bind_cons in Hrest. fold (index_live (drop (S (S (tr_seg_idx r))) ci)) in Hrest.
      destruct (ce_live c') as [|x live] eqn:El; rewrite Hrest in *.
      + apply IH; try done; [|cbn; apply lookup_lt_Some in Ec'; cbn in *; lia]. split; try done; [cbn; by eapply lookup_lt_Some|by right].
      + apply visit_key; try done; [|by exists c', [], live]. intros mc1 r1 Hp1 Hj1 Hn1 Hw1. apply IH; try done. rewrite Hj1. cbn [tr_seg_idx set_tr_key length] in *. rewrite ?length_app in Hf |- *. cbn [length] in *. lia.
    - rewrite drop_ge in Hrest by (by apply lookup_ge_None). rewrite Hrest. assert (seg_at m i (S (tr_seg_idx r)) = None) as ->; [|by eexists _, _].
      unfold seg_at. unfold seg_arr in Harr. rewrite Harr. cbn. apply lookup_ge_None. rewrite (arr_rep_length _ _ _ _ _ _ Hrep). by apply lookup_ge_None. }
  destruct P6 as [(c' & a & x & b & Hc' & Hl & Hpk & Hrest)|[Hpk Hrest]].
  - rewrite Hc in Hc'. injection Hc' as <-. rewrite Hpk. cbn [mbind option_bind]. rewrite Hs. cbn [mbind option_bind]. change (it_Valid (Some (node_of x))) with true. cbn beta iota.
    pose proof (cr_core _ _ _ _ _ _ Hcell) as Hcore. rewrite Hl in Hcore. rewrite (it_next_at _ _ _ _ _ Hcore). cbn [mbind option_bind].
    destruct b as [|y b]; [by apply (Hout None)|]. cbn [fmap list_fmap head]. change (it_Valid (Some (node_of y))) with true. cbn beta iota. rewrite Hrest in *.
    apply visit_key; try done; [|by exists c, (a ++ [x]), b; rewrite <- app_assoc]. intros mc1 r1 Hp1 Hj1 Hn1 Hw1. apply IH; try done. rewrite Hj1. cbn [tr_seg_idx set_tr_key length] in *. rewrite ?length_app in Hf |- *. cbn [length] in *. lia.
  - rewrite Hpk. cbn [mbind option_bind]. rewrite Hs. cbn [mbind option_bind]. change (it_Valid None) with false. cbn [mbind option_bind]. by apply (Hout None).
Qed.

(** ** Moving on *)
Lemma standing_seg x rest rows mc r : standing x rest rows mc r -> exists s e c a b rc, seg_at m i (tr_seg_idx r) = Some s /\ deref s (id_of x) = Some e /\
  ci !! tr_seg_idx r = Some c /\ ce_live c = a ++ x :: b /\ cell_rep n offset map (tr_seg_idx r) s c /\ rest = b ++ index_live (drop (S (tr_seg_idx r)) ci) /\
  chain (entries e) rc /\ nodes (entries e) rc (node_row <$> rows) /\ tr_it r = Some (tr_seg_idx r, id_of x, head rc) /\
  mc = set_seg m i (tr_seg_idx r) (set_entry (id_of x) (Ref e) s) /\ seg_at mc i (tr_seg_idx r) = Some (set_entry (id_of x) (Ref e) s) /\
  tr_list mc r (tr_seg_idx r) (id_of x) = Some (entries e).
Proof using All.
  intros [(c & a & b & Hc & Hl & Hr) (s & e & rc & Hs & He & Hch & Hn & Hit & Hmc) _ _ _ Hi _]. destruct (seg_facts _ _ Hc) as (s' & Hs' & _ & Hcell). rewrite Hs in Hs'. injection Hs' as <-.
  assert (Hat : seg_at mc i (tr_seg_idx r) = Some (set_entry (id_of x) (Ref e) s)) by (rewrite Hmc; by eapply seg_at_set).
  exists s, e, c, a, b, rc. split_and!; try done. unfold tr_list. rewrite Hi, Hat. cbn [mbind option_bind]. by rewrite deref_set_entry.
Qed.

Lemma standing_poised x rest rows mc r : standing x rest rows mc r -> poised rest mc r.
Proof using All.
  intros Hs. destruct (standing_seg _ _ _ _ _ Hs) as (s & e & c & a & b & rc & Hat & He & Hc & Hl & Hcell & Hr & _ & _ & _ & Hmc & _). destruct Hs as [_ _ _ S4 S5 S6 S7]. split; try done.
  - rewrite S5, Hmc. by apply (push_pop n offset map m i arr ci R Harr Hrep Hb Hcnt Hlen (tr_seg_idx r) c s a x b e Hc Hat Hcell Hl He).
  - by eapply lookup_lt_Some.
  - by rewrite Hmc.
  - left. by exists c, a, x, b.
Qed.

(** Enough rounds *)
Lemma fuel_arr arr0 : forall j ci0, arr_rep n offset map j arr0 ci0 -> (length (index_live ci0) + length ci0 <= list_sum ((fun s => S (size (heap (sg_entries s)))) <$> arr0))%nat.
Proof.
  induction arr0 as [|s arr0 IH]; intros j [|c ci0] Hr; try done. destruct Hr as [Hc Hr]. specialize (IH _ _ Hr). unfold index_live. rewrite bind_cons, length_app.
  fold (index_live ci0). pose proof (nrep_size _ _ _ (nrep_full_nrep _ _ _ (sc_keys _ _ _ (cr_core _ _ _ _ _ _ Hc)))) as Hsz. rewrite length_fmap in Hsz.
  rewrite fmap_cons. unfold list_sum in *. cbn [foldr length]. lia.
Qed.

Lemma fuel_enough x rest rows mc r : standing x rest rows mc r -> (length rest + (length ci - tr_seg_idx r) <= tr_fuel mc i)%nat.
Proof using All.
  intros Hs. destruct (standing_seg _ _ _ _ _ Hs) as (s & e & c & a & b & rc & Hat & He & Hc & Hl & Hcell & Hr & _ & _ & _ & Hmc & _).
  assert (Hlen2 : (length rest <= length (index_live ci))%nat).
  { assert (index_live ci = index_live (take (tr_seg_idx r) ci) ++ ce_live c ++ index_live (drop (S (tr_seg_idx r)) ci)) as ->.
    { rewrite <- (take_drop_middle ci _ _ Hc) at 1. unfold index_live. by rewrite bind_app, bind_cons. }
    rewrite Hr, Hl, !length_app. cbn [length]. lia. }
  assert (Hf : tr_fuel mc i = tr_fuel m i).
  { assert (Hmap : (fun s => S (size (heap (sg_entries s)))) <$> alter (fun _ => set_entry (id_of x) (Ref e) s) (tr_seg_idx r) arr = (fun s => S (size (heap (sg_entries s)))) <$> arr).
    { apply list_eq. intros k. rewrite !list_lookup_fmap. destruct (decide (k = tr_seg_idx r)) as [->|Hne]; [|by rewrite list_lookup_alter_ne].
      rewrite list_lookup_alter_eq. destruct (seg_facts _ _ Hc) as (s' & Hs' & Hsa & _). rewrite Hat in Hs'. injection Hs' as <-. by rewrite Hsa. }
    unfold tr_fuel. rewrite Harr. assert (seg_arr mc i = Some (alter (fun _ => set_entry (id_of x) (Ref e) s) (tr_seg_idx r) arr)) as ->; [|cbn [default from_option id]; by rewrite Hmap].
    rewrite Hmc. unfold seg_arr. cbn [segments_ set_seg set_segments]. rewrite list_lookup_alter_eq. pose proof Harr as Ha. unfold seg_arr in Ha.
    destruct (segments_ m !! i) as [[arr'|]|]; try done. cbn in Ha |- *. by injection Ha as ->. }
  rewrite Hf. unfold tr_fuel. rewrite Harr. cbn [default from_option id]. pose proof (fuel_arr _ _ _ Hrep). unfold list_sum in *. lia.
Qed.

Section bounded.
Context w (Hmax : Z.of_nat w < FLAGS_max_traverse_cnt < 2 ^ 32).

Lemma NextPK_spec x rest rows mc r : standing x rest rows mc r -> 0 <= tr_traverse_cnt r -> tr_traverse_cnt r + Z.of_nat (weight rest) <= Z.of_nat w ->
  exists mc' r', tr_NextPK mc r = Some (mc', r') /\ landed (skip_expired rest) w mc' r'.
Proof using All.
  intros Hs H0w Hw. unfold tr_NextPK. rewrite (sd_inner _ _ _ _ _ Hs). apply NextPK_loop_spec; try done; [|exact (fuel_enough _ _ _ _ _ Hs)].
  pose proof (standing_poised _ _ _ _ _ Hs) as [P1 P2 P3 P4 P5 P6]. by split.
Qed.

(** What a reader sees at a row *)
Lemma standing_row x rest r0 rows mc r : standing x rest (r0 :: rows) mc r ->
  tr_GetPK mc r = Some x.1 /\ tr_GetKey mc r = Some r0.1.1 /\ tr_GetValue mc r = Some (row_view (mt_blocks m) r0).2.
Proof using All.
  intros Hs. destruct (standing_seg _ _ _ _ _ Hs) as (s & e & c & a & b & rc & Hat & He & Hc & Hl & Hcell & Hr & Hch & Hn & Hit & Hmc & Hat' & Hlist).
  destruct rc as [|q rc]; [by inversion Hn|]. apply Forall2_cons in Hn as [Hq Hn]. pose proof (sd_suffix _ _ _ _ _ Hs) as [pre Hpre].
  assert (is_Some (mt_blocks m !! r0.1.2)) as [blk Hblk].
  { destruct (bind_insert_perm cell_blocks ci _ c Hc) as (rest' & Hp & _). rewrite Hp, <- app_assoc in Hb. eapply cell_rows; [exact Hcell|exact Hb|rewrite Hl; apply elem_of_app_cons|].
    rewrite Hpre. apply elem_of_app_cons. }
  assert (Eb : mt_blocks mc = mt_blocks m) by (by rewrite Hmc). split_and!.
  - unfold tr_GetPK. rewrite (sd_pk _ _ _ _ _ Hs), (sd_inner _ _ _ _ _ Hs), Hat'. cbn [mbind option_bind]. pose proof (cr_core _ _ _ _ _ _ Hcell) as Hcore. rewrite Hl in Hcore.
    pose proof (ow_info _ _ (sc_owned _ _ _ Hcore)) as Hi. rewrite Forall_forall in Hi. unfold it_GetKey. cbn [mbind option_bind]. change (sg_entries (set_entry _ _ s)) with (sg_entries s).
    rewrite GetKey_info, (Hi x) by (apply elem_of_app; left; apply elem_of_app_cons). done.
  - unfold tr_GetKey. rewrite Hit. change (it_Valid (head (q :: rc))) with true. cbn beta iota. rewrite Hlist. cbn [mbind option_bind head it_GetKey]. rewrite GetKey_info, Hq. done.
  - unfold tr_GetValue. rewrite Hit. cbn [mbind option_bind]. rewrite Hlist. cbn [mbind option_bind head it_GetValue]. rewrite GetValue_info, Hq. cbn. rewrite Eb.
    unfold row_view. by rewrite Hblk.
Qed.

Lemma standing_valid x rest rows mc r : standing x rest rows mc r -> tr_Valid mc r = Some (negb (bool_decide (shown (tr_record_idx r) rows = []))).
Proof using All.
  intros Hs. destruct (standing_seg _ _ _ _ _ Hs) as (s & e & c & a & b & rc & _ & _ & _ & _ & _ & _ & _ & Hn & Hit & _ & _ & Hlist).
  unfold tr_Valid. rewrite (sd_pk _ _ _ _ _ Hs), Hit. change (it_Valid (Some (node_of x))) with true. cbn beta iota. rewrite Hlist. cbn [mbind option_bind].
  rewrite (sd_ttl _ _ _ _ _ Hs), (row_done_spec _ (mt_blocks m) _ _ _ _ Hn). done.
Qed.

Lemma Next_spec x rest r0 rows mc r : standing x rest (r0 :: rows) mc r -> 0 <= tr_record_idx r -> 0 <= tr_traverse_cnt r ->
  tr_record_idx r + Z.of_nat (length rows) < 2 ^ 32 - 1 -> tr_traverse_cnt r + Z.of_nat (length (r0 :: rows) + weight rest) <= Z.of_nat w ->
  exists mc' r', tr_Next mc r = Some (mc', r') /\
    if decide (shown (tr_record_idx r + 1) rows = []) then landed (skip_expired rest) w mc' r'
    else standing x rest rows mc' r' /\ tr_record_idx r' = tr_record_idx r + 1 /\ tr_traverse_cnt r' = tr_traverse_cnt r + 1.
Proof using All.
  intros Hs Hi0 H0w Hidx Hw. destruct (standing_seg _ _ _ _ _ Hs) as (s & e & c & a & b & rc & Hat & He & Hc & Hl & Hcell & Hr & Hch & Hn & Hit & Hmc & Hat' & Hlist).
  destruct rc as [|q rc]; [by inversion Hn|]. apply Forall2_cons in Hn as [_ Hn]. apply chain_cons in Hch as [Hnx Hch]. cbn [length] in Hw.
  unfold tr_Next. rewrite Hit. cbn [mbind option_bind]. rewrite Hlist. cbn [mbind option_bind head it_Next]. rewrite Hnx. cbn [mbind option_bind].
  rewrite (uwrap_id 32), (uwrap_id 64) by (unfold in_uint; lia). set (r1 := set_tr_row _ _ _ r).
  assert (Hs1 : standing x rest rows mc r1).
  { destruct Hs as [S1 _ [pre Hpre] S4 S5 S6 S7]. split; try done; [|exists (pre ++ [r0]); by rewrite <- app_assoc]. exists s, e, rc. by split_and!. }
  change (tr_expire_value r1) with (tr_expire_value r). rewrite (sd_ttl _ _ _ _ _ Hs), (row_done_spec _ (mt_blocks m) _ _ _ _ Hn). cbn [mbind option_bind].
  change (tr_record_idx r1) with (tr_record_idx r + 1). unfold shown. case_decide as Hd.
  - rewrite bool_decide_true by done. cbn beta iota. eapply NextPK_spec; [exact Hs1|cbn; lia|cbn; lia].
  - rewrite bool_decide_false by done. by exists mc, r1.
Qed.

(** ** Walking from a row, and from a key *)
Definition flat (ks : list keyed) : list (bytes * rowv) := ks ≫= fun x => pair x.1 <$> shown 1 (rows_of x).

Lemma flat_skip ks : flat (skip_expired ks) = flat ks.
Proof. induction ks as [|x ks IH]; [done|]. rewrite skip_cons. case_decide as Hd; [|done]. rewrite IH. unfold flat at 2. rewrite bind_cons, Hd. done. Qed.
Lemma weight_skip ks : (weight (skip_expired ks) <= weight ks)%nat.
Proof. induction ks as [|x ks IH]; [done|]. rewrite skip_cons. case_decide; [|done]. change (weight (x :: ks)) with (S (length (rows_of x)) + weight ks)%nat. lia. Qed.
Lemma skip_head ks x rest : skip_expired ks = x :: rest -> shown 1 (rows_of x) <> [].
Proof. induction ks as [|y ks IH]; [done|]. rewrite skip_cons. case_decide as Hd; [done|]. by intros [= -> _]. Qed.

Lemma collect_spec k : forall x rest rows mc r fuel, (length rows + weight rest <= k)%nat -> standing x rest rows mc r -> shown (tr_record_idx r) rows <> [] ->
  0 <= tr_record_idx r -> 0 <= tr_traverse_cnt r -> tr_record_idx r + Z.of_nat (length rows) <= 2 ^ 32 - 1 ->
  tr_traverse_cnt r + Z.of_nat (length rows + weight rest) <= Z.of_nat w -> (length rows + weight rest <= fuel)%nat ->
  tr_collect fuel mc r = Some ((pair x.1 <$> shown (tr_record_idx r) rows) ++ flat rest, m).
Proof using All.
  induction k as [|k IH]; intros x rest rows mc r fuel Hk Hs Hne Hi0 H0w Hidx Hw Hf; [destruct rows; cbn in *; [done|lia]|].
  destruct rows as [|r0 rows]; [done|]. cbn [length] in *. destruct fuel as [|fuel]; [lia|]. cbn [tr_collect].
  rewrite (standing_valid _ _ _ _ _ Hs), bool_decide_false by done. cbn [mbind option_bind negb]. destruct (standing_row _ _ _ _ _ _ Hs) as (-> & -> & ->). cbn [mbind option_bind].
  destruct (Next_spec _ _ _ _ _ _ Hs Hi0 H0w ltac:(lia) ltac:(cbn [length]; lia)) as (mc1 & r1 & -> & Hn). cbn [mbind option_bind].
  assert (Hcons : shown (tr_record_idx r) (r0 :: rows) = row_view (mt_blocks m) r0 :: shown (tr_record_idx r + 1) rows).
  { unfold shown in *. rewrite fmap_cons in *. cbn [visible] in *. by destruct (IsExpired ttl (row_view (mt_blocks m) r0).1 (tr_record_idx r)). }
  rewrite Hcons, fmap_cons. change (r0.1.1, (row_view (mt_blocks m) r0).2) with (row_view (mt_blocks m) r0). case_decide as Hd.
  - rewrite Hd. cbn [fmap list_fmap app]. rewrite <- (flat_skip rest). pose proof (weight_skip rest) as Hws. destruct (skip_expired rest) as [|y rest'] eqn:Esk.
    + destruct Hn as (-> & Hpk & _). destruct fuel; cbn [tr_collect]; unfold tr_Valid; rewrite Hpk; done.
    + destruct Hn as (Hs1 & Hidx1 & H01 & Hw1). change (weight (y :: rest')) with (S (length (rows_of y)) + weight rest')%nat in Hws.
      rewrite (IH y rest' (rows_of y) mc1 r1 fuel); rewrite ?Hidx1; try done; try lia. by eapply skip_head.
  - destruct Hn as (Hs1 & Hidx1 & Hc1). rewrite (IH x rest rows mc1 r1 fuel); rewrite ?Hidx1, ?Hc1; try done; lia.
Qed.

(** ** The first row *)

(** A new iterator, or one whose segments so far had nothing to show *)
Record opening (ks : list keyed) (r : TraverseIt) : Prop := {
  op_inner : tr_inner r = i;
  op_ticket : tr_ticket r = [];
  op_ttl : tr_expire_value r = ttl;
  op_idx : tr_record_idx r = 0;
  op_pos : 0 <= tr_traverse_cnt r;
  op_cnt : tr_traverse_cnt r + Z.of_nat (weight ks) <= Z.of_nat w
}.

Lemma first_key_spec c j : ci !! j = Some c -> forall todo a fuel r, opening (todo ++ index_live (drop (S j) ci)) r -> ce_live c = a ++ todo -> tr_seg_idx r = j ->
  tr_pk_it r = Some (head (node_of <$> todo)) -> (length todo <= fuel)%nat ->
  exists b mc r', tr_first_key fuel m r = Some (b, mc, r') /\
    if (b : bool) then landed (skip_expired (todo ++ index_live (drop (S j) ci))) w mc r'
    else mc = m /\ opening (index_live (drop (S j) ci)) r' /\ skip_expired (todo ++ index_live (drop (S j) ci)) = skip_expired (index_live (drop (S j) ci)).
Proof using All.
  intros Hc. induction todo as [|x todo IH]; intros a fuel r Ho Hl Hj Hpk Hf.
  { exists false, m, r. split; [|done]. destruct fuel; cbn [tr_first_key]; rewrite Hpk; done. }
  destruct fuel as [|fuel]; [cbn in Hf; lia|]. cbn [tr_first_key]. rewrite Hpk. cbn [fmap list_fmap head mbind option_bind]. change (it_Valid (Some (node_of x))) with true. cbn beta iota.
  destruct Ho as [O1 O2 O3 O4 O5 O6]. destruct (seg_facts _ _ Hc) as (s & Hs & _ & Hcell). rewrite O1, Hj, Hs. cbn [mbind option_bind]. rewrite <- Hj in Hc.
  destruct (tr_open_at r x a todo c (tr_ts_idx r) O1 O2 Hpk O3 Hc Hl) as (mc & r1 & l & first & -> & Hsd & Hr1 & Hdone & Hit). cbn [mbind option_bind].
  assert (tr_traverse_cnt r1 = tr_traverse_cnt r /\ tr_seg_idx r1 = j /\ tr_record_idx r1 = 0 /\ tr_inner r1 = i /\ tr_expire_value r1 = ttl) as (Ec & Ej & Ei & En & Et)
    by (rewrite Hr1; cbn; by rewrite O1, O3, O4).
  rewrite Ec. cbn [app] in O6 |- *. change (weight (x :: ?ks)) with (S (length (rows_of x)) + weight ks)%nat in O6. rewrite (uwrap_id 64) by (unfold in_uint; lia).
  cbn [tr_expire_value tr_record_idx set_tr_row]. rewrite Et, Ei, (Hdone 0). cbn [mbind option_bind]. rewrite skip_cons.
  assert (Hz : shown 0 (rows_of x) = [] <-> shown 1 (rows_of x) = []) by (by apply visible_first). rewrite Hj in Hsd. destruct (decide (shown 1 (rows_of x) = [])) as [Hnone|Hsome].
  - rewrite (bool_decide_true (shown 0 _ = [])) by (by apply Hz). cbn [negb]. pose proof (cr_core _ _ _ _ _ _ Hcell) as Hcore. rewrite Hl in Hcore. rewrite (it_next_at _ _ _ _ _ Hcore).
    cbn [mbind option_bind]. cbn [tr_ticket set_tr_row]. pose proof (po_pop _ _ _ (standing_poised _ _ _ _ _ Hsd)) as Hpop. rewrite Hpop. cbn [mbind option_bind].
    cbn [tr_traverse_cnt set_tr_key set_tr_row]. rewrite decide_False by lia. apply (IH (a ++ [x])); try done; [|by rewrite <- app_assoc|cbn in Hf; lia].
    split; cbn; try done; lia.
  - rewrite (bool_decide_false (shown 0 _ = [])) by (intros E; by apply Hsome, Hz). cbn [negb]. eexists true, mc, _. split; [reflexivity|]. cbn.
    split; [destruct Hsd; by split|]. split; [done|]. split; lia.
Qed.

Lemma first_seg_spec k : forall j r, (j + k = length ci)%nat -> opening (index_live (drop j ci)) r ->
  exists mc r', tr_first_seg k j m r = Some (mc, r') /\ landed (skip_expired (index_live (drop j ci))) w mc r'.
Proof using All.
  induction k as [|k IH]; intros j r Hk Ho.
  - cbn [tr_first_seg]. rewrite drop_ge by lia. eexists _, _. split; [reflexivity|]. split_and!; try done. apply Ho.
  - destruct (lookup_lt_is_Some_2 ci j ltac:(lia)) as [c Hc]. destruct (seg_facts _ _ Hc) as (s & Hs & _ & Hcell). cbn [tr_first_seg]. rewrite (op_inner _ _ Ho), Hs. cbn [mbind option_bind].
    rewrite (cell_first _ _ _ _ _ _ Hcell). cbn [mbind option_bind]. pose proof (nrep_size _ _ _ (nrep_full_nrep _ _ _ (sc_keys _ _ _ (cr_core _ _ _ _ _ _ Hcell)))) as Hsz.
    rewrite length_fmap in Hsz. rewrite (drop_S _ _ _ Hc) in Ho |- *. unfold index_live in Ho |- *. rewrite bind_cons in Ho |- *. fold (index_live (drop (S j) ci)) in Ho |- *.
    destruct (first_key_spec c j Hc (ce_live c) [] (size (heap (sg_entries s))) (set_tr_key j (Some (head (node_of <$> ce_live c))) None (tr_ticket r) r)) as (b & mc & r' & -> & Hres);
      try done; [destruct Ho; by split|lia|]. cbn [mbind option_bind]. destruct b; [by exists mc, r'|]. destruct Hres as (-> & Ho' & ->). apply IH; [lia|done].
Qed.

Lemma traverse_all r fuel : opening (index_live ci) r -> (weight (index_live ci) <= fuel)%nat ->
  exists mc r', tr_SeekToFirst m r = Some (mc, r') /\ tr_collect fuel mc r' = Some (flat (index_live ci), m).
Proof using All.
  intros Ho Hf. unfold tr_SeekToFirst. rewrite (op_ticket _ _ Ho). cbn [ticket_pop mbind option_bind]. rewrite Hcnt, <- Hlen.
  destruct (first_seg_spec (length ci) 0 (set_tr_key 0 None None [] r)) as (mc & r' & E & Hres); [done|rewrite drop_0; destruct Ho; by split|]. rewrite drop_0 in Hres.
  exists mc, r'. split; [done|]. rewrite <- (flat_skip (index_live ci)). pose proof (weight_skip (index_live ci)) as Hws. pose proof (op_cnt _ _ Ho). pose proof (op_pos _ _ Ho).
  destruct (skip_expired (index_live ci)) as [|x rest] eqn:Esk.
  - destruct Hres as (-> & Hpk & _). destruct fuel; cbn [tr_collect]; unfold tr_Valid; rewrite Hpk; done.
  - destruct Hres as (Hs & Hidx & H0c & Hw). change (weight (x :: rest)) with (S (length (rows_of x)) + weight rest)%nat in Hws.
    rewrite (collect_spec _ x rest (rows_of x) mc r' fuel (le_n _) Hs); rewrite ?Hidx; try done; try lia. by eapply skip_head.
Qed.
End bounded.
End walk.
End traverse.
