(* ===== verification/MemTableOpen.v ===== *)
(** Walking an index of a represented table with the iterators that
    [NewTraverseIterator] and [NewWindowIterator] open. *)
From S2P Require Import Prelude Slice Random Skiplist SkiplistInv SkiplistInsert SkiplistSplit SkiplistSpec SkiplistNodes Segment SegmentGc.
From S2P Require Import SegmentRelease SegmentInv SegmentGcInv SegmentOps SegmentRefine SegmentClaims StdMap Hash TableIndex TableParse Table.
From S2P Require Import MemTable MemTableGc MemTableIter MemTableInv TableParseThms MemTableOps MemTablePut MemTableSched MemTableVisible.
From S2P Require Import MemTableIterThms MemTableTraverse.

(** The TTL an iterator opened at [micros] expires rows by *)
Definition table_ttl (gc : bool) (micros : Z) (ttl : TTLSt) : TTLSt :=
  if gc then reader_ttl (micros / 1000) ttl else MkTTLSt 0 0 (ttl_type ttl).

(** All keys of an index with what [ttl] shows of their rows, the first row
    being number [idx] *)
Definition shown_keys (ttl : TTLSt) (idx : Z) (m : content) : list (bytes * list rowv) :=
  (fun kv => (kv.1, visible_rows ttl idx kv.2)) <$> map_to_list m.
Definition shown_rows (ttl : TTLSt) (idx : Z) (m : content) : list (bytes * rowv) :=
  map_to_list m ≫= fun kv => pair kv.1 <$> visible_rows ttl idx kv.2.
(** Keys and rows *)
Definition content_size (m : content) : nat := size m + content_rows m.

Section open.
Context `{SmallLayout} `{TableFlags}.

Lemma expire_ttl m micros ttl : MkTTLSt (expire_of m micros ttl).1 (expire_of m micros ttl).2 (ttl_type ttl) = table_ttl (enable_gc_ m) micros ttl.
Proof.
  unfold expire_of, table_ttl, reader_ttl, GetExpireTime. destruct (enable_gc_ m); [|done]. cbn. f_equal.
  destruct (bool_decide (abs_ttl ttl = 0)) eqn:E1; destruct (bool_decide (ttl_type ttl = kLatestTime)) eqn:E2; cbn;
    apply bool_decide_eq_true in E1 || apply bool_decide_eq_false in E1; apply bool_decide_eq_true in E2 || apply bool_decide_eq_false in E2; case_decide; (done || tauto).
Qed.

Section table.
Context n offset m a cs (Ht : tab_rep n offset m a cs []) (Hn : 1 <= n).

(** The segments of an index *)
Lemma index_segments i d : at_defs a !! i = Some d -> exists ci arr R c, seg_arr m i = Some arr /\ arr_rep n offset (def_map d) 0 arr ci /\
  blocks_rep (mt_blocks m) ((ci ≫= cell_blocks) ++ R) /\ length ci = Z.to_nat n /\ at_content a !! i = Some c /\ (forall key, c !! key = index_view (mt_blocks m) n ci key) /\
  is_Some (seg_at m i 0).
Proof using All.
  intros Hd. destruct (segs_rep_at _ _ _ _ _ _ _ (tb_segs _ _ _ _ _ _ Ht) Hd) as (ci & arr & Hci & Hl & Harr & Hrep).
  destruct (contents_at _ _ _ _ _ _ (tb_contents _ _ _ _ _ _ Ht) Hci) as (c & Hc & Hv). destruct (cells_blocks_alter _ _ _ Hci) as (rest & P1 & _).
  pose proof (tb_blocks _ _ _ _ _ _ Ht) as Hb. rewrite P1, <- app_assoc in Hb. exists ci, arr, (rest ++ []), c. unfold seg_arr, seg_at. rewrite Harr. split_and!; try done.
  cbn. apply lookup_lt_is_Some. rewrite (arr_rep_length _ _ _ _ _ _ Hrep). lia.
Qed.

Lemma GetIndex_ready i d : at_defs a !! i = Some d -> exists p, GetIndex (mt_index m) (Z.of_nat i) = Some p /\ def_at (mt_index m) p = Some d /\ IsReady d = true /\
  ready_index m (Some p) = Some (Some d) /\ def_ok i d /\ (forall col, ts_column_ d = Some col -> GetIndex_ts (mt_index m) (Z.of_nat i) (u32 (cd_ts_idx col)) = Some (Some p)).
Proof using All.
  intros Hd. pose proof (tb_index _ _ _ _ _ _ Ht) as Hx. destruct (ix_lookup _ _ _ _ Hx Hd) as (p & Hp & Hdef). pose proof (ix_ok _ _ Hx _ _ Hd) as Hok.
  assert (Hr : IsReady d = true) by (by apply bool_decide_true, Hok). exists p. rewrite (ix_GetIndex _ _ _ Hx), Nat2Z.id. split_and!; try done.
  - cbn. rewrite Hdef. cbn. by rewrite Hr.
  - intros col Hcol. destruct Hok as (_ & _ & _ & Hts). rewrite Hcol in Hts. unfold GetIndex_ts. rewrite (ix_multi _ _ Hx), Nat2Z.id, Hp. cbn [find_def]. rewrite Hdef.
    cbn [mbind option_bind]. unfold ts_is. rewrite Hcol. rewrite uwrap_id by (unfold in_uint; lia). rewrite (swrap_id 32) by (unfold in_sint; lia). by rewrite bool_decide_true.
Qed.

Lemma open_traverse i d ttl micros : at_defs a !! i = Some d -> ttl_st_ d = Some ttl ->
  exists pos, NewTraverseIterator m micros (Z.of_nat i) = Some (Some (MkTraverseIt i 0 None None 0 pos (table_ttl (at_gc a) micros ttl) [] 0)).
Proof using All.
  intros Hd Httl. destruct (GetIndex_ready i d Hd) as (p & Hp & _ & _ & Hr & (_ & Hpos & _) & Hts). destruct (index_segments i d Hd) as (ci & arr & R & c & _ & _ & _ & _ & _ & _ & [s Hs]).
  unfold NewTraverseIterator. rewrite Hp, Hr. cbn [mbind option_bind]. rewrite <- (tb_gc _ _ _ _ _ _ Ht), <- expire_ttl.
  assert (Hnew : forall ts, TraverseIt_new m (Z.to_nat (inner_pos_ d)) (ttl_type ttl) (expire_of m micros ttl).1 (expire_of m micros ttl).2 ts =
    Some (MkTraverseIt i 0 None None 0 (default 0%nat (GetTsIdx s ts)) (MkTTLSt (expire_of m micros ttl).1 (expire_of m micros ttl).2 (ttl_type ttl)) [] 0)).
  { intros ts. unfold TraverseIt_new, ts_pos. rewrite Hpos, Nat2Z.id, Hs. done. }
  destruct (ts_column_ d) as [col|] eqn:Ec.
  - exists (default 0%nat (GetTsIdx s (u32 (cd_ts_idx col)))). unfold NewTraverseIterator_ts. rewrite (Hts col eq_refl). cbn [mbind option_bind]. rewrite Hr. cbn [mbind option_bind].
    rewrite Httl. cbn [mbind option_bind]. rewrite (surjective_pairing (expire_of m micros ttl)), Hnew. done.
  - exists (default 0%nat (GetTsIdx s 0)). rewrite Httl. cbn [mbind option_bind]. rewrite (surjective_pairing (expire_of m micros ttl)), Hnew. done.
Qed.

Lemma open_window i d ttl micros : at_defs a !! i = Some d -> ttl_st_ d = Some ttl ->
  exists pos, NewWindowIterator m micros (Z.of_nat i) = Some (Some (MkKeyIt i 0 None (ttl_type ttl) (expire_of m micros ttl).1 (expire_of m micros ttl).2 [] pos)).
Proof using All.
  intros Hd Httl. destruct (GetIndex_ready i d Hd) as (p & Hp & Hdef & Hrd & Hr & (_ & Hpos & _) & Hts). destruct (index_segments i d Hd) as (ci & arr & R & c & _ & _ & _ & _ & _ & _ & [s Hs]).
  unfold NewWindowIterator. rewrite Hp. cbn [mbind option_bind]. rewrite Hdef. cbn [mbind option_bind]. rewrite Hrd.
  assert (Hnew : forall ts, KeyIt_new m (Z.to_nat (inner_pos_ d)) (ttl_type ttl) (expire_of m micros ttl).1 (expire_of m micros ttl).2 ts =
    Some (MkKeyIt i 0 None (ttl_type ttl) (expire_of m micros ttl).1 (expire_of m micros ttl).2 [] (default 0%nat (GetTsIdx s ts)))).
  { intros ts. unfold KeyIt_new, ts_pos. rewrite Hpos, Nat2Z.id, Hs. done. }
  destruct (ts_column_ d) as [col|] eqn:Ec.
  - exists (default 0%nat (GetTsIdx s (u32 (cd_ts_idx col)))). unfold NewWindowIterator_ts. rewrite (Hts col eq_refl). cbn [mbind option_bind]. rewrite Hr. cbn [mbind option_bind].
    rewrite Httl. cbn [mbind option_bind]. rewrite (surjective_pairing (expire_of m micros ttl)), Hnew. done.
  - exists (default 0%nat (GetTsIdx s 0)). rewrite Httl. cbn [mbind option_bind]. rewrite (surjective_pairing (expire_of m micros ttl)), Hnew. done.
Qed.

Lemma index_sorted offset0 map arr ci bs x : arr_rep n offset0 map 0 arr ci -> x ∈ index_live ci -> newest_first (row_view bs <$> rows_of x).
Proof.
  intros Hr (c & Hx & Hc)%list_elem_of_bind. apply list_elem_of_lookup_1 in Hc as [j Hj]. destruct (arr_rep_lookup _ _ _ _ _ _ _ _ Hr Hj) as (s & _ & Hcell).
  pose proof (rows_of_sorted _ _ _ _ (cr_core _ _ _ _ _ _ Hcell) Hx) as Hs. eapply (StronglySorted_fmap _ (fun x y => y.1.1 <= x.1.1)); [|exact Hs]. by intros r1 r2.
Qed.

Lemma index_weight (offset0 : Z) (map : gmap Z nat) (arr : list Segment) (ci : list cell) (c : content) : arr_rep n offset0 map 0 arr ci -> (forall key, c !! key = index_view (mt_blocks m) n ci key) ->
  weight (index_live ci) = content_size c /\ length (index_live ci) = size c.
Proof.
  intros Hr Hv. assert (Hl : length (index_live ci) = size c).
  { rewrite <- (length_map_to_list c), (index_pairs _ _ _ _ _ _ _ Hr Hv). by rewrite length_fmap. }
  split; [|done]. unfold content_size. rewrite <- Hl, (index_rows _ _ _ _ _ _ _ Hr Hv). clear. induction (index_live ci) as [|x ks IH]; [done|].
  change (weight (x :: ks)) with (S (length (rows_of x)) + weight ks)%nat. rewrite IH, total_rows_cons. cbn [length]. lia.
Qed.

Lemma table_traverse (i : nat) (d : IndexDef) (ttl : TTLSt) (micros : Z) (c : content) (fuel : nat) : at_defs a !! i = Some d -> ttl_st_ d = Some ttl -> at_content a !! i = Some c ->
  Z.of_nat (content_size c) < FLAGS_max_traverse_cnt < 2 ^ 32 -> (content_size c <= fuel)%nat ->
  exists l, traversal m micros (Z.of_nat i) fuel = Some (l, m) /\ l ≡ₚ shown_rows (table_ttl (at_gc a) micros ttl) 1 c.
Proof using All.
  intros Hd Httl Hc Hmax Hfuel. destruct (open_traverse i d ttl micros Hd Httl) as [pos Hopen]. destruct (index_segments i d Hd) as (ci & arr & R & c' & Harr & Hrep & Hb & Hl & Hc' & Hv & _).
  rewrite Hc in Hc'. injection Hc' as <-. destruct (index_weight _ _ _ _ _ Hrep Hv) as [Hw _]. set (rttl := table_ttl (at_gc a) micros ttl) in *.
  assert (Hlat : 0 <= lat_ttl rttl).
  { destruct (ix_ok _ _ (tb_index _ _ _ _ _ _ Ht) _ _ Hd) as (_ & _ & (ttl' & E & [_ Hlat]) & _). rewrite Httl in E. injection E as <-. unfold rttl, table_ttl. by destruct (at_gc a). }
  destruct (traverse_all n offset (def_map d) m i arr ci R rttl Harr Hrep Hb (tb_cnt _ _ _ _ _ _ Ht) Hl Hlat (content_size c) Hmax
    (MkTraverseIt i 0 None None 0 pos rttl [] 0) fuel) as (mc & r' & E1 & E2); [split; cbn; try done; lia|lia|].
  eexists. split; [unfold traversal; rewrite Hopen; cbn [mbind option_bind]; rewrite E1; exact E2|]. unfold shown_rows, flat, shown. rewrite (index_pairs _ _ _ _ _ _ _ Hrep Hv).
  rewrite bind_fmap. apply reflexive_eq, bind_ext_elem. intros x Hx. cbn. f_equal. apply visible_rule. by eapply index_sorted.
Qed.

Lemma table_window (i : nat) (d : IndexDef) (ttl : TTLSt) (micros : Z) (c : content) : at_defs a !! i = Some d -> ttl_st_ d = Some ttl -> at_content a !! i = Some c -> Z.of_nat (content_rows c) < 2 ^ 32 ->
  exists l, key_walk m micros (Z.of_nat i) (size c) = Some (l, m) /\ l ≡ₚ shown_keys (table_ttl (at_gc a) micros ttl) 0 c.
Proof using All.
  intros Hd Httl Hc Hmax. destruct (open_window i d ttl micros Hd Httl) as [pos Hopen]. destruct (index_segments i d Hd) as (ci & arr & R & c' & Harr & Hrep & Hb & Hl & Hc' & Hv & _).
  rewrite Hc in Hc'. injection Hc' as <-. destruct (index_weight _ _ _ _ _ Hrep Hv) as [_ Hsz].
  destruct (ki_all n offset (def_map d) m i arr ci R Harr Hrep Hb (tb_cnt _ _ _ _ _ _ Ht) Hl (MkKeyIt i 0 None (ttl_type ttl) (expire_of m micros ttl).1 (expire_of m micros ttl).2 [] pos)
    (table_ttl (at_gc a) micros ttl) (size c)) as (k' & E1 & E2); try done.
  { cbn. by rewrite expire_ttl, (tb_gc _ _ _ _ _ _ Ht). }
  { rewrite (index_rows _ _ _ _ _ _ _ Hrep Hv) in Hmax. apply Forall_forall. intros x Hx. apply list_elem_of_split in Hx as (l1 & l2 & E). rewrite E, total_rows_app, total_rows_cons in Hmax. lia. }
  { lia. }
  eexists. split; [unfold key_walk; rewrite Hopen; cbn [mbind option_bind]; rewrite E1; exact E2|]. unfold shown_keys. rewrite (index_pairs _ _ _ _ _ _ _ Hrep Hv), <- list_fmap_compose.
  apply reflexive_eq, list_fmap_ext. intros j x Hx. cbn. f_equal. apply visible_rule. eapply index_sorted; [exact Hrep|by eapply list_elem_of_lookup_2].
Qed.

Lemma content_sorted (i : nat) (c : content) (key : bytes) (rows : list rowv) : at_content a !! i = Some c -> c !! key = Some rows -> newest_first rows.
Proof using All.
  intros Hc Hk. assert (exists d, at_defs a !! i = Some d) as [d Hd].
  { apply lookup_lt_is_Some. destruct (tb_contents _ _ _ _ _ _ Ht) as [E _], (tb_segs _ _ _ _ _ _ Ht) as [E' _].
    rewrite <- E', <- E. by eapply lookup_lt_Some. }
  destruct (index_segments i d Hd) as (ci & arr & R & c' & _ & Hrep & _ & _ & Hc' & Hv & _). rewrite Hc in Hc'. injection Hc' as <-.
  apply elem_of_map_to_list in Hk. rewrite (index_pairs _ _ _ _ _ _ _ Hrep Hv) in Hk. apply list_elem_of_fmap in Hk as (x & [= -> ->] & Hx). by eapply index_sorted.
Qed.
End table.
End open.

(** ** Collections and what is shown *)
Lemma gc_shown (f : bytes -> list rowv -> list rowv) (V : list rowv -> list rowv) (c : content) : V [] = [] -> (forall key rows, c !! key = Some rows -> V (f key rows) = V rows) ->
  (map_to_list (map_imap (fun key rows => nonempty_rows (f key rows)) c) ≫= fun kv => pair kv.1 <$> V kv.2) ≡ₚ (map_to_list c ≫= fun kv => pair kv.1 <$> V kv.2).
Proof.
  intros V0. induction c as [|key rows c Hk IH] using map_ind; intros HV; [by rewrite map_imap_empty|].
  assert (Hc : forall k r, c !! k = Some r -> V (f k r) = V r) by (intros k r Hkr; apply HV; rewrite lookup_insert_ne; [done|congruence]).
  specialize (IH Hc). specialize (HV key rows ltac:(by rewrite lookup_insert_eq)). rewrite map_imap_insert, (map_to_list_insert c) by done. rewrite bind_cons. cbn [fst snd].
  assert (Hnone : map_imap (fun key rows => nonempty_rows (f key rows)) c !! key = None) by (by rewrite map_lookup_imap, Hk). unfold nonempty_rows at 1.
  destruct (decide (f key rows = [])) as [E|E].
  - rewrite delete_id by done. rewrite E, V0 in HV. by rewrite <- HV, IH.
  - rewrite map_to_list_insert, bind_cons by done. cbn [fst snd]. by rewrite HV, IH.
Qed.

Lemma gc_size (f : bytes -> list rowv -> list rowv) (c : content) : (forall key rows, (length (f key rows) <= length rows)%nat) ->
  (content_size (map_imap (fun key rows => nonempty_rows (f key rows)) c) <= content_size c)%nat.
Proof.
  intros Hf. unfold content_size. induction c as [|key rows c Hk IH] using map_ind; [by rewrite map_imap_empty|]. rewrite map_imap_insert.
  assert (Hnone : map_imap (fun key rows => nonempty_rows (f key rows)) c !! key = None) by (by rewrite map_lookup_imap, Hk). rewrite map_size_insert_None, content_rows_insert by done.
  unfold nonempty_rows at 1 3. specialize (Hf key rows). destruct (decide (f key rows = [])) as [E|E].
  - rewrite delete_id by done. lia.
  - rewrite map_size_insert_None, content_rows_insert by done. lia.
Qed.

Section gc.
Context `{SmallLayout} `{TableFlags}.
Context n offset m a cs (Ht : tab_rep n offset m a cs []) (Hn : 1 <= n).

(** A traversal after a collection *)
Lemma gc_traverse (i : nat) (d : IndexDef) (ttl : TTLSt) (micros : Z) (c : content) : at_defs a !! i = Some d -> ttl_st_ d = Some ttl -> at_content a !! i = Some c ->
  Z.of_nat (content_size c) < FLAGS_max_traverse_cnt < 2 ^ 32 -> at_gc a = true -> at_pending a = [] -> 0 <= offset -> offset + abs_ttl ttl < micros / 1000 < 2 ^ 64 ->
  Z.of_nat (length (cells_blocks cs)) < 2 ^ 64 ->
  exists m' l, SchedGc m (fun _ _ => micros) = Some m' /\ traversal m' micros (Z.of_nat i) (content_size c) = Some (l, m') /\
    l ≡ₚ shown_rows (table_ttl (at_gc a) micros ttl) 1 c.
Proof using All.
  intros Hd Httl Hc Hmax Hgc Hpend Hoff Hclock Hlen. destruct (sim_msched n offset m a cs (fun _ _ => micros) Ht Hlen) as (m' & cs' & E & Ht' & _).
  cbn [run_mem_op] in E. destruct (SchedGc m (fun _ _ => micros)) as [m2|]; [|done]. cbn [mbind option_bind] in E. injection E as _ ->.
  set (c' := gc_content_at n offset (fun _ => micros) ttl c).
  assert (Hsz : (content_size c' <= content_size c)%nat) by (apply gc_size; intros key rows; apply length_abs_keep).
  destruct (ix_ok _ _ (tb_index _ _ _ _ _ _ Ht) _ _ Hd) as (_ & _ & (ttl' & E' & [Habs Hlat]) & _). rewrite Httl in E'. injection E' as <-.
  destruct (table_traverse n offset m' _ cs' Ht' Hn i d ttl micros c' (content_size c)) as (l & El & Hl).
  - destruct a as [ms defs pend gc]. cbn in *. subst pend. by rewrite list_lookup_fmap, Hd.
  - done.
  - destruct a as [ms defs pend gc]. cbn in *. subst gc. unfold gc_contents. rewrite list_lookup_imap, Hc. cbn. rewrite Hd. cbn. by rewrite Httl.
  - lia.
  - done.
  - exists m', l. split; [done|]. split; [done|]. rewrite Hl. assert (Hgc' : at_gc (abs_mem_op n offset (MSchedGc (fun _ _ => micros)) a).2 = at_gc a) by (by destruct a).
    rewrite Hgc', Hgc. cbn [table_ttl]. unfold shown_rows, c', gc_content_at.
    assert (Hnow : u64 (micros / 1000) = micros / 1000) by (apply uwrap_id; unfold in_uint; lia). rewrite Hnow.
    apply gc_shown; [by unfold visible_rows; destruct (ttl_type _); repeat case_decide; rewrite ?take_nil|].
    intros key rows Hk. pose proof (content_sorted n offset m a cs Ht Hn i c key rows Hc Hk) as Hs.
    rewrite <- !visible_rule; [by apply visible_after_gc|done|]. rewrite (abs_keep_take _ _ _ _ Hs). by apply newest_take.
Qed.
End gc.
