(* ===== verification/MemTableClaims.v ===== *)
(** What a memory table promises, for any sequence of calls on a table that was
    set up from a plain description. *)
From Stdlib Require Import String.
From S2P Require Import Prelude Slice RowCodec Random Skiplist SkiplistInv SkiplistInsert SkiplistSplit SkiplistSpec SkiplistNodes Segment.
From S2P Require Import SegmentGc SegmentRelease SegmentInv SegmentGcInv SegmentOps SegmentRefine SegmentClaims StdMap Hash TableIndex.
From S2P Require Import TableParse Table MemTable MemTableGc MemTableIter MemTableInv TableParseThms MemTableOps MemTablePut.
From S2P Require Import MemTableSched MemTableVisible MemTableIterThms MemTableTraverse MemTableOpen.

#[local] Existing Instances x64_layout x64_small default_flags.

Lemma new_offset_nonneg `{Layout} : 0 <= new_offset.
Proof. unfold new_offset. cbn. by apply uwrap_range. Qed.

(** C13: A memory table implements one map from keys to rows, newest first, per
    index: any sequence of [Put] calls (with one key, with dimensions, with
    timestamps), [Delete], [SchedGc], [SetTTL] and [SetExpire] on a table set up
    by [Init] from a plain description runs without undefined behaviour and
    answers as the abstract operations do.  Afterwards an iterator on any key of
    any index, from the first row or from a given time, walks exactly the rows
    of the abstract map and leaves the table as it was; [GetCount] is their
    number; and there is no iterator for an index that does not exist.  In this
    and the following theorems the calls are those of [mem_op_ok]: keys of
    moderate length, non-negative TTLs, and for every index that a [Put] with
    timestamps names, its timestamp among those given. *)
Theorem memtable_refines `{SmallLayout} `{TableFlags} (meta : TableMeta) (m0 : MemTable) (os : list mem_op) :
  flags_ok -> plain_meta meta = true -> MemTable_Init (MemTable_of meta) = Some (true, m0) ->
  Forall (mem_op_ok (defs_of (mt_index m0))) os -> 200 * Z.of_nat (length os) < 2 ^ 64 ->
  let '(outs, a) := abs_mem_ops (seg_cnt_ m0) new_offset os (abs_table_new m0) in
  exists m, run_mem_ops os m0 = Some (outs, m) /\
    forall (i : nat) (key : bytes),
      if decide (i < length (at_defs a))%nat
      then let rows := (c ← at_content a !! i; c !! key) in
           (forall time, table_scan m (Z.of_nat i) key time = Some (Some (from_time time (default [] rows)), m)) /\
           MemTable_GetCount m (Z.of_nat i) key = Some ((fun l => Z.of_nat (length l)) <$> rows)
      else forall time, table_scan m (Z.of_nat i) key time = Some (None, m).
Proof.
  intros Hf Hm Hi Hos Hlen. destruct (MemTable_Init_rep meta m0 Hf Hm Hi) as (Hn & cs & Ht & Hcs & _).
  destruct (sim_mem_ops (seg_cnt_ m0) new_offset Hn os m0 _ cs Ht Hos) as (m & cs' & Hr & Ht' & Hl); [rewrite Hcs; cbn [length]; lia|].
  destruct (abs_mem_ops _ _ os (abs_table_new m0)) as [outs a]. cbn [fst snd] in *. exists m. split; [done|]. rewrite Hcs in Hl. cbn [length] in Hl.
  intros i key. case_decide as Hd.
  - split; [intros time; by eapply index_scan|]. eapply index_count; [exact Ht'|done|done|lia].
  - intros time. eapply index_scan_none; [exact Ht'|done|lia].
Qed.
Lemma memtable_refines_witness : exists m, run_mem_ops sample_mem_ops sample_table = Some ([true; true; true; false; true; true; false], m) /\
  table_scan m 0 [1] None = Some (Some [(20, [8])], m) /\ table_scan m 1 [2] None = Some (Some [(10, [7])], m) /\
  table_scan m 1 [3] None = Some (Some [], m) /\ table_scan m 2 [1] None = Some (None, m).
Proof.
  destruct sample_init as [Hm Hi]. destruct sample_mem_ok as [Hos Hlen]. pose proof (memtable_refines sample_meta sample_table sample_mem_ops default_flags_ok Hm Hi Hos Hlen) as Hr.
  destruct (abs_mem_ops (seg_cnt_ sample_table) new_offset sample_mem_ops (abs_table_new sample_table)) as [outs a] eqn:E. vm_compute in E. injection E as <- <-.
  destruct Hr as (m & Hrun & Hread). exists m. split; [exact Hrun|].
  split; [exact (proj1 (Hread 0%nat [1]) None)|]. split; [exact (proj1 (Hread 1%nat [2]) None)|]. split; [exact (proj1 (Hread 1%nat [3]) None)|exact (Hread 2%nat [1] None)].
Defined.

(** C14: The books of a memory table balance: after any sequence of calls the
    record counter is the number of data blocks, the byte counter their sizes,
    and the row counter [GetRecordIdxCnt] the number of references the blocks
    count.  [Release] then frees every block exactly once, returns the number of
    rows in all indexes, and does nothing when called again.  The description is
    plain and every index named by a [Put] gets its timestamp ([mem_op_ok]). *)
Theorem memtable_accounting `{SmallLayout} `{TableFlags} (meta : TableMeta) (m0 : MemTable) (os : list mem_op) :
  flags_ok -> plain_meta meta = true -> MemTable_Init (MemTable_of meta) = Some (true, m0) ->
  Forall (mem_op_ok (defs_of (mt_index m0))) os -> 200 * Z.of_nat (length os) < 2 ^ 64 ->
  let '(outs, a) := abs_mem_ops (seg_cnt_ m0) new_offset os (abs_table_new m0) in
  exists m m', run_mem_ops os m0 = Some (outs, m) /\
    record_cnt_ m = u64 (Z.of_nat (size (mt_blocks m))) /\ record_byte_size_ m = u64 (blocks_bytes (mt_blocks m)) /\
    GetRecordIdxCnt m = Some (block_refs (mt_blocks m)) /\
    MemTable_Release m = Some (u64 (Z.of_nat (content_total (at_content a))), m') /\ mt_blocks m' = ∅ /\ MemTable_Release m' = Some (0, m').
Proof.
  intros Hf Hm Hi Hos Hlen. destruct (MemTable_Init_rep meta m0 Hf Hm Hi) as (Hn & cs & Ht & Hcs & Hne).
  destruct (sim_mem_ops (seg_cnt_ m0) new_offset Hn os m0 _ cs Ht Hos) as (m & cs' & Hr & Ht' & Hl); [rewrite Hcs; cbn [length]; lia|].
  pose proof (abs_ops_defs (seg_cnt_ m0) new_offset os (abs_table_new m0)) as Hd. rewrite Hcs in Hl. cbn [length] in Hl.
  destruct (abs_mem_ops _ _ os (abs_table_new m0)) as [outs a]. cbn [fst snd abs_table_new at_defs] in *.
  destruct (MemTable_Release_spec _ _ _ _ _ Ht') as (m' & E & Hb & Ha); [intros Hz; rewrite Hz in Hd; by destruct (defs_of (mt_index m0))|].
  exists m, m'. split; [done|]. split; [apply (tb_records _ _ _ _ _ _ Ht')|]. split; [apply (tb_bytes _ _ _ _ _ _ Ht')|].
  split; [by eapply table_refs; [exact Ht'|lia]|]. done.
Qed.
Lemma memtable_accounting_witness : exists m m', run_mem_ops sample_mem_ops sample_table = Some ([true; true; true; false; true; true; false], m) /\
  GetRecordIdxCnt m = Some (block_refs (mt_blocks m)) /\ MemTable_Release m = Some (3, m') /\ mt_blocks m' = ∅.
Proof.
  destruct sample_init as [Hm Hi]. destruct sample_mem_ok as [Hos Hlen]. pose proof (memtable_accounting sample_meta sample_table sample_mem_ops default_flags_ok Hm Hi Hos Hlen) as Hr.
  destruct (abs_mem_ops (seg_cnt_ sample_table) new_offset sample_mem_ops (abs_table_new sample_table)) as [outs a] eqn:E. vm_compute in E. injection E as <- <-.
  destruct Hr as (m & m' & Hrun & _ & _ & Hrefs & Hrel & Hb & _). exists m, m'. split; [exact Hrun|]. split; [exact Hrefs|]. split; [exact Hrel|exact Hb].
Defined.

(** C18: [ParseFromMeta] on a plain description that it accepts: the indexes
    are distinct and have distinct names, each is ready and has a TTL, the id of
    an index is its position, and the
    inner indexes are one per index, in order: the inner index at position [i]
    holds exactly the index [i], whose own position is [i], the position map
    sends [i] to [i] and every other number to none, and the inner index lists
    the timestamp column of its index. *)
Theorem ParseFromMeta_plain (meta : TableMeta) (t t' : TableIndex) (ts : list (bytes * Z)) :
  plain_meta meta = true -> ParseFromMeta t meta = Some (0, t', ts) ->
  exists defs, defs <> [] /\ mapM (def_at t') (indexs_ t') = Some defs /\ multi_ts_indexs_ t' = [] /\ NoDup (indexs_ t') /\ NoDup (name_ <$> defs) /\
    (forall i d, defs !! i = Some d -> status_ d = kReady /\ is_Some (ttl_st_ d) /\ inner_pos_ d = Z.of_nat i /\ index_id_ d = Z.of_nat i) /\
    (ii_index <$> inner_indexs_ t') = (fun p => [p]) <$> indexs_ t' /\ (ii_ts <$> inner_indexs_ t') = ts_list <$> defs /\
    (forall idx, 0 <= idx -> GetInnerIndexPos t' idx = if decide (idx < Z.of_nat (length defs)) then idx else -1).
Proof.
  intros Hm Hp. destruct (parse_plain meta Hm _ _ _ Hp) as (defs & [[X1 X2 X3 X4 X5 X6 X7] Y1 Y2] & Hne). exists defs. split_and!; try done.
  - by apply mapM_Some.
  - intros i d Hd. destruct (X6 i d Hd) as (D1 & D2 & (ttl & D3 & _) & _ & D5). split_and!; eauto.
Qed.
Definition sample_parse : TableIndex * list (bytes * Z) :=
  match ParseFromMeta TableIndex_new sample_meta with Some (_, t, ts) => (t, ts) | None => (TableIndex_new, []) end.
Lemma ParseFromMeta_plain_witness : exists defs, ParseFromMeta TableIndex_new sample_meta = Some (0, sample_parse.1, sample_parse.2) /\
  mapM (def_at sample_parse.1) (indexs_ sample_parse.1) = Some defs /\ NoDup (name_ <$> defs) /\ (ii_ts <$> inner_indexs_ sample_parse.1) = ts_list <$> defs.
Proof.
  assert (E : ParseFromMeta TableIndex_new sample_meta = Some (0, sample_parse.1, sample_parse.2)) by (by vm_compute).
  destruct (ParseFromMeta_plain sample_meta TableIndex_new sample_parse.1 sample_parse.2 ltac:(by vm_compute) E) as (defs & _ & Hd & _ & _ & Hn & _ & _ & Hts & _).
  exists defs. split; [exact E|]. split; [exact Hd|]. split; [exact Hn|exact Hts].
Defined.

(** C15: A traverse iterator shows every unexpired row once: after any sequence
    of calls, opening one on an index at any time, going to the first row and
    walking to the end visits, in some order of the keys, exactly the rows of
    the abstract index that its TTL does not expire at that time (all of them
    while expiry is switched off), and leaves the table as it was.  The index
    must have fewer keys and rows than [FLAGS_max_traverse_cnt], after which an
    iterator stops; the description is plain and the calls are those of
    [mem_op_ok]. *)
Theorem traverse_correct `{SmallLayout} `{TableFlags} (meta : TableMeta) (m0 : MemTable) (os : list mem_op) (micros : Z) (i : nat) (ttl : TTLSt) (c : content) :
  flags_ok -> plain_meta meta = true -> MemTable_Init (MemTable_of meta) = Some (true, m0) ->
  Forall (mem_op_ok (defs_of (mt_index m0))) os -> 200 * Z.of_nat (length os) < 2 ^ 64 ->
  let '(outs, a) := abs_mem_ops (seg_cnt_ m0) new_offset os (abs_table_new m0) in
  (d ← at_defs a !! i; ttl_st_ d) = Some ttl -> at_content a !! i = Some c -> Z.of_nat (content_size c) < FLAGS_max_traverse_cnt < 2 ^ 32 ->
  exists m l, run_mem_ops os m0 = Some (outs, m) /\ traversal m micros (Z.of_nat i) (content_size c) = Some (l, m) /\
    l ≡ₚ shown_rows (table_ttl (at_gc a) micros ttl) 1 c.
Proof.
  intros Hf Hm Hi Hos Hlen. destruct (MemTable_Init_rep meta m0 Hf Hm Hi) as (Hn & cs & Ht & Hcs & _).
  destruct (sim_mem_ops (seg_cnt_ m0) new_offset Hn os m0 _ cs Ht Hos) as (m & cs' & Hr & Ht' & _); [rewrite Hcs; cbn [length]; lia|].
  destruct (abs_mem_ops _ _ os (abs_table_new m0)) as [outs a]. cbn [fst snd] in *. intros Httl Hc Hmax.
  destruct (at_defs a !! i) as [d|] eqn:Hd; [|done]. cbn in Httl. destruct (table_traverse _ _ _ _ _ Ht' Hn i d ttl micros c _ Hd Httl Hc Hmax (le_n _)) as (l & E & Hl). eauto.
Qed.
Lemma traverse_correct_witness : exists m l, run_mem_ops sample_mem_ops sample_table = Some ([true; true; true; false; true; true; false], m) /\
  traversal m 0 0 4 = Some (l, m) /\ l ≡ₚ [([1], (20, [8])); ([4], (5, [9]))].
Proof.
  destruct sample_init as [Hm Hi]. destruct sample_mem_ok as [Hos Hlen].
  pose proof (traverse_correct sample_meta sample_table sample_mem_ops 0 0 (MkTTLSt 0 1 kLatestTime) {[ [1] := [(20, [8])]; [4] := [(5, [9])] ]} default_flags_ok Hm Hi Hos Hlen) as Hr.
  destruct (abs_mem_ops (seg_cnt_ sample_table) new_offset sample_mem_ops (abs_table_new sample_table)) as [outs a] eqn:E. vm_compute in E. injection E as <- <-.
  destruct Hr as (m & l & Hrun & Htr & Hl); [vm_compute; reflexivity|vm_compute; reflexivity|vm_compute; split; reflexivity|].
  replace (content_size _) with 4%nat in Htr by (vm_compute; reflexivity).
  exists m, l. split; [exact Hrun|]. split; [exact Htr|]. etransitivity; [exact Hl|]. vm_compute. reflexivity.
Defined.

(** C17: The key iterator visits every key of an index once, and the window
    iterator it opens on a key shows the rows before the first expired one.
    The window counts its rows from zero, the traverse iterator and the
    collection from one: with a TTL that keeps the latest [n] rows a window
    shows [n + 1] of them until a collection has run.  The description is plain
    and the calls are those of [mem_op_ok]. *)
Theorem window_correct `{SmallLayout} `{TableFlags} (meta : TableMeta) (m0 : MemTable) (os : list mem_op) (micros : Z) (i : nat) (ttl : TTLSt) (c : content) :
  flags_ok -> plain_meta meta = true -> MemTable_Init (MemTable_of meta) = Some (true, m0) ->
  Forall (mem_op_ok (defs_of (mt_index m0))) os -> 200 * Z.of_nat (length os) < 2 ^ 64 ->
  let '(outs, a) := abs_mem_ops (seg_cnt_ m0) new_offset os (abs_table_new m0) in
  (d ← at_defs a !! i; ttl_st_ d) = Some ttl -> at_content a !! i = Some c -> Z.of_nat (content_rows c) < 2 ^ 32 ->
  exists m l, run_mem_ops os m0 = Some (outs, m) /\ key_walk m micros (Z.of_nat i) (size c) = Some (l, m) /\
    l ≡ₚ shown_keys (table_ttl (at_gc a) micros ttl) 0 c /\
    (at_gc a = true -> ttl_type ttl = kLatestTime -> 0 < lat_ttl ttl ->
     l ≡ₚ (fun kv => (kv.1, take (S (Z.to_nat (lat_ttl ttl))) kv.2)) <$> map_to_list c).
Proof.
  intros Hf Hm Hi Hos Hlen. destruct (MemTable_Init_rep meta m0 Hf Hm Hi) as (Hn & cs & Ht & Hcs & _).
  destruct (sim_mem_ops (seg_cnt_ m0) new_offset Hn os m0 _ cs Ht Hos) as (m & cs' & Hr & Ht' & _); [rewrite Hcs; cbn [length]; lia|].
  destruct (abs_mem_ops _ _ os (abs_table_new m0)) as [outs a]. cbn [fst snd] in *. intros Httl Hc Hmax.
  destruct (at_defs a !! i) as [d|] eqn:Hd; [|done]. cbn in Httl. destruct (table_window _ _ _ _ _ Ht' Hn i d ttl micros c Hd Httl Hc Hmax) as (l & E & Hl).
  exists m, l. split; [done|]. split; [done|]. split; [done|]. intros Hgc Hty Hlat. rewrite Hl. apply reflexive_eq, list_fmap_ext. intros k [key rows] _. cbn.
  unfold visible_rows, table_ttl, reader_ttl. rewrite Hgc. cbn. rewrite Hty, decide_False by lia. do 2 f_equal. lia.
Qed.
Lemma window_correct_witness : exists m l, run_mem_ops (take 3 sample_mem_ops) sample_table = Some ([true; true; true], m) /\
  key_walk m 0 0 2 = Some (l, m) /\ l ≡ₚ [([1], [(20, [8]); (10, [7])]); ([4], [(5, [9])])].
Proof.
  destruct sample_init as [Hm Hi]. destruct sample_mem_ok as [Hos Hlen]. assert (Hos3 : Forall (mem_op_ok (defs_of (mt_index sample_table))) (take 3 sample_mem_ops)) by (by apply Forall_take).
  pose proof (window_correct sample_meta sample_table (take 3 sample_mem_ops) 0 0 (MkTTLSt 0 1 kLatestTime) {[ [1] := [(20, [8]); (10, [7])]; [4] := [(5, [9])] ]} default_flags_ok Hm Hi Hos3 ltac:(done)) as Hr.
  destruct (abs_mem_ops (seg_cnt_ sample_table) new_offset (take 3 sample_mem_ops) (abs_table_new sample_table)) as [outs a] eqn:E. vm_compute in E. injection E as <- <-.
  destruct Hr as (m & l & Hrun & Htr & _ & Hl); [vm_compute; reflexivity|vm_compute; reflexivity|vm_compute; reflexivity|].
  replace (size _) with 2%nat in Htr by (vm_compute; reflexivity).
  exists m, l. split; [exact Hrun|]. split; [exact Htr|]. etransitivity; [exact (Hl eq_refl eq_refl eq_refl)|]. vm_compute. reflexivity.
Defined.

(** C16: A collection removes only what no traversal shows any more: when
    [SchedGc] runs at the time [micros], a traversal of any index at that time
    shows the same rows before and after.  The clock must be past the TTL and
    the safety margin [FLAGS_gc_safe_offset], and no TTL change may be pending,
    since [SchedGc] applies it.  The index must have fewer keys and rows than
    [FLAGS_max_traverse_cnt]; the description is plain and the calls are those of
    [mem_op_ok]. *)
Theorem gc_invisible `{SmallLayout} `{TableFlags} (meta : TableMeta) (m0 : MemTable) (os : list mem_op) (micros : Z) (i : nat) (ttl : TTLSt) (c : content) :
  flags_ok -> plain_meta meta = true -> MemTable_Init (MemTable_of meta) = Some (true, m0) ->
  Forall (mem_op_ok (defs_of (mt_index m0))) os -> 200 * Z.of_nat (length os) < 2 ^ 64 ->
  let '(outs, a) := abs_mem_ops (seg_cnt_ m0) new_offset os (abs_table_new m0) in
  (d ← at_defs a !! i; ttl_st_ d) = Some ttl -> at_content a !! i = Some c -> Z.of_nat (content_size c) < FLAGS_max_traverse_cnt < 2 ^ 32 ->
  at_gc a = true -> at_pending a = [] -> new_offset + abs_ttl ttl < micros / 1000 < 2 ^ 64 ->
  exists m m' l l', run_mem_ops os m0 = Some (outs, m) /\ SchedGc m (fun _ _ => micros) = Some m' /\
    traversal m micros (Z.of_nat i) (content_size c) = Some (l, m) /\ traversal m' micros (Z.of_nat i) (content_size c) = Some (l', m') /\ l' ≡ₚ l.
Proof.
  intros Hf Hm Hi Hos Hlen. destruct (MemTable_Init_rep meta m0 Hf Hm Hi) as (Hn & cs & Ht & Hcs & _).
  destruct (sim_mem_ops (seg_cnt_ m0) new_offset Hn os m0 _ cs Ht Hos) as (m & cs' & Hr & Ht' & Hl'); [rewrite Hcs; cbn [length]; lia|]. rewrite Hcs in Hl'. cbn [length] in Hl'.
  destruct (abs_mem_ops _ _ os (abs_table_new m0)) as [outs a]. cbn [fst snd] in *. intros Httl Hc Hmax Hgc Hpend Hclock.
  destruct (at_defs a !! i) as [d|] eqn:Hd; [|done]. cbn in Httl. destruct (table_traverse _ _ _ _ _ Ht' Hn i d ttl micros c _ Hd Httl Hc Hmax (le_n _)) as (l & E & Hl).
  destruct (gc_traverse _ _ _ _ _ Ht' Hn i d ttl micros c Hd Httl Hc Hmax Hgc Hpend new_offset_nonneg Hclock) as (m' & l2 & E2 & E3 & Hl2); [lia|].
  exists m, m', l, l2. split; [done|]. split; [done|]. split; [done|]. split; [done|]. by rewrite Hl2, Hl.
Qed.

Lemma gc_invisible_witness : exists m m' l l', run_mem_ops (take 3 sample_mem_ops) sample_table = Some ([true; true; true], m) /\
  SchedGc m (fun _ _ => 10 ^ 9) = Some m' /\ traversal m (10 ^ 9) 0 5 = Some (l, m) /\ traversal m' (10 ^ 9) 0 5 = Some (l', m') /\ l' ≡ₚ l.
Proof.
  destruct sample_init as [Hm Hi]. destruct sample_mem_ok as [Hos Hlen]. assert (Hos3 : Forall (mem_op_ok (defs_of (mt_index sample_table))) (take 3 sample_mem_ops)) by (by apply Forall_take).
  pose proof (gc_invisible sample_meta sample_table (take 3 sample_mem_ops) (10 ^ 9) 0 (MkTTLSt 0 1 kLatestTime) {[ [1] := [(20, [8]); (10, [7])]; [4] := [(5, [9])] ]} default_flags_ok Hm Hi Hos3 ltac:(done)) as Hr.
  destruct (abs_mem_ops (seg_cnt_ sample_table) new_offset (take 3 sample_mem_ops) (abs_table_new sample_table)) as [outs a] eqn:E. vm_compute in E. injection E as <- <-.
  destruct Hr as (m & m' & l & l' & Hrun & Hgc & Htr & Htr' & Hl); [vm_compute; reflexivity|vm_compute; reflexivity|vm_compute; split; reflexivity|reflexivity|reflexivity|vm_compute; split; reflexivity|].
  replace (content_size _) with 5%nat in Htr, Htr' by (vm_compute; reflexivity).
  exists m, m', l, l'. split; [exact Hrun|]. split; [exact Hgc|]. split; [exact Htr|]. split; [exact Htr'|exact Hl].
Defined.

(** ** Rows the table miscounts *)
Section miscount.
Context `{SmallLayout}.

(** Two sets of blocks that differ in the count of [b] only: too low in [bs],
    where [b] may already be gone, and positive in [bs1] *)
Definition short (b : nat) (bs bs1 : blocks) : Prop :=
  (forall b', b' <> b -> bs !! b' = bs1 !! b') /\
  exists blk1, bs1 !! b = Some blk1 /\ 1 <= dim_cnt_down blk1 < 2 ^ 8 /\
    forall blk, bs !! b = Some blk -> 0 <= dim_cnt_down blk /\ 1 `max` dim_cnt_down blk < dim_cnt_down blk1.

Lemma short_insert b b' blk bs bs1 : b' <> b -> short b bs bs1 -> short b (<[b' := blk]> bs) (<[b' := blk]> bs1).
Proof.
  intros Hne [Ho (blk1 & H1 & Hk & Hs)]. split.
  - intros b2 Hb2. destruct (decide (b2 = b')) as [->|]; [by rewrite !lookup_insert_eq|]. rewrite !lookup_insert_ne by done. by apply Ho.
  - exists blk1. rewrite !lookup_insert_ne by done. done.
Qed.
Lemma short_delete b b' bs bs1 : b' <> b -> short b bs bs1 -> short b (delete b' bs) (delete b' bs1).
Proof.
  intros Hne [Ho (blk1 & H1 & Hk & Hs)]. split.
  - intros b2 Hb2. destruct (decide (b2 = b')) as [->|]; [by rewrite !lookup_delete_eq|]. rewrite !lookup_delete_ne by done. by apply Ho.
  - exists blk1. rewrite !lookup_delete_ne by done. done.
Qed.

(** A computation from the low count fails, or keeps pace with the one from the
    high count. *)
Definition pace {A} (b : nat) (r r1 : option (A * blocks)) : Prop :=
  forall x bs1, r1 = Some (x, bs1) -> r = None \/ exists bs, r = Some (x, bs) /\ short b bs bs1.
Lemma pace_ret {A} b (x : A) bs bs1 : short b bs bs1 -> pace b (Some (x, bs)) (Some (x, bs1)).
Proof. intros Hs y bs' [= <- <-]. right. eauto. Qed.
Lemma pace_none {A} b (r : option (A * blocks)) : pace b r None.
Proof. by intros x bs1. Qed.
Lemma pace_bind {A B} b (r r1 : option (A * blocks)) (f : A * blocks -> option (B * blocks)) :
  pace b r r1 -> (forall x bs bs1, short b bs bs1 -> pace b (f (x, bs)) (f (x, bs1))) -> pace b (r ≫= f) (r1 ≫= f).
Proof.
  intros Hr Hf. destruct r1 as [[x bs1]|]; [|apply pace_none]. destruct (Hr x bs1 eq_refl) as [-> | (bs & -> & Hs)]; [|by apply Hf]. intros y bs' _. by left.
Qed.

(** One release of a reference, with what becomes of the block forgotten *)
Lemma drop_pace b bs bs1 v : short b bs bs1 -> pace b ('(_, bs) ← drop_block bs v; Some (tt, bs)) ('(_, bs) ← drop_block bs1 v; Some (tt, bs)).
Proof.
  intros Hs. pose proof Hs as [Ho (blk1 & H1 & Hk & Hlow)]. unfold drop_block. destruct v as [b'|]; [|apply pace_none]. cbn [mbind option_bind].
  destruct (decide (b' = b)) as [->|Hne].
  - rewrite H1. cbn [mbind option_bind]. destruct (bs !! b) as [blk|]; [|intros x bs' _; by left]. cbn [mbind option_bind]. destruct (Hlow blk eq_refl) as [Hn Hlt].
    rewrite (decide_True (P := 1 < dim_cnt_down blk1)) by lia. cbn [mbind option_bind].
    assert (Hpos : 1 <= u8 (dim_cnt_down blk1 - 1) < 2 ^ 8 /\ u8 (dim_cnt_down blk1 - 1) = dim_cnt_down blk1 - 1) by (rewrite uwrap_id by (unfold in_uint; lia); lia).
    case_decide; cbn [mbind option_bind]; apply pace_ret; split.
    + intros b2 Hb2. rewrite !lookup_insert_ne by done. by apply Ho.
    + eexists. rewrite !lookup_insert_eq. split; [done|]. split; [apply Hpos|]. intros blk2 [= <-]. cbn [dim_cnt_down]. rewrite (uwrap_id 8 (dim_cnt_down blk - 1)) by (unfold in_uint; lia). lia.
    + intros b2 Hb2. rewrite lookup_insert_ne, lookup_delete_ne by done. by apply Ho.
    + eexists. rewrite lookup_insert_eq, lookup_delete_eq. split; [done|]. split; [apply Hpos|done].
  - rewrite (Ho b' Hne). destruct (bs1 !! b') as [blk|]; [|apply pace_none]. cbn [mbind option_bind].
    case_decide; cbn [mbind option_bind]; apply pace_ret; [by apply short_insert|by apply short_delete].
Qed.

(** ** Release *)
Lemma entry_loop_pace b l : forall fuel it cnt bs bs1, short b bs bs1 ->
  pace b (KeyEntry_Release_loop fuel l it cnt bs) (KeyEntry_Release_loop fuel l it cnt bs1).
Proof.
  induction fuel as [|fuel IH]; intros [n|] cnt bs bs1 Hs; cbn [KeyEntry_Release_loop]; try (by apply pace_ret || by apply pace_none).
  destruct (it_GetValue l (Some n)) as [block|]; [|apply pace_none]. cbn [mbind option_bind].
  assert (Hd : forall bs, ('(_, bs) ← drop_block bs block; it' ← it_Next l (Some n); KeyEntry_Release_loop fuel l it' (u64 (cnt + 1)) bs) =
    ('(_, bs) ← ('(_, bs) ← drop_block bs block; Some (tt, bs)); it' ← it_Next l (Some n); KeyEntry_Release_loop fuel l it' (u64 (cnt + 1)) bs)).
  { intros bs2. by destruct (drop_block bs2 block) as [[]|]. }
  cbn [mbind option_bind] in Hd. rewrite !Hd. apply pace_bind; [by apply drop_pace|]. intros x bs2 bs3 Hs2.
  destruct (it_Next l (Some n)) as [it'|]; [|apply pace_none]. by apply IH.
Qed.
Lemma entry_pace b s p bs bs1 : short b bs bs1 -> pace b (release_entry s p bs) (release_entry s p bs1).
Proof.
  intros Hs. unfold release_entry, KeyEntry_Release. destruct (deref s p) as [e|]; [|apply pace_none]. cbn [mbind option_bind].
  destruct (it_SeekToFirst (entries e)) as [it|]; [|apply pace_none]. cbn [mbind option_bind]. apply pace_bind.
  - apply pace_bind; [by apply entry_loop_pace|]. intros cnt bs2 bs3 Hs2. destruct (Clear (entries e)) as [[? l]|]; [|apply pace_none]. cbn. by apply pace_ret.
  - intros [cnt e'] bs2 bs3 Hs2. by apply pace_ret.
Qed.
Lemma entries_pace b ps : forall cnt s bs bs1, short b bs bs1 -> pace b (release_entries ps cnt s bs) (release_entries ps cnt s bs1).
Proof.
  induction ps as [|p ps IH]; intros cnt s bs bs1 Hs; cbn [release_entries]; [by apply pace_ret|].
  apply pace_bind; [by apply entry_pace|]. intros [c s'] bs2 bs3 Hs2. by apply IH.
Qed.
Lemma value_pace b v cnt s bs bs1 : short b bs bs1 -> pace b (release_value v cnt s bs) (release_value v cnt s bs1).
Proof.
  intros Hs. unfold release_value. case_decide.
  - destruct (as_array v) as [ps|]; [|apply pace_none]. cbn [mbind option_bind]. destruct (require _); [|apply pace_none]. by apply entries_pace.
  - destruct (as_entry v) as [p|]; [|apply pace_none]. by apply entries_pace.
Qed.
Lemma keys_loop_pace b : forall fuel it cnt s bs bs1, short b bs bs1 -> pace b (Release_loop fuel it cnt s bs) (Release_loop fuel it cnt s bs1).
Proof.
  induction fuel as [|fuel IH]; intros [n|] cnt s bs bs1 Hs; cbn [Release_loop]; try (by apply pace_ret || by apply pace_none).
  destruct (it_GetValue (sg_entries s) (Some n)) as [v|]; [|apply pace_none]. cbn [mbind option_bind]. apply pace_bind.
  - destruct v; [by apply value_pace|by apply pace_ret].
  - intros [cnt' s'] bs2 bs3 Hs2. destruct (it_Next _ _) as [it'|]; [|apply pace_none]. by apply IH.
Qed.
Lemma free_loop_pace b : forall fuel it s bs bs1, short b bs bs1 -> pace b (Release_free_loop fuel it s bs) (Release_free_loop fuel it s bs1).
Proof.
  induction fuel as [|fuel IH]; intros [n|] s bs bs1 Hs; cbn [Release_free_loop]; try (by apply pace_ret || by apply pace_none).
  destruct (it_GetValue (entry_free_list_ s) (Some n)) as [[node|]|]; [|apply pace_none..]. cbn [mbind option_bind].
  destruct (GetValue (sg_entries s) node) as [v|]; [|apply pace_none]. cbn [mbind option_bind]. apply pace_bind; [by apply value_pace|].
  intros [c s'] bs2 bs3 Hs2. destruct (delete_entry_node s' node) as [s2|]; [|apply pace_none]. cbn [mbind option_bind].
  destruct (it_Next _ _) as [it'|]; [|apply pace_none]. by apply IH.
Qed.
Lemma segment_pace b s bs bs1 : short b bs bs1 -> pace b (Release s bs) (Release s bs1).
Proof.
  intros Hs. unfold Release. destruct (it_SeekToFirst (sg_entries s)) as [it|]; [|apply pace_none]. cbn [mbind option_bind].
  apply pace_bind; [by apply keys_loop_pace|]. intros [cnt s1] bs2 bs3 Hs2. destruct (Clear (sg_entries s1)) as [[? l]|]; [|apply pace_none]. cbn [mbind option_bind].
  destruct (it_SeekToFirst _) as [it2|]; [|apply pace_none]. cbn [mbind option_bind]. apply pace_bind; [by apply free_loop_pace|].
  intros s2 bs4 bs5 Hs4. destruct (Clear (entry_free_list_ s2)) as [[? fl]|]; [|apply pace_none]. by apply pace_ret.
Qed.
Lemma release_arr_pace b arr : forall cnt bs bs1, short b bs bs1 -> pace b (release_arr arr cnt bs) (release_arr arr cnt bs1).
Proof.
  induction arr as [|s arr IH]; intros cnt bs bs1 Hs; cbn [release_arr]; [by apply pace_ret|].
  apply pace_bind; [by apply segment_pace|]. intros [c s'] bs2 bs3 Hs2. by apply IH.
Qed.
Lemma release_all_pace b segs : forall cnt bs bs1, short b bs bs1 -> pace b (release_all segs cnt bs) (release_all segs cnt bs1).
Proof.
  induction segs as [|[arr|] segs IH]; intros cnt bs bs1 Hs; cbn [release_all]; [by apply pace_ret| |by apply IH].
  apply pace_bind; [by apply release_arr_pace|]. intros c bs2 bs3 Hs2. by apply IH.
Qed.

(** A table whose release frees every block cannot be released when it counts
    too few references to one of them. *)
Lemma short_release b m bs n m1 : short b bs (mt_blocks m) -> MemTable_Release m = Some (n, m1) -> mt_blocks m1 = ∅ -> MemTable_Release (set_mt_blocks bs m) = None.
Proof.
  intros Hs. unfold MemTable_Release. cbn [set_mt_blocks segment_released_ segments_ mt_blocks].
  assert (Hno : forall b1 : blocks, b1 = ∅ -> short b bs b1 -> False) by (intros b1 -> [_ (blk & Hb & _)]; by rewrite lookup_empty in Hb).
  destruct (segment_released_ m); [intros [= _ <-] Hb; by destruct (Hno (mt_blocks m))|]. destruct (segments_ m) as [|x segs]; [intros [= _ <-] Hb; by destruct (Hno (mt_blocks m))|].
  intros Hr Hb. destruct (release_all (x :: segs) 0 (mt_blocks m)) as [[c bs1]|] eqn:E; [|done]. cbn [mbind option_bind] in Hr. injection Hr as <- <-. cbn [mt_blocks] in Hb.
  destruct (release_all_pace b (x :: segs) 0 bs (mt_blocks m) Hs c bs1 E) as [-> | (bs2 & _ & [_ (blk & Hk & _)])]; [done|]. by rewrite Hb, lookup_empty in Hk.
Qed.

(** ** A row with a single timestamp *)

(** The index has no timestamp column, or the one numbered [c]. *)
Definition on_column (c : Z) (d : IndexDef) : bool := match ts_column_ d with Some col => bool_decide (s32 c = cd_ts_idx col) | None => true end.
(** The keys whose index is on column [c] *)
Definition counted (defs : list IndexDef) (c : Z) (km : list (Z * bytes)) : nat :=
  length (filter (fun kv => match defs !! Z.to_nat kv.1 with Some d => on_column c d | None => false end = true) km).

Lemma real_ref_one t defs c time km : index_rep t defs -> km_ok defs km -> forall cnt, 0 <= cnt -> cnt + Z.of_nat (length km) < 2 ^ 32 ->
  real_ref_cnt t (Some [(c, time)]) km cnt = Some (Some (cnt + Z.of_nat (counted defs c km))).
Proof.
  intros Hx. induction km as [|[pos key] km IH]; intros Hkm cnt Hc Hlt; [cbn; by rewrite Z.add_0_r|].
  apply Forall_cons in Hkm as [[Hpos _] Hkm]. cbn [fst] in Hpos. destruct (km_def defs (pos, key) Hpos) as [d Hd]. cbn [fst] in Hd.
  destruct (inner_ready _ _ _ _ Hx (proj1 Hpos) Hd) as (x & p & Hin & Hii & Hdef & Hready). cbn [real_ref_cnt]. rewrite Hin, Hii.
  destruct (ix_ok _ _ Hx _ _ Hd) as (Hr & _). assert (IsReady d = true) as Hrd by (unfold IsReady; by rewrite bool_decide_true). simpl length in Hlt.
  assert (count_ready t (Some [(c, time)]) [p] cnt = Some (Some (cnt + if on_column c d then 1 else 0))) as ->.
  { cbn [count_ready]. rewrite Hdef. cbn [mbind option_bind]. unfold on_column, has_ts. cbn [existsb fst]. rewrite Hrd.
    destruct (ts_column_ d) as [col|]; [|by rewrite uwrap_id by (unfold in_uint; lia)]. rewrite orb_false_r, andb_true_r.
    case_bool_decide; [rewrite uwrap_id by (unfold in_uint; lia)|rewrite Z.add_0_r]; done. }
  cbn [mbind option_bind]. unfold counted. rewrite filter_cons. cbn [fst]. rewrite Hd. fold (counted defs c km).
  destruct (on_column c d); [rewrite decide_True by done|rewrite decide_False by done]; rewrite IH by (done || lia); do 2 f_equal; cbn [length]; unfold counted; lia.
Qed.

Lemma counted_le defs c km : (counted defs c km <= length km)%nat.
Proof. apply length_filter. Qed.

(** No operation changes the column of an index. *)
Lemma counted_pending us defs c km : counted (apply_pending us <$> defs) c km = counted defs c km.
Proof.
  unfold counted. f_equal. apply list_filter_iff. intros kv. rewrite list_lookup_fmap. destruct (defs !! Z.to_nat kv.1) as [d|]; [|done]. cbn.
  unfold on_column. by rewrite pending_ts_column.
Qed.
Lemma counted_op n offset o a c km : counted (at_defs (abs_mem_op n offset o a).2) c km = counted (at_defs a) c km.
Proof. destruct a as [ms defs pend gc]. destruct o; cbn [abs_mem_op]; repeat case_match; cbn [at_defs snd]; by rewrite ?counted_pending. Qed.
Lemma counted_ops n offset c km os : forall a, counted (at_defs (abs_mem_ops n offset os a).2) c km = counted (at_defs a) c km.
Proof.
  induction os as [|o os IH]; intros a; [done|]. cbn [abs_mem_ops]. pose proof (counted_op n offset o a c km) as Ho.
  destruct (abs_mem_op n offset o a) as [out a1]. specialize (IH a1). destruct (abs_mem_ops n offset os a1). cbn in *. congruence.
Qed.

(** Neither the loop nor the row counter looks at the blocks. *)
Lemma put_keys_blocks bs put : forall km m, put_keys_loop (set_mt_blocks bs m) km put = set_mt_blocks bs <$> put_keys_loop m km put.
Proof.
  induction km as [|[pos key] km IH]; intros m; cbn [put_keys_loop]; [done|]. cbn [set_mt_blocks mt_table].
  destruct (GetInnerIndex _ pos) as [x|]; [|done]. cbn [mbind option_bind]. destruct (any_ready _ _) as [ready|]; [|done]. cbn [mbind option_bind].
  destruct ready; [|apply IH]. change (seg_idx_of (set_mt_blocks bs m) key) with (seg_idx_of m key). change (seg_at (set_mt_blocks bs m)) with (seg_at m).
  destruct (seg_at m _ _) as [s|]; [|done]. cbn [mbind option_bind]. destruct (put s key) as [s'|]; [|done]. cbn [mbind option_bind]. apply (IH (set_seg m _ _ s')).
Qed.
Lemma sum_inner_blocks bs f inner : forall m i acc, sum_inner (set_mt_blocks bs m) f i inner acc = sum_inner m f i inner acc.
Proof.
  induction inner as [|x inner IH]; intros m i acc; cbn [sum_inner]; [done|]. cbn [set_mt_blocks mt_table segments_].
  destruct (any_ready _ _) as [b|]; [|done]. cbn [mbind option_bind]. destruct (if b then _ else _); [|done]. apply IH.
Qed.

(** [Put] with one timestamp [(c, time)]: the row goes into the list of every key,
    while its block counts the keys whose index is on column [c]. *)
Lemma put_one_ts n offset m a cs dims c time value km : tab_rep n offset m a cs [] -> 1 <= n -> dims_ok dims -> dims <> [] ->
  dims_keys (length (at_defs a)) dims [] = Some km ->
  exists b m1 cs', mt_blocks m !! b = None /\
    MemTable_Put_ts m dims [(c, time)] value =
      Some (true, set_mt_blocks (<[b := MkDataBlock (Z.of_nat (counted (at_defs a) c km)) value]> (mt_blocks m)) m1) /\
    mt_blocks m1 = <[b := MkDataBlock (Z.of_nat (length km)) value]> (mt_blocks m) /\
    tab_rep n offset m1 (AbsTable (put_all (fun _ => time) value km (at_content a)) (at_defs a) (at_pending a) (at_gc a)) cs' [] /\
    (length (cells_blocks cs') = length km + length (cells_blocks cs))%nat /\ (1 <= length km <= 200)%nat.
Proof.
  intros Ht Hn Hd Hne Hkm. pose proof (tb_index _ _ _ _ _ _ Ht) as Hx.
  destruct (inner_keys_spec _ _ dims Hx Hd []) as [Hik Hok]; [constructor|]. specialize (Hok km Hkm).
  pose proof (dims_keys_length _ _ _ _ Hx Hd Hkm) as Hlen. pose proof (dims_keys_nonempty _ _ _ _ Hkm (or_introl Hne)) as Hkne.
  assert (1 <= length km <= 200)%nat as Hk by (destruct km; simpl in *; [done|lia]). pose proof (counted_le (at_defs a) c km) as Hle.
  destruct (new_row n offset m a cs (length km) value Ht Hk) as (b & Enew & Hf & Hb & Hct). set (bs1 := <[b := MkDataBlock (Z.of_nat (length km)) value]> (mt_blocks m)) in *.
  destruct (put_loop n offset (at_defs a) (fun s key => Put_dims s key [(c, time)] b) (fun _ => time) b (MkDataBlock (Z.of_nat (length km)) value) [] km (set_mt_blocks bs1 m) cs (at_content a))
    as (segs' & cs' & El & Hs' & Hct' & Hb' & Hl'); try done.
  { apply (tb_segs _ _ _ _ _ _ Ht). }
  { apply (tb_cnt _ _ _ _ _ _ Ht). }
  { apply lookup_insert_eq. }
  { intros kv d s _ _ _ Hc1. unfold Put_dims. by rewrite !decide_True. }
  set (bs := <[b := MkDataBlock (Z.of_nat (counted (at_defs a) c km)) value]> (mt_blocks m)).
  exists b, (count_record (Z.of_nat (length value)) (set_segments segs' (set_mt_blocks bs1 m))), cs'. split; [done|]. split; [|split; [done|split; [by eapply row_counted|lia]]].
  unfold MemTable_Put_ts. destruct dims as [|d0 dims']; [done|]. unfold put_row. rewrite Hik, Hkm, (real_ref_one _ _ c time km Hx Hok 0) by lia. cbn [mbind option_bind]. rewrite Z.add_0_l.
  assert (new_block (mt_blocks m) (Z.of_nat (counted (at_defs a) c km)) value = (b, bs)) as ->.
  { unfold new_block in Enew |- *. injection Enew as <- _. unfold bs. by rewrite uwrap_id by (unfold in_uint; lia). }
  change (set_mt_blocks bs m) with (set_mt_blocks bs (set_mt_blocks bs1 m)). rewrite put_keys_blocks, El. done.
Qed.
End miscount.

(** C36: [Put] with timestamps counts the references of a row by the indexes
    that find their timestamp column among those given, but a segment with one
    timestamp column stores a row that has a single timestamp under that
    timestamp whatever its column.  After any sequence of calls, let a row name
    [k] indexes and give one timestamp, of column [c], and let [r < k] of these
    indexes be on [c] or without a column.  The row enters the lists of all [k]
    keys ([GetRecordIdxCnt] grows by [k]) and its block counts [r] references,
    so that [GetRecordIdxCnt] no longer is the number of references counted.
    If it names more than one index ([1 < k]), [Release] is undefined, since the
    block is gone before the last list drops it: with [k] as the count of that
    one block, and nothing else changed, [Release] frees every block.  The table
    is any whose description gives each index an inner index of its own, which
    plain descriptions do, and so do indexes on different timestamp columns. *)
Theorem memtable_block_miscounted `{SmallLayout} `{TableFlags} (meta : TableMeta) (m0 : MemTable) (os : list mem_op)
    (dims : list (Z * bytes)) (c time : Z) (value : bytes) (km : list (Z * bytes)) :
  flags_ok -> MemTable_Init (MemTable_of meta) = Some (true, m0) -> index_built (mt_index m0) (defs_of (mt_index m0)) ->
  Forall (mem_op_ok (defs_of (mt_index m0))) os -> 200 * Z.of_nat (S (length os)) < 2 ^ 64 ->
  dims_ok dims -> dims <> [] -> dims_keys (length (defs_of (mt_index m0))) dims [] = Some km ->
  let r := counted (defs_of (mt_index m0)) c km in
  (r < length km)%nat ->
  exists outs m m' b, run_mem_ops os m0 = Some (outs, m) /\ MemTable_Put_ts m dims [(c, time)] value = Some (true, m') /\
    mt_blocks m !! b = None /\ mt_blocks m' = <[b := MkDataBlock (Z.of_nat r) value]> (mt_blocks m) /\
    GetRecordIdxCnt m = Some (block_refs (mt_blocks m)) /\
    GetRecordIdxCnt m' = Some (block_refs (mt_blocks m) + Z.of_nat (length km)) /\
    block_refs (mt_blocks m') = block_refs (mt_blocks m) + Z.of_nat r /\
    ((1 < length km)%nat -> MemTable_Release m' = None) /\
    exists total m'', MemTable_Release (set_mt_blocks (<[b := MkDataBlock (Z.of_nat (length km)) value]> (mt_blocks m)) m') = Some (total, m'') /\ mt_blocks m'' = ∅.
Proof.
  intros Hf Hi Hx Hos Hlen Hd Hne Hkm r Hr. destruct (MemTable_Init_built meta m0 _ Hf Hi Hx) as (Hn & cs & Ht & Hcs & _).
  destruct (sim_mem_ops (seg_cnt_ m0) new_offset Hn os m0 _ cs Ht Hos) as (m & cs' & Hrun & Ht' & Hl); [rewrite Hcs; cbn [length]; lia|].
  pose proof (abs_ops_defs (seg_cnt_ m0) new_offset os (abs_table_new m0)) as Hdefs. rewrite Hcs in Hl. cbn [length] in Hl.
  pose proof (counted_ops (seg_cnt_ m0) new_offset c km os (abs_table_new m0)) as Hcnt.
  destruct (abs_mem_ops _ _ os (abs_table_new m0)) as [outs a]. cbn [fst snd abs_table_new at_defs] in *. fold r in Hcnt. rewrite <- Hdefs in Hkm.
  destruct (put_one_ts _ _ m a cs' dims c time value km Ht' Hn Hd Hne Hkm) as (b & m1 & cs1 & Hb & Hput & Hb1 & Ht1 & Hl1 & Hk).
  rewrite Hcnt in Hput. exists outs, m. eexists. exists b. split; [done|]. split; [exact Hput|]. split; [done|]. split; [done|].
  pose proof (table_refs _ _ _ _ _ Ht1 ltac:(lia)) as Hr1. rewrite Hb1, block_refs_insert in Hr1 by done.
  split; [by eapply table_refs; [exact Ht'|lia]|].
  split; [unfold GetRecordIdxCnt in *; rewrite sum_inner_blocks; cbn [set_mt_blocks mt_table]; rewrite Hr1; cbn [dim_cnt_down]; f_equal; lia|].
  split; [cbn [set_mt_blocks mt_blocks]; rewrite block_refs_insert by done; cbn [dim_cnt_down]; lia|].
  destruct (MemTable_Release_spec _ _ _ _ _ Ht1) as (m2 & E & Hb2 & _); [cbn [at_defs]; intros Hz; destruct km as [|[k ?] km]; [cbn [length] in Hk; lia|]; destruct (inner_keys_spec _ _ dims (tb_index _ _ _ _ _ _ Ht') Hd []) as [_ Hok]; [constructor|];
    specialize (Hok _ Hkm); apply Forall_cons in Hok as [[Hk0 _] _]; rewrite Hz in Hk0; cbn in Hk0; lia|].
  split; [|eexists _, m2; split; [|exact Hb2]; rewrite <- E; f_equal; rewrite <- Hb1; by destruct m1].
  intros Hk1. eapply short_release; [|exact E|exact Hb2]. rewrite Hb1. split; [intros b' Hb'; by rewrite !lookup_insert_ne|].
  eexists. rewrite !lookup_insert_eq. split; [done|]. split; [cbn [dim_cnt_down]; lia|]. intros blk [= <-]. cbn [dim_cnt_down]. lia.
Qed.

(** Two indexes with a timestamp column each *)
Definition two_ts_meta : TableMeta :=
  let column (name type : string) := MkColumnMeta (str name) (str type) false false None None None None in
  let key (name ts : string) := MkColumnKey (str name) [str name] [str ts] 0 None in
  MkTableMeta 0 kAbsoluteTime (Some (MkTTLDesc kLatestTime 0 1)) 2 None None []
    [column "card"%string "string"%string; column "mcc"%string "string"%string; column "ts1"%string "bigint"%string; column "ts2"%string "bigint"%string]
    [key "card"%string "ts1"%string; key "mcc"%string "ts2"%string] [] [].
Definition two_ts_table : MemTable := match MemTable_Init (MemTable_of two_ts_meta) with Some (_, m) => m | None => MemTable_of two_ts_meta end.

Definition two_ts_defs : list IndexDef := Eval vm_compute in defs_of (mt_index two_ts_table).
Lemma two_ts_built : index_built (mt_index two_ts_table) (defs_of (mt_index two_ts_table)).
Proof.
  assert (Ed : defs_of (mt_index two_ts_table) = two_ts_defs) by (vm_compute; reflexivity).
  assert (Ei : indexs_ (mt_index two_ts_table) = [0; 1]%nat) by (vm_compute; reflexivity). rewrite Ed.
  split; [split|vm_compute; reflexivity|refine (bool_decide_unpack _ _); vm_compute; reflexivity].
  - vm_compute. reflexivity.
  - rewrite Ei. refine (bool_decide_unpack _ _). vm_compute. reflexivity.
  - vm_compute. reflexivity.
  - rewrite Ei. unfold two_ts_defs. constructor; [vm_compute; reflexivity|]. constructor; [vm_compute; reflexivity|constructor].
  - intros idx Hi. unfold GetInnerIndexPos. replace (column_key_2_inner_index_ (mt_index two_ts_table)) with ([0; 1] ++ replicate 198 (-1)) by (vm_compute; reflexivity).
    change (length two_ts_defs) with 2%nat. clear - Hi. case_decide as Hd.
    + assert (idx = 0 \/ idx = 1) as [-> | ->] by lia; reflexivity.
    + rewrite lookup_app_r by (cbn; lia). destruct (replicate 198 (-1) !! _) as [x|] eqn:E; [|reflexivity]. apply lookup_replicate in E as [-> _]. reflexivity.
  - unfold two_ts_defs. intros [|[|i]] d Hd; [| |discriminate Hd]; injection Hd as <-;
      (split; [reflexivity|]; split; [reflexivity|]; split; [eexists; split; [reflexivity|]; vm_compute; split; congruence|]; split; [vm_compute; split; congruence|reflexivity]).
  - refine (bool_decide_unpack _ _). vm_compute. reflexivity.
Qed.

Lemma memtable_block_miscounted_witness : exists outs m m',
  run_mem_ops [MPutTs [(0, [1]); (1, [2])] [(0, 10); (1, 11)] [7]] two_ts_table = Some (outs, m) /\
  MemTable_Put_ts m [(0, [1]); (1, [2])] [(0, 20)] [8] = Some (true, m') /\
  block_refs (mt_blocks m') = block_refs (mt_blocks m) + 1 /\ GetRecordIdxCnt m' = Some (block_refs (mt_blocks m) + 2) /\ MemTable_Release m' = None.
Proof.
  assert (Hi : MemTable_Init (MemTable_of two_ts_meta) = Some (true, two_ts_table)) by (by vm_compute).
  assert (Hos : Forall (mem_op_ok (defs_of (mt_index two_ts_table))) [MPutTs [(0, [1]); (1, [2])] [(0, 10); (1, 11)] [7]]) by (apply (bool_decide_unpack _); by vm_compute).
  assert (Hd : dims_ok [(0, [1]); (1, [2])]) by (apply (bool_decide_unpack _); by vm_compute).
  destruct (memtable_block_miscounted two_ts_meta two_ts_table _ [(0, [1]); (1, [2])] 0 20 [8] [(0, [1]); (1, [2])] default_flags_ok Hi two_ts_built Hos)
    as (outs & m & m' & b & Hrun & Hput & _ & _ & _ & Hidx & Hrefs & Hrel & _); [done|exact Hd|done|by vm_compute|vm_compute; lia|].
  exists outs, m, m'. split; [exact Hrun|]. split; [exact Hput|]. split; [rewrite Hrefs; f_equal; by vm_compute|]. split; [exact Hidx|]. apply Hrel. cbn. lia.
Defined.
