(* ===== verification/MemTableLaws.v ===== *)
(** The memory table as the table of a partition: it keeps what the log, the
    replicator and the tablet rely on ([TableLaws]), and what snapshots rely on
    ([SnapshotLaws]). *)
From S2P Require Import Prelude Slice Skiplist SkiplistSpec Segment SegmentGc SegmentInv SegmentGcInv SegmentOps StdMap LogRoll Hash TableIndex.
From S2P Require Import TableParse Table MemTable MemTableGc Binlog BinlogRecover TableLaws MemTableInv TableParseThms MemTableOps MemTablePut.
From S2P Require Import MemTableSched MemTableVisible Snapshot SnapshotTable.

(** ** The calls keep the leader flag *)
Section leader.
Context `{Layout} `{TableFlags}.

Abbreviation leader m := (is_leader_ (mt_table m)).

Lemma put_keys_leader put km : forall m m', put_keys_loop m km put = Some m' -> leader m' = leader m.
Proof.
  induction km as [|[pos key] km IH]; intros m m'; cbn [put_keys_loop]; [by intros [= <-]|].
  destruct (GetInnerIndex _ _) as [i|]; [|done]. rewrite bind_some. destruct (any_ready _ _) as [b|]; [|done]. rewrite bind_some. destruct b; [|by rewrite bind_some; apply IH].
  destruct (seg_at _ _ _) as [s|]; [|done]. cbv zeta. rewrite bind_some. destruct (put s key) as [s'|]; [|done]. rewrite !bind_some. intros Hm. by rewrite (IH _ _ Hm).
Qed.
Lemma put_row_leader m dims ts value put b m' : put_row m dims ts value put = Some (b, m') -> leader m' = leader m.
Proof.
  unfold put_row. destruct (inner_keys _ _ _) as [km|]; [|by intros [= _ <-]]. destruct (real_ref_cnt _ _ _ _) as [[cnt|]|]; [|by intros [= _ <-]|done].
  rewrite bind_some. destruct (new_block _ _ _) as [blk bs]. destruct (put_keys_loop _ _ _) as [m1|] eqn:Hp; [|done]. rewrite bind_some. intros [= _ <-].
  apply put_keys_leader in Hp. exact Hp.
Qed.
Lemma sched_status_leader i size ps : forall m map need del st r, sched_status m i size ps map need del st = Some r -> leader r.1.1.1.1 = leader m.
Proof.
  induction ps as [|p ps IH]; intros m map need del st r; cbn [sched_status]; [by intros [= <-]|].
  destruct (def_at _ _) as [d|]; [|done]. rewrite bind_some. destruct (ttl_st_ d) as [ttl|]; [|done]. rewrite bind_some. cbv zeta. destruct (status_ d).
  - apply IH.
  - destruct (upd_def _ _ _) as [t|]; [|done]. rewrite bind_some. intros Hr. by rewrite (IH _ _ _ _ _ _ Hr).
  - assert (Hrest : forall m1 del1 st1, leader m1 = leader m ->
      (t ← upd_def (mt_index m1) p (SetStatus kDeleted); sched_status (set_index t m1) i size ps (emplace Z_before (ttl_key d) ttl map) need del1 st1) = Some r -> leader r.1.1.1.1 = leader m).
    { intros m1 del1 st1 Hm1. destruct (upd_def _ _ _) as [t|]; [|done]. rewrite bind_some. intros Hr. by rewrite (IH _ _ _ _ _ _ Hr). }
    case_decide; [|rewrite bind_some; by apply Hrest]. destruct (segments_ m !! i) as [[arr|]|]; [| |done]; rewrite !bind_some; [|by apply Hrest].
    destruct (release_count_arr _ _ _) as [[[arr' bs] st1]|]; [|done]. rewrite !bind_some. by apply Hrest.
  - apply IH.
Qed.
Lemma sched_loop_leader micros inner : forall i m st r, sched_loop m micros i inner st = Some r -> leader r.1 = leader m.
Proof.
  induction inner as [|x inner IH]; intros i m st r; cbn [sched_loop]; [by intros [= <-]|].
  destruct (sched_status _ _ _ _ _ _ _ _) as [[[[[m1 map] need] del] st1]|] eqn:Hs; [|done]. apply sched_status_leader in Hs. cbn [fst] in Hs. rewrite bind_some. rewrite <- Hs.
  destruct (negb _ || negb _); [apply IH|]. case_decide; [apply IH|]. destruct (mjoin _) as [arr|]; [|done]. rewrite bind_some.
  destruct (gc_arr _ _ _ _ _ _) as [[[arr' bs] st2]|]; [|done]. rewrite bind_some. intros Hr. by rewrite (IH _ _ _ _ Hr).
Qed.
Lemma mem_op_leader o m b m' : run_mem_op o m = Some (b, m') -> leader m' = leader m.
Proof.
  destruct o; cbn [run_mem_op].
  - unfold MemTable_Put. destruct (segments_ m) eqn:Hseg; [by intros [= _ <-]|]. cbv zeta. destruct (seg_at _ _ _) as [s|]; [|done]. rewrite bind_some.
    destruct (Segment.Put _ _ _ _ _) as [[s' bs]|]; [|done]. rewrite bind_some. by intros [= _ <-].
  - apply put_row_leader.
  - unfold MemTable_Put_ts. destruct dims, ts_dims; try (by intros [= _ <-]). apply put_row_leader.
  - unfold MemTable_Delete. destruct (ready_index _ _) as [[d|]|]; [|by intros [= _ <-]|done]. rewrite bind_some. cbv zeta. destruct (seg_at _ _ _) as [s|]; [|done]. rewrite bind_some.
    destruct (Segment.Delete _ _) as [[ok s']|]; [|done]. rewrite bind_some. by intros [= _ <-].
  - unfold SchedGc. destruct (sched_loop _ _ _ _ _) as [[m1 st]|] eqn:Hs; [|done]. apply sched_loop_leader in Hs. cbn [fst] in Hs. rewrite bind_some. cbv zeta.
    destruct (UpdateTTL _) as [t|] eqn:Hu; [|done]. rewrite !bind_some. intros [= _ <-]. rewrite <- Hs. cbn. unfold UpdateTTL in Hu. cbn [set_records mt_table] in Hu.
    destruct (update_ttl_ (mt_table m1)); [by injection Hu as <-|]. destruct (apply_ttls _ _ _); [|done]. rewrite bind_some in Hu. by injection Hu as <-.
  - by intros [= _ <-].
  - by intros [= _ <-].
Qed.
End leader.

(** ** The instance *)
Section laws.
Context `{SmallLayout} `{TableFlags} (n offset : Z) (defs : list IndexDef) (Hn : 1 <= n).

(** The call a log entry makes *)
Definition entry_op (e : LogEntry) : mem_op :=
  match le_dimensions e with
  | _ :: _ =>
      match le_ts_dimensions e with
      | _ :: _ => MPutTs (le_dimensions e) (le_ts_dimensions e) (le_value e)
      | [] => MPutDims (le_ts e) (le_value e) (le_dimensions e)
      end
  | [] => MPut (le_pk e) (le_ts e) (le_value e)
  end.
Lemma tbl_Put_op m e : tbl_Put m e = run_mem_op (entry_op e) m.
Proof using. unfold tbl_Put, entry_op. by destruct (le_dimensions e), (le_ts_dimensions e). Qed.

(** Room for [k] calls that are admissible for [defs] *)
Definition mem_rep (k : nat) (m : MemTable) (a : abs_table * bool) : Prop :=
  exists cs, tab_rep n offset m a.1 cs [] /\ Z.of_nat (length (cells_blocks cs)) + 200 * Z.of_nat k < 2 ^ 64 /\
    (forall o, mem_op_ok defs o -> mem_op_ok (at_defs a.1) o) /\ is_leader_ (mt_table m) = a.2.

Definition mem_call (o : mem_op) (a : abs_table * bool) : bool * (abs_table * bool) := ((abs_mem_op n offset o a.1).1, ((abs_mem_op n offset o a.1).2, a.2)).
Lemma mem_call_rep k m a o : mem_rep (S k) m a -> mem_op_ok defs o -> exists m', run_mem_op o m = Some ((mem_call o a).1, m') /\ mem_rep k m' (mem_call o a).2.
Proof using All.
  intros (cs & Ht & Hb & Hop & Hl) Ho. destruct (sim_mem_op n offset o m a.1 cs Ht Hn (Hop o Ho) ltac:(lia)) as (m' & cs' & Hr & Ht' & Hc).
  exists m'. split; [exact Hr|]. exists cs'. split; [exact Ht'|]. split; [lia|]. split; [intros o' Ho'; by apply abs_op_ok, Hop|].
  cbn [mem_call snd]. rewrite <- Hl. by eapply mem_op_leader.
Qed.

(** Refused calls *)
Lemma mem_refused o a : match o with MPut _ _ _ | MPutDims _ _ _ | MPutTs _ _ _ | MDelete _ _ => True | _ => False end ->
  (abs_mem_op n offset o a).1 = false -> (abs_mem_op n offset o a).2 = a.
Proof using.
  destruct a as [ms ds pend gc]. destruct o; cbn [abs_mem_op]; try done; intros _; repeat case_match; try done. cbn [fst snd]. intros Hf%bool_decide_eq_false.
  rewrite delete_id by (by apply eq_None_not_Some). by rewrite list_insert_id.
Qed.

(** The first index with a name *)
Definition index_named (ds : list IndexDef) (name : bytes) : option Z := index_id_ <$> (snd <$> list_find (fun d => name_ d = name) ds).
Lemma find_named t ps ds name : Forall2 (fun p d => def_at t p = Some d) ps ds ->
  match list_find (fun d => name_ d = name) ds with
  | Some (i, d) => exists p, find_def t (name_is name) ps = Some (Some p) /\ def_at t p = Some d /\ ds !! i = Some d
  | None => find_def t (name_is name) ps = Some None
  end.
Proof using.
  induction 1 as [|p d ps ds Hd _ IH]; [done|]. cbn [list_find find_def]. rewrite Hd, bind_some. case_decide as Hname.
  - replace (name_is name d) with true by (symmetry; by apply bool_decide_true). exists p. done.
  - replace (name_is name d) with false by (symmetry; by apply bool_decide_false). destruct (list_find _ ds) as [[i x]|]; exact IH.
Qed.

Lemma ReadyIndexId_named m a cs name : tab_rep n offset m a cs [] -> ReadyIndexId m name = Some (index_named (at_defs a) name).
Proof using.
  intros Ht. pose proof (tb_index _ _ _ _ _ _ Ht) as Hx. unfold ReadyIndexId, GetIndex_name, index_named. rewrite (ix_multi _ _ Hx).
  pose proof (find_named _ _ _ name (ix_defs _ _ Hx)) as Hf. destruct (list_find _ (at_defs a)) as [[i d]|]; [|rewrite Hf; by rewrite bind_some].
  destruct Hf as (p & -> & Hd & Hi). rewrite bind_some. unfold ready_index. rewrite Hd, bind_some. destruct (ix_ok _ _ Hx _ _ Hi) as [Hs _].
  unfold IsReady. rewrite bool_decide_true by done. done.
Qed.

#[refine] Definition memtable_laws : TableLaws MemTable := {|
  table_abs := abs_table * bool;
  table_rep := mem_rep;
  put_ok e := mem_op_ok defs (entry_op e);
  clock_ok _ := True;
  table_put a e := mem_call (entry_op e) a;
  table_delete a key idx := mem_call (MDelete key idx) a;
  table_gc a now := (mem_call (MSchedGc now) a).2;
  table_leader a := a.2;
  table_idx_cnt a := u32 (Z.of_nat (length (at_defs a.1)));
  table_index a name := index_named (at_defs a.1) name
|}.
Proof using All.
  - intros k k' m a Hk (cs & ? & ? & ? & ?). exists cs. split_and!; try done. lia.
  - intros k m a e Hr Ho. rewrite tbl_Put_op. by apply mem_call_rep.
  - intros k m a key idx Hr Hi. by apply (mem_call_rep k m a (MDelete key idx)).
  - intros k m a now Hr _. destruct (mem_call_rep k m a (MSchedGc now) Hr ltac:(done)) as (m' & Hm & Hr'). exists m'. split; [|done]. cbn [run_mem_op] in Hm.
    cbn [tbl_SchedGc memtable_ops]. destruct (SchedGc m now) as [m1|]; [|done]. rewrite bind_some in Hm. by injection Hm as _ ->.
  - intros k m a (cs & _ & _ & _ & Hl). exact Hl.
  - intros k m a (cs & Ht & _). pose proof (tb_index _ _ _ _ _ _ Ht) as Hx. cbn [tbl_GetIdxCnt memtable_ops]. unfold Size. rewrite (ix_multi _ _ Hx).
    by rewrite (Forall2_length _ _ _ (ix_defs _ _ Hx)).
  - intros k m a name (cs & Ht & _). split; [exact (ReadyIndexId_named m a.1 cs name Ht)|]. intros i. unfold index_named.
    destruct (list_find _ _) as [[j d]|] eqn:Hf; [|done]. intros [= <-]. apply list_find_Some in Hf as [Hd _]. pose proof (tb_index _ _ _ _ _ _ Ht) as Hx. destruct (ix_ok _ _ Hx _ _ Hd) as (_ & _ & _ & _ & ->).
    pose proof (ix_num _ _ Hx). apply lookup_lt_Some in Hd. unfold MAX_INDEX_NUM in *. lia.
  - done.
  - intros [a l] e Hf. cbn [mem_call fst snd] in *. f_equal. apply mem_refused; [|done]. unfold entry_op. by destruct (le_dimensions e), (le_ts_dimensions e).
  - intros [a l] key idx Hf. cbn [mem_call fst snd] in *. f_equal. by apply mem_refused.
  - done.
  - done.
  - done.
Defined.

(** ** Expiry *)

(** [IsExpire] on the contents of an index: [Some b] when it returns [b] *)
Definition abs_expire_index (a : abs_table) (micros : Z) (e : LogEntry) (i : nat) (d : IndexDef) (key : bytes) : option bool :=
  ttl ← ttl_st_ d;
  if negb (NeedGc ttl) then Some false
  else
    ts ← match ts_column_ d with
         | None => Some (le_ts e)
         | Some c => map_find (u32 (cd_ts_idx c)) (foldl (fun m d => emplace Z_before d.1 d.2 m) [] (le_ts_dimensions e))
         end;
    let expire := if negb (at_gc a) || bool_decide (abs_ttl ttl = 0) || bool_decide (ttl_type ttl = kLatestTime) then 0 else u64 (micros / 1000 - abs_ttl ttl) in
    let absolute := negb (bool_decide (expire <= ts)) in
    let latest := behind ts (default [] (content ← at_content a !! i; content !! key)) in
    match ttl_type ttl with
    | kLatestTime => if latest then None else Some false
    | kAbsoluteTime => if absolute then None else Some false
    | kAbsOrLat => if absolute || latest then None else Some false
    | kAbsAndLat => if absolute && latest then None else Some false
    | kRelativeTime => Some true
    end.
Fixpoint abs_expire_keys (a : abs_table) (micros : Z) (e : LogEntry) (km : list (Z * bytes)) : bool :=
  match km with
  | [] => true
  | (pos, key) :: rest =>
      match d ← at_defs a !! Z.to_nat pos; abs_expire_index a micros e (Z.to_nat pos) d key with
      | Some b => b
      | None => abs_expire_keys a micros e rest
      end
  end.
(** The keys by index; dimensions without an index are passed over. *)
Definition index_keys (k : nat) : list (Z * bytes) -> list (Z * bytes) -> list (Z * bytes) :=
  foldl (fun km d => if decide (d.1 < Z.of_nat k) then emplace Z_before d.1 d.2 km else km).
Definition abs_IsExpire (a : abs_table) (micros : Z) (e : LogEntry) : bool :=
  if negb (at_gc a) then false else abs_expire_keys a micros e (index_keys (length (at_defs a)) [] (entry_dims e)).

Lemma expire_index_rep m a cs micros e i d p key : tab_rep n offset m a cs [] -> at_defs a !! i = Some d -> def_at (mt_index m) p = Some d ->
  expire_indexes m micros e key [p] = Some (abs_expire_index a micros e i d key, m).
Proof using H0 H1 Hn.
  intros Ht Hd Hp. destruct (ix_ok _ _ (tb_index _ _ _ _ _ _ Ht) _ _ Hd) as (Hs & _ & (ttl & Httl & _) & _ & _). pose proof (lookup_lt_Some _ _ _ Hd) as Hlt.
  cbn [expire_indexes]. rewrite Hp, bind_some. unfold IsReady. rewrite bool_decide_true by done. cbn [negb]. unfold abs_expire_index. rewrite Httl, !bind_some.
  destruct (NeedGc ttl); [|done]. cbn [negb]. set (time := match ts_column_ d with None => _ | Some _ => _ end). destruct time as [ts|]; [|done]. rewrite bind_some.
  unfold CheckAbsolute, GetExpireTime. rewrite (tb_gc _ _ _ _ _ _ Ht). set (absolute := negb (bool_decide (_ <= ts))).
  pose proof (index_check n offset m a cs Ht Hn i key ts Hlt d Hd) as Hck. destruct (ttl_type ttl) eqn:Hty; rewrite ?Hck, ?bind_some.
  all: try destruct absolute; cbn [orb andb]; rewrite ?Hck, ?bind_some; try (rewrite decide_False by done); try done; by destruct (behind _ _).
Qed.
Lemma expire_keys_rep m a cs micros e km : tab_rep n offset m a cs [] -> Forall (fun kv => 0 <= kv.1 < Z.of_nat (length (at_defs a))) km ->
  expire_keys m micros e km = Some (abs_expire_keys a micros e km, m).
Proof using H0 H1 Hn.
  intros Ht. induction 1 as [|[pos key] km Hpos Hkm IH]; [done|]. cbn [expire_keys abs_expire_keys fst] in *. pose proof (tb_index _ _ _ _ _ _ Ht) as Hx.
  destruct (lookup_lt_is_Some_2 (at_defs a) (Z.to_nat pos)) as [d Hd]; [lia|]. destruct (ix_inner_at _ _ _ _ Hx Hd) as (x & p & Hi & Hix & Hp).
  unfold GetInnerIndex. rewrite Hi, Hix, (expire_index_rep m a cs micros e _ d p key Ht Hd Hp), Hd, !bind_some. by destruct (abs_expire_index _ _ _ _ _ _).
Qed.
Lemma IsExpire_abs m a cs micros e : tab_rep n offset m a cs [] -> Forall (fun d => 0 <= d.1) (entry_dims e) -> IsExpire m micros e = Some (abs_IsExpire a micros e, m).
Proof using H0 H1 Hn.
  intros Ht Hdims. unfold IsExpire, abs_IsExpire. rewrite (tb_gc _ _ _ _ _ _ Ht). destruct (at_gc a); [|done]. cbn [negb]. fold (entry_dims e).
  pose proof (tb_index _ _ _ _ _ _ Ht) as Hx. set (good := Forall (fun kv : Z * bytes => 0 <= kv.1 < Z.of_nat (length (at_defs a)))).
  assert (Hfold : forall km, good km -> foldl (fun km d => if decide (0 <= GetInnerIndexPos (mt_index m) d.1) then emplace Z_before (GetInnerIndexPos (mt_index m) d.1) d.2 km else km) km (entry_dims e) =
    index_keys (length (at_defs a)) km (entry_dims e) /\ good (index_keys (length (at_defs a)) km (entry_dims e))).
  { induction Hdims as [|[idx key] dims Hidx Hdims IH]; intros km Hkm; [done|]. unfold index_keys in *. cbn [foldl fst snd] in *. rewrite (ix_pos _ _ Hx idx Hidx).
    destruct (decide (idx < Z.of_nat (length (at_defs a)))); [rewrite decide_True by done|rewrite decide_False by lia; by apply IH]. apply IH.
    apply Forall_forall. intros x [->|Hin]%emplace_elem; [cbn; lia|]. unfold good in Hkm. rewrite Forall_forall in Hkm. by apply Hkm. }
  destruct (Hfold [] ltac:(constructor)) as [-> Hg]. by apply (expire_keys_rep m a cs).
Qed.

(** ** Rows *)

Lemma dims_keys_find k dims i : forall km km', map_wf Z_before km -> dims_keys k dims km = Some km' ->
  map_find i km' = match map_find i km with Some v => Some v | None => (fun x => x.2.2) <$> list_find (fun d => d.1 = i) dims end.
Proof using.
  induction dims as [|[idx key] dims IH]; intros km km' Hw; cbn [dims_keys list_find]; [intros [= <-]; by destruct (map_find i km)|]. case_decide; [|done]. intros Hk.
  rewrite (IH _ km' (emplace_wf _ Z_before_irrefl Z_before_trans Z_before_total _ _ _ Hw) Hk), (map_find_emplace _ Z_before_irrefl Z_before_trans Z_before_total _ _ _ _ Hw). cbn [fst].
  destruct (decide (i = idx)) as [->|Hne]; [rewrite decide_True by done; by destruct (map_find idx km)|]. rewrite decide_False by congruence. destruct (map_find i km); [done|]. by destruct (list_find _ dims) as [[]|].
Qed.
Lemma dims_keys_some k dims : forall km, is_Some (dims_keys k dims km) <-> Forall (fun d => d.1 < Z.of_nat k) dims.
Proof using.
  induction dims as [|[idx key] dims IH]; intros km; cbn [dims_keys]; [split; eauto|]. rewrite Forall_cons, <- (IH (emplace Z_before idx key km)). cbn [fst].
  case_decide; [tauto|]. split; [by intros []|by intros [? _]].
Qed.

(** The rows under a key of an index *)
Definition rows_at (cs : list content) (i : Z) (k : bytes) : option (list rowv) := if decide (0 <= i) then content ← cs !! Z.to_nat i; content !! k else None.
Lemma rows_at_alter cs i0 f i k : 0 <= i0 -> rows_at (alter f (Z.to_nat i0) cs) i k = if decide (i = i0) then content ← cs !! Z.to_nat i0; f content !! k else rows_at cs i k.
Proof using.
  intros Hi0. unfold rows_at. destruct (decide (i = i0)) as [->|Hne]; [rewrite decide_True by done; rewrite list_lookup_alter_eq; by destruct (cs !! Z.to_nat i0)|].
  case_decide; [|done]. by rewrite list_lookup_alter_ne by lia.
Qed.
Lemma put_all_rows time value km : forall cs i k, map_wf Z_before km -> Forall (fun kv => 0 <= kv.1 < Z.of_nat (length cs)) km ->
  rows_at (put_all time value km cs) i k = if decide (map_find i km = Some k) then Some (add_row (time (Z.to_nat i)) value (default [] (rows_at cs i k))) else rows_at cs i k.
Proof using.
  intros cs i k Hw. revert cs. induction Hw as [|[i0 k0] km Hw IH Hall]; intros cs Hkm; [done|]. apply Forall_cons in Hkm as [Hi0 Hkm]. cbn [fst] in *. unfold put_all. cbn [foldl fst snd].
  fold (put_all time value km (alter (abs_put k0 (time (Z.to_nat i0)) value) (Z.to_nat i0) cs)). rewrite IH by (by rewrite length_alter). rewrite rows_at_alter by lia. cbn [map_find].
  assert (Hno : map_find i0 km = None) by (apply (map_find_absent _ Z_before_irrefl); eapply Forall_impl; [exact Hall|]; by intros []).
  destruct (decide (i = i0)) as [->|Hne]; [|done]. rewrite Hno, decide_False by done. unfold rows_at. rewrite !(decide_True (P := 0 <= i0)) by lia.
  destruct (lookup_lt_is_Some_2 cs (Z.to_nat i0)) as [c Hc]; [lia|]. rewrite Hc, !bind_some. unfold abs_put. destruct (decide (Some k0 = Some k)) as [[= ->]|Hk]; [by rewrite lookup_insert_eq|]. by rewrite lookup_insert_ne by congruence.
Qed.

(** A put that is accepted *)
Definition put_time (ds : list IndexDef) (e : LogEntry) (i : nat) : Z :=
  match le_dimensions e, le_ts_dimensions e with _ :: _, _ :: _ => def_time ds (le_ts_dimensions e) i | _, _ => le_ts e end.
Definition sized (a : abs_table * bool) : Prop := length (at_content a.1) = length (at_defs a.1) /\ forall o, mem_op_ok defs o -> mem_op_ok (at_defs a.1) o.

Lemma put_km a e : sized a -> mem_op_ok defs (entry_op e) -> (mem_call (entry_op e) a).1 = true ->
  exists km, map_wf Z_before km /\ Forall (fun kv => 0 <= kv.1 < Z.of_nat (length (at_defs a.1))) km /\ (forall i, map_find i km = entry_key e i) /\
    mem_call (entry_op e) a = (true, (AbsTable (put_all (put_time (at_defs a.1) e) (le_value e) km (at_content a.1)) (at_defs a.1) (at_pending a.1) (at_gc a.1), a.2)).
Proof using.
  intros [Hlen Hok] Ho. destruct a as [[cs ds pend gc] l]. cbn [fst snd at_content at_defs at_pending at_gc] in *. specialize (Hok _ Ho). unfold mem_call, entry_op, put_time, entry_key, entry_dims in *. cbn [fst snd].
  assert (Hkm : forall dims km, dims_ok dims -> dims_keys (length ds) dims [] = Some km -> map_wf Z_before km /\ Forall (fun kv => 0 <= kv.1 < Z.of_nat (length ds)) km /\ forall i, map_find i km = (fun x => x.2.2) <$> list_find (fun d => d.1 = i) dims).
  { intros dims km Hd Hk. split; [eapply dims_keys_wf; [|exact Hk]; constructor|]. split; [|intros i; by apply (dims_keys_find _ _ i [] km ltac:(constructor) Hk)].
    pose proof (proj1 (dims_keys_some (length ds) dims []) ltac:(by eexists)) as Hlt. apply Forall_forall. intros kv Hin. destruct (dims_keys_elem _ _ _ _ _ Hk Hin) as [[]%not_elem_of_nil|Hin'].
    unfold dims_ok in Hd. rewrite Forall_forall in Hlt, Hd. specialize (Hlt _ Hin'). destruct (Hd _ Hin'). lia. }
  destruct (le_dimensions e) as [|d dims]; [|destruct (le_ts_dimensions e) as [|t tss]]; cbn [abs_mem_op mem_op_ok fst snd] in *; intros Hacc.
  - exists [(0, le_pk e)]. split; [repeat constructor|]. split; [constructor; [|constructor]; cbn; destruct Hok as [_ Hne]; destruct ds; [done|cbn; lia]|]. split; [|done].
    intros i. cbn [map_find list_find fst]. destruct (decide (i = 0)), (decide (0 = i)); try done; congruence.
  - destruct (dims_keys (length ds) (d :: dims) []) as [km|] eqn:Hk; [|done]. destruct (Hkm _ km (proj1 Hok) Hk) as (K1 & K2 & K3). exists km. split; [done|]. split; [done|]. split; [done|].
    by destruct (existsb _ km).
  - rewrite decide_False in * by (by intros [?|?]). destruct (dims_keys (length ds) (d :: dims) []) as [km|] eqn:Hk; [|done]. destruct (Hkm _ km (proj1 Hok) Hk) as (K1 & K2 & K3). exists km. split; [done|]. split; [done|]. by split.
Qed.

Lemma put_fewer_dims a e dims : sized a -> mem_op_ok defs (entry_op e) -> (mem_call (entry_op e) a).1 = true -> sublist dims (le_dimensions e) -> (dims = [] <-> le_dimensions e = []) ->
  mem_op_ok defs (entry_op (set_dimensions dims e)) /\ (mem_call (entry_op (set_dimensions dims e)) a).1 = true /\ forall i, put_time (at_defs a.1) (set_dimensions dims e) i = put_time (at_defs a.1) e i.
Proof using.
  intros [Hlen Hok] Ho. destruct a as [[cs ds pend gc] l]. cbn [fst snd at_content at_defs] in *. unfold mem_call, entry_op, put_time in *. cbn [set_dimensions le_dimensions le_ts_dimensions le_ts le_pk le_value fst].
  assert (Hkeys : forall all km, sublist dims all -> dims_keys (length ds) all [] = Some km -> exists km', dims_keys (length ds) dims [] = Some km' /\ forall i, i ∈ km'.*1 -> i ∈ km.*1).
  { intros all km Hs Hk. pose proof (proj1 (dims_keys_some (length ds) all []) ltac:(by eexists)) as Hlt. destruct (proj2 (dims_keys_some (length ds) dims [])) as [km' Hk'].
    { apply Forall_forall. intros d Hd. rewrite Forall_forall in Hlt. apply Hlt. by eapply sublist_subseteq. }
    exists km'. split; [done|]. intros i (kv & -> & Hin)%list_elem_of_fmap. destruct (dims_keys_elem _ _ _ _ _ Hk' Hin) as [[]%not_elem_of_nil|Hin'].
    pose proof (dims_keys_find _ _ kv.1 [] km ltac:(constructor) Hk) as Hf. cbn [map_find] in Hf. destruct (list_find (fun d => d.1 = kv.1) all) as [[j x]|] eqn:Hl.
    - cbn in Hf. apply map_find_in in Hf. by apply (list_elem_of_fmap_2 fst) in Hf.
    - exfalso. eapply (list_find_None _ _) in Hl. rewrite Forall_forall in Hl. apply (Hl kv); [by eapply sublist_subseteq|done]. }
  assert (Hsub : forall all, sublist dims all -> forall P : Z * bytes -> Prop, Forall P all -> Forall P dims) by (intros all Hs P Ha; rewrite Forall_forall in Ha |- *; intros x Hx; apply Ha; by eapply sublist_subseteq).
  destruct (le_dimensions e) as [|d0 all]; intros Hacc Hs Hemp; [destruct dims; [done|]; discriminate (proj2 Hemp eq_refl)|]. destruct dims as [|d dims]; [discriminate (proj1 Hemp eq_refl)|].
  destruct (le_ts_dimensions e) as [|t tss]; cbn [abs_mem_op mem_op_ok fst snd] in *.
  - split; [split; [by eapply Hsub; [exact Hs|apply Ho]|done]|]. split; [|done]. destruct (dims_keys _ (d0 :: all) []) as [km|] eqn:Hk; [|done]. destruct (Hkeys _ km Hs Hk) as (km' & -> & Hin).
    set (bad := fun kv : Z * bytes => match ds !! Z.to_nat kv.1 with Some d => bool_decide (is_Some (ts_column_ d)) | None => false end) in *.
    destruct (existsb bad km) eqn:Hb; [done|]. assert (Hno : existsb bad km' = false); [|by rewrite Hno]. apply not_true_is_false. intros (kv & Hkv & Hbad)%existsb_exists. apply list_elem_of_In in Hkv.
    pose proof (Hin kv.1 (list_elem_of_fmap_2 fst _ _ Hkv)) as (kv2 & Heq & Hkv2)%list_elem_of_fmap. assert (Hb2 : existsb bad km = true) by (apply existsb_exists; exists kv2; split; [by apply list_elem_of_In|]; unfold bad in *; by rewrite <- Heq). congruence.
  - destruct Ho as (H1' & H2' & H3'). split; [split; [by eapply Hsub|]; split; [done|by eapply Hsub]|]. rewrite decide_False in * by (by intros [?|?]). destruct (dims_keys _ (d0 :: all) []) as [km|] eqn:Hk; [|done]. by destruct (Hkeys _ km Hs Hk) as (km' & -> & _).
Qed.

Definition same_shape (a a' : abs_table * bool) : Prop :=
  length (at_content a.1) = length (at_content a'.1) /\ at_defs a.1 = at_defs a'.1 /\ at_pending a.1 = at_pending a'.1 /\ at_gc a.1 = at_gc a'.1 /\ a.2 = a'.2.
#[local] Instance same_shape_equiv : Equivalence same_shape.
Proof using. split; unfold same_shape; [done|by intros ? ? (-> & -> & -> & -> & ->)|intros ? ? ? (-> & -> & -> & -> & ->); done]. Qed.
Lemma rep_sized k m a : mem_rep k m a -> sized a.
Proof using. intros (cs & Ht & _ & Hok & _). split; [|done]. destruct (tb_contents _ _ _ _ _ _ Ht) as [-> _], (tb_segs _ _ _ _ _ _ Ht) as [-> _]. done. Qed.
Lemma put_all_length time value km : forall cs, length (put_all time value km cs) = length cs.
Proof using. unfold put_all. induction km as [|kv km IH]; intros cs; [done|]. cbn [foldl]. by rewrite IH, length_alter. Qed.
Lemma put_shape e a : same_shape (mem_call (entry_op e) a).2 a.
Proof using.
  destruct a as [[cs ds pend gc] l]. unfold mem_call, entry_op, same_shape. destruct (le_dimensions e), (le_ts_dimensions e); cbn [abs_mem_op fst snd]; repeat case_match; cbn [at_content at_defs at_pending at_gc fst snd]; by rewrite ?put_all_length.
Qed.
Lemma delete_shape key idx a : same_shape (mem_call (MDelete key idx) a).2 a.
Proof using. destruct a as [[cs ds pend gc] l]. unfold mem_call, same_shape. cbn [abs_mem_op fst snd]. case_match; cbn [at_content at_defs at_pending at_gc fst snd]; by rewrite ?length_insert. Qed.
Lemma shape_ext a a' : same_shape a a' -> (forall i k, rows_at (at_content a.1) i k = rows_at (at_content a'.1) i k) -> a = a'.
Proof using.
  destruct a as [[cs ds pend gc] l], a' as [[cs' ds' pend' gc'] l']. unfold same_shape. cbn. intros (Hl & -> & -> & -> & ->) Hr. do 2 f_equal. apply list_eq_same_length with (length cs); [done|done|].
  intros i c c' Hi Hc Hc'. apply map_eq. intros k. specialize (Hr (Z.of_nat i) k). unfold rows_at in Hr. rewrite !decide_True, Nat2Z.id, Hc, Hc' in Hr by lia. exact Hr.
Qed.
Lemma shape_answer a a' e : same_shape a a' -> (mem_call (entry_op e) a).1 = (mem_call (entry_op e) a').1.
Proof using.
  destruct a as [[cs ds pend gc] l], a' as [[cs' ds' pend' gc'] l']. unfold same_shape, mem_call, entry_op. cbn [fst snd at_content at_defs at_pending at_gc]. intros (_ & -> & -> & -> & ->).
  destruct (le_dimensions e), (le_ts_dimensions e); cbn [abs_mem_op fst snd]; [done|done| |]; repeat case_match; done.
Qed.

Lemma gc_answer a c e : (mem_call (entry_op e) (mem_call (MSchedGc c) a).2).1 = (mem_call (entry_op e) a).1.
Proof using.
  destruct a as [[cs ds pend gc] l]. unfold mem_call, entry_op. cbn [fst snd].
  assert (Hts : forall km : list (Z * bytes), existsb (fun kv => match (apply_pending pend <$> ds) !! Z.to_nat kv.1 with Some d => bool_decide (is_Some (ts_column_ d)) | None => false end) km =
    existsb (fun kv => match ds !! Z.to_nat kv.1 with Some d => bool_decide (is_Some (ts_column_ d)) | None => false end) km).
  { induction km as [|kv km IH]; [done|]. cbn [existsb]. rewrite IH. f_equal. rewrite list_lookup_fmap. destruct (ds !! Z.to_nat kv.1) as [d|]; [|done]. cbn. by rewrite pending_ts_column. }
  destruct (le_dimensions e), (le_ts_dimensions e); cbn [abs_mem_op fst snd]; [done|done| |]; rewrite length_fmap.
  - destruct (dims_keys _ _ _) as [km|]; [|done]. rewrite Hts. by destruct (existsb _ km).
  - rewrite !decide_False by (by intros [?|?]). by destruct (dims_keys _ _ _).
Qed.

Lemma put_rows_at a e i k : sized a -> mem_op_ok defs (entry_op e) -> (mem_call (entry_op e) a).1 = true -> rows_at (at_content (mem_call (entry_op e) a).2.1) i k =
  if decide (entry_key e i = Some k) then Some (add_row (put_time (at_defs a.1) e (Z.to_nat i)) (le_value e) (default [] (rows_at (at_content a.1) i k))) else rows_at (at_content a.1) i k.
Proof using.
  intros Hs Ho Hacc. destruct (put_km a e Hs Ho Hacc) as (km & Hw & Hkm & Hfind & ->). cbn [fst snd at_content]. rewrite put_all_rows by (try done; destruct Hs as [-> _]; done). by rewrite Hfind.
Qed.
Lemma delete_rows_at a key idx i k : 0 <= idx -> rows_at (at_content (mem_call (MDelete key idx) a).2.1) i k = if decide ((i, k) = (idx, key)) then None else rows_at (at_content a.1) i k.
Proof using.
  intros Hidx. destruct a as [[cs ds pend gc] l]. unfold mem_call. cbn [abs_mem_op fst snd]. destruct (cs !! Z.to_nat idx) as [c|] eqn:Hc; cbn [at_content fst snd].
  - unfold rows_at. destruct (decide (i = idx)) as [->|Hi].
    + rewrite !(decide_True (P := 0 <= idx)) by done. rewrite list_lookup_insert_eq by (by eapply lookup_lt_Some). rewrite Hc, !bind_some. destruct (decide (k = key)) as [->|Hk]; [rewrite decide_True by done; by rewrite lookup_delete_eq|].
      rewrite decide_False by congruence. by rewrite lookup_delete_ne.
    + rewrite (decide_False (P := (i, k) = _)) by congruence. case_decide; [|done]. by rewrite list_lookup_insert_ne by lia.
  - case_decide as Heq; [|done]. injection Heq as -> ->. unfold rows_at. rewrite decide_True by done. by rewrite Hc.
Qed.
Lemma all_indexes m a cs : tab_rep n offset m a cs [] -> exists ids, tbl_GetAllIndex m = Some ids /\ Forall (fun x => x.2 = kReady) ids.
Proof using.
  intros Ht. pose proof (tb_index _ _ _ _ _ _ Ht) as Hx. cbn [tbl_GetAllIndex memtable_snapshot]. unfold GetAllIndex. rewrite (ix_multi _ _ Hx).
  exists ((fun d => (index_id_ d, status_ d)) <$> at_defs a). cbn [concat app]. split.
  - apply mapM_Some_2, Forall2_fmap_r. eapply Forall2_impl; [apply (ix_defs _ _ Hx)|]. intros p d Hd. cbn beta. by rewrite Hd.
  - apply Forall_fmap, Forall_lookup_2. intros i d Hd. by destruct (ix_ok _ _ Hx i d Hd) as [? _].
Qed.
Lemma put_dims_ok e : mem_op_ok defs (entry_op e) -> Forall (fun d => 0 <= d.1) (entry_dims e).
Proof using.
  unfold entry_op, entry_dims. destruct (le_dimensions e) as [|d dims]; [constructor; [done|constructor]|]. destruct (le_ts_dimensions e); cbn [mem_op_ok]; intros [Hd _]; (eapply Forall_impl; [exact Hd|]); by intros ? [].
Qed.

#[refine] Definition memtable_snapshot_laws : @SnapshotLaws MemTable _ memtable_laws _ := {|
  table_expired := (fun (a : abs_table * bool) now e => abs_IsExpire a.1 now e) : @table_abs MemTable _ memtable_laws -> Z -> LogEntry -> bool;
  table_wf := sized : @table_abs MemTable _ memtable_laws -> Prop;
  table_like := same_shape : @table_abs MemTable _ memtable_laws -> @table_abs MemTable _ memtable_laws -> Prop;
  table_rows := (fun a : abs_table * bool => rows_at (at_content a.1)) : @table_abs MemTable _ memtable_laws -> Z -> bytes -> option (list (Z * bytes));
  table_time := (fun (a : abs_table * bool) e i => put_time (at_defs a.1) e (Z.to_nat i)) : @table_abs MemTable _ memtable_laws -> LogEntry -> Z -> Z
|}.
Proof using All.
  - intros k m a now e Hr Ho. destruct Hr as (cs & Ht & Hrest). exists m. split; [|by exists cs]. apply (IsExpire_abs m a.1 cs now e Ht). by apply put_dims_ok.
  - intros k m a (cs & Ht & _). by eapply all_indexes.
  - apply rep_sized.
  - intros a a' (E1 & E2 & _) [Hl Hok]. split; [congruence|]. intros o Ho. rewrite <- E2. by apply Hok.
  - intros a a' e i (_ & E2 & _). cbn. by rewrite E2.
  - intros a a' e. apply shape_answer.
  - intros a c e. apply gc_answer.
  - intros a a'. apply shape_ext.
  - intros a e. apply put_shape.
  - intros a key idx. apply delete_shape.
  - intros a e i k. apply put_rows_at.
  - intros a key idx i k _. apply delete_rows_at.
  - intros a e dims Hs Ho Hacc Hsub Hemp. destruct (put_fewer_dims a e dims Hs Ho Hacc Hsub Hemp) as (F1 & F2 & F3). split; [done|]. split; [done|]. intros i. apply F3.
Defined.
End laws.
