(* ===== verification/ServeClaims.v ===== *)
(** A partition with a memory table as a durable store, and examples of it. *)
From Stdlib Require Import String.
From S2P Require Import Prelude Slice RowCodec LogFile LogWriter LogLayout LogReader LogRoundtrip LogThms LogLive Random Skiplist SkiplistInv.
From S2P Require Import SkiplistInsert SkiplistSplit SkiplistSpec Segment SegmentGc SegmentInv SegmentGcInv SegmentOps StdMap Strings LogRoll.
From S2P Require Import LogGrow Hash TableIndex TableParse Table MemTable MemTableGc Binlog BinlogWrite BinlogRecover TableLaws SampleLog.
From S2P Require Import ReplicateNode Replicator Tablet LogNames ReplicaLog ReplicaOpen Durable Serve MemTableInv TableParseThms MemTableOps.
From S2P Require Import MemTablePut MemTableSched MemTableVisible MemTableLaws.

(** ** Rows that never expire *)
Definition forever (a : abs_table * bool) : Prop :=
  at_pending a.1 = [] /\ Forall (fun d => match ttl_st_ d with Some ttl => abs_ttl ttl = 0 /\ lat_ttl ttl = 0 | None => True end) (at_defs a.1) /\
  Forall (fun m : content => forall key rows, m !! key = Some rows -> rows <> []) (at_content a.1).

Section forever.
Context `{SmallLayout} `{TableFlags} (n offset : Z).

Lemma put_all_nonempty time value km : forall cs : list content, Forall (fun m : content => forall key rows, m !! key = Some rows -> rows <> []) cs ->
  Forall (fun m : content => forall key rows, m !! key = Some rows -> rows <> []) (put_all time value km cs).
Proof.
  unfold put_all. induction km as [|kv km IH]; intros cs Hcs; [done|]. cbn [foldl]. apply IH. apply Forall_alter; [done|]. intros m _ Hm key rows. unfold abs_put.
  destruct (decide (key = kv.2)) as [->|Hne]; [|by rewrite lookup_insert_ne by done; apply Hm]. rewrite lookup_insert_eq. intros [= <-]. unfold add_row. by destruct (filter _ _).
Qed.
Lemma keep_forever now ttl rows : abs_ttl ttl = 0 -> lat_ttl ttl = 0 -> abs_keep offset now ttl rows = rows.
Proof. intros Ha Hl. unfold abs_keep. by destruct (ttl_type ttl); repeat (rewrite decide_True by (by auto)). Qed.
Lemma gc_forever micros defs : Forall (fun d => match ttl_st_ d with Some ttl => abs_ttl ttl = 0 /\ lat_ttl ttl = 0 | None => True end) defs ->
  forall cs : list content, Forall (fun m : content => forall key rows, m !! key = Some rows -> rows <> []) cs -> gc_contents n offset micros defs cs = cs.
Proof.
  intros Hd cs Hcs. apply list_eq. intros i. unfold gc_contents. rewrite list_lookup_imap. destruct (cs !! i) as [m|] eqn:Hm; [|done]. cbn. f_equal.
  destruct (defs !! i) as [d|] eqn:Hdi; [|done]. pose proof (Forall_lookup_1 _ _ _ _ Hd Hdi) as Hx. cbn in *. destruct (ttl_st_ d) as [ttl|]; [|done]. destruct Hx as [Ha Hl].
  apply map_eq. intros key. unfold gc_content_at. rewrite map_lookup_imap. destruct (m !! key) as [rows|] eqn:Hk; [|done]. cbn. rewrite keep_forever by done.
  unfold nonempty_rows. rewrite decide_False; [done|]. exact (Forall_lookup_1 _ _ _ _ Hcs Hm key rows Hk).
Qed.
Lemma forever_put e a : forever a -> forever (mem_call n offset (entry_op e) a).2.
Proof.
  intros (Hp & Hd & Hc). destruct a as [[cs defs pend gc] l]. cbn [fst at_pending at_defs at_content] in *. unfold forever, mem_call. cbn [fst snd].
  unfold entry_op. destruct (le_dimensions e), (le_ts_dimensions e); cbn [abs_mem_op]; repeat case_match; cbn [snd at_pending at_defs at_content]; split_and!; (done || by apply put_all_nonempty).
Qed.
Lemma forever_plain defs Hn : plain (H4 := memtable_laws n offset defs Hn) forever.
Proof.
  split_and!.
  - intros a e. apply forever_put.
  - intros [[cs ds pend gc] l] key idx (Hp & Hd & Hc). cbn -[forever]. case_match; [|done]. split_and!; [done|done|]. cbn in *.
    apply Forall_insert; [done|]. intros k rows Hk. apply lookup_delete_Some in Hk as [_ Hk]. by eapply (Forall_lookup_1 _ _ _ _ Hc).
  - intros [[cs ds pend gc] l] c (Hp & Hd & Hc). cbn in *. subst pend. do 2 f_equal; [destruct gc; [by apply gc_forever|done]|].
    etransitivity; [|apply list_fmap_id]. apply list_fmap_ext. done.
Qed.
End forever.

(** C3: A partition of a tablet server with a memory table is a durable store.
    Client puts and deletes, reboots and crashes in any order all succeed or
    answer with the code of the specification, which knows the partition only as
    an abstract table and a list of log entries: an accepted request changes the
    table and is added to the log, a refused one changes neither, a reboot
    replays the whole log into an empty table, a crash a part of it.  Scans of
    any key of any index then show exactly the rows of the abstract table; and
    if no row expires, the table is at all times the replay of its log.  The
    description of the table is plain ([plain_meta]). *)
Theorem tablet_durable `{BinlogFlags} `{Compressors} `{EntryCodecLaws} `{SmallLayout} `{TableFlags}
    (root : bytes) (real_ep_map : gmap bytes bytes) (role : ReplicatorRole) (follower : bool) (tid pid : Z) (rpc_init thread_start : bytes -> Z)
    (clock : Z -> nat -> nat -> Z) (now : nat -> nat -> Z) (meta : TableMeta) (m0 : MemTable) (Hseg : 1 <= seg_cnt_ m0) (fs : FileSystem) (os : list action) (M K fuel : nat) :
  (forall point, 0 <= rpc_init point) -> FLAGS_gc_on_table_recover_count <> 0 ->
  flags_ok -> plain_meta meta = true -> MemTable_Init (MemTable_of meta) = Some (true, m0) ->
  Z.of_nat K < 2 ^ 31 - 1 /\ Z.of_nat K < 10 ^ Z.of_nat FLAGS_binlog_name_length -> Z.of_nat (K * (27 * S M)) + 13 < 2 ^ 62 -> (2 * K < fuel)%nat ->
  readable fs (path root) -> healthy fs (path root) -> (forall f, is_Some (fs_files fs !! f) -> in_dir (path root) f = false) ->
  let laws := memtable_laws (seg_cnt_ m0) new_offset (defs_of (mt_index m0)) Hseg in
  Forall (action_ok (T := MemTable) M) os -> (length os <= K)%nat ->
  let a0 : table_abs MemTable := (abs_table_new m0, is_leader_ (mt_table m0)) in
  exists w0 codes w s,
    boot root real_ep_map role follower tid pid rpc_init thread_start clock now m0 fuel fs = Some w0 /\
    acts root real_ep_map role follower tid pid rpc_init thread_start clock now m0 fuel w0 os = Some (codes, w) /\
    store_steps follower tid pid clock now a0 (reload clock now a0 []) os codes s /\
    history_entries (w_history w) = st_log s /\
    (forall i key time, (i < length (at_defs (st_live s).1))%nat -> let m := pa_table (w_partition w) in
       table_scan m (Z.of_nat i) key time = Some (Some (from_time time (default [] (c ← at_content (st_live s).1 !! i; c !! key))), m)) /\
    (forever a0 -> st_live s = foldl abs_apply a0 (st_log s)).
Proof.
  intros Hrpc Hgc Hf Hm Hi HK Hsz Hfuel Hrd Hhl Hno laws Hos Hlen a0. destruct (MemTable_Init_rep meta m0 Hf Hm Hi) as (Hn & cs & Ht & Hcs & _).
  assert (Hrep : table_rep (2 * K + 2) m0 a0).
  { exists cs. split; [exact Ht|]. rewrite Hcs. split; [cbn [length]; lia|]. by split. }
  assert (Hclk : forall c, clock_ok (T := MemTable) c) by (intros c; exact I).
  destruct (boot_serving root real_ep_map role follower tid pid rpc_init thread_start clock now m0 fuel Hrpc Hgc (fun n => Hclk (clock n)) (Hclk now) M K (2 * K + 2) a0 HK Hsz Hfuel Hrep ltac:(lia) fs Hrd Hhl Hno) as (w0 & Hb & Hs0).
  destruct (acts_steps root real_ep_map role follower tid pid rpc_init thread_start clock now m0 fuel Hrpc Hgc (fun n => Hclk (clock n)) (Hclk now) M K (2 * K + 2) a0 HK Hsz Hfuel Hrep ltac:(lia) os 0 w0 _ Hs0 ltac:(lia) Hos)
    as (codes & w & s & Ha & Hst & Hs). exists w0, codes, w, s. split; [exact Hb|]. split; [exact Ha|]. split; [exact Hst|].
  split; [exact (sv_log _ _ _ _ _ _ _ Hs)|]. split.
  - intros i key time Hlt m. destruct (sv_table _ _ _ _ _ _ _ Hs) as (cs' & Ht' & _). by eapply index_scan.
  - intros Hfor. pose proof (forever_plain (seg_cnt_ m0) new_offset (defs_of (mt_index m0)) Hseg) as Hp.
    eapply (settled_steps (H4 := laws) follower tid pid clock now forever a0); [exact Hp|exact Hfor| |exact Hst]. by apply (settled_reload (H4 := laws) clock now forever).
Qed.

(** Two puts on a table with one index, a reboot, a deletion that names the
    index, one of a key that does not exist, a crash that keeps 200 bytes of the
    file, and a put *)
#[local] Existing Instances x64_layout x64_small default_flags.
Definition store_meta : TableMeta :=
  let column (name type : string) := MkColumnMeta (str name) (str type) false false None None None None in
  MkTableMeta 0 kAbsoluteTime (Some (MkTTLDesc kLatestTime 0 0)) 2 None None [] [column "card"%string "string"%string; column "ts1"%string "bigint"%string]
    [MkColumnKey (str "card") [str "card"] [str "ts1"] 0 None] [] [].
Definition store_table : MemTable := match MemTable_Init (MemTable_of store_meta) with Some (_, m) => m | None => MemTable_of store_meta end.
Definition store_put (key time : Z) : action := ClientPut (MkPutRequest [] time [key; key] 1 0 [(0, [key])] [(0, time)] None).
Definition store_actions : list action :=
  [store_put 3 7; store_put 4 7; Reboot; ClientDelete (MkDeleteRequest 1 0 [3] (Some (str "card"))); ClientDelete (MkDeleteRequest 1 0 [9] None); Crash 200; store_put 3 8].
Definition store_log : list LogEntry :=
  let put i key time := MkLogEntry (Some 0) i [] [key; key] time [(0, [key])] None [(0, time)] in
  [put 1 3 7; put 2 4 7; set_log_index 3 (delete_entry 0 [3] 0); put 4 3 8].
Definition store_fs : FileSystem := MkFileSystem ∅ (fun _ => false) (fun _ => []).

Section actions.
Context (Hseg : 1 <= seg_cnt_ store_table).
#[local] Instance store_laws : TableLaws MemTable := memtable_laws (seg_cnt_ store_table) new_offset (defs_of (mt_index store_table)) Hseg.

Lemma store_delete_ok r : dr_key r = [3] \/ dr_key r = [9] -> action_ok (T := MemTable) 120 (ClientDelete r).
Proof.
  intros Hkey idx Hidx. split.
  - unfold entry_fits, bytesb, in_uintb. cbn [delete_entry le_term le_log_index le_pk le_value le_ts le_dimensions le_ts_dimensions forallb fst snd].
    rewrite (bool_decide_eq_true_2 (0 <= idx < 2 ^ 32)) by done. by destruct Hkey as [-> | ->]; vm_compute.
  - intros i _. split; [exact (proj1 Hidx)|]. apply Nat.leb_le. by destruct Hkey as [-> | ->]; vm_compute.
Qed.
Lemma store_put_ok key time : 0 <= key < 256 -> 0 <= time < 2 ^ 64 -> action_ok (T := MemTable) 120 (store_put key time).
Proof.
  intros Hkey Htime. split.
  - unfold entry_fits, bytesb, in_uintb. cbn [store_put put_entry pr_pk pr_time pr_value pr_dimensions pr_ts_dimensions le_term le_log_index le_pk le_value le_ts le_dimensions le_ts_dimensions forallb fst snd].
    rewrite !(bool_decide_eq_true_2 (0 <= key < 256)), !(bool_decide_eq_true_2 (0 <= time < 2 ^ 64)) by done.
    rewrite (bool_decide_eq_true_2 (0 <= u64 time < 2 ^ 64)) by (apply uwrap_range; lia). by vm_compute.
  - intros i _. split; [|apply Nat.leb_le; by vm_compute]. cbn. split_and!; [|repeat constructor; cbn; lia|].
    + repeat constructor; cbn; lia.
    + apply Forall_cons. split; [|apply Forall_nil; exact I]. vm_compute. by eexists.
Qed.
Lemma store_actions_ok : Forall (action_ok (T := MemTable) 120) store_actions.
Proof.
  repeat (apply Forall_cons; split); try apply Forall_nil; try exact I; try (apply store_put_ok; lia); apply store_delete_ok; auto.
Qed.
End actions.

Lemma store_forever : forever (abs_table_new store_table, is_leader_ (mt_table store_table)).
Proof.
  split; [done|]. split; [vm_compute; by repeat constructor|]. apply Forall_replicate. intros key rows. by rewrite lookup_empty.
Qed.

Lemma tablet_durable_witness :
  let flag := fun _ : bytes => 0 in let clock := fun (_ : Z) (_ _ : nat) => 0 in let now := fun _ _ : nat => 0 in
  exists w0 codes w, boot (str "/db") ∅ kLeaderNode false 1 0 flag flag clock now store_table 100 store_fs = Some w0 /\
  acts (str "/db") ∅ kLeaderNode false 1 0 flag flag clock now store_table 100 w0 store_actions = Some (codes, w) /\
  codes = [kOk; kOk; kOk; kOk; kDeleteFailed; kOk; kOk] /\
  (fun e => (le_log_index e, le_value e)) <$> history_entries (w_history w) = [(1, [3; 3]); (2, [4; 4]); (3, []); (4, [3; 3])] /\
  table_scan (pa_table (w_partition w)) 0 [3] None = Some (Some [(8, [3; 3])], pa_table (w_partition w)) /\
  table_scan (pa_table (w_partition w)) 0 [4] None = Some (Some [(7, [4; 4])], pa_table (w_partition w)).
Proof.
  intros flag clock now. assert (Hseg : 1 <= seg_cnt_ store_table) by (vm_compute; congruence).
  destruct (tablet_durable (str "/db") ∅ kLeaderNode false 1 0 flag flag clock now store_meta store_table Hseg store_fs store_actions 120 20 100)
    as (w0 & codes & w & s & Hb & Ha & _ & Hlog & Hscan & Hlive).
  - done.
  - done.
  - by vm_compute.
  - by vm_compute.
  - by vm_compute.
  - by vm_compute.
  - by vm_compute.
  - lia.
  - split; [intros Hx; vm_compute in Hx; discriminate Hx|done].
  - intros k. split; [done|constructor].
  - intros f. cbn. rewrite lookup_empty. by intros [].
  - apply store_actions_ok.
  - vm_compute. lia.
  - exists w0, codes, w. split; [exact Hb|]. split; [exact Ha|].
    assert (Hsum : (w0 ← boot (str "/db") ∅ kLeaderNode false 1 0 flag flag clock now store_table 100 store_fs;
      '(codes, w) ← acts (str "/db") ∅ kLeaderNode false 1 0 flag flag clock now store_table 100 w0 store_actions; Some (codes, history_entries (w_history w))) =
      Some ([kOk; kOk; kOk; kOk; kDeleteFailed; kOk; kOk], store_log)) by (vm_compute; reflexivity).
    rewrite Hb, bind_some, Ha, bind_some in Hsum. injection Hsum as -> Hh. rewrite Hh in *. split; [reflexivity|]. split; [reflexivity|].
    rewrite <- Hlog in Hlive. specialize (Hlive store_forever). rewrite Hlive in Hscan.
    split; [apply (Hscan 0%nat [3] None)|apply (Hscan 0%nat [4] None)]; vm_compute; lia.
Defined.
