(* ===== verification/SnapshotLoad.v ===== *)
(** Loading a table from its snapshot and its binlog, and what a snapshot preserves:
    whenever a snapshot is made, and wherever the making is cut short, loading gives
    the table of the whole history without entries that had expired. *)
From Stdlib Require Import String.
From S2P Require Import Prelude Slice LogFile LogWriter LogLayout LogReader LogRoundtrip LogThms LogLive Random Skiplist SkiplistInv.
From S2P Require Import SkiplistInsert SkiplistSplit SkiplistSpec StdMap Strings LogRoll LogGrow TableIndex Table MemTable Binlog BinlogWrite BinlogRecover.
From S2P Require Import TableLaws ReplicateNode Replicator ReplicaLog ReplicaSend ReplicaOpen Tablet Durable Snapshot SnapshotTable SnapshotMake SnapshotStore.

Section load.
Context `{BinlogFlags} `{Compressors} `{SnapshotFlags} `{EntryCodecLaws} `{ManifestCodecLaws} {T : Type} `{SnapshotLaws T}.
Implicit Types (fs : FileSystem) (logs : LogParts) (t : T) (a : table_abs T) (es S : list LogEntry) (e : LogEntry) (sn : MemTableSnapshot).
Context (off : FLAGS_snapshot_compression = str "off") (gc_count : FLAGS_gc_on_table_recover_count <> 0).
Context (M : nat) (a0 : table_abs T) (fresh : table_wf a0) (empty : forall i k, table_rows a0 i k = None).
Abbreviation recs es := (SerializeToString <$> es).

(** ** The snapshot *)

(** The order in which the task pool loads the records: the order of the file if
    it has one thread; otherwise any, where no two rows of the snapshot have the
    same key and the same time. *)
Definition loads (pool : list (list bytes) -> list bytes) S : Prop :=
  (forall tasks, pool tasks = concat tasks) \/ ((forall tasks, pool tasks ≡ₚ concat tasks) /\ pairwise (apart a0) S).

Lemma load_pool n pool S t : loads pool S -> Forall (fun e => entry_fits e = true) S -> Forall (fun e => loggable a0 e /\ is_delete e = false) S -> table_rep (length S + n) t a0 ->
  exists t', load_records t (pool (load_tasks [] (recs S))) = Some t' /\ table_rep n t' (foldl abs_apply a0 S).
Proof using All.
  intros Hp Hfit HS Ht. assert (Hx : exists S', S ≡ₚ S' /\ pool (load_tasks [] (recs S)) = recs S' /\ foldl abs_apply a0 S = foldl abs_apply a0 S').
  { destruct Hp as [Hp|[Hp Hap]]; [exists S; by rewrite Hp, load_tasks_concat|]. specialize (Hp (load_tasks [] (recs S))). rewrite load_tasks_concat in Hp. cbn [app] in Hp.
    apply Permutation_map_inv in Hp as (S' & Hrec & Hperm). exists S'. split; [done|]. split; [exact Hrec|]. by apply load_perm. }
  destruct Hx as (S' & Hperm & -> & ->). destruct (load_records_rep n S') with (t := t) (a := a0) as (t' & Hl & Ht'); [|by rewrite <- Hperm|by exists t'].
  rewrite <- Hperm. rewrite Forall_forall in Hfit, HS |- *. intros e He. destruct (HS e He) as [Hl Hd]. split; [by apply Hfit|]. split; [|done]. by apply (loggable_put a0 e Hl Hd).
Qed.
Lemma snap_loggable X es : Forall (fun e => draftable M e /\ loggable a0 e) es -> Forall (fun e => loggable a0 e /\ is_delete e = false) (snap X es).
Proof using fresh.
  induction 1 as [|e es [Hd Hl] Hes IH]; [constructor|]. cbn [snap]. apply Forall_app. split; [|done]. destruct (is_delete e) eqn:Hde; [constructor|]. case_decide; [constructor|].
  destruct (trim (deleted_in es) e) as [e'|] eqn:Ht; constructor; [|constructor]. by destruct (loggable_trim a0 e e' _ fresh Hl Hde Ht) as (? & ? & _).
Qed.

Lemma snap_fold X es : Forall (loggable a0) es -> foldl abs_apply a0 (snap X es) = foldl abs_apply a0 (kept X es).
Proof using empty fresh. intros Hl. apply snap_replay; try done. intros i k. rewrite empty. by destruct (deleted_in _ i k). Qed.

(** The manifest names a file that holds the entries [S], whether or not they are
    those it counts; [sn0] is the snapshot object of the new process. *)
Lemma Recover_file fuel n fs pool sn0 S m o cnt term t : slashed sn0 -> uncompressed sn0 -> dated m -> GetLocalManifest fs (sn_file sn0 MANIFEST) = (0, MkManifest o (Some (sdb m)) cnt term) ->
  snapshot_file fs (sn_file sn0 (sdb m)) S -> Forall (fun e => loggable a0 e /\ is_delete e = false) S -> loads pool S -> (length S < fuel)%nat -> table_rep (length S + n) t a0 ->
  exists t', Snapshot_Recover fuel fs pool sn0 t 0 = Some (true, o, set_sn_offset o sn0, t') /\ table_rep n t' (foldl abs_apply a0 S).
Proof using All.
  intros (p & Hsl) Hpl Hm Hmf (Hfit & Hden & D & lay & ends & tail & HD & Hh) HS Hp Hfu Ht. unfold Snapshot_Recover. rewrite Hmf, decide_False, decide_True by done. cbn [mf_name mf_offset default from_option]. unfold id, RecoverFromSnapshot, RecoverSingleSnapshot.
  assert (Hsq : squeeze (sn_snapshot_path sn0 ++ str "/" ++ sdb m) = sn_file sn0 (sdb m)) by (unfold sn_file; rewrite Hsl, <- !app_assoc; apply squeeze_slash).
  rewrite Hsq. unfold fopen_read. rewrite Hden, HD. destruct (Hpl m Hm) as [_ ->].
  pose proof (read_snapshot_spec D S lay ends tail Hh fuel _ 0 (rat_open _ _ _ _ _ _ None false [] Hh) ltac:(lia)) as Hread. unfold open_reader in Hread. rewrite Hread, !bind_some. change (drop 0 S) with S.
  destruct (load_pool n pool S t Hp Hfit HS Ht) as (t' & -> & Ht'). rewrite bind_some. by exists t'.
Qed.
(** The file that the manifest names is gone: nothing is loaded, and the offset
    is that of the manifest. *)
Lemma Recover_lost fuel fs pool sn0 m o cnt term t : slashed sn0 -> GetLocalManifest fs (sn_file sn0 MANIFEST) = (0, MkManifest o (Some (sdb m)) cnt term) ->
  fs_files fs !! sn_file sn0 (sdb m) = None -> Snapshot_Recover fuel fs pool sn0 t 0 = Some (true, o, set_sn_offset o sn0, t).
Proof using.
  intros (p & Hsl) Hmf Hno. unfold Snapshot_Recover. rewrite Hmf, decide_False, decide_True by done. cbn [mf_name mf_offset default from_option]. unfold id, RecoverFromSnapshot, RecoverSingleSnapshot.
  assert (Hsq : squeeze (sn_snapshot_path sn0 ++ str "/" ++ sdb m) = sn_file sn0 (sdb m)) by (unfold sn_file; rewrite Hsl, <- !app_assoc; apply squeeze_slash).
  rewrite Hsq. unfold fopen_read. rewrite Hno. by destruct (fs_denied fs _).
Qed.

Lemma Recover_snapshot fuel n fs logs sn W base ps X hist old pool sn0 t : recorded M a0 fs logs sn W base ps X hist old -> sn_snapshot_path sn0 = sn_snapshot_path sn -> sn_offset sn0 = 0 ->
  let S := snap X (take (Z.to_nat (sn_offset sn)) hist) in
  loads pool S -> (length hist < fuel)%nat -> table_rep (length hist + n) t a0 ->
  exists t', Snapshot_Recover fuel fs pool sn0 t 0 = Some (true, sn_offset sn, set_sn_offset (sn_offset sn) sn0, t') /\ table_rep n t' (foldl abs_apply a0 S).
Proof using All.
  intros Hrc Hpath Hoff0 S Hp Hfu Ht. pose proof (rc_stored _ _ _ _ _ _ _ _ _ _ _ Hrc) as Hst. pose proof (rc_open _ _ _ _ _ _ _ _ _ _ _ Hrc) as Hop. fold S in Hst.
  pose proof (snap_length X (take (Z.to_nat (sn_offset sn)) hist)) as Hlen. fold S in Hlen. rewrite length_take in Hlen.
  assert (Hfile : forall name, sn_file sn0 name = sn_file sn name) by (intros; unfold sn_file; by rewrite Hpath).
  pose proof (stored_manifest fs sn _ S old Hst (open_undenied _ _ Hop)) as Hmf. destruct old as [m|].
  - destruct Hmf as (term & _ & Hmf). inversion Hst as [|o S' m' term' _ _ _ Hm Hsf]; subst.
    eapply (Recover_file fuel n fs pool sn0 S m _ _ term); rewrite ?Hfile; try done; [unfold slashed; rewrite Hpath; apply (rc_slash _ _ _ _ _ _ _ _ _ _ _ Hrc)|unfold uncompressed; rewrite Hpath; apply (rc_plain _ _ _ _ _ _ _ _ _ _ _ Hrc)| |lia|eapply table_rep_le; [|exact Ht]; lia].
    apply snap_loggable, Forall_take, (rc_entries _ _ _ _ _ _ _ _ _ _ _ Hrc).
  - destruct Hmf as (Ho & HS & Hmf). unfold Snapshot_Recover. rewrite Hfile, Hmf, !decide_False by done. exists t. rewrite HS, Ho. split; [|eapply table_rep_le; [|exact Ht]; lia]. destruct sn0; cbn in *. by subst.
Qed.

(** ** The binlog *)

Lemma abs_replay_drop (clock : Z -> nat -> nat -> Z) es : forall k start a cnt, numbered start es -> (k <= length es)%nat ->
  abs_replay clock a (start + Z.of_nat k) cnt es = abs_replay clock a (start + Z.of_nat k) cnt (drop k es).
Proof using.
  induction es as [|e es IH]; intros [|k] start a cnt Hn Hk; try done. destruct (Hn 0%nat e eq_refl) as [He _]. cbn [abs_replay drop]. rewrite decide_True by lia.
  replace (start + Z.of_nat (Datatypes.S k)) with (start + 1 + Z.of_nat k) by lia. apply IH; [|cbn in Hk; lia]. intros i x Hx. destruct (Hn (Datatypes.S i) x Hx). split; [lia|done].
Qed.
Lemma max_below es : forall start cur, numbered start es -> start <= cur <= start + Z.of_nat (length es) -> foldl (fun c e => Z.max c (le_log_index e)) cur es = start + Z.of_nat (length es).
Proof using.
  induction es as [|e es IH]; intros start cur Hn Hc; cbn [foldl length] in *; [lia|]. destruct (Hn 0%nat e eq_refl) as [He _].
  rewrite (IH (start + 1)); [lia| |lia]. intros i x Hx. destruct (Hn (Datatypes.S i) x Hx). split; [lia|done].
Qed.

(** A partition whose files are open: the table is empty and the log parts are
    known. *)
Definition opened (x : Partition T) logs sn n : Prop := table_rep n (pa_table x) a0 /\ lp_logs (pa_replicator x) = logs /\ lp_log_path (pa_replicator x) = sn_log_path sn.

Lemma touched_recorded fs fs' logs sn W base ps X hist old : recorded M a0 fs logs sn W base ps X hist old -> binlog fs' logs (sn_log_path sn) W base (close_last ps) -> touched (sn_log_path sn) ps fs fs' ->
  recorded M a0 fs' logs sn W base (close_last ps) X hist old.
Proof using.
  intros [Hsl Hop Hpl Hst Hlog Hclo Hap Hr Hh Hn He Hsz Hx] Hb Ht. destruct (close_last_entries ps) as (Hce & _ & Hci).
  assert (Hd : fs_denied fs' = fs_denied fs /\ fs_faults fs' = fs_faults fs /\ forall name, fs_files fs' !! sn_file sn name = fs_files fs !! sn_file sn name).
  { destruct Ht as [->|(q & D & Hl & ->)]; [done|]. split; [done|]. split; [done|]. intros name. apply lookup_write_ne. intros E. by apply (Hap name (pt_index q)). }
  destruct Hd as (Hd & Hf & Ho). split; try done; [intros name; unfold writable; rewrite Hd, Hf; apply Hop|by eapply stored_frame| |by rewrite Hce].
  pose proof (close_last_closed ps Hclo) as Hcl. rewrite Forall_forall in Hcl. intros b q c E _. apply Hcl. rewrite E. apply elem_of_app. right. left.
Qed.

(** A record is moved to other log files, or its log goes on. *)
Lemma recorded_next fs fs' logs logs' sn W W' base base' ps ps' X hist hist' old : recorded M a0 fs logs sn W base ps X hist old -> elsewhere (sn_log_path sn) fs fs' ->
  binlog fs' logs' (sn_log_path sn) W' base' ps' -> (forall ps1 q ps2, ps' = ps1 ++ q :: ps2 -> ps2 <> [] -> pt_closed q = true) -> 0 <= base' <= sn_offset sn ->
  all_entries ps' = drop (Z.to_nat base') hist' -> take (Z.to_nat (sn_offset sn)) hist' = take (Z.to_nat (sn_offset sn)) hist -> sn_offset sn <= Z.of_nat (length hist') < 2 ^ 64 - 1 ->
  numbered 0 hist' -> Forall (fun e => draftable M e /\ loggable a0 e) hist' -> Z.of_nat (2 * length hist' * (27 * Datatypes.S M)) + 13 < 2 ^ 62 ->
  recorded M a0 fs' logs' sn W' base' ps' X hist' old.
Proof using.
  intros [Hsl Hop Hpl Hst _ _ Hap _ _ _ _ _ Hx] [[Hd Hf] Ho] Hb Hcl Hbase Hent Htake Hlen Hnum He Hsz.
  assert (Hfile : forall name, fs_files fs' !! sn_file sn name = fs_files fs !! sn_file sn name) by (intros name; apply Ho; intros k; apply Hap).
  split; try done; [intros name; unfold writable; rewrite Hd, Hf; apply Hop|]. rewrite Htake. by eapply stored_frame.
Qed.

(** What loading leaves of a replicator *)
Record reloaded (p p' : LogReplicator T) : Prop := {
  rl_path : lp_log_path p' = lp_log_path p;
  rl_logs : lp_logs p' = lp_logs p;
  rl_wh : lp_wh p' = lp_wh p;
  rl_index : lp_binlog_index p' = lp_binlog_index p;
  rl_term : lp_term p' = lp_term p
}.

(** The binlog is replayed on what the snapshot has given, [a1], from the offset
    [o] on. *)
Lemma LoadTable_from fuel pool clock now thread_start n fs logs path W base ps o hist sn0 x a1 t1 : binlog fs logs path W base ps -> Forall (fun q => writable fs (log_file path (pt_index q))) ps ->
  0 <= base <= o -> o <= Z.of_nat (length hist) -> all_entries ps = drop (Z.to_nat base) hist -> numbered 0 hist -> Forall (loggable a0) hist ->
  lp_logs (pa_replicator x) = logs -> lp_log_path (pa_replicator x) = path -> (forall k, clock_ok (T := T) (clock k)) -> clock_ok (T := T) now -> (length hist + length ps + 2 < fuel)%nat ->
  Snapshot_Recover fuel fs pool sn0 (pa_table x) 0 = Some (true, o, set_sn_offset o sn0, t1) -> table_rep (2 * length hist + Datatypes.S n) t1 a1 ->
  exists fs' x', LoadTableInternal fuel pool clock now thread_start fs x sn0 = Some (true, fs', x', set_sn_offset o sn0) /\
    binlog fs' logs path W base (close_last ps) /\ touched path ps fs fs' /\ reloaded (pa_replicator x) (pa_replicator x') /\
    marked (lp_snapshot_log_part_index (pa_replicator x')) o (close_last ps) /\ lp_snapshot_last_offset (pa_replicator x') = o /\
    pa_stat x' = kNormal /\ pa_format_version x' = pa_format_version x /\ lp_log_offset (pa_replicator x') = Z.of_nat (length hist) /\
    table_rep n (pa_table x') (table_gc (abs_replay clock a1 o 0 (drop (Z.to_nat o) hist)) now).
Proof using All.
  intros Hbl Hwr Hr1 Hr2 Hhist Hnum Hlg Hlogs Hlp Hclk Hnow Hfu Hsr Ht1. assert (Hlen : length (all_entries ps) = (length hist - Z.to_nat base)%nat) by (by rewrite Hhist, length_drop).
  unfold LoadTableInternal. change (pa_table (SetTableStat kLoading x)) with (pa_table x). rewrite Hsr, bind_some. cbv beta iota zeta.
  unfold load_binlog. cbn [SetTableStat set_pa_replicator pa_replicator]. cbn [set_lp_table lp_logs lp_log_path lp_table]. rewrite Hlogs, Hlp.
  destruct (RecoverFromBinlog_spec gc_count clock fs logs path W base ps o fuel Hbl ltac:(right; lia) Hwr ltac:(unfold rounds; lia)) as (fs' & Hb' & Htouch & Hrec).
  rewrite Hrec. assert (Hes : Forall entry_ok (all_entries ps)) by (rewrite Hhist; apply Forall_drop; eapply Forall_impl; [exact Hlg|]; by intros ? []).
  destruct (replay_rep clock (all_entries ps) Hclk Hes (Datatypes.S n) t1 _ o 0 ltac:(eapply table_rep_le; [|exact Ht1]; lia)) as (t2 & cnt & -> & Ht2). rewrite !bind_some. cbv beta iota.
  assert (Hnb : numbered base (all_entries ps)) by (intros i e Hi; rewrite Hhist, lookup_drop in Hi; destruct (Hnum _ _ Hi); split; [lia|done]).
  rewrite (max_below _ base o Hnb) by lia. set (p3 := set_lp_offset _ _). destruct (SetSnapshot_spec fs' o p3 W base (close_last ps)) as (i & -> & Hmark); [by cbn; rewrite Hlogs, Hlp|]. rewrite bind_some.
  destruct (StartSyncing_spec thread_start (set_lp_snapshot i o p3)) as (b & ns & ->). cbn [set_lp_nodes lp_table]. change (lp_table (set_lp_snapshot i o p3)) with t2.
  destruct (SchedGc_rep n t2 _ now Ht2 Hnow) as (t3 & -> & Ht3). rewrite !bind_some. eexists fs', _. split; [reflexivity|]. split; [done|]. split; [done|]. split; [by split|]. split; [exact Hmark|]. split; [done|].
  split; [done|]. split; [done|]. split; [cbn; lia|].
  change (pa_table _) with t3. replace o with (base + Z.of_nat (Z.to_nat o - Z.to_nat base)) in Ht3 at 1 by lia. rewrite abs_replay_drop, Hhist, drop_drop in Ht3 by (done || lia).
  replace (base + Z.of_nat (Z.to_nat o - Z.to_nat base)) with o in Ht3 by lia. by replace (Z.to_nat base + (Z.to_nat o - Z.to_nat base))%nat with (Z.to_nat o) in Ht3 by lia.
Qed.

Lemma LoadTable_recorded fuel pool clock now thread_start n fs logs sn W base ps X hist old sn0 x : recorded M a0 fs logs sn W base ps X hist old ->
  sn_snapshot_path sn0 = sn_snapshot_path sn -> sn_offset sn0 = 0 -> opened x logs sn (3 * length hist + Datatypes.S n) ->
  (forall k, clock_ok (T := T) (clock k)) -> clock_ok (T := T) now -> Forall (fun q => writable fs (log_file (sn_log_path sn) (pt_index q))) ps ->
  loads pool (snap X (take (Z.to_nat (sn_offset sn)) hist)) -> (length hist + length ps + 2 < fuel)%nat ->
  exists fs' x', LoadTableInternal fuel pool clock now thread_start fs x sn0 = Some (true, fs', x', set_sn_offset (sn_offset sn) sn0) /\
    recorded M a0 fs' logs sn W base (close_last ps) X hist old /\ touched (sn_log_path sn) ps fs fs' /\ reloaded (pa_replicator x) (pa_replicator x') /\
    marked (lp_snapshot_log_part_index (pa_replicator x')) (sn_offset sn) (close_last ps) /\ lp_snapshot_last_offset (pa_replicator x') = sn_offset sn /\
    pa_stat x' = kNormal /\ pa_format_version x' = pa_format_version x /\ lp_log_offset (pa_replicator x') = Z.of_nat (length hist) /\
    table_rep n (pa_table x') (table_gc (abs_replay clock (foldl abs_apply a0 (kept X (take (Z.to_nat (sn_offset sn)) hist))) (sn_offset sn) 0 (drop (Z.to_nat (sn_offset sn)) hist)) now).
Proof using All.
  intros Hrc Hpath Hoff0 (Ht & Hlogs & Hlp) Hclk Hnow Hwr Hp Hfu. pose proof (rc_range _ _ _ _ _ _ _ _ _ _ _ Hrc) as [Hr1 Hr2]. pose proof (rc_entries _ _ _ _ _ _ _ _ _ _ _ Hrc) as Hent.
  assert (Hlg : Forall (loggable a0) hist) by (eapply Forall_impl; [exact Hent|]; by intros ? []).
  destruct (Recover_snapshot fuel (2 * length hist + Datatypes.S n) fs logs sn W base ps X hist old pool sn0 (pa_table x) Hrc Hpath Hoff0 Hp ltac:(lia)) as (t1 & Hsr & Ht1).
  { eapply table_rep_le; [|exact Ht]. lia. }
  rewrite snap_fold in Ht1 by (by apply Forall_take).
  destruct (LoadTable_from fuel pool clock now thread_start n fs logs (sn_log_path sn) W base ps (sn_offset sn) hist sn0 x _ t1 (rc_log _ _ _ _ _ _ _ _ _ _ _ Hrc) Hwr Hr1 (proj1 Hr2) (rc_hist _ _ _ _ _ _ _ _ _ _ _ Hrc) (rc_numbers _ _ _ _ _ _ _ _ _ _ _ Hrc) Hlg Hlogs Hlp Hclk Hnow Hfu Hsr Ht1)
    as (fs' & x' & Hload & Hb' & Htouch & Hrest).
  exists fs', x'. split; [exact Hload|]. split; [by eapply touched_recorded|]. split; [exact Htouch|exact Hrest].
Qed.
End load.
