(* ===== verification/SnapshotServe.v ===== *)
(** A partition with snapshots as a durable store: client requests, snapshots, the
    deletion of old log files, crashes and restarts in any order, against a
    specification that knows the partition as an abstract table, the list of all
    log entries, the offset of the snapshot and the entries it left out as expired;
    with an example, and what two snapshots in one minute do. *)
From Stdlib Require Import String.
From S2P Require Import Prelude Slice LogFile LogWriter LogLayout LogReader LogRoundtrip LogThms LogLive Random Skiplist SkiplistInv.
From S2P Require Import SkiplistInsert SkiplistSplit SkiplistSpec StdMap Strings LogRoll LogGrow TableIndex Table MemTable Binlog BinlogWrite BinlogRecover.
From S2P Require Import TableLaws ReplicateNode Replicator LogNames ReplicaLog ReplicaSend ReplicaOpen Tablet Durable Serve.
From S2P Require Import Snapshot SnapshotTable SnapshotMake SnapshotStore SnapshotLoad.
From S2P Require Import Segment SegmentGc SegmentInv SegmentGcInv SegmentOps Hash TableParse MemTableGc SampleLog MemTableInv TableParseThms MemTableOps MemTablePut MemTableSched.
From S2P Require Import MemTableVisible MemTableLaws ServeClaims.

(** Where a process is killed that makes a snapshot: while it fills the new file,
    which holds [data]; when the file is complete; when it has its name; when [k]
    bytes of the manifest are written; when the manifest has its name; when the old
    file is gone *)
Inductive cut_point : Type := InFile (data : bytes) | FileComplete | FileNamed | InManifest (k : nat) | ManifestNamed | OldRemoved.

(** [HostCrash n] keeps [n] bytes of the log file being written; [HostKilled] ends
    the process while it makes a snapshot. *)
Inductive host_action : Type :=
  | HostPut (r : PutRequest) | HostDelete (r : DeleteRequest)
  | HostSnapshot (now_time : bytes) (clk : Z -> Z) (end_offset : Z) | HostDeleteBinlog
  | HostReboot | HostCrash (n : nat) | HostKilled (now_time : bytes) (clk : Z -> Z) (end_offset : Z) (c : cut_point).

Section host.
Context `{BinlogFlags} `{Compressors} `{SnapshotFlags} `{EntryCodecLaws} `{ManifestCodecLaws} {T : Type} `{SnapshotLaws T}.
Context (root : bytes) (real_ep_map : gmap bytes bytes) (role : ReplicatorRole) (follower : bool) (tid pid : Z).
Context (rpc_init thread_start : bytes -> Z) (clock : Z -> nat -> nat -> Z) (now : nat -> nat -> Z) (pool : list (list bytes) -> list bytes).
Context (t0 : T) (fuel : nat).

Abbreviation world := (world (T := T)).
Abbreviation act := (act root real_ep_map role follower tid pid rpc_init thread_start clock now t0 fuel).
Abbreviation w_log w := (pa_replicator (w_partition w)).

(** ** The server *)
Record host : Type := MkHost { ho_world : world; ho_snapshot : MemTableSnapshot }.

(** The start of a server: the replicator and the snapshot are created and the table
    is loaded. *)
Definition host_start (fs : FileSystem) : option (bool * FileSystem * Partition T * MemTableSnapshot) :=
  '(ok, p) ← LogReplicator_Init tid pid rpc_init fs true (LogReplicator_new root real_ep_map role t0 follower);
  let '(_, sn) := MemTableSnapshot_Init root true true MemTableSnapshot_new in
  let x := MkPartition kUndefined 0 p in
  if negb ok then Some (false, fs, x, sn) else LoadTableInternal fuel pool clock now thread_start fs x sn.
Definition restart (fs : FileSystem) (h : list (LogEntry * Z * nat)) : option (Z * host) :=
  '(ok, fs, x, sn) ← host_start fs;
  _ ← require ok;
  Some (kOk, MkHost (MkWorld fs x (settled h)) sn).

(** The files when the process is killed at [c] in [MakeSnapshotInternal] *)
Definition cut_making (w : world) (sn : MemTableSnapshot) (now_time : bytes) (clk : Z -> Z) (end_offset : Z) (c : cut_point) : option FileSystem :=
  if decide (pa_stat (w_partition w) <> kNormal) then Some (w_fs w)
  else if decide (lp_log_offset (w_log w) < u64 (sn_offset sn + FLAGS_make_snapshot_threshold_offset) /\ end_offset = 0) then Some (w_fs w)
  else if sn_making_snapshot sn then Some (w_fs w)
  else if decide (0 < end_offset /\ end_offset <= sn_offset sn) then Some (w_fs w)
  else
    let name := snapshot_name now_time in
    let tmp_file_path := sn_file sn (name ++ str ".tmp") in
    match c with
    | InFile data => Some (write_file tmp_file_path data (w_fs w))
    | _ =>
        fs ← fopen_append (w_fs w) tmp_file_path;
        '(has_error, mf, count, o, term, fs, sn, _) ← fill_snapshot fuel fs (lp_logs (w_log w)) tmp_file_path clk end_offset (set_sn_making true sn) (lp_table (w_log w));
        _ ← require (negb has_error);
        match c with
        | InFile _ | FileComplete => Some fs
        | FileNamed => rename fs (sn_file sn (name ++ str ".tmp")) (sn_file sn name)
        | InManifest k =>
            fs ← rename fs (sn_file sn (name ++ str ".tmp")) (sn_file sn name);
            fs ← fopen_write fs (sn_file sn (MANIFEST ++ str ".tmp"));
            Some (write_file (sn_file sn (MANIFEST ++ str ".tmp")) (take k (c_str (PrintToString (MkManifest o (Some name) count term)))) fs)
        | ManifestNamed =>
            fs ← rename fs (sn_file sn (name ++ str ".tmp")) (sn_file sn name);
            let '(ret, fs) := GenManifest fs sn name count o term in
            _ ← require (bool_decide (ret = 0)); Some fs
        | OldRemoved => let '(_, fs, _) := publish fs sn mf name count o term in Some fs
        end
    end.

Definition host_act (h : host) (o : host_action) : option (Z * host) :=
  let '(MkHost w sn) := h in
  match o with
  | HostPut r => '(code, w) ← act w (ClientPut r); Some (code, MkHost w sn)
  | HostDelete r => '(code, w) ← act w (ClientDelete r); Some (code, MkHost w sn)
  | HostSnapshot now_time clk end_offset =>
      '(fs, x, sn) ← MakeSnapshotInternal fuel (w_fs w) now_time clk end_offset (w_partition w) sn;
      Some (kOk, MkHost (MkWorld fs x (w_history w)) sn)
  | HostDeleteBinlog =>
      '(fs, p) ← DeleteBinlog (w_fs w) (w_log w);
      Some (kOk, MkHost (MkWorld fs (set_pa_replicator p (w_partition w)) (w_history w)) sn)
  | HostReboot => restart (w_fs w) (w_history w)
  | HostCrash n => restart (cut n w) (survivors n w)
  | HostKilled now_time clk end_offset c => fs ← cut_making w sn now_time clk end_offset c; restart fs (w_history w)
  end.
Fixpoint host_acts (h : host) (os : list host_action) : option (list Z * host) :=
  match os with
  | [] => Some ([], h)
  | o :: os' => '(code, h) ← host_act h o; '(codes, h) ← host_acts h os'; Some (code :: codes, h)
  end.

(** What is assumed of the actions: the name of a snapshot, which is the minute, is
    made of digits and has not been used for the snapshot of the manifest or for a file
    left behind; a crash keeps the log entries that are in the snapshot. *)
Definition allowed (h : host) (o : host_action) : bool :=
  let '(MkHost w sn) := h in
  match o with
  | HostSnapshot now_time _ _ | HostKilled now_time _ _ _ =>
      bool_decide (dated (minute now_time)) && bool_decide (fs_files (w_fs w) !! sn_file sn (snapshot_name now_time ++ str ".tmp") = None) &&
      bool_decide (mf_name (GetLocalManifest (w_fs w) (sn_file sn MANIFEST)).2 <> Some (snapshot_name now_time))
  | HostCrash n => bool_decide (sn_offset sn <= Z.of_nat (length (survivors n w)))
  | _ => true
  end.
Fixpoint all_allowed (h : host) (os : list host_action) : bool :=
  match os with
  | [] => true
  | o :: os' => allowed h o && match host_act h o with Some (_, h') => all_allowed h' os' | None => true end
  end.

(** ** The specification *)
Abbreviation store := (store (T := T)).
Abbreviation spec_put := (spec_put (T := T) follower tid pid).
Abbreviation spec_delete := (spec_delete (T := T) follower tid pid).

(** The offset of the snapshot and the entries left out of it as expired *)
Record host_store : Type := MkHostStore { hs_store : store; hs_offset : Z; hs_expired : gset Z }.
Abbreviation hs_log s := (st_log (hs_store s)).
Abbreviation hs_live s := (st_live (hs_store s)).

(** Loading: the snapshot is the log up to its offset without the expired entries;
    the rest of the log is replayed on top of it, and the table collected. *)
Definition loaded (a0 : table_abs T) (o : Z) (X : gset Z) (log : list LogEntry) : table_abs T :=
  table_gc (abs_replay clock (foldl abs_apply a0 (kept X (take (Z.to_nat o) log))) o 0 (drop (Z.to_nat o) log)) now.
Definition rebooted (a0 : table_abs T) (o : Z) (X : gset Z) (log : list LogEntry) : host_store := MkHostStore (MkStore (loaded a0 o X log) log) o X.

(** When a snapshot is made, and what a new one may be: it goes on to a later offset,
    with no limits to the end of the log, and leaves out entries that the table reports
    as expired at the time they are tested. *)
Definition due (end_offset : Z) (s : host_store) : Prop :=
  ~ (Z.of_nat (length (hs_log s)) < u64 (hs_offset s + FLAGS_make_snapshot_threshold_offset) /\ end_offset = 0) /\ ~ (0 < end_offset <= hs_offset s).
Record renewed (clk : Z -> Z) (end_offset : Z) (s : host_store) (o : Z) (X : gset Z) : Prop := {
  rn_offset : hs_offset s <= o <= Z.of_nat (length (hs_log s));
  rn_all : end_offset = 0 -> Z.of_nat (length (hs_log s)) < FLAGS_make_snapshot_max_deleted_keys -> o = Z.of_nat (length (hs_log s));
  rn_more : hs_expired s ⊆ X;
  rn_expired : forall x, x ∈ X -> x ∈ hs_expired s \/
    found_expired clk (hs_live s) (snap (hs_expired s) (take (Z.to_nat (hs_offset s)) (hs_log s)) ++ take (Z.to_nat o - Z.to_nat (hs_offset s)) (drop (Z.to_nat (hs_offset s)) (hs_log s))) x
}.

Inductive host_step (a0 : table_abs T) (s : host_store) : host_action -> Z -> host_store -> Prop :=
  | host_put r : host_step a0 s (HostPut r) (spec_put r (hs_store s)).1 (MkHostStore (spec_put r (hs_store s)).2 (hs_offset s) (hs_expired s))
  | host_delete r : host_step a0 s (HostDelete r) (spec_delete r (hs_store s)).1 (MkHostStore (spec_delete r (hs_store s)).2 (hs_offset s) (hs_expired s))
  | host_not_due now_time clk end_offset : ~ due end_offset s -> host_step a0 s (HostSnapshot now_time clk end_offset) kOk s
  | host_snapshot now_time clk end_offset o X : due end_offset s -> renewed clk end_offset s o X ->
      host_step a0 s (HostSnapshot now_time clk end_offset) kOk (MkHostStore (hs_store s) o X)
  | host_delete_binlog : host_step a0 s HostDeleteBinlog kOk s
  | host_reboot : host_step a0 s HostReboot kOk (rebooted a0 (hs_offset s) (hs_expired s) (hs_log s))
  | host_crash n j : hs_offset s <= Z.of_nat j -> host_step a0 s (HostCrash n) kOk (rebooted a0 (hs_offset s) (hs_expired s) (take j (hs_log s)))
  | host_killed_before now_time clk end_offset c : host_step a0 s (HostKilled now_time clk end_offset c) kOk (rebooted a0 (hs_offset s) (hs_expired s) (hs_log s))
  | host_killed_after now_time clk end_offset c o X : due end_offset s -> renewed clk end_offset s o X ->
      host_step a0 s (HostKilled now_time clk end_offset c) kOk (rebooted a0 o X (hs_log s)).
Inductive host_steps (a0 : table_abs T) : host_store -> list host_action -> list Z -> host_store -> Prop :=
  | host_nil s : host_steps a0 s [] [] s
  | host_cons s o code s1 os codes s2 : host_step a0 s o code s1 -> host_steps a0 s1 os codes s2 -> host_steps a0 s (o :: os) (code :: codes) s2.

(** If the task pool loads the records of a snapshot in any order, no two rows may
    have the same key and the same time. *)
Definition keeps_apart (a0 : table_abs T) (h : host) (o : host_action) : Prop :=
  match o with
  | HostPut r =>
      let w := ho_world h in
      Forall (fun e => is_delete e = true \/ apart a0 e (set_log_index (Z.of_nat (length (w_history w)) + 1) (put_entry 0 r))) (history_entries (w_history w))
  | _ => True
  end.
Fixpoint all_apart (a0 : table_abs T) (h : host) (os : list host_action) : Prop :=
  match os with
  | [] => True
  | o :: os' => keeps_apart a0 h o /\ match host_act h o with Some (_, h') => all_apart a0 h' os' | None => True end
  end.
Definition in_order : Prop := forall tasks, pool tasks = concat tasks.
Definition in_any_order : Prop := forall tasks, pool tasks ≡ₚ concat tasks.

(** ** File names *)

(** No name of a squeezed path has a doubled slash; the names of log files have. *)
Lemma squeeze_single p a b : squeeze p <> a ++ [47; 47] ++ b.
Proof using.
  revert a. induction p as [|c p IH]; intros a E; [by destruct a|]. rewrite squeeze_cons in E. destruct p as [|d p].
  - destruct a as [|x [|y a]]; discriminate E.
  - case_decide as Hd; [by eapply IH|]. assert (Hcons : forall x y (l k : bytes), x :: l = y :: k -> x = y /\ l = k) by (by intros ? ? ? ? [= -> ->]).
    destruct a as [|x a]; cbn [app] in E; apply Hcons in E as [-> E]; [|by eapply IH].
    pose proof (squeeze_head (d :: p)) as Hh. rewrite E in Hh. injection Hh as <-. by apply Hd.
Qed.
Lemma dir_double f : in_dir (path root) f = true -> exists a b, f = a ++ [47; 47] ++ b.
Proof using.
  unfold in_dir. rewrite andb_true_iff, bool_decide_eq_true. intros [Hp _]. exists (root ++ str "/binlog"), (drop (length (path root ++ str "/")) f).
  rewrite <- (take_drop (length (path root ++ str "/")) f) at 1. rewrite Hp. unfold path. rewrite <- !app_assoc. done.
Qed.
Lemma log_double k : exists a b, log_file (path root) k = a ++ [47; 47] ++ b.
Proof using. eexists (root ++ str "/binlog"), _. unfold log_file, path. rewrite <- !app_assoc. reflexivity. Qed.
Lemma snapshot_not_log sn name k : sn_file sn name <> log_file (path root) k.
Proof using. destruct (log_double k) as (a & b & ->). apply squeeze_single. Qed.
Lemma snapshot_not_in_dir sn name : in_dir (path root) (sn_file sn name) = false.
Proof using. destruct (in_dir _ _) eqn:E; [|done]. apply dir_double in E as (a & b & E). by apply squeeze_single in E. Qed.

(** ** What leaves the log alone *)
Lemma outside_log fs fs' sn : outside fs fs' sn -> forall f, in_dir (path root) f = true \/ (exists k, f = log_file (path root) k) -> fs_files fs' !! f = fs_files fs !! f.
Proof using.
  intros (_ & _ & Ho) f Hf. apply Ho. intros name ->. destruct Hf as [Hf|(k & Hf)]; [by rewrite snapshot_not_in_dir in Hf|by apply snapshot_not_log in Hf].
Qed.
Lemma outside_dir fs fs' sn ps : outside fs fs' sn -> dir_ok fs (path root) ps -> dir_ok fs' (path root) ps.
Proof using.
  intros Ho Hd f Hex Hin. pose proof (outside_log fs fs' sn Ho) as Hs. rewrite Hs in Hex by (by left). destruct (Hd f Hex Hin) as (k & Hk & -> & Hcase). exists k. split; [done|]. split; [done|].
  destruct Hcase as [?|(D & c & lay & ends & tail & HD & Hh)]; [by left|right]. exists D, c, lay, ends, tail. rewrite Hs by eauto. done.
Qed.
Lemma outside_healthy fs fs' sn : outside fs fs' sn -> healthy fs (path root) -> healthy fs' (path root).
Proof using. intros (Hd & Hf & _) Hh k. destruct (Hh k) as [? Hw]. unfold writable in *. by rewrite Hd, Hf. Qed.
Lemma outside_readable fs fs' sn : outside fs fs' sn -> readable fs (path root) -> readable fs' (path root).
Proof using. intros (Hd & _ & _) [? ?]. unfold readable. by rewrite Hd. Qed.
Lemma outside_same fs fs' sn ps : outside fs fs' sn -> same_log fs fs' (path root) ps.
Proof using. intros Ho. split; [apply Ho|]. intros q _. apply (outside_log fs fs' sn Ho). eauto. Qed.
Lemma outside_replica fs fs' sn (p : LogReplicator T) W base ps ends : outside fs fs' sn -> lp_log_path p = path root -> replica fs p W base ps ends -> replica fs' p W base ps ends.
Proof using.
  intros Ho Hp [Hb Hoff Hba Hi Hn Hh Hwh]. rewrite Hp in *. split; rewrite ?Hp; try done; [by eapply binlog_same; [by eapply outside_same|]|by eapply outside_healthy|].
  destruct (lp_wh p) as [wh|]; [|done]. destruct Hwh as (a & q & -> & Hcl & (D & lay & [Hf Hd Hho Hbo Hle] & Hqc & Hwp & Hwk) & Hl). exists a, q. split; [done|]. split; [done|]. split; [|done].
  exists D, lay. split; [|done]. split; try done; [rewrite (outside_log fs fs' sn Ho) by eauto; done|]. destruct Ho as (-> & _). done.
Qed.

(** ** The invariant *)
Context (off : FLAGS_snapshot_compression = str "off") (rpc_ok : forall point, 0 <= rpc_init point) (gc_count : FLAGS_gc_on_table_recover_count <> 0).
Context (clocks : forall n, clock_ok (T := T) (clock n)) (now_ok : clock_ok (T := T) now).
Context (M K R : nat) (a0 : table_abs T).
Context (count : Z.of_nat K < 2 ^ 31 - 1 /\ Z.of_nat K < 10 ^ Z.of_nat FLAGS_binlog_name_length) (sizes : Z.of_nat (2 * K * (27 * S M)) + 13 < 2 ^ 62).
Context (enough : (2 * K + 2 < fuel)%nat) (table : table_rep (R + K) t0 a0) (room : (2 * K + 1 < R)%nat) (empty : forall i k, table_rows a0 i k = None).

(** The snapshot object *)
Definition snap_of (o : Z) : MemTableSnapshot := MkSnapshot o false (root ++ str "/snapshot/") (path root) ∅.
(** The order of loading, for a given log *)
Definition orderly (log : list LogEntry) : Prop := in_order \/ (in_any_order /\ pairwise (apart a0) (filter (fun e => is_delete e = false) log)).

Record hosting (k : nat) (base : Z) (h : host) (s : host_store) : Prop := {
  hg_serving : serving root M R k base (ho_world h) (hs_store s);
  hg_recorded : exists logs W ps old, recorded M a0 (w_fs (ho_world h)) logs (snap_of (hs_offset s)) W base ps (hs_expired s) (hs_log s) old;
  hg_snapshot : ho_snapshot h = snap_of (hs_offset s);
  hg_mark : lp_snapshot_last_offset (w_log (ho_world h)) <= hs_offset s;
  hg_answers : forall e, (table_put (hs_live s) e).1 = (table_put a0 e).1;
  hg_orderly : orderly (hs_log s)
}.

Lemma fresh : table_wf a0.
Proof using table. by eapply rep_wf. Qed.
Lemma answers_apply a e : (forall x, (table_put a x).1 = (table_put a0 x).1) -> forall x, (table_put (abs_apply a e) x).1 = (table_put a0 x).1.
Proof using H9. intros Ha x. rewrite <- Ha. apply put_answer_like, apply_like. Qed.
Lemma answers_foldl es : forall a, (forall x, (table_put a x).1 = (table_put a0 x).1) -> forall x, (table_put (foldl abs_apply a es) x).1 = (table_put a0 x).1.
Proof using H9. induction es as [|e es IH]; intros a Ha; [done|]. cbn [foldl]. by apply IH, answers_apply. Qed.
Lemma answers_replay es : forall a cur cnt, (forall x, (table_put a x).1 = (table_put a0 x).1) -> forall x, (table_put (abs_replay clock a cur cnt es) x).1 = (table_put a0 x).1.
Proof using H9.
  induction es as [|e es IH]; intros a cur cnt Ha; cbn [abs_replay]; [done|]. case_decide; [by apply IH|]. apply IH. case_decide; [|by apply answers_apply]. intros x. rewrite put_answer_gc. by apply answers_apply.
Qed.
Lemma answers_loaded o X log x : (table_put (loaded a0 o X log) x).1 = (table_put a0 x).1.
Proof using H9. unfold loaded. rewrite put_answer_gc. by apply answers_replay, answers_foldl. Qed.

Lemma orderly_take log n : orderly log -> orderly (take n log).
Proof using.
  intros [Ho|[Ho Hp]]; [by left|right]. split; [done|]. rewrite <- (take_drop n log), filter_app in Hp. by apply pairwise_app in Hp as (? & _).
Qed.
Lemma orderly_loads o X log : Forall (loggable a0) log -> orderly log -> loads a0 pool (snap X (take o log)).
Proof using table.
  intros Hl Ho. apply (orderly_take log o) in Ho. destruct Ho as [Ho|[Ho Hp]]; [by left|right]. split; [done|]. apply pairwise_snap; [exact fresh|by apply Forall_take|done].
Qed.
Lemma recorded_logged fs logs sn W base ps X hist old : recorded M a0 fs logs sn W base ps X hist old -> Forall (logged M) hist.
Proof using.
  intros Hrc. eapply Forall_impl; [apply (rc_entries _ _ _ _ _ _ _ _ _ _ _ Hrc)|]. intros e [[Hf Ho Hs] _]. split; [done|]. specialize (Hs (le_dimensions e) ltac:(done)). by rewrite set_dimensions_id in Hs.
Qed.

(** ** A start *)
Lemma restart_hosting k W fs logs base ps o X old h : recorded M a0 fs logs (snap_of o) W base ps X (history_entries h) old ->
  dir_ok fs (path root) ps -> readable fs (path root) -> healthy fs (path root) -> (length h <= k)%nat -> (length ps <= k)%nat -> Forall (fun q => pt_index q < Z.of_nat k) ps ->
  (k <= K)%nat -> (W <= k * (27 * S M))%nat -> orderly (history_entries h) ->
  exists h', restart fs h = Some (kOk, h') /\ hosting k base h' (rebooted a0 o X (history_entries h)).
Proof using All.
  intros Hrc Hd Hrd Hhl Hlh Hlp Hidx Hk HW Hord. set (hist := history_entries h) in *. assert (Hlen : length hist = length h) by (unfold hist, history_entries; by rewrite length_fmap).
  pose proof (rc_log _ _ _ _ _ _ _ _ _ _ _ Hrc) as Hb. pose proof (rc_closed _ _ _ _ _ _ _ _ _ _ _ Hrc) as Hcl. pose proof (rc_range _ _ _ _ _ _ _ _ _ _ _ Hrc) as [Hr1 Hr2].
  cbn [snap_of sn_log_path sn_offset] in *. pose proof (rc_hist _ _ _ _ _ _ _ _ _ _ _ Hrc) as Hhe. pose proof (rc_entries _ _ _ _ _ _ _ _ _ _ _ Hrc) as Hent.
  unfold restart, host_start. set (p0 := LogReplicator_new root real_ep_map role t0 follower).
  destruct (Init_spec tid pid rpc_init rpc_ok fs p0) as (ns & nends & ->). set (p1 := set_lp_nodes _ ns nends p0).
  destruct (Recover_spec fs logs W base ps p1) as (logs' & -> & Hb1); try done; [lia|apply rep_full_rep, Skiplist_new_rep; lia|]. rewrite bind_some. cbv beta iota zeta. cbn [negb MemTableSnapshot_Init MemTableSnapshot_new].
  change (lp_binlog_index p1) with 0. change (lp_log_path p1) with (path root) in Hb1. set (p2 := set_lp_logs _ logs' p1). set (qs := filter filled ps) in *.
  assert (Hlq : (length qs <= length ps)%nat) by (unfold qs; clear; induction ps as [|q l IH]; [simpl; lia|]; rewrite filter_cons; case_decide; simpl; lia).
  assert (Hrc1 : recorded M a0 fs logs' (snap_of o) W base qs X hist old).
  { apply (recorded_next M a0 fs fs logs logs' (snap_of o) W W base base ps qs X hist hist old Hrc); try done; [by apply filled_closed|unfold qs; by rewrite filled_entries|apply (rc_numbers _ _ _ _ _ _ _ _ _ _ _ Hrc)|apply (rc_size _ _ _ _ _ _ _ _ _ _ _ Hrc)]. }
  destruct (LoadTable_recorded off gc_count M a0 fresh empty fuel pool clock now thread_start (R - 2 * k - 1) fs logs' (snap_of o) W base qs X hist old (snap_of 0) (MkPartition kUndefined 0 p2) Hrc1 eq_refl eq_refl)
    as (fs' & x & Hload & Hrc2 & Htouch & Hre & Hmark & Hlast & Hstat & Hver & Hoff & Ht).
  { split; [|done]. eapply table_rep_le; [|exact table]. lia. } { exact clocks. } { exact now_ok. } { apply Forall_forall. intros q _. apply Hhl. }
  { apply orderly_loads; [|done]. eapply Forall_impl; [exact Hent|]. by intros ? []. } { lia. }
  change (MkSnapshot _ _ (root ++ str "/snapshot/") _ _) with (snap_of 0). rewrite Hload, bind_some. cbn [require mbind option_bind]. eexists. split; [reflexivity|].
  destruct Hre as [Hpath Hlogs Hwh Hix Hterm]. cbn [pa_replicator p2 set_lp_logs lp_log_path lp_logs lp_wh lp_binlog_index lp_term] in *. change (lp_log_path p1) with (path root) in Hpath.
  pose proof (rc_log _ _ _ _ _ _ _ _ _ _ _ Hrc2) as Hb2. cbn [snap_of sn_log_path sn_offset] in *. rewrite <- Hlogs in Hb2.
  destruct (loaded_replica root fs fs' logs W base ps (pa_replicator x) Hb Hd Hrd Hhl Hcl Htouch Hb2) as (Hr' & Hd' & Hrd' & Hels); try done; [lia|rewrite Hoff, Hhe, length_drop; lia|].
  assert (Hw : winv root k W (MkWorld fs' x (settled h)) base (close_last qs) []).
  { apply loaded_winv; try done; first [by rewrite Hlast|lia|by rewrite Hhe]. }
  split; cbn [ho_world ho_snapshot rebooted hs_store hs_offset hs_expired st_live st_log].
  - split; cbn [w_partition w_history st_live st_log]; try done; [|by rewrite settled_entries]. split; [by exists W, (close_last qs), []|]. cbn [w_history]. rewrite settled_entries. by eapply recorded_logged.
  - by eexists _, _, _, _.
  - done.
  - cbn [w_partition]. rewrite Hlast. done.
  - intros e. apply answers_loaded.
  - done.
Qed.

(** What the disk holds *)
Lemma hosting_disk k base h s : hosting k base h s -> let w := ho_world h in
  exists W ps ends old, winv root k W w base ps ends /\ (W <= k * (27 * S M))%nat /\ tidy (w_fs w) (path root) ps /\
    recorded M a0 (w_fs w) (lp_logs (w_log w)) (snap_of (hs_offset s)) W base ps (hs_expired s) (hs_log s) old.
Proof using.
  intros [[[(W & ps & ends & Hw & HW) _] _ Hlog _ _ _] (logs & W0 & ps0 & old & Hrc) _ _ _ _] w. exists W, ps, ends, old. split; [done|]. split; [done|].
  pose proof (wi_replica _ _ _ _ _ _ _ Hw) as Hr. pose proof (replica_tidy _ _ _ _ _ _ Hr) as Htidy. rewrite (wi_path _ _ _ _ _ _ _ Hw) in Htidy. split; [exact Htidy|].
  pose proof (rp_binlog _ _ _ _ _ _ Hr) as Hb. rewrite (wi_path _ _ _ _ _ _ _ Hw) in Hb. destruct (wi_history _ _ _ _ _ _ _ Hw) as [[Hb0 Hhe] _]. rewrite Hlog in Hhe.
  destruct (rc_range _ _ _ _ _ _ _ _ _ _ _ Hrc) as [Hr1 Hr2].
  apply (recorded_next M a0 (w_fs w) (w_fs w) logs (lp_logs (w_log w)) (snap_of (hs_offset s)) W0 W base base ps0 ps (hs_expired s) (hs_log s) (hs_log s) old Hrc); try done; [apply Htidy|apply (rc_numbers _ _ _ _ _ _ _ _ _ _ _ Hrc)|apply (rc_entries _ _ _ _ _ _ _ _ _ _ _ Hrc)|apply (rc_size _ _ _ _ _ _ _ _ _ _ _ Hrc)].
Qed.
Lemma winv_index k W (w : world) base ps ends : winv root k W w base ps ends -> Forall (fun q => pt_index q < Z.of_nat k) ps.
Proof using.
  intros Hw. eapply Forall_impl; [apply (rp_index _ _ _ _ _ _ (wi_replica _ _ _ _ _ _ _ Hw))|]. intros q Hq. eapply Z.lt_le_trans; [exact Hq|]. apply (wi_index _ _ _ _ _ _ _ Hw).
Qed.
Lemma winv_healthy k W (w : world) base ps ends : winv root k W w base ps ends -> healthy (w_fs w) (path root).
Proof using. intros Hw. pose proof (rp_healthy _ _ _ _ _ _ (wi_replica _ _ _ _ _ _ _ Hw)) as Hh. by rewrite (wi_path _ _ _ _ _ _ _ Hw) in Hh. Qed.
Lemma cut_elsewhere k W (w : world) base ps ends n : winv root k W w base ps ends -> elsewhere (path root) (w_fs w) (cut n w).
Proof using.
  intros Hw. unfold cut. pose proof (rp_wh _ _ _ _ _ _ (wi_replica _ _ _ _ _ _ _ Hw)) as Hwh. destruct (lp_wh (w_log w)) as [wh|]; [|done]. destruct Hwh as (a & q & _ & _ & (D & lay & _ & _ & -> & _) & _).
  rewrite (wi_path _ _ _ _ _ _ _ Hw). split; [done|]. intros f Hf. apply lookup_write_ne. intros <-. by apply (Hf (pt_index q)).
Qed.

(** ** Restarts *)
Lemma hosting_le k k' base h s : (k <= k')%nat -> (k' <= K)%nat -> hosting k base h s -> hosting k' base h s.
Proof using All.
  intros Hk Hk' [Hs ? ? ? ? ?]. split; try done. eapply (serving_le root real_ep_map role follower tid pid rpc_init thread_start clock now t0 fuel rpc_ok gc_count clocks now_ok M K R a0 count ltac:(lia) ltac:(lia) ltac:(eapply table_rep_le; [|exact table]; lia) room); done.
Qed.
Lemma act_reboot k base h s : hosting k base h s -> (k <= K)%nat ->
  exists h', host_act h HostReboot = Some (kOk, h') /\ hosting k base h' (rebooted a0 (hs_offset s) (hs_expired s) (hs_log s)).
Proof using All.
  intros Hg Hk. destruct (hosting_disk k base h s Hg) as (W & ps & ends & old & Hw & HW & _ & Hrc). pose proof (sv_log _ _ _ _ _ _ _ (hg_serving _ _ _ _ Hg)) as Hlog. rewrite <- Hlog in Hrc |- *.
  destruct h as [w sn]. cbn [host_act ho_world] in *. eapply restart_hosting; try exact Hrc; try done; try apply Hw; [by eapply winv_healthy|by eapply winv_index|rewrite Hlog; apply (hg_orderly _ _ _ _ Hg)].
Qed.
Lemma act_crash k base h s n : hosting k base h s -> (k <= K)%nat -> allowed h (HostCrash n) = true ->
  exists h' j, host_act h (HostCrash n) = Some (kOk, h') /\ hs_offset s <= Z.of_nat j /\ hosting k base h' (rebooted a0 (hs_offset s) (hs_expired s) (take j (hs_log s))).
Proof using All.
  intros Hg Hk Hal. destruct (hosting_disk k base h s Hg) as (W & ps & ends & old & Hw & HW & _ & Hrc). pose proof (sv_log _ _ _ _ _ _ _ (hg_serving _ _ _ _ Hg)) as Hlog.
  pose proof (hg_snapshot _ _ _ _ Hg) as Hsn. pose proof (hg_orderly _ _ _ _ Hg) as Hord. destruct h as [w sn]. cbn [allowed host_act ho_world ho_snapshot] in *. subst sn. apply bool_decide_eq_true in Hal. cbn [snap_of sn_offset] in Hal.
  destruct (crash_parts root k W w base ps ends n Hw) as (ps1 & Hb & Hd & Hrd & Hhl & Hb0 & Hhe & Hle & Hlp & Hcl & Hidx & j & Hj).
  assert (Hlj : history_entries (survivors n w) = take j (hs_log s)) by (rewrite Hj, <- Hlog; unfold history_entries; by rewrite fmap_take).
  assert (Hlen : Z.of_nat (length (take j (hs_log s))) = Z.of_nat (length (survivors n w))) by (rewrite <- Hlj; unfold history_entries; by rewrite length_fmap).
  destruct (rc_range _ _ _ _ _ _ _ _ _ _ _ Hrc) as [Hr1 Hr2]. rewrite length_take in Hlen. cbn [snap_of sn_offset] in *.
  destruct (restart_hosting k W (cut n w) (lp_logs (w_log w)) base ps1 (hs_offset s) (hs_expired s) old (survivors n w)) as (h' & Ha & Hg'); try done.
  - rewrite Hlj. apply (recorded_next M a0 (w_fs w) (cut n w) (lp_logs (w_log w)) (lp_logs (w_log w)) (snap_of (hs_offset s)) W W base base ps ps1 (hs_expired s) (hs_log s)); try done.
    + by eapply cut_elsewhere.
    + rewrite <- Hlj. by symmetry.
    + cbn [snap_of sn_offset]. rewrite take_take. f_equal. lia.
    + cbn [snap_of sn_offset]. rewrite length_take. lia.
    + apply numbered_take, (rc_numbers _ _ _ _ _ _ _ _ _ _ _ Hrc).
    + apply Forall_take, (rc_entries _ _ _ _ _ _ _ _ _ _ _ Hrc).
    + pose proof (rc_size _ _ _ _ _ _ _ _ _ _ _ Hrc). rewrite length_take. nia.
  - eapply Forall_impl; [exact Hidx|]. cbv beta. pose proof (wi_index _ _ _ _ _ _ _ Hw). lia.
  - rewrite Hlj. by apply orderly_take.
  - exists h', j. rewrite Hlj in Hg'. split; [exact Ha|]. split; [lia|exact Hg'].
Qed.

(** ** Requests *)

(** An entry that can be logged under any number and kept in a snapshot *)
Definition request_ok (e : LogEntry) : Prop :=
  event_ok (T := T) M (Append e) /\ distinct_dims e /\
  forall i dims, 0 <= i < 2 ^ 64 -> sublist dims (le_dimensions e) -> (length (SerializeToString (set_dimensions dims (set_log_index i e))) <= M)%nat.
Definition host_action_ok (o : host_action) : Prop :=
  match o with
  | HostPut r => request_ok (put_entry 0 r)
  | HostDelete r => forall idx, 0 <= idx < 2 ^ 32 -> request_ok (delete_entry 0 (dr_key r) idx)
  | _ => True
  end.
Lemma request_entry e i : request_ok e -> 0 <= i < 2 ^ 64 -> (is_delete e = false -> (table_put a0 e).1 = true) -> draftable M (set_log_index i e) /\ loggable a0 (set_log_index i e).
Proof using.
  intros ([Hf He] & Hd & Hs) Hi Ht. destruct (He i Hi) as [Hok _]. split.
  - split; [by apply fits_set_log_index|done|]. intros dims Hdims. by apply Hs.
  - split; [done|done|]. intros Hdel. rewrite table_put_index. by apply Ht.
Qed.

(** What a request adds to the log *)
Definition log_next (s : host_store) (st : store) : Prop :=
  st_log st = hs_log s \/
  exists e, st_log st = hs_log s ++ [set_log_index (Z.of_nat (length (hs_log s)) + 1) e] /\ request_ok e /\ (is_delete e = false -> (table_put (hs_live s) e).1 = true).

Lemma request_hosting k base h s w st : hosting k base h s -> (k < K)%nat -> serving root M R (S k) base w st -> same_rest root (ho_world h) w -> log_next s st ->
  (forall x, (table_put (st_live st) x).1 = (table_put a0 x).1) -> orderly (st_log st) -> hosting (S k) base (MkHost w (ho_snapshot h)) (MkHostStore st (hs_offset s) (hs_expired s)).
Proof using All.
  intros Hg Hk Hs [Hels Hlast] Hnext Hans Hord. destruct (hosting_disk k base h s Hg) as (W & ps & ends & old & Hw & _ & _ & Hrc). split; cbn [ho_world ho_snapshot hs_store hs_offset hs_expired]; try done.
  - destruct (rc_range _ _ _ _ _ _ _ _ _ _ _ Hrc) as [Hr1 Hr2]. pose proof (rc_numbers _ _ _ _ _ _ _ _ _ _ _ Hrc) as Hnum. pose proof (rc_entries _ _ _ _ _ _ _ _ _ _ _ Hrc) as Hent. cbn [snap_of sn_offset] in *.
    destruct (rv_inv _ _ _ _ _ (sv_run _ _ _ _ _ _ _ Hs)) as (W' & ps' & ends' & Hw' & _). pose proof (wi_replica _ _ _ _ _ _ _ Hw') as Hr'. pose proof (replica_tidy _ _ _ _ _ _ Hr') as Htidy.
    pose proof (rp_binlog _ _ _ _ _ _ Hr') as Hb'. rewrite (wi_path _ _ _ _ _ _ _ Hw') in Hb', Htidy. destruct (wi_history _ _ _ _ _ _ _ Hw') as [[_ Hhe] _]. rewrite (sv_log _ _ _ _ _ _ _ Hs) in Hhe.
    assert (Hle : (length (st_log st) <= K)%nat) by (rewrite <- (sv_log _ _ _ _ _ _ _ Hs); unfold history_entries; rewrite length_fmap; pose proof (wi_entries _ _ _ _ _ _ _ Hw'); lia).
    assert (Hlog : numbered 0 (st_log st) /\ Forall (fun e => draftable M e /\ loggable a0 e) (st_log st) /\ exists es, st_log st = hs_log s ++ es).
    { destruct Hnext as [Heq|(e & Heq & He & Ht)]; [rewrite Heq; split; [done|]; split; [done|]; exists []; by rewrite app_nil_r|]. rewrite Heq, length_app in Hle. rewrite Heq. cbn [length] in Hle.
      destruct (request_entry e (Z.of_nat (length (hs_log s)) + 1) He ltac:(lia)) as [Hd Hl]; [intros Hdel; rewrite <- (hg_answers _ _ _ _ Hg); by apply Ht|].
      split; [|split; [apply Forall_app; split; [done|by constructor]|by eexists]]. intros i x Hx. apply lookup_app_Some in Hx as [Hx|[Hge Hx]]; [by apply Hnum|].
      apply list_lookup_singleton_Some in Hx as [Hz <-]. split; [cbn; lia|apply (df_fits _ _ Hd)]. }
    destruct Hlog as (Hnum' & Hent' & es & Hes). eexists (lp_logs (w_log w)), W', ps', old.
    apply (recorded_next M a0 _ _ _ _ (snap_of (hs_offset s)) W W' base base ps ps' (hs_expired s) (hs_log s) (st_log st) old Hrc); try done; [apply Htidy| |cbn [snap_of sn_offset]; rewrite Hes, length_app in *; lia|nia].
    cbn [snap_of sn_offset]. rewrite Hes. apply take_app_le. lia.
  - apply (hg_snapshot _ _ _ _ Hg).
  - rewrite Hlast. apply (hg_mark _ _ _ _ Hg).
Qed.

Lemma answers_like a a' : table_like a' a -> (forall x, (table_put a x).1 = (table_put a0 x).1) -> forall x, (table_put a' x).1 = (table_put a0 x).1.
Proof using H9. intros Hl Ha x. rewrite <- Ha. by apply put_answer_like. Qed.
Lemma spec_put_next st r : (spec_put r st).2 = st \/
  ((table_put (st_live st) (put_entry 0 r)).1 = true /\ (spec_put r st).2 = log_entry st (table_put (st_live st) (put_entry 0 r)).2 (put_entry 0 r)).
Proof using All. unfold Serve.spec_put. repeat case_match; try (by left). right. split; [by destruct (table_put _ _) as [[] ?]|done]. Qed.
Lemma spec_delete_next n t st r : table_rep n t (st_live st) -> (spec_delete r st).2 = st \/
  exists idx, 0 <= idx < 2 ^ 32 /\ (spec_delete r st).2 = log_entry st (table_delete (st_live st) (dr_key r) idx).2 (delete_entry 0 (dr_key r) idx).
Proof using All.
  intros Ht. unfold Serve.spec_delete. destruct follower; [by left|]. case_decide; [by left|]. destruct (table_leader _); cbn [negb]; [|by left].
  destruct (match dr_idx_name r with Some ((_ :: _) as name) => table_index (st_live st) name | _ => Some 0 end) as [idx|] eqn:Hidx; [|by left].
  destruct (table_delete (st_live st) (dr_key r) idx).1; [|by left]. right. exists idx. split; [|done]. destruct (dr_idx_name r) as [[|c name]|]; try (injection Hidx as <-; lia).
  by apply (ReadyIndexId_rep _ _ _ (c :: name) Ht).
Qed.

Lemma act_host_put k base h s r : hosting k base h s -> (k < K)%nat -> host_action_ok (HostPut r) -> in_order \/ (in_any_order /\ keeps_apart a0 h (HostPut r)) ->
  exists h', host_act h (HostPut r) = Some ((spec_put r (hs_store s)).1, h') /\ hosting (S k) base h' (MkHostStore (spec_put r (hs_store s)).2 (hs_offset s) (hs_expired s)).
Proof using All.
  intros Hg Hk Hok Hap. pose proof (hg_serving _ _ _ _ Hg) as Hs. cbn [host_action_ok] in Hok.
  destruct (act_put root real_ep_map role follower tid pid rpc_init thread_start clock now t0 fuel rpc_ok gc_count clocks now_ok M K R a0 count ltac:(lia) ltac:(lia) ltac:(eapply table_rep_le; [|exact table]; lia) room
    k base (ho_world h) (hs_store s) r Hs Hk (proj1 Hok)) as (w' & Ha & Hs' & Hrest).
  exists (MkHost w' (ho_snapshot h)). split; [destruct h as [w sn]; cbn [host_act ho_world ho_snapshot] in *; by rewrite Ha|].
  pose proof (hg_answers _ _ _ _ Hg) as Hans. pose proof (hg_orderly _ _ _ _ Hg) as Hord.
  apply request_hosting; try done; destruct (spec_put_next (hs_store s) r) as [->|(Ht & ->)]; try done.
  - by left.
  - right. exists (put_entry 0 r). split; [done|]. by split.
  - cbn [log_entry st_live]. apply (answers_like (hs_live s)); [apply put_like|done].
  - cbn [log_entry st_log]. destruct Hord as [?|[Hany Hp]]; [by left|]. destruct Hap as [?|[_ Hap]]; [by left|right]. split; [done|]. rewrite filter_app. apply pairwise_app. split; [done|].
    rewrite filter_cons_True by done. split; [by repeat constructor|]. cbn [keeps_apart] in Hap. rewrite (sv_log _ _ _ _ _ _ _ Hs) in Hap.
    assert (Hlen : length (w_history (ho_world h)) = length (hs_log s)) by (rewrite <- (sv_log _ _ _ _ _ _ _ Hs); unfold history_entries; by rewrite length_fmap). rewrite Hlen in Hap.
    rewrite Forall_forall in Hap |- *. intros e [Hd He]%list_elem_of_filter. constructor; [|constructor]. destruct (Hap e He) as [Hd'|?]; [by rewrite Hd in Hd'|done].
Qed.
Lemma act_host_delete k base h s r : hosting k base h s -> (k < K)%nat -> host_action_ok (HostDelete r) ->
  exists h', host_act h (HostDelete r) = Some ((spec_delete r (hs_store s)).1, h') /\ hosting (S k) base h' (MkHostStore (spec_delete r (hs_store s)).2 (hs_offset s) (hs_expired s)).
Proof using All.
  intros Hg Hk Hok. pose proof (hg_serving _ _ _ _ Hg) as Hs. cbn [host_action_ok] in Hok.
  destruct (act_delete root real_ep_map role follower tid pid rpc_init thread_start clock now t0 fuel rpc_ok gc_count clocks now_ok M K R a0 count ltac:(lia) ltac:(lia) ltac:(eapply table_rep_le; [|exact table]; lia) room
    k base (ho_world h) (hs_store s) r Hs Hk (fun idx Hidx => proj1 (Hok idx Hidx))) as (w' & Ha & Hs' & Hrest).
  exists (MkHost w' (ho_snapshot h)). split; [destruct h as [w sn]; cbn [host_act ho_world ho_snapshot] in *; by rewrite Ha|].
  pose proof (hg_answers _ _ _ _ Hg) as Hans. pose proof (hg_orderly _ _ _ _ Hg) as Hord.
  apply request_hosting; try done; destruct (spec_delete_next _ _ (hs_store s) r (sv_table _ _ _ _ _ _ _ Hs)) as [->|(idx & Hidx & ->)]; try done.
  - by left.
  - right. eexists. split; [done|]. by split; [apply Hok|].
  - cbn [log_entry st_live]. apply (answers_like (hs_live s)); [apply delete_like|done].
  - cbn [log_entry st_log]. destruct Hord as [?|[Hany Hp]]; [by left|right]. split; [done|]. rewrite filter_app, filter_cons_False by done. by rewrite filter_nil, app_nil_r.
Qed.

(** ** Deleting log files *)
Lemma unlinked_elsewhere ks fs : elsewhere (path root) fs (unlinked (path root) ks fs).
Proof using. split; [done|]. intros f Hf. rewrite unlinked_lookup, decide_False; [done|]. intros (k & -> & _)%list_elem_of_fmap. by apply (Hf k). Qed.
Lemma unlinked_dir fs a b : dir_ok fs (path root) (a ++ b) -> dir_ok (unlinked (path root) (reverse (pt_index <$> a)) fs) (path root) b.
Proof using.
  intros Hd f Hex Hin. rewrite unlinked_lookup in Hex. case_decide as Hf; [by destruct Hex|]. destruct (Hd f Hex Hin) as (k & Hk & -> & Hcase). exists k. split; [done|]. split; [done|].
  destruct Hcase as [Hka|(D & c & lay & ends & tail & HD & Hh)].
  - left. rewrite fmap_app, elem_of_app in Hka. destruct Hka as [Hka|?]; [|done]. exfalso. apply Hf. apply list_elem_of_fmap_2. by apply elem_of_reverse.
  - right. exists D, c, lay, ends, tail. split; [|done]. by rewrite unlinked_lookup, decide_False.
Qed.
Lemma delete_winv k W (w : world) base ps ends : winv root k W w base ps ends ->
  exists fs' p' base' ps', DeleteBinlog (w_fs w) (w_log w) = Some (fs', p') /\ (base' = base \/ base' <= lp_snapshot_last_offset (w_log w)) /\ elsewhere (path root) (w_fs w) fs' /\
    (exists i l, p' = set_lp_logs i l (w_log w)) /\ winv root k W (MkWorld fs' (set_pa_replicator p' (w_partition w)) (w_history w)) base' ps' ends.
Proof using H0 H3 H6.
  intros [Hr Hd Hrd Hpath Hes Hps Hidx Hmark ([Hb Hhe] & Hh)]. destruct (DeleteBinlog_spec _ _ _ _ _ _ _ Hr Hmark) as (a & b & logs' & -> & -> & Hle & Hmark' & Hr'). rewrite Hpath in *.
  rewrite all_entries_app in Hhe. assert (Hla : base + Z.of_nat (length (all_entries a)) <= Z.of_nat (length (w_history w))).
  { apply (f_equal length) in Hhe. unfold history_entries in Hhe. rewrite length_drop, length_fmap, length_app in Hhe. pose proof (rp_base _ _ _ _ _ _ Hr). clear -Hhe Hb. lia. }
  eexists _, _, (base + Z.of_nat (length (all_entries a))), b. split; [reflexivity|]. split; [destruct Hle as [->|?]; [left; apply Z.add_0_r|by right]|]. split; [apply unlinked_elsewhere|].
  split; [by eexists _, _|]. split; cbn [w_fs w_partition w_history set_pa_replicator pa_replicator]; try done.
  - by apply unlinked_dir.
  - rewrite length_app in Hps. clear -Hps. lia.
  - split; [|exact Hh]. split; [clear -Hb Hla; lia|]. rewrite Z2Nat.inj_add, Nat2Z.id by (clear -Hb; lia). by rewrite <- drop_drop, Hhe, drop_app_length.
Qed.
Lemma act_delete_binlog k base h s : hosting k base h s -> exists h' base', host_act h HostDeleteBinlog = Some (kOk, h') /\ hosting k base' h' s.
Proof using All.
  intros Hg. destruct (hosting_disk k base h s Hg) as (W & ps & ends & old & Hw & HW & _ & Hrc). destruct (delete_winv _ _ _ _ _ _ Hw) as (fs' & p' & base' & ps' & Hdel & Hbase & Hels & (i & l & Hp) & Hw').
  destruct (rc_range _ _ _ _ _ _ _ _ _ _ _ Hrc) as [Hr1 Hr2]. destruct Hg as [[[_ Hok] Ht Hlog Hterm Hstat Hfmt] _ Hsn Hmark Hans Hord].
  destruct h as [w sn]. cbn [host_act ho_world ho_snapshot snap_of sn_offset] in *. rewrite Hdel, bind_some. eexists _, base'. split; [reflexivity|]. split; cbn [ho_world ho_snapshot w_fs w_partition w_history]; try done.
  - split; cbn [w_partition set_pa_replicator pa_replicator]; try done; [split; [by exists W, ps', ends|done]|unfold pa_table in *; cbn; by rewrite Hp|by rewrite Hp].
  - pose proof (wi_replica _ _ _ _ _ _ _ Hw') as Hr'. pose proof (replica_tidy _ _ _ _ _ _ Hr') as Htidy. pose proof (rp_binlog _ _ _ _ _ _ Hr') as Hb'. rewrite (wi_path _ _ _ _ _ _ _ Hw') in Hb', Htidy.
    destruct (wi_history _ _ _ _ _ _ _ Hw') as [[Hb0 Hhe] _]. cbn [w_history w_partition w_fs] in *. rewrite Hlog in Hhe. eexists _, W, ps', old.
    apply (recorded_next M a0 (w_fs w) fs' _ _ (snap_of (hs_offset s)) W W base base' ps ps' (hs_expired s) (hs_log s) (hs_log s) old Hrc); try done; [apply Htidy|cbn [snap_of sn_offset]; lia|apply (rc_numbers _ _ _ _ _ _ _ _ _ _ _ Hrc)|apply (rc_entries _ _ _ _ _ _ _ _ _ _ _ Hrc)|apply (rc_size _ _ _ _ _ _ _ _ _ _ _ Hrc)].
  - cbn [set_pa_replicator pa_replicator]. by rewrite Hp.
Qed.

(** ** Snapshots *)
Definition named (h : host) (now_time : bytes) : Prop :=
  dated (minute now_time) /\ fs_files (w_fs (ho_world h)) !! sn_file (ho_snapshot h) (snapshot_name now_time ++ str ".tmp") = None /\
  mf_name (GetLocalManifest (w_fs (ho_world h)) (sn_file (ho_snapshot h) MANIFEST)).2 <> Some (snapshot_name now_time).

Lemma making k base h s now_time clk endo : hosting k base h s -> (k <= K)%nat -> due endo s -> named h now_time ->
  let w := ho_world h in
  exists o X t fs' W ps ends old, MakeSnapshot fuel (w_fs w) (lp_logs (w_log w)) now_time clk endo (snap_of (hs_offset s)) (lp_table (w_log w)) = Some (0, Some o, fs', snap_of o, t) /\
    renewed clk endo s o X /\ table_rep (R - 2 * k - 1) t (hs_live s) /\ outside (w_fs w) fs' (snap_of (hs_offset s)) /\ winv root k W w base ps ends /\ (W <= k * (27 * S M))%nat /\
    let kept fs o X old := recorded M a0 fs (lp_logs (w_log w)) (snap_of o) W base ps X (hs_log s) old in
    kept fs' o X (Some (minute now_time)) /\
    forall fs1, make_cut clk fuel (w_fs w) (lp_logs (w_log w)) now_time endo (snap_of (hs_offset s)) (lp_table (w_log w)) fs1 ->
      outside (w_fs w) fs1 (snap_of (hs_offset s)) /\ (kept fs1 (hs_offset s) (hs_expired s) old \/ kept fs1 o X (Some (minute now_time))).
Proof using All.
  intros Hg Hk [_ Hdue] (Hm & Htmp & Hman) w. destruct (hosting_disk k base h s Hg) as (W & ps & ends & old & Hw & HW & Htidy & Hrc). rewrite (hg_snapshot _ _ _ _ Hg) in Htmp, Hman. fold w in Htmp, Hman, Hw, Htidy, Hrc.
  pose proof (sv_log _ _ _ _ _ _ _ (hg_serving _ _ _ _ Hg)) as Hlog. assert (Hlen : length (hs_log s) = length (w_history w)) by (rewrite <- Hlog; unfold history_entries; by rewrite length_fmap).
  assert (Hold : old <> Some (minute now_time)).
  { intros ->. destruct (stored_manifest _ _ _ _ _ (rc_stored _ _ _ _ _ _ _ _ _ _ _ Hrc) (open_undenied _ _ (rc_open _ _ _ _ _ _ _ _ _ _ _ Hrc))) as (term & _ & E). rewrite E, (snapshot_name_sdb off) in Hman. by apply Hman. }
  destruct (MakeSnapshot_recorded off M (R - 2 * k - 1) clk (hs_live s) a0 fresh fuel (w_fs w) (lp_logs (w_log w)) now_time endo (snap_of (hs_offset s)) (lp_table (w_log w)) W base ps (hs_expired s) (hs_log s) old Hrc Htidy)
    as (o & X & t & fs' & Hmake & Ho & Hall & Ht & Hrc' & Hsub & Hexp & Hout & Hcut); try done.
  { pose proof (wi_entries _ _ _ _ _ _ _ Hw). pose proof (wi_parts _ _ _ _ _ _ _ Hw). lia. } { apply (sv_table _ _ _ _ _ _ _ (hg_serving _ _ _ _ Hg)). }
  exists o, X, t, fs', W, ps, ends, old. split; [exact Hmake|]. by split.
Qed.

Lemma allowed_named h o now_time : match o with HostSnapshot t _ _ | HostKilled t _ _ _ => t = now_time | _ => False end -> allowed h o = true -> named h now_time.
Proof using.
  destruct h as [w sn]. destruct o; try done; intros ->; cbn [allowed]; rewrite !andb_true_iff, !bool_decide_eq_true; by intros [[? ?] ?].
Qed.
(** Whether a snapshot is due, as the code tests it *)
Lemma due_dec endo s : due endo s \/ (Z.of_nat (length (hs_log s)) < u64 (hs_offset s + FLAGS_make_snapshot_threshold_offset) /\ endo = 0) \/
  (~ (Z.of_nat (length (hs_log s)) < u64 (hs_offset s + FLAGS_make_snapshot_threshold_offset) /\ endo = 0) /\ 0 < endo <= hs_offset s).
Proof using.
  unfold due. destruct (decide (Z.of_nat (length (hs_log s)) < u64 (hs_offset s + FLAGS_make_snapshot_threshold_offset) /\ endo = 0)) as [?|?]; [by right; left|].
  destruct (decide (0 < endo <= hs_offset s)) as [?|?]; [by right; right|by left].
Qed.
Lemma hosting_offset k base h s : hosting k base h s -> lp_log_offset (w_log (ho_world h)) = Z.of_nat (length (hs_log s)).
Proof using.
  intros Hg. pose proof (hg_serving _ _ _ _ Hg) as Hs. rewrite (offset_history root M k base _ (sv_run _ _ _ _ _ _ _ Hs)), <- (sv_log _ _ _ _ _ _ _ Hs). unfold history_entries. by rewrite length_fmap.
Qed.

Lemma act_snapshot k base h s now_time clk endo : hosting k base h s -> (k <= K)%nat -> allowed h (HostSnapshot now_time clk endo) = true ->
  exists h' s', host_act h (HostSnapshot now_time clk endo) = Some (kOk, h') /\ host_step a0 s (HostSnapshot now_time clk endo) kOk s' /\ hosting k base h' s'.
Proof using All.
  intros Hg Hk Hal. pose proof (allowed_named h (HostSnapshot now_time clk endo) now_time eq_refl Hal) as Hnm. pose proof (hosting_offset _ _ _ _ Hg) as Hoff. pose proof (hg_snapshot _ _ _ _ Hg) as Hsn.
  pose proof (sv_stat _ _ _ _ _ _ _ (hg_serving _ _ _ _ Hg)) as Hstat.
  assert (Hact : host_act h (HostSnapshot now_time clk endo) = '(fs, x, sn) ← MakeSnapshotInternal fuel (w_fs (ho_world h)) now_time clk endo (w_partition (ho_world h)) (snap_of (hs_offset s));
    Some (kOk, MkHost (MkWorld fs x (w_history (ho_world h))) sn)) by (destruct h as [w sn]; cbn [host_act ho_world ho_snapshot] in *; by rewrite Hsn).
  rewrite Hact. clear Hact. set (w := ho_world h) in *. unfold MakeSnapshotInternal. rewrite decide_False by (rewrite Hstat; by intros []). rewrite Hoff. cbn [snap_of sn_offset].
  assert (Hsame : hosting k base (MkHost (MkWorld (w_fs w) (w_partition w) (w_history w)) (snap_of (hs_offset s))) s) by (destruct h as [[] ?]; cbn in Hsn; by rewrite Hsn in Hg).
  destruct (due_dec endo s) as [Hdue|[Hth|(Hth & Hen)]].
  - rewrite decide_False by apply Hdue. destruct (making k base h s now_time clk endo Hg Hk Hdue Hnm) as (o & X & t & fs' & W & ps & ends & old & Hmake & Hren & Ht & Hout & Hw & HW & Hrc & _).
    fold w in Hmake, Hout, Hw, Hrc. rewrite Hmake, bind_some. cbv beta iota zeta. rewrite decide_True by done. cbn [default from_option]. unfold id. pose proof Hw as [Hr Hd Hrd Hpath Hes Hps Hidx Hmark Hh].
    pose proof (outside_replica _ _ _ _ _ _ _ _ Hout Hpath Hr) as Hr'. destruct (SetSnapshot_spec fs' o (set_lp_table t (w_log w)) W base ps) as (i & -> & Hmark'); [cbn; apply Hr'|]. rewrite bind_some.
    eexists _, _. split; [reflexivity|]. split; [by apply host_snapshot|]. destruct Hg as [[[_ Hok] _ Hlog Hterm _ Hfmt] _ _ _ Hans Hord].
    split; cbn [ho_world ho_snapshot hs_store hs_offset hs_expired]; try done; [|by eexists _, _, _, _].
    split; cbn [w_partition w_history set_pa_replicator pa_replicator]; try done. split; [|done]. exists W, ps, ends. split; [|done].
    split; cbn [w_fs w_partition w_history set_pa_replicator pa_replicator]; try done; [by destruct Hr'|by eapply outside_dir|by eapply outside_readable].
  - rewrite decide_True by done. eexists _, s. split; [reflexivity|]. split; [constructor; by intros [? _]|done].
  - rewrite decide_False by done. unfold MakeSnapshot. cbn [snap_of sn_making_snapshot sn_offset]. rewrite decide_True by (clear -Hen; lia). rewrite bind_some. cbv beta iota zeta. rewrite decide_False by done. rewrite bind_some.
    eexists _, s. split; [reflexivity|]. split; [constructor; intros [_ Hd]; clear -Hd Hen; lia|]. fold (snap_of (hs_offset s)).
    replace (set_pa_replicator (set_lp_table (lp_table (w_log w)) (w_log w)) (w_partition w)) with (w_partition w) by (destruct (w_partition w) as [? ? []]; done). exact Hsame.
Qed.

Lemma cut_making_cut (w : world) sn now_time clk endo c fs1 : pa_stat (w_partition w) = kNormal -> cut_making w sn now_time clk endo c = Some fs1 ->
  fs1 = w_fs w \/ (~ (lp_log_offset (w_log w) < u64 (sn_offset sn + FLAGS_make_snapshot_threshold_offset) /\ endo = 0) /\ ~ (0 < endo <= sn_offset sn) /\
    make_cut clk fuel (w_fs w) (lp_logs (w_log w)) now_time endo sn (lp_table (w_log w)) fs1).
Proof using.
  intros Hstat. unfold cut_making. rewrite decide_False by (rewrite Hstat; by intros []). case_decide as Hth; [intros [= <-]; by left|]. destruct (sn_making_snapshot sn); [intros [= <-]; by left|].
  case_decide as Hen; [intros [= <-]; by left|]. intros Hc. right. split; [done|]. split; [done|].
  assert (Hpub : forall fs2, (exists fs0 mf count o term fs sn1 t1, fopen_append (w_fs w) (sn_file sn (snapshot_name now_time ++ str ".tmp")) = Some fs0 /\
      fill_snapshot fuel fs0 (lp_logs (w_log w)) (sn_file sn (snapshot_name now_time ++ str ".tmp")) clk endo (set_sn_making true sn) (lp_table (w_log w)) = Some (false, mf, count, o, term, fs, sn1, t1) /\
      cut_short fs sn1 mf (snapshot_name now_time) count o term fs2) -> make_cut clk fuel (w_fs w) (lp_logs (w_log w)) now_time endo sn (lp_table (w_log w)) fs2).
  { intros fs2 (fs0 & mf & cnt & o & term & fs & sn1 & t1 & H1' & H2' & H3'). by eapply cut_publishing. }
  destruct c as [data| | |j| |]; [injection Hc as <-; apply cut_filling; split; [done|]; split; [done|]; intros g Hgn; by rewrite lookup_write_ne|..]; apply Hpub; clear Hpub;
    (destruct (fopen_append _ _) as [fs0|]; [|done]); cbn [mbind option_bind] in Hc; (destruct (fill_snapshot _ _ _ _ _ _ _ _) as [[[[[[[[er mf] cnt] o] term] fs] sn1] t1]|] eqn:Hfill; [|done]);
    cbn [mbind option_bind] in Hc; (destruct er; [done|]); cbn [negb require mbind option_bind] in Hc; exists fs0, mf, cnt, o, term, fs, sn1, t1; (split; [done|]); (split; [done|]).
  - injection Hc as <-. constructor.
  - by constructor.
  - destruct (rename _ _ _) as [fs2|] eqn:Hrn; [|done]. cbn [mbind option_bind] in Hc. destruct (fopen_write _ _) as [fs3|] eqn:Hw3; [|done]. cbn [mbind option_bind] in Hc. injection Hc as <-. by eapply cut_writing.
  - destruct (rename _ _ _) as [fs2|] eqn:Hrn; [|done]. cbn [mbind option_bind] in Hc. destruct (GenManifest _ _ _ _ _ _) as [ret fs3] eqn:Hgen. destruct (bool_decide (ret = 0)) eqn:Hret; [|done]. apply bool_decide_eq_true in Hret as ->.
    injection Hc as <-. by eapply cut_manifest.
  - destruct (publish _ _ _ _ _ _ _) as [[ret fs3] sn3] eqn:Hp. injection Hc as <-. by eapply cut_after.
Qed.

(** Where a snapshot can be made, it can be cut short everywhere. *)
Lemma cut_making_some (w : world) sn now_time clk endo c o fs' sn' t' :
  MakeSnapshot fuel (w_fs w) (lp_logs (w_log w)) now_time clk endo sn (lp_table (w_log w)) = Some (0, Some o, fs', sn', t') -> is_Some (cut_making w sn now_time clk endo c).
Proof using.
  unfold MakeSnapshot, cut_making. destruct (decide (pa_stat _ <> _)); [done|]. destruct (decide (_ /\ endo = 0)); [done|]. destruct (sn_making_snapshot sn); [done|]. destruct (decide (0 < endo /\ _)); [done|]. cbv zeta.
  change (sn_file (set_sn_making true sn)) with (sn_file sn). destruct (fopen_append _ _) as [fs0|]; [|done]. destruct c as [data| | |j| |]; [done|..]; rewrite bind_some;
    (destruct (fill_snapshot _ _ _ _ _ _ _ _) as [[[[[[[[er mf] cnt] o1] term] fs] sn1] t1]|]; [|done]); rewrite !bind_some; (destruct er; [done|]); cbn [negb require]; rewrite ?bind_some; try done;
    unfold publish; (destruct (rename fs _ _) as [fs1|]; [|done]); try done; rewrite ?bind_some.
  - unfold GenManifest. destruct (fopen_write fs1 _) as [fs2|]; [done|]. by rewrite decide_False.
  - destruct (GenManifest fs1 _ _ _ _ _) as [res fs2]. destruct (decide (res = 0)) as [->|]; done.
  - by destruct (GenManifest fs1 _ _ _ _ _) as [res fs2], (decide (res = 0)).
Qed.
Lemma act_killed k base h s now_time clk endo c : hosting k base h s -> (k <= K)%nat -> allowed h (HostKilled now_time clk endo c) = true ->
  exists h' s', host_act h (HostKilled now_time clk endo c) = Some (kOk, h') /\ host_step a0 s (HostKilled now_time clk endo c) kOk s' /\ hosting k base h' s'.
Proof using All.
  intros Hg Hk Hal. pose proof (allowed_named h (HostKilled now_time clk endo c) now_time eq_refl Hal) as Hnm. pose proof (hosting_offset _ _ _ _ Hg) as Hoff. pose proof (hg_snapshot _ _ _ _ Hg) as Hsn.
  pose proof (sv_stat _ _ _ _ _ _ _ (hg_serving _ _ _ _ Hg)) as Hstat. pose proof (sv_log _ _ _ _ _ _ _ (hg_serving _ _ _ _ Hg)) as Hlog. set (w := ho_world h) in *.
  assert (Hact : host_act h (HostKilled now_time clk endo c) = fs ← cut_making w (snap_of (hs_offset s)) now_time clk endo c; restart fs (w_history w)) by (subst w; destruct h as [w sn]; cbn [host_act ho_world ho_snapshot] in *; by rewrite Hsn).
  assert (Hreb : host_act h HostReboot = restart (w_fs w) (w_history w)) by (by destruct h).
  assert (Hsame : cut_making w (snap_of (hs_offset s)) now_time clk endo c = Some (w_fs w) -> exists h' s', host_act h (HostKilled now_time clk endo c) = Some (kOk, h') /\ host_step a0 s (HostKilled now_time clk endo c) kOk s' /\ hosting k base h' s').
  { intros Hc. rewrite Hact, Hc, bind_some, <- Hreb. destruct (act_reboot k base h s Hg Hk) as (h' & Ha & Hg'). eexists h', _. split; [exact Ha|]. split; [constructor|exact Hg']. }
  destruct (due_dec endo s) as [Hdue|[Hth|(Hth & Hen)]]; [|apply Hsame; unfold cut_making; rewrite decide_False by (rewrite Hstat; by intros []); rewrite Hoff; cbn [snap_of sn_offset]..].
  - destruct (making k base h s now_time clk endo Hg Hk Hdue Hnm) as (o & X & t & fs' & W & ps & ends & old & Hmake & Hren & _ & _ & Hw & HW & _ & Hcut). fold w in Hmake, Hw, Hcut.
    destruct (cut_making_some w _ now_time clk endo c o _ _ _ Hmake) as (fs1 & Hc). destruct (cut_making_cut w _ now_time clk endo c fs1 Hstat Hc) as [->|(_ & _ & Hmc)]; [by apply Hsame|].
    destruct (Hcut fs1 Hmc) as [Hout Hrc]. rewrite Hact, Hc, bind_some. rewrite <- Hlog in Hrc.
    assert (Hres : forall o X old, recorded M a0 fs1 (lp_logs (w_log w)) (snap_of o) W base ps X (history_entries (w_history w)) old -> exists h', restart fs1 (w_history w) = Some (kOk, h') /\ hosting k base h' (rebooted a0 o X (history_entries (w_history w)))).
    { intros o1 X1 old1 Hrc1. eapply restart_hosting; try exact Hrc1; try done; [eapply outside_dir; [exact Hout|apply Hw]|eapply outside_readable; [exact Hout|apply Hw]|eapply outside_healthy; [exact Hout|by eapply winv_healthy]|apply Hw|apply Hw|by eapply winv_index|rewrite Hlog; apply (hg_orderly _ _ _ _ Hg)]. }
    rewrite Hlog in Hres. destruct Hrc as [Hrc|Hrc]; rewrite Hlog in Hrc; destruct (Hres _ _ _ Hrc) as (h' & Ha & Hg'); eexists h', _; (split; [exact Ha|]); (split; [|exact Hg']); [constructor|by apply host_killed_after].
  - by rewrite decide_True.
  - rewrite decide_False by done. cbn [sn_making_snapshot]. rewrite decide_True; [done|]. clear -Hen. lia.
Qed.

(** ** The first start *)
Lemma boot_hosting fs : in_order \/ in_any_order -> readable fs (path root) -> healthy fs (path root) -> (forall f, is_Some (fs_files fs !! f) -> in_dir (path root) f = false) ->
  open_dir fs (snap_of 0) -> uncompressed (snap_of 0) -> fs_files fs !! sn_file (snap_of 0) MANIFEST = None ->
  exists h, restart fs [] = Some (kOk, h) /\ hosting 0 0 h (rebooted a0 0 ∅ []).
Proof using All.
  intros Hpool Hrd Hhl Hno Hop Hun Hman. apply (restart_hosting 0 0 fs (Skiplist_new 12 4) 0 [] 0 ∅ None []); try done; try (simpl; lia).
  - split; cbn [snap_of sn_offset sn_log_path sn_snapshot_path]; try done; try (simpl; lia).
    + exists (root ++ str "/snapshot"). by rewrite <- app_assoc.
    + by constructor.
    + split; [apply rep_full_rep, Skiplist_new_rep; lia|apply SSorted_nil|by apply Forall_nil..|done|by apply Forall_nil|done].
    + by intros [] ? ?.
    + intros name k. apply snapshot_not_log.
  - intros f Hf Hin. by rewrite (Hno f Hf) in Hin.
  - destruct Hpool as [?|?]; [by left|right]. split; [done|constructor].
Qed.

(** ** Tables whose rows never expire *)

(** No collection takes anything from a table with [P], and it reports no entry that
    it takes as expired. *)
Definition unexpired (P : table_abs T -> Prop) : Prop :=
  plain P /\ forall a c e, P a -> put_ok e -> (table_put a e).1 = true -> table_expired a c e = false.
(** The table is the replay of the log, and no entry has been left out. *)
Definition whole (s : host_store) : Prop := hs_expired s = ∅ /\ settled_store a0 (hs_store s).

Lemma kept_all es : kept ∅ es = es.
Proof using. unfold kept. induction es as [|e es IH]; [done|]. rewrite filter_cons_True, IH; [done|]. right. apply not_elem_of_empty. Qed.
Lemma plain_foldl P es : plain P -> forall a, P a -> P (foldl abs_apply a es).
Proof using. intros HP. induction es as [|e es IH]; intros a Hp; [done|]. apply IH. by apply plain_apply. Qed.
Lemma plain_loaded P a1 o log : unexpired P -> P a1 -> 0 <= o -> indexed 0 log -> table_gc (abs_replay clock a1 o 0 (drop (Z.to_nat o) log)) now = foldl abs_apply a1 (drop (Z.to_nat o) log).
Proof using.
  intros [HP _] Ha Ho Hi. destruct (plain_replay clock P (drop (Z.to_nat o) log) HP a1 o 0 Ha) as [-> Hp].
  - intros i e He. rewrite lookup_drop in He. rewrite (Hi _ _ He). clear -Ho. lia.
  - destruct HP as (_ & _ & Hg). by rewrite (Hg _ _ Hp).
Qed.
Lemma whole_rebooted P o log : unexpired P -> P a0 -> 0 <= o -> indexed 0 log -> whole (rebooted a0 o ∅ log).
Proof using.
  intros HP Ha Ho Hi. split; [done|]. split; [|done]. cbn [rebooted hs_store st_live st_log]. unfold loaded. rewrite kept_all, (plain_loaded P), <- foldl_app, take_drop; try done. apply plain_foldl; [apply HP|done].
Qed.
Lemma whole_renewed P k base h s clk endo o X : unexpired P -> P a0 -> hosting k base h s -> whole s -> renewed clk endo s o X -> X = ∅.
Proof using All.
  intros [HP Hun] Ha Hg [HX [Hlive _]] Hren. apply set_eq. intros x. split; [|set_solver]. intros Hx. exfalso. destruct (rn_expired _ _ _ _ _ Hren x Hx) as [Hin|(e & He & Hd & _ & Hexp)]; [set_solver|].
  destruct (hg_recorded _ _ _ _ Hg) as (logs & W & ps & old & Hrc). pose proof (rc_entries _ _ _ _ _ _ _ _ _ _ _ Hrc) as Hent.
  assert (Hl : loggable a0 e).
  { apply elem_of_app in He as [He|He].
    - pose proof (snap_loggable M a0 fresh (hs_expired s) (take (Z.to_nat (hs_offset s)) (hs_log s)) ltac:(by apply Forall_take)) as Hs. rewrite Forall_forall in Hs. by apply Hs.
    - apply (Forall_drop _ (Z.to_nat (hs_offset s))), (Forall_take _ (Z.to_nat o - Z.to_nat (hs_offset s))) in Hent. rewrite Forall_forall in Hent. by apply Hent. }
  destruct (loggable_put a0 e Hl Hd) as (Hok & _ & Hacc). unfold expires in Hexp. rewrite Hun in Hexp; try done; [|by rewrite (hg_answers _ _ _ _ Hg)].
  rewrite Hlive. clear -HP Ha. revert a0 Ha. induction (hs_log s) as [|x es IH]; intros a Ha; [done|]. apply IH. by apply plain_apply.
Qed.
Lemma whole_step P k base h s o code s' : unexpired P -> P a0 -> hosting k base h s -> whole s -> host_step a0 s o code s' -> whole s'.
Proof using All.
  intros HP Ha Hg Hs Hst. pose proof Hs as [HX Hset]. assert (Ho : 0 <= hs_offset s) by (destruct (hg_recorded _ _ _ _ Hg) as (logs & W & ps & old & Hrc); destruct (rc_range _ _ _ _ _ _ _ _ _ _ _ Hrc); cbn [snap_of sn_offset] in *; lia).
  assert (Hstep : forall a code st, store_step follower tid pid clock now a0 (hs_store s) a code st -> whole (MkHostStore st (hs_offset s) ∅)).
  { intros a c st Hone. split; [done|]. by eapply (settled_step follower tid pid clock now P); [apply HP| | |exact Hone]. }
  destruct Hst as [r|r| |? clk endo o X Hdue Hren| | |n j| |? clk endo c o X Hdue Hren]; try done; try (rewrite HX).
  - eapply (Hstep (ClientPut r)). constructor.
  - eapply (Hstep (ClientDelete r)). constructor.
  - split; [|done]. by eapply whole_renewed.
  - apply (whole_rebooted P); try done. apply Hset.
  - apply (whole_rebooted P); try done. intros i e Hi. apply Hset. by apply lookup_take_Some in Hi as [? _].
  - apply (whole_rebooted P); try done. apply Hset.
  - rewrite (whole_renewed P k base h s clk endo o X HP Ha Hg Hs Hren). apply (whole_rebooted P); try done; [|apply Hset]. pose proof (rn_offset _ _ _ _ _ Hren). lia.
Qed.

(** ** The simulation *)
Lemma host_act_step k base h s o : hosting k base h s -> (k < K)%nat -> host_action_ok o -> allowed h o = true -> in_order \/ (in_any_order /\ keeps_apart a0 h o) ->
  exists code h' s' base', host_act h o = Some (code, h') /\ host_step a0 s o code s' /\ hosting (S k) base' h' s'.
Proof using All.
  intros Hg Hk Ho Hal Hap. assert (Hup : forall base h' s', hosting k base h' s' -> hosting (S k) base h' s') by (intros; eapply hosting_le; [| |done]; lia). destruct o as [r|r|nt clk endo| | |n|nt clk endo c].
  - destruct (act_host_put k base h s r Hg Hk Ho Hap) as (h' & Ha & Hg'). eexists _, h', _, base. split; [exact Ha|]. split; [constructor|exact Hg'].
  - destruct (act_host_delete k base h s r Hg Hk Ho) as (h' & Ha & Hg'). eexists _, h', _, base. split; [exact Ha|]. split; [constructor|exact Hg'].
  - destruct (act_snapshot k base h s nt clk endo Hg ltac:(lia) Hal) as (h' & s' & Ha & Hst & Hg'). eexists _, h', s', base. split; [exact Ha|]. split; [exact Hst|by apply Hup].
  - destruct (act_delete_binlog k base h s Hg) as (h' & base' & Ha & Hg'). eexists _, h', s, base'. split; [exact Ha|]. split; [constructor|by apply Hup].
  - destruct (act_reboot k base h s Hg ltac:(lia)) as (h' & Ha & Hg'). eexists _, h', _, base. split; [exact Ha|]. split; [constructor|by apply Hup].
  - destruct (act_crash k base h s n Hg ltac:(lia) Hal) as (h' & j & Ha & Hj & Hg'). eexists _, h', _, base. split; [exact Ha|]. split; [by apply host_crash|by apply Hup].
  - destruct (act_killed k base h s nt clk endo c Hg ltac:(lia) Hal) as (h' & s' & Ha & Hst & Hg'). eexists _, h', s', base. split; [exact Ha|]. split; [exact Hst|by apply Hup].
Qed.
Lemma host_acts_steps os : forall k base h s, hosting k base h s -> (k + length os <= K)%nat -> Forall host_action_ok os -> all_allowed h os = true -> in_order \/ (in_any_order /\ all_apart a0 h os) ->
  exists codes h' s' base', host_acts h os = Some (codes, h') /\ host_steps a0 s os codes s' /\ hosting (k + length os) base' h' s' /\ forall P, unexpired P -> P a0 -> whole s -> whole s'.
Proof using All.
  induction os as [|o os IH]; intros k base h s Hg Hk Hos Hal Hap; cbn [length host_acts all_allowed all_apart] in *; [exists [], h, s, base; rewrite Nat.add_0_r; split; [done|]; split; [constructor|by split]|].
  apply Forall_cons in Hos as [Ho Hos]. apply andb_true_iff in Hal as [Ha1 Hal].
  destruct (host_act_step k base h s o Hg ltac:(lia) Ho Ha1) as (code & h1 & s1 & base1 & Ha & Hst & Hg1); [destruct Hap as [?|[? [? _]]]; [by left|by right]|]. rewrite Ha in *. rewrite bind_some.
  destruct (IH (S k) base1 h1 s1 Hg1 ltac:(lia) Hos Hal) as (codes & h' & s' & base' & -> & Hsts & Hg' & Hwh); [destruct Hap as [?|[? [_ ?]]]; [by left|by right]|]. rewrite bind_some.
  exists (code :: codes), h', s', base'. split; [done|]. split; [by econstructor|]. rewrite <- Nat.add_succ_comm. split; [done|]. intros P HP Hp Hs. apply (Hwh P HP Hp). exact (whole_step P k base h s o code s1 HP Hp Hg Hs Hst).
Qed.

(** ** A second snapshot in one minute *)

(** A start on files of which only the snapshot directory has changed: [a1] is what
    the snapshot gives. *)
Lemma restart_table k W fs logs base ps o h a1 : binlog fs logs (path root) W base ps -> dir_ok fs (path root) ps -> readable fs (path root) -> healthy fs (path root) ->
  (length h <= k)%nat -> (length ps <= k)%nat -> (k <= K)%nat -> 0 <= base <= o -> let hist := history_entries h in o <= Z.of_nat (length hist) ->
  all_entries ps = drop (Z.to_nat base) hist -> numbered 0 hist -> Forall (loggable a0) hist ->
  (forall n t, table_rep (length hist + n) t a0 -> exists t', Snapshot_Recover fuel fs pool (snap_of 0) t 0 = Some (true, o, snap_of o, t') /\ table_rep n t' a1) ->
  exists h', restart fs h = Some (kOk, h') /\ table_rep (R - 2 * k - 1) (pa_table (w_partition (ho_world h'))) (table_gc (abs_replay clock a1 o 0 (drop (Z.to_nat o) hist)) now).
Proof using All.
  intros Hb Hd Hrd Hhl Hlh Hlp Hk Hbo hist Hoh Hhe Hnum Hlg Hrec. assert (Hlen : length hist = length h) by (unfold hist, history_entries; by rewrite length_fmap).
  unfold restart, host_start. set (p0 := LogReplicator_new root real_ep_map role t0 follower).
  destruct (Init_spec tid pid rpc_init rpc_ok fs p0) as (ns & nends & ->). set (p1 := set_lp_nodes _ ns nends p0).
  destruct (Recover_spec fs logs W base ps p1) as (logs' & -> & Hb1); try done; [clear -Hbo; lia|apply rep_full_rep, Skiplist_new_rep; lia|]. rewrite bind_some. cbv beta iota zeta. cbn [negb MemTableSnapshot_Init MemTableSnapshot_new].
  change (lp_binlog_index p1) with 0. change (lp_log_path p1) with (path root) in Hb1. set (p2 := set_lp_logs _ logs' p1). set (qs := filter filled ps) in *.
  assert (Hlq : (length qs <= length ps)%nat) by (unfold qs; clear; induction ps as [|q l IH]; [simpl; lia|]; rewrite filter_cons; case_decide; simpl; lia).
  change (MkSnapshot _ _ (root ++ str "/snapshot/") _ _) with (snap_of 0). set (x := MkPartition kUndefined 0 p2).
  destruct (Hrec (2 * length hist + S (R - 2 * k - 1))%nat (pa_table x)) as (t1 & Hsr & Ht1); [change (pa_table x) with t0; eapply table_rep_le; [|exact table]; lia|].
  destruct (LoadTable_from off gc_count M a0 fresh empty fuel pool clock now thread_start (R - 2 * k - 1) fs logs' (path root) W base qs o hist (snap_of 0) x a1 t1) as (fs' & x' & Hload & Hrest); try done.
  { apply Forall_forall. intros q _. apply Hhl. } { unfold qs. by rewrite filled_entries. } { lia. }
  rewrite Hload, bind_some. cbn [require mbind option_bind]. eexists. split; [reflexivity|]. cbn [ho_world w_partition]. apply Hrest.
Qed.
Lemma moved_restart k base h s fs1 a1 : hosting k base h s -> (k <= K)%nat -> let w := ho_world h in outside (w_fs w) fs1 (snap_of (hs_offset s)) ->
  (forall n t, table_rep (length (hs_log s) + n) t a0 -> exists t', Snapshot_Recover fuel fs1 pool (snap_of 0) t 0 = Some (true, hs_offset s, snap_of (hs_offset s), t') /\ table_rep n t' a1) ->
  exists h', restart fs1 (w_history w) = Some (kOk, h') /\ table_rep (R - 2 * k - 1) (pa_table (w_partition (ho_world h'))) (table_gc (abs_replay clock a1 (hs_offset s) 0 (drop (Z.to_nat (hs_offset s)) (hs_log s))) now).
Proof using All.
  intros Hg Hk w Hout Hrec. destruct (hosting_disk k base h s Hg) as (W & ps & ends & old & Hw & HW & _ & Hrc). fold w in Hw, Hrc.
  pose proof (sv_log _ _ _ _ _ _ _ (hg_serving _ _ _ _ Hg)) as Hlog. fold w in Hlog. pose proof (rc_range _ _ _ _ _ _ _ _ _ _ _ Hrc) as [Hr1 Hr2]. cbn [snap_of sn_offset sn_log_path] in *. rewrite <- Hlog in *.
  apply (restart_table k W fs1 (lp_logs (w_log w)) base ps (hs_offset s)); try done.
  - eapply binlog_same; [by eapply outside_same|]. apply (rc_log _ _ _ _ _ _ _ _ _ _ _ Hrc).
  - eapply outside_dir; [exact Hout|apply Hw].
  - eapply outside_readable; [exact Hout|apply Hw].
  - eapply outside_healthy; [exact Hout|by eapply winv_healthy].
  - apply Hw.
  - apply Hw.
  - apply Hr2.
  - apply (rc_hist _ _ _ _ _ _ _ _ _ _ _ Hrc).
  - apply (rc_numbers _ _ _ _ _ _ _ _ _ _ _ Hrc).
  - eapply Forall_impl; [apply (rc_entries _ _ _ _ _ _ _ _ _ _ _ Hrc)|]. by intros ? [].
Qed.

(** The name of the next snapshot is that of the manifest. *)
Definition same_minute (h : host) (now_time : bytes) : Prop :=
  dated (minute now_time) /\ fs_files (w_fs (ho_world h)) !! sn_file (ho_snapshot h) (snapshot_name now_time ++ str ".tmp") = None /\
  mf_name (GetLocalManifest (w_fs (ho_world h)) (sn_file (ho_snapshot h) MANIFEST)).2 = Some (snapshot_name now_time).
(** The next write of the manifest fails after [n] bytes. *)
Definition manifest_fault (n : nat) (sn : MemTableSnapshot) (fs : FileSystem) : FileSystem :=
  MkFileSystem (fs_files fs) (fs_denied fs) (fun f => if decide (f = sn_file sn (MANIFEST ++ str ".tmp")) then [Some n] else fs_faults fs f).
(** The files of [fs1] on the disk of [fs] *)
Definition repaired (fs fs1 : FileSystem) : FileSystem := MkFileSystem (fs_files fs1) (fs_denied fs) (fs_faults fs).

Lemma manifest_same fs fs' f : fs_denied fs' = fs_denied fs -> fs_files fs' !! f = fs_files fs !! f -> GetLocalManifest fs' f = GetLocalManifest fs f.
Proof using. intros Hd Hf. unfold GetLocalManifest, fopen_read. by rewrite Hd, Hf. Qed.
Lemma on_disk_faults fs fs' logs sn W base ps S old : on_disk M fs logs sn W base ps S old -> fs_files fs' = fs_files fs -> fs_denied fs' = fs_denied fs -> on_disk M fs' logs sn W base ps S old.
Proof using.
  intros [Hsl Hop Hpl Hst Hlog Htidy Hap Hr He HS Hsz] Hf Hd. assert (Hsame : same_log fs fs' (sn_log_path sn) ps) by (split; [done|]; intros; by rewrite Hf).
  split; try done; [intros name; rewrite Hd; apply Hop| |by eapply binlog_same|by eapply tidy_same]. eapply stored_frame; [exact Hst|done|by rewrite Hf|intros; by rewrite Hf].
Qed.

(** What a second snapshot in the minute is made from, and what it writes into its
    file: a table without expiry keeps the whole log. *)
Lemma second_fill P k base h s fs now_time clk : hosting k base h s -> (k <= K)%nat -> unexpired P -> P a0 -> whole s -> same_minute h now_time ->
  Z.of_nat (length (hs_log s)) < FLAGS_make_snapshot_max_deleted_keys -> let w := ho_world h in let sn := snap_of (hs_offset s) in let tmp := sn_file sn (snapshot_name now_time ++ str ".tmp") in
  fs_files fs = fs_files (w_fs w) -> fs_denied fs = fs_denied (w_fs w) -> writable fs tmp ->
  exists t' fs0 fs1 mf cnt term, fopen_append fs tmp = Some fs0 /\
    fill_snapshot fuel fs0 (lp_logs (w_log w)) tmp clk 0 (set_sn_making true sn) (lp_table (w_log w)) =
      Some (false, mf, Z.of_nat (length (snap ∅ (hs_log s))), Z.of_nat (length (hs_log s)), term, fs1, set_sn_deleted cnt (set_sn_making true sn), t') /\
    snapshot_file fs1 tmp (snap ∅ (hs_log s)) /\ only fs fs1 tmp /\ undenied fs1 sn /\ slashed sn /\ uncompressed sn /\
    (exists c0 term0, GetLocalManifest (w_fs w) (sn_file sn MANIFEST) = (0, MkManifest (hs_offset s) (Some (sdb (minute now_time))) c0 term0)).
Proof using All.
  intros Hg Hk HP Ha Hwh (Hm & Htmp & Hname) Hmax w sn tmp Hf Hd Hwr. destruct (hosting_disk k base h s Hg) as (W & ps & ends & old & Hw & HW & Htidy & Hrc). rewrite (hg_snapshot _ _ _ _ Hg) in Htmp, Hname. fold w sn in Htmp, Hname, Hw, Htidy, Hrc. fold tmp in Htmp.
  pose proof (rc_range _ _ _ _ _ _ _ _ _ _ _ Hrc) as [Hr1 Hr2]. pose proof (sv_log _ _ _ _ _ _ _ (hg_serving _ _ _ _ Hg)) as Hlog. fold w in Hlog.
  assert (Hlen : length (hs_log s) = length (w_history w)) by (rewrite <- Hlog; unfold history_entries; by rewrite length_fmap).
  assert (Hle : length (all_entries ps) = (length (hs_log s) - Z.to_nat base)%nat) by (by rewrite (rc_hist _ _ _ _ _ _ _ _ _ _ _ Hrc), length_drop).
  pose proof (recorded_on_disk M a0 fresh _ _ _ _ _ _ _ _ _ Hrc Htidy) as Hod0. pose proof (on_disk_faults _ fs _ _ _ _ _ _ _ Hod0 Hf Hd) as Hod. set (S0 := snap _ _) in Hod, Hod0.
  assert (HlS : (length S0 <= length (hs_log s))%nat) by (unfold S0; etransitivity; [apply snap_length|]; rewrite length_take; lia).
  destruct (start_fill off M (R - 2 * k - 1) clk (hs_live s) fuel fs (lp_logs (w_log w)) now_time 0 sn (lp_table (w_log w)) W base ps S0 old Hod) as (j & t' & fs0 & fs1 & mf & lt & Hj & Hall & Hopen & Hfill & Ht' & _ & Hsf & Hon & Hod1 & _).
  { pose proof (wi_entries _ _ _ _ _ _ _ Hw). pose proof (wi_parts _ _ _ _ _ _ _ Hw). split; lia. } { apply (sv_table _ _ _ _ _ _ _ (hg_serving _ _ _ _ Hg)). } { exact Hm. } { by rewrite Hf. } { exact Hwr. }
  assert (Ej : j = length (all_entries ps)) by (apply Hall; [done|lia]). destruct (new_snapshot_snap off M (R - 2 * k - 1) clk (hs_live s) a0 fresh _ _ _ _ _ _ _ _ _ j Hrc Hj) as (X' & Hsnap & Hsub & _ & Hexp). cbv zeta in Hsnap, Hexp.
  replace (Z.to_nat base + j)%nat with (length (hs_log s)) in Hsnap, Hexp by (cbn [sn snap_of sn_offset] in Hr1, Hr2; lia). rewrite firstn_all in Hsnap.
  assert (EX : X' = ∅).
  { eapply (whole_renewed P k base h s clk 0 (Z.of_nat (length (hs_log s))) X'); try done. split; [cbn [sn snap_of sn_offset] in Hr1, Hr2; lia|done|done|]. intros x Hx. rewrite Nat2Z.id. by apply Hexp. }
  subst X'. change (new_snapshot clk (hs_live s) sn base ps S0 j) with (new_snapshot clk (hs_live s) sn base ps (snap (hs_expired s) (take (Z.to_nat (sn_offset sn)) (hs_log s))) j) in Hfill, Hsf. rewrite Hsnap in Hfill, Hsf.
  replace (base + Z.of_nat j) with (Z.of_nat (length (hs_log s))) in Hfill by (cbn [sn snap_of sn_offset] in Hr1, Hr2; lia).
  exists t', fs0, fs1, mf, (collect (SnapshotStore.new_entries ps (Z.to_nat (sn_offset sn - base)) j)), lt. split; [exact Hopen|]. split; [exact Hfill|]. split; [exact Hsf|]. split; [exact Hon|].
  split; [exact (od_open _ _ _ _ _ _ _ _ _ Hod1)|]. split; [exact (od_slash _ _ _ _ _ _ _ _ _ Hod)|]. split; [exact (od_plain _ _ _ _ _ _ _ _ _ Hod)|].
  pose proof (stored_manifest _ _ _ _ _ (od_stored _ _ _ _ _ _ _ _ _ Hod0) (od_open _ _ _ _ _ _ _ _ _ Hod0)) as Hmf. destruct old as [m|]; [|destruct Hmf as (_ & _ & E); by rewrite E in Hname].
  destruct Hmf as (term0 & _ & E). rewrite E in Hname. cbn [snd mf_name] in Hname. rewrite (snapshot_name_sdb off) in Hname. injection Hname as ->%sdb_inj. eexists _, term0. exact E.
Qed.

(** The new file under the name that the old manifest has: it is loaded, and the
    log behind the old offset once more. *)
Lemma replaced_restart P k base h s fs1 m c0 term0 : hosting k base h s -> (k <= K)%nat -> unexpired P -> P a0 -> whole s ->
  let w := ho_world h in let sn := snap_of (hs_offset s) in outside (w_fs w) fs1 sn -> slashed sn -> uncompressed sn -> dated m ->
  GetLocalManifest fs1 (sn_file sn MANIFEST) = (0, MkManifest (hs_offset s) (Some (sdb m)) c0 term0) -> snapshot_file fs1 (sn_file sn (sdb m)) (snap ∅ (hs_log s)) ->
  exists h', restart fs1 (w_history w) = Some (kOk, h') /\ table_rep (R - 2 * k - 1) (pa_table (w_partition (ho_world h'))) (foldl abs_apply a0 (hs_log s ++ drop (Z.to_nat (hs_offset s)) (hs_log s))).
Proof using All.
  intros Hg Hk HP Ha Hwh w sn Hout Hsl Hpl Hm Hmf Hsf. destruct (hosting_disk k base h s Hg) as (W & ps & ends & old & Hw & _ & _ & Hrc). pose proof (rc_entries _ _ _ _ _ _ _ _ _ _ _ Hrc) as Hent. pose proof (rc_range _ _ _ _ _ _ _ _ _ _ _ Hrc) as [Hr1 _].
  assert (Hlg : Forall (loggable a0) (hs_log s)) by (eapply Forall_impl; [exact Hent|]; by intros ? []). cbn [snap_of sn_offset] in Hr1.
  assert (Hlen : (length (hs_log s) <= k)%nat) by (rewrite <- (sv_log _ _ _ _ _ _ _ (hg_serving _ _ _ _ Hg)); unfold history_entries; rewrite length_fmap; apply (wi_entries _ _ _ _ _ _ _ Hw)).
  pose proof (snap_length ∅ (hs_log s)) as Hls.
  destruct (moved_restart k base h s fs1 (foldl abs_apply a0 (hs_log s)) Hg Hk Hout) as (h' & Hr & Ht).
  - intros n t Ht. destruct (Recover_file off gc_count M a0 fresh empty fuel n fs1 pool (snap_of 0) (snap ∅ (hs_log s)) m (hs_offset s) c0 term0 t) as (t' & Hrec & Ht'); try done.
    + by apply (snap_loggable M a0 fresh).
    + replace (hs_log s) with (take (length (hs_log s)) (hs_log s)) at 1 by apply firstn_all. apply orderly_loads; [done|apply (hg_orderly _ _ _ _ Hg)].
    + lia.
    + eapply table_rep_le; [|exact Ht]. lia.
    + exists t'. rewrite (snap_fold a0 fresh empty), kept_all in Ht' by done. by split.
  - exists h'. split; [exact Hr|]. rewrite (plain_loaded P) in Ht; [by rewrite foldl_app|done|apply plain_foldl; [apply HP|done]|lia|apply Hwh].
Qed.
Lemma second_killed P k base h s now_time clk c : hosting k base h s -> (k <= K)%nat -> unexpired P -> P a0 -> whole s -> same_minute h now_time -> due 0 s ->
  Z.of_nat (length (hs_log s)) < FLAGS_make_snapshot_max_deleted_keys -> match c with FileNamed | InManifest _ => True | _ => False end ->
  exists h', host_act h (HostKilled now_time clk 0 c) = Some (kOk, h') /\ table_rep (R - 2 * k - 1) (pa_table (w_partition (ho_world h'))) (foldl abs_apply a0 (hs_log s ++ drop (Z.to_nat (hs_offset s)) (hs_log s))).
Proof using All.
  intros Hg Hk HP Ha Hwh Hmin Hdue Hmax Hc. pose proof (hosting_offset _ _ _ _ Hg) as Hoff. pose proof (sv_stat _ _ _ _ _ _ _ (hg_serving _ _ _ _ Hg)) as Hstat. pose proof (hg_snapshot _ _ _ _ Hg) as Hsn. pose proof (proj1 Hmin) as Hm.
  destruct (hosting_disk k base h s Hg) as (W & ps & ends & old & _ & _ & _ & Hrc). set (w := ho_world h) in *.
  destruct (second_fill P k base h s (w_fs w) now_time clk Hg Hk HP Ha Hwh Hmin Hmax eq_refl eq_refl (proj2 (rc_open _ _ _ _ _ _ _ _ _ _ _ Hrc _))) as (t' & fs0 & fs1 & mf & dk & term & Hopen & Hfill & Hsf & (Hd1 & Hf1 & Ho1) & Hun & Hsl & Hpl & c0 & term0 & Hmf).
  fold w in Hopen, Hfill, Hd1, Hf1, Ho1, Hmf. set (sn := snap_of (hs_offset s)) in *. rewrite (snapshot_name_sdb off) in Hopen, Hfill, Hsf, Ho1. set (m := minute now_time) in *.
  destruct (rename_over fs1 sn m _ Hsl Hun Hm Hsf) as (fs2 & Hren & Hsf2 & (Hd2 & Hf2 & Ho2) & Hma2). destruct (sdb_name m Hm) as (Hs1 & Hs2 & Hn1 & Hn2 & Hn3 & Hn4). destruct manifest_names as [Hp1 Hp2].
  assert (Hma : fs_files fs2 !! sn_file sn MANIFEST = fs_files (w_fs w) !! sn_file sn MANIFEST) by (rewrite Hma2; apply Ho1; intros E; apply sn_file_inj in E; congruence).
  assert (Hout : outside (w_fs w) fs2 sn) by (split; [by rewrite Hd2|]; split; [by rewrite Hf2|]; intros f Hx; rewrite Ho2 by done; by apply Ho1).
  assert (Hcut : exists fs3, cut_making w sn now_time clk 0 c = Some fs3 /\ outside (w_fs w) fs3 sn /\ fs_files fs3 !! sn_file sn MANIFEST = fs_files (w_fs w) !! sn_file sn MANIFEST /\ snapshot_file fs3 (sn_file sn (sdb m)) (snap ∅ (hs_log s))).
  { unfold cut_making. rewrite decide_False by (rewrite Hstat; by intros []). rewrite Hoff, decide_False by apply Hdue. change (sn_making_snapshot sn) with false. rewrite (decide_False (P := 0 < 0 /\ 0 <= sn_offset sn)) by (intros [? _]; done).
    cbv zeta. rewrite (snapshot_name_sdb off). fold m. destruct c as [| | |j| |]; try done; rewrite Hopen, bind_some, Hfill, bind_some; cbn [negb require]; rewrite bind_some;
      change (sn_file (set_sn_deleted dk (set_sn_making true sn))) with (sn_file sn); rewrite Hren; [by exists fs2|]. rewrite bind_some. unfold fopen_write. rewrite Hd2, (Hun (MANIFEST ++ str ".tmp")), bind_some.
    eexists. split; [reflexivity|]. destruct Hout as (? & ? & Ho). split; [split; [done|]; split; [done|]; intros f Hx; rewrite !lookup_write_ne by (intros E; by apply (Hx (MANIFEST ++ str ".tmp"))); by apply Ho|].
    split; [rewrite !lookup_write_ne by (intros E; by apply sn_file_inj in E); exact Hma|].
    eapply snapshot_moved; [exact Hsf2|rewrite !lookup_write_ne by (intros E; apply sn_file_inj in E; congruence); done|cbn; rewrite Hd2; apply Hun]. }
  destruct Hcut as (fs3 & Hcut & Hout3 & Hma3 & Hsf3). assert (Hact : host_act h (HostKilled now_time clk 0 c) = restart fs3 (w_history w)) by (subst w; destruct h as [w0 sn0]; cbn [host_act ho_world ho_snapshot] in *; by rewrite Hsn, Hcut).
  rewrite Hact. eapply (replaced_restart P k base h s fs3 m c0 term0); try done. rewrite (manifest_same (w_fs w)); [done|apply Hout3|done].
Qed.
Lemma second_lost P k base h s now_time clk n : hosting k base h s -> (k <= K)%nat -> unexpired P -> P a0 -> whole s -> same_minute h now_time -> due 0 s ->
  Z.of_nat (length (hs_log s)) < FLAGS_make_snapshot_max_deleted_keys -> let w := ho_world h in
  exists fs1 x1 sn1 h', MakeSnapshotInternal fuel (manifest_fault n (ho_snapshot h) (w_fs w)) now_time clk 0 (w_partition w) (ho_snapshot h) = Some (fs1, x1, sn1) /\
    restart (repaired (w_fs w) fs1) (w_history w) = Some (kOk, h') /\ table_rep (R - 2 * k - 1) (pa_table (w_partition (ho_world h'))) (foldl abs_apply a0 (drop (Z.to_nat (hs_offset s)) (hs_log s))).
Proof using All.
  intros Hg Hk HP Ha Hwh Hmin Hdue Hmax w. pose proof (hosting_offset _ _ _ _ Hg) as Hoff. pose proof (sv_stat _ _ _ _ _ _ _ (hg_serving _ _ _ _ Hg)) as Hstat. pose proof (hg_snapshot _ _ _ _ Hg) as Hsn. pose proof (proj1 Hmin) as Hm.
  destruct (hosting_disk k base h s Hg) as (W & ps & ends & old & _ & _ & _ & Hrc). pose proof (rc_range _ _ _ _ _ _ _ _ _ _ _ Hrc) as [Hr1 _]. cbn [snap_of sn_offset] in Hr1. fold w in Hoff, Hstat, Hrc. rewrite Hsn.
  destruct (sdb_name (minute now_time) Hm) as (Hs1 & Hs2 & Hn1 & Hn2 & Hn3 & Hn4). destruct manifest_names as [Hp1 Hp2]. pose proof (rc_slash _ _ _ _ _ _ _ _ _ _ _ Hrc) as Hsl0.
  set (sn := snap_of (hs_offset s)) in *. set (fsf := manifest_fault n sn (w_fs w)).
  assert (Hwr : writable fsf (sn_file sn (snapshot_name now_time ++ str ".tmp"))).
  { unfold writable, fsf. cbn [manifest_fault fs_faults]. rewrite (snapshot_name_sdb off), decide_False by (intros E; apply sn_file_inj in E; congruence). apply (rc_open _ _ _ _ _ _ _ _ _ _ _ Hrc). }
  destruct (second_fill P k base h s fsf now_time clk Hg Hk HP Ha Hwh Hmin Hmax eq_refl eq_refl Hwr) as (t' & fs0 & fs1 & mf & dk & term & Hopen & Hfill & Hsf & (Hd1 & Hf1 & Ho1) & Hun & Hsl & Hpl & c0 & term0 & Hmf).
  fold w sn in Hopen, Hfill, Hmf, Hsf, Ho1. rewrite (snapshot_name_sdb off) in Hopen, Hfill, Hsf, Ho1. set (m := minute now_time) in *.
  destruct (publish_faulty fs1 (set_sn_deleted dk (set_sn_making true sn)) mf m _ (Z.of_nat (length (hs_log s))) term n [] Hsl Hun Hm Hsf) as (fs2 & Hpub & (Hd2 & Hf2 & Ho2) & Hma2 & Hno).
  { rewrite Hf1. unfold fsf. cbn [manifest_fault fs_faults]. by rewrite decide_True. }
  assert (Hmake : exists x1 sn1, MakeSnapshotInternal fuel fsf now_time clk 0 (w_partition w) sn = Some (fs2, x1, sn1)).
  { unfold MakeSnapshotInternal. rewrite decide_False by (rewrite Hstat; by intros []). rewrite Hoff, decide_False by apply Hdue. unfold MakeSnapshot. change (sn_making_snapshot sn) with false. rewrite (decide_False (P := 0 < 0 /\ 0 <= sn_offset sn)) by (intros [? _]; done).
    cbv zeta. rewrite (snapshot_name_sdb off). fold m. change (sn_file (set_sn_making true sn)) with (sn_file sn). rewrite Hopen, Hfill, bind_some, Hpub, bind_some. cbv beta iota zeta. rewrite decide_False by done. rewrite bind_some. by eexists _, _. }
  destruct Hmake as (x1 & sn1 & Hmake). eexists fs2, x1, sn1.
  change (sn_file (set_sn_deleted dk (set_sn_making true sn))) with (sn_file sn) in *.
  assert (Hout : outside (w_fs w) (repaired (w_fs w) fs2) sn) by (split; [done|]; split; [done|]; intros f Hx; cbn [repaired fs_files]; rewrite Ho2 by done; by apply Ho1).
  destruct (moved_restart k base h s (repaired (w_fs w) fs2) a0 Hg Hk Hout) as (h' & Hr & Ht).
  - intros n' t Ht. exists t. split; [|eapply table_rep_le; [|exact Ht]; lia]. apply (Recover_lost fuel _ pool (snap_of 0) m (hs_offset s) c0 term0 t); [exact Hsl| |exact Hno].
    rewrite (manifest_same (w_fs w)); [exact Hmf|done|]. cbn [repaired fs_files]. change (sn_file (snap_of 0)) with (sn_file sn). rewrite Hma2. apply Ho1. intros E. apply sn_file_inj in E; congruence.
  - exists h'. split; [exact Hmake|]. split; [exact Hr|]. rewrite (plain_loaded P) in Ht; [done|done|done|lia|apply Hwh].
Qed.
End host.

(** ** Memory tables *)

(** Every index has a time to live, and one that lets nothing expire. *)
Definition endless (a : abs_table * bool) : Prop := Forall (fun d => match ttl_st_ d with Some ttl => NeedGc ttl = false | None => False end) (at_defs a.1).

Section memtable.
Context `{SmallLayout} `{TableFlags} (n offset : Z) (defs : list IndexDef) (Hn : 1 <= n).

Lemma index_keys_in k dims : Forall (fun d => 0 <= d.1 < Z.of_nat k) dims -> forall km, Forall (fun kv => 0 <= kv.1 < Z.of_nat k) km -> dims <> [] \/ km <> [] ->
  Forall (fun kv => 0 <= kv.1 < Z.of_nat k) (index_keys k km dims) /\ index_keys k km dims <> [].
Proof.
  unfold index_keys. induction 1 as [|d dims Hd Hdims IH]; intros km Hkm Hne; cbn [foldl]; [by destruct Hne|]. rewrite decide_True by apply Hd. apply IH; [|right].
  - apply Forall_forall. intros x [->|Hin]%emplace_elem; [done|]. rewrite Forall_forall in Hkm. by apply Hkm.
  - destruct km as [|[k' v'] km]; cbn [emplace]; repeat case_match; done.
Qed.
Lemma put_in_range a e : sized defs a -> mem_op_ok defs (entry_op e) -> (mem_call n offset (entry_op e) a).1 = true -> Forall (fun d => 0 <= d.1 < Z.of_nat (length (at_defs a.1))) (entry_dims e).
Proof.
  intros Hs Ho Hacc. pose proof (put_dims_ok defs e Ho) as Hge. destruct (put_km n offset defs a e Hs Ho Hacc) as (km & _ & Hkm & Hfind & _).
  apply Forall_forall. intros [i k] Hin. rewrite Forall_forall in Hge. specialize (Hge _ Hin). cbn [fst] in *. split; [done|].
  assert (Hex : exists v, entry_key e i = Some v).
  { unfold entry_key. destruct (list_find_elem_of (fun d : Z * bytes => d.1 = i) (entry_dims e) (i, k) Hin eq_refl) as [x ->]. by eexists. }
  destruct Hex as (v & Hv). rewrite <- Hfind in Hv. apply map_find_in in Hv. rewrite Forall_forall in Hkm. by apply (Hkm (i, v)).
Qed.
Lemma endless_put a micros e : endless a -> sized defs a -> mem_op_ok defs (entry_op e) -> (mem_call n offset (entry_op e) a).1 = true -> abs_IsExpire a.1 micros e = false.
Proof.
  intros Hend Hs Ho Hacc. unfold abs_IsExpire. destruct (at_gc a.1); [cbn [negb]|done].
  destruct (index_keys_in (length (at_defs a.1)) (entry_dims e) (put_in_range a e Hs Ho Hacc) []) as [Hin Hne]; [constructor|left; unfold entry_dims; by destruct (le_dimensions e)|].
  destruct (index_keys _ [] _) as [|[pos key] km]; [done|]. apply Forall_cons in Hin as [Hpos _]. cbn [abs_expire_keys fst] in *.
  destruct (lookup_lt_is_Some_2 (at_defs a.1) (Z.to_nat pos)) as [d Hd]; [lia|]. pose proof (Forall_lookup_1 _ _ _ _ Hend Hd) as Ht. cbv beta in Ht. rewrite Hd, bind_some. unfold abs_expire_index.
  destruct (ttl_st_ d) as [ttl|]; [|done]. by rewrite bind_some, Ht.
Qed.
Lemma endless_shape a a' : same_shape a' a -> endless a /\ sized defs a -> endless a' /\ sized defs a'.
Proof. intros (S1 & S2 & _) [He [Hl Hs]]. unfold endless, sized. rewrite S1, S2. done. Qed.
Lemma endless_unexpired : unexpired (H9 := memtable_snapshot_laws n offset defs Hn) (fun a => forever a /\ endless a /\ sized defs a).
Proof.
  destruct (forever_plain n offset defs Hn) as (Fp & Fd & Fg). split; [split_and!|].
  - intros a e [Hf He]. split; [by apply Fp|]. eapply endless_shape; [apply put_shape|exact He].
  - intros a key idx [Hf He]. split; [by apply Fd|]. eapply endless_shape; [apply delete_shape|exact He].
  - intros a c [Hf _]. by apply Fg.
  - intros a c e (_ & He & Hs) Ho Hacc. by apply endless_put.
Qed.
End memtable.

(** A memory table as [Init] leaves it *)
Lemma memtable_start `{SmallLayout} `{TableFlags} (meta : TableMeta) (m0 : MemTable) (Hseg : 1 <= seg_cnt_ m0) (n : nat) : flags_ok -> plain_meta meta = true -> MemTable_Init (MemTable_of meta) = Some (true, m0) ->
  let laws := memtable_laws (seg_cnt_ m0) new_offset (defs_of (mt_index m0)) Hseg in
  let snapshot_laws : SnapshotLaws MemTable := memtable_snapshot_laws (seg_cnt_ m0) new_offset (defs_of (mt_index m0)) Hseg in let a0 : table_abs MemTable := (abs_table_new m0, is_leader_ (mt_table m0)) in
  200 * Z.of_nat n < 2 ^ 64 -> table_rep n m0 a0 /\ (forall i k, table_rows a0 i k = None).
Proof.
  intros Hf Hm Hi laws snapshot_laws a0 Hsz. destruct (MemTable_Init_rep meta m0 Hf Hm Hi) as (Hn & cs & Ht & Hcs & _). split.
  - exists cs. split; [exact Ht|]. rewrite Hcs. split; [cbn [length]; lia|]. by split.
  - intros i k. cbn. unfold rows_at. case_decide; [|done]. destruct (_ !! Z.to_nat i) as [c|] eqn:Hc; [|done]. apply lookup_replicate in Hc as [-> _]. apply lookup_empty.
Qed.

(** C4: A partition with a memory table that makes snapshots is a durable store.
    Client puts and deletes, snapshots with any clock and end offset, deletions of
    the log files behind the snapshot, restarts, crashes that lose the unwritten end
    of the log, and kills at any point of making a snapshot, in any order, all
    succeed or answer with the code of the specification.  It knows the partition as
    an abstract table, the list of all log entries ever accepted, the offset of the
    snapshot and the entries left out of it as expired: making a snapshot and
    deleting log files changes neither the table nor the list, and a restart gives
    the table of the list without those entries.  Scans of any key of any index show
    exactly the rows of the abstract table.  If no index lets a row expire, nothing
    is ever left out, and the table is at all times the replay of the whole list.
    The pool of loading threads may run its tasks in any order when no two puts
    share a key and a time.  Snapshots are not compressed, the description is plain
    ([plain_meta]), and the runs are those of [allowed]: a new snapshot does not have
    the name of the snapshot of the manifest or of a temporary file left behind, and
    a crash keeps the log entries that are in the snapshot. *)
Theorem snapshot_durable `{BinlogFlags} `{Compressors} `{SnapshotFlags} `{EntryCodecLaws} `{ManifestCodecLaws} `{SmallLayout} `{TableFlags}
    (root : bytes) (real_ep_map : gmap bytes bytes) (role : ReplicatorRole) (follower : bool) (tid pid : Z) (rpc_init thread_start : bytes -> Z)
    (clock : Z -> nat -> nat -> Z) (now : nat -> nat -> Z) (pool : list (list bytes) -> list bytes) (meta : TableMeta) (m0 : MemTable) (Hseg : 1 <= seg_cnt_ m0) (fs : FileSystem) (M K fuel : nat) :
  FLAGS_snapshot_compression = str "off" -> (forall point, 0 <= rpc_init point) -> FLAGS_gc_on_table_recover_count <> 0 ->
  flags_ok -> plain_meta meta = true -> MemTable_Init (MemTable_of meta) = Some (true, m0) ->
  Z.of_nat K < 2 ^ 31 - 1 /\ Z.of_nat K < 10 ^ Z.of_nat FLAGS_binlog_name_length -> Z.of_nat (2 * K * (27 * S M)) + 13 < 2 ^ 62 -> (2 * K + 2 < fuel)%nat ->
  in_order pool \/ in_any_order pool ->
  readable fs (path root) -> healthy fs (path root) -> (forall f, is_Some (fs_files fs !! f) -> in_dir (path root) f = false) ->
  open_dir fs (snap_of root 0) -> uncompressed (snap_of root 0) -> fs_files fs !! sn_file (snap_of root 0) MANIFEST = None ->
  let laws := memtable_laws (seg_cnt_ m0) new_offset (defs_of (mt_index m0)) Hseg in
  let snapshot_laws : SnapshotLaws MemTable := memtable_snapshot_laws (seg_cnt_ m0) new_offset (defs_of (mt_index m0)) Hseg in
  let a0 : table_abs MemTable := (abs_table_new m0, is_leader_ (mt_table m0)) in
  exists h0, restart root real_ep_map role follower tid pid rpc_init thread_start clock now pool m0 fuel fs [] = Some (kOk, h0) /\
  forall os, (length os <= K)%nat -> Forall (host_action_ok (T := MemTable) M) os ->
    all_allowed root real_ep_map role follower tid pid rpc_init thread_start clock now pool m0 fuel h0 os = true ->
    in_order pool \/ all_apart root real_ep_map role follower tid pid rpc_init thread_start clock now pool m0 fuel a0 h0 os ->
  exists codes h s,
    host_acts root real_ep_map role follower tid pid rpc_init thread_start clock now pool m0 fuel h0 os = Some (codes, h) /\
    host_steps follower tid pid clock now a0 (rebooted clock now a0 0 ∅ []) os codes s /\
    history_entries (w_history (ho_world h)) = st_log (hs_store s) /\
    (forall i key time, (i < length (at_defs (st_live (hs_store s)).1))%nat -> let m := pa_table (w_partition (ho_world h)) in
       table_scan m (Z.of_nat i) key time = Some (Some (from_time time (default [] (c ← at_content (st_live (hs_store s)).1 !! i; c !! key))), m)) /\
    (forever a0 -> endless a0 -> hs_expired s = ∅ /\ st_live (hs_store s) = foldl abs_apply a0 (st_log (hs_store s))).
Proof.
  intros Hoff Hrpc Hgc Hf Hm Hi HK Hsz Hfuel Hpool Hrd Hhl Hno Hop Hun Hman laws snapshot_laws a0. destruct (memtable_start meta m0 Hseg ((2 * K + 2) + K) Hf Hm Hi ltac:(lia)) as [Hrep Hempty]. fold laws snapshot_laws a0 in Hrep, Hempty.
  assert (Hclk : forall c, clock_ok (T := MemTable) c) by (intros c; exact I).
  destruct (boot_hosting root real_ep_map role follower tid pid rpc_init thread_start clock now pool m0 fuel Hoff Hrpc Hgc (fun n => Hclk (clock n)) (Hclk now) M K (2 * K + 2) a0 HK Hsz Hfuel Hrep ltac:(lia) Hempty fs Hpool Hrd Hhl Hno Hop Hun Hman)
    as (h0 & Hb & Hg0). exists h0. split; [exact Hb|]. intros os Hlen Hos Hal Hap.
  destruct (host_acts_steps root real_ep_map role follower tid pid rpc_init thread_start clock now pool m0 fuel Hoff Hrpc Hgc (fun n => Hclk (clock n)) (Hclk now) M K (2 * K + 2) a0 HK Hsz Hfuel Hrep ltac:(lia) Hempty os 0 0 h0 _ Hg0 Hlen Hos Hal)
    as (codes & h & s & base & Ha & Hst & Hg & Hwh); [destruct Hpool as [?|?], Hap as [?|?]; auto|].
  pose proof (hg_serving _ _ _ _ _ _ _ _ _ Hg) as Hs. exists codes, h, s. split; [exact Ha|]. split; [exact Hst|]. split; [exact (sv_log _ _ _ _ _ _ _ Hs)|]. split.
  - intros i key time Hlt m. destruct (sv_table _ _ _ _ _ _ _ Hs) as (cs' & Ht' & _). by eapply index_scan.
  - intros Hfor Hend. pose proof (endless_unexpired (seg_cnt_ m0) new_offset (defs_of (mt_index m0)) Hseg) as HP.
    assert (Ha0 : forever a0 /\ endless a0 /\ sized (defs_of (mt_index m0)) a0) by (split_and!; [done|done|exact (rep_sized _ _ _ _ m0 a0 Hrep)]).
    destruct (Hwh _ HP Ha0) as [? [? _]]; [|done]. by eapply (whole_rebooted (H9 := snapshot_laws)).
Qed.

(** The scans of a table show the rows of [a]. *)
Definition shows (m : MemTable) (a : abs_table) : Prop := forall i key time, (i < length (at_defs a))%nat ->
  table_scan m (Z.of_nat i) key time = Some (Some (from_time time (default [] (c ← at_content a !! i; c !! key))), m).

(** C37: Snapshots are named by the minute.  Take a partition with a memory table
    without expiry after any sequence of actions as in the theorem above, and let a
    snapshot fall due in the minute whose name the manifest has.  It replaces the
    file that the manifest still names.  A plain restart gives the replay of the
    log.  If the process is killed when the file has its name and the new manifest
    is not there yet, the next start loads the new file, which is the whole log,
    and replays the log behind the old offset on top of it: these entries are
    applied twice.  If the manifest cannot be written, [MakeSnapshot] removes the
    file that the old manifest names, and the next start skips the log up to the
    old offset: the entries up to it, which were acknowledged, are gone. *)
Theorem snapshot_same_minute `{BinlogFlags} `{Compressors} `{SnapshotFlags} `{EntryCodecLaws} `{ManifestCodecLaws} `{SmallLayout} `{TableFlags}
    (root : bytes) (real_ep_map : gmap bytes bytes) (role : ReplicatorRole) (follower : bool) (tid pid : Z) (rpc_init thread_start : bytes -> Z)
    (clock : Z -> nat -> nat -> Z) (now : nat -> nat -> Z) (pool : list (list bytes) -> list bytes) (meta : TableMeta) (m0 : MemTable) (Hseg : 1 <= seg_cnt_ m0) (fs : FileSystem) (M K fuel : nat) :
  FLAGS_snapshot_compression = str "off" -> (forall point, 0 <= rpc_init point) -> FLAGS_gc_on_table_recover_count <> 0 ->
  flags_ok -> plain_meta meta = true -> MemTable_Init (MemTable_of meta) = Some (true, m0) ->
  Z.of_nat K < 2 ^ 31 - 1 /\ Z.of_nat K < 10 ^ Z.of_nat FLAGS_binlog_name_length -> Z.of_nat (2 * K * (27 * S M)) + 13 < 2 ^ 62 -> (2 * K + 2 < fuel)%nat ->
  in_order pool \/ in_any_order pool ->
  readable fs (path root) -> healthy fs (path root) -> (forall f, is_Some (fs_files fs !! f) -> in_dir (path root) f = false) ->
  open_dir fs (snap_of root 0) -> uncompressed (snap_of root 0) -> fs_files fs !! sn_file (snap_of root 0) MANIFEST = None ->
  let laws := memtable_laws (seg_cnt_ m0) new_offset (defs_of (mt_index m0)) Hseg in
  let snapshot_laws : SnapshotLaws MemTable := memtable_snapshot_laws (seg_cnt_ m0) new_offset (defs_of (mt_index m0)) Hseg in
  let a0 : table_abs MemTable := (abs_table_new m0, is_leader_ (mt_table m0)) in
  let restart := restart root real_ep_map role follower tid pid rpc_init thread_start clock now pool m0 fuel in
  let host_act := host_act root real_ep_map role follower tid pid rpc_init thread_start clock now pool m0 fuel in
  forever a0 -> endless a0 ->
  exists h0, restart fs [] = Some (kOk, h0) /\
  forall os, (length os <= K)%nat -> Forall (host_action_ok (T := MemTable) M) os ->
    all_allowed root real_ep_map role follower tid pid rpc_init thread_start clock now pool m0 fuel h0 os = true ->
    in_order pool \/ all_apart root real_ep_map role follower tid pid rpc_init thread_start clock now pool m0 fuel a0 h0 os ->
  exists codes h, host_acts root real_ep_map role follower tid pid rpc_init thread_start clock now pool m0 fuel h0 os = Some (codes, h) /\
  let w := ho_world h in let sn := ho_snapshot h in let log := history_entries (w_history w) in let behind := drop (Z.to_nat (sn_offset sn)) log in
  let starts_with r es := exists h', r = Some (kOk, h') /\ shows (pa_table (w_partition (ho_world h'))) (foldl abs_apply a0 es).1 in
  forall now_time clk, same_minute h now_time -> u64 (sn_offset sn + FLAGS_make_snapshot_threshold_offset) <= Z.of_nat (length log) < FLAGS_make_snapshot_max_deleted_keys ->
    starts_with (host_act h HostReboot) log /\
    starts_with (host_act h (HostKilled now_time clk 0 FileNamed)) (log ++ behind) /\ (forall n, starts_with (host_act h (HostKilled now_time clk 0 (InManifest n))) (log ++ behind)) /\
    forall n, exists fs1 x1 sn1, MakeSnapshotInternal fuel (manifest_fault n sn (w_fs w)) now_time clk 0 (w_partition w) sn = Some (fs1, x1, sn1) /\
      starts_with (restart (repaired (w_fs w) fs1) (w_history w)) behind.
Proof.
  intros Hoff Hrpc Hgc Hf Hm Hi HK Hsz Hfuel Hpool Hrd Hhl Hno Hop Hun Hman laws snapshot_laws a0 restart1 host_act1 Hfor Hend. destruct (memtable_start meta m0 Hseg ((2 * K + 2) + K) Hf Hm Hi ltac:(lia)) as [Hrep Hempty]. fold laws snapshot_laws a0 in Hrep, Hempty.
  assert (Hclk : forall c, clock_ok (T := MemTable) c) by (intros c; exact I).
  pose proof (endless_unexpired (seg_cnt_ m0) new_offset (defs_of (mt_index m0)) Hseg) as HP. match type of HP with unexpired ?Q => set (P := Q) in HP end.
  assert (Ha0 : P a0) by (split_and!; [done|done|exact (rep_sized _ _ _ _ m0 a0 Hrep)]).
  destruct (boot_hosting root real_ep_map role follower tid pid rpc_init thread_start clock now pool m0 fuel Hoff Hrpc Hgc (fun n => Hclk (clock n)) (Hclk now) M K (2 * K + 2) a0 HK Hsz Hfuel Hrep ltac:(lia) Hempty fs Hpool Hrd Hhl Hno Hop Hun Hman)
    as (h0 & Hb & Hg0). exists h0. split; [exact Hb|]. intros os Hlen Hos Hal Hap.
  destruct (host_acts_steps root real_ep_map role follower tid pid rpc_init thread_start clock now pool m0 fuel Hoff Hrpc Hgc (fun n => Hclk (clock n)) (Hclk now) M K (2 * K + 2) a0 HK Hsz Hfuel Hrep ltac:(lia) Hempty os 0 0 h0 _ Hg0 Hlen Hos Hal)
    as (codes & h & s & base & Ha & _ & Hg & Hwh); [destruct Hpool as [?|?], Hap as [?|?]; auto|]. specialize (Hwh P HP Ha0 ltac:(by eapply (whole_rebooted (H9 := snapshot_laws)))).
  exists codes, h. split; [exact Ha|]. intros w sn log behind starts_with now_time clk Hmin [Hth Hmax]. pose proof (sv_log _ _ _ _ _ _ _ (hg_serving _ _ _ _ _ _ _ _ _ Hg)) as Hlog. fold w log in Hlog.
  pose proof (hg_snapshot _ _ _ _ _ _ _ _ _ Hg) as Hsn. fold sn in Hsn. assert (Hso : sn_offset sn = hs_offset s) by (by rewrite Hsn). unfold behind. rewrite Hso in Hth |- *. rewrite Hlog in Hth, Hmax |- *.
  assert (Hdue : due 0 s) by (split; [intros [? _]; lia|lia]).
  assert (Hshow : forall n t es, table_rep n t (foldl abs_apply a0 es) -> shows t (foldl abs_apply a0 es).1) by (intros n t es (cs & Ht & _) i key time Hlt; by eapply index_scan).
  split; [|split; [|split]].
  - destruct (act_reboot root real_ep_map role follower tid pid rpc_init thread_start clock now pool m0 fuel Hoff Hrpc Hgc (fun n => Hclk (clock n)) (Hclk now) M K (2 * K + 2) a0 HK Hsz Hfuel Hrep ltac:(lia) Hempty _ base h s Hg Hlen) as (h' & Hact & Hg').
    exists h'. split; [exact Hact|]. pose proof (sv_table _ _ _ _ _ _ _ (hg_serving _ _ _ _ _ _ _ _ _ Hg')) as Ht.
    assert (Ho : 0 <= hs_offset s) by (destruct (hg_recorded _ _ _ _ _ _ _ _ _ Hg) as (logs & W & ps & old & Hrc); destruct (rc_range _ _ _ _ _ _ _ _ _ _ _ Hrc); cbn [snap_of sn_offset] in *; lia).
    destruct Hwh as [HX [_ Hidx]]. rewrite HX in Ht. destruct (whole_rebooted (H9 := snapshot_laws) clock now a0 P (hs_offset s) (st_log (hs_store s)) HP Ha0 Ho Hidx) as [_ [Hl _]]. cbn [rebooted hs_store st_live st_log] in Hl, Ht.
    eapply (Hshow _ _ (st_log (hs_store s))). refine (eq_rect _ (table_rep _ _) Ht _ Hl).
  - destruct (second_killed root real_ep_map role follower tid pid rpc_init thread_start clock now pool m0 fuel Hoff Hrpc Hgc (fun n => Hclk (clock n)) (Hclk now) M K (2 * K + 2) a0 HK Hsz Hfuel Hrep ltac:(lia) Hempty P _ base h s now_time clk FileNamed Hg Hlen HP Ha0 Hwh Hmin Hdue Hmax I) as (h' & Hact & Ht). exists h'. split; [exact Hact|by eapply Hshow].
  - intros n. destruct (second_killed root real_ep_map role follower tid pid rpc_init thread_start clock now pool m0 fuel Hoff Hrpc Hgc (fun n => Hclk (clock n)) (Hclk now) M K (2 * K + 2) a0 HK Hsz Hfuel Hrep ltac:(lia) Hempty P _ base h s now_time clk (InManifest n) Hg Hlen HP Ha0 Hwh Hmin Hdue Hmax I) as (h' & Hact & Ht). exists h'. split; [exact Hact|by eapply Hshow].
  - intros n. destruct (second_lost root real_ep_map role follower tid pid rpc_init thread_start clock now pool m0 fuel Hoff Hrpc Hgc (fun n => Hclk (clock n)) (Hclk now) M K (2 * K + 2) a0 HK Hsz Hfuel Hrep ltac:(lia) Hempty P _ base h s now_time clk n Hg Hlen HP Ha0 Hwh Hmin Hdue Hmax) as (fs1 & x1 & sn1 & h' & Hmake & Hact & Ht).
    exists fs1, x1, sn1. split; [exact Hmake|]. exists h'. split; [exact Hact|by eapply Hshow].
Qed.

(** ** An example *)

(** A text encoding of manifests: every byte is written as two letters. *)
Definition manifest_code : code Manifest :=
  map_code (fun m => (mf_offset m, (match mf_name m with Some name => [name] | None => [] end, (mf_count m, mf_term m)))) (fun x => let '(o, (name, (count, term))) := x in Some (MkManifest o (head name) count term))
    (pair_code (num 8) (pair_code (list_code str_code) (pair_code (num 8) (num 8)))).
Definition letters (s : bytes) : bytes := s ≫= fun c => [65 + c / 16; 65 + c `mod` 16].
Fixpoint unletters (s : bytes) : bytes := match s with hi :: lo :: s' => (16 * (hi - 65) + (lo - 65)) :: unletters s' | _ => [] end.
#[local] Instance sample_manifest : ManifestCodec := { PrintToString m := letters (put manifest_code m); ParseManifest s := fst <$> get manifest_code (unletters s) }.

Lemma unletters_letters s : unletters (letters s) = s.
Proof. unfold letters. induction s as [|c s IH]; [done|]. cbn [mbind list_bind app unletters]. rewrite IH. f_equal. pose proof (Z.div_mod c 16). lia. Qed.
Lemma letters_text s : all_bytes s -> 0 ∉ letters s.
Proof.
  unfold letters. induction 1 as [|c s Hc Hs IH]; [apply not_elem_of_nil|]. cbn [mbind list_bind app]. unfold is_byte in Hc. pose proof (Z.div_pos c 16). pose proof (Z.mod_pos_bound c 16).
  rewrite !not_elem_of_cons. split_and!; [lia|lia|done].
Qed.
Lemma manifest_good m : manifest_fits m = true -> good manifest_code m.
Proof.
  unfold manifest_fits. rewrite !andb_true_iff. intros [[[Ho Hn] Hc] Ht]. split; [|by destruct m as [? [] ? ?]]. cbn [pair_code good fst snd].
  split_and!; try (by apply in_uintb_range). destruct (mf_name m); constructor; [by apply bytesb_good|constructor].
Qed.
#[local] Instance sample_manifest_laws : ManifestCodecLaws.
Proof.
  split; intros m Hm%manifest_good; cbn [PrintToString ParseManifest sample_manifest].
  - rewrite unletters_letters, <- (app_nil_r (put manifest_code m)), get_put; done.
  - apply letters_text. by apply put_bytes.
Qed.
#[local] Instance sample_snapshot_flags : SnapshotFlags := {
  FLAGS_snapshot_compression := str "off"; FLAGS_make_snapshot_max_deleted_keys := 1000000; FLAGS_load_table_batch := 2; FLAGS_make_snapshot_threshold_offset := 1
}.

(** A directory whose name has no [z] and no [y] is not taken for a compressed file. *)
Lemma contains_elem s pat c : contains s pat = true -> c ∈ pat -> c ∈ s.
Proof.
  induction s as [|x s IH]; intros Hs Hc; cbn [contains] in Hs; apply orb_true_iff in Hs as [Hs%bool_decide_eq_true|Hs]; try done.
  - rewrite <- Hs, take_nil in Hc. done.
  - rewrite <- Hs in Hc. by apply elem_of_take in Hc as (i & Hi & _); apply list_elem_of_lookup_2 in Hi.
  - right. by apply IH.
Qed.
Lemma plain_root root o : 121 ∉ root -> 122 ∉ root -> uncompressed (snap_of root o).
Proof.
  intros Hy Hz m Hm. assert (Hd : forall c, c ∈ m -> c <= 57) by (intros c Hc; unfold dated in Hm; rewrite Forall_forall in Hm; by apply Hm).
  assert (Hno : forall x s, x ∉ root -> 57 < x -> x ∉ str "/snapshot/" -> x ∉ s -> x ∉ str ".sdb" -> x ∉ (root ++ str "/snapshot/") ++ s ++ sdb m).
  { intros x s ? Hx ? ? ?. unfold sdb. rewrite !not_elem_of_app. split_and!; try done. intros Hin. specialize (Hd x Hin). lia. }
  assert (Hun : forall s, 121 ∉ s -> 122 ∉ s -> IsCompressed ((root ++ str "/snapshot/") ++ s ++ sdb m) = false).
  { intros s H1 H2. unfold IsCompressed. apply orb_false_iff. split; apply not_true_iff_false; intros Hc.
    - apply (Hno 122 s Hz ltac:(lia)); try done; try (refine (bool_decide_unpack _ _); by vm_compute). eapply contains_elem; [exact Hc|]. refine (bool_decide_unpack _ _). by vm_compute.
    - apply (Hno 121 s Hy ltac:(lia)); try done; try (refine (bool_decide_unpack _ _); by vm_compute). eapply contains_elem; [exact Hc|]. refine (bool_decide_unpack _ _). by vm_compute. }
  split; [apply (Hun [])|apply (Hun (str "/"))]; refine (bool_decide_unpack _ _); by vm_compute.
Qed.

(** Two puts, a snapshot, a put, a snapshot that is cut short when a part of its
    manifest is written, a deletion, a snapshot, the deletion of log files, a crash
    and a put *)
Definition card_put (key time : Z) : PutRequest := MkPutRequest [] time [key; key] 1 0 [(0, [key])] [(0, time)] None.
Definition host_actions : list host_action :=
  [HostPut (card_put 3 7); HostPut (card_put 4 7); HostSnapshot (str "20201116120000") (fun _ => 0) 0; HostPut (card_put 3 8);
   HostKilled (str "20201116120100") (fun _ => 0) 0 (InManifest 9); HostDelete (MkDeleteRequest 1 0 [4] (Some (str "card")));
   HostSnapshot (str "20201116120200") (fun _ => 0) 0; HostDeleteBinlog; HostCrash 1000; HostPut (card_put 5 9)].

(** A server that has made a snapshot with one row, and taken another row *)
Definition busy_actions : list host_action := [HostPut (card_put 3 7); HostSnapshot (str "20201116120000") (fun _ => 0) 0; HostPut (card_put 4 7)].

Section actions.
Context (Hseg : 1 <= seg_cnt_ store_table).
#[local] Existing Instances x64_layout x64_small default_flags.
#[local] Instance host_laws : TableLaws MemTable := memtable_laws (seg_cnt_ store_table) new_offset (defs_of (mt_index store_table)) Hseg.

Lemma sublist_one (d : Z * bytes) dims : sublist dims [d] -> dims = [] \/ dims = [d].
Proof. intros Hs. inversion Hs as [|x l1 l2 Hl|x l1 l2 Hl]; subst; apply sublist_nil_r in Hl as ->; auto. Qed.
Lemma card_put_ok key time : 0 <= key < 256 -> 0 <= time < 2 ^ 64 -> host_action_ok (T := MemTable) 120 (HostPut (card_put key time)).
Proof.
  intros Hkey Htime. split; [exact (store_put_ok Hseg key time Hkey Htime)|]. split; [apply NoDup_singleton|].
  intros i dims _ [-> | ->]%sublist_one; apply Nat.leb_le; by vm_compute.
Qed.
Lemma card_delete_ok r : dr_key r = [4] -> host_action_ok (T := MemTable) 120 (HostDelete r).
Proof.
  intros Hkey idx Hidx. split; [|split; [apply NoDup_singleton|]].
  - split.
    + unfold entry_fits, bytesb, in_uintb. cbn [delete_entry le_term le_log_index le_pk le_value le_ts le_dimensions le_ts_dimensions forallb fst snd].
      rewrite (bool_decide_eq_true_2 (0 <= idx < 2 ^ 32)) by done. rewrite Hkey; by vm_compute.
    + intros i _. split; [exact (proj1 Hidx)|]. apply Nat.leb_le. rewrite Hkey; by vm_compute.
  - intros i dims _ [-> | ->]%sublist_one; apply Nat.leb_le; rewrite Hkey; by vm_compute.
Qed.
Lemma host_actions_ok : Forall (host_action_ok (T := MemTable) 120) host_actions.
Proof. repeat (apply Forall_cons; split); try apply Forall_nil; try exact I; try (apply card_put_ok; lia); by apply card_delete_ok. Qed.
Lemma busy_actions_ok : Forall (host_action_ok (T := MemTable) 120) busy_actions.
Proof. repeat (apply Forall_cons; split); try apply Forall_nil; try exact I; apply card_put_ok; lia. Qed.
End actions.

#[local] Existing Instances x64_layout x64_small default_flags.
Definition host_log : list LogEntry :=
  let put i key time := MkLogEntry (Some 0) i [] [key; key] time [(0, [key])] None [(0, time)] in
  [put 1 3 7; put 2 4 7; put 3 3 8; set_log_index 4 (delete_entry 0 [4] 0); put 5 5 9].
Lemma store_endless : endless (abs_table_new store_table, is_leader_ (mt_table store_table)).
Proof. unfold endless. vm_compute. by repeat constructor. Qed.

Lemma snapshot_durable_witness :
  let flag := fun _ : bytes => 0 in let clock := fun (_ : Z) (_ _ : nat) => 0 in let now := fun _ _ : nat => 0 in let pool : list (list bytes) -> list bytes := @concat bytes in
  exists h0 h, restart (str "/db") ∅ kLeaderNode false 1 0 flag flag clock now pool store_table 100 store_fs [] = Some (kOk, h0) /\
  host_acts (str "/db") ∅ kLeaderNode false 1 0 flag flag clock now pool store_table 100 h0 host_actions = Some (replicate 10 kOk, h) /\
  history_entries (w_history (ho_world h)) = host_log /\ sn_offset (ho_snapshot h) = 4 /\
  table_scan (pa_table (w_partition (ho_world h))) 0 [3] None = Some (Some [(8, [3; 3]); (7, [3; 3])], pa_table (w_partition (ho_world h))) /\
  table_scan (pa_table (w_partition (ho_world h))) 0 [4] None = Some (Some [], pa_table (w_partition (ho_world h))).
Proof.
  intros flag clock now pool. assert (Hseg : 1 <= seg_cnt_ store_table) by (vm_compute; congruence).
  destruct (snapshot_durable (str "/db") ∅ kLeaderNode false 1 0 flag flag clock now pool store_meta store_table Hseg store_fs 120 20 100) as (h0 & Hb & Hrun).
  - done.
  - done.
  - done.
  - by vm_compute.
  - by vm_compute.
  - by vm_compute.
  - by vm_compute.
  - by vm_compute.
  - lia.
  - by left.
  - split; [intros Hx; vm_compute in Hx; discriminate Hx|done].
  - intros k. split; [done|constructor].
  - intros f. cbn. rewrite lookup_empty. by intros [].
  - intros name. split; [done|constructor].
  - apply plain_root; refine (bool_decide_unpack _ _); by vm_compute.
  - done.
  - assert (Hsum : ('(_, h0) ← restart (str "/db") ∅ kLeaderNode false 1 0 flag flag clock now pool store_table 100 store_fs [];
      '(codes, h) ← host_acts (str "/db") ∅ kLeaderNode false 1 0 flag flag clock now pool store_table 100 h0 host_actions;
      Some (all_allowed (str "/db") ∅ kLeaderNode false 1 0 flag flag clock now pool store_table 100 h0 host_actions, codes, history_entries (w_history (ho_world h)), sn_offset (ho_snapshot h))) =
      Some (true, replicate 10 kOk, host_log, 4)) by (vm_compute; reflexivity).
    rewrite Hb, bind_some in Hsum. cbv beta iota in Hsum.
    destruct (host_acts _ _ _ _ _ _ _ _ _ _ _ _ _ h0 host_actions) as [[codes h]|] eqn:Ha; [|discriminate Hsum]. rewrite bind_some in Hsum. injection Hsum as Hal -> Hlog Ho.
    destruct (Hrun host_actions ltac:(vm_compute; lia) (host_actions_ok Hseg) Hal (or_introl (fun _ => eq_refl))) as (codes' & h' & s & Ha' & _ & Hh & Hscan & Hlive). rewrite Ha in Ha'. injection Ha' as _ <-.
    exists h0, h. split; [exact Hb|]. split; [exact Ha|]. split; [exact Hlog|]. split; [exact Ho|].
    destruct (Hlive store_forever store_endless) as [_ Hl]. rewrite <- Hh, Hlog in Hl. rewrite Hl in Hscan. split; [apply (Hscan 0%nat [3] None)|apply (Hscan 0%nat [4] None)]; vm_compute; lia.
Defined.

(** ** Two snapshots in one minute *)

Definition busy_log : list LogEntry :=
  let put i key time := MkLogEntry (Some 0) i [] [key; key] time [(0, [key])] None [(0, time)] in [put 1 3 7; put 2 4 7].

Lemma snapshot_same_minute_witness :
  let flag := fun _ : bytes => 0 in let clock := fun (_ : Z) (_ _ : nat) => 0 in let now := fun _ _ : nat => 0 in let pool : list (list bytes) -> list bytes := @concat bytes in
  let restart := restart (str "/db") ∅ kLeaderNode false 1 0 flag flag clock now pool store_table 100 in
  exists h0 codes h, restart store_fs [] = Some (kOk, h0) /\ host_acts (str "/db") ∅ kLeaderNode false 1 0 flag flag clock now pool store_table 100 h0 busy_actions = Some (codes, h) /\
  history_entries (w_history (ho_world h)) = busy_log /\
  (exists h', host_act (str "/db") ∅ kLeaderNode false 1 0 flag flag clock now pool store_table 100 h (HostKilled (str "20201116120059") (fun _ => 0) 0 FileNamed) = Some (kOk, h') /\
     let m := pa_table (w_partition (ho_world h')) in table_scan m 0 [3] None = Some (Some [(7, [3; 3])], m) /\ table_scan m 0 [4] None = Some (Some [(7, [4; 4]); (7, [4; 4])], m)) /\
  (exists fs1 x1 sn1 h', MakeSnapshotInternal 100 (manifest_fault 5 (ho_snapshot h) (w_fs (ho_world h))) (str "20201116120059") (fun _ => 0) 0 (w_partition (ho_world h)) (ho_snapshot h) = Some (fs1, x1, sn1) /\
     restart (repaired (w_fs (ho_world h)) fs1) (w_history (ho_world h)) = Some (kOk, h') /\
     let m := pa_table (w_partition (ho_world h')) in table_scan m 0 [3] None = Some (Some [], m) /\ table_scan m 0 [4] None = Some (Some [(7, [4; 4])], m)).
Proof.
  intros flag clock now pool restart1. assert (Hseg : 1 <= seg_cnt_ store_table) by (vm_compute; congruence).
  destruct (snapshot_same_minute (str "/db") ∅ kLeaderNode false 1 0 flag flag clock now pool store_meta store_table Hseg store_fs 120 20 100) as (h0 & Hb & Hrun).
  - done.
  - done.
  - done.
  - by vm_compute.
  - by vm_compute.
  - by vm_compute.
  - by vm_compute.
  - by vm_compute.
  - lia.
  - by left.
  - split; [intros Hx; vm_compute in Hx; discriminate Hx|done].
  - intros k. split; [done|constructor].
  - intros f. cbn. rewrite lookup_empty. by intros [].
  - intros name. split; [done|constructor].
  - apply plain_root; refine (bool_decide_unpack _ _); by vm_compute.
  - done.
  - exact store_forever.
  - exact store_endless.
  - assert (Hsum : ('(_, h0) ← restart1 store_fs [];
      '(codes, h) ← host_acts (str "/db") ∅ kLeaderNode false 1 0 flag flag clock now pool store_table 100 h0 busy_actions;
      Some (all_allowed (str "/db") ∅ kLeaderNode false 1 0 flag flag clock now pool store_table 100 h0 busy_actions,
            bool_decide (fs_files (w_fs (ho_world h)) !! sn_file (ho_snapshot h) (snapshot_name (str "20201116120059") ++ str ".tmp") = None),
            mf_name (GetLocalManifest (w_fs (ho_world h)) (sn_file (ho_snapshot h) MANIFEST)).2, history_entries (w_history (ho_world h)), sn_offset (ho_snapshot h))) =
      Some (true, true, Some (snapshot_name (str "20201116120059")), busy_log, 1)) by (vm_compute; reflexivity).
    unfold restart1 in Hsum. rewrite Hb, bind_some in Hsum. cbv beta iota in Hsum.
    destruct (host_acts _ _ _ _ _ _ _ _ _ _ _ _ _ h0 busy_actions) as [[codes h]|] eqn:Ha; [|discriminate Hsum]. rewrite bind_some in Hsum. injection Hsum as Hal Htmp Hname Hlog Ho. apply bool_decide_eq_true in Htmp.
    destruct (Hrun busy_actions ltac:(vm_compute; lia) (busy_actions_ok Hseg) Hal (or_introl (fun _ => eq_refl))) as (codes' & h' & Ha' & Hsame). rewrite Ha in Ha'. injection Ha' as <- <-.
    assert (Hmin : same_minute h (str "20201116120059")) by (split; [refine (bool_decide_unpack _ _); by vm_compute|]; split; [exact Htmp|exact Hname]).
    destruct (Hsame (str "20201116120059") (fun _ => 0) Hmin) as (_ & (h1 & Hk & Hk1) & _ & Hl); [rewrite Ho, Hlog; vm_compute; split; congruence|].
    destruct (Hl 5%nat) as (fs1 & x1 & sn1 & Hmake & h2 & Hr & Hl2). rewrite Ho, Hlog in Hk1, Hl2.
    exists h0, codes, h. split; [exact Hb|]. split; [exact Ha|]. split; [exact Hlog|]. split.
    + exists h1. split; [exact Hk|]. split; [apply (Hk1 0%nat [3] None)|apply (Hk1 0%nat [4] None)]; vm_compute; lia.
    + exists fs1, x1, sn1, h2. split; [exact Hmake|]. split; [exact Hr|]. split; [apply (Hl2 0%nat [3] None)|apply (Hl2 0%nat [4] None)]; vm_compute; lia.
Defined.
